(* ===== verification/_CoqProject ===== *)
-Q . S2P
Prelude.v
Types.v
StateMachine.v
Ring.v
Mailbox.v
Watchdog.v
Trace.v
CanV1.v
InputQueue.v
Scheduler.v
Runtime.v
RuntimeInv.v
RuntimeSafety.v
Supervisor.v
Supervision.v
LinuxIo.v
CanIo.v
Daemon.v
NodeSim.v
ClosedLoop.v
Bytes.v
RemoteFrame.v
Application.v
Adapter.v
RemoteControl.v
CellReady.v
McuCan.v
McuNode.v
McuInput.v
McuPlatform.v
McuMain.v
McuJournal.v
McuProbe.v
ModbusRtu.v
ModbusIo.v
SerialPort.v
PhysicalModbus.v
TcpFrame.v
ModbusAgent.v
CellProtocol.v
CellApp.v
Descriptors.v
CommandLine.v
NodeSimApp.v
EdgeCell.v
Programs.v
FaultMatrix.v
Acceptance.v
Doubles.v
Rounding.v
Stats.v
Benchmark.v
Spsc.v
Segments.v
CyclePath.v
TestRunner.v
CanHealth.v
Json.v
ResultWriter.v
MockActuator.v
MbusCodec.v
MbusTcp.v
MbusLink.v
Observer.v
Workbench.v
WorkbenchSafety.v
WorkbenchHealth.v
Window.v
