(* ===== verification/Prelude.v ===== *)
(** * Robot control runtime: verification library

    A model of the repository's control core (the C++ under src/linux), of the firmware
    of the physical node (the C under src/firmware), of the workbench with its protocols,
    device services, controller and window, of the programs built from them, and of the
    communication and timing experiments under src/experiments, with the theorems that
    make them correct.

    ** The program

    A daemon drives one remote CAN node that switches digital outputs.  The
    application publishes output commands with a session, a sequence number and a
    deadline.  [LinuxRuntime] owns the mode (Disabled, Idle, Active, Hold, Fault,
    EStop), keeps at most one pending command (latest wins), at most one command
    waiting for its acknowledgement, and a watchdog; all of it sits behind one state
    mutex.  A scheduler thread calls the runtime once per period on an absolute time
    grid.  The CAN I/O thread turns received frames into events of a bounded queue and
    pumps commands from the runtime to the bus.  On each tick [NodeSupervisor] empties
    the queue and raises faults on the runtime when the node restarts, falls silent,
    reports a fault or the queue overflowed.  [RuntimeDaemon] starts and stops the
    parts.  [CanNodeLogic] is the node at the other end of the bus as the host simulates
    it; the STM32 firmware is the physical one, with its interrupt-fed CAN queues, a
    session journal in flash, a debounced sensor, a servo and an LED.

    An engineer's workbench shows and commands the daemon through an adapter, through a
    remote protocol of framed binary messages, or, for a cell that runs on its own (the
    edge cell application), through that cell's TCP protocol.  Beside the CAN node it
    handles a Modbus RTU terminal with four inputs and four outputs, mocked or behind an
    agent process that owns the serial line, derives one of its outputs from the readiness
    of the cell, moves a mock actuator, and runs a CAN health test whose results it stores.

    The experiments are a Modbus TCP client and server, an observer of a CAN node and a
    Modbus sensor, and a benchmark of latency segments around a lock-free queue.

    ** Files: the control core

    The sources are under src/linux/include/rcr (headers) and src/linux/src.

    - [Prelude]: record update, result type, machine-width integers ([u8] .. [u64],
      [i32], [i64], [incr64] with their wrap-around), generic lemmas, runs of a step
      relation.  Error codes and [Result]: result.hpp.
    - [Types]: types.hpp, the enumerations, [OutputCommand] and [CanFrame].
    - [StateMachine]: core/state_machine.cpp; [sm_handle] is [handle] branch by branch.
    - [Ring]: what the input queue, the trace buffer and the other queues share, a
      circular array that represents a list.
    - [Mailbox], [Watchdog], [Trace], [InputQueue]: core/mailbox.cpp, core/watchdog.cpp,
      core/trace.cpp, core/bounded_input_queue.cpp.
    - [CanV1]: can/can_v1.cpp, the wire format, sequence order and validity conversion.
    - [Scheduler]: linux/scheduler.cpp, the start-up handshake and the periodic loop.
    - [Runtime]: runtime/linux_runtime.cpp; one definition per critical section.
      [RuntimeInv] has the calls the threads can make ([rt_call], [rt_exec] for a
      sequence of them) and the invariant; [RuntimeSafety] the theorems clients rely on.
    - [Supervisor]: supervision/node_supervisor.cpp against the class [Supervised], the
      runtime as the supervisor uses it.  [Supervision] is the instance for
      [LinuxRuntime] and the composed tick.
    - [LinuxIo]: linux/owned_fd.cpp, linux/time.cpp, linux/epoll_reactor.cpp,
      linux/socketcan.cpp, linux/vcan.cpp.  [Descriptors]: closing several of them.
    - [CanIo]: linux/can_io_loop.cpp, the receive path, the pump, the loop and start.
    - [Daemon]: daemon/runtime_daemon.cpp, start with rollback, stop, the API, snapshots.
    - [NodeSim]: sim/node_sim.cpp, the node's session, sequence and lease rules.
    - [ClosedLoop]: runtime, pump, wire, node, receive path and supervisor together.
    - [Doubles]: the type double as the Standard Library specifies binary64, without
      contraction of operations, and its text form.  [Rounding]: what rounding keeps of an
      inequality.  [Stats]: core/stats.cpp, percentiles, for any format of long double.

    ** Files: the workbench (src/linux/src/workbench)

    - [Bytes]: byte lists, little-endian fields, the CRC-16 and what it detects.
    - [RemoteFrame]: application/remote_frame.cpp, the framing and the stream parser.
    - [Application]: application_model.hpp, the plain data of the views.
    - [Adapter]: application/runtime_application_adapter.cpp over [Daemon].
    - [RemoteControl]: application/remote_control_protocol.cpp and
      remote_runtime_client.cpp, endpoint and client.
    - [CellReady]: application/cell_ready_mapper.cpp.
    - [ModbusRtu]: services/modbus_rtu.cpp, requests and reply decoders.
    - [ModbusIo]: profile/mock_modbus_io_profile.cpp, the snapshot and the mock device.
    - [SerialPort]: services/posix_serial_port.cpp, opening the line and collecting a reply.
    - [PhysicalModbus]: services/physical_modbus_io_service.cpp over a link ([RtuLink]);
      the device is the class [ModbusDevice], with a simulated instance.
    - [TcpFrame]: what the two TCP protocols share (framing, receive and send loops), over
      a record of what differs.  [ModbusAgent]: application/modbus_agent_protocol.cpp,
      services/modbus_agent_server.cpp and modbus_agent_client.cpp.  [CellProtocol]:
      application/cell_app_protocol.cpp.  [CellApp]: services/cell_app_server.cpp and
      cell_app_client.cpp.
    - [TestRunner]: services/test_runner.cpp.  [CanHealth]: services/can_health_test.cpp.
      [ResultWriter]: services/result_writer.cpp, against [Json], a writer and an
      independent reader of JSON.
    - [MockActuator]: profile/mock_actuator_profile.cpp, the simulated axis.
    - [Workbench]: the controller of src/linux/tools/qt_device_workbench, with its Modbus
      worker; [WorkbenchSafety]: what holds in every history of its events;
      [WorkbenchHealth]: its health worker; [Window]: ui/main_window.cpp, what is shown
      and which slots the controls call.

    ** Files: the programs (src/linux/apps)

    - [CommandLine]: how the programs read numbers.
    - [NodeSimApp]: rcr_node_sim.cpp, the node on a bus with timers and fault injection.
    - [EdgeCell]: rcr_cell_app.cpp.  [Programs]: rcrd.cpp and rcr_modbus_rtu_agent.cpp.
    - [FaultMatrix]: rcr_fault_matrix.cpp, the scenarios inside the process.
    - [Acceptance]: rcr_vcan_acceptance.cpp against a peer (bus, simulator and clock) that
      may do anything, with the node logic as one such peer.
    - [Benchmark]: rcr_benchmark.cpp.

    ** Files: the firmware (src/firmware/stm32f103)

    - [McuCan]: can_v1.c.  [McuNode]: node.c.  [McuInput]: input_debounce.c, servo_pwm.c.
    - [McuPlatform]: platform_stm32f103.c; the machine is a trace of register accesses
      and the hardware a function from the trace to the value a read returns; the receive
      FIFO of the CAN controller is the class [CanFifo].
    - [McuMain]: main.c, start-up and one turn of the loop.
    - [McuJournal]: the session journal of platform_stm32f103.c under power failures; the
      flash controller is a state machine (lock and keys, control bits, operation in
      progress, page) behind the class [FlashController], with a simulated instance.
    - [McuProbe]: arbitration_probe.c.

    ** Files: the experiments (src/experiments)

    - [MbusCodec], [MbusTcp]: modbus_tcp, codec, framing and registers, client and server;
      [MbusLink]: the two together.
    - [Observer]: multibus_observer, the store, its two workers and the printed lines.
    - [Spsc]: the lock-free queue of realtime_segmented; [Segments]: the program around it.
    - [CyclePath]: rcr_rt3_cycle_path of realtime_userspace; the clock readings are inputs.

    ** How the code is modelled

    A class is a record, a method a function on it; a method that can fail returns
    [Result], as in the code.  A method that runs under a mutex is one atomic step, so
    an interleaving of threads is a sequence of steps; where a method releases the lock
    in between (the I/O turn, the pump, the daemon's [clear_fault]), what other threads
    did there is an argument.  In the fault matrix the worker's ticks between two calls of
    the main thread are arguments; the daemon's start is modelled without worker steps
    between its calls.  In the lock-free queue every access is a step, and a
    load of the other thread's index may return any value not older than one it has seen.
    What the kernel answers (clock samples, system calls, readiness, received frames, the
    delay with which a timer is set) is an argument too, and the theorems quantify over it;
    nothing is assumed of the kernel beyond the hypotheses a theorem names.  Counters and
    timestamps keep their width where the code can wrap; the mock actuator's sums of signed
    nanoseconds are written without wrap-around, where overflow has no meaning.  An error
    message ends where the text of [strerror] would follow.  A read outside an array and a
    conversion that the type cannot hold are a result of their own, which theorems exclude
    ([Stats], [Segments]) or show to be reached ([CellApp]).

    Qt is not under src: its string and number functions are the classes [QtText] and
    [QtFormat], with instances.  The health test's callbacks are taken as set.

    In the firmware the receive interrupt and the clock tick run, as the platform's
    schedule [pl_irqs] says, before every platform call of the main loop and between
    copying a received frame and releasing its slot; a block with interrupts disabled is
    one step.  Memory barriers have no effect in this model.  [CanFifo] says that a release
    takes a frame out of the controller's FIFO and that no two frames arrive within the first
    24 register accesses of a handler, a few microseconds against the 94 a frame needs at
    500 kbit/s; [FlashController] that accesses the manual allows take effect, that an
    operation ends within the firmware's polling limit, and what the registers then read.

    A loop that waits for the environment (the scheduler loop, the I/O loop, retries on
    EINTR, the daemon's wait, the serial receive loop, the servers and workers) recurses on
    the list of answers it receives, one per turn, and says whether it left the loop or the
    list ended; a loop bounded by the code (the receive budget, the supervisor's event
    budget, the firmware's polling limit of 10^6 reads) recurses on that bound.  The other
    loops have a measure as fuel: the parser loops take one turn more than the bytes in the
    buffer ([push_bytes_terminates] shows that this is always enough), the frame servers
    the same, the JSON reader the length of its text, the firmware's receive loop eight
    turns more than the frames the interrupts still bring, its receive interrupt five turns
    and its transmit pump eight ([firmware_outputs_follow_node] shows that none of them is
    cut off: [pl_hung] stays false), the health test's observation loop
    window / interval + 3 turns ([observation_loop_ends]; a run whose loop had not ended has
    no result), the observer's catch-up two more
    than the periods missed, the fault matrix's waiting loop budget / 20 + 2 turns
    ([wait_turns_enough]), and the acceptance program's waiting loops any number above
    10^9, the nanoseconds of its longest wait ([acceptance_ends]).

    ** What the theorems show

    - Output safety ([RuntimeSafety]): outside Active the output path is empty; a command
      leaves the runtime only in Active, fresh, with the bound session and nothing
      unacknowledged; delivered commands were accepted, are never repeated or reordered, and
      their sequences increase within an activation; each tick enforces the acknowledgement
      and command deadlines; a fault is raised atomically; recovery from Hold works; tracing
      never influences control.  [FaultMatrix] adds that seventeen of the nineteen
      in-process scenarios of the fault matrix pass however the worker's ticks fall,
      [Acceptance] that a passed acceptance run has its evidence on the wire, ends, and
      leaves no child.
    - State machine: [sm_handle] is exactly the documented rule set, with the mode and the
      fault it leaves; reactivation needs an explicit event; the emergency stop is latched.
    - Supervision: it only takes permission away and reports an overflowed queue before any
      event; a silent node faults on the tick that sees the deadline pass; a fault is
      cleared only after recovery; the composed tick is a run of runtime calls, so the
      runtime's invariant covers it.
    - CAN I/O: a frame is sent only with permission and under supervision; commands keep
      their content and order on the wire; stop beats traffic; a failed start leaves no
      descriptor, thread or registration behind, and a socket never leaks.
    - Wire format: every legal message round trips, every accepted frame is the encoding of
      what was decoded, deadlines convert to validity exactly in range; the firmware's codec
      agrees with the host's ([McuCan.codecs_agree]).
    - Node and closed loop: outputs only under a live lease, no replay, the verdict for
      every command; a tracked command's frame is applied and its acknowledgement releases
      the runtime, or it is refused and stays in flight; nothing else releases it.  The
      firmware's node refines the host's node on a clock that wraps
      ([McuNode.mcu_node_refines]); the simulator program is the node on a bus, its frames
      exactly the node's answers, and its deadline timer guards the lease ([NodeSimApp]).
    - Firmware: for any hardware with a working CAN FIFO and any interrupts the start and
      every turn end and the servo and LED registers are what the node's state prescribes,
      from reset on; the interrupt-fed ring is a bounded FIFO; the debouncer computes the
      settled level; the session journal counts starts across power failures, except while a
      full page is replaced.
    - Containers and timing: the queue refines a bounded FIFO, the mailbox keeps the latest
      command, the trace returns the newest events, the watchdog fires once, the scheduler
      stays on its grid and never replays missed periods; the lock-free queue is a bounded
      FIFO without data races under every interleaving ([Spsc]), so a segmented run loses no
      sample ([Segments]); percentiles read inside their samples and do not overflow
      ([Stats]), and a benchmark that exits with 0 has every wake-up in its file
      ([Benchmark]).
    - Daemon and adapter: start is all or nothing, clear_fault needs every cause gone, an
      operator's activation leaves nothing of earlier ones, and an accepted request fits the
      wire.
    - Remote protocol: frames survive any cutting of the stream, corruption of two adjacent
      bytes is refused, the receive loop ends, statuses round trip, and client and endpoint
      refine a session without bytes.
    - Modbus: reply decoders accept exactly the reply grammar and refuse corruption; a reply
      is reassembled from any pieces; an output shown as confirmed is what the coil drives;
      all-off stops at the first failure; the mock refines a terminal; DO0 follows readiness
      edges only.
    - Cell and agent: a client's call over TCP is one call of the server's handler, and the
      edge cell asks the agent for exactly the writes of an abstract cell ([EdgeCell]).
    - Tests and results: a PASS is earned by every step, the observation loop ends, so every
      health test returns and stores its result, a result file is absent or complete at
      every moment and reads back as written.
    - Workbench: at most one request in flight, writes only to a terminal seen ONLINE, what
      is shown as confirmed is what the coils drive; the window only shows, and offers the
      actuator's buttons as the actuator accepts their commands (Drive Disable is also
      accepted in FAULT, where it is not offered); a jog needs renewal.
    - Experiments: a Modbus TCP call is a register access; the observer's fresh line is the
      node's last status and its temperature the sensor's.

    Nine theorems record behaviour that differs from what the code or its documentation
    intends: [CanV1.decode_ignores_error_flag],
    [CanV1.validity_overflow_accepts_far_deadline],
    [CanIo.retained_command_outlives_activation],
    [Daemon.clear_fault_loses_concurrent_fault],
    [CellApp.poll_reads_past_pollfds], [MbusLink.timeout_loses_step],
    [MbusLink.bad_stream_sticks], [MockActuator.quick_stop_revokes_disable] and
    [WorkbenchSafety.late_completion_undoes_disconnect].

    ** What is not modelled

    Log output and printed reports, except where a program's lines are its result; the
    move constructors of the descriptor wrappers (moves leave an empty source); the sleep
    loop of the daemon's duration thread; wall-clock time.  The
    fault matrix's scenarios with child processes, which script processes and signals
    of a real kernel; the evidence files of the test programs.  The programs under
    src/experiments/realtime_userspace that measure page faults and priority inheritance,
    and the demonstration programs of the Modbus TCP experiment.  The
    entry point of the Qt workbench and the layout of its window. *)

From stdpp Require Export prelude strings.
From Stdlib Require Export ZArith Lia.
Local Open Scope Z_scope.

(** ** Record update

    [r <| f := v |>] is the record [r] with its field [f] set to [v], and
    [r <| f ::= g |>] applies [g] to the field.  A record type opts in with an
    [Eta] instance that rebuilds a value from its projections. *)

Class Eta (R : Type) := mkEta { eta : R → R }.

Class Update {R E : Type} (proj : R → E) := mkUpdate { update : (E → E) → R → R }.

Ltac derive_update proj :=
  lazymatch type of proj with
  | ?R → ?E =>
    exact (mkUpdate R E proj (fun (f : E → E) (r : R) => ltac:(
      let e := eval hnf in (@eta R _ r) in
      lazymatch eval pattern (proj r) in e with
      | ?g _ => let e' := eval cbv beta in (g (f (proj r))) in exact e'
      end)))
  end.

#[export] Hint Extern 1 (Update ?proj) => derive_update proj : typeclass_instances.
Arguments update {R E} proj {_} f r /.

Declare Scope rcr_scope.
Delimit Scope rcr_scope with rcr.

#[warnings="-postfix-notation-not-level-1"]
Notation "r <| p := v |>" := (update p (fun _ => v) r)
  (at level 12, left associativity, p at level 0, v at level 99,
   format "r  <| p  :=  v |>") : rcr_scope.
#[warnings="-postfix-notation-not-level-1"]
Notation "r <| p ::= f |>" := (update p f r)
  (at level 12, left associativity, p at level 0, f at level 99,
   format "r  <| p  ::=  f |>") : rcr_scope.
Open Scope rcr_scope.

(** ** Machine integers

    A value of an unsigned C++ type of [w] bits is a [Z] in [0, 2^w); [wrap w]
    is the conversion to that type (reduction modulo 2^w). *)

Definition wrap (w v : Z) : Z := v mod 2 ^ w.
Definition u8 (v : Z) : Z := wrap 8 v.
Definition u16 (v : Z) : Z := wrap 16 v.
Definition u32 (v : Z) : Z := wrap 32 v.
Definition u64 (v : Z) : Z := wrap 64 v.

(** [static_cast<std::int16_t>] of a 16-bit value (two's complement). *)
Definition i16 (v : Z) : Z := if u16 v <? 2 ^ 15 then u16 v else u16 v - 2 ^ 16.

(** [(int32_t)] of a 32-bit value. *)
Definition i32 (v : Z) : Z := if u32 v <? 2 ^ 31 then u32 v else u32 v - 2 ^ 32.

(** [static_cast<std::int64_t>] of a 64-bit value. *)
Definition i64 (v : Z) : Z := if u64 v <? 2 ^ 63 then u64 v else u64 v - 2 ^ 64.

Definition is_u (w v : Z) : Prop := 0 ≤ v < 2 ^ w.
Definition is_i64 (v : Z) : Prop := - 2 ^ 63 ≤ v < 2 ^ 63.

#[export] Instance is_u_dec w v : Decision (is_u w v).
Proof. unfold is_u. apply _. Defined.
#[export] Instance is_i64_dec v : Decision (is_i64 v).
Proof. unfold is_i64. apply _. Defined.

(** A relaxed [fetch_add(1)] on an [std::atomic<std::uint64_t>] counter. *)
Definition incr64 (v : Z) : Z := u64 (v + 1).

Lemma wrap_range w v : 0 ≤ w → is_u w (wrap w v).
Proof. intros. unfold is_u, wrap. apply Z.mod_pos_bound. lia. Qed.

Lemma wrap_small w v : is_u w v → wrap w v = v.
Proof. intros [??]. unfold wrap. apply Z.mod_small. lia. Qed.

Lemma u8_range v : is_u 8 (u8 v).
Proof. by apply wrap_range. Qed.
Lemma u16_range v : is_u 16 (u16 v).
Proof. by apply wrap_range. Qed.
Lemma u32_range v : is_u 32 (u32 v).
Proof. by apply wrap_range. Qed.
Lemma u64_range v : is_u 64 (u64 v).
Proof. by apply wrap_range. Qed.

Lemma u8_small v : is_u 8 v → u8 v = v.
Proof. apply wrap_small. Qed.
Lemma u16_small v : is_u 16 v → u16 v = v.
Proof. apply wrap_small. Qed.
Lemma u32_small v : is_u 32 v → u32 v = v.
Proof. apply wrap_small. Qed.
Lemma u64_small v : is_u 64 v → u64 v = v.
Proof. apply wrap_small. Qed.

Lemma i64_small v : is_i64 v → i64 v = v.
Proof.
  unfold is_i64, i64, u64, wrap. change (2 ^ 63) with 9223372036854775808.
  change (2 ^ 64) with 18446744073709551616. intros [Hlo Hhi].
  destruct (Z.lt_ge_cases v 0) as [Hn|Hp].
  - replace (v mod 18446744073709551616) with (v + 18446744073709551616)
      by (apply Z.mod_unique with (-1); lia).
    rewrite (proj2 (Z.ltb_ge _ _)) by lia. lia.
  - rewrite Z.mod_small by lia. rewrite (proj2 (Z.ltb_lt _ _)) by lia. done.
Qed.

(** The signed difference of two wrapping 32-bit counters is their true difference,
    as long as that is within 2^31. *)
Lemma i32_diff a b : - 2 ^ 31 ≤ a - b < 2 ^ 31 → i32 (u32 (u32 a - u32 b)) = a - b.
Proof.
  intros Hd. unfold i32, u32, wrap. rewrite Z.mod_mod by done.
  rewrite <- Zminus_mod.
  change (2 ^ 31) with 2147483648 in *. change (2 ^ 32) with 4294967296.
  destruct (Z.lt_ge_cases (a - b) 0).
  - replace ((a - b) mod 4294967296) with (a - b + 4294967296)
      by (apply Z.mod_unique with (-1); lia).
    rewrite (proj2 (Z.ltb_ge _ _)) by lia. lia.
  - rewrite Z.mod_small by lia. by rewrite (proj2 (Z.ltb_lt _ _)) by lia.
Qed.

Create HintDb rcr.
#[export] Hint Resolve u8_range u16_range u32_range u64_range : rcr.

(** [lia] on goals whose hypotheses are the width predicates. *)
Ltac width_lia :=
  unfold is_u, is_i64 in *;
  repeat match goal with
  | H : context [2 ^ ?w] |- _ =>
      let v := eval vm_compute in (2 ^ w) in progress change (2 ^ w) with v in H
  | |- context [2 ^ ?w] =>
      let v := eval vm_compute in (2 ^ w) in progress change (2 ^ w) with v
  end; lia.

(** *** Bit fields *)

Lemma land_ones_mod v n : 0 ≤ n → Z.land v (Z.ones n) = v mod 2 ^ n.
Proof. intros. by rewrite Z.land_ones. Qed.

(** Disjoint bit fields add up: [(hi << n) | lo] with [lo < 2^n]. *)
Lemma lor_shiftl_add hi lo n :
  0 ≤ n → 0 ≤ lo < 2 ^ n → Z.lor (Z.shiftl hi n) lo = hi * 2 ^ n + lo.
Proof.
  intros Hn Hlo.
  assert (Hdisj : Z.land (Z.shiftl hi n) lo = 0).
  { apply Z.bits_inj'. intros i Hi. rewrite Z.land_spec, Z.bits_0.
    destruct (Z.lt_ge_cases i n) as [Hin|Hin].
    - by rewrite Z.shiftl_spec_low.
    - rewrite <-(Z.mod_small lo (2 ^ n)) by done.
      rewrite Z.mod_pow2_bits_high by lia. apply andb_false_r. }
  rewrite <-Z.shiftl_mul_pow2, <-Z.lxor_lor by done.
  symmetry. by apply Z.add_nocarry_lxor.
Qed.

Lemma land_mask_div v m n :
  0 ≤ m → 0 ≤ n → Z.land (Z.shiftr v m) (Z.ones n) = (v / 2 ^ m) mod 2 ^ n.
Proof. intros. by rewrite land_ones_mod, Z.shiftr_div_pow2. Qed.

(** Exhaustive check of a small range by evaluation. *)
Lemma forall_below (P : Z → bool) (n : nat) :
  forallb P (map Z.of_nat (seq 0 n)) = true → ∀ z, 0 ≤ z < Z.of_nat n → P z = true.
Proof.
  intros Hall z Hz. rewrite forallb_forall in Hall. apply Hall.
  apply in_map_iff. exists (Z.to_nat z). split; [lia|]. apply in_seq. lia.
Qed.

(** ** Results

    [rcr::Errc], [rcr::Error] and [rcr::Result<T>] (include/rcr/result.hpp). *)

Module Errc.
Inductive Errc :=
  | Ok | InvalidArgument | NotOpen | IoError | Timeout | WouldBlock | Busy
  | Rejected | Unsupported.
End Errc.
Notation Errc := Errc.Errc.

#[export] Instance Errc_eq_dec : EqDecision Errc.
Proof. solve_decision. Defined.

Definition errc_to_string (c : Errc) : string :=
  match c with
  | Errc.Ok => "OK"
  | Errc.InvalidArgument => "INVALID_ARGUMENT"
  | Errc.NotOpen => "NOT_OPEN"
  | Errc.IoError => "IO_ERROR"
  | Errc.Timeout => "TIMEOUT"
  | Errc.WouldBlock => "WOULD_BLOCK"
  | Errc.Busy => "BUSY"
  | Errc.Rejected => "REJECTED"
  | Errc.Unsupported => "UNSUPPORTED"
  end.

Record Error := mkError { err_code : Errc; err_message : string }.

#[export] Instance Error_eq_dec : EqDecision Error.
Proof. solve_decision. Defined.

(** The C++ class keeps a default value beside the error; no caller reads it
    after a failed [ok()] test, so the two cases are kept apart here. *)
Inductive Result (T : Type) :=
  | Ok (value : T)
  | Err (error : Error).
Arguments Ok {T} value.
Arguments Err {T} error.

#[export] Instance Result_eq_dec `{EqDecision T} : EqDecision (Result T).
Proof. solve_decision. Defined.

Definition res_ok {T} (r : Result T) : bool :=
  match r with Ok _ => true | Err _ => false end.

(** [value()] guarded by a default, for the idiom [now ? now.value() : d]. *)
Definition value_or {T} (d : T) (r : Result T) : T :=
  match r with Ok v => v | Err _ => d end.

Definition res_bind {T U} (r : Result T) (k : T → Result U) : Result U :=
  match r with Ok v => k v | Err e => Err e end.

Notation "'let?' x := r 'in' k" := (res_bind r (fun x => k))
  (at level 200, x pattern, r at level 100, k at level 200) : rcr_scope.

(** Linux [errno] values the code distinguishes. *)
Definition EPERM : Z := 1.
Definition EINTR : Z := 4.
Definition EIO : Z := 5.
Definition EAGAIN : Z := 11.
Definition EACCES : Z := 13.
Definition EINVAL : Z := 22.
Definition ECANCELED : Z := 125.

Definition fail_with {T} (c : Errc) (m : string) : Result T := Err (mkError c m).

Lemma res_bind_Ok {T U} (r : Result T) (k : T → Result U) v :
  res_bind r k = Ok v → ∃ x, r = Ok x ∧ k x = Ok v.
Proof. destruct r; naive_solver. Qed.

(** C++ [==] on enumerations and other decidable data. *)
Notation "a ==? b" := (bool_decide (a = b)) (at level 70, no associativity) : rcr_scope.

(** ** Case analysis

    [split_guards] decides every guard of a goal or hypothesis (a boolean test
    in an [if], or a [match] on data) and clears the impossible cases. *)

Ltac guard_step :=
  match goal with
  | H : Ok _ = Ok _ |- _ => injection H as H; subst
  | H : Err _ = Err _ |- _ => injection H as H; subst
  | H : Some _ = Some _ |- _ => injection H as H; subst
  | H : (_, _) = (_, _) |- _ => injection H as H; subst
  | H : Ok _ = Err _ |- _ => discriminate H
  | H : Err _ = Ok _ |- _ => discriminate H
  | H : Some _ = None |- _ => discriminate H
  | H : None = Some _ |- _ => discriminate H
  | H : true = false |- _ => discriminate H
  | H : false = true |- _ => discriminate H
  | H : context [if ?b then _ else _] |- _ => destruct b eqn:?
  | H : context [match ?x with _ => _ end] |- _ => destruct x eqn:?
  | |- context [if ?b then _ else _] => destruct b eqn:?
  | |- context [match ?x with _ => _ end] => destruct x eqn:?
  end.

Ltac split_guards := repeat (guard_step; try done); try done.

(** Split the goal on a discriminant that contains no other [match]: the guards of
    nested calls are decided from the inside out. *)
Ltac split_inner :=
  match goal with
  | |- context [match ?x with _ => _ end] =>
      lazymatch x with context [match _ with _ => _ end] => fail | _ => destruct x eqn:? end
  end.

(** Boolean tests to propositions. *)
Ltac bools :=
  repeat match goal with
  | H : _ && _ = true |- _ => apply andb_prop in H as [? ?]
  | H : _ || _ = false |- _ => apply orb_false_elim in H as [? ?]
  | H : negb _ = true |- _ => apply negb_true_iff in H
  | H : negb _ = false |- _ => apply negb_false_iff in H
  | H : bool_decide _ = true |- _ => apply bool_decide_eq_true in H
  | H : bool_decide _ = false |- _ => apply bool_decide_eq_false in H
  | H : (_ =? _) = true |- _ => apply Z.eqb_eq in H
  | H : (_ =? _) = false |- _ => apply Z.eqb_neq in H
  | H : (_ <? _) = true |- _ => apply Z.ltb_lt in H
  | H : (_ <? _) = false |- _ => apply Z.ltb_ge in H
  | H : (_ <=? _) = true |- _ => apply Z.leb_le in H
  | H : (_ <=? _) = false |- _ => apply Z.leb_gt in H
  end.

(** ** Runs of a transition system *)

Section Runs.
Context {State Label : Type} (step : State → Label → State → Prop).

Inductive run : State → list Label → State → Prop :=
  | run_nil s : run s [] s
  | run_cons s l s' ls s'' : step s l s' → run s' ls s'' → run s (l :: ls) s''.

(** Rule induction for invariants: what every step preserves holds along
    every run. *)
Lemma run_invariant (P : State → Prop) s ls s' :
  (∀ a l b, P a → step a l b → P b) → P s → run s ls s' → P s'.
Proof. intros Hp H0 Hr. revert H0. induction Hr; eauto. Qed.

Lemma run_app s ls1 s' ls2 s'' :
  run s ls1 s' → run s' ls2 s'' → run s (ls1 ++ ls2) s''.
Proof. induction 1; cbn; intros; [done|]. econstructor; eauto. Qed.
End Runs.
