(* ===== verification/Types.v ===== *)
(** * Shared types of the runtime core

    The enumerations and structs of include/rcr/types.hpp.  Each C++ scoped
    enumeration is a module, so that its constructors are written as in the
    source ([RuntimeMode.Active], [FaultCode.None]); [*_code] is the underlying
    integer the source obtains with a [static_cast]. *)

From S2P Require Import Prelude.
Local Open Scope Z_scope.

Module RuntimeMode.
Inductive RuntimeMode := Disabled | Idle | Active | Hold | Fault | EStop.
End RuntimeMode.
Notation RuntimeMode := RuntimeMode.RuntimeMode.

#[export] Instance RuntimeMode_eq_dec : EqDecision RuntimeMode.
Proof. solve_decision. Defined.

Definition mode_code (m : RuntimeMode) : Z :=
  match m with
  | RuntimeMode.Disabled => 0
  | RuntimeMode.Idle => 1
  | RuntimeMode.Active => 2
  | RuntimeMode.Hold => 3
  | RuntimeMode.Fault => 4
  | RuntimeMode.EStop => 5
  end.

Definition mode_to_string (m : RuntimeMode) : string :=
  match m with
  | RuntimeMode.Disabled => "DISABLED"
  | RuntimeMode.Idle => "IDLE"
  | RuntimeMode.Active => "ACTIVE"
  | RuntimeMode.Hold => "HOLD"
  | RuntimeMode.Fault => "FAULT"
  | RuntimeMode.EStop => "ESTOP"
  end.

Module RuntimeEvent.
Inductive RuntimeEvent :=
  | Boot | ActivateRequest | DeactivateRequest | CommandTimeout | InterlockLost
  | InterlockReady | FaultDetected | FaultCleared | EStopTrigger | EStopReset
  | Resume | Hold.
End RuntimeEvent.
Notation RuntimeEvent := RuntimeEvent.RuntimeEvent.

#[export] Instance RuntimeEvent_eq_dec : EqDecision RuntimeEvent.
Proof. solve_decision. Defined.

Definition event_to_string (e : RuntimeEvent) : string :=
  match e with
  | RuntimeEvent.Boot => "BOOT"
  | RuntimeEvent.ActivateRequest => "ACTIVATE_REQUEST"
  | RuntimeEvent.DeactivateRequest => "DEACTIVATE_REQUEST"
  | RuntimeEvent.CommandTimeout => "COMMAND_TIMEOUT"
  | RuntimeEvent.InterlockLost => "INTERLOCK_LOST"
  | RuntimeEvent.InterlockReady => "INTERLOCK_READY"
  | RuntimeEvent.FaultDetected => "FAULT_DETECTED"
  | RuntimeEvent.FaultCleared => "FAULT_CLEARED"
  | RuntimeEvent.EStopTrigger => "ESTOP_TRIGGER"
  | RuntimeEvent.EStopReset => "ESTOP_RESET"
  | RuntimeEvent.Resume => "RESUME"
  | RuntimeEvent.Hold => "HOLD"
  end.

Module FaultCode.
Inductive FaultCode :=
  | None | Watchdog | InputFault | CommLoss | NodeFault | ProtocolReject
  | InterlockLost | Internal | AckTimeout.
End FaultCode.
Notation FaultCode := FaultCode.FaultCode.

#[export] Instance FaultCode_eq_dec : EqDecision FaultCode.
Proof. solve_decision. Defined.

Definition fault_code (f : FaultCode) : Z :=
  match f with
  | FaultCode.None => 0
  | FaultCode.Watchdog => 1
  | FaultCode.InputFault => 2
  | FaultCode.CommLoss => 3
  | FaultCode.NodeFault => 4
  | FaultCode.ProtocolReject => 5
  | FaultCode.InterlockLost => 6
  | FaultCode.Internal => 7
  | FaultCode.AckTimeout => 8
  end.

Definition fault_to_string (f : FaultCode) : string :=
  match f with
  | FaultCode.None => "NONE"
  | FaultCode.Watchdog => "WATCHDOG"
  | FaultCode.InputFault => "INPUT_FAULT"
  | FaultCode.CommLoss => "COMM_LOSS"
  | FaultCode.NodeFault => "NODE_FAULT"
  | FaultCode.ProtocolReject => "PROTOCOL_REJECT"
  | FaultCode.InterlockLost => "INTERLOCK_LOST"
  | FaultCode.Internal => "INTERNAL"
  | FaultCode.AckTimeout => "ACK_TIMEOUT"
  end.

(** [rcr::OutputCommand]: [session_id] and [sequence] are 64-bit, [mask] and
    [values] 32-bit unsigned; [deadline_ns] is a 64-bit signed monotonic time. *)
Record OutputCommand := mkOutputCommand {
  cmd_session_id : Z;
  cmd_sequence : Z;
  cmd_deadline_ns : Z;
  cmd_mask : Z;
  cmd_values : Z
}.

#[export] Instance OutputCommand_eq_dec : EqDecision OutputCommand.
Proof. solve_decision. Defined.

Definition command_wf (c : OutputCommand) : Prop :=
  is_u 64 (cmd_session_id c) ∧ is_u 64 (cmd_sequence c) ∧
  is_i64 (cmd_deadline_ns c) ∧ is_u 32 (cmd_mask c) ∧ is_u 32 (cmd_values c).

(** [rcr::CanFrame]: a 32-bit SocketCAN identifier with its flag bits, a length
    and the eight payload bytes. *)
Record CanFrame := mkCanFrame {
  can_id : Z;
  can_len : Z;
  can_data : list Z
}.

#[export] Instance CanFrame_eq_dec : EqDecision CanFrame.
Proof. solve_decision. Defined.
#[export] Instance CanFrame_eta : Eta CanFrame :=
  mkEta _ (fun f => mkCanFrame (can_id f) (can_len f) (can_data f)).

Definition is_byte (b : Z) : Prop := is_u 8 b.

Definition frame_wf (f : CanFrame) : Prop :=
  is_u 32 (can_id f) ∧ is_u 8 (can_len f) ∧
  length (can_data f) = 8%nat ∧ Forall is_byte (can_data f).

Definition is_extended (f : CanFrame) : bool :=
  negb (Z.land (can_id f) 0x80000000 =? 0).

Definition is_rtr (f : CanFrame) : bool :=
  negb (Z.land (can_id f) 0x40000000 =? 0).

Definition frame_id (f : CanFrame) : Z := Z.land (can_id f) 0x1FFFFFFF.

(** [frame.data[i]]; every index the code uses is below eight. *)
Definition data_at (f : CanFrame) (i : nat) : Z := default 0 (can_data f !! i).

Lemma data_at_byte f i : frame_wf f → is_byte (data_at f i).
Proof.
  intros (_ & _ & _ & Hall). unfold data_at.
  destruct (can_data f !! i) eqn:E; [|done].
  eapply Forall_lookup_1 in Hall; eauto.
Qed.

(** The names are unambiguous: two enumerators never print alike. *)
Lemma mode_to_string_inj : Inj (=) (=) mode_to_string.
Proof. intros [] []; done. Qed.
Lemma event_to_string_inj : Inj (=) (=) event_to_string.
Proof. intros [] []; done. Qed.
Lemma fault_to_string_inj : Inj (=) (=) fault_to_string.
Proof. intros [] []; done. Qed.
