(* ===== verification/StateMachine.v ===== *)
(** * The software state machine

    [RuntimeStateMachine] of include/rcr/state_machine.hpp and
    src/core/state_machine.cpp: six modes, a software interlock and the last
    fault classification.  [handle] follows the source branch by branch; a
    [break] out of the [switch] continues with [handle_tail]. *)

From S2P Require Import Prelude Types.
Local Open Scope Z_scope.

Record TransitionResult := mkTransitionResult {
  accepted : bool;
  from : RuntimeMode;
  to : RuntimeMode;
  reason : string
}.

#[export] Instance TransitionResult_eq_dec : EqDecision TransitionResult.
Proof. solve_decision. Defined.

Record RuntimeStateMachine := mkRuntimeStateMachine {
  sm_mode : RuntimeMode;
  sm_interlock_ready : bool;
  sm_fault : FaultCode
}.

#[export] Instance RuntimeStateMachine_eq_dec : EqDecision RuntimeStateMachine.
Proof. solve_decision. Defined.
#[export] Instance RuntimeStateMachine_eta : Eta RuntimeStateMachine :=
  mkEta _ (fun s => mkRuntimeStateMachine (sm_mode s) (sm_interlock_ready s) (sm_fault s)).

Definition sm_init : RuntimeStateMachine :=
  mkRuntimeStateMachine RuntimeMode.Disabled false FaultCode.None.

Definition can_accept_output (s : RuntimeStateMachine) : bool :=
  (sm_mode s ==? RuntimeMode.Active) && sm_interlock_ready s.

Definition sm_set_fault (code : FaultCode) (s : RuntimeStateMachine) : RuntimeStateMachine :=
  s <| sm_fault := code |>.

Definition annotate (text : string) (event : RuntimeEvent) : string :=
  (text +:+ " (event=" +:+ event_to_string event +:+ ")")%string.

Definition sm_reject (s : RuntimeStateMachine) (event : RuntimeEvent) (text : string)
    : RuntimeStateMachine * TransitionResult :=
  (s, mkTransitionResult false (sm_mode s) (sm_mode s) (annotate text event)).

Definition sm_accept (s : RuntimeStateMachine) (next : RuntimeMode)
    (event : RuntimeEvent) (text : string) : RuntimeStateMachine * TransitionResult :=
  (s <| sm_mode := next |>,
   mkTransitionResult true (sm_mode s) next (annotate text event)).

(** The code after the [switch]: interlock events only update information. *)
Definition handle_tail (s : RuntimeStateMachine) (event : RuntimeEvent)
    : RuntimeStateMachine * TransitionResult :=
  if (event ==? RuntimeEvent.InterlockReady) || (event ==? RuntimeEvent.InterlockLost)
  then sm_accept s (sm_mode s) event "interlock information updated"
  else sm_reject s event "transition not allowed in current mode".

Definition resumable (f : FaultCode) : bool :=
  (f ==? FaultCode.Watchdog) || (f ==? FaultCode.InterlockLost) ||
  (f ==? FaultCode.AckTimeout) || (f ==? FaultCode.None).

Arguments resumable : simpl never.

Definition sm_handle (s0 : RuntimeStateMachine) (event : RuntimeEvent)
    : RuntimeStateMachine * TransitionResult :=
  let s :=
    if event ==? RuntimeEvent.InterlockReady then s0 <| sm_interlock_ready := true |>
    else if event ==? RuntimeEvent.InterlockLost then s0 <| sm_interlock_ready := false |>
    else s0 in
  if event ==? RuntimeEvent.EStopTrigger then
    sm_accept (s <| sm_fault := FaultCode.None |>) RuntimeMode.EStop event
      "emergency stop latched"
  else
  match sm_mode s with
  | RuntimeMode.Disabled =>
      if event ==? RuntimeEvent.Boot then
        sm_accept s RuntimeMode.Idle event "boot complete"
      else if event ==? RuntimeEvent.DeactivateRequest then
        sm_accept s RuntimeMode.Disabled event "already disabled"
      else if event ==? RuntimeEvent.ActivateRequest then
        sm_reject s event "must boot to idle before activation"
      else if event ==? RuntimeEvent.EStopReset then
        sm_reject s event "not in ESTOP"
      else handle_tail s event
  | RuntimeMode.Idle =>
      if event ==? RuntimeEvent.ActivateRequest then
        if negb (sm_interlock_ready s) then
          sm_reject s event "interlock must be ready before activation"
        else
          sm_accept (s <| sm_fault := FaultCode.None |>) RuntimeMode.Active event
            "output path activated"
      else if event ==? RuntimeEvent.DeactivateRequest then
        sm_accept s RuntimeMode.Disabled event "disabled from idle"
      else if event ==? RuntimeEvent.FaultDetected then
        sm_accept s RuntimeMode.Fault event "fault while idle"
      else handle_tail s event
  | RuntimeMode.Active =>
      if event ==? RuntimeEvent.DeactivateRequest then
        sm_accept s RuntimeMode.Idle event "deactivated"
      else if event ==? RuntimeEvent.CommandTimeout then
        sm_accept (s <| sm_fault := FaultCode.Watchdog |>) RuntimeMode.Hold event
          "command timeout hold"
      else if event ==? RuntimeEvent.InterlockLost then
        sm_accept (s <| sm_fault := FaultCode.InterlockLost |>) RuntimeMode.Hold event
          "software interlock lost"
      else if event ==? RuntimeEvent.FaultDetected then
        sm_accept s RuntimeMode.Fault event "fault while active"
      else if event ==? RuntimeEvent.Hold then
        sm_accept s RuntimeMode.Hold event "explicit hold"
      else handle_tail s event
  | RuntimeMode.Hold =>
      if event ==? RuntimeEvent.Resume then
        if negb (sm_interlock_ready s) then
          sm_reject s event "cannot acknowledge hold without interlock"
        else if resumable (sm_fault s) then
          sm_accept (s <| sm_fault := FaultCode.None |>) RuntimeMode.Idle event
            "hold acknowledged; activation required"
        else sm_reject s event "clear fault before resume"
      else if event ==? RuntimeEvent.DeactivateRequest then
        sm_accept (s <| sm_fault := FaultCode.None |>) RuntimeMode.Disabled event
          "disabled from hold"
      else if event ==? RuntimeEvent.FaultDetected then
        sm_accept s RuntimeMode.Fault event "fault while holding"
      else if event ==? RuntimeEvent.InterlockReady then
        sm_accept s RuntimeMode.Hold event "interlock restored; still holding"
      else handle_tail s event
  | RuntimeMode.Fault =>
      if event ==? RuntimeEvent.FaultCleared then
        sm_accept (s <| sm_fault := FaultCode.None |>) RuntimeMode.Idle event
          "fault cleared to idle"
      else if event ==? RuntimeEvent.DeactivateRequest then
        sm_accept (s <| sm_fault := FaultCode.None |>) RuntimeMode.Disabled event
          "disabled from fault"
      else handle_tail s event
  | RuntimeMode.EStop =>
      if event ==? RuntimeEvent.EStopReset then
        if negb (sm_interlock_ready s) then
          sm_reject s event "cannot reset ESTOP while interlock is open"
        else
          sm_accept (s <| sm_fault := FaultCode.None |>) RuntimeMode.Idle event
            "estop reset to idle"
      else if (event ==? RuntimeEvent.ActivateRequest) || (event ==? RuntimeEvent.Resume) then
        sm_reject s event "ESTOP latched; reset required"
      else handle_tail s event
  end.

Definition sm_set_interlock_ready (ready : bool) (s : RuntimeStateMachine)
    : RuntimeStateMachine :=
  fst (sm_handle s (if ready then RuntimeEvent.InterlockReady
                    else RuntimeEvent.InterlockLost)).

(** ** The transition rules, as a relation

    [allowed ready f m e m' f']: with the interlock value [ready] in force when the
    event is judged and [f] the last fault, the rules let [e] move the machine from [m]
    to [m'] and leave [f'] as the last fault.  A timeout and a lost interlock classify
    the hold they cause; acknowledging, clearing, resetting and activating forget the
    fault; everything else keeps it. *)

Inductive allowed (ready : bool) (f : FaultCode)
    : RuntimeMode → RuntimeEvent → RuntimeMode → FaultCode → Prop :=
  | al_estop m :
      allowed ready f m RuntimeEvent.EStopTrigger RuntimeMode.EStop FaultCode.None
  | al_boot :
      allowed ready f RuntimeMode.Disabled RuntimeEvent.Boot RuntimeMode.Idle f
  | al_activate : ready = true →
      allowed ready f RuntimeMode.Idle RuntimeEvent.ActivateRequest RuntimeMode.Active FaultCode.None
  | al_deactivate m : m = RuntimeMode.Disabled ∨ m = RuntimeMode.Idle →
      allowed ready f m RuntimeEvent.DeactivateRequest RuntimeMode.Disabled f
  | al_deactivate_stopped m : m = RuntimeMode.Hold ∨ m = RuntimeMode.Fault →
      allowed ready f m RuntimeEvent.DeactivateRequest RuntimeMode.Disabled FaultCode.None
  | al_deactivate_active :
      allowed ready f RuntimeMode.Active RuntimeEvent.DeactivateRequest RuntimeMode.Idle f
  | al_fault m : m = RuntimeMode.Idle ∨ m = RuntimeMode.Active ∨ m = RuntimeMode.Hold →
      allowed ready f m RuntimeEvent.FaultDetected RuntimeMode.Fault f
  | al_timeout :
      allowed ready f RuntimeMode.Active RuntimeEvent.CommandTimeout RuntimeMode.Hold FaultCode.Watchdog
  | al_lost_active :
      allowed ready f RuntimeMode.Active RuntimeEvent.InterlockLost RuntimeMode.Hold FaultCode.InterlockLost
  | al_hold : allowed ready f RuntimeMode.Active RuntimeEvent.Hold RuntimeMode.Hold f
  | al_resume : ready = true → resumable f = true →
      allowed ready f RuntimeMode.Hold RuntimeEvent.Resume RuntimeMode.Idle FaultCode.None
  | al_clear :
      allowed ready f RuntimeMode.Fault RuntimeEvent.FaultCleared RuntimeMode.Idle FaultCode.None
  | al_reset : ready = true →
      allowed ready f RuntimeMode.EStop RuntimeEvent.EStopReset RuntimeMode.Idle FaultCode.None
  | al_info_ready m : allowed ready f m RuntimeEvent.InterlockReady m f
  | al_info_lost m : m ≠ RuntimeMode.Active →
      allowed ready f m RuntimeEvent.InterlockLost m f.

(** The interlock value an event is judged with. *)
Definition interlock_after (ready : bool) (e : RuntimeEvent) : bool :=
  match e with
  | RuntimeEvent.InterlockReady => true
  | RuntimeEvent.InterlockLost => false
  | _ => ready
  end.

(** ** Invariant: output permission implies the interlock *)

Definition sm_inv (s : RuntimeStateMachine) : Prop :=
  sm_mode s = RuntimeMode.Active → sm_interlock_ready s = true.

(** Case analysis on the mode, the interlock and the event; the fault code only
    matters through [resumable]. *)
Ltac sm_eval :=
  repeat match goal with
  | |- context [sm_handle ?s ?e] =>
      let r := eval lazy -[annotate resumable] in (sm_handle s e) in
      change (sm_handle s e) with r
  | H : context [sm_handle ?s ?e] |- _ =>
      let r := eval lazy -[annotate resumable] in (sm_handle s e) in
      change (sm_handle s e) with r in H
  end.
Ltac sm_cases s e :=
  destruct s as [[] [] f]; destruct e; sm_eval;
  try (match goal with
       | |- context [resumable f] => destruct (resumable f) eqn:?
       | H : context [resumable f] |- _ => destruct (resumable f) eqn:?
       end); cbn in *.

Lemma sm_handle_interlock s e :
  sm_interlock_ready (fst (sm_handle s e)) = interlock_after (sm_interlock_ready s) e.
Proof. sm_cases s e; done. Qed.

Lemma sm_handle_result s e :
  from (snd (sm_handle s e)) = sm_mode s ∧
  to (snd (sm_handle s e)) = sm_mode (fst (sm_handle s e)).
Proof. sm_cases s e; done. Qed.

Lemma sm_handle_inv s e : sm_inv s → sm_inv (fst (sm_handle s e)).
Proof. unfold sm_inv. sm_cases s e; done. Qed.

Lemma sm_init_inv : sm_inv sm_init.
Proof. done. Qed.

Lemma sm_rejected_unchanged s e :
  accepted (snd (sm_handle s e)) = false → fst (sm_handle s e) = s.
Proof. sm_cases s e; done. Qed.

Lemma sm_inv_can_accept s :
  sm_inv s → can_accept_output s = (sm_mode s ==? RuntimeMode.Active).
Proof.
  unfold can_accept_output, sm_inv. intros Hi.
  case_bool_decide as Hm; [by rewrite Hi|done].
Qed.

#[export] Hint Resolve sm_handle_inv sm_init_inv : rcr.

(** ** Sequences of events *)

Definition sm_run (s : RuntimeStateMachine) (es : list RuntimeEvent)
    : RuntimeStateMachine :=
  foldl (fun s e => fst (sm_handle s e)) s es.

(** C10.  The event handler implements exactly the documented transition rules:
    an event is accepted and leaves the machine in mode [m'] with the fault [f'] if and
    only if the rules, judged with the interlock value the event itself establishes,
    allow that move.  Every other event is rejected and leaves the machine as it was. *)
Theorem handle_implements_rules s e :
  (∀ m' f',
    (accepted (snd (sm_handle s e)) = true ∧ sm_mode (fst (sm_handle s e)) = m' ∧
     sm_fault (fst (sm_handle s e)) = f') ↔
    allowed (interlock_after (sm_interlock_ready s) e) (sm_fault s) (sm_mode s) e m' f') ∧
  sm_interlock_ready (fst (sm_handle s e)) = interlock_after (sm_interlock_ready s) e ∧
  (accepted (snd (sm_handle s e)) = false → fst (sm_handle s e) = s).
Proof.
  split; [|split; [apply sm_handle_interlock|apply sm_rejected_unchanged]].
  intros m' f'. split.
  - intros (Ha & <- & <-). sm_cases s e; try done; constructor; auto; done.
  - destruct s as [m r f]; cbn. intros Hal.
    inversion Hal; subst; clear Hal; try (by destruct m, r); try (by destruct m);
      try (by destruct r); try (by destruct r; destruct_or! H; subst).
    + destruct r; [|done]. sm_eval. by rewrite H0.
    + by destruct m', r.
    + by destruct m', r.
Qed.

(** Only an activation request judged in [Idle] with the interlock ready opens
    the output path. *)
Lemma active_entry s e :
  sm_mode s ≠ RuntimeMode.Active →
  sm_mode (fst (sm_handle s e)) = RuntimeMode.Active →
  e = RuntimeEvent.ActivateRequest ∧ sm_mode s = RuntimeMode.Idle ∧
  sm_interlock_ready s = true.
Proof. sm_cases s e; done. Qed.

(** No event sequence re-opens the output path by itself: a sequence that
    takes a machine from any other mode to [Active] contains an activation
    request, and at that request the machine was [Idle] with its interlock
    ready. *)
Theorem reactivation_is_explicit s es :
  sm_mode s ≠ RuntimeMode.Active →
  sm_mode (sm_run s es) = RuntimeMode.Active →
  ∃ es1 es2, es = es1 ++ RuntimeEvent.ActivateRequest :: es2 ∧
    sm_mode (sm_run s es1) = RuntimeMode.Idle ∧
    sm_interlock_ready (sm_run s es1) = true.
Proof.
  revert s. induction es as [|e es IH]; intros s Hs Hr; [done|].
  destruct (decide (sm_mode (fst (sm_handle s e)) = RuntimeMode.Active)) as [Ha|Ha].
  - destruct (active_entry s e Hs Ha) as (-> & ? & ?). by exists [], es.
  - destruct (IH _ Ha Hr) as (es1 & es2 & -> & ? & ?). by exists (e :: es1), es2.
Qed.

Lemma reactivation_is_explicit_witness :
  ∃ es1 es2, [RuntimeEvent.InterlockReady; RuntimeEvent.Resume;
              RuntimeEvent.ActivateRequest] = es1 ++ RuntimeEvent.ActivateRequest :: es2 ∧
    sm_mode (sm_run (mkRuntimeStateMachine RuntimeMode.Hold false FaultCode.Watchdog) es1)
      = RuntimeMode.Idle ∧
    sm_interlock_ready
      (sm_run (mkRuntimeStateMachine RuntimeMode.Hold false FaultCode.Watchdog) es1) = true.
Proof.
  apply (reactivation_is_explicit
           (mkRuntimeStateMachine RuntimeMode.Hold false FaultCode.Watchdog));
    [discriminate|reflexivity].
Defined.

(** The emergency stop is latched: without a reset event the machine stays
    in [EStop] whatever other events arrive, and even a reset event leaves it
    there while the interlock is open. *)
Theorem estop_latched s es :
  sm_mode s = RuntimeMode.EStop →
  (RuntimeEvent.EStopReset ∉ es ∨
   (sm_interlock_ready s = false ∧ RuntimeEvent.InterlockReady ∉ es)) →
  sm_mode (sm_run s es) = RuntimeMode.EStop.
Proof.
  revert s. induction es as [|e es IH]; intros s Hs Hes; [done|]. cbn.
  apply IH; clear IH.
  - destruct Hes as [Hes|[Hi Hes]]; apply not_elem_of_cons in Hes as [Hne _];
      sm_cases s e; done.
  - rewrite sm_handle_interlock.
    destruct Hes as [Hes|[Hi Hes]]; apply not_elem_of_cons in Hes as [Hne ?].
    + by left.
    + right. rewrite Hi. by destruct e.
Qed.

Lemma estop_latched_witness :
  sm_mode (sm_run (mkRuntimeStateMachine RuntimeMode.EStop false FaultCode.None)
    [RuntimeEvent.EStopReset; RuntimeEvent.Resume; RuntimeEvent.FaultCleared])
  = RuntimeMode.EStop.
Proof.
  apply estop_latched; [reflexivity|]. right. split; [reflexivity|].
  apply (bool_decide_unpack _). vm_compute. exact I.
Defined.
