(* ===== verification/Ring.v ===== *)
(** * Ring buffers

    The fixed-capacity circular storage shared by the input queue and the trace
    buffer: [ring_rep storage head size q] says that the [size] slots starting at
    [head], read modulo the capacity, hold the list [q].  The lemmas give the
    effect of appending, removing and overwriting. *)

From S2P Require Import Prelude.

Section Ring.
Context {A : Type}.
Implicit Types (st q : list A) (x y : A).

Definition ring_rep st (head size : nat) q : Prop :=
  head < length st ∧ size = length q ∧ size ≤ length st ∧
  ∀ i, i < size → st !! ((head + i) mod length st) = q !! i.

Lemma ring_rep_empty st head : head < length st → ring_rep st head 0 [].
Proof. repeat split; cbn; lia. Qed.

Lemma mod_wrap_inj n a i j :
  i < n → j < n → (a + i) mod n = (a + j) mod n → i = j.
Proof.
  intros Hi Hj Heq.
  pose proof (Nat.div_mod_eq (a + i) n). pose proof (Nat.div_mod_eq (a + j) n).
  assert ((a + i) / n = (a + j) / n); nia.
Qed.

(** Appending writes the slot after the last one. *)
Lemma ring_rep_push st head size q x :
  ring_rep st head size q → size < length st →
  ring_rep (<[(head + size) mod length st := x]> st) head (S size) (q ++ [x]).
Proof.
  intros (Hh & -> & Hle & Hq) Hlt.
  assert ((head + length q) mod length st < length st) by (apply Nat.mod_upper_bound; lia).
  unfold ring_rep. rewrite !length_insert, length_app. cbn. repeat split; try lia.
  intros i Hi. destruct (decide (i = length q)) as [->|Hne].
  - rewrite list_lookup_insert_eq by done. by rewrite lookup_app_r, Nat.sub_diag.
  - rewrite list_lookup_insert_ne, lookup_app_l by
      (first [lia | intros Heq; apply Hne; symmetry; eapply mod_wrap_inj; eauto; lia]).
    apply Hq. lia.
Qed.

(** Removing reads the head slot and advances it. *)
Lemma ring_rep_pop st head size q x :
  ring_rep st head (S size) (x :: q) →
  st !! head = Some x ∧ ring_rep st ((head + 1) mod length st) size q.
Proof.
  intros (Hh & Hs & Hle & Hq). cbn in Hs. injection Hs as ->. split.
  - specialize (Hq 0). rewrite Nat.add_0_r, Nat.mod_small in Hq by done.
    apply Hq. lia.
  - repeat split; try lia; [apply Nat.mod_upper_bound; lia|].
    intros i Hi. rewrite Nat.Div0.add_mod_idemp_l.
    replace (head + 1 + i) with (head + S i) by lia.
    rewrite (Hq (S i)) by lia. done.
Qed.

(** Overwriting the oldest slot of a full ring drops the head of the list. *)
Lemma ring_rep_overwrite st head q x y :
  ring_rep st head (length st) (x :: q) →
  ring_rep (<[head := y]> st) ((head + 1) mod length st) (length st) (q ++ [y]).
Proof.
  intros Hr. pose proof Hr as (Hh & Hs & _ & _). cbn in Hs.
  rewrite Hs in Hr. apply ring_rep_pop in Hr as [_ Hr].
  eapply (ring_rep_push _ _ _ _ y) in Hr; [|lia].
  replace (((head + 1) mod length st + length q) mod length st) with head in Hr.
  - by rewrite <-Hs in Hr.
  - rewrite Nat.Div0.add_mod_idemp_l.
    replace (head + 1 + length q) with (head + 1 * length st) by lia.
    by rewrite Nat.Div0.mod_add, Nat.mod_small.
Qed.

(** Reading the slots in order gives the list back. *)
Lemma ring_rep_read st head size q :
  ring_rep st head size q →
  omap (λ i, st !! ((head + i) mod length st)) (seq 0 size) = q.
Proof.
  intros (_ & -> & _ & Hq).
  assert (Hgen : ∀ k, k ≤ length q →
    omap (λ i, st !! ((head + i) mod length st)) (seq 0 k) = take k q).
  { induction k as [|k IH]; intros Hk; [done|].
    rewrite seq_S, omap_app, IH by lia. cbn. rewrite Hq by lia.
    destruct (lookup_lt_is_Some_2 q k) as [y Hy]; [lia|].
    rewrite Hy. by rewrite (take_S_r q k y). }
  rewrite Hgen by done. by apply firstn_all2.
Qed.
End Ring.
