(* ===== verification/Mailbox.v ===== *)
(** * The latest-wins command mailbox

    [CommandMailbox] of include/rcr/mailbox.hpp and src/core/mailbox.cpp: one
    optional command and three 64-bit diagnostic counters.  Every operation runs
    under the mailbox mutex, so an operation is one atomic state transformer. *)

From S2P Require Import Prelude Types.
Local Open Scope Z_scope.

Record CommandMailbox := mkCommandMailbox {
  mb_slot : option OutputCommand;
  mb_publish_count : Z;
  mb_consume_count : Z;
  mb_drop_count : Z
}.

#[export] Instance CommandMailbox_eta : Eta CommandMailbox :=
  mkEta _ (fun m => mkCommandMailbox (mb_slot m) (mb_publish_count m) (mb_consume_count m)
             (mb_drop_count m)).

Definition mb_init : CommandMailbox := mkCommandMailbox None 0 0 0.

Definition mb_has_pending (m : CommandMailbox) : bool := bool_decide (is_Some (mb_slot m)).

Definition mb_publish (command : OutputCommand) (m : CommandMailbox) : CommandMailbox :=
  let m := if mb_has_pending m then m <| mb_drop_count ::= incr64 |> else m in
  m <| mb_slot := Some command |> <| mb_publish_count ::= incr64 |>.

Definition mb_try_consume (m : CommandMailbox) : CommandMailbox * option OutputCommand :=
  match mb_slot m with
  | None => (m, None)
  | Some cmd => (m <| mb_slot := None |> <| mb_consume_count ::= incr64 |>, Some cmd)
  end.

Definition mb_peek (m : CommandMailbox) : option OutputCommand := mb_slot m.

Definition mb_clear (m : CommandMailbox) : CommandMailbox := m <| mb_slot := None |>.

Lemma mb_publish_slot c m : mb_slot (mb_publish c m) = Some c.
Proof. done. Qed.

(** ** Operation sequences *)

Inductive mb_op :=
  | MbPublish (c : OutputCommand)
  | MbConsume
  | MbClear.

Definition mb_apply (m : CommandMailbox) (o : mb_op) : CommandMailbox :=
  match o with
  | MbPublish c => mb_publish c m
  | MbConsume => fst (mb_try_consume m)
  | MbClear => mb_clear m
  end.

(** What a consumer may receive: the command of the last operation, when that
    operation was a publication. *)
Definition mb_visible (ops : list mb_op) : option OutputCommand :=
  match last ops with
  | Some (MbPublish c) => Some c
  | _ => None
  end.

Definition mb_pending_count (m : CommandMailbox) : Z := if mb_has_pending m then 1 else 0.

Definition is_publish (o : mb_op) : Z := match o with MbPublish _ => 1 | _ => 0 end.

(** Commands a clear discards without counting them. *)
Definition discarded (m : CommandMailbox) (o : mb_op) : Z :=
  match o with MbClear => mb_pending_count m | _ => 0 end.

Fixpoint total_published (ops : list mb_op) : Z :=
  match ops with [] => 0 | o :: ops => is_publish o + total_published ops end.

Fixpoint total_discarded (m : CommandMailbox) (ops : list mb_op) : Z :=
  match ops with
  | [] => 0
  | o :: ops => discarded m o + total_discarded (mb_apply m o) ops
  end.

(** [lost] commands were discarded by clears before this state. *)
Definition mb_balanced (m : CommandMailbox) (lost : Z) : Prop :=
  mb_publish_count m =
    mb_consume_count m + mb_drop_count m + mb_pending_count m + lost ∧
  0 ≤ mb_consume_count m ∧ 0 ≤ mb_drop_count m ∧ 0 ≤ lost.

Lemma mb_slot_after ops m0 :
  mb_slot (foldl mb_apply m0 ops) =
  match ops with [] => mb_slot m0 | _ => mb_visible ops end.
Proof.
  destruct ops as [|o ops _] using rev_ind; [done|].
  rewrite foldl_app. cbn. unfold mb_visible. rewrite last_snoc.
  destruct (ops ++ [o]) eqn:E; [by destruct ops|]. clear E.
  destruct o; cbn; unfold mb_publish, mb_try_consume; split_guards.
Qed.

(** Latest wins: after any sequence of publications, consumptions and
    clears, a consumer receives a command exactly when the last operation was a
    publication, and then it receives that last published command; the slot is
    empty afterwards, so no command is ever delivered twice. *)
Theorem mailbox_latest_wins ops :
  let m := foldl mb_apply mb_init ops in
  snd (mb_try_consume m) = mb_visible ops ∧
  mb_slot (fst (mb_try_consume m)) = None.
Proof.
  intros m. pose proof (mb_slot_after ops mb_init) as Hs. fold m in Hs.
  unfold mb_try_consume. rewrite Hs.
  destruct ops; [done|]. destruct (mb_visible _) eqn:E; rewrite ?E; done.
Qed.

Lemma mb_balanced_step m lost o :
  mb_balanced m lost → mb_publish_count m + is_publish o < 2 ^ 64 →
  mb_balanced (mb_apply m o) (lost + discarded m o) ∧
  mb_publish_count (mb_apply m o) = mb_publish_count m + is_publish o.
Proof.
  destruct m as [[c'|] p c d], o;
    unfold mb_balanced, mb_apply, mb_publish, mb_try_consume, mb_pending_count, incr64; cbn;
    intros (? & ? & ? & ?) ?; rewrite ?u64_small by width_lia; cbn; lia.
Qed.

Lemma total_published_nonneg ops : 0 ≤ total_published ops.
Proof. induction ops as [|[] ops IH]; cbn; lia. Qed.

(** The diagnostic counters account for every command: as long as fewer
    than 2^64 commands are published, the publish counter equals the number of
    publications, and it is the sum of the consumed commands, the overwritten
    ones, the one still pending and those discarded by a fail-closed clear. *)
Theorem mailbox_accounting ops :
  total_published ops < 2 ^ 64 →
  let m := foldl mb_apply mb_init ops in
  mb_publish_count m = total_published ops ∧
  mb_publish_count m = mb_consume_count m + mb_drop_count m + mb_pending_count m
                       + total_discarded mb_init ops.
Proof.
  assert (Hgen : ∀ m0 lost, mb_balanced m0 lost →
    mb_publish_count m0 + total_published ops < 2 ^ 64 →
    let m := foldl mb_apply m0 ops in
    mb_publish_count m = mb_publish_count m0 + total_published ops ∧
    mb_balanced m (lost + total_discarded m0 ops)).
  { induction ops as [|o ops IH]; intros m0 lost Hb Hlt; cbn in *.
    - by rewrite !Z.add_0_r.
    - pose proof (total_published_nonneg ops).
      destruct (mb_balanced_step m0 lost o Hb) as [Hb' Hp]; [lia|].
      destruct (IH _ _ Hb') as [Hp2 Hb2]; [lia|].
      split; [lia|]. by rewrite Z.add_assoc. }
  intros Hlt. destruct (Hgen mb_init 0) as [Hp [Hsum _]]; [done|done|].
  cbn [mb_publish_count mb_init] in Hp. cbv zeta. split; lia.
Qed.

Lemma mailbox_accounting_witness :
  let c := mkOutputCommand 1 1 100 1 1 in
  let m := foldl mb_apply mb_init [MbPublish c; MbPublish c; MbConsume; MbPublish c; MbClear] in
  mb_publish_count m = 3 ∧
  mb_publish_count m = mb_consume_count m + mb_drop_count m + mb_pending_count m + 1.
Proof.
  exact (mailbox_accounting
    (let c := mkOutputCommand 1 1 100 1 1 in
     [MbPublish c; MbPublish c; MbConsume; MbPublish c; MbClear]) eq_refl).
Defined.
