(* ===== verification/Watchdog.v ===== *)
(** * The command watchdog

    [MonotonicWatchdog] of include/rcr/watchdog.hpp and src/core/watchdog.cpp.
    The time argument of every operation is a CLOCK_MONOTONIC sample in
    nanoseconds; the runtime serialises the operations under its state mutex. *)

From S2P Require Import Prelude.
Local Open Scope Z_scope.

Module WatchdogState.
Inductive WatchdogState := Disarmed | Healthy | Expired.
End WatchdogState.
Notation WatchdogState := WatchdogState.WatchdogState.

Record WatchdogCheck := mkWatchdogCheck {
  wc_state : WatchdogState;
  newly_expired : bool;
  age_ns : Z
}.

Record MonotonicWatchdog := mkMonotonicWatchdog {
  wd_timeout : Z;
  wd_last_kick_ns : Z;
  wd_armed : bool;
  wd_expired : bool
}.

#[export] Instance MonotonicWatchdog_eta : Eta MonotonicWatchdog :=
  mkEta _ (fun w => mkMonotonicWatchdog (wd_timeout w) (wd_last_kick_ns w) (wd_armed w) (wd_expired w)).

Definition wd_new (timeout : Z) : MonotonicWatchdog := mkMonotonicWatchdog timeout 0 false false.

Definition wd_arm (now_ns : Z) (w : MonotonicWatchdog) : MonotonicWatchdog :=
  w <| wd_last_kick_ns := now_ns |> <| wd_expired := false |> <| wd_armed := true |>.

Definition wd_kick (now_ns : Z) (w : MonotonicWatchdog) : MonotonicWatchdog :=
  w <| wd_last_kick_ns := now_ns |> <| wd_expired := false |>.

Definition wd_disarm (w : MonotonicWatchdog) : MonotonicWatchdog :=
  w <| wd_armed := false |> <| wd_expired := false |>.

Definition wd_check (now_ns : Z) (w : MonotonicWatchdog)
    : MonotonicWatchdog * WatchdogCheck :=
  if negb (wd_armed w) then (w, mkWatchdogCheck WatchdogState.Disarmed false 0)
  else
    let age := Z.max (now_ns - wd_last_kick_ns w) 0 in
    if age <? wd_timeout w then (w, mkWatchdogCheck WatchdogState.Healthy false age)
    else
      let was_expired := wd_expired w in
      (w <| wd_expired := true |>,
       mkWatchdogCheck WatchdogState.Expired (negb was_expired) age).

(** A period of supervision: the checks at the given times, and the
    [newly_expired] flags they report. *)
Fixpoint wd_checks (w : MonotonicWatchdog) (ts : list Z) : MonotonicWatchdog * list bool :=
  match ts with
  | [] => (w, [])
  | t :: ts =>
      let '(w1, c) := wd_check t w in
      let '(w2, fs) := wd_checks w1 ts in
      (w2, newly_expired c :: fs)
  end.

(** Reference: the first time at or past the limit, and only that one. *)
Fixpoint first_past (timeout kick : Z) (ts : list Z) : list bool :=
  match ts with
  | [] => []
  | t :: ts =>
      if timeout <=? Z.max (t - kick) 0 then true :: map (λ _, false) ts
      else false :: first_past timeout kick ts
  end.

Lemma wd_checks_expired w ts :
  wd_expired w = true → snd (wd_checks w ts) = map (λ _, false) ts.
Proof.
  revert w. induction ts as [|t ts IH]; intros w He; [done|]. cbn.
  unfold wd_check. rewrite He.
  destruct (wd_armed w), (_ <? _); cbn;
    match goal with |- context [wd_checks ?w' ts] => specialize (IH w') end;
    destruct (wd_checks _ _) as [w' fs]; cbn in *; rewrite IH; done.
Qed.

(** One expiry per supervised command: after the watchdog is armed at time
    [t0], a series of checks reports [newly_expired] at the first check whose age
    reaches the timeout and at no other check, whatever the check times are. *)
Theorem watchdog_fires_once w t0 ts :
  snd (wd_checks (wd_arm t0 w) ts) = first_past (wd_timeout w) t0 ts.
Proof.
  assert (Hgen : ∀ w', wd_armed w' = true → wd_expired w' = false →
    snd (wd_checks w' ts) = first_past (wd_timeout w') (wd_last_kick_ns w') ts).
  { induction ts as [|t ts IH]; intros w' Ha He; [done|]. cbn. unfold wd_check.
    rewrite Ha. cbn [negb].
    replace (wd_timeout w' <=? Z.max (t - wd_last_kick_ns w') 0)
      with (negb (Z.max (t - wd_last_kick_ns w') 0 <? wd_timeout w')) by lia.
    destruct (_ <? _); cbn [negb].
    - specialize (IH w' Ha He). destruct (wd_checks _ _). cbn in *. by rewrite IH.
    - pose proof (wd_checks_expired (w' <| wd_expired := true |>) ts eq_refl) as H.
      destruct (wd_checks _ _). cbn in *. by rewrite He, H. }
  by rewrite Hgen.
Qed.

Lemma wd_disarmed_quiet w t : newly_expired (snd (wd_check t (wd_disarm w))) = false.
Proof. done. Qed.
