(* ===== verification/Trace.v ===== *)
(** * The diagnostic trace buffer

    [TraceBuffer] of include/rcr/trace.hpp and src/core/trace.cpp: a fixed ring
    written with [try_lock].  Whether a diagnostic reader holds the lock is
    decided outside the component, so the buffer carries an oracle
    [tb_contention]: the outcomes of the coming [try_lock] calls ([true] when
    the lock is taken), an exhausted list meaning a free lock. *)

From S2P Require Import Prelude Ring.

Module TraceKind.
Inductive TraceKind :=
  | SchedulerTick | DeadlineMiss | StateTransition | OutputCommandPublished
  | WatchdogExpired | OutputCommandRejected | FaultRaised | OutputCommandSent
  | OutputAckObserved | OutputAckUnexpected | OutputAckTimeout.
End TraceKind.
Notation TraceKind := TraceKind.TraceKind.

#[export] Instance TraceKind_eq_dec : EqDecision TraceKind.
Proof. solve_decision. Defined.

Record TraceEvent := mkTraceEvent {
  te_timestamp_ns : Z;
  te_kind : TraceKind;
  te_value_a : Z;
  te_value_b : Z
}.

Definition trace_default : TraceEvent := mkTraceEvent 0 TraceKind.SchedulerTick 0 0.

Record TraceBuffer := mkTraceBuffer {
  tb_capacity : nat;
  tb_storage : list TraceEvent;
  tb_next : nat;
  tb_size : nat;
  tb_dropped : Z;
  tb_contention : list bool
}.

#[export] Instance TraceBuffer_eta : Eta TraceBuffer :=
  mkEta _ (fun t => mkTraceBuffer (tb_capacity t) (tb_storage t) (tb_next t) (tb_size t)
             (tb_dropped t) (tb_contention t)).

Definition tb_new (capacity : nat) (contention : list bool) : TraceBuffer :=
  mkTraceBuffer capacity (replicate capacity trace_default) 0 0 0 contention.

Definition tb_count_drop (t : TraceBuffer) : TraceBuffer := t <| tb_dropped ::= incr64 |>.

Definition tb_record (event : TraceEvent) (t : TraceBuffer) : TraceBuffer :=
  if Nat.eqb (tb_capacity t) 0 then tb_count_drop t
  else
    let busy := default false (head (tb_contention t)) in
    let t := t <| tb_contention ::= tail |> in
    if busy then tb_count_drop t
    else
      t <| tb_storage ::= <[tb_next t := event]> |>
        <| tb_next := (tb_next t + 1) mod tb_capacity t |>
        <| tb_size := Nat.min (tb_size t + 1) (tb_capacity t) |>.

Definition tb_snapshot (t : TraceBuffer) : list TraceEvent :=
  let oldest := if Nat.eqb (tb_size t) (tb_capacity t) then tb_next t else 0 in
  omap (λ offset, tb_storage t !! ((oldest + offset) mod tb_capacity t)) (seq 0 (tb_size t)).

(** ** Contents *)

(** The events whose [try_lock] succeeded. *)
Fixpoint kept (contention : list bool) (evs : list TraceEvent) : list TraceEvent :=
  match evs with
  | [] => []
  | e :: evs =>
      if default false (head contention) then kept (tail contention) evs
      else e :: kept (tail contention) evs
  end.

Definition newest (k : nat) (h : list TraceEvent) : list TraceEvent := drop (length h - k) h.

Definition tb_rep (t : TraceBuffer) (h : list TraceEvent) : Prop :=
  length (tb_storage t) = tb_capacity t ∧ 0 < tb_capacity t ∧
  tb_size t = Nat.min (length h) (tb_capacity t) ∧
  (tb_size t < tb_capacity t → tb_next t = tb_size t) ∧
  ring_rep (tb_storage t) (if Nat.eqb (tb_size t) (tb_capacity t) then tb_next t else 0)
    (tb_size t) (newest (tb_capacity t) h).

Lemma newest_all k h : length h ≤ k → newest k h = h.
Proof. intros. unfold newest. by replace (length h - k) with 0 by lia. Qed.

Lemma newest_snoc k h e :
  k ≤ length h → 0 < k → newest k (h ++ [e]) = tail (newest k h) ++ [e].
Proof.
  intros Hk H0. unfold newest. rewrite length_app. cbn.
  replace (length h + 1 - k) with (length h - k + 1) by lia.
  rewrite drop_app_le by lia. f_equal.
  rewrite <-drop_drop. by destruct (drop (length h - k) h).
Qed.

Lemma tb_rep_new cap contention : 0 < cap → tb_rep (tb_new cap contention) [].
Proof.
  intros H. unfold tb_rep, tb_new.
  cbn [tb_capacity tb_storage tb_next tb_size length Nat.min]. rewrite length_replicate.
  destruct (Nat.eqb_spec 0 cap) as [|_]; [lia|].
  split_and!; try lia. rewrite newest_all by (cbn; lia).
  apply ring_rep_empty; rewrite length_replicate; lia.
Qed.

Definition tb_written (t : TraceBuffer) (e : TraceEvent) : TraceBuffer :=
  t <| tb_storage ::= <[tb_next t := e]> |>
    <| tb_next := (tb_next t + 1) mod tb_capacity t |>
    <| tb_size := Nat.min (tb_size t + 1) (tb_capacity t) |>.

Lemma tb_rep_write t h e : tb_rep t h → tb_rep (tb_written t e) (h ++ [e]).
Proof.
  destruct t as [cap st nx sz dr co]. unfold tb_rep, tb_written. cbn.
  intros (Hlen & Hpos & Hsz & Hnx & Hr).
  rewrite length_insert, length_app. cbn [length].
  assert (length h < cap ∨ cap ≤ length h) as [Hlt|Hge] by lia.
  - rewrite newest_all in Hr by lia. rewrite newest_all by (rewrite length_app; cbn; lia).
    assert (Hs : sz = length h) by lia. clear Hsz. subst sz. rewrite Hnx in * by lia.
    rewrite (proj2 (Nat.eqb_neq _ _)) in Hr by lia.
    rewrite (Nat.min_l (length h + 1)) by lia.
    apply (ring_rep_push _ _ _ _ e) in Hr; [|lia].
    rewrite Hlen in Hr. cbn [Nat.add] in Hr. rewrite Nat.mod_small in Hr by lia.
    replace (length h + 1) with (S (length h)) by lia.
    split_and!; try lia; [intros; rewrite Nat.mod_small; lia|].
    destruct (Nat.eqb_spec (S (length h)) cap) as [Heq|]; [|done].
    by replace (S (length h) mod cap) with 0 by (by rewrite Heq, Nat.Div0.mod_same).
  - rewrite Nat.min_r in * by lia. subst sz. rewrite newest_snoc by lia.
    rewrite Nat.eqb_refl in Hr. rewrite Nat.min_r by lia. rewrite Nat.eqb_refl.
    split_and!; try lia.
    destruct (newest cap h) as [|x q] eqn:E.
    { apply (f_equal length) in E. unfold newest in E. rewrite length_drop in E. cbn in E. lia. }
    rewrite <-Hlen in *. by eapply ring_rep_overwrite.
Qed.

Lemma tb_record_eq t e :
  0 < tb_capacity t →
  tb_record e t =
    let t' := t <| tb_contention ::= tail |> in
    if default false (head (tb_contention t)) then tb_count_drop t' else tb_written t' e.
Proof. intros. unfold tb_record. by destruct (Nat.eqb_spec (tb_capacity t) 0); [lia|]. Qed.

Lemma tb_rep_run t h evs :
  tb_rep t h → tb_rep (foldl (flip tb_record) t evs) (h ++ kept (tb_contention t) evs).
Proof.
  revert t h. induction evs as [|e evs IH]; intros t h Hr; cbn.
  { by rewrite app_nil_r. }
  pose proof Hr as (_ & Hpos & _).
  change (flip tb_record t e) with (tb_record e t). rewrite tb_record_eq by done.
  destruct (default false (head (tb_contention t))).
  - exact (IH (tb_count_drop (t <| tb_contention ::= tail |>)) h Hr).
  - rewrite cons_middle, app_assoc.
    exact (IH (tb_written (t <| tb_contention ::= tail |>) e) (h ++ [e])
             (tb_rep_write (t <| tb_contention ::= tail |>) h e Hr)).
Qed.

(** A snapshot of a trace buffer of positive capacity returns, in order,
    the newest [capacity] events among those whose non-blocking lock attempt
    succeeded: overwriting loses only the oldest events, contention loses only
    the contended ones, and nothing is reordered or duplicated. *)
Theorem trace_snapshot_newest cap contention evs :
  0 < cap →
  tb_snapshot (foldl (flip tb_record) (tb_new cap contention) evs)
  = newest cap (kept contention evs).
Proof.
  intros Hcap.
  destruct (tb_rep_run _ [] evs (tb_rep_new cap contention Hcap))
    as (Hlen & _ & _ & _ & Hr).
  set (t := foldl _ _ _) in *.
  assert (Hc : tb_capacity t = cap).
  { subst t. change cap with (tb_capacity (tb_new cap contention)) at 2.
    generalize (tb_new cap contention). clear. induction evs as [|e evs IH]; intros t; [done|].
    cbn. rewrite IH. unfold flip, tb_record. split_guards. }
  unfold tb_snapshot. apply ring_rep_read in Hr. rewrite Hlen in Hr. rewrite Hr, Hc. done.
Qed.

Lemma trace_snapshot_newest_witness :
  let e i := mkTraceEvent i TraceKind.SchedulerTick 0 0 in
  tb_snapshot (foldl (flip tb_record) (tb_new 2 [false; false; true]) [e 1%Z; e 2%Z; e 3%Z; e 4%Z])
  = [e 2%Z; e 4%Z].
Proof.
  exact (trace_snapshot_newest 2 [false; false; true]
    (let e i := mkTraceEvent i TraceKind.SchedulerTick 0 0 in
     [e 1%Z; e 2%Z; e 3%Z; e 4%Z]) (Nat.lt_0_succ 1)).
Defined.
