(* ===== verification/CanV1.v ===== *)
(** * The CAN V1 codec

    include/rcr/can_v1.hpp and src/can/can_v1.cpp: four fixed-length messages on
    classic CAN frames with an 11-bit identifier (function in bits 10..5, node in
    bits 4..0) and a version byte.  Encoders reject illegal local data with
    [InvalidArgument], decoders reject illegal bus input with [Rejected]. *)

From S2P Require Import Prelude Types.
Local Open Scope Z_scope.

Definition kProtocolVersion : Z := 1.
Definition kMaxNodeId : Z := 31.
Definition kMinValidity10ms : Z := 1.
Definition kMaxValidity10ms : Z := 250.
Definition kValidityUnitNs : Z := 10000000.
Definition kInputBitPositionReached : Z := 1.
Definition kCanEffFlag : Z := 0x80000000.
Definition kCanRtrFlag : Z := 0x40000000.
Definition kCanSffMask : Z := 0x7FF.

Module Function.
Inductive Function := Heartbeat | Status | OutputCommand | OutputStatus.
End Function.
Notation Function := Function.Function.

Definition function_code (f : Function) : Z :=
  match f with
  | Function.Heartbeat => 1
  | Function.Status => 2
  | Function.OutputCommand => 3
  | Function.OutputStatus => 4
  end.

Module OutputResult.
Inductive OutputResult :=
  Applied | StaleSequence | SessionMismatch | Expired | InvalidMask | NotReady.
End OutputResult.
Notation OutputResult := OutputResult.OutputResult.

#[export] Instance OutputResult_eq_dec : EqDecision OutputResult.
Proof. solve_decision. Defined.

Definition output_result_code (r : OutputResult) : Z :=
  match r with
  | OutputResult.Applied => 0
  | OutputResult.StaleSequence => 1
  | OutputResult.SessionMismatch => 2
  | OutputResult.Expired => 3
  | OutputResult.InvalidMask => 4
  | OutputResult.NotReady => 5
  end.

(** [static_cast<OutputResult>] of a checked code; 6..15 are reserved. *)
Definition output_result_of_code (c : Z) : option OutputResult :=
  if c =? 0 then Some OutputResult.Applied
  else if c =? 1 then Some OutputResult.StaleSequence
  else if c =? 2 then Some OutputResult.SessionMismatch
  else if c =? 3 then Some OutputResult.Expired
  else if c =? 4 then Some OutputResult.InvalidMask
  else if c =? 5 then Some OutputResult.NotReady
  else None.

(** ** Wire data *)

Record WireHeartbeat := mkWireHeartbeat {
  hb_node_id : Z; hb_boot_id : Z; hb_session_id : Z; hb_seq : Z
}.

Record WireNodeStatus := mkWireNodeStatus {
  ns_node_id : Z; ns_interlock_ready : bool; ns_session_id : Z;
  ns_input_bits : Z; ns_fault_code : Z
}.

Record WireOutputCommand := mkWireOutputCommand {
  oc_node_id : Z; oc_mask : Z; oc_session_id : Z; oc_sequence : Z;
  oc_values : Z; oc_validity_10ms : Z
}.

Record WireOutputStatus := mkWireOutputStatus {
  os_node_id : Z; os_result : OutputResult; os_session_id : Z; os_sequence : Z;
  os_output_mirror : Z
}.

(** The field widths of the C++ structs. *)
Definition heartbeat_wf (m : WireHeartbeat) : Prop :=
  is_u 8 (hb_node_id m) ∧ is_u 16 (hb_boot_id m) ∧ is_u 16 (hb_session_id m) ∧
  is_u 16 (hb_seq m).
Definition node_status_wf (m : WireNodeStatus) : Prop :=
  is_u 8 (ns_node_id m) ∧ is_u 16 (ns_session_id m) ∧ is_u 16 (ns_input_bits m) ∧
  is_u 16 (ns_fault_code m).
Definition output_command_wf (m : WireOutputCommand) : Prop :=
  is_u 8 (oc_node_id m) ∧ is_u 8 (oc_mask m) ∧ is_u 16 (oc_session_id m) ∧
  is_u 16 (oc_sequence m) ∧ is_u 8 (oc_values m) ∧ is_u 8 (oc_validity_10ms m).
Definition output_status_wf (m : WireOutputStatus) : Prop :=
  is_u 8 (os_node_id m) ∧ is_u 16 (os_session_id m) ∧ is_u 16 (os_sequence m) ∧
  is_u 8 (os_output_mirror m).

(** ** Identifiers, sequence numbers and validity *)

Definition make_can_id (f : Function) (node_id : Z) : Z :=
  Z.lor (Z.shiftl (function_code f) 5) (Z.land node_id 0x1F).

Definition node_id_from_can_id (raw11 : Z) : Z := u8 (Z.land raw11 0x1F).

Definition function_from_can_id (raw11 : Z) : Z := u8 (Z.land (Z.shiftr raw11 5) 0x3F).

Definition seq_newer (a b : Z) : bool := negb (a =? b) && (0 <? i16 (u16 (a - b))).

Definition deadline_from_validity_10ms (receive_monotonic_ns validity_10ms : Z) : Z :=
  receive_monotonic_ns + validity_10ms * kValidityUnitNs.

Definition reject {T} (message : string) : Result T := fail_with Errc.Rejected message.
Definition invalid {T} (message : string) : Result T := fail_with Errc.InvalidArgument message.

(** The subtraction and the rounding are 64-bit signed; where they overflow (undefined
    in C++) the model takes the two's complement result. *)
Definition validity_10ms_from_deadline (now_ns deadline_ns : Z) : Result Z :=
  let remaining := i64 (deadline_ns - now_ns) in
  if remaining <? kValidityUnitNs then invalid "deadline remaining below 10 ms"
  else
    let units := Z.quot (i64 (remaining + kValidityUnitNs - 1)) kValidityUnitNs in
    if kMaxValidity10ms <? units then invalid "deadline remaining above 2500 ms"
    else Ok (u8 units).

(** ** Byte order *)

(** [write_u16_be(&data[i], value)]. *)
Definition write_u16_be (i : nat) (value : Z) (d : list Z) : list Z :=
  <[(i + 1)%nat := u8 (Z.land value 0xFF)]>
    (<[i := u8 (Z.land (Z.shiftr value 8) 0xFF)]> d).

(** [read_u16_be(&data[i])]. *)
Definition read_u16_be (f : CanFrame) (i : nat) : Z :=
  u16 (Z.lor (Z.shiftl (data_at f i) 8) (data_at f (i + 1))).

(** ** Frame layer *)

Definition check_frame_layer (frame : CanFrame) (expected : Function) : Result () :=
  if negb (Z.land (can_id frame) kCanEffFlag =? 0) then reject "extended CAN frame rejected"
  else if negb (Z.land (can_id frame) kCanRtrFlag =? 0) then reject "RTR frame rejected"
  else if negb (can_len frame =? 8) then reject "CAN V1 requires DLC=8"
  else
    let raw11 := Z.land (can_id frame) kCanSffMask in
    let node := node_id_from_can_id raw11 in
    let function := function_from_can_id raw11 in
    if (node =? 0) || (kMaxNodeId <? node) then reject "invalid node_id"
    else if negb (function =? function_code expected) then reject "CAN ID function mismatch"
    else Ok ().

Definition check_version (frame : CanFrame) : Result () :=
  if negb (data_at frame 0 =? kProtocolVersion) then reject "unsupported protocol_version"
  else Ok ().

Definition validate_node_id (node_id : Z) : Result () :=
  if (node_id =? 0) || (kMaxNodeId <? node_id) then invalid "node_id must be 1..31"
  else Ok ().

Definition make_frame (f : Function) (node_id : Z) : CanFrame :=
  mkCanFrame (make_can_id f node_id) 8 (<[0%nat := kProtocolVersion]> (replicate 8 0)).

Definition put (i : nat) (v : Z) (f : CanFrame) : CanFrame := f <| can_data ::= <[i := v]> |>.
Definition put16 (i : nat) (v : Z) (f : CanFrame) : CanFrame := f <| can_data ::= write_u16_be i v |>.

(** ** Encoders *)

Definition encode_heartbeat (msg : WireHeartbeat) : Result CanFrame :=
  let? _ := validate_node_id (hb_node_id msg) in
  if hb_boot_id msg =? 0 then invalid "boot_id must be non-zero"
  else if hb_session_id msg =? 0 then invalid "session_id must be non-zero"
  else
    let frame := make_frame Function.Heartbeat (hb_node_id msg) in
    Ok (put16 6 (hb_seq msg) (put16 4 (hb_session_id msg) (put16 2 (hb_boot_id msg) frame))).

Definition encode_node_status (msg : WireNodeStatus) : Result CanFrame :=
  let? _ := validate_node_id (ns_node_id msg) in
  if ns_session_id msg =? 0 then invalid "session_id must be non-zero"
  else
    let frame := make_frame Function.Status (ns_node_id msg) in
    let frame := put 1 (if ns_interlock_ready msg then 1 else 0) frame in
    Ok (put16 6 (ns_fault_code msg) (put16 4 (ns_input_bits msg)
         (put16 2 (ns_session_id msg) frame))).

Definition encode_output_command (msg : WireOutputCommand) : Result CanFrame :=
  let? _ := validate_node_id (oc_node_id msg) in
  if oc_mask msg =? 0 then invalid "mask must be non-zero"
  else if oc_session_id msg =? 0 then invalid "session_id must be non-zero"
  else if oc_sequence msg =? 0 then invalid "sequence must be non-zero"
  else if (oc_validity_10ms msg <? kMinValidity10ms) || (kMaxValidity10ms <? oc_validity_10ms msg)
  then invalid "validity_10ms must be 1..250"
  else
    let frame := make_frame Function.OutputCommand (oc_node_id msg) in
    let frame := put 1 (oc_mask msg) frame in
    Ok (put 7 (oc_validity_10ms msg) (put 6 (oc_values msg)
         (put16 4 (oc_sequence msg) (put16 2 (oc_session_id msg) frame)))).

Definition encode_output_status (msg : WireOutputStatus) : Result CanFrame :=
  let? _ := validate_node_id (os_node_id msg) in
  if os_session_id msg =? 0 then invalid "session_id must be non-zero"
  else
    let result := output_result_code (os_result msg) in
    if output_result_code OutputResult.NotReady <? result then invalid "output result is reserved"
    else
      let frame := make_frame Function.OutputStatus (os_node_id msg) in
      let frame := put 1 result frame in
      Ok (put 6 (os_output_mirror msg)
           (put16 4 (os_sequence msg) (put16 2 (os_session_id msg) frame))).

(** ** Decoders *)

Definition frame_node_id (frame : CanFrame) : Z :=
  node_id_from_can_id (Z.land (can_id frame) kCanSffMask).

Definition decode_heartbeat (frame : CanFrame) : Result WireHeartbeat :=
  let? _ := check_frame_layer frame Function.Heartbeat in
  let? _ := check_version frame in
  if negb (data_at frame 1 =? 0) then reject "heartbeat flags must be zero"
  else
    let msg := mkWireHeartbeat (frame_node_id frame) (read_u16_be frame 2)
                 (read_u16_be frame 4) (read_u16_be frame 6) in
    if hb_boot_id msg =? 0 then reject "boot_id must be non-zero"
    else if hb_session_id msg =? 0 then reject "session_id must be non-zero"
    else Ok msg.

Definition decode_node_status (frame : CanFrame) : Result WireNodeStatus :=
  let? _ := check_frame_layer frame Function.Status in
  let? _ := check_version frame in
  if negb (Z.land (data_at frame 1) 0xFE =? 0)
  then reject "node status reserved flags must be zero"
  else
    let msg := mkWireNodeStatus (frame_node_id frame)
                 (negb (Z.land (data_at frame 1) 0x01 =? 0))
                 (read_u16_be frame 2) (read_u16_be frame 4) (read_u16_be frame 6) in
    if ns_session_id msg =? 0 then reject "session_id must be non-zero"
    else Ok msg.

Definition decode_output_command (frame : CanFrame) : Result WireOutputCommand :=
  let? _ := check_frame_layer frame Function.OutputCommand in
  let? _ := check_version frame in
  let msg := mkWireOutputCommand (frame_node_id frame) (data_at frame 1)
               (read_u16_be frame 2) (read_u16_be frame 4) (data_at frame 6)
               (data_at frame 7) in
  if oc_mask msg =? 0 then reject "mask must be non-zero"
  else if oc_session_id msg =? 0 then reject "session_id must be non-zero"
  else if oc_sequence msg =? 0 then reject "sequence must be non-zero"
  else if (oc_validity_10ms msg <? kMinValidity10ms) || (kMaxValidity10ms <? oc_validity_10ms msg)
  then reject "validity_10ms must be 1..250"
  else Ok msg.

Definition decode_output_status (frame : CanFrame) : Result WireOutputStatus :=
  let? _ := check_frame_layer frame Function.OutputStatus in
  let? _ := check_version frame in
  if negb (Z.land (data_at frame 1) 0xF0 =? 0)
  then reject "output status result high nibble must be zero"
  else if negb (data_at frame 7 =? 0)
  then reject "output status reserved byte must be zero"
  else
    let result := Z.land (data_at frame 1) 0x0F in
    match output_result_of_code result with
    | None => reject "output result is reserved"
    | Some r =>
        let msg := mkWireOutputStatus (frame_node_id frame) r (read_u16_be frame 2)
                     (read_u16_be frame 4) (data_at frame 6) in
        if os_session_id msg =? 0 then reject "session_id must be non-zero"
        else Ok msg
    end.

(** [MessageKind] and [DecodedMessage]: the C++ struct holds one field per kind
    of which only the one named by [kind] is meaningful. *)
Inductive DecodedMessage :=
  | MsgHeartbeat (m : WireHeartbeat)
  | MsgStatus (m : WireNodeStatus)
  | MsgOutputCommand (m : WireOutputCommand)
  | MsgOutputStatus (m : WireOutputStatus).

Definition decode (frame : CanFrame) : Result DecodedMessage :=
  if negb (Z.land (can_id frame) kCanEffFlag =? 0) then reject "extended CAN frame rejected"
  else if negb (Z.land (can_id frame) kCanRtrFlag =? 0) then reject "RTR frame rejected"
  else if negb (can_len frame =? 8) then reject "CAN V1 requires DLC=8"
  else
    let raw11 := Z.land (can_id frame) kCanSffMask in
    let node := node_id_from_can_id raw11 in
    let function := function_from_can_id raw11 in
    if (node =? 0) || (kMaxNodeId <? node) then reject "invalid node_id"
    else if function =? function_code Function.Heartbeat then
      let? msg := decode_heartbeat frame in Ok (MsgHeartbeat msg)
    else if function =? function_code Function.Status then
      let? msg := decode_node_status frame in Ok (MsgStatus msg)
    else if function =? function_code Function.OutputCommand then
      let? msg := decode_output_command frame in Ok (MsgOutputCommand msg)
    else if function =? function_code Function.OutputStatus then
      let? msg := decode_output_status frame in Ok (MsgOutputStatus msg)
    else reject "unknown CAN function".

(** ** Arithmetic of the fields *)

Lemma u16_bytes v :
  is_u 16 v →
  u16 (Z.lor (Z.shiftl (u8 (Z.land (Z.shiftr v 8) 0xFF)) 8) (u8 (Z.land v 0xFF))) = v.
Proof.
  intros Hv. change 0xFF with (Z.ones 8).
  rewrite land_mask_div, land_ones_mod by done. unfold u8, u16, wrap.
  rewrite !Z.mod_mod, lor_shiftl_add by (done || (apply Z.mod_pos_bound; done)).
  unfold is_u in Hv. change (2 ^ 16) with 65536 in *. change (2 ^ 8) with 256.
  pose proof (Z.div_mod v 256). pose proof (Z.mod_pos_bound v 256).
  assert (0 ≤ v / 256 < 256) by (split; [apply Z.div_pos|apply Z.div_lt_upper_bound]; lia).
  rewrite (Z.mod_small (v / 256)) by lia. rewrite Z.mod_small; lia.
Qed.

Lemma read_u16_range f i : is_u 16 (read_u16_be f i).
Proof. apply u16_range. Qed.

Definition legal_node (n : Z) : Prop := 1 ≤ n ≤ 31.

(** The identifier layout: function and node are recovered, no flag is set. *)
Lemma can_id_fields f n :
  legal_node n →
  node_id_from_can_id (Z.land (make_can_id f n) kCanSffMask) = n ∧
  function_from_can_id (Z.land (make_can_id f n) kCanSffMask) = function_code f ∧
  Z.land (make_can_id f n) kCanEffFlag = 0 ∧ Z.land (make_can_id f n) kCanRtrFlag = 0.
Proof.
  intros Hn.
  set (P z := ((node_id_from_can_id (Z.land (make_can_id f z) kCanSffMask) =? z) &&
     (function_from_can_id (Z.land (make_can_id f z) kCanSffMask) =? function_code f) &&
     (Z.land (make_can_id f z) kCanEffFlag =? 0) &&
     (Z.land (make_can_id f z) kCanRtrFlag =? 0))).
  assert (HP : P n = true).
  { apply (forall_below P 32); [by destruct f|unfold legal_node in Hn; lia]. }
  unfold P in HP. bools. done.
Qed.

Lemma validate_node_id_ok n : validate_node_id n = Ok () ↔ n ≠ 0 ∧ n ≤ 31.
Proof.
  unfold validate_node_id, kMaxNodeId.
  destruct (Z.eqb_spec n 0), (Z.ltb_spec 31 n); cbn; split; (done || lia || naive_solver lia).
Qed.

Lemma check_frame_layer_make f n d :
  legal_node n →
  check_frame_layer (mkCanFrame (make_can_id f n) 8 d) f = Ok ().
Proof.
  intros Hn. destruct (can_id_fields f n Hn) as (Hnode & Hfun & Heff & Hrtr).
  unfold check_frame_layer. cbn [can_id can_len]. rewrite Heff, Hrtr, Hnode, Hfun.
  unfold legal_node, kMaxNodeId in *.
  rewrite (proj2 (Z.eqb_neq n 0)), (proj2 (Z.ltb_ge 31 n)), !Z.eqb_refl by lia. done.
Qed.

(** Decoding and re-encoding two bytes gives them back. *)
Lemma bytes_u16 h l :
  is_byte h → is_byte l →
  u8 (Z.land (Z.shiftr (u16 (Z.lor (Z.shiftl h 8) l)) 8) 0xFF) = h ∧
  u8 (Z.land (u16 (Z.lor (Z.shiftl h 8) l)) 0xFF) = l.
Proof.
  unfold is_byte, is_u. intros Hh Hl. change 0xFF with (Z.ones 8).
  rewrite land_mask_div, land_ones_mod, lor_shiftl_add by done.
  change (2 ^ 8) with 256 in *. rewrite u16_small by width_lia. unfold u8, wrap.
  change (2 ^ 8) with 256. rewrite !Z.mod_mod by done. split.
  - rewrite Z.div_add_l, Z.div_small, Z.add_0_r by lia. by apply Z.mod_small.
  - rewrite Z.add_comm, Z.mod_add by lia. by apply Z.mod_small.
Qed.

(** What a passed frame-layer check says about the identifier. *)
Lemma check_frame_layer_inv f fn :
  check_frame_layer f fn = Ok () →
  can_len f = 8 ∧ legal_node (frame_node_id f) ∧
  Z.land (can_id f) kCanSffMask = make_can_id fn (frame_node_id f).
Proof.
  unfold check_frame_layer, frame_node_id, kMaxNodeId. intros H. split_guards. bools.
  set (raw := Z.land (can_id f) kCanSffMask) in *.
  set (P z := implb (function_from_can_id z =? function_code fn)
                (z =? make_can_id fn (node_id_from_can_id z))).
  assert (Hraw : 0 ≤ raw < 2048).
  { subst raw. change kCanSffMask with (Z.ones 11). rewrite land_ones_mod by done.
    by apply Z.mod_pos_bound. }
  assert (HP : P raw = true).
  { apply (forall_below P 2048); [|lia]. destruct fn; vm_compute; reflexivity. }
  unfold P in HP. rewrite (proj2 (Z.eqb_eq _ _)) in HP by done. cbn in HP. bools.
  split_and!; try done. unfold legal_node, node_id_from_can_id in *.
  pose proof (u8_range (Z.land raw 31)) as []. lia.
Qed.

Lemma frame_bytes f :
  frame_wf f → ∃ b0 b1 b2 b3 b4 b5 b6 b7,
    can_data f = [b0; b1; b2; b3; b4; b5; b6; b7] ∧
    Forall is_byte [b0; b1; b2; b3; b4; b5; b6; b7].
Proof.
  intros (_ & _ & Hlen & Hall).
  destruct (can_data f) as [|b0 [|b1 [|b2 [|b3 [|b4 [|b5 [|b6 [|b7 [|]]]]]]]]]; try done.
  by exists b0, b1, b2, b3, b4, b5, b6, b7.
Qed.

(** A flag byte with only bit 0 significant, and a result byte below 16. *)
Lemma flag_byte b :
  is_byte b → Z.land b 0xFE = 0 → (if negb (Z.land b 1 =? 0) then 1 else 0) = b.
Proof.
  intros Hb H0.
  set (P z := implb (Z.land z 0xFE =? 0)
                ((if negb (Z.land z 1 =? 0) then 1 else 0) =? z)).
  assert (HP : P b = true).
  { apply (forall_below P 256); [vm_compute; reflexivity|exact Hb]. }
  unfold P in HP. rewrite H0 in HP. cbn [Z.eqb implb] in HP. by bools.
Qed.

Lemma result_byte b r :
  is_byte b → Z.land b 0xF0 = 0 → output_result_of_code (Z.land b 0x0F) = Some r →
  output_result_code r = b.
Proof.
  intros Hb H0 Hr.
  set (P z := implb (Z.land z 0xF0 =? 0)
     (match output_result_of_code (Z.land z 0x0F) with
      | Some r => output_result_code r =? z | None => true end)).
  assert (HP : P b = true).
  { apply (forall_below P 256); [vm_compute; reflexivity|exact Hb]. }
  unfold P in HP. rewrite H0, Hr in HP. cbn [Z.eqb implb] in HP. by bools.
Qed.

Lemma output_result_code_inv r :
  output_result_of_code (Z.land (output_result_code r) 0x0F) = Some r ∧
  Z.land (output_result_code r) 0xF0 = 0.
Proof. by destruct r. Qed.

(** ** Encoders and decoders are inverse *)

(** Encoder side: the guards that hold when an encoder succeeds. *)
Ltac encode_inv H :=
  apply res_bind_Ok in H as ([] & Hnode & H);
  apply validate_node_id_ok in Hnode;
  repeat match type of H with
  | (if ?b then _ else _) = Ok _ => destruct b eqn:?; [discriminate H|]
  end; injection H as <-; bools.

(** Decode the frame an encoder built: its checks succeed and its fields are the
    message's. *)
Ltac decode_built :=
  unfold put, put16, make_frame; cbn -[make_can_id];
  rewrite check_frame_layer_make by (unfold legal_node, is_u in *; lia); cbn -[make_can_id];
  unfold frame_node_id, read_u16_be, data_at; cbn -[make_can_id u8 u16 Z.land Z.lor Z.shiftl Z.shiftr];
  rewrite ?u16_bytes by done.

(** Discharge the remaining tests on the message's own fields. *)
Ltac pass_tests :=
  repeat match goal with
  | |- context [?x =? ?y] => rewrite (proj2 (Z.eqb_neq x y)) by (unfold is_u in *; lia)
  | |- context [?x <? ?y] => rewrite (proj2 (Z.ltb_ge x y)) by (unfold is_u in *; lia)
  end.

Ltac node_back :=
  match goal with
  | |- context [node_id_from_can_id (Z.land (make_can_id ?f ?n) kCanSffMask)] =>
      rewrite (proj1 (can_id_fields f n ltac:(unfold legal_node, is_u in *; lia)))
  end.

Lemma heartbeat_round_trip m f :
  heartbeat_wf m → encode_heartbeat m = Ok f → decode_heartbeat f = Ok m.
Proof.
  destruct m as [n b s q]. unfold heartbeat_wf, encode_heartbeat.
  cbn [hb_node_id hb_boot_id hb_session_id hb_seq].
  intros (Hn & Hb & Hs & Hq) Henc. encode_inv Henc. unfold decode_heartbeat.
  decode_built. node_back. by pass_tests.
Qed.

Lemma node_status_round_trip m f :
  node_status_wf m → encode_node_status m = Ok f → decode_node_status f = Ok m.
Proof.
  destruct m as [n i s b c]. unfold node_status_wf, encode_node_status.
  cbn [ns_node_id ns_interlock_ready ns_session_id ns_input_bits ns_fault_code].
  intros (Hn & Hs & Hb & Hc) Henc. encode_inv Henc. unfold decode_node_status.
  destruct i; decode_built; node_back; by pass_tests.
Qed.

Lemma output_command_round_trip m f :
  output_command_wf m → encode_output_command m = Ok f → decode_output_command f = Ok m.
Proof.
  destruct m as [n k s q v y]. unfold output_command_wf, encode_output_command.
  cbn [oc_node_id oc_mask oc_session_id oc_sequence oc_values oc_validity_10ms].
  intros (Hn & Hk & Hs & Hq & Hv & Hy) Henc. encode_inv Henc.
  unfold decode_output_command. decode_built. node_back. by pass_tests.
Qed.

Lemma output_status_round_trip m f :
  output_status_wf m → encode_output_status m = Ok f → decode_output_status f = Ok m.
Proof.
  destruct m as [n r s q o]. unfold output_status_wf, encode_output_status.
  cbn [os_node_id os_result os_session_id os_sequence os_output_mirror].
  intros (Hn & Hs & Hq & Ho) Henc. encode_inv Henc.
  unfold decode_output_status. destruct r; decode_built; node_back; by pass_tests.
Qed.
(** Decoder side: the guards that hold when a decoder succeeds, with the payload
    written out byte by byte. *)
Ltac decode_inv Hwf Hdec :=
  apply res_bind_Ok in Hdec as ([] & Hlayer & Hdec);
  apply res_bind_Ok in Hdec as ([] & Hver & Hdec);
  apply check_frame_layer_inv in Hlayer as (Hlen & Hlegal & Hid);
  destruct (frame_bytes _ Hwf) as (b0 & b1 & b2 & b3 & b4 & b5 & b6 & b7 & Hdata & Hbytes);
  rewrite !Forall_cons in Hbytes; destruct Hbytes as (?&?&?&?&?&?&?&?&_);
  unfold check_version, read_u16_be, data_at in Hver, Hdec; rewrite Hdata in Hver, Hdec;
  cbn -[u8 u16 Z.land Z.lor Z.shiftl Z.shiftr] in Hver, Hdec;
  split_guards; bools; subst.

Lemma bytes_u16_hi h l :
  is_byte h → is_byte l → u8 (Z.land (Z.shiftr (u16 (Z.lor (Z.shiftl h 8) l)) 8) 0xFF) = h.
Proof. intros. by apply bytes_u16. Qed.
Lemma bytes_u16_lo h l :
  is_byte h → is_byte l → u8 (Z.land (u16 (Z.lor (Z.shiftl h 8) l)) 0xFF) = l.
Proof. intros. by apply bytes_u16. Qed.

(** Re-encode a decoded message: the frame comes back, identifier reduced to its
    eleven bits. *)
Ltac encode_back f :=
  rewrite (proj2 (validate_node_id_ok _)) by (unfold legal_node in *; lia);
  cbn [res_bind]; pass_tests; cbn [orb negb];
  destruct f as [id len data]; cbn [can_data can_len can_id] in *; subst;
  f_equal; unfold put, put16, make_frame, write_u16_be;
  cbn -[make_can_id u8 u16 Z.land Z.lor Z.shiftl Z.shiftr frame_node_id kCanSffMask];
  rewrite ?bytes_u16_hi, ?bytes_u16_lo by done.


Ltac wf_fields :=
  split_and!; try apply u16_range; cbn; unfold legal_node, is_byte in *; try done; width_lia.

Lemma heartbeat_canonical m f :
  frame_wf f → decode_heartbeat f = Ok m →
  heartbeat_wf m ∧ encode_heartbeat m = Ok (f <| can_id ::= λ i, Z.land i kCanSffMask |>).
Proof.
  unfold decode_heartbeat. intros Hwf Hdec. decode_inv Hwf Hdec. split; [wf_fields|].
  unfold encode_heartbeat. cbn [hb_node_id hb_boot_id hb_session_id hb_seq].
  encode_back f. by rewrite Hid.
Qed.

Lemma node_status_canonical m f :
  frame_wf f → decode_node_status f = Ok m →
  node_status_wf m ∧ encode_node_status m = Ok (f <| can_id ::= λ i, Z.land i kCanSffMask |>).
Proof.
  unfold decode_node_status. intros Hwf Hdec. decode_inv Hwf Hdec. split; [wf_fields|].
  unfold encode_node_status.
  cbn [ns_node_id ns_interlock_ready ns_session_id ns_input_bits ns_fault_code].
  rewrite flag_byte by done. encode_back f. by rewrite Hid.
Qed.

Lemma output_command_canonical m f :
  frame_wf f → decode_output_command f = Ok m →
  output_command_wf m ∧
  encode_output_command m = Ok (f <| can_id ::= λ i, Z.land i kCanSffMask |>).
Proof.
  unfold decode_output_command. intros Hwf Hdec. decode_inv Hwf Hdec. split; [wf_fields|].
  unfold encode_output_command.
  cbn [oc_node_id oc_mask oc_session_id oc_sequence oc_values oc_validity_10ms].
  encode_back f. by rewrite Hid.
Qed.

Lemma output_status_canonical m f :
  frame_wf f → decode_output_status f = Ok m →
  output_status_wf m ∧
  encode_output_status m = Ok (f <| can_id ::= λ i, Z.land i kCanSffMask |>).
Proof.
  unfold decode_output_status. intros Hwf Hdec. decode_inv Hwf Hdec. split; [wf_fields|].
  unfold encode_output_status.
  cbn [os_node_id os_result os_session_id os_sequence os_output_mirror].
  rewrite (result_byte b1 o) by done.
  assert (b1 ≤ 5) by (rewrite <-(result_byte b1 o) by done; by destruct o).
  change (output_result_code OutputResult.NotReady) with 5.
  encode_back f. by rewrite Hid.
Qed.

(** The common entry point reaches the decoder its identifier names. *)
Lemma decode_dispatch f fn :
  check_frame_layer f fn = Ok () →
  decode f =
  match fn with
  | Function.Heartbeat => let? m := decode_heartbeat f in Ok (MsgHeartbeat m)
  | Function.Status => let? m := decode_node_status f in Ok (MsgStatus m)
  | Function.OutputCommand => let? m := decode_output_command f in Ok (MsgOutputCommand m)
  | Function.OutputStatus => let? m := decode_output_status f in Ok (MsgOutputStatus m)
  end.
Proof.
  unfold check_frame_layer, decode. intros H.
  repeat match type of H with
  | (if ?b then _ else _) = Ok _ => destruct b eqn:?; [discriminate H|]
  end. bools.
  match goal with E : function_from_can_id _ = _ |- _ => rewrite E end.
  by destruct fn.
Qed.

(** ** Messages of every kind *)

Definition message_function (m : DecodedMessage) : Function :=
  match m with
  | MsgHeartbeat _ => Function.Heartbeat
  | MsgStatus _ => Function.Status
  | MsgOutputCommand _ => Function.OutputCommand
  | MsgOutputStatus _ => Function.OutputStatus
  end.

(** The encoder of each kind. *)
Definition encode_message (m : DecodedMessage) : Result CanFrame :=
  match m with
  | MsgHeartbeat m => encode_heartbeat m
  | MsgStatus m => encode_node_status m
  | MsgOutputCommand m => encode_output_command m
  | MsgOutputStatus m => encode_output_status m
  end.

Definition message_wf (m : DecodedMessage) : Prop :=
  match m with
  | MsgHeartbeat m => heartbeat_wf m
  | MsgStatus m => node_status_wf m
  | MsgOutputCommand m => output_command_wf m
  | MsgOutputStatus m => output_status_wf m
  end.

(** The contract's value ranges, beyond the field widths. *)
Definition message_legal (m : DecodedMessage) : Prop :=
  match m with
  | MsgHeartbeat m => legal_node (hb_node_id m) ∧ hb_boot_id m ≠ 0 ∧ hb_session_id m ≠ 0
  | MsgStatus m => legal_node (ns_node_id m) ∧ ns_session_id m ≠ 0
  | MsgOutputCommand m =>
      legal_node (oc_node_id m) ∧ oc_mask m ≠ 0 ∧ oc_session_id m ≠ 0 ∧
      oc_sequence m ≠ 0 ∧ 1 ≤ oc_validity_10ms m ≤ 250
  | MsgOutputStatus m => legal_node (os_node_id m) ∧ os_session_id m ≠ 0
  end.

Lemma encode_legal m : message_legal m → ∃ f, encode_message m = Ok f.
Proof.
  destruct m as [m|m|m|m]; cbn; unfold encode_heartbeat, encode_node_status,
    encode_output_command, encode_output_status, legal_node, kMinValidity10ms, kMaxValidity10ms;
    intros Hl; rewrite (proj2 (validate_node_id_ok _)) by lia; cbn [res_bind].
  all: destruct_and?; try (destruct (os_result m)); cbn [output_result_code];
    pass_tests; cbn; eauto.
Qed.

Lemma encode_decode m f : message_wf m → encode_message m = Ok f → decode f = Ok m.
Proof.
  intros Hwf Henc.
  assert (Hdec : match m with
    | MsgHeartbeat m => decode_heartbeat f = Ok m
    | MsgStatus m => decode_node_status f = Ok m
    | MsgOutputCommand m => decode_output_command f = Ok m
    | MsgOutputStatus m => decode_output_status f = Ok m
    end).
  { destruct m; cbn in *; eauto using heartbeat_round_trip, node_status_round_trip,
      output_command_round_trip, output_status_round_trip. }
  rewrite (decode_dispatch f (message_function m)).
  - destruct m; cbn; by rewrite Hdec.
  - destruct m; cbn; revert Hdec;
      unfold decode_heartbeat, decode_node_status, decode_output_command, decode_output_status;
      by destruct (check_frame_layer _ _) as [[]|].
Qed.

(** Every legal CAN V1 message survives the wire: a message whose fields fit
    their widths and satisfy the contract's ranges is encoded into a frame that
    the common decoder turns back into the same message. *)
Theorem can_v1_round_trip m :
  message_wf m → message_legal m → ∃ f, encode_message m = Ok f ∧ decode f = Ok m.
Proof.
  intros Hwf Hl. destruct (encode_legal m Hl) as [f Hf]. eauto using encode_decode.
Qed.

Lemma can_v1_round_trip_witness :
  ∃ f, encode_message (MsgOutputCommand (mkWireOutputCommand 1 3 7 65535 1 20)) = Ok f ∧
       decode f = Ok (MsgOutputCommand (mkWireOutputCommand 1 3 7 65535 1 20)).
Proof.
  apply can_v1_round_trip; cbn; unfold output_command_wf, legal_node, is_u; cbn; lia.
Defined.

(** The wire format is canonical: whatever frame the decoder accepts, the
    decoded message fits its widths and its encoding is that frame again, with the
    identifier reduced to its eleven arbitration bits.  So no two different
    payloads decode to the same message, and nothing outside the contract's ranges
    is ever accepted. *)
Theorem decode_canonical f m :
  frame_wf f → decode f = Ok m →
  message_wf m ∧ encode_message m = Ok (f <| can_id ::= λ i, Z.land i kCanSffMask |>).
Proof.
  intros Hwf. unfold decode. intros H. cbv zeta in H.
  repeat match type of H with
  | (if ?b then reject _ else _) = Ok _ => destruct b; [discriminate H|]
  | (if ?b then _ else _) = Ok _ => destruct b
  | reject _ = Ok _ => discriminate H
  end; apply res_bind_Ok in H as (x & Hx & [= <-]);
    cbn [message_wf encode_message];
    eauto using heartbeat_canonical, node_status_canonical,
      output_command_canonical, output_status_canonical.
Qed.

Lemma decode_canonical_witness :
  message_wf (MsgHeartbeat (mkWireHeartbeat 1 2 3 4)) ∧
  encode_message (MsgHeartbeat (mkWireHeartbeat 1 2 3 4))
  = Ok (mkCanFrame 0x021 8 [1; 0; 0; 2; 0; 3; 0; 4]).
Proof.
  apply (decode_canonical (mkCanFrame 0x021 8 [1; 0; 0; 2; 0; 3; 0; 4])).
  - unfold frame_wf, is_byte, is_u. cbn. split_and!; try lia.
    repeat constructor; lia.
  - vm_compute. reflexivity.
Defined.

(** Times for which the conversion does not overflow. *)
Definition deadline_in_range (now deadline : Z) : Prop :=
  is_i64 (deadline - now) ∧ deadline - now < 2 ^ 63 - kValidityUnitNs.

Lemma validity_window_cases now deadline :
  deadline_in_range now deadline →
  match validity_10ms_from_deadline now deadline with
  | Ok v =>
      10000000 ≤ deadline - now ≤ 2500000000 ∧ kMinValidity10ms ≤ v ≤ kMaxValidity10ms ∧
      deadline ≤ deadline_from_validity_10ms now v < deadline + kValidityUnitNs
  | Err e =>
      err_code e = Errc.InvalidArgument ∧
      (deadline - now < 10000000 ∨ 2500000000 < deadline - now)
  end.
Proof.
  unfold deadline_in_range, validity_10ms_from_deadline, deadline_from_validity_10ms, kMinValidity10ms,
    kMaxValidity10ms, kValidityUnitNs. intros [Hr Hlt].
  rewrite (i64_small (deadline - now)) by done.
  destruct (Z.ltb_spec (deadline - now) 10000000) as [|Hlo]; [split; [done|lia]|].
  rewrite i64_small by width_lia. rewrite Z.quot_div_nonneg by lia.
  set (u := (deadline - now + 10000000 - 1) / 10000000).
  assert (Hu : u * 10000000 ≤ deadline - now + 10000000 - 1 < u * 10000000 + 10000000).
  { subst u. pose proof (Z.div_mod (deadline - now + 10000000 - 1) 10000000).
    pose proof (Z.mod_pos_bound (deadline - now + 10000000 - 1) 10000000). lia. }
  clearbody u. destruct (Z.ltb_spec 250 u); [split; [done|lia]|].
  cbn beta iota. rewrite u8_small by width_lia. lia.
Qed.

(** Deadline to wire validity: the conversion succeeds exactly when 10 ms to
    2500 ms remain; the encoded validity is then legal and rounds up, so the
    receiver's deadline is never earlier than the sender's and less than 10 ms
    later; otherwise the encoder refuses to send.  The times are those for which the
    64-bit arithmetic does not overflow. *)
Theorem validity_window now deadline :
  deadline_in_range now deadline →
  match validity_10ms_from_deadline now deadline with
  | Ok v =>
      10000000 ≤ deadline - now ≤ 2500000000 ∧ kMinValidity10ms ≤ v ≤ kMaxValidity10ms ∧
      deadline ≤ deadline_from_validity_10ms now v < deadline + kValidityUnitNs
  | Err e =>
      err_code e = Errc.InvalidArgument ∧
      (deadline - now < 10000000 ∨ 2500000000 < deadline - now)
  end.
Proof. apply validity_window_cases. Qed.

Lemma validity_window_witness :
  10000000 ≤ 25000005 - 5 ≤ 2500000000 ∧ kMinValidity10ms ≤ 3 ≤ kMaxValidity10ms ∧
  25000005 ≤ deadline_from_validity_10ms 5 3 < 25000005 + kValidityUnitNs.
Proof. apply (validity_window 5 25000005). unfold deadline_in_range, is_i64, kValidityUnitNs. cbn. lia. Defined.

(** Without that bound the check for the 2500 ms maximum can be passed: for a
    deadline at the end of the 64-bit range, which the runtime accepts as unexpired, the
    rounding overflows and the conversion answers an arbitrary validity instead of
    refusing the command. *)
Theorem validity_overflow_accepts_far_deadline :
  let deadline := 2 ^ 63 - 1 in
  is_i64 deadline ∧ 2500000000 < deadline - 1000000 ∧
  ∃ v, validity_10ms_from_deadline 1000000 deadline = Ok v ∧ kMinValidity10ms ≤ v ≤ kMaxValidity10ms.
Proof.
  split_and!; [unfold is_i64; lia|lia|].
  eexists. split; [vm_compute; reflexivity|]. unfold kMinValidity10ms, kMaxValidity10ms. lia.
Qed.

Lemma seq_newer_iff a b :
  is_u 16 a → is_u 16 b →
  seq_newer a b = true ↔ a ≠ b ∧ (a - b) mod 65536 < 32768.
Proof.
  intros Ha Hb. unfold seq_newer, i16. rewrite (u16_small (u16 (a - b))) by apply u16_range.
  assert (Hr : 0 ≤ (a - b) mod 65536 < 65536) by (apply Z.mod_pos_bound; lia).
  unfold u16, wrap. change (2 ^ 16) with 65536. change (2 ^ 15) with 32768.
  assert (Hz : (a - b) mod 65536 = 0 → a = b).
  { intros Hz. apply Z.mod_divide in Hz as [k Hk]; [|lia]. revert Ha Hb. unfold is_u.
    change (2 ^ 16) with 65536. nia. }
  destruct (Z.eqb_spec a b); cbn; [split; [done|intros [? _]; lia]|].
  destruct (Z.ltb_spec ((a - b) mod 65536) 32768); rewrite Z.ltb_lt; split; lia || (intros [??]; lia).
Qed.

(** Sequence numbers: on 16-bit values [seq_newer] is the serial-number
    order of the protocol document (distance below half the number space), it is
    asymmetric, and it treats the successor of 65535, which skips 0, as newer. *)
Theorem seq_newer_spec a b :
  is_u 16 a → is_u 16 b →
  (seq_newer a b = true ↔ a ≠ b ∧ (a - b) mod 65536 < 32768) ∧
  (seq_newer a b = true → seq_newer b a = false) ∧
  seq_newer 1 65535 = true.
Proof.
  intros Ha Hb. unfold seq_newer, i16.
  assert (Hsub : ∀ x y, is_u 16 x → is_u 16 y →
    u16 (u16 (x - y)) = if y <=? x then x - y else x - y + 65536).
  { intros x y Hx Hy. rewrite u16_small by apply u16_range. unfold u16, wrap.
    change (2 ^ 16) with 65536. unfold is_u in *. change (2 ^ 16) with 65536 in *.
    destruct (Z.leb_spec y x).
    - apply Z.mod_small. lia.
    - symmetry. apply Z.mod_unique with (-1); lia. }
  rewrite !Hsub by done.
  assert (Hm : (a - b) mod 65536 = if b <=? a then a - b else a - b + 65536).
  { rewrite <-Hsub, u16_small by (done || apply u16_range). done. }
  rewrite Hm. clear Hsub Hm. unfold is_u in *. change (2 ^ 16) with 65536 in *.
  change (2 ^ 15) with 32768. split_and!; [| |done].
  all: destruct (Z.eqb_spec a b), (Z.eqb_spec b a), (Z.leb_spec b a), (Z.leb_spec a b);
    cbn; split_guards; bools; try lia.
  all: rewrite ?Z.ltb_lt, ?Z.ltb_ge; lia.
Qed.

Lemma seq_newer_spec_witness :
  (seq_newer 5 65530 = true ↔ 5 ≠ 65530 ∧ (5 - 65530) mod 65536 < 32768) ∧
  (seq_newer 5 65530 = true → seq_newer 65530 5 = false) ∧ seq_newer 1 65535 = true.
Proof. apply seq_newer_spec; unfold is_u; lia. Defined.

(** The decoder looks only at the flags for extended and remote frames and
    at the low eleven identifier bits: setting the SocketCAN error flag (or any of
    the bits 11 to 28) changes nothing, so an error frame whose low bits match is
    decoded as data although the contract keeps error frames out of the codec. *)
Theorem decode_ignores_error_flag f :
  decode (f <| can_id ::= λ i, Z.lor i 0x20000000 |>) = decode f.
Proof.
  assert (Hl : ∀ m, Z.land 0x20000000 m = 0 →
    Z.land (Z.lor (can_id f) 0x20000000) m = Z.land (can_id f) m).
  { intros m Hm. by rewrite Z.land_lor_distr_l, Hm, Z.lor_0_r. }
  destruct f as [id len d]. cbn [can_id] in Hl.
  unfold decode, decode_heartbeat, decode_node_status, decode_output_command,
    decode_output_status, check_frame_layer, check_version, frame_node_id, read_u16_be, data_at.
  cbn [update can_id can_len can_data].
  by rewrite !Hl.
Qed.
