(* ===== verification/InputQueue.v ===== *)
(** * The bounded input queue

    [RuntimeInputEvent] and [BoundedInputQueue] of include/rcr/runtime_events.hpp
    and src/core/bounded_input_queue.cpp: a fixed ring of by-value events from the
    I/O thread to the supervisor.  A full queue refuses the event and latches an
    overflow; it never overwrites. *)

From S2P Require Import Prelude Ring CanV1.

Module RuntimeInputKind.
Inductive RuntimeInputKind := Heartbeat | NodeStatus | OutputStatus | ProtocolReject | IoError.
End RuntimeInputKind.
Notation RuntimeInputKind := RuntimeInputKind.RuntimeInputKind.

#[export] Instance RuntimeInputKind_eq_dec : EqDecision RuntimeInputKind.
Proof. solve_decision. Defined.

Definition input_kind_to_string (k : RuntimeInputKind) : string :=
  match k with
  | RuntimeInputKind.Heartbeat => "HEARTBEAT"
  | RuntimeInputKind.NodeStatus => "NODE_STATUS"
  | RuntimeInputKind.OutputStatus => "OUTPUT_STATUS"
  | RuntimeInputKind.ProtocolReject => "PROTOCOL_REJECT"
  | RuntimeInputKind.IoError => "IO_ERROR"
  end.

Record RuntimeInputEvent := mkRuntimeInputEvent {
  ev_kind : RuntimeInputKind;
  ev_monotonic_ns : Z;
  ev_node_id : Z;
  ev_boot_id : Z;
  ev_session_id : Z;
  ev_hb_seq : Z;
  ev_interlock_ready : bool;
  ev_input_bits : Z;
  ev_node_fault_code : Z;
  ev_output_result : OutputResult;
  ev_output_sequence : Z;
  ev_output_mirror : Z
}.

#[export] Instance RuntimeInputEvent_eta : Eta RuntimeInputEvent :=
  mkEta _ (fun e => mkRuntimeInputEvent (ev_kind e) (ev_monotonic_ns e) (ev_node_id e)
    (ev_boot_id e) (ev_session_id e) (ev_hb_seq e) (ev_interlock_ready e) (ev_input_bits e)
    (ev_node_fault_code e) (ev_output_result e) (ev_output_sequence e) (ev_output_mirror e)).

(** [RuntimeInputEvent event{};] *)
Definition default_event : RuntimeInputEvent :=
  mkRuntimeInputEvent RuntimeInputKind.Heartbeat 0 0 0 0 0 false 0 0 OutputResult.Applied 0 0.

Record BoundedInputQueue := mkBoundedInputQueue {
  q_capacity : nat;
  q_storage : list RuntimeInputEvent;
  q_head : nat;
  q_size : nat;
  q_push_count : Z;
  q_drop_count : Z;
  q_overflow_count : Z;
  q_overflow_latched : bool
}.

#[export] Instance BoundedInputQueue_eta : Eta BoundedInputQueue :=
  mkEta _ (fun q => mkBoundedInputQueue (q_capacity q) (q_storage q) (q_head q) (q_size q)
    (q_push_count q) (q_drop_count q) (q_overflow_count q) (q_overflow_latched q)).

Definition q_new (capacity : nat) : BoundedInputQueue :=
  let cap := if Nat.eqb capacity 0 then 1 else capacity in
  mkBoundedInputQueue cap (replicate cap default_event) 0 0 0 0 0 false.

Definition q_empty (q : BoundedInputQueue) : bool := Nat.eqb (q_size q) 0.

Definition try_push (event : RuntimeInputEvent) (q : BoundedInputQueue)
    : BoundedInputQueue * bool :=
  if Nat.leb (q_capacity q) (q_size q) then
    (q <| q_drop_count ::= incr64 |> <| q_overflow_count ::= incr64 |>
       <| q_overflow_latched := true |>, false)
  else
    let index := (q_head q + q_size q) mod q_capacity q in
    (q <| q_storage ::= <[index := event]> |> <| q_size ::= S |>
       <| q_push_count ::= incr64 |>, true).

Definition try_pop (q : BoundedInputQueue) : BoundedInputQueue * option RuntimeInputEvent :=
  if Nat.eqb (q_size q) 0 then (q, None)
  else
    let event := default default_event (q_storage q !! q_head q) in
    (q <| q_head := (q_head q + 1) mod q_capacity q |> <| q_size ::= pred |>, Some event).

Definition clear_overflow_latch (q : BoundedInputQueue) : BoundedInputQueue :=
  q <| q_overflow_latched := false |>.

(** ** Abstraction to a list *)

Definition q_rep (q : BoundedInputQueue) (l : list RuntimeInputEvent) : Prop :=
  length (q_storage q) = q_capacity q ∧ 0 < q_capacity q ∧
  ring_rep (q_storage q) (q_head q) (q_size q) l.

Lemma q_rep_new capacity : q_rep (q_new capacity) [].
Proof.
  unfold q_rep, q_new. destruct (Nat.eqb_spec capacity 0); cbn;
    rewrite ?length_replicate; split_and!; try lia;
    apply ring_rep_empty; rewrite ?length_replicate; cbn; lia.
Qed.

Lemma q_rep_size q l : q_rep q l → q_size q = length l ∧ length l ≤ q_capacity q.
Proof. intros (Hl & _ & (_ & Hs & Hle & _)). lia. Qed.

Lemma q_rep_push e q l :
  q_rep q l →
  if decide (length l < q_capacity q) then
    ∃ q', try_push e q = (q', true) ∧ q_rep q' (l ++ [e]) ∧
      q_capacity q' = q_capacity q ∧ q_overflow_latched q' = q_overflow_latched q
  else
    ∃ q', try_push e q = (q', false) ∧ q_rep q' l ∧
      q_capacity q' = q_capacity q ∧ q_overflow_latched q' = true.
Proof.
  intros Hq. pose proof (q_rep_size q l Hq) as [Hs Hle]. unfold try_push.
  destruct Hq as (Hlen & Hpos & Hr).
  case_decide as Hlt.
  - rewrite (proj2 (Nat.leb_gt _ _)) by lia. eexists. split; [done|].
    unfold q_rep. cbn. split_and!; try done.
    + by rewrite length_insert.
    + rewrite <-Hlen. apply ring_rep_push; [done|lia].
  - rewrite (proj2 (Nat.leb_le _ _)) by lia. eexists. split; [done|].
    unfold q_rep. cbn. split_and!; done.
Qed.

Lemma q_rep_pop q l :
  q_rep q l →
  ∃ q', try_pop q = (q', head l) ∧ q_rep q' (tail l) ∧
    q_capacity q' = q_capacity q ∧ q_overflow_latched q' = q_overflow_latched q.
Proof.
  intros (Hlen & Hpos & Hr). unfold try_pop.
  destruct l as [|e l]; pose proof Hr as (_ & Hs & _ & _); cbn in Hs; rewrite Hs in Hr |- *; cbn.
  - exists q. unfold q_rep. rewrite Hs. done.
  - apply ring_rep_pop in Hr as [Hhd Hr]. rewrite Hhd. cbn. eexists. split; [done|].
    unfold q_rep. cbn. rewrite Hs. rewrite <-Hlen at 3. split_and!; done.
Qed.

(** ** Operation sequences against a bounded FIFO *)

Inductive q_op := QPush (e : RuntimeInputEvent) | QPop.
Inductive q_out := OutPush (ok : bool) | OutPop (e : option RuntimeInputEvent).

Fixpoint q_exec (q : BoundedInputQueue) (ops : list q_op) : BoundedInputQueue * list q_out :=
  match ops with
  | [] => (q, [])
  | QPush e :: ops =>
      let '(q1, ok) := try_push e q in
      let '(q2, outs) := q_exec q1 ops in (q2, OutPush ok :: outs)
  | QPop :: ops =>
      let '(q1, e) := try_pop q in
      let '(q2, outs) := q_exec q1 ops in (q2, OutPop e :: outs)
  end.

(** Specification: a FIFO list of at most [cap] events and an overflow flag that
    is raised by the first refused event. *)
Fixpoint fifo_exec (cap : nat) (l : list RuntimeInputEvent) (lost : bool) (ops : list q_op)
    : list RuntimeInputEvent * bool * list q_out :=
  match ops with
  | [] => (l, lost, [])
  | QPush e :: ops =>
      if decide (length l < cap) then
        let '(l', lost', outs) := fifo_exec cap (l ++ [e]) lost ops in (l', lost', OutPush true :: outs)
      else
        let '(l', lost', outs) := fifo_exec cap l true ops in (l', lost', OutPush false :: outs)
  | QPop :: ops =>
      let '(l', lost', outs) := fifo_exec cap (tail l) lost ops in
      (l', lost', OutPop (head l) :: outs)
  end.

(** The ring implements a bounded FIFO: for every capacity and every
    sequence of pushes and pops it answers like the list specification, its
    contents are the specification's list, and the overflow latch is set exactly
    when some event was refused, so a lost event is never silent. *)
Theorem queue_refines_fifo capacity ops :
  let cap := q_capacity (q_new capacity) in
  let '(q, outs) := q_exec (q_new capacity) ops in
  let '(l, lost, outs') := fifo_exec cap [] false ops in
  outs = outs' ∧ q_rep q l ∧ q_overflow_latched q = lost.
Proof.
  cbv zeta.
  assert (Hgen : ∀ q l, q_rep q l →
    let '(q', outs) := q_exec q ops in
    let '(l', lost, outs') := fifo_exec (q_capacity q) l (q_overflow_latched q) ops in
    outs = outs' ∧ q_rep q' l' ∧ q_overflow_latched q' = lost).
  { induction ops as [|[e|] ops IH]; intros q l Hq; cbn; [done| |].
    - pose proof (q_rep_push e q l Hq) as H.
      case_decide; destruct H as (q' & Heq & Hq' & Hc & Ho); rewrite Heq;
        specialize (IH _ _ Hq'); rewrite Hc, Ho in IH;
        destruct (q_exec _ _), (fifo_exec _ _ _ _) as [[??]?]; naive_solver.
    - destruct (q_rep_pop q l Hq) as (q' & Heq & Hq' & Hc & Ho). rewrite Heq.
      specialize (IH _ _ Hq'). rewrite Hc, Ho in IH.
      destruct (q_exec _ _), (fifo_exec _ _ _ _) as [[??]?]. naive_solver. }
  exact (Hgen _ _ (q_rep_new capacity)).
Qed.
