(* ===== verification/Scheduler.v ===== *)
(** * The periodic scheduler

    [PeriodicScheduler] of include/rcr/scheduler.hpp and src/linux/scheduler.cpp.
    What the kernel answers (thread creation, affinity and policy calls, clock
    samples, sleeps) and when another thread requests a stop are inputs of the
    model: a [StartEnv] for the start-up handshake and one [IterEnv] per turn of
    the loop.  The callback is a parameter: a state transformer with a success flag
    ([false] is a C++ exception). *)

From S2P Require Import Prelude.
Local Open Scope Z_scope.

Record SchedulerConfig := mkSchedulerConfig {
  sc_period : Z;
  sc_fifo_priority : Z;
  sc_require_fifo : bool;
  sc_cpu_affinity : Z
}.

Record SchedulerTick := mkSchedulerTick {
  tk_sequence : Z;
  tk_scheduled_ns : Z;
  tk_actual_ns : Z;
  tk_wakeup_lateness_ns : Z
}.

Definition CPU_SETSIZE : Z := 1024.

Record PeriodicScheduler := mkPeriodicScheduler {
  ps_config : SchedulerConfig;
  ps_joinable : bool;
  ps_stop_requested : bool;
  ps_running : bool;
  ps_cycles : Z;
  ps_deadline_misses : Z;
  ps_min_lateness_ns : Z;
  ps_max_lateness_ns : Z;
  ps_total_lateness_ns : Z;
  ps_fifo_enabled : bool;
  ps_fifo_error : Z;
  ps_affinity_enabled : bool;
  ps_affinity_error : Z;
  ps_worker_error : Z
}.

#[export] Instance PeriodicScheduler_eta : Eta PeriodicScheduler :=
  mkEta _ (fun p => mkPeriodicScheduler (ps_config p) (ps_joinable p) (ps_stop_requested p)
    (ps_running p) (ps_cycles p) (ps_deadline_misses p) (ps_min_lateness_ns p)
    (ps_max_lateness_ns p) (ps_total_lateness_ns p) (ps_fifo_enabled p) (ps_fifo_error p)
    (ps_affinity_enabled p) (ps_affinity_error p) (ps_worker_error p)).

Definition ps_new (config : SchedulerConfig) : PeriodicScheduler :=
  mkPeriodicScheduler config false false false 0 0 0 0 0 false 0 false 0 0.

Definition ps_request_stop (p : PeriodicScheduler) : PeriodicScheduler :=
  p <| ps_stop_requested := true |>.

(** ** Start-up *)

Record StartEnv := mkStartEnv {
  se_thread_created : bool;
  se_affinity_rc : Z;
  se_fifo_rc : Z;
  se_now : Result Z
}.

(** The worker's initialisation, up to the published start-up result. *)
Definition worker_init (env : StartEnv) (p : PeriodicScheduler)
    : PeriodicScheduler * option Error :=
  let '(p, err) :=
    if 0 <=? sc_cpu_affinity (ps_config p) then
      let rc := se_affinity_rc env in
      if rc =? 0 then (p <| ps_affinity_enabled := true |>, None)
      else
        let code := if rc =? EINVAL then Errc.InvalidArgument
                    else if (rc =? EPERM) || (rc =? EACCES) then Errc.Rejected
                    else Errc.IoError in
        (p <| ps_affinity_error := rc |>, Some (mkError code "pthread_setaffinity_np: "))
    else (p, None) in
  let '(p, err) :=
    if bool_decide (err = None) && (0 <? sc_fifo_priority (ps_config p)) then
      let rc := se_fifo_rc env in
      if rc =? 0 then (p <| ps_fifo_enabled := true |>, err)
      else
        (p <| ps_fifo_error := rc |>,
         if sc_require_fifo (ps_config p)
         then Some (mkError Errc.Rejected "pthread_setschedparam(SCHED_FIFO): ")
         else err)
    else (p, err) in
  let err := match se_now env, err with Err e, None => Some e | _, _ => err end in
  (p <| ps_running := bool_decide (err = None) |>, err).

Definition ps_reset_stats (p : PeriodicScheduler) : PeriodicScheduler :=
  p <| ps_stop_requested := false |> <| ps_running := false |> <| ps_cycles := 0 |>
    <| ps_deadline_misses := 0 |> <| ps_min_lateness_ns := 0 |> <| ps_max_lateness_ns := 0 |>
    <| ps_total_lateness_ns := 0 |> <| ps_fifo_enabled := false |> <| ps_fifo_error := 0 |>
    <| ps_affinity_enabled := false |> <| ps_affinity_error := 0 |> <| ps_worker_error := 0 |>.

(** [start]: the callback of the runtime is never empty, so that test is passed. *)
Definition ps_start (env : StartEnv) (p : PeriodicScheduler)
    : PeriodicScheduler * Result () :=
  let c := ps_config p in
  if sc_period c <=? 0 then (p, fail_with Errc.InvalidArgument "scheduler period must be positive")
  else if (sc_fifo_priority c <? 0) || (99 <? sc_fifo_priority c) then
    (p, fail_with Errc.InvalidArgument "SCHED_FIFO priority must be 0..99")
  else if sc_require_fifo c && (sc_fifo_priority c =? 0) then
    (p, fail_with Errc.InvalidArgument "require_fifo needs a non-zero priority")
  else if (sc_cpu_affinity c <? -1) || (CPU_SETSIZE <=? sc_cpu_affinity c) then
    (p, fail_with Errc.InvalidArgument "CPU affinity must be -1 or less than CPU_SETSIZE")
  else if ps_joinable p then (p, fail_with Errc.Busy "scheduler already started")
  else
    let p := ps_reset_stats p in
    if negb (se_thread_created env) then
      (p, fail_with Errc.IoError "create scheduler thread: ")
    else
      let p := p <| ps_joinable := true |> in
      match worker_init env p with
      | (p, Some e) => (p <| ps_joinable := false |>, Err e)
      | (p, None) => (p, Ok ())
      end.

(** ** The loop *)

Record IterEnv := mkIterEnv {
  ie_stop_before : bool;
  ie_sleeps : list (Z * bool);  (** return code of each sleep, stop flag after it *)
  ie_stop_after : bool;
  ie_actual : Result Z;
  ie_finished : Result Z
}.

(** The [do ... while] around [clock_nanosleep]. *)
Fixpoint sleep_until (sleeps : list (Z * bool)) : Z :=
  match sleeps with
  | [] => 0
  | (rc, stop) :: rest =>
      if (rc =? EINTR) && negb stop then sleep_until rest else rc
  end.

Definition count_lateness (lateness : Z) (p : PeriodicScheduler) : PeriodicScheduler :=
  let cycle := incr64 (ps_cycles p) in
  let p := p <| ps_cycles := cycle |> in
  let p := if cycle =? 1 then p <| ps_min_lateness_ns := lateness |>
           else p <| ps_min_lateness_ns ::= Z.min lateness |> in
  let p := p <| ps_max_lateness_ns ::= Z.max lateness |> in
  p <| ps_total_lateness_ns ::= λ t, t + lateness |>.

Arguments count_lateness : simpl never.

Definition lateness_of (next_ns actual_ns : Z) : Z :=
  if next_ns <? actual_ns then actual_ns - next_ns else 0.

(** Boundaries crossed when the callback finished. *)
Definition missed_periods (period next_ns finished_ns : Z) : Z :=
  if next_ns + period <=? finished_ns then (finished_ns - next_ns) / period else 0.

Section Loop.
Context {S : Type} (callback : SchedulerTick → S → S * bool).

Record LoopState := mkLoopState {
  ls_sched : PeriodicScheduler;
  ls_next_ns : Z;
  ls_sequence : Z;
  ls_user : S
}.

Inductive IterOutcome :=
  | Continue (l : LoopState)
  | Break (l : LoopState).

Definition fail_worker (err : Z) (l : LoopState) : IterOutcome :=
  Break (mkLoopState (ls_sched l <| ps_worker_error := err |>) (ls_next_ns l)
           (ls_sequence l) (ls_user l)).

(** One turn of the [while] loop. *)
Definition iterate (env : IterEnv) (l : LoopState) : IterOutcome :=
  if ie_stop_before env then Break l
  else
    let sleep_rc := sleep_until (ie_sleeps env) in
    if ie_stop_after env then Break l
    else if negb (sleep_rc =? 0) then fail_worker sleep_rc l
    else
      match ie_actual env with
      | Err _ => fail_worker EIO l
      | Ok actual_ns =>
          let next_ns := ls_next_ns l in
          let period := sc_period (ps_config (ls_sched l)) in
          let lateness := lateness_of next_ns actual_ns in
          let sched := count_lateness lateness (ls_sched l) in
          let sequence := ls_sequence l + 1 in
          match callback (mkSchedulerTick sequence next_ns actual_ns lateness) (ls_user l) with
          | (user, false) => fail_worker ECANCELED (mkLoopState sched next_ns sequence user)
          | (user, true) =>
              let l := mkLoopState sched next_ns sequence user in
              match ie_finished env with
              | Err _ => fail_worker EIO l
              | Ok finished_ns =>
                  let missed := missed_periods period next_ns finished_ns in
                  Continue (mkLoopState
                    (sched <| ps_deadline_misses ::= λ m, u64 (m + missed) |>)
                    (next_ns + (missed + 1) * period) sequence user)
              end
          end
      end.

(** The worker after a successful start: the loop, then [running = false]. *)
Fixpoint run_loop (envs : list IterEnv) (l : LoopState) : LoopState :=
  match envs with
  | [] => l
  | env :: envs =>
      match iterate env l with
      | Continue l => run_loop envs l
      | Break l =>
          mkLoopState (ls_sched l <| ps_running := false |>) (ls_next_ns l)
            (ls_sequence l) (ls_user l)
      end
  end.

Definition enter_loop (now : Z) (p : PeriodicScheduler) (s : S) : LoopState :=
  mkLoopState p (now + sc_period (ps_config p)) 0 s.
End Loop.

Arguments LoopState : clear implicits.
Arguments mkLoopState {S} _ _ _ _.
Arguments ls_sched {S} _.
Arguments ls_next_ns {S} _.
Arguments ls_sequence {S} _.
Arguments ls_user {S} _.

(** [stats().mean_lateness_ns]. *)
Definition mean_lateness (p : PeriodicScheduler) : Z :=
  if ps_cycles p =? 0 then 0 else Z.quot (ps_total_lateness_ns p) (ps_cycles p).

(** ** Periodic behaviour *)

Section LoopFacts.
Context {S : Type} (callback : SchedulerTick → S → S * bool).
Implicit Types (l : LoopState S).

Lemma missed_periods_spec period next_ns finished_ns :
  0 < period →
  let k := missed_periods period next_ns finished_ns in
  0 ≤ k ∧ finished_ns < next_ns + (k + 1) * period ∧
  (0 < k → next_ns + k * period ≤ finished_ns).
Proof.
  intros Hp. unfold missed_periods. destruct (Z.leb_spec (next_ns + period) finished_ns).
  - pose proof (Z.div_mod (finished_ns - next_ns) period).
    pose proof (Z.mod_pos_bound (finished_ns - next_ns) period).
    pose proof (Z.div_pos (finished_ns - next_ns) period).
    cbv zeta. nia.
  - cbv zeta. lia.
Qed.

(** The shape of a completed turn. *)
Lemma iterate_continue env l l' :
  iterate callback env l = Continue l' →
  ∃ actual user finished,
    ie_actual env = Ok actual ∧ ie_finished env = Ok finished ∧
    callback (mkSchedulerTick (ls_sequence l + 1) (ls_next_ns l) actual
                (lateness_of (ls_next_ns l) actual)) (ls_user l) = (user, true) ∧
    let missed := missed_periods (sc_period (ps_config (ls_sched l))) (ls_next_ns l) finished in
    l' = mkLoopState
           (count_lateness (lateness_of (ls_next_ns l) actual) (ls_sched l)
              <| ps_deadline_misses ::= λ m, u64 (m + missed) |>)
           (ls_next_ns l + (missed + 1) * sc_period (ps_config (ls_sched l)))
           (ls_sequence l + 1) user.
Proof.
  unfold iterate, fail_worker. intros H.
  destruct (ie_stop_before env); [done|]. cbv zeta in H.
  destruct (ie_stop_after env); [done|].
  destruct (negb _); [done|].
  destruct (ie_actual env) as [actual|]; [|done].
  destruct (callback _ _) as [user []] eqn:Hcb; [|done].
  destruct (ie_finished env) as [finished|]; [|done].
  injection H as <-. eauto 10.
Qed.

Lemma count_lateness_frame x p :
  ps_config (count_lateness x p) = ps_config p ∧
  ps_deadline_misses (count_lateness x p) = ps_deadline_misses p.
Proof. unfold count_lateness. by destruct (_ =? _). Qed.

(** No catch-up storm: after a completed turn the next wake-up boundary
    lies strictly in the future of the instant the callback finished, at most one
    period ahead when boundaries were missed, still on the grid of the previous
    boundary; and the miss counter grows by exactly the skipped boundaries. *)
Theorem next_boundary_in_future env l l' finished :
  0 < sc_period (ps_config (ls_sched l)) →
  ie_finished env = Ok finished →
  iterate callback env l = Continue l' →
  let period := sc_period (ps_config (ls_sched l)) in
  ∃ k, 0 ≤ k ∧ ls_next_ns l' = ls_next_ns l + (k + 1) * period ∧
    finished < ls_next_ns l' ∧
    (0 < k → ls_next_ns l' ≤ finished + period) ∧
    ps_deadline_misses (ls_sched l') = u64 (ps_deadline_misses (ls_sched l) + k).
Proof.
  intros Hp Hfin Hit period.
  destruct (iterate_continue _ _ _ Hit) as (actual & user & fin & _ & Hfin' & _ & ->).
  rewrite Hfin in Hfin'. injection Hfin' as <-.
  destruct (missed_periods_spec period (ls_next_ns l) finished Hp) as (? & ? & ?).
  fold period. exists (missed_periods period (ls_next_ns l) finished). cbn.
  destruct (count_lateness_frame (lateness_of (ls_next_ns l) actual) (ls_sched l)) as [_ ->].
  split_and!; try done; lia.
Qed.

(** Completed turns in a row. *)
Fixpoint turns (envs : list IterEnv) l : option (LoopState S) :=
  match envs with
  | [] => Some l
  | env :: envs =>
      match iterate callback env l with
      | Continue l => turns envs l
      | Break _ => None
      end
  end.

Lemma turns_grid envs l l' :
  0 < sc_period (ps_config (ls_sched l)) → turns envs l = Some l' →
  ∃ M, 0 ≤ M ∧
    ls_sequence l' = ls_sequence l + Z.of_nat (length envs) ∧
    ls_next_ns l' =
      ls_next_ns l + (Z.of_nat (length envs) + M) * sc_period (ps_config (ls_sched l)) ∧
    u64 (ps_deadline_misses (ls_sched l')) = u64 (ps_deadline_misses (ls_sched l) + M).
Proof.
  intros Hp. revert l Hp. induction envs as [|env envs IH]; intros l Hp; cbn [turns].
  { intros [= <-]. exists 0. cbn. rewrite !Z.add_0_r. split_and!; (done || lia). }
  destruct (iterate _ _ _) as [l1|] eqn:Hit; [|done]. intros Ht.
  destruct (iterate_continue _ _ _ Hit) as (actual & user & fin & _ & _ & _ & ->).
  set (k := missed_periods _ _ fin) in *.
  assert (Hk : 0 ≤ k) by (subst k; apply missed_periods_spec; done).
  destruct (count_lateness_frame (lateness_of (ls_next_ns l) actual) (ls_sched l)) as [Hc Hm].
  apply IH in Ht as (M & ? & Hseq & Hnext & Hmiss); [|cbn; by rewrite Hc].
  cbn in Hseq, Hnext, Hmiss. rewrite Hc in Hnext. rewrite Hm in Hmiss.
  exists (k + M). cbn [length]. split_and!; [lia|lia|rewrite Hnext; lia|].
  rewrite Hmiss. unfold u64, wrap. rewrite Zplus_mod_idemp_l. f_equal. lia.
Qed.

(** No drift: [n] completed turns after entering the loop at time [now],
    the callback ran [n] times and the next boundary is
    [now + (1 + n + misses) * period], whatever the callback durations and
    wake-up delays were; [misses] is what the miss counter holds modulo 2^64. *)
Theorem scheduler_no_drift envs now p (s : S) l' :
  0 < sc_period (ps_config p) → ps_deadline_misses p = 0 →
  turns envs (enter_loop now p s) = Some l' →
  ∃ misses, 0 ≤ misses ∧
    ls_sequence l' = Z.of_nat (length envs) ∧
    ls_next_ns l' = now + (1 + Z.of_nat (length envs) + misses) * sc_period (ps_config p) ∧
    u64 (ps_deadline_misses (ls_sched l')) = u64 misses.
Proof.
  intros Hp H0 Ht. destruct (turns_grid envs (enter_loop now p s) l' Hp Ht) as (M & HM & Hseq & Hnext & Hmiss).
  cbn in *. rewrite H0 in Hmiss. exists M. split_and!; try done. lia.
Qed.
End LoopFacts.

(** A concrete loop whose callback counts its calls. *)
Definition demo_config : SchedulerConfig := mkSchedulerConfig 10 0 false (-1).
Definition demo_callback (t : SchedulerTick) (n : Z) : Z * bool := (n + 1, true).
Definition demo_iter (actual finished : Z) : IterEnv :=
  mkIterEnv false [(EINTR, false); (0, false)] false (Ok actual) (Ok finished).

Lemma next_boundary_in_future_witness :
  ∃ k, 0 ≤ k ∧ 140 = 110 + (k + 1) * 10 ∧ 135 < 140 ∧ (0 < k → 140 ≤ 135 + 10) ∧ 2 = u64 (0 + k).
Proof.
  exact (next_boundary_in_future demo_callback (demo_iter 112 135)
    (enter_loop 100 (ps_new demo_config) 0)
    (mkLoopState (count_lateness 2 (ps_new demo_config) <| ps_deadline_misses := 2 |>) 140 1 1)
    135 eq_refl eq_refl eq_refl).
Defined.

Lemma scheduler_no_drift_witness :
  ∃ misses, 0 ≤ misses ∧ 2 = Z.of_nat 2 ∧ 150 = 100 + (1 + Z.of_nat 2 + misses) * 10 ∧
    u64 2 = u64 misses.
Proof.
  exact (scheduler_no_drift demo_callback [demo_iter 112 135; demo_iter 140 145] 100
    (ps_new demo_config) 0
    (mkLoopState (count_lateness 0 (count_lateness 2 (ps_new demo_config))
       <| ps_deadline_misses := 2 |>) 150 2 2)
    eq_refl eq_refl eq_refl).
Defined.

(** ** Lateness statistics *)

(** [n] samples counted; the extremes bound the total. *)
Definition stats_inv (n : Z) (p : PeriodicScheduler) : Prop :=
  ps_cycles p = n ∧ 0 ≤ ps_min_lateness_ns p ∧
  n * ps_min_lateness_ns p ≤ ps_total_lateness_ns p ≤ n * ps_max_lateness_ns p.

Lemma count_lateness_inv x p n :
  stats_inv n p → 0 ≤ n → n + 1 < 2 ^ 64 → 0 ≤ x → 0 ≤ ps_max_lateness_ns p →
  (n = 0 → ps_total_lateness_ns p = 0) →
  stats_inv (n + 1) (count_lateness x p) ∧ 0 ≤ ps_max_lateness_ns (count_lateness x p).
Proof.
  unfold stats_inv, count_lateness, incr64. intros (Hc & Hmin & Hlo & Hhi) Hn Hb Hx Hmax H0.
  rewrite Hc, u64_small by width_lia.
  destruct (Z.eqb_spec (n + 1) 1); cbn; split_and!; try lia.
  all: try (assert (n = 0) by lia; subst n; lia).
  all: try (destruct (Z.le_ge_cases x (ps_min_lateness_ns p)); nia).
Qed.

Lemma count_lateness_fold xs p n :
  stats_inv n p → 0 ≤ n → n + Z.of_nat (length xs) < 2 ^ 64 → Forall (λ x, 0 ≤ x) xs →
  0 ≤ ps_max_lateness_ns p → (n = 0 → ps_total_lateness_ns p = 0) →
  stats_inv (n + Z.of_nat (length xs)) (foldl (flip count_lateness) p xs).
Proof.
  revert p n. induction xs as [|x xs IH]; intros p n Hi Hn Hb Hall Hmax H0; cbn.
  { by rewrite Z.add_0_r. }
  apply Forall_cons in Hall as [Hx Hall]. cbn [length] in Hb.
  destruct (count_lateness_inv x p n) as [Hi' Hmax']; try done; [lia|].
  replace (n + Z.of_nat (S (length xs))) with (n + 1 + Z.of_nat (length xs)) by lia.
  apply IH; try done; lia.
Qed.

(** The reported statistics are consistent: after the statistics were reset
    and any non-empty series of wake-up latenesses was counted, the mean lies
    between the reported minimum and maximum. *)
Theorem lateness_mean_between xs p :
  xs ≠ [] → Forall (λ x, 0 ≤ x) xs → Z.of_nat (length xs) < 2 ^ 64 →
  let q := foldl (flip count_lateness) (ps_reset_stats p) xs in
  ps_min_lateness_ns q ≤ mean_lateness q ≤ ps_max_lateness_ns q.
Proof.
  intros Hne Hall Hb q.
  assert (Hq : stats_inv (Z.of_nat (length xs)) q).
  { by apply (count_lateness_fold xs (ps_reset_stats p) 0). }
  destruct Hq as (Hc & Hmin & Hlo & Hhi). unfold mean_lateness. rewrite Hc.
  assert (Hpos : 0 < Z.of_nat (length xs)) by (destruct xs; [done|cbn; lia]).
  destruct (Z.eqb_spec (Z.of_nat (length xs)) 0); [lia|].
  assert (0 ≤ ps_total_lateness_ns q) by nia.
  rewrite Z.quot_div_nonneg by lia. split.
  - apply Z.div_le_lower_bound; lia.
  - apply Z.div_le_upper_bound; lia.
Qed.

Lemma lateness_mean_between_witness :
  let q := foldl (flip count_lateness) (ps_reset_stats (ps_new demo_config)) [7; 1; 4] in
  ps_min_lateness_ns q ≤ mean_lateness q ≤ ps_max_lateness_ns q.
Proof.
  apply (lateness_mean_between [7; 1; 4] (ps_new demo_config));
    [discriminate|repeat constructor; lia|reflexivity].
Defined.
