(* ===== verification/Runtime.v ===== *)
(** * The Linux runtime

    [LinuxRuntime] of include/rcr/runtime.hpp and src/runtime/linux_runtime.cpp:
    the state machine, the mailbox, the command watchdog, the trace buffer and the
    scheduler, composed under one state mutex.  Each operation below is one
    critical section of that mutex; a monotonic clock sample is an argument (the
    [Result] the code obtained from [monotonic_now_ns]).  The interleaving of the
    application, I/O and scheduler threads is a sequence of such operations. *)

From S2P Require Import Prelude Types StateMachine Mailbox Watchdog Ring Trace CanV1 Scheduler.
Local Open Scope Z_scope.

Record RuntimeConfig := mkRuntimeConfig {
  rc_scheduler : SchedulerConfig;
  rc_command_timeout : Z;
  rc_output_ack_timeout : Z;
  rc_trace_capacity : nat;
  rc_test_throw_on_tick : bool
}.

Record LinuxRuntime := mkLinuxRuntime {
  rt_config : RuntimeConfig;
  rt_state_machine : RuntimeStateMachine;
  rt_mailbox : CommandMailbox;
  rt_command_watchdog : MonotonicWatchdog;
  rt_trace : TraceBuffer;
  rt_scheduler : PeriodicScheduler;
  rt_active_session_id : option Z;
  rt_last_output_sequence : Z;
  rt_output_ack_pending : bool;
  rt_last_sent_session : Z;
  rt_last_sent_sequence : Z;
  rt_last_sent_time_ns : Z;
  rt_last_ack_session : Z;
  rt_last_ack_sequence : Z;
  rt_last_ack_result : OutputResult;
  rt_last_ack_time_ns : Z;
  rt_ack_timeout_count : Z;
  rt_unexpected_ack_count : Z;
  rt_test_throw_on_tick : bool
}.

#[export] Instance LinuxRuntime_eta : Eta LinuxRuntime :=
  mkEta _ (fun r => mkLinuxRuntime (rt_config r) (rt_state_machine r) (rt_mailbox r)
    (rt_command_watchdog r) (rt_trace r) (rt_scheduler r) (rt_active_session_id r)
    (rt_last_output_sequence r) (rt_output_ack_pending r) (rt_last_sent_session r)
    (rt_last_sent_sequence r) (rt_last_sent_time_ns r) (rt_last_ack_session r)
    (rt_last_ack_sequence r) (rt_last_ack_result r) (rt_last_ack_time_ns r)
    (rt_ack_timeout_count r) (rt_unexpected_ack_count r) (rt_test_throw_on_tick r)).

Definition rt_new (config : RuntimeConfig) (contention : list bool) : LinuxRuntime :=
  mkLinuxRuntime config sm_init mb_init (wd_new (rc_command_timeout config))
    (tb_new (rc_trace_capacity config) contention) (ps_new (rc_scheduler config))
    None 0 false 0 0 0 0 0 OutputResult.Applied 0 0 0 (rc_test_throw_on_tick config).

Definition rt_running (rt : LinuxRuntime) : bool := ps_running (rt_scheduler rt).
Definition rt_mode (rt : LinuxRuntime) : RuntimeMode := sm_mode (rt_state_machine rt).
Definition rt_fault (rt : LinuxRuntime) : FaultCode := sm_fault (rt_state_machine rt).
Definition rt_can_accept (rt : LinuxRuntime) : bool := can_accept_output (rt_state_machine rt).

Definition rt_record (event : TraceEvent) (rt : LinuxRuntime) : LinuxRuntime :=
  rt <| rt_trace ::= tb_record event |>.

Definition trace_transition (t : TransitionResult) (now_ns : Z) (rt : LinuxRuntime)
    : LinuxRuntime :=
  rt_record (mkTraceEvent now_ns TraceKind.StateTransition (mode_code (from t)) (mode_code (to t))) rt.

Definition clear_output_path (rt : LinuxRuntime) : LinuxRuntime :=
  rt <| rt_command_watchdog ::= wd_disarm |> <| rt_mailbox ::= mb_clear |>
     <| rt_active_session_id := None |> <| rt_last_output_sequence := 0 |>
     <| rt_output_ack_pending := false |>.

Definition maybe_disarm_idle_command_watchdog (rt : LinuxRuntime) : LinuxRuntime :=
  if negb (mb_has_pending (rt_mailbox rt)) && negb (rt_output_ack_pending rt)
  then rt <| rt_command_watchdog ::= wd_disarm |> else rt.

Definition sm_step (e : RuntimeEvent) (rt : LinuxRuntime) : LinuxRuntime * TransitionResult :=
  let '(sm, t) := sm_handle (rt_state_machine rt) e in
  (rt <| rt_state_machine := sm |>, t).

(** ** Lifecycle *)

Definition rt_start (env : StartEnv) (rt : LinuxRuntime) : LinuxRuntime * Result () :=
  if (rc_command_timeout (rt_config rt) <=? 0) || (rc_output_ack_timeout (rt_config rt) <=? 0)
  then (rt, fail_with Errc.InvalidArgument
              "command watchdog and output ACK timeouts must be positive")
  else
    let '(s, r) := ps_start env (rt_scheduler rt) in
    (rt <| rt_scheduler := s |>, r).

(** [stop] before the lock: request the stop and join the worker. *)
Definition rt_stop_join (rt : LinuxRuntime) : LinuxRuntime :=
  rt <| rt_scheduler ::= λ s,
    ps_request_stop s <| ps_running ::= λ r, if ps_joinable s then false else r |>
                      <| ps_joinable := false |> |>.

(** [stop] under the lock: close the output path and reset the state machine. *)
Definition rt_stop_locked (now : Result Z) (rt : LinuxRuntime) : LinuxRuntime :=
  let rt := clear_output_path rt in
  let before := rt_mode rt in
  let rt := rt <| rt_state_machine := sm_init |> in
  if negb (before ==? RuntimeMode.Disabled) then
    rt_record (mkTraceEvent (value_or 0 now) TraceKind.StateTransition (mode_code before)
                 (mode_code RuntimeMode.Disabled)) rt
  else rt.

Definition rt_stop (now : Result Z) (rt : LinuxRuntime) : LinuxRuntime :=
  rt_stop_locked now (rt_stop_join rt).

(** ** State events *)

Definition rt_handle (now : Result Z) (event : RuntimeEvent) (rt : LinuxRuntime)
    : LinuxRuntime * TransitionResult :=
  if event ==? RuntimeEvent.FaultDetected then
    (rt, mkTransitionResult false (rt_mode rt) (rt_mode rt)
           "use raise_fault(code) for atomic fault escalation")
  else if (event ==? RuntimeEvent.ActivateRequest) && negb (rt_running rt) then
    (rt, mkTransitionResult false (rt_mode rt) (rt_mode rt) "runtime scheduler is not running")
  else
    let '(rt, transition) := sm_step event rt in
    if accepted transition then
      let rt :=
        if (to transition ==? RuntimeMode.Active) && negb (from transition ==? RuntimeMode.Active)
        then clear_output_path rt
        else if (from transition ==? RuntimeMode.Active) && negb (to transition ==? RuntimeMode.Active)
        then clear_output_path rt
        else rt in
      (trace_transition transition (value_or 0 now) rt, transition)
    else (rt, transition).

Definition rt_raise_fault (now : Result Z) (code : FaultCode) (rt : LinuxRuntime)
    : LinuxRuntime * TransitionResult :=
  if code ==? FaultCode.None then
    (rt, mkTransitionResult false (rt_mode rt) (rt_mode rt)
           "raise_fault requires a non-NONE fault code")
  else
    let rt := rt <| rt_state_machine ::= sm_set_fault code |> in
    let '(rt, transition) := sm_step RuntimeEvent.FaultDetected rt in
    let rt := clear_output_path rt in
    let rt := rt_record (mkTraceEvent (value_or 0 now) TraceKind.FaultRaised (fault_code code)
                           (mode_code (to transition))) rt in
    (if accepted transition then trace_transition transition (value_or 0 now) rt else rt,
     transition).

Definition rt_set_interlock_ready (now : Result Z) (ready : bool) (rt : LinuxRuntime)
    : LinuxRuntime :=
  let before := rt_mode rt in
  let rt := rt <| rt_state_machine ::= sm_set_interlock_ready ready |> in
  let after := rt_mode rt in
  let rt := if (before ==? RuntimeMode.Active) && negb (after ==? RuntimeMode.Active)
            then clear_output_path rt else rt in
  if negb (before ==? after) then
    rt_record (mkTraceEvent (value_or 0 now) TraceKind.StateTransition (mode_code before)
                 (mode_code after)) rt
  else rt.

(** ** Commands *)

Definition rt_reject_command (now_ns : Z) (command : OutputCommand) (message : string)
    (rt : LinuxRuntime) : LinuxRuntime * Result () :=
  (rt_record (mkTraceEvent now_ns TraceKind.OutputCommandRejected
                (i64 (cmd_sequence command)) 0) rt,
   fail_with Errc.Rejected message).

Definition rt_publish_output_command (now : Result Z) (command : OutputCommand)
    (rt : LinuxRuntime) : LinuxRuntime * Result () :=
  match now with
  | Err e => (rt, Err e)
  | Ok now_ns =>
      if negb (rt_running rt) then
        (rt, fail_with Errc.Rejected "runtime scheduler is not running")
      else if negb (rt_can_accept rt) then
        rt_reject_command now_ns command
          "runtime is not active or software interlock is open" rt
      else if (cmd_session_id command =? 0) || (cmd_sequence command =? 0) ||
              (cmd_mask command =? 0) then
        rt_reject_command now_ns command
          "output command requires nonzero session, sequence, and mask" rt
      else if cmd_deadline_ns command <=? now_ns then
        rt_reject_command now_ns command
          "output command deadline has expired or is missing" rt
      else
        let mismatch :=
          match rt_active_session_id rt with
          | None => false
          | Some s => negb (s =? cmd_session_id command)
          end in
        if mismatch then
          rt_reject_command now_ns command
            "output command belongs to a different active session" rt
        else
          let rt :=
            match rt_active_session_id rt with
            | None => rt <| rt_active_session_id := Some (cmd_session_id command) |>
            | Some _ => rt
            end in
          if cmd_sequence command <=? rt_last_output_sequence rt then
            rt_reject_command now_ns command "output command sequence is stale or duplicated" rt
          else
            let rt := rt <| rt_last_output_sequence := cmd_sequence command |>
                         <| rt_mailbox ::= mb_publish command |>
                         <| rt_command_watchdog ::= wd_arm now_ns |> in
            (rt_record (mkTraceEvent now_ns TraceKind.OutputCommandPublished
                          (i64 (cmd_sequence command)) (cmd_deadline_ns command)) rt,
             Ok ())
  end.

Definition rt_try_consume_output_command (now : Result Z) (rt : LinuxRuntime)
    : LinuxRuntime * option OutputCommand :=
  match now with
  | Err _ => (rt, None)
  | Ok now_ns =>
      if negb (rt_running rt) || negb (rt_can_accept rt) then
        (rt <| rt_mailbox ::= mb_clear |>, None)
      else if rt_output_ack_pending rt then (rt, None)
      else
        let '(mb, command) := mb_try_consume (rt_mailbox rt) in
        let rt := rt <| rt_mailbox := mb |> in
        match command with
        | Some c =>
            if cmd_deadline_ns c <=? now_ns then
              (maybe_disarm_idle_command_watchdog
                 (rt_record (mkTraceEvent now_ns TraceKind.OutputCommandRejected
                               (i64 (cmd_sequence c)) (cmd_deadline_ns c)) rt), None)
            else (rt, Some c)
        | None => (rt, None)
        end
  end.

Definition rt_output_command_sendable (now : Result Z) (command : OutputCommand)
    (rt : LinuxRuntime) : bool :=
  match now with
  | Err _ => false
  | Ok now_ns =>
      rt_running rt && rt_can_accept rt && negb (rt_output_ack_pending rt) &&
      match rt_active_session_id rt with
      | None => false
      | Some s => s =? cmd_session_id command
      end && (now_ns <? cmd_deadline_ns command)
  end.

Definition rt_note_output_command_sent (session_id sequence sent_time_ns : Z)
    (rt : LinuxRuntime) : LinuxRuntime * Result () :=
  if (session_id =? 0) || (sequence =? 0) || (sent_time_ns <=? 0) then
    (rt, fail_with Errc.InvalidArgument
           "sent output requires nonzero wire session, sequence, and timestamp")
  else if negb (rt_running rt) || negb (rt_can_accept rt) ||
          match rt_active_session_id rt with
          | None => true
          | Some s => negb (u16 s =? session_id)
          end then
    (rt, fail_with Errc.Rejected "runtime closed while output command was being sent")
  else if rt_output_ack_pending rt then
    (rt, fail_with Errc.Busy "an output command ACK is already pending")
  else
    let rt := rt <| rt_output_ack_pending := true |> <| rt_last_sent_session := session_id |>
                 <| rt_last_sent_sequence := sequence |> <| rt_last_sent_time_ns := sent_time_ns |> in
    (rt_record (mkTraceEvent sent_time_ns TraceKind.OutputCommandSent sequence session_id) rt,
     Ok ()).

Definition rt_observe_output_status (session_id sequence : Z) (result : OutputResult)
    (ack_time_ns : Z) (rt : LinuxRuntime) : LinuxRuntime :=
  let rt := rt <| rt_last_ack_session := session_id |> <| rt_last_ack_sequence := sequence |>
               <| rt_last_ack_result := result |> <| rt_last_ack_time_ns := ack_time_ns |> in
  let rt := rt_record (mkTraceEvent ack_time_ns TraceKind.OutputAckObserved sequence
                         (output_result_code result)) rt in
  let matches := rt_output_ack_pending rt && (session_id =? rt_last_sent_session rt) &&
                 (sequence =? rt_last_sent_sequence rt) in
  if matches && (result ==? OutputResult.Applied) then
    maybe_disarm_idle_command_watchdog (rt <| rt_output_ack_pending := false |>)
  else
    rt_record (mkTraceEvent ack_time_ns TraceKind.OutputAckUnexpected sequence
                 (output_result_code result))
      (rt <| rt_unexpected_ack_count ::= incr64 |>).

(** ** The periodic tick *)

(** The ACK timeout, judged first. *)
Definition tick_ack_timeout (actual_ns : Z) (rt : LinuxRuntime) : LinuxRuntime :=
  if rt_can_accept rt && rt_output_ack_pending rt &&
     (rt_last_sent_time_ns rt <=? actual_ns) &&
     (rc_output_ack_timeout (rt_config rt) <=? actual_ns - rt_last_sent_time_ns rt)
  then
    let rt := rt <| rt_ack_timeout_count ::= incr64 |> in
    let rt := rt_record (mkTraceEvent actual_ns TraceKind.OutputAckTimeout
                (rt_last_sent_sequence rt) (actual_ns - rt_last_sent_time_ns rt)) rt in
    let rt := rt <| rt_state_machine ::= sm_set_fault FaultCode.AckTimeout |> in
    let '(rt, transition) := sm_step RuntimeEvent.Hold rt in
    trace_transition transition actual_ns (clear_output_path rt)
  else rt.

(** The command watchdog. *)
Definition tick_watchdog (actual_ns : Z) (rt : LinuxRuntime) : LinuxRuntime :=
  if rt_can_accept rt then
    let '(wd, check) := wd_check actual_ns (rt_command_watchdog rt) in
    let rt := rt <| rt_command_watchdog := wd |> in
    if newly_expired check then
      let rt := rt_record (mkTraceEvent actual_ns TraceKind.WatchdogExpired (age_ns check) 0) rt in
      let '(rt, transition) := sm_step RuntimeEvent.CommandTimeout rt in
      trace_transition transition actual_ns (clear_output_path rt)
    else rt
  else rt.

Definition tick_trace (tick : SchedulerTick) (rt : LinuxRuntime) : LinuxRuntime :=
  let rt := rt_record (mkTraceEvent (tk_actual_ns tick) TraceKind.SchedulerTick
              (tk_wakeup_lateness_ns tick) (i64 (tk_sequence tick))) rt in
  if sc_period (rc_scheduler (rt_config rt)) <=? tk_wakeup_lateness_ns tick then
    rt_record (mkTraceEvent (tk_actual_ns tick) TraceKind.DeadlineMiss
                (tk_wakeup_lateness_ns tick) (i64 (tk_sequence tick))) rt
  else rt.

(** The part of [on_tick] before the supervision hook; [false] is the test
    exception, which fires once. *)
Definition rt_tick (tick : SchedulerTick) (rt : LinuxRuntime) : LinuxRuntime * bool :=
  if rt_test_throw_on_tick rt then (rt <| rt_test_throw_on_tick := false |>, false)
  else
    (tick_watchdog (tk_actual_ns tick)
       (tick_ack_timeout (tk_actual_ns tick) (tick_trace tick rt)), true).

(** [on_tick]: the hook runs after the critical section, on the runtime and its
    own state. *)
Definition rt_on_tick {H} (hook : Z → LinuxRuntime * H → LinuxRuntime * H)
    (tick : SchedulerTick) (s : LinuxRuntime * H) : (LinuxRuntime * H) * bool :=
  let '(rt, ok) := rt_tick tick (fst s) in
  if ok then (hook (tk_actual_ns tick) (rt, snd s), true) else ((rt, snd s), false).
