(* ===== verification/RuntimeInv.v ===== *)
(** * Runtime invariant

    The sequences of runtime operations the threads can produce, the invariant all
    of them preserve, and its consequences: the output path is closed outside
    [Active], faults and modes stay consistent, and a fault closes the path at
    once. *)

From S2P Require Import Prelude Types StateMachine Mailbox Watchdog Ring Trace CanV1 Scheduler Runtime.
Local Open Scope Z_scope.

Arguments tb_record : simpl never.
Arguments sm_handle : simpl never.
Arguments mb_publish : simpl never.
Arguments incr64 : simpl never.
Arguments rt_record : simpl never.
Arguments clear_output_path : simpl never.
Arguments maybe_disarm_idle_command_watchdog : simpl never.

(** ** Calls *)

Inductive rt_call :=
  | CStart (env : StartEnv)
  | CStopJoin
  | CStopLocked (now : Result Z)
  | CHandle (now : Result Z) (e : RuntimeEvent)
  | CRaise (now : Result Z) (code : FaultCode)
  | CInterlock (now : Result Z) (ready : bool)
  | CPublish (now : Result Z) (c : OutputCommand)
  | CConsume (now : Result Z)
  | CSent (session sequence time : Z)
  | CObserve (session sequence : Z) (result : OutputResult) (time : Z)
  | CTick (tick : SchedulerTick)
  | CWorkerExit (error : Z).

(** The scheduler worker leaving its loop. *)
Definition rt_worker_exit (error : Z) (rt : LinuxRuntime) : LinuxRuntime :=
  rt <| rt_scheduler ::= λ s, s <| ps_worker_error := error |> <| ps_running := false |> |>.

Definition rt_apply (rt : LinuxRuntime) (c : rt_call) : LinuxRuntime :=
  match c with
  | CStart env => fst (rt_start env rt)
  | CStopJoin => rt_stop_join rt
  | CStopLocked now => rt_stop_locked now rt
  | CHandle now e => fst (rt_handle now e rt)
  | CRaise now code => fst (rt_raise_fault now code rt)
  | CInterlock now ready => rt_set_interlock_ready now ready rt
  | CPublish now c => fst (rt_publish_output_command now c rt)
  | CConsume now => fst (rt_try_consume_output_command now rt)
  | CSent s q t => fst (rt_note_output_command_sent s q t rt)
  | CObserve s q r t => rt_observe_output_status s q r t rt
  | CTick tick => fst (rt_tick tick rt)
  | CWorkerExit error => rt_worker_exit error rt
  end.

Definition rt_exec (rt : LinuxRuntime) (cs : list rt_call) : LinuxRuntime := foldl rt_apply rt cs.

(** States some interleaving of calls reaches from a new runtime. *)
Definition rt_reachable (rt : LinuxRuntime) : Prop :=
  ∃ config contention cs, rt = rt_exec (rt_new config contention) cs.

(** ** The invariant *)

Definition path_closed (rt : LinuxRuntime) : Prop :=
  wd_armed (rt_command_watchdog rt) = false ∧ mb_slot (rt_mailbox rt) = None ∧
  rt_active_session_id rt = None ∧ rt_last_output_sequence rt = 0 ∧
  rt_output_ack_pending rt = false.

(** Which fault classifications a mode may carry. *)
Definition fault_ok (s : RuntimeStateMachine) : Prop :=
  match sm_mode s with
  | RuntimeMode.Active => sm_fault s = FaultCode.None
  | RuntimeMode.Hold => resumable (sm_fault s) = true
  | RuntimeMode.Fault => sm_fault s ≠ FaultCode.None
  | _ => True
  end.

Definition admitted (rt : LinuxRuntime) (c : OutputCommand) : Prop :=
  rt_active_session_id rt = Some (cmd_session_id c) ∧
  rt_last_output_sequence rt = cmd_sequence c ∧
  cmd_session_id c ≠ 0 ∧ cmd_sequence c ≠ 0 ∧ cmd_mask c ≠ 0.

Record path_inv (rt : LinuxRuntime) : Prop := {
  inv_timeout : wd_timeout (rt_command_watchdog rt) = rc_command_timeout (rt_config rt);
  inv_expired : wd_expired (rt_command_watchdog rt) = false;
  inv_session : rt_active_session_id rt = None → path_closed rt;
  inv_slot : ∀ c, mb_slot (rt_mailbox rt) = Some c →
    admitted rt c ∧ wd_armed (rt_command_watchdog rt) = true;
  inv_sent : rt_output_ack_pending rt = true →
    ∃ s, rt_active_session_id rt = Some s ∧ u16 s = rt_last_sent_session rt
}.

Record rt_inv (rt : LinuxRuntime) : Prop := {
  inv_sm : sm_inv (rt_state_machine rt);
  inv_fault : fault_ok (rt_state_machine rt);
  inv_closed : rt_mode rt ≠ RuntimeMode.Active → path_closed rt;
  inv_path : path_inv rt
}.

(** *** Pieces the operations are built from *)

Ltac inv_parts :=
  constructor; [| | |constructor]; unfold rt_mode, path_closed, admitted, rt_record, clear_output_path in *; cbn in *;
  try done.

(** The closed path of the state before, under the premise of the goal. *)
Ltac closed_parts :=
  try congruence;
  intros Hx;
  match goal with
  | H : _ → _ ∧ _ ∧ _ ∧ _ ∧ _ |- _ => destruct (H Hx) as (? & ? & ? & ? & ?)
  end; done.

Lemma inv_record e rt : rt_inv rt → rt_inv (rt_record e rt).
Proof. intros [? ? ? []]. inv_parts. Qed.

Lemma clear_output_path_closed rt : path_closed (clear_output_path rt).
Proof. done. Qed.

Lemma path_inv_clear rt : path_inv rt → path_inv (clear_output_path rt).
Proof. intros []. constructor; cbn; done. Qed.

(** Changing only the state machine, the path being closed unless it says
    [Active]. *)
Lemma inv_set_sm sm rt :
  path_inv rt → sm_inv sm → fault_ok sm →
  (sm_mode sm ≠ RuntimeMode.Active → path_closed rt) →
  rt_inv (rt <| rt_state_machine := sm |>).
Proof. intros [] ? ? ?. inv_parts. Qed.

Lemma inv_cleared sm rt :
  path_inv rt → sm_inv sm → fault_ok sm →
  rt_inv (clear_output_path (rt <| rt_state_machine := sm |>)).
Proof. intros [] ? ?. inv_parts. Qed.

#[export] Hint Resolve inv_record path_inv_clear clear_output_path_closed : rcr.

Lemma fault_ok_handle s e :
  fault_ok s → e ≠ RuntimeEvent.FaultDetected → fault_ok (fst (sm_handle s e)).
Proof.
  unfold fault_ok. sm_cases s e; try done; intros ->; done.
Qed.

Lemma fault_ok_raise s code :
  code ≠ FaultCode.None → fault_ok (fst (sm_handle (sm_set_fault code s) RuntimeEvent.FaultDetected)).
Proof. by destruct s as [[] [] f]; unfold fault_ok, sm_set_fault; cbn; sm_eval. Qed.

Lemma raise_not_active s code :
  sm_mode (fst (sm_handle (sm_set_fault code s) RuntimeEvent.FaultDetected)) ≠ RuntimeMode.Active.
Proof. by destruct s as [[] [] f]; unfold sm_set_fault; cbn; sm_eval. Qed.

Lemma inv_new config contention : rt_inv (rt_new config contention).
Proof. inv_parts. Qed.

(** *** Every call preserves it *)

Lemma inv_start env rt : rt_inv rt → rt_inv (fst (rt_start env rt)).
Proof.
  intros [? ? ? []]. unfold rt_start. destruct (_ || _); [by inv_parts|].
  destruct (ps_start _ _). by inv_parts.
Qed.

Lemma inv_stop_join rt : rt_inv rt → rt_inv (rt_stop_join rt).
Proof. intros [? ? ? []]. by inv_parts. Qed.

Lemma inv_worker_exit e rt : rt_inv rt → rt_inv (rt_worker_exit e rt).
Proof. intros [? ? ? []]. by inv_parts. Qed.

Lemma inv_stop_locked now rt : rt_inv rt → rt_inv (rt_stop_locked now rt).
Proof.
  intros [? ? ? Hp]. unfold rt_stop_locked.
  assert (rt_inv (clear_output_path rt <| rt_state_machine := sm_init |>))
    by (apply inv_set_sm; auto with rcr; done).
  destruct (negb _); auto with rcr.
Qed.

Lemma inv_handle now e rt : rt_inv rt → rt_inv (fst (rt_handle now e rt)).
Proof.
  intros Hinv. pose proof Hinv as [Hsm Hf Hc Hp]. unfold rt_handle, sm_step.
  case_bool_decide as Hne; [done|]. destruct (_ && _); [done|].
  pose proof (sm_handle_inv _ e Hsm) as Hsm'. pose proof (fault_ok_handle _ e Hf Hne) as Hf'.
  pose proof (sm_handle_result (rt_state_machine rt) e) as [Hfrom Hto].
  pose proof (sm_rejected_unchanged (rt_state_machine rt) e) as Hrej.
  destruct (sm_handle _ e) as [sm t]. cbn in *.
  destruct (accepted t); cbn.
  - unfold trace_transition. apply inv_record. rewrite Hfrom, Hto. unfold rt_mode in *.
    repeat case_bool_decide; cbn; try (by apply inv_cleared); apply inv_set_sm; try done;
      intros ?; apply Hc; congruence.
  - rewrite Hrej by done. by apply inv_set_sm.
Qed.

Lemma inv_raise now code rt : rt_inv rt → rt_inv (fst (rt_raise_fault now code rt)).
Proof.
  intros Hinv. pose proof Hinv as [Hsm Hf Hc Hp]. unfold rt_raise_fault, sm_step.
  case_bool_decide as Hne; [done|]. cbn.
  pose proof (fault_ok_raise (rt_state_machine rt) code Hne) as Hf'.
  pose proof (raise_not_active (rt_state_machine rt) code) as Hna.
  assert (Hsm' : sm_inv (fst (sm_handle (sm_set_fault code (rt_state_machine rt))
                                RuntimeEvent.FaultDetected))) by (intros ?; done).
  destruct (sm_handle _ _) as [sm t]. cbn in *. unfold trace_transition.
  assert (Hi : rt_inv (clear_output_path (rt <| rt_state_machine := sm |>))) by by apply inv_cleared.
  destruct (accepted t); repeat apply inv_record; exact Hi.
Qed.

Lemma inv_interlock now ready rt : rt_inv rt → rt_inv (rt_set_interlock_ready now ready rt).
Proof.
  intros [Hsm Hf Hc Hp]. unfold rt_set_interlock_ready, sm_set_interlock_ready.
  set (e := if ready then _ else _).
  assert (Hne : e ≠ RuntimeEvent.FaultDetected) by by destruct ready.
  pose proof (sm_handle_inv _ e Hsm) as Hsm'. pose proof (fault_ok_handle _ e Hf Hne) as Hf'.
  cbn. destruct (sm_handle _ e) as [sm t]. cbn in *. unfold rt_mode in *. cbn.
  match goal with |- rt_inv (if _ then rt_record _ ?r else _) => assert (Hi : rt_inv r) end.
  { repeat case_bool_decide; cbn; try (by apply inv_cleared); apply inv_set_sm; try done;
      intros ?; apply Hc; congruence. }
  match goal with |- rt_inv (if ?b then _ else _) => destruct b end; auto with rcr.
Qed.

Lemma inv_set_session rt s :
  rt_inv rt → rt_mode rt = RuntimeMode.Active → rt_active_session_id rt = None →
  rt_inv (rt <| rt_active_session_id := Some s |>).
Proof.
  intros [? ? ? Hp] Hm Hn. pose proof (inv_session _ Hp Hn) as (? & Hs & ? & ? & Ha).
  destruct Hp. inv_parts; congruence.
Qed.

(** Committing an admitted command. *)
Lemma inv_commit rt c now :
  rt_inv rt → rt_mode rt = RuntimeMode.Active →
  rt_active_session_id rt = Some (cmd_session_id c) →
  cmd_session_id c ≠ 0 → cmd_sequence c ≠ 0 → cmd_mask c ≠ 0 →
  rt_inv (rt <| rt_last_output_sequence := cmd_sequence c |>
             <| rt_mailbox ::= mb_publish c |> <| rt_command_watchdog ::= wd_arm now |>).
Proof.
  intros [? ? ? []] Hm Hs ? ? ?. inv_parts; try congruence.
  rewrite mb_publish_slot. intros ? [= <-]. done.
Qed.

Lemma inv_publish now c rt : rt_inv rt → rt_inv (fst (rt_publish_output_command now c rt)).
Proof.
  intros Hinv. unfold rt_publish_output_command, rt_reject_command.
  destruct now as [now|]; [|done]. destruct (negb (rt_running rt)); [done|].
  destruct (rt_can_accept rt) eqn:Hca; cbn [negb]; [|by apply inv_record].
  unfold rt_can_accept in Hca. rewrite (sm_inv_can_accept _ (inv_sm _ Hinv)) in Hca.
  destruct (_ || _) eqn:Hz; [by apply inv_record|].
  destruct (_ <=? now); [by apply inv_record|]. bools.
  destruct (rt_active_session_id rt) as [s|] eqn:Hs.
  - destruct (negb _) eqn:Hm; [by apply inv_record|]. bools. subst s.
    destruct (_ <=? _); cbn [fst]; apply inv_record; [done|]. by apply inv_commit.
  - pose proof (inv_set_session rt (cmd_session_id c) Hinv Hca Hs) as Hinv'.
    destruct (_ <=? _); cbn [fst]; apply inv_record; [done|]. by apply inv_commit.
Qed.

Lemma inv_maybe_disarm rt :
  rt_inv rt → rt_inv (maybe_disarm_idle_command_watchdog rt).
Proof.
  intros Hinv. unfold maybe_disarm_idle_command_watchdog, mb_has_pending.
  destruct (_ && _) eqn:Hg; [|done]. bools. destruct Hinv as [? ? Hc []].
  apply eq_None_not_Some in H.
  inv_parts; closed_parts.
Qed.

Lemma inv_empty_slot rt mb :
  mb_slot mb = None → rt_inv rt → rt_inv (rt <| rt_mailbox := mb |>).
Proof.
  intros Hn [? ? Hc []].
  inv_parts; closed_parts.
Qed.

Lemma mb_try_consume_emptied mb : mb_slot (fst (mb_try_consume mb)) = None.
Proof. unfold mb_try_consume. by destruct (mb_slot mb) eqn:?. Qed.

Lemma inv_consume now rt : rt_inv rt → rt_inv (fst (rt_try_consume_output_command now rt)).
Proof.
  intros Hinv. unfold rt_try_consume_output_command. destruct now as [now|]; [|done].
  destruct (_ || _); [by apply (inv_empty_slot rt (mb_clear (rt_mailbox rt)))|].
  destruct (rt_output_ack_pending rt); [done|].
  pose proof (mb_try_consume_emptied (rt_mailbox rt)) as Hs.
  destruct (mb_try_consume _) as [mb [c|]]; pose proof (inv_empty_slot rt mb Hs Hinv); [|done].
  destruct (_ <=? _); cbn [fst]; auto using inv_maybe_disarm with rcr.
Qed.

Lemma inv_note_sent s q t rt : rt_inv rt → rt_inv (fst (rt_note_output_command_sent s q t rt)).
Proof.
  intros Hinv. unfold rt_note_output_command_sent.
  destruct (_ || _); [done|]. destruct (_ || _) eqn:Hg; [done|].
  destruct (rt_output_ack_pending rt); [done|]. cbn. apply inv_record. bools.
  destruct (rt_active_session_id rt) as [a|] eqn:Ha; [|done]. bools.
  unfold rt_can_accept in *. rewrite (sm_inv_can_accept _ (inv_sm _ Hinv)) in *. bools.
  destruct Hinv as [? ? ? []]. inv_parts; try congruence; eauto. rewrite <- Ha. done.
Qed.

Lemma inv_observe s q r t rt : rt_inv rt → rt_inv (rt_observe_output_status s q r t rt).
Proof.
  intros Hinv. unfold rt_observe_output_status. cbn.
  destruct (_ && _).
  - apply inv_maybe_disarm. destruct Hinv as [? ? Hc []].
    inv_parts; closed_parts.
  - apply inv_record. destruct Hinv as [? ? ? []]. by inv_parts.
Qed.

Lemma inv_tick_trace tick rt : rt_inv rt → rt_inv (tick_trace tick rt).
Proof. intros H. unfold tick_trace. destruct (_ <=? _); auto with rcr. Qed.

Lemma hold_from_active s :
  sm_mode s = RuntimeMode.Active →
  sm_mode (fst (sm_handle s RuntimeEvent.Hold)) = RuntimeMode.Hold ∧
  sm_fault (fst (sm_handle s RuntimeEvent.Hold)) = sm_fault s.
Proof. destruct s as [[] [] f]; done. Qed.

Lemma timeout_from_active s :
  sm_mode s = RuntimeMode.Active →
  sm_mode (fst (sm_handle s RuntimeEvent.CommandTimeout)) = RuntimeMode.Hold ∧
  sm_fault (fst (sm_handle s RuntimeEvent.CommandTimeout)) = FaultCode.Watchdog.
Proof. destruct s as [[] [] f]; done. Qed.

Lemma can_accept_active rt : rt_can_accept rt = true → rt_mode rt = RuntimeMode.Active.
Proof. unfold rt_can_accept, can_accept_output. intros. by bools. Qed.

Lemma inv_tick_ack t rt : rt_inv rt → rt_inv (tick_ack_timeout t rt).
Proof.
  intros Hinv. unfold tick_ack_timeout, sm_step, trace_transition.
  destruct (_ && _) eqn:Hg; [|done]. bools. cbv zeta.
  destruct (hold_from_active (sm_set_fault FaultCode.AckTimeout (rt_state_machine rt))) as [Hm Hf];
    [by apply can_accept_active|].
  match goal with |- context [sm_handle ?s RuntimeEvent.Hold] =>
    change s with (sm_set_fault FaultCode.AckTimeout (rt_state_machine rt)) end.
  destruct (sm_handle _ _) as [sm tr]. cbn [fst] in *. apply inv_record, inv_cleared.
  - by destruct Hinv as [? ? ? []]; constructor.
  - unfold sm_inv. by rewrite Hm.
  - unfold fault_ok. by rewrite Hm, Hf.
Qed.

Lemma inv_tick_watchdog t rt : rt_inv rt → rt_inv (tick_watchdog t rt).
Proof.
  intros Hinv. unfold tick_watchdog, sm_step, trace_transition, wd_check.
  destruct (rt_can_accept rt) eqn:Hca; [|done].
  assert (Hsame : rt_inv (rt <| rt_command_watchdog := rt_command_watchdog rt |>))
    by (destruct Hinv as [? ? ? []]; by inv_parts).
  destruct (negb (wd_armed _)); cbn; [done|]. destruct (_ <? _); cbn; [done|].
  rewrite (inv_expired _ (inv_path _ Hinv)). cbn.
  destruct (timeout_from_active (rt_state_machine rt)) as [Hm Hf]; [by apply can_accept_active|].
  destruct (sm_handle _ _) as [sm tr]. cbn in *. apply inv_record.
  destruct Hinv as [? ? ? []].
  inv_parts; unfold sm_inv, fault_ok; rewrite Hm; try done. by rewrite Hf.
Qed.

Lemma inv_tick tick rt : rt_inv rt → rt_inv (fst (rt_tick tick rt)).
Proof.
  intros H. unfold rt_tick. destruct (rt_test_throw_on_tick rt).
  - destruct H as [? ? ? []]. by inv_parts.
  - by apply inv_tick_watchdog, inv_tick_ack, inv_tick_trace.
Qed.

Lemma rt_apply_inv rt c : rt_inv rt → rt_inv (rt_apply rt c).
Proof.
  destruct c; cbn [rt_apply]; auto using inv_start, inv_stop_join, inv_stop_locked, inv_handle, inv_raise,
    inv_interlock, inv_publish, inv_consume, inv_note_sent, inv_observe, inv_tick, inv_worker_exit.
Qed.

Lemma rt_exec_inv rt cs : rt_inv rt → rt_inv (rt_exec rt cs).
Proof.
  revert rt. induction cs as [|c cs IH]; intros rt H; [done|]. apply IH. by apply rt_apply_inv.
Qed.

Lemma rt_reachable_inv rt : rt_reachable rt → rt_inv rt.
Proof. intros (config & cont & cs & ->). apply rt_exec_inv, inv_new. Qed.

#[export] Hint Resolve rt_reachable_inv rt_apply_inv : rcr.
