(* ===== verification/RuntimeSafety.v ===== *)
(** * Safety of the runtime

    What the runtime promises its clients (the CAN I/O loop, the supervisor, the
    daemon), proved from the invariant: when a command may leave the runtime, that
    none is invented, repeated or reordered, how long one may stay outstanding, and
    that tracing never influences control. *)

From S2P Require Import Prelude Types StateMachine Mailbox Watchdog Ring Trace CanV1 Scheduler Runtime RuntimeInv.
Local Open Scope Z_scope.

(** A concrete configuration and run, for the witnesses. *)
Definition demo_config : RuntimeConfig :=
  mkRuntimeConfig (mkSchedulerConfig 1000000 0 false (-1)) 100000000 50000000 4 false.
Definition demo_env : StartEnv := mkStartEnv true 0 0 (Ok 1000).
Definition demo_boot : list rt_call :=
  [CStart demo_env; CHandle (Ok 1) RuntimeEvent.Boot; CInterlock (Ok 3) true;
   CHandle (Ok 4) RuntimeEvent.ActivateRequest].
Definition demo_command (q : Z) : OutputCommand := mkOutputCommand 7 q 1000000 1 1.
Definition demo_rt (cs : list rt_call) : LinuxRuntime :=
  rt_exec (rt_new demo_config []) (demo_boot ++ cs).

Lemma demo_reachable cs : rt_reachable (demo_rt cs).
Proof. by exists demo_config, [], (demo_boot ++ cs). Defined.

(** ** Fail closed *)

(** C1.  Whatever the threads do and in whichever order, outside [Active] the output
    path is closed (watchdog disarmed, mailbox empty, no session, sequence history
    and in-flight state cleared); [Active] implies the interlock is ready and carries
    no fault, and [Hold] carries a resumable one; and a stored command always belongs
    to the current session with the highest accepted sequence and a running
    watchdog. *)
Theorem runtime_invariant rt : rt_reachable rt → rt_inv rt.
Proof. apply rt_reachable_inv. Qed.

Lemma runtime_invariant_witness :
  rt_inv (demo_rt [CPublish (Ok 10) (demo_command 1)]).
Proof. apply runtime_invariant, demo_reachable. Defined.

(** ** What may leave the runtime *)

Lemma consume_some rt now rt' c :
  rt_inv rt → rt_try_consume_output_command now rt = (rt', Some c) →
  mb_slot (rt_mailbox rt) = Some c ∧ mb_slot (rt_mailbox rt') = None ∧
  rt_active_session_id rt' = rt_active_session_id rt ∧
  rt_last_output_sequence rt' = rt_last_output_sequence rt.
Proof.
  intros Hinv. unfold rt_try_consume_output_command, mb_try_consume.
  destruct now as [now|]; [|done]. destruct (_ || _); [done|].
  destruct (rt_output_ack_pending rt); [done|].
  destruct (mb_slot (rt_mailbox rt)); [|done].
  destruct (_ <=? _); [done|]. intros [= <- <-]. done.
Qed.

(** C2.  A command leaves the runtime only while the scheduler runs, the mode is
    [Active] with the interlock ready, no command is in flight and the deadline is
    still ahead; it is then a well-formed command of the current session with its
    newest sequence, and it has left the mailbox. *)
Theorem consume_safe rt now rt' c :
  rt_reachable rt → rt_try_consume_output_command now rt = (rt', Some c) →
  rt_running rt = true ∧ rt_mode rt = RuntimeMode.Active ∧
  sm_interlock_ready (rt_state_machine rt) = true ∧
  rt_fault rt = FaultCode.None ∧ rt_output_ack_pending rt = false ∧
  admitted rt c ∧ (∃ t, now = Ok t ∧ t < cmd_deadline_ns c) ∧
  mb_slot (rt_mailbox rt') = None.
Proof.
  intros Hr Hc. pose proof (rt_reachable_inv _ Hr) as Hinv.
  destruct (consume_some _ _ _ _ Hinv Hc) as (Hs & Hs' & _).
  revert Hc. unfold rt_try_consume_output_command, mb_try_consume.
  destruct now as [t|]; [|done]. destruct (_ || _) eqn:Hg; [done|].
  destruct (rt_output_ack_pending rt); [done|]. rewrite Hs.
  destruct (_ <=? t) eqn:Ht; [done|]. intros _. bools.
  assert (Hm : rt_mode rt = RuntimeMode.Active) by by apply can_accept_active.
  pose proof (inv_fault _ Hinv) as Hf. unfold fault_ok in Hf. unfold rt_mode in Hm. rewrite Hm in Hf.
  destruct (inv_slot _ (inv_path _ Hinv) c Hs) as [Ha _].
  pose proof (inv_sm _ Hinv Hm).
  split_and!; eauto.
Qed.

Lemma consume_safe_witness :
  let rt := demo_rt [CPublish (Ok 10) (demo_command 1)] in
  rt_mode rt = RuntimeMode.Active ∧ admitted rt (demo_command 1).
Proof.
  intros rt. eassert (Hc : rt_try_consume_output_command (Ok 20) rt = (_, Some (demo_command 1)))
    by (vm_compute; reflexivity).
  pose proof (consume_safe rt (Ok 20) _ _ (demo_reachable _) Hc) as (_ & Hm & _ & _ & _ & Ha & _).
  split; assumption.
Defined.

(** ** No command is invented, repeated or reordered

    The ghost log of a run: the commands the runtime accepted and those it handed
    to the I/O loop. *)

Record rt_log := mkLog { log_published : list OutputCommand; log_consumed : list OutputCommand }.

Definition log_step (rt : LinuxRuntime) (c : rt_call) (l : rt_log) : rt_log :=
  match c with
  | CPublish now cmd =>
      if res_ok (snd (rt_publish_output_command now cmd rt))
      then mkLog (log_published l ++ [cmd]) (log_consumed l) else l
  | CConsume now =>
      match snd (rt_try_consume_output_command now rt) with
      | Some cmd => mkLog (log_published l) (log_consumed l ++ [cmd])
      | None => l
      end
  | _ => l
  end.

Definition rt_exec_log (cs : list rt_call) (s : LinuxRuntime * rt_log) : LinuxRuntime * rt_log :=
  foldl (λ s c, (rt_apply (fst s) c, log_step (fst s) c (snd s))) s cs.

(** The log against the mailbox: what was delivered is a subsequence of what was
    accepted before the command now waiting. *)
Definition log_ok (s : LinuxRuntime * rt_log) : Prop :=
  ∃ past, log_published (snd s) = past ++ option_list (mb_slot (rt_mailbox (fst s))) ∧
          log_consumed (snd s) `sublist_of` past.

(** Calls other than publish and consume leave the waiting command or drop it. *)
Definition slot_kept (rt rt' : LinuxRuntime) : Prop :=
  mb_slot (rt_mailbox rt') = None ∨ mb_slot (rt_mailbox rt') = mb_slot (rt_mailbox rt).

Definition is_transfer (c : rt_call) : bool :=
  match c with CPublish _ _ | CConsume _ => true | _ => false end.

(** What a call may do to the session history: nothing but closing it. *)
Definition history_kept (rt rt' : LinuxRuntime) : Prop :=
  rt_active_session_id rt' = None ∨
  (rt_active_session_id rt' = rt_active_session_id rt ∧
   rt_last_output_sequence rt' = rt_last_output_sequence rt).

Ltac kept_leaf :=
  unfold rt_record, maybe_disarm_idle_command_watchdog, clear_output_path; cbn;
  repeat (case_match; cbn); auto.

Lemma other_calls_keep rt c :
  is_transfer c = false → slot_kept rt (rt_apply rt c) ∧ history_kept rt (rt_apply rt c).
Proof.
  unfold slot_kept, history_kept. destruct c; try done; intros _; cbn [rt_apply].
  - unfold rt_start. destruct (_ || _); [by auto|]. destruct (ps_start _ _). by auto.
  - by auto.
  - unfold rt_stop_locked. destruct (negb _); by auto.
  - unfold rt_handle, sm_step, trace_transition. destruct (sm_handle _ _). kept_leaf.
  - unfold rt_raise_fault, sm_step, trace_transition. destruct (sm_handle _ _). kept_leaf.
  - unfold rt_set_interlock_ready. kept_leaf.
  - unfold rt_note_output_command_sent. destruct (_ || _); [by auto|]. destruct (_ || _); [by auto|].
    destruct (rt_output_ack_pending rt); by auto.
  - unfold rt_observe_output_status. kept_leaf.
  - unfold rt_tick, tick_watchdog, tick_ack_timeout, tick_trace, sm_step, trace_transition.
    repeat (case_match; cbn [fst snd]; auto); kept_leaf.
  - by auto.
Qed.

Lemma publish_ok rt now c rt' :
  rt_publish_output_command now c rt = (rt', Ok ()) →
  mb_slot (rt_mailbox rt') = Some c ∧ rt_active_session_id rt' = Some (cmd_session_id c) ∧
  (rt_active_session_id rt = None ∨ rt_active_session_id rt = Some (cmd_session_id c)) ∧
  rt_last_output_sequence rt < cmd_sequence c ∧ rt_last_output_sequence rt' = cmd_sequence c.
Proof.
  unfold rt_publish_output_command, rt_reject_command. destruct now; [|done].
  destruct (negb _); [done|]. destruct (negb _); [done|]. destruct (_ || _); [done|].
  destruct (_ <=? value); [done|].
  destruct (rt_active_session_id rt) as [s|] eqn:Hs.
  - destruct (negb _) eqn:Hm; [done|]. destruct (_ <=? _) eqn:Hq; [done|]. intros [= <-]. bools.
    subst. cbn. rewrite ?Hs. auto.
  - destruct (_ <=? _) eqn:Hq; [done|]. intros [= <-]. bools. cbn in *. auto.
Qed.

Lemma publish_err rt now c rt' e :
  rt_publish_output_command now c rt = (rt', Err e) →
  mb_slot (rt_mailbox rt') = mb_slot (rt_mailbox rt) ∧
  rt_last_output_sequence rt' = rt_last_output_sequence rt ∧
  (rt_active_session_id rt = None ∨ rt_active_session_id rt' = rt_active_session_id rt).
Proof.
  unfold rt_publish_output_command, rt_reject_command. intros H.
  repeat (case_match; cbn in *; try done); simplify_eq; cbn; auto.
Qed.

Lemma consume_keeps rt now :
  let rt' := fst (rt_try_consume_output_command now rt) in
  slot_kept rt rt' ∧ history_kept rt rt'.
Proof.
  unfold slot_kept, history_kept, rt_try_consume_output_command, mb_try_consume.
  repeat (case_match; cbn [fst snd]; auto); simplify_eq; kept_leaf.
Qed.

Lemma log_ok_drop rt rt' l :
  slot_kept rt rt' → log_ok (rt, l) → log_ok (rt', l).
Proof.
  intros [Hn|He] (past & Hp & Hc); unfold log_ok; cbn in *.
  - exists (log_published l). rewrite Hn, app_nil_r. split; [done|].
    rewrite Hp. by apply sublist_inserts_r.
  - exists past. by rewrite He.
Qed.

Lemma log_ok_step rt c l :
  rt_inv rt → log_ok (rt, l) → log_ok (rt_apply rt c, log_step rt c l).
Proof.
  intros Hinv Hl. destruct (is_transfer c) eqn:Ht.
  2:{ destruct (other_calls_keep rt c Ht) as [Hk _].
      replace (log_step rt c l) with l by by destruct c. by eapply log_ok_drop. }
  destruct c; try done; cbn [rt_apply log_step]; clear Ht.
  - destruct (rt_publish_output_command now c rt) as [rt' [[]|e]] eqn:Hp; cbn.
    + destruct (publish_ok _ _ _ _ Hp) as (Hs & _). destruct Hl as (past & Hq & Hc).
      exists (log_published l). cbn in *. rewrite Hs. split; [done|].
      rewrite Hq. by apply sublist_inserts_r.
    + destruct (publish_err _ _ _ _ _ Hp) as (Hs & _). eapply log_ok_drop; [by right|done].
  - destruct (rt_try_consume_output_command now rt) as [rt' [c|]] eqn:Hp; cbn.
    + destruct (consume_some _ _ _ _ Hinv Hp) as (Hs & Hs' & _). destruct Hl as (past & Hq & Hc).
      exists (log_published l). cbn in *. rewrite Hs', app_nil_r. split; [done|].
      rewrite Hq, Hs. cbn. by apply sublist_app.
    + pose proof (consume_keeps rt now) as [Hk _]. rewrite Hp in Hk. by eapply log_ok_drop.
Qed.

Lemma log_ok_exec cs s : rt_inv (fst s) → log_ok s → log_ok (rt_exec_log cs s).
Proof.
  revert s. induction cs as [|c cs IH]; intros [rt l] Hi Hl; [done|].
  apply IH; cbn; [by apply rt_apply_inv|by apply log_ok_step].
Qed.

(** C4.  No command is invented, duplicated or reordered: over any interleaving of
    calls from a new runtime, the commands handed to the I/O loop are a subsequence,
    in order, of the commands that were accepted; and a command that still waits was
    the last one accepted. *)
Theorem delivered_are_accepted config contention cs :
  let '(rt, l) := rt_exec_log cs (rt_new config contention, mkLog [] []) in
  rt = rt_exec (rt_new config contention) cs ∧
  log_consumed l `sublist_of` log_published l ∧
  (∀ c, mb_slot (rt_mailbox rt) = Some c →
    last (log_published l) = Some c ∧
    log_consumed l `sublist_of` removelast (log_published l)).
Proof.
  pose proof (log_ok_exec cs (rt_new config contention, mkLog [] []) (inv_new _ _)) as Hl.
  assert (Hfst : ∀ s, fst (rt_exec_log cs s) = rt_exec (fst s) cs).
  { clear. induction cs as [|c cs IH]; intros s; [done|]. apply (IH (_, _)). }
  specialize (Hfst (rt_new config contention, mkLog [] [])).
  destruct (rt_exec_log _ _) as [rt l]. cbn in Hfst.
  destruct Hl as (past & Hp & Hc); [by exists []|]. cbn in *. split_and!; [done| |].
  - rewrite Hp. by apply sublist_inserts_r.
  - intros c Hs. rewrite Hp, Hs. cbn. rewrite last_snoc, removelast_last. done.
Qed.

(** *** Strictly increasing sequences *)

(** [q] was delivered for session [s]: everything waiting is newer. *)
Definition past_mark (s q : Z) (rt : LinuxRuntime) : Prop :=
  rt_active_session_id rt = Some s ∧ q ≤ rt_last_output_sequence rt ∧
  (∀ c, mb_slot (rt_mailbox rt) = Some c → q < cmd_sequence c).

Lemma past_mark_step s q rt c :
  past_mark s q rt → rt_active_session_id (rt_apply rt c) ≠ None →
  past_mark s q (rt_apply rt c).
Proof.
  intros (Hs & Hq & Hc) Hopen.
  assert (Hdrop : ∀ rt', slot_kept rt rt' ∧ history_kept rt rt' → rt_active_session_id rt' ≠ None →
    past_mark s q rt').
  { intros rt' [Hk [?|[Ha Hl]]] ?; [done|]. split_and!; [congruence|lia|].
    intros c' Hs'. destruct Hk as [|Hk]; [congruence|]. apply Hc. congruence. }
  destruct (is_transfer c) eqn:Ht; [|by apply Hdrop; [apply other_calls_keep|]].
  destruct c; try done; cbn [rt_apply] in *; clear Ht.
  - destruct (rt_publish_output_command now c rt) as [rt' [[]|e]] eqn:Hp; cbn in *.
    + destruct (publish_ok _ _ _ _ Hp) as (Hs' & Ha & Ho & Hlt & Hl).
      split_and!; [destruct Ho; congruence|lia|]. intros c'. rewrite Hs'. intros [= <-]. lia.
    + destruct (publish_err _ _ _ _ _ Hp) as (Hs' & Hl & Ho).
      split_and!; [destruct Ho; congruence|lia|]. intros c'. rewrite Hs'. apply Hc.
  - apply Hdrop; [apply consume_keeps|done].
Qed.

(** The session stays bound in every state along the calls. *)
Fixpoint session_kept (rt : LinuxRuntime) (cs : list rt_call) : Prop :=
  match cs with
  | [] => True
  | c :: cs => rt_active_session_id (rt_apply rt c) ≠ None ∧ session_kept (rt_apply rt c) cs
  end.

Lemma past_mark_exec s q rt cs :
  past_mark s q rt → session_kept rt cs → past_mark s q (rt_exec rt cs).
Proof.
  revert rt. induction cs as [|c cs IH]; intros rt Hm Hk; [done|].
  destruct Hk as [Ho Hk]. apply IH; [by apply past_mark_step|done].
Qed.

(** C5.  Within one activation delivered sequences strictly increase: two commands
    handed out with any calls between them, none of which closed the session, belong
    to the same session and the second has the larger sequence.  So a command is
    never replayed while the session it was accepted in lives. *)
Theorem delivered_sequences_increase rt now1 rt1 a cs now2 rt2 b :
  rt_reachable rt →
  rt_try_consume_output_command now1 rt = (rt1, Some a) →
  session_kept rt1 cs →
  rt_try_consume_output_command now2 (rt_exec rt1 cs) = (rt2, Some b) →
  cmd_session_id a = cmd_session_id b ∧ cmd_sequence a < cmd_sequence b.
Proof.
  intros Hr Ha Hk Hb. pose proof (rt_reachable_inv _ Hr) as Hinv.
  destruct (consume_some _ _ _ _ Hinv Ha) as (Hs & Hs1 & Hses & Hlast).
  destruct (inv_slot _ (inv_path _ Hinv) a Hs) as [(Hsa & Hqa & _) _].
  assert (Hm : past_mark (cmd_session_id a) (cmd_sequence a) rt1).
  { split_and!; [congruence|lia|congruence]. }
  assert (Hinv2 : rt_inv (rt_exec rt1 cs)).
  { apply rt_exec_inv. replace rt1 with (rt_apply rt (CConsume now1)) by (cbn; by rewrite Ha).
    by apply rt_apply_inv. }
  destruct (past_mark_exec _ _ _ _ Hm Hk) as (Hs2 & _ & Hc2).
  destruct (consume_some _ _ _ _ Hinv2 Hb) as (Hsb & _).
  destruct (inv_slot _ (inv_path _ Hinv2) b Hsb) as [(Hses2 & _) _].
  split; [congruence|by apply Hc2].
Qed.

Lemma delivered_sequences_increase_witness :
  cmd_sequence (demo_command 1) < cmd_sequence (demo_command 5).
Proof.
  set (rt := demo_rt [CPublish (Ok 10) (demo_command 1)]).
  set (rt1 := fst (rt_try_consume_output_command (Ok 20) rt)).
  set (cs := [CPublish (Ok 30) (demo_command 2); CPublish (Ok 40) (demo_command 5)]).
  apply (delivered_sequences_increase rt (Ok 20) rt1 (demo_command 1) cs (Ok 50)
           (fst (rt_try_consume_output_command (Ok 50) (rt_exec rt1 cs))) (demo_command 5)).
  - apply demo_reachable.
  - vm_compute; reflexivity.
  - cbn [session_kept cs]. split_and!; [vm_compute; discriminate| |exact I].
    vm_compute; discriminate.
  - vm_compute; reflexivity.
Defined.

(** ** Bounded staleness *)

Definition ack_overdue (t : Z) (rt : LinuxRuntime) : bool :=
  rt_output_ack_pending rt && (rt_last_sent_time_ns rt <=? t) &&
  (rc_output_ack_timeout (rt_config rt) <=? t - rt_last_sent_time_ns rt).

Definition command_overdue (t : Z) (rt : LinuxRuntime) : bool :=
  let w := rt_command_watchdog rt in
  wd_armed w && (rc_command_timeout (rt_config rt) <=? Z.max (t - wd_last_kick_ns w) 0).

(** The part of the state that a tick reads and a quiet tick keeps. *)
Definition output_path (rt : LinuxRuntime) :=
  (rt_state_machine rt, rt_mailbox rt, rt_command_watchdog rt, rt_active_session_id rt,
   rt_last_output_sequence rt, rt_output_ack_pending rt, rt_last_sent_time_ns rt, rt_config rt).

Definition tick_verdict (t : Z) (rt : LinuxRuntime) : RuntimeMode * FaultCode :=
  if ack_overdue t rt then (RuntimeMode.Hold, FaultCode.AckTimeout)
  else if command_overdue t rt then (RuntimeMode.Hold, FaultCode.Watchdog)
  else (RuntimeMode.Active, FaultCode.None).

Lemma output_path_record e rt : output_path (rt_record e rt) = output_path rt.
Proof. done. Qed.

Lemma output_path_tick_trace tick rt : output_path (tick_trace tick rt) = output_path rt.
Proof. unfold tick_trace. by destruct (_ <=? _). Qed.

Lemma tick_verdict_path t rt rt' :
  output_path rt' = output_path rt → tick_verdict t rt' = tick_verdict t rt.
Proof.
  unfold output_path, tick_verdict, ack_overdue, command_overdue. intros [= ? ? Hw ? ? Ha Ht Hcfg].
  by rewrite Hw, Ha, Ht, Hcfg.
Qed.

Lemma tick_watchdog_spec t rt :
  rt_inv rt →
  if rt_can_accept rt && command_overdue t rt
  then rt_mode (tick_watchdog t rt) = RuntimeMode.Hold ∧
       rt_fault (tick_watchdog t rt) = FaultCode.Watchdog
  else output_path (tick_watchdog t rt) = output_path rt.
Proof.
  intros Hinv. pose proof (inv_timeout _ (inv_path _ Hinv)) as Ht.
  pose proof (inv_expired _ (inv_path _ Hinv)) as He.
  unfold tick_watchdog, command_overdue, wd_check, sm_step, trace_transition. rewrite Ht.
  destruct (rt_can_accept rt) eqn:Hca; [|done]. cbn.
  destruct (timeout_from_active (rt_state_machine rt)) as [Hm Hf]; [by apply can_accept_active|].
  destruct (wd_armed _) eqn:Harm; [|done]. cbn.
  rewrite Z.leb_antisym. destruct (_ <? _); [done|]. cbn. rewrite He. cbn.
  destruct (sm_handle _ _). done.
Qed.

Lemma tick_ack_spec t rt :
  if rt_can_accept rt && ack_overdue t rt
  then rt_mode (tick_ack_timeout t rt) = RuntimeMode.Hold ∧
       rt_fault (tick_ack_timeout t rt) = FaultCode.AckTimeout
  else tick_ack_timeout t rt = rt.
Proof.
  unfold tick_ack_timeout, ack_overdue, sm_step, trace_transition. rewrite !andb_assoc.
  destruct (_ && _) eqn:Hg; [|done]. bools. cbv zeta.
  destruct (hold_from_active (sm_set_fault FaultCode.AckTimeout (rt_state_machine rt))) as [Hm Hf];
    [by apply can_accept_active|].
  match goal with |- context [sm_handle ?s RuntimeEvent.Hold] =>
    change s with (sm_set_fault FaultCode.AckTimeout (rt_state_machine rt)) end.
  destruct (sm_handle _ _). done.
Qed.

Lemma not_active_no_accept rt : rt_mode rt ≠ RuntimeMode.Active → rt_can_accept rt = false.
Proof. intros H. destruct (rt_can_accept rt) eqn:E; [|done]. by apply can_accept_active in E. Qed.

Lemma inv_active_accepts rt : rt_inv rt → rt_mode rt = RuntimeMode.Active → rt_can_accept rt = true.
Proof.
  intros Hinv Hm. unfold rt_can_accept. rewrite (sm_inv_can_accept _ (inv_sm _ Hinv)).
  by apply bool_decide_eq_true.
Qed.

Lemma inv_active_no_fault rt : rt_inv rt → rt_mode rt = RuntimeMode.Active → rt_fault rt = FaultCode.None.
Proof. intros Hinv Hm. pose proof (inv_fault _ Hinv) as Hf. unfold fault_ok, rt_mode in *. by rewrite Hm in Hf. Qed.

Lemma output_path_mode rt rt' :
  output_path rt' = output_path rt → rt_mode rt' = rt_mode rt ∧ rt_fault rt' = rt_fault rt.
Proof. unfold output_path, rt_mode, rt_fault. by intros [= -> _]. Qed.

Lemma tick_checks_spec t rt :
  rt_inv rt → rt_mode rt = RuntimeMode.Active →
  let rt' := tick_watchdog t (tick_ack_timeout t rt) in
  (rt_mode rt', rt_fault rt') = tick_verdict t rt ∧
  (rt_mode rt' = RuntimeMode.Active → output_path rt' = output_path rt).
Proof.
  intros Hinv Hm. pose proof (tick_ack_spec t rt) as Ha.
  pose proof (tick_watchdog_spec t _ (inv_tick_ack t _ Hinv)) as Hw.
  rewrite (inv_active_accepts _ Hinv Hm) in Ha. unfold tick_verdict. cbn in *.
  destruct (ack_overdue t rt).
  - destruct Ha as [Ha1 Ha2]. rewrite not_active_no_accept in Hw by by rewrite Ha1.
    apply output_path_mode in Hw as [Hw1 Hw2]. by rewrite Hw1, Hw2, Ha1, Ha2.
  - rewrite Ha in *. rewrite (inv_active_accepts _ Hinv Hm) in Hw. cbn in Hw.
    destruct (command_overdue t rt); [by destruct Hw as [-> ->]|].
    split; [|done]. apply output_path_mode in Hw as [-> ->]. by rewrite Hm, inv_active_no_fault.
Qed.

(** C6.  Bounded staleness: a tick in [Active] whose callback runs decides exactly by
    the two timeouts.  An unacknowledged command as old as the ACK timeout puts the
    runtime in [Hold] with [AckTimeout]; otherwise a command watchdog as old as the
    command timeout puts it in [Hold] with [Watchdog]; in both cases the output path
    is closed; otherwise the runtime stays [Active] and nothing of the path
    changes. *)
Theorem tick_enforces_timeouts rt tick rt' :
  rt_reachable rt → rt_mode rt = RuntimeMode.Active → rt_tick tick rt = (rt', true) →
  (rt_mode rt', rt_fault rt') = tick_verdict (tk_actual_ns tick) rt ∧
  if rt_mode rt' ==? RuntimeMode.Active then output_path rt' = output_path rt
  else path_closed rt'.
Proof.
  intros Hr Hm Ht. pose proof (rt_reachable_inv _ Hr) as Hinv.
  pose proof (inv_tick tick _ Hinv) as Hinv'. rewrite Ht in Hinv'. cbn in Hinv'.
  revert Ht. unfold rt_tick. destruct (rt_test_throw_on_tick rt); [done|]. intros [= Ht].
  pose proof (output_path_tick_trace tick rt) as Hpath.
  destruct (output_path_mode _ _ Hpath) as [Hm0 _]. rewrite Hm in Hm0.
  destruct (tick_checks_spec (tk_actual_ns tick) _ (inv_tick_trace tick _ Hinv) Hm0) as [Hv Hk].
  rewrite Ht, (tick_verdict_path _ _ _ Hpath) in *. split; [done|].
  case_bool_decide as Ha; [|by apply (inv_closed _ Hinv')]. rewrite <- Hpath. auto.
Qed.

Lemma tick_enforces_timeouts_witness :
  let rt := demo_rt [CPublish (Ok 10) (demo_command 1); CConsume (Ok 20); CSent 7 1 30] in
  let rt' := fst (rt_tick (mkSchedulerTick 0 50000030 50000030 0) rt) in
  (rt_mode rt', rt_fault rt') = (RuntimeMode.Hold, FaultCode.AckTimeout) ∧ path_closed rt'.
Proof.
  intros rt rt'.
  pose proof (tick_enforces_timeouts rt (mkSchedulerTick 0 50000030 50000030 0) rt'
    (demo_reachable _) ltac:(vm_compute; reflexivity) ltac:(vm_compute; reflexivity)) as [Hv Hc].
  split; [exact Hv | exact Hc].
Defined.

(** ** Tracing never influences control

    Two runtimes are equivalent when they differ at most in their trace buffers
    (contents, counters and which try-locks will fail). *)

Definition rt_strip (rt : LinuxRuntime) : LinuxRuntime := rt <| rt_trace := tb_new 0 [] |>.

#[export] Instance rt_equiv : Equiv LinuxRuntime := λ a b, rt_strip a = rt_strip b.

#[export] Instance rt_equiv_equivalence : Equivalence (≡@{LinuxRuntime}).
Proof.
  unfold equiv, rt_equiv. split; [done|by intros ? ?|intros ? ? ? ->; done].
Qed.

#[export] Instance rt_record_proper e : Proper ((≡) ==> (≡)) (rt_record e).
Proof. intros ? ?. done. Qed.

Lemma rt_record_equiv e rt : rt_record e rt ≡ rt.
Proof. done. Qed.

(** An operation [f] with a result sees its runtime only up to the trace. *)
Definition trace_blind {A} (f : LinuxRuntime → LinuxRuntime * A) : Prop :=
  ∀ rt, rt_strip (fst (f rt)) = rt_strip (fst (f (rt_strip rt))) ∧ snd (f rt) = snd (f (rt_strip rt)).

Definition no_result (f : LinuxRuntime → LinuxRuntime) (rt : LinuxRuntime) : LinuxRuntime * () :=
  (f rt, ()).

Lemma trace_blind_equiv {A} (f : LinuxRuntime → LinuxRuntime * A) rt1 rt2 :
  trace_blind f → rt1 ≡ rt2 → fst (f rt1) ≡ fst (f rt2) ∧ snd (f rt1) = snd (f rt2).
Proof.
  intros Hf He. destruct (Hf rt1) as [H1 H2], (Hf rt2) as [H3 H4].
  unfold equiv, rt_equiv in *. rewrite H1, H2, H3, H4, He. done.
Qed.

(** Split both sides on their common guards. *)
Ltac rt_fields :=
  cbn [update fst snd rt_config rt_state_machine rt_mailbox rt_command_watchdog rt_trace
    rt_scheduler rt_active_session_id rt_last_output_sequence rt_output_ack_pending
    rt_last_sent_session rt_last_sent_sequence rt_last_sent_time_ns rt_last_ack_session
    rt_last_ack_sequence rt_last_ack_result rt_last_ack_time_ns rt_ack_timeout_count
    rt_unexpected_ack_count rt_test_throw_on_tick].

Ltac blind :=
  intros [? ? ? ? tr ? ? ? ? ? ? ? ? ? ? ? ? ? ?];
  match goal with |- context [rt_strip (mkLinuxRuntime ?a ?b ?c ?d tr ?e ?f ?g ?h ?i ?j ?k ?l ?m ?n ?o ?p ?q ?r)] =>
    change (rt_strip (mkLinuxRuntime a b c d tr e f g h i j k l m n o p q r)) with
      (mkLinuxRuntime a b c d (tb_new 0 []) e f g h i j k l m n o p q r) end;
  unfold no_result, trace_transition, sm_step, rt_reject_command,
    maybe_disarm_idle_command_watchdog, clear_output_path, rt_record, rt_mode, rt_can_accept,
    rt_running; rt_fields;
  repeat (match goal with
    | |- context [match ?x with _ => _ end] =>
        lazymatch x with context [match _ with _ => _ end] => fail | _ => destruct x end
    end; rt_fields); split; reflexivity.

Lemma blind_start env : trace_blind (rt_start env).
Proof. unfold rt_start. blind. Qed.
Lemma blind_handle now e : trace_blind (rt_handle now e).
Proof. unfold rt_handle. blind. Qed.
Lemma blind_raise now code : trace_blind (rt_raise_fault now code).
Proof. unfold rt_raise_fault. blind. Qed.
Lemma blind_interlock now ready : trace_blind (no_result (rt_set_interlock_ready now ready)).
Proof. unfold rt_set_interlock_ready. blind. Qed.
Lemma blind_publish now c : trace_blind (rt_publish_output_command now c).
Proof. unfold rt_publish_output_command. blind. Qed.
Lemma blind_consume now : trace_blind (rt_try_consume_output_command now).
Proof. unfold rt_try_consume_output_command. blind. Qed.
Lemma blind_sent s q t : trace_blind (rt_note_output_command_sent s q t).
Proof. unfold rt_note_output_command_sent. blind. Qed.
Lemma blind_observe s q r t : trace_blind (no_result (rt_observe_output_status s q r t)).
Proof. unfold rt_observe_output_status. blind. Qed.
Lemma blind_stop_join : trace_blind (no_result rt_stop_join).
Proof. unfold rt_stop_join. blind. Qed.
Lemma blind_stop_locked now : trace_blind (no_result (rt_stop_locked now)).
Proof. unfold rt_stop_locked. blind. Qed.
Lemma blind_worker_exit e : trace_blind (no_result (rt_worker_exit e)).
Proof. unfold rt_worker_exit. blind. Qed.
Lemma blind_tick_trace tick : trace_blind (no_result (tick_trace tick)).
Proof. unfold tick_trace. blind. Qed.
Lemma blind_tick_ack t : trace_blind (no_result (tick_ack_timeout t)).
Proof. unfold tick_ack_timeout. blind. Qed.
Lemma blind_tick_watchdog t : trace_blind (no_result (tick_watchdog t)).
Proof. unfold tick_watchdog. blind. Qed.

(** What a caller sees of a call. *)
Inductive rt_reply :=
  | RNone
  | RStatus (r : Result ())
  | RTransition (t : TransitionResult)
  | RCommand (c : option OutputCommand)
  | RCompleted (ok : bool).

Definition rt_answer (rt : LinuxRuntime) (c : rt_call) : LinuxRuntime * rt_reply :=
  match c with
  | CStart env => let '(rt, r) := rt_start env rt in (rt, RStatus r)
  | CHandle now e => let '(rt, t) := rt_handle now e rt in (rt, RTransition t)
  | CRaise now code => let '(rt, t) := rt_raise_fault now code rt in (rt, RTransition t)
  | CPublish now c => let '(rt, r) := rt_publish_output_command now c rt in (rt, RStatus r)
  | CConsume now => let '(rt, o) := rt_try_consume_output_command now rt in (rt, RCommand o)
  | CSent s q t => let '(rt, r) := rt_note_output_command_sent s q t rt in (rt, RStatus r)
  | CTick tick => let '(rt, ok) := rt_tick tick rt in (rt, RCompleted ok)
  | _ => (rt_apply rt c, RNone)
  end.

Fixpoint rt_answers (rt : LinuxRuntime) (cs : list rt_call) : list rt_reply :=
  match cs with
  | [] => []
  | c :: cs => snd (rt_answer rt c) :: rt_answers (rt_apply rt c) cs
  end.

Lemma rt_answer_state rt c : fst (rt_answer rt c) = rt_apply rt c.
Proof. destruct c; cbn [rt_answer rt_apply]; try done; by case_match. Qed.

Lemma rt_tick_equiv tick rt1 rt2 :
  rt1 ≡ rt2 → fst (rt_tick tick rt1) ≡ fst (rt_tick tick rt2) ∧
              snd (rt_tick tick rt1) = snd (rt_tick tick rt2).
Proof.
  intros He. unfold rt_tick.
  assert (Ht : rt_test_throw_on_tick rt1 = rt_test_throw_on_tick rt2)
    by exact (f_equal rt_test_throw_on_tick He).
  rewrite Ht. destruct (rt_test_throw_on_tick rt2); cbn.
  - split; [|done]. exact (f_equal (λ r, r <| rt_test_throw_on_tick := false |>) He).
  - split; [|done].
    pose proof (proj1 (trace_blind_equiv _ _ _ (blind_tick_trace tick) He)) as H1.
    pose proof (proj1 (trace_blind_equiv _ _ _ (blind_tick_ack (tk_actual_ns tick)) H1)) as H2.
    exact (proj1 (trace_blind_equiv _ _ _ (blind_tick_watchdog (tk_actual_ns tick)) H2)).
Qed.

Lemma rt_answer_equiv rt1 rt2 c :
  rt1 ≡ rt2 → fst (rt_answer rt1 c) ≡ fst (rt_answer rt2 c) ∧
              snd (rt_answer rt1 c) = snd (rt_answer rt2 c).
Proof.
  intros He.
  assert (Hlift : ∀ A (f : LinuxRuntime → LinuxRuntime * A) (g : A → rt_reply),
    fst (f rt1) ≡ fst (f rt2) ∧ snd (f rt1) = snd (f rt2) →
    let h rt := let '(rt, a) := f rt in (rt, g a) in
    fst (h rt1) ≡ fst (h rt2) ∧ snd (h rt1) = snd (h rt2)).
  { intros A f g [Hf Hs]. cbn. destruct (f rt1), (f rt2); cbn in *. by rewrite Hs. }
  assert (Hunit : ∀ f : LinuxRuntime → LinuxRuntime,
    trace_blind (no_result f) → f rt1 ≡ f rt2 ∧ RNone = RNone).
  { intros f Hf. split; [|done]. exact (proj1 (trace_blind_equiv _ _ _ Hf He)). }
  destruct c; cbn [rt_answer].
  - apply Hlift, trace_blind_equiv, He. apply blind_start.
  - apply Hunit, blind_stop_join.
  - apply Hunit, blind_stop_locked.
  - apply Hlift, trace_blind_equiv, He. apply blind_handle.
  - apply Hlift, trace_blind_equiv, He. apply blind_raise.
  - apply (Hunit (rt_set_interlock_ready now ready)), blind_interlock.
  - apply Hlift, trace_blind_equiv, He. apply blind_publish.
  - apply Hlift, trace_blind_equiv, He. apply blind_consume.
  - apply Hlift, trace_blind_equiv, He. apply blind_sent.
  - apply (Hunit (rt_observe_output_status session sequence result time)), blind_observe.
  - apply Hlift, rt_tick_equiv, He.
  - apply Hunit, blind_worker_exit.
Qed.

#[export] Instance rt_apply_proper : Proper ((≡) ==> (=) ==> (≡)) rt_apply.
Proof. intros rt1 rt2 He c ? <-. rewrite <- !rt_answer_state. by apply rt_answer_equiv. Qed.

(** Tracing never influences control: two runtimes that differ only in their
    trace buffers (contents, capacity, which of the try-locks a reader makes fail)
    answer every sequence of calls identically and stay equal but for the trace. *)
Theorem trace_never_influences_control rt1 rt2 cs :
  rt1 ≡ rt2 → rt_exec rt1 cs ≡ rt_exec rt2 cs ∧ rt_answers rt1 cs = rt_answers rt2 cs.
Proof.
  revert rt1 rt2. induction cs as [|c cs IH]; intros rt1 rt2 He; [done|].
  destruct (rt_answer_equiv _ _ c He) as [Hs Ha].
  destruct (IH (rt_apply rt1 c) (rt_apply rt2 c)) as [Hs' Ha']; [by rewrite He|].
  split; [done|]. cbn [rt_answers]. by rewrite Ha, Ha'.
Qed.

Lemma trace_never_influences_control_witness :
  rt_answers (rt_new demo_config []) demo_boot =
  rt_answers (rt_new demo_config [true; false; true; true]) demo_boot.
Proof. apply trace_never_influences_control. vm_compute. reflexivity. Defined.

(** ** Leaving a fault *)

(** Recovery is never blocked by a stale classification: in every reachable
    [Hold] whose interlock is ready, [Resume] is accepted, returns to [Idle] with no
    fault and a closed output path, whatever stopped the runtime before; activation
    stays a separate request. *)
Theorem resume_from_hold rt now :
  rt_reachable rt → rt_mode rt = RuntimeMode.Hold →
  sm_interlock_ready (rt_state_machine rt) = true →
  let '(rt', t) := rt_handle now RuntimeEvent.Resume rt in
  accepted t = true ∧ rt_mode rt' = RuntimeMode.Idle ∧ rt_fault rt' = FaultCode.None ∧
  path_closed rt'.
Proof.
  intros Hr Hm Hi. pose proof (inv_fault _ (rt_reachable_inv _ Hr)) as Hf.
  pose proof (inv_closed _ (rt_reachable_inv _ Hr)) as Hc. rewrite Hm in Hc.
  specialize (Hc ltac:(done)).
  unfold rt_handle, sm_step, fault_ok, rt_mode in *. rewrite Hm in Hf. cbn.
  destruct (rt_state_machine rt) as [mode il fault]. cbn in *. subst.
  destruct fault; try discriminate Hf; split_and!; try reflexivity; exact Hc.
Qed.

Lemma resume_from_hold_witness :
  let rt := demo_rt [CPublish (Ok 10) (demo_command 1);
                     CTick (mkSchedulerTick 0 200000000 200000000 0)] in
  rt_mode (fst (rt_handle (Ok 200000001) RuntimeEvent.Resume rt)) = RuntimeMode.Idle.
Proof.
  intros rt. pose proof (resume_from_hold rt (Ok 200000001) (demo_reachable _)
    ltac:(vm_compute; reflexivity) ltac:(vm_compute; reflexivity)) as H.
  destruct (rt_handle _ _ _) as [rt' t]. exact (proj1 (proj2 H)).
Defined.

(** Raising a fault is atomic: in one critical section the code becomes the
    runtime's fault, the output path closes, and the runtime is in [Fault] (or stays
    [Disabled] or [EStop], the modes with a stronger latch), from whichever mode. *)
Theorem raise_fault_atomic rt now code :
  code ≠ FaultCode.None →
  let rt' := fst (rt_raise_fault now code rt) in
  path_closed rt' ∧
  rt_mode rt' = match rt_mode rt with
                | RuntimeMode.Disabled => RuntimeMode.Disabled
                | RuntimeMode.EStop => RuntimeMode.EStop
                | _ => RuntimeMode.Fault
                end ∧ rt_fault rt' = code.
Proof.
  intros Hc. unfold rt_raise_fault, sm_step, trace_transition, rt_mode, rt_fault.
  rewrite bool_decide_eq_false_2 by done. cbv zeta.
  match goal with |- context [sm_handle ?s RuntimeEvent.FaultDetected] =>
    change s with (sm_set_fault code (rt_state_machine rt)) end.
  destruct (rt_state_machine rt) as [[] il f]; by destruct code.
Qed.

Lemma raise_fault_atomic_witness :
  let rt := demo_rt [CPublish (Ok 10) (demo_command 1)] in
  path_closed (fst (rt_raise_fault (Ok 11) FaultCode.CommLoss rt)).
Proof. apply (raise_fault_atomic _ (Ok 11) FaultCode.CommLoss). discriminate. Defined.
