(* ===== verification/Supervisor.v ===== *)
(** * Node supervision

    [NodeSupervisor] of include/rcr/runtime_events.hpp and
    src/supervision/node_supervisor.cpp.  The supervisor runs on the scheduler
    thread, takes a bounded number of events from the input queue on each tick and
    drives the runtime's fault path.  The runtime it drives is the interface
    [Supervised]; the theorems here hold for every implementation of it, and
    [ClockedRuntime] discharges it for [LinuxRuntime]. *)

From S2P Require Import Prelude Types StateMachine Ring CanV1 InputQueue.
Local Open Scope Z_scope.

(** ** The runtime as the supervisor sees it *)

Class Supervised (R : Type) := {
  sv_raise_fault : FaultCode → R → R;
  sv_set_interlock_ready : bool → R → R;
  sv_observe_output_status : Z → Z → OutputResult → Z → R → R;
  sv_mode : R → RuntimeMode;
  sv_fault : R → FaultCode;
  sv_raise_stops code r :
    code ≠ FaultCode.None →
    sv_mode (sv_raise_fault code r) ≠ RuntimeMode.Active ∧
    sv_fault (sv_raise_fault code r) = code;
  sv_interlock_never_activates ready r :
    sv_mode (sv_set_interlock_ready ready r) = RuntimeMode.Active →
    sv_mode r = RuntimeMode.Active ∧ ready = true;
  sv_observe_keeps_mode s q res t r :
    sv_mode (sv_observe_output_status s q res t r) = sv_mode r ∧
    sv_fault (sv_observe_output_status s q res t r) = sv_fault r
}.

(** ** State *)

Record NodeSupervisorConfig := mkNodeSupervisorConfig {
  nsc_node_id : Z;
  nsc_heartbeat_timeout : Z;
  nsc_max_events_per_tick : nat
}.

Record NodeSupervisor := mkNodeSupervisor {
  nsv_config : NodeSupervisorConfig;
  nsv_ever_seen : bool;
  nsv_online : bool;
  nsv_restart_latched : bool;
  nsv_overflow_fault_latched : bool;
  nsv_comm_loss_latched : bool;
  nsv_boot_id : Z;
  nsv_session_id : Z;
  nsv_last_hb_seq : Z;
  nsv_node_fault_code : Z;
  nsv_input_bits : Z;
  nsv_last_output_mirror : Z;
  nsv_last_heartbeat_ns : Z;
  nsv_heartbeats : Z;
  nsv_status_updates : Z;
  nsv_protocol_rejects : Z;
  nsv_events_processed : Z;
  nsv_events_budget_left : nat
}.

#[export] Instance NodeSupervisor_eta : Eta NodeSupervisor :=
  mkEta _ (fun n => mkNodeSupervisor (nsv_config n) (nsv_ever_seen n) (nsv_online n)
    (nsv_restart_latched n) (nsv_overflow_fault_latched n) (nsv_comm_loss_latched n) (nsv_boot_id n)
    (nsv_session_id n) (nsv_last_hb_seq n) (nsv_node_fault_code n) (nsv_input_bits n)
    (nsv_last_output_mirror n) (nsv_last_heartbeat_ns n) (nsv_heartbeats n) (nsv_status_updates n)
    (nsv_protocol_rejects n) (nsv_events_processed n) (nsv_events_budget_left n)).

Definition ns_new (config : NodeSupervisorConfig) : NodeSupervisor :=
  mkNodeSupervisor config false false false false false 0 0 0 0 0 0 0 0 0 0 0 0.

Definition clear_restart_latch (n : NodeSupervisor) : NodeSupervisor :=
  n <| nsv_restart_latched := false |>.

(** [acknowledge_fault_clear]; its final [switch] accepts every [FaultCode]. *)
Definition acknowledge_fault_clear (fault : FaultCode) (queue : BoundedInputQueue)
    (n : NodeSupervisor) : NodeSupervisor * Result () :=
  if nsv_overflow_fault_latched n || q_overflow_latched queue then
    (n, fail_with Errc.Rejected "event queue overflow requires daemon restart")
  else if nsv_comm_loss_latched n then
    (n, fail_with Errc.Rejected "heartbeat has not recovered")
  else if (nsv_ever_seen n || negb (nsv_status_updates n =? 0) || nsv_restart_latched n) &&
          negb (nsv_online n) then
    (n, fail_with Errc.Rejected "node is not online")
  else if negb (nsv_node_fault_code n =? 0) then
    (n, fail_with Errc.Rejected "node still reports a fault")
  else
    match fault with
    | FaultCode.None | FaultCode.Watchdog | FaultCode.InterlockLost | FaultCode.InputFault
    | FaultCode.ProtocolReject | FaultCode.CommLoss | FaultCode.NodeFault
    | FaultCode.Internal | FaultCode.AckTimeout =>
        (n <| nsv_restart_latched := false |>, Ok ())
    end.

(** The receive time of an event, or the tick's time when it carries none. *)
Definition event_time (event : RuntimeInputEvent) (now_ns : Z) : Z :=
  if negb (ev_monotonic_ns event =? 0) then ev_monotonic_ns event else now_ns.

Section Supervision.
Context {R : Type} `{Supervised R}.

Definition apply_overflow_fault (s : NodeSupervisor * R) : NodeSupervisor * R :=
  let '(n, r) := s in
  if negb (nsv_overflow_fault_latched n) then
    (n <| nsv_overflow_fault_latched := true |>, sv_raise_fault FaultCode.Internal r)
  else (n, r).

Definition apply_comm_loss (now_ns : Z) (s : NodeSupervisor * R) : NodeSupervisor * R :=
  let '(n, r) := s in
  if negb (nsv_ever_seen n) || negb (nsv_online n) then (n, r)
  else if nsc_heartbeat_timeout (nsv_config n) <=? 0 then (n, r)
  else if now_ns - nsv_last_heartbeat_ns n <? nsc_heartbeat_timeout (nsv_config n) then (n, r)
  else
    let n := n <| nsv_online := false |> in
    if negb (nsv_comm_loss_latched n) then
      (n <| nsv_comm_loss_latched := true |>, sv_raise_fault FaultCode.CommLoss r)
    else (n, r).

Definition note_node_restart (boot_id session_id : Z) (s : NodeSupervisor * R)
    : NodeSupervisor * R :=
  let '(n, r) := s in
  (n <| nsv_boot_id := boot_id |> <| nsv_session_id := session_id |>
     <| nsv_restart_latched := true |> <| nsv_online := true |> <| nsv_comm_loss_latched := false |>,
   sv_raise_fault FaultCode.NodeFault r).

Definition on_heartbeat (event : RuntimeInputEvent) (now_ns : Z) (s : NodeSupervisor * R)
    : NodeSupervisor * R :=
  let '(n, r) := s in
  let n := n <| nsv_heartbeats ::= incr64 |> in
  let restart := nsv_ever_seen n &&
                 (negb (ev_boot_id event =? nsv_boot_id n) ||
                  negb (ev_session_id event =? nsv_session_id n)) in
  let n := if negb (nsv_ever_seen n)
           then n <| nsv_ever_seen := true |> <| nsv_boot_id := ev_boot_id event |>
                  <| nsv_session_id := ev_session_id event |>
           else n in
  if negb restart then
    (n <| nsv_online := true |> <| nsv_boot_id := ev_boot_id event |>
       <| nsv_session_id := ev_session_id event |> <| nsv_last_hb_seq := ev_hb_seq event |>
       <| nsv_last_heartbeat_ns := event_time event now_ns |>
       <| nsv_comm_loss_latched := false |>, r)
  else
    let '(n, r) := note_node_restart (ev_boot_id event) (ev_session_id event) (n, r) in
    (n <| nsv_last_heartbeat_ns := event_time event now_ns |>
       <| nsv_last_hb_seq := ev_hb_seq event |>, r).

Definition on_node_status (event : RuntimeInputEvent) (s : NodeSupervisor * R)
    : NodeSupervisor * R :=
  let '(n, r) := s in
  let n := n <| nsv_status_updates ::= incr64 |>
             <| nsv_node_fault_code := ev_node_fault_code event |>
             <| nsv_input_bits := ev_input_bits event |> in
  let known_boot := nsv_boot_id n in
  let session_mismatch := nsv_ever_seen n && negb (ev_session_id event =? 0) &&
                          negb (ev_session_id event =? nsv_session_id n) in
  let '(n, r) := if session_mismatch
                 then note_node_restart known_boot (ev_session_id event) (n, r)
                 else (n, r) in
  let r := sv_set_interlock_ready (ev_interlock_ready event) r in
  let r := if negb (ev_node_fault_code event =? 0)
           then sv_raise_fault FaultCode.NodeFault r else r in
  (n, r).

Definition apply_event (event : RuntimeInputEvent) (now_ns : Z) (s : NodeSupervisor * R)
    : NodeSupervisor * R :=
  let '(n, r) := s in
  let n := n <| nsv_events_processed ::= incr64 |> in
  if negb (ev_node_id event =? 0) && negb (ev_node_id event =? nsc_node_id (nsv_config n))
  then (n, r)
  else
    match ev_kind event with
    | RuntimeInputKind.Heartbeat => on_heartbeat event now_ns (n, r)
    | RuntimeInputKind.NodeStatus => on_node_status event (n, r)
    | RuntimeInputKind.OutputStatus =>
        (n <| nsv_last_output_mirror := ev_output_mirror event |>,
         sv_observe_output_status (ev_session_id event) (ev_output_sequence event)
           (ev_output_result event) (event_time event now_ns) r)
    | RuntimeInputKind.ProtocolReject => (n <| nsv_protocol_rejects ::= incr64 |>, r)
    | RuntimeInputKind.IoError => (n, sv_raise_fault FaultCode.Internal r)
    end.

(** Events the I/O thread pushes while the supervisor drains. *)
Definition push_all (es : list RuntimeInputEvent) (q : BoundedInputQueue) : BoundedInputQueue :=
  foldl (λ q e, fst (try_push e q)) q es.

(** The loop of [on_tick]: [arrivals] lists what the I/O thread pushed before each
    pop; the budget left is returned. *)
Fixpoint drain (budget : nat) (arrivals : list (list RuntimeInputEvent)) (now_ns : Z)
    (q : BoundedInputQueue) (s : NodeSupervisor * R)
    : BoundedInputQueue * (NodeSupervisor * R) * nat :=
  match budget with
  | O => (q, s, O)
  | S rest =>
      let q := push_all (default [] (head arrivals)) q in
      match try_pop q with
      | (q, None) => (q, s, budget)
      | (q, Some event) => drain rest (tail arrivals) now_ns q (apply_event event now_ns s)
      end
  end.

Definition sup_on_tick (arrivals : list (list RuntimeInputEvent)) (now_ns : Z)
    (q : BoundedInputQueue) (s : NodeSupervisor * R) : BoundedInputQueue * (NodeSupervisor * R) :=
  let s := if q_overflow_latched q then apply_overflow_fault s else s in
  let '(q, (n, r), budget) :=
    drain (nsc_max_events_per_tick (nsv_config (fst s))) arrivals now_ns q s in
  (q, apply_comm_loss now_ns (n <| nsv_events_budget_left := budget |>, r)).

(** ** Invariant *)

(** The node is online exactly when it has been seen and no heartbeat loss is
    latched. *)
Definition sup_inv (n : NodeSupervisor) : Prop :=
  nsv_online n = nsv_ever_seen n && negb (nsv_comm_loss_latched n) ∧
  (nsv_comm_loss_latched n = true → nsv_ever_seen n = true).

Lemma sup_inv_new config : sup_inv (ns_new config).
Proof. done. Qed.

Ltac sup_split :=
  repeat match goal with
  | |- context [match ?x with _ => _ end] =>
      lazymatch x with context [match _ with _ => _ end] => fail | _ => destruct x eqn:? end
  end; cbn in *.

Lemma apply_overflow_inv s : sup_inv (fst s) → sup_inv (fst (apply_overflow_fault s)).
Proof. destruct s as [n r]. unfold apply_overflow_fault. by sup_split. Qed.

Lemma apply_comm_loss_inv now s : sup_inv (fst s) → sup_inv (fst (apply_comm_loss now s)).
Proof.
  destruct s as [n r]. unfold sup_inv, apply_comm_loss. intros [Ho Hl]. cbn in *.
  destruct (_ || _) eqn:Hg; [done|]. destruct (_ <=? 0); [done|]. destruct (_ <? _); [done|].
  bools. destruct (nsv_comm_loss_latched n); cbn; rewrite andb_false_r; auto.
Qed.

Lemma apply_event_inv e now s : sup_inv (fst s) → sup_inv (fst (apply_event e now s)).
Proof.
  destruct s as [n r]. unfold sup_inv, apply_event, on_heartbeat, on_node_status,
    note_node_restart. intros [Ho Hl]. cbn in *.
  destruct (negb _ && _); [done|].
  destruct (ev_kind e); cbn; try done.
  - destruct (nsv_ever_seen n) eqn:Hs; cbn; [|done]. destruct (negb _ || _); cbn; rewrite ?Hs; auto.
  - destruct (nsv_ever_seen n) eqn:Hs; cbn; [|rewrite ?Hs; auto].
    destruct (negb _ && _); cbn; rewrite ?Hs; auto.
Qed.

Lemma drain_inv budget arrivals now q s q' s' left :
  drain budget arrivals now q s = (q', s', left) → sup_inv (fst s) → sup_inv (fst s').
Proof.
  revert arrivals q s. induction budget as [|b IH]; intros arrivals q s; cbn.
  - by intros [= <- <- <-].
  - destruct (try_pop _) as [q1 [e|]]; [|by intros [= <- <- <-]].
    intros Hd Hi. apply (IH _ _ _ Hd), apply_event_inv, Hi.
Qed.

(** ** What a tick may do *)

(** Being [Active] afterwards means: it was before, and nothing in between was a
    reason to stop. *)
Definition stays_active (s s' : NodeSupervisor * R) : Prop :=
  sv_mode (snd s') = RuntimeMode.Active →
  sv_mode (snd s) = RuntimeMode.Active ∧
  nsv_restart_latched (fst s') = nsv_restart_latched (fst s) ∧
  nsv_overflow_fault_latched (fst s') = nsv_overflow_fault_latched (fst s) ∧
  (nsv_comm_loss_latched (fst s') = true → nsv_comm_loss_latched (fst s) = true) ∧
  (nsv_node_fault_code (fst s') = 0 ∨ nsv_node_fault_code (fst s') = nsv_node_fault_code (fst s)).

Ltac quiet := unfold stays_active; cbn; intros; split_and!; first [done | auto].

Lemma stays_active_refl s : stays_active s s.
Proof. quiet. Qed.

Lemma stays_active_trans s1 s2 s3 :
  stays_active s1 s2 → stays_active s2 s3 → stays_active s1 s3.
Proof.
  unfold stays_active. intros H12 H23 Ha.
  destruct (H23 Ha) as (Hm & Hr & Ho & Hc & Hf). destruct (H12 Hm) as (? & ? & ? & ? & Hf').
  split_and!; [done|congruence|congruence|auto|]. destruct Hf as [|Hf]; [auto|].
  rewrite Hf. auto.
Qed.

Lemma raise_stays code r : code ≠ FaultCode.None → sv_mode (sv_raise_fault code r) ≠ RuntimeMode.Active.
Proof. intros. by apply sv_raise_stops. Qed.

Lemma apply_overflow_active s : stays_active s (apply_overflow_fault s).
Proof.
  destruct s as [n r]. unfold apply_overflow_fault. destruct (negb _); [|apply stays_active_refl].
  intros Ha. by apply raise_stays in Ha.
Qed.

Lemma apply_comm_loss_active now s : stays_active s (apply_comm_loss now s).
Proof.
  destruct s as [n r]. unfold apply_comm_loss.
  destruct (_ || _); [apply stays_active_refl|]. destruct (_ <=? 0); [apply stays_active_refl|].
  destruct (_ <? _); [apply stays_active_refl|]. cbn. destruct (negb _).
  - intros Ha. by apply raise_stays in Ha.
  - quiet.
Qed.

Lemma on_heartbeat_active e now s : stays_active s (on_heartbeat e now s).
Proof.
  destruct s as [n r]. unfold on_heartbeat, note_node_restart. cbn.
  destruct (nsv_ever_seen n); cbn; [destruct (negb (_ || _)) eqn:Hg|]; cbn.
  - quiet.
  - intros Ha. by apply raise_stays in Ha.
  - quiet.
Qed.

Lemma on_node_status_active e s : stays_active s (on_node_status e s).
Proof.
  destruct s as [n r]. unfold on_node_status, note_node_restart. cbn.
  destruct (negb (ev_node_fault_code e =? 0)) eqn:Hf.
  - intros Ha. exfalso. revert Ha. destruct (_ && _); cbn; apply raise_stays; done.
  - bools. destruct (_ && _); cbn; intros Ha; apply sv_interlock_never_activates in Ha as [Ha _].
    + by apply raise_stays in Ha.
    + cbn. auto 10.
Qed.

Lemma apply_event_active e now s : stays_active s (apply_event e now s).
Proof.
  destruct s as [n r]. unfold apply_event. cbv zeta.
  set (n' := update nsv_events_processed _ n).
  apply (stays_active_trans _ (n', r)); [apply (stays_active_refl (n, r))|].
  destruct (_ && _); [apply stays_active_refl|]. destruct (ev_kind e).
  - apply on_heartbeat_active.
  - apply on_node_status_active.
  - intros Ha. cbn in *. destruct (sv_observe_keeps_mode (ev_session_id e) (ev_output_sequence e)
      (ev_output_result e) (event_time e now) r) as [Hm _]. rewrite Hm in Ha. auto 10.
  - apply (stays_active_refl (n', r)).
  - intros Ha. by apply raise_stays in Ha.
Qed.

Lemma drain_active budget arrivals now q s q' s' left :
  drain budget arrivals now q s = (q', s', left) → stays_active s s'.
Proof.
  revert arrivals q s. induction budget as [|b IH]; intros arrivals q s; cbn.
  - intros [= <- <- <-]. apply stays_active_refl.
  - destruct (try_pop _) as [q1 [e|]]; [|intros [= <- <- <-]; apply stays_active_refl].
    intros Hd. eapply stays_active_trans; [apply apply_event_active|by apply (IH _ _ _ Hd)].
Qed.

(** Draining keeps the configuration and never latches a heartbeat loss. *)
Lemma drain_keeps budget arrivals now q s q' s' left :
  drain budget arrivals now q s = (q', s', left) →
  nsv_config (fst s') = nsv_config (fst s) ∧
  (nsv_comm_loss_latched (fst s') = true → nsv_comm_loss_latched (fst s) = true).
Proof.
  revert arrivals q s. induction budget as [|b IH]; intros arrivals q s; cbn.
  - by intros [= <- <- <-].
  - destruct (try_pop _) as [q1 [e|]]; [|by intros [= <- <- <-]].
    intros Hd. destruct (IH _ _ _ Hd) as [-> Hc]. clear Hd. revert Hc. destruct s as [n r].
    unfold apply_event, on_heartbeat, on_node_status, note_node_restart. cbn.
    repeat match goal with
    | |- context [match ?x with _ => _ end] =>
        lazymatch x with context [match _ with _ => _ end] => fail | _ => destruct x end; cbn
    end; auto; intros Hc; split; auto; intros Hl; by apply Hc in Hl.
Qed.

Lemma apply_comm_loss_fresh now s :
  sup_inv (fst s) → 0 < nsc_heartbeat_timeout (nsv_config (fst s)) →
  let s' := apply_comm_loss now s in
  nsv_config (fst s') = nsv_config (fst s) ∧
  (nsv_online (fst s') = true →
     now - nsv_last_heartbeat_ns (fst s') < nsc_heartbeat_timeout (nsv_config (fst s))) ∧
  (nsv_comm_loss_latched (fst s') = true → nsv_comm_loss_latched (fst s) = false →
     sv_mode (snd s') ≠ RuntimeMode.Active ∧ sv_fault (snd s') = FaultCode.CommLoss).
Proof.
  destruct s as [n r]. unfold sup_inv, apply_comm_loss. cbn. intros [Ho _] Ht.
  destruct (_ || _) eqn:Hg.
  { split_and!; try done; cbn; [|congruence]. intros Hon. rewrite Hon in *. cbn in *.
    rewrite orb_false_r in Hg. bools. by rewrite Hg in Ho. }
  rewrite (proj2 (Z.leb_gt _ _)) by done.
  destruct (_ <? _) eqn:Hage; bools; [split_and!; try done; cbn; congruence|].
  destruct (nsv_comm_loss_latched n); cbn; [split_and!; congruence|].
  split_and!; try done. intros _ _. by apply sv_raise_stops.
Qed.

(** The latches of the events drained in a tick. *)
Lemma sup_on_tick_parts arrivals now q n r :
  ∃ s1 s2 budget,
    s1 = (if q_overflow_latched q then apply_overflow_fault (n, r) else (n, r)) ∧
    drain (nsc_max_events_per_tick (nsv_config (fst s1))) arrivals now q s1 =
      (fst (sup_on_tick arrivals now q (n, r)), s2, budget) ∧
    snd (sup_on_tick arrivals now q (n, r)) =
      apply_comm_loss now (fst s2 <| nsv_events_budget_left := budget |>, snd s2).
Proof.
  unfold sup_on_tick. set (s1 := if q_overflow_latched q then _ else _).
  destruct (drain _ arrivals now q s1) as [[q' [n' r']] budget] eqn:Hd.
  exists s1, (n', r'), budget. done.
Qed.

Lemma sup_on_tick_active arrivals now q n r :
  stays_active (n, r) (snd (sup_on_tick arrivals now q (n, r))).
Proof.
  destruct (sup_on_tick_parts arrivals now q n r) as (s1 & s2 & budget & Hs1 & Hd & ->).
  apply (stays_active_trans _ (fst s2 <| nsv_events_budget_left := budget |>, snd s2));
    [|apply apply_comm_loss_active].
  apply (stays_active_trans _ s1); [|exact (drain_active _ _ _ _ _ _ _ _ Hd)].
  subst s1; destruct (q_overflow_latched q); [apply apply_overflow_active|apply stays_active_refl].
Qed.

Lemma active_tick_reported arrivals now q n r :
  sv_mode (snd (snd (sup_on_tick arrivals now q (n, r)))) = RuntimeMode.Active →
  q_overflow_latched q = true → nsv_overflow_fault_latched n = true.
Proof.
  destruct (sup_on_tick_parts arrivals now q n r) as (s1 & s2 & budget & Hs1 & Hd & Heq).
  intros Ha Ho. rewrite Heq in Ha.
  destruct (apply_comm_loss_active now _ Ha) as (Hm2 & _).
  destruct (drain_active _ _ _ _ _ _ _ _ Hd Hm2) as (Hm1 & _).
  rewrite Hs1, Ho in Hm1. revert Hm1. unfold apply_overflow_fault.
  destruct (nsv_overflow_fault_latched n); [done|]. cbn. intros Hm1. by apply raise_stays in Hm1.
Qed.

(** The report of an overflow comes before the events of the tick. *)
Lemma overflow_reported_first arrivals now q n r :
  q_overflow_latched q = true → nsv_overflow_fault_latched n = false →
  sup_on_tick arrivals now q (n, r) =
  sup_on_tick arrivals now q (n <| nsv_overflow_fault_latched := true |>, sv_raise_fault FaultCode.Internal r).
Proof. intros Ho Hn. unfold sup_on_tick. rewrite Ho. unfold apply_overflow_fault. by rewrite Hn. Qed.

Lemma apply_event_overflow e now s :
  nsv_overflow_fault_latched (fst (apply_event e now s)) = nsv_overflow_fault_latched (fst s).
Proof.
  destruct s as [n r]. unfold apply_event, on_heartbeat, on_node_status, note_node_restart. cbn.
  repeat match goal with
  | |- context [match ?x with _ => _ end] =>
      lazymatch x with context [match _ with _ => _ end] => fail | _ => destruct x end; cbn
  end; done.
Qed.

Lemma drain_overflow budget arrivals now q s q' s' left :
  drain budget arrivals now q s = (q', s', left) →
  nsv_overflow_fault_latched (fst s') = nsv_overflow_fault_latched (fst s).
Proof.
  revert arrivals q s. induction budget as [|b IH]; intros arrivals q s; cbn; [by intros [= <- <- <-]|].
  destruct (try_pop _) as [q1 [e|]]; [|by intros [= <- <- <-]].
  intros Hd. by rewrite (IH _ _ _ Hd), apply_event_overflow.
Qed.

Lemma overflow_stays_latched arrivals now q n r :
  q_overflow_latched q = true →
  nsv_overflow_fault_latched (fst (snd (sup_on_tick arrivals now q (n, r)))) = true.
Proof.
  destruct (sup_on_tick_parts arrivals now q n r) as (s1 & s2 & budget & Hs1 & Hd & ->). intros Ho.
  apply drain_overflow in Hd. assert (H1 : nsv_overflow_fault_latched (fst s1) = true).
  { rewrite Hs1, Ho. unfold apply_overflow_fault. by destruct (nsv_overflow_fault_latched n) eqn:?. }
  rewrite H1 in Hd. unfold apply_comm_loss. by repeat (case_match; cbn in * ).
Qed.

(** Whatever the three operations of the interface preserve, a tick preserves. *)
Section Closed.
Context (P : R → Prop).
Hypothesis P_raise : ∀ code r, P r → P (sv_raise_fault code r).
Hypothesis P_interlock : ∀ ready r, P r → P (sv_set_interlock_ready ready r).
Hypothesis P_observe : ∀ s q res t r, P r → P (sv_observe_output_status s q res t r).

Lemma apply_event_closed e now s : P (snd s) → P (snd (apply_event e now s)).
Proof.
  destruct s as [n r]. intros Hp.
  unfold apply_event, on_heartbeat, on_node_status, note_node_restart. cbn.
  repeat match goal with
  | |- context [match ?x with _ => _ end] =>
      lazymatch x with context [match _ with _ => _ end] => fail | _ => destruct x end; cbn
  end; auto.
Qed.

Lemma drain_closed budget arrivals now q s q' s' left :
  drain budget arrivals now q s = (q', s', left) → P (snd s) → P (snd s').
Proof.
  revert arrivals q s. induction budget as [|b IH]; intros arrivals q s; cbn.
  - by intros [= <- <- <-].
  - destruct (try_pop _) as [q1 [e|]]; [|by intros [= <- <- <-]].
    intros Hd Hp. apply (IH _ _ _ Hd), apply_event_closed, Hp.
Qed.

Lemma sup_on_tick_closed arrivals now q n r :
  P r → P (snd (snd (sup_on_tick arrivals now q (n, r)))).
Proof.
  intros Hp. destruct (sup_on_tick_parts arrivals now q n r) as (s1 & s2 & b & Hs1 & Hd & ->).
  assert (H1 : P (snd s1)).
  { subst s1. unfold apply_overflow_fault. destruct (q_overflow_latched q); [|done].
    destruct (negb _); cbn; auto. }
  pose proof (drain_closed _ _ _ _ _ _ _ _ Hd H1) as H2. unfold apply_comm_loss.
  destruct (_ || _); [done|]. destruct (_ <=? 0); [done|]. destruct (_ <? _); [done|].
  cbn. destruct (negb _); cbn; auto.
Qed.
End Closed.
End Supervision.

(** C8.  Supervision only ever takes output permission away.  If the runtime is
    [Active] after a tick, with any events arriving meanwhile, then it was [Active]
    before, no restart, overflow or heartbeat loss was newly latched, the node reports
    no new fault, and a queue that had overflowed had already been reported.  A queue
    found overflowed for the first time is reported before any event of the tick: the
    tick does what it would do from the state in which the runtime was stopped with
    [Internal] and the report latched, the report stays latched and the runtime stopped. *)
Theorem supervision_never_activates {R} `{Supervised R} arrivals now q (n : NodeSupervisor) (r : R) :
  let s' := snd (sup_on_tick arrivals now q (n, r)) in
  (sv_mode (snd s') = RuntimeMode.Active →
   stays_active (n, r) s' ∧ sv_mode r = RuntimeMode.Active ∧
   (q_overflow_latched q = true → nsv_overflow_fault_latched n = true)) ∧
  (q_overflow_latched q = true → nsv_overflow_fault_latched n = false →
   let stopped := sv_raise_fault FaultCode.Internal r in
   sup_on_tick arrivals now q (n, r) =
     sup_on_tick arrivals now q (n <| nsv_overflow_fault_latched := true |>, stopped) ∧
   sv_mode stopped ≠ RuntimeMode.Active ∧ sv_fault stopped = FaultCode.Internal ∧
   nsv_overflow_fault_latched (fst s') = true ∧ sv_mode (snd s') ≠ RuntimeMode.Active).
Proof.
  cbv zeta. assert (Hact : sv_mode (snd (snd (sup_on_tick arrivals now q (n, r)))) = RuntimeMode.Active →
    stays_active (n, r) (snd (sup_on_tick arrivals now q (n, r))) ∧ sv_mode r = RuntimeMode.Active ∧
    (q_overflow_latched q = true → nsv_overflow_fault_latched n = true)).
  { intros Ha. pose proof (sup_on_tick_active arrivals now q n r) as Hall.
    split_and!; [done|by apply Hall|by eapply active_tick_reported]. }
  split; [done|]. intros Ho Hn. destruct (sv_raise_stops FaultCode.Internal r ltac:(done)) as [Hm Hf].
  split_and!; [by apply overflow_reported_first|done|done|by apply overflow_stays_latched|].
  intros Ha. destruct (Hact Ha) as (_ & _ & Hx). by rewrite Hx in Hn.
Qed.

(** C9.  The heartbeat deadline is enforced on every tick: a node the supervisor
    calls online after a tick sent a heartbeat less than the timeout ago, a node once
    seen is either online or latched as lost, and a tick that latches the loss leaves
    the runtime outside [Active] with [CommLoss]. *)
Theorem heartbeat_deadline {R} `{Supervised R} arrivals now q (n : NodeSupervisor) (r : R) :
  sup_inv n → 0 < nsc_heartbeat_timeout (nsv_config n) →
  let '(n', r') := snd (sup_on_tick arrivals now q (n, r)) in
  sup_inv n' ∧
  (nsv_online n' = true → now - nsv_last_heartbeat_ns n' < nsc_heartbeat_timeout (nsv_config n)) ∧
  (nsv_comm_loss_latched n = false → nsv_comm_loss_latched n' = true →
   sv_mode r' ≠ RuntimeMode.Active ∧ sv_fault r' = FaultCode.CommLoss).
Proof.
  intros Hi Ht. destruct (sup_on_tick_parts arrivals now q n r) as (s1 & s2 & budget & Hs1 & Hd & Heq).
  assert (H1 : sup_inv (fst s1) ∧ nsv_config (fst s1) = nsv_config n ∧
    nsv_comm_loss_latched (fst s1) = nsv_comm_loss_latched n).
  { subst s1. destruct (q_overflow_latched q); [|done]. split; [by apply apply_overflow_inv|].
    unfold apply_overflow_fault. by destruct (negb _). }
  destruct H1 as (Hi1 & Hc1 & Hl1). destruct (drain_keeps _ _ _ _ _ _ _ _ Hd) as [Hc2 Hl2].
  pose proof (drain_inv _ _ _ _ _ _ _ _ Hd Hi1) as Hi2.
  set (s3 := (fst s2 <| nsv_events_budget_left := budget |>, snd s2)) in *.
  assert (Hcfg : nsv_config (fst s3) = nsv_config n) by (cbn; congruence).
  destruct (apply_comm_loss_fresh now s3 Hi2) as (_ & Hf & Hm); [by rewrite Hcfg|].
  pose proof (apply_comm_loss_inv now s3 Hi2) as Hi3. rewrite Hcfg in Hf.
  rewrite Heq. destruct (apply_comm_loss now s3) as [n' r']. cbn in *.
  split_and!; [done|done|]. intros Hn Hn'. apply Hm; [done|].
  apply not_true_iff_false. intros Hx. apply Hl2 in Hx. congruence.
Qed.

(** No supervised condition persists that forbids leaving a fault. *)
Definition recovered (q : BoundedInputQueue) (n : NodeSupervisor) : Prop :=
  nsv_overflow_fault_latched n = false ∧ q_overflow_latched q = false ∧
  nsv_comm_loss_latched n = false ∧ nsv_node_fault_code n = 0 ∧
  (nsv_ever_seen n = true ∨ nsv_status_updates n ≠ 0 ∨ nsv_restart_latched n = true →
   nsv_online n = true).

Lemma acknowledge_cases fault q n :
  let '(n', res) := acknowledge_fault_clear fault q n in
  (res_ok res = true ↔ recovered q n) ∧
  n' = if res_ok res then n <| nsv_restart_latched := false |> else n.
Proof.
  unfold acknowledge_fault_clear, recovered.
  destruct (nsv_overflow_fault_latched n), (q_overflow_latched q); cbn;
    try (split; [split; [done|by intros (? & ? & _)]|done]).
  destruct (nsv_comm_loss_latched n); cbn; [split; [split; [done|by intros (_ & _ & ? & _)]|done]|].
  destruct (_ && _) eqn:Hg; cbn.
  - split; [split; [done|]|done]. intros (_ & _ & _ & _ & Hon). exfalso. bools.
    assert (nsv_online n = true); [|congruence]. apply Hon.
    repeat (apply orb_prop in H as [H|H]); auto; bools; auto.
  - destruct (nsv_node_fault_code n =? 0) eqn:Hf; bools; cbn.
    + assert (res_ok (Ok ()) = true ↔ false = false ∧ false = false ∧ false = false ∧
        nsv_node_fault_code n = 0 ∧ (nsv_ever_seen n = true ∨ nsv_status_updates n ≠ 0 ∨
          nsv_restart_latched n = true → nsv_online n = true)).
      { split; [|done]. intros _. split_and!; try done.
        apply andb_false_iff in Hg as [Hg|Hg]; bools; [|done]. intros [Hx|[Hx|Hx]]; congruence. }
      by destruct fault.
    + split; [split; [done|by intros (_ & _ & _ & ? & _)]|done].
Qed.

(** Clearing a fault is admitted exactly when no supervised blocker persists,
    whatever the last fault classification was; it changes nothing but the restart
    acknowledgement, and a refusal changes nothing. *)
Theorem fault_clear_needs_recovery fault q n :
  let '(n', res) := acknowledge_fault_clear fault q n in
  (res_ok res = true ↔ recovered q n) ∧
  n' = if res_ok res then n <| nsv_restart_latched := false |> else n.
Proof. apply acknowledge_cases. Qed.
