(* ===== verification/Supervision.v ===== *)
(** * The supervised runtime

    [LinuxRuntime] as the runtime a [NodeSupervisor] drives: the instance of the
    [Supervised] interface, and the composition of the two that the daemon installs
    as the scheduler's callback (on_tick with the supervision hook). *)

From S2P Require Import Prelude Types StateMachine Mailbox Watchdog Ring Trace CanV1 InputQueue.
From S2P Require Import Scheduler Runtime RuntimeInv RuntimeSafety Supervisor.
Local Open Scope Z_scope.

(** A runtime with the clock samples its operations will draw. *)
Record ClockedRuntime := mkClocked {
  cr_runtime : LinuxRuntime;
  cr_clock : list (Result Z)
}.

(** [monotonic_now_ns()]; a clock with no sample left fails. *)
Definition draw_clock (r : ClockedRuntime) : Result Z * list (Result Z) :=
  match cr_clock r with
  | [] => (fail_with Errc.IoError "clock_gettime(CLOCK_MONOTONIC)", [])
  | now :: rest => (now, rest)
  end.

Definition cr_raise_fault (code : FaultCode) (r : ClockedRuntime) : ClockedRuntime :=
  let '(now, rest) := draw_clock r in
  mkClocked (fst (rt_raise_fault now code (cr_runtime r))) rest.

Definition cr_set_interlock_ready (ready : bool) (r : ClockedRuntime) : ClockedRuntime :=
  let '(now, rest) := draw_clock r in
  mkClocked (rt_set_interlock_ready now ready (cr_runtime r)) rest.

Definition cr_observe_output_status (session sequence : Z) (result : OutputResult) (t : Z)
    (r : ClockedRuntime) : ClockedRuntime :=
  mkClocked (rt_observe_output_status session sequence result t (cr_runtime r)) (cr_clock r).

Lemma rt_raise_stops now code rt :
  code ≠ FaultCode.None →
  rt_mode (fst (rt_raise_fault now code rt)) ≠ RuntimeMode.Active ∧
  rt_fault (fst (rt_raise_fault now code rt)) = code.
Proof.
  intros Hc. unfold rt_raise_fault, sm_step, trace_transition, rt_mode, rt_fault.
  rewrite bool_decide_eq_false_2 by done. cbv zeta.
  match goal with |- context [sm_handle ?s RuntimeEvent.FaultDetected] =>
    change s with (sm_set_fault code (rt_state_machine rt)) end.
  destruct (rt_state_machine rt) as [[] il f]; by destruct code.
Qed.

Lemma rt_interlock_mode now ready rt :
  rt_mode (rt_set_interlock_ready now ready rt) =
  sm_mode (sm_set_interlock_ready ready (rt_state_machine rt)).
Proof.
  unfold rt_set_interlock_ready. cbv zeta.
  match goal with |- context [if negb ?b then _ else _] => destruct (negb b) end;
    unfold rt_mode, rt_record; cbn; by destruct (_ && _).
Qed.

Lemma sm_interlock_never_activates ready s :
  sm_mode (sm_set_interlock_ready ready s) = RuntimeMode.Active →
  sm_mode s = RuntimeMode.Active ∧ ready = true.
Proof. by destruct s as [[] [] []], ready. Qed.

Lemma rt_observe_keeps_sm s q res t rt :
  rt_state_machine (rt_observe_output_status s q res t rt) = rt_state_machine rt.
Proof.
  unfold rt_observe_output_status, maybe_disarm_idle_command_watchdog. cbv zeta.
  match goal with |- context [if ?a && ?b then _ else _] => destruct (a && b) end; [|done].
  by destruct (_ && _).
Qed.

#[export] Program Instance ClockedRuntime_supervised : Supervised ClockedRuntime := {|
  sv_raise_fault := cr_raise_fault;
  sv_set_interlock_ready := cr_set_interlock_ready;
  sv_observe_output_status := cr_observe_output_status;
  sv_mode r := rt_mode (cr_runtime r);
  sv_fault r := rt_fault (cr_runtime r)
|}.
Next Obligation. intros code r Hc. unfold cr_raise_fault. destruct (draw_clock r). by apply rt_raise_stops. Qed.
Next Obligation.
  intros ready r. unfold cr_set_interlock_ready. destruct (draw_clock r). cbn.
  rewrite rt_interlock_mode. apply sm_interlock_never_activates.
Qed.
Next Obligation. intros. unfold rt_mode, rt_fault. cbn. by rewrite rt_observe_keeps_sm. Qed.

(** ** The composed tick

    [LinuxRuntime::on_tick] with the hook the daemon installs. *)

Record SupervisedState := mkSupervised {
  ss_queue : BoundedInputQueue;
  ss_supervisor : NodeSupervisor;
  ss_clock : list (Result Z)
}.

Definition supervision_hook (arrivals : list (list RuntimeInputEvent)) (now_ns : Z)
    (s : LinuxRuntime * SupervisedState) : LinuxRuntime * SupervisedState :=
  let '(rt, h) := s in
  let '(q, (n, r)) :=
    sup_on_tick arrivals now_ns (ss_queue h) (ss_supervisor h, mkClocked rt (ss_clock h)) in
  (cr_runtime r, mkSupervised q n (cr_clock r)).

Definition supervised_on_tick (arrivals : list (list RuntimeInputEvent)) (tick : SchedulerTick)
    (s : LinuxRuntime * SupervisedState) : (LinuxRuntime * SupervisedState) * bool :=
  rt_on_tick (supervision_hook arrivals) tick s.

(** The calls the supervisor may make. *)
Definition supervisor_call (c : rt_call) : Prop :=
  match c with CRaise _ _ | CInterlock _ _ | CObserve _ _ _ _ => True | _ => False end.

Lemma hook_calls arrivals now s :
  ∃ cs, Forall supervisor_call cs ∧ fst (supervision_hook arrivals now s) = rt_exec (fst s) cs.
Proof.
  destruct s as [rt h]. unfold supervision_hook.
  pose proof (sup_on_tick_closed
    (λ r : ClockedRuntime, ∃ cs, Forall supervisor_call cs ∧ cr_runtime r = rt_exec rt cs)) as Hc.
  assert (Hstep : ∀ c r, supervisor_call c →
    (∃ cs, Forall supervisor_call cs ∧ cr_runtime r = rt_exec rt cs) →
    ∃ cs, Forall supervisor_call cs ∧ rt_apply (cr_runtime r) c = rt_exec rt cs).
  { intros c r Hs (cs & Hcs & Hr). exists (cs ++ [c]). split; [apply Forall_app_2; [done|by apply Forall_singleton]|].
    unfold rt_exec in *. by rewrite foldl_app, <- Hr. }
  specialize (Hc ltac:(intros code r; cbn; unfold cr_raise_fault; destruct (draw_clock r) as [t ?];
    exact (Hstep (CRaise t code) r I))).
  specialize (Hc ltac:(intros ready r; cbn; unfold cr_set_interlock_ready;
    destruct (draw_clock r) as [t ?]; exact (Hstep (CInterlock t ready) r I))).
  specialize (Hc ltac:(intros s q res t r; exact (Hstep (CObserve s q res t) r I))).
  specialize (Hc arrivals now (ss_queue h) (ss_supervisor h) (mkClocked rt (ss_clock h))).
  destruct (sup_on_tick _ _ _ _) as [q [n r]]. cbn in *. apply Hc. by exists [].
Qed.

(** The composed tick is a run of runtime calls: whatever events arrive, one
    supervised tick acts on the runtime as the tick itself followed by fault,
    interlock and acknowledgement calls.  So every property of reachable runtimes
    holds at every point of a supervised execution. *)
Theorem supervised_tick_is_calls arrivals tick s :
  ∃ cs, Forall supervisor_call cs ∧
    fst (fst (supervised_on_tick arrivals tick s)) = rt_exec (fst s) (CTick tick :: cs) ∧
    (rt_reachable (fst s) → rt_reachable (fst (fst (supervised_on_tick arrivals tick s)))).
Proof.
  assert (∃ cs, Forall supervisor_call cs ∧
    fst (fst (supervised_on_tick arrivals tick s)) = rt_exec (fst s) (CTick tick :: cs)) as (cs & Hcs & Heq).
  { unfold supervised_on_tick, rt_on_tick. cbn [rt_exec foldl rt_apply].
    destruct (rt_tick tick (fst s)) as [rt ok]. destruct ok; [|by exists []].
    destruct (hook_calls arrivals (tk_actual_ns tick) (rt, snd s)) as (cs & Hcs & Hh).
    by exists cs. }
  exists cs. split_and!; [done|done|]. intros (config & cont & cs0 & Hr).
  exists config, cont, (cs0 ++ CTick tick :: cs). rewrite Heq. unfold rt_exec in *.
  by rewrite foldl_app, <- Hr.
Qed.

(** Neither a tick nor the supervisor leaves [Fault]. *)
Lemma supervisor_call_keeps_fault c rt :
  supervisor_call c → rt_mode rt = RuntimeMode.Fault → rt_mode (rt_apply rt c) = RuntimeMode.Fault.
Proof.
  intros Hc Hm. destruct c; cbn [supervisor_call rt_apply] in *; try done.
  - destruct rt as [? [mode il f]]. unfold rt_mode in Hm. cbn in Hm. subst mode.
    unfold rt_raise_fault. by destruct (_ ==? _).
  - rewrite rt_interlock_mode. unfold rt_mode in Hm.
    destruct (rt_state_machine rt) as [mode il f]. cbn in Hm. subst mode. by destruct ready.
  - unfold rt_mode. by rewrite rt_observe_keeps_sm.
Qed.

Lemma supervised_tick_keeps_fault arrivals tick s :
  rt_mode (fst s) = RuntimeMode.Fault →
  rt_mode (fst (fst (supervised_on_tick arrivals tick s))) = RuntimeMode.Fault.
Proof.
  intros Hm. unfold supervised_on_tick, rt_on_tick.
  assert (Ht : rt_mode (fst (rt_tick tick (fst s))) = RuntimeMode.Fault).
  { unfold rt_tick. destruct (rt_test_throw_on_tick _); [done|]. cbn [fst].
    assert (Hr : rt_mode (tick_trace tick (fst s)) = RuntimeMode.Fault)
      by (rewrite <- Hm; unfold tick_trace; by destruct (_ <=? _)).
    pose proof (not_active_no_accept (tick_trace tick (fst s)) ltac:(by rewrite Hr)) as Hn.
    unfold tick_ack_timeout. rewrite Hn. cbn [andb]. unfold tick_watchdog. by rewrite Hn. }
  destruct (rt_tick tick (fst s)) as [rt ok]. destruct ok; [|done].
  destruct (hook_calls arrivals (tk_actual_ns tick) (rt, snd s)) as (cs & Hcs & Hh).
  cbn [fst] in *. rewrite Hh. clear Hh. revert rt Ht.
  induction Hcs as [|c cs Hc _ IH]; intros rt Ht; [done|]. apply IH. by apply supervisor_call_keeps_fault.
Qed.

(** ** Witnesses of the supervisor's theorems on the real runtime *)

Definition demo_supervisor : NodeSupervisor := ns_new (mkNodeSupervisorConfig 1 300000000 32).
Definition demo_heartbeat (t : Z) : RuntimeInputEvent :=
  default_event <| ev_monotonic_ns := t |> <| ev_node_id := 1 |> <| ev_boot_id := 3 |>
                <| ev_session_id := 7 |>.

Lemma supervision_never_activates_witness :
  let r := mkClocked (demo_rt []) [] in
  let s' := snd (sup_on_tick [[demo_heartbeat 100]] 200 (q_new 8) (demo_supervisor, r)) in
  let full := push_all [demo_heartbeat 100; demo_heartbeat 101] (q_new 1) in
  nsv_online (fst s') = true ∧ stays_active (demo_supervisor, r) s' ∧
  nsv_overflow_fault_latched (fst (snd (sup_on_tick [] 200 full (demo_supervisor, r)))) = true.
Proof.
  intros r s' full. split; [vm_compute; reflexivity|]. split.
  - assert (Ha : sv_mode (snd s') = RuntimeMode.Active) by (vm_compute; reflexivity).
    exact (proj1 (proj1 (supervision_never_activates [[demo_heartbeat 100]] 200 (q_new 8) demo_supervisor r) Ha)).
  - apply (proj2 (supervision_never_activates [] 200 full demo_supervisor r)); vm_compute; reflexivity.
Defined.

Lemma heartbeat_deadline_witness :
  let r := mkClocked (demo_rt []) [] in
  let n := fst (snd (sup_on_tick [[demo_heartbeat 100]] 200 (q_new 8) (demo_supervisor, r))) in
  let '(n', r') := snd (sup_on_tick [] 300000100 (q_new 8) (n, r)) in
  sup_inv n' ∧ nsv_comm_loss_latched n' = true ∧ sv_fault r' = FaultCode.CommLoss.
Proof.
  intros r n.
  pose proof (heartbeat_deadline [] 300000100 (q_new 8) n r ltac:(vm_compute; auto)
    ltac:(vm_compute; reflexivity)) as H.
  assert (Hl : nsv_comm_loss_latched
                 (fst (snd (sup_on_tick [] 300000100 (q_new 8) (n, r)))) = true)
    by (vm_compute; reflexivity).
  destruct (snd (sup_on_tick [] 300000100 (q_new 8) (n, r))) as [n' r'].
  destruct H as (Hi & _ & Hm). split; [exact Hi|]. split; [exact Hl|].
  apply Hm; [vm_compute; reflexivity | exact Hl].
Defined.
