(* ===== verification/LinuxIo.v ===== *)
(** * Linux descriptors and the CAN bus

    The wrappers under src/linux: monotonic time conversion (time.cpp), descriptor
    ownership and the stop primitives (owned_fd.cpp), the epoll interest list
    (epoll_reactor.cpp), SocketCAN and its in-memory double (socketcan.cpp,
    can_bus.hpp) and the interface-name check (vcan.cpp).  The kernel is outside the
    repository: what its calls answer is an argument of each operation, and the
    descriptors it holds open are the state [Kernel]. *)

From stdpp Require Import gmap.
From S2P Require Import Prelude Types.
Local Open Scope Z_scope.

(** ** Time *)

Record timespec := mkTimespec { tv_sec : Z; tv_nsec : Z }.

(** C++ [/] and [%] truncate toward zero. *)
Definition ns_to_timespec (nanoseconds : Z) : timespec :=
  mkTimespec (Z.quot nanoseconds 1000000000) (Z.rem nanoseconds 1000000000).

Definition timespec_to_ns (t : timespec) : Z := tv_sec t * 1000000000 + tv_nsec t.

(** [clock_gettime] answered by [None] (failure) or a reading. *)
Definition monotonic_now_ns (reading : option timespec) : Result Z :=
  match reading with
  | None => fail_with Errc.IoError "clock_gettime(CLOCK_MONOTONIC): "
  | Some now => Ok (timespec_to_ns now)
  end.

Lemma timespec_round_trip ns :
  0 ≤ ns → timespec_to_ns (ns_to_timespec ns) = ns ∧ 0 ≤ tv_nsec (ns_to_timespec ns) < 1000000000.
Proof.
  intros. unfold timespec_to_ns, ns_to_timespec; cbn.
  pose proof (Z.quot_rem' ns 1000000000). pose proof (Z.rem_bound_pos ns 1000000000). lia.
Qed.

(** ** The kernel's descriptor table *)

(** [k_bad_close] records a close of a descriptor that was not open: it may hit a
    number the kernel has already given to somebody else. *)
Record Kernel := mkKernel { k_open : gset Z; k_bad_close : bool }.

#[export] Instance Kernel_eta : Eta Kernel := mkEta _ (fun k => mkKernel (k_open k) (k_bad_close k)).

Definition k_close (fd : Z) (k : Kernel) : Kernel :=
  if bool_decide (fd ∈ k_open k) then k <| k_open ::= λ s, s ∖ {[fd]} |>
  else k <| k_bad_close := true |>.

(** A system call that creates a descriptor: [None] is a failure. *)
Definition k_create (answer : option Z) (k : Kernel) : Kernel :=
  match answer with None => k | Some fd => k <| k_open ::= λ s, {[fd]} ∪ s |> end.

(** POSIX: a created descriptor is non-negative and was not open. *)
Definition fresh_answer (answer : option Z) (k : Kernel) : Prop :=
  ∀ fd, answer = Some fd → 0 ≤ fd ∧ fd ∉ k_open k.

Lemma k_close_open fd k :
  fd ∈ k_open k → k_close fd k = k <| k_open ::= λ s, s ∖ {[fd]} |>.
Proof. intros. unfold k_close. by rewrite bool_decide_eq_true_2. Qed.

(** Creating a descriptor and closing it again leaves the kernel as it was. *)
Lemma k_create_close fd k :
  fd ∉ k_open k → k_close fd (k_create (Some fd) k) = k.
Proof.
  intros Hf. rewrite k_close_open by (cbn; set_solver). destruct k as [s b]. cbn in *. f_equal.
  set_solver.
Qed.

(** ** [OwnedFd] *)

Definition fd_valid (fd : Z) : bool := 0 <=? fd.

Definition fd_reset (fd : Z) (k : Kernel) : Z * Kernel :=
  if fd_valid fd then (-1, k_close fd k) else (fd, k).

Definition fd_reset_to (new_fd fd : Z) (k : Kernel) : Z * Kernel :=
  let '(_, k) := fd_reset fd k in (new_fd, k).

Definition fd_release (fd : Z) : Z * Z := (-1, fd).

(** The handle owns what it names. *)
Definition owns (fd : Z) (k : Kernel) : Prop := fd_valid fd = true → fd ∈ k_open k.

(** ** [EventFd] and [SignalFd]: the write and drain loops *)

(** What one [read] or [write] answered: all the bytes, a short count, or errno. *)
Inductive IoAnswer := Full (value : Z) | Short | Errno (e : Z).

(** [EventFd::signal_stop]: answers of the successive writes; the loop ends at the
    first answer that is not [EINTR].  [None]: the answers end in interrupts. *)
Fixpoint signal_stop_loop (answers : list IoAnswer) : option (Result ()) :=
  match answers with
  | [] => None
  | Full _ :: _ => Some (Ok ())
  | Short :: _ => Some (fail_with Errc.IoError "short eventfd write")
  | Errno e :: rest =>
      if e =? EINTR then signal_stop_loop rest
      else if e =? EAGAIN then Some (Ok ())
      else Some (fail_with Errc.IoError "eventfd write: ")
  end.

Definition signal_stop (fd : Z) (answers : list IoAnswer) : option (Result ()) :=
  if negb (fd_valid fd) then Some (fail_with Errc.NotOpen "EventFd not open")
  else signal_stop_loop answers.

(** [EventFd::drain]: the 64-bit total of the values read until [EAGAIN]. *)
Fixpoint eventfd_drain_loop (total : Z) (answers : list IoAnswer) : option (Result Z) :=
  match answers with
  | [] => None
  | Full value :: rest => eventfd_drain_loop (u64 (total + value)) rest
  | Short :: _ => Some (fail_with Errc.IoError "short eventfd read")
  | Errno e :: rest =>
      if e =? EINTR then eventfd_drain_loop total rest
      else if e =? EAGAIN then Some (Ok total)
      else Some (fail_with Errc.IoError "eventfd read: ")
  end.

Definition eventfd_drain (fd : Z) (answers : list IoAnswer) : option (Result Z) :=
  if negb (fd_valid fd) then Some (fail_with Errc.NotOpen "EventFd not open")
  else eventfd_drain_loop 0 answers.

(** [SignalFd::drain]: how many signal records were read. *)
Fixpoint signalfd_drain_loop (count : Z) (answers : list IoAnswer) : option (Result Z) :=
  match answers with
  | [] => None
  | Full _ :: rest => signalfd_drain_loop (u32 (count + 1)) rest
  | Short :: _ => Some (fail_with Errc.IoError "short signalfd read")
  | Errno e :: rest =>
      if e =? EINTR then signalfd_drain_loop count rest
      else if e =? EAGAIN then Some (Ok count)
      else Some (fail_with Errc.IoError "signalfd read: ")
  end.

Definition signalfd_drain (fd : Z) (answers : list IoAnswer) : option (Result Z) :=
  if negb (fd_valid fd) then Some (fail_with Errc.NotOpen "SignalFd not open")
  else signalfd_drain_loop 0 answers.

(** *** Signal masks *)

Definition SIGINT : Z := 2.
Definition SIGTERM : Z := 15.

(** The blocked signals of each thread. *)
Notation Masks := (gmap Z (gset Z)).
Definition mask_of (thread : Z) (m : Masks) : gset Z := default ∅ (m !! thread).

Record SignalFd := mkSignalFd {
  sf_fd : Z;
  sf_previous_mask : gset Z;
  sf_owner_thread : Z;
  sf_restore_pending : bool
}.

#[export] Instance SignalFd_eta : Eta SignalFd :=
  mkEta _ (fun s => mkSignalFd (sf_fd s) (sf_previous_mask s) (sf_owner_thread s) (sf_restore_pending s)).

(** [block_and_open_shutdown_signals] on thread [self]: the answers of the two mask
    calls and of [signalfd].  A failing mask call changes nothing. *)
Definition block_and_open_shutdown_signals (self mask_rc : Z) (answer : option Z) (restore_rc : Z)
    (w : Masks * Kernel) : (Masks * Kernel) * Result SignalFd :=
  let '(masks, k) := w in
  if negb (mask_rc =? 0) then (w, fail_with Errc.IoError "pthread_sigmask(SIG_BLOCK): ")
  else
    let previous := mask_of self masks in
    let masks := <[self := {[SIGINT; SIGTERM]} ∪ previous]> masks in
    match answer with
    | None =>
        if negb (restore_rc =? 0) then
          ((masks, k), fail_with Errc.IoError "signalfd failed and restoring signal mask: ")
        else ((<[self := previous]> masks, k), fail_with Errc.IoError "signalfd: ")
    | Some fd => ((masks, k_create answer k), Ok (mkSignalFd fd previous self true))
    end.

Definition signalfd_reset (self : Z) (restore_rc : Z) (s : SignalFd) (w : Masks * Kernel)
    : SignalFd * (Masks * Kernel) :=
  let '(masks, k) := w in
  let '(fd, k) := fd_reset (sf_fd s) k in
  let masks := if sf_restore_pending s && (self =? sf_owner_thread s) && (restore_rc =? 0)
               then <[self := sf_previous_mask s]> masks else masks in
  (s <| sf_fd := fd |> <| sf_restore_pending := false |>, (masks, k)).

Definition close_and_restore (self : Z) (restore_rc : Z) (s : SignalFd) (w : Masks * Kernel)
    : (SignalFd * (Masks * Kernel)) * Result () :=
  let '(masks, k) := w in
  let '(fd, k) := fd_reset (sf_fd s) k in
  let s := s <| sf_fd := fd |> in
  if negb (sf_restore_pending s) then ((s, (masks, k)), Ok ())
  else if negb (self =? sf_owner_thread s) then
    ((s, (masks, k)),
     fail_with Errc.Rejected "SignalFd must restore its mask on the creating thread")
  else if negb (restore_rc =? 0) then
    ((s, (masks, k)), fail_with Errc.IoError "pthread_sigmask(SIG_SETMASK): ")
  else ((s <| sf_restore_pending := false |>, (<[self := sf_previous_mask s]> masks, k)), Ok ()).

(** ** [EpollReactor]: the interest list *)

Record EpollReactor := mkEpoll { ep_fd : Z; ep_interest : list (Z * Z) }.

#[export] Instance EpollReactor_eta : Eta EpollReactor :=
  mkEta _ (fun e => mkEpoll (ep_fd e) (ep_interest e)).

Definition ep_valid (e : EpollReactor) : bool := 0 <=? ep_fd e.

Inductive EpollOp := EPOLL_CTL_ADD | EPOLL_CTL_MOD | EPOLL_CTL_DEL.

Definition EPOLLIN : Z := 1.
Definition EPOLLERR : Z := 8.
Definition EPOLLHUP : Z := 16.

(** What a successful [epoll_ctl] does to the interest list. *)
Definition epoll_ctl (op : EpollOp) (fd events : Z) (l : list (Z * Z)) : list (Z * Z) :=
  let others := filter (λ p, p.1 ≠ fd) l in
  match op with
  | EPOLL_CTL_ADD => l ++ [(fd, events)]
  | EPOLL_CTL_MOD => others ++ [(fd, events)]
  | EPOLL_CTL_DEL => others
  end.

(** [control]; [ok] is the answer of [epoll_ctl]. *)
Definition ep_control (op : EpollOp) (fd events : Z) (ok : bool) (e : EpollReactor)
    : EpollReactor * Result () :=
  if negb (ep_valid e) then (e, fail_with Errc.NotOpen "epoll instance is not open")
  else if fd <? 0 then (e, fail_with Errc.InvalidArgument "monitored fd must be non-negative")
  else if negb ok then (e, fail_with Errc.IoError "epoll_ctl: ")
  else (e <| ep_interest ::= epoll_ctl op fd events |>, Ok ()).

Definition ep_add (fd events : Z) (ok : bool) := ep_control EPOLL_CTL_ADD fd events ok.
Definition ep_modify (fd events : Z) (ok : bool) := ep_control EPOLL_CTL_MOD fd events ok.
Definition ep_remove (fd : Z) (ok : bool) := ep_control EPOLL_CTL_DEL fd 0 ok.

Definition INT_MAX : Z := 2147483647.

(** [wait]: the kernel's successive answers, interrupts retried. *)
Fixpoint ep_wait_loop (answers : list (Z + list (Z * Z))) : option (Result (list (Z * Z))) :=
  match answers with
  | [] => None
  | inl e :: rest => if e =? EINTR then ep_wait_loop rest
                     else Some (fail_with Errc.IoError "epoll_wait: ")
  | inr ready :: _ => Some (Ok ready)
  end.

Definition ep_wait (timeout max_events : Z) (answers : list (Z + list (Z * Z))) (e : EpollReactor)
    : option (Result (list (Z * Z))) :=
  if negb (ep_valid e) then Some (fail_with Errc.NotOpen "epoll instance is not open")
  else if (max_events =? 0) || (INT_MAX <? max_events) then
    Some (fail_with Errc.InvalidArgument "max_events is outside epoll_wait range")
  else if timeout <? -1 then
    Some (fail_with Errc.InvalidArgument "epoll timeout must be -1 or non-negative")
  else if INT_MAX <? timeout then
    Some (fail_with Errc.InvalidArgument "epoll timeout is too large")
  else ep_wait_loop answers.

(** ** SocketCAN *)

(** [memcpy] of the first [len] bytes into a zeroed 8-byte payload. *)
Definition copy_payload (len : Z) (data : list Z) : list Z :=
  let n := Z.to_nat len in take n data ++ replicate (8 - n) 0.

Definition clamp_dlc (len : Z) : Z := if 8 <? len then 8 else len.

(** [can_frame] of the kernel has the same three fields. *)
Definition to_kernel_frame (frame : CanFrame) : CanFrame :=
  let dlc := clamp_dlc (can_len frame) in
  mkCanFrame (can_id frame) dlc (copy_payload dlc (can_data frame)).

Definition from_kernel_frame (frame : CanFrame) : CanFrame :=
  let len := clamp_dlc (can_len frame) in
  mkCanFrame (can_id frame) len (copy_payload len (can_data frame)).

Record SocketCan := mkSocketCan { sc_ifname : string; sc_fd : Z }.

#[export] Instance SocketCan_eta : Eta SocketCan :=
  mkEta _ (fun s => mkSocketCan (sc_ifname s) (sc_fd s)).

Definition sc_new (ifname : string) : SocketCan := mkSocketCan ifname (-1).
Definition sc_is_open (s : SocketCan) : bool := 0 <=? sc_fd s.
Arguments sc_is_open : simpl never.

(** The answers of [socket], [ioctl(SIOCGIFINDEX)] and [bind]. *)
Record OpenEnv := mkOpenEnv { oe_socket : option Z; oe_ioctl : bool; oe_bind : bool }.

Definition sc_open (env : OpenEnv) (s : SocketCan) (k : Kernel) : (SocketCan * Kernel) * Result () :=
  if (sc_ifname s ==? "") then ((s, k), fail_with Errc.InvalidArgument "empty CAN interface name")
  else if sc_is_open s then ((s, k), Ok ())
  else
    let k := k_create (oe_socket env) k in
    match oe_socket env with
    | None => ((s, k), fail_with Errc.IoError "socket(PF_CAN): ")
    | Some fd =>
        if negb (oe_ioctl env) then ((s, k_close fd k), fail_with Errc.IoError "ioctl(SIOCGIFINDEX): ")
        else if negb (oe_bind env) then ((s, k_close fd k), fail_with Errc.IoError "bind: ")
        else ((s <| sc_fd := fd |>, k), Ok ())
    end.

Definition sc_close (s : SocketCan) (k : Kernel) : SocketCan * Kernel :=
  if 0 <=? sc_fd s then (s <| sc_fd := -1 |>, k_close (sc_fd s) k) else (s, k).

(** Move assignment from [other]. *)
Definition sc_move_assign (s other : SocketCan) (k : Kernel) : (SocketCan * SocketCan) * Kernel :=
  let '(_, k) := sc_close s k in
  ((mkSocketCan (sc_ifname other) (sc_fd other), other <| sc_fd := -1 |>), k).

(** [set_nonblocking]: the answers of the two [fcntl] calls. *)
Definition sc_set_nonblocking (getfl setfl : bool) (s : SocketCan) : Result () :=
  if negb (sc_is_open s) then fail_with Errc.NotOpen "SocketCan not open"
  else if negb getfl then fail_with Errc.IoError "fcntl(F_GETFL): "
  else if negb setfl then fail_with Errc.IoError "fcntl(F_SETFL): "
  else Ok ().

(** [send]: the frame handed to [write], if it comes to that, and its answer. *)
Definition sc_send (frame : CanFrame) (answer : IoAnswer) (s : SocketCan)
    : option CanFrame * Result () :=
  if negb (sc_is_open s) then (None, fail_with Errc.NotOpen "SocketCan not open")
  else if 8 <? can_len frame then (None, fail_with Errc.InvalidArgument "CAN frame length > 8")
  else
    (Some (to_kernel_frame frame),
     match answer with
     | Errno e => if e =? EAGAIN then fail_with Errc.WouldBlock "send would block"
                  else fail_with Errc.IoError "write: "
     | Short => fail_with Errc.IoError "short CAN write"
     | Full _ => Ok ()
     end).

(** What the kernel answers a [receive]: the [select] outcome (negative: failure,
    zero: timeout) and the [read]. *)
Inductive ReadAnswer := ReadFrame (f : CanFrame) | ReadShort | ReadErrno (e : Z).

Definition sc_receive (timeout select_rc : Z) (answer : ReadAnswer) (s : SocketCan)
    : Result CanFrame :=
  if negb (sc_is_open s) then fail_with Errc.NotOpen "SocketCan not open"
  else if (0 <=? timeout) && (select_rc <? 0) then fail_with Errc.IoError "select: "
  else if (0 <=? timeout) && (select_rc =? 0) then fail_with Errc.Timeout "receive timeout"
  else
    match answer with
    | ReadErrno e => if e =? EAGAIN then fail_with Errc.WouldBlock "receive would block"
                     else fail_with Errc.IoError "read: "
    | ReadShort => fail_with Errc.IoError "short CAN read"
    | ReadFrame f => Ok (from_kernel_frame f)
    end.

(** ** The in-memory bus *)

Record FakeCanBus := mkFakeCanBus { fb_open : bool; fb_queue : list CanFrame }.

#[export] Instance FakeCanBus_eta : Eta FakeCanBus :=
  mkEta _ (fun b => mkFakeCanBus (fb_open b) (fb_queue b)).

Definition fake_open (b : FakeCanBus) : FakeCanBus * Result () := (b <| fb_open := true |>, Ok ()).
Definition fake_close (b : FakeCanBus) : FakeCanBus := b <| fb_open := false |> <| fb_queue := [] |>.

Definition fake_send (frame : CanFrame) (b : FakeCanBus) : FakeCanBus * Result () :=
  if negb (fb_open b) then (b, fail_with Errc.NotOpen "FakeCanBus not open")
  else if 8 <? can_len frame then (b, fail_with Errc.InvalidArgument "CAN frame length > 8")
  else (b <| fb_queue ::= λ q, q ++ [frame] |>, Ok ()).

Definition fake_receive (b : FakeCanBus) : FakeCanBus * Result CanFrame :=
  if negb (fb_open b) then (b, fail_with Errc.NotOpen "FakeCanBus not open")
  else match fb_queue b with
       | [] => (b, fail_with Errc.Timeout "FakeCanBus queue empty")
       | frame :: rest => (b <| fb_queue := rest |>, Ok frame)
       end.

(** ** Interface names *)

Definition is_alnum (c : Ascii.ascii) : bool :=
  let n := Z.of_nat (Ascii.nat_of_ascii c) in
  ((48 <=? n) && (n <=? 57)) || ((65 <=? n) && (n <=? 90)) || ((97 <=? n) && (n <=? 122)).

Definition is_valid_ifname (name : string) : bool :=
  negb (name ==? "") && Nat.leb (String.length name) 15 &&
  forallb (λ c, is_alnum c || (Z.of_nat (Ascii.nat_of_ascii c) =? 95)) (String.list_ascii_of_string name).

Module CanInterfaceStatus.
Inductive CanInterfaceStatus := Available | Missing | NotCan | InvalidName.
End CanInterfaceStatus.
Notation CanInterfaceStatus := CanInterfaceStatus.CanInterfaceStatus.

Definition kArphrdCan : Z := 280.

(** [probe_can_interface]: whether the sysfs directory exists and what its [type]
    file holds ([None]: unreadable). *)
Definition probe_can_interface (exists_dir : bool) (type_value : option Z) (name : string)
    : CanInterfaceStatus :=
  if negb (is_valid_ifname name) then CanInterfaceStatus.InvalidName
  else if negb exists_dir then CanInterfaceStatus.Missing
  else match type_value with
       | None => CanInterfaceStatus.NotCan
       | Some v => if negb (v =? kArphrdCan) then CanInterfaceStatus.NotCan
                   else CanInterfaceStatus.Available
       end.

(** ** Properties *)

Lemma clamp_dlc_small len : 0 ≤ len ≤ 8 → clamp_dlc len = len.
Proof. intros. unfold clamp_dlc. by rewrite (proj2 (Z.ltb_ge _ _)) by lia. Qed.

Lemma copy_payload_length len data :
  0 ≤ len ≤ 8 → length data = 8%nat → length (copy_payload len data) = 8%nat.
Proof. intros. unfold copy_payload. rewrite length_app, length_take, length_replicate. lia. Qed.

Lemma copy_payload_idem len data :
  0 ≤ len → copy_payload len (copy_payload len data) = copy_payload len data ∨ (length data < Z.to_nat len)%nat.
Proof.
  intros. unfold copy_payload. destruct (decide (length data < Z.to_nat len)%nat); [by right|left].
  rewrite take_app_length' by (rewrite length_take; lia). done.
Qed.

(** What travels over the socket keeps its identifier, flags, length and payload
    bytes; bytes beyond the length become zero. *)
Lemma kernel_frame_round_trip f :
  0 ≤ can_len f ≤ 8 → length (can_data f) = 8%nat →
  from_kernel_frame (to_kernel_frame f) =
    mkCanFrame (can_id f) (can_len f) (copy_payload (can_len f) (can_data f)).
Proof.
  intros Hl Hd. unfold from_kernel_frame, to_kernel_frame. cbn.
  rewrite !(clamp_dlc_small (can_len f)) by lia. f_equal.
  destruct (copy_payload_idem (can_len f) (can_data f)); [lia|done|lia].
Qed.

(** *** Descriptor ownership *)

Inductive sc_op := ScOpen (env : OpenEnv) | ScClose.

(** One operation on a socket, the kernel answering with fresh descriptors. *)
Inductive sc_step : SocketCan * Kernel → sc_op → SocketCan * Kernel → Prop :=
  | step_open env s k :
      fresh_answer (oe_socket env) k →
      sc_step (s, k) (ScOpen env) (fst (sc_open env s k))
  | step_close s k : sc_step (s, k) ScClose (sc_close s k).

(** The kernel holds the descriptors [base] of others and this socket's own. *)
Definition sc_accounted (base : gset Z) (w : SocketCan * Kernel) : Prop :=
  k_bad_close (snd w) = false ∧
  (if sc_is_open (fst w) then sc_fd (fst w) ∉ base ∧ k_open (snd w) = {[sc_fd (fst w)]} ∪ base
   else k_open (snd w) = base).

Lemma sc_open_accounted base env s k :
  fresh_answer (oe_socket env) k → sc_accounted base (s, k) →
  sc_accounted base (fst (sc_open env s k)).
Proof.
  intros Hf [Hb Ho]. cbn in Hb, Ho. unfold sc_open. destruct (_ ==? _); [done|].
  destruct (sc_is_open s) eqn:Hs; [by split; cbn; rewrite ?Hs|].
  destruct (oe_socket env) as [fd|]; [|by split; cbn; rewrite ?Hs].
  destruct (Hf fd eq_refl) as [Hpos Hfresh].
  destruct (oe_ioctl env); cbn [negb];
    [destruct (oe_bind env); cbn [negb]|];
    [|rewrite (k_create_close fd k Hfresh); by split; cbn; rewrite ?Hs..].
  split; [done|]. cbn. unfold sc_is_open. cbn. rewrite (proj2 (Z.leb_le _ _)) by done.
  by rewrite <- Ho.
Qed.

Lemma sc_close_accounted base s k :
  sc_accounted base (s, k) → sc_accounted base (sc_close s k).
Proof.
  intros [Hb Ho]. unfold sc_close. cbn in *. unfold sc_is_open in *.
  destruct (0 <=? sc_fd s) eqn:Hs; [|by split; [|cbn; unfold sc_is_open; rewrite Hs]].
  destruct Ho as [Hn Ho]. rewrite k_close_open by set_solver.
  split; [done|]. cbn. set_solver.
Qed.

(** A socket never leaks or double-closes a descriptor: after any sequence of
    opens (each failing at any of its three system calls, or not) and closes, the
    kernel holds exactly the descriptors it held before plus the socket's own while it
    is open, and no close ever hit a descriptor that was not open. *)
Theorem socketcan_no_leak name base ops s k :
  run sc_step (sc_new name, mkKernel base false) ops (s, k) →
  k_bad_close k = false ∧
  k_open k = if sc_is_open s then {[sc_fd s]} ∪ base else base.
Proof.
  intros Hr. assert (Ha : sc_accounted base (s, k)).
  { refine (run_invariant sc_step (sc_accounted base) _ _ _ _ _ Hr); [|done].
    intros w o w' Hw Hstep. destruct Hstep; [by apply sc_open_accounted|by apply sc_close_accounted]. }
  destruct Ha as [Hb Ho]. cbn in *. split; [done|]. by destruct (sc_is_open s); [destruct Ho|].
Qed.

Lemma socketcan_no_leak_witness :
  let w := sc_close (fst (fst (sc_open (mkOpenEnv (Some 5) true true) (sc_new "vcan0") (mkKernel ∅ false))))
             (snd (fst (sc_open (mkOpenEnv (Some 5) true true) (sc_new "vcan0") (mkKernel ∅ false)))) in
  k_bad_close (snd w) = false ∧ k_open (snd w) = ∅.
Proof.
  intros w.
  pose proof (socketcan_no_leak "vcan0" ∅ [ScOpen (mkOpenEnv (Some 5) true true); ScClose] (fst w) (snd w)) as H.
  apply H. econstructor.
  - apply step_open. intros fd [= <-]. cbn. split; [lia|set_solver].
  - econstructor; [apply step_close|]. constructor.
Defined.
