(* ===== verification/CanIo.v ===== *)
(** * The CAN I/O loop

    [CanIoLoop] of include/rcr/can_io_loop.hpp and src/linux/can_io_loop.cpp: the
    thread that owns the CAN socket and the epoll set, turns received frames into
    queue events and pumps output commands to the bus.  One turn of the loop is a
    function of what the kernel and the clock answered; where another thread may act
    on the runtime between two of the turn's critical sections, the calls it made are
    an argument. *)

From stdpp Require Import gmap.
From S2P Require Import Prelude Types StateMachine Mailbox Watchdog Ring Trace CanV1 InputQueue.
From S2P Require Import Scheduler Runtime RuntimeInv RuntimeSafety LinuxIo.
Local Open Scope Z_scope.

Module IoStopReason.
Inductive IoStopReason := None | EventFd | Signal | IoError | SendFailure.
End IoStopReason.
Notation IoStopReason := IoStopReason.IoStopReason.

#[export] Instance IoStopReason_eq_dec : EqDecision IoStopReason.
Proof. solve_decision. Defined.

Definition io_stop_reason_to_string (r : IoStopReason) : string :=
  match r with
  | IoStopReason.None => "NONE"
  | IoStopReason.EventFd => "EVENTFD"
  | IoStopReason.Signal => "SIGNAL"
  | IoStopReason.IoError => "IO_ERROR"
  | IoStopReason.SendFailure => "SEND_FAILURE"
  end.

Record CanIoConfig := mkCanIoConfig {
  ic_can_if : string;
  ic_node_id : Z;
  ic_max_frames_per_wake : nat;
  ic_cpu_affinity : Z
}.

Record CanIoLoop := mkCanIoLoop {
  io_config : CanIoConfig;
  io_reactor : EpollReactor;
  io_bus : SocketCan;
  io_joinable : bool;
  io_running : bool;
  io_stop_requested : bool;
  io_startup_done : bool;
  io_startup_error : option Error;
  io_stop_reason : IoStopReason;
  io_frames_received : Z;
  io_frames_sent : Z;
  io_decode_rejects : Z;
  io_queue_rejects : Z;
  io_send_would_block_retries : Z;
  io_wakeups : Z;
  io_last_errno : Z;
  io_pending_output : option OutputCommand
}.

#[export] Instance CanIoLoop_eta : Eta CanIoLoop :=
  mkEta _ (fun l => mkCanIoLoop (io_config l) (io_reactor l) (io_bus l) (io_joinable l)
    (io_running l) (io_stop_requested l) (io_startup_done l) (io_startup_error l)
    (io_stop_reason l) (io_frames_received l) (io_frames_sent l) (io_decode_rejects l)
    (io_queue_rejects l) (io_send_would_block_retries l) (io_wakeups l) (io_last_errno l)
    (io_pending_output l)).

Definition io_new (config : CanIoConfig) (epoll_fd : Z) : CanIoLoop :=
  mkCanIoLoop config (mkEpoll epoll_fd []) (sc_new (ic_can_if config)) false false false false
    None IoStopReason.None 0 0 0 0 0 0 0 None.

(** ** Commands on the wire *)

(** [((sequence - 1) % 0xFFFF) + 1] on 64 bits, cast to 16: 1..65535, skipping 0. *)
Definition wire_sequence (sequence : Z) : Z := u16 (u64 (sequence - 1) mod 0xFFFF + 1).

Definition to_wire_command (cmd : OutputCommand) (node_id now_ns : Z) : Result WireOutputCommand :=
  if (cmd_session_id cmd =? 0) || (0xFFFF <? cmd_session_id cmd) || (cmd_sequence cmd =? 0) ||
     (Z.land (cmd_mask cmd) 0xFF =? 0) then
    fail_with Errc.Rejected "output command fields exceed CAN V1 wire width"
  else
    let? validity := validity_10ms_from_deadline now_ns (cmd_deadline_ns cmd) in
    Ok {| oc_node_id := node_id;
          oc_mask := u8 (Z.land (cmd_mask cmd) 0xFF);
          oc_session_id := u16 (cmd_session_id cmd);
          oc_sequence := wire_sequence (cmd_sequence cmd);
          oc_values := u8 (Z.land (cmd_values cmd) 0xFF);
          oc_validity_10ms := validity |}.

(** ** Events *)

(** The loop, the queue it fills and the runtime it serves. *)
Record IoState := mkIoState { st_io : CanIoLoop; st_queue : BoundedInputQueue; st_rt : LinuxRuntime }.

#[export] Instance IoState_eta : Eta IoState :=
  mkEta _ (fun s => mkIoState (st_io s) (st_queue s) (st_rt s)).

Definition push_event (event : RuntimeInputEvent) (s : IoState) : IoState :=
  let '(q, ok) := try_push event (st_queue s) in
  let s := s <| st_queue := q |> in
  if ok then s else s <| st_io ::= λ l, l <| io_queue_rejects ::= incr64 |> |>.

Definition stop_with (reason : IoStopReason) (s : IoState) : IoState :=
  s <| st_io ::= λ l, l <| io_stop_reason := reason |> <| io_stop_requested := true |> |>.

Definition node_event (kind : RuntimeInputKind) (now_ns : Z) (s : IoState) : RuntimeInputEvent :=
  default_event <| ev_kind := kind |> <| ev_node_id := ic_node_id (io_config (st_io s)) |>
                <| ev_monotonic_ns := now_ns |>.

(** [RuntimeInputEvent] of a decoded message; a command echo yields none. *)
Definition event_of_message (m : DecodedMessage) (event : RuntimeInputEvent)
    : option RuntimeInputEvent :=
  match m with
  | MsgHeartbeat h =>
      Some (event <| ev_kind := RuntimeInputKind.Heartbeat |> <| ev_node_id := hb_node_id h |>
                  <| ev_boot_id := hb_boot_id h |> <| ev_session_id := hb_session_id h |>
                  <| ev_hb_seq := hb_seq h |>)
  | MsgStatus st =>
      Some (event <| ev_kind := RuntimeInputKind.NodeStatus |> <| ev_node_id := ns_node_id st |>
                  <| ev_session_id := ns_session_id st |>
                  <| ev_interlock_ready := ns_interlock_ready st |>
                  <| ev_input_bits := ns_input_bits st |>
                  <| ev_node_fault_code := ns_fault_code st |>)
  | MsgOutputStatus os =>
      Some (event <| ev_kind := RuntimeInputKind.OutputStatus |> <| ev_node_id := os_node_id os |>
                  <| ev_session_id := os_session_id os |> <| ev_output_result := os_result os |>
                  <| ev_output_sequence := os_sequence os |>
                  <| ev_output_mirror := os_output_mirror os |>)
  | MsgOutputCommand _ => None
  end.

(** ** Stop requests *)

(** [request_stop], from any thread; a reason already stored is kept.  The write to the
    stop eventfd ([signal_stop], its result discarded) changes only the kernel's
    counter: it shows in what a later wait reports, which is an input of the turn. *)
Definition request_stop (l : CanIoLoop) : CanIoLoop :=
  let l := l <| io_stop_requested := true |> in
  if io_stop_reason l ==? IoStopReason.None then l <| io_stop_reason := IoStopReason.EventFd |> else l.

Definition io_join (l : CanIoLoop) : CanIoLoop :=
  l <| io_joinable := false |> <| io_running := false |>.

(** The two handlers also drain their descriptor and discard the result
    ([eventfd_drain], [signalfd_drain]); that too only shows in later waits. *)
Definition handle_stop_event (s : IoState) : IoState := stop_with IoStopReason.EventFd s.
Definition handle_signal (s : IoState) : IoState := stop_with IoStopReason.Signal s.

(** ** Receiving *)

(** One pass of the receive loop: whether another thread requested a stop before
    it, how many events the supervisor popped meanwhile, and what the kernel and the
    clock answered. *)
Record ReceiveEnv := mkReceiveEnv {
  re_stop : bool;
  re_pops : nat;
  re_answer : ReadAnswer;
  re_errno : Z;
  re_now : Result Z
}.

Definition io_interfere (stop : bool) (pops : nat) (s : IoState) : IoState :=
  let s := s <| st_queue ::= Nat.iter pops (λ q, fst (try_pop q)) |> in
  if stop then s <| st_io ::= request_stop |> else s.

(** A received frame. *)
Definition handle_frame (frame : CanFrame) (now_ns : Z) (s : IoState) : IoState :=
  match decode frame with
  | Err _ =>
      let s := s <| st_io ::= λ l, l <| io_decode_rejects ::= incr64 |> |> in
      push_event (node_event RuntimeInputKind.ProtocolReject now_ns s) s
  | Ok m =>
      match event_of_message m (node_event RuntimeInputKind.Heartbeat now_ns s) with
      | Some event => push_event event s
      | None => s
      end
  end.

(** [handle_can_ready]; with no answer left the kernel has nothing to read. *)
Fixpoint handle_can_ready (budget : nat) (envs : list ReceiveEnv) (s : IoState) : IoState :=
  match budget, envs with
  | S budget', env :: envs' =>
      let s := io_interfere (re_stop env) (re_pops env) s in
      if io_stop_requested (st_io s) then s
      else
        match sc_receive (-1) 0 (re_answer env) (io_bus (st_io s)) with
        | Err e =>
            if err_code e ==? Errc.WouldBlock then s
            else
              let s := s <| st_io ::= λ l, l <| io_last_errno := re_errno env |> |> in
              stop_with IoStopReason.IoError
                (push_event (node_event RuntimeInputKind.IoError (value_or 0 (re_now env)) s) s)
        | Ok frame =>
            let s := s <| st_io ::= λ l, l <| io_frames_received ::= incr64 |> |> in
            handle_can_ready budget' envs' (handle_frame frame (value_or 0 (re_now env)) s)
        end
  | _, _ => s
  end.

(** ** Sending *)

(** Clock samples and kernel answers of one pump, with the calls other threads made
    on the runtime after the consume and after the send. *)
Record PumpEnv := mkPumpEnv {
  pe_consume_now : Result Z;
  pe_calls_before_check : list rt_call;
  pe_sendable_now : Result Z;
  pe_now : Result Z;
  pe_write : IoAnswer;
  pe_errno : Z;
  pe_calls_before_note : list rt_call
}.

Definition set_pending (p : option OutputCommand) (s : IoState) : IoState :=
  s <| st_io ::= λ l, l <| io_pending_output := p |> |>.

(** The end of [pump_output]: the encoded frame goes to the bus.  The second
    component is the frame that reached it. *)
Definition pump_send (env : PumpEnv) (wire : WireOutputCommand) (frame : CanFrame) (now_ns : Z)
    (s : IoState) : IoState * option CanFrame :=
  match sc_send frame (pe_write env) (io_bus (st_io s)) with
  | (_, Err e) =>
      if err_code e ==? Errc.WouldBlock then
        (s <| st_io ::= λ l, l <| io_send_would_block_retries ::= incr64 |> |>, None)
      else
        let s := s <| st_io ::= λ l, l <| io_last_errno := pe_errno env |> |> in
        let s := push_event (node_event RuntimeInputKind.IoError now_ns s) s in
        (set_pending None (stop_with IoStopReason.SendFailure s), None)
  | (_, Ok _) =>
      let s := s <| st_io ::= λ l, l <| io_frames_sent ::= incr64 |> |>
                 <| st_rt ::= λ rt, rt_exec rt (pe_calls_before_note env) |> in
      let '(rt, tracked) := rt_note_output_command_sent (oc_session_id wire) (oc_sequence wire)
                              now_ns (st_rt s) in
      let s := s <| st_rt := rt |> in
      let s := if res_ok tracked then s
               else stop_with IoStopReason.SendFailure
                      (push_event (node_event RuntimeInputKind.IoError now_ns s) s) in
      (set_pending None s, Some frame)
  end.

Definition pump_output (env : PumpEnv) (s : IoState) : IoState * option CanFrame :=
  let '(rt, latest) := rt_try_consume_output_command (pe_consume_now env) (st_rt s) in
  let s := s <| st_rt := rt |> in
  let s := if latest is Some c then set_pending (Some c) s else s in
  match io_pending_output (st_io s) with
  | None => (s, None)
  | Some command =>
      let s := s <| st_rt ::= λ rt, rt_exec rt (pe_calls_before_check env) |> in
      if negb (rt_output_command_sendable (pe_sendable_now env) command (st_rt s)) then
        (set_pending None s, None)
      else
        match pe_now env with
        | Err _ => (set_pending None s, None)
        | Ok now_ns =>
            let reject s :=
              (set_pending None
                 (push_event (node_event RuntimeInputKind.ProtocolReject now_ns s) s), None) in
            match to_wire_command command (ic_node_id (io_config (st_io s))) now_ns with
            | Err _ => reject s
            | Ok wire =>
                match encode_output_command wire with
                | Err _ => reject s
                | Ok frame => pump_send env wire frame now_ns s
                end
            end
        end
  end.

(** ** One turn of the loop *)

Record TurnEnv := mkTurnEnv {
  te_stop : bool;
  te_wait : Result (list (Z * Z));
  te_errno : Z;
  te_now : Result Z;
  te_receive : list ReceiveEnv;
  te_calls : list rt_call;
  te_stop_late : bool;
  te_pump : PumpEnv
}.

Definition is_fd (fd : Z) (item : Z * Z) : bool := fst item =? fd.

Section Loop.
(** The stop eventfd and the signalfd, owned by the daemon. *)
Context (stop_fd signal_fd : Z).

Definition classify_ready (bus_fd : Z) (ready : list (Z * Z)) : bool * bool * bool * bool :=
  let saw_stop := existsb (is_fd stop_fd) ready in
  let saw_signal := existsb (λ i, negb (is_fd stop_fd i) && is_fd signal_fd i) ready in
  let on_can i := negb (is_fd stop_fd i) && negb (is_fd signal_fd i) && is_fd bus_fd i in
  let saw_can := existsb on_can ready in
  let can_error :=
    existsb (λ i, on_can i && negb (Z.land (snd i) (Z.lor EPOLLERR EPOLLHUP) =? 0)) ready in
  (saw_stop, saw_signal, saw_can, can_error).

(** The body of the loop after a successful wait.  [te_calls] are what other
    threads did to the runtime during the wait. *)
Definition io_turn (env : TurnEnv) (ready : list (Z * Z)) (s : IoState)
    : IoState * option CanFrame :=
  let s := s <| st_io ::= λ l, l <| io_wakeups ::= incr64 |> |>
             <| st_rt ::= λ rt, rt_exec rt (te_calls env) |> in
  let '(saw_stop, saw_signal, saw_can, can_error) := classify_ready (sc_fd (io_bus (st_io s))) ready in
  let s := if saw_stop then handle_stop_event s else s in
  let s := if saw_signal then handle_signal s else s in
  let s :=
    if can_error then
      stop_with IoStopReason.IoError
        (push_event (node_event RuntimeInputKind.IoError (value_or 0 (te_now env)) s) s)
    else if saw_can && negb (io_stop_requested (st_io s)) then
      handle_can_ready (ic_max_frames_per_wake (io_config (st_io s))) (te_receive env) s
    else s in
  let s := io_interfere (te_stop_late env) 0 s in
  if negb (io_stop_requested (st_io s)) then pump_output (te_pump env) s else (s, None).

(** The loop of [thread_main]: the turns the thread takes until it stops; the
    frames it put on the bus are collected.  [true]: it left the loop. *)
Fixpoint io_loop (envs : list TurnEnv) (s : IoState) : IoState * list CanFrame * bool :=
  if io_stop_requested (st_io s) then (s, [], true)
  else
    match envs with
    | [] => (s, [], false)
    | env :: envs' =>
        let s := io_interfere (te_stop env) 0 s in
        match te_wait env with
        | Err _ =>
            (s <| st_io ::= λ l, l <| io_last_errno := te_errno env |>
                                   <| io_stop_reason := IoStopReason.IoError |> |>, [], true)
        | Ok ready =>
            let '(s, sent) := io_turn env ready s in
            let '(s, frames, done) := io_loop envs' s in
            (s, option_list sent ++ frames, done)
        end
    end.

(** ** Start and teardown *)

(** [remove] succeeds on a registered descriptor and fails on another. *)
Definition ep_drop (fd : Z) (e : EpollReactor) : EpollReactor :=
  fst (ep_remove fd (bool_decide (fd ∈ map fst (ep_interest e))) e).

Definition close_bus (w : CanIoLoop * Kernel) : CanIoLoop * Kernel :=
  let '(b, k) := sc_close (io_bus (fst w)) (snd w) in (fst w <| io_bus := b |>, k).

Definition teardown_fds (stop_valid signals_valid : bool) (w : CanIoLoop * Kernel)
    : CanIoLoop * Kernel :=
  let '(l, k) := w in
  let l := if sc_is_open (io_bus l) then l <| io_reactor ::= ep_drop (sc_fd (io_bus l)) |> else l in
  let l := if stop_valid then l <| io_reactor ::= ep_drop stop_fd |> else l in
  let l := if signals_valid then l <| io_reactor ::= ep_drop signal_fd |> else l in
  close_bus (l, k).

Record SetupEnv := mkSetupEnv {
  su_stop_valid : bool;
  su_signals_valid : bool;
  su_open : OpenEnv;
  su_getfl : bool;
  su_setfl : bool;
  su_add_bus : bool;
  su_add_stop : bool;
  su_add_signal : bool
}.

Definition setup_locked (env : SetupEnv) (w : CanIoLoop * Kernel)
    : (CanIoLoop * Kernel) * Result () :=
  let '(l, k) := w in
  if negb (ep_valid (io_reactor l)) then (w, fail_with Errc.IoError "epoll reactor invalid")
  else if negb (su_stop_valid env) || negb (su_signals_valid env) then
    (w, fail_with Errc.NotOpen "stop eventfd or signalfd not open")
  else
    let '((b, k), opened) := sc_open (su_open env) (io_bus l) k in
    let l := l <| io_bus := b |> in
    match opened with
    | Err e => ((l, k), Err e)
    | Ok _ =>
      match sc_set_nonblocking (su_getfl env) (su_setfl env) b with
      | Err e => (close_bus (l, k), Err e)
      | Ok _ =>
        match ep_add (sc_fd b) (Z.lor EPOLLIN (Z.lor EPOLLERR EPOLLHUP)) (su_add_bus env)
                (io_reactor l) with
        | (_, Err e) => (close_bus (l, k), Err e)
        | (r, Ok _) =>
          let l := l <| io_reactor := r |> in
          match ep_add stop_fd EPOLLIN (su_add_stop env) (io_reactor l) with
          | (_, Err e) => (close_bus (l <| io_reactor ::= ep_drop (sc_fd b) |>, k), Err e)
          | (r, Ok _) =>
            let l := l <| io_reactor := r |> in
            match ep_add signal_fd EPOLLIN (su_add_signal env) (io_reactor l) with
            | (_, Err e) =>
                (close_bus (l <| io_reactor ::= λ r, ep_drop (sc_fd b) (ep_drop stop_fd r) |>, k),
                 Err e)
            | (r, Ok _) => ((l <| io_reactor := r |>, k), Ok ())
            end
          end
        end
      end
    end.

(** [maybe_set_affinity] with the answer of [pthread_setaffinity_np]. *)
Definition maybe_set_affinity (rc : Z) (l : CanIoLoop) : CanIoLoop * Result () :=
  if ic_cpu_affinity (io_config l) <? 0 then (l, Ok ())
  else if CPU_SETSIZE <=? ic_cpu_affinity (io_config l) then
    (l, fail_with Errc.InvalidArgument "I/O CPU affinity is outside CPU_SETSIZE")
  else if negb (rc =? 0) then
    let code := if rc =? EINVAL then Errc.InvalidArgument
                else if (rc =? EPERM) || (rc =? EACCES) then Errc.Rejected else Errc.IoError in
    (l <| io_last_errno := rc |>, fail_with code "pthread_setaffinity_np(io): ")
  else (l, Ok ()).

(** [thread_main] up to the loop, and after it. *)
Definition thread_enter (stop_valid signals_valid : bool) (affinity_rc : Z)
    (w : CanIoLoop * Kernel) : CanIoLoop * Kernel :=
  let '(l, k) := w in
  let '(l, aff) := maybe_set_affinity affinity_rc l in
  match aff with
  | Err e =>
      teardown_fds stop_valid signals_valid
        (l <| io_startup_error := Some e |> <| io_stop_reason := IoStopReason.IoError |>
           <| io_running := false |> <| io_startup_done := true |>, k)
  | Ok _ => (l <| io_running := true |> <| io_startup_done := true |>, k)
  end.

Definition thread_exit (stop_valid signals_valid : bool) (w : CanIoLoop * Kernel)
    : CanIoLoop * Kernel :=
  let '(l, k) := teardown_fds stop_valid signals_valid w in
  (l <| io_pending_output := None |> <| io_running := false |>, k).

(** [start]: setup, thread creation and the start-up handshake.  [thread] is
    [None] when the thread could not be created, and otherwise the answer of its
    affinity call with [true] when the handshake is seen within its 1000 polls.
    When it is not, the stop request finds the thread before its first turn. *)
Definition io_start (env : SetupEnv) (thread : option (Z * bool)) (w : CanIoLoop * Kernel)
    : (CanIoLoop * Kernel) * Result () :=
  let '(l, k) := w in
  if io_joinable l || io_running l then (w, fail_with Errc.Busy "CanIoLoop already started")
  else
    let l := l <| io_stop_requested := false |> <| io_stop_reason := IoStopReason.None |>
               <| io_startup_done := false |> <| io_startup_error := None |> in
    match setup_locked env (l, k) with
    | (w, Err e) => (w, Err e)
    | (w, Ok _) =>
      match thread with
      | None =>
          (teardown_fds (su_stop_valid env) (su_signals_valid env) w,
           fail_with Errc.IoError "failed to create I/O thread")
      | Some (affinity_rc, in_time) =>
          let '(l, k) := thread_enter (su_stop_valid env) (su_signals_valid env) affinity_rc (fst w <| io_joinable := true |>, snd w) in
          if in_time then
            if negb (io_running l) then
              ((io_join l, k),
               match io_startup_error l with
               | Some e => Err e
               | None => fail_with Errc.IoError "I/O thread failed during startup"
               end)
            else ((l, k), Ok ())
          else
            let l := request_stop l in
            let '(l, k) := if io_running l
                           then thread_exit (su_stop_valid env) (su_signals_valid env) (l, k)
                           else (l, k) in
            ((io_join l, k), fail_with Errc.Timeout "I/O thread startup handshake timed out")
      end
    end.
End Loop.

(** ** Properties of the wire mapping *)

Lemma wire_sequence_eq q :
  0 < q < 2 ^ 64 → wire_sequence q = (q - 1) mod 65535 + 1 ∧ 1 ≤ wire_sequence q ≤ 65535.
Proof.
  intros Hq. unfold wire_sequence. rewrite u64_small by (unfold is_u; lia).
  pose proof (Z.mod_pos_bound (q - 1) 65535 ltac:(lia)).
  rewrite u16_small by (unfold is_u; change (2 ^ 16) with 65536; lia). lia.
Qed.

(** The 64-bit command sequence keeps its order on the 16-bit wire: a command
    accepted up to 32766 sequence numbers after another is newer for the node's
    serial comparison, across the wrap that skips 0; the bound is tight. *)
Theorem wire_order_preserved a b :
  0 < a → a < b → b < 2 ^ 64 → b - a ≤ 32766 →
  seq_newer (wire_sequence b) (wire_sequence a) = true ∧
  seq_newer (wire_sequence a) (wire_sequence b) = false ∧
  seq_newer (wire_sequence (40000 + 32767)) (wire_sequence 40000) = false.
Proof.
  intros Ha Hab Hb Hd.
  destruct (wire_sequence_eq a) as [Ea Ra]; [lia|]. destruct (wire_sequence_eq b) as [Eb Rb]; [lia|].
  assert (Hu : ∀ x, 1 ≤ x ≤ 65535 → is_u 16 x) by (intros; unfold is_u; change (2 ^ 16) with 65536; lia).
  assert (Hdist : wire_sequence b - wire_sequence a = b - a ∨
                  wire_sequence b - wire_sequence a = b - a - 65535).
  { rewrite Ea, Eb. pose proof (Z.div_mod (a - 1) 65535). pose proof (Z.div_mod (b - 1) 65535).
    pose proof (Z.mod_pos_bound (a - 1) 65535). pose proof (Z.mod_pos_bound (b - 1) 65535).
    assert ((b - 1) / 65535 = (a - 1) / 65535 ∨ (b - 1) / 65535 = (a - 1) / 65535 + 1) by nia. lia. }
  set (x := wire_sequence a) in *. set (y := wire_sequence b) in *. clearbody x y.
  assert (Hmod : ∀ d, d = (y - x) → (d mod 65536 = d ∧ 0 < d < 32768) ∨ (d mod 65536 = d + 65536 ∧ d < -32768)).
  { intros d ->. destruct Hdist as [->| ->]; [left|right].
    - rewrite Z.mod_small; lia.
    - split; [|lia]. symmetry. apply Z.mod_unique with (-1); lia. }
  specialize (Hmod _ eq_refl). split_and!.
  - apply seq_newer_iff; [auto..|]. lia.
  - apply not_true_iff_false. rewrite seq_newer_iff by auto. intros [_ Hlt].
    replace (x - y) with (- (y - x)) in Hlt by lia.
    rewrite Z.mod_opp_l_nz in Hlt by lia. lia.
  - vm_compute. reflexivity.
Qed.

Lemma wire_order_preserved_witness :
  seq_newer (wire_sequence 65536) (wire_sequence 65535) = true.
Proof. apply (wire_order_preserved 65535 65536); lia. Defined.

Lemma land_ff_u8 v : Z.land v 0xFF = v mod 256.
Proof. exact (land_ones_mod v 8 ltac:(lia)). Qed.

Lemma to_wire_command_legal cmd node now w :
  command_wf cmd → deadline_in_range now (cmd_deadline_ns cmd) → legal_node node → to_wire_command cmd node now = Ok w →
  message_wf (MsgOutputCommand w) ∧ message_legal (MsgOutputCommand w) ∧
  oc_node_id w = node ∧ oc_session_id w = cmd_session_id cmd ∧
  oc_sequence w = wire_sequence (cmd_sequence cmd) ∧
  oc_mask w = cmd_mask cmd mod 256 ∧ oc_values w = cmd_values cmd mod 256 ∧
  cmd_deadline_ns cmd ≤ deadline_from_validity_10ms now (oc_validity_10ms w)
    < cmd_deadline_ns cmd + kValidityUnitNs.
Proof.
  intros (Hs & Hq & _) Hrange Hn. unfold to_wire_command. destruct (_ || _) eqn:Hg; [done|].
  pose proof (validity_window_cases now (cmd_deadline_ns cmd) Hrange) as Hv.
  destruct (validity_10ms_from_deadline _ _) as [v|]; [|done]. cbn. intros [= <-].
  destruct Hv as (_ & Hv & Hd). bools. unfold kMinValidity10ms, kMaxValidity10ms in Hv.
  destruct (wire_sequence_eq (cmd_sequence cmd)) as [_ Hr]; [width_lia|].
  rewrite !land_ff_u8 in *.
  pose proof (Z.mod_pos_bound (cmd_mask cmd) 256). pose proof (Z.mod_pos_bound (cmd_values cmd) 256).
  assert (Hu8 : ∀ x, u8 (x mod 256) = x mod 256)
    by (intros x; apply u8_small; pose proof (Z.mod_pos_bound x 256); width_lia).
  assert (Hu16 : u16 (cmd_session_id cmd) = cmd_session_id cmd) by (apply u16_small; width_lia).
  unfold output_command_wf, legal_node in *. cbn. rewrite !Hu8, Hu16.
  split_and!; try done; try width_lia.
Qed.

(** Every accepted translation is transmitted faithfully: the wire command is
    always encodable, the frame decodes to exactly it, it carries the command's
    session, sequence image and the low bytes of mask and values, and the deadline
    the node derives is the command's, rounded up by less than 10 ms. *)
Theorem wire_command_faithful cmd node now w :
  command_wf cmd → deadline_in_range now (cmd_deadline_ns cmd) → legal_node node → to_wire_command cmd node now = Ok w →
  ∃ f, encode_output_command w = Ok f ∧ decode f = Ok (MsgOutputCommand w) ∧
    oc_node_id w = node ∧ oc_session_id w = cmd_session_id cmd ∧
    oc_sequence w = wire_sequence (cmd_sequence cmd) ∧
    oc_mask w = cmd_mask cmd mod 256 ∧ oc_values w = cmd_values cmd mod 256 ∧
    cmd_deadline_ns cmd ≤ deadline_from_validity_10ms now (oc_validity_10ms w)
      < cmd_deadline_ns cmd + kValidityUnitNs.
Proof.
  intros Hwf Hrange Hn Hw. destruct (to_wire_command_legal _ _ _ _ Hwf Hrange Hn Hw) as (Hm & Hl & Hrest).
  destruct (encode_legal _ Hl) as [f Hf]. exists f. split; [exact Hf|]. split; [|exact Hrest].
  by apply encode_decode.
Qed.

Lemma wire_command_faithful_witness :
  ∃ f, encode_output_command (mkWireOutputCommand 1 1 7 5 1 2) = Ok f ∧
    decode f = Ok (MsgOutputCommand (mkWireOutputCommand 1 1 7 5 1 2)).
Proof.
  destruct (wire_command_faithful (mkOutputCommand 7 5 20000000 1 1) 1 5
    (mkWireOutputCommand 1 1 7 5 1 2)) as (f & He & Hd & _).
  - unfold command_wf, is_u, is_i64. cbn. lia.
  - unfold deadline_in_range, is_i64, kValidityUnitNs. cbn. lia.
  - unfold legal_node. lia.
  - vm_compute. reflexivity.
  - exists f. split; assumption.
Defined.

(** ** Properties of the pump *)

(** An I/O error event was the last thing pushed, or the queue has latched its loss. *)
Definition io_error_reported (s : IoState) : Prop :=
  q_overflow_latched (st_queue s) = true ∨
  ∃ q e, ev_kind e = RuntimeInputKind.IoError ∧ try_push e q = (st_queue s, true).

Lemma push_error_reported e s :
  ev_kind e = RuntimeInputKind.IoError → io_error_reported (push_event e s).
Proof.
  intros He. unfold io_error_reported, push_event, try_push.
  destruct (Nat.leb _ _) eqn:Hfull; cbn; [by left|]. right. exists (st_queue s), e.
  split; [done|]. unfold try_push. by rewrite Hfull.
Qed.

(** The in-flight command the runtime supervises. *)
Definition tracks (w : WireOutputCommand) (rt : LinuxRuntime) : Prop :=
  rt_output_ack_pending rt = true ∧ rt_last_sent_session rt = oc_session_id w ∧
  rt_last_sent_sequence rt = oc_sequence w.

Lemma note_sent_tracks w t rt rt' :
  rt_note_output_command_sent (oc_session_id w) (oc_sequence w) t rt = (rt', Ok ()) → tracks w rt'.
Proof.
  unfold rt_note_output_command_sent, tracks. destruct (_ || _); [done|]. destruct (_ || _); [done|].
  destruct (rt_output_ack_pending rt); [done|]. by intros [= <-].
Qed.

Lemma pump_send_spec env w frame now s s' f :
  pump_send env w frame now s = (s', Some f) →
  f = frame ∧
  (tracks w (st_rt s') ∨
   (io_stop_requested (st_io s') = true ∧ io_stop_reason (st_io s') = IoStopReason.SendFailure ∧
    io_error_reported s')).
Proof.
  unfold pump_send. destruct (sc_send _ _ _) as [? [[]|e]]; [|by destruct (_ ==? _)].
  cbn [st_rt]. destruct (rt_note_output_command_sent _ _ _ _) as [rt tracked] eqn:Hnote.
  intros [= <- <-]. split; [done|]. destruct tracked as [[]|e]; cbn [res_ok].
  - left. cbn. by apply note_sent_tracks in Hnote.
  - right. split_and!; [done..|]. by apply push_error_reported.
Qed.

(** The state in which the pump judged the command. *)
Definition pump_check_state (env : PumpEnv) (s : IoState) : LinuxRuntime :=
  rt_exec (fst (rt_try_consume_output_command (pe_consume_now env) (st_rt s)))
    (pe_calls_before_check env).

(** C3.  A frame reaches the bus only with permission, and never unsupervised.  When
    a pump puts a frame on the bus, with other threads acting on the runtime in
    between: at its check the runtime was running, [Active] with the interlock ready,
    nothing in flight, the command's session current and its deadline ahead; the frame
    is the encoding of that command; and afterwards either the runtime tracks exactly
    that session and sequence for acknowledgement, or the loop is stopping with
    [SendFailure] and the error is in the queue (or the queue has latched a loss). *)
Theorem pump_sends_with_permission env s s' f :
  pump_output env s = (s', Some f) →
  ∃ cmd w now,
    rt_output_command_sendable (pe_sendable_now env) cmd (pump_check_state env s) = true ∧
    rt_mode (pump_check_state env s) = RuntimeMode.Active ∧
    rt_active_session_id (pump_check_state env s) = Some (cmd_session_id cmd) ∧
    rt_output_ack_pending (pump_check_state env s) = false ∧
    to_wire_command cmd (ic_node_id (io_config (st_io s))) now = Ok w ∧
    encode_output_command w = Ok f ∧
    (tracks w (st_rt s') ∨
     (io_stop_requested (st_io s') = true ∧ io_stop_reason (st_io s') = IoStopReason.SendFailure ∧
      io_error_reported s')).
Proof.
  unfold pump_output, pump_check_state.
  destruct (rt_try_consume_output_command _ _) as [rt latest]. cbn [fst].
  set (s1 := if latest is Some c then _ else _).
  assert (Hcfg : io_config (st_io s1) = io_config (st_io s) ∧ st_rt s1 = rt) by by destruct latest.
  destruct Hcfg as [Hcfg Hrt]. clearbody s1.
  destruct (io_pending_output (st_io s1)) as [cmd|]; [|done].
  cbn. rewrite Hcfg, Hrt. destruct (rt_output_command_sendable _ _ _) eqn:Hsend; [|done]. cbn.
  destruct (pe_now env) as [now|]; [|done]. destruct (to_wire_command _ _ _) as [w|] eqn:Hw; [|done].
  destruct (encode_output_command w) as [frame|] eqn:He; [|done].
  intros Hp. apply pump_send_spec in Hp as [-> Htrack]. exists cmd, w, now.
  pose proof Hsend as Hs. unfold rt_output_command_sendable in Hs.
  destruct (pe_sendable_now env); [|done]. bools.
  destruct (rt_active_session_id _) as [sid|] eqn:Hsid; [|done]. bools. subst.
  split_and!; try done. by apply can_accept_active.
Qed.

(** A loop with its socket open on descriptor 5, for the witnesses. *)
Definition demo_io : CanIoLoop :=
  io_new (mkCanIoConfig "vcan0" 1 32 (-1)) 3 <| io_bus := mkSocketCan "vcan0" 5 |>
    <| io_running := true |> <| io_joinable := true |>.
Definition demo_far_command (q : Z) : OutputCommand := mkOutputCommand 7 q 1000000000 1 1.
Definition demo_state (cs : list rt_call) : IoState := mkIoState demo_io (q_new 8) (demo_rt cs).
Definition demo_pump (now : Z) (write : IoAnswer) : PumpEnv :=
  mkPumpEnv (Ok now) [] (Ok now) (Ok now) write 0 [].

Lemma pump_sends_with_permission_witness :
  let s := demo_state [CPublish (Ok 10) (demo_far_command 5)] in
  rt_mode (pump_check_state (demo_pump 20 (Full 16)) s) = RuntimeMode.Active.
Proof.
  intros s.
  eassert (Hp : pump_output (demo_pump 20 (Full 16)) s = (_, Some _)) by (vm_compute; reflexivity).
  destruct (pump_sends_with_permission _ _ _ _ Hp) as (cmd & w & now & _ & Hm & _). exact Hm.
Defined.

(** *** A retained command outlives its activation *)







(** ** Stopping *)

Lemma stop_with_requested r s : io_stop_requested (st_io (stop_with r s)) = true.
Proof. done. Qed.

Lemma push_event_keeps e s :
  st_rt (push_event e s) = st_rt s ∧
  io_stop_requested (st_io (push_event e s)) = io_stop_requested (st_io s) ∧
  io_frames_received (st_io (push_event e s)) = io_frames_received (st_io s) ∧
  io_frames_sent (st_io (push_event e s)) = io_frames_sent (st_io s).
Proof. unfold push_event. destruct (try_push _ _) as [q []]; done. Qed.

(** What a turn leaves alone when it neither reads nor sends. *)
Definition io_quiet (s s' : IoState) : Prop :=
  st_rt s' = st_rt s ∧ io_frames_received (st_io s') = io_frames_received (st_io s) ∧
  io_frames_sent (st_io s') = io_frames_sent (st_io s).

Lemma io_quiet_trans s1 s2 s3 : io_quiet s1 s2 → io_quiet s2 s3 → io_quiet s1 s3.
Proof. unfold io_quiet. intuition congruence. Qed.

Lemma io_interfere_quiet stop s :
  io_quiet s (io_interfere stop 0 s) ∧
  (io_stop_requested (st_io s) = true → io_stop_requested (st_io (io_interfere stop 0 s)) = true).
Proof. destruct stop; [|done]. unfold io_quiet, io_interfere, request_stop. cbn. by case_bool_decide. Qed.

Lemma existsb_first {A} (f g : A → bool) l :
  existsb f l || existsb (λ i, negb (f i) && g i) l = existsb (λ i, f i || g i) l.
Proof.
  induction l as [|x l IH]; cbn; [done|]. rewrite <- IH.
  destruct (f x), (g x), (existsb f l); cbn; done.
Qed.

Lemma io_turn_stopping stop_fd signal_fd env ready s :
  existsb (λ i, is_fd stop_fd i || is_fd signal_fd i) ready = true →
  let s0 := s <| st_rt ::= λ rt, rt_exec rt (te_calls env) |> in
  let '(s', sent) := io_turn stop_fd signal_fd env ready s in
  sent = None ∧ io_stop_requested (st_io s') = true ∧ io_quiet s0 s'.
Proof.
  intros Hready. rewrite <- existsb_first in Hready. unfold io_turn, classify_ready. cbv zeta.
  destruct (existsb (λ i, _ && negb (Z.land _ _ =? 0)) ready); destruct (existsb (λ i, _ && is_fd signal_fd i) ready);
    destruct (existsb (is_fd stop_fd) ready); try done; cbn [negb orb];
    match goal with |- context [io_interfere (te_stop_late env) 0 ?x] =>
      set (s1 := x); assert (Hs1 : io_stop_requested (st_io s1) = true ∧
        io_quiet (s <| st_rt ::= λ rt, rt_exec rt (te_calls env) |>) s1) end.
  all: try (subst s1; cbn; rewrite ?andb_false_r; unfold io_quiet;
    repeat match goal with |- context [push_event ?e ?x] =>
      destruct (push_event_keeps e x) as (-> & _ & -> & ->) end; done).
  all: destruct Hs1 as [Hst Hq]; destruct (io_interfere_quiet (te_stop_late env) s1) as [Hq' Hst'];
    rewrite (Hst' Hst); cbn; split_and!; [done|auto|by eapply io_quiet_trans].
Qed.

(** A stop request beats CAN traffic: in a turn whose wait reports the stop
    event or a signal, no frame is read and none is sent, whatever else is ready and
    pending; the runtime is changed by other threads only, and the loop ends with this
    turn. *)
Theorem stop_beats_traffic stop_fd signal_fd env ready s :
  existsb (λ i, is_fd stop_fd i || is_fd signal_fd i) ready = true →
  io_stop_requested (st_io s) = false → te_wait env = Ok ready →
  ∀ envs, let '(s', frames, done) := io_loop stop_fd signal_fd (env :: envs) s in
    done = true ∧ frames = [] ∧ st_rt s' = rt_exec (st_rt s) (te_calls env) ∧
    io_frames_received (st_io s') = io_frames_received (st_io s) ∧
    io_frames_sent (st_io s') = io_frames_sent (st_io s).
Proof.
  intros Hready Hs Hw envs.
  destruct (io_interfere_quiet (te_stop env) s) as [(Hrt0 & Hr0 & Hf0) _].
  pose proof (io_turn_stopping stop_fd signal_fd env ready (io_interfere (te_stop env) 0 s) Hready) as Hturn.
  cbn [io_loop]. rewrite Hs, Hw. cbv zeta.
  destruct (io_turn _ _ _ _ _) as [s' sent]. destruct Hturn as (-> & Hst & Hrt & Hr & Hf).
  cbn in Hrt, Hr, Hf. rewrite Hrt0 in Hrt. destruct envs; cbn; rewrite Hst; cbn; split_and!; congruence.
Qed.

Lemma stop_beats_traffic_witness :
  let env := mkTurnEnv false (Ok [(5, 1); (9, 1)]) 0 (Ok 1) [] [] false (demo_pump 20 (Full 16)) in
  snd (fst (io_loop 9 10 [env; env] (demo_state [CPublish (Ok 10) (demo_far_command 5)]))) = [].
Proof.
  intros env.
  pose proof (stop_beats_traffic 9 10 env [(5, 1); (9, 1)]
    (demo_state [CPublish (Ok 10) (demo_far_command 5)])
    ltac:(vm_compute; reflexivity) ltac:(vm_compute; reflexivity) eq_refl [env]) as H.
  destruct (io_loop _ _ _ _) as [[s' frames] done]. exact (proj1 (proj2 H)).
Defined.

(** ** A failed start leaves nothing behind *)

Definition not_fd (fd : Z) (l : list (Z * Z)) : list (Z * Z) := filter (λ p, p.1 ≠ fd) l.

Arguments not_fd : simpl never.

(** Dropping every registered descriptor empties the list. *)
Lemma not_fd_all fds l :
  (∀ p, p ∈ l → p.1 ∈ fds) → foldr not_fd l fds = [].
Proof.
  intros Hl. apply elem_of_nil_inv. intros p.
  assert (Hg : ∀ fds l, p ∈ foldr not_fd l fds → p ∈ l ∧ p.1 ∉ fds).
  { clear. induction fds as [|fd fds IH]; intros l; cbn; [split; [done|apply not_elem_of_nil]|].
    unfold not_fd at 1. rewrite list_elem_of_filter. intros [Hne Hp].
    apply IH in Hp as [? ?]. split; [done|]. rewrite not_elem_of_cons. done. }
  intros Hp. apply Hg in Hp as [Hp Hn]. by apply Hn, Hl.
Qed.

Lemma not_fd_absent fd l : fd ∉ map fst l → not_fd fd l = l.
Proof.
  induction l as [|[x y] l IH]; [done|]. cbn [map fst]. rewrite not_elem_of_cons. intros [Hx Hl].
  unfold not_fd in *. rewrite filter_cons_True by (cbn; congruence). by rewrite IH.
Qed.

Lemma ep_drop_interest fd e :
  ep_valid e = true → 0 ≤ fd →
  ep_interest (ep_drop fd e) = not_fd fd (ep_interest e) ∧ ep_valid (ep_drop fd e) = true.
Proof.
  intros Hv Hfd. unfold ep_drop, ep_remove, ep_control. rewrite Hv. cbn.
  rewrite (proj2 (Z.ltb_ge _ _)) by done. case_bool_decide as Hin; cbn; [done|].
  by rewrite not_fd_absent.
Qed.

Lemma ep_add_ok fd ev ok e e' :
  ep_add fd ev ok e = (e', Ok ()) →
  ep_interest e' = ep_interest e ++ [(fd, ev)] ∧ ep_valid e' = true ∧ 0 ≤ fd.
Proof.
  unfold ep_add, ep_control. destruct (ep_valid e) eqn:Hv; [|done]. cbn.
  destruct (fd <? 0) eqn:Hf; [done|]. destruct ok; [|done]. intros [= <-]. bools. done.
Qed.

(** Nothing of this loop is alive: no thread, no socket, no registration. *)
Definition io_clean (l : CanIoLoop) : Prop :=
  io_joinable l = false ∧ io_running l = false ∧ sc_is_open (io_bus l) = false ∧
  ep_interest (io_reactor l) = [].

Lemma sc_open_result env s k s' k' r :
  fresh_answer (oe_socket env) k → sc_is_open s = false →
  sc_open env s k = ((s', k'), r) →
  match r with
  | Ok _ => sc_is_open s' = true ∧ sc_close s' k' = (s' <| sc_fd := -1 |>, k)
  | Err _ => s' = s ∧ k' = k
  end.
Proof.
  intros Hf Hs. unfold sc_open. destruct (_ ==? _); [by intros [= <- <- <-]|]. rewrite Hs.
  destruct (oe_socket env) as [fd|]; [|by intros [= <- <- <-]].
  destruct (Hf fd eq_refl) as [Hpos Hfresh].
  pose proof (k_create_close fd k Hfresh) as Hkc. cbv zeta.
  generalize dependent (k_create (Some fd) k). intros k1 Hkc.
  destruct (oe_ioctl env); cbn [negb]; [destruct (oe_bind env); cbn [negb]|];
    intros [= <- <- <-]; [|by rewrite Hkc..].
  unfold sc_is_open, sc_close. cbn [sc_fd update]. rewrite (proj2 (Z.leb_le _ _)) by done.
  split; [done|]. cbn. by rewrite Hkc.
Qed.

Section StartFailure.
Context (stop_fd signal_fd : Z).

(** The socket is open and the three descriptors are registered; closing the
    socket returns the kernel to [k0]. *)
Definition io_armed (k0 : Kernel) (l : CanIoLoop) (k : Kernel) : Prop :=
  sc_is_open (io_bus l) = true ∧ 0 ≤ stop_fd ∧ 0 ≤ signal_fd ∧
  ep_valid (io_reactor l) = true ∧
  map fst (ep_interest (io_reactor l)) = [sc_fd (io_bus l); stop_fd; signal_fd] ∧
  snd (sc_close (io_bus l) k) = k0.

Lemma setup_spec env l k w r :
  fresh_answer (oe_socket (su_open env)) k → io_clean l →
  setup_locked stop_fd signal_fd env (l, k) = (w, r) →
  io_joinable (fst w) = false ∧ io_running (fst w) = false ∧
  match r with
  | Err _ => io_clean (fst w) ∧ snd w = k
  | Ok _ =>
      su_stop_valid env = true ∧ su_signals_valid env = true ∧ io_armed k (fst w) (snd w)
  end.
Proof.
  intros Hf (Hj & Hr & Hb & Hi). unfold setup_locked.
  destruct (ep_valid (io_reactor l)) eqn:Hv; [|by intros [= <- <-]].
  destruct (su_stop_valid env) eqn:?, (su_signals_valid env) eqn:?; try (by intros [= <- <-]). cbn [negb orb].
  destruct (sc_open _ _ _) as [[b k1] o] eqn:Ho.
  pose proof (sc_open_result _ _ _ _ _ _ Hf Hb Ho) as Hres.
  destruct o as [[]|e]; [|destruct Hres as [-> ->]; by intros [= <- <-]].
  destruct Hres as [Hopen Hclose].
  assert (Hfd : 0 ≤ sc_fd b) by (unfold sc_is_open in Hopen; by bools).
  destruct (sc_set_nonblocking _ _ b) as [[]|e];
    [|intros [= <- <-]; unfold close_bus; cbn; rewrite Hclose; done].
  destruct (ep_add (sc_fd b) _ _ _) as [r1 [[]|e]] eqn:H1; cbn in H1 |- *;
    [|intros [= <- <-]; unfold close_bus; cbn; rewrite Hclose; done].
  apply ep_add_ok in H1 as (Hi1 & Hv1 & _). rewrite Hi in Hi1. cbn in Hi1.
  destruct (ep_add stop_fd _ _ _) as [r2 [[]|e]] eqn:H2; cbn in H2 |- *.
  2:{ intros [= <- <-]; unfold close_bus; cbn; rewrite Hclose.
      destruct (ep_drop_interest (sc_fd b) r1 Hv1 Hfd) as [Hd _]. rewrite Hi1 in Hd.
      match type of Hd with _ = not_fd _ ?l => pose proof (not_fd_all [sc_fd b] l) as Hz end.
      cbn in Hz. rewrite Hz in Hd; [done|]. intros p. rewrite !elem_of_cons.
      intros [->|Hn]; [by left|by apply elem_of_nil in Hn]. }
  apply ep_add_ok in H2 as (Hi2 & Hv2 & Hs2). rewrite Hi1 in Hi2. cbn in Hi2.
  destruct (ep_add signal_fd _ _ _) as [r3 [[]|e]] eqn:H3; cbn in H3 |- *.
  - apply ep_add_ok in H3 as (Hi3 & Hv3 & Hs3). rewrite Hi2 in Hi3. cbn in Hi3.
    intros [= <- <-]. unfold io_armed. cbn. rewrite Hi3, Hclose. done.
  - intros [= <- <-]; unfold close_bus; cbn; rewrite Hclose.
    destruct (ep_drop_interest stop_fd r2 Hv2 Hs2) as [Hd Hvd].
    destruct (ep_drop_interest (sc_fd b) _ Hvd Hfd) as [Hd2 _]. rewrite Hd, Hi2 in Hd2.
    match type of Hd2 with _ = not_fd _ (not_fd _ ?l) =>
      pose proof (not_fd_all [sc_fd b; stop_fd] l) as Hz end.
    cbn in Hz. rewrite Hz in Hd2; [done|]. intros p. rewrite !elem_of_cons.
    intros [->|[->|Hn]]; [by left|by right; left|by apply elem_of_nil in Hn].
Qed.

Lemma teardown_clean k0 l k w r :
  io_armed k0 l k → teardown_fds stop_fd signal_fd true true (l, k) = (w, r) →
  sc_is_open (io_bus w) = false ∧ ep_interest (io_reactor w) = [] ∧
  io_running w = io_running l ∧ io_joinable w = io_joinable l ∧
  io_startup_error w = io_startup_error l ∧ r = k0.
Proof.
  unfold teardown_fds, close_bus. intros (Hopen & Hs & Hg & Hv & Hi & Hk) Ht.
  rewrite Hopen in Ht. cbn in Ht.
  assert (Hfd : 0 ≤ sc_fd (io_bus l)) by (unfold sc_is_open in Hopen; by bools).
  destruct (ep_drop_interest (sc_fd (io_bus l)) _ Hv Hfd) as [Hd1 Hv1].
  destruct (ep_drop_interest stop_fd _ Hv1 Hs) as [Hd2 Hv2].
  destruct (ep_drop_interest signal_fd _ Hv2 Hg) as [Hd3 _]. rewrite Hd2, Hd1 in Hd3.
  change (not_fd signal_fd (not_fd stop_fd (not_fd (sc_fd (io_bus l)) (ep_interest (io_reactor l)))))
    with (foldr not_fd (ep_interest (io_reactor l)) [signal_fd; stop_fd; sc_fd (io_bus l)]) in Hd3.
  rewrite not_fd_all in Hd3.
  2:{ intros p Hp. apply (list_elem_of_fmap_2 fst) in Hp. change (fst <$> _) with (map fst (ep_interest (io_reactor l))) in Hp. rewrite Hi in Hp.
      rewrite !elem_of_cons in Hp |- *. tauto. }
  unfold sc_close in *. unfold sc_is_open in Hopen. rewrite Hopen in *. cbn in *.
  injection Ht as <- <-. done.
Qed.
End StartFailure.

Arguments teardown_fds : simpl never.
Arguments ep_drop : simpl never.
Arguments sc_close : simpl never.

Lemma maybe_set_affinity_keeps rc l l' r :
  maybe_set_affinity rc l = (l', r) →
  io_bus l' = io_bus l ∧ io_reactor l' = io_reactor l ∧ io_joinable l' = io_joinable l.
Proof. unfold maybe_set_affinity. repeat split_inner; by intros [= <- <-]. Qed.

Lemma io_start_cases stop_fd signal_fd env thread l k l' k' r :
  fresh_answer (oe_socket (su_open env)) k → io_clean l →
  io_start stop_fd signal_fd env thread (l, k) = ((l', k'), r) →
  match r with
  | Err _ => io_clean l' ∧ k' = k
  | Ok _ => io_joinable l' = true ∧ io_running l' = true ∧ io_armed stop_fd signal_fd k l' k'
  end.
Proof.
  intros Hf Hcl. pose proof Hcl as (Hj & Hr & Hb & Hi). unfold io_start. rewrite Hj, Hr. cbn [orb].
  match goal with |- context [setup_locked _ _ env (?x, k)] => set (l0 := x) end.
  destruct (setup_locked stop_fd signal_fd env (l0, k)) as [[l1 k1] su] eqn:Hsu.
  apply setup_spec in Hsu as (Hj1 & Hr1 & Hs); [|done|done]. cbn [fst snd] in *.
  destruct su as [[]|e]; [|destruct Hs as [? ->]; by intros [= <- <- <-]].
  destruct Hs as (Hsv & Hgv & Harm).
  rewrite Hsv, Hgv. destruct thread as [[rc in_time]|].
  2:{ destruct (teardown_fds _ _ _ _ (l1, k1)) as [lt kt] eqn:Ht. intros [= <- <- <-].
      apply (teardown_clean _ _ k) in Ht as (Hb' & Hi' & Hr' & Hj' & _ & ->); [|done].
      by split; [split_and!; congruence|]. }
  unfold thread_enter, thread_exit.
  destruct (maybe_set_affinity rc _) as [l2 aff] eqn:Haff.
  apply maybe_set_affinity_keeps in Haff as (Hb2 & Hre2 & Hj2). cbn in Hb2, Hre2, Hj2.
  assert (Harm2 : ∀ l3, io_bus l3 = io_bus l2 → io_reactor l3 = io_reactor l2 →
    io_armed stop_fd signal_fd k l3 k1) by (intros l3 E1 E2; unfold io_armed; rewrite E1, E2, Hb2, Hre2; done).
  destruct aff as [[]|e].
  - destruct in_time; cbn.
    + intros [= <- <- <-]. cbn. rewrite Hj2. split_and!; [done..|by apply Harm2].
    + unfold request_stop. cbn. match goal with |- context [io_running ?x] => set (l3 := x) end.
      assert (Hl3 : io_running l3 = true ∧ io_bus l3 = io_bus l2 ∧ io_reactor l3 = io_reactor l2)
        by (subst l3; by case_bool_decide).
      destruct Hl3 as (-> & E1 & E2). destruct (teardown_fds _ _ _ _ (l3, k1)) as [lt kt] eqn:Ht.
      apply (teardown_clean _ _ k) in Ht as (Hb' & Hi' & _ & _ & _ & ->); [|by apply Harm2].
      intros [= <- <- <-]. done.
  - match goal with |- context [teardown_fds _ _ _ _ (?x, k1)] => set (l3 := x) end.
    destruct (teardown_fds _ _ _ _ (l3, k1)) as [lt kt] eqn:Ht.
    apply (teardown_clean _ _ k) in Ht as (Hb' & Hi' & Hr' & Hj' & He' & ->); [|by apply Harm2].
    assert (io_running lt = false) as Hrun by by rewrite Hr'.
    destruct in_time.
    + rewrite Hrun. cbn. rewrite He'. cbn. intros [= <- <- <-]. done.
    + unfold request_stop. cbn. match goal with |- context [io_running ?x] => set (l4 := x) end.
      assert (Hl4 : io_running l4 = false ∧ io_bus l4 = io_bus lt ∧ io_reactor l4 = io_reactor lt)
        by (subst l4; by case_bool_decide).
      destruct Hl4 as (-> & E1 & E2). intros [= <- <- <-].
      by split; [|done]; split_and!; cbn; rewrite ?E1, ?E2.
Qed.

(** A failed start leaves nothing behind: whichever step fails (epoll, socket,
    registration, thread creation, affinity, handshake), afterwards there is no
    thread, no open socket, an empty interest list and exactly the descriptors that
    were open before; a successful start has the three descriptors registered and the
    thread running. *)
Theorem io_start_all_or_nothing stop_fd signal_fd env thread l k l' k' r :
  fresh_answer (oe_socket (su_open env)) k → io_clean l →
  io_start stop_fd signal_fd env thread (l, k) = ((l', k'), r) →
  match r with
  | Err _ => io_clean l' ∧ k' = k
  | Ok _ =>
      io_joinable l' = true ∧ io_running l' = true ∧ sc_is_open (io_bus l') = true ∧
      map fst (ep_interest (io_reactor l')) = [sc_fd (io_bus l'); stop_fd; signal_fd]
  end.
Proof.
  intros Hf Hcl Hst. pose proof (io_start_cases _ _ _ _ _ _ _ _ _ Hf Hcl Hst) as H.
  destruct r as [[]|e]; [|done]. by destruct H as (? & ? & ? & _ & _ & _ & ? & _).
Qed.

Lemma io_start_all_or_nothing_witness :
  let env := mkSetupEnv true true (mkOpenEnv (Some 5) true true) true true true true false in
  let l := io_new (mkCanIoConfig "vcan0" 1 32 (-1)) 3 in
  let '((l', k'), r) := io_start 9 10 env (Some (0, true)) (l, mkKernel {[3; 9; 10]} false) in
  res_ok r = false ∧ io_clean l' ∧ k' = mkKernel {[3; 9; 10]} false.
Proof.
  intros env l. set (w := io_start 9 10 env (Some (0, true)) (l, mkKernel {[3; 9; 10]} false)).
  assert (Hr : res_ok (snd w) = false) by (vm_compute; reflexivity).
  destruct w as [[l' k'] r] eqn:Hw. cbn in Hr. split; [exact Hr|].
  pose proof (io_start_all_or_nothing 9 10 env (Some (0, true)) l (mkKernel {[3; 9; 10]} false) l' k' r) as H.
  destruct r as [[]|e]; [discriminate Hr|]. apply H.
  - intros fd [= <-]. cbn. split; [lia|set_solver].
  - repeat split.
  - exact Hw.
Defined.
