(* ===== verification/Daemon.v ===== *)
(** * The daemon

    [RuntimeDaemon] of include/rcr/runtime_daemon.hpp and
    src/daemon/runtime_daemon.cpp: the composition root.  It owns the stop and signal
    descriptors, the queue, the runtime, the supervisor and the I/O loop, starts them
    in order and releases them in reverse.  A [unique_ptr] member is an [option]; the
    world it acts on is the threads' signal masks and the kernel's descriptor table.
    [start] is taken without scheduler ticks in between: until it returns no I/O runs
    and the runtime is at most [Idle], where a tick only records trace events. *)

From stdpp Require Import gmap.
From S2P Require Import Prelude Types StateMachine Mailbox Watchdog Ring Trace CanV1 InputQueue.
From S2P Require Import Scheduler Runtime RuntimeInv RuntimeSafety Supervisor Supervision LinuxIo CanIo.
Local Open Scope Z_scope.

Module DaemonExitCode.
Inductive DaemonExitCode := Ok | ConfigError | InterfaceError | PermissionError | WorkerFailure.
End DaemonExitCode.
Notation DaemonExitCode := DaemonExitCode.DaemonExitCode.

#[export] Instance DaemonExitCode_eq_dec : EqDecision DaemonExitCode.
Proof. solve_decision. Defined.

Definition exit_code_to_string (c : DaemonExitCode) : string :=
  match c with
  | DaemonExitCode.Ok => "OK"
  | DaemonExitCode.ConfigError => "CONFIG_ERROR"
  | DaemonExitCode.InterfaceError => "INTERFACE_ERROR"
  | DaemonExitCode.PermissionError => "PERMISSION_ERROR"
  | DaemonExitCode.WorkerFailure => "WORKER_FAILURE"
  end.

(** Durations are in milliseconds. *)
Record DaemonConfig := mkDaemonConfig {
  dc_can_if : string;
  dc_node_id : Z;
  dc_period : Z;
  dc_command_timeout : Z;
  dc_output_ack_timeout : Z;
  dc_heartbeat_timeout : Z;
  dc_fifo_priority : Z;
  dc_require_fifo : bool;
  dc_cpu_affinity : Z;
  dc_duration : Z;
  dc_event_queue_capacity : nat;
  dc_max_events_per_tick : nat;
  dc_max_frames_per_wake : nat;
  dc_trace_capacity : nat;
  dc_test_throw_on_tick : bool
}.

Record RuntimeDaemon := mkRuntimeDaemon {
  d_config : DaemonConfig;
  d_stop_event : Z;
  d_signals : option SignalFd;
  d_queue : option BoundedInputQueue;
  d_runtime : option LinuxRuntime;
  d_supervisor : option NodeSupervisor;
  d_io : option CanIoLoop;
  d_started : bool;
  d_stop_requested : bool;
  d_exit_code : DaemonExitCode;
  d_duration_thread : bool
}.

#[export] Instance RuntimeDaemon_eta : Eta RuntimeDaemon :=
  mkEta _ (fun d => mkRuntimeDaemon (d_config d) (d_stop_event d) (d_signals d) (d_queue d)
    (d_runtime d) (d_supervisor d) (d_io d) (d_started d) (d_stop_requested d) (d_exit_code d)
    (d_duration_thread d)).

Definition daemon_new (config : DaemonConfig) : RuntimeDaemon :=
  mkRuntimeDaemon config (-1) None None None None None false false DaemonExitCode.Ok false.

(** The signal masks and the descriptor table. *)
Definition World : Type := Masks * Kernel.

Definition ms_to_ns (ms : Z) : Z := ms * 1000000.

Definition runtime_config_of (c : DaemonConfig) : RuntimeConfig :=
  mkRuntimeConfig
    (mkSchedulerConfig (ms_to_ns (dc_period c)) (dc_fifo_priority c) (dc_require_fifo c)
       (dc_cpu_affinity c))
    (ms_to_ns (dc_command_timeout c)) (ms_to_ns (dc_output_ack_timeout c)) (dc_trace_capacity c)
    (dc_test_throw_on_tick c).

Definition supervisor_config_of (c : DaemonConfig) : NodeSupervisorConfig :=
  mkNodeSupervisorConfig (dc_node_id c) (ms_to_ns (dc_heartbeat_timeout c)) (dc_max_events_per_tick c).

Definition io_config_of (c : DaemonConfig) : CanIoConfig :=
  mkCanIoConfig (dc_can_if c) (dc_node_id c) (dc_max_frames_per_wake c) (dc_cpu_affinity c).

(** ** Releasing the parts *)

Definition signal_fd_of (d : RuntimeDaemon) : Z :=
  match d_signals d with Some s => sf_fd s | None => -1 end.

(** [io_->request_stop(); io_->join()]: the thread leaves its loop and tears down. *)
Definition io_stop_and_join (d : RuntimeDaemon) (l : CanIoLoop) (k : Kernel) : CanIoLoop * Kernel :=
  let l := request_stop l in
  let '(l, k) :=
    if io_running l
    then thread_exit (d_stop_event d) (signal_fd_of d) (fd_valid (d_stop_event d))
           (fd_valid (signal_fd_of d)) (l, k)
    else (l, k) in
  (io_join l, k).

(** [io_.reset()]: the destructor closes the socket and the epoll instance. *)
Definition io_destroy (l : CanIoLoop) (k : Kernel) : Kernel :=
  let '(_, k) := sc_close (io_bus l) k in
  if ep_valid (io_reactor l) then k_close (ep_fd (io_reactor l)) k else k.

(** [stop_event_ = EventFd{}; signals_ = SignalFd{};] on the thread [self]. *)
Definition release_fds (self : Z) (d : RuntimeDaemon) (w : World) : RuntimeDaemon * World :=
  let '(masks, k) := w in
  let '(_, k) := fd_reset (d_stop_event d) k in
  let d := d <| d_stop_event := -1 |> in
  match d_signals d with
  | None => (d, (masks, k))
  | Some s =>
      let '(_, w) := signalfd_reset self 0 s (masks, k) in
      (d <| d_signals := None |>, w)
  end.

(** [rollback_started_parts] *)
Definition rollback_started_parts (self : Z) (now : Result Z) (d : RuntimeDaemon) (w : World)
    : RuntimeDaemon * World :=
  let '(masks, k) := w in
  let k := match d_io d with
           | Some l => let '(l, k) := io_stop_and_join d l k in io_destroy l k
           | None => k
           end in
  let d := d <| d_io := None |> <| d_runtime ::= option_map (rt_stop now) |> in
  let d := d <| d_supervisor := None |> <| d_runtime := None |> <| d_queue := None |> in
  let '(d, w) := release_fds self d (masks, k) in
  (d <| d_started := false |>, w).

(** ** Start *)

(** What the machine answers during [start]: the sysfs probe, the signal mask and
    descriptor calls, the scheduler thread, the clock, the epoll instance, the I/O
    set-up and the I/O thread. *)
Record DaemonStartEnv := mkDaemonStartEnv {
  ds_exists_dir : bool;
  ds_type_value : option Z;
  ds_self : Z;
  ds_mask_rc : Z;
  ds_signalfd : option Z;
  ds_restore_rc : Z;
  ds_eventfd : option Z;
  ds_contention : list bool;
  ds_scheduler : StartEnv;
  ds_now : Result Z;
  ds_epoll : option Z;
  ds_io_open : OpenEnv;
  ds_io_getfl : bool;
  ds_io_setfl : bool;
  ds_io_add : bool * bool * bool;
  ds_io_thread : option (Z * bool)
}.

Definition probe_ok (env : DaemonStartEnv) (c : DaemonConfig) : bool :=
  match probe_can_interface (ds_exists_dir env) (ds_type_value env) (dc_can_if c) with
  | CanInterfaceStatus.Available => true
  | _ => false
  end.

(** Exit codes of a failed runtime or I/O start. *)
Definition map_start_error (other : DaemonExitCode) (e : Error) : DaemonExitCode :=
  if err_code e ==? Errc.InvalidArgument then DaemonExitCode.ConfigError
  else if err_code e ==? Errc.Rejected then DaemonExitCode.PermissionError
  else other.

Definition config_error (c : DaemonConfig) : option string :=
  if (dc_node_id c <? 1) || (31 <? dc_node_id c) then Some "node-id must be 1..31"%string
  else if (dc_period c <=? 0) || (dc_command_timeout c <=? 0) || (dc_output_ack_timeout c <=? 0) ||
          (dc_heartbeat_timeout c <=? 0) then Some "period/timeouts must be positive"%string
  else if (dc_cpu_affinity c <? -1) || (CPU_SETSIZE <=? dc_cpu_affinity c) ||
          Nat.eqb (dc_event_queue_capacity c) 0 || Nat.eqb (dc_max_events_per_tick c) 0 ||
          Nat.eqb (dc_max_frames_per_wake c) 0 || Nat.eqb (dc_trace_capacity c) 0 then
    Some "CPU affinity must be in range and queue/trace capacities must be positive"%string
  else None.

Definition exit_with (code : DaemonExitCode) (d : RuntimeDaemon) : RuntimeDaemon :=
  d <| d_exit_code := code |>.

(** The part of [start] after the descriptors exist: runtime, supervisor, Boot and
    the I/O loop. *)
Definition start_workers (env : DaemonStartEnv) (d : RuntimeDaemon) (w : World)
    : (RuntimeDaemon * World) * Result () :=
  let c := d_config d in
  let '(masks, k) := w in
  let '(rt, started_runtime) := rt_start (ds_scheduler env) (rt_new (runtime_config_of c) (ds_contention env)) in
  let d := d <| d_queue := Some (q_new (dc_event_queue_capacity c)) |> <| d_runtime := Some rt |>
             <| d_supervisor := Some (ns_new (supervisor_config_of c)) |> in
  match started_runtime with
  | Err e =>
      let d := exit_with (map_start_error DaemonExitCode.WorkerFailure e) d in
      (rollback_started_parts (ds_self env) (ds_now env) d w, Err e)
  | Ok _ =>
      let '(rt, booted) := rt_handle (ds_now env) RuntimeEvent.Boot rt in
      let d := d <| d_runtime := Some rt |> in
      if negb (accepted booted) then
        (rollback_started_parts (ds_self env) (ds_now env) (exit_with DaemonExitCode.WorkerFailure d) w,
         fail_with Errc.Rejected "runtime Boot failed during daemon startup")
      else
        let k := k_create (ds_epoll env) k in
        let l := io_new (io_config_of c) (default (-1) (ds_epoll env)) in
        let setup := mkSetupEnv (fd_valid (d_stop_event d)) (fd_valid (signal_fd_of d))
                       (ds_io_open env) (ds_io_getfl env) (ds_io_setfl env)
                       (fst (fst (ds_io_add env))) (snd (fst (ds_io_add env)))
                       (snd (ds_io_add env)) in
        let '((l, k), io_started) :=
          io_start (d_stop_event d) (signal_fd_of d) setup (ds_io_thread env) (l, k) in
        let d := d <| d_io := Some l |> in
        match io_started with
        | Err e =>
            let d := exit_with (map_start_error DaemonExitCode.InterfaceError e) d in
            (rollback_started_parts (ds_self env) (ds_now env) d (masks, k), Err e)
        | Ok _ =>
            ((d <| d_stop_requested := false |> <| d_exit_code := DaemonExitCode.Ok |>
                <| d_started := true |>
                <| d_duration_thread ::= λ t, if 0 <? dc_duration c then true else t |>,
              (masks, k)), Ok ())
        end
  end.

Definition daemon_start (env : DaemonStartEnv) (d : RuntimeDaemon) (w : World)
    : (RuntimeDaemon * World) * Result () :=
  let c := d_config d in
  if d_started d then ((d, w), fail_with Errc.Busy "RuntimeDaemon already started")
  else match config_error c with
  | Some message =>
      ((exit_with DaemonExitCode.ConfigError d, w), fail_with Errc.InvalidArgument message)
  | None =>
      if negb (probe_ok env c) then
        ((exit_with DaemonExitCode.InterfaceError d, w),
         fail_with Errc.NotOpen ("CAN interface missing or not ARPHRD_CAN: " +:+ dc_can_if c))
      else
        let '(w, signals) := block_and_open_shutdown_signals (ds_self env) (ds_mask_rc env)
                               (ds_signalfd env) (ds_restore_rc env) w in
        match signals with
        | Err e => ((exit_with DaemonExitCode.InterfaceError d, w), Err e)
        | Ok sf =>
            let d := d <| d_signals := Some sf |> in
            let '(masks, k) := w in
            match ds_eventfd env with
            | None =>
                let '(_, w) := signalfd_reset (ds_self env) 0 sf w in
                ((exit_with DaemonExitCode.InterfaceError (d <| d_signals := None |>), w),
                 fail_with Errc.IoError "eventfd: ")
            | Some fd => start_workers env (d <| d_stop_event := fd |>) (masks, k_create (Some fd) k)
            end
        end
  end.

(** ** Snapshots *)

Record SchedulerStats := mkSchedulerStats {
  ss_cycles : Z; ss_deadline_misses : Z; ss_min_lateness_ns : Z; ss_max_lateness_ns : Z;
  ss_mean_lateness_ns : Z; ss_fifo_enabled : bool; ss_fifo_error : Z;
  ss_affinity_enabled : bool; ss_affinity_error : Z; ss_worker_error : Z
}.

Definition scheduler_stats (p : PeriodicScheduler) : SchedulerStats :=
  mkSchedulerStats (ps_cycles p) (ps_deadline_misses p) (ps_min_lateness_ns p)
    (ps_max_lateness_ns p) (mean_lateness p) (ps_fifo_enabled p) (ps_fifo_error p)
    (ps_affinity_enabled p) (ps_affinity_error p) (ps_worker_error p).

Record RuntimeSnapshot := mkRuntimeSnapshot {
  rs_mode : RuntimeMode; rs_fault : FaultCode; rs_interlock_ready : bool; rs_running : bool;
  rs_scheduler : SchedulerStats; rs_published_commands : Z; rs_overwritten_commands : Z;
  rs_output_ack_pending : bool; rs_last_sent_session : Z; rs_last_sent_sequence : Z;
  rs_last_sent_time_ns : Z; rs_last_ack_session : Z; rs_last_ack_sequence : Z;
  rs_last_ack_result : OutputResult; rs_last_ack_time_ns : Z; rs_ack_timeout_count : Z;
  rs_unexpected_ack_count : Z; rs_trace_dropped : Z
}.

Definition rt_snapshot (rt : LinuxRuntime) : RuntimeSnapshot :=
  mkRuntimeSnapshot (rt_mode rt) (rt_fault rt) (sm_interlock_ready (rt_state_machine rt))
    (rt_running rt) (scheduler_stats (rt_scheduler rt)) (mb_publish_count (rt_mailbox rt))
    (mb_drop_count (rt_mailbox rt)) (rt_output_ack_pending rt) (rt_last_sent_session rt)
    (rt_last_sent_sequence rt) (rt_last_sent_time_ns rt) (rt_last_ack_session rt)
    (rt_last_ack_sequence rt) (rt_last_ack_result rt) (rt_last_ack_time_ns rt)
    (rt_ack_timeout_count rt) (rt_unexpected_ack_count rt) (tb_dropped (rt_trace rt)).

(** The supervisor's snapshot copies its fields but the configuration. *)
Record NodeSupervisorSnapshot := mkNodeSnapshot {
  nss_ever_seen : bool; nss_online : bool; nss_restart_latched : bool;
  nss_overflow_fault_latched : bool; nss_comm_loss_latched : bool; nss_boot_id : Z;
  nss_session_id : Z; nss_last_hb_seq : Z; nss_node_fault_code : Z; nss_input_bits : Z;
  nss_last_output_mirror : Z; nss_last_heartbeat_ns : Z; nss_heartbeats : Z;
  nss_status_updates : Z; nss_protocol_rejects : Z; nss_events_processed : Z;
  nss_events_budget_left : nat
}.

Definition ns_snapshot (n : NodeSupervisor) : NodeSupervisorSnapshot :=
  mkNodeSnapshot (nsv_ever_seen n) (nsv_online n) (nsv_restart_latched n)
    (nsv_overflow_fault_latched n) (nsv_comm_loss_latched n) (nsv_boot_id n) (nsv_session_id n)
    (nsv_last_hb_seq n) (nsv_node_fault_code n) (nsv_input_bits n) (nsv_last_output_mirror n)
    (nsv_last_heartbeat_ns n) (nsv_heartbeats n) (nsv_status_updates n) (nsv_protocol_rejects n)
    (nsv_events_processed n) (nsv_events_budget_left n).

Record CanIoStats := mkCanIoStats {
  cs_frames_received : Z; cs_frames_sent : Z; cs_decode_rejects : Z; cs_queue_rejects : Z;
  cs_send_would_block_retries : Z; cs_wakeups : Z; cs_stop_reason : IoStopReason; cs_last_errno : Z
}.

Definition io_stats (l : CanIoLoop) : CanIoStats :=
  mkCanIoStats (io_frames_received l) (io_frames_sent l) (io_decode_rejects l)
    (io_queue_rejects l) (io_send_would_block_retries l) (io_wakeups l) (io_stop_reason l)
    (io_last_errno l).

(** A member left at its default is [None] here. *)
Record DaemonSnapshot := mkDaemonSnapshot {
  dsn_runtime : option RuntimeSnapshot;
  dsn_node : option NodeSupervisorSnapshot;
  dsn_io : option CanIoStats;
  dsn_input_queue : option (nat * nat * Z * Z * Z * bool);
  dsn_exit_code : DaemonExitCode;
  dsn_started : bool;
  dsn_stopping : bool
}.

Definition daemon_snapshot (d : RuntimeDaemon) : DaemonSnapshot :=
  mkDaemonSnapshot (option_map rt_snapshot (d_runtime d)) (option_map ns_snapshot (d_supervisor d))
    (option_map io_stats (d_io d))
    (option_map (λ q, (q_capacity q, q_size q, q_push_count q, q_drop_count q, q_overflow_count q,
                       q_overflow_latched q)) (d_queue d))
    (d_exit_code d) (d_started d) (d_stop_requested d).

(** ** Stopping *)

Definition daemon_request_stop (d : RuntimeDaemon) : RuntimeDaemon :=
  d <| d_stop_requested := true |> <| d_io ::= option_map request_stop |>.

Definition failed_io (r : IoStopReason) : bool :=
  (r ==? IoStopReason.IoError) || (r ==? IoStopReason.SendFailure).

Definition classify_stop (d : RuntimeDaemon) : DaemonExitCode :=
  match d_io d with
  | None => d_exit_code d
  | Some l =>
      if failed_io (io_stop_reason l) then DaemonExitCode.WorkerFailure
      else match d_runtime d with
           | Some rt => if negb (ps_worker_error (rt_scheduler rt) =? 0)
                        then DaemonExitCode.WorkerFailure else DaemonExitCode.Ok
           | None => DaemonExitCode.Ok
           end
  end.

(** [stop] on the thread [self]; the duration thread sees the request and ends. *)
Definition daemon_stop (self : Z) (now : Result Z) (d : RuntimeDaemon) (w : World)
    : RuntimeDaemon * World :=
  let '(masks, k) := w in
  let d := d <| d_stop_requested := true |> in
  let '(d, k) := match d_io d with
                 | Some l => let '(l, k) := io_stop_and_join d l k in (d <| d_io := Some l |>, k)
                 | None => (d, k)
                 end in
  let d := d <| d_duration_thread := false |> in
  let d := d <| d_runtime ::= option_map (rt_stop now) |> in
  let k := match d_io d with Some l => io_destroy l k | None => k end in
  let d := d <| d_io := None |> <| d_supervisor := None |> <| d_runtime := None |>
             <| d_queue := None |> in
  let '(d, w) := release_fds self d (masks, k) in
  (d <| d_started := false |>, w).

(** The wait of [wait_and_stop] keeps polling. *)
Definition keep_waiting (d : RuntimeDaemon) : bool :=
  match d_io d with
  | None => false
  | Some l =>
      io_running l && negb (d_stop_requested d) &&
      match d_runtime d with
      | Some rt => rt_running rt || (ps_worker_error (rt_scheduler rt) =? 0)
      | None => true
      end
  end.

(** [progress] is what the other threads did before each poll; [None]: still
    waiting when they are used up. *)
Fixpoint wait_loop (progress : list (RuntimeDaemon → RuntimeDaemon)) (d : RuntimeDaemon)
    : option RuntimeDaemon :=
  if keep_waiting d then
    match progress with
    | [] => None
    | f :: rest => wait_loop rest (f d)
    end
  else Some d.

Definition wait_and_stop (self : Z) (now : Result Z) (progress : list (RuntimeDaemon → RuntimeDaemon))
    (d : RuntimeDaemon) (w : World) : option ((RuntimeDaemon * World) * DaemonExitCode) :=
  if negb (d_started d) then Some ((d, w), d_exit_code d)
  else match wait_loop progress d with
       | None => None
       | Some d =>
           let code := classify_stop d in
           Some (daemon_stop self now (d <| d_exit_code := code |>) w, code)
       end.

(** ** The application interface *)

Definition not_started : TransitionResult :=
  mkTransitionResult false RuntimeMode.Disabled RuntimeMode.Disabled "daemon not started".

Definition daemon_event (now : Result Z) (e : RuntimeEvent) (d : RuntimeDaemon)
    : RuntimeDaemon * TransitionResult :=
  match d_runtime d with
  | None => (d, not_started)
  | Some rt => let '(rt, t) := rt_handle now e rt in (d <| d_runtime := Some rt |>, t)
  end.

(** What the worker threads do between two critical sections of an application call:
    a scheduler tick with the events that arrive meanwhile and the clock samples it
    draws, or the I/O thread stopping. *)
Inductive worker_step :=
  | WTick (arrivals : list (list RuntimeInputEvent)) (tick : SchedulerTick) (clock : list (Result Z))
  | WIoStop (reason : IoStopReason).

Definition daemon_worker (d : RuntimeDaemon) (s : worker_step) : RuntimeDaemon :=
  match s with
  | WTick arrivals tick clock =>
      match d_runtime d, d_supervisor d, d_queue d with
      | Some rt, Some n, Some q =>
          let '((rt, h), _) := supervised_on_tick arrivals tick (rt, mkSupervised q n clock) in
          d <| d_runtime := Some rt |> <| d_supervisor := Some (ss_supervisor h) |>
            <| d_queue := Some (ss_queue h) |>
      | _, _, _ => d
      end
  | WIoStop reason =>
      d <| d_io ::= option_map (λ l, l <| io_stop_reason := reason |> <| io_stop_requested := true |>) |>
  end.

Definition daemon_workers (d : RuntimeDaemon) (ws : list worker_step) : RuntimeDaemon :=
  foldl daemon_worker d ws.

(** [boot]; [ws]: the workers between its snapshot and its event. *)
Definition daemon_boot (now : Result Z) (ws : list worker_step) (d : RuntimeDaemon)
    : RuntimeDaemon * TransitionResult :=
  match d_runtime d with
  | None => (d, not_started)
  | Some rt =>
      if rt_mode rt ==? RuntimeMode.Idle then
        (d, mkTransitionResult true RuntimeMode.Idle RuntimeMode.Idle "daemon already booted")
      else daemon_event now RuntimeEvent.Boot (daemon_workers d ws)
  end.

Definition daemon_activate (now : Result Z) := daemon_event now RuntimeEvent.ActivateRequest.
Definition daemon_deactivate (now : Result Z) := daemon_event now RuntimeEvent.DeactivateRequest.
Definition daemon_resume (now : Result Z) := daemon_event now RuntimeEvent.Resume.

(** [clear_fault] takes no lock of its own: the workers run between its snapshot and
    the I/O check ([ws1]), before the supervisor's check ([ws2]) and before the event
    that clears the fault ([ws3]). *)
Definition daemon_clear_fault (now : Result Z) (ws1 ws2 ws3 : list worker_step) (d : RuntimeDaemon)
    : RuntimeDaemon * TransitionResult :=
  match d_runtime d with
  | None => (d, not_started)
  | Some rt =>
      let refuse m := mkTransitionResult false (rt_mode rt) (rt_mode rt) m in
      let d := daemon_workers d ws1 in
      if negb (rt_mode rt ==? RuntimeMode.Fault) then daemon_event now RuntimeEvent.FaultCleared d
      else if (match d_io d with Some l => failed_io (io_stop_reason l) | None => false end) then
        (d, refuse "I/O failure requires daemon restart"%string)
      else
        let d := daemon_workers d ws2 in
        match d_supervisor d, d_queue d with
        | Some n, Some q =>
            let '(n, recovery) := acknowledge_fault_clear (rt_fault rt) q n in
            let d := d <| d_supervisor := Some n |> in
            match recovery with
            | Err e => (d, refuse (err_message e))
            | Ok _ => daemon_event now RuntimeEvent.FaultCleared (daemon_workers d ws3)
            end
        | _, _ => daemon_event now RuntimeEvent.FaultCleared d
        end
  end.

Definition daemon_publish (now : Result Z) (command : OutputCommand) (d : RuntimeDaemon)
    : RuntimeDaemon * Result () :=
  match d_runtime d with
  | None => (d, fail_with Errc.NotOpen "daemon not started")
  | Some rt => let '(rt, r) := rt_publish_output_command now command rt in
               (d <| d_runtime := Some rt |>, r)
  end.

(** ** All or nothing *)

Arguments teardown_fds : simpl never.
Arguments io_start : simpl never.
Arguments k_close : simpl never.
Arguments k_create : simpl never.
Arguments rt_start : simpl never.
Arguments rt_stop : simpl never.
Arguments signalfd_reset : simpl never.
Arguments rollback_started_parts : simpl never.

Definition daemon_clean (d : RuntimeDaemon) : Prop :=
  d_stop_event d = -1 ∧ d_signals d = None ∧ d_queue d = None ∧ d_runtime d = None ∧
  d_supervisor d = None ∧ d_io d = None ∧ d_started d = false.

Definition same_masks (a b : Masks) : Prop := ∀ t, mask_of t a = mask_of t b.

Lemma restore_same_masks self m masks :
  same_masks (<[self := mask_of self masks]> (<[self := m]> masks)) masks.
Proof.
  intros t. unfold mask_of. rewrite insert_insert_eq. destruct (decide (t = self)) as [->|].
  - by rewrite lookup_insert_eq.
  - by rewrite lookup_insert_ne.
Qed.

Lemma request_stop_keeps l :
  io_bus (request_stop l) = io_bus l ∧ io_reactor (request_stop l) = io_reactor l ∧
  io_running (request_stop l) = io_running l.
Proof. unfold request_stop. cbn. by case_bool_decide. Qed.

Lemma ep_control_fd op fd ev ok e : ep_fd (fst (ep_control op fd ev ok e)) = ep_fd e.
Proof. unfold ep_control. by repeat split_inner. Qed.

Lemma teardown_ep_fd stop_fd signal_fd sv gv l k w r :
  teardown_fds stop_fd signal_fd sv gv (l, k) = (w, r) →
  ep_fd (io_reactor w) = ep_fd (io_reactor l).
Proof.
  unfold teardown_fds, close_bus. cbv zeta.
  destruct (sc_close _ _). intros [= <- _]. cbn.
  assert (Hd : ∀ fd e, ep_fd (ep_drop fd e) = ep_fd e) by (intros; apply ep_control_fd).
  destruct (sc_is_open _), sv, gv; cbn; rewrite ?Hd; done.
Qed.

Section Release.
(** The world before start, and the descriptors start created, in order. *)
Context (self : Z) (masks0 : Masks) (k0 : Kernel) (sfd efd : Z).
Hypothesis Hs : 0 ≤ sfd ∧ sfd ∉ k_open k0.
Hypothesis He : 0 ≤ efd ∧ efd ∉ k_open (k_create (Some sfd) k0).

Definition k_sig : Kernel := k_create (Some sfd) k0.
Definition k_fds : Kernel := k_create (Some efd) k_sig.
Definition masks1 : Masks := <[self := {[SIGINT; SIGTERM]} ∪ mask_of self masks0]> masks0.
Definition sf1 : SignalFd := mkSignalFd sfd (mask_of self masks0) self true.

Lemma signalfd_reset_back :
  ∃ s masks, signalfd_reset self 0 sf1 (masks1, k_sig) = (s, (masks, k0)) ∧ same_masks masks masks0.
Proof using Hs.
  unfold signalfd_reset, fd_reset, fd_valid. cbn. rewrite (proj2 (Z.leb_le _ _)) by apply Hs.
  rewrite Z.eqb_refl. cbn. unfold k_sig. rewrite k_create_close by apply Hs.
  eexists _, _. split; [done|]. apply restore_same_masks.
Qed.

Lemma release_fds_back d :
  d_stop_event d = efd → d_signals d = Some sf1 →
  ∃ masks, release_fds self d (masks1, k_fds) =
    (d <| d_stop_event := -1 |> <| d_signals := None |>, (masks, k0)) ∧ same_masks masks masks0.
Proof.
  intros Hev Hsf. unfold release_fds, fd_reset, fd_valid. rewrite Hev.
  rewrite (proj2 (Z.leb_le _ _)) by lia. unfold k_fds.
  rewrite k_create_close by (unfold k_sig; tauto). cbn. rewrite Hsf.
  destruct signalfd_reset_back as (s & masks & -> & Hm). by exists masks.
Qed.

(** The I/O loop, when there is one: either its thread runs with everything
    registered, or it never got that far. *)
Definition io_held (d : RuntimeDaemon) (k : Kernel) : Prop :=
  match d_io d with
  | None => k = k_fds
  | Some l =>
      ∃ k_ep,
        (if ep_valid (io_reactor l) then k_close (ep_fd (io_reactor l)) k_ep else k_ep) = k_fds ∧
        ((io_running l = true ∧ io_armed efd sfd k_ep l k) ∨
         (io_running l = false ∧ sc_is_open (io_bus l) = false ∧ k = k_ep))
  end.

Lemma io_release d l k :
  d_stop_event d = efd → d_signals d = Some sf1 → d_io d = Some l → io_held d k →
  let '(l', k') := io_stop_and_join d l k in io_destroy l' k' = k_fds.
Proof.
  intros Hev Hsf Hl. unfold io_held, io_stop_and_join, signal_fd_of. rewrite Hl, Hev, Hsf.
  intros (k_ep & Hep & Hio). cbn [sf_fd sf1]. unfold fd_valid.
  rewrite !(proj2 (Z.leb_le _ _)) by lia.
  pose proof (request_stop_keeps l) as (Hb & Hr & Hrun). rewrite Hrun.
  destruct Hio as [[-> Harm]|(-> & Hcl & ->)].
  - unfold thread_exit. destruct (teardown_fds _ _ _ _ _) as [lt kt] eqn:Ht.
    pose proof (teardown_ep_fd _ _ _ _ _ _ _ _ Ht) as Hfd.
    apply (teardown_clean _ _ k_ep) in Ht as (Hb' & _ & _ & _ & _ & ->);
      [|unfold io_armed; rewrite Hb, Hr; exact Harm].
    unfold io_destroy. cbn. unfold sc_close. unfold sc_is_open in Hb'. rewrite Hb'.
    unfold ep_valid in *. rewrite Hfd, Hr. exact Hep.
  - unfold io_destroy. cbn. unfold sc_close. unfold sc_is_open in Hcl. rewrite Hb, Hcl, Hr. exact Hep.
Qed.

Lemma rollback_back d k :
  d_stop_event d = efd → d_signals d = Some sf1 → io_held d k → ∀ now,
  let '(d', (masks, k')) := rollback_started_parts self now d (masks1, k) in
  daemon_clean d' ∧ k' = k0 ∧ same_masks masks masks0 ∧ d_exit_code d' = d_exit_code d.
Proof.
  intros Hev Hsf Hio now. unfold rollback_started_parts. cbv zeta.
  assert (Hk : match d_io d with Some l => let '(l, k) := io_stop_and_join d l k in io_destroy l k
               | None => k end = k_fds).
  { destruct (d_io d) as [l|] eqn:Hl; [|by unfold io_held in Hio; rewrite Hl in Hio].
    pose proof (io_release d l k Hev Hsf Hl Hio) as Hx. by destruct (io_stop_and_join d l k). }
  rewrite Hk.
  match goal with |- context [release_fds self ?x _] => set (d1 := x) end.
  destruct (release_fds_back d1 Hev Hsf) as (masks & -> & Hm). done.
Qed.

(** Field updates of a daemon given by its fields, by value. *)
Ltac daemon_fields :=
  cbv beta iota zeta delta [daemon_stop update eta RuntimeDaemon_eta d_config d_stop_event d_signals
    d_queue d_runtime d_supervisor d_io d_started d_stop_requested d_exit_code d_duration_thread].

Lemma daemon_stop_back d k :
  d_stop_event d = efd → d_signals d = Some sf1 → io_held d k → ∀ now,
  let '(d', (masks, k')) := daemon_stop self now d (masks1, k) in
  daemon_clean d' ∧ k' = k0 ∧ same_masks masks masks0 ∧ d_duration_thread d' = false.
Proof.
  intros Hev Hsf Hio now. destruct d as [c ev sg q rt n [l|] st sr ex du]; cbn in Hev, Hsf; subst ev sg.
  - pose proof (io_release (mkRuntimeDaemon c efd (Some sf1) q rt n (Some l) st true ex du) l k
      eq_refl eq_refl eq_refl Hio) as Hx.
    daemon_fields. destruct (io_stop_and_join _ l k) as [l' k']. rewrite Hx.
    edestruct (release_fds_back (mkRuntimeDaemon c efd (Some sf1) None None None None st true ex false)
      eq_refl eq_refl) as (masks & -> & Hm). done.
  - unfold io_held in Hio. cbn in Hio. subst k. daemon_fields.
    edestruct (release_fds_back (mkRuntimeDaemon c efd (Some sf1) None None None None st true ex false)
      eq_refl eq_refl) as (masks & -> & Hm). done.
Qed.
End Release.

Lemma close_bus_ep_fd w : ep_fd (io_reactor (fst (close_bus w))) = ep_fd (io_reactor (fst w)).
Proof. unfold close_bus. by destruct (sc_close _ _). Qed.

Lemma ep_add_fd fd ev ok e e' r : ep_add fd ev ok e = (e', r) → ep_fd e' = ep_fd e.
Proof. intros H. pose proof (ep_control_fd EPOLL_CTL_ADD fd ev ok e) as Hf. unfold ep_add in H. by rewrite H in Hf. Qed.

Lemma setup_ep_fd stop_fd signal_fd env w w' r :
  setup_locked stop_fd signal_fd env w = (w', r) → ep_fd (io_reactor (fst w')) = ep_fd (io_reactor (fst w)).
Proof.
  assert (Hd : ∀ fd e, ep_fd (ep_drop fd e) = ep_fd e) by (intros; apply ep_control_fd).
  destruct w as [l k]. unfold setup_locked. repeat split_inner; intros [= <- <-];
    rewrite ?close_bus_ep_fd; cbn;
    repeat match goal with H : ep_add _ _ _ _ = _ |- _ => apply ep_add_fd in H; cbn in H end;
    rewrite ?Hd; congruence.
Qed.

Lemma io_start_ep_fd stop_fd signal_fd env thread w w' r :
  io_start stop_fd signal_fd env thread w = (w', r) →
  ep_fd (io_reactor (fst w')) = ep_fd (io_reactor (fst w)).
Proof.
  destruct w as [l k]. unfold io_start. destruct (_ || _); [by intros [= <- <-]|].
  destruct (setup_locked _ _ _ _) as [[l1 k1] [[]|e]] eqn:Hs; apply setup_ep_fd in Hs; cbn in Hs;
    [|by intros [= <- <-]].
  assert (Ht : ∀ sv gv l2 k2, ep_fd (io_reactor (fst (teardown_fds stop_fd signal_fd sv gv (l2, k2)))) =
    ep_fd (io_reactor l2)).
  { intros. destruct (teardown_fds _ _ _ _ _) eqn:E. by apply teardown_ep_fd in E. }
  destruct thread as [[rc in_time]|]; [|by intros [= <- <-]; rewrite Ht].
  assert (He : ∀ sv gv l2 k2, ep_fd (io_reactor (fst (thread_enter stop_fd signal_fd sv gv rc (l2, k2)))) =
    ep_fd (io_reactor l2)).
  { intros. unfold thread_enter. destruct (maybe_set_affinity rc l2) as [l3 [[]|e]] eqn:E;
      apply maybe_set_affinity_keeps in E as (_ & E & _); [by cbn; rewrite E|].
    rewrite Ht. cbn. by rewrite E. }
  specialize (He (su_stop_valid env) (su_signals_valid env) (l1 <| io_joinable := true |>) k1).
  cbn [fst snd]. destruct (thread_enter _ _ _ _ _ _) as [l2 k2]. cbn in He.
  destruct in_time; [destruct (negb _); intros [= <- <-]; cbn; congruence|].
  unfold thread_exit. pose proof (request_stop_keeps l2) as (_ & Hr & _).
  specialize (Ht (su_stop_valid env) (su_signals_valid env) (request_stop l2) k2).
  destruct (io_running _); [destruct (teardown_fds _ _ _ _ _)|]; intros [= <- <-]; cbn in *; congruence.
Qed.

Lemma worker_init_running env p p' : worker_init env p = (p', None) → ps_running p' = true.
Proof.
  unfold worker_init. destruct (if 0 <=? _ then _ else _) as [p1 e1].
  destruct (if _ && _ then _ else _) as [p2 e2].
  destruct (match se_now env, e2 with Err e, None => _ | _, _ => _ end); [done|]. by intros [= <-].
Qed.

Lemma rt_start_ok env config contention rt :
  rt_start env (rt_new config contention) = (rt, Ok ()) →
  rt_running rt = true ∧ rt_state_machine rt = sm_init.
Proof.
  unfold rt_start. destruct (_ || _); [done|]. unfold ps_start.
  destruct (sc_period _ <=? 0); [done|]. destruct (_ || _); [done|]. destruct (_ && _); [done|].
  destruct (_ || _); [done|]. destruct (ps_joinable _); [done|]. destruct (negb _); [done|].
  destruct (worker_init _ _) as [p [e|]] eqn:Hw; [done|]. intros [= <-].
  apply worker_init_running in Hw. done.
Qed.

Lemma boot_from_init now rt :
  rt_state_machine rt = sm_init →
  accepted (snd (rt_handle now RuntimeEvent.Boot rt)) = true ∧
  rt_mode (fst (rt_handle now RuntimeEvent.Boot rt)) = RuntimeMode.Idle ∧
  rt_running (fst (rt_handle now RuntimeEvent.Boot rt)) = rt_running rt.
Proof.
  intros Hsm. unfold rt_handle, sm_step. rewrite Hsm. cbn.
  unfold trace_transition. done.
Qed.

(** POSIX: every descriptor a successful call returns was not open. *)
Definition answers_fresh (env : DaemonStartEnv) (k : Kernel) : Prop :=
  let k1 := k_create (ds_signalfd env) k in
  let k2 := k_create (ds_eventfd env) k1 in
  let k3 := k_create (ds_epoll env) k2 in
  fresh_answer (ds_signalfd env) k ∧ fresh_answer (ds_eventfd env) k1 ∧
  fresh_answer (ds_epoll env) k2 ∧ fresh_answer (oe_socket (ds_io_open env)) k3.

(** A started daemon: both threads run, the runtime is [Idle], and everything start
    created is accounted for. *)
Definition daemon_running (self : Z) (masks0 : Masks) (k0 : Kernel) (sfd efd : Z)
    (d : RuntimeDaemon) (w : World) : Prop :=
  d_started d = true ∧ d_exit_code d = DaemonExitCode.Ok ∧
  d_stop_event d = efd ∧ d_signals d = Some (sf1 self masks0 sfd) ∧
  fst w = masks1 self masks0 ∧ io_held k0 sfd efd d (snd w) ∧
  (∃ rt, d_runtime d = Some rt ∧ rt_mode rt = RuntimeMode.Idle ∧ rt_running rt = true) ∧
  (∃ l, d_io d = Some l ∧ io_running l = true).

Lemma map_start_error_not_ok other e :
  other ≠ DaemonExitCode.Ok → map_start_error other e ≠ DaemonExitCode.Ok.
Proof. intros. unfold map_start_error. by repeat case_bool_decide. Qed.

Lemma start_workers_spec env d masks0 k0 sfd efd :
  0 ≤ sfd ∧ sfd ∉ k_open k0 → 0 ≤ efd ∧ efd ∉ k_open (k_create (Some sfd) k0) →
  let k2 := k_create (Some efd) (k_create (Some sfd) k0) in
  fresh_answer (ds_epoll env) k2 →
  fresh_answer (oe_socket (ds_io_open env)) (k_create (ds_epoll env) k2) →
  d_stop_event d = efd → d_signals d = Some (sf1 (ds_self env) masks0 sfd) → d_io d = None →
  let '((d', w'), r) := start_workers env d (masks1 (ds_self env) masks0, k2) in
  match r with
  | Err _ => daemon_clean d' ∧ snd w' = k0 ∧ same_masks (fst w') masks0 ∧
             d_exit_code d' ≠ DaemonExitCode.Ok
  | Ok _ => daemon_running (ds_self env) masks0 k0 sfd efd d' w'
  end.
Proof.
  intros Hs He k2 Hep Hsock Hev Hsf Hio. unfold start_workers.
  assert (Hroll : ∀ d1 k, d_stop_event d1 = efd → d_signals d1 = Some (sf1 (ds_self env) masks0 sfd) →
    io_held k0 sfd efd d1 k → d_exit_code d1 ≠ DaemonExitCode.Ok →
    let '(d', w') := rollback_started_parts (ds_self env) (ds_now env) d1 (masks1 (ds_self env) masks0, k) in
    daemon_clean d' ∧ snd w' = k0 ∧ same_masks (fst w') masks0 ∧ d_exit_code d' ≠ DaemonExitCode.Ok).
  { intros d1 k H1 H2 H3 H4.
    pose proof (rollback_back (ds_self env) masks0 k0 sfd efd Hs He d1 k H1 H2 H3 (ds_now env)) as H.
    destruct (rollback_started_parts _ _ _ _) as [d' [m k']]. cbn. naive_solver congruence. }
  destruct (rt_start _ _) as [rt [[]|e]] eqn:Hrt; cbn [accepted].
  2:{ match goal with |- context [rollback_started_parts _ _ ?x (_, k2)] =>
        specialize (Hroll x k2 Hev Hsf) end.
      destruct (rollback_started_parts _ _ _ _) as [d' w']. apply Hroll.
      - unfold io_held. cbn. by rewrite Hio.
      - by apply map_start_error_not_ok. }
  apply rt_start_ok in Hrt as [Hrun Hsm].
  destruct (boot_from_init (ds_now env) rt Hsm) as (Hacc & Hmode & Hrun').
  destruct (rt_handle _ _ rt) as [rt1 booted]. cbn in Hacc, Hmode, Hrun'. rewrite Hacc. cbn [negb].
  unfold signal_fd_of. cbn. rewrite Hev, Hsf. cbn [sf_fd sf1].
  match goal with |- context [io_start efd sfd ?s ?t (?l, ?k)] =>
    set (setup := s); set (l0 := l); set (k3 := k);
    destruct (io_start efd sfd setup t (l0, k3)) as [[l' k4] io_r] eqn:Hst end.
  pose proof (io_start_ep_fd _ _ _ _ _ _ _ Hst) as Hfd. cbn in Hfd.
  assert (Hcl : io_clean l0) by done.
  pose proof (io_start_cases efd sfd setup (ds_io_thread env) l0 k3 l' k4 io_r Hsock Hcl Hst) as Hall.
  assert (Hk : (if ep_valid (io_reactor l') then k_close (ep_fd (io_reactor l')) k3 else k3) = k2).
  { unfold ep_valid. rewrite Hfd. subst k3. destruct (ds_epoll env) as [ep|]; [|done]. cbn.
    destruct (Hep ep eq_refl) as [Hpos Hfr]. rewrite (proj2 (Z.leb_le _ _)) by done.
    by apply k_create_close. }
  destruct io_r as [[]|e].
  - destruct Hall as (_ & Hr & Harm). unfold daemon_running. cbn. split_and!; try done.
    + unfold io_held. cbn. exists k3. split; [exact Hk|]. by left.
    + exists rt1. rewrite Hrun'. done.
    + by exists l'.
  - destruct Hall as [(Hj & Hr & Hb & _) ->].
    match goal with |- context [rollback_started_parts _ _ ?x (_, k3)] =>
      specialize (Hroll x k3 eq_refl eq_refl) end.
    destruct (rollback_started_parts _ _ _ _) as [d' w']. apply Hroll.
    + unfold io_held. cbn. exists k3. split; [exact Hk|]. by right.
    + by apply map_start_error_not_ok.
Qed.

(** The two ways a start ends. *)
Lemma daemon_start_cases env d masks k :
  daemon_clean d → answers_fresh env k → ds_restore_rc env = 0 →
  let '((d', w'), r) := daemon_start env d (masks, k) in
  match r with
  | Err _ => daemon_clean d' ∧ snd w' = k ∧ same_masks (fst w') masks ∧
             d_exit_code d' ≠ DaemonExitCode.Ok
  | Ok _ =>
      (∃ rt l, d_runtime d' = Some rt ∧ rt_mode rt = RuntimeMode.Idle ∧ rt_running rt = true ∧
               d_io d' = Some l ∧ io_running l = true) ∧
      ∀ now, let '(d2, w2) := daemon_stop (ds_self env) now d' w' in
             daemon_clean d2 ∧ snd w2 = k ∧ same_masks (fst w2) masks
  end.
Proof.
  intros Hcl (Hf1 & Hf2 & Hf3 & Hf4) Hrc. pose proof Hcl as (He & Hsg & Hq & Hrt & Hsu & Hio & Hst).
  unfold daemon_start. rewrite Hst.
  destruct (config_error (d_config d)); [done|]. destruct (negb _); [done|].
  unfold block_and_open_shutdown_signals. rewrite Hrc. cbn [Z.eqb negb].
  destruct (negb _); [done|]. destruct (ds_signalfd env) as [sfd|].
  2:{ cbn. split_and!; try done. apply restore_same_masks. }
  destruct (ds_eventfd env) as [efd|]; cbn [res_bind].
  - pose proof (start_workers_spec env (d <| d_signals := Some (sf1 (ds_self env) masks sfd) |>
      <| d_stop_event := efd |>) masks k sfd efd (Hf1 sfd eq_refl) (Hf2 efd eq_refl) Hf3 Hf4
      eq_refl eq_refl Hio) as H.
    change (start_workers env _ _) with (start_workers env
      (d <| d_signals := Some (sf1 (ds_self env) masks sfd) |> <| d_stop_event := efd |>)
      (masks1 (ds_self env) masks, k_create (Some efd) (k_create (Some sfd) k))).
    destruct (start_workers _ _ _) as [[d' [m' k']] [[]|e]]; [|done].
    destruct H as (_ & _ & Hev' & Hsf' & Hm & Hheld & (rt & ? & ? & ?) & (l & ? & ?)). split; [by exists rt, l|].
    intros now. cbn in Hm. subst m'.
    pose proof (daemon_stop_back (ds_self env) masks k sfd efd (Hf1 sfd eq_refl) (Hf2 efd eq_refl)
      d' k' Hev' Hsf' Hheld now) as Hstop.
    destruct (daemon_stop _ _ _ _) as [d2 [m2 k2]]. naive_solver.
  - destruct (signalfd_reset_back (ds_self env) masks k sfd (Hf1 sfd eq_refl)) as (s & m & Hre & Hm).
    change (signalfd_reset (ds_self env) 0 _ _) with
      (signalfd_reset (ds_self env) 0 (sf1 (ds_self env) masks sfd) (masks1 (ds_self env) masks, k_sig k sfd)).
    rewrite Hre. done.
Qed.

(** C11.  Start is all or nothing.  From a clean daemon and for any answers of the
    machine: if start fails, every part is gone again, no descriptor is leaked, the
    creating thread's signal mask is what it was (unless restoring it is what the
    kernel refused), and the exit code reports a failure; if it succeeds, both threads
    run, the runtime is [Idle], never [Active], and a later stop returns the descriptor
    table and the masks to what they were before the start. *)
Theorem daemon_start_all_or_nothing env d masks k :
  daemon_clean d → answers_fresh env k → ds_restore_rc env = 0 →
  let '((d', w'), r) := daemon_start env d (masks, k) in
  match r with
  | Err _ => daemon_clean d' ∧ snd w' = k ∧ same_masks (fst w') masks ∧
             d_exit_code d' ≠ DaemonExitCode.Ok
  | Ok _ =>
      (∃ rt l, d_runtime d' = Some rt ∧ rt_mode rt = RuntimeMode.Idle ∧ rt_running rt = true ∧
               d_io d' = Some l ∧ io_running l = true) ∧
      ∀ now, let '(d2, w2) := daemon_stop (ds_self env) now d' w' in
             daemon_clean d2 ∧ snd w2 = k ∧ same_masks (fst w2) masks
  end.
Proof. apply daemon_start_cases. Qed.

Definition demo_daemon : RuntimeDaemon :=
  daemon_new (mkDaemonConfig "vcan0" 1 10 100 100 300 0 false (-1) 0 256 32 32 64 false).
Definition demo_start_env : DaemonStartEnv :=
  mkDaemonStartEnv true (Some 280) 1 0 (Some 4) 0 (Some 5) [] demo_env (Ok 1) (Some 6)
    (mkOpenEnv (Some 7) true true) true true (true, true, true) (Some (0, true)).

Lemma daemon_start_all_or_nothing_witness :
  let '((d', w'), r) := daemon_start demo_start_env demo_daemon (∅, mkKernel {[0; 1; 2]} false) in
  res_ok r = true ∧
  let '(d2, w2) := daemon_stop 1 (Ok 2) d' w' in
  daemon_clean d2 ∧ snd w2 = mkKernel {[0; 1; 2]} false.
Proof.
  assert (Hr : res_ok (snd (daemon_start demo_start_env demo_daemon (∅, mkKernel {[0; 1; 2]} false))) = true)
    by (vm_compute; reflexivity).
  assert (Hf : answers_fresh demo_start_env (mkKernel {[0; 1; 2]} false)).
  { unfold answers_fresh, fresh_answer. cbn. split_and!; intros fd [= <-];
      (split; [lia|unfold k_create; cbn; set_solver]). }
  pose proof (daemon_start_all_or_nothing demo_start_env demo_daemon ∅ (mkKernel {[0; 1; 2]} false)
    ltac:(repeat split) Hf eq_refl) as H.
  destruct (daemon_start _ _ _) as [[d' w'] r]. cbn in Hr. split; [exact Hr|].
  destruct r as [[]|e]; [|discriminate Hr]. destruct H as [_ H]. specialize (H (Ok 2)).
  change (ds_self demo_start_env) with 1 in H.
  destruct (daemon_stop 1 (Ok 2) d' w') as [d2 w2]. split; apply H.
Defined.

(** ** Leaving a fault *)

(** A running daemon whose runtime is in [Fault]. *)
Definition faulted (d : RuntimeDaemon) : Prop :=
  ∃ rt n q l, d_runtime d = Some rt ∧ d_supervisor d = Some n ∧ d_queue d = Some q ∧
    d_io d = Some l ∧ rt_mode rt = RuntimeMode.Fault.

Lemma daemon_workers_faulted ws d : faulted d → faulted (daemon_workers d ws).
Proof.
  revert d. induction ws as [|s ws IH]; intros d Hd; [done|]. apply IH.
  destruct Hd as (rt & n & q & l & Hrt & Hn & Hq & Hl & Hm). destruct s as [arrivals tick clock|reason].
  - unfold daemon_worker. rewrite Hrt, Hn, Hq.
    pose proof (supervised_tick_keeps_fault arrivals tick (rt, mkSupervised q n clock) Hm) as Hm'.
    destruct (supervised_on_tick _ _ _) as [[rt' h] ok].
    by exists rt', (ss_supervisor h), (ss_queue h), l.
  - unfold daemon_worker. eexists rt, n, q, _. cbn. by rewrite Hl.
Qed.

Lemma fault_cleared_event now d :
  faulted d →
  let '(d', t) := daemon_event now RuntimeEvent.FaultCleared d in
  accepted t = true ∧
  ∃ rt', d_runtime d' = Some rt' ∧ rt_mode rt' = RuntimeMode.Idle ∧ rt_fault rt' = FaultCode.None.
Proof.
  intros (rt & n & q & l & Hrt & _ & _ & _ & Hm). unfold daemon_event. rewrite Hrt.
  unfold rt_handle, sm_step, rt_mode, rt_fault in *. destruct (rt_state_machine rt) as [mode il f].
  cbn in Hm. subst. cbn. split; [done|]. eexists. split; [done|]. done.
Qed.

Lemma clear_fault_cases now ws1 ws2 ws3 d :
  faulted d →
  let d1 := daemon_workers d ws1 in
  let d2 := daemon_workers d1 ws2 in
  let '(d', t) := daemon_clear_fault now ws1 ws2 ws3 d in
  ∃ l n q rt', d_io d1 = Some l ∧ d_supervisor d2 = Some n ∧ d_queue d2 = Some q ∧
    d_runtime d' = Some rt' ∧
    (accepted t = true ↔ failed_io (io_stop_reason l) = false ∧ recovered q n) ∧
    if accepted t then rt_mode rt' = RuntimeMode.Idle ∧ rt_fault rt' = FaultCode.None
    else rt_mode rt' = RuntimeMode.Fault ∧ (Some rt' = d_runtime d1 ∨ Some rt' = d_runtime d2).
Proof.
  intros Hd d1 d2. pose proof (daemon_workers_faulted ws1 d Hd) as Hd1.
  pose proof (daemon_workers_faulted ws2 _ Hd1) as Hd2. fold d1 in Hd1, Hd2. fold d2 in Hd2.
  destruct Hd as (rt & _ & _ & _ & Hrt & _ & _ & _ & Hm).
  unfold daemon_clear_fault. rewrite Hrt, Hm.
  rewrite (bool_decide_eq_true_2 (RuntimeMode.Fault = RuntimeMode.Fault)) by done. cbn [negb].
  fold d1. fold d2. destruct Hd1 as (rt1 & _ & _ & l & Hrt1 & _ & _ & Hl & Hm1). rewrite Hl.
  destruct Hd2 as (rt2 & n & q & l2 & Hrt2 & Hn & Hq & Hl2 & Hm2).
  destruct (failed_io _) eqn:Hio.
  { exists l, n, q, rt1. cbn. rewrite Hio, Hrt1. naive_solver. }
  rewrite Hn, Hq. pose proof (acknowledge_cases (rt_fault rt) q n) as Ha.
  destruct (acknowledge_fault_clear _ q n) as [n' res]. destruct Ha as [Hiff _].
  destruct res as [[]|e]; cbn [res_ok] in Hiff.
  2:{ exists l, n, q, rt2. cbn. rewrite Hio, Hrt2. naive_solver. }
  pose proof (fault_cleared_event now (daemon_workers (d2 <| d_supervisor := Some n' |>) ws3)
    ltac:(apply daemon_workers_faulted; by exists rt2, n', q, l2)) as Hc.
  destruct (daemon_event _ _ _) as [d' t]. destruct Hc as (-> & rt' & Hrt' & ?).
  exists l, n, q, rt'. rewrite Hio. naive_solver.
Qed.

(** The daemon clears a fault only when nothing that caused one persists: in
    [Fault], with the workers running meanwhile, [clear_fault] is accepted exactly when
    the I/O loop had not failed at its check and the supervisor saw no blocker at its
    own, whatever the recorded fault code; it then leads to [Idle] with no fault, never
    to [Active]; a refusal leaves the runtime to the workers, in [Fault]. *)
Theorem clear_fault_guarded now ws1 ws2 ws3 d :
  faulted d →
  let d1 := daemon_workers d ws1 in
  let d2 := daemon_workers d1 ws2 in
  let '(d', t) := daemon_clear_fault now ws1 ws2 ws3 d in
  ∃ l n q rt', d_io d1 = Some l ∧ d_supervisor d2 = Some n ∧ d_queue d2 = Some q ∧
    d_runtime d' = Some rt' ∧
    (accepted t = true ↔ failed_io (io_stop_reason l) = false ∧ recovered q n) ∧
    if accepted t then rt_mode rt' = RuntimeMode.Idle ∧ rt_fault rt' = FaultCode.None
    else rt_mode rt' = RuntimeMode.Fault ∧ (Some rt' = d_runtime d1 ∨ Some rt' = d_runtime d2).
Proof. apply clear_fault_cases. Qed.

Definition demo_faulted : RuntimeDaemon :=
  demo_daemon <| d_runtime := Some (demo_rt [CRaise (Ok 10) FaultCode.NodeFault]) |>
    <| d_supervisor := Some demo_supervisor |> <| d_queue := Some (q_new 8) |>
    <| d_io := Some demo_io |>.
Definition demo_tick (t : Z) : SchedulerTick := mkSchedulerTick 1 t t 0.

Lemma clear_fault_guarded_witness :
  let '(d', t) := daemon_clear_fault (Ok 20) [] [WTick [] (demo_tick 15) []] [] demo_faulted in
  accepted t = true ∧ ∃ rt', d_runtime d' = Some rt' ∧ rt_mode rt' = RuntimeMode.Idle.
Proof.
  assert (Hd : faulted demo_faulted)
    by (eexists _, _, _, _; repeat (split; [reflexivity|]); vm_compute; reflexivity).
  pose proof (clear_fault_guarded (Ok 20) [] [WTick [] (demo_tick 15) []] [] demo_faulted Hd) as H.
  assert (He : accepted (snd (daemon_clear_fault (Ok 20) [] [WTick [] (demo_tick 15) []] []
    demo_faulted)) = true) by (vm_compute; reflexivity).
  destruct (daemon_clear_fault _ _ _ _ demo_faulted) as [d' t]. cbn [snd] in He.
  destruct H as (l & n & q & rt' & _ & _ & _ & Hrt & _ & Hm). rewrite He in Hm.
  split; [exact He|]. exists rt'. split; [exact Hrt|]. apply Hm.
Defined.

(** *** A fault raised after the supervisor's check is lost *)

(** A running runtime in mode [m] with its interlock ready and fault [f]. *)
Definition standing (m : RuntimeMode) (f : FaultCode) (rt : LinuxRuntime) : Prop :=
  rt_state_machine rt = mkRuntimeStateMachine m true f ∧ rt_running rt = true ∧
  rt_test_throw_on_tick rt = false.

(** The daemon's parts, with no event waiting. *)
Definition parts (d : RuntimeDaemon) (rt : LinuxRuntime) (n : NodeSupervisor) (q : BoundedInputQueue)
    (l : CanIoLoop) : Prop :=
  d_runtime d = Some rt ∧ d_supervisor d = Some n ∧ d_queue d = Some q ∧ d_io d = Some l ∧
  q_size q = 0%nat ∧ q_overflow_latched q = false.

Lemma silent_sup_tick {R} `{Supervised R} now q n (r : R) :
  q_size q = 0%nat → q_overflow_latched q = false →
  sup_on_tick [] now q (n, r) =
  (q, apply_comm_loss now (n <| nsv_events_budget_left := nsc_max_events_per_tick (nsv_config n) |>, r)).
Proof.
  intros Hq Ho. unfold sup_on_tick. rewrite Ho. cbn [fst].
  destruct (nsc_max_events_per_tick _); [done|]. cbn. unfold try_pop. by rewrite Hq.
Qed.

Lemma silent_rt_tick tick m f rt :
  standing m f rt → (m = RuntimeMode.Active → path_closed rt) →
  ∃ rt', rt_tick tick rt = (rt', true) ∧ standing m f rt' ∧ (path_closed rt → path_closed rt').
Proof.
  intros (Hsm & Hr & Ht) Hc. unfold rt_tick. rewrite Ht.
  assert (Htr : ∃ tr, tick_trace tick rt = rt <| rt_trace := tr |>)
    by (unfold tick_trace; destruct (_ <=? _); by eexists).
  destruct Htr as [tr ->]. set (rt0 := rt <| rt_trace := tr |>).
  assert (Hacc : rt_can_accept rt0 = (m ==? RuntimeMode.Active)).
  { unfold rt_can_accept, can_accept_output, rt0. cbn. rewrite Hsm. cbn. apply andb_true_r. }
  assert (Hnop : tick_watchdog (tk_actual_ns tick) (tick_ack_timeout (tk_actual_ns tick) rt0) = rt0).
  { unfold tick_ack_timeout, tick_watchdog. destruct (decide (m = RuntimeMode.Active)) as [Hm|Hm].
    - destruct (Hc Hm) as (Hwd & _ & _ & _ & Hack). change (rt_output_ack_pending rt0) with (rt_output_ack_pending rt).
      rewrite Hack, andb_false_r. cbn [andb]. destruct (rt_can_accept rt0); [|done].
      change (rt_command_watchdog rt0) with (rt_command_watchdog rt).
      unfold wd_check. rewrite Hwd. cbn [negb newly_expired]. by destruct rt.
    - rewrite Hacc, (bool_decide_eq_false_2 _ Hm). cbn [andb]. by rewrite Hacc, (bool_decide_eq_false_2 _ Hm). }
  rewrite Hnop. by exists rt0.
Qed.

Lemma standing_raise now code m f rt :
  code ≠ FaultCode.None → m = RuntimeMode.Fault → standing m f rt →
  standing RuntimeMode.Fault code (fst (rt_raise_fault now code rt)).
Proof.
  intros Hc -> (Hsm & Hr & Ht). unfold rt_raise_fault, sm_step. rewrite bool_decide_eq_false_2 by done.
  cbn. rewrite Hsm. cbn. by split_and!.
Qed.

(** The tick in which the heartbeat deadline passes, in [Fault]. *)
Lemma late_tick d rt n q l f tick clock :
  parts d rt n q l → standing RuntimeMode.Fault f rt → nsv_ever_seen n = true → nsv_online n = true →
  nsv_comm_loss_latched n = false →
  0 < nsc_heartbeat_timeout (nsv_config n) ≤ tk_actual_ns tick - nsv_last_heartbeat_ns n →
  ∃ rt' n', parts (daemon_worker d (WTick [] tick clock)) rt' n' q l ∧
    standing RuntimeMode.Fault FaultCode.CommLoss rt' ∧ nsv_online n' = false ∧ nsv_comm_loss_latched n' = true.
Proof.
  intros (Hrt & Hn & Hq & Hl & Hs & Ho) Hst Hseen Hon Hcl Ht. unfold daemon_worker. rewrite Hrt, Hn, Hq.
  unfold supervised_on_tick, rt_on_tick. cbn [fst].
  destruct (silent_rt_tick tick _ _ _ Hst ltac:(done)) as (rt1 & -> & Hst1 & _).
  unfold supervision_hook. cbn [snd ss_queue ss_supervisor ss_clock]. rewrite silent_sup_tick by done.
  unfold apply_comm_loss. cbn. rewrite Hseen, Hon. cbn [negb orb].
  rewrite (proj2 (Z.leb_gt _ _)), (proj2 (Z.ltb_ge _ _)) by lia. rewrite Hcl. cbn [negb].
  unfold cr_raise_fault. destruct (draw_clock _) as [t rest].
  eexists _, _. split; [by split_and!|]. split; [|done]. cbn. by apply (standing_raise t _ RuntimeMode.Fault f).
Qed.

Lemma standing_event now e m f m' f' d rt n q l :
  parts d rt n q l → standing m f rt → (e = RuntimeEvent.FaultCleared ∧ m = RuntimeMode.Fault ∧ m' = RuntimeMode.Idle ∧ f' = FaultCode.None ∨
    e = RuntimeEvent.ActivateRequest ∧ m = RuntimeMode.Idle ∧ m' = RuntimeMode.Active ∧ f' = FaultCode.None) →
  ∃ rt', parts (fst (daemon_event now e d)) rt' n q l ∧ standing m' f' rt' ∧
    accepted (snd (daemon_event now e d)) = true ∧ (m' = RuntimeMode.Active → path_closed rt').
Proof.
  intros (Hrt & Hn & Hq & Hl & Hs & Ho) (Hsm & Hr & Ht) Hcase. unfold daemon_event. rewrite Hrt.
  unfold rt_handle, sm_step. rewrite Hsm, Hr.
  destruct Hcase as [(-> & -> & -> & ->)|(-> & -> & -> & ->)]; cbn; eexists; (split; [by split_and!|]); by split_and!.
Qed.

(** Ticks without a heartbeat, once the loss is latched. *)
Lemma silent_ticks ws d rt n q l :
  Forall (λ w, ∃ tick clock, w = WTick [] tick clock) ws →
  parts d rt n q l → standing RuntimeMode.Active FaultCode.None rt → path_closed rt → nsv_online n = false →
  ∃ rt' n', parts (daemon_workers d ws) rt' n' q l ∧ standing RuntimeMode.Active FaultCode.None rt' ∧
    nsv_online n' = false.
Proof.
  intros Hws. revert d rt n. induction Hws as [|w ws (tick & clock & ->) _ IH]; intros d rt n Hp Hst Hc Hoff; [by exists rt, n|].
  cbn [daemon_workers foldl]. destruct (silent_rt_tick tick _ _ _ Hst ltac:(done)) as (rt1 & Ht & Hst1 & Hc1).
  apply (IH _ rt1 (n <| nsv_events_budget_left := nsc_max_events_per_tick (nsv_config n) |>)); [|done|auto|done].
  destruct Hp as (Hrt & Hn & Hq & Hl & Hs & Ho). unfold daemon_worker. rewrite Hrt, Hn, Hq.
  unfold supervised_on_tick, rt_on_tick. cbn [fst]. rewrite Ht. unfold supervision_hook.
  cbn [snd ss_queue ss_supervisor ss_clock]. rewrite silent_sup_tick by done. unfold apply_comm_loss. cbn.
  rewrite Hoff, orb_true_r. by split_and!.
Qed.

(** C38.  The check and the clearing are not atomic.  From any [Fault] the supervisor finds
    recovered, let the heartbeat deadline of the node pass in a tick between the check and
    the event: the tick raises [CommLoss], [clear_fault] is accepted all the same and
    erases it, so the runtime is [Idle] without a fault while the supervisor has the node
    offline with the loss latched; an activation is then accepted, and any number of
    further ticks without a heartbeat leave the runtime [Active], because the loss is
    already latched. *)
Theorem clear_fault_loses_concurrent_fault d rt n q l f now1 now2 tick clock ws :
  parts d rt n q l → standing RuntimeMode.Fault f rt → failed_io (io_stop_reason l) = false →
  recovered q n → nsv_ever_seen n = true →
  0 < nsc_heartbeat_timeout (nsv_config n) ≤ tk_actual_ns tick - nsv_last_heartbeat_ns n →
  Forall (λ w, ∃ tick clock, w = WTick [] tick clock) ws →
  let late := WTick [] tick clock in
  let raised := daemon_workers d [late] in
  let '(d1, t1) := daemon_clear_fault now1 [] [] [late] d in
  let '(d2, t2) := daemon_activate now2 d1 in
  let d3 := daemon_workers d2 ws in
  option_map rt_fault (d_runtime raised) = Some FaultCode.CommLoss ∧
  accepted t1 = true ∧ option_map rt_mode (d_runtime d1) = Some RuntimeMode.Idle ∧
  option_map rt_fault (d_runtime d1) = Some FaultCode.None ∧
  option_map nsv_comm_loss_latched (d_supervisor d1) = Some true ∧
  accepted t2 = true ∧ option_map rt_mode (d_runtime d3) = Some RuntimeMode.Active ∧
  option_map nsv_online (d_supervisor d3) = Some false.
Proof.
  intros Hp Hst Hio Hrec Hseen Ht Hws late raised.
  pose proof Hrec as (_ & _ & Hcl & _ & Hon). specialize (Hon (or_introl Hseen)).
  assert (Hraised : option_map rt_fault (d_runtime raised) = Some FaultCode.CommLoss).
  { destruct (late_tick d rt n q l f tick clock Hp Hst Hseen Hon Hcl Ht) as (r' & n' & (Hr' & _) & (Hsm & _) & _).
    unfold raised, late, daemon_workers. cbn [foldl]. rewrite Hr'. cbn. unfold rt_fault. by rewrite Hsm. }
  assert (Hclear : daemon_clear_fault now1 [] [] [late] d =
    daemon_event now1 RuntimeEvent.FaultCleared
      (daemon_workers (d <| d_supervisor := Some (n <| nsv_restart_latched := false |>) |>) [late])).
  { pose proof Hp as (Hrt & Hn & Hq & Hl & _). pose proof Hst as (Hsm & _). unfold daemon_clear_fault, rt_mode.
    rewrite Hrt, Hsm. cbn [daemon_workers foldl sm_mode]. rewrite bool_decide_eq_true_2, Hl, Hio, Hn, Hq by done. cbn [negb].
    pose proof (acknowledge_cases (rt_fault rt) q n) as Ha. destruct (acknowledge_fault_clear _ q n) as [n' res].
    destruct Ha as [Hiff Hn']. rewrite (proj2 Hiff Hrec) in Hn'. destruct res; [by subst|]. by discriminate (proj2 Hiff Hrec). }
  rewrite Hclear. destruct (late_tick (d <| d_supervisor := Some (n <| nsv_restart_latched := false |>) |>) rt
    (n <| nsv_restart_latched := false |>) q l f tick clock) as (rt1 & n1 & Hp1 & Hst1 & Hoff & Hlat); try done.
  { destruct Hp as (? & ? & ? & ? & ? & ?). by split_and!. }
  cbn [daemon_workers foldl]. fold late in Hp1.
  destruct (standing_event now1 RuntimeEvent.FaultCleared _ _ RuntimeMode.Idle FaultCode.None _ _ _ _ _ Hp1 Hst1 ltac:(by left))
    as (rt2 & Hp2 & Hst2 & Ha1 & _).
  destruct (daemon_event now1 _ _) as [d1 t1]. cbn [fst snd] in *. unfold daemon_activate.
  destruct (standing_event now2 RuntimeEvent.ActivateRequest _ _ RuntimeMode.Active FaultCode.None _ _ _ _ _ Hp2 Hst2 ltac:(by right))
    as (rt3 & Hp3 & Hst3 & Ha2 & Hcl3).
  destruct (daemon_event now2 _ _) as [d2 t2]. cbn [fst snd] in *.
  destruct (silent_ticks ws _ _ _ _ _ Hws Hp3 Hst3 (Hcl3 eq_refl) Hoff) as (rt4 & n4 & (Hr4 & Hn4 & _) & (Hsm4 & _) & Hoff4).
  destruct Hp2 as (Hr2 & Hn2 & _), Hst2 as (Hsm2 & _).
  rewrite Hr2, Hn2, Hr4, Hn4. cbn. unfold rt_mode, rt_fault. rewrite Hsm2, Hsm4. cbn. by rewrite Hlat, Hoff4.
Qed.

(** A daemon in [Fault] that saw a heartbeat at 100. *)
Definition demo_seen : RuntimeDaemon :=
  daemon_workers demo_faulted [WTick [[demo_heartbeat 100]] (demo_tick 200) []].

Lemma clear_fault_loses_concurrent_fault_witness :
  let '(d1, t1) := daemon_clear_fault (Ok 400000001) [] [] [WTick [] (demo_tick 400000000) []] demo_seen in
  let '(d2, t2) := daemon_activate (Ok 400000002) d1 in
  accepted t1 = true ∧ accepted t2 = true ∧
  option_map nsv_online (d_supervisor (daemon_workers d2 [WTick [] (demo_tick 900000000) []])) = Some false.
Proof.
  eassert (Hp : parts demo_seen _ _ _ _) by (unfold parts; split_and!; vm_compute; reflexivity).
  pose proof (clear_fault_loses_concurrent_fault demo_seen _ _ _ _ FaultCode.NodeFault (Ok 400000001) (Ok 400000002)
    (demo_tick 400000000) [] [WTick [] (demo_tick 900000000) []] Hp) as H.
  cbv zeta in H. destruct (daemon_clear_fault _ _ _ _ demo_seen) as [d1 t1]. destruct (daemon_activate _ d1) as [d2 t2].
  destruct H as (_ & H1 & _ & _ & _ & H2 & _ & H3).
  - split_and!; vm_compute; reflexivity.
  - vm_compute; reflexivity.
  - split_and!; vm_compute; try reflexivity.
  - vm_compute; reflexivity.
  - vm_compute. split; [reflexivity|intros Hx; discriminate Hx].
  - constructor; [|constructor]. exists (demo_tick 900000000), []. reflexivity.
  - split; [exact H1|]. split; [exact H2|exact H3].
Defined.
