(* ===== verification/NodeSim.v ===== *)
(** * The CAN node

    [CanNodeLogic] of include/rcr/node_sim.hpp and src/sim/node_sim.cpp: the session,
    sequence and output-lease rules of one CAN node.  It reads no clock; the caller
    passes the receive and decision times. *)

From S2P Require Import Prelude Types CanV1.
Local Open Scope Z_scope.

Record NodeConfig := mkNodeConfig {
  nc_node_id : Z;
  nc_boot_id : Z;
  nc_session_id : Z;
  nc_interlock_ready : bool;
  nc_input_bits : Z;
  nc_fault_code : Z
}.

#[export] Instance NodeConfig_eta : Eta NodeConfig :=
  mkEta _ (fun c => mkNodeConfig (nc_node_id c) (nc_boot_id c) (nc_session_id c)
    (nc_interlock_ready c) (nc_input_bits c) (nc_fault_code c)).

Record HandleResult := mkHandleResult {
  hr_send_status : bool;
  hr_status : WireOutputStatus;
  hr_protocol_reject : bool
}.

(** [HandleResult result{};] *)
Definition no_response : HandleResult :=
  mkHandleResult false (mkWireOutputStatus 0 OutputResult.Applied 0 0 0) false.

Record CanNodeLogic := mkCanNodeLogic {
  nl_config : NodeConfig;
  nl_boot_id : Z;
  nl_session_id : Z;
  nl_hb_seq : Z;
  nl_output_bits : Z;
  nl_lease_active : bool;
  nl_lease_deadline_ns : Z;
  nl_has_accepted_sequence : bool;
  nl_last_accepted_sequence : Z;
  nl_protocol_rejects : Z
}.

#[export] Instance CanNodeLogic_eta : Eta CanNodeLogic :=
  mkEta _ (fun n => mkCanNodeLogic (nl_config n) (nl_boot_id n) (nl_session_id n) (nl_hb_seq n)
    (nl_output_bits n) (nl_lease_active n) (nl_lease_deadline_ns n) (nl_has_accepted_sequence n)
    (nl_last_accepted_sequence n) (nl_protocol_rejects n)).

Definition node_new (config : NodeConfig) : CanNodeLogic :=
  mkCanNodeLogic config
    (if nc_boot_id config =? 0 then 1 else nc_boot_id config)
    (if nc_session_id config =? 0 then 1 else nc_session_id config)
    0 0 false 0 false 0 0.

Definition next_nonzero_u16 (value : Z) : Z := if value =? 65535 then 1 else u16 (value + 1).

Definition drop_lease (n : CanNodeLogic) : CanNodeLogic :=
  n <| nl_output_bits := 0 |> <| nl_lease_active := false |> <| nl_lease_deadline_ns := 0 |>.

Definition node_set_interlock_ready (ready : bool) (n : CanNodeLogic) : CanNodeLogic :=
  let n := n <| nl_config ::= λ c, c <| nc_interlock_ready := ready |> |> in
  if negb ready then drop_lease n else n.

Definition node_set_input_bits (bits : Z) (n : CanNodeLogic) : CanNodeLogic :=
  n <| nl_config ::= λ c, c <| nc_input_bits := bits |> |>.

Definition node_set_fault_code (code : Z) (n : CanNodeLogic) : CanNodeLogic :=
  n <| nl_config ::= λ c, c <| nc_fault_code := code |> |>.

Definition soft_restart (n : CanNodeLogic) : CanNodeLogic :=
  drop_lease
    (n <| nl_boot_id ::= next_nonzero_u16 |> <| nl_session_id ::= next_nonzero_u16 |>
       <| nl_hb_seq := 0 |>)
    <| nl_has_accepted_sequence := false |> <| nl_last_accepted_sequence := 0 |>.

Definition make_heartbeat (n : CanNodeLogic) : CanNodeLogic * WireHeartbeat :=
  (n <| nl_hb_seq ::= λ s, u16 (s + 1) |>,
   mkWireHeartbeat (nc_node_id (nl_config n)) (nl_boot_id n) (nl_session_id n) (nl_hb_seq n)).

Definition make_status (n : CanNodeLogic) : WireNodeStatus :=
  mkWireNodeStatus (nc_node_id (nl_config n)) (nc_interlock_ready (nl_config n))
    (nl_session_id n) (nc_input_bits (nl_config n)) (nc_fault_code (nl_config n)).

Definition expire_output_lease (now_ns : Z) (n : CanNodeLogic) : CanNodeLogic * bool :=
  if negb (nl_lease_active n) || (now_ns <? nl_lease_deadline_ns n) then (n, false)
  else (drop_lease n, true).

(** The outputs after a command: masked bits take the values, others stay. *)
Definition merge_outputs (bits mask values : Z) : Z :=
  u8 (Z.lor (Z.land bits (u8 (Z.lnot mask))) (Z.land values mask)).

Definition apply_command (cmd : WireOutputCommand) (receive_ns now_ns : Z) (n : CanNodeLogic)
    : CanNodeLogic * HandleResult :=
  let '(n, _) := expire_output_lease now_ns n in
  let respond n result mirror :=
    (n, mkHandleResult true
          (mkWireOutputStatus (nc_node_id (nl_config n)) result (nl_session_id n)
             (oc_sequence cmd) mirror) false) in
  let deadline := deadline_from_validity_10ms receive_ns (oc_validity_10ms cmd) in
  if negb (oc_session_id cmd =? nl_session_id n) then
    respond n OutputResult.SessionMismatch (nl_output_bits n)
  else if negb (nc_interlock_ready (nl_config n)) then
    respond n OutputResult.NotReady (nl_output_bits n)
  else if nl_has_accepted_sequence n &&
          negb (seq_newer (oc_sequence cmd) (nl_last_accepted_sequence n)) then
    respond n OutputResult.StaleSequence (nl_output_bits n)
  else if deadline <=? now_ns then
    respond n OutputResult.Expired (nl_output_bits n)
  else
    let bits := merge_outputs (nl_output_bits n) (oc_mask cmd) (oc_values cmd) in
    respond (n <| nl_output_bits := bits |> <| nl_lease_active := true |>
               <| nl_lease_deadline_ns := deadline |> <| nl_has_accepted_sequence := true |>
               <| nl_last_accepted_sequence := oc_sequence cmd |>)
      OutputResult.Applied bits.

Definition on_frame (frame : CanFrame) (now_ns : Z) (n : CanNodeLogic)
    : CanNodeLogic * HandleResult :=
  let raw11 := Z.land (can_id frame) kCanSffMask in
  if negb (function_from_can_id raw11 =? function_code Function.OutputCommand) ||
     negb (node_id_from_can_id raw11 =? nc_node_id (nl_config n)) then (n, no_response)
  else
    match decode_output_command frame with
    | Err _ =>
        (n <| nl_protocol_rejects ::= incr64 |>,
         mkHandleResult false (hr_status no_response) true)
    | Ok cmd => apply_command cmd now_ns now_ns n
    end.

(** ** Operation sequences *)

Inductive node_op :=
  | OpFrame (f : CanFrame) (now : Z)
  | OpExpire (now : Z)
  | OpInterlock (ready : bool)
  | OpInputBits (bits : Z)
  | OpFaultCode (code : Z)
  | OpRestart
  | OpHeartbeat.

Definition node_apply (n : CanNodeLogic) (o : node_op) : CanNodeLogic :=
  match o with
  | OpFrame f now => fst (on_frame f now n)
  | OpExpire now => fst (expire_output_lease now n)
  | OpInterlock ready => node_set_interlock_ready ready n
  | OpInputBits bits => node_set_input_bits bits n
  | OpFaultCode code => node_set_fault_code code n
  | OpRestart => soft_restart n
  | OpHeartbeat => fst (make_heartbeat n)
  end.

(** The latest time a frame was handled at. *)
Definition frame_time (t : Z) (o : node_op) : Z :=
  match o with OpFrame _ now => Z.max t now | _ => t end.

Definition max_lease_ns : Z := kMaxValidity10ms * kValidityUnitNs.

Record node_inv (latest : Z) (n : CanNodeLogic) : Prop := {
  nv_bits : is_u 8 (nl_output_bits n);
  nv_neutral : nl_lease_active n = false → nl_output_bits n = 0;
  nv_lease : nl_lease_active n = true →
    nc_interlock_ready (nl_config n) = true ∧ nl_has_accepted_sequence n = true ∧
    nl_lease_deadline_ns n ≤ latest + max_lease_ns;
  nv_boot : 1 ≤ nl_boot_id n ≤ 65535;
  nv_session : 1 ≤ nl_session_id n ≤ 65535
}.

Lemma node_inv_weaken t t' n : t ≤ t' → node_inv t n → node_inv t' n.
Proof. intros ? []. constructor; try done. intros Hl. destruct (nv_lease0 Hl) as (? & ? & ?). split_and!; try done. lia. Qed.

Lemma drop_lease_inv t n :
  1 ≤ nl_boot_id n ≤ 65535 → 1 ≤ nl_session_id n ≤ 65535 → node_inv t (drop_lease n).
Proof. intros. constructor; cbn; done. Qed.

Lemma next_nonzero_range v : 0 ≤ v ≤ 65535 → 1 ≤ next_nonzero_u16 v ≤ 65535.
Proof.
  intros. unfold next_nonzero_u16. destruct (Z.eqb_spec v 65535); [lia|].
  rewrite u16_small by width_lia. lia.
Qed.

Lemma expire_inv t now n : node_inv t n → node_inv t (fst (expire_output_lease now n)).
Proof.
  intros []. unfold expire_output_lease. destruct (_ || _); [by constructor|]. by apply drop_lease_inv.
Qed.

Lemma validity_of_decoded f m :
  decode_output_command f = Ok m → 1 ≤ oc_validity_10ms m ≤ 250.
Proof.
  unfold decode_output_command, kMinValidity10ms, kMaxValidity10ms. intros Hd.
  apply res_bind_Ok in Hd as (? & _ & Hd). apply res_bind_Ok in Hd as (? & _ & Hd).
  revert Hd. cbv zeta. repeat (destruct (_ =? 0); [done|]). destruct (_ || _) eqn:Hv; [done|].
  intros [= <-]. bools. cbn in *. lia.
Qed.

(** *** The decision *)

Lemma merge_outputs_bits bits mask values i :
  0 ≤ i < 8 → is_u 8 mask →
  Z.testbit (merge_outputs bits mask values) i =
  if Z.testbit mask i then Z.testbit values i else Z.testbit bits i.
Proof.
  intros Hi Hm. unfold merge_outputs, u8, wrap.
  rewrite Z.mod_pow2_bits_low, Z.lor_spec, !Z.land_spec, Z.mod_pow2_bits_low, Z.lnot_spec by lia.
  by destruct (Z.testbit mask i), (Z.testbit bits i), (Z.testbit values i).
Qed.

(** The contract's conditions for applying a command, in the node's state after the
    lease was brought up to date. *)
Definition applicable (cmd : WireOutputCommand) (receive_ns now_ns : Z) (n : CanNodeLogic) : Prop :=
  oc_session_id cmd = nl_session_id n ∧ nc_interlock_ready (nl_config n) = true ∧
  (nl_has_accepted_sequence n = true →
   seq_newer (oc_sequence cmd) (nl_last_accepted_sequence n) = true) ∧
  now_ns < deadline_from_validity_10ms receive_ns (oc_validity_10ms cmd).

Definition applied_state (cmd : WireOutputCommand) (receive_ns : Z) (n : CanNodeLogic) : CanNodeLogic :=
  n <| nl_output_bits := merge_outputs (nl_output_bits n) (oc_mask cmd) (oc_values cmd) |>
    <| nl_lease_active := true |>
    <| nl_lease_deadline_ns := deadline_from_validity_10ms receive_ns (oc_validity_10ms cmd) |>
    <| nl_has_accepted_sequence := true |> <| nl_last_accepted_sequence := oc_sequence cmd |>.

Lemma apply_command_cases cmd receive_ns now_ns n :
  let n0 := fst (expire_output_lease now_ns n) in
  let '(n', r) := apply_command cmd receive_ns now_ns n in
  hr_send_status r = true ∧ os_session_id (hr_status r) = nl_session_id n ∧
  os_node_id (hr_status r) = nc_node_id (nl_config n) ∧
  os_sequence (hr_status r) = oc_sequence cmd ∧ os_output_mirror (hr_status r) = nl_output_bits n' ∧
  ((os_result (hr_status r) = OutputResult.Applied ∧ applicable cmd receive_ns now_ns n0 ∧
    n' = applied_state cmd receive_ns n0) ∨
   (os_result (hr_status r) ≠ OutputResult.Applied ∧ ¬ applicable cmd receive_ns now_ns n0 ∧ n' = n0)).
Proof.
  unfold apply_command, applicable.
  assert (Hs : nl_session_id (fst (expire_output_lease now_ns n)) = nl_session_id n ∧
    nl_config (fst (expire_output_lease now_ns n)) = nl_config n)
    by (unfold expire_output_lease; by destruct (_ || _)).
  destruct (expire_output_lease now_ns n) as [n0 b]. cbn [fst] in *. destruct Hs as [Hs Hc]. cbv zeta.
  destruct (negb (_ =? _)) eqn:H1; bools; [cbn; rewrite Hc; split_and!; try done; right; naive_solver|].
  destruct (negb (nc_interlock_ready _)) eqn:H2; bools;
    [cbn; rewrite Hc; split_and!; try done; right; split_and!; try done; intros (_ & ? & _); congruence|].
  destruct (_ && _) eqn:H3; bools;
    [cbn; rewrite Hc; split_and!; try done; right; split_and!; try done; intros (_ & _ & Hq & _); apply Hq in H; congruence|].
  destruct (_ <=? _) eqn:H4; bools;
    [cbn; rewrite Hc; split_and!; try done; right; split_and!; try done; intros (_ & _ & _ & ?); lia|].
  cbn. rewrite Hc, Hs. split_and!; try done. left. split_and!; try done; [congruence|congruence|].
  intros Ha. rewrite Ha in H3. cbn in H3. by bools.
Qed.

Lemma on_frame_inv t f now n :
  node_inv t n → node_inv (Z.max t now) (fst (on_frame f now n)).
Proof.
  intros Hinv. assert (Hw : node_inv (Z.max t now) n) by (eapply node_inv_weaken; [|done]; lia).
  unfold on_frame. destruct (_ || _); [done|].
  destruct (decode_output_command f) as [cmd|] eqn:Hd; [|by destruct Hw; constructor].
  pose proof (validity_of_decoded _ _ Hd) as Hv.
  pose proof (apply_command_cases cmd now now n) as Hc.
  pose proof (expire_inv _ now _ Hw) as Hw0.
  destruct (apply_command cmd now now n) as [n' r]. cbn.
  destruct Hc as (_ & _ & _ & _ & _ & [(_ & (_ & Hi & _) & ->)|(_ & _ & ->)]); [|done].
  destruct Hw0. constructor; cbn; try done; [apply u8_range|]. intros _. split_and!; try done.
  unfold deadline_from_validity_10ms, max_lease_ns, kMaxValidity10ms, kValidityUnitNs. lia.
Qed.

Lemma node_apply_inv t n o : node_inv t n → node_inv (frame_time t o) (node_apply n o).
Proof.
  intros Hinv. destruct o; cbn [node_apply frame_time].
  - by apply on_frame_inv.
  - by apply expire_inv.
  - destruct Hinv. unfold node_set_interlock_ready. destruct ready; cbn [negb]; [|by apply drop_lease_inv].
    constructor; cbn; try done. intros Hl. by destruct (nv_lease0 Hl) as (_ & ? & ?).
  - destruct Hinv. by constructor.
  - destruct Hinv. by constructor.
  - destruct Hinv. constructor; cbn; try done; apply next_nonzero_range; lia.
  - destruct Hinv. by constructor.
Qed.

Lemma node_new_inv config :
  is_u 16 (nc_boot_id config) → is_u 16 (nc_session_id config) → ∀ t, node_inv t (node_new config).
Proof.
  intros Hb Hs t. constructor; cbn; try done.
  - destruct (Z.eqb_spec (nc_boot_id config) 0); width_lia.
  - destruct (Z.eqb_spec (nc_session_id config) 0); width_lia.
Qed.

Lemma node_run_inv config ops t :
  is_u 16 (nc_boot_id config) → is_u 16 (nc_session_id config) →
  node_inv (foldl frame_time t ops) (foldl node_apply (node_new config) ops).
Proof.
  intros Hb Hs. induction ops as [|o ops IH] using rev_ind; [by apply node_new_inv|].
  rewrite !foldl_app. cbn. by apply node_apply_inv.
Qed.

(** A node drives outputs only under a live lease: after any sequence of frames,
    lease checks, interlock changes and restarts, non-neutral outputs mean an active
    lease, a ready interlock and an accepted command of this session, and the lease
    ends within 2.5 s of the last handled frame; at that deadline the outputs are
    neutral. *)
Theorem node_outputs_bounded config ops t0 :
  is_u 16 (nc_boot_id config) → is_u 16 (nc_session_id config) →
  let n := foldl node_apply (node_new config) ops in
  (nl_output_bits n ≠ 0 →
   nl_lease_active n = true ∧ nc_interlock_ready (nl_config n) = true ∧
   nl_has_accepted_sequence n = true ∧
   nl_lease_deadline_ns n ≤ foldl frame_time t0 ops + 2500000000) ∧
  (∀ t, nl_lease_deadline_ns n ≤ t → nl_output_bits (fst (expire_output_lease t n)) = 0).
Proof.
  intros Hb Hs n. pose proof (node_run_inv config ops t0 Hb Hs) as Hinv. fold n in Hinv.
  clearbody n. destruct Hinv. split.
  - intros Ho. destruct (nl_lease_active n); [|by rewrite nv_neutral0 in Ho].
    destruct (nv_lease0 eq_refl) as (? & ? & Hd). split_and!; done.
  - intros t Ht. unfold expire_output_lease. destruct (nl_lease_active n); cbn; [|by apply nv_neutral0].
    rewrite (proj2 (Z.ltb_ge _ _)) by done. done.
Qed.

Definition demo_node : NodeConfig := mkNodeConfig 1 1 7 true 0 0.
Definition demo_wire (q : Z) : WireOutputCommand := mkWireOutputCommand 1 5 7 q 5 10.
Definition demo_frame (q : Z) : CanFrame :=
  match encode_output_command (demo_wire q) with Ok f => f | Err _ => mkCanFrame 0 0 [] end.

Lemma node_outputs_bounded_witness :
  let n := foldl node_apply (node_new demo_node) [OpFrame (demo_frame 1) 100] in
  nl_output_bits n = 5 ∧ nl_lease_deadline_ns n ≤ 100 + 2500000000.
Proof.
  intros n. split; [vm_compute; reflexivity|].
  apply (node_outputs_bounded demo_node [OpFrame (demo_frame 1) 100] 100).
  - unfold is_u. cbn. lia.
  - unfold is_u. cbn. lia.
  - vm_compute. discriminate.
Defined.

(** The node's verdict follows the contract: a decoded command is always
    answered with the node's own session and the command's sequence and the resulting
    outputs; it is applied exactly when session, interlock, sequence freshness and
    deadline all hold (judged after an expired lease was dropped); a refusal changes
    nothing, and an application sets exactly the masked bits. *)
Theorem node_verdict cmd receive_ns now_ns n :
  is_u 8 (oc_mask cmd) →
  let n0 := fst (expire_output_lease now_ns n) in
  let '(n', r) := apply_command cmd receive_ns now_ns n in
  hr_send_status r = true ∧ os_session_id (hr_status r) = nl_session_id n ∧
  os_sequence (hr_status r) = oc_sequence cmd ∧ os_output_mirror (hr_status r) = nl_output_bits n' ∧
  (os_result (hr_status r) = OutputResult.Applied ↔ applicable cmd receive_ns now_ns n0) ∧
  (os_result (hr_status r) ≠ OutputResult.Applied → n' = n0) ∧
  (os_result (hr_status r) = OutputResult.Applied →
   ∀ i, 0 ≤ i < 8 → Z.testbit (nl_output_bits n') i =
     if Z.testbit (oc_mask cmd) i then Z.testbit (oc_values cmd) i
     else Z.testbit (nl_output_bits n0) i).
Proof.
  intros Hm n0. pose proof (apply_command_cases cmd receive_ns now_ns n) as Hc. fold n0 in Hc.
  destruct (apply_command cmd receive_ns now_ns n) as [n' r].
  destruct Hc as (? & ? & _ & ? & ? & [(Hr & Ha & ->)|(Hr & Ha & ->)]).
  - split_and!; try done. intros _ i Hi. by apply merge_outputs_bits.
  - split_and!; try done. 
Qed.

Lemma node_verdict_witness :
  let n := foldl node_apply (node_new demo_node) [OpFrame (demo_frame 1) 100] in
  os_result (hr_status (snd (apply_command (demo_wire 1) 200 200 n))) = OutputResult.StaleSequence ∧
  os_sequence (hr_status (snd (apply_command (demo_wire 1) 200 200 n))) = 1.
Proof.
  intros n. split; [vm_compute; reflexivity|].
  pose proof (node_verdict (demo_wire 1) 200 200 n ltac:(unfold is_u; cbn; lia)) as H.
  cbv zeta in H. destruct (apply_command (demo_wire 1) 200 200 n) as [n' r]. cbn in *. apply H.
Defined.

(** No replay on the node: a command that was applied is never applied again in
    its session, at whatever times it is delivered again, and after a restart it is
    refused as belonging to another session. *)
Theorem node_refuses_replay cmd r1 t1 n n1 h1 :
  1 ≤ nl_session_id n ≤ 65535 →
  apply_command cmd r1 t1 n = (n1, h1) → os_result (hr_status h1) = OutputResult.Applied →
  ∀ r2 t2,
    os_result (hr_status (snd (apply_command cmd r2 t2 n1))) ≠ OutputResult.Applied ∧
    os_result (hr_status (snd (apply_command cmd r2 t2 (soft_restart n1)))) = OutputResult.SessionMismatch.
Proof.
  intros Hrange Ha Hres r2 t2.
  assert (Hne : nl_session_id n ≠ next_nonzero_u16 (nl_session_id n)).
  { unfold next_nonzero_u16. destruct (Z.eqb_spec (nl_session_id n) 65535); [lia|].
    rewrite u16_small by width_lia. lia. }
  pose proof (apply_command_cases cmd r1 t1 n) as Hc. rewrite Ha in Hc.
  destruct Hc as (_ & _ & _ & _ & _ & [(_ & (Hses & _) & ->)|(Hbad & _)]); [|done].
  set (n0 := fst (expire_output_lease t1 n)) in *.
  assert (Hs0 : nl_session_id n0 = nl_session_id n)
    by (unfold n0, expire_output_lease; by destruct (_ || _)).
  split.
  - set (n1 := applied_state cmd r1 n0).
    pose proof (apply_command_cases cmd r2 t2 n1) as Hc.
    destruct (apply_command cmd r2 t2 n1) as [n2 h2]. cbn.
    destruct Hc as (_ & _ & _ & _ & _ & [(_ & (_ & _ & Hnew & _) & _)|(Hbad & _)]); [|done].
    exfalso. assert (Hk : ∀ m, m = fst (expire_output_lease t2 n1) →
      nl_has_accepted_sequence m = true ∧ nl_last_accepted_sequence m = oc_sequence cmd).
    { intros m ->. unfold expire_output_lease. by destruct (_ || _). }
    destruct (Hk _ eq_refl) as [H1 H2]. specialize (Hnew H1). rewrite H2 in Hnew.
    unfold seq_newer in Hnew. by rewrite Z.eqb_refl in Hnew.
  - unfold apply_command. 
    assert (Hl : expire_output_lease t2 (soft_restart (applied_state cmd r1 n0)) =
      (soft_restart (applied_state cmd r1 n0), false)) by done.
    rewrite Hl. cbn. rewrite Hses, Hs0, (proj2 (Z.eqb_neq _ _)) by done. done.
Qed.

Lemma node_refuses_replay_witness :
  let n1 := fst (apply_command (demo_wire 1) 100 100 (node_new demo_node)) in
  os_result (hr_status (snd (apply_command (demo_wire 1) 150 150 n1))) ≠ OutputResult.Applied.
Proof.
  intros n1. apply (node_refuses_replay (demo_wire 1) 100 100 (node_new demo_node) n1
    (snd (apply_command (demo_wire 1) 100 100 (node_new demo_node)))).
  - cbn. lia.
  - vm_compute. reflexivity.
  - vm_compute. reflexivity.
Defined.
