(* ===== verification/ClosedLoop.v ===== *)
(** * The closed loop

    Runtime, CAN I/O, wire protocol, node and supervisor together: a command the
    runtime tracks reaches the node as the frame the pump sent, the node's answer
    comes back as a frame, and the event made from it releases the runtime for the
    next command; no other answer does. *)

From S2P Require Import Prelude Types StateMachine Mailbox Watchdog Ring Trace CanV1 InputQueue.
From S2P Require Import Scheduler Runtime RuntimeInv RuntimeSafety Supervisor Supervision LinuxIo CanIo NodeSim.
Local Open Scope Z_scope.



(** The acknowledgement that closes the in-flight command. *)
Lemma observe_releases w t rt :
  tracks w rt →
  rt_output_ack_pending
    (rt_observe_output_status (oc_session_id w) (oc_sequence w) OutputResult.Applied t rt) = false.
Proof.
  intros (Hp & Hs & Hq). unfold rt_observe_output_status, rt_record. cbn.
  rewrite Hp, Hs, Hq, !Z.eqb_refl. cbn.
  unfold maybe_disarm_idle_command_watchdog. cbn. by destruct (_ && _).
Qed.

(** Any other status leaves the command in flight and is counted. *)
Lemma observe_other session sequence result t rt :
  rt_output_ack_pending rt = true →
  ¬ (session = rt_last_sent_session rt ∧ sequence = rt_last_sent_sequence rt ∧
     result = OutputResult.Applied) →
  let rt' := rt_observe_output_status session sequence result t rt in
  rt_output_ack_pending rt' = true ∧
  rt_unexpected_ack_count rt' = incr64 (rt_unexpected_ack_count rt).
Proof.
  intros Hp Hn. unfold rt_observe_output_status, rt_record. cbn. rewrite Hp. cbn.
  destruct (_ && _) eqn:Hg; [|done]. bools. exfalso. apply Hn. auto.
Qed.

(** Only the matching acknowledgement releases the output path: while a command
    is in flight, an observed status ends it exactly when it carries the tracked
    session and sequence and the result APPLIED; every other status is counted as
    unexpected and leaves the command outstanding for the ACK timeout. *)
Theorem only_matching_ack_releases session sequence result t rt :
  rt_output_ack_pending rt = true →
  let rt' := rt_observe_output_status session sequence result t rt in
  (rt_output_ack_pending rt' = false ↔
     session = rt_last_sent_session rt ∧ sequence = rt_last_sent_sequence rt ∧
     result = OutputResult.Applied) ∧
  (rt_output_ack_pending rt' = true →
     rt_unexpected_ack_count rt' = incr64 (rt_unexpected_ack_count rt)).
Proof.
  intros Hp rt'.
  destruct (decide (session = rt_last_sent_session rt ∧ sequence = rt_last_sent_sequence rt ∧
                    result = OutputResult.Applied)) as [(-> & -> & ->)|Hn].
  - assert (Hr : rt_output_ack_pending rt' = false).
    { apply (observe_releases (mkWireOutputCommand 0 0 (rt_last_sent_session rt)
        (rt_last_sent_sequence rt) 0 0)). done. }
    rewrite Hr. done.
  - destruct (observe_other session sequence result t rt Hp Hn) as [Hr Hc]. fold rt' in Hr, Hc.
    rewrite Hr. split; [split; [done|tauto]|done].
Qed.

Lemma only_matching_ack_releases_witness :
  let rt := demo_rt [CPublish (Ok 10) (demo_command 1); CConsume (Ok 20); CSent 7 1 30] in
  rt_output_ack_pending (rt_observe_output_status 7 1 OutputResult.Applied 40 rt) = false.
Proof.
  intros rt. apply (only_matching_ack_releases 7 1 OutputResult.Applied 40 rt).
  - vm_compute. reflexivity.
  - vm_compute. auto.
Defined.



