(* ===== verification/Bytes.v ===== *)
(** * Byte sequences

    What the codecs above the CAN bus share: byte lists, the little-endian fields the
    sources append and read with shifts and masks, and the CRC-16/IBM that Modbus RTU
    and the remote frames use.  The CRC is linear over exclusive or, so what it detects
    is a statement about the difference of two messages. *)

From Stdlib Require Import Ascii.
From S2P Require Import Prelude Types.
Local Open Scope Z_scope.

Notation bytes_wf l := (Forall is_byte l).

(** [p[i]]; every index the sources use is below the length they checked. *)
Definition byte_at (l : list Z) (i : nat) : Z := default 0 (l !! i).

Lemma byte_at_app_l l1 l2 i : (i < length l1)%nat → byte_at (l1 ++ l2) i = byte_at l1 i.
Proof. intros. unfold byte_at. by rewrite lookup_app_l. Qed.

Lemma byte_at_range l i : bytes_wf l → is_byte (byte_at l i).
Proof.
  intros Hl. unfold byte_at. destruct (l !! i) eqn:E; [|done]. by eapply Forall_lookup_1 in Hl.
Qed.

(** ** Little-endian fields *)

(** [(value >> (8 * i)) & 0xFF], cast to 8 bits. *)
Definition le_byte (value : Z) (i : nat) : Z :=
  u8 (Z.land (Z.shiftr value (8 * Z.of_nat i)) 0xFF).

(** The first [n] bytes, least significant first. *)
Definition le_bytes (n : nat) (value : Z) : list Z := map (le_byte value) (seq 0 n).

(** [p[0] | p[1] << 8 | ...] over [n] bytes from offset [o]. *)
Definition le_read (n o : nat) (l : list Z) : Z :=
  foldl (λ v i, Z.lor v (Z.shiftl (byte_at l (o + i)) (8 * Z.of_nat i))) 0 (seq 0 n).

Lemma le_byte_value v i : le_byte v i = (v / 2 ^ (8 * Z.of_nat i)) mod 256.
Proof.
  unfold le_byte. change 0xFF with (Z.ones 8). rewrite land_mask_div by lia.
  rewrite u8_small; [done|]. apply (wrap_range 8). lia.
Qed.

Lemma le_byte_range v i : is_byte (le_byte v i).
Proof. apply u8_range. Qed.

Lemma le_bytes_length n v : length (le_bytes n v) = n.
Proof. unfold le_bytes. by rewrite length_map, length_seq. Qed.

Lemma le_bytes_wf n v : bytes_wf (le_bytes n v).
Proof. apply Forall_forall. intros b (i & -> & _)%list_elem_of_fmap. apply le_byte_range. Qed.

Lemma le_bytes_at n v i : (i < n)%nat → byte_at (le_bytes n v) i = le_byte v i.
Proof.
  intros Hi. unfold byte_at, le_bytes. rewrite list_lookup_fmap.
  rewrite lookup_seq_lt by done. done.
Qed.

(** Reading back what was written, wherever the field lies. *)
Lemma le_read_value n o l v :
  (∀ i, (i < n)%nat → byte_at l (o + i) = le_byte v i) →
  le_read n o l = v mod 2 ^ (8 * Z.of_nat n).
Proof.
  induction n as [|n IH]; intros Hl; [by rewrite Z.mod_1_r|].
  unfold le_read in *. rewrite seq_S, foldl_app. cbn [foldl].
  rewrite IH by (intros; apply Hl; lia). rewrite (Nat.add_0_l n), Hl by lia.
  rewrite le_byte_value. set (e := 8 * Z.of_nat n).
  replace (8 * Z.of_nat (S n)) with (e + 8) by lia.
  rewrite Z.lor_comm, lor_shiftl_add by (lia || (apply Z.mod_pos_bound; lia)).
  rewrite Z.pow_add_r by lia. change (2 ^ 8) with 256.
  rewrite (Z.rem_mul_r v (2 ^ e) 256) by lia. lia.
Qed.

Lemma le_read_written n o l v rest :
  drop o l = le_bytes n v ++ rest → is_u (8 * Z.of_nat n) v → le_read n o l = v.
Proof.
  intros Hd Hv. rewrite (le_read_value n o l v); [by apply (wrap_small (8 * Z.of_nat n))|].
  intros i Hi. unfold byte_at. rewrite <- lookup_drop, Hd, lookup_app_l by by rewrite le_bytes_length.
  change (byte_at (le_bytes n v) i = le_byte v i). by apply le_bytes_at.
Qed.

Lemma le_read_app n o l1 l2 :
  (o + n ≤ length l1)%nat → le_read n o (l1 ++ l2) = le_read n o l1.
Proof.
  intros Hn. unfold le_read. assert (∀ z, foldl (λ v i, Z.lor v (Z.shiftl (byte_at (l1 ++ l2) (o + i))
    (8 * Z.of_nat i))) z (seq 0 n) = foldl (λ v i, Z.lor v (Z.shiftl (byte_at l1 (o + i))
    (8 * Z.of_nat i))) z (seq 0 n)) as ->; [|done].
  assert (Hs : Forall (λ i, (i < n)%nat) (seq 0 n))
    by (apply Forall_forall; intros i Hi; apply elem_of_seq in Hi; lia).
  induction Hs as [|i ks Hi _ IH]; intros z; [done|]. cbn. by rewrite byte_at_app_l, IH by lia.
Qed.

(** ** CRC-16/IBM *)

(** One turn of the inner loop. *)
Definition crc_bit (crc : Z) : Z :=
  if negb (Z.land crc 0x0001 =? 0) then u16 (Z.lxor (Z.shiftr crc 1) 0xA001)
  else u16 (Z.shiftr crc 1).

(** One byte: exclusive or, then eight turns. *)
Definition crc_byte (crc byte : Z) : Z := Nat.iter 8 crc_bit (Z.lxor crc byte).

Definition crc16 (data : list Z) : Z := foldl crc_byte 0xFFFF data.

Lemma lxor_range w a b : 0 ≤ w → is_u w a → is_u w b → is_u w (Z.lxor a b).
Proof.
  intros Hw [Ha Ha'] [Hb Hb']. unfold is_u.
  assert (Hm : Z.lxor a b mod 2 ^ w = Z.lxor a b).
  { apply Z.bits_inj'. intros i Hi. destruct (Z.lt_ge_cases i w).
    - by rewrite Z.mod_pow2_bits_low.
    - rewrite Z.mod_pow2_bits_high, Z.lxor_spec by lia.
      rewrite <- (Z.mod_small a (2 ^ w)), <- (Z.mod_small b (2 ^ w)) by done.
      by rewrite !Z.mod_pow2_bits_high by lia. }
  rewrite <- Hm. apply Z.mod_pos_bound. lia.
Qed.

Lemma crc_bit_range c : is_u 16 (crc_bit c).
Proof. unfold crc_bit. destruct (negb _); apply u16_range. Qed.

Lemma crc_bit_value c :
  is_u 16 c → crc_bit c = Z.lxor (Z.shiftr c 1) (if Z.testbit c 0 then 0xA001 else 0).
Proof.
  intros Hc. unfold crc_bit. change 0x0001 with (Z.ones 1). rewrite Z.land_ones by done.
  change (2 ^ 1) with 2. rewrite (Zmod_odd c), <- Z.bit0_odd.
  assert (Hs : is_u 16 (Z.shiftr c 1))
    by (rewrite Z.shiftr_div_pow2 by done; unfold is_u in *;
        split; [apply Z.div_pos; lia|apply Z.div_lt_upper_bound; width_lia]).
  destruct (Z.testbit c 0); cbn [negb Z.eqb].
  - apply u16_small, lxor_range; done.
  - rewrite Z.lxor_0_r. by apply u16_small.
Qed.

Lemma crc_bit_lxor a b :
  is_u 16 a → is_u 16 b → crc_bit (Z.lxor a b) = Z.lxor (crc_bit a) (crc_bit b).
Proof.
  intros Ha Hb. rewrite !crc_bit_value by (done || by apply lxor_range).
  rewrite Z.shiftr_lxor, Z.lxor_spec. apply Z.bits_inj'. intros i Hi. rewrite !Z.lxor_spec.
  destruct (Z.testbit a 0), (Z.testbit b 0); cbn [xorb]; rewrite ?Z.bits_0;
    destruct (Z.testbit (Z.shiftr a 1) i), (Z.testbit (Z.shiftr b 1) i), (Z.testbit 0xA001 i); done.
Qed.

Lemma crc_bit_zero c : is_u 16 c → crc_bit c = 0 → c = 0.
Proof.
  intros Hc. rewrite crc_bit_value by done. intros H0. apply Z.lxor_eq in H0.
  rewrite Z.shiftr_div_pow2 in H0 by done. change (2 ^ 1) with 2 in H0.
  pose proof (Z.bit0_odd c) as Ho. pose proof (Zmod_odd c) as Hm. pose proof (Z.div_mod c 2).
  destruct (Z.testbit c 0); rewrite <- Ho in Hm; width_lia.
Qed.

Opaque crc_bit.

Lemma iter_crc_range n c : is_u 16 c → is_u 16 (Nat.iter n crc_bit c).
Proof. destruct n; [done|]. intros _. apply crc_bit_range. Qed.

Lemma iter_crc_lxor n a b :
  is_u 16 a → is_u 16 b →
  Nat.iter n crc_bit (Z.lxor a b) = Z.lxor (Nat.iter n crc_bit a) (Nat.iter n crc_bit b).
Proof.
  intros Ha Hb. induction n as [|n IH]; [done|]. cbn [Nat.iter nat_rect] in *.
  unfold Nat.iter in IH. rewrite IH. apply crc_bit_lxor; by apply (iter_crc_range n).
Qed.

Lemma iter_crc_zero n c : is_u 16 c → Nat.iter n crc_bit c = 0 → c = 0.
Proof.
  intros Hc. induction n as [|n IH]; [done|]. intros H0. apply IH.
  apply crc_bit_zero; [by apply iter_crc_range|done].
Qed.

Lemma byte_u16 b : is_byte b → is_u 16 b.
Proof. unfold is_byte. width_lia. Qed.

Lemma crc_byte_range c b : is_u 16 c → is_byte b → is_u 16 (crc_byte c b).
Proof. intros. apply iter_crc_range, lxor_range; [done|done|by apply byte_u16]. Qed.

Lemma crc_fold_range c l : is_u 16 c → bytes_wf l → is_u 16 (foldl crc_byte c l).
Proof.
  intros Hc Hl. revert c Hc. induction Hl; intros c Hc; [done|]. cbn. by apply IHHl, crc_byte_range.
Qed.

Lemma crc16_range l : bytes_wf l → is_u 16 (crc16 l).
Proof. by apply crc_fold_range. Qed.

(** The difference of two states after one byte each. *)
Lemma crc_byte_diff c c' b b' :
  is_u 16 c → is_u 16 c' → is_byte b → is_byte b' →
  Z.lxor (crc_byte c b) (crc_byte c' b') = crc_byte (Z.lxor c c') (Z.lxor b b').
Proof.
  intros Hc Hc' Hb%byte_u16 Hb'%byte_u16. unfold crc_byte.
  rewrite <- iter_crc_lxor by by apply lxor_range. f_equal.
  apply Z.bits_inj'. intros i Hi. rewrite !Z.lxor_spec.
  by destruct (Z.testbit c i), (Z.testbit c' i), (Z.testbit b i), (Z.testbit b' i).
Qed.

Lemma crc_byte_zero c b : is_u 16 c → is_u 16 b → crc_byte c b = 0 → c = b.
Proof.
  intros Hc Hb H0. apply Z.lxor_eq. unfold crc_byte in H0.
  exact (iter_crc_zero 8 _ (lxor_range 16 c b ltac:(done) Hc Hb) H0).
Qed.

Lemma crc_byte_inj c c' b :
  is_u 16 c → is_u 16 c' → is_byte b → crc_byte c b = crc_byte c' b → c = c'.
Proof.
  intros Hc Hc' Hb He. pose proof (crc_byte_diff c c' b b Hc Hc' Hb Hb) as Hd.
  rewrite He, !Z.lxor_nilpotent in Hd. apply Z.lxor_eq. symmetry in Hd.
  apply crc_byte_zero in Hd; [done|by apply lxor_range|done].
Qed.

Lemma crc_fold_inj c c' l :
  is_u 16 c → is_u 16 c' → bytes_wf l → foldl crc_byte c l = foldl crc_byte c' l → c = c'.
Proof.
  intros Hc Hc' Hl. revert c c' Hc Hc'. induction Hl as [|b l Hb _ IH]; intros c c' Hc Hc'; [done|].
  cbn. intros He. apply (crc_byte_inj c c' b); try done. by apply IH; [apply crc_byte_range..|].
Qed.

(** A single byte never shifts out to a remainder that one more byte could cancel. *)
Lemma crc_one_byte d : is_byte d → is_byte (crc_byte 0 d) → d = 0.
Proof.
  intros Hd Hs.
  pose proof (forall_below (λ z, (z =? 0) || negb ((0 <=? crc_byte 0 z) && (crc_byte 0 z <? 256)))
    256 ltac:(vm_compute; reflexivity) d ltac:(unfold is_byte in Hd; width_lia)) as Hp.
  cbv beta in Hp. apply orb_true_iff in Hp as [Hp|Hp]; [by apply Z.eqb_eq|].
  apply negb_true_iff, andb_false_iff in Hp. unfold is_byte in Hs. revert Hs Hp.
  generalize (crc_byte 0 d). intros z Hs Hp. destruct Hp as [Hp|Hp]; bools; width_lia.
Qed.

Lemma crc_byte_00 : crc_byte 0 0 = 0.
Proof. vm_compute. reflexivity. Qed.

(** From the same state, two bytes that leave the same state are the same. *)
Lemma crc_two_bytes c a b a' b' :
  is_u 16 c → is_byte a → is_byte b → is_byte a' → is_byte b' →
  crc_byte (crc_byte c a) b = crc_byte (crc_byte c a') b' → a = a' ∧ b = b'.
Proof.
  intros Hc Ha Hb Ha' Hb' He.
  pose proof (crc_byte_diff _ _ b b' (crc_byte_range c a Hc Ha) (crc_byte_range c a' Hc Ha') Hb Hb') as Hd.
  rewrite He, Z.lxor_nilpotent, crc_byte_diff, Z.lxor_nilpotent in Hd by done. symmetry in Hd.
  assert (Hda : is_byte (Z.lxor a a')) by by apply lxor_range.
  assert (Hdb : is_byte (Z.lxor b b')) by by apply lxor_range.
  apply crc_byte_zero in Hd; [|by apply crc_byte_range|by apply byte_u16].
  assert (Hz : Z.lxor a a' = 0) by (apply crc_one_byte; [done|by rewrite Hd]).
  rewrite Hz, crc_byte_00 in Hd. split; apply Z.lxor_eq; congruence.
Qed.

(** The CRC detects every corruption confined to two adjacent bytes. *)
Lemma crc16_burst pre a b a' b' post :
  bytes_wf (pre ++ [a; b] ++ post) → is_byte a' → is_byte b' →
  crc16 (pre ++ [a; b] ++ post) = crc16 (pre ++ [a'; b'] ++ post) → a = a' ∧ b = b'.
Proof.
  intros (Hpre & (Ha & (Hb & _)%Forall_cons)%Forall_cons & Hpost)%Forall_app%(λ H, conj (proj1 H)
    (proj1 (Forall_app _ _ _) (proj2 H))) Ha' Hb'.
  unfold crc16. rewrite !foldl_app. cbn [foldl]. intros He.
  assert (Hp : is_u 16 (foldl crc_byte 0xFFFF pre)) by by apply crc_fold_range.
  apply crc_fold_inj in He; [|by repeat apply crc_byte_range..|done].
  by apply crc_two_bytes in He.
Qed.

(** Bits that are zero shift out. *)
Lemma iter_crc_shift n c :
  is_u 16 c → c mod 2 ^ Z.of_nat n = 0 → Nat.iter n crc_bit c = c / 2 ^ Z.of_nat n.
Proof.
  intros Hc. induction n as [|n IH]; intros Hm; [by rewrite Z.div_1_r|].
  rewrite Nat2Z.inj_succ, Z.pow_succ_r in * by lia. rewrite Z.mul_comm in *.
  pose proof (Z.rem_mul_r c (2 ^ Z.of_nat n) 2 ltac:(lia) ltac:(lia)) as Hr. rewrite Hm in Hr.
  pose proof (Z.mod_pos_bound c (2 ^ Z.of_nat n) ltac:(lia)).
  pose proof (Z.mod_pos_bound (c / 2 ^ Z.of_nat n) 2 ltac:(lia)).
  change (Nat.iter (S n) crc_bit c) with (crc_bit (Nat.iter n crc_bit c)). rewrite IH by nia.
  rewrite crc_bit_value by (rewrite <- IH by nia; by apply iter_crc_range).
  rewrite Z.bit0_odd, <- Z.div_div, Z.shiftr_div_pow2 by lia. change (2 ^ 1) with 2.
  assert (Ho : Z.odd (c / 2 ^ Z.of_nat n) = false)
    by (pose proof (Zmod_odd (c / 2 ^ Z.of_nat n)); destruct (Z.odd _); nia).
  rewrite Ho. apply Z.lxor_0_r.
Qed.

(** Appending the CRC, low byte first, leaves the residue zero, and nothing else does. *)
Lemma crc_two_residue c : is_u 16 c → crc_byte (crc_byte c (le_byte c 0)) (le_byte c 1) = 0.
Proof.
  intros Hc. rewrite !le_byte_value. change (2 ^ (8 * Z.of_nat 0)) with 1.
  change (2 ^ (8 * Z.of_nat 1)) with 256. rewrite Z.div_1_r.
  assert (Hhi : 0 ≤ c / 256 < 256)
    by (unfold is_u in Hc; split; [apply Z.div_pos; lia|apply Z.div_lt_upper_bound; width_lia]).
  rewrite (Z.mod_small (c / 256)) by done.
  assert (Hx : Z.lxor c (c mod 256) = Z.shiftl (c / 256) 8).
  { rewrite Z.shiftl_mul_pow2 by done. change 256 with (2 ^ 8). rewrite <- Z.land_ones by done.
    apply Z.bits_inj'. intros i Hi. rewrite Z.lxor_spec, Z.land_spec, Z.testbit_ones_nonneg by done.
    rewrite <- Z.shiftl_mul_pow2, <- Z.shiftr_div_pow2 by done.
    destruct (Z.ltb_spec i 8).
    - rewrite Z.shiftl_spec_low by done. by destruct (Z.testbit c i).
    - rewrite Z.shiftl_spec, Z.shiftr_spec by lia. rewrite andb_false_r, xorb_false_r. f_equal. lia. }
  unfold crc_byte at 2. rewrite Hx, Z.shiftl_mul_pow2 by done. change (2 ^ 8) with 256.
  rewrite iter_crc_shift; change (2 ^ Z.of_nat 8) with 256;
    [|width_lia|by rewrite Z.mod_mul].
  rewrite Z.div_mul by done. unfold crc_byte. rewrite Z.lxor_nilpotent. vm_compute. reflexivity.
Qed.

Lemma crc_residue l a b :
  bytes_wf l → is_byte a → is_byte b →
  crc16 (l ++ [a; b]) = 0 ↔ [a; b] = le_bytes 2 (crc16 l).
Proof.
  intros Hl Ha Hb. pose proof (crc16_range l Hl) as Hr. unfold crc16 at 1. rewrite foldl_app.
  change (foldl crc_byte 65535 l) with (crc16 l).
  change (foldl crc_byte (crc16 l) [a; b]) with (crc_byte (crc_byte (crc16 l) a) b).
  change (le_bytes 2 (crc16 l)) with [le_byte (crc16 l) 0; le_byte (crc16 l) 1].
  pose proof (crc_two_residue _ Hr) as H0. split.
  - intros He. rewrite <- H0 in He. apply crc_two_bytes in He as [-> ->]; try done; apply le_byte_range.
  - by intros [= -> ->].
Qed.

(** A message followed by its CRC. *)
Definition crc_framed (l : list Z) : list Z := l ++ le_bytes 2 (crc16 l).

(** Corrupting two adjacent bytes of such a message, the CRC included, is detected. *)
Lemma crc_framed_burst l pre a b a' b' post body x y :
  bytes_wf l → crc_framed l = pre ++ [a; b] ++ post →
  pre ++ [a'; b'] ++ post = body ++ [x; y] → bytes_wf (body ++ [x; y]) →
  [a; b] ≠ [a'; b'] → [x; y] ≠ le_bytes 2 (crc16 body).
Proof.
  intros Hl Hf Hbody [Hwb Hxy]%Forall_app Hne Hxyc.
  apply Forall_cons in Hxy as [Hx [Hy _]%Forall_cons].
  pose proof (proj2 (crc_residue body x y Hwb Hx Hy) Hxyc) as H0.
  assert (H1 : crc16 (crc_framed l) = 0).
  { unfold crc_framed. apply (crc_residue l (le_byte (crc16 l) 0) (le_byte (crc16 l) 1));
      [done|apply le_byte_range..|done]. }
  assert (Hw : bytes_wf (pre ++ [a; b] ++ post)).
  { rewrite <- Hf. apply Forall_app. split; [done|apply le_bytes_wf]. }
  assert (Hw' : bytes_wf (pre ++ [a'; b'] ++ post)).
  { rewrite Hbody. apply Forall_app. split; [done|]. repeat (apply Forall_cons; split; [done|]). constructor. }
  apply Forall_app in Hw' as [_ [Hab' _]%Forall_app].
  apply Forall_cons in Hab' as [Ha' [Hb' _]%Forall_cons].
  apply Hne. rewrite Hf in H1. rewrite <- Hbody in H0.
  destruct (crc16_burst pre a b a' b' post Hw Ha' Hb') as [-> ->]; congruence.
Qed.

(** ** Text *)

(** The characters of a [std::string] as bytes, and back. *)
Definition char_byte (c : ascii) : Z := Z.of_nat (nat_of_ascii c).
Definition byte_char (b : Z) : ascii := ascii_of_nat (Z.to_nat b).

Definition str_bytes (s : string) : list Z := map char_byte (String.list_ascii_of_string s).
Definition bytes_str (l : list Z) : string := String.string_of_list_ascii (map byte_char l).

Lemma char_byte_range c : is_byte (char_byte c).
Proof. unfold char_byte, is_byte. pose proof (nat_ascii_bounded c). width_lia. Qed.

Lemma byte_char_byte c : byte_char (char_byte c) = c.
Proof. unfold byte_char, char_byte. rewrite Nat2Z.id. apply ascii_nat_embedding. Qed.

Lemma str_bytes_length s : length (str_bytes s) = String.length s.
Proof. unfold str_bytes. rewrite length_map. induction s; cbn; by f_equal. Qed.

Lemma str_bytes_wf s : bytes_wf (str_bytes s).
Proof. apply Forall_forall. intros b (c & -> & _)%list_elem_of_fmap. apply char_byte_range. Qed.

Lemma bytes_str_bytes s : bytes_str (str_bytes s) = s.
Proof.
  unfold bytes_str, str_bytes. rewrite map_map. rewrite (map_ext _ id) by (intros; apply byte_char_byte).
  rewrite map_id. apply String.string_of_list_ascii_of_string.
Qed.
