(* ===== verification/RemoteFrame.v ===== *)
(** * Remote frames

    include/rcr/workbench/application/remote_frame.hpp and
    src/workbench/application/remote_frame.cpp: length-bounded binary frames with a
    magic number, a version, a payload of at most 512 bytes and a CRC, and the
    streaming parser that finds them in a byte stream.  An enumeration value outside
    the named ones ([static_cast] of a received byte) is [Unnamed]. *)

From S2P Require Import Prelude Types Bytes.
Local Open Scope Z_scope.

Definition kRemoteFrameMagic : Z := 0x42524352.
Definition kRemoteProtocolVersion : Z := 1.
Definition kRemoteFrameHeaderSize : nat := 12.
Definition kRemoteFrameCrcSize : nat := 2.
Definition kRemoteMaxPayloadSize : nat := 512.
Definition kRemoteMaxFrameSize : nat := kRemoteFrameHeaderSize + kRemoteMaxPayloadSize + kRemoteFrameCrcSize.
Definition kRemoteRxBufferCapacity : nat := kRemoteMaxFrameSize * 2.

Module RemoteMessageType.
Inductive RemoteMessageType :=
  | Hello | HelloAck | Heartbeat | HeartbeatAck | GetStatus | Status | Error | Unnamed (byte : Z).
End RemoteMessageType.
Notation RemoteMessageType := RemoteMessageType.RemoteMessageType.

#[export] Instance RemoteMessageType_eq_dec : EqDecision RemoteMessageType.
Proof. solve_decision. Defined.

(** [static_cast] to and from the underlying byte. *)
Definition message_type_code (t : RemoteMessageType) : Z :=
  match t with
  | RemoteMessageType.Hello => 1
  | RemoteMessageType.HelloAck => 2
  | RemoteMessageType.Heartbeat => 3
  | RemoteMessageType.HeartbeatAck => 4
  | RemoteMessageType.GetStatus => 5
  | RemoteMessageType.Status => 6
  | RemoteMessageType.Error => 7
  | RemoteMessageType.Unnamed b => b
  end.

Definition message_type_of_code (b : Z) : RemoteMessageType :=
  if b =? 1 then RemoteMessageType.Hello
  else if b =? 2 then RemoteMessageType.HelloAck
  else if b =? 3 then RemoteMessageType.Heartbeat
  else if b =? 4 then RemoteMessageType.HeartbeatAck
  else if b =? 5 then RemoteMessageType.GetStatus
  else if b =? 6 then RemoteMessageType.Status
  else if b =? 7 then RemoteMessageType.Error
  else RemoteMessageType.Unnamed b.

Definition message_type_to_string (t : RemoteMessageType) : string :=
  match t with
  | RemoteMessageType.Hello => "HELLO"
  | RemoteMessageType.HelloAck => "HELLO_ACK"
  | RemoteMessageType.Heartbeat => "HEARTBEAT"
  | RemoteMessageType.HeartbeatAck => "HEARTBEAT_ACK"
  | RemoteMessageType.GetStatus => "GET_STATUS"
  | RemoteMessageType.Status => "STATUS"
  | RemoteMessageType.Error => "ERROR"
  | RemoteMessageType.Unnamed _ => "UNKNOWN"
  end.

Module ParseStatus.
Inductive RemoteFrameParseStatus :=
  | NeedMore | Ok | InvalidMagic | UnsupportedVersion | OversizePayload | BadCrc | BufferOverflow.
End ParseStatus.
Notation RemoteFrameParseStatus := ParseStatus.RemoteFrameParseStatus.

#[export] Instance RemoteFrameParseStatus_eq_dec : EqDecision RemoteFrameParseStatus.
Proof. solve_decision. Defined.

Definition parse_status_to_string (s : RemoteFrameParseStatus) : string :=
  match s with
  | ParseStatus.NeedMore => "NEED_MORE"
  | ParseStatus.Ok => "OK"
  | ParseStatus.InvalidMagic => "INVALID_MAGIC"
  | ParseStatus.UnsupportedVersion => "UNSUPPORTED_VERSION"
  | ParseStatus.OversizePayload => "OVERSIZE_PAYLOAD"
  | ParseStatus.BadCrc => "BAD_CRC"
  | ParseStatus.BufferOverflow => "BUFFER_OVERFLOW"
  end.

Record RemoteFrame := mkRemoteFrame {
  rf_version : Z;
  rf_type : RemoteMessageType;
  rf_flags : Z;
  rf_sequence : Z;
  rf_payload : list Z
}.

#[export] Instance RemoteFrame_eq_dec : EqDecision RemoteFrame.
Proof. solve_decision. Defined.

(** [RemoteFrame frame;] *)
Definition default_frame : RemoteFrame :=
  mkRemoteFrame kRemoteProtocolVersion RemoteMessageType.Error 0 0 [].

(** The widths of the C++ fields; a named type is not held as [Unnamed]. *)
Definition remote_frame_wf (f : RemoteFrame) : Prop :=
  is_u 8 (rf_version f) ∧ is_u 8 (message_type_code (rf_type f)) ∧
  message_type_of_code (message_type_code (rf_type f)) = rf_type f ∧
  is_u 8 (rf_flags f) ∧ is_u 16 (rf_sequence f) ∧ bytes_wf (rf_payload f).

(** ** Encoding *)

Definition append_u16_le (out : list Z) (value : Z) : list Z :=
  out ++ [u8 (Z.land value 0xFF); u8 (Z.land (Z.shiftr value 8) 0xFF)].

Definition append_u32_le (out : list Z) (value : Z) : list Z :=
  out ++ [u8 (Z.land value 0xFF); u8 (Z.land (Z.shiftr value 8) 0xFF);
          u8 (Z.land (Z.shiftr value 16) 0xFF); u8 (Z.land (Z.shiftr value 24) 0xFF)].

Definition read_u16_le (p : list Z) (i : nat) : Z :=
  u16 (Z.lor (byte_at p i) (Z.shiftl (byte_at p (i + 1)) 8)).

Definition read_u32_le (p : list Z) : Z :=
  u32 (Z.lor (Z.lor (Z.lor (byte_at p 0) (Z.shiftl (byte_at p 1) 8))
                (Z.shiftl (byte_at p 2) 16)) (Z.shiftl (byte_at p 3) 24)).

Definition remote_crc16 (data : list Z) : Z := crc16 data.

(** The bytes are appended to [out]; [None]: refused, [out] unchanged. *)
Definition encode_remote_frame (frame : RemoteFrame) (out : list Z) : option (list Z) :=
  if (kRemoteMaxPayloadSize <? length (rf_payload frame))%nat then None
  else if negb (rf_version frame =? kRemoteProtocolVersion) then None
  else
    let start := length out in
    let out := append_u32_le out kRemoteFrameMagic in
    let out := out ++ [rf_version frame; message_type_code (rf_type frame); rf_flags frame; 0] in
    let out := append_u16_le out (rf_sequence frame) in
    let out := append_u16_le out (u16 (Z.of_nat (length (rf_payload frame)))) in
    let out := out ++ rf_payload frame in
    let crc := remote_crc16 (drop start out) in
    Some (append_u16_le out crc).

(** ** The parser *)

(** [RemoteFrameParser]: its buffer. *)
Definition parser_append (bytes buffer : list Z) : list Z * RemoteFrameParseStatus :=
  if (length bytes =? 0)%nat then (buffer, ParseStatus.NeedMore)
  else if (kRemoteRxBufferCapacity <? length buffer + length bytes)%nat then
    ([], ParseStatus.BufferOverflow)
  else (buffer ++ bytes, ParseStatus.NeedMore).

(** [try_pop]; [frame] is the out parameter, written only on [Ok]. *)
Definition try_pop (frame : RemoteFrame) (buffer : list Z)
    : list Z * RemoteFrameParseStatus * RemoteFrame :=
  if (length buffer <? kRemoteFrameHeaderSize)%nat then (buffer, ParseStatus.NeedMore, frame)
  else
    let magic := read_u32_le buffer in
    if negb (magic =? kRemoteFrameMagic) then (drop 1 buffer, ParseStatus.InvalidMagic, frame)
    else
      let version := byte_at buffer 4 in
      if negb (version =? kRemoteProtocolVersion) then
        (drop kRemoteFrameHeaderSize buffer, ParseStatus.UnsupportedVersion, frame)
      else
        let payload_len := Z.to_nat (read_u16_le buffer 10) in
        if (kRemoteMaxPayloadSize <? payload_len)%nat then
          (drop kRemoteFrameHeaderSize buffer, ParseStatus.OversizePayload, frame)
        else
          let frame_len := (kRemoteFrameHeaderSize + payload_len + kRemoteFrameCrcSize)%nat in
          if (length buffer <? frame_len)%nat then (buffer, ParseStatus.NeedMore, frame)
          else
            let expected_crc := remote_crc16 (take (kRemoteFrameHeaderSize + payload_len) buffer) in
            let actual_crc := read_u16_le buffer (kRemoteFrameHeaderSize + payload_len) in
            if negb (expected_crc =? actual_crc) then (drop frame_len buffer, ParseStatus.BadCrc, frame)
            else
              (drop frame_len buffer, ParseStatus.Ok,
               mkRemoteFrame version (message_type_of_code (byte_at buffer 5)) (byte_at buffer 6)
                 (read_u16_le buffer 8)
                 (take payload_len (drop kRemoteFrameHeaderSize buffer))).

(** Popping until more bytes are needed; every outcome but [NeedMore] removes a byte, so
    the length of the buffer bounds the turns. *)
Fixpoint pop_all_fuel (fuel : nat) (buffer : list Z)
    : list (RemoteFrameParseStatus * RemoteFrame) * list Z * bool :=
  match fuel with
  | O => ([], buffer, false)
  | S fuel =>
      match try_pop default_frame buffer with
      | (buffer, ParseStatus.NeedMore, _) => ([], buffer, true)
      | (buffer, status, frame) =>
          let '(rest, buffer, done) := pop_all_fuel fuel buffer in
          ((status, frame) :: rest, buffer, done)
      end
  end.

Definition pop_all (buffer : list Z) : list (RemoteFrameParseStatus * RemoteFrame) * list Z * bool :=
  pop_all_fuel (S (length buffer)) buffer.

(** ** The layout *)

Definition frame_body (f : RemoteFrame) : list Z :=
  le_bytes 4 kRemoteFrameMagic ++
  [rf_version f; message_type_code (rf_type f); rf_flags f; 0] ++
  le_bytes 2 (rf_sequence f) ++ le_bytes 2 (Z.of_nat (length (rf_payload f))) ++ rf_payload f.

Definition frame_legal (f : RemoteFrame) : Prop :=
  rf_version f = kRemoteProtocolVersion ∧ (length (rf_payload f) ≤ kRemoteMaxPayloadSize)%nat.

Lemma append_u16_le_bytes out v : append_u16_le out v = out ++ le_bytes 2 v.
Proof. done. Qed.

Lemma append_u32_le_bytes out v : append_u32_le out v = out ++ le_bytes 4 v.
Proof. done. Qed.

Lemma read_u16_le_read p i : read_u16_le p i = u16 (le_read 2 i p).
Proof. unfold read_u16_le, le_read. cbn [seq foldl]. by rewrite Z.shiftl_0_r, Z.lor_0_l, Nat.add_0_r. Qed.

Lemma read_u32_le_read p : read_u32_le p = u32 (le_read 4 0 p).
Proof. unfold read_u32_le, le_read. cbn [seq foldl Nat.add]. by rewrite Z.shiftl_0_r, Z.lor_0_l. Qed.

Lemma read_u16_written l o v rest :
  drop o l = le_bytes 2 v ++ rest → is_u 16 v → read_u16_le l o = v.
Proof.
  intros Hd Hv. rewrite read_u16_le_read. erewrite (le_read_written 2) by done. by apply u16_small.
Qed.

Lemma frame_body_length f : length (frame_body f) = (12 + length (rf_payload f))%nat.
Proof. unfold frame_body. rewrite !length_app, !le_bytes_length. cbn. lia. Qed.

Lemma frame_body_wf f : remote_frame_wf f → bytes_wf (frame_body f).
Proof.
  intros (Hv & Ht & _ & Hf & _ & Hp). unfold frame_body.
  apply Forall_app; split; [apply le_bytes_wf|].
  apply Forall_app; split; [repeat (apply Forall_cons; split; [done|]); constructor|].
  apply Forall_app; split; [apply le_bytes_wf|]. apply Forall_app; split; [apply le_bytes_wf|done].
Qed.

Lemma payload_length_u16 f : frame_legal f → is_u 16 (Z.of_nat (length (rf_payload f))).
Proof. intros [_ Hl]. unfold kRemoteMaxPayloadSize in Hl. width_lia. Qed.

Lemma encode_remote_frame_spec f out :
  encode_remote_frame f out =
  if decide (frame_legal f) then Some (out ++ crc_framed (frame_body f)) else None.
Proof.
  unfold encode_remote_frame. destruct (Nat.ltb_spec kRemoteMaxPayloadSize (length (rf_payload f))).
  { rewrite decide_False; [done|]. intros [_ ?]. lia. }
  destruct (Z.eqb_spec (rf_version f) kRemoteProtocolVersion); cbn [negb].
  2:{ rewrite decide_False; [done|]. by intros [? _]. }
  rewrite decide_True by done. cbv zeta.
  rewrite !append_u16_le_bytes, append_u32_le_bytes, u16_small by by apply payload_length_u16.
  rewrite <- !app_assoc. fold (frame_body f).
  rewrite drop_app_length. unfold crc_framed. done.
Qed.

(** A parser at the start of an encoded frame returns it, whatever follows. *)
Lemma try_pop_encoded d f rest :
  remote_frame_wf f → frame_legal f →
  try_pop d (crc_framed (frame_body f) ++ rest) = (rest, ParseStatus.Ok, f).
Proof.
  intros Hwf Hlegal. pose proof (frame_body_wf f Hwf) as Hb. pose proof (frame_body_length f) as Hlen.
  pose proof Hwf as (_ & _ & Ht & _ & Hs & _). pose proof Hlegal as [Hv Hp].
  assert (Hcl : length (crc_framed (frame_body f)) = (14 + length (rf_payload f))%nat)
    by (unfold crc_framed; rewrite length_app, le_bytes_length; lia).
  unfold try_pop, kRemoteFrameHeaderSize, kRemoteFrameCrcSize.
  rewrite (proj2 (Nat.ltb_ge _ _)) by (rewrite length_app; lia).
  rewrite read_u32_le_read. erewrite (le_read_written 4 0 _ kRemoteFrameMagic);
    [|rewrite drop_0; unfold crc_framed, frame_body; rewrite <- !app_assoc; reflexivity|done].
  rewrite Z.eqb_refl. cbn [negb].
  change (byte_at (crc_framed (frame_body f) ++ rest) 4) with (rf_version f). rewrite Hv, Z.eqb_refl. cbn [negb].
  erewrite (read_u16_written _ 10 (Z.of_nat (length (rf_payload f))));
    [|unfold crc_framed, frame_body; rewrite <- !app_assoc; reflexivity|by apply payload_length_u16].
  rewrite Nat2Z.id, (proj2 (Nat.ltb_ge _ _)) by done.
  rewrite (proj2 (Nat.ltb_ge _ _)) by (rewrite length_app; lia).
  assert (Htk : take (12 + length (rf_payload f)) (crc_framed (frame_body f) ++ rest) = frame_body f).
  { unfold crc_framed. rewrite <- !app_assoc. by apply take_app_length'. }
  rewrite Htk. erewrite (read_u16_written _ (12 + length (rf_payload f)) (remote_crc16 (frame_body f)));
    [|unfold crc_framed; rewrite <- !app_assoc; by apply drop_app_length'|by apply crc16_range].
  rewrite Z.eqb_refl. cbn [negb].
  rewrite (drop_app_length' (crc_framed (frame_body f)) rest (12 + length (rf_payload f) + 2)) by lia.
  change (byte_at (crc_framed (frame_body f) ++ rest) 5) with (message_type_code (rf_type f)).
  change (byte_at (crc_framed (frame_body f) ++ rest) 6) with (rf_flags f).
  erewrite (read_u16_written _ 8 (rf_sequence f));
    [|unfold crc_framed, frame_body; rewrite <- !app_assoc; reflexivity|done].
  assert (Hpl : take (length (rf_payload f)) (drop 12 (crc_framed (frame_body f) ++ rest)) = rf_payload f).
  { unfold crc_framed, frame_body. rewrite <- !app_assoc. by apply take_app_length'. }
  rewrite Hpl, Ht, <- Hv. by destruct f.
Qed.

(** ** Streaming *)

(** An outcome other than [NeedMore] is decided by the bytes it consumes. *)
Lemma try_pop_app d b more b' st f :
  try_pop d b = (b', st, f) → st ≠ ParseStatus.NeedMore →
  try_pop d (b ++ more) = (b' ++ more, st, f).
Proof.
  unfold try_pop, kRemoteFrameHeaderSize, kRemoteFrameCrcSize. intros Hp Hst.
  destruct (Nat.ltb_spec (length b) 12) as [|Hl]; [naive_solver|].
  rewrite (proj2 (Nat.ltb_ge (length (b ++ more)) 12)) by (rewrite length_app; lia).
  rewrite !read_u32_le_read, !read_u16_le_read in *.
  rewrite le_read_app, byte_at_app_l, (le_read_app 2 10) by lia.
  destruct (negb _); [injection Hp as <- <- <-; by rewrite drop_app_le by lia|].
  destruct (negb _); [injection Hp as <- <- <-; by rewrite drop_app_le by lia|].
  set (n := Z.to_nat (u16 (le_read 2 10 b))) in *.
  destruct (_ <? n)%nat; [injection Hp as <- <- <-; by rewrite drop_app_le by lia|].
  destruct (Nat.ltb_spec (length b) (12 + n + 2)) as [|Hl2]; [naive_solver|].
  rewrite (proj2 (Nat.ltb_ge (length (b ++ more)) _)) by (rewrite length_app; lia).
  rewrite take_app_le, (le_read_app 2 (12 + n)), !byte_at_app_l, (le_read_app 2 8) by lia.
  rewrite (drop_app_le _ _ (12 + n + 2)), (drop_app_le _ _ 12), (take_app_le (drop 12 b))
    by (rewrite ?length_drop; lia).
  destruct (negb _); by injection Hp as <- <- <-.
Qed.

Lemma try_pop_shrinks d b b' st f :
  try_pop d b = (b', st, f) → st ≠ ParseStatus.NeedMore → (length b' < length b)%nat.
Proof.
  unfold try_pop, kRemoteFrameHeaderSize, kRemoteFrameCrcSize. intros Hp Hst.
  destruct (Nat.ltb_spec (length b) 12) as [|Hl]; [naive_solver|].
  repeat (destruct (negb _); [injection Hp as <- <- <-; rewrite length_drop; lia|]).
  destruct (_ <? _)%nat; [injection Hp as <- <- <-; rewrite length_drop; lia|].
  destruct (Nat.ltb_spec (length b) (12 + Z.to_nat (read_u16_le b 10) + 2)) as [|Hl2]; [naive_solver|].
  destruct (negb _); injection Hp as <- <- <-; rewrite length_drop; lia.
Qed.

Lemma try_pop_need_more d b b' f :
  try_pop d b = (b', ParseStatus.NeedMore, f) → b' = b ∧ (length b < kRemoteMaxFrameSize)%nat.
Proof.
  unfold try_pop, kRemoteMaxFrameSize, kRemoteFrameHeaderSize, kRemoteFrameCrcSize. intros Hp.
  destruct (Nat.ltb_spec (length b) 12) as [|Hl]; [split; [naive_solver|lia]|].
  repeat (destruct (negb _); [naive_solver|]).
  destruct (Nat.ltb_spec kRemoteMaxPayloadSize (Z.to_nat (read_u16_le b 10))); [naive_solver|].
  destruct (Nat.ltb_spec (length b) (12 + Z.to_nat (read_u16_le b 10) + 2)) as [|Hl2];
    [split; [naive_solver|lia]|]. by destruct (negb _).
Qed.

(** The turns of [pop_all], with the outcome of the first pop as a case. *)
Lemma pop_all_fuel_step n b :
  pop_all_fuel (S n) b =
  match try_pop default_frame b with
  | (b', st, f) =>
      if decide (st = ParseStatus.NeedMore) then ([], b', true)
      else let '(es, r, ok) := pop_all_fuel n b' in ((st, f) :: es, r, ok)
  end.
Proof. cbn. destruct (try_pop default_frame b) as [[b' []] f]; done. Qed.

Lemma pop_all_fuel_more n m b :
  (length b < n)%nat → (length b < m)%nat → pop_all_fuel n b = pop_all_fuel m b.
Proof.
  revert m b. induction n as [|n IH]; intros m b Hn Hm; [lia|]. destruct m as [|m]; [lia|].
  rewrite !pop_all_fuel_step. destruct (try_pop default_frame b) as [[b' st] f] eqn:Hp.
  case_decide; [done|]. apply try_pop_shrinks in Hp; [|done]. by rewrite (IH m) by lia.
Qed.

Lemma pop_all_step b :
  pop_all b =
  match try_pop default_frame b with
  | (b', st, f) =>
      if decide (st = ParseStatus.NeedMore) then ([], b', true)
      else let '(es, r, ok) := pop_all b' in ((st, f) :: es, r, ok)
  end.
Proof.
  unfold pop_all. rewrite pop_all_fuel_step.
  destruct (try_pop default_frame b) as [[b' st] f] eqn:Hp. case_decide; [done|].
  apply try_pop_shrinks in Hp; [|done]. by rewrite (pop_all_fuel_more (length b) (S (length b'))) by lia.
Qed.

Arguments pop_all : simpl never.
Arguments try_pop : simpl never.

(** Induction along the pops. *)
Lemma pop_all_ind (P : list Z → Prop) :
  (∀ b, (∀ b' st f, try_pop default_frame b = (b', st, f) → st ≠ ParseStatus.NeedMore → P b') → P b) →
  ∀ b, P b.
Proof.
  intros Hstep. apply (well_founded_induction (Wf_nat.well_founded_ltof _ (@length Z))).
  intros b IH. apply Hstep. intros b' st f Hp Hst. apply IH. exact (try_pop_shrinks _ _ _ _ _ Hp Hst).
Qed.

(** The loop ends, with less than one frame left over. *)
Lemma pop_all_done b :
  ∃ es r, pop_all b = (es, r, true) ∧ (length r < kRemoteMaxFrameSize)%nat ∧
    (length r ≤ length b)%nat ∧ (length es ≤ length b)%nat.
Proof.
  induction b as [b IH] using pop_all_ind. rewrite pop_all_step.
  destruct (try_pop default_frame b) as [[b' st] f] eqn:Hp. case_decide as Hst.
  - subst. apply try_pop_need_more in Hp as [-> ?]. exists [], b. cbn. split_and!; try done; lia.
  - destruct (IH _ _ _ eq_refl Hst) as (es & r & -> & ? & ? & ?). apply try_pop_shrinks in Hp; [|done].
    exists ((st, f) :: es), r. cbn. split_and!; try done; lia.
Qed.

(** Bytes that arrive later do not change what was popped before. *)
Lemma pop_all_app b more :
  pop_all (b ++ more) =
  let '(es, r, _) := pop_all b in let '(es', r', ok) := pop_all (r ++ more) in (es ++ es', r', ok).
Proof.
  induction b as [b IH] using pop_all_ind. rewrite (pop_all_step b).
  destruct (try_pop default_frame b) as [[b' st] f] eqn:Hp. case_decide as Hst.
  - subst. apply try_pop_need_more in Hp as [-> _]. by destruct (pop_all (b ++ more)) as [[es r] ok].
  - rewrite pop_all_step, (try_pop_app _ _ more _ _ _ Hp Hst), decide_False by done.
    rewrite (IH _ _ _ eq_refl Hst). destruct (pop_all b') as [[es r] ok].
    by destruct (pop_all (r ++ more)) as [[es' r'] ok'].
Qed.

(** A receiver that appends what it read and pops: the outcomes and the buffer kept. *)
Definition receive (buffer chunk : list Z)
    : list (RemoteFrameParseStatus * RemoteFrame) * list Z :=
  match parser_append chunk buffer with
  | (buffer, ParseStatus.BufferOverflow) => ([(ParseStatus.BufferOverflow, default_frame)], buffer)
  | (buffer, _) => let '(es, r, _) := pop_all buffer in (es, r)
  end.

Fixpoint receive_all (buffer : list Z) (chunks : list (list Z))
    : list (RemoteFrameParseStatus * RemoteFrame) * list Z :=
  match chunks with
  | [] => ([], buffer)
  | chunk :: chunks =>
      let '(es, buffer) := receive buffer chunk in
      let '(es', buffer) := receive_all buffer chunks in (es ++ es', buffer)
  end.

(** A buffer in which nothing can be popped. *)
Definition drained (buffer : list Z) : Prop := pop_all buffer = ([], buffer, true).

Lemma pop_all_drained b es r ok : pop_all b = (es, r, ok) → drained r.
Proof.
  revert es r ok. induction b as [b IH] using pop_all_ind. intros es r ok. rewrite pop_all_step.
  destruct (try_pop default_frame b) as [[b' st] f] eqn:Hp. case_decide as Hst.
  - intros [= <- <- <-]. subst. pose proof Hp as [-> _]%try_pop_need_more. unfold drained.
    by rewrite pop_all_step, Hp.
  - destruct (pop_all b') as [[es' r'] ok'] eqn:Hb. intros [= <- <- <-]. by eapply IH.
Qed.

Lemma drained_length b : drained b → (length b < kRemoteMaxFrameSize)%nat.
Proof. intros Hd. destruct (pop_all_done b) as (es & r & Hp & Hr & _). rewrite Hd in Hp. by injection Hp as <- <-. Qed.

Lemma receive_spec buffer chunk :
  drained buffer → (length chunk ≤ kRemoteMaxFrameSize)%nat →
  let '(es, r) := receive buffer chunk in pop_all (buffer ++ chunk) = (es, r, true).
Proof.
  intros Hd Hc. pose proof (drained_length _ Hd) as Hl. unfold receive, parser_append.
  destruct (Nat.eqb_spec (length chunk) 0) as [H0|].
  { apply nil_length_inv in H0 as ->. rewrite app_nil_r. by rewrite Hd. }
  rewrite (proj2 (Nat.ltb_ge _ _)) by (unfold kRemoteRxBufferCapacity; lia).
  by destruct (pop_all_done (buffer ++ chunk)) as (es & r & -> & _).
Qed.

Lemma receive_all_spec buffer chunks :
  drained buffer → Forall (λ c, (length c ≤ kRemoteMaxFrameSize)%nat) chunks →
  let '(es, r) := receive_all buffer chunks in pop_all (buffer ++ concat chunks) = (es, r, true).
Proof.
  intros Hd Hc. revert buffer Hd. induction Hc as [|chunk chunks Hc _ IH]; intros buffer Hd; cbn.
  { by rewrite app_nil_r. }
  pose proof (receive_spec buffer chunk Hd Hc) as H1. destruct (receive buffer chunk) as [es b1].
  specialize (IH b1 (pop_all_drained _ _ _ _ H1)). destruct (receive_all b1 chunks) as [es' b2].
  by rewrite app_assoc, pop_all_app, H1, IH.
Qed.

Lemma pop_all_frames fs :
  Forall (λ f, remote_frame_wf f ∧ frame_legal f) fs →
  pop_all (concat (map (λ f, crc_framed (frame_body f)) fs)) =
  (map (λ f, (ParseStatus.Ok, f)) fs, [], true).
Proof.
  induction 1 as [|f fs [Hw Hl] _ IH]; [done|]. cbn [map concat].
  rewrite pop_all_step, try_pop_encoded by done. cbn [decide]. rewrite IH. done.
Qed.

(** Frames survive the byte stream: however the encodings of legal frames are cut
    into reads of at most one maximal frame (526 bytes), the receiver pops exactly those
    frames, in order, without an error, and keeps nothing. *)
Theorem stream_delivers_frames fs chunks :
  Forall (λ f, remote_frame_wf f ∧ frame_legal f) fs →
  foldl (λ out f, out ≫= encode_remote_frame f) (Some []) fs = Some (concat chunks) →
  Forall (λ c, (length c ≤ kRemoteMaxFrameSize)%nat) chunks →
  receive_all [] chunks = (map (λ f, (ParseStatus.Ok, f)) fs, []).
Proof.
  intros Hfs Henc Hc. pose proof (receive_all_spec [] chunks eq_refl Hc) as Hr.
  assert (He : ∀ out, foldl (λ out f, out ≫= encode_remote_frame f) (Some out) fs =
    Some (out ++ concat (map (λ f, crc_framed (frame_body f)) fs))).
  { clear -Hfs. induction Hfs as [|f fs [_ Hl] _ IH]; intros out; cbn [foldl map concat]; [by rewrite app_nil_r|].
    cbn [mbind option_bind].
    rewrite encode_remote_frame_spec, decide_True by done. by rewrite IH, app_assoc. }
  rewrite He, app_nil_l in Henc. apply (inj Some) in Henc.
  destruct (receive_all [] chunks) as [es r]. rewrite app_nil_l, <- Henc, (pop_all_frames fs Hfs) in Hr.
  by apply pair_equal_spec in Hr as [[-> ->]%pair_equal_spec _].
Qed.

Definition demo_request : RemoteFrame := mkRemoteFrame 1 RemoteMessageType.GetStatus 0 7 [1; 2; 3].

Lemma stream_delivers_frames_witness :
  let bytes := crc_framed (frame_body demo_request) in
  receive_all [] [take 5 bytes; drop 5 bytes ++ take 13 bytes; drop 13 bytes] =
  ([(ParseStatus.Ok, demo_request); (ParseStatus.Ok, demo_request)], []).
Proof.
  intros bytes.
  apply (stream_delivers_frames [demo_request; demo_request]
    [take 5 bytes; drop 5 bytes ++ take 13 bytes; drop 13 bytes]).
  - assert (H : remote_frame_wf demo_request ∧ frame_legal demo_request).
    { split; [|split; vm_compute; [reflexivity|lia]].
      repeat split; try (vm_compute; congruence). repeat constructor; vm_compute; congruence. }
    repeat constructor; apply H.
  - vm_compute. reflexivity.
  - repeat constructor; vm_compute; lia.
Defined.

(** *** Corruption *)

(** Where magic, version and length are intact, the pop accepts exactly when the last two
    bytes are the CRC of the others, and consumes the frame either way. *)
Lemma try_pop_crc d f body x y rest :
  frame_legal f → length body = (12 + length (rf_payload f))%nat → bytes_wf (body ++ [x; y]) →
  take 5 body = take 5 (frame_body f) → le_read 2 10 body = Z.of_nat (length (rf_payload f)) →
  [x; y] ≠ le_bytes 2 (crc16 body) →
  try_pop d (body ++ [x; y] ++ rest) = (rest, ParseStatus.BadCrc, d).
Proof.
  intros Hlegal Hlen [Hwb Hxy]%Forall_app Htake Hpl Hcrc. pose proof Hlegal as [Hv Hp].
  apply Forall_cons in Hxy as [Hx [Hy _]%Forall_cons].
  assert (H5 : body ++ [x; y] ++ rest =
    le_bytes 4 kRemoteFrameMagic ++ (rf_version f :: drop 5 body ++ [x; y] ++ rest)).
  { rewrite <- (take_drop 5 body) at 1. rewrite Htake. unfold frame_body. done. }
  unfold try_pop, kRemoteFrameHeaderSize, kRemoteFrameCrcSize.
  rewrite (proj2 (Nat.ltb_ge _ _)) by (rewrite !length_app; cbn; lia).
  rewrite read_u32_le_read. erewrite (le_read_written 4 0 _ kRemoteFrameMagic);
    [|rewrite drop_0; exact H5|done].
  rewrite Z.eqb_refl. cbn [negb].
  assert (Hver : byte_at (body ++ [x; y] ++ rest) 4 = rf_version f) by by rewrite H5.
  rewrite Hver, Hv, Z.eqb_refl. cbn [negb].
  rewrite !read_u16_le_read, le_read_app, Hpl, (u16_small (Z.of_nat _)) by (lia || by apply payload_length_u16).
  rewrite Nat2Z.id, (proj2 (Nat.ltb_ge _ _)) by done.
  rewrite (proj2 (Nat.ltb_ge _ _)) by (rewrite !length_app; cbn; lia).
  rewrite take_app_length' by done.
  destruct (Z.eqb_spec (remote_crc16 body) (u16 (le_read 2 (12 + length (rf_payload f)) (body ++ [x; y] ++ rest))))
    as [He|_]; cbn [negb].
  - exfalso. apply Hcrc. unfold remote_crc16 in He. rewrite He. clear He.
    set (v := Z.lor x (Z.shiftl y 8)).
    assert (Hread : le_read 2 (12 + length (rf_payload f)) (body ++ [x; y] ++ rest) = v).
    { unfold le_read. cbn [seq foldl]. rewrite Z.shiftl_0_r, Z.lor_0_l. unfold v, byte_at.
      rewrite !(lookup_app_r body) by lia. replace (_ + 0 - _)%nat with 0%nat by lia.
      by replace (_ + 1 - _)%nat with 1%nat by lia. }
    assert (Hval : v = y * 256 + x).
    { unfold v. rewrite Z.lor_comm. by rewrite lor_shiftl_add. }
    rewrite Hread, Hval, u16_small by (unfold is_byte in *; width_lia).
    change (le_bytes 2 ?z) with [le_byte z 0; le_byte z 1]. rewrite !le_byte_value.
    change (2 ^ (8 * Z.of_nat 0)) with 1. change (2 ^ (8 * Z.of_nat 1)) with 256.
    unfold is_byte in *. rewrite Z.div_1_r, Z.add_comm, Z.mod_add, Z.div_add, (Z.mod_small x), (Z.div_small x) by width_lia.
    rewrite Z.add_0_l, Z.mod_small by width_lia. done.
  - replace (12 + length (rf_payload f) + 2)%nat with (length (body ++ [x; y])) by (rewrite length_app; cbn; lia).
    by rewrite app_assoc, drop_app_length.
Qed.

(** Line noise never turns into a frame: when two adjacent bytes of an encoded frame
    are changed in any way, outside its magic number, version and length, the parser
    answers [BadCrc] and drops exactly that frame, so the next one is found. *)
Theorem corrupted_frame_rejected d f pre a b a' b' post rest :
  remote_frame_wf f → frame_legal f →
  crc_framed (frame_body f) = pre ++ [a; b] ++ post →
  is_byte a' → is_byte b' → [a; b] ≠ [a'; b'] →
  (5 ≤ length pre)%nat → (length pre + 2 ≤ 10 ∨ 12 ≤ length pre)%nat →
  try_pop d ((pre ++ [a'; b'] ++ post) ++ rest) = (rest, ParseStatus.BadCrc, d).
Proof.
  intros Hwf Hlegal Hf Ha' Hb' Hne H5 Hpos. pose proof (frame_body_wf f Hwf) as Hb.
  assert (Hcl : length (crc_framed (frame_body f)) = (14 + length (rf_payload f))%nat)
    by (unfold crc_framed; rewrite length_app, le_bytes_length, frame_body_length; lia).
  set (bad := pre ++ [a'; b'] ++ post).
  assert (Hbl : length bad = (14 + length (rf_payload f))%nat)
    by (rewrite Hf in Hcl; unfold bad; rewrite !length_app in *; cbn in *; lia).
  assert (Hwbad : bytes_wf bad).
  { assert (Hw : bytes_wf (pre ++ [a; b] ++ post))
      by (rewrite <- Hf; apply Forall_app; split; [done|apply le_bytes_wf]).
    apply Forall_app in Hw as [Hw1 [_ Hw2]%Forall_app]. apply Forall_app. split; [done|].
    apply Forall_app. split; [|done]. repeat (apply Forall_cons; split; [done|]). constructor. }
  destruct (drop (12 + length (rf_payload f)) bad) as [|x [|y [|]]] eqn:Hd;
    try (apply (f_equal length) in Hd; rewrite length_drop, Hbl in Hd; cbn in Hd; lia).
  set (body := take (12 + length (rf_payload f)) bad) in *.
  assert (Hbad : bad = body ++ [x; y]) by (unfold body; by rewrite <- Hd, take_drop).
  assert (Hk : ∀ i, (i < length pre ∨ length pre + 2 ≤ i)%nat → (i < 12 + length (rf_payload f))%nat →
    body !! i = frame_body f !! i).
  { intros i Hi Hi'. unfold body. rewrite lookup_take_lt by done.
    assert (Ht : bad !! i = crc_framed (frame_body f) !! i).
    { rewrite Hf. unfold bad. destruct Hi; [by rewrite !lookup_app_l by lia|].
      rewrite !(lookup_app_r pre) by lia. rewrite !lookup_app_r by (cbn; lia). done. }
    rewrite Ht. unfold crc_framed.
    rewrite (lookup_app_l (frame_body f) (le_bytes 2 _)) by (rewrite frame_body_length; lia). done. }
  rewrite Hbad, <- app_assoc. apply (try_pop_crc d f).
  - done.
  - unfold body. rewrite length_take, Hbl. lia.
  - by rewrite <- Hbad.
  - apply list_eq. intros i. destruct (Nat.lt_ge_cases i 5).
    + rewrite !lookup_take_lt by done. apply Hk; lia.
    + by rewrite !lookup_take_ge by done.
  - rewrite (le_read_value 2 10 body (Z.of_nat (length (rf_payload f))));
      [apply (wrap_small 16), payload_length_u16; done|].
    intros i Hi. unfold byte_at. rewrite Hk by lia. change (frame_body f !! (10 + i)%nat) with
      ((le_bytes 2 (Z.of_nat (length (rf_payload f))) ++ rf_payload f) !! i).
    rewrite lookup_app_l by by rewrite le_bytes_length. by apply (le_bytes_at 2).
  - exact (crc_framed_burst _ _ _ _ _ _ _ _ _ _ Hb Hf Hbad ltac:(by rewrite <- Hbad) Hne).
Qed.

Lemma corrupted_frame_rejected_witness :
  let bytes := crc_framed (frame_body demo_request) in
  try_pop default_frame ((take 13 bytes ++ [7; 9] ++ drop 15 bytes) ++ [1; 2]) =
  ([1; 2], ParseStatus.BadCrc, default_frame).
Proof.
  intros bytes.
  apply (corrupted_frame_rejected default_frame demo_request (take 13 bytes) 2 3 7 9 (drop 15 bytes) [1; 2]).
  - repeat split; try (vm_compute; congruence). repeat constructor; vm_compute; congruence.
  - split; vm_compute; [reflexivity|lia].
  - vm_compute. reflexivity.
  - vm_compute. split; congruence.
  - vm_compute. split; congruence.
  - congruence.
  - vm_compute. lia.
  - right. vm_compute. lia.
Defined.
