(* ===== verification/Application.v ===== *)
(** * The application model

    The data the workbench shows and commands: the plain types of
    include/rcr/workbench/application/application_model.hpp.  An enumeration that the
    remote protocol fills from a received byte ([static_cast] without a check) has
    [Unnamed] for the values that have no enumerator. *)

From S2P Require Import Prelude Types Bytes.
Local Open Scope Z_scope.

Module EvidenceClass.
Inductive EvidenceClass := Unspecified | Mock | Vcan | Physical | Loopback | Unnamed (byte : Z).
End EvidenceClass.
Notation EvidenceClass := EvidenceClass.EvidenceClass.

#[export] Instance EvidenceClass_eq_dec : EqDecision EvidenceClass.
Proof. solve_decision. Defined.

Definition evidence_to_string (e : EvidenceClass) : string :=
  match e with
  | EvidenceClass.Unspecified => "UNSPECIFIED"
  | EvidenceClass.Mock => "MOCK"
  | EvidenceClass.Vcan => "VCAN"
  | EvidenceClass.Physical => "PHYSICAL"
  | EvidenceClass.Loopback => "LOOPBACK"
  | EvidenceClass.Unnamed _ => "UNKNOWN"
  end.

Definition evidence_code (e : EvidenceClass) : Z :=
  match e with
  | EvidenceClass.Unspecified => 0
  | EvidenceClass.Mock => 1
  | EvidenceClass.Vcan => 2
  | EvidenceClass.Physical => 3
  | EvidenceClass.Loopback => 4
  | EvidenceClass.Unnamed b => b
  end.

Definition evidence_of_code (b : Z) : EvidenceClass :=
  if b =? 0 then EvidenceClass.Unspecified
  else if b =? 1 then EvidenceClass.Mock
  else if b =? 2 then EvidenceClass.Vcan
  else if b =? 3 then EvidenceClass.Physical
  else if b =? 4 then EvidenceClass.Loopback
  else EvidenceClass.Unnamed b.

Module DiagnosticSource.
Inductive DiagnosticSource := Runtime | Communication | Device | Workbench | Test.
End DiagnosticSource.
Notation DiagnosticSource := DiagnosticSource.DiagnosticSource.

Module DiagnosticSeverity.
Inductive DiagnosticSeverity := Info | Warning | Error.
End DiagnosticSeverity.
Notation DiagnosticSeverity := DiagnosticSeverity.DiagnosticSeverity.

#[export] Instance DiagnosticSource_eq_dec : EqDecision DiagnosticSource.
Proof. solve_decision. Defined.
#[export] Instance DiagnosticSeverity_eq_dec : EqDecision DiagnosticSeverity.
Proof. solve_decision. Defined.

Definition diagnostic_source_to_string (s : DiagnosticSource) : string :=
  match s with
  | DiagnosticSource.Runtime => "RUNTIME"
  | DiagnosticSource.Communication => "COMMUNICATION"
  | DiagnosticSource.Device => "DEVICE"
  | DiagnosticSource.Workbench => "WORKBENCH"
  | DiagnosticSource.Test => "TEST"
  end.

Definition diagnostic_severity_to_string (s : DiagnosticSeverity) : string :=
  match s with
  | DiagnosticSeverity.Info => "INFO"
  | DiagnosticSeverity.Warning => "WARNING"
  | DiagnosticSeverity.Error => "ERROR"
  end.

Module CommandStatus.
Inductive CommandStatus :=
  | Accepted | InvalidArgument | NotOpen | Busy | Rejected | Timeout | IoError | Unsupported
  | Unnamed (byte : Z).
End CommandStatus.
Notation CommandStatus := CommandStatus.CommandStatus.

#[export] Instance CommandStatus_eq_dec : EqDecision CommandStatus.
Proof. solve_decision. Defined.

Definition command_status_to_string (s : CommandStatus) : string :=
  match s with
  | CommandStatus.Accepted => "ACCEPTED"
  | CommandStatus.InvalidArgument => "INVALID_ARGUMENT"
  | CommandStatus.NotOpen => "NOT_OPEN"
  | CommandStatus.Busy => "BUSY"
  | CommandStatus.Rejected => "REJECTED"
  | CommandStatus.Timeout => "TIMEOUT"
  | CommandStatus.IoError => "IO_ERROR"
  | CommandStatus.Unsupported => "UNSUPPORTED"
  | CommandStatus.Unnamed _ => "UNKNOWN"
  end.

Definition command_status_code (s : CommandStatus) : Z :=
  match s with
  | CommandStatus.Accepted => 0
  | CommandStatus.InvalidArgument => 1
  | CommandStatus.NotOpen => 2
  | CommandStatus.Busy => 3
  | CommandStatus.Rejected => 4
  | CommandStatus.Timeout => 5
  | CommandStatus.IoError => 6
  | CommandStatus.Unsupported => 7
  | CommandStatus.Unnamed b => b
  end.

Definition command_status_of_code (b : Z) : CommandStatus :=
  if b =? 0 then CommandStatus.Accepted
  else if b =? 1 then CommandStatus.InvalidArgument
  else if b =? 2 then CommandStatus.NotOpen
  else if b =? 3 then CommandStatus.Busy
  else if b =? 4 then CommandStatus.Rejected
  else if b =? 5 then CommandStatus.Timeout
  else if b =? 6 then CommandStatus.IoError
  else if b =? 7 then CommandStatus.Unsupported
  else CommandStatus.Unnamed b.

Module RuntimeModeCode.
Inductive RuntimeModeCode := Disabled | Idle | Active | Hold | Fault | EStop | Unknown | Unnamed (byte : Z).
End RuntimeModeCode.
Notation RuntimeModeCode := RuntimeModeCode.RuntimeModeCode.

#[export] Instance RuntimeModeCode_eq_dec : EqDecision RuntimeModeCode.
Proof. solve_decision. Defined.

Definition mode_code_to_string (m : RuntimeModeCode) : string :=
  match m with
  | RuntimeModeCode.Disabled => "DISABLED"
  | RuntimeModeCode.Idle => "IDLE"
  | RuntimeModeCode.Active => "ACTIVE"
  | RuntimeModeCode.Hold => "HOLD"
  | RuntimeModeCode.Fault => "FAULT"
  | RuntimeModeCode.EStop => "ESTOP"
  | RuntimeModeCode.Unknown | RuntimeModeCode.Unnamed _ => "UNKNOWN"
  end.

Definition mode_code_byte (m : RuntimeModeCode) : Z :=
  match m with
  | RuntimeModeCode.Disabled => 0
  | RuntimeModeCode.Idle => 1
  | RuntimeModeCode.Active => 2
  | RuntimeModeCode.Hold => 3
  | RuntimeModeCode.Fault => 4
  | RuntimeModeCode.EStop => 5
  | RuntimeModeCode.Unknown => 6
  | RuntimeModeCode.Unnamed b => b
  end.

Definition mode_code_of_byte (b : Z) : RuntimeModeCode :=
  if b =? 0 then RuntimeModeCode.Disabled
  else if b =? 1 then RuntimeModeCode.Idle
  else if b =? 2 then RuntimeModeCode.Active
  else if b =? 3 then RuntimeModeCode.Hold
  else if b =? 4 then RuntimeModeCode.Fault
  else if b =? 5 then RuntimeModeCode.EStop
  else if b =? 6 then RuntimeModeCode.Unknown
  else RuntimeModeCode.Unnamed b.

Module RuntimeFaultCode.
Inductive RuntimeFaultCode :=
  | None | Watchdog | InputFault | CommLoss | NodeFault | ProtocolReject | InterlockLost | Internal
  | AckTimeout | Unknown | Unnamed (byte : Z).
End RuntimeFaultCode.
Notation RuntimeFaultCode := RuntimeFaultCode.RuntimeFaultCode.

#[export] Instance RuntimeFaultCode_eq_dec : EqDecision RuntimeFaultCode.
Proof. solve_decision. Defined.

Definition fault_code_to_string (f : RuntimeFaultCode) : string :=
  match f with
  | RuntimeFaultCode.None => "NONE"
  | RuntimeFaultCode.Watchdog => "WATCHDOG"
  | RuntimeFaultCode.InputFault => "INPUT_FAULT"
  | RuntimeFaultCode.CommLoss => "COMM_LOSS"
  | RuntimeFaultCode.NodeFault => "NODE_FAULT"
  | RuntimeFaultCode.ProtocolReject => "PROTOCOL_REJECT"
  | RuntimeFaultCode.InterlockLost => "INTERLOCK_LOST"
  | RuntimeFaultCode.Internal => "INTERNAL"
  | RuntimeFaultCode.AckTimeout => "ACK_TIMEOUT"
  | RuntimeFaultCode.Unknown | RuntimeFaultCode.Unnamed _ => "UNKNOWN"
  end.

Definition fault_code_byte (f : RuntimeFaultCode) : Z :=
  match f with
  | RuntimeFaultCode.None => 0
  | RuntimeFaultCode.Watchdog => 1
  | RuntimeFaultCode.InputFault => 2
  | RuntimeFaultCode.CommLoss => 3
  | RuntimeFaultCode.NodeFault => 4
  | RuntimeFaultCode.ProtocolReject => 5
  | RuntimeFaultCode.InterlockLost => 6
  | RuntimeFaultCode.Internal => 7
  | RuntimeFaultCode.AckTimeout => 8
  | RuntimeFaultCode.Unknown => 9
  | RuntimeFaultCode.Unnamed b => b
  end.

Definition fault_code_of_byte (b : Z) : RuntimeFaultCode :=
  if b =? 0 then RuntimeFaultCode.None
  else if b =? 1 then RuntimeFaultCode.Watchdog
  else if b =? 2 then RuntimeFaultCode.InputFault
  else if b =? 3 then RuntimeFaultCode.CommLoss
  else if b =? 4 then RuntimeFaultCode.NodeFault
  else if b =? 5 then RuntimeFaultCode.ProtocolReject
  else if b =? 6 then RuntimeFaultCode.InterlockLost
  else if b =? 7 then RuntimeFaultCode.Internal
  else if b =? 8 then RuntimeFaultCode.AckTimeout
  else if b =? 9 then RuntimeFaultCode.Unknown
  else RuntimeFaultCode.Unnamed b.

Module RuntimeExitStatus.
Inductive RuntimeExitStatus :=
  Ok | ConfigError | InterfaceError | PermissionError | WorkerFailure | Unknown.
End RuntimeExitStatus.
Notation RuntimeExitStatus := RuntimeExitStatus.RuntimeExitStatus.

#[export] Instance RuntimeExitStatus_eq_dec : EqDecision RuntimeExitStatus.
Proof. solve_decision. Defined.

Definition exit_status_to_string (s : RuntimeExitStatus) : string :=
  match s with
  | RuntimeExitStatus.Ok => "OK"
  | RuntimeExitStatus.ConfigError => "CONFIG_ERROR"
  | RuntimeExitStatus.InterfaceError => "INTERFACE_ERROR"
  | RuntimeExitStatus.PermissionError => "PERMISSION_ERROR"
  | RuntimeExitStatus.WorkerFailure => "WORKER_FAILURE"
  | RuntimeExitStatus.Unknown => "UNKNOWN"
  end.

Module OutputApplyResult.
Inductive OutputApplyResult :=
  Applied | StaleSequence | SessionMismatch | Expired | InvalidMask | NotReady | Unknown
  | Unnamed (byte : Z).
End OutputApplyResult.
Notation OutputApplyResult := OutputApplyResult.OutputApplyResult.

#[export] Instance OutputApplyResult_eq_dec : EqDecision OutputApplyResult.
Proof. solve_decision. Defined.

Definition apply_result_to_string (r : OutputApplyResult) : string :=
  match r with
  | OutputApplyResult.Applied => "APPLIED"
  | OutputApplyResult.StaleSequence => "STALE_SEQUENCE"
  | OutputApplyResult.SessionMismatch => "SESSION_MISMATCH"
  | OutputApplyResult.Expired => "EXPIRED"
  | OutputApplyResult.InvalidMask => "INVALID_MASK"
  | OutputApplyResult.NotReady => "NOT_READY"
  | OutputApplyResult.Unknown | OutputApplyResult.Unnamed _ => "UNKNOWN"
  end.

Definition apply_result_code (r : OutputApplyResult) : Z :=
  match r with
  | OutputApplyResult.Applied => 0
  | OutputApplyResult.StaleSequence => 1
  | OutputApplyResult.SessionMismatch => 2
  | OutputApplyResult.Expired => 3
  | OutputApplyResult.InvalidMask => 4
  | OutputApplyResult.NotReady => 5
  | OutputApplyResult.Unknown => 6
  | OutputApplyResult.Unnamed b => b
  end.

Definition apply_result_of_code (b : Z) : OutputApplyResult :=
  if b =? 0 then OutputApplyResult.Applied
  else if b =? 1 then OutputApplyResult.StaleSequence
  else if b =? 2 then OutputApplyResult.SessionMismatch
  else if b =? 3 then OutputApplyResult.Expired
  else if b =? 4 then OutputApplyResult.InvalidMask
  else if b =? 5 then OutputApplyResult.NotReady
  else if b =? 6 then OutputApplyResult.Unknown
  else OutputApplyResult.Unnamed b.

Module StopReasonCode.
Inductive CommunicationStopReason := None | EventFd | Signal | IoError | SendFailure | Unknown.
End StopReasonCode.
Notation CommunicationStopReason := StopReasonCode.CommunicationStopReason.

#[export] Instance CommunicationStopReason_eq_dec : EqDecision CommunicationStopReason.
Proof. solve_decision. Defined.

Definition stop_reason_to_string (r : CommunicationStopReason) : string :=
  match r with
  | StopReasonCode.None => "NONE"
  | StopReasonCode.EventFd => "EVENTFD"
  | StopReasonCode.Signal => "SIGNAL"
  | StopReasonCode.IoError => "IO_ERROR"
  | StopReasonCode.SendFailure => "SEND_FAILURE"
  | StopReasonCode.Unknown => "UNKNOWN"
  end.

(** A byte and its enumerator determine each other. *)
Lemma evidence_code_of b : evidence_code (evidence_of_code b) = b.
Proof. unfold evidence_of_code. repeat case_match; bools; by subst. Qed.
Lemma mode_code_byte_of b : mode_code_byte (mode_code_of_byte b) = b.
Proof. unfold mode_code_of_byte. repeat case_match; bools; by subst. Qed.
Lemma fault_code_byte_of b : fault_code_byte (fault_code_of_byte b) = b.
Proof. unfold fault_code_of_byte. repeat case_match; bools; by subst. Qed.

(** ** Views *)

Record DiagnosticEvent := mkDiagnosticEvent {
  de_observed_monotonic_ns : Z;
  de_source : DiagnosticSource;
  de_severity : DiagnosticSeverity;
  de_code : string;
  de_message : string;
  de_device_id : string;
  de_run_id : string;
  de_context : string
}.

Record RuntimeStateView := mkRuntimeStateView {
  rv_started : bool;
  rv_stopping : bool;
  rv_scheduler_running : bool;
  rv_interlock_ready : bool;
  rv_mode : RuntimeModeCode;
  rv_fault : RuntimeFaultCode;
  rv_exit_status : RuntimeExitStatus
}.

Record TimingSnapshot := mkTimingSnapshot {
  tv_target_period_ns : Z;
  tv_cycles : Z;
  tv_deadline_misses : Z;
  tv_min_lateness_ns : Z;
  tv_mean_lateness_ns : Z;
  tv_max_lateness_ns : Z;
  tv_fifo_enabled : bool;
  tv_fifo_error : Z;
  tv_affinity_enabled : bool;
  tv_affinity_error : Z;
  tv_worker_error : Z
}.

Record CommunicationView := mkCommunicationView {
  cv_backend : string;
  cv_interface_name : string;
  cv_evidence : EvidenceClass;
  cv_frames_received : Z;
  cv_frames_sent : Z;
  cv_decode_rejects : Z;
  cv_queue_rejects : Z;
  cv_send_would_block_retries : Z;
  cv_wakeups : Z;
  cv_input_queue_capacity : nat;
  cv_input_queue_size : nat;
  cv_input_queue_drop_count : Z;
  cv_input_queue_overflow_latched : bool;
  cv_stop_reason : CommunicationStopReason;
  cv_last_errno : Z
}.

Record DeviceView := mkDeviceView {
  dv_device_id : string;
  dv_node_id : Z;
  dv_ever_seen : bool;
  dv_online : bool;
  dv_restart_latched : bool;
  dv_overflow_fault_latched : bool;
  dv_comm_loss_latched : bool;
  dv_boot_id : Z;
  dv_session_id : Z;
  dv_last_heartbeat_sequence : Z;
  dv_device_fault_code : Z;
  dv_input_bits : Z;
  dv_last_output_mirror : Z;
  dv_heartbeat_age_ns : Z;
  dv_heartbeats : Z;
  dv_status_updates : Z;
  dv_protocol_rejects : Z
}.

Record OutputFeedbackView := mkOutputFeedbackView {
  ov_ack_pending : bool;
  ov_last_sent_session : Z;
  ov_last_sent_sequence : Z;
  ov_last_sent_time_ns : Z;
  ov_last_ack_session : Z;
  ov_last_ack_sequence : Z;
  ov_last_ack_result : OutputApplyResult;
  ov_last_ack_time_ns : Z;
  ov_ack_timeout_count : Z;
  ov_unexpected_ack_count : Z
}.

Record RuntimeTelemetrySnapshot := mkTelemetry {
  ts_observed_monotonic_ns : Z;
  ts_runtime : RuntimeStateView;
  ts_timing : TimingSnapshot;
  ts_communication : CommunicationView;
  ts_device : DeviceView;
  ts_output : OutputFeedbackView;
  ts_position_reached : bool;
  ts_cell_ready : bool;
  ts_cell_modbus_online : bool;
  ts_cell_ready_do0_requested : bool;
  ts_cell_ready_do0_confirmed : bool;
  ts_cell_ready_do0_status : Z;
  ts_diagnostics : list DiagnosticEvent
}.

#[export] Instance Telemetry_eta : Eta RuntimeTelemetrySnapshot :=
  mkEta _ (fun t => mkTelemetry (ts_observed_monotonic_ns t) (ts_runtime t) (ts_timing t)
    (ts_communication t) (ts_device t) (ts_output t) (ts_position_reached t) (ts_cell_ready t)
    (ts_cell_modbus_online t) (ts_cell_ready_do0_requested t) (ts_cell_ready_do0_confirmed t)
    (ts_cell_ready_do0_status t) (ts_diagnostics t)).

(** ** Commands *)

Record DigitalOutputRequest := mkDigitalOutputRequest {
  dr_session_id : Z;
  dr_sequence : Z;
  dr_valid_for_ms : Z;
  dr_mask : Z;
  dr_values : Z
}.

Record CommandReply := mkCommandReply {
  cr_status : CommandStatus;
  cr_from_state : RuntimeModeCode;
  cr_to_state : RuntimeModeCode;
  cr_message : string
}.

Definition reply_accepted (r : CommandReply) : bool := cr_status r ==? CommandStatus.Accepted.
