(* ===== verification/Adapter.v ===== *)
(** * The application adapter

    [RuntimeApplicationAdapter] of src/workbench/application/runtime_application_adapter.cpp:
    the workbench's view of the daemon and its four commands.  The adapter holds no
    state and takes no lock; between the daemon calls of one command the worker threads
    run, and what they did is an argument, as in [Daemon]. *)

From stdpp Require Import gmap pretty.
From S2P Require Import Prelude Types StateMachine Mailbox Watchdog Ring Trace CanV1 InputQueue.
From S2P Require Import Scheduler Runtime RuntimeInv RuntimeSafety Supervisor Supervision LinuxIo CanIo.
From S2P Require Import Daemon Bytes Application.
Local Open Scope Z_scope.

Definition map_error (code : Errc) : CommandStatus :=
  match code with
  | Errc.Ok => CommandStatus.Accepted
  | Errc.InvalidArgument => CommandStatus.InvalidArgument
  | Errc.NotOpen => CommandStatus.NotOpen
  | Errc.IoError | Errc.WouldBlock => CommandStatus.IoError
  | Errc.Timeout => CommandStatus.Timeout
  | Errc.Busy => CommandStatus.Busy
  | Errc.Rejected => CommandStatus.Rejected
  | Errc.Unsupported => CommandStatus.Unsupported
  end.

Definition map_runtime_mode (mode : RuntimeMode) : RuntimeModeCode :=
  match mode with
  | RuntimeMode.Disabled => RuntimeModeCode.Disabled
  | RuntimeMode.Idle => RuntimeModeCode.Idle
  | RuntimeMode.Active => RuntimeModeCode.Active
  | RuntimeMode.Hold => RuntimeModeCode.Hold
  | RuntimeMode.Fault => RuntimeModeCode.Fault
  | RuntimeMode.EStop => RuntimeModeCode.EStop
  end.

Definition map_runtime_fault (fault : FaultCode) : RuntimeFaultCode :=
  match fault with
  | FaultCode.None => RuntimeFaultCode.None
  | FaultCode.Watchdog => RuntimeFaultCode.Watchdog
  | FaultCode.InputFault => RuntimeFaultCode.InputFault
  | FaultCode.CommLoss => RuntimeFaultCode.CommLoss
  | FaultCode.NodeFault => RuntimeFaultCode.NodeFault
  | FaultCode.ProtocolReject => RuntimeFaultCode.ProtocolReject
  | FaultCode.InterlockLost => RuntimeFaultCode.InterlockLost
  | FaultCode.Internal => RuntimeFaultCode.Internal
  | FaultCode.AckTimeout => RuntimeFaultCode.AckTimeout
  end.

Definition map_exit_status (status : DaemonExitCode) : RuntimeExitStatus :=
  match status with
  | DaemonExitCode.Ok => RuntimeExitStatus.Ok
  | DaemonExitCode.ConfigError => RuntimeExitStatus.ConfigError
  | DaemonExitCode.InterfaceError => RuntimeExitStatus.InterfaceError
  | DaemonExitCode.PermissionError => RuntimeExitStatus.PermissionError
  | DaemonExitCode.WorkerFailure => RuntimeExitStatus.WorkerFailure
  end.

Definition map_output_result (result : OutputResult) : OutputApplyResult :=
  match result with
  | OutputResult.Applied => OutputApplyResult.Applied
  | OutputResult.StaleSequence => OutputApplyResult.StaleSequence
  | OutputResult.SessionMismatch => OutputApplyResult.SessionMismatch
  | OutputResult.Expired => OutputApplyResult.Expired
  | OutputResult.InvalidMask => OutputApplyResult.InvalidMask
  | OutputResult.NotReady => OutputApplyResult.NotReady
  end.

Definition map_stop_reason (reason : IoStopReason) : CommunicationStopReason :=
  match reason with
  | IoStopReason.None => StopReasonCode.None
  | IoStopReason.EventFd => StopReasonCode.EventFd
  | IoStopReason.Signal => StopReasonCode.Signal
  | IoStopReason.IoError => StopReasonCode.IoError
  | IoStopReason.SendFailure => StopReasonCode.SendFailure
  end.

Definition transition_reply (t : TransitionResult) : CommandReply :=
  mkCommandReply (if accepted t then CommandStatus.Accepted else CommandStatus.Rejected)
    (map_runtime_mode (from t)) (map_runtime_mode (to t)) (reason t).

(** ** The snapshot *)

(** The members of a [DaemonSnapshot] whose component does not exist. *)
Definition default_runtime_snapshot : RuntimeSnapshot :=
  mkRuntimeSnapshot RuntimeMode.Disabled FaultCode.None false false
    (mkSchedulerStats 0 0 0 0 0 false 0 false 0 0) 0 0 false 0 0 0 0 0 OutputResult.Applied 0 0 0 0.
Definition default_node_snapshot : NodeSupervisorSnapshot :=
  mkNodeSnapshot false false false false false 0 0 0 0 0 0 0 0 0 0 0 0.
Definition default_io_stats : CanIoStats := mkCanIoStats 0 0 0 0 0 0 IoStopReason.None 0.

Definition raw_runtime (raw : DaemonSnapshot) : RuntimeSnapshot :=
  default default_runtime_snapshot (dsn_runtime raw).
Definition raw_node (raw : DaemonSnapshot) : NodeSupervisorSnapshot :=
  default default_node_snapshot (dsn_node raw).
Definition raw_io (raw : DaemonSnapshot) : CanIoStats := default default_io_stats (dsn_io raw).
Definition raw_queue (raw : DaemonSnapshot) : nat * nat * Z * Z * Z * bool :=
  default (0%nat, 0%nat, 0, 0, 0, false) (dsn_input_queue raw).

Record AdapterConfig := mkAdapterConfig { ac_evidence : EvidenceClass; ac_backend_label : string }.

Definition add_diagnostic (source : DiagnosticSource) (severity : DiagnosticSeverity)
    (code message : string) (out : RuntimeTelemetrySnapshot) : RuntimeTelemetrySnapshot :=
  out <| ts_diagnostics ::= λ ds,
    ds ++ [mkDiagnosticEvent (ts_observed_monotonic_ns out) source severity code message
             (dv_device_id (ts_device out)) "" ""] |>.

Definition diagnose (b : bool) (source : DiagnosticSource) (severity : DiagnosticSeverity)
    (code message : string) (out : RuntimeTelemetrySnapshot) : RuntimeTelemetrySnapshot :=
  if b then add_diagnostic source severity code message out else out.

Definition project_diagnostics (raw : DaemonSnapshot) (out : RuntimeTelemetrySnapshot)
    : RuntimeTelemetrySnapshot :=
  let rt := raw_runtime raw in
  let node := raw_node raw in
  let io := raw_io raw in
  let '(_, _, _, _, _, overflow_latched) := raw_queue raw in
  let out := diagnose (negb (dsn_started raw)) DiagnosticSource.Runtime DiagnosticSeverity.Info
    "RUNTIME_NOT_STARTED" "Runtime daemon is not started" out in
  let out := diagnose (negb (rs_fault rt ==? FaultCode.None)) DiagnosticSource.Runtime
    DiagnosticSeverity.Error "RUNTIME_FAULT" (fault_to_string (rs_fault rt)) out in
  let out := diagnose (negb (ss_worker_error (rs_scheduler rt) =? 0)) DiagnosticSource.Runtime
    DiagnosticSeverity.Error "SCHEDULER_WORKER_ERROR"
    ("scheduler worker errno=" +:+ pretty (ss_worker_error (rs_scheduler rt))) out in
  let out := diagnose overflow_latched DiagnosticSource.Communication DiagnosticSeverity.Error
    "INPUT_QUEUE_OVERFLOW" "Runtime input queue overflow is latched" out in
  let out := diagnose (nss_ever_seen node && negb (nss_online node)) DiagnosticSource.Communication
    DiagnosticSeverity.Error "DEVICE_OFFLINE" "Previously observed device is offline" out in
  let out := diagnose (nss_comm_loss_latched node) DiagnosticSource.Communication
    DiagnosticSeverity.Error "COMM_LOSS_LATCHED" "Communication loss is latched" out in
  let out := diagnose (negb (cs_decode_rejects io =? 0) || negb (nss_protocol_rejects node =? 0))
    DiagnosticSource.Communication DiagnosticSeverity.Warning "PROTOCOL_REJECTS"
    "One or more received frames were rejected" out in
  let out := diagnose (negb (nss_node_fault_code node =? 0)) DiagnosticSource.Device
    DiagnosticSeverity.Error "DEVICE_FAULT"
    ("device fault code=" +:+ pretty (nss_node_fault_code node)) out in
  diagnose (failed_io (cs_stop_reason io)) DiagnosticSource.Communication DiagnosticSeverity.Error
    "CAN_IO_STOPPED"
    (io_stop_reason_to_string (cs_stop_reason io) +:+ " errno=" +:+ pretty (cs_last_errno io)) out.

Definition heartbeat_age (now : Result Z) (node : NodeSupervisorSnapshot) : Z :=
  match now with
  | Ok t => if nss_ever_seen node && (0 <? nss_last_heartbeat_ns node) then
              if nss_last_heartbeat_ns node <=? t then t - nss_last_heartbeat_ns node else 0
            else -1
  | Err _ => -1
  end.

Definition adapter_snapshot (c : AdapterConfig) (now : Result Z) (d : RuntimeDaemon)
    : RuntimeTelemetrySnapshot :=
  let raw := daemon_snapshot d in
  let rt := raw_runtime raw in
  let sched := rs_scheduler rt in
  let node := raw_node raw in
  let io := raw_io raw in
  let '(capacity, size, _, drops, _, latched) := raw_queue raw in
  let out := mkTelemetry (value_or (-1) now)
    (mkRuntimeStateView (dsn_started raw) (dsn_stopping raw) (rs_running rt) (rs_interlock_ready rt)
       (map_runtime_mode (rs_mode rt)) (map_runtime_fault (rs_fault rt))
       (map_exit_status (dsn_exit_code raw)))
    (mkTimingSnapshot (ms_to_ns (dc_period (d_config d))) (ss_cycles sched)
       (ss_deadline_misses sched) (ss_min_lateness_ns sched) (ss_mean_lateness_ns sched)
       (ss_max_lateness_ns sched) (ss_fifo_enabled sched) (ss_fifo_error sched)
       (ss_affinity_enabled sched) (ss_affinity_error sched) (ss_worker_error sched))
    (mkCommunicationView (ac_backend_label c) (dc_can_if (d_config d)) (ac_evidence c)
       (cs_frames_received io) (cs_frames_sent io) (cs_decode_rejects io) (cs_queue_rejects io)
       (cs_send_would_block_retries io) (cs_wakeups io) capacity size drops latched
       (map_stop_reason (cs_stop_reason io)) (cs_last_errno io))
    (mkDeviceView ("CAN_NODE_" +:+ pretty (dc_node_id (d_config d))) (dc_node_id (d_config d))
       (nss_ever_seen node) (nss_online node) (nss_restart_latched node)
       (nss_overflow_fault_latched node) (nss_comm_loss_latched node) (nss_boot_id node)
       (nss_session_id node) (nss_last_hb_seq node) (nss_node_fault_code node)
       (nss_input_bits node) (nss_last_output_mirror node) (heartbeat_age now node)
       (nss_heartbeats node) (nss_status_updates node) (nss_protocol_rejects node))
    (mkOutputFeedbackView (rs_output_ack_pending rt) (rs_last_sent_session rt)
       (rs_last_sent_sequence rt) (rs_last_sent_time_ns rt) (rs_last_ack_session rt)
       (rs_last_ack_sequence rt) (map_output_result (rs_last_ack_result rt))
       (rs_last_ack_time_ns rt) (rs_ack_timeout_count rt) (rs_unexpected_ack_count rt))
    false false false false false 0 [] in
  let out := match now with
             | Ok _ => out
             | Err e => add_diagnostic DiagnosticSource.Workbench DiagnosticSeverity.Error
                          "MONOTONIC_CLOCK_ERROR" (err_message e) out
             end in
  project_diagnostics raw out.

(** ** Commands *)

Definition snapshot_mode (d : RuntimeDaemon) : RuntimeMode := rs_mode (raw_runtime (daemon_snapshot d)).
Definition snapshot_node_fault (d : RuntimeDaemon) : Z :=
  nss_node_fault_code (raw_node (daemon_snapshot d)).

(** The reply of a refused [clear_fault] names the device's fault. *)
Definition explain_device_fault (node_fault : Z) (reply : CommandReply) : CommandReply :=
  if negb (node_fault =? 0) then
    mkCommandReply (cr_status reply) (cr_from_state reply) (cr_to_state reply)
      (cr_message reply +:+ " (device fault_code=" +:+ pretty node_fault +:+
       (if node_fault =? 7 then ", STM32 INTERNAL latched; reset MCU" else "") +:+ ")")
  else reply.

(** Clock samples and worker steps of [activate]: after its snapshot, inside
    [clear_fault], and before the activation. *)
Record ActivateEnv := mkActivateEnv {
  ae_recover_now : Result Z;
  ae_activate_now : Result Z;
  ae_before : list worker_step;
  ae_clear : list worker_step * list worker_step * list worker_step;
  ae_after : list worker_step
}.

Definition adapter_activate (env : ActivateEnv) (d : RuntimeDaemon) : RuntimeDaemon * CommandReply :=
  let mode := snapshot_mode d in
  let node_fault := snapshot_node_fault d in
  let finish d :=
    let '(d, t) := daemon_activate (ae_activate_now env) (daemon_workers d (ae_after env)) in
    (d, transition_reply t) in
  let d := daemon_workers d (ae_before env) in
  if mode ==? RuntimeMode.Hold then
    let '(d, resumed) := daemon_resume (ae_recover_now env) d in
    if negb (accepted resumed) then (d, transition_reply resumed) else finish d
  else if mode ==? RuntimeMode.Fault then
    let '(ws1, ws2, ws3) := ae_clear env in
    let '(d, cleared) := daemon_clear_fault (ae_recover_now env) ws1 ws2 ws3 d in
    if negb (accepted cleared) then (d, explain_device_fault node_fault (transition_reply cleared))
    else finish d
  else finish d.

Definition adapter_deactivate (now : Result Z) (d : RuntimeDaemon) : RuntimeDaemon * CommandReply :=
  let '(d, t) := daemon_deactivate now d in (d, transition_reply t).

Definition adapter_clear_fault (now : Result Z) (ws1 ws2 ws3 : list worker_step) (d : RuntimeDaemon)
    : RuntimeDaemon * CommandReply :=
  let '(d, t) := daemon_clear_fault now ws1 ws2 ws3 d in (d, transition_reply t).

Definition kMaxInt64 : Z := 2 ^ 63 - 1.

(** [now]: the sample the deadline is computed from; [publish_now]: the runtime's own;
    [ws]: the workers between the snapshot and the publication. *)
Definition submit_digital_output (request : DigitalOutputRequest) (now publish_now : Result Z)
    (ws : list worker_step) (d : RuntimeDaemon) : RuntimeDaemon * CommandReply :=
  let current := map_runtime_mode (snapshot_mode d) in
  let d := daemon_workers d ws in
  let invalid m := (d, mkCommandReply CommandStatus.InvalidArgument current current m) in
  if (dr_session_id request =? 0) || (65535 <? dr_session_id request) then
    invalid "session_id must be 1..65535"%string
  else if (dr_sequence request =? 0) || (65535 <? dr_sequence request) then
    invalid "sequence must be 1..65535"%string
  else if (dr_valid_for_ms request <? kMinValidity10ms * 10) ||
          (kMaxValidity10ms * 10 <? dr_valid_for_ms request) then
    invalid "valid_for_ms must be 10..2500"%string
  else if (dr_mask request =? 0) || (255 <? dr_mask request) || (255 <? dr_values request) then
    invalid "mask must be nonzero u8 and values must fit u8"%string
  else
    match now with
    | Err e => (d, mkCommandReply CommandStatus.IoError current current (err_message e))
    | Ok t =>
        let validity_ns := ms_to_ns (dr_valid_for_ms request) in
        if kMaxInt64 - validity_ns <? t then
          invalid "deadline overflows CLOCK_MONOTONIC nanoseconds"%string
        else
          let command := mkOutputCommand (dr_session_id request) (dr_sequence request)
                           (t + validity_ns) (dr_mask request) (dr_values request) in
          let '(d, published) := daemon_publish publish_now command d in
          match published with
          | Err e => (d, mkCommandReply (map_error (err_code e)) current current (err_message e))
          | Ok _ => (d, mkCommandReply CommandStatus.Accepted current current
                          "digital output command accepted by Runtime")
          end
    end.

(** ** The view is faithful *)

(** The runtime's state is legible: distinct modes, faults and verdicts stay distinct. *)
Lemma map_runtime_mode_inj : Inj (=) (=) map_runtime_mode.
Proof. intros [] []; done. Qed.
Lemma map_runtime_fault_inj : Inj (=) (=) map_runtime_fault.
Proof. intros [] []; done. Qed.

(** ** Submitting *)

Definition request_wf (r : DigitalOutputRequest) : Prop :=
  is_u 64 (dr_session_id r) ∧ is_u 64 (dr_sequence r) ∧ is_u 32 (dr_valid_for_ms r) ∧
  is_u 32 (dr_mask r) ∧ is_u 32 (dr_values r).

(** The fields the CAN wire can carry. *)
Definition request_legal (r : DigitalOutputRequest) : Prop :=
  1 ≤ dr_session_id r ≤ 65535 ∧ 1 ≤ dr_sequence r ≤ 65535 ∧ 10 ≤ dr_valid_for_ms r ≤ 2500 ∧
  1 ≤ dr_mask r ≤ 255 ∧ 0 ≤ dr_values r ≤ 255.

Definition request_command (r : DigitalOutputRequest) (t : Z) : OutputCommand :=
  mkOutputCommand (dr_session_id r) (dr_sequence r) (t + ms_to_ns (dr_valid_for_ms r)) (dr_mask r) (dr_values r).

(** A failed clock sample carries an error ([monotonic_now_ns] answers [IoError]). *)
Definition clock_answer (now : Result Z) : Prop :=
  match now with Ok _ => True | Err e => err_code e ≠ Errc.Ok end.

Lemma publish_error_code now c rt rt' e :
  clock_answer now → rt_publish_output_command now c rt = (rt', Err e) → err_code e ≠ Errc.Ok.
Proof.
  intros Hn. unfold rt_publish_output_command, rt_reject_command, fail_with.
  destruct now; [|by intros [= <- <-]]. repeat case_match; by intros [= <- <-].
Qed.

Lemma submit_accepted request now publish_now ws d :
  request_wf request → clock_answer publish_now →
  let '(d', reply) := submit_digital_output request now publish_now ws d in
  reply_accepted reply = true →
  request_legal request ∧ ∃ t rt rt', now = Ok t ∧ t + ms_to_ns (dr_valid_for_ms request) ≤ kMaxInt64 ∧
    d_runtime (daemon_workers d ws) = Some rt ∧ d_runtime d' = Some rt' ∧
    rt_publish_output_command publish_now (request_command request t) rt = (rt', Ok ()).
Proof.
  intros Hwf Hclk. unfold submit_digital_output, reply_accepted, request_legal, kMinValidity10ms, kMaxValidity10ms.
  cbv zeta. destruct (_ || _) eqn:H1; [done|]. destruct (_ || _) eqn:H2 in |- *; [done|].
  destruct (_ || _) eqn:H3 in |- *; [done|]. destruct (_ || _) eqn:H4 in |- *; [done|].
  destruct now as [t|e]; [|done]. destruct (_ <? t) eqn:H5; [done|]. bools.
  unfold daemon_publish. fold (request_command request t).
  destruct (d_runtime (daemon_workers d ws)) as [rt|] eqn:Hrt; [|done].
  destruct (rt_publish_output_command _ _ rt) as [rt' [[]|e]] eqn:Hp.
  - intros _. unfold request_wf in Hwf. split; [width_lia|]. exists t, rt, rt'. split_and!; try done. lia.
  - apply publish_error_code in Hp; [|done]. cbn. intros Ha. bools. by destruct (err_code e).
Qed.

Lemma request_command_wf r t :
  request_legal r → is_i64 t → 0 ≤ t → t + ms_to_ns (dr_valid_for_ms r) ≤ kMaxInt64 →
  command_wf (request_command r t).
Proof.
  unfold request_legal, command_wf, request_command, ms_to_ns, kMaxInt64. cbn. intros. width_lia.
Qed.

(** What the workbench accepts, the wire carries.  When the adapter accepts a digital
    output request, the runtime holds exactly that command, with the deadline [valid_for]
    after the sample; and whenever the pump picks it up with at least 10 ms left, the
    translation to CAN succeeds, unchanged in session, sequence, mask and values, with a
    validity that ends at that deadline rounded up by less than 10 ms. *)
Theorem submitted_output_fits_wire request now publish_now ws d node :
  request_wf request → clock_answer publish_now → legal_node node →
  let '(d', reply) := submit_digital_output request now publish_now ws d in
  reply_accepted reply = true →
  ∃ t rt', now = Ok t ∧ d_runtime d' = Some rt' ∧
    let cmd := request_command request t in
    mb_slot (rt_mailbox rt') = Some cmd ∧
    (0 ≤ t → ∀ t', t ≤ t' → t' + 10000000 ≤ cmd_deadline_ns cmd →
     ∃ w, to_wire_command cmd node t' = Ok w ∧
       oc_session_id w = dr_session_id request ∧ oc_sequence w = dr_sequence request ∧
       oc_mask w = dr_mask request ∧ oc_values w = dr_values request ∧
       cmd_deadline_ns cmd ≤ deadline_from_validity_10ms t' (oc_validity_10ms w)
         < cmd_deadline_ns cmd + kValidityUnitNs).
Proof.
  intros Hwf Hclk Hnode. pose proof (submit_accepted request now publish_now ws d Hwf Hclk) as Hs.
  destruct (submit_digital_output _ _ _ _ _) as [d' reply]. intros Ha.
  destruct (Hs Ha) as (Hl & t & rt & rt' & -> & Hmax & _ & Hrt' & Hp). clear Hs.
  exists t, rt'. split; [done|]. split; [done|]. cbv zeta. apply publish_ok in Hp as (Hslot & _).
  split; [done|]. intros Ht t' Htt' Hleft.
  set (cmd := request_command request t) in *.
  assert (Hval : ms_to_ns (dr_valid_for_ms request) ≤ 2500000000) by (unfold request_legal, ms_to_ns in *; lia).
  assert (Hdl : cmd_deadline_ns cmd = t + ms_to_ns (dr_valid_for_ms request)) by done.
  assert (Hcw : command_wf cmd)
    by (apply request_command_wf; try done; unfold is_i64, kMaxInt64, ms_to_ns, request_legal in *; lia).
  assert (Hrange : deadline_in_range t' (cmd_deadline_ns cmd))
    by (unfold deadline_in_range, kValidityUnitNs; width_lia).
  pose proof (validity_window_cases t' (cmd_deadline_ns cmd) Hrange) as Hv.
  destruct (validity_10ms_from_deadline t' (cmd_deadline_ns cmd)) as [v|e] eqn:Hval'; [|destruct Hv; lia].
  assert (Hw : ∃ w, to_wire_command cmd node t' = Ok w).
  { unfold to_wire_command. rewrite land_ff_u8, Hval'. unfold cmd, request_command, request_legal in *. cbn [cmd_session_id cmd_sequence cmd_mask].
    rewrite (Z.mod_small (dr_mask request)) by lia.
    rewrite !(proj2 (Z.eqb_neq _ _)), (proj2 (Z.ltb_ge _ _)) by lia. cbn. by eexists. }
  destruct Hw as [w Hw]. exists w. split; [done|].
  destruct (to_wire_command_legal cmd node t' w Hcw Hrange Hnode Hw)
    as (_ & _ & _ & -> & -> & -> & -> & Hd).
  unfold request_legal in Hl. unfold cmd in *. cbn [request_command cmd_session_id cmd_sequence cmd_mask cmd_values].
  rewrite (Z.mod_small (dr_mask request)), (Z.mod_small (dr_values request)) by lia.
  destruct (wire_sequence_eq (dr_sequence request)) as [-> _]; [lia|].
  rewrite Z.mod_small by lia. split_and!; try done; lia.
Qed.

Definition demo_output_request : DigitalOutputRequest := mkDigitalOutputRequest 7 3 100 1 1.
Definition demo_active : RuntimeDaemon :=
  demo_daemon <| d_runtime := Some (demo_rt []) |> <| d_supervisor := Some demo_supervisor |>
    <| d_queue := Some (q_new 8) |> <| d_io := Some demo_io |>.

Lemma submitted_output_fits_wire_witness :
  ∃ w, to_wire_command (request_command demo_output_request 1000) 1 50000000 = Ok w ∧
    oc_sequence w = 3 ∧ oc_values w = 1.
Proof.
  pose proof (submitted_output_fits_wire demo_output_request (Ok 1000) (Ok 1001) [] demo_active 1) as H.
  assert (Ha : reply_accepted (snd (submit_digital_output demo_output_request (Ok 1000) (Ok 1001) []
    demo_active)) = true) by (vm_compute; reflexivity).
  destruct (submit_digital_output _ _ _ _ demo_active) as [d' reply].
  destruct H as (t & rt' & [= <-] & _ & _ & H).
  - unfold request_wf, is_u. cbn. lia.
  - exact I.
  - unfold legal_node. lia.
  - exact Ha.
  - destruct (H ltac:(lia) 50000000 ltac:(lia) ltac:(vm_compute; congruence)) as (w & Hw & _ & Hq & _ & Hv & _).
    exists w. split; [exact Hw|]. split; [exact Hq|exact Hv].
Defined.

(** ** Activating *)

Lemma transition_reply_accepted t : reply_accepted (transition_reply t) = accepted t.
Proof. unfold reply_accepted, transition_reply. by destruct (accepted t). Qed.

Lemma explain_device_fault_accepted f r : reply_accepted (explain_device_fault f r) = reply_accepted r.
Proof. unfold explain_device_fault. by destruct (negb _). Qed.

Lemma activate_accepted now d d' t :
  daemon_activate now d = (d', t) → accepted t = true →
  ∃ rt rt', d_runtime d = Some rt ∧ d_runtime d' = Some rt' ∧ rt_running rt = true ∧
    sm_interlock_ready (rt_state_machine rt) = true ∧
    rt_mode rt = RuntimeMode.Idle ∧ rt_mode rt' = RuntimeMode.Active ∧
    rt_fault rt' = FaultCode.None ∧ path_closed rt'.
Proof.
  unfold daemon_activate, daemon_event. destruct (d_runtime d) as [rt|]; [|by intros [= <- <-]].
  destruct (rt_handle now RuntimeEvent.ActivateRequest rt) as [rt' t'] eqn:Hh. intros [= <- <-] Ha.
  exists rt, rt'. split; [done|]. split; [done|]. revert Hh Ha.
  unfold rt_handle. rewrite (bool_decide_eq_false_2 (RuntimeEvent.ActivateRequest = _)) by done.
  rewrite (bool_decide_eq_true_2 (RuntimeEvent.ActivateRequest = _)) by done.
  destruct (rt_running rt) eqn:Hrun; cbn [negb andb]; [|by intros [= <- <-]].
  unfold sm_step, rt_mode, rt_fault. destruct (rt_state_machine rt) as [[] [] f]; cbn;
    by intros [= <- <-].
Qed.

(** An operator's Activate opens the output path only cleanly: when it is accepted,
    also out of [Hold] or [Fault] and with the workers running in between, the runtime is
    [Active] without a fault, and no command, session or pending acknowledgement of an
    earlier activation is left; out of [Fault], the I/O loop had not failed and the
    supervisor saw every cause gone. *)
Theorem operator_activation_clean env d d' reply :
  adapter_activate env d = (d', reply) → reply_accepted reply = true →
  (∃ rt', d_runtime d' = Some rt' ∧ rt_mode rt' = RuntimeMode.Active ∧
     rt_fault rt' = FaultCode.None ∧ path_closed rt') ∧
  (faulted d →
   let d1 := daemon_workers (daemon_workers d (ae_before env)) (fst (fst (ae_clear env))) in
   let d2 := daemon_workers d1 (snd (fst (ae_clear env))) in
   ∃ l n q, d_io d1 = Some l ∧ d_supervisor d2 = Some n ∧ d_queue d2 = Some q ∧
     failed_io (io_stop_reason l) = false ∧ recovered q n).
Proof.
  intros Hact Hacc.
  assert (Hfin : ∀ d0 dd, (let '(d2, t) := daemon_activate (ae_activate_now env) (daemon_workers d0 (ae_after env)) in
    (d2, transition_reply t)) = (dd, reply) → ∃ rt', d_runtime dd = Some rt' ∧ rt_mode rt' = RuntimeMode.Active ∧
     rt_fault rt' = FaultCode.None ∧ path_closed rt').
  { intros d0 dd. destruct (daemon_activate _ _) as [d2 t] eqn:Ha. intros [= <- <-].
    rewrite transition_reply_accepted in Hacc.
    destruct (activate_accepted _ _ _ _ Ha Hacc) as (_ & rt' & _ & ? & _ & _ & _ & ? & ? & ?). by exists rt'. }
  unfold adapter_activate in Hact. cbv zeta in Hact. destruct (snapshot_mode d ==? RuntimeMode.Hold) eqn:Hh; bools.
  - destruct (daemon_resume _ _) as [d1 resumed].
    destruct (accepted resumed) eqn:Hr; cbn [negb] in Hact.
    2:{ injection Hact as <- <-. rewrite transition_reply_accepted in Hacc. congruence. }
    split; [by eapply Hfin|]. intros (rt & _ & _ & _ & Hrt & _ & _ & _ & Hm). exfalso.
    unfold snapshot_mode, daemon_snapshot in Hh. cbn in Hh. rewrite Hrt in Hh. cbn in Hh. congruence.
  - destruct (snapshot_mode d ==? RuntimeMode.Fault) eqn:Hf; bools.
    + destruct (ae_clear env) as [[ws1 ws2] ws3]. cbn [fst snd].
      pose proof (clear_fault_cases (ae_recover_now env) ws1 ws2 ws3 (daemon_workers d (ae_before env))) as Hc.
      destruct (daemon_clear_fault _ _ _ _ _) as [d1 cleared].
      destruct (accepted cleared) eqn:Hr; cbn [negb] in Hact.
      2:{ injection Hact as <- <-. rewrite explain_device_fault_accepted, transition_reply_accepted in Hacc.
          congruence. }
      split; [by eapply Hfin|]. intros Hd. destruct (Hc (daemon_workers_faulted _ _ Hd))
        as (l & n & q & rt' & ? & ? & ? & _ & Hiff & _).
      exists l, n, q. split_and!; try done; by apply Hiff.
    + split; [by eapply Hfin|]. intros (rt & _ & _ & _ & Hrt & _ & _ & _ & Hm). exfalso.
      unfold snapshot_mode, daemon_snapshot in Hf. cbn in Hf. rewrite Hrt in Hf. cbn in Hf. congruence.
Qed.

Lemma operator_activation_clean_witness :
  let env := mkActivateEnv (Ok 20) (Ok 21) [] ([], [], []) [] in
  let '(d', reply) := adapter_activate env demo_faulted in
  reply_accepted reply = true ∧ ∃ rt', d_runtime d' = Some rt' ∧ rt_mode rt' = RuntimeMode.Active.
Proof.
  intros env. pose proof (operator_activation_clean env demo_faulted) as H.
  assert (Ha : reply_accepted (snd (adapter_activate env demo_faulted)) = true) by (vm_compute; reflexivity).
  destruct (adapter_activate env demo_faulted) as [d' reply]. split; [exact Ha|].
  destruct (H d' reply eq_refl Ha) as [(rt' & Hrt & Hm & _) _]. exists rt'. split; assumption.
Defined.
