(* ===== verification/RemoteControl.v ===== *)
(** * The remote control protocol

    src/workbench/application/remote_control_protocol.cpp and remote_runtime_client.cpp:
    the 64-byte status payload, the endpoint that answers HELLO, HEARTBEAT and
    GET_STATUS on a byte stream, and the in-process client.  The client's pointer to the
    endpoint is an [option]; client and endpoint change together, so an operation acts
    on the pair. *)

From S2P Require Import Prelude Types Bytes RemoteFrame Application.
Local Open Scope Z_scope.

Definition kRemoteStatusWireSize : nat := 64.
Definition kRemoteLoopbackEvidenceTag : string := "LOOPBACK".

(** The bytes of a string literal. *)
Definition bytes_of_string (s : string) : list Z :=
  map (λ c, Z.of_N (Ascii.N_of_ascii c)) (String.list_ascii_of_string s).

Record RemoteStatusView := mkRemoteStatus {
  rsv_observed_monotonic_ns : Z;
  rsv_mode : RuntimeModeCode;
  rsv_fault : RuntimeFaultCode;
  rsv_started : bool;
  rsv_online : bool;
  rsv_session_id : Z;
  rsv_last_heartbeat_sequence : Z;
  rsv_heartbeat_age_ns : Z;
  rsv_frames_received : Z;
  rsv_frames_sent : Z;
  rsv_decode_rejects : Z;
  rsv_input_queue_drop_count : Z;
  rsv_evidence : EvidenceClass
}.

Definition project_remote_status (snapshot : RuntimeTelemetrySnapshot) : RemoteStatusView :=
  let evidence := cv_evidence (ts_communication snapshot) in
  mkRemoteStatus (ts_observed_monotonic_ns snapshot) (rv_mode (ts_runtime snapshot))
    (rv_fault (ts_runtime snapshot)) (rv_started (ts_runtime snapshot))
    (dv_online (ts_device snapshot)) (dv_session_id (ts_device snapshot))
    (dv_last_heartbeat_sequence (ts_device snapshot)) (dv_heartbeat_age_ns (ts_device snapshot))
    (cv_frames_received (ts_communication snapshot)) (cv_frames_sent (ts_communication snapshot))
    (cv_decode_rejects (ts_communication snapshot))
    (cv_input_queue_drop_count (ts_communication snapshot))
    (if evidence ==? EvidenceClass.Unspecified then EvidenceClass.Loopback else evidence).

(** ** The status payload *)

(** [append_u64_le]: eight bytes by a shift loop; the signed form casts first. *)
Definition append_u64_le (out : list Z) (value : Z) : list Z :=
  out ++ map (λ i, u8 (Z.land (Z.shiftr value (8 * Z.of_nat i)) 0xFF)) (seq 0 8).
Definition append_i64_le (out : list Z) (value : Z) : list Z := append_u64_le out (u64 value).

(** [value |= p[i] << (8 * i)] for the eight bytes from [o]. *)
Definition read_u64_le (p : list Z) (o : nat) : Z :=
  foldl (λ value i, Z.lor value (Z.shiftl (byte_at p (o + i)) (8 * Z.of_nat i))) 0 (seq 0 8).
Definition read_i64_le (p : list Z) (o : nat) : Z := i64 (read_u64_le p o).

Definition bool_byte (b : bool) : Z := if b then 1 else 0.

(** [while (out.size() < n) out.push_back(0);] *)
Definition pad_zero (n : nat) (out : list Z) : list Z := out ++ replicate (n - length out) 0.

Definition encode_remote_status_payload (status : RemoteStatusView) : option (list Z) :=
  let out := append_i64_le [] (rsv_observed_monotonic_ns status) in
  let out := out ++ [mode_code_byte (rsv_mode status); fault_code_byte (rsv_fault status);
                     bool_byte (rsv_started status); bool_byte (rsv_online status)] in
  let out := append_u16_le out (rsv_session_id status) in
  let out := append_u16_le out (rsv_last_heartbeat_sequence status) in
  let out := append_i64_le out (rsv_heartbeat_age_ns status) in
  let out := append_u64_le out (rsv_frames_received status) in
  let out := append_u64_le out (rsv_frames_sent status) in
  let out := append_u64_le out (rsv_decode_rejects status) in
  let out := append_u64_le out (rsv_input_queue_drop_count status) in
  let out := out ++ [evidence_code (rsv_evidence status)] in
  let out := pad_zero kRemoteStatusWireSize out in
  if (length out =? kRemoteStatusWireSize)%nat then Some out else None.

Definition decode_remote_status_payload (p : list Z) : option RemoteStatusView :=
  if negb (length p =? kRemoteStatusWireSize)%nat then None
  else Some (mkRemoteStatus (read_i64_le p 0) (mode_code_of_byte (byte_at p 8))
               (fault_code_of_byte (byte_at p 9)) (negb (byte_at p 10 =? 0)) (negb (byte_at p 11 =? 0))
               (read_u16_le p 12) (read_u16_le p 14) (read_i64_le p 16) (read_u64_le p 24)
               (read_u64_le p 32) (read_u64_le p 40) (read_u64_le p 48)
               (evidence_of_code (byte_at p 56))).

(** ** The endpoint *)

Module RemoteSessionState.
Inductive RemoteSessionState := WaitingHello | Established | Faulted.
End RemoteSessionState.
Notation RemoteSessionState := RemoteSessionState.RemoteSessionState.

#[export] Instance RemoteSessionState_eq_dec : EqDecision RemoteSessionState.
Proof. solve_decision. Defined.

Definition session_state_to_string (s : RemoteSessionState) : string :=
  match s with
  | RemoteSessionState.WaitingHello => "WAITING_HELLO"
  | RemoteSessionState.Established => "ESTABLISHED"
  | RemoteSessionState.Faulted => "FAULTED"
  end.

Record RemoteControlEndpoint := mkEndpoint {
  ep_status : RemoteStatusView;
  ep_parser : list Z;
  ep_session_state : RemoteSessionState;
  ep_frames_accepted : Z;
  ep_frames_rejected : Z;
  ep_hellos : Z;
  ep_heartbeats : Z;
  ep_status_replies : Z;
  ep_malformed : Z;
  ep_heartbeat_replies_enabled : bool;
  ep_last_error : string
}.

#[export] Instance Endpoint_eta : Eta RemoteControlEndpoint :=
  mkEta _ (fun e => mkEndpoint (ep_status e) (ep_parser e) (ep_session_state e)
    (ep_frames_accepted e) (ep_frames_rejected e) (ep_hellos e) (ep_heartbeats e)
    (ep_status_replies e) (ep_malformed e) (ep_heartbeat_replies_enabled e) (ep_last_error e)).

Definition set_status (status : RemoteStatusView) (e : RemoteControlEndpoint) : RemoteControlEndpoint :=
  e <| ep_status := status |>.
Definition set_heartbeat_replies_enabled (b : bool) (e : RemoteControlEndpoint) : RemoteControlEndpoint :=
  e <| ep_heartbeat_replies_enabled := b |>.

Definition reset_session (e : RemoteControlEndpoint) : RemoteControlEndpoint :=
  mkEndpoint (ep_status e) [] RemoteSessionState.WaitingHello 0 0 0 0 0 0 true "".

(** The file-local [encode_frame]; [None]: refused, [out] unchanged. *)
Definition encode_frame (type : RemoteMessageType) (sequence : Z) (payload out : list Z)
    : option (list Z) :=
  encode_remote_frame (mkRemoteFrame kRemoteProtocolVersion type 0 sequence payload) out.

Definition reply_error (sequence : Z) (message : string) (e : RemoteControlEndpoint) (out : list Z)
    : RemoteControlEndpoint * list Z :=
  let e := e <| ep_last_error := message |> in
  let payload := [1; 0] ++ take 64 (bytes_of_string message) in
  match encode_frame RemoteMessageType.Error sequence payload out with
  | Some out => (e, out)
  | None => (e, out)
  end.

Definition established (e : RemoteControlEndpoint) : bool :=
  ep_session_state e ==? RemoteSessionState.Established.

Definition endpoint_handle_frame (request : RemoteFrame) (e : RemoteControlEndpoint) (out : list Z)
    : RemoteControlEndpoint * list Z :=
  let e := e <| ep_frames_accepted ::= incr64 |> in
  let seq := rf_sequence request in
  match rf_type request with
  | RemoteMessageType.Hello =>
      let e := e <| ep_hellos ::= incr64 |> in
      let payload := [kRemoteProtocolVersion] ++ bytes_of_string kRemoteLoopbackEvidenceTag ++ [0] in
      match encode_frame RemoteMessageType.HelloAck seq payload out with
      | None => (e <| ep_last_error := "encode HELLO_ACK failed"%string |>, out)
      | Some out =>
          (e <| ep_session_state := RemoteSessionState.Established |> <| ep_last_error := ""%string |>, out)
      end
  | RemoteMessageType.Heartbeat =>
      if negb (established e) then reply_error seq "HEARTBEAT before HELLO" e out
      else
        let e := e <| ep_heartbeats ::= incr64 |> in
        if negb (ep_heartbeat_replies_enabled e) then (e, out)
        else
          let payload := if (length (rf_payload request) =? 8)%nat then rf_payload request
                         else append_i64_le [] (rsv_observed_monotonic_ns (ep_status e)) in
          match encode_frame RemoteMessageType.HeartbeatAck seq payload out with
          | None => (e <| ep_last_error := "encode HEARTBEAT_ACK failed"%string |>, out)
          | Some out => (e, out)
          end
  | RemoteMessageType.GetStatus =>
      if negb (established e) then reply_error seq "GET_STATUS before HELLO" e out
      else
        match encode_remote_status_payload (ep_status e) with
        | None => reply_error seq "status encode failed" e out
        | Some payload =>
            match encode_frame RemoteMessageType.Status seq payload out with
            | None => reply_error seq "STATUS encode failed" e out
            | Some out => (e <| ep_status_replies ::= incr64 |>, out)
            end
        end
  | _ => reply_error seq "unsupported message type" (e <| ep_frames_rejected ::= incr64 |>) out
  end.

(** The loop of [push_bytes]; [false]: the turns given were too few. *)
Fixpoint endpoint_loop (turns : nat) (e : RemoteControlEndpoint) (out : list Z)
    : RemoteControlEndpoint * list Z * bool :=
  match turns with
  | O => (e, out, false)
  | S turns =>
      let '(buffer, status, frame) := try_pop default_frame (ep_parser e) in
      let e := e <| ep_parser := buffer |> in
      match status with
      | ParseStatus.NeedMore => (e, out, true)
      | ParseStatus.Ok =>
          let '(e, out) := endpoint_handle_frame frame e out in endpoint_loop turns e out
      | _ =>
          endpoint_loop turns
            (e <| ep_malformed ::= incr64 |> <| ep_frames_rejected ::= incr64 |>
               <| ep_last_error := parse_status_to_string status |>) out
      end
  end.

(** Every turn but the last consumes a byte of the buffer. *)
Definition push_bytes (inbound : list Z) (e : RemoteControlEndpoint) (out : list Z)
    : RemoteControlEndpoint * list Z * bool :=
  let '(buffer, status) := parser_append inbound (ep_parser e) in
  let e := e <| ep_parser := buffer |> in
  if status ==? ParseStatus.BufferOverflow then
    let e := e <| ep_malformed ::= incr64 |> <| ep_last_error := "rx buffer overflow"%string |>
               <| ep_session_state := RemoteSessionState.Faulted |> in
    let '(e, out) := reply_error 0 (ep_last_error e) e out in (e, out, true)
  else endpoint_loop (S (length buffer)) e out.

(** ** Requests *)

Definition encode_hello (sequence : Z) (out : list Z) : option (list Z) :=
  encode_frame RemoteMessageType.Hello sequence [kRemoteProtocolVersion] out.
Definition encode_heartbeat (sequence client_monotonic_ns : Z) (out : list Z) : option (list Z) :=
  encode_frame RemoteMessageType.Heartbeat sequence (append_i64_le [] client_monotonic_ns) out.
Definition encode_get_status (sequence : Z) (out : list Z) : option (list Z) :=
  encode_frame RemoteMessageType.GetStatus sequence [] out.

(** [strnlen]: the bytes before the first NUL. *)
Fixpoint until_nul (p : list Z) : list Z :=
  match p with [] => [] | b :: p => if b =? 0 then [] else b :: until_nul p end.

(** The protocol version and the evidence tag, as bytes. *)
Definition decode_hello_ack (payload : list Z) : option (Z * list Z) :=
  match payload with
  | [] => None
  | v :: rest => Some (v, if (length payload =? 1)%nat then [] else until_nul rest)
  end.

(** ** The client *)

Record RemoteRuntimeClient := mkClient {
  rc_parser : list Z;
  rc_connected : bool;
  rc_next_sequence : Z;
  rc_heartbeats_ok : Z;
  rc_heartbeats_missed : Z;
  rc_status_ok : Z;
  rc_last_error : string;
  rc_evidence_tag : list Z;
  rc_last_status : RemoteStatusView;
  rc_session_state : RemoteSessionState
}.

#[export] Instance Client_eta : Eta RemoteRuntimeClient :=
  mkEta _ (fun c => mkClient (rc_parser c) (rc_connected c) (rc_next_sequence c) (rc_heartbeats_ok c)
    (rc_heartbeats_missed c) (rc_status_ok c) (rc_last_error c) (rc_evidence_tag c)
    (rc_last_status c) (rc_session_state c)).

Notation Link := (RemoteRuntimeClient * option RemoteControlEndpoint)%type.

Definition client_fail (message : string) (c : RemoteRuntimeClient) : RemoteRuntimeClient :=
  c <| rc_last_error := message |>.

(** [exchange]: the reply frame on success. *)
Definition exchange (request : list Z) (l : Link) : Link * option RemoteFrame :=
  let '(c, endpoint) := l in
  match endpoint with
  | None => ((client_fail "no endpoint" c, None), None)
  | Some e =>
      let '(e, outbound, _) := push_bytes request e [] in
      let fail message c := ((client_fail message c, Some e), None) in
      if (length outbound =? 0)%nat then fail "empty reply"%string c
      else
        let '(buffer, appended) := parser_append outbound [] in
        let c := c <| rc_parser := buffer |> in
        if appended ==? ParseStatus.BufferOverflow then fail "reply buffer overflow"%string c
        else
          let '(buffer, status, reply) := try_pop default_frame buffer in
          let c := c <| rc_parser := buffer |> in
          if negb (status ==? ParseStatus.Ok) then fail (parse_status_to_string status) c
          else
            let '(buffer, extra, _) := try_pop default_frame buffer in
            let c := c <| rc_parser := buffer |> in
            if extra ==? ParseStatus.Ok then fail "unexpected extra reply frame"%string c
            else ((c <| rc_last_error := ""%string |>, Some e), Some reply)
  end.

(** [next_sequence_++] *)
Definition take_sequence (c : RemoteRuntimeClient) : RemoteRuntimeClient * Z :=
  (c <| rc_next_sequence ::= λ n, u16 (n + 1) |>, rc_next_sequence c).

Definition connect_session (status : RemoteStatusView) (l : Link) : Link * bool :=
  let '(c, endpoint) := l in
  match endpoint with
  | None => ((client_fail "no endpoint" c, None), false)
  | Some e =>
      let e := set_status status (reset_session e) in
      let c := c <| rc_parser := [] |> <| rc_connected := false |>
                 <| rc_session_state := RemoteSessionState.WaitingHello |> <| rc_evidence_tag := [] |>
                 <| rc_heartbeats_ok := 0 |> <| rc_heartbeats_missed := 0 |> <| rc_status_ok := 0 |> in
      let '(c, sequence) := take_sequence c in
      match encode_hello sequence [] with
      | None => ((client_fail "encode HELLO failed" c, Some e), false)
      | Some request =>
          match exchange request (c, Some e) with
          | (l, None) => (l, false)
          | ((c, e), Some reply) =>
              if negb (rf_type reply ==? RemoteMessageType.HelloAck) then
                ((client_fail "expected HELLO_ACK" c, e), false)
              else
                match decode_hello_ack (rf_payload reply) with
                | Some (version, tag) =>
                    if negb (version =? kRemoteProtocolVersion) then
                      ((client_fail "invalid HELLO_ACK" c, e), false)
                    else
                      ((c <| rc_evidence_tag := tag |> <| rc_connected := true |>
                          <| rc_session_state := RemoteSessionState.Established |>
                          <| rc_last_error := ""%string |>, e), true)
                | None => ((client_fail "invalid HELLO_ACK" c, e), false)
                end
          end
      end
  end.

Definition disconnect_session (l : Link) : Link :=
  let '(c, endpoint) := l in
  (c <| rc_connected := false |> <| rc_session_state := RemoteSessionState.WaitingHello |>
     <| rc_evidence_tag := [] |> <| rc_parser := [] |>, option_map reset_session endpoint).

Definition poll_heartbeat (client_monotonic_ns : Z) (l : Link) : Link * bool :=
  let '(c, endpoint) := l in
  match rc_connected c, endpoint with
  | true, Some e =>
      let '(c, sequence) := take_sequence c in
      match encode_heartbeat sequence client_monotonic_ns [] with
      | None => ((client_fail "encode HEARTBEAT failed" c, Some e), false)
      | Some request =>
          let '(e, outbound, _) := push_bytes request e [] in
          if (length outbound =? 0)%nat then
            ((client_fail "heartbeat reply missing" (c <| rc_heartbeats_missed ::= incr64 |>), Some e), false)
          else
            let '(buffer, _) := parser_append outbound [] in
            let '(buffer, status, reply) := try_pop default_frame buffer in
            let c := c <| rc_parser := buffer |> in
            if negb (status ==? ParseStatus.Ok) || negb (rf_type reply ==? RemoteMessageType.HeartbeatAck) then
              ((client_fail "heartbeat ack failed" (c <| rc_heartbeats_missed ::= incr64 |>), Some e), false)
            else ((c <| rc_heartbeats_ok ::= incr64 |> <| rc_last_error := ""%string |>, Some e), true)
      end
  | _, _ => ((client_fail "not connected" c, endpoint), false)
  end.

Definition refresh_status (l : Link) : Link * bool :=
  let '(c, endpoint) := l in
  match rc_connected c, endpoint with
  | true, Some e =>
      let '(c, sequence) := take_sequence c in
      match encode_get_status sequence [] with
      | None => ((client_fail "encode GET_STATUS failed" c, Some e), false)
      | Some request =>
          let complain l : Link * bool :=
            let '(c, e) := l in
            (if String.eqb (rc_last_error c) "" then (client_fail "STATUS reply failed" c, e) else (c, e), false) in
          match exchange request (c, Some e) with
          | (l, None) => complain l
          | ((c, e), Some reply) =>
              if negb (rf_type reply ==? RemoteMessageType.Status) then complain (c, e)
              else
                match decode_remote_status_payload (rf_payload reply) with
                | None => ((client_fail "STATUS decode failed" c, e), false)
                | Some status =>
                    ((c <| rc_last_status := status |> <| rc_status_ok ::= incr64 |>
                        <| rc_last_error := ""%string |>, e), true)
                end
          end
      end
  | _, _ => ((client_fail "not connected" c, endpoint), false)
  end.

Module RemoteBackendMode.
Inductive RemoteBackendMode := Local | RemoteLoopback.
End RemoteBackendMode.
Notation RemoteBackendMode := RemoteBackendMode.RemoteBackendMode.

Record RemoteConnectionSnapshot := mkConnectionSnapshot {
  rcs_mode : RemoteBackendMode;
  rcs_connected : bool;
  rcs_evidence_banner : string;
  rcs_peer : string;
  rcs_session_state : RemoteSessionState;
  rcs_heartbeats_ok : Z;
  rcs_heartbeats_missed : Z;
  rcs_status_ok : Z;
  rcs_malformed : Z;
  rcs_last_error : string;
  rcs_last_status : RemoteStatusView
}.

Definition client_snapshot (mode : RemoteBackendMode) (l : Link) : RemoteConnectionSnapshot :=
  let '(c, endpoint) := l in
  let malformed := match endpoint with Some e => ep_malformed e | None => 0 end in
  match mode with
  | RemoteBackendMode.Local =>
      mkConnectionSnapshot mode false "LOCAL / SAME PROCESS" "n/a" RemoteSessionState.WaitingHello
        (rc_heartbeats_ok c) (rc_heartbeats_missed c) (rc_status_ok c) malformed (rc_last_error c)
        (rc_last_status c)
  | RemoteBackendMode.RemoteLoopback =>
      mkConnectionSnapshot mode (rc_connected c)
        (if rc_connected c then "LOOPBACK / NO PHYSICAL PC-ARM" else "REMOTE_LOOPBACK / DISCONNECTED")
        "in-process endpoint" (rc_session_state c)
        (rc_heartbeats_ok c) (rc_heartbeats_missed c) (rc_status_ok c) malformed (rc_last_error c)
        (rc_last_status c)
  end.

(** ** The payload round trip *)

(** The widths of the C++ fields. *)
Definition status_wf (s : RemoteStatusView) : Prop :=
  is_i64 (rsv_observed_monotonic_ns s) ∧ is_i64 (rsv_heartbeat_age_ns s) ∧
  is_u 16 (rsv_session_id s) ∧ is_u 16 (rsv_last_heartbeat_sequence s) ∧
  is_u 64 (rsv_frames_received s) ∧ is_u 64 (rsv_frames_sent s) ∧ is_u 64 (rsv_decode_rejects s) ∧
  is_u 64 (rsv_input_queue_drop_count s) ∧
  (is_u 8 (mode_code_byte (rsv_mode s)) ∧ mode_code_of_byte (mode_code_byte (rsv_mode s)) = rsv_mode s) ∧
  (is_u 8 (fault_code_byte (rsv_fault s)) ∧ fault_code_of_byte (fault_code_byte (rsv_fault s)) = rsv_fault s) ∧
  (is_u 8 (evidence_code (rsv_evidence s)) ∧ evidence_of_code (evidence_code (rsv_evidence s)) = rsv_evidence s).

Definition status_body (s : RemoteStatusView) : list Z :=
  le_bytes 8 (u64 (rsv_observed_monotonic_ns s)) ++
  [mode_code_byte (rsv_mode s); fault_code_byte (rsv_fault s); bool_byte (rsv_started s);
   bool_byte (rsv_online s)] ++
  le_bytes 2 (rsv_session_id s) ++ le_bytes 2 (rsv_last_heartbeat_sequence s) ++
  le_bytes 8 (u64 (rsv_heartbeat_age_ns s)) ++ le_bytes 8 (rsv_frames_received s) ++
  le_bytes 8 (rsv_frames_sent s) ++ le_bytes 8 (rsv_decode_rejects s) ++
  le_bytes 8 (rsv_input_queue_drop_count s) ++ [evidence_code (rsv_evidence s)] ++ replicate 7 0.

Lemma status_body_length s : length (status_body s) = kRemoteStatusWireSize.
Proof. done. Qed.

Lemma encode_status_body s : encode_remote_status_payload s = Some (status_body s).
Proof. reflexivity. Qed.

Lemma status_body_wf s : status_wf s → bytes_wf (status_body s).
Proof.
  intros (_ & _ & _ & _ & _ & _ & _ & _ & [Hm _] & [Hf _] & [He _]). unfold status_body.
  rewrite !Forall_app. split_and!; try apply le_bytes_wf.
  - repeat (apply Forall_cons; split; [try done|]); [by destruct (rsv_started s)|by destruct (rsv_online s)|constructor].
  - apply Forall_cons; split; [done|constructor].
  - by apply Forall_replicate.
Qed.

Lemma i64_u64 v : is_i64 v → i64 (u64 v) = v.
Proof.
  intros Hv. rewrite <- (i64_small v Hv) at 2. unfold i64.
  assert (u64 (u64 v) = u64 v) as -> by (apply u64_small, u64_range). done.
Qed.

Lemma status_decodes s : status_wf s → decode_remote_status_payload (status_body s) = Some s.
Proof.
  intros (Ho & Ha & Hs & Hq & Hr & Ht & Hj & Hd & [_ Hm] & [_ Hf] & [_ He]).
  unfold decode_remote_status_payload. rewrite status_body_length, Nat.eqb_refl. cbn [negb]. f_equal.
  assert (H8 : ∀ o v rest, drop o (status_body s) = le_bytes 8 v ++ rest → is_u 64 v →
    read_u64_le (status_body s) o = v) by (intros o v rest; exact (le_read_written 8 o _ v rest)).
  unfold read_i64_le.
  rewrite (H8 0%nat (u64 (rsv_observed_monotonic_ns s)) _ eq_refl (u64_range _)).
  rewrite (H8 16%nat (u64 (rsv_heartbeat_age_ns s)) _ eq_refl (u64_range _)).
  rewrite (H8 24%nat (rsv_frames_received s) _ eq_refl Hr), (H8 32%nat (rsv_frames_sent s) _ eq_refl Ht).
  rewrite (H8 40%nat (rsv_decode_rejects s) _ eq_refl Hj), (H8 48%nat (rsv_input_queue_drop_count s) _ eq_refl Hd).
  rewrite (read_u16_written (status_body s) 12 (rsv_session_id s) _ eq_refl Hs).
  rewrite (read_u16_written (status_body s) 14 (rsv_last_heartbeat_sequence s) _ eq_refl Hq).
  rewrite !i64_u64 by done.
  change (byte_at (status_body s) 8) with (mode_code_byte (rsv_mode s)).
  change (byte_at (status_body s) 9) with (fault_code_byte (rsv_fault s)).
  change (byte_at (status_body s) 10) with (bool_byte (rsv_started s)).
  change (byte_at (status_body s) 11) with (bool_byte (rsv_online s)).
  change (byte_at (status_body s) 56) with (evidence_code (rsv_evidence s)).
  rewrite Hm, Hf, He. destruct s as [? ? ? [] [] ? ? ? ? ? ? ? ?]; done.
Qed.

(** The status a workbench receives is the status that was sent: every status
    encodes to exactly 64 bytes and decodes to itself, negative times and unnamed
    enumeration values included; any other length is refused. *)
Theorem status_payload_round_trip s p :
  status_wf s →
  encode_remote_status_payload s = Some (status_body s) ∧
  length (status_body s) = kRemoteStatusWireSize ∧
  decode_remote_status_payload (status_body s) = Some s ∧
  (length p ≠ kRemoteStatusWireSize → decode_remote_status_payload p = None).
Proof.
  intros Hwf. split; [apply encode_status_body|]. split; [apply status_body_length|]. split.
  2:{ intros Hp. unfold decode_remote_status_payload. by rewrite (proj2 (Nat.eqb_neq _ _)). }
  by apply status_decodes.
Qed.

Definition demo_status : RemoteStatusView :=
  mkRemoteStatus (-1) RuntimeModeCode.Active RuntimeFaultCode.None true true 7 65535 12 3 4 0 0
    EvidenceClass.Loopback.

Lemma demo_status_wf : status_wf demo_status.
Proof. unfold status_wf, is_i64, is_u. cbn. split_and!; done. Qed.

Lemma status_payload_round_trip_witness :
  decode_remote_status_payload (status_body demo_status) = Some demo_status.
Proof.
  apply (status_payload_round_trip demo_status [] demo_status_wf).
Defined.


(** ** One request, one reply *)

Definition frame_bytes (f : RemoteFrame) : list Z := crc_framed (frame_body f).
Definition request_frame (type : RemoteMessageType) (sequence : Z) (payload : list Z) : RemoteFrame :=
  mkRemoteFrame kRemoteProtocolVersion type 0 sequence payload.

(** A frame the encoder takes and the parser returns. *)
Definition sendable (f : RemoteFrame) : Prop := remote_frame_wf f ∧ frame_legal f.

Lemma encode_sendable type sequence payload out :
  sendable (request_frame type sequence payload) →
  encode_frame type sequence payload out = Some (out ++ frame_bytes (request_frame type sequence payload)).
Proof. intros [_ Hl]. unfold encode_frame. rewrite encode_remote_frame_spec. by case_decide. Qed.

Lemma frame_bytes_length f : length (frame_bytes f) = (14 + length (rf_payload f))%nat.
Proof.
  unfold frame_bytes, crc_framed. rewrite length_app, le_bytes_length, frame_body_length. lia.
Qed.

Lemma handle_frame_parser f e out : ep_parser (fst (endpoint_handle_frame f e out)) = ep_parser e.
Proof.
  unfold endpoint_handle_frame, reply_error, encode_frame.
  repeat (case_match; try reflexivity).
Qed.

Lemma parser_append_frame f :
  sendable f → parser_append (frame_bytes f) [] = (frame_bytes f, ParseStatus.NeedMore).
Proof.
  intros [_ [_ Hl]]. pose proof (frame_bytes_length f) as Hn. unfold parser_append.
  unfold kRemoteRxBufferCapacity, kRemoteMaxFrameSize, kRemoteFrameHeaderSize, kRemoteFrameCrcSize,
    kRemoteMaxPayloadSize in *.
  rewrite (proj2 (Nat.eqb_neq _ _)) by lia. cbn [length]. by rewrite (proj2 (Nat.ltb_ge _ _)) by lia.
Qed.

Lemma endpoint_loop_ok turns e out b f :
  try_pop default_frame (ep_parser e) = (b, ParseStatus.Ok, f) →
  endpoint_loop (S turns) e out =
  let '(e, out) := endpoint_handle_frame f (e <| ep_parser := b |>) out in endpoint_loop turns e out.
Proof. intros Hp. cbn [endpoint_loop]. by rewrite Hp. Qed.

Lemma endpoint_eta e p : ep_parser e = p → e <| ep_parser := p |> = e.
Proof. by destruct e; cbn; intros ->. Qed.

Lemma endpoint_loop_idle turns e out :
  ep_parser e = [] → endpoint_loop (S turns) e out = (e, out, true).
Proof.
  intros He. transitivity (e <| ep_parser := [] |>, out, true); [|by rewrite endpoint_eta].
  cbn [endpoint_loop]. by rewrite He.
Qed.

Lemma try_pop_sendable f : sendable f → try_pop default_frame (frame_bytes f) = ([], ParseStatus.Ok, f).
Proof. intros [Hwf Hl]. rewrite <- (app_nil_r (frame_bytes f)). by apply try_pop_encoded. Qed.

Lemma push_frame f e out :
  sendable f → ep_parser e = [] →
  push_bytes (frame_bytes f) e out =
  (fst (endpoint_handle_frame f e out), snd (endpoint_handle_frame f e out), true).
Proof.
  intros Hf He. unfold push_bytes. rewrite He, parser_append_frame by done.
  change (ParseStatus.NeedMore ==? ParseStatus.BufferOverflow) with false. cbv iota.
  destruct (length (frame_bytes f)) as [|n] eqn:Hn; [rewrite frame_bytes_length in Hn; lia|].
  erewrite endpoint_loop_ok by exact (try_pop_sendable f Hf).
  change (_ <| ep_parser := frame_bytes f |> <| ep_parser := [] |>) with (e <| ep_parser := [] |>).
  rewrite (endpoint_eta e []) by done. pose proof (handle_frame_parser f e out) as Hp.
  destruct (endpoint_handle_frame f e out) as [e' out']. cbn [fst snd] in *.
  apply endpoint_loop_idle. by rewrite Hp.
Qed.

Lemma exchange_frame f g e e' c :
  sendable f → sendable g → ep_parser e = [] → endpoint_handle_frame f e [] = (e', frame_bytes g) →
  exchange (frame_bytes f) (c, Some e) =
  ((c <| rc_parser := [] |> <| rc_last_error := ""%string |>, Some e'), Some g).
Proof.
  intros Hf Hg He Hh. unfold exchange. rewrite push_frame, Hh by done. cbn [fst snd].
  rewrite (proj2 (Nat.eqb_neq _ _)) by (rewrite frame_bytes_length; lia).
  rewrite parser_append_frame by done. change (ParseStatus.NeedMore ==? ParseStatus.BufferOverflow) with false.
  cbv iota. rewrite try_pop_sendable by done. reflexivity.
Qed.

(** ** Sessions

    What a client may do and what it sees: a connection attempt's outcome, a heartbeat's,
    a refreshed status. *)

Inductive SessionOp :=
  | OpConnect (status : RemoteStatusView) | OpDisconnect | OpSetStatus (status : RemoteStatusView)
  | OpHeartbeatReplies (enabled : bool) | OpPoll (client_monotonic_ns : Z) | OpRefresh.

Inductive SessionObs := Quiet | Outcome (ok : bool) | Shown (ok : bool) (status : RemoteStatusView).

Definition session_step (op : SessionOp) (l : Link) : Link * SessionObs :=
  match op with
  | OpConnect s => let '(l, ok) := connect_session s l in (l, Outcome ok)
  | OpDisconnect => (disconnect_session l, Quiet)
  | OpSetStatus s => ((fst l, option_map (set_status s) (snd l)), Quiet)
  | OpHeartbeatReplies b => ((fst l, option_map (set_heartbeat_replies_enabled b) (snd l)), Quiet)
  | OpPoll ns => let '(l, ok) := poll_heartbeat ns l in (l, Outcome ok)
  | OpRefresh => let '(l, ok) := refresh_status l in (l, Shown ok (rc_last_status (fst l)))
  end.

(** The specification: no bytes, frames or sequence numbers, only the device's status and
    whether anyone is connected and answered. *)
Record SessionSpec := mkSessionSpec {
  ss_connected : bool;
  ss_replies : bool;
  ss_device : RemoteStatusView;
  ss_seen : RemoteStatusView
}.

Definition session_spec_step (op : SessionOp) (a : SessionSpec) : SessionSpec * SessionObs :=
  let '(mkSessionSpec connected replies device seen) := a in
  match op with
  | OpConnect s => (mkSessionSpec true true s seen, Outcome true)
  | OpDisconnect => (mkSessionSpec false true device seen, Quiet)
  | OpSetStatus s => (mkSessionSpec connected replies s seen, Quiet)
  | OpHeartbeatReplies b => (mkSessionSpec connected b device seen, Quiet)
  | OpPoll _ => (a, Outcome (connected && replies))
  | OpRefresh =>
      if connected then (mkSessionSpec connected replies device device, Shown true device)
      else (a, Shown false seen)
  end.

Fixpoint run_session {A} (step : SessionOp → A → A * SessionObs) (ops : list SessionOp) (a : A)
    : A * list SessionObs :=
  match ops with
  | [] => (a, [])
  | op :: ops =>
      let '(a, o) := step op a in let '(a, os) := run_session step ops a in (a, o :: os)
  end.

Definition session_op_wf (op : SessionOp) : Prop :=
  match op with OpConnect s | OpSetStatus s => status_wf s | OpPoll ns => is_i64 ns | _ => True end.

(** The simulation relation. *)
Definition session_rel (l : Link) (a : SessionSpec) : Prop :=
  ∃ c e, l = (c, Some e) ∧ is_u 16 (rc_next_sequence c) ∧ ep_parser e = [] ∧
    rc_connected c = ss_connected a ∧ (ss_connected a = true → established e = true) ∧
    ep_heartbeat_replies_enabled e = ss_replies a ∧ ep_status e = ss_device a ∧
    rc_last_status c = ss_seen a ∧ status_wf (ss_device a).

Lemma request_sendable type sequence payload :
  is_u 8 (message_type_code type) → message_type_of_code (message_type_code type) = type →
  is_u 16 sequence → bytes_wf payload → (length payload ≤ kRemoteMaxPayloadSize)%nat →
  sendable (request_frame type sequence payload).
Proof. intros. split; split_and!; done. Qed.

Lemma bytes_wf_i64 ns : bytes_wf (append_i64_le [] ns) ∧ length (append_i64_le [] ns) = 8%nat.
Proof. split; [exact (le_bytes_wf 8 (u64 ns))|done]. Qed.

Lemma hello_exchange sequence e :
  is_u 16 sequence →
  ∃ payload e', let ack := request_frame RemoteMessageType.HelloAck sequence payload in
    decode_hello_ack payload = Some (kRemoteProtocolVersion, bytes_of_string kRemoteLoopbackEvidenceTag) ∧
    sendable ack ∧
    endpoint_handle_frame (request_frame RemoteMessageType.Hello sequence [kRemoteProtocolVersion]) e [] =
      (e', frame_bytes ack) ∧
    established e' = true ∧ ep_status e' = ep_status e ∧ ep_parser e' = ep_parser e ∧
    ep_heartbeat_replies_enabled e' = ep_heartbeat_replies_enabled e.
Proof.
  intros Hs. set (p := [kRemoteProtocolVersion] ++ bytes_of_string kRemoteLoopbackEvidenceTag ++ [0]).
  assert (Hack : sendable (request_frame RemoteMessageType.HelloAck sequence p)).
  { apply request_sendable; [done|done|done| |by apply Nat.leb_le].
    by apply (bool_decide_unpack _). }
  exists p. eexists. cbv zeta. split; [done|]. split; [done|]. split.
  { unfold endpoint_handle_frame. cbn [rf_type request_frame rf_sequence].
    rewrite encode_sendable by done. reflexivity. }
  done.
Qed.

Lemma status_exchange sequence e :
  is_u 16 sequence → status_wf (ep_status e) → established e = true →
  ∃ e', let reply := request_frame RemoteMessageType.Status sequence (status_body (ep_status e)) in
    sendable reply ∧
    endpoint_handle_frame (request_frame RemoteMessageType.GetStatus sequence []) e [] =
      (e', frame_bytes reply) ∧
    established e' = true ∧ ep_status e' = ep_status e ∧ ep_parser e' = ep_parser e ∧
    ep_heartbeat_replies_enabled e' = ep_heartbeat_replies_enabled e.
Proof.
  intros Hs Hwf He. assert (Hr : sendable (request_frame RemoteMessageType.Status sequence (status_body (ep_status e)))).
  { apply request_sendable; [done|done|done|by apply status_body_wf|].
    rewrite status_body_length. unfold kRemoteStatusWireSize, kRemoteMaxPayloadSize. lia. }
  eexists. cbv zeta. split; [done|]. split.
  { unfold endpoint_handle_frame. cbn [rf_type request_frame rf_sequence].
    change (established (_ <| ep_frames_accepted ::= incr64 |>)) with (established e). rewrite He.
    change (ep_status (_ <| ep_frames_accepted ::= incr64 |>)) with (ep_status e).
    rewrite encode_status_body. cbn [negb]. rewrite encode_sendable by done. reflexivity. }
  done.
Qed.

Lemma heartbeat_exchange sequence ns e :
  is_u 16 sequence → established e = true →
  ∃ e', let ack := request_frame RemoteMessageType.HeartbeatAck sequence (append_i64_le [] ns) in
    sendable ack ∧
    endpoint_handle_frame (request_frame RemoteMessageType.Heartbeat sequence (append_i64_le [] ns)) e [] =
      (e', if ep_heartbeat_replies_enabled e then frame_bytes ack else []) ∧
    established e' = true ∧ ep_status e' = ep_status e ∧ ep_parser e' = ep_parser e ∧
    ep_heartbeat_replies_enabled e' = ep_heartbeat_replies_enabled e.
Proof.
  intros Hs He. destruct (bytes_wf_i64 ns) as [Hb Hl].
  assert (Hr : sendable (request_frame RemoteMessageType.HeartbeatAck sequence (append_i64_le [] ns)))
    by (apply request_sendable; [done|done|done|done|rewrite Hl; unfold kRemoteMaxPayloadSize; lia]).
  eexists. cbv zeta. split; [done|]. split.
  { unfold endpoint_handle_frame. cbn [rf_type request_frame rf_sequence rf_payload].
    change (established (_ <| ep_frames_accepted ::= incr64 |>)) with (established e). rewrite He, Hl.
    cbn [negb Nat.eqb].
    change (ep_heartbeat_replies_enabled (_ <| ep_heartbeats ::= incr64 |>))
      with (ep_heartbeat_replies_enabled e).
    rewrite encode_sendable by done.
    transitivity (e <| ep_frames_accepted ::= incr64 |> <| ep_heartbeats ::= incr64 |>,
      if ep_heartbeat_replies_enabled e
      then frame_bytes (request_frame RemoteMessageType.HeartbeatAck sequence (append_i64_le [] ns)) else []);
      [by destruct (ep_heartbeat_replies_enabled e)|reflexivity]. }
  done.
Qed.

Lemma u16_next n : is_u 16 (u16 (n + 1)).
Proof. apply u16_range. Qed.

Lemma connect_simulates s c e :
  is_u 16 (rc_next_sequence c) → status_wf s →
  ∃ l, connect_session s (c, Some e) = (l, true) ∧
    session_rel l (mkSessionSpec true true s (rc_last_status c)) ∧
    rc_evidence_tag (fst l) = bytes_of_string kRemoteLoopbackEvidenceTag.
Proof.
  intros Hn Hs. destruct (hello_exchange (rc_next_sequence c) (set_status s (reset_session e)) Hn)
    as (payload & e' & Hd & Hack & Hh & He & Hst & Hp & Hr).
  unfold connect_session, take_sequence, encode_hello. cbn [rc_next_sequence].
  assert (Hreq : sendable (request_frame RemoteMessageType.Hello (rc_next_sequence c) [kRemoteProtocolVersion])).
  { apply request_sendable; [done|done|done|by apply (bool_decide_unpack _)|by apply Nat.leb_le]. }
  rewrite encode_sendable by exact Hreq. cbn [app].
  rewrite (exchange_frame _ _ (set_status s (reset_session e)) _ _ Hreq Hack eq_refl Hh). cbn [rf_type request_frame rf_payload].
  change (negb (RemoteMessageType.HelloAck ==? RemoteMessageType.HelloAck)) with false. cbv iota.
  rewrite Hd. cbn [Z.eqb]. rewrite Z.eqb_refl. cbn [negb]. eexists. split; [reflexivity|]. split; [|done].
  eexists _, e'. split; [reflexivity|]. cbn. split_and!; try done. apply u16_next.
Qed.

Lemma refresh_simulates c e a :
  session_rel (c, Some e) a → ss_connected a = true →
  ∃ l, refresh_status (c, Some e) = (l, true) ∧ rc_last_status (fst l) = ss_device a ∧
    session_rel l (mkSessionSpec true (ss_replies a) (ss_device a) (ss_device a)).
Proof.
  intros (? & ? & [= <- <-] & Hn & Hp & Hc & He & Hr & Hd & Hl & Hwf) Ha. rewrite <- Hd in Hwf.
  destruct (status_exchange (rc_next_sequence c) e Hn Hwf (He Ha)) as (e' & Hrep & Hh & He' & Hst & Hp' & Hr').
  unfold refresh_status, take_sequence, encode_get_status. rewrite Hc, Ha.
  assert (Hreq : sendable (request_frame RemoteMessageType.GetStatus (rc_next_sequence c) [])).
  { apply request_sendable; [done|done|done|constructor|by apply Nat.leb_le]. }
  rewrite encode_sendable by exact Hreq. cbn [app].
  rewrite (exchange_frame _ _ _ _ _ Hreq Hrep Hp Hh). cbn [rf_type request_frame rf_payload].
  change (negb (RemoteMessageType.Status ==? RemoteMessageType.Status)) with false. cbv iota.
  rewrite status_decodes by done. eexists. split; [reflexivity|]. cbn [fst]. split; [done|].
  eexists _, e'. split; [reflexivity|]. cbn. rewrite Hc, Hd in *. split_and!; try done; [apply u16_next|by rewrite Hp'|by rewrite Hr'].
Qed.

Lemma poll_simulates ns c e a :
  session_rel (c, Some e) a → ss_connected a = true →
  ∃ l, poll_heartbeat ns (c, Some e) = (l, ss_replies a) ∧ session_rel l a.
Proof.
  intros (? & ? & [= <- <-] & Hn & Hp & Hc & He & Hr & Hd & Hl & Hwf) Ha.
  destruct (heartbeat_exchange (rc_next_sequence c) ns e Hn (He Ha)) as (e' & Hrep & Hh & He' & Hst & Hp' & Hr').
  unfold poll_heartbeat, take_sequence, encode_heartbeat. rewrite Hc, Ha.
  assert (Hreq : sendable (request_frame RemoteMessageType.Heartbeat (rc_next_sequence c) (append_i64_le [] ns))).
  { destruct (bytes_wf_i64 ns) as [Hb Hlen]. apply request_sendable; try done. rewrite Hlen. by apply Nat.leb_le. }
  rewrite encode_sendable by exact Hreq. cbn [app]. rewrite push_frame by (first [exact Hreq|done]).
  rewrite Hh, Hr. cbn [fst snd]. destruct (ss_replies a) eqn:Hra.
  - rewrite (proj2 (Nat.eqb_neq _ _)) by (rewrite frame_bytes_length; lia).
    rewrite parser_append_frame by exact Hrep. rewrite try_pop_sendable by exact Hrep. cbn [rf_type request_frame].
    change (negb (ParseStatus.Ok ==? ParseStatus.Ok) ||
      negb (RemoteMessageType.HeartbeatAck ==? RemoteMessageType.HeartbeatAck)) with false. cbv iota.
    eexists. split; [reflexivity|]. eexists _, e'. split; [reflexivity|].
    cbn. rewrite Hc, Hst, Hp', Hr'. split_and!; try done; [apply u16_next|by rewrite Hra].
  - eexists. split; [reflexivity|]. eexists _, e'. split; [reflexivity|].
    cbn. rewrite Hc, Hst, Hp', Hr'. split_and!; try done; [apply u16_next|by rewrite Hra].
Qed.

Lemma session_step_simulates op l a :
  session_op_wf op → session_rel l a →
  snd (session_step op l) = snd (session_spec_step op a) ∧
  session_rel (fst (session_step op l)) (fst (session_spec_step op a)).
Proof.
  intros Hop Hrel. pose proof Hrel as (c & e & -> & Hn & Hp & Hc & He & Hr & Hd & Hl & Hwf).
  destruct a as [connected replies device seen]; cbn [ss_connected ss_replies ss_device ss_seen] in *.
  destruct op as [s| |s|b|ns|]; cbn -[connect_session refresh_status poll_heartbeat].
  - destruct (connect_simulates s c e Hn Hop) as (l & -> & Hl' & _). split; [done|]. by rewrite <- Hl.
  - split; [done|]. eexists _, _. split; [reflexivity|]. cbn. by rewrite Hd.
  - split; [done|]. eexists _, _. split; [reflexivity|]. by split_and!.
  - split; [done|]. eexists _, _. split; [reflexivity|]. by split_and!.
  - destruct connected.
    + destruct (poll_simulates ns c e _ Hrel eq_refl) as (l & -> & Hl'). done.
    + unfold poll_heartbeat. rewrite Hc. split; [done|]. by eexists _, _.
  - destruct connected.
    + destruct (refresh_simulates c e _ Hrel eq_refl) as (l & -> & Hs & Hl'). cbn in Hs |- *. by rewrite Hs.
    + unfold refresh_status. rewrite Hc. cbn. split; [by rewrite Hl|]. by eexists _, _.
Qed.

Lemma run_session_simulates ops l a :
  Forall session_op_wf ops → session_rel l a →
  snd (run_session session_step ops l) = snd (run_session session_spec_step ops a).
Proof.
  intros Hops. revert l a. induction Hops as [|op ops Hop _ IH]; intros l a Hrel; [done|]. cbn.
  destruct (session_step_simulates op l a Hop Hrel) as [Ho Hr].
  destruct (session_step op l) as [l' o], (session_spec_step op a) as [a' o']. cbn in Ho, Hr. subst o'.
  specialize (IH l' a' Hr). destruct (run_session session_step ops l'), (run_session session_spec_step ops a').
  cbn in *. by subst.
Qed.

(** The members' initial values. *)
Definition initial_endpoint (status : RemoteStatusView) : RemoteControlEndpoint :=
  mkEndpoint status [] RemoteSessionState.WaitingHello 0 0 0 0 0 0 true "".
Definition initial_client (status : RemoteStatusView) : RemoteRuntimeClient :=
  mkClient [] false 1 0 0 0 "" [] status RemoteSessionState.WaitingHello.

(** C21.  Client and endpoint together implement the abstract session: whatever the
    order of connections, disconnections, status changes, heartbeats and refreshes, the
    outcomes and statuses the client reports are those of a specification without bytes.
    In particular a refresh shows the device's current status exactly, nothing is
    reported as working while disconnected, and a silent peer is a missed heartbeat. *)
Theorem remote_session_refines ops s0 :
  status_wf s0 → Forall session_op_wf ops →
  snd (run_session session_step ops (initial_client s0, Some (initial_endpoint s0))) =
  snd (run_session session_spec_step ops (mkSessionSpec false true s0 s0)).
Proof.
  intros Hs Hops. apply run_session_simulates; [done|].
  eexists _, _. split; [reflexivity|]. by split_and!.
Qed.

Lemma remote_session_refines_witness :
  snd (run_session session_step
    [OpRefresh; OpConnect demo_status; OpPoll 5; OpHeartbeatReplies false; OpPoll 6; OpRefresh; OpDisconnect; OpPoll 7]
    (initial_client demo_status, Some (initial_endpoint demo_status))) =
  [Shown false demo_status; Outcome true; Outcome true; Quiet; Outcome false; Shown true demo_status; Quiet;
   Outcome false].
Proof.
  rewrite remote_session_refines; [reflexivity|exact demo_status_wf|].
  repeat (apply Forall_cons; split; [first [exact demo_status_wf|done]|]). constructor.
Defined.

(** ** Arbitrary bytes *)

Lemma endpoint_loop_done n e out :
  (length (ep_parser e) < n)%nat →
  ∃ e' out', endpoint_loop n e out = (e', out', true) ∧ (length (ep_parser e') < kRemoteMaxFrameSize)%nat.
Proof.
  revert e out. induction n as [|n IH]; intros e out Hn; [lia|].
  destruct (try_pop default_frame (ep_parser e)) as [[b st] f] eqn:Hp.
  assert (Hb : st = ParseStatus.NeedMore ∨ (length b < length (ep_parser e))%nat).
  { destruct (decide (st = ParseStatus.NeedMore)); [by left|right]. by eapply try_pop_shrinks. }
  destruct (decide (st = ParseStatus.NeedMore)) as [->|Hst].
  { exists (e <| ep_parser := b |>), out. cbn [endpoint_loop]. rewrite Hp. split; [done|].
    apply try_pop_need_more in Hp as [-> ?]. done. }
  destruct Hb as [|Hb]; [done|].
  destruct (decide (st = ParseStatus.Ok)) as [->|Hok].
  { rewrite (endpoint_loop_ok _ _ _ _ _ Hp).
    pose proof (handle_frame_parser f (e <| ep_parser := b |>) out) as Hk.
    destruct (endpoint_handle_frame f (e <| ep_parser := b |>) out) as [e' out']. apply IH.
    cbn [fst] in Hk. rewrite Hk. cbn. lia. }
  edestruct (IH (e <| ep_parser := b |> <| ep_malformed ::= incr64 |> <| ep_frames_rejected ::= incr64 |>
               <| ep_last_error := parse_status_to_string st |>)) as (e' & out' & Heq & Hl); [cbn; lia|].
  exists e', out'. split; [|done]. rewrite <- Heq. cbn [endpoint_loop]. rewrite Hp. by destruct st.
Qed.

(** Whatever bytes a peer sends, the endpoint's receive loop ends: every turn but
    the last consumes input.  Afterwards less than one maximal frame is kept, so the next
    message of at most one frame never overflows the buffer. *)
Theorem push_bytes_terminates inbound e out :
  (length (ep_parser e) < kRemoteMaxFrameSize)%nat →
  ∃ e' out', push_bytes inbound e out = (e', out', true) ∧
    (length (ep_parser e') < kRemoteMaxFrameSize)%nat ∧
    ((length inbound ≤ kRemoteMaxFrameSize)%nat →
       snd (parser_append inbound (ep_parser e)) ≠ ParseStatus.BufferOverflow).
Proof.
  intros Hl.
  assert (Hno : (length inbound ≤ kRemoteMaxFrameSize)%nat →
    snd (parser_append inbound (ep_parser e)) ≠ ParseStatus.BufferOverflow).
  { intros Hi. unfold parser_append, kRemoteRxBufferCapacity. destruct (Nat.eqb_spec (length inbound) 0); [done|].
    by rewrite (proj2 (Nat.ltb_ge _ _)) by lia. }
  unfold push_bytes. destruct (parser_append inbound (ep_parser e)) as [buffer status] eqn:Ha.
  destruct (decide (status = ParseStatus.BufferOverflow)) as [->|Hs].
  - change (_ ==? _) with true. cbv iota. unfold parser_append in Ha.
    assert (buffer = []) as -> by (repeat case_match; simplify_eq/=; done).
    unfold reply_error. case_match; (eexists _, _; split; [reflexivity|]; split; [|done]; cbn;
      unfold kRemoteMaxFrameSize, kRemoteFrameHeaderSize; lia).
  - destruct (endpoint_loop_done (S (length buffer)) (e <| ep_parser := buffer |>) out) as (e' & out' & Heq & Hl'); [cbn; lia|].
    exists e', out'. split; [|done]. rewrite <- Heq. by destruct status.
Qed.

Lemma push_bytes_terminates_witness :
  ∃ e' out', push_bytes [1; 2; 3] (initial_endpoint demo_status) [] = (e', out', true) ∧
    (length (ep_parser e') < kRemoteMaxFrameSize)%nat ∧
    ((length [1; 2; 3] ≤ kRemoteMaxFrameSize)%nat →
       snd (parser_append [1; 2; 3] (ep_parser (initial_endpoint demo_status))) ≠ ParseStatus.BufferOverflow).
Proof.
  apply (push_bytes_terminates [1; 2; 3] (initial_endpoint demo_status) []). by apply Nat.ltb_lt.
Defined.
