(* ===== verification/CellReady.v ===== *)
(** * The CellReady decision

    src/workbench/application/cell_ready_mapper.cpp: the cell is ready when the node is
    online, the runtime active, the position reached and nothing is faulted; the mapper
    turns changes of that decision into requests for digital output DO0. *)

From S2P Require Import Prelude Types CanV1 Application.
Local Open Scope Z_scope.

Record CellReadyDecision := mkCellReady { cr_position_reached : bool; cr_cell_ready : bool }.

Module Do0Action.
Inductive CellReadyDo0Action := None | RequestOn | RequestOff.
End Do0Action.
Notation CellReadyDo0Action := Do0Action.CellReadyDo0Action.

#[export] Instance Do0Action_eq_dec : EqDecision CellReadyDo0Action.
Proof. solve_decision. Defined.

Definition evaluate_cell_ready (snapshot : RuntimeTelemetrySnapshot) : CellReadyDecision :=
  let reached := negb (Z.land (dv_input_bits (ts_device snapshot)) kInputBitPositionReached =? 0) in
  mkCellReady reached
    (dv_online (ts_device snapshot) && (rv_mode (ts_runtime snapshot) ==? RuntimeModeCode.Active) &&
     reached && (dv_device_fault_code (ts_device snapshot) =? 0) &&
     (rv_fault (ts_runtime snapshot) ==? RuntimeFaultCode.None)).

Record CellReadyMapper := mkMapper { cm_armed : bool; cm_last_ready : bool }.

Definition initial_mapper : CellReadyMapper := mkMapper false false.

Definition note_modbus_offline (m : CellReadyMapper) : CellReadyMapper := mkMapper false (cm_last_ready m).

Definition synchronize_after_probe (decision : CellReadyDecision) (m : CellReadyMapper) : CellReadyMapper :=
  mkMapper true (cr_cell_ready decision).

Definition mapper_observe (decision : CellReadyDecision) (modbus_online : bool) (m : CellReadyMapper)
    : CellReadyMapper * CellReadyDo0Action :=
  if negb modbus_online then (mkMapper false (cr_cell_ready decision), Do0Action.None)
  else if negb (cm_armed m) then (synchronize_after_probe decision m, Do0Action.None)
  else if Bool.eqb (cr_cell_ready decision) (cm_last_ready m) then (m, Do0Action.None)
  else (mkMapper (cm_armed m) (cr_cell_ready decision),
        if cr_cell_ready decision then Do0Action.RequestOn else Do0Action.RequestOff).

(** ** Histories *)

Inductive MapperEvent :=
  | Offline | Probed (d : CellReadyDecision) | Observed (d : CellReadyDecision) (modbus_online : bool).

Definition mapper_event (e : MapperEvent) (m : CellReadyMapper) : CellReadyMapper * CellReadyDo0Action :=
  match e with
  | Offline => (note_modbus_offline m, Do0Action.None)
  | Probed d => (synchronize_after_probe d m, Do0Action.None)
  | Observed d online => mapper_observe d online m
  end.

Fixpoint mapper_run (es : list MapperEvent) (m : CellReadyMapper) : list CellReadyDo0Action :=
  match es with
  | [] => []
  | e :: es => let '(m, a) := mapper_event e m in a :: mapper_run es m
  end.

(** What an event says about a working bus: the readiness seen there, if any. *)
Definition baseline (e : MapperEvent) : option bool :=
  match e with
  | Probed d | Observed d true => Some (cr_cell_ready d)
  | _ => None
  end.

(** The reference: a request needs two neighbouring events on a working bus that
    disagree. *)
Definition edge_request (previous : option bool) (e : MapperEvent) : CellReadyDo0Action :=
  match previous, e with
  | Some was, Observed d true =>
      if Bool.eqb (cr_cell_ready d) was then Do0Action.None
      else if cr_cell_ready d then Do0Action.RequestOn else Do0Action.RequestOff
  | _, _ => Do0Action.None
  end.

Fixpoint edge_requests (previous : option bool) (es : list MapperEvent) : list CellReadyDo0Action :=
  match es with
  | [] => []
  | e :: es => edge_request previous e :: edge_requests (baseline e) es
  end.

Definition mapper_baseline (m : CellReadyMapper) : option bool :=
  if cm_armed m then Some (cm_last_ready m) else None.

Lemma mapper_event_spec e m :
  snd (mapper_event e m) = edge_request (mapper_baseline m) e ∧
  mapper_baseline (fst (mapper_event e m)) = baseline e.
Proof.
  destruct m as [[] last], e as [|d|d []]; try done.
  unfold mapper_event, mapper_observe. cbn. by destruct (cr_cell_ready d), last.
Qed.

Lemma mapper_run_spec es m : mapper_run es m = edge_requests (mapper_baseline m) es.
Proof.
  revert m. induction es as [|e es IH]; intros m; [done|]. cbn.
  destruct (mapper_event_spec e m) as [Ha Hb]. destruct (mapper_event e m) as [m' a]. cbn in *.
  by rewrite IH, Ha, Hb.
Qed.

Lemma edge_requests_last previous es prev e :
  last (edge_requests previous (es ++ [prev; e])) = Some (edge_request (baseline prev) e).
Proof.
  revert previous. induction es as [|e0 es IH]; intros previous; [done|]. cbn -[last].
  specialize (IH (baseline e0)). destruct (edge_requests (baseline e0) (es ++ [prev; e])); [done|].
  exact IH.
Qed.

(** DO0 follows edges and nothing else: the mapper's request for an event depends
    only on that event and the one before it, and is made exactly when both saw a working
    Modbus link and disagree about readiness.  So the first observation after a link loss
    never writes the coil, whatever was requested before it, and the first of all
    observations does not either. *)
Theorem do0_requests_are_edges es prev e :
  mapper_run es initial_mapper = edge_requests None es ∧
  last (mapper_run (es ++ [prev; e]) initial_mapper) = Some (edge_request (baseline prev) e) ∧
  (baseline prev = None → edge_request (baseline prev) e = Do0Action.None) ∧
  (edge_request (baseline prev) e = Do0Action.RequestOn ↔
   baseline prev = Some false ∧ ∃ d, e = Observed d true ∧ cr_cell_ready d = true) ∧
  (edge_request (baseline prev) e = Do0Action.RequestOff ↔
   baseline prev = Some true ∧ ∃ d, e = Observed d true ∧ cr_cell_ready d = false).
Proof.
  rewrite !mapper_run_spec, edge_requests_last. split; [done|]. split; [done|]. split; [by intros ->|].
  destruct (baseline prev) as [was|]; [|naive_solver].
  destruct e as [|d|d [|]]; cbn; try (split; (split; [done|intros (_ & ? & [=] & _)])).
  destruct (cr_cell_ready d) eqn:Hd, was; cbn; split; split;
    first [discriminate | intros _; split; [done|by exists d]
          | intros (Hw & d' & [= <-] & ?); congruence].
Qed.

Definition seen (b : bool) : CellReadyDecision := mkCellReady b b.

Lemma do0_requests_are_edges_witness :
  mapper_run [Observed (seen true) true; Observed (seen false) true; Observed (seen true) true;
    Observed (seen true) false; Observed (seen true) true; Observed (seen false) true] initial_mapper =
  [Do0Action.None; Do0Action.RequestOff; Do0Action.RequestOn; Do0Action.None; Do0Action.None;
   Do0Action.RequestOff].
Proof.
  rewrite (proj1 (do0_requests_are_edges _ Offline Offline)). reflexivity.
Defined.

(** Ready means all five conditions, each necessary. *)
Lemma cell_ready_iff s :
  cr_cell_ready (evaluate_cell_ready s) = true ↔
  dv_online (ts_device s) = true ∧ rv_mode (ts_runtime s) = RuntimeModeCode.Active ∧
  cr_position_reached (evaluate_cell_ready s) = true ∧ dv_device_fault_code (ts_device s) = 0 ∧
  rv_fault (ts_runtime s) = RuntimeFaultCode.None.
Proof.
  unfold evaluate_cell_ready. cbn. rewrite !andb_true_iff, Z.eqb_eq, !bool_decide_eq_true. naive_solver.
Qed.
