(* ===== verification/McuCan.v ===== *)
(** * The microcontroller's CAN V1 codec

    firmware/stm32f103/src/can_v1.c: the C encoders and the command decoder of the
    physical node, and their agreement with the host's codec on the wire.  A message
    struct has the fields of its host counterpart and is held in the same record.  The
    pointers the callers pass are never null; a frame filled through a pointer is a
    result, [None] when the function returns false. *)

From S2P Require Import Prelude Types CanV1.
Local Open Scope Z_scope.

Definition RCR_CAN_V1_PROTOCOL_VERSION : Z := 1.
Definition RCR_CAN_V1_NODE_ID : Z := 1.
Definition RCR_CAN_V1_DLC : Z := 8.
Definition RCR_CAN_V1_INPUT_BIT_POSITION_REACHED : Z := 1.
Definition RCR_CAN_V1_FN_HEARTBEAT : Z := 0x01.
Definition RCR_CAN_V1_FN_STATUS : Z := 0x02.
Definition RCR_CAN_V1_FN_OUTPUT_COMMAND : Z := 0x03.
Definition RCR_CAN_V1_FN_OUTPUT_STATUS : Z := 0x04.

Record rcr_can_frame_t := mkMcuFrame {
  mf_can_id : Z;
  mf_dlc : Z;
  mf_data : list Z;
  mf_extended : bool;
  mf_rtr : bool;
  mf_receive_ms : Z
}.

#[export] Instance McuFrame_eta : Eta rcr_can_frame_t :=
  mkEta _ (fun f => mkMcuFrame (mf_can_id f) (mf_dlc f) (mf_data f) (mf_extended f) (mf_rtr f)
    (mf_receive_ms f)).

#[export] Instance McuFrame_eq_dec : EqDecision rcr_can_frame_t.
Proof. solve_decision. Defined.

Definition mcu_data (f : rcr_can_frame_t) (i : nat) : Z := default 0 (mf_data f !! i).

Definition put_u16_be (i : nat) (value : Z) (f : rcr_can_frame_t) : rcr_can_frame_t :=
  f <| mf_data ::= λ d, <[(i + 1)%nat := u8 (Z.land value 0x00FF)]> (<[i := u8 (Z.shiftr value 8)]> d) |>.

Definition put_u8 (i : nat) (value : Z) (f : rcr_can_frame_t) : rcr_can_frame_t :=
  f <| mf_data ::= <[i := value]> |>.

Definition get_u16_be (f : rcr_can_frame_t) (i : nat) : Z :=
  u16 (Z.lor (Z.shiftl (mcu_data f i) 8) (mcu_data f (i + 1))).

Definition clear_frame (can_id : Z) : rcr_can_frame_t :=
  mkMcuFrame can_id RCR_CAN_V1_DLC (replicate 8 0) false false 0.

Definition rcr_can_v1_make_id (function node_id : Z) : Z :=
  u16 (Z.lor (Z.shiftl function 5) (Z.land node_id 0x001F)).

Definition rcr_can_v1_sequence_newer (candidate previous : Z) : bool :=
  let delta := u16 (candidate - previous) in
  negb (candidate =? previous) && (delta <? 0x8000).

Definition rcr_can_v1_encode_heartbeat (message : WireHeartbeat) : option rcr_can_frame_t :=
  if (hb_node_id message =? 0) || (31 <? hb_node_id message) || (hb_boot_id message =? 0) ||
     (hb_session_id message =? 0) then None
  else
    let frame := clear_frame (rcr_can_v1_make_id RCR_CAN_V1_FN_HEARTBEAT (hb_node_id message)) in
    let frame := put_u8 0 RCR_CAN_V1_PROTOCOL_VERSION frame in
    let frame := put_u16_be 2 (hb_boot_id message) frame in
    let frame := put_u16_be 4 (hb_session_id message) frame in
    Some (put_u16_be 6 (hb_seq message) frame).

Definition rcr_can_v1_encode_node_status (message : WireNodeStatus) : option rcr_can_frame_t :=
  if (ns_node_id message =? 0) || (31 <? ns_node_id message) || (ns_session_id message =? 0) then None
  else
    let frame := clear_frame (rcr_can_v1_make_id RCR_CAN_V1_FN_STATUS (ns_node_id message)) in
    let frame := put_u8 0 RCR_CAN_V1_PROTOCOL_VERSION frame in
    let frame := put_u8 1 (if ns_interlock_ready message then 1 else 0) frame in
    let frame := put_u16_be 2 (ns_session_id message) frame in
    let frame := put_u16_be 4 (ns_input_bits message) frame in
    Some (put_u16_be 6 (ns_fault_code message) frame).

Definition rcr_can_v1_decode_output_command (frame : rcr_can_frame_t) (expected_node_id : Z)
    : option WireOutputCommand :=
  if (expected_node_id =? 0) || (31 <? expected_node_id) || mf_extended frame || mf_rtr frame ||
     negb (mf_dlc frame =? RCR_CAN_V1_DLC) ||
     negb (mf_can_id frame =? rcr_can_v1_make_id RCR_CAN_V1_FN_OUTPUT_COMMAND expected_node_id) ||
     negb (mcu_data frame 0 =? RCR_CAN_V1_PROTOCOL_VERSION) || (mcu_data frame 1 =? 0) then None
  else
    let session_id := get_u16_be frame 2 in
    let sequence := get_u16_be frame 4 in
    let validity_10ms := mcu_data frame 7 in
    if (session_id =? 0) || (sequence =? 0) || (validity_10ms =? 0) || (250 <? validity_10ms) then None
    else Some (mkWireOutputCommand expected_node_id (mcu_data frame 1) session_id sequence
                 (mcu_data frame 6) validity_10ms).

Definition rcr_can_v1_encode_output_status (message : WireOutputStatus) : option rcr_can_frame_t :=
  let result := output_result_code (os_result message) in
  if (os_node_id message =? 0) || (31 <? os_node_id message) || (os_session_id message =? 0) ||
     (output_result_code OutputResult.NotReady <? u8 result) then None
  else
    let frame := clear_frame (rcr_can_v1_make_id RCR_CAN_V1_FN_OUTPUT_STATUS (os_node_id message)) in
    let frame := put_u8 0 RCR_CAN_V1_PROTOCOL_VERSION frame in
    let frame := put_u8 1 (u8 result) frame in
    let frame := put_u16_be 2 (os_session_id message) frame in
    let frame := put_u16_be 4 (os_sequence message) frame in
    Some (put_u8 6 (os_output_mirror message) frame).

(** ** On the wire

    The same frame as SocketCAN shows it to the host. *)

Definition wire_frame (f : rcr_can_frame_t) : CanFrame :=
  mkCanFrame (mf_can_id f + (if mf_extended f then kCanEffFlag else 0) +
              (if mf_rtr f then kCanRtrFlag else 0)) (mf_dlc f) (mf_data f).

Definition mcu_frame_wf (f : rcr_can_frame_t) : Prop :=
  (0 ≤ mf_can_id f < if mf_extended f then 2 ^ 29 else 2 ^ 11) ∧ 0 ≤ mf_dlc f ≤ 15 ∧
  length (mf_data f) = 8%nat ∧ Forall is_byte (mf_data f) ∧ is_u 32 (mf_receive_ms f).

Definition result_option {T} (r : Result T) : option T := match r with Ok v => Some v | Err _ => None end.

Lemma make_id_agrees fn n :
  legal_node n → rcr_can_v1_make_id (function_code fn) n = make_can_id fn n.
Proof.
  intros Hn. unfold rcr_can_v1_make_id, make_can_id. apply u16_small.
  set (P z := (0 <=? Z.lor (Z.shiftl (function_code fn) 5) (Z.land z 31)) &&
    (Z.lor (Z.shiftl (function_code fn) 5) (Z.land z 31) <? 65536)).
  assert (HP : P n = true)
    by (apply (forall_below P 32); [by destruct fn|unfold legal_node in Hn; lia]).
  unfold P in HP. bools. width_lia.
Qed.

Lemma sequence_newer_agrees a b :
  is_u 16 a → is_u 16 b → rcr_can_v1_sequence_newer a b = seq_newer a b.
Proof.
  intros Ha Hb. unfold rcr_can_v1_sequence_newer, seq_newer, i16. destruct (Z.eqb_spec a b) as [|Hne]; [done|].
  cbn [negb andb]. pose proof (u16_range (a - b)) as Hr. rewrite (u16_small (u16 (a - b))) by done.
  assert (u16 (a - b) ≠ 0).
  { unfold u16, wrap. intros H0%Z.mod_divide; [|done]. destruct H0 as [k Hk].
    unfold is_u in *. change (2 ^ 16) with 65536 in *. assert (k = 0) by lia. lia. }
  unfold is_u in Hr. change (2 ^ 15) with 32768. change (2 ^ 16) with 65536 in *.
  destruct (Z.ltb_spec (u16 (a - b)) 32768); symmetry; [apply Z.ltb_lt|apply Z.ltb_ge]; lia.
Qed.

(** The two spellings of a 16-bit field. *)
Lemma put_u16_same i v d :
  is_u 16 v →
  <[(i + 1)%nat := u8 (Z.land v 0x00FF)]> (<[i := u8 (Z.shiftr v 8)]> d) = write_u16_be i v d.
Proof.
  intros Hv. unfold write_u16_be. do 2 f_equal. change 0xFF with (Z.ones 8).
  rewrite land_ones_mod by done. unfold u8, wrap. by rewrite Z.mod_mod.
Qed.

Lemma node_id_guard n : is_u 8 n → (n =? 0) || (31 <? n) = false ↔ legal_node n.
Proof.
  unfold is_u, legal_node. intros ?.
  destruct (Z.eqb_spec n 0), (Z.ltb_spec 31 n); cbn; split; (done || lia).
Qed.

Lemma validate_guard n : validate_node_id n = if (n =? 0) || (31 <? n) then invalid "node_id must be 1..31" else Ok ().
Proof. done. Qed.

Lemma wire_put16 i v f : is_u 16 v → wire_frame (put_u16_be i v f) = put16 i v (wire_frame f).
Proof. intros Hv. unfold wire_frame, put_u16_be, put16. cbn. by rewrite put_u16_same. Qed.

Lemma wire_put8 i v f : wire_frame (put_u8 i v f) = put i v (wire_frame f).
Proof. done. Qed.

Lemma wire_clear fn n :
  legal_node n →
  wire_frame (put_u8 0 RCR_CAN_V1_PROTOCOL_VERSION (clear_frame (rcr_can_v1_make_id (function_code fn) n))) =
  make_frame fn n.
Proof. intros Hn. unfold wire_frame, make_frame, put_u8. cbn. by rewrite make_id_agrees, !Z.add_0_r. Qed.

Lemma heartbeat_agrees m :
  heartbeat_wf m → option_map wire_frame (rcr_can_v1_encode_heartbeat m) = result_option (encode_heartbeat m).
Proof.
  intros (Hn & Hb & Hs & Hq). unfold rcr_can_v1_encode_heartbeat, encode_heartbeat. rewrite validate_guard.
  destruct ((_ =? 0) || (31 <? _)) eqn:Hg; [done|]. apply node_id_guard in Hg; [|done].
  cbn [orb res_bind]. destruct (hb_boot_id m =? 0); [done|]. destruct (hb_session_id m =? 0); [done|].
  cbn [orb option_map result_option]. rewrite !wire_put16 by done.
  by rewrite (wire_clear Function.Heartbeat).
Qed.

Lemma node_status_agrees m :
  node_status_wf m →
  option_map wire_frame (rcr_can_v1_encode_node_status m) = result_option (encode_node_status m).
Proof.
  intros (Hn & Hs & Hi & Hf). unfold rcr_can_v1_encode_node_status, encode_node_status. rewrite validate_guard.
  destruct ((_ =? 0) || (31 <? _)) eqn:Hg; [done|]. apply node_id_guard in Hg; [|done].
  cbn [orb res_bind]. destruct (ns_session_id m =? 0); [done|].
  cbn [orb option_map result_option]. rewrite !wire_put16, wire_put8 by done.
  by rewrite (wire_clear Function.Status).
Qed.

Lemma output_status_agrees m :
  output_status_wf m →
  option_map wire_frame (rcr_can_v1_encode_output_status m) = result_option (encode_output_status m).
Proof.
  intros (Hn & Hs & Hq & Hm). unfold rcr_can_v1_encode_output_status, encode_output_status.
  rewrite validate_guard. destruct ((_ =? 0) || (31 <? _)) eqn:Hg; [done|]. apply node_id_guard in Hg; [|done].
  assert (u8 (output_result_code (os_result m)) = output_result_code (os_result m)) as Hr by (by destruct (os_result m)).
  cbn [orb res_bind]. destruct (os_session_id m =? 0); [done|]. cbn [orb]. rewrite Hr.
  destruct (_ <? _); [done|].
  cbn [option_map result_option]. rewrite wire_put8, !wire_put16, wire_put8 by done.
  by rewrite (wire_clear Function.OutputStatus).
Qed.

Lemma land_flag x k : 0 ≤ k → Z.land x (2 ^ k) = 0 ↔ Z.testbit x k = false.
Proof.
  intros Hk. split.
  - intros Hz. assert (Hb : Z.testbit (Z.land x (2 ^ k)) k = false) by (rewrite Hz; apply Z.bits_0).
    rewrite Z.land_spec, Z.pow2_bits_true, andb_true_r in Hb by done. done.
  - intros Hb. apply Z.bits_inj'. intros i Hi. rewrite Z.bits_0, Z.land_spec.
    destruct (Z.eqb_spec i k) as [->|Hne]; [by rewrite Hb|].
    by rewrite Z.pow2_bits_false, andb_false_r by done.
Qed.

Lemma wire_id_flags f :
  mcu_frame_wf f →
  Z.testbit (can_id (wire_frame f)) 31 = mf_extended f ∧ Z.testbit (can_id (wire_frame f)) 30 = mf_rtr f ∧
  (mf_extended f = false → mf_rtr f = false →
   can_id (wire_frame f) = mf_can_id f ∧ Z.land (can_id (wire_frame f)) kCanSffMask = mf_can_id f).
Proof.
  intros (Hid & _). unfold wire_frame. cbn [can_id].
  assert (Hr : 0 ≤ mf_can_id f < 536870912) by (destruct (mf_extended f); lia).
  rewrite !Z.testbit_odd, !Z.shiftr_div_pow2 by done. unfold kCanEffFlag, kCanRtrFlag.
  change (2 ^ 31) with 2147483648. change (2 ^ 30) with 1073741824. split_and!.
  - destruct (mf_extended f), (mf_rtr f);
      match goal with |- Z.odd (?a / _) = _ =>
        first [replace (a / 2147483648) with 1 by (apply Z.div_unique with (a - 2147483648); lia); done
              |rewrite Z.div_small by lia; done] end.
  - destruct (mf_extended f), (mf_rtr f);
      match goal with |- Z.odd (?a / _) = _ =>
        first [replace (a / 1073741824) with 3 by (apply Z.div_unique with (a - 3221225472); lia); done
              |replace (a / 1073741824) with 2 by (apply Z.div_unique with (a - 2147483648); lia); done
              |replace (a / 1073741824) with 1 by (apply Z.div_unique with (a - 1073741824); lia); done
              |rewrite Z.div_small by lia; done] end.
  - intros He Hrt. rewrite He, Hrt in *. rewrite !Z.add_0_r. split; [done|].
    change kCanSffMask with (Z.ones 11). rewrite land_ones_mod by done. apply Z.mod_small. lia.
Qed.

Lemma frame_layer_agrees f n :
  mcu_frame_wf f → legal_node n →
  (check_frame_layer (wire_frame f) Function.OutputCommand = Ok () ∧ frame_node_id (wire_frame f) = n) ↔
  (mf_extended f = false ∧ mf_rtr f = false ∧ mf_dlc f = RCR_CAN_V1_DLC ∧
   mf_can_id f = rcr_can_v1_make_id RCR_CAN_V1_FN_OUTPUT_COMMAND n).
Proof.
  intros Hwf Hn. destruct (wire_id_flags f Hwf) as (He & Hr & Hid).
  change RCR_CAN_V1_FN_OUTPUT_COMMAND with (function_code Function.OutputCommand). rewrite make_id_agrees by done.
  split.
  - intros [Hc Hnode]. pose proof (check_frame_layer_inv _ _ Hc) as (Hlen & _ & Hraw). rewrite Hnode in Hraw.
    unfold check_frame_layer in Hc. split_guards. bools.
    change kCanEffFlag with (2 ^ 31) in *. change kCanRtrFlag with (2 ^ 30) in *.
    match goal with H : Z.land _ (2 ^ 31) = 0 |- _ => apply land_flag in H; [|done] end.
    match goal with H : Z.land _ (2 ^ 30) = 0 |- _ => apply land_flag in H; [|done] end.
    assert (mf_extended f = false) by congruence. assert (mf_rtr f = false) by congruence.
    destruct Hid as [_ Hid]; [done..|]. split_and!; try done. congruence.
  - intros (Hx & Ht & Hd & Hi). destruct Hid as [Hid _]; [done..|].
    assert (Hw : wire_frame f = mkCanFrame (make_can_id Function.OutputCommand n) 8 (mf_data f)).
    { unfold wire_frame in *. cbn in Hid. rewrite Hid, Hi, Hd. done. }
    rewrite Hw. split; [by apply check_frame_layer_make|]. unfold frame_node_id. cbn [can_id].
    by apply can_id_fields.
Qed.

Lemma decode_command_agrees f n :
  mcu_frame_wf f → legal_node n →
  rcr_can_v1_decode_output_command f n =
  match decode_output_command (wire_frame f) with
  | Ok m => if oc_node_id m =? n then Some m else None
  | Err _ => None
  end.
Proof.
  intros Hwf Hn. pose proof (frame_layer_agrees f n Hwf Hn) as Hl.
  assert (Hb : is_u 8 (mcu_data f 7)) by
    (destruct Hwf as (_ & _ & Hlen & Hall & _); unfold mcu_data;
     destruct (mf_data f !! 7%nat) eqn:H7; [exact (Forall_lookup_1 _ _ _ _ Hall H7)|done]).
  unfold rcr_can_v1_decode_output_command, decode_output_command.
  assert (Hg : (n =? 0) || (31 <? n) = false) by (apply node_id_guard; [unfold legal_node in *; width_lia|done]).
  rewrite Hg. cbn [orb].
  destruct (check_frame_layer (wire_frame f) Function.OutputCommand) as [[]|] eqn:Hc.
  2:{ cbn. destruct (mf_extended f), (mf_rtr f); try done. cbn [orb].
      destruct (Z.eqb_spec (mf_dlc f) RCR_CAN_V1_DLC); [|done].
      destruct (Z.eqb_spec (mf_can_id f) (rcr_can_v1_make_id RCR_CAN_V1_FN_OUTPUT_COMMAND n)); [|done].
      destruct Hl as [_ Hl]. by destruct Hl. }
  cbn [res_bind]. destruct (decide (frame_node_id (wire_frame f) = n)) as [Hfn|Hfn].
  2:{ transitivity (@None WireOutputCommand).
      - destruct (mf_extended f), (mf_rtr f); try done. cbn [orb].
        destruct (Z.eqb_spec (mf_dlc f) RCR_CAN_V1_DLC); [|done].
        destruct (Z.eqb_spec (mf_can_id f) (rcr_can_v1_make_id RCR_CAN_V1_FN_OUTPUT_COMMAND n)); [|done].
        exfalso. apply Hfn, Hl. done.
      - destruct (check_version _); cbn [res_bind]; [|done]. cbv zeta.
        do 4 (match goal with |- context [if ?b then reject _ else _] => destruct b end; [done|]).
        cbn [oc_node_id]. by rewrite (proj2 (Z.eqb_neq _ _)). }
  destruct Hl as [(-> & -> & -> & ->) _]; [done|]. rewrite !Z.eqb_refl. cbn [orb negb].
  unfold check_version. change (data_at (wire_frame f)) with (mcu_data f).
  change (read_u16_be (wire_frame f)) with (get_u16_be f).
  change kProtocolVersion with RCR_CAN_V1_PROTOCOL_VERSION. unfold kMinValidity10ms, kMaxValidity10ms.
  cbv zeta. cbn [oc_mask oc_session_id oc_sequence oc_validity_10ms].
  destruct (mcu_data f 0 =? RCR_CAN_V1_PROTOCOL_VERSION); cbn [negb orb res_bind]; [|done].
  destruct (mcu_data f 1 =? 0); [done|]. destruct (get_u16_be f 2 =? 0); [done|].
  destruct (get_u16_be f 4 =? 0); [done|]. cbn [orb].
  replace (mcu_data f 7 <? 1) with (mcu_data f 7 =? 0)
    by (unfold is_u in Hb; destruct (Z.eqb_spec (mcu_data f 7) 0), (Z.ltb_spec (mcu_data f 7) 1); (done || lia)).
  destruct ((mcu_data f 7 =? 0) || (250 <? mcu_data f 7)); [done|]. cbn. by rewrite Hfn, Z.eqb_refl.
Qed.

(** C23.  The two implementations of CAN V1 speak the same language: for every message
    the microcontroller produces exactly the frame the host's encoder produces, and
    refuses exactly what the host refuses; and it accepts a frame as a command for node
    [n] exactly when the host's decoder does and finds node [n] in it, with the same
    contents. *)
Theorem codecs_agree h s o f n :
  heartbeat_wf h → node_status_wf s → output_status_wf o → mcu_frame_wf f → legal_node n →
  option_map wire_frame (rcr_can_v1_encode_heartbeat h) = result_option (encode_heartbeat h) ∧
  option_map wire_frame (rcr_can_v1_encode_node_status s) = result_option (encode_node_status s) ∧
  option_map wire_frame (rcr_can_v1_encode_output_status o) = result_option (encode_output_status o) ∧
  (∀ m, rcr_can_v1_decode_output_command f n = Some m ↔
        decode_output_command (wire_frame f) = Ok m ∧ oc_node_id m = n).
Proof.
  intros Hh Hs Ho Hf Hn. split; [by apply heartbeat_agrees|]. split; [by apply node_status_agrees|].
  split; [by apply output_status_agrees|]. intros m. rewrite decode_command_agrees by done.
  destruct (decode_output_command (wire_frame f)) as [m'|]; [|naive_solver].
  destruct (Z.eqb_spec (oc_node_id m') n); naive_solver.
Qed.

Definition demo_command_frame : rcr_can_frame_t :=
  mkMcuFrame 0x061 8 [1; 15; 0; 10; 0; 5; 5; 10] false false 100.

Lemma codecs_agree_witness :
  rcr_can_v1_decode_output_command demo_command_frame 1 = Some (mkWireOutputCommand 1 15 10 5 5 10).
Proof.
  apply (codecs_agree (mkWireHeartbeat 1 1 1 0) (mkWireNodeStatus 1 true 1 0 0)
    (mkWireOutputStatus 1 OutputResult.Applied 1 1 0) demo_command_frame 1); try by split_and!.
  split_and!; try done. by apply (bool_decide_unpack _).
Defined.
