(* ===== verification/McuNode.v ===== *)
(** * The physical CAN node

    firmware/stm32f103/src/node.c: the node's session, sequence and lease rules on a
    wrapping 32-bit millisecond clock.  The pointers are never null.

    The node implements the same contract as [NodeSim.CanNodeLogic]; the refinement
    relates a 32-bit deadline to the unbounded time it stands for. *)

From S2P Require Import Prelude Types CanV1 NodeSim McuCan.
Local Open Scope Z_scope.

Definition RCR_NODE_FAULT_NONE : Z := 0.
Definition RCR_NODE_FAULT_COMM_LOSS : Z := 3.
Definition RCR_NODE_FAULT_INTERNAL : Z := 7.

Inductive rcr_node_frame_result_t := FRAME_IGNORED | FRAME_REJECTED | FRAME_STATUS_READY.

#[export] Instance frame_result_eq_dec : EqDecision rcr_node_frame_result_t.
Proof. solve_decision. Defined.

Record rcr_node_t := mkMcuNode {
  mn_node_id : Z;
  mn_boot_id : Z;
  mn_session_id : Z;
  mn_heartbeat_sequence : Z;
  mn_input_bits : Z;
  mn_output_bits : Z;
  mn_last_accepted_sequence : Z;
  mn_lease_deadline_ms : Z;
  mn_protocol_rejects : Z;
  mn_has_accepted_sequence : bool;
  mn_lease_active : bool;
  mn_identity_ready : bool;
  mn_bus_ready : bool;
  mn_fatal_latched : bool
}.

#[export] Instance McuNode_eta : Eta rcr_node_t :=
  mkEta _ (fun n => mkMcuNode (mn_node_id n) (mn_boot_id n) (mn_session_id n) (mn_heartbeat_sequence n)
    (mn_input_bits n) (mn_output_bits n) (mn_last_accepted_sequence n) (mn_lease_deadline_ms n)
    (mn_protocol_rejects n) (mn_has_accepted_sequence n) (mn_lease_active n) (mn_identity_ready n)
    (mn_bus_ready n) (mn_fatal_latched n)).

Definition time_after_or_equal (now_ms deadline_ms : Z) : bool := 0 <=? i32 (u32 (now_ms - deadline_ms)).

Definition neutralize_output (node : rcr_node_t) : rcr_node_t :=
  node <| mn_output_bits := 0 |> <| mn_lease_active := false |> <| mn_lease_deadline_ms := 0 |>.

Definition rcr_node_init (node_id boot_id session_id : Z) (identity_ready : bool) : rcr_node_t :=
  mkMcuNode (if node_id =? 0 then 1 else node_id) (if boot_id =? 0 then 1 else boot_id)
    (if session_id =? 0 then 1 else session_id) 0 0 0 0 0 0 false false identity_ready true
    (negb identity_ready).

Definition rcr_node_set_bus_ready (ready : bool) (node : rcr_node_t) : rcr_node_t :=
  let node := node <| mn_bus_ready := ready |> in
  if negb ready then neutralize_output node else node.

Definition rcr_node_latch_internal_fault (node : rcr_node_t) : rcr_node_t :=
  neutralize_output (node <| mn_fatal_latched := true |>).

Definition rcr_node_interlock_ready (node : rcr_node_t) : bool :=
  mn_identity_ready node && mn_bus_ready node && negb (mn_fatal_latched node).

Definition rcr_node_fault_code (node : rcr_node_t) : Z :=
  if mn_fatal_latched node || negb (mn_identity_ready node) then RCR_NODE_FAULT_INTERNAL
  else if negb (mn_bus_ready node) then RCR_NODE_FAULT_COMM_LOSS
  else RCR_NODE_FAULT_NONE.

Definition rcr_node_expire_lease (now_ms : Z) (node : rcr_node_t) : rcr_node_t * bool :=
  if negb (mn_lease_active node) || negb (time_after_or_equal now_ms (mn_lease_deadline_ms node))
  then (node, false)
  else (neutralize_output node, true).

(** The output status is written on every path of [apply_command]. *)
Definition rcr_node_apply_command (command : WireOutputCommand) (receive_ms now_ms : Z)
    (node : rcr_node_t) : rcr_node_t * WireOutputStatus :=
  let '(node, _) := rcr_node_expire_lease now_ms node in
  let status result mirror :=
    mkWireOutputStatus (mn_node_id node) result (mn_session_id node) (oc_sequence command) mirror in
  if negb (oc_session_id command =? mn_session_id node) then
    (node, status OutputResult.SessionMismatch (mn_output_bits node))
  else if negb (rcr_node_interlock_ready node) then
    (node, status OutputResult.NotReady (mn_output_bits node))
  else if mn_has_accepted_sequence node &&
          negb (rcr_can_v1_sequence_newer (oc_sequence command) (mn_last_accepted_sequence node)) then
    (node, status OutputResult.StaleSequence (mn_output_bits node))
  else
    let deadline_ms := u32 (receive_ms + u32 (oc_validity_10ms command * 10)) in
    if time_after_or_equal now_ms deadline_ms then
      (node, status OutputResult.Expired (mn_output_bits node))
    else
      let keep_mask := u8 (Z.lnot (oc_mask command)) in
      let bits := u8 (Z.lor (Z.land (mn_output_bits node) keep_mask)
                        (Z.land (oc_values command) (oc_mask command))) in
      (node <| mn_output_bits := bits |> <| mn_last_accepted_sequence := oc_sequence command |>
            <| mn_has_accepted_sequence := true |> <| mn_lease_active := true |>
            <| mn_lease_deadline_ms := deadline_ms |>,
       status OutputResult.Applied bits).

(** The output status only with [FRAME_STATUS_READY]. *)
Definition rcr_node_on_frame (frame : rcr_can_frame_t) (now_ms : Z) (node : rcr_node_t)
    : rcr_node_t * rcr_node_frame_result_t * option WireOutputStatus :=
  let command_id := rcr_can_v1_make_id RCR_CAN_V1_FN_OUTPUT_COMMAND (mn_node_id node) in
  if negb (mf_can_id frame =? command_id) then (node, FRAME_IGNORED, None)
  else
    match rcr_can_v1_decode_output_command frame (mn_node_id node) with
    | None => (node <| mn_protocol_rejects ::= λ r, u32 (r + 1) |>, FRAME_REJECTED, None)
    | Some command =>
        let '(node, status) := rcr_node_apply_command command (mf_receive_ms frame) now_ms node in
        (node, FRAME_STATUS_READY, Some status)
    end.

Definition rcr_node_make_heartbeat (node : rcr_node_t) : rcr_node_t * WireHeartbeat :=
  (node <| mn_heartbeat_sequence ::= λ s, u16 (s + 1) |>,
   mkWireHeartbeat (mn_node_id node) (mn_boot_id node) (mn_session_id node) (mn_heartbeat_sequence node)).

Definition rcr_node_make_status (node : rcr_node_t) : WireNodeStatus :=
  mkWireNodeStatus (mn_node_id node) (rcr_node_interlock_ready node) (mn_session_id node)
    (mn_input_bits node) (rcr_node_fault_code node).

(** [node.input_bits = ...] in the main loop. *)
Definition mcu_set_input_bits (bits : Z) (node : rcr_node_t) : rcr_node_t := node <| mn_input_bits := bits |>.

(** ** Operation sequences

    Times are the true milliseconds since power-up; the firmware sees them modulo 2^32. *)

Inductive mcu_op :=
  | McuFrame (f : rcr_can_frame_t) (receive now : Z)
  | McuExpire (now : Z)
  | McuBus (ready : bool)
  | McuLatch
  | McuInput (bits : Z)
  | McuHeartbeat
  | McuStatus.

Inductive node_obs :=
  | ObsNone | ObsFrame (r : rcr_node_frame_result_t) (s : option WireOutputStatus)
  | ObsExpired (b : bool) | ObsHeartbeat (h : WireHeartbeat) | ObsStatus (s : WireNodeStatus).

Definition mcu_step (o : mcu_op) (n : rcr_node_t) : rcr_node_t * node_obs :=
  match o with
  | McuFrame f receive now =>
      let '(n, r, s) := rcr_node_on_frame (f <| mf_receive_ms := u32 receive |>) (u32 now) n in
      (n, ObsFrame r s)
  | McuExpire now => let '(n, b) := rcr_node_expire_lease (u32 now) n in (n, ObsExpired b)
  | McuBus ready => (rcr_node_set_bus_ready ready n, ObsNone)
  | McuLatch => (rcr_node_latch_internal_fault n, ObsNone)
  | McuInput bits => (mcu_set_input_bits bits n, ObsNone)
  | McuHeartbeat => let '(n, h) := rcr_node_make_heartbeat n in (n, ObsHeartbeat h)
  | McuStatus => (n, ObsStatus (rcr_node_make_status n))
  end.

Fixpoint node_run {A} (step : mcu_op → A → A * node_obs) (ops : list mcu_op) (a : A) : list node_obs :=
  match ops with
  | [] => []
  | o :: ops => let '(a, obs) := step o a in obs :: node_run step ops a
  end.

(** *** The contract

    The host's node logic, on unbounded time in nanoseconds, with the three conditions
    the physical node's interlock depends on. *)

Record spec_node := mkSpecNode {
  sp_logic : CanNodeLogic;
  sp_identity : bool;
  sp_bus : bool;
  sp_fatal : bool
}.

Definition ms_to_ns (t : Z) : Z := t * 1000000.

(** [CanNodeLogic::on_frame] for a frame that waited since it was received. *)
Definition on_frame_at (frame : CanFrame) (receive_ns now_ns : Z) (n : CanNodeLogic)
    : CanNodeLogic * HandleResult :=
  let raw11 := Z.land (can_id frame) kCanSffMask in
  if negb (function_from_can_id raw11 =? function_code Function.OutputCommand) ||
     negb (node_id_from_can_id raw11 =? nc_node_id (nl_config n)) then (n, no_response)
  else
    match decode_output_command frame with
    | Err _ =>
        (n <| nl_protocol_rejects ::= incr64 |>, mkHandleResult false (hr_status no_response) true)
    | Ok cmd => apply_command cmd receive_ns now_ns n
    end.

Lemma on_frame_at_now f now n : on_frame_at f now now n = on_frame f now n.
Proof. done. Qed.

Definition handle_obs (r : HandleResult) : node_obs :=
  if hr_send_status r then ObsFrame FRAME_STATUS_READY (Some (hr_status r))
  else ObsFrame (if hr_protocol_reject r then FRAME_REJECTED else FRAME_IGNORED) None.

Definition spec_ready (identity bus fatal : bool) : bool := identity && bus && negb fatal.
Definition spec_fault (identity bus fatal : bool) : Z :=
  if fatal || negb identity then RCR_NODE_FAULT_INTERNAL
  else if negb bus then RCR_NODE_FAULT_COMM_LOSS else RCR_NODE_FAULT_NONE.

Definition spec_conditions (identity bus fatal : bool) (n : CanNodeLogic) : spec_node :=
  mkSpecNode (node_set_fault_code (spec_fault identity bus fatal)
                (node_set_interlock_ready (spec_ready identity bus fatal) n)) identity bus fatal.

Definition spec_step (o : mcu_op) (s : spec_node) : spec_node * node_obs :=
  let '(mkSpecNode n identity bus fatal) := s in
  match o with
  | McuFrame f receive now =>
      let '(n, r) := on_frame_at (wire_frame f) (ms_to_ns receive) (ms_to_ns now) n in
      (mkSpecNode n identity bus fatal, handle_obs r)
  | McuExpire now =>
      let '(n, b) := expire_output_lease (ms_to_ns now) n in (mkSpecNode n identity bus fatal, ObsExpired b)
  | McuBus ready => (spec_conditions identity ready fatal n, ObsNone)
  | McuLatch => (spec_conditions identity bus true n, ObsNone)
  | McuInput bits => (mkSpecNode (node_set_input_bits bits n) identity bus fatal, ObsNone)
  | McuHeartbeat =>
      let '(n, h) := make_heartbeat n in (mkSpecNode n identity bus fatal, ObsHeartbeat h)
  | McuStatus => (s, ObsStatus (make_status n))
  end.

Definition spec_init (node_id boot_id session_id : Z) (identity_ready : bool) : spec_node :=
  mkSpecNode (node_new (mkNodeConfig node_id boot_id session_id identity_ready 0
                          (spec_fault identity_ready true (negb identity_ready))))
    identity_ready true (negb identity_ready).

(** *** Timing

    The clock never goes back, and the lease is checked at least every 2^31 - 1 ms
    (about 24.8 days; the main loop checks every turn and its hardware watchdog bites
    after a second).  A frame is handled after it is received. *)

Record clock := mkClock { ck_checked : Z; ck_latest : Z }.

Definition wrap_window : Z := 2 ^ 31 - 1.

Definition op_timed (k : clock) (o : mcu_op) : Prop :=
  match o with
  | McuFrame f receive now =>
      ck_latest k ≤ now ≤ ck_checked k + wrap_window ∧ now - wrap_window ≤ receive ≤ now ∧
      mcu_frame_wf f ∧ mf_extended f = false
  | McuExpire now => ck_latest k ≤ now ≤ ck_checked k + wrap_window
  | _ => True
  end.

Definition op_clock (k : clock) (o : mcu_op) : clock :=
  match o with
  | McuFrame _ _ now => mkClock (ck_checked k) now
  | McuExpire now => mkClock now now
  | _ => k
  end.

Fixpoint timed (k : clock) (ops : list mcu_op) : Prop :=
  match ops with [] => True | o :: ops => op_timed k o ∧ timed (op_clock k o) ops end.

(** *** The simulation *)

Record node_rel (k : clock) (n : rcr_node_t) (s : spec_node) : Prop := {
  nr_id : mn_node_id n = nc_node_id (nl_config (sp_logic s));
  nr_legal : legal_node (mn_node_id n);
  nr_boot : mn_boot_id n = nl_boot_id (sp_logic s);
  nr_session : mn_session_id n = nl_session_id (sp_logic s);
  nr_hb : mn_heartbeat_sequence n = nl_hb_seq (sp_logic s);
  nr_input : mn_input_bits n = nc_input_bits (nl_config (sp_logic s));
  nr_output : mn_output_bits n = nl_output_bits (sp_logic s);
  nr_lease : mn_lease_active n = nl_lease_active (sp_logic s);
  nr_has : mn_has_accepted_sequence n = nl_has_accepted_sequence (sp_logic s);
  nr_last : mn_last_accepted_sequence n = nl_last_accepted_sequence (sp_logic s);
  nr_last_u : is_u 16 (mn_last_accepted_sequence n);
  nr_rejects : mn_protocol_rejects n = u32 (nl_protocol_rejects (sp_logic s));
  nr_identity : mn_identity_ready n = sp_identity s;
  nr_bus : mn_bus_ready n = sp_bus s;
  nr_fatal : mn_fatal_latched n = sp_fatal s;
  nr_ready : nc_interlock_ready (nl_config (sp_logic s)) = rcr_node_interlock_ready n;
  nr_fault : nc_fault_code (nl_config (sp_logic s)) = rcr_node_fault_code n;
  nr_neutral : mn_lease_active n = false → mn_output_bits n = 0;
  nr_guarded : mn_lease_active n = true → rcr_node_interlock_ready n = true;
  nr_clock : ck_checked k ≤ ck_latest k;
  nr_deadline : mn_lease_active n = true →
    ∃ d, mn_lease_deadline_ms n = u32 d ∧ nl_lease_deadline_ns (sp_logic s) = ms_to_ns d ∧
         ck_checked k < d ≤ ck_latest k + 2500
}.

Lemma time_after_or_equal_spec now d :
  - 2 ^ 31 ≤ now - d < 2 ^ 31 → time_after_or_equal (u32 now) (u32 d) = (d <=? now).
Proof.
  intros Hd. unfold time_after_or_equal. rewrite i32_diff by done.
  destruct (Z.leb_spec 0 (now - d)), (Z.leb_spec d now); (done || lia).
Qed.

Lemma node_rel_weaken c n s now : c ≤ now → node_rel (mkClock now now) n s → node_rel (mkClock c now) n s.
Proof.
  intros Hc []. constructor; try done. intros Hl. destruct (nr_deadline0 Hl) as (d & ? & ? & ?).
  exists d. cbn in *. split_and!; try done; lia.
Qed.

Definition with_logic (l : CanNodeLogic) (s : spec_node) : spec_node :=
  mkSpecNode l (sp_identity s) (sp_bus s) (sp_fatal s).

(** Dropping the lease on both sides. *)
Lemma neutralize_rel k k' n s :
  node_rel k n s → ck_checked k' ≤ ck_latest k' →
  node_rel k' (neutralize_output n) (with_logic (drop_lease (sp_logic s)) s).
Proof. intros [] ?. constructor; try done. Qed.

Lemma expire_sim k n s now :
  node_rel k n s → ck_latest k ≤ now ≤ ck_checked k + wrap_window →
  let '(n', b) := rcr_node_expire_lease (u32 now) n in
  let '(l', b') := expire_output_lease (ms_to_ns now) (sp_logic s) in
  b = b' ∧ node_rel (mkClock now now) n' (with_logic l' s).
Proof.
  intros Hr Hnow. unfold rcr_node_expire_lease, expire_output_lease. rewrite <- (nr_lease _ _ _ Hr).
  destruct (mn_lease_active n) eqn:Hl; cbn [negb orb].
  2:{ split; [done|]. destruct Hr. constructor; try done. by rewrite Hl. }
  destruct (nr_deadline _ _ _ Hr Hl) as (d & Hm & Hn & Hd). rewrite Hm, Hn. unfold wrap_window in Hnow.
  rewrite time_after_or_equal_spec by lia. unfold ms_to_ns.
  destruct (Z.leb_spec d now), (Z.ltb_spec (now * 1000000) (d * 1000000)); cbn [negb]; try lia.
  - split; [done|]. by eapply neutralize_rel.
  - split; [done|]. destruct Hr. constructor; try done. intros _. exists d.
    cbn. split_and!; try done; lia.
Qed.

Lemma deadline_ms receive v :
  u32 (u32 receive + u32 (v * 10)) = u32 (receive + v * 10).
Proof. unfold u32, wrap. by rewrite <- Zplus_mod. Qed.

Lemma deadline_ns receive v :
  deadline_from_validity_10ms (ms_to_ns receive) v = ms_to_ns (receive + v * 10).
Proof. unfold deadline_from_validity_10ms, ms_to_ns, kValidityUnitNs. lia. Qed.

Lemma apply_sim k n s cmd receive now :
  node_rel k n s → ck_latest k ≤ now ≤ ck_checked k + wrap_window →
  now - wrap_window ≤ receive ≤ now → is_u 16 (oc_sequence cmd) → 1 ≤ oc_validity_10ms cmd ≤ 250 →
  let '(n', st) := rcr_node_apply_command cmd (u32 receive) (u32 now) n in
  let '(l', r) := apply_command cmd (ms_to_ns receive) (ms_to_ns now) (sp_logic s) in
  handle_obs r = ObsFrame FRAME_STATUS_READY (Some st) ∧
  node_rel (mkClock (ck_checked k) now) n' (with_logic l' s).
Proof.
  intros Hr Hnow Hrec Hq Hv. pose proof (expire_sim k n s now Hr Hnow) as He.
  assert (Hc : ck_checked k ≤ now) by (pose proof (nr_clock _ _ _ Hr); lia).
  unfold rcr_node_apply_command, apply_command.
  destruct (rcr_node_expire_lease (u32 now) n) as [n0 b0], (expire_output_lease (ms_to_ns now) (sp_logic s)) as [l0 c0].
  destruct He as [_ Hr0]. pose proof (node_rel_weaken (ck_checked k) _ _ _ Hc Hr0) as Hw. pose proof Hr0 as [].
  cbn [sp_logic with_logic] in *. cbv zeta.
  rewrite <- nr_session0, nr_ready0, <- nr_has0, <- nr_last0, <- nr_output0, <- nr_id0.
  rewrite sequence_newer_agrees, deadline_ms, deadline_ns by done.
  destruct (negb (_ =? _)); [done|]. destruct (negb (rcr_node_interlock_ready n0)) eqn:Hi; [done|].
  destruct (_ && negb (seq_newer _ _)); [done|].
  unfold wrap_window in Hrec. rewrite time_after_or_equal_spec by lia.
  replace (ms_to_ns (receive + oc_validity_10ms cmd * 10) <=? ms_to_ns now)
    with (receive + oc_validity_10ms cmd * 10 <=? now)
    by (unfold ms_to_ns; destruct (Z.leb_spec (receive + oc_validity_10ms cmd * 10) now),
          (Z.leb_spec ((receive + oc_validity_10ms cmd * 10) * 1000000) (now * 1000000)); (done || lia)).
  destruct (Z.leb_spec (receive + oc_validity_10ms cmd * 10) now); [done|].
  split; [cbn; by rewrite <- nr_id0, <- nr_session0|]. constructor; try done; cbn.
  - intros _. by apply negb_false_iff in Hi.
  - intros _. exists (receive + oc_validity_10ms cmd * 10). split_and!; try done; lia.
Qed.

Lemma wire_raw_id f :
  mcu_frame_wf f → mf_extended f = false → Z.land (can_id (wire_frame f)) kCanSffMask = mf_can_id f.
Proof.
  intros (Hid & _) He. unfold wire_frame. cbn [can_id]. rewrite He in *.
  change kCanSffMask with (Z.ones 11). rewrite land_ones_mod by done. change (2 ^ 11) with 2048 in *.
  unfold kCanRtrFlag. rewrite Z.add_0_r. destruct (mf_rtr f).
  - replace (mf_can_id f + 0x40000000) with (mf_can_id f + 524288 * 2048) by lia.
    rewrite Z.mod_add by done. by apply Z.mod_small.
  - rewrite Z.add_0_r. by apply Z.mod_small.
Qed.

(** Recognising the command identifier by comparison or by its fields. *)
Lemma command_id_fields raw n :
  0 ≤ raw < 2048 → legal_node n →
  (raw =? rcr_can_v1_make_id RCR_CAN_V1_FN_OUTPUT_COMMAND n) =
  (function_from_can_id raw =? function_code Function.OutputCommand) && (node_id_from_can_id raw =? n).
Proof.
  intros Hraw Hn. change RCR_CAN_V1_FN_OUTPUT_COMMAND with (function_code Function.OutputCommand).
  rewrite make_id_agrees by done.
  set (P z := eqb (function_from_can_id z =? 3) (z =? make_can_id Function.OutputCommand (node_id_from_can_id z))).
  assert (HP : P raw = true) by (apply (forall_below P 2048); [by vm_compute|lia]).
  apply Bool.eqb_prop in HP. change (function_code Function.OutputCommand) with 3.
  destruct (Z.eqb_spec (node_id_from_can_id raw) n) as [<-|Hne]; [by rewrite HP, andb_true_r|].
  rewrite andb_false_r. apply Z.eqb_neq. intros ->. apply Hne.
  destruct (can_id_fields Function.OutputCommand n Hn) as [Hf _].
  assert (Hl : Z.land (make_can_id Function.OutputCommand n) kCanSffMask = make_can_id Function.OutputCommand n).
  { change kCanSffMask with (Z.ones 11). rewrite land_ones_mod by done. by apply Z.mod_small. }
  by rewrite Hl in Hf.
Qed.

Lemma decoded_ranges f m :
  decode_output_command f = Ok m →
  is_u 16 (oc_sequence m) ∧ 1 ≤ oc_validity_10ms m ≤ 250 ∧ oc_node_id m = frame_node_id f.
Proof.
  intros Hd. assert (1 ≤ oc_validity_10ms m ≤ 250) as Hv by (by eapply validity_of_decoded).
  unfold decode_output_command in Hd.
  apply res_bind_Ok in Hd as (? & _ & Hd). apply res_bind_Ok in Hd as (? & _ & Hd).
  revert Hd. cbv zeta. repeat (destruct (_ =? 0); [done|]). destruct (_ || _); [done|].
  intros [= <-]. split; [apply u16_range|by split].
Qed.

Lemma frame_sim k n s f receive now :
  node_rel k n s → op_timed k (McuFrame f receive now) →
  let '(n', obs) := mcu_step (McuFrame f receive now) n in
  let '(s', obs') := spec_step (McuFrame f receive now) s in
  obs = obs' ∧ node_rel (mkClock (ck_checked k) now) n' s'.
Proof.
  intros Hr (Hnow & Hrec & Hwf & Hext). destruct s as [l identity bus fatal]. cbn [mcu_step spec_step].
  set (g := f <| mf_receive_ms := u32 receive |>).
  assert (Hg : mcu_frame_wf g) by (destruct Hwf as (? & ? & ? & ? & ?); by repeat (split; [done|]); apply u32_range).
  assert (Hkeep : node_rel (mkClock (ck_checked k) now) n (mkSpecNode l identity bus fatal)).
  { destruct Hr. constructor; try done; [cbn; lia|]. intros Hl. destruct (nr_deadline0 Hl) as (d & ? & ? & ?).
    exists d. cbn. split_and!; try done; lia. }
  pose proof Hr as []. cbn [sp_logic] in *.
  unfold rcr_node_on_frame, on_frame_at. rewrite wire_raw_id by done.
  change (mf_can_id g) with (mf_can_id f). rewrite command_id_fields, <- nr_id0;
    [|destruct Hwf as (Hid & _); rewrite Hext in Hid; exact Hid|done].
  rewrite negb_andb.
  destruct (negb (function_from_can_id (mf_can_id f) =? function_code Function.OutputCommand) ||
    negb (node_id_from_can_id (mf_can_id f) =? mn_node_id n)) eqn:Hmatch; [done|].
  rewrite decode_command_agrees by done. change (wire_frame g) with (wire_frame f).
  destruct (decode_output_command (wire_frame f)) as [cmd|] eqn:Hd.
  - destruct (decoded_ranges _ _ Hd) as (Hq & Hv & Hn). unfold frame_node_id in Hn. rewrite wire_raw_id in Hn by done.
    apply orb_false_iff in Hmatch as [_ Hmatch]. apply negb_false_iff in Hmatch. rewrite Hn, Hmatch.
    change (mf_receive_ms g) with (u32 receive).
    pose proof (apply_sim k n _ cmd receive now Hr Hnow Hrec Hq Hv) as Ha. cbn [sp_logic] in Ha.
    destruct (rcr_node_apply_command cmd (u32 receive) (u32 now) n), (apply_command _ _ _ l).
    destruct Ha as [-> Ha]. done.
  - split; [done|]. destruct Hkeep. constructor; try done. cbn in *. rewrite nr_rejects1.
    unfold incr64, u32, u64, wrap. rewrite <- (Znumtheory.Zmod_div_mod (2 ^ 32) (2 ^ 64)); [|done|done|by exists (2 ^ 32)].
    by rewrite Zplus_mod_idemp_l.
Qed.

(** Changing the interlock conditions. *)
Lemma conditions_rel k n s identity bus fatal n' :
  node_rel k n s →
  n' = n <| mn_identity_ready := identity |> <| mn_bus_ready := bus |> <| mn_fatal_latched := fatal |> ∨
  n' = neutralize_output
         (n <| mn_identity_ready := identity |> <| mn_bus_ready := bus |> <| mn_fatal_latched := fatal |>) →
  (spec_ready identity bus fatal = false → mn_lease_active n' = false) →
  (spec_ready identity bus fatal = true → mn_lease_active n' = mn_lease_active n) →
  node_rel k n' (spec_conditions identity bus fatal (sp_logic s)).
Proof.
  intros Hr Hn' Hoff Hon. pose proof Hr as [].
  unfold spec_conditions, node_set_interlock_ready.
  destruct (spec_ready identity bus fatal) eqn:Hs; cbn [negb].
  - specialize (Hon eq_refl).
    assert (n' = n <| mn_identity_ready := identity |> <| mn_bus_ready := bus |> <| mn_fatal_latched := fatal |> ∨
      mn_lease_active n = false) as [->|Hl] by (destruct Hn' as [->| ->]; [by left|by right]).
    + constructor; try done.
    + pose proof (nr_neutral0 Hl). assert (mn_lease_active n' = false) by congruence.
      destruct Hn' as [->| ->]; constructor; try done; cbn in *; intros; congruence.
  - specialize (Hoff eq_refl). destruct Hn' as [->| ->].
    + cbn in Hoff. pose proof (nr_neutral0 Hoff). constructor; try done; cbn; intros; congruence.
    + constructor; try done.
Qed.

Lemma step_sim k n s o :
  node_rel k n s → op_timed k o →
  let '(n', obs) := mcu_step o n in
  let '(s', obs') := spec_step o s in
  obs = obs' ∧ node_rel (op_clock k o) n' s'.
Proof.
  intros Hr Ht. destruct o as [f receive now|now|ready| |bits| |].
  - by apply frame_sim.
  - pose proof (expire_sim k n s now Hr Ht) as He. destruct s as [l identity bus fatal]. cbn in *.
    destruct (rcr_node_expire_lease (u32 now) n), (expire_output_lease (ms_to_ns now) l).
    by destruct He as [-> He].
  - destruct s as [l identity bus fatal]. cbn [mcu_step spec_step]. split; [done|].
    pose proof Hr as []. cbn in *. subst identity bus fatal.
    refine (conditions_rel k n (mkSpecNode l _ _ _) _ _ _ _ Hr _ _ _); unfold rcr_node_set_bus_ready, spec_ready.
    + destruct ready; [left|right]; by destruct n.
    + destruct ready; [|done]. cbn. intros Hs. destruct (mn_lease_active n); [|done].
      specialize (nr_guarded0 eq_refl). unfold rcr_node_interlock_ready in nr_guarded0.
      by destruct (mn_identity_ready n), (mn_bus_ready n), (mn_fatal_latched n).
    + destruct ready; [done|]. by rewrite andb_false_r.
  - destruct s as [l identity bus fatal]. cbn [mcu_step spec_step]. split; [done|].
    pose proof Hr as []. cbn in *. subst identity bus fatal.
    refine (conditions_rel k n (mkSpecNode l _ _ _) _ _ _ _ Hr _ _ _); unfold spec_ready.
    + right. by destruct n.
    + done.
    + by rewrite andb_false_r.
  - destruct s. split; [done|]. destruct Hr. by constructor.
  - destruct s. pose proof Hr as []. cbn in *. split; [congruence|]. constructor; try done. cbn. congruence.
  - destruct s. pose proof Hr as []. cbn in *. split; [|done]. unfold rcr_node_make_status, make_status. congruence.
Qed.

Lemma run_sim ops k n s :
  node_rel k n s → timed k ops → node_run mcu_step ops n = node_run spec_step ops s.
Proof.
  revert k n s. induction ops as [|o ops IH]; intros k n s Hr Ht; [done|]. destruct Ht as [Ho Ht]. cbn.
  pose proof (step_sim k n s o Hr Ho) as Hs. destruct (mcu_step o n) as [n' obs], (spec_step o s) as [s' obs'].
  destruct Hs as [-> Hr']. f_equal. by eapply IH.
Qed.

Lemma init_rel node_id boot_id session_id identity_ready :
  legal_node node_id → is_u 16 boot_id → is_u 16 session_id →
  node_rel (mkClock 0 0) (rcr_node_init node_id boot_id session_id identity_ready)
    (spec_init node_id boot_id session_id identity_ready).
Proof.
  intros Hn Hb Hs. assert (node_id =? 0 = false) as Hz by (apply Z.eqb_neq; unfold legal_node in Hn; lia).
  unfold rcr_node_init. rewrite Hz. constructor; try done; by destruct identity_ready.
Qed.

(** C13.  The physical node implements the host's node contract: over any history of
    frames, lease checks, bus and fault events, heartbeats and status reports, the
    microcontroller's answers, verdicts, heartbeats and status messages are those of the
    host's node logic on unbounded time, although its clock wraps every 49.7 days.  The
    lease has to be checked at least once in 24.8 days. *)
Theorem mcu_node_refines ops node_id boot_id session_id identity_ready :
  legal_node node_id → is_u 16 boot_id → is_u 16 session_id → timed (mkClock 0 0) ops →
  node_run mcu_step ops (rcr_node_init node_id boot_id session_id identity_ready) =
  node_run spec_step ops (spec_init node_id boot_id session_id identity_ready).
Proof. intros. eapply run_sim; [by apply init_rel|done]. Qed.

(** A command applied just before the clock wraps, judged and expired after it. *)
Definition wrap_history : list mcu_op :=
  [McuExpire (2 ^ 31 - 1); McuExpire (2 ^ 32 - 10);
   McuFrame demo_command_frame (2 ^ 32 - 5) (2 ^ 32 - 1); McuExpire (2 ^ 32 + 94); McuStatus;
   McuExpire (2 ^ 32 + 95); McuFrame demo_command_frame (2 ^ 32 + 96) (2 ^ 32 + 96); McuBus false; McuStatus].

Lemma mcu_node_refines_witness :
  node_run mcu_step wrap_history (rcr_node_init 1 10 10 true) =
  [ObsExpired false; ObsExpired false;
   ObsFrame FRAME_STATUS_READY (Some (mkWireOutputStatus 1 OutputResult.Applied 10 5 5)); ObsExpired false;
   ObsStatus (mkWireNodeStatus 1 true 10 0 0); ObsExpired true;
   ObsFrame FRAME_STATUS_READY (Some (mkWireOutputStatus 1 OutputResult.StaleSequence 10 5 0));
   ObsNone; ObsStatus (mkWireNodeStatus 1 false 10 0 3)].
Proof.
  rewrite mcu_node_refines; [vm_compute; reflexivity|..].
  - split; done.
  - unfold is_u. lia.
  - unfold is_u. lia.
  - assert (Hf : mcu_frame_wf demo_command_frame) by (split_and!; try done; by apply (bool_decide_unpack _)).
    repeat split; try exact Hf; cbn; unfold wrap_window; try lia; try apply Hf.
Defined.
