(* ===== verification/McuInput.v ===== *)
(** * The position sensor and the servo target

    firmware/stm32f103/src/input_debounce.c and servo_pwm.c: the sensor's polarity, the
    debouncing of its level on the wrapping millisecond clock, and the pulse width for
    the node's output. *)

From S2P Require Import Prelude Types McuCan.
Local Open Scope Z_scope.

Definition RCR_INPUT_DEBOUNCE_MS : Z := 20.

Inductive rcr_target_sensor_polarity_t := POLARITY_UNSET | POLARITY_ACTIVE_HIGH | POLARITY_ACTIVE_LOW.

(** The build's choice. *)
Definition RCR_TARGET_SENSOR_POLARITY : rcr_target_sensor_polarity_t := POLARITY_ACTIVE_HIGH.

Record rcr_input_debounce_t := mkDebounce {
  db_armed : bool;
  db_candidate_reached : bool;
  db_stable_reached : bool;
  db_candidate_since_ms : Z
}.

Definition rcr_input_debounce_init : rcr_input_debounce_t := mkDebounce false false false 0.

Definition rcr_target_sensor_active (raw_high : bool) (polarity : rcr_target_sensor_polarity_t) : bool :=
  match polarity with
  | POLARITY_ACTIVE_HIGH => raw_high
  | POLARITY_ACTIVE_LOW => negb raw_high
  | POLARITY_UNSET => false
  end.

(** The new stable value is also the function's result. *)
Definition rcr_input_debounce_update (reached : bool) (now_ms debounce_ms : Z) (st : rcr_input_debounce_t)
    : rcr_input_debounce_t :=
  if negb (db_armed st) || negb (Bool.eqb reached (db_candidate_reached st)) then
    mkDebounce true reached (db_stable_reached st) now_ms
  else if i32 debounce_ms <=? i32 (u32 (now_ms - db_candidate_since_ms st)) then
    mkDebounce (db_armed st) (db_candidate_reached st) (db_candidate_reached st) (db_candidate_since_ms st)
  else st.

Definition rcr_input_bits_from_reached (reached : bool) : Z :=
  if reached then RCR_CAN_V1_INPUT_BIT_POSITION_REACHED else 0.

Definition RCR_SERVO_PWM_DISABLED_US : Z := 0.
Definition RCR_SERVO_POSITION_A_US : Z := 1250.
Definition RCR_SERVO_POSITION_B_US : Z := 1750.

Definition rcr_servo_pwm_target_us (lease_active : bool) (output_bits : Z) : Z :=
  if negb lease_active then RCR_SERVO_PWM_DISABLED_US
  else if negb (Z.land output_bits 1 =? 0) then RCR_SERVO_POSITION_B_US else RCR_SERVO_POSITION_A_US.

(** ** The reference

    Samples carry their true time.  The debounced value is found by looking at the
    history, newest sample first: the newest run of equal samples counts if it lasted
    long enough, otherwise the value before it stands. *)

Notation sample := (Z * bool)%type.

(** How long the newest run of [v] lasted, measured back from [now]; the rest. *)
Fixpoint run_start (v : bool) (since : Z) (older : list sample) : Z * list sample :=
  match older with
  | (t, w) :: older' => if Bool.eqb w v then run_start v t older' else (since, older)
  | [] => (since, [])
  end.

Lemma run_start_shorter v since older : (length (snd (run_start v since older)) ≤ length older)%nat.
Proof.
  revert since. induction older as [|[t w] older IH]; intros since; cbn; [done|].
  destruct (Bool.eqb w v); [specialize (IH t); lia|done].
Qed.

(** [fuel] bounds the number of runs. *)
Fixpoint settled_fuel (fuel : nat) (d : Z) (newest_first : list sample) : bool :=
  match fuel, newest_first with
  | S fuel, (t, v) :: older =>
      let '(since, rest) := run_start v t older in
      if d <=? t - since then v else settled_fuel fuel d rest
  | _, _ => false
  end.

Definition settled (d : Z) (newest_first : list sample) : bool :=
  settled_fuel (length newest_first) d newest_first.

Lemma settled_fuel_enough d n m l :
  (length l ≤ n)%nat → (length l ≤ m)%nat → settled_fuel n d l = settled_fuel m d l.
Proof.
  revert m l. induction n as [|n IH]; intros m l Hn Hm; [by destruct l, m; cbn in *; try lia|].
  destruct l as [|[t v] l]; [by destruct m|]. destruct m as [|m]; cbn in *; [lia|].
  pose proof (run_start_shorter v t l). destruct (run_start v t l) as [since rest]. cbn in *.
  destruct (d <=? t - since); [done|]. apply IH; lia.
Qed.

Lemma settled_cons d t v older :
  settled d ((t, v) :: older) =
  let '(since, rest) := run_start v t older in if d <=? t - since then v else settled d rest.
Proof.
  unfold settled. cbn. pose proof (run_start_shorter v t older).
  destruct (run_start v t older) as [since rest]. cbn in *. destruct (d <=? t - since); [done|].
  by apply settled_fuel_enough.
Qed.

(** The firmware's debouncer fed with a history, oldest sample first. *)
Definition debounce_run (d : Z) (samples : list sample) : rcr_input_debounce_t :=
  foldl (λ st '(t, v), rcr_input_debounce_update v (u32 t) d st) rcr_input_debounce_init samples.

(** Samples are taken in order, and the gap plus the debounce time stays below 2^31 ms. *)
Fixpoint sampled (d : Z) (samples : list sample) : Prop :=
  match samples with
  | (t, _) :: (((t', _) :: _) as rest) => t ≤ t' ∧ t' - t + d < 2 ^ 31 ∧ sampled d rest
  | _ => True
  end.

(** The debouncer's state after the history [(t, v) :: older], newest first. *)
Definition tracks (d : Z) (st : rcr_input_debounce_t) (t : Z) (v : bool) (older : list sample) : Prop :=
  db_armed st = true ∧ db_candidate_reached st = v ∧ fst (run_start v t older) ≤ t ∧
  db_candidate_since_ms st = u32 (fst (run_start v t older)) ∧
  db_stable_reached st = settled d ((t, v) :: older).

Lemma i32_small d : 0 ≤ d < 2 ^ 31 → i32 d = d.
Proof.
  intros Hd. unfold i32. rewrite u32_small by (unfold is_u; lia). by rewrite (proj2 (Z.ltb_lt _ _)) by lia.
Qed.

Lemma debounce_step d st t v older t' w :
  0 < d < 2 ^ 31 → tracks d st t v older → t ≤ t' → t' - t + d < 2 ^ 31 →
  tracks d (rcr_input_debounce_update w (u32 t') d st) t' w ((t, v) :: older).
Proof.
  intros Hd (Ha & Hc & Hle & Hs & Hst) Ht Hgap. unfold rcr_input_debounce_update, tracks. rewrite Ha, Hc, Hs.
  rewrite settled_cons in Hst. rewrite settled_cons. cbn [run_start negb orb].
  destruct (Bool.eqb w v) eqn:Hw; cbn [negb].
  - apply eqb_prop in Hw as ->. rewrite eqb_reflx. destruct (run_start v t older) as [since rest]. cbn [fst] in *.
    rewrite i32_small by lia. destruct (Z.leb_spec d (t - since)) as [Hlong|Hshort].
    + rewrite (proj2 (Z.leb_le d (t' - since))) by lia. destruct (_ <=? _); cbn; rewrite ?Ha, ?Hc; split_and!; try done; lia.
    + rewrite i32_diff by lia. destruct (Z.leb_spec d (t' - since)); cbn; split_and!; try done; lia.
  - assert (Bool.eqb v w = false) as -> by (by destruct v, w).
    cbn [db_armed db_candidate_reached db_candidate_since_ms db_stable_reached fst]. rewrite Z.sub_diag, (proj2 (Z.leb_gt _ _)) by lia.
    split_and!; try done. by rewrite settled_cons.
Qed.

Lemma debounce_tracks d samples t v :
  0 < d < 2 ^ 31 → sampled d (samples ++ [(t, v)]) →
  tracks d (debounce_run d (samples ++ [(t, v)])) t v (rev samples).
Proof.
  intros Hd. revert t v. induction samples as [|[t0 v0] samples IH] using rev_ind; intros t v Hs.
  - unfold tracks. rewrite settled_cons. cbn. rewrite Z.sub_diag, (proj2 (Z.leb_gt _ _)) by lia. done.
  - unfold debounce_run in *. rewrite foldl_app. cbn [foldl]. rewrite rev_app_distr. cbn [rev app].
    assert (Hsplit : sampled d (samples ++ [(t0, v0)]) ∧ t0 ≤ t ∧ t - t0 + d < 2 ^ 31).
    { clear IH. induction samples as [|[a x] samples IH]; [cbn in *; tauto|].
      destruct samples as [|[b y] samples]; cbn in *; [tauto|]. destruct Hs as (? & ? & Hs). specialize (IH Hs). tauto. }
    destruct Hsplit as (Hs0 & Ht & Hg). by apply debounce_step; [|apply IH| |].
Qed.

(** The debouncer computes the settled level: for every history of samples on the
    wrapping clock, its result is that of the reference on true times, however long a
    level is held; in particular a level shorter than the debounce time changes nothing,
    and one held that long is reported at its first sample past the debounce time. *)
Theorem debounce_correct d samples t v :
  0 < d < 2 ^ 31 → sampled d (samples ++ [(t, v)]) →
  db_stable_reached (debounce_run d (samples ++ [(t, v)])) = settled d ((t, v) :: rev samples) ∧
  (let '(since, before) := run_start v t (rev samples) in
   (d ≤ t - since → db_stable_reached (debounce_run d (samples ++ [(t, v)])) = v) ∧
   (t - since < d → db_stable_reached (debounce_run d (samples ++ [(t, v)])) = settled d before)).
Proof.
  intros Hd Hs. destruct (debounce_tracks d samples t v Hd Hs) as (_ & _ & _ & _ & ->). split; [done|].
  rewrite settled_cons. destruct (run_start v t (rev samples)) as [since rest].
  destruct (Z.leb_spec d (t - since)); split; (done || lia).
Qed.

Lemma debounce_correct_witness :
  db_stable_reached (debounce_run RCR_INPUT_DEBOUNCE_MS
    ([(2 ^ 32 - 15, true); (2 ^ 32 - 1, true)] ++ [(2 ^ 32 + 5, true)])) = true ∧
  db_stable_reached (debounce_run RCR_INPUT_DEBOUNCE_MS
    ([(0, true); (19, true); (20, false)] ++ [(39, true)])) = false.
Proof.
  split.
  - rewrite (proj1 (debounce_correct RCR_INPUT_DEBOUNCE_MS [(2 ^ 32 - 15, true); (2 ^ 32 - 1, true)] (2 ^ 32 + 5) true
      ltac:(unfold RCR_INPUT_DEBOUNCE_MS; lia) ltac:(unfold RCR_INPUT_DEBOUNCE_MS; cbn; lia))). reflexivity.
  - rewrite (proj1 (debounce_correct RCR_INPUT_DEBOUNCE_MS [(0, true); (19, true); (20, false)] 39 true
      ltac:(unfold RCR_INPUT_DEBOUNCE_MS; lia) ltac:(unfold RCR_INPUT_DEBOUNCE_MS; cbn; lia))). reflexivity.
Defined.
