(* ===== verification/McuPlatform.v ===== *)
(** * The STM32F103 platform layer

    firmware/stm32f103/src/platform_stm32f103.c: peripheral configuration, the CAN
    receive interrupt and its queue, the transmit queue and mailboxes, LED and servo
    outputs, the session journal in flash and the watchdogs.

    The hardware is not modelled: [hw history address] is the value a read returns after
    the given history of bus accesses and interrupts, for an arbitrary function [hw];
    what theorems need of it is a class of documented behaviour.  Code is a program over
    the platform's static variables and that history.  Interrupts run between the main
    loop's platform calls, as a schedule says.  A loop of the source that ends because of
    the hardware or the queues gets a number of turns, and is marked as hanging if it has
    not ended by then. *)

From S2P Require Import Prelude Types Bytes Ring McuCan McuInput.
Local Open Scope Z_scope.

(** [Irq]: the processor takes an interrupt. *)
Inductive bus_event :=
  | Rd (address : Z) | Wr (address value : Z) | Rd16 (address : Z) | Wr16 (address value : Z) | Irq.

#[export] Instance bus_event_eq_dec : EqDecision bus_event.
Proof. solve_decision. Defined.

Inductive irq := SysTick | CanRx.

Definition RCC_BASE : Z := 0x40021000.
Definition FLASH_BASE : Z := 0x40022000.
Definition AFIO_BASE : Z := 0x40010000.
Definition GPIOA_BASE : Z := 0x40010800.
Definition GPIOC_BASE : Z := 0x40011000.
Definition TIM1_BASE : Z := 0x40012C00.
Definition CAN1_BASE : Z := 0x40006400.
Definition IWDG_BASE : Z := 0x40003000.
Definition SYSTICK_BASE : Z := 0xE000E010.
Definition NVIC_ISER0 : Z := 0xE000E100.
Definition SESSION_PAGE : Z := 0x0800FC00.
Definition QUEUE_CAPACITY : nat := 8.
Definition SESSION_RECORD_COUNT : nat := 256.

(** The static variables, the accesses so far, and the interrupts still to come: one
    list per point where the main loop may be interrupted.  [pl_hung]: a loop had not ended
    when its turns did. *)
Record Platform := mkPlatform {
  pl_bus : list bus_event;
  pl_irqs : list (list irq);
  pl_monotonic_ms : Z;
  pl_rx_queue : list rcr_can_frame_t;
  pl_rx_head : nat;
  pl_rx_tail : nat;
  pl_rx_overflow : bool;
  pl_tx_queue : list rcr_can_frame_t;
  pl_tx_head : nat;
  pl_tx_tail : nat;
  pl_hung : bool
}.

#[export] Instance Platform_eta : Eta Platform :=
  mkEta _ (fun p => mkPlatform (pl_bus p) (pl_irqs p) (pl_monotonic_ms p) (pl_rx_queue p) (pl_rx_head p)
    (pl_rx_tail p) (pl_rx_overflow p) (pl_tx_queue p) (pl_tx_head p) (pl_tx_tail p) (pl_hung p)).

(** The last value written to an address. *)
Definition last_write (t : list bus_event) (address : Z) : option Z :=
  foldl (λ v e, match e with
                | Wr a x | Wr16 a x => if a =? address then Some x else v
                | _ => v end) None t.

(** ** Programs *)

Definition Prog (A : Type) : Type := Platform → A * Platform.

Definition p_ret {A} (a : A) : Prog A := λ p, (a, p).
Definition p_bind {A B} (m : Prog A) (k : A → Prog B) : Prog B := λ p, let '(a, p) := m p in k a p.
Definition p_get {A} (f : Platform → A) : Prog A := λ p, (f p, p).
Definition p_set (f : Platform → Platform) : Prog () := λ p, ((), f p).

Declare Scope prog_scope.
Delimit Scope prog_scope with prog.
Bind Scope prog_scope with Prog.
Notation "x <- m ;; k" := (p_bind m (λ x, k)) (at level 100, m at next level, right associativity) : prog_scope.
Notation "m ;; k" := (p_bind m (λ _, k)) (at level 100, right associativity) : prog_scope.
#[local] Open Scope prog_scope.

Definition bit (n : Z) : Z := Z.shiftl 1 n.

(** The empty history, queues of unspecified frames. *)
Definition zero_frame : rcr_can_frame_t := mkMcuFrame 0 0 (replicate 8 0) false false 0.
Definition initial_platform (irqs : list (list irq)) : Platform :=
  mkPlatform [] irqs 0 (replicate QUEUE_CAPACITY zero_frame) 0 0 false
    (replicate QUEUE_CAPACITY zero_frame) 0 0 false.

Definition p_hang : Prog () := p_set (λ p, p <| pl_hung := true |>).

Section Platform.
Context (hw : list bus_event → Z → Z).

Definition reg_read (address : Z) : Prog Z :=
  λ p, (hw (pl_bus p) address, p <| pl_bus ::= λ t, t ++ [Rd address] |>).
Definition reg_write (address value : Z) : Prog () :=
  λ p, ((), p <| pl_bus ::= λ t, t ++ [Wr address value] |>).
(** [REG |= v] and [REG &= ~v] on 32-bit registers. *)
Definition reg_or (address v : Z) : Prog () := x <- reg_read address;; reg_write address (Z.lor x v).
Definition reg_andnot (address v : Z) : Prog () :=
  x <- reg_read address;; reg_write address (Z.land x (u32 (Z.lnot v))).
Definition half_read (address : Z) : Prog Z :=
  λ p, (u16 (hw (pl_bus p) address), p <| pl_bus ::= λ t, t ++ [Rd16 address] |>).
Definition half_write (address value : Z) : Prog () :=
  λ p, ((), p <| pl_bus ::= λ t, t ++ [Wr16 address value] |>).

(** [while (busy) if (--timeout == 0) return false;] *)
Fixpoint poll (timeout : nat) (address : Z) (ready : Z → bool) : Prog bool :=
  match timeout with
  | O => p_ret false
  | S timeout => x <- reg_read address;; if ready x then p_ret true else poll timeout address ready
  end.

Definition POLL_TIMEOUT : nat := Z.to_nat 1000000.

Definition bits_set (mask x : Z) : bool := negb (Z.land x mask =? 0).
Definition bits_clear (mask x : Z) : bool := Z.land x mask =? 0.

(** ** Configuration *)

Definition configure_led_off : Prog () :=
  reg_or (RCC_BASE + 0x18) (bit 4);;
  crh <- reg_read (GPIOC_BASE + 0x04);;
  let crh := Z.land crh (u32 (Z.lnot (Z.shiftl 0xF 20))) in
  let crh := Z.lor crh (Z.shiftl 0x2 20) in
  reg_write (GPIOC_BASE + 0x04) crh;;
  reg_write (GPIOC_BASE + 0x10) (bit 13).

Definition configure_clock_72mhz : Prog bool :=
  reg_or (RCC_BASE + 0x00) (bit 16);;
  hse <- poll POLL_TIMEOUT (RCC_BASE + 0x00) (bits_set (bit 17));;
  if negb hse then p_ret false
  else
    reg_write (FLASH_BASE + 0x00) (Z.lor (bit 4) 2);;
    cfgr <- reg_read (RCC_BASE + 0x04);;
    let cfgr := Z.land cfgr (u32 (Z.lnot
      (Z.lor (Z.lor (Z.lor (Z.lor (Z.shiftl 0xF 4) (Z.shiftl 0x7 8)) (Z.shiftl 0x7 11)) (Z.shiftl 0xF 18))
             (bit 16)))) in
    let cfgr := Z.lor cfgr (Z.shiftl 0x4 8) in
    let cfgr := Z.lor cfgr (bit 16) in
    let cfgr := Z.lor cfgr (Z.shiftl 0x7 18) in
    reg_write (RCC_BASE + 0x04) cfgr;;
    reg_or (RCC_BASE + 0x00) (bit 24);;
    pll <- poll POLL_TIMEOUT (RCC_BASE + 0x00) (bits_set (bit 25));;
    if negb pll then p_ret false
    else
      cfgr <- reg_read (RCC_BASE + 0x04);;
      reg_write (RCC_BASE + 0x04) (Z.lor (Z.land cfgr (u32 (Z.lnot 0x3))) 0x2);;
      poll POLL_TIMEOUT (RCC_BASE + 0x04) (λ x, Z.land x (Z.shiftl 0x3 2) =? Z.shiftl 0x2 2).

Definition configure_systick : Prog () :=
  reg_write (SYSTICK_BASE + 0x00) 0;;
  reg_write (SYSTICK_BASE + 0x04) (72000 - 1);;
  reg_write (SYSTICK_BASE + 0x08) 0;;
  reg_write (SYSTICK_BASE + 0x00) 7.

Definition configure_target_sensor_input : Prog () :=
  reg_or (RCC_BASE + 0x18) (bit 2);;
  crl <- reg_read (GPIOA_BASE + 0x00);;
  let crl := Z.land crl (u32 (Z.lnot 0xF)) in
  let crl := Z.lor crl 0x8 in
  reg_write (GPIOA_BASE + 0x00) crl;;
  reg_write (GPIOA_BASE + 0x10) 1.

Definition configure_servo_pwm_off : Prog () :=
  reg_or (RCC_BASE + 0x18) (Z.lor (bit 2) (bit 11));;
  reg_write (GPIOA_BASE + 0x14) (bit 8);;
  crh <- reg_read (GPIOA_BASE + 0x04);;
  let crh := Z.land crh (u32 (Z.lnot 0xF)) in
  let crh := Z.lor crh 0xB in
  reg_write (GPIOA_BASE + 0x04) crh;;
  reg_write (TIM1_BASE + 0x00) 0;;
  reg_write (TIM1_BASE + 0x28) 71;;
  reg_write (TIM1_BASE + 0x2C) 19999;;
  reg_write (TIM1_BASE + 0x34) 0;;
  reg_write (TIM1_BASE + 0x18) 0x68;;
  reg_write (TIM1_BASE + 0x20) 1;;
  reg_write (TIM1_BASE + 0x44) (bit 15);;
  reg_write (TIM1_BASE + 0x14) 1;;
  reg_write (TIM1_BASE + 0x00) (Z.lor (bit 7) 1).

Definition configure_can : Prog bool :=
  reg_or (RCC_BASE + 0x18) (Z.lor (bit 0) (bit 2));;
  reg_or (RCC_BASE + 0x1C) (bit 25);;
  crh <- reg_read (GPIOA_BASE + 0x04);;
  let crh := Z.land crh (u32 (Z.lnot (Z.lor (Z.shiftl 0xF 12) (Z.shiftl 0xF 16)))) in
  let crh := Z.lor crh (Z.shiftl 0x8 12) in
  let crh := Z.lor crh (Z.shiftl 0xB 16) in
  reg_write (GPIOA_BASE + 0x04) crh;;
  reg_write (GPIOA_BASE + 0x10) (bit 11);;
  reg_andnot (AFIO_BASE + 0x04) (Z.shiftl 0x3 13);;
  reg_write (CAN1_BASE + 0x00) (Z.lor (bit 6) 1);;
  init <- poll POLL_TIMEOUT (CAN1_BASE + 0x04) (bits_set 1);;
  if negb init then p_ret false
  else
    reg_write (CAN1_BASE + 0x1C) (Z.lor (Z.lor (bit 20) (Z.shiftl 14 16)) 3);;
    reg_or (CAN1_BASE + 0x200) 1;;
    reg_andnot (CAN1_BASE + 0x21C) 1;;
    reg_andnot (CAN1_BASE + 0x204) 1;;
    reg_or (CAN1_BASE + 0x20C) 1;;
    reg_andnot (CAN1_BASE + 0x214) 1;;
    reg_write (CAN1_BASE + 0x240) (u32 (Z.shiftl 0x061 21));;
    reg_write (CAN1_BASE + 0x244) (Z.lor (Z.lor (u32 (Z.shiftl 0x7FF 21)) (bit 2)) (bit 1));;
    reg_or (CAN1_BASE + 0x21C) 1;;
    reg_andnot (CAN1_BASE + 0x200) 1;;
    reg_write (CAN1_BASE + 0x14) (bit 1);;
    reg_write NVIC_ISER0 (bit 20);;
    reg_andnot (CAN1_BASE + 0x00) 1;;
    poll POLL_TIMEOUT (CAN1_BASE + 0x04) (bits_clear 1).

Definition rcr_platform_init : Prog bool :=
  configure_led_off;;
  clock <- configure_clock_72mhz;;
  if negb clock then p_ret false
  else
    configure_target_sensor_input;;
    configure_servo_pwm_off;;
    configure_systick;;
    configure_can.

(** ** Interrupts and the receive queue *)

Definition rcr_platform_millis : Prog Z := p_get pl_monotonic_ms.

Definition SysTick_Handler : Prog () := p_set (λ p, p <| pl_monotonic_ms ::= λ t, u32 (t + 1) |>).

Definition queue_next (i : nat) : nat := (i + 1) mod QUEUE_CAPACITY.

Definition unpack_byte (word : Z) (index : nat) : Z := u8 (Z.shiftr word (Z.of_nat index * 8)).

(** The frame in the receive mailbox registers. *)
Definition unpack_frame (rir rdtr rdlr rdhr now_ms : Z) : rcr_can_frame_t :=
  let extended := bits_set (bit 2) rir in
  mkMcuFrame
    (if extended then Z.land (Z.shiftr rir 3) 0x1FFFFFFF else Z.land (Z.shiftr rir 21) 0x7FF)
    (u8 (Z.land rdtr 0xF))
    (map (unpack_byte rdlr) (seq 0 4) ++ map (unpack_byte rdhr) (seq 0 4))
    extended (bits_set (bit 1) rir) now_ms.

(** The queue part of the receive interrupt. *)
Definition rx_push (frame : rcr_can_frame_t) (p : Platform) : Platform :=
  let next := queue_next (pl_rx_head p) in
  if (next =? pl_rx_tail p)%nat then p <| pl_rx_overflow := true |>
  else p <| pl_rx_queue ::= <[pl_rx_head p := frame]> |> <| pl_rx_head := next |>.

(** [USB_LP_CAN1_RX0_IRQHandler]: turns of its loop until the FIFO is empty. *)
Fixpoint can_rx_irq (turns : nat) : Prog () :=
  match turns with
  | O => p_hang
  | S turns =>
      rf0r <- reg_read (CAN1_BASE + 0x0C);;
      if Z.land rf0r 0x3 =? 0 then p_ret ()
      else
        rir <- reg_read (CAN1_BASE + 0x1B0);;
        rdtr <- reg_read (CAN1_BASE + 0x1B4);;
        rdlr <- reg_read (CAN1_BASE + 0x1B8);;
        rdhr <- reg_read (CAN1_BASE + 0x1BC);;
        now <- p_get pl_monotonic_ms;;
        p_set (rx_push (unpack_frame rir rdtr rdlr rdhr now));;
        reg_write (CAN1_BASE + 0x0C) (bit 5);;
        can_rx_irq turns
  end.

(** Three frames in the FIFO, one that arrives meanwhile, and the last look. *)
Definition RX_TURNS : nat := 5.

Definition take_irq : Prog () := p_set (λ p, p <| pl_bus ::= λ t, t ++ [Irq] |>).

Definition run_irq (i : irq) : Prog () :=
  take_irq;; match i with SysTick => SysTick_Handler | CanRx => can_rx_irq RX_TURNS end.

Fixpoint run_irqs (pending : list irq) : Prog () :=
  match pending with [] => p_ret () | i :: pending => run_irq i;; run_irqs pending end.

(** The interrupts that arrive at this point of the main loop. *)
Definition preempt : Prog () :=
  λ p, match pl_irqs p with
       | [] => ((), p)
       | pending :: rest => run_irqs pending (p <| pl_irqs := rest |>)
       end.

Definition rx_empty (p : Platform) : bool := (pl_rx_tail p =? pl_rx_head p)%nat.
Definition rx_slot (p : Platform) : rcr_can_frame_t := default zero_frame (pl_rx_queue p !! pl_rx_tail p).
Definition rx_advance (p : Platform) : Platform := p <| pl_rx_tail ::= queue_next |>.

(** The slot is copied before the tail moves; an interrupt may come in between. *)
Definition rcr_platform_can_rx_pop : Prog (option rcr_can_frame_t) :=
  empty <- p_get rx_empty;;
  if (empty : bool) then p_ret None
  else
    frame <- p_get rx_slot;;
    preempt;;
    p_set rx_advance;;
    p_ret (Some frame).

(** A critical section. *)
Definition rcr_platform_take_rx_overflow : Prog bool :=
  overflow <- p_get pl_rx_overflow;;
  p_set (λ p, p <| pl_rx_overflow := false |>);;
  p_ret overflow.

(** ** Transmission *)

Definition rcr_platform_can_tx_enqueue (frame : rcr_can_frame_t) : Prog bool :=
  if mf_extended frame || mf_rtr frame || negb (mf_dlc frame =? RCR_CAN_V1_DLC) then p_ret false
  else
    full <- p_get (λ p, (queue_next (pl_tx_head p) =? pl_tx_tail p)%nat);;
    if (full : bool) then p_ret false
    else
      p_set (λ p, p <| pl_tx_queue ::= <[pl_tx_head p := frame]> |> <| pl_tx_head ::= queue_next |>);;
      p_ret true.

Definition pack_word (f : rcr_can_frame_t) (i : nat) : Z :=
  Z.lor (Z.lor (Z.lor (mcu_data f i) (Z.shiftl (mcu_data f (i + 1)) 8))
           (Z.shiftl (mcu_data f (i + 2)) 16)) (Z.shiftl (mcu_data f (i + 3)) 24).

Definition mailbox_id (f : rcr_can_frame_t) : Z := u32 (Z.shiftl (Z.land (mf_can_id f) 0x7FF) 21).

Definition try_load_tx_mailbox (frame : rcr_can_frame_t) : Prog bool :=
  tsr <- reg_read (CAN1_BASE + 0x08);;
  let load offset :=
    let base := CAN1_BASE + 0x180 + offset in
    (reg_write (base + 0x00) (mailbox_id frame);;
     reg_write (base + 0x04) RCR_CAN_V1_DLC;;
     reg_write (base + 0x08) (pack_word frame 0);;
     reg_write (base + 0x0C) (pack_word frame 4);;
     reg_or (base + 0x00) 1;;
     p_ret true) in
  if bits_set (bit 26) tsr then load 0
  else if bits_set (bit 27) tsr then load 0x10
  else if bits_set (bit 28) tsr then load 0x20
  else p_ret false.

(** The queue holds at most seven frames. *)
Fixpoint tx_pump (turns : nat) : Prog () :=
  match turns with
  | O => p_hang
  | S turns =>
      empty <- p_get (λ p, (pl_tx_tail p =? pl_tx_head p)%nat);;
      if (empty : bool) then p_ret ()
      else
        frame <- p_get (λ p, default zero_frame (pl_tx_queue p !! pl_tx_tail p));;
        loaded <- try_load_tx_mailbox frame;;
        if negb loaded then p_ret ()
        else p_set (λ p, p <| pl_tx_tail ::= queue_next |>);; tx_pump turns
  end.
Definition rcr_platform_can_tx_pump : Prog () := tx_pump QUEUE_CAPACITY.

Definition rcr_platform_can_bus_off : Prog bool :=
  esr <- reg_read (CAN1_BASE + 0x18);; p_ret (bits_set (bit 2) esr).

(** ** Inputs, outputs and watchdog *)

Definition rcr_platform_target_sensor_raw_high : Prog bool :=
  idr <- reg_read (GPIOA_BASE + 0x08);; p_ret (bits_set 1 idr).

Definition rcr_platform_target_sensor_active : Prog bool :=
  raw <- rcr_platform_target_sensor_raw_high;;
  p_ret (rcr_target_sensor_active raw RCR_TARGET_SENSOR_POLARITY).

Definition rcr_platform_set_output_led (enabled : bool) : Prog () :=
  if enabled then reg_write (GPIOC_BASE + 0x14) (bit 13) else reg_write (GPIOC_BASE + 0x10) (bit 13).

Definition rcr_platform_set_servo_pwm_us (pulse_us : Z) : Prog () :=
  let pulse_us :=
    if negb (pulse_us =? RCR_SERVO_PWM_DISABLED_US) && negb (pulse_us =? RCR_SERVO_POSITION_A_US) &&
       negb (pulse_us =? RCR_SERVO_POSITION_B_US) then RCR_SERVO_PWM_DISABLED_US else pulse_us in
  reg_write (TIM1_BASE + 0x34) pulse_us.

Definition rcr_platform_watchdog_start : Prog () :=
  reg_write (IWDG_BASE + 0x00) 0x5555;;
  reg_write (IWDG_BASE + 0x04) 3;;
  reg_write (IWDG_BASE + 0x08) 1250;;
  reg_write (IWDG_BASE + 0x00) 0xAAAA;;
  reg_write (IWDG_BASE + 0x00) 0xCCCC.

Definition rcr_platform_watchdog_kick : Prog () := reg_write (IWDG_BASE + 0x00) 0xAAAA.

(** ** The session journal *)

Definition flash_wait : Prog bool :=
  idle <- poll POLL_TIMEOUT (FLASH_BASE + 0x0C) (bits_clear 1);;
  if negb idle then p_ret false
  else sr <- reg_read (FLASH_BASE + 0x0C);; p_ret (bits_clear (Z.lor (bit 2) (bit 4)) sr).

Definition flash_unlock : Prog () :=
  cr <- reg_read (FLASH_BASE + 0x10);;
  if bits_set (bit 7) cr then
    reg_write (FLASH_BASE + 0x04) 0x45670123;;
    reg_write (FLASH_BASE + 0x04) 0xCDEF89AB
  else p_ret ().

Definition flash_lock : Prog () := reg_or (FLASH_BASE + 0x10) (bit 7).

Definition flash_program_halfword (address value : Z) : Prog bool :=
  idle <- flash_wait;;
  if negb idle then p_ret false
  else
    reg_or (FLASH_BASE + 0x10) 1;;
    half_write address value;;
    ok <- flash_wait;;
    reg_andnot (FLASH_BASE + 0x10) 1;;
    if negb ok then p_ret false
    else stored <- half_read address;; p_ret (stored =? value).

Definition flash_erase_session_page : Prog bool :=
  idle <- flash_wait;;
  if negb idle then p_ret false
  else
    reg_or (FLASH_BASE + 0x10) (bit 1);;
    reg_write (FLASH_BASE + 0x14) SESSION_PAGE;;
    reg_or (FLASH_BASE + 0x10) (bit 6);;
    ok <- flash_wait;;
    reg_andnot (FLASH_BASE + 0x10) (bit 1);;
    if negb ok then p_ret false
    else first <- reg_read SESSION_PAGE;; p_ret (first =? 0xFFFFFFFF).

(** One turn of the scan: the last valid value and the first empty address. *)
Definition scan_record (last empty_address address record : Z) : Z * Z :=
  if record =? 0xFFFFFFFF then (last, if empty_address =? 0 then address else empty_address)
  else
    let value := u16 (Z.land record 0xFFFF) in
    let complement := u16 (Z.shiftr record 16) in
    (if negb (value =? 0) && (complement =? u16 (Z.lnot value)) then value else last, empty_address).

Fixpoint scan_journal (count index : nat) (last empty_address : Z) : Prog (Z * Z) :=
  match count with
  | O => p_ret (last, empty_address)
  | S count =>
      let address := SESSION_PAGE + Z.of_nat index * 4 in
      record <- reg_read address;;
      let '(last, empty_address) := scan_record last empty_address address record in
      scan_journal count (S index) last empty_address
  end.

Definition next_session_value (last : Z) : Z := if last =? 0xFFFF then 1 else u16 (last + 1).

(** The session, and whether it was recorded. *)
Definition rcr_platform_next_session : Prog (Z * bool) :=
  scan <- scan_journal SESSION_RECORD_COUNT 0 0 0;;
  let '(last, empty_address) := scan in
  let next := next_session_value last in
  flash_unlock;;
  ready <- (if empty_address =? 0 then
              erased <- flash_erase_session_page;;
              p_ret (if (erased : bool) then Some SESSION_PAGE else None)
            else p_ret (Some empty_address));;
  match ready with
  | None => flash_lock;; p_ret (next, false)
  | Some address =>
      value_ok <- flash_program_halfword address next;;
      complement_ok <- (if (value_ok : bool) then flash_program_halfword (address + 2) (u16 (Z.lnot next))
                        else p_ret false);;
      flash_lock;;
      p_ret (next, complement_ok)
  end.

(** ** The arbitration probe *)

Inductive rcr_platform_probe_tx_result_t := PROBE_TX_NONE | PROBE_TX_OK | PROBE_TX_ARBITRATION_LOST | PROBE_TX_ERROR.

Definition rcr_platform_arbitration_probe_begin : Prog bool :=
  reg_or (CAN1_BASE + 0x00) 1;;
  init <- poll POLL_TIMEOUT (CAN1_BASE + 0x04) (bits_set 1);;
  if negb init then p_ret false
  else
    reg_or (CAN1_BASE + 0x00) (bit 4);;
    reg_andnot (CAN1_BASE + 0x00) 1;;
    normal <- poll POLL_TIMEOUT (CAN1_BASE + 0x04) (bits_clear 1);;
    if negb normal then p_ret false
    else mcr <- reg_read (CAN1_BASE + 0x00);; p_ret (bits_set (bit 4) mcr).

Definition rcr_platform_arbitration_probe_poll : Prog rcr_platform_probe_tx_result_t :=
  tsr <- reg_read (CAN1_BASE + 0x08);;
  if Z.land tsr 1 =? 0 then p_ret PROBE_TX_NONE
  else
    let result := if bits_set (bit 2) tsr then PROBE_TX_ARBITRATION_LOST
                  else if bits_set (bit 1) tsr then PROBE_TX_OK else PROBE_TX_ERROR in
    reg_write (CAN1_BASE + 0x08) 1;;
    p_ret result.

Definition rcr_platform_arbitration_probe_try_send (sequence : Z) : Prog bool :=
  tsr <- reg_read (CAN1_BASE + 0x08);;
  if Z.land tsr (bit 26) =? 0 then p_ret false
  else
    let base := CAN1_BASE + 0x180 in
    reg_write (base + 0x00) (u32 (Z.shiftl 0x7FE 21));;
    reg_write (base + 0x04) RCR_CAN_V1_DLC;;
    reg_write (base + 0x08) sequence;;
    reg_write (base + 0x0C) 0xA55AA55A;;
    reg_or (base + 0x00) 1;;
    p_ret true.

End Platform.

(** ** What a program does on the bus *)

(** Every access a program makes satisfies [P]. *)
Definition emits {A} (P : bus_event → Prop) (m : Prog A) : Prop :=
  ∀ p, ∃ evs, pl_bus (snd (m p)) = pl_bus p ++ evs ∧ Forall P evs.

Section Emits.
Context (hw : list bus_event → Z → Z) (P : bus_event → Prop).

Lemma emits_ret {A} (a : A) : emits P (p_ret a).
Proof. intros p. exists []. cbn. by rewrite app_nil_r. Qed.

Lemma emits_get {A} (f : Platform → A) : emits P (p_get f).
Proof. intros p. exists []. cbn. by rewrite app_nil_r. Qed.

Lemma emits_set f : (∀ p, pl_bus (f p) = pl_bus p) → emits P (p_set f).
Proof. intros Hf p. exists []. cbn. by rewrite app_nil_r, Hf. Qed.

Lemma emits_bind {A B} (m : Prog A) (k : A → Prog B) :
  emits P m → (∀ a, emits P (k a)) → emits P (p_bind m k).
Proof.
  intros Hm Hk p. unfold p_bind. destruct (Hm p) as (e1 & He1 & H1). destruct (m p) as [a p1]. cbn in He1.
  destruct (Hk a p1) as (e2 & He2 & H2). exists (e1 ++ e2). rewrite He2, He1, app_assoc. split; [done|].
  by apply Forall_app.
Qed.

Lemma emits_irq : P Irq → emits P take_irq.
Proof. intros Ha p. exists [Irq]. split; [done|]. by constructor. Qed.
Lemma emits_read a : P (Rd a) → emits P (reg_read hw a).
Proof. intros Ha p. exists [Rd a]. split; [done|]. by constructor. Qed.
Lemma emits_write a v : P (Wr a v) → emits P (reg_write a v).
Proof. intros Ha p. exists [Wr a v]. split; [done|]. by constructor. Qed.

Lemma emits_or a v : P (Rd a) → (∀ x, P (Wr a x)) → emits P (reg_or hw a v).
Proof. intros. apply emits_bind; [by apply emits_read|]. intros. by apply emits_write. Qed.
Lemma emits_andnot a v : P (Rd a) → (∀ x, P (Wr a x)) → emits P (reg_andnot hw a v).
Proof. intros. apply emits_bind; [by apply emits_read|]. intros. by apply emits_write. Qed.

Lemma emits_poll n a r : P (Rd a) → emits P (poll hw n a r).
Proof.
  intros Ha. induction n as [|n IH]; cbn; [apply emits_ret|].
  apply emits_bind; [by apply emits_read|]. intros x. destruct (r x); [apply emits_ret|done].
Qed.
End Emits.

(** Walks through a program, leaving the accesses that are not obviously fine. *)
Ltac emits_step :=
  match goal with
  | |- emits _ (p_bind _ _) => apply emits_bind; [|intros ?]
  | |- emits _ (p_ret _) => apply emits_ret
  | |- emits _ (p_get _) => apply emits_get
  | |- emits _ (p_set _) => apply emits_set; [done]
  | |- emits _ take_irq => apply emits_irq
  | |- emits _ (reg_read _ _) => apply emits_read
  | |- emits _ (reg_write _ _) => apply emits_write
  | |- emits _ (reg_or _ _ _) => apply emits_or; [|intros ?]
  | |- emits _ (reg_andnot _ _ _) => apply emits_andnot; [|intros ?]
  | |- emits _ (poll _ _ _ _) => apply emits_poll
  | |- emits _ (if ?b then _ else _) => destruct b
  | |- emits _ (let '(_, _) := ?x in _) => destruct x
  | |- emits _ (match ?x with _ => _ end) => destruct x
  end.

Definition LED_ON : Z := GPIOC_BASE + 0x14.
Definition LED_OFF : Z := GPIOC_BASE + 0x10.
Definition SERVO_PULSE : Z := TIM1_BASE + 0x34.

(** An access that turns nothing on. *)
Definition inert (e : bus_event) : Prop :=
  match e with
  | Wr a v => a ≠ LED_ON ∧ (a = SERVO_PULSE → v = RCR_SERVO_PWM_DISABLED_US)
  | _ => True
  end.

#[export] Instance inert_dec e : Decision (inert e).
Proof. destruct e; cbn; apply _. Defined.

(** An access to neither of the outputs. *)
Definition untouched (e : bus_event) : Prop :=
  match e with Wr a _ => a ≠ LED_ON ∧ a ≠ LED_OFF ∧ a ≠ SERVO_PULSE | _ => True end.

Lemma untouched_inert e : untouched e → inert e.
Proof. destruct e; try done. by intros (? & ? & ?). Qed.

Lemma emits_weaken {A} (P Q : bus_event → Prop) (m : Prog A) : (∀ e, P e → Q e) → emits P m → emits Q m.
Proof. intros HPQ Hm p. destruct (Hm p) as (evs & He & Hf). exists evs. split; [done|]. by eapply Forall_impl. Qed.

#[local] Ltac inert_solve := repeat emits_step; try done; split; try done; intros [=].

Section Quiet.
Context (hw : list bus_event → Z → Z).

Lemma clock_inert : emits inert (configure_clock_72mhz hw).
Proof. unfold configure_clock_72mhz. inert_solve. Qed.

Lemma can_inert : emits inert (configure_can hw).
Proof. unfold configure_can. inert_solve. Qed.

Lemma init_inert : emits inert (rcr_platform_init hw).
Proof.
  unfold rcr_platform_init, configure_led_off, configure_target_sensor_input, configure_servo_pwm_off, configure_systick.
  repeat first [apply clock_inert | apply can_inert | emits_step]; try done; split; try done; intros [=].
Qed.
End Quiet.

(** ** The CAN FIFO *)

(** The frames waiting in FIFO 0 of the controller, as RF0R shows them. *)
Definition fifo_pending (hw : list bus_event → Z → Z) (t : list bus_event) : Z := Z.land (hw t (CAN1_BASE + 0x0C)) 0x3.

(** RFOM0: release the oldest frame. *)
Definition releases (e : bus_event) : Z :=
  match e with Wr a v => if (a =? CAN1_BASE + 0x0C) && Z.testbit v 5 then 1 else 0 | _ => 0 end.

(** The registers of FIFO 0 and its mailbox. *)
Definition receive_register (a : Z) : Prop := a = CAN1_BASE + 0x0C ∨ CAN1_BASE + 0x1B0 ≤ a ≤ CAN1_BASE + 0x1BC.
Definition receive_access (e : bus_event) : Prop :=
  match e with Rd a | Wr a _ => receive_register a | _ => False end.

(** The documented behaviour of the receive FIFO at 500 kbit/s: it fills by the frames that
    arrive, the release bit takes one out, and a frame takes so long on the wire (at least
    47 bits, 94 us) that no two arrive within the first 24 register accesses of an
    interrupt handler. *)
Class CanFifo (hw : list bus_event → Z → Z) := {
  cf_arrived : list bus_event → Z;
  cf_monotone t e : cf_arrived t ≤ cf_arrived (t ++ [e]);
  cf_fill t e :
    fifo_pending hw (t ++ [e]) ≤ Z.max 0 (fifo_pending hw t - releases e) + (cf_arrived (t ++ [e]) - cf_arrived t);
  cf_rate t u :
    Forall receive_access u → (length u ≤ 24)%nat → cf_arrived (t ++ [Irq] ++ u) ≤ cf_arrived (t ++ [Irq]) + 1
}.

Section Fifo.
Context {hw : list bus_event → Z → Z} {fifo : CanFifo hw}.

Lemma fifo_pending_range t : 0 ≤ fifo_pending hw t ≤ 3.
Proof.
  unfold fifo_pending. change 3 with (Z.ones 2). rewrite Z.land_ones by lia. pose proof (Z.mod_pos_bound (hw t (CAN1_BASE + 12)) (2 ^ 2)).
  change (2 ^ 2) with 4 in *. change (Z.ones 2) with 3. lia.
Qed.

(** Reading takes nothing out. *)
Lemma fifo_reads t l :
  Forall (λ e, releases e = 0) l →
  fifo_pending hw (t ++ l) ≤ fifo_pending hw t + (cf_arrived (t ++ l) - cf_arrived t) ∧ cf_arrived t ≤ cf_arrived (t ++ l).
Proof.
  induction l as [|e l IH] using rev_ind; intros Hl; [rewrite app_nil_r; lia|].
  apply Forall_app in Hl as [Hl He]. apply Forall_cons in He as [He _]. destruct (IH Hl) as [H1 H2].
  rewrite app_assoc. pose proof (cf_fill (t ++ l) e) as Hf. pose proof (cf_monotone (t ++ l) e) as Hm. rewrite He in Hf.
  pose proof (fifo_pending_range (t ++ l)). lia.
Qed.

(** One turn of the receive handler, from the first look to the release. *)
Definition rx_turn : list bus_event :=
  [Rd (CAN1_BASE + 0x0C); Rd (CAN1_BASE + 0x1B0); Rd (CAN1_BASE + 0x1B4); Rd (CAN1_BASE + 0x1B8); Rd (CAN1_BASE + 0x1BC);
   Wr (CAN1_BASE + 0x0C) (bit 5)].

Lemma rx_turn_takes t :
  fifo_pending hw t ≠ 0 →
  fifo_pending hw (t ++ rx_turn) + 1 ≤ fifo_pending hw t + (cf_arrived (t ++ rx_turn) - cf_arrived t).
Proof.
  intros H0. set (reads := [Rd (CAN1_BASE + 0x0C); Rd (CAN1_BASE + 0x1B0); Rd (CAN1_BASE + 0x1B4); Rd (CAN1_BASE + 0x1B8); Rd (CAN1_BASE + 0x1BC)]).
  destruct (fifo_reads t reads) as [H1 H2]; [by repeat constructor|].
  change rx_turn with (reads ++ [Wr (CAN1_BASE + 0x0C) (bit 5)]). rewrite app_assoc.
  pose proof (cf_fill (t ++ reads) (Wr (CAN1_BASE + 0x0C) (bit 5))) as Hf.
  change (releases (Wr (CAN1_BASE + 0x0C) (bit 5))) with 1 in Hf. pose proof (fifo_pending_range t).
  pose proof (cf_monotone (t ++ reads) (Wr (CAN1_BASE + 0x0C) (bit 5))). lia.
Qed.

Lemma bus_twice p f g : p <| pl_bus ::= f |> <| pl_bus ::= g |> = p <| pl_bus ::= λ t, g (f t) |>.
Proof. by destruct p. Qed.

(** The receive handler's turn in full: it looks, and stops or stores a frame. *)
Lemma can_rx_irq_turn k p :
  if fifo_pending hw (pl_bus p) =? 0 then can_rx_irq hw (S k) p = ((), p <| pl_bus ::= λ t, t ++ [Rd (CAN1_BASE + 0x0C)] |>)
  else ∃ fr, can_rx_irq hw (S k) p =
    can_rx_irq hw k (rx_push fr (p <| pl_bus := pl_bus p ++ take 5 rx_turn |>) <| pl_bus := pl_bus p ++ rx_turn |>).
Proof.
  cbn [can_rx_irq]. unfold p_bind, reg_read, p_get, p_set, reg_write, p_ret, fifo_pending.
  destruct (Z.land (hw (pl_bus p) (CAN1_BASE + 12)) 3 =? 0); [done|].
  match goal with |- context [rx_push ?f _] => generalize f; intros fr end. exists fr. f_equal.
  rewrite !bus_twice. unfold rx_push. destruct p as [bus]. cbn [pl_rx_head pl_rx_tail update].
  destruct (_ =? _)%nat; cbn -[bit]; by rewrite <- ?app_assoc.
Qed.

Lemma rx_push_keeps fr p : pl_bus (rx_push fr p) = pl_bus p ∧ pl_hung (rx_push fr p) = pl_hung p.
Proof. unfold rx_push. by destruct (_ =? _)%nat. Qed.

(** The handler empties the FIFO within its turns. *)
Lemma can_rx_irq_drains t0 k : ∀ u p,
  (k ≤ 4)%nat → pl_bus p = t0 ++ [Irq] ++ u → Forall receive_access u → length u = (6 * (4 - k))%nat →
  fifo_pending hw (pl_bus p) + (4 - Z.of_nat k) ≤ 3 + (cf_arrived (pl_bus p) - cf_arrived (t0 ++ [Irq])) →
  pl_hung (snd (can_rx_irq hw (S k) p)) = pl_hung p.
Proof.
  induction k as [|k IH]; intros u p Hk Hb Hu Hl Hp; pose proof (can_rx_irq_turn 0 p) as Ht0;
    [|pose proof (can_rx_irq_turn (S k) p) as Ht]; destruct (Z.eqb_spec (fifo_pending hw (pl_bus p)) 0) as [H0|H0].
  - by rewrite Ht0.
  - pose proof (cf_rate t0 u Hu ltac:(lia)) as Hr. rewrite <- Hb in Hr. pose proof (fifo_pending_range (pl_bus p)). lia.
  - by rewrite Ht.
  - destruct Ht as (fr & ->). pose proof (rx_turn_takes (pl_bus p) H0) as Hstep.
    rewrite (IH (u ++ rx_turn)); cbn [pl_bus pl_hung update].
    + by rewrite (proj2 (rx_push_keeps _ _)).
    + lia.
    + by rewrite Hb, <- !app_assoc.
    + apply Forall_app. split; [done|]. repeat constructor; unfold receive_register, CAN1_BASE; lia.
    + rewrite length_app. cbn [length rx_turn]. lia.
    + lia.
Qed.

Lemma rx_interrupt_ends t p : pl_bus p = t ++ [Irq] → pl_hung (snd (can_rx_irq hw RX_TURNS p)) = pl_hung p.
Proof.
  intros Hb. apply (can_rx_irq_drains t 4 []); [done|by rewrite Hb|constructor|done|].
  rewrite Hb. pose proof (fifo_pending_range (t ++ [Irq])). lia.
Qed.
End Fifo.

(** ** The receive queue under interruption *)

Section RxQueue.
Local Open Scope nat_scope.

(** The eight slots hold the frames of [q] from the tail on, at most seven. *)
Definition rx_rep (p : Platform) (q : list rcr_can_frame_t) : Prop :=
  length (pl_rx_queue p) = QUEUE_CAPACITY ∧ (length q < QUEUE_CAPACITY)%nat ∧
  pl_rx_head p = (pl_rx_tail p + length q) mod QUEUE_CAPACITY ∧
  ring_rep (pl_rx_queue p) (pl_rx_tail p) (length q) q.

Lemma rx_tail_bound p q : rx_rep p q → (pl_rx_tail p < QUEUE_CAPACITY)%nat.
Proof. intros (Hl & _ & _ & (Hh & _)). by rewrite Hl in Hh. Qed.

Lemma add_mod_small a n : (a < 8)%nat → (n < 8)%nat → (a + n) mod 8 = if (a + n <? 8)%nat then (a + n)%nat else (a + n - 8)%nat.
Proof.
  intros Ha Hn. destruct (Nat.ltb_spec (a + n) 8); [by apply Nat.mod_small|].
  symmetry. apply Nat.mod_unique with 1%nat; lia.
Qed.

Lemma queue_next_head a n : queue_next ((a + n) mod QUEUE_CAPACITY) = (a + S n) mod QUEUE_CAPACITY.
Proof. unfold queue_next, QUEUE_CAPACITY. rewrite Nat.Div0.add_mod_idemp_l. f_equal. lia. Qed.

Lemma rx_push_rep p q f :
  rx_rep p q →
  if (length q =? 7)%nat then rx_push f p = p <| pl_rx_overflow := true |>
  else rx_rep (rx_push f p) (q ++ [f]) ∧ pl_rx_overflow (rx_push f p) = pl_rx_overflow p ∧
       pl_rx_tail (rx_push f p) = pl_rx_tail p.
Proof.
  intros Hr. pose proof (rx_tail_bound _ _ Hr) as Ht. destruct Hr as (Hl & Hq & Hh & Hring).
  unfold rx_push. rewrite Hh, queue_next_head. unfold QUEUE_CAPACITY in *.
  destruct (Nat.eqb_spec (length q) 7) as [H7|H7].
  - rewrite H7. replace ((pl_rx_tail p + 8) mod 8) with (pl_rx_tail p); [by rewrite Nat.eqb_refl|].
    apply Nat.mod_unique with 1%nat; lia.
  - assert (Hne : ((pl_rx_tail p + S (length q)) mod 8 =? pl_rx_tail p)%nat = false).
    { apply Nat.eqb_neq. rewrite add_mod_small by lia. destruct (_ <? _)%nat eqn:Hlt; [|apply Nat.ltb_ge in Hlt]; lia. }
    rewrite Hne. split; [|done]. unfold rx_rep, QUEUE_CAPACITY. cbn -[Nat.modulo].
    rewrite length_insert, length_app. cbn [length]. rewrite Nat.add_1_r. split_and!; try done; try lia.
    pose proof (ring_rep_push _ _ _ _ f Hring ltac:(lia)) as Hpush. by rewrite Hl in Hpush.
Qed.

Lemma rx_pop_rep p x q :
  rx_rep p (x :: q) → rx_empty p = false ∧ rx_slot p = x ∧ rx_rep (rx_advance p) q.
Proof.
  intros Hr. pose proof (rx_tail_bound _ _ Hr) as Ht. destruct Hr as (Hl & Hq & Hh & Hring).
  unfold QUEUE_CAPACITY in *. cbn [length] in *. split; [|split].
  - unfold rx_empty. apply Nat.eqb_neq. rewrite Hh, add_mod_small by lia.
    destruct (_ <? _)%nat eqn:Hlt; [|apply Nat.ltb_ge in Hlt]; lia.
  - unfold rx_slot. apply ring_rep_pop in Hring as [-> _]. done.
  - apply ring_rep_pop in Hring as [_ Hring]. unfold rx_rep, rx_advance, QUEUE_CAPACITY. cbn -[Nat.modulo].
    rewrite Hl in Hring. split_and!; try done; try lia. rewrite Hh. unfold queue_next, QUEUE_CAPACITY.
    rewrite Nat.Div0.add_mod_idemp_l. f_equal. lia.
Qed.

Lemma rx_empty_rep p : rx_rep p [] → rx_empty p = true.
Proof.
  intros Hr. pose proof (rx_tail_bound _ _ Hr) as Ht. destruct Hr as (_ & _ & Hh & _). unfold rx_empty.
  rewrite Hh. cbn [length]. rewrite Nat.add_0_r, Nat.mod_small by done. apply Nat.eqb_refl.
Qed.

(** Steps of the two sides: the interrupt stores a frame; the main loop copies the slot
    at the tail, and later moves the tail. *)
Inductive rx_op := Arrive (f : rcr_can_frame_t) | Copy | Advance.

Record rx_state := mkRxState {
  rx_platform : Platform;
  rx_copied : option rcr_can_frame_t;
  rx_delivered : list rcr_can_frame_t
}.

Definition rx_step (s : rx_state) (o : rx_op) : rx_state :=
  let '(mkRxState p copied delivered) := s in
  match o, copied with
  | Arrive f, _ => mkRxState (rx_push f p) copied delivered
  | Copy, None => if rx_empty p then s else mkRxState p (Some (rx_slot p)) delivered
  | Advance, Some f => mkRxState (rx_advance p) None (delivered ++ [f])
  | _, _ => s
  end.

(** A queue of seven with a mark for lost frames. *)
Record fifo := mkFifo {
  ff_waiting : list rcr_can_frame_t;
  ff_lost : bool;
  ff_copied : bool;
  ff_delivered : list rcr_can_frame_t
}.

Definition fifo_step (s : fifo) (o : rx_op) : fifo :=
  let '(mkFifo q lost copied delivered) := s in
  match o, copied, q with
  | Arrive f, _, _ => if (length q =? 7)%nat then mkFifo q true copied delivered
                      else mkFifo (q ++ [f]) lost copied delivered
  | Copy, false, _ :: _ => mkFifo q lost true delivered
  | Advance, true, x :: q => mkFifo q lost false (delivered ++ [x])
  | _, _, _ => s
  end.

Definition rx_rel (s : rx_state) (a : fifo) : Prop :=
  rx_rep (rx_platform s) (ff_waiting a) ∧ pl_rx_overflow (rx_platform s) = ff_lost a ∧
  rx_copied s = (if ff_copied a then head (ff_waiting a) else None) ∧
  (ff_copied a = true → ff_waiting a ≠ []) ∧ rx_delivered s = ff_delivered a.

Lemma rx_step_sim s a o : rx_rel s a → rx_rel (rx_step s o) (fifo_step a o).
Proof.
  destruct s as [p copied delivered], a as [q lost c d]. intros (Hrep & Hlost & Hcop & Hne & Hdel). cbn in *. subst.
  destruct o as [f| |]; cbn.
  - pose proof (rx_push_rep p q f Hrep) as Hp. destruct (length q =? 7)%nat.
    + rewrite Hp. by split_and!.
    + destruct Hp as (Hp & Ho & _). split_and!; cbn; try done; [|by destruct q].
      destruct c; [|done]. destruct q; [by destruct Hne|done].
  - destruct c.
    + destruct q as [|x q]; [by destruct Hne|]. by split_and!.
    + destruct q as [|x q]; [rewrite (rx_empty_rep p Hrep); by split_and!|].
      destruct (rx_pop_rep p x q Hrep) as (He & Hs & _). rewrite He, Hs. by split_and!.
  - destruct c.
    + destruct q as [|x q]; [by destruct Hne|]. destruct (rx_pop_rep p x q Hrep) as (_ & _ & Ha). by split_and!.
    + by destruct q; split_and!.
Qed.

Definition arrivals (ops : list rx_op) : list rcr_can_frame_t :=
  omap (λ o, match o with Arrive f => Some f | _ => None end) ops.

Lemma fifo_keeps_order ops a :
  ff_lost (foldl fifo_step a ops) = false →
  ff_lost a = false ∧
  ff_delivered (foldl fifo_step a ops) ++ ff_waiting (foldl fifo_step a ops) =
  ff_delivered a ++ ff_waiting a ++ arrivals ops.
Proof.
  revert a. induction ops as [|o ops IH]; intros a Hl; [cbn in *; by rewrite app_nil_r|].
  cbn [foldl] in *. destruct (IH _ Hl) as [Hl' ->]. destruct a as [q lost c d]. destruct o as [f| |]; cbn in *.
  - destruct (length q =? 7)%nat; [done|]. cbn in *. by rewrite <- !app_assoc.
  - by destruct c, q.
  - destruct c, q; try done. cbn in *. by rewrite <- !app_assoc.
Qed.

Lemma initial_rx_rep irqs : rx_rep (initial_platform irqs) [].
Proof. split; [done|]. split; [cbn; unfold QUEUE_CAPACITY; lia|]. split; [done|]. apply ring_rep_empty. cbn. lia. Qed.

(** The receive queue is an ordered queue of seven frames under any interleaving
    of the interrupt with the main loop, even between copying a slot and releasing it:
    what the main loop gets is what the queue would give, and the overflow mark is set
    exactly when a frame arrives with seven waiting.  While it is not set, the frames
    delivered and the frames waiting are the frames that arrived, in order. *)
Theorem rx_queue_is_fifo ops irqs :
  let s := foldl rx_step (mkRxState (initial_platform irqs) None []) ops in
  let a := foldl fifo_step (mkFifo [] false false []) ops in
  rx_delivered s = ff_delivered a ∧ pl_rx_overflow (rx_platform s) = ff_lost a ∧
  (pl_rx_overflow (rx_platform s) = false → rx_delivered s ++ ff_waiting a = arrivals ops).
Proof.
  intros s a. assert (Hrel : rx_rel s a).
  { unfold s, a. assert (Hi : rx_rel (mkRxState (initial_platform irqs) None []) (mkFifo [] false false [])).
    { split_and!; try done. apply initial_rx_rep. }
    revert Hi. generalize (mkRxState (initial_platform irqs) None []) (mkFifo [] false false []).
    induction ops as [|o ops IH]; intros s0 a0 Hi; [done|]. apply IH. by apply rx_step_sim. }
  destruct Hrel as (_ & Ho & _ & _ & Hd). split_and!; try done. intros Hl. rewrite Hd. rewrite Ho in Hl.
  apply (fifo_keeps_order ops _ Hl).
Qed.

Definition numbered (n : Z) : rcr_can_frame_t := zero_frame <| mf_receive_ms := n |>.

Lemma rx_queue_is_fifo_witness :
  rx_delivered (foldl rx_step (mkRxState (initial_platform []) None [])
    [Arrive (numbered 1); Copy; Arrive (numbered 2); Arrive (numbered 3); Advance; Copy; Advance]) =
  [numbered 1; numbered 2] ∧
  pl_rx_overflow (rx_platform (foldl rx_step (mkRxState (initial_platform []) None [])
    (map (λ i, Arrive (numbered i)) [1; 2; 3; 4; 5; 6; 7; 8]%Z))) = true.
Proof.
  split.
  - rewrite (proj1 (rx_queue_is_fifo _ [])). reflexivity.
  - rewrite (proj1 (proj2 (rx_queue_is_fifo _ []))). reflexivity.
Defined.
End RxQueue.

(** ** From a transmit mailbox to a receive mailbox *)

Lemma pack_value a b c d :
  is_byte a → is_byte b → is_byte c → is_byte d →
  Z.lor (Z.lor (Z.lor a (Z.shiftl b 8)) (Z.shiftl c 16)) (Z.shiftl d 24) =
  a + b * 256 + c * 65536 + d * 16777216.
Proof.
  unfold is_byte, is_u. change (2 ^ 8) with 256. intros.
  rewrite (Z.lor_comm a), lor_shiftl_add by (try change (2 ^ 8) with 256; lia).
  rewrite (Z.lor_comm _ (Z.shiftl c 16)), lor_shiftl_add by (try change (2 ^ 16) with 65536; change (2 ^ 8) with 256; lia).
  rewrite (Z.lor_comm _ (Z.shiftl d 24)), lor_shiftl_add
    by (try change (2 ^ 24) with 16777216; change (2 ^ 16) with 65536; change (2 ^ 8) with 256; lia).
  change (2 ^ 24) with 16777216. change (2 ^ 16) with 65536. change (2 ^ 8) with 256. lia.
Qed.

Lemma unpack_packed a b c d :
  is_byte a → is_byte b → is_byte c → is_byte d →
  map (unpack_byte (Z.lor (Z.lor (Z.lor a (Z.shiftl b 8)) (Z.shiftl c 16)) (Z.shiftl d 24))) (seq 0 4) = [a; b; c; d].
Proof.
  intros Ha Hb Hc Hd. rewrite pack_value by done. cbn [map seq]. unfold unpack_byte, u8, wrap.
  unfold is_byte, is_u in *. change (2 ^ 8) with 256 in *. rewrite !Z.shiftr_div_pow2 by lia.
  change (2 ^ (Z.of_nat 0 * 8)) with 1. change (2 ^ (Z.of_nat 1 * 8)) with 256.
  change (2 ^ (Z.of_nat 2 * 8)) with 65536. change (2 ^ (Z.of_nat 3 * 8)) with 16777216.
  repeat f_equal; Z.div_mod_to_equations; lia.
Qed.

Lemma mailbox_id_fields id :
  0 ≤ id < 2048 →
  let rir := Z.lor (u32 (Z.shiftl (Z.land id 0x7FF) 21)) 1 in
  bits_set (bit 2) rir = false ∧ bits_set (bit 1) rir = false ∧ Z.land (Z.shiftr rir 21) 0x7FF = id.
Proof.
  intros Hid. set (P z := let rir := Z.lor (u32 (Z.shiftl (Z.land z 0x7FF) 21)) 1 in
    negb (bits_set (bit 2) rir) && negb (bits_set (bit 1) rir) && (Z.land (Z.shiftr rir 21) 0x7FF =? z)).
  assert (HP : P id = true) by (apply (forall_below P 2048); [by vm_compute|lia]).
  unfold P in HP. bools. done.
Qed.

(** The words [try_load_tx_mailbox] writes, for the mailbox at [base]. *)
Definition mailbox_writes (base : Z) (f : rcr_can_frame_t) : list bus_event :=
  [Wr (base + 0x00) (mailbox_id f); Wr (base + 0x04) RCR_CAN_V1_DLC; Wr (base + 0x08) (pack_word f 0);
   Wr (base + 0x0C) (pack_word f 4)].

(** A frame survives the registers: a standard data frame of eight bytes that a
    node loads into a transmit mailbox, whose request bit is set last, is what the
    receive interrupt of another node unpacks from the same words, with its own receive
    time; and a frame is only loaded when some mailbox is free. *)
Theorem mailbox_round_trip hw f now p :
  mcu_frame_wf f → mf_extended f = false → mf_rtr f = false → mf_dlc f = RCR_CAN_V1_DLC →
  unpack_frame (Z.lor (mailbox_id f) 1) RCR_CAN_V1_DLC (pack_word f 0) (pack_word f 4) now =
    f <| mf_receive_ms := now |> ∧
  let '(loaded, p') := try_load_tx_mailbox hw f p in
  loaded = bits_set (Z.lor (Z.lor (bit 26) (bit 27)) (bit 28)) (hw (pl_bus p) (CAN1_BASE + 0x08)) ∧
  (loaded = true → ∃ offset word,
     pl_bus p' = pl_bus p ++ [Rd (CAN1_BASE + 0x08)] ++ mailbox_writes (CAN1_BASE + 0x180 + offset) f ++
       [Rd (CAN1_BASE + 0x180 + offset); Wr (CAN1_BASE + 0x180 + offset) (Z.lor word 1)]) ∧
  (loaded = false → pl_bus p' = pl_bus p ++ [Rd (CAN1_BASE + 0x08)]).
Proof.
  intros (Hid & _ & Hlen & Hall & _) He Hr Hd. split.
  - destruct f as [id dlc data ext rtr ms]. cbn in *. subst. unfold unpack_frame, pack_word, mailbox_id, mcu_data.
    cbn [mf_can_id mf_data].
    destruct (mailbox_id_fields id Hid) as (H2 & H1 & H0). cbv zeta in *. rewrite H2, H1, H0.
    destruct data as [|b0 [|b1 [|b2 [|b3 [|b4 [|b5 [|b6 [|b7 [|]]]]]]]]]; try done.
    rewrite !Forall_cons in Hall. destruct Hall as (?&?&?&?&?&?&?&?&_).
    pose proof (unpack_packed b0 b1 b2 b3 ltac:(done) ltac:(done) ltac:(done) ltac:(done)) as Hl.
    pose proof (unpack_packed b4 b5 b6 b7 ltac:(done) ltac:(done) ltac:(done) ltac:(done)) as Hh.
    exact (f_equal2 (λ lo hi, mkMcuFrame id 8 (lo ++ hi) false false now) Hl Hh).
  - unfold try_load_tx_mailbox, p_bind, reg_read. set (tsr := hw (pl_bus p) (CAN1_BASE + 0x08)).
    assert (Hfree : bits_set (Z.lor (Z.lor (bit 26) (bit 27)) (bit 28)) tsr =
      bits_set (bit 26) tsr || bits_set (bit 27) tsr || bits_set (bit 28) tsr).
    { unfold bits_set. rewrite !Z.land_lor_distr_r.
      destruct (Z.eqb_spec (Z.land tsr (bit 26)) 0) as [->|], (Z.eqb_spec (Z.land tsr (bit 27)) 0) as [->|],
        (Z.eqb_spec (Z.land tsr (bit 28)) 0) as [->|]; cbn [negb orb]; rewrite ?Z.lor_0_l, ?Z.lor_0_r;
        try done; apply negb_true_iff, Z.eqb_neq; rewrite ?Z.lor_eq_0_iff; naive_solver. }
    rewrite Hfree. destruct (bits_set (bit 26) tsr); [|destruct (bits_set (bit 27) tsr); [|destruct (bits_set (bit 28) tsr)]];
      (split; [done|]; split; [|done]); try done;
      (intros _; eexists _, _; cbn; rewrite <- !app_assoc; cbn; reflexivity).
Qed.

Lemma mailbox_round_trip_witness :
  unpack_frame (Z.lor (mailbox_id demo_command_frame) 1) RCR_CAN_V1_DLC (pack_word demo_command_frame 0)
    (pack_word demo_command_frame 4) 9 = demo_command_frame <| mf_receive_ms := 9 |>.
Proof.
  apply (mailbox_round_trip (λ _ _, 0) demo_command_frame 9 (initial_platform [])); try done.
  split_and!; try done. by apply (bool_decide_unpack _).
Defined.
