(* ===== verification/McuMain.v ===== *)
(** * The firmware's main loop

    firmware/stm32f103/src/main.c: one turn of the loop around the node, the sensor, the
    queues and the outputs, and the program start.  Interrupts may run before every
    platform call. *)

From S2P Require Import Prelude Types CanV1 Ring McuCan McuNode McuInput McuPlatform.
Local Open Scope Z_scope.
#[local] Open Scope prog_scope.

Definition RCR_PERIOD_MS : Z := 100.

(** The variables of [main] that live across turns. *)
Record main_state := mkMain {
  ms_node : rcr_node_t;
  ms_next_heartbeat_ms : Z;
  ms_next_status_ms : Z;
  ms_applied_servo_pulse_us : Z;
  ms_bus_off_previous : bool;
  ms_position_debounce : rcr_input_debounce_t
}.

Section Main.
Context (hw : list bus_event → Z → Z).

(** A platform call, possibly interrupted just before. *)
Definition call {A} (m : Prog A) : Prog A := preempt hw;; m.

Definition enqueue_or_latch (node : rcr_node_t) (frame : rcr_can_frame_t) : Prog rcr_node_t :=
  queued <- call (rcr_platform_can_tx_enqueue frame);;
  p_ret (if negb queued then rcr_node_latch_internal_fault node else node).

Definition enqueue_periodic (frame : rcr_can_frame_t) : Prog () :=
  _ <- call (rcr_platform_can_tx_enqueue frame);; p_ret ().

Definition publish_heartbeat (node : rcr_node_t) : Prog rcr_node_t :=
  let '(node, heartbeat) := rcr_node_make_heartbeat node in
  match rcr_can_v1_encode_heartbeat heartbeat with
  | None => p_ret (rcr_node_latch_internal_fault node)
  | Some frame => enqueue_periodic frame;; p_ret node
  end.

Definition publish_status (node : rcr_node_t) : Prog rcr_node_t :=
  match rcr_can_v1_encode_node_status (rcr_node_make_status node) with
  | None => p_ret (rcr_node_latch_internal_fault node)
  | Some frame => enqueue_periodic frame;; p_ret node
  end.

(** The body of the receive loop. *)
Definition handle_received (received : rcr_can_frame_t) (node : rcr_node_t) : Prog rcr_node_t :=
  apply_ms <- call rcr_platform_millis;;
  let '(node, _, output_status) := rcr_node_on_frame received apply_ms node in
  match output_status with
  | None => p_ret node
  | Some output_status =>
      match rcr_can_v1_encode_output_status output_status with
      | Some response => enqueue_or_latch node response
      | None => p_ret (rcr_node_latch_internal_fault node)
      end
  end.

(** [while (rcr_platform_can_rx_pop(&received))]; [false]: out of turns. *)
Fixpoint receive_loop (turns : nat) (node : rcr_node_t) : Prog (rcr_node_t * bool) :=
  match turns with
  | O => p_ret (node, false)
  | S turns =>
      received <- call (rcr_platform_can_rx_pop hw);;
      match received with
      | None => p_ret (node, true)
      | Some received => node <- handle_received received node;; receive_loop turns node
      end
  end.

(** The frames the interrupts still to come can add. *)
Definition irq_frames (i : irq) : nat := match i with SysTick => 0 | CanRx => RX_TURNS end.
Definition frames_to_come (p : Platform) : nat := list_sum (map irq_frames (concat (pl_irqs p))).

(** Enough turns: the queue and everything that can still arrive. *)
Definition receive_all_frames (node : rcr_node_t) : Prog (rcr_node_t * bool) :=
  λ p, receive_loop (QUEUE_CAPACITY + frames_to_come p) node p.

(** [if (time_after_or_equal(now, next)) { publish; next += period; ... }] *)
Definition periodic (publish : rcr_node_t → Prog rcr_node_t) (now_ms next_ms : Z) (node : rcr_node_t)
    : Prog (rcr_node_t * Z) :=
  if time_after_or_equal now_ms next_ms then
    node <- publish node;;
    let next_ms := u32 (next_ms + RCR_PERIOD_MS) in
    p_ret (node, if time_after_or_equal now_ms next_ms then u32 (now_ms + RCR_PERIOD_MS) else next_ms)
  else p_ret (node, next_ms).

(** Everything before the outputs are driven. *)
Definition turn_inputs (s : main_state) : Prog (main_state * bool * Z) :=
  now_ms <- call rcr_platform_millis;;
  active <- call (rcr_platform_target_sensor_active hw);;
  let debounce := rcr_input_debounce_update active now_ms RCR_INPUT_DEBOUNCE_MS (ms_position_debounce s) in
  let node := mcu_set_input_bits (rcr_input_bits_from_reached (db_stable_reached debounce)) (ms_node s) in
  overflow <- call rcr_platform_take_rx_overflow;;
  let node := if (overflow : bool) then rcr_node_latch_internal_fault node else node in
  bus_off <- call (rcr_platform_can_bus_off hw);;
  let node := if negb (Bool.eqb bus_off (ms_bus_off_previous s))
              then rcr_node_set_bus_ready (negb bus_off) node else node in
  received <- receive_all_frames node;;
  let '(node, finished) := received in
  let '(node, _) := rcr_node_expire_lease now_ms node in
  heartbeat <- periodic publish_heartbeat now_ms (ms_next_heartbeat_ms s) node;;
  let '(node, next_heartbeat) := heartbeat in
  status <- periodic publish_status now_ms (ms_next_status_ms s) node;;
  let '(node, next_status) := status in
  p_ret (mkMain node next_heartbeat next_status (ms_applied_servo_pulse_us s) bus_off debounce,
         finished, now_ms).

(** Driving the outputs. *)
Definition turn_outputs (s : main_state) : Prog main_state :=
  let node := ms_node s in
  call (rcr_platform_set_output_led (negb (Z.land (mn_output_bits node) 1 =? 0)));;
  let target := rcr_servo_pwm_target_us (mn_lease_active node) (mn_output_bits node) in
  applied <- (if negb (target =? ms_applied_servo_pulse_us s)
              then call (rcr_platform_set_servo_pwm_us target);; p_ret target
              else p_ret (ms_applied_servo_pulse_us s));;
  call (rcr_platform_can_tx_pump hw);;
  call rcr_platform_watchdog_kick;;
  p_ret (mkMain node (ms_next_heartbeat_ms s) (ms_next_status_ms s) applied (ms_bus_off_previous s)
           (ms_position_debounce s)).

Definition main_turn (s : main_state) : Prog (main_state * bool * Z) :=
  inputs <- turn_inputs s;;
  let '(s, finished, now_ms) := inputs in
  s <- turn_outputs s;;
  p_ret (s, finished, now_ms).

(** [None]: the platform did not come up and the program stays in its idle loop. *)
Definition main_start : Prog (option main_state) :=
  up <- rcr_platform_init hw;;
  if negb up then p_ret None
  else
    session <- rcr_platform_next_session hw;;
    let '(session_id, identity_ready) := session in
    let node := rcr_node_init RCR_CAN_V1_NODE_ID session_id session_id identity_ready in
    call rcr_platform_watchdog_start;;
    next_heartbeat_ms <- call rcr_platform_millis;;
    p_ret (Some (mkMain node next_heartbeat_ms next_heartbeat_ms RCR_SERVO_PWM_DISABLED_US false
                   rcr_input_debounce_init)).

End Main.

(** ** The node's own invariant *)

(** No output without a lease, no lease without the interlock. *)
Definition mcu_inv (n : rcr_node_t) : Prop :=
  (mn_lease_active n = false → mn_output_bits n = 0) ∧
  (mn_lease_active n = true → rcr_node_interlock_ready n = true).

Lemma neutralize_inv n : mcu_inv (neutralize_output n).
Proof. done. Qed.

Lemma latch_inv n : mcu_inv (rcr_node_latch_internal_fault n).
Proof. done. Qed.

Lemma input_inv b n : mcu_inv n → mcu_inv (mcu_set_input_bits b n).
Proof. done. Qed.

Lemma bus_inv b n : mcu_inv n → mcu_inv (rcr_node_set_bus_ready b n).
Proof.
  intros [H1 H2]. destruct b; [|done]. split; cbn; [done|]. intros Hl. specialize (H2 Hl).
  unfold rcr_node_interlock_ready in *. cbn. by destruct (mn_identity_ready n), (mn_bus_ready n), (mn_fatal_latched n).
Qed.

Lemma expire_keeps now n :
  mcu_inv n →
  let n' := fst (rcr_node_expire_lease now n) in
  mcu_inv n' ∧ mn_fatal_latched n' = mn_fatal_latched n ∧
  (mn_lease_active n' = true → mn_lease_active n = true ∧ time_after_or_equal now (mn_lease_deadline_ms n') = false).
Proof.
  intros Hn. unfold rcr_node_expire_lease. destruct (mn_lease_active n) eqn:Hl; cbn [negb orb].
  - destruct (time_after_or_equal now (mn_lease_deadline_ms n)) eqn:Ht; cbn; done.
  - cbn. by rewrite Hl.
Qed.

Lemma apply_keeps cmd r now n :
  mcu_inv n →
  mcu_inv (fst (rcr_node_apply_command cmd r now n)) ∧
  mn_fatal_latched (fst (rcr_node_apply_command cmd r now n)) = mn_fatal_latched n.
Proof.
  intros Hn. destruct (expire_keeps now n Hn) as (Hi & Hf & _). unfold rcr_node_apply_command.
  destruct (rcr_node_expire_lease now n) as [n0 b]. cbn in Hi, Hf. cbv zeta.
  destruct (negb (_ =? _)); [done|]. destruct (negb (rcr_node_interlock_ready n0)) eqn:Hr; [done|].
  destruct (_ && _); [done|]. destruct (time_after_or_equal _ _); [done|]. cbn. split; [|done].
  split; cbn; [done|]. intros _. by apply negb_false_iff in Hr.
Qed.

Lemma on_frame_keeps f now n :
  mcu_inv n →
  mcu_inv (fst (fst (rcr_node_on_frame f now n))) ∧
  mn_fatal_latched (fst (fst (rcr_node_on_frame f now n))) = mn_fatal_latched n.
Proof.
  intros Hn. unfold rcr_node_on_frame. destruct (negb (_ =? _)); [done|].
  destruct (rcr_can_v1_decode_output_command f (mn_node_id n)) as [cmd|]; [|done].
  destruct (apply_keeps cmd (mf_receive_ms f) now n Hn). by destruct (rcr_node_apply_command _ _ _ n).
Qed.

(** ** The receive loop ends *)

(** No loop hangs, and the transmit queue's indices are in range. *)
Definition running (p : Platform) : Prop :=
  pl_hung p = false ∧ (pl_tx_head p < QUEUE_CAPACITY)%nat ∧ (pl_tx_tail p < QUEUE_CAPACITY)%nat.

(** The waiting frames and those that can still come number at most [n]. *)
Definition rx_bounded (n : nat) (p : Platform) : Prop :=
  running p ∧ ∃ q, rx_rep p q ∧ (length q + frames_to_come p ≤ n)%nat.

Definition keeps_rx {A} (m : Prog A) : Prop := ∀ n p, rx_bounded n p → rx_bounded n (snd (m p)).

Section KeepsRx.
Context (hw : list bus_event → Z → Z) {fifo : CanFifo hw}.

Lemma keeps_ret {A} (a : A) : keeps_rx (p_ret a).
Proof. by intros n p. Qed.
Lemma keeps_get {A} (f : Platform → A) : keeps_rx (p_get f).
Proof. by intros n p. Qed.
Lemma keeps_bind {A B} (m : Prog A) (k : A → Prog B) :
  keeps_rx m → (∀ a, keeps_rx (k a)) → keeps_rx (p_bind m k).
Proof.
  intros Hm Hk n p Hp. unfold p_bind. specialize (Hm n p Hp). destruct (m p) as [a p']. by apply Hk.
Qed.
Lemma keeps_set f :
  (∀ p, pl_irqs (f p) = pl_irqs p ∧ pl_rx_queue (f p) = pl_rx_queue p ∧ pl_rx_head (f p) = pl_rx_head p ∧
        pl_rx_tail (f p) = pl_rx_tail p ∧ (running p → running (f p))) → keeps_rx (p_set f).
Proof.
  intros Hf n p (Hrun & q & Hq & Hn). destruct (Hf p) as (H1 & H2 & H3 & H4 & H5). split; [by apply H5|]. exists q.
  unfold rx_rep, frames_to_come in *. cbn. by rewrite H1, H2, H3, H4.
Qed.
Lemma keeps_read a : keeps_rx (reg_read hw a).
Proof. intros n p (Hrun & q & Hq & Hn). split; [exact Hrun|by exists q]. Qed.
Lemma keeps_write a v : keeps_rx (reg_write a v).
Proof. intros n p (Hrun & q & Hq & Hn). split; [exact Hrun|by exists q]. Qed.

Lemma rx_rep_same p p' q :
  pl_rx_queue p' = pl_rx_queue p → pl_rx_head p' = pl_rx_head p → pl_rx_tail p' = pl_rx_tail p →
  rx_rep p q → rx_rep p' q.
Proof. intros H1 H2 H3. unfold rx_rep. by rewrite H1, H2, H3. Qed.

(** Frames pushed by one interrupt: the queue only grows at its end. *)
Lemma can_rx_irq_rep k q p :
  rx_rep p q →
  ∃ extra, rx_rep (snd (can_rx_irq hw k p)) (q ++ extra) ∧ (length extra ≤ k)%nat ∧
    pl_irqs (snd (can_rx_irq hw k p)) = pl_irqs p.
Proof.
  revert q p. induction k as [|k IH]; intros q p Hq; [exists []; by rewrite app_nil_r|].
  pose proof (can_rx_irq_turn (hw := hw) k p) as Ht. destruct (_ =? 0).
  { rewrite Ht. exists []. rewrite app_nil_r. split_and!; [exact Hq|cbn; lia|done]. }
  destruct Ht as (fr & ->). generalize (pl_bus p ++ take 5 rx_turn) (pl_bus p ++ rx_turn). intros bus bus'.
  pose proof (rx_push_rep (p <| pl_bus := bus |>) q fr Hq) as Hpush. destruct (length q =? 7)%nat.
  - rewrite Hpush. destruct (IH q (p <| pl_bus := bus |> <| pl_rx_overflow := true |> <| pl_bus := bus' |>))
      as (extra & He & Hl & Hi); [by apply (rx_rep_same p)|]. exists extra. split_and!; [exact He|lia|exact Hi].
  - destruct Hpush as (Hp & _ & _).
    destruct (IH (q ++ [fr]) (rx_push fr (p <| pl_bus := bus |>) <| pl_bus := bus' |>)) as (extra & He & Hl & Hi);
      [by eapply rx_rep_same|].
    exists (fr :: extra). rewrite cons_middle, app_assoc. split_and!; [exact He|cbn; lia|].
    rewrite Hi. cbn. unfold rx_push. by destruct (_ =? _)%nat.
Qed.

(** The handlers leave the transmit queue alone and end. *)
Lemma can_rx_irq_tx k : ∀ p,
  pl_tx_head (snd (can_rx_irq hw k p)) = pl_tx_head p ∧ pl_tx_tail (snd (can_rx_irq hw k p)) = pl_tx_tail p.
Proof.
  induction k as [|k IH]; intros p; [done|]. pose proof (can_rx_irq_turn (hw := hw) k p) as Ht. destruct (_ =? 0); [by rewrite Ht|].
  destruct Ht as (fr & ->). destruct (IH (rx_push fr (p <| pl_bus := pl_bus p ++ take 5 rx_turn |>) <| pl_bus := pl_bus p ++ rx_turn |>))
    as [-> ->]. unfold rx_push. by destruct (_ =? _)%nat.
Qed.

Lemma run_irq_running i p : running p → running (snd (run_irq hw i p)).
Proof.
  intros Hr. unfold run_irq, p_bind, take_irq, p_set. destruct i; [exact Hr|].
  set (p1 := p <| pl_bus ::= _ |>). unfold running.
  rewrite (rx_interrupt_ends (pl_bus p)) by done. destruct (can_rx_irq_tx RX_TURNS p1) as [-> ->]. exact Hr.
Qed.

Lemma run_irqs_rep pending q p :
  rx_rep p q →
  ∃ extra, rx_rep (snd (run_irqs hw pending p)) (q ++ extra) ∧
    (length extra ≤ list_sum (map irq_frames pending))%nat ∧ pl_irqs (snd (run_irqs hw pending p)) = pl_irqs p.
Proof.
  revert q p. induction pending as [|i pending IH]; intros q p Hq; [exists []; by rewrite app_nil_r|].
  cbn [run_irqs]. unfold p_bind.
  assert (H1 : ∃ extra, rx_rep (snd (run_irq hw i p)) (q ++ extra) ∧ (length extra ≤ irq_frames i)%nat ∧
    pl_irqs (snd (run_irq hw i p)) = pl_irqs p).
  { unfold run_irq, p_bind, take_irq, p_set. destruct i; [exists []; by rewrite app_nil_r|].
    exact (can_rx_irq_rep RX_TURNS q (p <| pl_bus ::= λ t, t ++ [Irq] |>) Hq). }
  destruct H1 as (e1 & He1 & Hl1 & Hi1). destruct (run_irq hw i p) as [[] p1]. cbn [snd] in *.
  destruct (IH (q ++ e1) p1 He1) as (e2 & He2 & Hl2 & Hi2). exists (e1 ++ e2). rewrite app_assoc, length_app.
  change (list_sum (map irq_frames (i :: pending))) with (irq_frames i + list_sum (map irq_frames pending))%nat.
  split_and!; [done|lia|congruence].
Qed.

Lemma preempt_rep q p :
  rx_rep p q →
  ∃ extra, rx_rep (snd (preempt hw p)) (q ++ extra) ∧
    (length extra + frames_to_come (snd (preempt hw p)) ≤ frames_to_come p)%nat.
Proof.
  intros Hq. unfold preempt. destruct (pl_irqs p) as [|pending rest] eqn:Hi.
  - exists []. by rewrite app_nil_r.
  - destruct (run_irqs_rep pending q (p <| pl_irqs := rest |>)) as (extra & He & Hl & Hr); [exact Hq|].
    exists extra. split; [done|]. unfold frames_to_come. rewrite Hr, Hi.
    change (pl_irqs (p <| pl_irqs := rest |>)) with rest. cbn [concat]. rewrite map_app, list_sum_app. lia.
Qed.

Lemma preempt_running p : running p → running (snd (preempt hw p)).
Proof.
  intros Hr. unfold preempt. destruct (pl_irqs p) as [|pending rest]; [done|].
  assert (Hp : running (p <| pl_irqs := rest |>)) by exact Hr. revert Hp. generalize (p <| pl_irqs := rest |>).
  induction pending as [|i pending IH]; intros p1 H1; [done|]. cbn [run_irqs]. unfold p_bind.
  apply (run_irq_running i) in H1. destruct (run_irq hw i p1) as [[] p2]. by apply IH.
Qed.

Lemma keeps_preempt : keeps_rx (preempt hw).
Proof.
  intros n p (Hrun & q & Hq & Hn). destruct (preempt_rep q p Hq) as (extra & He & Hl).
  split; [by apply preempt_running|]. exists (q ++ extra). split; [done|]. rewrite length_app. lia.
Qed.

Lemma keeps_call {A} (m : Prog A) : keeps_rx m → keeps_rx (call hw m).
Proof. intros Hm. apply keeps_bind; [apply keeps_preempt|done]. Qed.

Lemma pop_bounded n p :
  rx_bounded n p →
  match rcr_platform_can_rx_pop hw p with
  | (None, p') => rx_bounded n p'
  | (Some _, p') => (0 < n)%nat ∧ rx_bounded (n - 1) p'
  end.
Proof.
  intros (Hrun & q & Hq & Hn). unfold rcr_platform_can_rx_pop, p_bind, p_get, p_set.
  destruct q as [|x q]; [rewrite (rx_empty_rep p Hq); split; [exact Hrun|by exists []]|].
  destruct (rx_pop_rep p x q Hq) as (He & _ & _). rewrite He. cbn [length] in Hn.
  destruct (preempt_rep (x :: q) p Hq) as (extra & Hx & Hl). apply preempt_running in Hrun.
  destruct (preempt hw p) as [[] p1]. cbn [snd p_ret] in *.
  split; [lia|]. destruct (rx_pop_rep p1 x (q ++ extra) Hx) as (_ & _ & Ha). split; [exact Hrun|]. exists (q ++ extra). split; [done|].
  change (frames_to_come (rx_advance p1)) with (frames_to_come p1). rewrite length_app. lia.
Qed.
End KeepsRx.

Ltac keeps_step :=
  match goal with
  | |- keeps_rx (p_bind _ _) => apply keeps_bind; [|intros ?]
  | |- keeps_rx (p_ret _) => apply keeps_ret
  | |- keeps_rx (p_get _) => apply keeps_get
  | |- keeps_rx (p_set _) => apply keeps_set; [by intros []]
  | |- keeps_rx (reg_read _ _) => apply keeps_read
  | |- keeps_rx (reg_write _ _) => apply keeps_write
  | |- keeps_rx (reg_or _ _ _) => unfold reg_or
  | |- keeps_rx (call _ _) => apply keeps_call
  | |- CanFifo _ => assumption
  | |- keeps_rx (if ?b then _ else _) => destruct b
  | |- keeps_rx (let '(_, _) := ?x in _) => destruct x as [? ?]
  | |- keeps_rx (match ?x with _ => _ end) => destruct x
  end.

(** ** One turn *)

Section Turn.
Context (hw : list bus_event → Z → Z) {fifo : CanFifo hw}.

Lemma queue_next_lt i : (queue_next i < QUEUE_CAPACITY)%nat.
Proof. apply Nat.mod_upper_bound. done. Qed.

Lemma keeps_enqueue f : keeps_rx (rcr_platform_can_tx_enqueue f).
Proof.
  unfold rcr_platform_can_tx_enqueue. destruct (_ || _); [apply keeps_ret|]. apply keeps_bind; [apply keeps_get|intros full].
  destruct full; [apply keeps_ret|]. apply keeps_bind; [|intros; apply keeps_ret]. apply keeps_set. intros p.
  split_and!; try done. intros (Hh & _ & Ht). split_and!; [done|apply queue_next_lt|done].
Qed.

Lemma keeps_handle f node : keeps_rx (handle_received hw f node).
Proof.
  unfold handle_received, enqueue_or_latch, rcr_platform_millis.
  repeat first [apply keeps_enqueue | keeps_step].
Qed.

Lemma keeps_periodic publish now next node :
  (∀ n, keeps_rx (publish n)) → keeps_rx (periodic publish now next node).
Proof. intros Hp. unfold periodic. repeat first [apply Hp | keeps_step]. Qed.

Lemma keeps_heartbeat node : keeps_rx (publish_heartbeat hw node).
Proof.
  unfold publish_heartbeat, rcr_node_make_heartbeat, enqueue_periodic.
  repeat first [apply keeps_enqueue | keeps_step].
Qed.

Lemma keeps_status node : keeps_rx (publish_status hw node).
Proof. unfold publish_status, enqueue_periodic. repeat first [apply keeps_enqueue | keeps_step]. Qed.

(** Every frame handled is one less to come. *)
Lemma receive_loop_ends turns n node p :
  rx_bounded n p → (n < turns)%nat →
  snd (fst (receive_loop hw turns node p)) = true ∧ rx_bounded n (snd (receive_loop hw turns node p)).
Proof.
  revert n node p. induction turns as [|turns IH]; intros n node p Hp Hn; [lia|].
  cbn [receive_loop]. unfold p_bind at 1 2 3 4, call. unfold p_bind.
  pose proof (keeps_preempt hw n p Hp) as Hp1. destruct (preempt hw p) as [[] p1].
  pose proof (pop_bounded hw n p1 Hp1) as Hpop. destruct (rcr_platform_can_rx_pop hw p1) as [[f|] p2]; [|done].
  destruct Hpop as [H0 Hp2]. pose proof (keeps_handle f node _ p2 Hp2) as Hp3.
  destruct (handle_received hw f node p2) as [node' p3]. cbn [snd] in Hp3.
  destruct (IH (n - 1)%nat node' p3 Hp3) as [Hf Hb]; [lia|]. split; [done|].
  destruct Hb as (Hrun & q & Hq & Hl). split; [done|]. exists q. split; [done|lia].
Qed.

Lemma receive_all_ends n node p :
  rx_bounded n p →
  snd (fst (receive_all_frames hw node p)) = true ∧ rx_bounded n (snd (receive_all_frames hw node p)).
Proof.
  intros (Hrun & q & Hq & Hn). unfold receive_all_frames. pose proof Hq as (_ & Hlt & _).
  assert (Hp : rx_bounded (length q + frames_to_come p) p) by (split; [done|by exists q]).
  destruct (receive_loop_ends (QUEUE_CAPACITY + frames_to_come p) _ node p Hp) as [Hf (Hrun' & q' & Hq' & Hl)]; [lia|].
  split; [done|]. split; [done|]. exists q'. split; [done|lia].
Qed.

(** *** Accesses *)

Lemma irq_untouched i : emits untouched (run_irq hw i).
Proof.
  unfold run_irq. apply emits_bind; [by apply emits_irq|intros _].
  destruct i; [unfold SysTick_Handler; by repeat emits_step|].
  induction RX_TURNS as [|k IH]; cbn; [unfold p_hang; by emits_step|].
  repeat first [apply IH | emits_step | apply emits_set; intros q; unfold rx_push; by destruct (_ =? _)%nat];
    done.
Qed.

Lemma preempt_untouched : emits untouched (preempt hw).
Proof.
  assert (Hirqs : ∀ pending, emits untouched (run_irqs hw pending)).
  { induction pending; cbn; repeat first [apply irq_untouched | assumption | emits_step]. }
  intros p. unfold preempt. destruct (pl_irqs p) as [|pending rest]; [exists []; by rewrite app_nil_r|].
  destruct (Hirqs pending (p <| pl_irqs := rest |>)) as (evs & He & Hf). exists evs. by rewrite He.
Qed.

Lemma call_untouched {A} (m : Prog A) : emits untouched m → emits untouched (call hw m).
Proof. intros Hm. apply emits_bind; [apply preempt_untouched|done]. Qed.

Lemma enqueue_untouched f : emits untouched (rcr_platform_can_tx_enqueue f).
Proof. unfold rcr_platform_can_tx_enqueue. by repeat emits_step. Qed.

Lemma pop_untouched : emits untouched (rcr_platform_can_rx_pop hw).
Proof. unfold rcr_platform_can_rx_pop. by repeat first [apply preempt_untouched | emits_step]. Qed.

Lemma handle_untouched f node : emits untouched (handle_received hw f node).
Proof.
  unfold handle_received, enqueue_or_latch, rcr_platform_millis.
  by repeat first [apply call_untouched | apply enqueue_untouched | emits_step].
Qed.

Lemma receive_loop_untouched turns node : emits untouched (receive_loop hw turns node).
Proof.
  revert node. induction turns as [|turns IH]; intros node; cbn; [apply emits_ret|].
  by repeat first [apply IH | apply call_untouched | apply pop_untouched | apply handle_untouched | emits_step].
Qed.

Lemma publish_untouched node : emits untouched (publish_heartbeat hw node) ∧ emits untouched (publish_status hw node).
Proof.
  unfold publish_heartbeat, publish_status, rcr_node_make_heartbeat, enqueue_periodic.
  by split; repeat first [apply call_untouched | apply enqueue_untouched | emits_step].
Qed.

Lemma receive_all_untouched node : emits untouched (receive_all_frames hw node).
Proof. intros p. apply receive_loop_untouched. Qed.

Lemma turn_inputs_untouched s : emits untouched (turn_inputs hw s).
Proof.
  unfold turn_inputs, rcr_platform_millis, rcr_platform_target_sensor_active, rcr_platform_target_sensor_raw_high,
    rcr_platform_take_rx_overflow, rcr_platform_can_bus_off, periodic.
  by repeat first [apply call_untouched | apply receive_all_untouched | apply (proj1 (publish_untouched _))
                  | apply (proj2 (publish_untouched _)) | emits_step].
Qed.

Lemma pump_untouched turns : emits untouched (tx_pump hw turns).
Proof.
  induction turns as [|turns IH]; cbn; [unfold p_hang; by emits_step|]. unfold try_load_tx_mailbox.
  repeat first [apply IH | emits_step]; try done; by split_and!.
Qed.
End Turn.

(** *** Results *)

(** Whatever the state, the result satisfies [Q]. *)
Definition yields {A} (m : Prog A) (Q : A → Prop) : Prop := ∀ p, Q (fst (m p)).

Lemma yields_ret {A} (a : A) (Q : A → Prop) : Q a → yields (p_ret a) Q.
Proof. by intros ? p. Qed.
Lemma yields_bind {A B} (m : Prog A) (k : A → Prog B) (Q1 : A → Prop) (Q2 : B → Prop) :
  yields m Q1 → (∀ a, Q1 a → yields (k a) Q2) → yields (p_bind m k) Q2.
Proof. intros Hm Hk p. unfold p_bind. specialize (Hm p). destruct (m p) as [a p']. by apply Hk. Qed.
Lemma yields_any {A B} (m : Prog A) (k : A → Prog B) (Q : B → Prop) :
  (∀ a, yields (k a) Q) → yields (p_bind m k) Q.
Proof. intros Hk. apply (yields_bind _ _ (λ _, True)); [by intros ?|auto]. Qed.

(** What the node keeps through a turn: its invariant, a latched fault, the bus state. *)
Definition node_keeps (fatal : bool) (bus : bool) (n : rcr_node_t) : Prop :=
  mcu_inv n ∧ (fatal = true → mn_fatal_latched n = true) ∧ mn_bus_ready n = bus.

Lemma latch_keeps fatal bus n : node_keeps fatal bus n → node_keeps true bus (rcr_node_latch_internal_fault n).
Proof. intros (_ & _ & Hb). by split_and!. Qed.

Lemma keeps_fatal_weaken fatal bus n : node_keeps true bus n → node_keeps fatal bus n.
Proof. intros (? & Hf & ?). split_and!; auto. Qed.

Lemma apply_bus cmd r now n : mn_bus_ready (fst (rcr_node_apply_command cmd r now n)) = mn_bus_ready n.
Proof.
  assert (He : mn_bus_ready (fst (rcr_node_expire_lease now n)) = mn_bus_ready n)
    by (unfold rcr_node_expire_lease; by destruct (_ || _)).
  unfold rcr_node_apply_command. destruct (rcr_node_expire_lease now n) as [n0 b]. cbn in He. cbv zeta.
  by repeat (match goal with |- context [if ?c then _ else _] => destruct c end; try done).
Qed.

Lemma on_frame_bus f now n : mn_bus_ready (fst (fst (rcr_node_on_frame f now n))) = mn_bus_ready n.
Proof.
  unfold rcr_node_on_frame. destruct (negb (_ =? _)); [done|].
  destruct (rcr_can_v1_decode_output_command f (mn_node_id n)) as [cmd|]; [|done].
  pose proof (apply_bus cmd (mf_receive_ms f) now n). by destruct (rcr_node_apply_command _ _ _ n).
Qed.

Section TurnNode.
Context (hw : list bus_event → Z → Z) (fatal bus : bool).

Lemma handle_yields f n : node_keeps fatal bus n → yields (handle_received hw f n) (node_keeps fatal bus).
Proof.
  intros (Hi & Hf & Hb). apply yields_any. intros now.
  destruct (on_frame_keeps f now n Hi) as [Hi' Hf']. pose proof (on_frame_bus f now n) as Hb'.
  destruct (rcr_node_on_frame f now n) as [[n' r] st]. cbn in *.
  assert (Hk : node_keeps fatal bus n') by (split_and!; [done|intros H; rewrite Hf'; auto|congruence]).
  destruct st as [st|]; [|by apply yields_ret].
  destruct (rcr_can_v1_encode_output_status st) as [response|]; [|by eapply yields_ret, keeps_fatal_weaken, latch_keeps].
  apply yields_any. intros queued. apply yields_ret. destruct queued; [done|]. by eapply keeps_fatal_weaken, latch_keeps.
Qed.

Lemma receive_yields turns n :
  node_keeps fatal bus n → yields (receive_loop hw turns n) (λ r, node_keeps fatal bus (fst r)).
Proof.
  revert n. induction turns as [|turns IH]; intros n Hn; cbn; [by apply yields_ret|].
  apply yields_any. intros [f|]; [|by apply yields_ret].
  eapply yields_bind; [by apply handle_yields|]. auto.
Qed.

Lemma receive_all_yields n :
  node_keeps fatal bus n → yields (receive_all_frames hw n) (λ r, node_keeps fatal bus (fst r)).
Proof. intros Hn p. by apply receive_yields. Qed.

(** After the lease check at [now]. *)
Definition checked (now : Z) (n : rcr_node_t) : Prop :=
  node_keeps fatal bus n ∧
  (mn_lease_active n = true → time_after_or_equal now (mn_lease_deadline_ms n) = false).

Lemma expire_checked now n : node_keeps fatal bus n → checked now (fst (rcr_node_expire_lease now n)).
Proof.
  intros (Hi & Hf & Hb). destruct (expire_keeps now n Hi) as (Hi' & Hf' & Hl). split; [|intros Hx; by apply Hl].
  split_and!; [done|rewrite Hf'; auto|]. unfold rcr_node_expire_lease. by destruct (_ || _); exact Hb.
Qed.

Lemma latch_checked now n : checked now n → checked now (rcr_node_latch_internal_fault n).
Proof. intros [Hk _]. split; [|done]. by eapply keeps_fatal_weaken, latch_keeps. Qed.

Lemma publish_checked now n :
  checked now n →
  yields (publish_heartbeat hw n) (checked now) ∧ yields (publish_status hw n) (checked now).
Proof.
  intros Hn. unfold publish_heartbeat, publish_status, rcr_node_make_heartbeat. split.
  - destruct (rcr_can_v1_encode_heartbeat _); [apply yields_any; intros _|]; apply yields_ret; [exact Hn|].
    exact (latch_checked now n Hn).
  - destruct (rcr_can_v1_encode_node_status _); [apply yields_any; intros _|]; apply yields_ret; [exact Hn|].
    by apply latch_checked.
Qed.

Lemma periodic_checked publish now next n :
  (∀ n, checked now n → yields (publish n) (checked now)) → checked now n →
  yields (periodic publish now next n) (λ r, checked now (fst r)).
Proof.
  intros Hp Hn. unfold periodic. destruct (time_after_or_equal now next); [|by apply yields_ret].
  eapply yields_bind; [by apply Hp|]. intros n' Hn'. by apply yields_ret.
Qed.
End TurnNode.

Lemma turn_inputs_yields hw s :
  node_keeps false (negb (ms_bus_off_previous s)) (ms_node s) →
  yields (turn_inputs hw s) (λ '(s', finished, now),
    checked (mn_fatal_latched (ms_node s)) (negb (ms_bus_off_previous s')) now (ms_node s') ∧
    ms_applied_servo_pulse_us s' = ms_applied_servo_pulse_us s).
Proof.
  intros (Hi & _ & Hb). unfold turn_inputs.
  apply yields_any; intros now. apply yields_any; intros active. apply yields_any; intros overflow.
  apply yields_any; intros bus_off. cbv zeta.
  match goal with |- yields (p_bind (receive_all_frames hw ?n) _) _ => set (n2 := n) end.
  assert (Hn : node_keeps (mn_fatal_latched (ms_node s)) (negb bus_off) n2).
  { unfold n2. set (n1 := if overflow : bool then _ else _).
    assert (H1 : mcu_inv n1 ∧ (mn_fatal_latched (ms_node s) = true → mn_fatal_latched n1 = true) ∧
      mn_bus_ready n1 = negb (ms_bus_off_previous s)) by (unfold n1; by destruct overflow).
    clearbody n1. destruct H1 as (Hi1 & Hf1 & Hb1). destruct (Bool.eqb bus_off (ms_bus_off_previous s)) eqn:He; cbn [negb].
    - apply eqb_prop in He as ->. by split_and!.
    - split_and!; [by apply bus_inv|by destruct bus_off|by destruct bus_off]. }
  eapply yields_bind; [apply (receive_all_yields hw _ _ _ Hn)|]. intros [n3 finished] Hn3. cbn [fst] in Hn3.
  pose proof (expire_checked _ _ now n3 Hn3) as Hn4. destruct (rcr_node_expire_lease now n3) as [n4 b]. cbn [fst] in Hn4.
  eapply yields_bind; [apply periodic_checked; [intros n Hn'; by apply publish_checked|exact Hn4]|].
  intros [n5 next5] Hn5. cbn [fst] in Hn5.
  eapply yields_bind; [apply periodic_checked; [intros n Hn'; by apply publish_checked|exact Hn5]|].
  intros [n6 next6] Hn6. cbn [fst] in Hn6. by apply yields_ret.
Qed.

(** The outputs of a turn, in terms of the node's final state. *)
Definition led_bit (n : rcr_node_t) : bool := negb (Z.land (mn_output_bits n) 1 =? 0).
Definition servo_target (n : rcr_node_t) : Z := rcr_servo_pwm_target_us (mn_lease_active n) (mn_output_bits n).

Lemma servo_target_legal n :
  servo_target n = RCR_SERVO_PWM_DISABLED_US ∨ servo_target n = RCR_SERVO_POSITION_A_US ∨
  servo_target n = RCR_SERVO_POSITION_B_US.
Proof.
  unfold servo_target, rcr_servo_pwm_target_us. destruct (mn_lease_active n); cbn; [|by left].
  destruct (negb _); auto.
Qed.

(** The accesses of a run, together with its result. *)
Definition does {A} (m : Prog A) (R : A → list bus_event → Prop) : Prop :=
  ∀ p, ∃ evs, pl_bus (snd (m p)) = pl_bus p ++ evs ∧ R (fst (m p)) evs.

Lemma does_bind {A B} (m : Prog A) (k : A → Prog B) (R1 : A → list bus_event → Prop) (R2 : B → list bus_event → Prop) :
  does m R1 → (∀ a e1, R1 a e1 → does (k a) (λ b e2, R2 b (e1 ++ e2))) → does (p_bind m k) R2.
Proof.
  intros Hm Hk p. unfold p_bind. destruct (Hm p) as (e1 & He1 & H1). destruct (m p) as [a p1]. cbn in *.
  destruct (Hk a e1 H1 p1) as (e2 & He2 & H2). exists (e1 ++ e2). split; [by rewrite He2, He1, app_assoc|done].
Qed.

Lemma does_ret {A} (a : A) (R : A → list bus_event → Prop) : R a [] → does (p_ret a) R.
Proof. intros HR p. exists []. cbn. by rewrite app_nil_r. Qed.

Lemma emits_does {A} P (m : Prog A) : emits P m → does m (λ _ evs, Forall P evs).
Proof. done. Qed.

Lemma does_write hw a v : does (call hw (reg_write a v)) (λ _ evs, ∃ pre, evs = pre ++ [Wr a v] ∧ Forall untouched pre).
Proof.
  eapply does_bind; [apply emits_does, preempt_untouched|]. intros [] pre Hpre p. exists [Wr a v]. split; [done|].
  by exists pre.
Qed.

(** Driving the outputs: the LED always, the servo when its target changed. *)
Lemma turn_outputs_does hw s :
  does (turn_outputs hw s) (λ s' evs,
    let n := ms_node s in
    ms_node s' = n ∧ ms_bus_off_previous s' = ms_bus_off_previous s ∧
    ms_applied_servo_pulse_us s' = servo_target n ∧
    ∃ pre mid post,
      evs = pre ++ [Wr (if led_bit n then LED_ON else LED_OFF) (bit 13)] ++ mid ++
        (if servo_target n =? ms_applied_servo_pulse_us s then [] else [Wr SERVO_PULSE (servo_target n)]) ++ post ∧
      Forall untouched pre ∧ Forall untouched mid ∧ Forall untouched post).
Proof.
  unfold turn_outputs. cbv zeta. fold (led_bit (ms_node s)) (servo_target (ms_node s)).
  eapply does_bind.
  { assert (rcr_platform_set_output_led (led_bit (ms_node s)) =
      reg_write (if led_bit (ms_node s) then LED_ON else LED_OFF) (bit 13)) as -> by (by destruct (led_bit (ms_node s))).
    apply does_write. }
  intros [] e1 (pre & -> & Hpre).
  apply (does_bind _ _ (λ applied evs, applied = servo_target (ms_node s) ∧ ∃ mid, Forall untouched mid ∧
    evs = mid ++ (if servo_target (ms_node s) =? ms_applied_servo_pulse_us s then [] else [Wr SERVO_PULSE (servo_target (ms_node s))]))).
  { destruct (Z.eqb_spec (servo_target (ms_node s)) (ms_applied_servo_pulse_us s)) as [He|He]; cbn [negb].
    - apply does_ret. split; [done|]. by exists [].
    - eapply does_bind.
      { assert (rcr_platform_set_servo_pwm_us (servo_target (ms_node s)) = reg_write SERVO_PULSE (servo_target (ms_node s)))
          as -> by (by destruct (servo_target_legal (ms_node s)) as [->|[->| ->]]).
        apply does_write. }
      intros [] evs (mid & -> & Hmid). apply does_ret. split; [done|]. exists mid. by rewrite app_nil_r. }
  intros applied e2 (-> & mid & Hmid & ->).
  eapply does_bind; [apply emits_does, call_untouched, pump_untouched|]. intros [] e3 H3.
  eapply does_bind; [apply does_write|]. intros [] e4 (pre4 & -> & H4). apply does_ret. cbn.
  split_and!; try done. exists pre, mid, (e3 ++ pre4 ++ [Wr (IWDG_BASE + 0) 43690]).
  rewrite app_nil_r, <- !app_assoc. cbn. split_and!; try done. rewrite !Forall_app. split_and!; try done.
  by repeat constructor.
Qed.

(** A result that depends on the queue being well formed. *)
Definition runs_rx {A} (m : Prog A) (Q : A → Prop) : Prop :=
  ∀ n p, rx_bounded n p → Q (fst (m p)) ∧ rx_bounded n (snd (m p)).

Lemma runs_rx_bind {A B} (m : Prog A) (k : A → Prog B) (Q1 : A → Prop) (Q2 : B → Prop) :
  runs_rx m Q1 → (∀ a, Q1 a → runs_rx (k a) Q2) → runs_rx (p_bind m k) Q2.
Proof.
  intros Hm Hk n p Hp. unfold p_bind. destruct (Hm n p Hp) as [H1 Hp1]. destruct (m p) as [a p1]. by apply Hk.
Qed.
Lemma runs_rx_keeps {A B} (m : Prog A) (k : A → Prog B) (Q : B → Prop) :
  keeps_rx m → (∀ a, runs_rx (k a) Q) → runs_rx (p_bind m k) Q.
Proof. intros Hm Hk. apply (runs_rx_bind _ _ (λ _, True)); [by split; [|apply Hm]|auto]. Qed.

Lemma turn_inputs_finishes hw {fifo : CanFifo hw} s : runs_rx (turn_inputs hw s) (λ '(_, finished, _), finished = true).
Proof.
  unfold turn_inputs. apply runs_rx_keeps; [repeat keeps_step; apply keeps_get|intros now].
  apply runs_rx_keeps; [unfold rcr_platform_target_sensor_active, rcr_platform_target_sensor_raw_high; repeat keeps_step|intros active].
  apply runs_rx_keeps; [unfold rcr_platform_take_rx_overflow; repeat keeps_step|intros overflow].
  apply runs_rx_keeps; [unfold rcr_platform_can_bus_off; repeat keeps_step|intros bus_off]. cbv zeta.
  apply (runs_rx_bind _ _ (λ r, snd r = true)).
  { intros n p Hp. by apply receive_all_ends. }
  intros [n3 finished] Hf. cbn in Hf. subst finished. destruct (rcr_node_expire_lease now n3) as [n4 b].
  apply runs_rx_keeps; [by apply keeps_periodic; intros; apply keeps_heartbeat|intros [n5 next5]].
  apply runs_rx_keeps; [by apply keeps_periodic; intros; apply keeps_status|intros [n6 next6]].
  by intros n p Hp.
Qed.

(** Loading a mailbox is register accesses only. *)
Lemma load_mailbox_bus hw f p : ∃ bus, snd (try_load_tx_mailbox hw f p) = p <| pl_bus := bus |>.
Proof.
  unfold try_load_tx_mailbox, reg_or, reg_read, reg_write, p_bind, p_ret. destruct p as [bus].
  repeat match goal with |- context [if ?b then _ else _] => destruct b end; by eexists.
Qed.

(** The frames in the transmit queue. *)
Definition tx_waiting (p : Platform) : nat := (pl_tx_head p + QUEUE_CAPACITY - pl_tx_tail p) mod QUEUE_CAPACITY.

Lemma tx_waiting_next p :
  running p → (pl_tx_tail p =? pl_tx_head p)%nat = false →
  tx_waiting p = S (tx_waiting (p <| pl_tx_tail ::= queue_next |>)).
Proof.
  intros (_ & Hh & Ht) Hne%Nat.eqb_neq. unfold tx_waiting, queue_next, QUEUE_CAPACITY in *. cbn -[Nat.modulo].
  set (h := pl_tx_head p) in *. set (t := pl_tx_tail p) in *. clearbody h t.
  do 8 (destruct h as [|h]; [do 8 (destruct t as [|t]; [first [done|lia]|]); lia|]); lia.
Qed.

(** The pump empties the queue, or stops when no mailbox is free. *)
Lemma keeps_pump hw turns : ∀ n p,
  rx_bounded n p → (tx_waiting p < turns)%nat → rx_bounded n (snd (tx_pump hw turns p)).
Proof.
  induction turns as [|turns IH]; intros n p Hp Hw; [lia|]. cbn [tx_pump]. unfold p_bind at 1, p_get at 1.
  destruct (pl_tx_tail p =? pl_tx_head p)%nat eqn:He; [exact Hp|]. unfold p_bind at 1, p_get at 1. unfold p_bind at 1.
  destruct (load_mailbox_bus hw (default zero_frame (pl_tx_queue p !! pl_tx_tail p)) p) as [bus Hb].
  destruct (try_load_tx_mailbox _ _ _) as [loaded p1]. cbn [snd] in Hb. subst p1.
  assert (H1 : rx_bounded n (p <| pl_bus := bus |>)) by (destruct Hp as (? & q & Hq & Hn); split; [done|by exists q]).
  destruct loaded; cbn [negb]; [|exact H1]. unfold p_bind, p_set. pose proof (tx_waiting_next p (proj1 Hp) He) as Hnext.
  apply IH; [|unfold tx_waiting in *; cbn -[Nat.modulo] in *; lia].
  destruct H1 as ((Hh & Hhd & _) & q & Hq & Hn). split; [split_and!; [done|done|apply queue_next_lt]|by exists q].
Qed.

Lemma turn_outputs_keeps hw {fifo : CanFifo hw} s : keeps_rx (turn_outputs hw s).
Proof.
  unfold turn_outputs, rcr_platform_set_output_led, rcr_platform_set_servo_pwm_us, rcr_platform_can_tx_pump, rcr_platform_watchdog_kick.
  assert (Hpump : keeps_rx (tx_pump hw QUEUE_CAPACITY)).
  { intros n p Hp. apply keeps_pump; [done|]. apply Nat.mod_upper_bound. done. }
  repeat first [apply Hpump | keeps_step].
Qed.

(** What holds between turns. *)
Definition main_inv (s : main_state) (p : Platform) : Prop :=
  mcu_inv (ms_node s) ∧ mn_bus_ready (ms_node s) = negb (ms_bus_off_previous s) ∧ running p ∧ ∃ q, rx_rep p q.

Lemma main_turn_spec hw {fifo : CanFifo hw} s p :
  main_inv s p →
  let '(s', finished, now, p') := main_turn hw s p in
  let n := ms_node s' in
  finished = true ∧ main_inv s' p' ∧
  ms_applied_servo_pulse_us s' = servo_target n ∧
  (servo_target n ≠ RCR_SERVO_PWM_DISABLED_US ∨ led_bit n = true →
   mn_lease_active n = true ∧ time_after_or_equal now (mn_lease_deadline_ms n) = false ∧
   rcr_node_interlock_ready n = true ∧ ms_bus_off_previous s' = false ∧ mn_fatal_latched (ms_node s) = false) ∧
  ∃ pre mid post,
    pl_bus p' = pl_bus p ++ pre ++ [Wr (if led_bit n then LED_ON else LED_OFF) (bit 13)] ++ mid ++
      (if servo_target n =? ms_applied_servo_pulse_us s then [] else [Wr SERVO_PULSE (servo_target n)]) ++ post ∧
    Forall untouched pre ∧ Forall untouched mid ∧ Forall untouched post.
Proof.
  intros (Hi & Hb & Hrun & q & Hq). unfold main_turn, p_bind.
  destruct (turn_inputs_finishes hw s (length q + frames_to_come p)%nat p) as [Hf Hrx]; [split; [done|by exists q]|].
  pose proof (turn_inputs_yields hw s (conj Hi (conj (λ e : false = true, ltac:(discriminate e)) Hb)) p) as Hy.
  destruct (turn_inputs_untouched hw s p) as (e0 & He0 & H0).
  destruct (turn_inputs hw s p) as [[[s1 finished] now] p1]. cbn [fst snd] in *.
  destruct Hy as [((Hi1 & Hfat & Hb1) & Hlease) Happ].
  pose proof (turn_outputs_keeps hw s1 _ p1 Hrx) as (Hrun2 & q2 & Hq2 & _).
  destruct (turn_outputs_does hw s1 p1) as (e1 & He1 & Hn & Hbo & Hap & pre & mid & post & -> & Hpre & Hmid & Hpost).
  destruct (turn_outputs hw s1 p1) as [s2 p2]. cbn [p_ret fst snd] in *. rewrite Hn, Hbo. split_and!; try done.
  - split_and!; [by rewrite Hn|by rewrite Hn, Hbo|apply Hrun2..|by exists q2].
  - intros Hout. assert (Hl : mn_lease_active (ms_node s1) = true).
    { destruct (mn_lease_active (ms_node s1)) eqn:Hl; [done|]. destruct Hi1 as [H1 _]. specialize (H1 Hl).
      unfold servo_target, led_bit in Hout. rewrite Hl, H1 in Hout. cbn in Hout. by destruct Hout. }
    pose proof (proj2 Hi1 Hl) as Hready. pose proof Hready as Hr. unfold rcr_node_interlock_ready in Hr.
    apply andb_prop in Hr as [Hr Hnf]. apply andb_prop in Hr as [_ Hbus]. split_and!; try done; [by apply Hlease| |].
    + rewrite Hbus in Hb1. by destruct (ms_bus_off_previous s1).
    + destruct (mn_fatal_latched (ms_node s)); [|done]. rewrite Hfat in Hnf; done.
  - exists (e0 ++ pre), mid, post. rewrite He1, He0, <- Happ, <- !app_assoc. split_and!; try done. by apply Forall_app.
Qed.

(** One turn of the firmware drives its outputs safely, for any hardware with a working CAN
    FIFO and any interrupts: the turn ends and re-establishes the loop's invariant; the servo's pulse
    and the LED are exactly what the node's final state prescribes; a pulse or a lit LED
    requires an unexpired lease, a ready interlock, a working bus and no latched fault; a
    fault latched before the turn keeps everything off; and no other access of the turn
    touches the two output registers. *)
Theorem main_turn_safe hw (fifo : CanFifo hw) s p :
  main_inv s p →
  let '(s', finished, now, p') := main_turn hw s p in
  let n := ms_node s' in
  finished = true ∧ main_inv s' p' ∧
  ms_applied_servo_pulse_us s' = servo_target n ∧
  (servo_target n ≠ RCR_SERVO_PWM_DISABLED_US ∨ led_bit n = true →
   mn_lease_active n = true ∧ time_after_or_equal now (mn_lease_deadline_ms n) = false ∧
   rcr_node_interlock_ready n = true ∧ ms_bus_off_previous s' = false ∧ mn_fatal_latched (ms_node s) = false) ∧
  ∃ pre mid post,
    pl_bus p' = pl_bus p ++ pre ++ [Wr (if led_bit n then LED_ON else LED_OFF) (bit 13)] ++ mid ++
      (if servo_target n =? ms_applied_servo_pulse_us s then [] else [Wr SERVO_PULSE (servo_target n)]) ++ post ∧
    Forall untouched pre ∧ Forall untouched mid ∧ Forall untouched post.
Proof. by apply main_turn_spec. Qed.

(** A command waits in the queue, and a tick and an empty receive interrupt come in. *)
Definition demo_platform : Platform :=
  rx_push demo_command_frame (initial_platform [[SysTick]; []; [CanRx]]).
Definition demo_main : main_state :=
  mkMain (rcr_node_init 1 10 10 true) 0 0 RCR_SERVO_PWM_DISABLED_US false rcr_input_debounce_init.

(** A board on which every register reads zero. *)
#[export] Instance dead_fifo : CanFifo (λ _ _, 0).
Proof. refine {| cf_arrived := λ _, 0 |}; intros; unfold fifo_pending; rewrite ?Z.land_0_l; lia. Defined.

Lemma main_turn_safe_witness :
  let '(s', finished, now, p') := main_turn (λ _ _, 0) demo_main demo_platform in
  finished = true ∧ now = 1 ∧ ms_applied_servo_pulse_us s' = RCR_SERVO_POSITION_B_US ∧
  mn_lease_active (ms_node s') = true.
Proof.
  assert (Hq : ∃ q, rx_rep demo_platform q).
  { exists [demo_command_frame]. apply (rx_push_rep (initial_platform [[SysTick]; []; [CanRx]]) [] demo_command_frame).
    apply initial_rx_rep. }
  assert (Hinv : main_inv demo_main demo_platform) by (split; [split; done|split; [done|split; [unfold running, QUEUE_CAPACITY; cbn; lia|exact Hq]]]).
  pose proof (main_turn_safe (λ _ _, 0) dead_fifo demo_main demo_platform Hinv) as H.
  assert (Hs : servo_target (ms_node (fst (fst (fst (main_turn (λ _ _, 0) demo_main demo_platform))))) = RCR_SERVO_POSITION_B_US)
    by (vm_compute; reflexivity).
  assert (Hnow : snd (fst (main_turn (λ _ _, 0) demo_main demo_platform)) = 1) by (vm_compute; reflexivity).
  destruct (main_turn (λ _ _, 0) demo_main demo_platform) as [[[s' finished] now] p']. cbn in Hs, Hnow.
  destruct H as (Hf & _ & Ha & Hl & _). split; [exact Hf|]. split; [exact Hnow|]. split; [by rewrite Ha|].
  apply Hl. left. rewrite Hs. discriminate.
Defined.

(** ** Program start *)

Section Start.
Context (hw : list bus_event → Z → Z) {fifo : CanFifo hw}.

Lemma half_read_does a : emits inert (half_read hw a) ∧ keeps_rx (half_read hw a).
Proof. split; [intros p; exists [Rd16 a]; split; [done|by constructor]|intros n p (Hrun & q & Hq & Hn); split; [exact Hrun|by exists q]]. Qed.
Lemma half_write_does a v : emits inert (half_write a v) ∧ keeps_rx (half_write a v).
Proof. split; [intros p; exists [Wr16 a v]; split; [done|by constructor]|intros n p (Hrun & q & Hq & Hn); split; [exact Hrun|by exists q]]. Qed.
Lemma keeps_poll n a r : keeps_rx (poll hw n a r).
Proof. induction n as [|n IH]; cbn; repeat first [apply IH | keeps_step]. Qed.

#[local] Ltac walk_inert :=
  repeat first [apply (proj1 (half_read_does _)) | apply (proj1 (half_write_does _ _)) | emits_step];
  try done; split; try done; intros [=].
#[local] Ltac walk_rx :=
  repeat first [apply keeps_poll | apply (proj2 (half_read_does _)) | apply (proj2 (half_write_does _ _))
               | progress unfold reg_andnot | keeps_step].

Lemma flash_program_does a v : emits inert (flash_program_halfword hw a v) ∧ keeps_rx (flash_program_halfword hw a v).
Proof. unfold flash_program_halfword, flash_wait. split; [walk_inert|walk_rx]. Qed.

Lemma flash_erase_does : emits inert (flash_erase_session_page hw) ∧ keeps_rx (flash_erase_session_page hw).
Proof. unfold flash_erase_session_page, flash_wait. split; [walk_inert|walk_rx]. Qed.

Lemma scan_does count index last empty :
  emits inert (scan_journal hw count index last empty) ∧ keeps_rx (scan_journal hw count index last empty).
Proof.
  revert index last empty. induction count as [|count IH]; intros index last empty; cbn [scan_journal];
    [split; [apply emits_ret|apply keeps_ret]|].
  split; [apply emits_bind; [by apply emits_read|]|apply keeps_bind; [apply keeps_read|]];
    intros record; destruct (scan_record _ _ _ _); apply IH.
Qed.

Lemma next_session_does : emits inert (rcr_platform_next_session hw) ∧ keeps_rx (rcr_platform_next_session hw).
Proof.
  unfold rcr_platform_next_session, flash_unlock, flash_lock. split.
  - repeat first [apply (proj1 (scan_does _ _ _ _)) | apply (proj1 flash_erase_does)
      | apply (proj1 (flash_program_does _ _)) | emits_step]; try done; split; try done; intros [=].
  - repeat first [apply (proj2 (scan_does _ _ _ _)) | apply (proj2 flash_erase_does)
      | apply (proj2 (flash_program_does _ _)) | keeps_step].
Qed.

Lemma init_keeps : keeps_rx (rcr_platform_init hw).
Proof.
  unfold rcr_platform_init, configure_led_off, configure_clock_72mhz, configure_target_sensor_input,
    configure_servo_pwm_off, configure_systick, configure_can. walk_rx.
Qed.

Lemma call_inert {A} (m : Prog A) : emits inert m → emits inert (call hw m).
Proof. intros Hm. apply emits_bind; [eapply emits_weaken; [exact untouched_inert|apply preempt_untouched]|done]. Qed.

Lemma start_inert : emits inert (main_start hw).
Proof.
  unfold main_start, rcr_platform_watchdog_start, rcr_platform_millis.
  repeat first [apply init_inert | apply (proj1 next_session_does) | apply call_inert | emits_step];
    try done; split; try done; intros [=].
Qed.

Lemma start_keeps : keeps_rx (main_start hw).
Proof.
  unfold main_start, rcr_platform_watchdog_start, rcr_platform_millis.
  repeat first [apply init_keeps | apply (proj2 next_session_does) | keeps_step].
Qed.

Lemma start_yields :
  yields (main_start hw) (λ r, match r with
    | Some s => mcu_inv (ms_node s) ∧ mn_bus_ready (ms_node s) = negb (ms_bus_off_previous s) ∧
                ms_applied_servo_pulse_us s = servo_target (ms_node s) ∧ servo_target (ms_node s) = RCR_SERVO_PWM_DISABLED_US
    | None => True
    end).
Proof.
  unfold main_start. apply yields_any. intros up. destruct (negb up); [by apply yields_ret|].
  apply yields_any. intros [session_id identity_ready]. apply yields_any. intros []. apply yields_any. intros now.
  by apply yields_ret.
Qed.
End Start.

(** The firmware from reset: the start, then turns. *)
Fixpoint main_turns (hw : list bus_event → Z → Z) (turns : nat) (s : main_state) : Prog (main_state * bool) :=
  match turns with
  | O => p_ret (s, true)
  | S turns =>
      r <- main_turn hw s;;
      let '(s, finished, _) := r in
      if (finished : bool) then main_turns hw turns s else p_ret (s, false)
  end.

(** The pulse width in the timer's compare register and the level of the LED, as the
    accesses leave them; after reset both are off. *)
Definition pulse_after (t : list bus_event) (v : Z) : Z :=
  foldl (λ v e, match e with Wr a x => if a =? SERVO_PULSE then x else v | _ => v end) v t.
Definition led_after (t : list bus_event) (b : bool) : bool :=
  foldl (λ b e, match e with
                | Wr a _ => if a =? LED_ON then true else if a =? LED_OFF then false else b
                | _ => b end) b t.

Lemma untouched_keeps t v b : Forall untouched t → pulse_after t v = v ∧ led_after t b = b.
Proof.
  intros Ht. revert v b. induction Ht as [|e t He _ IH]; intros v b; [done|].
  destruct e as [|a x| | |]; cbn; try apply IH. destruct He as (H1 & H2 & H3).
  rewrite (proj2 (Z.eqb_neq _ _) H1), (proj2 (Z.eqb_neq _ _) H2), (proj2 (Z.eqb_neq _ _) H3). apply IH.
Qed.

Lemma inert_off t : Forall inert t → pulse_after t RCR_SERVO_PWM_DISABLED_US = RCR_SERVO_PWM_DISABLED_US ∧ led_after t false = false.
Proof.
  induction 1 as [|e t He _ IH]; [done|]. destruct e as [|a x| | |]; cbn; try apply IH. destruct He as (H1 & H3).
  rewrite (proj2 (Z.eqb_neq _ _) H1). destruct (Z.eqb_spec a SERVO_PULSE) as [->|]; [rewrite H3 by done|];
    (destruct (a =? LED_OFF) || destruct (SERVO_PULSE =? LED_OFF)); apply IH.
Qed.

Lemma after_app t1 t2 v b :
  pulse_after (t1 ++ t2) v = pulse_after t2 (pulse_after t1 v) ∧ led_after (t1 ++ t2) b = led_after t2 (led_after t1 b).
Proof. unfold pulse_after, led_after. by rewrite !foldl_app. Qed.

(** The outputs agree with the node. *)
Definition outputs_agree (s : main_state) (p : Platform) : Prop :=
  main_inv s p ∧ ms_applied_servo_pulse_us s = servo_target (ms_node s) ∧
  pulse_after (pl_bus p) RCR_SERVO_PWM_DISABLED_US = servo_target (ms_node s) ∧
  led_after (pl_bus p) false = led_bit (ms_node s).

Lemma turn_agrees hw {fifo : CanFifo hw} s p :
  outputs_agree s p →
  let '(s', finished, _, p') := main_turn hw s p in finished = true ∧ outputs_agree s' p'.
Proof.
  intros (Hinv & Ha & Hp & Hl). pose proof (main_turn_spec hw s p Hinv) as H.
  destruct (main_turn hw s p) as [[[s' finished] now] p'].
  destruct H as (Hf & Hinv' & Ha' & _ & pre & mid & post & Hbus & Hpre & Hmid & Hpost). split; [done|].
  split; [done|]. split; [done|]. rewrite Hbus.
  repeat match goal with |- context [pulse_after (?x ++ ?y) ?v] => rewrite (proj1 (after_app x y v false)) end.
  repeat match goal with |- context [led_after (?x ++ ?y) ?b] => rewrite (proj2 (after_app x y 0 b)) end.
  rewrite Hp, Hl. set (n := ms_node s') in *. clearbody n.
  assert (Hu : ∀ t v b, Forall untouched t → pulse_after t v = v ∧ led_after t b = b) by (intros; by apply untouched_keeps).
  rewrite !(proj1 (Hu pre _ false Hpre)), !(proj1 (Hu mid _ false Hmid)), !(proj1 (Hu post _ false Hpost)).
  rewrite !(proj2 (Hu pre 0 _ Hpre)), !(proj2 (Hu mid 0 _ Hmid)), !(proj2 (Hu post 0 _ Hpost)).
  rewrite <- Ha. split.
  - destruct (Z.eqb_spec (servo_target n) (ms_applied_servo_pulse_us s)) as [->|]; by destruct (led_bit n).
  - destruct (servo_target n =? ms_applied_servo_pulse_us s); by destruct (led_bit n).
Qed.

Lemma turns_agree hw {fifo : CanFifo hw} k s p :
  outputs_agree s p →
  let '(s', finished, p') := main_turns hw k s p in finished = true ∧ outputs_agree s' p'.
Proof.
  revert s p. induction k as [|k IH]; intros s p Hs; cbn; [done|]. unfold p_bind.
  pose proof (turn_agrees hw s p Hs) as H. destruct (main_turn hw s p) as [[[s1 finished] now] p1].
  destruct H as [-> H1]. by apply IH.
Qed.

(** C12.  The firmware drives the servo and the LED only as its node allows, from reset
    on and for ever: for any hardware whose CAN FIFO works as documented, any interrupts and
    any number of turns, the start and every turn end -- the receive interrupt empties the
    FIFO, the receive loop its queue, the pump the transmit queue -- and afterwards the pulse
    width in the timer and the LED are those of the node's state -- off without a lease.  If
    the platform does not come up, neither was ever switched on. *)
Theorem firmware_outputs_follow_node hw (fifo : CanFifo hw) irqs k :
  let '(started, p) := main_start hw (initial_platform irqs) in
  pl_hung p = false ∧
  pulse_after (pl_bus p) RCR_SERVO_PWM_DISABLED_US = RCR_SERVO_PWM_DISABLED_US ∧
  led_after (pl_bus p) false = false ∧
  ∀ s, started = Some s →
    let '(s', finished, p') := main_turns hw k s p in
    let n := ms_node s' in
    finished = true ∧ pl_hung p' = false ∧
    pulse_after (pl_bus p') RCR_SERVO_PWM_DISABLED_US = servo_target n ∧ led_after (pl_bus p') false = led_bit n ∧
    (mn_lease_active n = false → servo_target n = RCR_SERVO_PWM_DISABLED_US ∧ led_bit n = false).
Proof.
  destruct (start_inert hw (initial_platform irqs)) as (evs & He & Hf).
  pose proof (start_yields hw (initial_platform irqs)) as Hy.
  destruct (start_keeps hw (frames_to_come (initial_platform irqs)) (initial_platform irqs)) as (Hrun & q & Hq & _);
    [split; [unfold running, QUEUE_CAPACITY; cbn; lia|exists []; split; [apply initial_rx_rep|done]]|].
  destruct (main_start hw (initial_platform irqs)) as [started p]. cbn [fst snd] in *. cbn in He. subst evs.
  destruct (inert_off _ Hf) as [Hp Hl]. split; [apply Hrun|]. split; [done|]. split; [done|]. intros s ->.
  destruct Hy as (Hi & Hb & Ha & Ht).
  assert (Hled : led_bit (ms_node s) = false).
  { unfold led_bit. destruct (mn_lease_active (ms_node s)) eqn:Hla; [|by rewrite (proj1 Hi Hla)].
    unfold servo_target, rcr_servo_pwm_target_us in Ht. rewrite Hla in Ht.
    destruct (negb (Z.land (mn_output_bits (ms_node s)) 1 =? 0)); discriminate Ht. }
  assert (Hs : outputs_agree s p)
    by (split; [split; [done|split; [done|split; [done|by exists q]]]|split; [done|split; congruence]]).
  pose proof (turns_agree hw k s p Hs) as H. destruct (main_turns hw k s p) as [[s' finished] p'].
  destruct H as (-> & (Hi' & _ & Hrun' & _) & _ & Hp' & Hl'). split_and!; try done; [apply Hrun'|]. intros Hoff.
  destruct Hi' as [H1 _]. unfold servo_target, led_bit. by rewrite Hoff, (H1 Hoff).
Qed.

(** A board whose clocks come up, with an erased journal and one command in the CAN FIFO
    until it is released. *)
Definition demo_board (t : list bus_event) (address : Z) : Z :=
  if address =? RCC_BASE then Z.lor (bit 17) (bit 25)
  else if address =? RCC_BASE + 0x04 then 0x8
  else if address =? CAN1_BASE then default 0 (last_write t CAN1_BASE)
  else if address =? CAN1_BASE + 0x04 then Z.land (default 0 (last_write t CAN1_BASE)) 1
  else if address =? CAN1_BASE + 0x0C then match last_write t (CAN1_BASE + 0x0C) with None => 1 | Some _ => 0 end
  else if address =? CAN1_BASE + 0x1B0 then Z.shiftl 0x061 21
  else if address =? CAN1_BASE + 0x1B4 then 8
  else if address =? CAN1_BASE + 0x1B8 then 0x01000101
  else if address =? CAN1_BASE + 0x1BC then 0x1E010500
  else if (SESSION_PAGE <=? address) && (address <? SESSION_PAGE + 1024) then default 0xFFFFFFFF (last_write t address)
  else 0.

(** Nothing else arrives. *)
#[export] Instance demo_fifo : CanFifo demo_board.
Proof.
  refine {| cf_arrived := λ _, 0 |}; [intros; lia| |intros; lia]. intros t e.
  assert (Hp : ∀ t, fifo_pending demo_board t = match last_write t (CAN1_BASE + 0x0C) with None => 1 | Some _ => 0 end).
  { intros t'. unfold fifo_pending.
    change (demo_board t' (CAN1_BASE + 12)) with (match last_write t' (CAN1_BASE + 0x0C) with None => 1 | Some _ => 0 end).
    by destruct (last_write t' _). }
  rewrite !Hp. unfold last_write. rewrite foldl_app. cbn [foldl].
  destruct (foldl _ None t); destruct e as [a|a v|a|a v|]; cbn [releases]; repeat case_match; bools; try lia; done.
Defined.

Lemma firmware_outputs_follow_node_witness :
  let '(started, p) := main_start demo_board (initial_platform [[]; []; [SysTick; CanRx]]) in
  match started with
  | Some s =>
      let '(s', finished, p') := main_turns demo_board 2 s p in
      finished = true ∧ pl_hung p' = false ∧
      pulse_after (pl_bus p') RCR_SERVO_PWM_DISABLED_US = RCR_SERVO_POSITION_B_US ∧
      led_after (pl_bus p') false = true
  | None => False
  end.
Proof.
  pose proof (firmware_outputs_follow_node demo_board demo_fifo [[]; []; [SysTick; CanRx]] 2) as H.
  assert (Hc : match main_start demo_board (initial_platform [[]; []; [SysTick; CanRx]]) with
    | (Some s, p) => let '(s', _, _) := main_turns demo_board 2 s p in
        servo_target (ms_node s') = RCR_SERVO_POSITION_B_US ∧ led_bit (ms_node s') = true
    | (None, _) => False end) by (vm_compute; split; reflexivity).
  destruct (main_start demo_board (initial_platform [[]; []; [SysTick; CanRx]])) as [[s|] p]; [|exact Hc].
  destruct H as (_ & _ & _ & H). specialize (H s eq_refl). destruct (main_turns demo_board 2 s p) as [[s' finished] p'].
  destruct H as (Hf & Hh & Hp & Hl & _), Hc as [Hs Hb]. split; [exact Hf|]. split; [exact Hh|].
  split; [rewrite Hp; exact Hs|rewrite Hl; exact Hb].
Defined.
