(* ===== verification/McuJournal.v ===== *)
(** * The session journal under power loss

    [rcr_platform_next_session] of firmware/stm32f103/src/platform_stm32f103.c against the
    flash controller as its programming manual describes it: a state machine with a lock and
    its key sequence, the control bits, an operation in progress and the page.  A record is a
    value and its complement, written as two halfwords; a session counts once both are there.
    Power may fail between any two bus accesses and in the middle of an operation, so a
    program's specification has a condition for every point in between. *)

From S2P Require Import Prelude Types McuCan McuInput McuPlatform.
Local Open Scope Z_scope.
#[local] Open Scope prog_scope.

Definition FLASH_KEYR : Z := FLASH_BASE + 0x04.
Definition FLASH_OPTKEYR : Z := FLASH_BASE + 0x08.
Definition FLASH_SR : Z := FLASH_BASE + 0x0C.
Definition FLASH_CR : Z := FLASH_BASE + 0x10.
Definition FLASH_AR : Z := FLASH_BASE + 0x14.
Definition EMPTY : Z := 0xFFFFFFFF.
Definition record_address (i : nat) : Z := SESSION_PAGE + Z.of_nat i * 4.
Definition blank : list Z := replicate SESSION_RECORD_COUNT EMPTY.

(** Replacing the low or the high halfword. *)
Definition with_low (w x : Z) : Z := w / 65536 * 65536 + x.
Definition with_high (w x : Z) : Z := x * 65536 + w mod 65536.
Definition with_half (high : bool) (w x : Z) : Z := if high then with_high w x else with_low w x.
Definition half_of (high : bool) (w : Z) : Z := if high then w / 65536 else w mod 65536.

(** The word and the half an address of the page names. *)
Definition half_index (a : Z) : nat := Z.to_nat ((a - SESSION_PAGE) / 4).
Definition half_place (a : Z) : option (nat * bool) :=
  if (SESSION_PAGE <=? a) && (a <? SESSION_PAGE + 1024) then
    if (a - SESSION_PAGE) mod 4 =? 0 then Some (half_index a, false)
    else if (a - SESSION_PAGE) mod 4 =? 2 then Some (half_index a, true) else None
  else None.

(** ** The flash controller *)

Inductive FlashOp := Programming (i : nat) (high : bool) (x : Z) | Erasing.

(** The lock, whether the first key was given, the bits PG and PER, the address register,
    the operation in progress, the error flags and the page. *)
Record FlashState := mkFlash {
  fs_locked : bool;
  fs_key : bool;
  fs_pg : bool;
  fs_per : bool;
  fs_ar : Z;
  fs_busy : option FlashOp;
  fs_error : bool;
  fs_page : list Z
}.

#[export] Instance FlashState_eta : Eta FlashState :=
  mkEta _ (fun s => mkFlash (fs_locked s) (fs_key s) (fs_pg s) (fs_per s) (fs_ar s) (fs_busy s) (fs_error s) (fs_page s)).

Definition busy (s : FlashState) : bool := match fs_busy s with Some _ => true | None => false end.

(** The operation in progress ends. *)
Definition complete (s : FlashState) : FlashState :=
  match fs_busy s with
  | None => s
  | Some (Programming i high x) => s <| fs_busy := None |> <| fs_page ::= alter (λ w, with_half high w x) i |>
  | Some Erasing => s <| fs_busy := None |> <| fs_page := blank |>
  end.

(** A write of the control register: no mass erase, no option bytes, not PG and PER
    together; STRT starts the erase of the page in the address register. *)
Definition flash_control (s : FlashState) (c : Z → bool) : option FlashState :=
  if c 2 || c 4 || c 5 || (c 0 && c 1) then None
  else
    let s' := s <| fs_pg := c 0 |> <| fs_per := c 1 |> <| fs_locked := c 7 |> in
    if c 6 then if c 1 && (fs_ar s =? SESSION_PAGE) then Some (s' <| fs_busy := Some Erasing |>) else None
    else Some s'.

Definition in_flash (a : Z) : bool := (0x08000000 <=? a) && (a <? 0x08010000).

(** What an access does to the controller where the manual defines it; [None] elsewhere: a
    wrong key, registers written while locked or busy, a halfword programmed without PG or
    over one that is not erased. *)
Definition flash_accept (s : FlashState) (e : bus_event) : option FlashState :=
  match e with
  | Rd _ | Rd16 _ | Irq => Some s
  | Wr a v =>
      if a =? FLASH_KEYR then
        if negb (fs_locked s) then None
        else if fs_key s then
          if v =? 0xCDEF89AB then Some (s <| fs_key := false |> <| fs_locked := false |>) else None
        else if v =? 0x45670123 then Some (s <| fs_key := true |>) else None
      else if (a =? FLASH_CR) || (a =? FLASH_AR) then
        if busy s || fs_locked s then None
        else if a =? FLASH_CR then flash_control s (Z.testbit v) else Some (s <| fs_ar := v |>)
      else if (a =? FLASH_SR) || (a =? FLASH_OPTKEYR) || in_flash a then None
      else Some s
  | Wr16 a x =>
      if busy s || fs_locked s || negb (fs_pg s) || negb ((0 <=? x) && (x <? 65536)) then None
      else match half_place a with
      | None => None
      | Some (i, high) =>
          match fs_page s !! i with
          | None => None
          | Some w => if half_of high w =? 0xFFFF then Some (s <| fs_busy := Some (Programming i high x) |>) else None
          end
      end
  end.

(** The control register as it reads. *)
Definition control_bits : list Z := [0; 1; 2; 4; 5; 6; 7].
Definition cr_bit (s : FlashState) (b : Z) : bool :=
  if b =? 0 then fs_pg s else if b =? 1 then fs_per s
  else if b =? 6 then match fs_busy s with Some Erasing => true | _ => false end
  else if b =? 7 then fs_locked s else false.

Notation history := (list bus_event).

(** The documented behaviour: an access takes effect, and an operation may end at any
    moment; it has ended when the status register has been read [fc_reads] times, less than
    the firmware's time-out (an erase takes at most 40 ms, a million turns of the reading loop
    longer at 72 MHz); BSY and the error flags read as they are, the control bits too, and the page can
    be read while no operation is in progress. *)
Class FlashController (hw : history → Z → Z) := {
  flash_state : history → FlashState;
  fc_step t e s :
    flash_accept (flash_state t) e = Some s → flash_state (t ++ [e]) = s ∨ flash_state (t ++ [e]) = complete s;
  fc_reads : nat;
  fc_reads_few : (fc_reads < POLL_TIMEOUT)%nat;
  fc_ends t : busy (flash_state (t ++ replicate fc_reads (Rd FLASH_SR))) = false;
  fc_busy t : Z.land (hw t FLASH_SR) 1 = if busy (flash_state t) then 1 else 0;
  fc_error t : fs_error (flash_state t) = false → Z.land (hw t FLASH_SR) 0x14 = 0;
  fc_control t b : b ∈ control_bits → Z.testbit (hw t FLASH_CR) b = cr_bit (flash_state t) b;
  fc_word t i w :
    busy (flash_state t) = false → fs_page (flash_state t) !! i = Some w → hw t (record_address i) = w;
  fc_high t i w :
    busy (flash_state t) = false → fs_page (flash_state t) !! i = Some w → hw t (record_address i + 2) = Z.shiftr w 16
}.

(** What the page may hold after the power failed: what it held when no operation was in
    progress; any value in the halfword being programmed; anything when it was being
    erased. *)
Definition power_loss (s : FlashState) (pg : list Z) : Prop :=
  match fs_busy s with
  | None => pg = fs_page s
  | Some (Programming i high _) =>
      ∃ w y, fs_page s !! i = Some w ∧ is_u 16 y ∧ pg = <[i := with_half high w y]> (fs_page s)
  | Some Erasing => length pg = SESSION_RECORD_COUNT
  end.

(** ** Programs that may be cut off *)

(** Started where [Pre] holds, the program ends where [Post] holds, and [Crash] holds at
    every point on the way, both ends included. *)
Definition chl {A} (Pre : history → Prop) (m : Prog A) (Post : A → history → Prop) (Crash : history → Prop) : Prop :=
  ∀ p, Pre (pl_bus p) →
    Post (fst (m p)) (pl_bus (snd (m p))) ∧ pl_bus p `prefix_of` pl_bus (snd (m p)) ∧
    ∀ t, pl_bus p `prefix_of` t → t `prefix_of` pl_bus (snd (m p)) → Crash t.

Lemma between_snoc (t t' : history) e : t `prefix_of` t' → t' `prefix_of` t ++ [e] → t' = t ∨ t' = t ++ [e].
Proof.
  intros [k ->] Hp. apply prefix_app_inv in Hp. destruct Hp as [k' Hk].
  destruct k as [|e' k]; [left; by rewrite app_nil_r|right]. cbn in Hk. injection Hk as <- Hk.
  symmetry in Hk. apply app_eq_nil in Hk as [-> _]. done.
Qed.

Section Rules.
Context {A B : Type}.
Implicit Types (Pre Crash : history → Prop).

Lemma chl_ret Pre (a : A) Post Crash : (∀ t, Pre t → Post a t ∧ Crash t) → chl Pre (p_ret a) Post Crash.
Proof.
  intros H p Hp. destruct (H _ Hp) as [Ha Hc]. cbn. split_and!; try done. intros t Ht1 Ht2.
  by rewrite (anti_symm prefix t (pl_bus p)).
Qed.

Lemma chl_bind Pre (m : Prog A) (k : A → Prog B) Mid Post Crash :
  chl Pre m Mid Crash → (∀ a, chl (Mid a) (k a) Post Crash) → chl Pre (p_bind m k) Post Crash.
Proof.
  intros Hm Hk p Hp. unfold p_bind. destruct (Hm p Hp) as (H1 & Hle1 & Hc1). destruct (m p) as [a p1]. cbn in *.
  destruct (Hk a p1 H1) as (H2 & Hle2 & Hc2). split; [done|]. split; [by etrans|]. intros t Ht1 Ht2.
  destruct (prefix_weak_total t (pl_bus p1) _ Ht2 Hle2); [by apply Hc1|by apply Hc2].
Qed.

Lemma chl_conseq Pre Pre' (m : Prog A) Post Post' Crash Crash' :
  chl Pre' m Post' Crash' → (∀ t, Pre t → Pre' t) → (∀ a t, Post' a t → Post a t) → (∀ t, Crash' t → Crash t) →
  chl Pre m Post Crash.
Proof. intros Hm H1 H2 H3 p Hp. destruct (Hm p (H1 _ Hp)) as (? & ? & ?). split_and!; auto. Qed.
End Rules.

Lemma chl_pure {A} (φ : Prop) Pre (m : Prog A) Post Crash :
  (φ → chl Pre m Post Crash) → chl (λ t, φ ∧ Pre t) m Post Crash.
Proof. intros H p [Hφ Hp]. by apply H. Qed.

(** One access. *)
Lemma chl_event {A} Pre (m : Prog A) (Post : A → history → Prop) Crash e :
  (∀ p, pl_bus (snd (m p)) = pl_bus p ++ [e]) →
  (∀ p, Pre (pl_bus p) → Post (fst (m p)) (pl_bus p ++ [e]) ∧ Crash (pl_bus p) ∧ Crash (pl_bus p ++ [e])) →
  chl Pre m Post Crash.
Proof.
  intros He H p Hp. destruct (H p Hp) as (H1 & H2 & H3). rewrite He. split; [done|].
  split; [by exists [e]|]. intros t Ht1 Ht2. destruct (between_snoc _ _ _ Ht1 Ht2) as [->| ->]; done.
Qed.

Lemma complete_idle s : busy s = false → complete s = s.
Proof. unfold busy, complete. by destruct (fs_busy s). Qed.
Lemma complete_busy s : busy (complete s) = false.
Proof. unfold complete, busy. by destruct (fs_busy s) as [[]|] eqn:H; rewrite ?H. Qed.
Lemma complete_complete s : complete (complete s) = complete s.
Proof. apply complete_idle, complete_busy. Qed.
Lemma complete_error s : fs_error (complete s) = fs_error s.
Proof. unfold complete. by destruct (fs_busy s) as [[]|]. Qed.

Lemma bits_set_bit n x : 0 ≤ n → bits_set (bit n) x = Z.testbit x n.
Proof.
  intros Hn. unfold bits_set, bit. rewrite Z.shiftl_1_l. pose proof (land_flag x n Hn) as Hf.
  destruct (Z.testbit x n); [|by rewrite (proj2 Hf)]. apply negb_true_iff, Z.eqb_neq. intros H0. by apply Hf in H0.
Qed.

Lemma flash_control_ext s c c' : (∀ b, b ∈ control_bits → c b = c' b) → flash_control s c = flash_control s c'.
Proof.
  intros Hc. unfold flash_control.
  rewrite (Hc 0), (Hc 1), (Hc 2), (Hc 4), (Hc 5), (Hc 6), (Hc 7) by (apply (bool_decide_unpack _); done). done.
Qed.

Section Journal.
Context {hw : history → Z → Z} {fc : FlashController hw}.

(** The controller is in state [s], or its operation has just ended. *)
Definition flash_at (s : FlashState) (t : history) : Prop := flash_state t = s ∨ flash_state t = complete s.

Lemma at_idle s t : busy s = false → flash_at s t → flash_state t = s.
Proof. intros Hb [H|H]; [done|]. by rewrite H, complete_idle. Qed.

Lemma at_complete s t : flash_at (complete s) t → flash_at s t.
Proof. intros H%at_idle; [by right|apply complete_busy]. Qed.

Lemma at_step s e s' t : busy s = false → flash_accept s e = Some s' → flash_at s t → flash_at s' (t ++ [e]).
Proof. intros Hb Ha Ht. apply at_idle in Ht as <-; [|done]. by apply fc_step. Qed.

Lemma at_read s a t : flash_at s t → flash_at s (t ++ [Rd a]) ∧ flash_at s (t ++ [Rd16 a]).
Proof.
  intros Ht. split.
  - destruct Ht as [H|H]; [destruct (fc_step t (Rd a) s) as [H'|H']|destruct (fc_step t (Rd a) (complete s)) as [H'|H']];
      rewrite ?H, ?complete_complete in *; unfold flash_at; auto.
  - destruct Ht as [H|H]; [destruct (fc_step t (Rd16 a) s) as [H'|H']|destruct (fc_step t (Rd16 a) (complete s)) as [H'|H']];
      rewrite ?H, ?complete_complete in *; unfold flash_at; auto.
Qed.

(** A history at which a power failure leaves a page that satisfies [J]. *)
Definition safe (J : list Z → Prop) (t : history) : Prop := ∀ pg, power_loss (flash_state t) pg → J pg.

Section Steps.
Context (J : list Z → Prop).

Definition all_safe (s : FlashState) : Prop := ∀ t, flash_at s t → safe J t.

Lemma idle_safe s : busy s = false → J (fs_page s) → all_safe s.
Proof.
  intros Hb Hj t Ht pg Hp. rewrite (at_idle _ _ Hb Ht) in Hp. unfold power_loss, busy in *.
  destruct (fs_busy s); [done|]. by subst.
Qed.

Lemma chl_write s s' a v :
  busy s = false → flash_accept s (Wr a v) = Some s' → all_safe s → all_safe s' →
  chl (flash_at s) (reg_write a v) (λ _, flash_at s') (safe J).
Proof.
  intros Hb Ha H1 H2. apply (chl_event _ _ _ _ (Wr a v)); [done|]. intros p Hp.
  pose proof (at_step _ _ _ _ Hb Ha Hp). split_and!; auto.
Qed.

Lemma chl_half_write s s' a v :
  busy s = false → flash_accept s (Wr16 a v) = Some s' → all_safe s → all_safe s' →
  chl (flash_at s) (half_write a v) (λ _, flash_at s') (safe J).
Proof.
  intros Hb Ha H1 H2. apply (chl_event _ _ _ _ (Wr16 a v)); [done|]. intros p Hp.
  pose proof (at_step _ _ _ _ Hb Ha Hp). split_and!; auto.
Qed.

Lemma chl_read s a (Post : Z → history → Prop) :
  all_safe s → (∀ t, flash_at s t → Post (hw t a) (t ++ [Rd a])) → chl (flash_at s) (reg_read hw a) Post (safe J).
Proof.
  intros Hs HP. apply (chl_event _ _ _ _ (Rd a)); [done|]. intros p Hp.
  destruct (at_read s a _ Hp) as [Hr _]. split_and!; [by apply HP|by apply Hs..].
Qed.

(** Reading the status register until BSY is clear. *)
Lemma poll_spec s t0 n : ∀ j,
  all_safe s → (j ≤ fc_reads)%nat → (fc_reads < n + j)%nat →
  chl (λ t, t = t0 ++ replicate j (Rd FLASH_SR) ∧ flash_at s t) (poll hw n FLASH_SR (bits_clear 1))
    (λ b t, b = true ∧ flash_at (complete s) t) (safe J).
Proof.
  induction n as [|n IH]; intros j Hs Hj Hn; [lia|]. cbn [poll].
  apply (chl_bind _ _ _ (λ x t, if bits_clear 1 x then flash_at (complete s) t
    else (t = t0 ++ replicate (S j) (Rd FLASH_SR) ∧ flash_at s t) ∧ (j < fc_reads)%nat)).
  - apply (chl_event _ _ _ _ (Rd FLASH_SR)); [done|]. intros p [Ht Hp]. destruct (at_read s FLASH_SR _ Hp) as [Hr _].
    split; [|split; by apply Hs]. cbn [reg_read fst]. unfold bits_clear. rewrite fc_busy.
    destruct (busy (flash_state (pl_bus p))) eqn:Hb; cbn [Z.eqb].
    + split; [split; [|done]|].
      * rewrite Ht, replicate_S_end, app_assoc. done.
      * destruct (decide (j = fc_reads)) as [->|]; [|lia]. rewrite Ht, fc_ends in Hb. done.
    + apply (at_step (complete s)); [apply complete_busy|done|]. left. destruct Hp as [Hp|Hp]; [|done].
      rewrite Hp in *. by rewrite (complete_idle s Hb).
  - intros x. destruct (bits_clear 1 x).
    + apply chl_ret. intros t Ht. split; [done|]. by apply Hs, at_complete.
    + intros p (Hp & Hlt). by apply (IH (S j) Hs); [lia|lia|].
Qed.

Lemma wait_spec s :
  fs_error s = false → all_safe s →
  chl (flash_at s) (flash_wait hw) (λ b t, b = true ∧ flash_at (complete s) t) (safe J).
Proof.
  intros He Hs. assert (Hsc : all_safe (complete s)) by (intros t Ht; by apply Hs, at_complete).
  assert (Hw : ∀ t0, chl (λ t, t = t0 ++ replicate 0 (Rd FLASH_SR) ∧ flash_at s t) (flash_wait hw)
    (λ b t, b = true ∧ flash_at (complete s) t) (safe J)); [|intros p Hp; apply (Hw (pl_bus p)); by rewrite app_nil_r].
  intros t0. unfold flash_wait. pose proof fc_reads_few. eapply chl_bind; [apply (poll_spec s t0 POLL_TIMEOUT 0); [done|lia|lia]|].
  intros b; cbv beta. destruct b; [|by intros q [? _]]. cbn [negb].
  apply (chl_bind _ _ _ (λ x t, bits_clear (Z.lor (bit 2) (bit 4)) x = true ∧ flash_at (complete s) t)).
  - eapply chl_conseq; [apply (chl_read (complete s) FLASH_SR _ Hsc)|by intros t [_ ?]|intros a t Ha; exact Ha|done].
    intros t Ht. split; [|by apply at_read]. unfold bits_clear. change (Z.lor (bit 2) (bit 4)) with 0x14.
    rewrite fc_error; [done|]. rewrite (at_idle _ _ (complete_busy s) Ht). by rewrite complete_error.
  - intros x. apply chl_ret. intros t [-> Ht]. split; [done|by apply Hsc].
Qed.

(** Reading the control register of an idle controller. *)
Lemma control_read s :
  busy s = false → all_safe s →
  chl (flash_at s) (reg_read hw FLASH_CR)
    (λ x t, (∀ b, b ∈ control_bits → Z.testbit x b = cr_bit s b) ∧ flash_at s t) (safe J).
Proof.
  intros Hb Hs. apply chl_read; [done|]. intros t Ht. split; [|by apply at_read]. intros b Hin.
  rewrite fc_control by done. by rewrite (at_idle _ _ Hb Ht).
Qed.

Lemma accept_control s v : busy s = false → fs_locked s = false → flash_accept s (Wr FLASH_CR v) = flash_control s (Z.testbit v).
Proof. intros Hb Hl. cbn. by rewrite Hb, Hl. Qed.

(** [CR |= v] and [CR &= ~v] on an idle, unlocked controller. *)
Lemma control_or_spec s s' v :
  busy s = false → fs_locked s = false → flash_control s (λ b, cr_bit s b || Z.testbit v b) = Some s' →
  all_safe s → all_safe s' → chl (flash_at s) (reg_or hw FLASH_CR v) (λ _, flash_at s') (safe J).
Proof.
  intros Hb Hl Hc H1 H2. unfold reg_or. eapply chl_bind; [by apply control_read|]. intros x. apply chl_pure. intros Hx.
  apply chl_write; try done. rewrite accept_control by done. rewrite <- Hc. apply flash_control_ext. intros b Hin.
  by rewrite Z.lor_spec, Hx.
Qed.

Lemma control_andnot_spec s s' v :
  busy s = false → fs_locked s = false → flash_control s (λ b, cr_bit s b && negb (Z.testbit v b)) = Some s' →
  all_safe s → all_safe s' → chl (flash_at s) (reg_andnot hw FLASH_CR v) (λ _, flash_at s') (safe J).
Proof.
  intros Hb Hl Hc H1 H2. unfold reg_andnot. eapply chl_bind; [by apply control_read|]. intros x. apply chl_pure. intros Hx.
  apply chl_write; try done. rewrite accept_control by done. rewrite <- Hc. apply flash_control_ext. intros b Hin.
  assert (0 ≤ b < 32) by (unfold control_bits in Hin; set_unfold in Hin; lia).
  rewrite Z.land_spec, Hx by done. f_equal. unfold u32, wrap. by rewrite Z.mod_pow2_bits_low, Z.lnot_spec by lia.
Qed.

(** *** The lock *)

Lemma unlock_spec s :
  busy s = false → fs_key s = false → all_safe s → J (fs_page s) →
  chl (flash_at s) (flash_unlock hw) (λ _, flash_at (s <| fs_locked := false |>)) (safe J).
Proof.
  intros Hb Hk Hs Hj. unfold flash_unlock. change (FLASH_BASE + 0x10) with FLASH_CR.
  eapply chl_bind; [by apply control_read|]. intros x. apply chl_pure. intros Hx. rewrite bits_set_bit by done.
  rewrite (Hx 7) by (apply (bool_decide_unpack _); done). cbn [cr_bit Z.eqb Pos.eqb].
  destruct (fs_locked s) eqn:Hl.
  - eapply chl_bind; [apply (chl_write s (s <| fs_key := true |>)); try done; [|by apply idle_safe]|].
    { cbn. by rewrite Hl, Hk. }
    intros []. apply chl_write; [done| |by apply idle_safe..]. cbn. rewrite Hl. f_equal. destruct s. cbn in *. by subst.
  - replace (s <| fs_locked := false |>) with s by (destruct s; cbn in *; by subst).
    apply chl_ret. intros t Ht. split; [done|by apply Hs].
Qed.

(** An idle, unlocked controller without error. *)
Record ready (s : FlashState) : Prop := {
  rd_idle : busy s = false;
  rd_unlocked : fs_locked s = false;
  rd_pg : fs_pg s = false;
  rd_per : fs_per s = false;
  rd_error : fs_error s = false
}.

Lemma lock_spec s :
  ready s → J (fs_page s) →
  chl (flash_at s) (flash_lock hw) (λ _, flash_at (s <| fs_locked := true |>)) (safe J).
Proof.
  intros [Hb Hl Hg Hr _] Hj. apply control_or_spec; try done; [|by apply idle_safe..].
  unfold flash_control, cr_bit. cbn -[bit]. unfold busy in Hb. destruct (fs_busy s) eqn:E; [done|]. rewrite Hg, Hr. cbn.
  f_equal. destruct s. cbn in *. by subst.
Qed.

(** *** Programming a halfword *)

Definition half_address (i : nat) (high : bool) : Z := record_address i + if high then 2 else 0.

Lemma half_place_address i high : (i < 256)%nat → half_place (half_address i high) = Some (i, high).
Proof.
  intros Hi. unfold half_place, half_address, record_address, half_index.
  rewrite (proj2 (Z.leb_le _ _)), (proj2 (Z.ltb_lt _ _)) by (destruct high; lia). cbn [andb].
  set (b := if high then 2 else 0). replace (SESSION_PAGE + Z.of_nat i * 4 + b - SESSION_PAGE) with (b + Z.of_nat i * 4) by lia.
  rewrite Z.mod_add, Z.div_add by done. unfold b.
  destruct high; [change (2 mod 4) with 2; change (2 / 4) with 0|change (0 mod 4) with 0; change (0 / 4) with 0];
    rewrite Z.add_0_l, Nat2Z.id; done.
Qed.

Lemma alter_insert (l : list Z) i w f : l !! i = Some w → alter f i l = <[i := f w]> l.
Proof. revert i. induction l as [|x l IH]; intros [|i] Hw; cbn in *; simplify_eq; [done..|]. f_equal. by apply IH. Qed.

(** The halfword reads back. *)
Lemma half_reads t i high w x :
  busy (flash_state t) = false → fs_page (flash_state t) !! i = Some (with_half high w x) → is_u 16 x →
  u16 (hw t (half_address i high)) = x.
Proof.
  intros Hb Hi Hx. unfold half_address. destruct high.
  - rewrite (fc_high _ _ _ Hb Hi). cbn [with_half]. unfold with_high. rewrite Z.shiftr_div_pow2 by done. change (2 ^ 16) with 65536.
    rewrite Z.div_add_l, (Z.div_small (w mod 65536)), Z.add_0_r by (try done; by apply Z.mod_pos_bound). by apply u16_small.
  - rewrite Z.add_0_r, (fc_word _ _ _ Hb Hi). cbn [with_half]. unfold with_low, u16, wrap. change (2 ^ 16) with 65536.
    rewrite Z.add_comm, Z.mod_add by done. apply Z.mod_small. unfold is_u in Hx. by change (2 ^ 16) with 65536 in Hx.
Qed.

(** Programming the erased half of word [i]; a power failure meanwhile leaves any value in
    it. *)
Lemma program_spec s i high w x :
  ready s → (i < 256)%nat → fs_page s !! i = Some w → half_of high w = 0xFFFF → is_u 16 x →
  J (fs_page s) → (∀ y, is_u 16 y → J (<[i := with_half high w y]> (fs_page s))) →
  chl (flash_at s) (flash_program_halfword hw (half_address i high) x)
    (λ b t, b = true ∧ flash_at (s <| fs_page ::= <[i := with_half high w x]> |>) t) (safe J).
Proof.
  intros Hr Hi Hw Herased Hx Hj Htorn. pose proof Hr as [Hb Hl Hg Hp He]. unfold flash_program_halfword.
  change (FLASH_BASE + 0x10) with FLASH_CR.
  set (s1 := s <| fs_pg := true |>). set (s2 := s1 <| fs_busy := Some (Programming i high x) |>).
  set (s' := s <| fs_page ::= <[i := with_half high w x]> |>).
  assert (Hc2 : complete s2 = s' <| fs_pg := true |>).
  { unfold complete, s2, s1, s'. cbn. rewrite (alter_insert _ _ _ _ Hw). unfold busy in Hb. destruct s. cbn in *. by destruct fs_busy0. }
  assert (Hs : all_safe s) by (by apply idle_safe). assert (Hs1 : all_safe s1) by (by apply idle_safe).
  assert (Hs2 : all_safe s2).
  { intros t [Ht|Ht] pg Hpg; rewrite Ht in Hpg.
    - destruct Hpg as (w' & y & Hw' & Hy & ->). assert (w' = w) as -> by (cbn in Hw'; congruence). by apply Htorn.
    - rewrite Hc2 in Hpg. unfold power_loss in Hpg. cbn in Hpg. unfold busy in Hb. destruct (fs_busy s); [done|]. subst. by apply Htorn. }
  assert (Hs3 : all_safe (s' <| fs_pg := true |>)) by (apply idle_safe; [done|by apply Htorn]).
  assert (Hs' : all_safe s') by (apply idle_safe; [done|by apply Htorn]).
  eapply chl_bind; [by apply (wait_spec s)|]. intros [|]; cbv beta; [|by intros p [? _]]. cbn [negb]. apply chl_pure. intros _.
  rewrite (complete_idle s Hb). eapply chl_bind; [apply (control_or_spec s s1 1); try done|].
  { unfold flash_control, cr_bit. cbn. unfold busy in Hb. destruct (fs_busy s) eqn:E; [done|]. rewrite Hp, Hl. cbn.
    f_equal. unfold s1. destruct s. cbn in *. by subst. }
  intros []. eapply chl_bind; [apply (chl_half_write s1 s2); try done|].
  { unfold flash_accept. rewrite (Hb : busy s1 = false), (Hl : fs_locked s1 = false). change (fs_pg s1) with true. cbn [orb negb].
    destruct Hx as [Hx1 Hx2]. change (2 ^ 16) with 65536 in Hx2.
    rewrite (proj2 (Z.leb_le _ _) Hx1), (proj2 (Z.ltb_lt _ _) Hx2). cbn [andb negb].
    rewrite half_place_address by done. change (fs_page s1) with (fs_page s). by rewrite Hw, Herased. }
  intros []. eapply chl_bind; [by apply (wait_spec s2)|]. intros [|]; cbv beta; [|by intros p [? _]]. apply chl_pure. intros _.
  rewrite Hc2. eapply chl_bind; [apply (control_andnot_spec _ s' 1); try done|].
  { unfold flash_control, cr_bit. cbn. unfold busy in Hb. destruct (fs_busy s) eqn:E; [done|]. rewrite Hp, Hl. cbn.
    f_equal. unfold s'. destruct s. cbn in *. by subst. }
  intros []. cbn [negb]. apply (chl_bind _ _ _ (λ y t, y = x ∧ flash_at s' t)).
  - apply (chl_event _ _ _ _ (Rd16 (half_address i high))); [done|]. intros p Hat. destruct (at_read s' (half_address i high) _ Hat) as [_ Hr16].
    split; [|split; by apply Hs']. split; [|done]. cbn [half_read fst]. pose proof (at_idle s' _ Hb Hat) as Hst.
    apply (half_reads _ _ _ w); rewrite ?Hst; try done. apply list_lookup_insert_eq. by apply lookup_lt_Some in Hw.
  - intros y. apply chl_ret. intros t [-> Ht]. rewrite Z.eqb_refl. split; [done|by apply Hs'].
Qed.

(** *** Erasing *)

Lemma erase_spec s :
  ready s → (∀ pg, J pg) →
  chl (flash_at s) (flash_erase_session_page hw)
    (λ b t, b = true ∧ flash_at (s <| fs_ar := SESSION_PAGE |> <| fs_page := blank |>) t) (safe J).
Proof.
  intros Hr Hj. pose proof Hr as [Hb Hl Hg Hp He]. assert (Hall : ∀ s, all_safe s) by (intros s0 t _ pg _; apply Hj).
  unfold flash_erase_session_page. change (FLASH_BASE + 0x10) with FLASH_CR. change (FLASH_BASE + 0x14) with FLASH_AR.
  set (s1 := s <| fs_per := true |>). set (s2 := s1 <| fs_ar := SESSION_PAGE |>). set (s3 := s2 <| fs_busy := Some Erasing |>).
  set (s' := s <| fs_ar := SESSION_PAGE |> <| fs_page := blank |>).
  assert (Hc3 : complete s3 = s' <| fs_per := true |>).
  { unfold complete, s3, s2, s1, s'. cbn. unfold busy in Hb. destruct s. cbn in *. by destruct fs_busy0. }
  eapply chl_bind; [by apply (wait_spec s)|]. intros [|]; cbv beta; [|by intros p [? _]]. cbn [negb]. apply chl_pure. intros _.
  rewrite (complete_idle s Hb). eapply chl_bind; [apply (control_or_spec s s1 (bit 1)); try done|].
  { unfold flash_control, cr_bit. cbn. unfold busy in Hb. destruct (fs_busy s) eqn:E; [done|]. rewrite Hg, Hl. cbn.
    f_equal. unfold s1. destruct s. cbn in *. by subst. }
  intros []. eapply chl_bind; [apply (chl_write s1 s2); try done|].
  { unfold flash_accept. change (FLASH_AR =? FLASH_KEYR) with false. change ((FLASH_AR =? FLASH_CR) || (FLASH_AR =? FLASH_AR)) with true.
    by rewrite (Hb : busy s1 = false), (Hl : fs_locked s1 = false). }
  intros []. eapply chl_bind; [apply (control_or_spec s2 s3 (bit 6)); try done|].
  { unfold flash_control, cr_bit. cbn. unfold busy in Hb. destruct (fs_busy s) eqn:E; [done|]. rewrite Hg, Hl. cbn.
    unfold s3, s2, s1. destruct s. cbn in *. by subst. }
  intros []. eapply chl_bind; [by apply (wait_spec s3)|]. intros [|]; cbv beta; [|by intros p [? _]]. apply chl_pure. intros _.
  rewrite Hc3. eapply chl_bind; [apply (control_andnot_spec _ s' (bit 1)); try done|].
  { unfold flash_control, cr_bit. cbn. unfold busy in Hb. destruct (fs_busy s) eqn:E; [done|]. rewrite Hg, Hl. cbn.
    f_equal. unfold s'. destruct s. cbn in *. by subst. }
  intros []. cbn [negb]. apply (chl_bind _ _ _ (λ y t, y = EMPTY ∧ flash_at s' t)).
  - apply chl_read; [done|]. intros t Ht. split; [|by apply at_read]. pose proof (at_idle s' _ Hb Ht) as Hst.
    change SESSION_PAGE with (record_address 0). apply fc_word; by rewrite Hst.
  - intros y. apply chl_ret. intros t [-> Ht]. split; [done|by apply (Hall s')].
Qed.

(** *** The scan *)

Fixpoint scan_list (ws : list Z) (index : nat) (last empty_address : Z) : Z * Z :=
  match ws with
  | [] => (last, empty_address)
  | w :: ws => let '(last, empty_address) := scan_record last empty_address (record_address index) w in
               scan_list ws (S index) last empty_address
  end.

Lemma scan_spec s count index l e :
  busy s = false → all_safe s → (index + count = length (fs_page s))%nat →
  chl (flash_at s) (scan_journal hw count index l e)
    (λ r t, r = scan_list (drop index (fs_page s)) index l e ∧ flash_at s t) (safe J).
Proof.
  intros Hb Hs. revert index l e. induction count as [|count IH]; intros index l e Hn; cbn [scan_journal].
  - apply chl_ret. intros t Ht. rewrite drop_ge by lia. split; [done|by apply Hs].
  - destruct (lookup_lt_is_Some_2 (fs_page s) index) as [w Hw]; [lia|]. rewrite (drop_S _ _ _ Hw).
    apply (chl_bind _ _ _ (λ x t, x = w ∧ flash_at s t)).
    + apply chl_read; [done|]. intros t Ht. split; [|by apply at_read]. apply fc_word; by rewrite (at_idle _ _ Hb Ht).
    + intros x p [-> Hp]. cbn [scan_list]. unfold record_address.
      destruct (scan_record l e (SESSION_PAGE + Z.of_nat index * 4) w) as [l' e']. apply IH; [lia|done].
Qed.
End Steps.
End Journal.

(** ** What the page says *)

Definition record_counts (w : Z) : bool :=
  negb (u16 (Z.land w 0xFFFF) =? 0) && (u16 (Z.shiftr w 16) =? u16 (Z.lnot (u16 (Z.land w 0xFFFF)))).

Definition last_session (used : list Z) (l : Z) : Z :=
  foldl (λ l w, if record_counts w then u16 (Z.land w 0xFFFF) else l) l used.

(** The session a reader of the page would find: records in the order they were written,
    then empty places. *)
Definition journal (s : Z) (pg : list Z) : Prop :=
  ∃ used k, pg = used ++ replicate k EMPTY ∧ Forall (λ w, w ≠ EMPTY) used ∧ last_session used 0 = s.

Lemma scan_list_used used rest i l e :
  Forall (λ w, w ≠ EMPTY) used →
  scan_list (used ++ rest) i l e = scan_list rest (i + length used) (last_session used l) e.
Proof.
  intros Hu. revert i l. induction Hu as [|w used Hw _ IH]; intros i l; cbn; [by rewrite Nat.add_0_r|].
  unfold scan_record. change 0xFFFFFFFF with EMPTY. rewrite (proj2 (Z.eqb_neq _ _) Hw). rewrite IH.
  by rewrite Nat.add_succ_r.
Qed.

Lemma scan_list_empty k i l e : e ≠ 0 → scan_list (replicate k EMPTY) i l e = (l, e).
Proof.
  intros He. revert i. induction k as [|k IH]; intros i; [done|]. cbn. unfold scan_record.
  rewrite (proj2 (Z.eqb_neq _ _) He). apply IH.
Qed.

Lemma scan_page used k :
  Forall (λ w, w ≠ EMPTY) used →
  scan_list (used ++ replicate k EMPTY) 0 0 0 =
  (last_session used 0, match k with O => 0 | S _ => record_address (length used) end).
Proof.
  intros Hu. rewrite scan_list_used by done. destruct k as [|k]; [done|]. cbn [replicate scan_list scan_record Nat.add].
  unfold scan_record. rewrite Z.eqb_refl. change (0 =? 0) with true. cbv iota.
  apply scan_list_empty. unfold record_address, SESSION_PAGE. lia.
Qed.

Lemma lnot_u16 n : is_u 16 n → u16 (Z.lnot n) = 65535 - n.
Proof.
  intros Hn. unfold u16, wrap, Z.lnot, is_u in *. change (2 ^ 16) with 65536 in *.
  symmetry. apply Z.mod_unique with (-1); lia.
Qed.

Lemma record_fields h l : is_u 16 h → is_u 16 l → u16 (Z.land (h * 65536 + l) 0xFFFF) = l ∧ u16 (Z.shiftr (h * 65536 + l) 16) = h.
Proof.
  intros Hh Hl. change 0xFFFF with (Z.ones 16). rewrite land_ones_mod, Z.shiftr_div_pow2 by done.
  unfold is_u in *. change (2 ^ 16) with 65536 in *.
  rewrite Z.div_add_l, Z.div_small, Z.add_0_r by lia. rewrite Z.add_comm, Z.mod_add, Z.mod_small by lia.
  split; apply u16_small; unfold is_u; change (2 ^ 16) with 65536; lia.
Qed.

(** A complete record counts; half of one does not, whatever a power failure left in it. *)
Lemma full_record n :
  is_u 16 n → n ≠ 0 →
  record_counts (u16 (Z.lnot n) * 65536 + n) = true ∧ u16 (Z.land (u16 (Z.lnot n) * 65536 + n) 0xFFFF) = n ∧
  u16 (Z.lnot n) * 65536 + n ≠ EMPTY.
Proof.
  intros Hn H0. destruct (record_fields (u16 (Z.lnot n)) n (u16_range _) Hn) as [Hl Hh].
  split_and!; [|done|].
  - unfold record_counts. rewrite Hl, Hh, Z.eqb_refl, (proj2 (Z.eqb_neq _ _) H0). done.
  - rewrite lnot_u16 by done. unfold EMPTY, is_u in *. change (2 ^ 16) with 65536 in *. lia.
Qed.

Lemma half_record y : is_u 16 y → record_counts (65535 * 65536 + y) = false.
Proof.
  intros Hy. destruct (record_fields 65535 y ltac:(done) Hy) as [Hl Hh]. unfold record_counts. rewrite Hl, Hh, lnot_u16 by done.
  destruct (Z.eqb_spec y 0) as [->|]; [done|]. rewrite (proj2 (Z.eqb_neq 65535 (65535 - y))) by lia. done.
Qed.

Lemma torn_record y n : is_u 16 y → is_u 16 n → y ≠ u16 (Z.lnot n) → record_counts (y * 65536 + n) = false.
Proof.
  intros Hy Hn Hne. destruct (record_fields y n Hy Hn) as [Hl Hh]. unfold record_counts. rewrite Hl, Hh.
  rewrite (proj2 (Z.eqb_neq _ _) Hne). apply andb_false_r.
Qed.

Lemma last_session_snoc used w : last_session (used ++ [w]) 0 = if record_counts w then u16 (Z.land w 0xFFFF) else last_session used 0.
Proof. unfold last_session. by rewrite foldl_app. Qed.

Lemma last_session_range used : is_u 16 (last_session used 0).
Proof.
  induction used as [|w used IH] using rev_ind; [done|]. rewrite last_session_snoc. destruct (record_counts w); [apply u16_range|done].
Qed.

Lemma next_session_range s : is_u 16 s → is_u 16 (next_session_value s) ∧ next_session_value s ≠ 0 ∧ next_session_value s ≠ s.
Proof.
  unfold next_session_value, is_u. change (2 ^ 16) with 65536. intros Hs. change 0xFFFF with 65535.
  destruct (Z.eqb_spec s 65535); [lia|]. rewrite u16_small by (unfold is_u; change (2 ^ 16) with 65536; lia). lia.
Qed.

Section Write.
Context {hw : history → Z → Z} {fc : FlashController hw}.
Context (used : list Z) (k : nat) (n : Z).
Hypothesis Hused : Forall (λ w, w ≠ EMPTY) used.
Hypothesis Hn : is_u 16 n.
Hypothesis Hn0 : n ≠ 0.

Lemma page_insert w rest x : <[length used := x]> (used ++ w :: rest) = used ++ x :: rest.
Proof. rewrite insert_app_r_alt by lia. by rewrite Nat.sub_diag. Qed.

(** The page with a word at the first empty place. *)
Lemma word_journal w :
  journal (if record_counts w then u16 (Z.land w 0xFFFF) else last_session used 0) (used ++ w :: replicate k EMPTY) ∨
  w = EMPTY.
Proof.
  destruct (decide (w = EMPTY)) as [|He]; [by right|left]. exists (used ++ [w]), k. rewrite <- app_assoc.
  split; [done|]. split; [by apply Forall_app; split; [|constructor]|]. by rewrite last_session_snoc.
Qed.

Lemma empty_journal : journal (last_session used 0) (used ++ EMPTY :: replicate k EMPTY).
Proof. by exists used, (S k). Qed.

(** While the value is being written the old session stands. *)
Lemma value_journal y : is_u 16 y → journal (last_session used 0) (used ++ with_half false EMPTY y :: replicate k EMPTY).
Proof.
  intros Hy. change (with_half false EMPTY y) with (65535 * 65536 + y). destruct (word_journal (65535 * 65536 + y)) as [H| ->];
    [by rewrite half_record in H|apply empty_journal].
Qed.

(** While the complement is being written, the old session or already the new one. *)
Lemma complement_journal y :
  is_u 16 y →
  journal (if y =? u16 (Z.lnot n) then n else last_session used 0) (used ++ y * 65536 + n :: replicate k EMPTY).
Proof.
  intros Hy. destruct (Z.eqb_spec y (u16 (Z.lnot n))) as [->|Hne].
  - destruct (full_record n Hn Hn0) as (Hc & Hv & He). destruct (word_journal (u16 (Z.lnot n) * 65536 + n)) as [H|]; [|done].
    by rewrite Hc, Hv in H.
  - destruct (word_journal (y * 65536 + n)) as [H| ->]; [by rewrite torn_record in H|apply empty_journal].
Qed.

(** Writing a record: the old count until the record is complete, then the new one. *)
Lemma record_spec s (J : list Z → Prop) :
  ready s → (length used < 256)%nat → fs_page s = used ++ EMPTY :: replicate k EMPTY →
  (∀ pg, journal (last_session used 0) pg → J pg) → (∀ pg, journal n pg → J pg) →
  chl (flash_at s)
    (value_ok <- flash_program_halfword hw (record_address (length used)) n;;
     complement_ok <- (if (value_ok : bool)
                       then flash_program_halfword hw (record_address (length used) + 2) (u16 (Z.lnot n))
                       else p_ret false);;
     flash_lock hw;; p_ret (n, complement_ok))
    (λ r t, r = (n, true) ∧ ∃ pg, journal n pg ∧ flash_at (s <| fs_page := pg |> <| fs_locked := true |>) t) (safe J).
Proof.
  intros Hr Hlt Hpage Hold Hnew. set (i := length used). set (page1 := used ++ with_half false EMPTY n :: replicate k EMPTY).
  set (page2 := used ++ u16 (Z.lnot n) * 65536 + n :: replicate k EMPTY).
  assert (H0 : fs_page s !! i = Some EMPTY) by (rewrite Hpage; unfold i; by rewrite lookup_app_r, Nat.sub_diag by lia).
  assert (Hi0 : ∀ x, <[i := x]> (fs_page s) = used ++ x :: replicate k EMPTY) by (intros x; rewrite Hpage; apply page_insert).
  assert (Hi1 : ∀ x, <[i := x]> page1 = used ++ x :: replicate k EMPTY) by (intros x; apply page_insert).
  assert (H1 : page1 !! i = Some (with_half false EMPTY n)) by (unfold page1, i; by rewrite lookup_app_r, Nat.sub_diag by lia).
  assert (Hw : half_of true (with_half false EMPTY n) = 0xFFFF ∧ ∀ y, with_half true (with_half false EMPTY n) y = y * 65536 + n).
  { change (with_half false EMPTY n) with (65535 * 65536 + n). cbn [half_of with_half]. unfold with_high, is_u in *.
    change (2 ^ 16) with 65536 in *. split; [rewrite Z.div_add_l, Z.div_small by lia; done|]. intros y. f_equal.
    rewrite Z.add_comm, Z.mod_add, Z.mod_small by lia. done. }
  assert (J2 : J page2).
  { apply Hnew. pose proof (complement_journal (u16 (Z.lnot n)) (u16_range _)) as H. by rewrite Z.eqb_refl in H. }
  eapply chl_bind.
  { rewrite <- (Z.add_0_r (record_address i)). apply (program_spec J s i false EMPTY n); try done.
    - apply Hold. rewrite Hpage. apply empty_journal.
    - intros y Hy. rewrite Hi0. by apply Hold, value_journal. }
  intros [|]; [|by intros p [? _]]. apply chl_pure. intros _.
  set (s1 := s <| fs_page ::= <[i := with_half false EMPTY n]> |>).
  assert (Hp1 : fs_page s1 = page1) by (apply Hi0). assert (Hr1 : ready s1) by (by destruct Hr).
  eapply chl_bind.
  { apply (program_spec J s1 i true (with_half false EMPTY n) (u16 (Z.lnot n))); rewrite ?Hp1; try done.
    - apply Hw.
    - apply u16_range.
    - by apply Hold, value_journal.
    - intros y Hy. rewrite Hi1, (proj2 Hw). pose proof (complement_journal y Hy) as H. destruct (y =? _); auto. }
  intros [|]; [|by intros p [? _]]. apply chl_pure. intros _.
  set (s2 := s1 <| fs_page ::= _ |>).
  assert (Hp2 : fs_page s2 = page2) by (unfold s2; cbn -[s1]; rewrite Hp1, Hi1, (proj2 Hw); done).
  assert (Hr2 : ready s2) by (by destruct Hr1).
  eapply chl_bind; [apply (lock_spec J s2 Hr2); by rewrite Hp2|]. intros []. apply chl_ret. intros t Ht. split; [split; [done|]|].
  - exists page2. split; [|by rewrite <- Hp2]. pose proof (complement_journal (u16 (Z.lnot n)) (u16_range _)) as H. by rewrite Z.eqb_refl in H.
  - apply (idle_safe J (s2 <| fs_locked := true |>)); [exact (rd_idle _ Hr2)| |done]. by rewrite <- Hp2 in J2.
Qed.
End Write.

(** ** The next session *)

Section NextSession.
Context {hw : history → Z → Z} {fc : FlashController hw}.

(** The controller as a start finds it: locked or not, with nothing going on. *)
Record at_rest (s : FlashState) : Prop := {
  ar_idle : busy s = false;
  ar_key : fs_key s = false;
  ar_pg : fs_pg s = false;
  ar_per : fs_per s = false;
  ar_error : fs_error s = false
}.

Lemma next_session_spec s used k :
  at_rest s → fs_page s = used ++ replicate k EMPTY → Forall (λ w, w ≠ EMPTY) used → (length used + k = 256)%nat →
  let old := last_session used 0 in
  let new := next_session_value old in
  chl (flash_at s) (rcr_platform_next_session hw)
    (λ r t, r = (new, true) ∧ ∃ s', at_rest s' ∧ fs_locked s' = true ∧ journal new (fs_page s') ∧ flash_at s' t)
    (safe (λ pg, k = 0%nat ∨ journal old pg ∨ journal new pg)).
Proof.
  intros [Hb Hk Hg Hp He] Hpage Hu Hlen old new. destruct (next_session_range old (last_session_range used)) as (Hn & Hn0 & _).
  fold new in Hn, Hn0. set (J := λ pg, k = 0%nat ∨ journal old pg ∨ journal new pg).
  assert (Hj : J (fs_page s)) by (right; left; by exists used, k). assert (Hs : all_safe J s) by (by apply idle_safe).
  unfold rcr_platform_next_session. eapply chl_bind.
  { apply (scan_spec J s SESSION_RECORD_COUNT 0 0 0 Hb Hs). rewrite Hpage, length_app, length_replicate. exact (eq_sym Hlen). }
  intros [l e]. apply chl_pure. intros Hr. rewrite drop_0, Hpage, scan_page in Hr by done. injection Hr as -> ->. fold old new.
  eapply chl_bind; [by apply (unlock_spec J s)|]. intros []. set (su := s <| fs_locked := false |>).
  assert (Hsu : ready su) by done. destruct k as [|k].
  - change (0 =? 0) with true. cbv iota.
    set (sb := su <| fs_ar := SESSION_PAGE |> <| fs_page := blank |>).
    apply (chl_bind _ _ _ (λ r t, r = Some SESSION_PAGE ∧ flash_at sb t)).
    { eapply chl_bind; [apply (erase_spec J su Hsu); intros; by left|]. intros b. apply chl_ret. intros t (-> & Ht).
      split; [done|]. intros pg _. by left. }
    intros r. apply chl_pure. intros ->. cbv beta iota.
    eapply chl_conseq; [apply (record_spec [] 255 new ltac:(constructor) Hn Hn0 sb J)|done| |done].
    + done.
    + cbn. lia.
    + done.
    + intros pg _. by left.
    + intros pg _. by left.
    + intros r t (-> & pg & Hjn & Ht). split; [done|]. exists (sb <| fs_page := pg |> <| fs_locked := true |>). by split_and!.
  - rewrite (proj2 (Z.eqb_neq (record_address (length used)) 0)) by (unfold record_address, SESSION_PAGE; lia).
    apply (chl_bind _ _ _ (λ r t, r = Some (record_address (length used)) ∧ flash_at su t)).
    { apply chl_ret. intros t Ht. split; [done|]. by apply (idle_safe J su). }
    intros r. apply chl_pure. intros ->. cbv beta iota.
    eapply chl_conseq; [apply (record_spec used k new Hu Hn Hn0 su J)|done| |done].
    + done.
    + lia.
    + done.
    + intros pg ?. by right; left.
    + intros pg ?. by right; right.
    + intros r t (-> & pg & Hjn & Ht). split; [done|]. exists (su <| fs_page := pg |> <| fs_locked := true |>). by split_and!.
Qed.

(** C22.  The session journal counts starts, across power failures.  The flash controller
    behaves as documented (locked until it has both keys, busy for a while after each
    operation), is at rest and its page holds records and then empty places, the last
    complete record being [s].  A start gets the session after [s] -- never 0, never [s] --,
    the page then records it and the controller is at rest again, locked.  While the page
    had an empty place, a power failure at any point, also in the middle of programming a
    halfword, which may then hold anything, leaves a page that says [s] or already the new
    session; the replacement of a full page is not protected. *)
Theorem session_journal_counts p used k :
  at_rest (flash_state (pl_bus p)) → fs_page (flash_state (pl_bus p)) = used ++ replicate k EMPTY →
  Forall (λ w, w ≠ EMPTY) used → (length used + k = 256)%nat →
  let s := last_session used 0 in
  let '((session, recorded), p') := rcr_platform_next_session hw p in
  recorded = true ∧ session = (if s =? 65535 then 1 else s + 1) ∧ 1 ≤ session ≤ 65535 ∧ session ≠ s ∧
  at_rest (flash_state (pl_bus p')) ∧ fs_locked (flash_state (pl_bus p')) = true ∧
  journal session (fs_page (flash_state (pl_bus p'))) ∧
  ((0 < k)%nat → ∀ t pg, pl_bus p `prefix_of` t → t `prefix_of` pl_bus p' → power_loss (flash_state t) pg →
    journal s pg ∨ journal session pg).
Proof.
  intros Hrest Hpage Hu Hlen s.
  destruct (next_session_spec _ used k Hrest Hpage Hu Hlen p (or_introl eq_refl)) as ((Hr & s' & Hrest' & Hlock & Hj & Hat) & _ & Hc).
  fold s in Hr, Hj, Hc. destruct (next_session_range s (last_session_range used)) as (Hn & Hn0 & Hne).
  destruct (rcr_platform_next_session hw p) as [[session recorded] p']. cbn [fst snd] in *. injection Hr as -> ->.
  apply at_idle in Hat as ->; [|apply Hrest'].
  assert (next_session_value s = if s =? 65535 then 1 else s + 1).
  { pose proof (last_session_range used) as Hs. fold s in Hs. unfold next_session_value. change 0xFFFF with 65535.
    destruct (Z.eqb_spec s 65535); [done|]. apply u16_small. width_lia. }
  split_and!; try done; [width_lia..|]. intros Hk t pg H1 H2 Hpl. destruct (Hc t H1 H2 pg Hpl) as [|]; [lia|done].
Qed.
End NextSession.

(** ** A working controller

    One that behaves as documented, for evaluation: locked after reset, and an operation
    takes until the status register is read. *)

Section Simulated.
Context (page : list Z).

Definition sim_step (s : FlashState) (e : bus_event) : FlashState :=
  match flash_accept s e with
  | Some s' => if decide (e = Rd FLASH_SR) then complete s' else s'
  | None => s
  end.

Definition sim_state (t : history) : FlashState := foldl sim_step (mkFlash true false false false 0 None false page) t.

Definition sim_flash (t : history) (a : Z) : Z :=
  let s := sim_state t in
  if a =? FLASH_SR then if busy s then 1 else 0
  else if a =? FLASH_CR then
    Z.b2z (fs_pg s) + 2 * Z.b2z (fs_per s) + 64 * Z.b2z (cr_bit s 6) + 128 * Z.b2z (fs_locked s)
  else
    let w := default 0 (fs_page s !! half_index a) in
    if (a - SESSION_PAGE) mod 4 =? 0 then w else Z.shiftr w 16.

Lemma sim_state_snoc t e : sim_state (t ++ [e]) = sim_step (sim_state t) e.
Proof. unfold sim_state. by rewrite foldl_app. Qed.

Hypothesis Hpage : length page = SESSION_RECORD_COUNT.

Lemma accept_page s e s' : flash_accept s e = Some s' → fs_page s' = fs_page s.
Proof. unfold flash_accept, flash_control. intros Ha. by repeat case_match; simplify_eq. Qed.

Lemma complete_length s : length (fs_page s) = SESSION_RECORD_COUNT → length (fs_page (complete s)) = SESSION_RECORD_COUNT.
Proof. unfold complete. destruct (fs_busy s) as [[]|]; cbn; [by rewrite length_alter|done..]. Qed.

Lemma sim_length t : length (fs_page (sim_state t)) = SESSION_RECORD_COUNT.
Proof.
  induction t as [|e t IH] using rev_ind; [done|]. rewrite sim_state_snoc. unfold sim_step.
  destruct (flash_accept (sim_state t) e) as [s'|] eqn:Ha; [|done]. apply accept_page in Ha. rewrite <- Ha in IH.
  destruct (decide _); [by apply complete_length|done].
Qed.

Lemma sim_word t i w (high : bool) :
  fs_page (sim_state t) !! i = Some w →
  sim_flash t (record_address i + if high then 2 else 0) = if high then Z.shiftr w 16 else w.
Proof.
  intros Hw. pose proof (lookup_lt_Some _ _ _ Hw) as Hlt. rewrite sim_length in Hlt. unfold SESSION_RECORD_COUNT in Hlt.
  unfold sim_flash. set (b := if high then 2 else 0).
  assert (Hne : record_address i + b ≠ FLASH_SR ∧ record_address i + b ≠ FLASH_CR)
    by (unfold b, record_address, FLASH_SR, FLASH_CR, FLASH_BASE, SESSION_PAGE; destruct high; lia).
  rewrite (proj2 (Z.eqb_neq _ _) (proj1 Hne)), (proj2 (Z.eqb_neq _ _) (proj2 Hne)).
  unfold half_index, record_address. replace (SESSION_PAGE + Z.of_nat i * 4 + b - SESSION_PAGE) with (b + Z.of_nat i * 4) by lia.
  rewrite Z.mod_add, Z.div_add by done. unfold b.
  destruct high; [change (2 mod 4) with 2; change (2 / 4) with 0|change (0 mod 4) with 0; change (0 / 4) with 0];
    rewrite Z.add_0_l, Nat2Z.id, Hw; done.
Qed.

#[export] Instance sim_controller : FlashController sim_flash.
Proof.
  refine {| flash_state := sim_state; fc_reads := 1 |}.
  - intros t e s Ha. rewrite sim_state_snoc. unfold sim_step. rewrite Ha. destruct (decide _); auto.
  - apply Nat.ltb_lt. vm_compute. reflexivity.
  - intros t. cbn [replicate]. rewrite sim_state_snoc. unfold sim_step. cbn [flash_accept].
    destruct (decide (Rd FLASH_SR = Rd FLASH_SR)); [apply complete_busy|done].
  - intros t. unfold sim_flash. change (FLASH_SR =? FLASH_SR) with true. by destruct (busy (sim_state t)).
  - intros t _. unfold sim_flash. change (FLASH_SR =? FLASH_SR) with true. by destruct (busy (sim_state t)).
  - intros t b Hb. unfold sim_flash. change (FLASH_CR =? FLASH_SR) with false. change (FLASH_CR =? FLASH_CR) with true. cbv iota zeta.
    unfold control_bits in Hb. set_unfold in Hb.
    assert (Hc : ∀ pg per strt lock : bool,
      forallb (λ b, Bool.eqb (Z.testbit (Z.b2z pg + 2 * Z.b2z per + 64 * Z.b2z strt + 128 * Z.b2z lock) b)
        (if b =? 0 then pg else if b =? 1 then per else if b =? 6 then strt else if b =? 7 then lock else false)) control_bits = true)
      by (intros [] [] [] []; vm_compute; reflexivity).
    specialize (Hc (fs_pg (sim_state t)) (fs_per (sim_state t)) (cr_bit (sim_state t) 6) (fs_locked (sim_state t))).
    rewrite forallb_forall in Hc. apply eqb_prop, Hc. unfold control_bits. cbn. intuition.
  - intros t i w _ Hw. pose proof (sim_word t i w false Hw) as H. by rewrite Z.add_0_r in H.
  - intros t i w _ Hw. exact (sim_word t i w true Hw).
Defined.
End Simulated.

Definition demo_records (n : nat) : list Z := map (λ i, u16 (Z.lnot (Z.of_nat i)) * 65536 + Z.of_nat i) (seq 1 n).
Definition demo_page (n : nat) : list Z := demo_records n ++ replicate (256 - n) EMPTY.

(** The third start on a page, and the start that finds the page full. *)
Lemma session_journal_counts_witness :
  let boot n := fst (rcr_platform_next_session (sim_flash (demo_page n)) (initial_platform [])) in
  boot 2%nat = (3, true) ∧ boot 256%nat = (257, true).
Proof.
  assert (Hgen : ∀ n s, (n ≤ 256)%nat → Forall (λ w, w ≠ EMPTY) (demo_records n) → last_session (demo_records n) 0 = s → s ≠ 65535 →
    fst (rcr_platform_next_session (sim_flash (demo_page n)) (initial_platform [])) = (s + 1, true)).
  { intros n s Hn Hu Hs Hs'. subst s.
    assert (Hlen : (length (demo_records n) + (256 - n) = 256)%nat) by (unfold demo_records; rewrite length_map, length_seq; lia).
    assert (Hpg : length (demo_page n) = SESSION_RECORD_COUNT) by (unfold demo_page; by rewrite length_app, length_replicate).
    pose proof (session_journal_counts (hw := sim_flash (demo_page n)) (fc := sim_controller (demo_page n) Hpg)
      (initial_platform []) (demo_records n) (256 - n) ltac:(by constructor) eq_refl Hu Hlen) as H. cbv zeta in H.
    destruct (rcr_platform_next_session (sim_flash (demo_page n)) (initial_platform [])) as [[session recorded] p'].
    destruct H as (-> & -> & _). rewrite (proj2 (Z.eqb_neq _ _) Hs'). done. }
  cbv zeta. split.
  - apply (Hgen 2%nat 2); [lia|by apply (bool_decide_unpack _)|reflexivity|done].
  - apply (Hgen 256%nat 256); [lia|by apply (bool_decide_unpack _)|vm_compute; reflexivity|done].
Defined.
