(* ===== verification/McuProbe.v ===== *)
(** * The arbitration probe

    firmware/stm32f103/src/arbitration_probe.c: the diagnostic firmware that sends
    low-priority frames without retransmission and counts what became of them. *)

From S2P Require Import Prelude Types McuCan McuNode McuInput McuPlatform McuMain.
Local Open Scope Z_scope.
#[local] Open Scope prog_scope.

Definition RCR_PROBE_PERIOD_MS : Z := 1.
Definition RCR_PROBE_DURATION_MS : Z := 30000.
Definition UINT32_MAX : Z := 0xFFFFFFFF.

(** The volatile counters and the two times of [main]. *)
Record probe_state := mkProbe {
  pb_attempts : Z;
  pb_tx_ok : Z;
  pb_arbitration_lost : Z;
  pb_tx_error : Z;
  pb_done : Z;
  pb_start_ms : Z;
  pb_next_send_ms : Z
}.

#[export] Instance probe_eta : Eta probe_state :=
  mkEta _ (fun s => mkProbe (pb_attempts s) (pb_tx_ok s) (pb_arbitration_lost s) (pb_tx_error s) (pb_done s)
    (pb_start_ms s) (pb_next_send_ms s)).

Definition incr32 (v : Z) : Z := u32 (v + 1).

Section Probe.
Context (hw : list bus_event → Z → Z).

(** [inl]: stopped with the error mark. *)
Definition probe_start : Prog (probe_state + probe_state) :=
  up <- rcr_platform_init hw;;
  begun <- (if (up : bool) then rcr_platform_arbitration_probe_begin hw else p_ret false);;
  if negb begun then p_ret (inl (mkProbe 0 0 0 UINT32_MAX 1 0 0))
  else
    start_ms <- call hw rcr_platform_millis;;
    p_ret (inr (mkProbe 0 0 0 0 0 start_ms start_ms)).

Definition count_result (r : rcr_platform_probe_tx_result_t) (s : probe_state) : probe_state :=
  match r with
  | PROBE_TX_OK => s <| pb_tx_ok ::= incr32 |>
  | PROBE_TX_ARBITRATION_LOST => s <| pb_arbitration_lost ::= incr32 |>
  | PROBE_TX_ERROR => s <| pb_tx_error ::= incr32 |>
  | PROBE_TX_NONE => s
  end.

Definition outcomes (s : probe_state) : Z :=
  u32 (u32 (pb_tx_ok s + pb_arbitration_lost s) + pb_tx_error s).

(** One turn; also whether a frame was handed to the mailbox and what was collected. *)
Definition probe_turn (s : probe_state) : Prog (probe_state * rcr_platform_probe_tx_result_t * bool) :=
  result <- call hw (rcr_platform_arbitration_probe_poll hw);;
  let s := count_result result s in
  now_ms <- call hw rcr_platform_millis;;
  if negb (time_after_or_equal now_ms (u32 (pb_start_ms s + RCR_PROBE_DURATION_MS))) then
    sent <- (if time_after_or_equal now_ms (pb_next_send_ms s)
             then call hw (rcr_platform_arbitration_probe_try_send hw (u32 (pb_attempts s + 1)))
             else p_ret false);;
    if (sent : bool) then
      let s := s <| pb_attempts ::= incr32 |> <| pb_next_send_ms ::= λ t, u32 (t + RCR_PROBE_PERIOD_MS) |> in
      let s := if time_after_or_equal now_ms (pb_next_send_ms s)
               then s <| pb_next_send_ms := u32 (now_ms + RCR_PROBE_PERIOD_MS) |> else s in
      p_ret (s, result, true)
    else p_ret (s, result, false)
  else
    let s := match result with
             | PROBE_TX_NONE => if pb_attempts s =? outcomes s then s <| pb_done := 1 |> else s
             | _ => s
             end in
    p_ret (s, result, false).
End Probe.

Definition collected (r : rcr_platform_probe_tx_result_t) : Z :=
  match r with PROBE_TX_NONE => 0 | _ => 1 end.

Lemma count_outcomes r s : outcomes (count_result r s) = u32 (outcomes s + collected r).
Proof.
  unfold outcomes. destruct r; cbn; unfold incr32, u32, wrap; generalize (2 ^ 32); intros M.
  - by rewrite Z.add_0_r, Zmod_mod.
  - rewrite !Zplus_mod_idemp_l, <- !Z.add_assoc, !Zplus_mod_idemp_l. apply (f_equal (λ x, x mod M)). lia.
  - rewrite Zplus_mod_idemp_r. rewrite !Zplus_mod_idemp_l, <- !Z.add_assoc, !Zplus_mod_idemp_l. apply (f_equal (λ x, x mod M)). lia.
  - rewrite Zplus_mod_idemp_r. rewrite !Zplus_mod_idemp_l, <- !Z.add_assoc, !Zplus_mod_idemp_l. apply (f_equal (λ x, x mod M)). lia.
Qed.

(** The books balance: attempts grow by the frames handed over, outcomes by the results
    collected, and the probe is only declared done when the two are equal. *)
Lemma probe_turn_accounts hw s p :
  let '(s', result, sent, p') := probe_turn hw s p in
  pb_attempts s' = (if (sent : bool) then incr32 (pb_attempts s) else pb_attempts s) ∧
  outcomes s' = u32 (outcomes s + collected result) ∧
  (pb_done s = 0 → pb_done s' = 1 → pb_attempts s' = outcomes s').
Proof.
  unfold probe_turn, p_bind. destruct (call hw (rcr_platform_arbitration_probe_poll hw) p) as [result p1].
  assert (Hc : outcomes (count_result result s) = u32 (outcomes s + collected result) ∧
    pb_attempts (count_result result s) = pb_attempts s ∧ pb_done (count_result result s) = pb_done s)
    by (split; [apply count_outcomes|by destruct result]).
  set (s1 := count_result result s) in *. destruct Hc as (Ho & Ha & Hd). clearbody s1.
  destruct (call hw rcr_platform_millis p1) as [now p2]. destruct (negb _).
  - destruct (time_after_or_equal now (pb_next_send_ms s1));
      [destruct (call hw (rcr_platform_arbitration_probe_try_send hw _) p2) as [[] p3]|]; cbn.
    + destruct (time_after_or_equal _ _); cbn; rewrite Ha; split_and!; try done; cbn; lia.
    + split_and!; try done. lia.
    + split_and!; try done. lia.
  - destruct result; cbn; try (split_and!; try done; lia).
    destruct (Z.eqb_spec (pb_attempts s1) (outcomes s1)); cbn; split_and!; try done. lia.
Qed.
