(* ===== verification/ModbusRtu.v ===== *)
(** * Modbus RTU frames

    include/rcr/workbench/services/modbus_rtu.hpp and
    src/workbench/services/modbus_rtu.cpp: the requests and replies of the serial line,
    a body followed by its CRC-16, low byte first.  A reply is accepted only when its
    CRC, slave, function, length and content fit the request; an exception reply is a
    decoded value of its own. *)

From S2P Require Import Prelude Types Bytes.
Local Open Scope Z_scope.

Definition kModbusFnReadCoils : Z := 0x01.
Definition kModbusFnReadDiscreteInputs : Z := 0x02.
Definition kModbusFnWriteSingleCoil : Z := 0x05.
Definition kMr0IoRegisterStart : Z := 0.
Definition kMr0IoBitQuantity : Z := 8.

Definition modbus_rtu_crc16 (data : list Z) : Z := crc16 data.

(** ** Hexadecimal text *)

(** One digit of ["%02x"]. *)
Definition hex_digit (d : Z) : string :=
  String (Ascii.ascii_of_nat (Z.to_nat (if d <? 10 then 48 + d else 87 + d))) "".

Definition bytes_to_hex (data : list Z) : string :=
  foldr (λ b out, hex_digit (b / 16) +:+ hex_digit (b mod 16) +:+ out) "" data.

(** ** Requests *)

(** [(value >> 8) & 0xFF] and [value & 0xFF], cast to 8 bits. *)
Definition u16_be (value : Z) : list Z :=
  [u8 (Z.land (Z.shiftr value 8) 0xFF); u8 (Z.land value 0xFF)].

(** The CRC of the frame so far, appended low byte first. *)
Definition append_crc (frame : list Z) : list Z :=
  let crc := modbus_rtu_crc16 frame in
  frame ++ [u8 (Z.land crc 0xFF); u8 (Z.land (Z.shiftr crc 8) 0xFF)].

Definition encode_rtu_read (slave_id function address quantity : Z) : list Z :=
  append_crc ([slave_id; function] ++ u16_be address ++ u16_be quantity).

Definition encode_rtu_write_single_coil (slave_id address : Z) (on : bool) : list Z :=
  append_crc ([slave_id; kModbusFnWriteSingleCoil] ++ u16_be address ++
              [if on then 0xFF else 0x00; 0x00]).

(** ** Replies *)

Record ModbusRtuReadBits := mkReadBits {
  rb_slave_id : Z;
  rb_function : Z;
  rb_bit_count : Z;
  rb_bit_byte : Z;
  rb_exception : bool;
  rb_exception_code : Z
}.

Record ModbusRtuWriteCoil := mkWriteCoil {
  wc_slave_id : Z;
  wc_function : Z;
  wc_address : Z;
  wc_on : bool;
  wc_exception : bool;
  wc_exception_code : Z
}.

#[export] Instance ModbusRtuReadBits_eq_dec : EqDecision ModbusRtuReadBits.
Proof. solve_decision. Defined.
#[export] Instance ModbusRtuWriteCoil_eq_dec : EqDecision ModbusRtuWriteCoil.
Proof. solve_decision. Defined.

(** The last two bytes, low byte first. *)
Definition crc_got (frame : list Z) : Z :=
  u16 (Z.lor (byte_at frame (length frame - 2)) (Z.shiftl (byte_at frame (length frame - 1)) 8)).

Definition crc_calc (frame : list Z) : Z := modbus_rtu_crc16 (take (length frame - 2) frame).

Definition decode_rtu_read_bits (frame : list Z) (expected_slave expected_function : Z)
    : Result ModbusRtuReadBits :=
  if (length frame <? 5)%nat then fail_with Errc.InvalidArgument "RTU reply shorter than 5 bytes"
  else if negb (crc_got frame =? crc_calc frame) then fail_with Errc.Rejected "RTU CRC mismatch"
  else if negb (byte_at frame 0 =? expected_slave) then
    fail_with Errc.Rejected "RTU slave id mismatch"
  else
    let slave_id := byte_at frame 0 in
    let function := byte_at frame 1 in
    if negb (Z.land function 0x80 =? 0) then
      Ok (mkReadBits slave_id function 0 0 true
            (if (2 <? length frame)%nat then byte_at frame 2 else 0))
    else if negb (function =? expected_function) then
      fail_with Errc.Rejected "RTU function mismatch"
    else if (length frame <? 6)%nat then
      fail_with Errc.InvalidArgument "RTU bit reply missing data"
    else
      let byte_count := byte_at frame 2 in
      if (byte_count <? 1) || negb (Z.of_nat (length frame) =? 5 + byte_count) then
        fail_with Errc.InvalidArgument "RTU bit reply length mismatch"
      else Ok (mkReadBits slave_id function 8 (byte_at frame 3) false 0).

Definition decode_rtu_write_single_coil (frame : list Z) (expected_slave expected_address : Z)
    (expected_on : bool) : Result ModbusRtuWriteCoil :=
  if (length frame <? 5)%nat then
    fail_with Errc.InvalidArgument "RTU write reply shorter than 5 bytes"
  else if negb (crc_got frame =? crc_calc frame) then fail_with Errc.Rejected "RTU CRC mismatch"
  else if negb (byte_at frame 0 =? expected_slave) then
    fail_with Errc.Rejected "RTU slave id mismatch"
  else
    let slave_id := byte_at frame 0 in
    let function := byte_at frame 1 in
    if negb (Z.land function 0x80 =? 0) then
      Ok (mkWriteCoil slave_id function 0 false true
            (if (2 <? length frame)%nat then byte_at frame 2 else 0))
    else if negb (function =? kModbusFnWriteSingleCoil) then
      fail_with Errc.Rejected "RTU function mismatch"
    else if negb (length frame =? 8)%nat then
      fail_with Errc.InvalidArgument "RTU FC05 reply length mismatch"
    else
      let address := u16 (Z.lor (Z.shiftl (byte_at frame 2) 8) (byte_at frame 3)) in
      let on := (byte_at frame 4 =? 0xFF) && (byte_at frame 5 =? 0x00) in
      if negb (address =? expected_address) then
        fail_with Errc.Rejected "RTU FC05 address mismatch"
      else if negb (Bool.eqb on expected_on) then
        fail_with Errc.Rejected "RTU FC05 value mismatch"
      else Ok (mkWriteCoil slave_id function address on false 0).

(** ** The frame layer *)

Lemma append_crc_framed frame : append_crc frame = crc_framed frame.
Proof. done. Qed.

Lemma crc_framed_length body : length (crc_framed body) = (length body + 2)%nat.
Proof. unfold crc_framed. by rewrite length_app, le_bytes_length. Qed.

Lemma crc_framed_at body i : (i < length body)%nat → byte_at (crc_framed body) i = byte_at body i.
Proof. intros. unfold crc_framed. by apply byte_at_app_l. Qed.

Lemma crc_framed_inj l1 l2 : crc_framed l1 = crc_framed l2 → l1 = l2.
Proof.
  intros H. pose proof (f_equal length H) as Hl. rewrite !crc_framed_length in Hl.
  apply app_inj_1 in H as [H _]; [done|lia].
Qed.

(** The CRC test of both decoders accepts exactly the framed bodies. *)
Lemma crc_check_framed body : bytes_wf body → crc_got (crc_framed body) = crc_calc (crc_framed body).
Proof.
  intros Hb. pose proof (crc16_range body Hb) as Hr. unfold crc_got, crc_calc, modbus_rtu_crc16.
  rewrite crc_framed_length. replace (length body + 2 - 2)%nat with (length body + 0)%nat by lia.
  replace (length body + 2 - 1)%nat with (length body + 1)%nat by lia.
  unfold crc_framed at 3. rewrite Nat.add_0_r, take_app_length.
  assert (Hrd : le_read 2 (length body) (crc_framed body) = crc16 body).
  { apply (le_read_written 2 _ _ _ []); [|done]. unfold crc_framed. by rewrite drop_app_length, app_nil_r. }
  unfold le_read in Hrd. cbn [seq foldl] in Hrd. rewrite Nat.add_0_r, Z.lor_0_l, Z.shiftl_0_r in Hrd.
  change (8 * Z.of_nat 1) with 8 in Hrd. rewrite Hrd. by apply u16_small.
Qed.

Lemma crc_check_iff frame :
  bytes_wf frame → (5 ≤ length frame)%nat →
  crc_got frame = crc_calc frame ↔ ∃ body, frame = crc_framed body ∧ bytes_wf body.
Proof.
  intros Hw Hl. split; [|by intros (body & -> & Hb); apply crc_check_framed].
  intros He. set (body := take (length frame - 2) frame).
  assert (Hbl : length body = (length frame - 2)%nat) by (unfold body; rewrite length_take; lia).
  destruct (drop (length frame - 2) frame) as [|x [|y [|]]] eqn:Hd;
    try (apply (f_equal length) in Hd; rewrite length_drop in Hd; cbn in Hd; lia).
  assert (Hf : frame = body ++ [x; y]) by (unfold body; by rewrite <- Hd, take_drop).
  assert (Hwb : bytes_wf body ∧ is_byte x ∧ is_byte y).
  { rewrite Hf in Hw. apply Forall_app in Hw as [? [? [? _]%Forall_cons]%Forall_cons]. done. }
  destruct Hwb as (Hb & Hx & Hy). exists body. split; [|done]. rewrite Hf. unfold crc_framed.
  f_equal. unfold crc_got, crc_calc, modbus_rtu_crc16 in He. fold body in He. rewrite <- He.
  assert (H1 : byte_at frame (length frame - 2) = x)
    by (unfold byte_at; rewrite Hf at 2; rewrite lookup_app_r, Hbl, Nat.sub_diag by lia; done).
  assert (H2 : byte_at frame (length frame - 1) = y).
  { unfold byte_at. rewrite Hf at 2. rewrite lookup_app_r by lia. rewrite Hbl.
    by replace (length frame - 1 - (length frame - 2))%nat with 1%nat by lia. }
  rewrite H1, H2, Z.lor_comm, lor_shiftl_add by (done || (unfold is_byte in Hx; width_lia)).
  unfold is_byte in Hx, Hy. rewrite u16_small by width_lia.
  change (le_bytes 2 ?z) with [le_byte z 0; le_byte z 1]. rewrite !le_byte_value.
  change (2 ^ (8 * Z.of_nat 0)) with 1. change (2 ^ (8 * Z.of_nat 1)) with 256. change (2 ^ 8) with 256.
  rewrite Z.div_1_r, Z.add_comm, Z.mod_add, Z.div_add, (Z.mod_small x), (Z.div_small x) by width_lia.
  rewrite Z.add_0_l, Z.mod_small by width_lia. done.
Qed.

(** ** Which replies are accepted *)

Lemma u16_be_value v : is_u 16 v → u16_be v = [v / 256; v mod 256].
Proof.
  intros Hv. unfold u16_be. change 0xFF with (Z.ones 8).
  rewrite land_mask_div, land_ones_mod by done. change (2 ^ 8) with 256.
  assert (0 ≤ v / 256 < 256) by (split; [apply Z.div_pos|apply Z.div_lt_upper_bound]; width_lia).
  pose proof (Z.mod_pos_bound v 256 ltac:(done)).
  rewrite (Z.mod_small (v / 256)), !u8_small by width_lia. done.
Qed.

Lemma u16_be_iff a b v :
  is_byte a → is_byte b → is_u 16 v → u16 (Z.lor (Z.shiftl a 8) b) = v ↔ [a; b] = u16_be v.
Proof.
  unfold is_byte. intros Ha Hb Hv. rewrite u16_be_value by done.
  rewrite lor_shiftl_add by (done || width_lia). change (2 ^ 8) with 256.
  rewrite u16_small by width_lia. split.
  - intros <-. by rewrite Z.div_add_l, Z.div_small, Z.add_0_r, Z.add_comm, Z.mod_add, Z.mod_small by width_lia.
  - intros [= -> ->]. pose proof (Z.div_mod v 256). lia.
Qed.

(** Bodies of at least three bytes, as both decoders see them. *)
Lemma framed_view body :
  (3 ≤ length body)%nat →
  (length (crc_framed body) <? 5)%nat = false ∧ (2 <? length (crc_framed body))%nat = true ∧
  byte_at (crc_framed body) 0 = byte_at body 0 ∧ byte_at (crc_framed body) 1 = byte_at body 1 ∧
  byte_at (crc_framed body) 2 = byte_at body 2.
Proof.
  intros. rewrite crc_framed_length, Nat.ltb_ge, Nat.ltb_lt, !crc_framed_at by lia.
  repeat split; lia.
Qed.

(** What a master may take as the answer to its FC05 request: the echo, whose value
    field says ON exactly as [0xFF00], or an exception of that slave. *)
Inductive write_reply (slave address : Z) (on : bool) : list Z → ModbusRtuWriteCoil → Prop :=
  | write_echo v1 v2 :
      (v1 =? 0xFF) && (v2 =? 0x00) = on →
      write_reply slave address on ([slave; kModbusFnWriteSingleCoil] ++ u16_be address ++ [v1; v2])
        (mkWriteCoil slave kModbusFnWriteSingleCoil address on false 0)
  | write_exception function code rest :
      Z.land function 0x80 ≠ 0 →
      write_reply slave address on (slave :: function :: code :: rest)
        (mkWriteCoil slave function 0 false true code).

(** The answer to a request for bits: [count] data bytes, the first one used. *)
Inductive read_reply (slave function : Z) : list Z → ModbusRtuReadBits → Prop :=
  | read_data bits rest :
      Z.land function 0x80 = 0 →
      read_reply slave function (slave :: function :: (1 + Z.of_nat (length rest)) :: bits :: rest)
        (mkReadBits slave function 8 bits false 0)
  | read_exception f code rest :
      Z.land f 0x80 ≠ 0 →
      read_reply slave function (slave :: f :: code :: rest) (mkReadBits slave f 0 0 true code).

Lemma write_body_decoded body slave address on w :
  bytes_wf body → (3 ≤ length body)%nat → is_u 16 address →
  decode_rtu_write_single_coil (crc_framed body) slave address on = Ok w ↔
  write_reply slave address on body w.
Proof.
  intros Hb Hl Ha. unfold decode_rtu_write_single_coil.
  destruct (framed_view body Hl) as (-> & -> & -> & -> & ->).
  rewrite crc_check_framed, Z.eqb_refl, crc_framed_length by done. cbn [negb].
  destruct body as [|s [|f [|c rest]]]; try (cbn in Hl; lia).
  change (byte_at (s :: f :: c :: rest) 0) with s. change (byte_at (s :: f :: c :: rest) 1) with f.
  change (byte_at (s :: f :: c :: rest) 2) with c.
  destruct (Z.eqb_spec s slave) as [->|Hs]; cbn [negb]; [|by split; [|inversion 1]].
  destruct (Z.eqb_spec (Z.land f 0x80) 0) as [Hf|Hf]; cbn [negb].
  2:{ split; [intros [= <-]; by constructor|]. by inversion 1; subst. }
  destruct (Z.eqb_spec f kModbusFnWriteSingleCoil) as [->|Hfn]; cbn [negb].
  2:{ split; [done|]. inversion 1; subst; done. }
  destruct (Nat.eqb_spec (length (slave :: kModbusFnWriteSingleCoil :: c :: rest) + 2) 8) as [H8|H8];
    cbn [negb].
  2:{ split; [done|]. inversion 1; subst; [cbn in H8; lia|done]. }
  destruct rest as [|b3 [|b4 [|b5 [|]]]]; try (cbn in H8; lia).
  rewrite !crc_framed_at by (cbn; lia).
  change (byte_at [slave; kModbusFnWriteSingleCoil; c; b3; b4; b5] 3) with b3.
  change (byte_at [slave; kModbusFnWriteSingleCoil; c; b3; b4; b5] 4) with b4.
  change (byte_at [slave; kModbusFnWriteSingleCoil; c; b3; b4; b5] 5) with b5.
  apply Forall_cons in Hb as [_ [_ [Hc [H3 _]%Forall_cons]%Forall_cons]%Forall_cons].
  pose proof (u16_be_iff c b3 address Hc H3 Ha) as Hadr.
  destruct (Z.eqb_spec (u16 (Z.lor (Z.shiftl c 8) b3)) address) as [He|He]; cbn [negb].
  - apply Hadr in He as Hcb. rewrite He. destruct (Bool.eqb _ on) eqn:Hon; cbn [negb].
    + apply Bool.eqb_prop in Hon. rewrite Hon. split.
      * intros [= <-]. pose proof (write_echo slave address on b4 b5 Hon) as Hw.
        by rewrite <- Hcb in Hw.
      * by inversion 1; subst.
    + split; [done|]. inversion 1; subst; [|done]. by rewrite Bool.eqb_reflx in Hon.
  - split; [done|]. inversion 1; subst; [|done]. exfalso. by apply He, Hadr.
Qed.

Lemma read_body_decoded body slave function r :
  bytes_wf body → (3 ≤ length body)%nat →
  decode_rtu_read_bits (crc_framed body) slave function = Ok r ↔ read_reply slave function body r.
Proof.
  intros Hb Hl. unfold decode_rtu_read_bits.
  destruct (framed_view body Hl) as (-> & -> & -> & -> & ->).
  rewrite crc_check_framed, Z.eqb_refl, crc_framed_length by done. cbn [negb].
  destruct body as [|s [|f [|c rest]]]; try (cbn in Hl; lia).
  change (byte_at (s :: f :: c :: rest) 0) with s. change (byte_at (s :: f :: c :: rest) 1) with f.
  change (byte_at (s :: f :: c :: rest) 2) with c.
  destruct (Z.eqb_spec s slave) as [->|Hs]; cbn [negb]; [|by split; [|inversion 1]].
  destruct (Z.eqb_spec (Z.land f 0x80) 0) as [Hf|Hf]; cbn [negb].
  2:{ split; [intros [= <-]; by constructor|]. by inversion 1; subst. }
  destruct (Z.eqb_spec f function) as [->|Hfn]; cbn [negb].
  2:{ split; [done|]. inversion 1; subst; done. }
  destruct rest as [|bits rest]; [cbn; split; [done|by inversion 1; subst]|].
  replace (length (slave :: function :: c :: bits :: rest) + 2 <? 6)%nat with false
    by (symmetry; apply Nat.ltb_ge; cbn; lia).
  rewrite crc_framed_at by (cbn; lia).
  change (byte_at (slave :: function :: c :: bits :: rest) 3) with bits.
  destruct ((c <? 1) || _) eqn:Hg.
  - split; [done|]. inversion 1; subst; [|done]. exfalso.
    apply orb_true_iff in Hg as [Hg|Hg]; bools; cbn [length] in *; lia.
  - bools. cbn [length] in *. assert (c = 1 + Z.of_nat (length rest)) as -> by lia. split.
    + intros [= <-]. by constructor.
    + by inversion 1; subst.
Qed.

(** Both decoders, on any bytes that arrived: a reply is accepted exactly when it is a
    framed body of the reply grammar. *)
Lemma short_body_rejected frame slave address on w function r :
  (length frame < 5)%nat →
  decode_rtu_write_single_coil frame slave address on ≠ Ok w ∧
  decode_rtu_read_bits frame slave function ≠ Ok r.
Proof.
  intros Hl. unfold decode_rtu_write_single_coil, decode_rtu_read_bits.
  rewrite (proj2 (Nat.ltb_lt _ _)) by done. done.
Qed.

Lemma accepted_write frame slave address on w :
  bytes_wf frame → is_u 16 address →
  decode_rtu_write_single_coil frame slave address on = Ok w →
  ∃ body, frame = crc_framed body ∧ write_reply slave address on body w.
Proof.
  intros Hw Ha Hd. destruct (Nat.lt_ge_cases (length frame) 5) as [Hl|Hl].
  { by apply (short_body_rejected frame slave address on w 0 (mkReadBits 0 0 0 0 false 0)) in Hl as [? _]. }
  assert (Hc : crc_got frame = crc_calc frame).
  { unfold decode_rtu_write_single_coil in Hd. rewrite (proj2 (Nat.ltb_ge _ _)) in Hd by done.
    by destruct (Z.eqb_spec (crc_got frame) (crc_calc frame)). }
  apply crc_check_iff in Hc as (body & -> & Hb); [|done|done]. exists body. split; [done|].
  apply write_body_decoded; try done. rewrite crc_framed_length in Hl. lia.
Qed.

(** The decoder of write replies accepts exactly the replies of the protocol: whatever
    bytes arrive, it answers a value if and only if they are a body followed by its CRC
    whose body is the addressed slave's echo of this very write (address and value) or an
    exception of that slave, and the value says which. *)
Theorem write_reply_accepted frame slave address on w :
  bytes_wf frame → is_u 16 address →
  decode_rtu_write_single_coil frame slave address on = Ok w ↔
  ∃ body, frame = crc_framed body ∧ write_reply slave address on body w.
Proof.
  intros Hw Ha. split; [by apply accepted_write|].
  intros (body & -> & Hr). apply Forall_app in Hw as [Hb _]. apply write_body_decoded; try done.
  by destruct Hr; cbn; lia.
Qed.

Lemma write_reply_accepted_witness :
  decode_rtu_write_single_coil (encode_rtu_write_single_coil 1 2 true) 1 2 true =
  Ok (mkWriteCoil 1 5 2 true false 0).
Proof.
  apply (write_reply_accepted (encode_rtu_write_single_coil 1 2 true) 1 2 true).
  - vm_compute. repeat constructor; discriminate.
  - done.
  - exists [1; 5; 0; 2; 0xFF; 0]. split; [done|]. by apply (write_echo 1 2 true 0xFF 0).
Defined.

Lemma read_reply_accepted frame slave function r :
  bytes_wf frame →
  decode_rtu_read_bits frame slave function = Ok r ↔
  ∃ body, frame = crc_framed body ∧ read_reply slave function body r.
Proof.
  intros Hw. split.
  - intros Hd. destruct (Nat.lt_ge_cases (length frame) 5) as [Hl|Hl].
    { by apply (short_body_rejected frame slave 0 true (mkWriteCoil 0 0 0 false false 0) function r)
        in Hl as [_ ?]. }
    assert (Hc : crc_got frame = crc_calc frame).
    { unfold decode_rtu_read_bits in Hd. rewrite (proj2 (Nat.ltb_ge _ _)) in Hd by done.
      by destruct (Z.eqb_spec (crc_got frame) (crc_calc frame)). }
    apply crc_check_iff in Hc as (body & -> & Hb); [|done|done]. exists body. split; [done|].
    apply read_body_decoded; try done. rewrite crc_framed_length in Hl. lia.
  - intros (body & -> & Hr). apply Forall_app in Hw as [Hb _]. apply read_body_decoded; try done.
    by destruct Hr; cbn; lia.
Qed.

(** Line noise is never taken for an answer: when any two adjacent bytes of a framed
    reply change, in its body or its CRC, both decoders refuse it with a CRC mismatch. *)
Theorem corrupted_reply_refused body pre a b a' b' post slave address on function :
  bytes_wf body → (3 ≤ length body)%nat →
  crc_framed body = pre ++ [a; b] ++ post → is_byte a' → is_byte b' → [a; b] ≠ [a'; b'] →
  decode_rtu_write_single_coil (pre ++ [a'; b'] ++ post) slave address on =
    fail_with Errc.Rejected "RTU CRC mismatch" ∧
  decode_rtu_read_bits (pre ++ [a'; b'] ++ post) slave function =
    fail_with Errc.Rejected "RTU CRC mismatch".
Proof.
  intros Hb Hl Hf Ha' Hb' Hne. set (bad := pre ++ [a'; b'] ++ post).
  assert (Hlen : length bad = (length body + 2)%nat).
  { rewrite <- (crc_framed_length body), Hf. unfold bad. rewrite !length_app. done. }
  assert (Hw : bytes_wf bad).
  { assert (H : bytes_wf (crc_framed body)) by (apply Forall_app; split; [done|apply le_bytes_wf]).
    rewrite Hf in H. unfold bad. rewrite !Forall_app in *. destruct H as (? & _ & ?).
    repeat (split; [done|]). split; [by repeat (apply Forall_cons; split; [done|])|done]. }
  assert (Hne' : crc_got bad ≠ crc_calc bad).
  { intros (other & Ho & _)%crc_check_iff; [|done|lia].
    assert (Hol : length other = length body)
      by (pose proof (f_equal length Ho) as H; rewrite crc_framed_length, Hlen in H; lia).
    apply (crc_framed_burst body pre a b a' b' post other (le_byte (crc16 other) 0)
      (le_byte (crc16 other) 1)); try done.
    change (bytes_wf (crc_framed other)). by rewrite <- Ho. }
  unfold decode_rtu_write_single_coil, decode_rtu_read_bits.
  rewrite (proj2 (Nat.ltb_ge _ _)) by lia. by rewrite (proj2 (Z.eqb_neq _ _)).
Qed.

Lemma corrupted_reply_refused_witness :
  decode_rtu_write_single_coil ([1; 5; 0; 3; 0xFE] ++ skipn 5 (crc_framed [1; 5; 0; 2; 0xFF; 0])) 1 3 true =
    fail_with Errc.Rejected "RTU CRC mismatch".
Proof.
  apply (corrupted_reply_refused [1; 5; 0; 2; 0xFF; 0] [1; 5; 0] 2 0xFF 3 0xFE
           (skipn 5 (crc_framed [1; 5; 0; 2; 0xFF; 0])) 1 3 true 5).
  - repeat constructor; discriminate.
  - cbn. lia.
  - done.
  - done.
  - done.
  - done.
Defined.
