(* ===== verification/ModbusIo.v ===== *)
(** * The digital I/O of the workbench, and its mock

    include/rcr/workbench/profile/mock_modbus_io_profile.hpp and
    src/workbench/profile/mock_modbus_io_profile.cpp: the four inputs and four outputs a
    view shows ([ModbusIoSnapshot], shared with the physical service), and the
    deterministic mock device.  An output keeps what was requested apart from what was
    confirmed; the mock confirms, times out or refuses a write as injected.  A state or
    status filled from a received byte without a check can have no enumerator: [Unnamed]. *)

From S2P Require Import Prelude Types Bytes Application.
Local Open Scope Z_scope.

Definition kModbusIoChannelCount : nat := 4.
Definition kAllModbusIoChannels : Z := 0xFF.

Module ModbusScanState.
Inductive ModbusScanState := Unknown | Scanning | Complete | Error.
End ModbusScanState.
Notation ModbusScanState := ModbusScanState.ModbusScanState.

Module ModbusDeviceState.
Inductive ModbusDeviceState := Unknown | Online | Timeout | Error | Unnamed (byte : Z).
End ModbusDeviceState.
Notation ModbusDeviceState := ModbusDeviceState.ModbusDeviceState.

Module IoStatus.
Inductive ModbusIoCommandStatus :=
  | None | Confirmed | Timeout | Exception | Rejected | InvalidChannel | Busy | Unnamed (byte : Z).
End IoStatus.
Notation ModbusIoCommandStatus := IoStatus.ModbusIoCommandStatus.

#[export] Instance ModbusScanState_eq_dec : EqDecision ModbusScanState.
Proof. solve_decision. Defined.
#[export] Instance ModbusDeviceState_eq_dec : EqDecision ModbusDeviceState.
Proof. solve_decision. Defined.
#[export] Instance ModbusIoCommandStatus_eq_dec : EqDecision ModbusIoCommandStatus.
Proof. solve_decision. Defined.

Definition scan_state_to_string (s : ModbusScanState) : string :=
  match s with
  | ModbusScanState.Unknown => "UNKNOWN"
  | ModbusScanState.Scanning => "SCANNING"
  | ModbusScanState.Complete => "COMPLETE"
  | ModbusScanState.Error => "ERROR"
  end.

Definition device_state_to_string (s : ModbusDeviceState) : string :=
  match s with
  | ModbusDeviceState.Unknown => "UNKNOWN"
  | ModbusDeviceState.Online => "ONLINE"
  | ModbusDeviceState.Timeout => "TIMEOUT"
  | ModbusDeviceState.Error => "ERROR"
  | ModbusDeviceState.Unnamed _ => "UNKNOWN"
  end.

Definition io_status_to_string (s : ModbusIoCommandStatus) : string :=
  match s with
  | IoStatus.None => "NONE"
  | IoStatus.Confirmed => "CONFIRMED"
  | IoStatus.Timeout => "TIMEOUT"
  | IoStatus.Exception => "EXCEPTION"
  | IoStatus.Rejected => "REJECTED"
  | IoStatus.InvalidChannel => "INVALID_CHANNEL"
  | IoStatus.Busy => "BUSY"
  | IoStatus.Unnamed _ => "UNKNOWN"
  end.

Record ModbusSlaveSummary := mkSlaveSummary {
  ss_slave_id : Z;
  ss_state : ModbusDeviceState;
  ss_detail : string
}.

Record DigitalInputState := mkDigitalInput { di_channel : Z; di_active : bool }.

Record DigitalOutputState := mkDigitalOutput {
  do_channel : Z;
  do_requested : bool;
  do_confirmed : bool;
  do_last_status : ModbusIoCommandStatus
}.

#[export] Instance DigitalInput_eta : Eta DigitalInputState :=
  mkEta _ (fun d => mkDigitalInput (di_channel d) (di_active d)).
#[export] Instance DigitalOutput_eta : Eta DigitalOutputState :=
  mkEta _ (fun d => mkDigitalOutput (do_channel d) (do_requested d) (do_confirmed d)
    (do_last_status d)).

Record ModbusTransaction := mkTransaction {
  tr_direction : string;
  tr_slave_id : Z;
  tr_function : Z;
  tr_address : Z;
  tr_quantity : Z;
  tr_result : string;
  tr_rtt_ns : Z;
  tr_tx_hex : string;
  tr_rx_hex : string
}.

#[export] Instance Transaction_eta : Eta ModbusTransaction :=
  mkEta _ (fun t => mkTransaction (tr_direction t) (tr_slave_id t) (tr_function t) (tr_address t)
    (tr_quantity t) (tr_result t) (tr_rtt_ns t) (tr_tx_hex t) (tr_rx_hex t)).

(** [ModbusTransaction{}]. *)
Definition no_transaction : ModbusTransaction := mkTransaction "NONE" 0 0 0 0 "" 0 "" "".

Record ModbusIoSnapshot := mkIoSnapshot {
  mi_backend : string;
  mi_evidence : EvidenceClass;
  mi_no_physical_rs485 : bool;
  mi_transport : string;
  mi_serial_port : string;
  mi_agent_peer : string;
  mi_sku : string;
  mi_baud_rate_placeholder : Z;
  mi_baud_rate : Z;
  mi_parity_placeholder : string;
  mi_parity : string;
  mi_slave_id : Z;
  mi_scan_state : ModbusScanState;
  mi_device_state : ModbusDeviceState;
  mi_digital_inputs : list DigitalInputState;
  mi_digital_outputs : list DigitalOutputState;
  mi_slaves : list ModbusSlaveSummary;
  mi_last_command_status : ModbusIoCommandStatus;
  mi_last_transaction : ModbusTransaction;
  mi_last_update_monotonic_ns : Z;
  mi_last_error : string
}.

#[export] Instance IoSnapshot_eta : Eta ModbusIoSnapshot :=
  mkEta _ (fun s => mkIoSnapshot (mi_backend s) (mi_evidence s) (mi_no_physical_rs485 s)
    (mi_transport s) (mi_serial_port s) (mi_agent_peer s) (mi_sku s) (mi_baud_rate_placeholder s)
    (mi_baud_rate s) (mi_parity_placeholder s) (mi_parity s) (mi_slave_id s) (mi_scan_state s)
    (mi_device_state s) (mi_digital_inputs s) (mi_digital_outputs s) (mi_slaves s)
    (mi_last_command_status s) (mi_last_transaction s) (mi_last_update_monotonic_ns s)
    (mi_last_error s)).

(** [ModbusIoSnapshot{}]. *)
Definition default_io_snapshot : ModbusIoSnapshot :=
  mkIoSnapshot "MOCK" EvidenceClass.Mock true "Modbus RTU (planned)" "NOT CONNECTED" "n/a" ""
    9600 9600 "None (placeholder)" "None" 1 ModbusScanState.Unknown ModbusDeviceState.Online
    (replicate kModbusIoChannelCount (mkDigitalInput 0 false))
    (replicate kModbusIoChannelCount (mkDigitalOutput 0 false false IoStatus.None))
    [] IoStatus.None no_transaction 0 "".

(** The constructors' loop: channel [i] of each array gets number [i]. *)
Definition number_channels (s : ModbusIoSnapshot) : ModbusIoSnapshot :=
  s <| mi_digital_inputs ::= imap (λ i d, d <| di_channel := u8 (Z.of_nat i) |>) |>
    <| mi_digital_outputs ::= imap (λ i d, d <| do_channel := u8 (Z.of_nat i) |>) |>.

Definition set_output (channel : nat) (f : DigitalOutputState → DigitalOutputState)
    (s : ModbusIoSnapshot) : ModbusIoSnapshot :=
  s <| mi_digital_outputs ::= alter f channel |>.

(** [digital_outputs[channel]]; the channel was checked. *)
Definition output_at (channel : nat) (s : ModbusIoSnapshot) : DigitalOutputState :=
  default (mkDigitalOutput 0 false false IoStatus.None) (mi_digital_outputs s !! channel).

Definition input_at (channel : nat) (s : ModbusIoSnapshot) : DigitalInputState :=
  default (mkDigitalInput 0 false) (mi_digital_inputs s !! channel).

Record ModbusIoCommandReply := mkIoReply {
  ir_status : ModbusIoCommandStatus;
  ir_channel : Z;
  ir_requested : bool;
  ir_confirmed : bool;
  ir_message : string
}.

Definition io_reply_accepted (r : ModbusIoCommandReply) : bool := ir_status r ==? IoStatus.Confirmed.

Lemma output_at_set c f s i :
  (c < length (mi_digital_outputs s))%nat →
  output_at i (set_output c f s) = if (i =? c)%nat then f (output_at c s) else output_at i s.
Proof.
  intros Hc. unfold output_at, set_output. cbn. destruct (Nat.eqb_spec i c) as [->|Hi].
  - rewrite list_lookup_alter_eq. by destruct (lookup_lt_is_Some_2 _ _ Hc) as [d ->].
  - by rewrite list_lookup_alter_ne.
Qed.

Lemma set_output_length c f s :
  length (mi_digital_outputs (set_output c f s)) = length (mi_digital_outputs s).
Proof. apply length_alter. Qed.

(** ** The mock device *)

Record MockModbusIoConfig := mkMockIoConfig {
  mc_primary_slave_id : Z;
  mc_scan_results : list ModbusSlaveSummary
}.

Definition default_mock_io_config : MockModbusIoConfig :=
  mkMockIoConfig 1
    [mkSlaveSummary 1 ModbusDeviceState.Online "MOCK ONLINE";
     mkSlaveSummary 2 ModbusDeviceState.Timeout "MOCK TIMEOUT";
     mkSlaveSummary 3 ModbusDeviceState.Online "MOCK ONLINE"].

Record MockModbusIoProfile := mkMockIo {
  mk_config : MockModbusIoConfig;
  mk_snapshot : ModbusIoSnapshot;
  mk_next_write_outcome : ModbusIoCommandStatus
}.

#[export] Instance MockIo_eta : Eta MockModbusIoProfile :=
  mkEta _ (fun m => mkMockIo (mk_config m) (mk_snapshot m) (mk_next_write_outcome m)).

Definition mock_message (message : string) : string := "MOCK / NO PHYSICAL RS485: " +:+ message.

Definition mock_io_new (config : MockModbusIoConfig) : MockModbusIoProfile :=
  let s := number_channels (default_io_snapshot <| mi_slave_id := mc_primary_slave_id config |>) in
  let s :=
    if (mc_primary_slave_id config =? 0) || (247 <? mc_primary_slave_id config) then
      s <| mi_device_state := ModbusDeviceState.Error |>
        <| mi_scan_state := ModbusScanState.Error |>
        <| mi_last_error := mock_message "invalid primary slave id" |>
    else s in
  mkMockIo config s IoStatus.Confirmed.

Definition snap (f : ModbusIoSnapshot → ModbusIoSnapshot) (m : MockModbusIoProfile)
    : MockModbusIoProfile := m <| mk_snapshot ::= f |>.

Definition update_time (now_ns : Z) (m : MockModbusIoProfile) : bool * MockModbusIoProfile :=
  if (now_ns <? 0) || (now_ns <? mi_last_update_monotonic_ns (mk_snapshot m)) then
    (false, snap (λ s, s <| mi_last_error := mock_message "monotonic timestamp moved backwards" |>) m)
  else (true, snap (λ s, s <| mi_last_update_monotonic_ns := now_ns |>) m).

Definition consume_write_outcome (m : MockModbusIoProfile)
    : ModbusIoCommandStatus * MockModbusIoProfile :=
  (mk_next_write_outcome m, m <| mk_next_write_outcome := IoStatus.Confirmed |>).

Definition begin_scan (now_ns : Z) (m : MockModbusIoProfile) : bool * MockModbusIoProfile :=
  let '(ok, m) := update_time now_ns m in
  if negb ok then (false, snap (λ s, s <| mi_scan_state := ModbusScanState.Error |>) m)
  else if mi_scan_state (mk_snapshot m) ==? ModbusScanState.Scanning then
    (false, snap (λ s, s <| mi_last_error := mock_message "scan already in progress" |>) m)
  else
    (true, snap (λ s, s <| mi_scan_state := ModbusScanState.Scanning |> <| mi_slaves := [] |>
                        <| mi_last_error := "" |>) m).

Definition complete_scan (now_ns : Z) (m : MockModbusIoProfile) : bool * MockModbusIoProfile :=
  let '(ok, m) := update_time now_ns m in
  if negb ok then (false, snap (λ s, s <| mi_scan_state := ModbusScanState.Error |>) m)
  else if negb (mi_scan_state (mk_snapshot m) ==? ModbusScanState.Scanning) then
    (false, snap (λ s, s <| mi_scan_state := ModbusScanState.Error |>
                         <| mi_last_error := mock_message "complete_scan requires SCANNING" |>) m)
  else
    let m := snap (λ s, s <| mi_slaves := mc_scan_results (mk_config m) |>) m in
    match List.find (λ slave, ss_slave_id slave =? mc_primary_slave_id (mk_config m))
            (mi_slaves (mk_snapshot m)) with
    | None =>
        (false, snap (λ s, s <| mi_scan_state := ModbusScanState.Error |>
                             <| mi_device_state := ModbusDeviceState.Error |>
                             <| mi_last_error := mock_message "primary slave missing from scan result" |>) m)
    | Some primary =>
        (true, snap (λ s, s <| mi_scan_state := ModbusScanState.Complete |>
                            <| mi_device_state := ss_state primary |>
                            <| mi_last_error := "" |>) m)
    end.

Definition invalid_channel (channel : nat) (now_ns : Z) (m : MockModbusIoProfile)
    : ModbusIoCommandReply * MockModbusIoProfile :=
  let '(_, m) := update_time now_ns m in
  let m := snap (λ s, s <| mi_last_error := mock_message "channel must be in range 0..3" |>) m in
  let reported_channel :=
    if 255 <? Z.of_nat channel then kAllModbusIoChannels else u8 (Z.of_nat channel) in
  (mkIoReply IoStatus.InvalidChannel reported_channel false false (mi_last_error (mk_snapshot m)), m).

Definition set_mock_digital_input (channel : nat) (active : bool) (now_ns : Z)
    (m : MockModbusIoProfile) : ModbusIoCommandReply * MockModbusIoProfile :=
  if (kModbusIoChannelCount <=? channel)%nat then invalid_channel channel now_ns m
  else
    let '(ok, m) := update_time now_ns m in
    if negb ok then
      (mkIoReply IoStatus.Rejected (u8 (Z.of_nat channel)) active
         (di_active (input_at channel (mk_snapshot m)))
         (mock_message "non-monotonic input timestamp rejected"), m)
    else
      (mkIoReply IoStatus.Confirmed (u8 (Z.of_nat channel)) active active
         (mock_message (if active then "DI injection confirmed ON" else "DI injection confirmed OFF")),
       snap (λ s, s <| mi_digital_inputs ::= alter (λ d, d <| di_active := active |>) channel |>
                    <| mi_last_error := "" |>) m).

(** The outcome on the snapshot and the reply; the channel is below four or
    [kAllModbusIoChannels]. *)
Definition finish_write (channel : Z) (requested confirmed_before : bool)
    (outcome : ModbusIoCommandStatus) (m : MockModbusIoProfile)
    : ModbusIoCommandReply * MockModbusIoProfile :=
  let c := Z.to_nat channel in
  let m :=
    if negb (channel =? kAllModbusIoChannels) then
      snap (set_output c (λ d,
        let d := d <| do_last_status := outcome |> in
        if outcome ==? IoStatus.Confirmed then d <| do_confirmed := requested |> else d)) m
    else m in
  let confirmed :=
    if negb (channel =? kAllModbusIoChannels) then do_confirmed (output_at c (mk_snapshot m))
    else confirmed_before in
  match outcome with
  | IoStatus.Confirmed =>
      (mkIoReply outcome channel requested confirmed (mock_message "DO request confirmed"),
       snap (λ s, s <| mi_device_state := ModbusDeviceState.Online |> <| mi_last_error := "" |>) m)
  | IoStatus.Timeout =>
      let e := mock_message "simulated write timeout" in
      (mkIoReply outcome channel requested confirmed e,
       snap (λ s, s <| mi_device_state := ModbusDeviceState.Timeout |> <| mi_last_error := e |>) m)
  | IoStatus.Exception =>
      let e := mock_message "simulated Modbus exception" in
      (mkIoReply outcome channel requested confirmed e,
       snap (λ s, s <| mi_device_state := ModbusDeviceState.Error |> <| mi_last_error := e |>) m)
  | IoStatus.Rejected =>
      let e := mock_message "simulated write rejection" in
      (mkIoReply outcome channel requested confirmed e, snap (λ s, s <| mi_last_error := e |>) m)
  | IoStatus.None | IoStatus.InvalidChannel | IoStatus.Busy =>
      let e := mock_message "invalid injected write outcome" in
      (mkIoReply outcome channel requested confirmed e, snap (λ s, s <| mi_last_error := e |>) m)
  | IoStatus.Unnamed _ =>
      (mkIoReply outcome channel requested confirmed (mi_last_error (mk_snapshot m)), m)
  end.

Definition write_digital_output (channel : nat) (active : bool) (now_ns : Z)
    (m : MockModbusIoProfile) : ModbusIoCommandReply * MockModbusIoProfile :=
  if (kModbusIoChannelCount <=? channel)%nat then invalid_channel channel now_ns m
  else
    let '(ok, m) := update_time now_ns m in
    if negb ok then
      (mkIoReply IoStatus.Rejected (u8 (Z.of_nat channel)) active
         (do_confirmed (output_at channel (mk_snapshot m)))
         (mock_message "non-monotonic output timestamp rejected"), m)
    else
      let confirmed_before := do_confirmed (output_at channel (mk_snapshot m)) in
      let m := snap (set_output channel (λ d, d <| do_requested := active |>)) m in
      let '(outcome, m) := consume_write_outcome m in
      finish_write (u8 (Z.of_nat channel)) active confirmed_before outcome m.

Definition mock_write_all_outputs_off (now_ns : Z) (m : MockModbusIoProfile)
    : ModbusIoCommandReply * MockModbusIoProfile :=
  let '(ok, m) := update_time now_ns m in
  if negb ok then
    (mkIoReply IoStatus.Rejected kAllModbusIoChannels false false
       (mock_message "non-monotonic all-off timestamp rejected"), m)
  else
    let m := snap (λ s, s <| mi_digital_outputs ::= fmap (λ d, d <| do_requested := false |>) |>) m in
    let '(outcome, m) := consume_write_outcome m in
    let m :=
      if outcome ==? IoStatus.Confirmed then
        snap (λ s, s <| mi_digital_outputs ::=
          fmap (λ d, d <| do_confirmed := false |> <| do_last_status := outcome |>) |>) m
      else
        snap (λ s, s <| mi_digital_outputs ::= fmap (λ d, d <| do_last_status := outcome |>) |>) m in
    finish_write kAllModbusIoChannels false false outcome m.

Definition set_next_write_outcome (outcome : ModbusIoCommandStatus) (m : MockModbusIoProfile)
    : MockModbusIoProfile :=
  m <| mk_next_write_outcome :=
    match outcome with
    | IoStatus.Confirmed | IoStatus.Timeout | IoStatus.Exception | IoStatus.Rejected => outcome
    | IoStatus.None | IoStatus.InvalidChannel | IoStatus.Busy => IoStatus.Rejected
    | IoStatus.Unnamed _ => mk_next_write_outcome m
    end |>.

(** ** What the mock promises *)

Inductive MockIoOp :=
  | OpBeginScan (now_ns : Z)
  | OpCompleteScan (now_ns : Z)
  | OpSetInput (channel : nat) (active : bool) (now_ns : Z)
  | OpWriteOutput (channel : nat) (active : bool) (now_ns : Z)
  | OpAllOutputsOff (now_ns : Z)
  | OpNextOutcome (outcome : ModbusIoCommandStatus).

(** One call and the reply it returned, if it returns one. *)
Definition mock_io_call (op : MockIoOp) (m : MockModbusIoProfile)
    : option ModbusIoCommandReply * MockModbusIoProfile :=
  match op with
  | OpBeginScan now => (None, (begin_scan now m).2)
  | OpCompleteScan now => (None, (complete_scan now m).2)
  | OpSetInput c a now => let '(r, m) := set_mock_digital_input c a now m in (Some r, m)
  | OpWriteOutput c a now => let '(r, m) := write_digital_output c a now m in (Some r, m)
  | OpAllOutputsOff now => let '(r, m) := mock_write_all_outputs_off now m in (Some r, m)
  | OpNextOutcome o => (None, set_next_write_outcome o m)
  end.

(** The device as its user may picture it: four inputs and four outputs that change when,
    and only when, a call for them was answered with [Confirmed]. *)
Record Terminal := mkTerminal { t_inputs : list bool; t_outputs : list bool }.

Definition terminal_step (op : MockIoOp) (r : option ModbusIoCommandReply) (t : Terminal) : Terminal :=
  match r with
  | Some r =>
      if io_reply_accepted r then
        match op with
        | OpSetInput c a _ => mkTerminal (<[c := a]> (t_inputs t)) (t_outputs t)
        | OpWriteOutput c a _ => mkTerminal (t_inputs t) (<[c := a]> (t_outputs t))
        | OpAllOutputsOff _ => mkTerminal (t_inputs t) (replicate kModbusIoChannelCount false)
        | _ => t
        end
      else t
  | None => t
  end.

Definition terminal_of (s : ModbusIoSnapshot) : Terminal :=
  mkTerminal (di_active <$> mi_digital_inputs s) (do_confirmed <$> mi_digital_outputs s).

Fixpoint mock_io_run (ops : list MockIoOp) (t : Terminal) (m : MockModbusIoProfile)
    : Terminal * MockModbusIoProfile :=
  match ops with
  | [] => (t, m)
  | op :: ops => let '(r, m) := mock_io_call op m in mock_io_run ops (terminal_step op r t) m
  end.

(** Sizes and clock; each call keeps them. *)
Definition mock_wf (m : MockModbusIoProfile) : Prop :=
  length (mi_digital_inputs (mk_snapshot m)) = kModbusIoChannelCount ∧
  length (mi_digital_outputs (mk_snapshot m)) = kModbusIoChannelCount ∧
  0 ≤ mi_last_update_monotonic_ns (mk_snapshot m).

(** A call that leaves the terminal alone and does not turn the clock back. *)
Definition mock_quiet (m m' : MockModbusIoProfile) : Prop :=
  mi_digital_inputs (mk_snapshot m') = mi_digital_inputs (mk_snapshot m) ∧
  mi_digital_outputs (mk_snapshot m') = mi_digital_outputs (mk_snapshot m) ∧
  mi_last_update_monotonic_ns (mk_snapshot m) ≤ mi_last_update_monotonic_ns (mk_snapshot m').

Lemma update_time_quiet now m ok m' : update_time now m = (ok, m') → mock_quiet m m'.
Proof.
  unfold update_time, mock_quiet. destruct (_ || _) eqn:E; intros [= <- <-]; cbn; bools;
    split_and!; try done; lia.
Qed.

Lemma begin_scan_quiet now m : mock_quiet m (begin_scan now m).2.
Proof.
  unfold begin_scan. destruct (update_time now m) as [ok m'] eqn:E.
  apply update_time_quiet in E. unfold mock_quiet in *. by split_guards.
Qed.

Lemma complete_scan_quiet now m : mock_quiet m (complete_scan now m).2.
Proof.
  unfold complete_scan. destruct (update_time now m) as [ok m'] eqn:E.
  apply update_time_quiet in E. unfold mock_quiet in *. by split_guards.
Qed.

Lemma invalid_channel_quiet c now m r m' :
  invalid_channel c now m = (r, m') → mock_quiet m m' ∧ io_reply_accepted r = false.
Proof.
  unfold invalid_channel. destruct (update_time now m) as [ok m1] eqn:E.
  apply update_time_quiet in E. unfold mock_quiet in *. by intros [= <- <-].
Qed.

Lemma fmap_alter_insert {A B} (g : A → B) (f : A → A) (b : B) i (l : list A) :
  (∀ a, g (f a) = b) → g <$> alter f i l = <[i := b]> (g <$> l).
Proof.
  intros Hg. revert i. induction l as [|a l IH]; intros [|i]; cbn; [done..|by rewrite Hg|].
  f_equal. apply IH.
Qed.

Lemma fmap_alter_same {A B} (g : A → B) (f : A → A) i (l : list A) :
  (∀ a, g (f a) = g a) → g <$> alter f i l = g <$> l.
Proof.
  intros Hg. revert i. induction l as [|a l IH]; intros [|i]; cbn; [done..|by rewrite Hg|].
  f_equal. apply IH.
Qed.

Lemma fmap_replicate_const {A B} (g : A → B) b (l : list A) :
  (∀ a, g a = b) → map g l = replicate (length l) b.
Proof. intros Hg. induction l; cbn; by f_equal. Qed.

(** A call's effect on the terminal, with sizes and clock kept. *)
Definition mock_effect (op : MockIoOp) (r : option ModbusIoCommandReply) (m m' : MockModbusIoProfile)
    : Prop :=
  mock_wf m' ∧
  terminal_of (mk_snapshot m') = terminal_step op r (terminal_of (mk_snapshot m)) ∧
  mi_last_update_monotonic_ns (mk_snapshot m) ≤ mi_last_update_monotonic_ns (mk_snapshot m').

Lemma quiet_effect op r m m' :
  mock_wf m → mock_quiet m m' → (∀ x, r = Some x → io_reply_accepted x = false) →
  mock_effect op r m m'.
Proof.
  unfold mock_effect, mock_wf, mock_quiet. intros (Hi & Ho & Ht) (Hi' & Ho' & Ht') Hr. unfold terminal_of.
  rewrite Hi', Ho'. split_and!; try done; try lia.
  destruct r as [x|]; [|done]. cbn. by rewrite (Hr x eq_refl).
Qed.

(** [finish_write] on one channel changes that output's confirmed bit exactly when the
    outcome is [Confirmed], and the reply carries the outcome. *)
Lemma finish_write_channel c a before o m r m' :
  (c < kModbusIoChannelCount)%nat →
  finish_write (u8 (Z.of_nat c)) a before o m = (r, m') →
  ir_status r = o ∧
  mi_digital_inputs (mk_snapshot m') = mi_digital_inputs (mk_snapshot m) ∧
  do_confirmed <$> mi_digital_outputs (mk_snapshot m') =
    (if o ==? IoStatus.Confirmed then <[c := a]> else id)
      (do_confirmed <$> mi_digital_outputs (mk_snapshot m)) ∧
  length (mi_digital_outputs (mk_snapshot m')) = length (mi_digital_outputs (mk_snapshot m)) ∧
  mi_last_update_monotonic_ns (mk_snapshot m') = mi_last_update_monotonic_ns (mk_snapshot m).
Proof.
  unfold kModbusIoChannelCount. intros Hc. unfold finish_write, kAllModbusIoChannels.
  rewrite u8_small by width_lia. rewrite (proj2 (Z.eqb_neq _ _)), Nat2Z.id by lia. cbn [negb].
  destruct o; cbn; intros [= <- <-]; cbn; rewrite ?length_alter; split_and!; try done;
    [by apply fmap_alter_same|by apply fmap_alter_insert|by apply fmap_alter_same..].
Qed.

Lemma write_output_effect c a now m r m' :
  mock_wf m → write_digital_output c a now m = (r, m') →
  mock_effect (OpWriteOutput c a now) (Some r) m m'.
Proof.
  unfold write_digital_output. intros Hw.
  destruct (Nat.leb_spec kModbusIoChannelCount c) as [Hc|Hc].
  { intros [Hq Ha]%invalid_channel_quiet. apply quiet_effect; try done. by intros x [= <-]. }
  destruct (update_time now m) as [ok m1] eqn:Hu. pose proof (update_time_quiet _ _ _ _ Hu) as Hq.
  destruct ok; cbn [negb].
  2:{ intros [= <- <-]. apply quiet_effect; try done. by intros x [= <-]. }
  cbn [consume_write_outcome]. intros Hf. apply finish_write_channel in Hf as (Hs & Hi & Ho & Hl & Ht); [|done].
  destruct Hw as (Hwi & Hwo & Hwt), Hq as (Hqi & Hqo & Hqt). cbn in *.
  rewrite length_alter in Hl. unfold mock_effect, mock_wf, terminal_of. rewrite Hi, Ho, Ht, Hl, Hqi, Hqo.
  rewrite fmap_alter_same by done. split_and!; try done; try lia.
  cbn. unfold io_reply_accepted. rewrite Hs. by destruct (_ ==? _).
Qed.

Lemma all_off_effect now m r m' :
  mock_wf m → mock_write_all_outputs_off now m = (r, m') →
  mock_effect (OpAllOutputsOff now) (Some r) m m'.
Proof.
  unfold mock_write_all_outputs_off. intros Hw.
  destruct (update_time now m) as [ok m1] eqn:Hu. pose proof (update_time_quiet _ _ _ _ Hu) as Hq.
  destruct ok; cbn [negb].
  2:{ intros [= <- <-]. apply quiet_effect; try done. by intros x [= <-]. }
  destruct Hw as (Hwi & Hwo & Hwt), Hq as (Hqi & Hqo & Hqt).
  unfold finish_write. cbn [consume_write_outcome].
  destruct (mk_next_write_outcome _) eqn:Hn; cbn; intros [= <- <-]; unfold mock_effect, mock_wf, terminal_of;
    cbn; rewrite !length_map, Hqi, Hqo, !map_map; split_and!; try done; try lia.
  f_equal. unfold fmap, list_fmap. by rewrite (fmap_replicate_const _ false), Hwo.
Qed.

Lemma set_input_effect c a now m r m' :
  mock_wf m → set_mock_digital_input c a now m = (r, m') →
  mock_effect (OpSetInput c a now) (Some r) m m'.
Proof.
  unfold set_mock_digital_input. intros Hw.
  destruct (Nat.leb_spec kModbusIoChannelCount c) as [Hc|Hc].
  { intros [Hq Ha]%invalid_channel_quiet. apply quiet_effect; try done. by intros x [= <-]. }
  destruct (update_time now m) as [ok m1] eqn:Hu. pose proof (update_time_quiet _ _ _ _ Hu) as Hq.
  destruct ok; cbn [negb]; intros [= <- <-].
  2:{ apply quiet_effect; try done. by intros x [= <-]. }
  destruct Hw as (Hwi & Hwo & Hwt), Hq as (Hqi & Hqo & Hqt).
  unfold mock_effect, mock_wf, terminal_of. cbn. rewrite length_alter, Hqi, Hqo.
  split_and!; try done; try lia. f_equal. by apply fmap_alter_insert.
Qed.

Lemma mock_call_effect op m r m' :
  mock_wf m → mock_io_call op m = (r, m') → mock_effect op r m m'.
Proof.
  intros Hw. destruct op; cbn.
  - intros [= <- <-]. by apply quiet_effect; [|apply begin_scan_quiet|].
  - intros [= <- <-]. by apply quiet_effect; [|apply complete_scan_quiet|].
  - destruct (set_mock_digital_input _ _ _ _) eqn:E. intros [= <- <-]. by apply set_input_effect.
  - destruct (write_digital_output _ _ _ _) eqn:E. intros [= <- <-]. by apply write_output_effect.
  - destruct (mock_write_all_outputs_off _ _) eqn:E. intros [= <- <-]. by apply all_off_effect.
  - intros [= <- <-]. by apply quiet_effect.
Qed.

Lemma mock_run_effect ops : ∀ m,
  mock_wf m →
  let '(t, m') := mock_io_run ops (terminal_of (mk_snapshot m)) m in
  mock_wf m' ∧ t = terminal_of (mk_snapshot m') ∧
  mi_last_update_monotonic_ns (mk_snapshot m) ≤ mi_last_update_monotonic_ns (mk_snapshot m').
Proof.
  induction ops as [|op ops IH]; intros m Hw; cbn; [by split_and!|].
  destruct (mock_io_call op m) as [r m1] eqn:E.
  destruct (mock_call_effect _ _ _ _ Hw E) as (Hw1 & Ht & Hc). rewrite <- Ht.
  specialize (IH m1 Hw1). destruct (mock_io_run ops _ m1) as [t m']. destruct IH as (? & ? & ?).
  split_and!; [done..|lia].
Qed.

(** The mock device is the four inputs and four outputs its replies describe: after any
    calls, with any times and injected failures, an input or a confirmed output has the
    value of the last call for it that was answered [Confirmed], and no other call moved
    it; the arrays keep their four channels and the reported time never goes back. *)
Theorem mock_refines_terminal config ops :
  let '(t, m) := mock_io_run ops (mkTerminal (replicate 4 false) (replicate 4 false))
                   (mock_io_new config) in
  mock_wf m ∧ terminal_of (mk_snapshot m) = t ∧
  ∀ op, let '(r, m') := mock_io_call op m in
    mi_last_update_monotonic_ns (mk_snapshot m) ≤ mi_last_update_monotonic_ns (mk_snapshot m').
Proof.
  assert (Hn : mock_wf (mock_io_new config) ∧
    terminal_of (mk_snapshot (mock_io_new config)) = mkTerminal (replicate 4 false) (replicate 4 false)).
  { unfold mock_io_new. destruct (_ || _); by repeat split. }
  destruct Hn as [Hw Ht]. pose proof (mock_run_effect ops _ Hw) as H. rewrite Ht in H.
  destruct (mock_io_run ops _ _) as [t m]. destruct H as (Hw' & -> & _). split_and!; try done.
  intros op. destruct (mock_io_call op m) as [r m'] eqn:E. by apply (mock_call_effect _ _ _ _ Hw') in E as (_ & _ & ?).
Qed.

(** A timed-out write is visible but not confirmed; the next one is. *)
Example mock_timeout_then_confirm :
  let '(t, m) := mock_io_run
    [OpWriteOutput 1 true 5; OpNextOutcome IoStatus.Timeout; OpWriteOutput 1 false 6; OpWriteOutput 2 true 4;
     OpSetInput 3 true 7; OpWriteOutput 9 true 8]
    (mkTerminal (replicate 4 false) (replicate 4 false)) (mock_io_new default_mock_io_config) in
  t = mkTerminal [false; false; false; true] [false; true; false; false] ∧
  do_requested (output_at 1 (mk_snapshot m)) = false ∧
  do_last_status (output_at 1 (mk_snapshot m)) = IoStatus.Timeout.
Proof. vm_compute. repeat split. Qed.
