(* ===== verification/SerialPort.v ===== *)
(** * The serial port

    src/workbench/services/posix_serial_port.cpp: opening and configuring the line, and
    the transaction that writes a request and collects the reply.  What the kernel
    answers to each system call is an input; a loop recurses on the answers it gets, and
    [None] says that the answers given ended before the loop did. *)

From Stdlib Require Import Ascii.
From S2P Require Import Prelude Types Bytes LinuxIo ModbusRtu.
Local Open Scope Z_scope.

Record PosixSerialConfig := mkSerialConfig {
  sp_config_device : string;
  sp_config_baud_rate : Z;
  sp_config_parity : Ascii.ascii
}.

Record PosixSerialPort := mkSerialPort { sp_fd : Z; sp_device : string }.

(** [PosixSerialPort{}]. *)
Definition closed_port : PosixSerialPort := mkSerialPort (-1) "".

Definition io_error {T} (prefix : string) : Result T := fail_with Errc.IoError (prefix +:+ ": ").

(** The [B...] constants of <termios.h>; zero for a rate that is not offered. *)
Definition B9600 : Z := 13.
Definition B19200 : Z := 14.
Definition B38400 : Z := 15.
Definition B115200 : Z := 4098.

Definition posix_baud (baud : Z) : Z :=
  if baud =? 9600 then B9600
  else if baud =? 19200 then B19200
  else if baud =? 38400 then B38400
  else if baud =? 115200 then B115200
  else 0.

(** The control flags of <termios.h> the code sets. *)
Definition CS8 : Z := 0x30.
Definition CREAD : Z := 0x80.
Definition PARENB : Z := 0x100.
Definition PARODD : Z := 0x200.
Definition CLOCAL : Z := 0x800.
Definition CRTSCTS : Z := 0x80000000.

(** [flags & ~mask] at the width of [tcflag_t]. *)
Definition flags_clear (flags mask : Z) : Z := Z.land flags (Z.lxor mask (Z.ones 32)).

(** The control flags, from what [cfmakeraw] left. *)
Definition line_flags (parity : Ascii.ascii) (cflag : Z) : Z :=
  let cflag := Z.lor cflag (Z.lor (Z.lor CLOCAL CREAD) CS8) in
  let cflag := flags_clear cflag CRTSCTS in
  if parity ==? "E"%char then flags_clear (Z.lor cflag PARENB) PARODD
  else if parity ==? "O"%char then Z.lor cflag (Z.lor PARENB PARODD)
  else flags_clear cflag (Z.lor PARENB PARODD).

(** What the kernel answers while the line is opened: the new descriptor, the flags
    [tcgetattr] and [cfmakeraw] gave, and whether the speed and the attributes were set. *)
Record SerialOpenEnv := mkSerialOpenEnv {
  so_open : option Z;
  so_tcgetattr : option Z;
  so_cfsetspeed : bool;
  so_tcsetattr : bool
}.

Definition sp_close (p : PosixSerialPort) (k : Kernel) : PosixSerialPort * Kernel :=
  let '(fd, k) := fd_reset (sp_fd p) k in (mkSerialPort fd "", k).

Definition sp_is_open (p : PosixSerialPort) : bool := fd_valid (sp_fd p).

(** [open]; the third part is the control flags given to [tcsetattr]. *)
Definition sp_open (config : PosixSerialConfig) (env : SerialOpenEnv) (p : PosixSerialPort) (k : Kernel)
    : Result () * (PosixSerialPort * Kernel * option Z) :=
  let '(p, k) := sp_close p k in
  if posix_baud (sp_config_baud_rate config) =? 0 then
    (fail_with Errc.InvalidArgument "unsupported serial baud", (p, k, None))
  else if negb (sp_config_parity config ==? "N"%char) && negb (sp_config_parity config ==? "E"%char) &&
          negb (sp_config_parity config ==? "O"%char) then
    (fail_with Errc.InvalidArgument "unsupported serial parity", (p, k, None))
  else match so_open env with
  | None => (io_error "open serial", (p, k, None))
  | Some fd =>
      let k := k_create (Some fd) k in
      match so_tcgetattr env with
      | None => (io_error "tcgetattr", (p, k_close fd k, None))
      | Some cflag =>
          let flags := line_flags (sp_config_parity config) cflag in
          if negb (so_cfsetspeed env) then (io_error "cfsetspeed", (p, k_close fd k, None))
          else if negb (so_tcsetattr env) then (io_error "tcsetattr", (p, k_close fd k, Some flags))
          else (Ok (), (mkSerialPort fd (sp_config_device config), k, Some flags))
      end
  end.

(** ** One transaction *)

(** What one [write] answered: a count, or errno. *)
Inductive WriteAnswer := Wrote (n : nat) | WriteErrno (e : Z).

Fixpoint write_request (size written : nat) (answers : list WriteAnswer) : option (Result ()) :=
  if (size <=? written)%nat then Some (Ok ())
  else match answers with
  | [] => None
  | WriteErrno e :: rest =>
      if e =? EINTR then write_request size written rest else Some (io_error "serial write")
  | Wrote n :: rest => write_request size (written + n) rest
  end.

Inductive PollAnswer := PollReady | PollTimeout | PollErrno (e : Z).
Inductive ReadAnswer := ReadBytes (chunk : list Z) | ReadErrno (e : Z).

(** One turn of the receive loop: the two clock readings, [poll] and [read]. *)
Record RxTurn := mkRxTurn {
  rx_now : Z;
  rx_now_left : Z;
  rx_poll : PollAnswer;
  rx_read : ReadAnswer
}.

(** [duration_cast<milliseconds>] of the time left, in nanoseconds. *)
Definition left_ms (deadline now : Z) : Z := Z.quot (deadline - now) 1000000.

(** The reply to return, once enough of it has arrived. *)
Definition complete_reply (reply : list Z) : option (list Z) :=
  if (5 <=? length reply)%nat then
    let function := byte_at reply 1 in
    if negb (Z.land function 0x80 =? 0) then Some reply
    else if (function =? 0x01) || (function =? 0x02) then
      let expected := (5 + Z.to_nat (byte_at reply 2))%nat in
      if (expected <=? length reply)%nat then Some (take expected reply) else None
    else if function =? 0x05 then
      if (8 <=? length reply)%nat then Some (take 8 reply) else None
    else if (8 <=? length reply)%nat then Some reply
    else None
  else None.

(** After the loop. *)
Definition received (reply : list Z) : Result (list Z) :=
  match reply with [] => fail_with Errc.Timeout "serial RTU timeout" | _ => Ok reply end.

Fixpoint receive_reply (deadline : Z) (reply : list Z) (turns : list RxTurn) : option (Result (list Z)) :=
  match turns with
  | [] => None
  | t :: rest =>
      if negb (rx_now t <? deadline) then Some (received reply)
      else if left_ms deadline (rx_now_left t) <=? 0 then Some (received reply)
      else match rx_poll t with
      | PollErrno e =>
          if e =? EINTR then receive_reply deadline reply rest else Some (io_error "serial poll")
      | PollTimeout => Some (received reply)
      | PollReady =>
          match rx_read t with
          | ReadErrno e =>
              if e =? EINTR then receive_reply deadline reply rest else Some (io_error "serial read")
          | ReadBytes [] => Some (fail_with Errc.IoError "serial hung up")
          | ReadBytes chunk =>
              let reply := reply ++ chunk in
              match complete_reply reply with
              | Some frame => Some (Ok frame)
              | None => receive_reply deadline reply rest
              end
          end
      end
  end.

(** What the kernel answers during a transaction. *)
Record TransactEnv := mkTransactEnv {
  te_writes : list WriteAnswer;
  te_tcdrain : bool;
  te_now : Z;
  te_turns : list RxTurn
}.

Definition sp_transact (request : list Z) (timeout_ms : Z) (env : TransactEnv) (p : PosixSerialPort)
    : option (Result (list Z)) :=
  if negb (fd_valid (sp_fd p)) then Some (fail_with Errc.NotOpen "serial port not open")
  else if (length request =? 0)%nat then Some (fail_with Errc.InvalidArgument "empty RTU request")
  else if timeout_ms <=? 0 then Some (fail_with Errc.InvalidArgument "serial timeout must be positive")
  else match write_request (length request) 0 (te_writes env) with
  | None => None
  | Some (Err e) => Some (Err e)
  | Some (Ok _) =>
      if negb (te_tcdrain env) then Some (io_error "tcdrain")
      else receive_reply (te_now env + timeout_ms * 1000000) [] (te_turns env)
  end.

(** ** The descriptor *)

(** [open] never leaks: on failure the port is closed and the kernel holds what it held
    without this port; on success it holds the new descriptor besides. *)
Lemma sp_open_balanced config env p k r p' k' flags :
  owns (sp_fd p) k → (∀ fd, so_open env = Some fd → 0 ≤ fd ∧ fd ∉ k_open k) →
  sp_open config env p k = (r, (p', k', flags)) →
  match r with
  | Ok _ => ∃ fd, so_open env = Some fd ∧ sp_fd p' = fd ∧ k' = k_create (Some fd) (sp_close p k).2
  | Err _ => sp_is_open p' = false ∧ k' = (sp_close p k).2
  end.
Proof.
  intros Ho Hfresh. unfold sp_open. destruct (sp_close p k) as [p1 k1] eqn:Ec. cbn [snd].
  assert (Hc : sp_is_open p1 = false ∧ k_open k1 ⊆ k_open k).
  { unfold sp_close, fd_reset in Ec. unfold sp_is_open. destruct (fd_valid (sp_fd p)) eqn:Ev;
      injection Ec as <- <-; (split; [done|]); [|done].
    rewrite k_close_open by by apply Ho. cbn. set_solver. }
  destruct Hc as [Hp Hk].
  assert (Hcc : ∀ fd, so_open env = Some fd → k_close fd (k_create (Some fd) k1) = k1).
  { intros fd Hf. apply k_create_close. destruct (Hfresh fd Hf). set_solver. }
  destruct (posix_baud _ =? 0); [by intros [= <- <- <- <-]|].
  destruct (_ && _); [by intros [= <- <- <- <-]|].
  destruct (so_open env) as [fd|]; [|by intros [= <- <- <- <-]].
  destruct (so_tcgetattr env); [|intros [= <- <- <- <-]; by rewrite Hcc].
  destruct (negb _); [intros [= <- <- <- <-]; by rewrite Hcc|].
  destruct (negb _); [intros [= <- <- <- <-]; by rewrite Hcc|].
  intros [= <- <- <- <-]. by exists fd.
Qed.

(** ** Reassembly *)

(** The replies the line carries whole: bits with their count, the echo of a write, and
    an exception of five bytes. *)
Inductive whole_reply : list Z → Prop :=
  | whole_bits slave function data :
      function = 0x01 ∨ function = 0x02 →
      whole_reply (crc_framed (slave :: function :: Z.of_nat (length data) :: data))
  | whole_echo slave a b c d :
      whole_reply (crc_framed [slave; 0x05; a; b; c; d])
  | whole_exception slave function code :
      Z.land function 0x80 ≠ 0 → whole_reply (crc_framed [slave; function; code]).

Definition is_exception (frame : list Z) : bool := negb (Z.land (byte_at frame 1) 0x80 =? 0).

Lemma prefix_byte_at (p q : list Z) i : (i < length p)%nat → byte_at p i = byte_at (p ++ q) i.
Proof. intros. by rewrite byte_at_app_l. Qed.

(** Nothing short of the whole reply is taken for it, and line noise after it is cut off
    (an exception is returned as it is). *)
Lemma whole_reply_complete f noise :
  whole_reply f → (is_exception f = true → noise = []) → complete_reply (f ++ noise) = Some f.
Proof.
  intros Hf Hn. assert (Hl : (5 ≤ length f)%nat) by (destruct Hf; rewrite crc_framed_length; cbn; lia).
  unfold complete_reply. rewrite length_app, (proj2 (Nat.leb_le _ _)) by lia.
  rewrite !byte_at_app_l by lia. unfold is_exception in Hn. destruct Hf as [s fn data Hfn|s a b c d|s fn code He].
  - change (byte_at (crc_framed (s :: fn :: _ :: data)) 1) with fn in *.
    change (byte_at (crc_framed (s :: fn :: ?n :: data)) 2) with n.
    set (frame := crc_framed _) in *.
    assert (Hfl : length frame = (5 + length data)%nat)
      by (unfold frame; rewrite crc_framed_length; cbn; lia).
    rewrite Nat2Z.id, <- Hfl, (proj2 (Nat.leb_le _ _)), take_app_length by lia. by destruct Hfn as [->| ->].
  - change (byte_at (crc_framed (s :: 5 :: _)) 1) with 5. cbn [Z.land Z.eqb negb orb Pos.land Pos.eqb].
    rewrite crc_framed_length. set (frame := crc_framed _).
    assert (Hfl : length frame = 8%nat) by done.
    rewrite (proj2 (Nat.leb_le _ _)) by (cbn; lia). by rewrite <- Hfl, take_app_length.
  - change (byte_at (crc_framed (s :: fn :: _)) 1) with fn in *.
    apply Z.eqb_neq in He. rewrite He in *. cbn [negb] in *. by rewrite Hn, app_nil_r.
Qed.

Lemma whole_reply_prefix f p q :
  whole_reply f → f = p ++ q → q ≠ [] → complete_reply p = None.
Proof.
  intros Hf Hpq Hq. unfold complete_reply. destruct (Nat.leb_spec 5 (length p)) as [Hp|Hp]; [|done].
  assert (Hl : (length p < length f)%nat) by (rewrite Hpq, length_app; destruct q; [done|cbn; lia]).
  rewrite !(prefix_byte_at p q), <- Hpq by lia. destruct Hf as [s fn data Hfn|s a b c d|s fn code He].
  - change (byte_at (crc_framed (s :: fn :: _ :: data)) 1) with fn.
    change (byte_at (crc_framed (s :: fn :: ?n :: data)) 2) with n.
    rewrite crc_framed_length in Hl. cbn [length] in Hl.
    rewrite Nat2Z.id, (proj2 (Nat.leb_gt _ _)) by lia. by destruct Hfn as [->| ->].
  - change (byte_at (crc_framed (s :: 5 :: _)) 1) with 5. cbn [Z.land Z.eqb negb orb Pos.land Pos.eqb].
    rewrite crc_framed_length in Hl. cbn [length] in Hl. by rewrite (proj2 (Nat.leb_gt _ _)) by lia.
  - rewrite crc_framed_length in Hl. cbn [length] in Hl. lia.
Qed.

(** The turns bring [chunks] in time, with any number of interrupted turns between. *)
Inductive delivers (deadline : Z) : list (list Z) → list RxTurn → Prop :=
  | delivers_all turns : delivers deadline [] turns
  | delivers_interrupt chunks t turns :
      rx_now t < deadline → 0 < left_ms deadline (rx_now_left t) →
      rx_poll t = PollErrno EINTR ∨ (rx_poll t = PollReady ∧ rx_read t = ReadErrno EINTR) →
      delivers deadline chunks turns → delivers deadline chunks (t :: turns)
  | delivers_chunk chunk chunks t turns :
      rx_now t < deadline → 0 < left_ms deadline (rx_now_left t) →
      rx_poll t = PollReady → rx_read t = ReadBytes chunk → chunk ≠ [] →
      delivers deadline chunks turns → delivers deadline (chunk :: chunks) (t :: turns).

Lemma receive_delivered deadline f noise last turns cs :
  whole_reply f → (is_exception f = true → noise = []) →
  delivers deadline cs turns → ∀ got chunks,
  cs = chunks ++ [last] → got ++ concat chunks ++ last = f ++ noise →
  (length (got ++ concat chunks) < length f)%nat →
  receive_reply deadline got turns = Some (Ok f).
Proof.
  intros Hf Hn Hd. induction Hd as [turns|cs t turns Ht Hlm Hi Hd IH|c cs t turns Ht Hlm Hp Hr Hc Hd IH];
    intros got chunks Hcs Hall Hlen; [by destruct chunks| |];
    cbn [receive_reply]; rewrite (proj2 (Z.ltb_lt _ _)), (proj2 (Z.leb_gt _ _)) by done; cbn [negb].
  { destruct Hi as [->|[-> ->]]; cbn; by apply (IH got chunks). }
  rewrite Hp, Hr. destruct c as [|x c]; [done|].
  destruct chunks as [|d chunks]; injection Hcs as -> ->; cbn [concat app] in Hall, Hlen.
  - rewrite Hall. by rewrite (whole_reply_complete f noise).
  - rewrite <- !app_assoc in Hall. rewrite !length_app in Hlen.
    assert (Hq : ∃ q, f = (got ++ d) ++ q ∧ q ≠ []).
    { exists (drop (length (got ++ d)) f). split.
      - rewrite <- (take_drop (length (got ++ d)) f) at 1. f_equal.
        rewrite <- (take_app_le f noise) by (rewrite length_app; lia).
        rewrite <- Hall, app_assoc. by rewrite take_app_length.
      - intros H%(f_equal length). rewrite length_drop, length_app in H. cbn in H. lia. }
    destruct Hq as (q & Hfq & Hq). rewrite (whole_reply_prefix f _ q Hf Hfq Hq).
    apply (IH _ chunks); [done|by rewrite <- app_assoc|]. rewrite !length_app. lia.
Qed.

(** A reply is collected whole however the line delivers it: once the request is
    written, whatever the sizes of the pieces, with interrupted calls between them and
    noise behind the last one, a transaction whose pieces arrive before the deadline
    returns exactly the frame, never a part of it and never more. *)
Theorem reply_reassembled p request timeout_ms env f noise chunks last :
  sp_is_open p = true → request ≠ [] → 0 < timeout_ms →
  write_request (length request) 0 (te_writes env) = Some (Ok ()) → te_tcdrain env = true →
  whole_reply f → (is_exception f = true → noise = []) →
  concat chunks ++ last = f ++ noise → (length (concat chunks) < length f)%nat →
  delivers (te_now env + timeout_ms * 1000000) (chunks ++ [last]) (te_turns env) →
  sp_transact request timeout_ms env p = Some (Ok f).
Proof.
  intros Ho Hr Ht Hw Hd Hf Hn Hc Hl Hdl. unfold sp_transact. unfold sp_is_open in Ho. rewrite Ho, Hw, Hd.
  destruct request; [done|]. cbn [length Nat.eqb negb]. rewrite (proj2 (Z.leb_gt _ _)) by done.
  by apply (receive_delivered _ f noise last _ (chunks ++ [last]) Hf Hn Hdl [] chunks).
Qed.

Lemma reply_reassembled_witness :
  sp_transact (encode_rtu_write_single_coil 1 2 true) 200
    (mkTransactEnv [Wrote 3; WriteErrno EINTR; Wrote 5] true 0
       [mkRxTurn 10 20 PollReady (ReadBytes [1; 5; 0]); mkRxTurn 30 40 (PollErrno EINTR) (ReadBytes []);
        mkRxTurn 50 60 PollReady (ReadBytes ([2; 0xFF; 0] ++ skipn 6 (encode_rtu_write_single_coil 1 2 true) ++ [7]))])
    (mkSerialPort 4 "/dev/ttyS7") = Some (Ok (encode_rtu_write_single_coil 1 2 true)).
Proof.
  apply (reply_reassembled _ _ _ _ _ [7] [[1; 5; 0]]
    ([2; 0xFF; 0] ++ skipn 6 (encode_rtu_write_single_coil 1 2 true) ++ [7])).
  - done.
  - done.
  - done.
  - done.
  - done.
  - apply (whole_echo 1 0 2 0xFF 0).
  - done.
  - vm_compute. reflexivity.
  - vm_compute. lia.
  - cbn [te_now te_turns app]. apply delivers_chunk; try done. apply delivers_interrupt; try done; [by left|].
    apply delivers_chunk; try done. apply delivers_all.
Defined.
