(* ===== verification/PhysicalModbus.v ===== *)
(** * The physical Modbus I/O service

    include/rcr/workbench/services/physical_modbus_io_service.hpp and
    src/workbench/services/physical_modbus_io_service.cpp: probe, read the inputs, write
    one output, switch all off, over blocking transactions.  The transaction function
    that may be injected, the serial port and the clock are the operations of a link;
    the device behind it is outside and appears as the laws of [ModbusDevice]. *)

From Stdlib Require Import Ascii.
From stdpp Require Import pretty.
From S2P Require Import Prelude Types Bytes Application LinuxIo ModbusRtu ModbusIo SerialPort.
Local Open Scope Z_scope.

Record PhysicalModbusIoConfig := mkPhysicalConfig {
  pc_serial_port : string;
  pc_baud_rate : Z;
  pc_parity : Ascii.ascii;
  pc_slave_id : Z;
  pc_sku : string;
  pc_timeout : Z
}.

Definition default_physical_config : PhysicalModbusIoConfig :=
  mkPhysicalConfig "/dev/ttyS7" 9600 "N"%char 1 "MR0-IOR08" 200.

(** What the service calls, over a world [W] that contains the line and the device. *)
Record RtuLink (W : Type) := mkRtuLink {
  link_injected : option (list Z → Z → W → Result (list Z) * W);
  link_is_open : W → bool;
  link_open : PosixSerialConfig → W → Result () * W;
  link_transact : list Z → Z → W → Result (list Z) * W;
  link_close : W → W;
  link_clock : W → Result Z
}.
Arguments link_injected {W}.
Arguments link_is_open {W}.
Arguments link_open {W}.
Arguments link_transact {W}.
Arguments link_close {W}.
Arguments link_clock {W}.

Section Service.
Context {W : Type} (link : RtuLink W) (config : PhysicalModbusIoConfig).

Implicit Types (s : ModbusIoSnapshot) (w : W).

Definition now_ns_or_zero w : Z := value_or 0 (link_clock link w).

Definition apply_device_identity s : ModbusIoSnapshot :=
  let parity :=
    if pc_parity config ==? "N"%char then "None"%string else String (pc_parity config) "" in
  number_channels
    (s <| mi_backend := "PHYSICAL"%string |>
       <| mi_evidence := EvidenceClass.Physical |>
       <| mi_no_physical_rs485 := false |>
       <| mi_transport := "Modbus RTU"%string |>
       <| mi_serial_port := pc_serial_port config |>
       <| mi_sku := pc_sku config |>
       <| mi_baud_rate := pc_baud_rate config |>
       <| mi_baud_rate_placeholder := pc_baud_rate config |>
       <| mi_parity := parity |>
       <| mi_parity_placeholder := parity |>
       <| mi_slave_id := pc_slave_id config |>
       <| mi_device_state := ModbusDeviceState.Unknown |>
       <| mi_scan_state := ModbusScanState.Unknown |>).

(** The constructor. *)
Definition physical_new : ModbusIoSnapshot := apply_device_identity default_io_snapshot.

Definition disconnect s w : ModbusIoSnapshot * W :=
  (s <| mi_device_state := ModbusDeviceState.Unknown |>
     <| mi_scan_state := ModbusScanState.Unknown |>
     <| mi_last_error := ""%string |>, link_close link w).

Definition begin_transaction (function address quantity : Z) (tx : list Z) s : ModbusIoSnapshot :=
  s <| mi_last_error := ""%string |>
    <| mi_last_transaction ::= λ t,
         t <| tr_direction := "REQUEST"%string |>
           <| tr_slave_id := pc_slave_id config |>
           <| tr_function := function |>
           <| tr_address := address |>
           <| tr_quantity := quantity |>
           <| tr_tx_hex := bytes_to_hex tx |>
           <| tr_rx_hex := ""%string |>
           <| tr_result := ""%string |> |>.

Definition apply_fault (error : Error) s : ModbusIoSnapshot :=
  s <| mi_scan_state := ModbusScanState.Error |>
    <| mi_last_command_status :=
         if err_code error ==? Errc.Timeout then IoStatus.Timeout else IoStatus.Rejected |>
    <| mi_device_state :=
         if err_code error ==? Errc.Timeout then ModbusDeviceState.Timeout else ModbusDeviceState.Error |>
    <| mi_last_error := err_message error |>
    <| mi_last_transaction ::= λ t, t <| tr_result := errc_to_string (err_code error) |> |>.

Definition svc_transact (request : list Z) w : Result (list Z) * W :=
  match link_injected link with
  | Some transact => transact request (pc_timeout config) w
  | None =>
      let '(opened, w) :=
        if negb (link_is_open link w) then
          link_open link (mkSerialConfig (pc_serial_port config) (pc_baud_rate config) (pc_parity config)) w
        else (Ok (), w) in
      match opened with
      | Err e => (Err e, w)
      | Ok _ => link_transact link request (pc_timeout config) w
      end
  end.

(** The transaction between two clock readings. *)
Definition timed_transact (tx : list Z) s w : Result (list Z) * (ModbusIoSnapshot * W) :=
  let t0 := now_ns_or_zero w in
  let '(rx, w) := svc_transact tx w in
  let t1 := now_ns_or_zero w in
  (rx, (s <| mi_last_transaction ::= λ t, t <| tr_rtt_ns := if t0 <? t1 then t1 - t0 else 0 |> |>
          <| mi_last_update_monotonic_ns := t1 |>, w)).

Definition note_received (rx : list Z) s : ModbusIoSnapshot :=
  s <| mi_last_transaction ::= λ t, t <| tr_rx_hex := bytes_to_hex rx |> |>.

(** A reply that does not decode, or decodes to an exception. *)
Definition reply_refused (message : string) s : ModbusIoSnapshot :=
  s <| mi_scan_state := ModbusScanState.Error |>
    <| mi_device_state := ModbusDeviceState.Error |>
    <| mi_last_command_status := IoStatus.Exception |>
    <| mi_last_error := message |>
    <| mi_last_transaction ::= λ t, t <| tr_result := message |> |>.

Definition exception_message (code : Z) : string := "Modbus exception " +:+ pretty code.

Definition reply_ok s : ModbusIoSnapshot :=
  s <| mi_scan_state := ModbusScanState.Complete |>
    <| mi_device_state := ModbusDeviceState.Online |>
    <| mi_last_command_status := IoStatus.Confirmed |>
    <| mi_last_transaction ::= λ t, t <| tr_result := "OK"%string |> <| tr_direction := "RESPONSE"%string |> |>.

(** [(bit_byte & (1u << channel)) != 0] *)
Definition bit_on (bit_byte : Z) (channel : nat) : bool :=
  negb (Z.land bit_byte (Z.shiftl 1 (Z.of_nat channel)) =? 0).

Definition read_discrete_inputs (scanning : bool) s w : Result ModbusIoSnapshot * (ModbusIoSnapshot * W) :=
  let s := if scanning then s <| mi_scan_state := ModbusScanState.Scanning |> else s in
  let tx := encode_rtu_read (pc_slave_id config) kModbusFnReadDiscreteInputs
              kMr0IoRegisterStart kMr0IoBitQuantity in
  let s := begin_transaction kModbusFnReadDiscreteInputs kMr0IoRegisterStart kMr0IoBitQuantity tx s in
  let '(rx, (s, w)) := timed_transact tx s w in
  match rx with
  | Err e => (Err e, (apply_fault e s, w))
  | Ok rx =>
      let s := note_received rx s in
      match decode_rtu_read_bits rx (pc_slave_id config) kModbusFnReadDiscreteInputs with
      | Err e => (Err e, (reply_refused (err_message e) s, w))
      | Ok decoded =>
          if rb_exception decoded then
            let m := exception_message (rb_exception_code decoded) in
            (fail_with Errc.Rejected m, (reply_refused m s, w))
          else
            let s := s <| mi_digital_inputs ::=
                            imap (λ i d, d <| di_active := bit_on (rb_bit_byte decoded) i |>) |> in
            let s := reply_ok s in
            (Ok s, (s, w))
      end
  end.

Definition refresh_coils s w : Result () * (ModbusIoSnapshot * W) :=
  let tx := encode_rtu_read (pc_slave_id config) kModbusFnReadCoils
              kMr0IoRegisterStart kMr0IoBitQuantity in
  let s := begin_transaction kModbusFnReadCoils kMr0IoRegisterStart kMr0IoBitQuantity tx s in
  let '(rx, (s, w)) := timed_transact tx s w in
  match rx with
  | Err e => (Err e, (s, w))
  | Ok rx =>
      let s := note_received rx s in
      match decode_rtu_read_bits rx (pc_slave_id config) kModbusFnReadCoils with
      | Err e => (Err e, (s, w))
      | Ok decoded =>
          if rb_exception decoded then
            (fail_with Errc.Rejected (exception_message (rb_exception_code decoded)), (s, w))
          else
            let s := s <| mi_digital_outputs ::=
                            imap (λ i d, let on := bit_on (rb_bit_byte decoded) i in
                              d <| do_confirmed := on |> <| do_requested := on |>
                                <| do_last_status := IoStatus.Confirmed |>) |> in
            (Ok (), (s <| mi_last_transaction ::= λ t,
                         t <| tr_result := "OK"%string |> <| tr_direction := "RESPONSE"%string |> |>, w))
      end
  end.

Definition probe s w : Result ModbusIoSnapshot * (ModbusIoSnapshot * W) :=
  match read_discrete_inputs true s w with
  | (Err e, sw) => (Err e, sw)
  | (Ok _, (s, w)) =>
      let '(coils, (s, w)) := refresh_coils s w in
      let s :=
        match coils with
        | Err e =>
            let m := "coil refresh: " +:+ err_message e in
            s <| mi_last_error := m |> <| mi_last_transaction ::= λ t, t <| tr_result := m |> |>
        | Ok _ => s
        end in
      let s := s <| mi_device_state := ModbusDeviceState.Online |>
                 <| mi_scan_state := ModbusScanState.Complete |>
                 <| mi_last_command_status := IoStatus.Confirmed |> in
      (Ok s, (s, w))
  end.

Definition read_inputs s w : Result ModbusIoSnapshot * (ModbusIoSnapshot * W) :=
  read_discrete_inputs false s w.

Definition write_output (channel : nat) (active : bool) s w
    : Result ModbusIoSnapshot * (ModbusIoSnapshot * W) :=
  if (kModbusIoChannelCount <=? channel)%nat then
    let m := "DO channel must be in range 0..3"%string in
    (fail_with Errc.InvalidArgument m,
     (s <| mi_last_command_status := IoStatus.InvalidChannel |> <| mi_last_error := m |>, w))
  else
    let s := set_output channel (λ d, d <| do_requested := active |>
                                        <| do_last_status := IoStatus.None |>) s in
    let address := u16 (Z.of_nat channel) in
    let tx := encode_rtu_write_single_coil (pc_slave_id config) address active in
    let s := begin_transaction kModbusFnWriteSingleCoil address 1 tx s in
    let '(rx, (s, w)) := timed_transact tx s w in
    match rx with
    | Err e =>
        let s := apply_fault e s in
        (Err e, (set_output channel (λ d, d <| do_last_status := mi_last_command_status s |>) s, w))
    | Ok rx =>
        let s := note_received rx s in
        match decode_rtu_write_single_coil rx (pc_slave_id config) address active with
        | Err e =>
            (Err e, (set_output channel (λ d, d <| do_last_status := IoStatus.Exception |>)
                       (reply_refused (err_message e) s), w))
        | Ok decoded =>
            if wc_exception decoded then
              let m := exception_message (wc_exception_code decoded) in
              (fail_with Errc.Rejected m,
               (set_output channel (λ d, d <| do_last_status := IoStatus.Exception |>)
                  (reply_refused m s), w))
            else
              let s := reply_ok (set_output channel (λ d, d <| do_confirmed := active |>
                                   <| do_last_status := IoStatus.Confirmed |>) s) in
              (Ok s, (s, w))
        end
    end.

(** The loop over the channels left, [last] being the latest result. *)
Fixpoint all_off_loop (channels : list nat) (last : Result ModbusIoSnapshot) s w
    : Result ModbusIoSnapshot * (ModbusIoSnapshot * W) :=
  match channels with
  | [] => (last, (s, w))
  | channel :: channels =>
      let '(last, (s, w)) := write_output channel false s w in
      match last with
      | Err e => (Err e, (s, w))
      | Ok _ => all_off_loop channels last s w
      end
  end.

Definition write_all_outputs_off s w : Result ModbusIoSnapshot * (ModbusIoSnapshot * W) :=
  all_off_loop (seq 0 kModbusIoChannelCount) (Ok s) s w.

End Service.

(** ** The device behind the link

    [coil w i] is the state of coil [i] of the device.  The laws are the ones of the
    Modbus application protocol: a write of a single coil touches no other coil, and the
    normal response to it is returned after the coil has been written; reads touch
    nothing, and the response to a read of coils carries their states.  Requests may be
    lost, replies may be lost or garbled, and the device may answer exceptions: the laws
    say nothing of these cases. *)

Class ModbusDevice {W} (link : RtuLink W) (config : PhysicalModbusIoConfig) (coil : W → nat → bool) := {
  device_replies_bytes request w frame w' :
    svc_transact link config request w = (Ok frame, w') → bytes_wf frame;
  device_write_local c on r w w' i :
    (c < kModbusIoChannelCount)%nat →
    svc_transact link config (encode_rtu_write_single_coil (pc_slave_id config) (Z.of_nat c) on) w = (r, w') →
    i ≠ c → coil w' i = coil w i;
  device_write_confirmed c on body w w' :
    (c < kModbusIoChannelCount)%nat →
    svc_transact link config (encode_rtu_write_single_coil (pc_slave_id config) (Z.of_nat c) on) w
      = (Ok (crc_framed body), w') →
    byte_at body 0 = pc_slave_id config → byte_at body 1 = kModbusFnWriteSingleCoil → coil w' c = on;
  device_read_local function r w w' i :
    svc_transact link config (encode_rtu_read (pc_slave_id config) function
      kMr0IoRegisterStart kMr0IoBitQuantity) w = (r, w') →
    coil w' i = coil w i;
  device_read_coils n bits rest w w' i :
    svc_transact link config (encode_rtu_read (pc_slave_id config) kModbusFnReadCoils
      kMr0IoRegisterStart kMr0IoBitQuantity) w
      = (Ok (crc_framed (pc_slave_id config :: kModbusFnReadCoils :: n :: bits :: rest)), w') →
    (i < kModbusIoChannelCount)%nat → bit_on bits i = coil w' i;
  device_close_local w i : coil (link_close link w) i = coil w i
}.

Section Device.
Context {W : Type} (link : RtuLink W) (config : PhysicalModbusIoConfig) (coil : W → nat → bool).
Context `{!ModbusDevice link config coil}.
Implicit Types (s : ModbusIoSnapshot) (w : W).

Notation write_output := (write_output link config).
Notation refresh_coils := (refresh_coils link config).
Notation read_discrete_inputs := (read_discrete_inputs link config).

(** Four channels, and an output whose last write or refresh was confirmed shows the
    state of its coil, as requested. *)
Definition outputs_true s w : Prop :=
  length (mi_digital_outputs s) = kModbusIoChannelCount ∧
  ∀ i, (i < kModbusIoChannelCount)%nat → do_last_status (output_at i s) = IoStatus.Confirmed →
    do_confirmed (output_at i s) = coil w i ∧ do_requested (output_at i s) = do_confirmed (output_at i s).

Lemma outputs_true_ext s s' w w' :
  mi_digital_outputs s' = mi_digital_outputs s → (∀ i, coil w' i = coil w i) →
  outputs_true s w → outputs_true s' w'.
Proof.
  intros Ho Hc [Hl Ht]. unfold outputs_true, output_at in *. rewrite Ho. split; [done|].
  intros i Hi Hs. rewrite Hc. by apply Ht.
Qed.

Lemma u16_channel c : (c < kModbusIoChannelCount)%nat → u16 (Z.of_nat c) = Z.of_nat c.
Proof. unfold kModbusIoChannelCount. intros. apply u16_small. width_lia. Qed.

(** One write: what it sends, that it leaves the other outputs alone, and that the
    confirmed bit follows exactly a decoded echo. *)
Lemma write_output_cases c a s w r s' w' :
  (c < kModbusIoChannelCount)%nat → length (mi_digital_outputs s) = kModbusIoChannelCount →
  write_output c a s w = (r, (s', w')) →
  ∃ rx, svc_transact link config (encode_rtu_write_single_coil (pc_slave_id config) (Z.of_nat c) a) w = (rx, w') ∧
    length (mi_digital_outputs s') = kModbusIoChannelCount ∧
    (∀ i, i ≠ c → output_at i s' = output_at i s) ∧ do_requested (output_at c s') = a ∧
    ((∃ frame d, rx = Ok frame ∧ wc_exception d = false ∧ r = Ok s' ∧
        decode_rtu_write_single_coil frame (pc_slave_id config) (Z.of_nat c) a = Ok d ∧
        do_confirmed (output_at c s') = a ∧ do_last_status (output_at c s') = IoStatus.Confirmed) ∨
     (∃ e, r = Err e ∧ do_confirmed (output_at c s') = do_confirmed (output_at c s) ∧
        do_last_status (output_at c s') ≠ IoStatus.Confirmed)).
Proof.
  intros Hc Hl. unfold PhysicalModbus.write_output, timed_transact.
  rewrite (proj2 (Nat.leb_gt _ _)), u16_channel by done.
  destruct (svc_transact link config _ w) as [rx w1]. intros Hw. exists rx.
  assert (Hs : is_Some (mi_digital_outputs s !! c)) by (apply lookup_lt_is_Some; lia).
  destruct Hs as [d Hd].
  destruct rx as [frame|e]; [destruct (decode_rtu_write_single_coil frame _ _ a) as [dec|e] eqn:Hdec;
    [destruct (wc_exception dec) eqn:Hex|]|]; injection Hw as <- <- <-;
    (split; [done|]); unfold output_at; cbn -[Z.of_nat]; rewrite ?length_alter, ?list_lookup_alter_eq, Hd;
    (split; [done|]); (split; [by intros i Hi; rewrite !list_lookup_alter_ne|]); (split; [done|]).
  - right. by eexists.
  - left. by exists frame, dec.
  - right. by eexists.
  - right. eexists. split; [done|]. split; [done|]. cbn. by destruct (_ ==? _).
Qed.

(** The decoded echo names this slave and the write function. *)
Lemma accepted_echo frame c a d :
  bytes_wf frame → (c < kModbusIoChannelCount)%nat → wc_exception d = false →
  decode_rtu_write_single_coil frame (pc_slave_id config) (Z.of_nat c) a = Ok d →
  ∃ body, frame = crc_framed body ∧ byte_at body 0 = pc_slave_id config ∧
    byte_at body 1 = kModbusFnWriteSingleCoil.
Proof.
  intros Hw Hc He Hd. apply accepted_write in Hd as (body & -> & Hr); [|done|].
  - exists body. by destruct Hr.
  - unfold kModbusIoChannelCount in Hc. width_lia.
Qed.

Lemma write_output_true c a s w r s' w' :
  outputs_true s w → write_output c a s w = (r, (s', w')) → outputs_true s' w' ∧
  (∀ t, r = Ok t → (c < kModbusIoChannelCount)%nat ∧ coil w' c = a).
Proof.
  intros [Hl Ht] Hw. destruct (Nat.lt_ge_cases c kModbusIoChannelCount) as [Hc|Hc].
  2:{ unfold PhysicalModbus.write_output in Hw. rewrite (proj2 (Nat.leb_le _ _)) in Hw by done.
      by injection Hw as <- <- <-. }
  destruct (write_output_cases _ _ _ _ _ _ _ Hc Hl Hw) as (rx & Htx & Hl' & Ho & Hr & Hcase).
  assert (Hother : ∀ i, i ≠ c → (i < kModbusIoChannelCount)%nat →
    do_last_status (output_at i s') = IoStatus.Confirmed →
    do_confirmed (output_at i s') = coil w' i ∧
    do_requested (output_at i s') = do_confirmed (output_at i s')).
  { intros i Hi Hi4. rewrite (Ho i Hi), (device_write_local _ _ _ _ _ i Hc Htx Hi). by apply Ht. }
  destruct Hcase as [(frame & d & -> & Hex & -> & Hd & Hcf & Hst)|(e & -> & Hcf & Hst)].
  - destruct (accepted_echo frame c a d) as (body & -> & H0 & H1); [|done..|].
    { by eapply device_replies_bytes. }
    pose proof (device_write_confirmed _ _ _ _ _ Hc Htx H0 H1) as Hcoil.
    split; [|done]. split; [done|]. intros i Hi Hs. destruct (decide (i = c)) as [->|Hne]; [|by apply Hother].
    rewrite Hr, Hcf, Hcoil. done.
  - split; [|done]. split; [done|]. intros i Hi Hs. destruct (decide (i = c)) as [->|Hne]; [done|by apply Hother].
Qed.

Lemma read_inputs_true scanning s w r s' w' :
  outputs_true s w → read_discrete_inputs scanning s w = (r, (s', w')) → outputs_true s' w'.
Proof.
  intros Ht. unfold PhysicalModbus.read_discrete_inputs, timed_transact.
  destruct (svc_transact link config _ w) as [rx w1] eqn:Htx. intros Hr.
  assert (H : mi_digital_outputs s' = mi_digital_outputs s ∧ w' = w1).
  { destruct scanning, rx as [frame|e]; [destruct (decode_rtu_read_bits frame _ _) as [d|e];
      [destruct (rb_exception d)|]| |destruct (decode_rtu_read_bits frame _ _) as [d|e];
      [destruct (rb_exception d)|]|]; by injection Hr as <- <- <-. }
  destruct H as [Ho ->]. apply (outputs_true_ext s s' w w1); try done.
  intros i. by eapply device_read_local.
Qed.

Lemma refresh_coils_true s w r s' w' :
  outputs_true s w → refresh_coils s w = (r, (s', w')) → outputs_true s' w'.
Proof.
  intros Ht. unfold PhysicalModbus.refresh_coils, timed_transact.
  destruct (svc_transact link config _ w) as [rx w1] eqn:Htx.
  assert (Hq : ∀ t, mi_digital_outputs t = mi_digital_outputs s → outputs_true t w1).
  { intros t Ho. apply (outputs_true_ext s t w w1); try done. intros i. by eapply device_read_local. }
  destruct rx as [frame|e]; [|intros [= <- <- <-]; by apply Hq].
  destruct (decode_rtu_read_bits frame _ _) as [d|e] eqn:Hd; [|intros [= <- <- <-]; by apply Hq].
  destruct (rb_exception d) eqn:He; intros [= <- <- <-]; [by apply Hq|].
  destruct Ht as [Hl _]. unfold outputs_true, output_at. cbn. rewrite length_imap. split; [done|].
  intros i Hi _. rewrite list_lookup_imap.
  destruct (lookup_lt_is_Some_2 (mi_digital_outputs s) i ltac:(lia)) as [o ->]. cbn. split; [|done].
  apply read_reply_accepted in Hd as (body & -> & Hr); [|by eapply device_replies_bytes].
  destruct Hr as [bits rest _|]; [|done]. cbn. by eapply device_read_coils.
Qed.

(** Switching off channel after channel: a failure stops at its channel. *)
Lemma all_off_true channels : ∀ last s w r s' w',
  Forall (λ c, (c < kModbusIoChannelCount)%nat) channels → NoDup channels →
  outputs_true s w → all_off_loop link config channels last s w = (r, (s', w')) →
  outputs_true s' w' ∧ (∀ i, i ∉ channels → output_at i s' = output_at i s ∧ coil w' i = coil w i) ∧
  match r with
  | Ok _ => ∀ c, c ∈ channels → coil w' c = false ∧ do_last_status (output_at c s') = IoStatus.Confirmed
  | Err _ => (∃ e, last = Err e ∧ channels = []) ∨
      ∃ off c rest, channels = off ++ c :: rest ∧ do_last_status (output_at c s') ≠ IoStatus.Confirmed ∧
        (∀ i, i ∈ off → coil w' i = false ∧ do_last_status (output_at i s') = IoStatus.Confirmed) ∧
        (∀ i, i ∈ rest → output_at i s' = output_at i s ∧ coil w' i = coil w i)
  end.
Proof.
  induction channels as [|c channels IH]; intros last s w r s' w' Hc Hnd Ht.
  { cbn. intros [= <- <- <-]. split; [done|]. split; [done|]. destruct last; [set_solver|]. left. by eexists. }
  cbn [all_off_loop]. destruct (write_output c false s w) as [r1 [s1 w1]] eqn:Hw.
  apply Forall_cons in Hc as [Hc Hcs]. apply NoDup_cons in Hnd as [Hnc Hnd].
  destruct (write_output_true _ _ _ _ _ _ _ Ht Hw) as [Ht1 Hoff].
  destruct (write_output_cases _ _ _ _ _ _ _ Hc (proj1 Ht) Hw) as (rx & Htx & _ & Ho & _ & Hcase).
  assert (Hother : ∀ i, i ≠ c → output_at i s1 = output_at i s ∧ coil w1 i = coil w i)
    by (intros i Hi; split; [by apply Ho|by eapply device_write_local]).
  destruct Hcase as [(frame & d & -> & _ & -> & _ & _ & Hst)|(e & -> & _ & Hst)].
  - intros Hloop. destruct (IH _ _ _ _ _ _ Hcs Hnd Ht1 Hloop) as (Ht' & Hrest & Hr).
    destruct (Hrest c Hnc) as [Hoc Hcc]. destruct (Hoff _ eq_refl) as [_ Hcoil].
    assert (Hdone : coil w' c = false ∧ do_last_status (output_at c s') = IoStatus.Confirmed)
      by (by rewrite Hoc, Hcc).
    split; [done|]. split.
    { intros i [Hic Hin]%not_elem_of_cons. destruct (Hrest i Hin) as [-> ->]. by apply Hother. }
    destruct r as [t|e].
    + intros i [->|Hi]%elem_of_cons; [done|by apply Hr].
    + right. destruct Hr as [(e' & ? & _)|(off & k & rest & -> & Hk & Hoffs & Hrests)]; [done|].
      exists (c :: off), k, rest. split; [done|]. split; [done|]. split.
      * intros i [->|Hi]%elem_of_cons; [done|by apply Hoffs].
      * intros i Hi. destruct (Hrests i Hi) as [-> ->]. apply Hother. set_solver.
  - intros [= <- <- <-]. split; [done|]. split; [intros i [Hic _]%not_elem_of_cons; by apply Hother|].
    right. exists [], c, channels. split; [done|]. split; [done|]. split; [set_solver|].
    intros i Hi. apply Hother. set_solver.
Qed.

Inductive PhysicalOp :=
  | PProbe | PReadInputs | PWriteOutput (channel : nat) (active : bool) | PAllOff | PDisconnect.

Definition physical_step (op : PhysicalOp) (sw : ModbusIoSnapshot * W) : ModbusIoSnapshot * W :=
  match op with
  | PProbe => (probe link config sw.1 sw.2).2
  | PReadInputs => (read_inputs link config sw.1 sw.2).2
  | PWriteOutput c a => (write_output c a sw.1 sw.2).2
  | PAllOff => (write_all_outputs_off link config sw.1 sw.2).2
  | PDisconnect => disconnect link sw.1 sw.2
  end.

Lemma channels_ok : Forall (λ c, (c < kModbusIoChannelCount)%nat) (seq 0 kModbusIoChannelCount).
Proof. repeat constructor. Qed.

Lemma physical_step_true op s w :
  outputs_true s w → outputs_true (physical_step op (s, w)).1 (physical_step op (s, w)).2.
Proof.
  intros Ht. destruct op; cbn [physical_step fst snd].
  - unfold probe. destruct (read_discrete_inputs true s w) as [[t|e] [s1 w1]] eqn:Hr;
      apply read_inputs_true in Hr; try done.
    destruct (refresh_coils s1 w1) as [c [s2 w2]] eqn:Hc. apply refresh_coils_true in Hc; [|done].
    destruct c; by apply (outputs_true_ext s2 _ w2 w2).
  - unfold read_inputs. destruct (read_discrete_inputs false s w) as [r [s1 w1]] eqn:Hr.
    by apply read_inputs_true in Hr.
  - destruct (write_output channel active s w) as [r [s1 w1]] eqn:Hw.
    by apply write_output_true in Hw as [? _].
  - unfold write_all_outputs_off. destruct (all_off_loop link config (seq 0 kModbusIoChannelCount) (Ok s) s w) as [r [s1 w1]] eqn:Hw.
    apply all_off_true in Hw as [? _]; [done|apply channels_ok|apply NoDup_seq|done].
  - apply (outputs_true_ext s _ w _); try done. intros i. apply device_close_local.
Qed.

Lemma physical_new_true w : outputs_true (physical_new config) w.
Proof.
  split; [done|].
  intros i Hi. by destruct i as [|[|[|[|i]]]].
Qed.

(** C14.  What the service shows as a confirmed output is what the device drives: after any
    sequence of probes, reads, writes, all-off commands and disconnects over a line that
    may lose or garble anything, an output whose last status is [Confirmed] has its
    confirmed and requested values equal to the state of the device's coil. *)
Theorem confirmed_output_is_driven ops w :
  let '(s, w') := foldl (λ sw op, physical_step op sw) (physical_new config, w) ops in
  ∀ i, (i < kModbusIoChannelCount)%nat → do_last_status (output_at i s) = IoStatus.Confirmed →
    do_confirmed (output_at i s) = coil w' i ∧ do_requested (output_at i s) = coil w' i.
Proof.
  assert (H : ∀ sw, outputs_true sw.1 sw.2 →
    let sw' := foldl (λ sw op, physical_step op sw) sw ops in outputs_true sw'.1 sw'.2).
  { induction ops as [|op ops IH]; intros [s u] Ht; [done|]. cbn. apply IH. by apply physical_step_true. }
  specialize (H (physical_new config, w) (physical_new_true w)). cbv zeta in H.
  destruct (foldl _ _ ops) as [s w']. destruct H as [_ H]. cbn in H. intros i Hi Hs.
  destruct (H i Hi Hs) as [Hcf Hrq]. by rewrite Hrq, Hcf.
Qed.

(** All-off is all or a prefix: on success every coil is off and confirmed; on failure
    the channels before the failing one are off and confirmed, the failing one is not
    shown as confirmed, and those after it were not touched. *)
Theorem all_off_outcome s w r s' w' :
  outputs_true s w → write_all_outputs_off link config s w = (r, (s', w')) →
  match r with
  | Ok _ => ∀ c, (c < kModbusIoChannelCount)%nat →
      coil w' c = false ∧ do_confirmed (output_at c s') = false
  | Err _ => ∃ k, (k < kModbusIoChannelCount)%nat ∧
      do_last_status (output_at k s') ≠ IoStatus.Confirmed ∧
      (∀ i, (i < k)%nat → coil w' i = false ∧ do_confirmed (output_at i s') = false) ∧
      (∀ i, (k < i < kModbusIoChannelCount)%nat → output_at i s' = output_at i s ∧ coil w' i = coil w i)
  end.
Proof.
  intros Ht Hr. apply all_off_true in Hr as (Ht' & _ & Hr); [|apply channels_ok|apply NoDup_seq|done].
  assert (Hshow : ∀ c, (c < kModbusIoChannelCount)%nat → coil w' c = false →
    do_last_status (output_at c s') = IoStatus.Confirmed → do_confirmed (output_at c s') = false).
  { intros c Hc Hf Hs. destruct (proj2 Ht' c Hc Hs) as [-> _]. done. }
  destruct r as [t|e].
  - intros c Hc. destruct (Hr c) as [Hf Hs]; [by apply elem_of_seq; lia|]. split; [done|]. by apply Hshow.
  - destruct Hr as [(e' & ? & ?)|(off & k & rest & Hseq & Hk & Hoff & Hrest)]; [done|].
    assert (Hidx : k = length off ∧ (length off < kModbusIoChannelCount)%nat).
    { assert (seq 0 kModbusIoChannelCount !! length off = Some k) by (rewrite Hseq; by apply list_lookup_middle).
      apply lookup_seq in H as [? ?]. lia. }
    destruct Hidx as [-> Hlen]. exists (length off). split; [done|]. split; [done|]. split.
    + intros i Hi. destruct (Hoff i) as [Hf Hs].
      { apply list_elem_of_lookup. exists i. assert (Hl : seq 0 kModbusIoChannelCount !! i = Some i)
          by (apply lookup_seq; lia). by rewrite Hseq, lookup_app_l in Hl. }
      split; [done|]. apply Hshow; [lia|done..].
    + intros i Hi. apply Hrest. apply list_elem_of_lookup. exists (i - length off - 1)%nat.
      assert (Hl : seq 0 kModbusIoChannelCount !! i = Some i) by (apply lookup_seq; lia).
      rewrite Hseq, lookup_app_r in Hl by lia.
      by replace (i - length off)%nat with (S (i - length off - 1)) in Hl by lia.
Qed.

End Device.

(** ** A device on a bad line

    An I/O terminal with slave number 1 behind an injected transaction function, and a
    line that loses requests, loses replies or garbles them as scripted. *)

Module SimTerminal.

Inductive Line := Clean | RequestLost | ReplyLost | ReplyGarbled.

Record World := mkWorld { coil : nat → bool; w_inputs : Z; w_line : list Line; w_time : Z }.

Definition coil_byte (w : World) : Z :=
  (if coil w 0 then 1 else 0) + (if coil w 1 then 2 else 0) +
  (if coil w 2 then 4 else 0) + (if coil w 3 then 8 else 0).

(** The device executes a request and answers it. *)
Definition execute (request : list Z) (w : World) : list Z * World :=
  match request with
  | [1; 5; 0; address; value; 0; _; _] =>
      (request, mkWorld (λ i, if (i =? Z.to_nat address)%nat then value =? 0xFF else coil w i)
                  (w_inputs w) (w_line w) (w_time w))
  | 1 :: 1 :: _ => (crc_framed [1; 1; 1; coil_byte w], w)
  | 1 :: 2 :: _ => (crc_framed [1; 2; 1; u8 (w_inputs w)], w)
  | _ => ([], w)
  end.

Definition transact (request : list Z) (timeout : Z) (w : World) : Result (list Z) * World :=
  let fault := default Clean (head (w_line w)) in
  let w := mkWorld (coil w) (w_inputs w) (tail (w_line w)) (w_time w + 1) in
  let lost := fail_with Errc.Timeout "serial RTU timeout" in
  match fault with
  | RequestLost => (lost, w)
  | Clean => let '(reply, w) := execute request w in (Ok (map u8 reply), w)
  | ReplyLost => let '(_, w) := execute request w in (lost, w)
  | ReplyGarbled => let '(_, w) := execute request w in (Ok [0], w)
  end.

Definition link : RtuLink World :=
  mkRtuLink World (Some transact) (λ _, true) (λ _ w, (Ok (), w)) transact (λ w, w)
    (λ w, Ok (w_time w)).

Lemma execute_write c on w :
  (c < kModbusIoChannelCount)%nat →
  execute (encode_rtu_write_single_coil 1 (Z.of_nat c) on) w =
  (encode_rtu_write_single_coil 1 (Z.of_nat c) on,
   mkWorld (λ i, if (i =? c)%nat then on else coil w i) (w_inputs w) (w_line w) (w_time w)).
Proof. unfold kModbusIoChannelCount. intros Hc. destruct c as [|[|[|[|c]]]], on; (done || lia). Qed.

Lemma execute_read function w :
  (execute (encode_rtu_read 1 function kMr0IoRegisterStart kMr0IoBitQuantity) w).2 = w.
Proof.
  unfold encode_rtu_read, append_crc, modbus_rtu_crc16. generalize crc16. intros crc.
  cbn. repeat case_match; simplify_eq; done.
Qed.

#[global] Instance sim_terminal_laws : ModbusDevice link default_physical_config coil.
Proof.
  split.
  - intros request w frame w'. cbn. unfold transact. set (u := mkWorld _ _ _ _).
    destruct (execute request u) as [reply u']. destruct (default _ _); intros [= <- <-];
      [|by repeat constructor]. apply Forall_forall. intros b (x & -> & _)%list_elem_of_fmap. apply u8_range.
  - intros c on r w w' i Hc. cbn -[encode_rtu_write_single_coil]. unfold transact. rewrite execute_write by done.
    destruct (default _ _); intros [= <- <-] Hi; cbn; by rewrite ?(proj2 (Nat.eqb_neq _ _)).
  - intros c on body w w' Hc. cbn -[encode_rtu_write_single_coil crc_framed].
    unfold transact. rewrite execute_write by done.
    destruct (default _ _); intros [= Hb <-] H0 H1; cbn; rewrite ?Nat.eqb_refl; done.
  - intros function r w w' i. cbn -[encode_rtu_read]. unfold transact. set (u := mkWorld _ _ _ _).
    pose proof (execute_read function u) as He. destruct (execute _ u) as [reply u']. cbn in He. subst u'.
    destruct (default _ _); by intros [= <- <-].
  - intros n bits rest w w' i. cbn -[crc_framed encode_rtu_read]. unfold transact.
    set (u := mkWorld _ _ _ _). change (execute _ u) with (crc_framed [1; 1; 1; coil_byte u], u).
    destruct (default _ _); try discriminate; intros H Hi.
    assert (Hbits : u8 (coil_byte u) = bits)
      by exact (f_equal (λ p, byte_at (value_or [] p.1) 3) H).
    assert (w' = u) as -> by exact (f_equal snd (eq_sym H)). rewrite <- Hbits. unfold u, coil_byte. cbn [coil].
    destruct i as [|[|[|[|i]]]]; [..|unfold kModbusIoChannelCount in Hi; lia];
      destruct (coil w 0), (coil w 1), (coil w 2), (coil w 3); done.
  - done.
Qed.

End SimTerminal.

(** Four clean writes, one whose reply is lost, one garbled, then a probe. *)
Definition sim_start : SimTerminal.World :=
  SimTerminal.mkWorld (λ _, false) 5
    [SimTerminal.Clean; SimTerminal.Clean; SimTerminal.ReplyLost; SimTerminal.ReplyGarbled] 0.

Definition sim_ops : list PhysicalOp :=
  [PWriteOutput 1 true; PWriteOutput 3 true; PWriteOutput 1 false; PWriteOutput 2 true].

(** The two failed writes reached the device; the view does not claim either. *)
Example sim_run :
  let '(s, w) := foldl (λ sw op, physical_step SimTerminal.link default_physical_config op sw)
                   (physical_new default_physical_config, sim_start) sim_ops in
  map (SimTerminal.coil w) (seq 0 4) = [false; false; true; true] ∧
  map do_confirmed (mi_digital_outputs s) = [false; true; false; true] ∧
  map do_last_status (mi_digital_outputs s) =
    [IoStatus.None; IoStatus.Timeout; IoStatus.Exception; IoStatus.Confirmed].
Proof. vm_compute. repeat split. Qed.

Lemma confirmed_output_is_driven_witness :
  let '(s, w) := foldl (λ sw op, physical_step SimTerminal.link default_physical_config op sw)
                   (physical_new default_physical_config, sim_start) sim_ops in
  do_confirmed (output_at 3 s) = SimTerminal.coil w 3 ∧ do_requested (output_at 3 s) = SimTerminal.coil w 3.
Proof.
  pose proof (confirmed_output_is_driven SimTerminal.link default_physical_config SimTerminal.coil sim_ops sim_start) as H.
  vm_compute in H |- *. apply (H 3%nat); [lia|done].
Defined.

Lemma all_off_outcome_witness :
  let r := write_all_outputs_off SimTerminal.link default_physical_config
             (physical_new default_physical_config) sim_start in
  match r.1 with
  | Ok _ => ∀ c, (c < 4)%nat → SimTerminal.coil r.2.2 c = false ∧ do_confirmed (output_at c r.2.1) = false
  | Err _ => ∃ k, (k < 4)%nat ∧ do_last_status (output_at k r.2.1) ≠ IoStatus.Confirmed ∧
      (∀ i, (i < k)%nat → SimTerminal.coil r.2.2 i = false ∧ do_confirmed (output_at i r.2.1) = false) ∧
      (∀ i, (k < i < 4)%nat →
         output_at i r.2.1 = output_at i (physical_new default_physical_config) ∧
         SimTerminal.coil r.2.2 i = SimTerminal.coil sim_start i)
  end.
Proof.
  intros r.
  apply (all_off_outcome SimTerminal.link default_physical_config SimTerminal.coil
           (physical_new default_physical_config) sim_start r.1 r.2.1 r.2.2).
  - apply (physical_new_true default_physical_config SimTerminal.coil).
  - reflexivity.
Defined.
