(* ===== verification/TcpFrame.v ===== *)
(** * Framed requests over TCP

    The cell application and the Modbus agent speak the same kind of frame: a magic
    number, a version, a type, a sequence number, a payload of bounded length and a CRC
    (application/modbus_agent_protocol.cpp, application/cell_app_protocol.cpp), and both
    read and send them with the same loops (services/modbus_agent_client.cpp,
    modbus_agent_server.cpp, cell_app_client.cpp, cell_app_server.cpp).  What differs,
    the magic number and the errors, is the record [FrameProtocol]. *)

From S2P Require Import Prelude Types Bytes RemoteFrame LinuxIo ModbusRtu SerialPort.
Local Open Scope Z_scope.

Record FrameProtocol := mkFrameProtocol {
  fp_magic : Z;
  fp_version : Z;
  fp_max_payload : nat;
  fp_short : Error;
  fp_bad_magic : Error;
  fp_bad_version : Error;
  fp_too_large : Error;
  fp_incomplete : Error;
  fp_bad_crc : Error
}.

(** What the readers rely on: exactly the two errors for missing bytes ask to wait. *)
Class FrameProtocolOk (P : FrameProtocol) := {
  fp_magic_u32 : is_u 32 (fp_magic P);
  fp_version_u8 : is_byte (fp_version P);
  fp_max_u16 : is_u 16 (Z.of_nat (fp_max_payload P));
  fp_short_waits : err_code (fp_short P) = Errc.WouldBlock;
  fp_incomplete_waits : err_code (fp_incomplete P) = Errc.WouldBlock
}.

Definition kTcpHeaderSize : nat := 12.
Definition kTcpCrcSize : nat := 2.

(** The type is the byte of the enumerator. *)
Record TcpFrame := mkTcpFrame { tf_type : Z; tf_sequence : Z; tf_payload : list Z }.

Section Codec.
Context (P : FrameProtocol).

(** [None]: refused. *)
Definition encode_frame (frame : TcpFrame) : option (list Z) :=
  if (fp_max_payload P <? length (tf_payload frame))%nat then None
  else
    let out := append_u32_le [] (fp_magic P) in
    let out := out ++ [fp_version P] in
    let out := out ++ [tf_type frame] in
    let out := out ++ [0] in
    let out := out ++ [0] in
    let out := append_u16_le out (tf_sequence frame) in
    let out := append_u16_le out (u16 (Z.of_nat (length (tf_payload frame)))) in
    let out := out ++ tf_payload frame in
    let crc := modbus_rtu_crc16 out in
    Some (append_u16_le out crc).

(** The frame, and how many bytes it took ([consumed]). *)
Definition try_decode (bytes : list Z) : Result TcpFrame * nat :=
  if (length bytes <? kTcpHeaderSize + kTcpCrcSize)%nat then (Err (fp_short P), 0%nat)
  else if negb (read_u32_le bytes =? fp_magic P) then (Err (fp_bad_magic P), 0%nat)
  else if negb (byte_at bytes 4 =? fp_version P) then (Err (fp_bad_version P), 0%nat)
  else
    let payload_len := Z.to_nat (read_u16_le bytes 10) in
    if (fp_max_payload P <? payload_len)%nat then (Err (fp_too_large P), 0%nat)
    else
      let total := (kTcpHeaderSize + payload_len + kTcpCrcSize)%nat in
      if (length bytes <? total)%nat then (Err (fp_incomplete P), 0%nat)
      else
        let got := read_u16_le bytes (total - 2) in
        let calc := modbus_rtu_crc16 (take (total - 2) bytes) in
        if negb (got =? calc) then (Err (fp_bad_crc P), 0%nat)
        else
          (Ok (mkTcpFrame (byte_at bytes 5) (read_u16_le bytes 8)
                 (take payload_len (drop kTcpHeaderSize bytes))), total).

(** ** The loops *)

(** [write_all]. *)
Fixpoint send_all (size sent : nat) (answers : list WriteAnswer) : option (Result ()) :=
  if (size <=? sent)%nat then Some (Ok ())
  else match answers with
  | [] => None
  | WriteErrno e :: rest =>
      if e =? EINTR then send_all size sent rest else Some (io_error "send")
  | Wrote n :: rest => send_all size (sent + n) rest
  end.

(** [read_frame] of the clients: the bytes of one frame; what follows them is dropped
    with the buffer. *)
Fixpoint read_frame (timeout disconnected : Error) (deadline : Z) (buffer : list Z)
    (turns : list RxTurn) : option (Result (list Z)) :=
  match turns with
  | [] => None
  | t :: rest =>
      if negb (rx_now t <? deadline) then Some (Err timeout)
      else if left_ms deadline (rx_now_left t) <=? 0 then Some (Err timeout)
      else match rx_poll t with
      | PollErrno e =>
          if e =? EINTR then read_frame timeout disconnected deadline buffer rest
          else Some (io_error "poll")
      | PollTimeout => Some (Err timeout)
      | PollReady =>
          match rx_read t with
          | ReadErrno e =>
              if e =? EINTR then read_frame timeout disconnected deadline buffer rest
              else Some (io_error "recv")
          | ReadBytes [] => Some (Err disconnected)
          | ReadBytes chunk =>
              let buffer := buffer ++ chunk in
              match try_decode buffer with
              | (Ok _, consumed) => Some (Ok (take consumed buffer))
              | (Err e, _) =>
                  if err_code e ==? Errc.WouldBlock
                  then read_frame timeout disconnected deadline buffer rest
                  else Some (Err e)
              end
          end
      end
  end.

(** [read_request] of the agent's server: the frame itself; a failed [recv] counts as a
    disconnection. *)
Fixpoint read_request (timeout disconnected : Error) (deadline : Z) (buffer : list Z)
    (turns : list RxTurn) : option (Result TcpFrame) :=
  match turns with
  | [] => None
  | t :: rest =>
      if negb (rx_now t <? deadline) then Some (Err timeout)
      else if left_ms deadline (rx_now_left t) <=? 0 then Some (Err timeout)
      else match rx_poll t with
      | PollErrno e =>
          if e =? EINTR then read_request timeout disconnected deadline buffer rest
          else Some (io_error "poll")
      | PollTimeout => Some (Err timeout)
      | PollReady =>
          match rx_read t with
          | ReadErrno e =>
              if e =? EINTR then read_request timeout disconnected deadline buffer rest
              else Some (Err disconnected)
          | ReadBytes [] => Some (Err disconnected)
          | ReadBytes chunk =>
              let buffer := buffer ++ chunk in
              match try_decode buffer with
              | (Ok frame, _) => Some (Ok frame)
              | (Err e, _) =>
                  if err_code e ==? Errc.WouldBlock
                  then read_request timeout disconnected deadline buffer rest
                  else Some (Err e)
              end
          end
      end
  end.

(** ** The layout *)

Definition tcp_body (f : TcpFrame) : list Z :=
  le_bytes 4 (fp_magic P) ++ [fp_version P; tf_type f; 0; 0] ++
  le_bytes 2 (tf_sequence f) ++ le_bytes 2 (Z.of_nat (length (tf_payload f))) ++ tf_payload f.

(** A frame of the widths of the C++ fields whose payload fits. *)
Definition tcp_frame_ok (f : TcpFrame) : Prop :=
  is_byte (tf_type f) ∧ is_u 16 (tf_sequence f) ∧ bytes_wf (tf_payload f) ∧
  (length (tf_payload f) ≤ fp_max_payload P)%nat.

Lemma tcp_body_length f : length (tcp_body f) = (12 + length (tf_payload f))%nat.
Proof. unfold tcp_body. rewrite !length_app, !le_bytes_length. cbn. lia. Qed.

Context `{!FrameProtocolOk P}.

Lemma tcp_payload_u16 f : tcp_frame_ok f → is_u 16 (Z.of_nat (length (tf_payload f))).
Proof. intros (_ & _ & _ & Hl). pose proof fp_max_u16. unfold is_u in *. lia. Qed.

Lemma tcp_body_wf f : tcp_frame_ok f → bytes_wf (tcp_body f).
Proof.
  intros (Ht & _ & Hp & _). unfold tcp_body. rewrite !Forall_app.
  split_and!; try apply le_bytes_wf; [|done].
  repeat (apply Forall_cons; split; [first [done|apply fp_version_u8]|]). constructor.
Qed.

Lemma encode_frame_ok f : tcp_frame_ok f → encode_frame f = Some (crc_framed (tcp_body f)).
Proof.
  intros Hf. pose proof Hf as (_ & _ & _ & Hl). unfold encode_frame.
  rewrite (proj2 (Nat.ltb_ge _ _)), u16_small by (done || by apply tcp_payload_u16).
  rewrite !append_u16_le_bytes, append_u32_le_bytes, <- !app_assoc. done.
Qed.

Lemma encode_frame_refuses f :
  (fp_max_payload P < length (tf_payload f))%nat → encode_frame f = None.
Proof. intros Hl. unfold encode_frame. by rewrite (proj2 (Nat.ltb_lt _ _)). Qed.

(** A frame decodes to itself, whatever follows it. *)
Lemma try_decode_encoded f rest :
  tcp_frame_ok f →
  try_decode (crc_framed (tcp_body f) ++ rest) = (Ok f, length (crc_framed (tcp_body f))).
Proof.
  intros Hf. pose proof (tcp_body_wf f Hf) as Hb. pose proof (tcp_body_length f) as Hlen.
  pose proof Hf as (_ & Hs & _ & Hp). pose proof (crc_framed_length (tcp_body f)) as Hcl.
  unfold try_decode, kTcpHeaderSize, kTcpCrcSize.
  rewrite (proj2 (Nat.ltb_ge _ _)) by (rewrite length_app; lia).
  rewrite read_u32_le_read. erewrite (le_read_written 4 0 _ (fp_magic P));
    [|rewrite drop_0; unfold crc_framed, tcp_body; rewrite <- !app_assoc; reflexivity|apply fp_magic_u32].
  rewrite u32_small, Z.eqb_refl by apply fp_magic_u32. cbn [negb].
  change (byte_at (crc_framed (tcp_body f) ++ rest) 4) with (fp_version P). rewrite Z.eqb_refl. cbn [negb].
  erewrite (read_u16_written _ 10 (Z.of_nat (length (tf_payload f))));
    [|unfold crc_framed, tcp_body; rewrite <- !app_assoc; reflexivity|by apply tcp_payload_u16].
  rewrite Nat2Z.id, (proj2 (Nat.ltb_ge _ _)) by done.
  rewrite (proj2 (Nat.ltb_ge _ _)) by (rewrite length_app; lia).
  replace (12 + length (tf_payload f) + 2 - 2)%nat with (12 + length (tf_payload f))%nat by lia.
  assert (Htk : take (12 + length (tf_payload f)) (crc_framed (tcp_body f) ++ rest) = tcp_body f).
  { unfold crc_framed. rewrite <- !app_assoc. by apply take_app_length'. }
  rewrite Htk. erewrite (read_u16_written _ (12 + length (tf_payload f)) (modbus_rtu_crc16 (tcp_body f)));
    [|unfold crc_framed; rewrite <- !app_assoc; by apply drop_app_length'|by apply crc16_range].
  rewrite Z.eqb_refl. cbn [negb].
  change (byte_at (crc_framed (tcp_body f) ++ rest) 5) with (tf_type f).
  erewrite (read_u16_written _ 8 (tf_sequence f));
    [|unfold crc_framed, tcp_body; rewrite <- !app_assoc; reflexivity|done].
  assert (Hpl : take (length (tf_payload f)) (drop 12 (crc_framed (tcp_body f) ++ rest)) = tf_payload f).
  { unfold crc_framed, tcp_body. rewrite <- !app_assoc. by apply take_app_length'. }
  rewrite Hpl. destruct f. f_equal. rewrite Hcl, Hlen. done.
Qed.

(** A part of a frame is never an answer and never an error: the reader waits. *)
Lemma try_decode_prefix f p q :
  tcp_frame_ok f → crc_framed (tcp_body f) = p ++ q → q ≠ [] →
  ∃ e, try_decode p = (Err e, 0%nat) ∧ err_code e = Errc.WouldBlock.
Proof.
  intros Hf Hpq Hq. pose proof (tcp_body_length f) as Hlen.
  assert (Hpl : (length p < 14 + length (tf_payload f))%nat).
  { pose proof (f_equal length Hpq) as H. rewrite crc_framed_length, length_app in H.
    destruct q; [done|cbn in H; lia]. }
  unfold try_decode, kTcpHeaderSize, kTcpCrcSize.
  destruct (Nat.ltb_spec (length p) (12 + 2)) as [|Hl]; [eexists; split; [done|apply fp_short_waits]|].
  assert (Hw : drop 0 (p ++ q) = le_bytes 4 (fp_magic P) ++ drop 4 (p ++ q)).
  { rewrite drop_0, <- Hpq. unfold crc_framed, tcp_body. by rewrite <- !app_assoc. }
  rewrite read_u32_le_read, <- (le_read_app 4 0 p q) by lia.
  erewrite (le_read_written 4 0 _ (fp_magic P)); [|exact Hw|apply fp_magic_u32].
  rewrite u32_small, Z.eqb_refl by apply fp_magic_u32. cbn [negb].
  rewrite (prefix_byte_at p q), <- Hpq by lia.
  change (byte_at (crc_framed (tcp_body f)) 4) with (fp_version P). rewrite Z.eqb_refl. cbn [negb].
  rewrite read_u16_le_read, <- (le_read_app 2 10 p q), <- read_u16_le_read, <- Hpq by lia.
  erewrite (read_u16_written _ 10 (Z.of_nat (length (tf_payload f))));
    [|unfold crc_framed, tcp_body; rewrite <- !app_assoc; reflexivity|by apply tcp_payload_u16].
  rewrite Nat2Z.id, (proj2 (Nat.ltb_ge _ _)) by apply Hf.
  rewrite (proj2 (Nat.ltb_lt _ _)) by lia. eexists. split; [done|apply fp_incomplete_waits].
Qed.

(** However a frame is cut, with interrupts between the pieces and bytes of a later
    frame behind it, both readers return it. *)
Lemma readers_delivered timeout disconnected deadline f more last turns cs :
  tcp_frame_ok f → delivers deadline cs turns → ∀ got chunks,
  cs = chunks ++ [last] → got ++ concat chunks ++ last = crc_framed (tcp_body f) ++ more →
  (length (got ++ concat chunks) < length (crc_framed (tcp_body f)))%nat →
  read_frame timeout disconnected deadline got turns = Some (Ok (crc_framed (tcp_body f))) ∧
  read_request timeout disconnected deadline got turns = Some (Ok f).
Proof.
  intros Hf Hd. remember (crc_framed (tcp_body f)) as wire eqn:Hwire.
  induction Hd as [turns|cs t turns Ht Hlm Hi Hd IH|c cs t turns Ht Hlm Hp Hr Hc Hd IH];
    intros got chunks Hcs Hall Hlen; [by destruct chunks| |];
    cbn [read_frame read_request];
    rewrite (proj2 (Z.ltb_lt _ _)), (proj2 (Z.leb_gt _ _)) by done; cbn [negb].
  { destruct Hi as [->|[-> ->]]; cbn; by apply (IH got chunks). }
  rewrite Hp, Hr. destruct c as [|x c]; [done|].
  destruct chunks as [|d chunks]; injection Hcs as -> ->; cbn [concat app] in Hall, Hlen.
  - rewrite Hall, Hwire, try_decode_encoded by done. by rewrite take_app_length.
  - rewrite <- !app_assoc in Hall. rewrite !length_app in Hlen.
    assert (Hq : ∃ q, wire = (got ++ d) ++ q ∧ q ≠ []).
    { exists (drop (length (got ++ d)) wire). split.
      - rewrite <- (take_drop (length (got ++ d)) wire) at 1. f_equal.
        rewrite <- (take_app_le wire more) by (rewrite length_app; lia).
        rewrite <- Hall, app_assoc. by rewrite take_app_length.
      - intros H%(f_equal length). rewrite length_drop, length_app in H. cbn in H. lia. }
    destruct Hq as (q & Hfq & Hq). rewrite Hwire in Hfq.
    destruct (try_decode_prefix f _ q Hf Hfq Hq) as (e & -> & He).
    rewrite He, bool_decide_eq_true_2 by done.
    apply (IH _ chunks); [reflexivity|rewrite <- app_assoc; exact Hall|]. rewrite !length_app. lia.
Qed.

(** The pieces of one message as a reader gets them. *)
Definition arrives (deadline : Z) (wire : list Z) (turns : list RxTurn) : Prop :=
  ∃ chunks last more, delivers deadline (chunks ++ [last]) turns ∧
    concat chunks ++ last = wire ++ more ∧ (length (concat chunks) < length wire)%nat.

Lemma readers_receive timeout disconnected deadline f turns :
  tcp_frame_ok f → arrives deadline (crc_framed (tcp_body f)) turns →
  read_frame timeout disconnected deadline [] turns = Some (Ok (crc_framed (tcp_body f))) ∧
  read_request timeout disconnected deadline [] turns = Some (Ok f).
Proof.
  intros Hf (chunks & last & more & Hd & Hall & Hlen).
  by apply (readers_delivered _ _ _ f more last turns (chunks ++ [last]) Hf Hd [] chunks).
Qed.

End Codec.

(** A message that comes in one piece, in time. *)
Definition one_turn (now : Z) (wire : list Z) : list RxTurn :=
  [mkRxTurn now now PollReady (ReadBytes wire)].

Lemma one_turn_arrives deadline now wire :
  now < deadline → 0 < left_ms deadline now → wire ≠ [] → arrives deadline wire (one_turn now wire).
Proof.
  intros Hn Hl Hw. exists [], wire, []. split_and!; [|by rewrite app_nil_r|destruct wire; [done|cbn; lia]].
  apply delivers_chunk; try done. apply delivers_all.
Qed.

(** Every complete [send] sequence sends everything. *)
Lemma send_all_enough size sent answers :
  send_all size sent answers = Some (Ok ()) →
  (size ≤ sent + list_sum (map (λ a, match a with Wrote n => n | WriteErrno _ => 0 end) answers))%nat.
Proof.
  unfold list_sum in *. revert sent. induction answers as [|[n|e] answers IH]; intros sent; cbn;
    destruct (Nat.leb_spec size sent); try done; try lia.
  - intros Hs%IH. lia.
  - destruct (e =? EINTR); [|done]. intros Hs%IH. lia.
Qed.

(** ** Sockets

    The clients' [connect] and the servers' [listen], the same code in both services; the
    new descriptor is an [OwnedFd], closed on every error path. *)

Inductive ConnectAnswer := ConnectDone | ConnectInProgress | ConnectFailed.

Record ConnectEnv := mkConnectEnv {
  ce_getaddrinfo : bool;
  ce_socket : option Z;
  ce_fcntl : bool;
  ce_connect : ConnectAnswer;
  ce_poll : PollAnswer;
  ce_so_error : bool
}.

(** The descriptor of the connected socket; [timeout] is the caller's timeout error. *)
Definition tcp_connect (timeout : Error) (env : ConnectEnv) (k : Kernel) : Result Z * Kernel :=
  if negb (ce_getaddrinfo env) then (fail_with Errc.InvalidArgument "getaddrinfo: ", k)
  else match ce_socket env with
  | None => (io_error "socket", k)
  | Some fd =>
      let k := k_create (Some fd) k in
      if negb (ce_fcntl env) then (io_error "fcntl", k_close fd k)
      else match ce_connect env with
      | ConnectFailed => (io_error "connect", k_close fd k)
      | ConnectDone => (Ok fd, k)
      | ConnectInProgress =>
          match ce_poll env with
          | PollTimeout => (Err timeout, k_close fd k)
          | PollErrno _ => (io_error "connect poll", k_close fd k)
          | PollReady =>
              if negb (ce_so_error env) then (io_error "connect", k_close fd k) else (Ok fd, k)
          end
      end
  end.

Record ListenEnv := mkListenEnv {
  le_socket : option Z;
  le_inet_pton : bool;
  le_bind : bool;
  le_listen : bool;
  le_getsockname : option Z
}.

(** The listening descriptor and the port it is bound to. *)
Definition tcp_listen (env : ListenEnv) (k : Kernel) : Result (Z * Z) * Kernel :=
  match le_socket env with
  | None => (io_error "socket", k)
  | Some fd =>
      let k := k_create (Some fd) k in
      if negb (le_inet_pton env) then (fail_with Errc.InvalidArgument "invalid bind address", k_close fd k)
      else if negb (le_bind env) then (io_error "bind", k_close fd k)
      else if negb (le_listen env) then (io_error "listen", k_close fd k)
      else match le_getsockname env with
      | None => (io_error "getsockname", k_close fd k)
      | Some port => (Ok (fd, port), k)
      end
  end.

(** A failure leaves the kernel's descriptors as they were. *)
Lemma tcp_connect_balanced timeout env k r k' :
  (∀ fd, ce_socket env = Some fd → fd ∉ k_open k) → tcp_connect timeout env k = (r, k') →
  match r with
  | Ok fd => ce_socket env = Some fd ∧ k' = k_create (Some fd) k
  | Err _ => k' = k
  end.
Proof.
  intros Hfresh. unfold tcp_connect. destruct (negb _); [by intros [= <- <-]|].
  destruct (ce_socket env) as [fd|]; [|by intros [= <- <-]].
  pose proof (k_create_close fd k (Hfresh fd eq_refl)) as Hc.
  destruct (negb _); [by intros [= <- <-]|].
  destruct (ce_connect env); [by intros [= <- <-]| |by intros [= <- <-]].
  destruct (ce_poll env); [|by intros [= <- <-]..]. by destruct (negb _); intros [= <- <-].
Qed.

Lemma tcp_listen_balanced env k r k' :
  (∀ fd, le_socket env = Some fd → fd ∉ k_open k) → tcp_listen env k = (r, k') →
  match r with
  | Ok (fd, _) => le_socket env = Some fd ∧ k' = k_create (Some fd) k
  | Err _ => k' = k
  end.
Proof.
  intros Hfresh. unfold tcp_listen. destruct (le_socket env) as [fd|]; [|by intros [= <- <-]].
  pose proof (k_create_close fd k (Hfresh fd eq_refl)) as Hc.
  do 3 (destruct (negb _); [by intros [= <- <-]|]).
  by destruct (le_getsockname env); intros [= <- <-].
Qed.
