(* ===== verification/ModbusAgent.v ===== *)
(** * The Modbus agent

    application/modbus_agent_protocol.cpp, services/modbus_agent_server.cpp and
    services/modbus_agent_client.cpp: the process that owns the serial line answers
    framed requests over TCP, and the engineer's client shows the snapshot it gets. *)

From Stdlib Require Import Ascii.
From S2P Require Import Prelude Types Bytes RemoteFrame Application.
From S2P Require Import LinuxIo ModbusRtu ModbusIo SerialPort PhysicalModbus TcpFrame.
Local Open Scope Z_scope.

Definition kModbusAgentMagic : Z := 0x4D524352.
Definition kModbusAgentVersion : Z := 1.
Definition kModbusAgentMaxPayload : nat := 256.

Definition modbus_agent_protocol : FrameProtocol :=
  mkFrameProtocol kModbusAgentMagic kModbusAgentVersion kModbusAgentMaxPayload
    (mkError Errc.WouldBlock "need more agent bytes")
    (mkError Errc.Rejected "bad agent magic")
    (mkError Errc.Unsupported "unsupported agent version")
    (mkError Errc.InvalidArgument "agent payload too large")
    (mkError Errc.WouldBlock "need more agent bytes")
    (mkError Errc.Rejected "agent CRC mismatch").

#[export] Instance modbus_agent_protocol_ok : FrameProtocolOk modbus_agent_protocol.
Proof. by split. Qed.

Module AgentMessage.
Inductive ModbusAgentMessage :=
  | Probe | ProbeAck | ReadDi | ReadDiAck | WriteDo | WriteDoAck | Error | AllOff | AllOffAck
  | Unnamed (byte : Z).
End AgentMessage.
Notation ModbusAgentMessage := AgentMessage.ModbusAgentMessage.

#[export] Instance ModbusAgentMessage_eq_dec : EqDecision ModbusAgentMessage.
Proof. solve_decision. Defined.

(** [static_cast] to and from the underlying byte. *)
Definition agent_message_code (m : ModbusAgentMessage) : Z :=
  match m with
  | AgentMessage.Probe => 1
  | AgentMessage.ProbeAck => 2
  | AgentMessage.ReadDi => 3
  | AgentMessage.ReadDiAck => 4
  | AgentMessage.WriteDo => 5
  | AgentMessage.WriteDoAck => 6
  | AgentMessage.Error => 7
  | AgentMessage.AllOff => 8
  | AgentMessage.AllOffAck => 9
  | AgentMessage.Unnamed b => b
  end.

Definition agent_message_of_code (b : Z) : ModbusAgentMessage :=
  if b =? 1 then AgentMessage.Probe
  else if b =? 2 then AgentMessage.ProbeAck
  else if b =? 3 then AgentMessage.ReadDi
  else if b =? 4 then AgentMessage.ReadDiAck
  else if b =? 5 then AgentMessage.WriteDo
  else if b =? 6 then AgentMessage.WriteDoAck
  else if b =? 7 then AgentMessage.Error
  else if b =? 8 then AgentMessage.AllOff
  else if b =? 9 then AgentMessage.AllOffAck
  else AgentMessage.Unnamed b.

Record ModbusAgentFrame := mkAgentFrame {
  af_type : ModbusAgentMessage;
  af_sequence : Z;
  af_payload : list Z
}.

Definition raw_frame (f : ModbusAgentFrame) : TcpFrame :=
  mkTcpFrame (agent_message_code (af_type f)) (af_sequence f) (af_payload f).
Definition agent_frame (f : TcpFrame) : ModbusAgentFrame :=
  mkAgentFrame (agent_message_of_code (tf_type f)) (tf_sequence f) (tf_payload f).

Definition encode_modbus_agent_frame (f : ModbusAgentFrame) : option (list Z) :=
  encode_frame modbus_agent_protocol (raw_frame f).

Definition try_decode_modbus_agent_frame (bytes : list Z) : Result ModbusAgentFrame * nat :=
  let '(r, consumed) := try_decode modbus_agent_protocol bytes in
  (let? f := r in Ok (agent_frame f), consumed).

(** ** Payloads *)

Definition append_lp_string (out : list Z) (value : string) : list Z :=
  let n := Nat.min (String.length value) 255 in
  (out ++ [u8 (Z.of_nat n)]) ++ take n (str_bytes value).

(** [read_lp_string]: the string and the offset behind it. *)
Definition read_lp_string (input : list Z) (offset : nat) : Result (string * nat) :=
  if (length input <=? offset)%nat then fail_with Errc.InvalidArgument "truncated agent string"
  else
    let n := Z.to_nat (byte_at input offset) in
    let offset := S offset in
    if (length input <? offset + n)%nat then
      fail_with Errc.InvalidArgument "truncated agent string body"
    else Ok (bytes_str (take n (drop offset input)), (offset + n)%nat).

(** Enumeration bytes of the snapshot. *)
Definition device_state_code (s : ModbusDeviceState) : Z :=
  match s with
  | ModbusDeviceState.Unknown => 0
  | ModbusDeviceState.Online => 1
  | ModbusDeviceState.Timeout => 2
  | ModbusDeviceState.Error => 3
  | ModbusDeviceState.Unnamed b => b
  end.

Definition device_state_of_code (b : Z) : ModbusDeviceState :=
  if b =? 0 then ModbusDeviceState.Unknown
  else if b =? 1 then ModbusDeviceState.Online
  else if b =? 2 then ModbusDeviceState.Timeout
  else if b =? 3 then ModbusDeviceState.Error
  else ModbusDeviceState.Unnamed b.

Definition io_status_code (s : ModbusIoCommandStatus) : Z :=
  match s with
  | IoStatus.None => 0
  | IoStatus.Confirmed => 1
  | IoStatus.Timeout => 2
  | IoStatus.Exception => 3
  | IoStatus.Rejected => 4
  | IoStatus.InvalidChannel => 5
  | IoStatus.Busy => 6
  | IoStatus.Unnamed b => b
  end.

Definition io_status_of_code (b : Z) : ModbusIoCommandStatus :=
  if b =? 0 then IoStatus.None
  else if b =? 1 then IoStatus.Confirmed
  else if b =? 2 then IoStatus.Timeout
  else if b =? 3 then IoStatus.Exception
  else if b =? 4 then IoStatus.Rejected
  else if b =? 5 then IoStatus.InvalidChannel
  else if b =? 6 then IoStatus.Busy
  else IoStatus.Unnamed b.

Definition bool_byte (b : bool) : Z := if b then 1 else 0.

(** The parity letter on the wire: [N] for ["None"] and for an empty text. *)
Definition parity_byte (parity : string) : Z :=
  if parity ==? "None"%string then char_byte "N"
  else match parity with EmptyString => char_byte "N" | String c _ => char_byte c end.

Definition encode_probe_ack_payload (s : ModbusIoSnapshot) : list Z :=
  let out := [device_state_code (mi_device_state s)] in
  let out := out ++ [mi_slave_id s] in
  let out := out ++ [u8 (Z.of_nat kModbusIoChannelCount)] in
  let out := foldl (λ out d, out ++ [bool_byte (di_active d)]) out (mi_digital_inputs s) in
  let out := foldl (λ out d, ((out ++ [bool_byte (do_requested d)]) ++ [bool_byte (do_confirmed d)])
                               ++ [io_status_code (do_last_status d)]) out (mi_digital_outputs s) in
  let out := append_u32_le out (mi_baud_rate s) in
  let out := out ++ [parity_byte (mi_parity s)] in
  let out := append_u32_le out (u32 (Z.quot (tr_rtt_ns (mi_last_transaction s)) 1000000)) in
  let out := out ++ [io_status_code (mi_last_command_status s)] in
  let out := out ++ [tr_function (mi_last_transaction s)] in
  let out := append_lp_string out (mi_serial_port s) in
  let out := append_lp_string out (mi_sku s) in
  let out := append_lp_string out (mi_last_error s) in
  let out := append_lp_string out (tr_tx_hex (mi_last_transaction s)) in
  let out := append_lp_string out (tr_rx_hex (mi_last_transaction s)) in
  append_lp_string out (tr_result (mi_last_transaction s)).

(** [read_u32_le(payload.data() + offset)] *)
Definition read_u32_at (l : list Z) (offset : nat) : Z := read_u32_le (drop offset l).

Definition kProbeAckFixed : nat := 3 + kModbusIoChannelCount + kModbusIoChannelCount * 3 + 4 + 1 + 4 + 1 + 1.

(** The two loops over the channels, from their offsets. *)
Definition decode_inputs (payload : list Z) (offset : nat) : list DigitalInputState :=
  map (λ i, mkDigitalInput (u8 (Z.of_nat i)) (negb (byte_at payload (offset + i) =? 0)))
    (seq 0 kModbusIoChannelCount).

Definition decode_outputs (payload : list Z) (offset : nat) : list DigitalOutputState :=
  map (λ i, mkDigitalOutput (u8 (Z.of_nat i))
              (negb (byte_at payload (offset + 3 * i) =? 0))
              (negb (byte_at payload (offset + 3 * i + 1) =? 0))
              (io_status_of_code (byte_at payload (offset + 3 * i + 2))))
    (seq 0 kModbusIoChannelCount).

Definition decode_probe_ack_payload (payload : list Z) : Result ModbusIoSnapshot :=
  if (length payload <? kProbeAckFixed)%nat then fail_with Errc.InvalidArgument "probe ack too short"
  else
    let device_state := device_state_of_code (byte_at payload 0) in
    let slave_id := byte_at payload 1 in
    if negb (byte_at payload 2 =? Z.of_nat kModbusIoChannelCount) then
      fail_with Errc.InvalidArgument "unexpected DI count"
    else
      let inputs := decode_inputs payload 3 in
      let offset := (3 + kModbusIoChannelCount)%nat in
      let outputs := decode_outputs payload offset in
      let offset := (offset + 3 * kModbusIoChannelCount)%nat in
      let baud_rate := read_u32_at payload offset in
      let offset := (offset + 4)%nat in
      let parity := byte_char (byte_at payload offset) in
      let offset := (offset + 1)%nat in
      let parity := if parity ==? "N"%char then "None"%string else String parity "" in
      let rtt_ms := read_u32_at payload offset in
      let offset := (offset + 4)%nat in
      let last_command_status := io_status_of_code (byte_at payload offset) in
      let offset := (offset + 1)%nat in
      let function := byte_at payload offset in
      let offset := (offset + 1)%nat in
      let? (serial, offset) := read_lp_string payload offset in
      let? (sku, offset) := read_lp_string payload offset in
      let? (error, offset) := read_lp_string payload offset in
      let? (tx, offset) := read_lp_string payload offset in
      let? (rx, offset) := read_lp_string payload offset in
      let? (result, offset) := read_lp_string payload offset in
      Ok (default_io_snapshot
            <| mi_backend := "PHYSICAL"%string |>
            <| mi_evidence := EvidenceClass.Physical |>
            <| mi_no_physical_rs485 := false |>
            <| mi_transport := "Modbus RTU"%string |>
            <| mi_device_state := device_state |>
            <| mi_slave_id := slave_id |>
            <| mi_digital_inputs := inputs |>
            <| mi_digital_outputs := outputs |>
            <| mi_baud_rate := baud_rate |>
            <| mi_baud_rate_placeholder := baud_rate |>
            <| mi_parity := parity |>
            <| mi_parity_placeholder := parity |>
            <| mi_last_command_status := last_command_status |>
            <| mi_serial_port := serial |>
            <| mi_sku := sku |>
            <| mi_last_error := error |>
            <| mi_last_transaction := mkTransaction "NONE" slave_id function 0 0 result
                 (rtt_ms * 1000000) tx rx |>
            <| mi_scan_state := if device_state ==? ModbusDeviceState.Online
                                then ModbusScanState.Complete else ModbusScanState.Error |>).

Definition encode_write_do_payload (channel : Z) (active : bool) : list Z :=
  [channel; bool_byte active].

Definition decode_write_do_payload (payload : list Z) : Result (Z * bool) :=
  if (length payload <? 2)%nat then fail_with Errc.InvalidArgument "write-do payload too short"
  else Ok (byte_at payload 0, negb (byte_at payload 1 =? 0)).

(** ** The server *)

Section Server.
Context {W : Type} (link : RtuLink W) (config : PhysicalModbusIoConfig).

(** The service behind the server: its snapshot and the line. *)
Notation Service := (ModbusIoSnapshot * W)%type.

Definition handle_request (request : ModbusAgentFrame) (sv : Service) : ModbusAgentFrame * Service :=
  let error := mkAgentFrame AgentMessage.Error (af_sequence request) [] in
  let reply type sv := (mkAgentFrame type (af_sequence request) (encode_probe_ack_payload (fst sv)), sv) in
  match af_type request with
  | AgentMessage.Probe => reply AgentMessage.ProbeAck (probe link config sv.1 sv.2).2
  | AgentMessage.ReadDi => reply AgentMessage.ReadDiAck (read_inputs link config sv.1 sv.2).2
  | AgentMessage.WriteDo =>
      match decode_write_do_payload (af_payload request) with
      | Err _ => (error, sv)
      | Ok (channel, active) =>
          reply AgentMessage.WriteDoAck
            (write_output link config (Z.to_nat channel) active sv.1 sv.2).2
      end
  | AgentMessage.AllOff => reply AgentMessage.AllOffAck (write_all_outputs_off link config sv.1 sv.2).2
  | _ => (error, sv)
  end.

(** What the kernel answers in one turn of a session: the time the wait starts, the
    turns of [read_request], and the answers to the sends of the reply. *)
Record SessionTurn := mkSessionTurn {
  st_now : Z;
  st_turns : list RxTurn;
  st_sends : list WriteAnswer
}.

Definition agent_request_timeout : Error := mkError Errc.Timeout "agent request timeout".
Definition client_disconnected : Error := mkError Errc.IoError "client disconnected".

(** The session loop of [serve_one]; [None]: the answers ended before it did. *)
Fixpoint serve_session (served : bool) (turns : list SessionTurn) (sv : Service)
    : option (Result ()) * Service :=
  match turns with
  | [] => (None, sv)
  | t :: rest =>
      let idle := if served then 5000 else 1000 in
      match read_request modbus_agent_protocol agent_request_timeout client_disconnected
              (st_now t + idle * 1000000) [] (st_turns t) with
      | None => (None, sv)
      | Some (Err e) =>
          if served && ((err_code e ==? Errc.Timeout) || (err_code e ==? Errc.IoError))
          then (Some (Ok ()), sv) else (Some (Err e), sv)
      | Some (Ok request) =>
          let '(reply, sv) := handle_request (agent_frame request) sv in
          match encode_modbus_agent_frame reply with
          | None => (Some (fail_with Errc.InvalidArgument "failed to encode agent reply"), sv)
          | Some wire =>
              match send_all (length wire) 0 (st_sends t) with
              | None => (None, sv)
              | Some (Err e) => (Some (Err e), sv)
              | Some (Ok _) => serve_session true rest sv
              end
          end
      end
  end.

(** [ModbusAgentServer]: its listening descriptor and port. *)
Record ModbusAgentServer := mkAgentServer { as_listen_fd : Z; as_port : Z }.

Definition agent_server_close (s : ModbusAgentServer) (k : Kernel) : ModbusAgentServer * Kernel :=
  let '(fd, k) := fd_reset (as_listen_fd s) k in (mkAgentServer fd 0, k).

Definition agent_server_listen (env : ListenEnv) (s : ModbusAgentServer) (k : Kernel)
    : Result () * ModbusAgentServer * Kernel :=
  let '(s, k) := agent_server_close s k in
  match tcp_listen env k with
  | (Err e, k) => (Err e, s, k)
  | (Ok (fd, port), k) => (Ok (), mkAgentServer fd port, k)
  end.

(** What [poll] and [accept4] answer: no connection, a failure, or a descriptor. *)
Inductive AcceptAnswer := AcceptTimeout | AcceptPollError | AcceptError | Accepted (fd : Z).

(** [serve_one]; the client's descriptor is closed when the function returns. *)
Definition serve_one (server : ModbusAgentServer) (answer : AcceptAnswer) (turns : list SessionTurn)
    (sv : Service) (k : Kernel) : option (Result ()) * Service * Kernel :=
  if negb (fd_valid (as_listen_fd server)) then
    (Some (fail_with Errc.NotOpen "agent server not listening"), sv, k)
  else match answer with
  | AcceptTimeout => (Some (fail_with Errc.Timeout "accept timeout"), sv, k)
  | AcceptPollError => (Some (io_error "accept poll"), sv, k)
  | AcceptError => (Some (io_error "accept"), sv, k)
  | Accepted fd =>
      let k := k_create (Some fd) k in
      let '(r, sv) := serve_session false turns sv in
      (r, sv, match r with Some _ => k_close fd k | None => k end)
  end.

End Server.

(** ** The client *)

Record ModbusAgentClient := mkAgentClient { ag_fd : Z; ag_next_sequence : Z }.

#[export] Instance AgentClient_eta : Eta ModbusAgentClient :=
  mkEta _ (fun c => mkAgentClient (ag_fd c) (ag_next_sequence c)).

Definition initial_agent_client : ModbusAgentClient := mkAgentClient (-1) 1.

Definition agent_disconnect (c : ModbusAgentClient) (k : Kernel) : ModbusAgentClient * Kernel :=
  if negb (fd_valid (ag_fd c)) then (c, k)
  else let '(fd, k) := fd_reset (ag_fd c) k in (c <| ag_fd := fd |>, k).

Definition agent_connect (env : ConnectEnv) (c : ModbusAgentClient) (k : Kernel)
    : Result () * ModbusAgentClient * Kernel :=
  let '(c, k) := agent_disconnect c k in
  let '(r, k) := tcp_connect (mkError Errc.Timeout "agent connect timeout") env k in
  match r with
  | Err e => (Err e, c, k)
  | Ok fd => (Ok (), c <| ag_fd := fd |>, k)
  end.

(** What the kernel answers during one exchange. *)
Record ExchangeEnv := mkExchangeEnv {
  xe_sends : list WriteAnswer;
  xe_now : Z;
  xe_turns : list RxTurn
}.

Definition agent_reply_timeout : Error := mkError Errc.Timeout "agent reply timeout".
Definition agent_disconnected : Error := mkError Errc.IoError "agent disconnected".

Definition agent_exchange (request_type ack_type : ModbusAgentMessage) (payload : list Z)
    (timeout_ms : Z) (env : ExchangeEnv) (c : ModbusAgentClient)
    : option (Result ModbusIoSnapshot) * ModbusAgentClient :=
  if negb (fd_valid (ag_fd c)) then (Some (fail_with Errc.NotOpen "agent client not connected"), c)
  else
    let request := mkAgentFrame request_type (ag_next_sequence c) payload in
    let c := c <| ag_next_sequence := u16 (ag_next_sequence c + 1) |> in
    match encode_modbus_agent_frame request with
    | None => (Some (fail_with Errc.InvalidArgument "failed to encode agent request"), c)
    | Some wire =>
        match send_all (length wire) 0 (xe_sends env) with
        | None => (None, c)
        | Some (Err e) => (Some (Err e), c)
        | Some (Ok _) =>
            match read_frame modbus_agent_protocol agent_reply_timeout agent_disconnected
                    (xe_now env + timeout_ms * 1000000) [] (xe_turns env) with
            | None => (None, c)
            | Some (Err e) => (Some (Err e), c)
            | Some (Ok raw) =>
                match fst (try_decode_modbus_agent_frame raw) with
                | Err e => (Some (Err e), c)
                | Ok frame =>
                    if af_type frame ==? AgentMessage.Error then
                      (Some (fail_with Errc.Rejected "agent returned ERROR"), c)
                    else if negb (af_type frame ==? ack_type) then
                      (Some (fail_with Errc.Rejected "unexpected agent message"), c)
                    else (Some (decode_probe_ack_payload (af_payload frame)), c)
                end
            end
        end
    end.

Definition agent_probe := agent_exchange AgentMessage.Probe AgentMessage.ProbeAck [].
Definition agent_read_inputs := agent_exchange AgentMessage.ReadDi AgentMessage.ReadDiAck [].
Definition agent_write_output (channel : Z) (active : bool) :=
  agent_exchange AgentMessage.WriteDo AgentMessage.WriteDoAck (encode_write_do_payload channel active).
Definition agent_write_all_outputs_off := agent_exchange AgentMessage.AllOff AgentMessage.AllOffAck [].

(** ** What the payload carries *)

(** A text as the agent sends it: its first 255 characters. *)
Definition agent_text (s : string) : string := bytes_str (take 255 (str_bytes s)).

Lemma agent_text_short s : (String.length s ≤ 255)%nat → agent_text s = s.
Proof. intros. unfold agent_text. rewrite take_ge by (rewrite str_bytes_length; lia). apply bytes_str_bytes. Qed.

Definition lp_bytes (s : string) : list Z :=
  Z.of_nat (Nat.min (String.length s) 255) :: take 255 (str_bytes s).

Lemma append_lp_bytes out s : append_lp_string out s = out ++ lp_bytes s.
Proof.
  unfold append_lp_string, lp_bytes. rewrite u8_small by width_lia. rewrite <- app_assoc. cbn [app].
  do 2 f_equal. rewrite <- (str_bytes_length s).
  destruct (Nat.le_ge_cases (length (str_bytes s)) 255) as [Hl|Hl].
  - rewrite Nat.min_l, !take_ge by lia. done.
  - by rewrite Nat.min_r.
Qed.

Lemma lp_bytes_wf s : bytes_wf (lp_bytes s).
Proof.
  apply Forall_cons. split; [unfold is_byte; width_lia|]. apply Forall_take, str_bytes_wf.
Qed.

Lemma read_lp_written l s rest :
  read_lp_string (l ++ lp_bytes s ++ rest) (length l) =
  Ok (agent_text s, length (l ++ lp_bytes s)).
Proof.
  unfold read_lp_string. set (n := Nat.min (String.length s) 255).
  assert (Hb : byte_at (l ++ lp_bytes s ++ rest) (length l) = Z.of_nat n).
  { unfold byte_at. by rewrite lookup_app_r, Nat.sub_diag by lia. }
  assert (Hn : length (take 255 (str_bytes s)) = n).
  { rewrite length_take, str_bytes_length. unfold n. lia. }
  rewrite Hb, Nat2Z.id. clearbody n. unfold lp_bytes in *. rewrite !length_app. cbn [length app].
  rewrite Hn. rewrite (proj2 (Nat.leb_gt _ _)), (proj2 (Nat.ltb_ge _ _)) by lia.
  f_equal. f_equal; [|lia]. unfold agent_text. f_equal.
  replace (S (length l)) with (length l + 1)%nat by lia.
  rewrite <- drop_drop, drop_app_length. change (drop 1 (?x :: ?r)) with r. rewrite <- Hn. apply take_app_length.
Qed.

(** The thirty bytes in front of the texts. *)
Definition ack_fixed (s : ModbusIoSnapshot) : list Z :=
  [device_state_code (mi_device_state s); mi_slave_id s; 4] ++
  map (λ d, bool_byte (di_active d)) (mi_digital_inputs s) ++
  concat (map (λ d, [bool_byte (do_requested d); bool_byte (do_confirmed d); io_status_code (do_last_status d)])
            (mi_digital_outputs s)) ++
  le_bytes 4 (mi_baud_rate s) ++ [parity_byte (mi_parity s)] ++
  le_bytes 4 (u32 (Z.quot (tr_rtt_ns (mi_last_transaction s)) 1000000)) ++
  [io_status_code (mi_last_command_status s); tr_function (mi_last_transaction s)].

Definition ack_texts (s : ModbusIoSnapshot) : list string :=
  [mi_serial_port s; mi_sku s; mi_last_error s; tr_tx_hex (mi_last_transaction s);
   tr_rx_hex (mi_last_transaction s); tr_result (mi_last_transaction s)].

Lemma foldl_append {A} (g : A → list Z) l : ∀ out,
  foldl (λ out d, out ++ g d) out l = out ++ concat (map g l).
Proof.
  induction l as [|d l IH]; intros out; cbn; [by rewrite app_nil_r|]. by rewrite IH, <- app_assoc.
Qed.

Lemma encode_probe_ack_layout s :
  encode_probe_ack_payload s = ack_fixed s ++ concat (map lp_bytes (ack_texts s)).
Proof.
  unfold encode_probe_ack_payload. rewrite !append_lp_bytes, !append_u32_le_bytes.
  rewrite (foldl_append (λ d, [bool_byte (di_active d)])).
  assert (Hout : ∀ out, foldl (λ out d, ((out ++ [bool_byte (do_requested d)]) ++ [bool_byte (do_confirmed d)])
    ++ [io_status_code (do_last_status d)]) out (mi_digital_outputs s) =
    out ++ concat (map (λ d, [bool_byte (do_requested d); bool_byte (do_confirmed d);
      io_status_code (do_last_status d)]) (mi_digital_outputs s))).
  { intros out. rewrite <- foldl_append. revert out. induction (mi_digital_outputs s) as [|d l IH]; intros out; [done|].
    cbn. rewrite IH, <- !app_assoc. done. }
  rewrite Hout. unfold ack_fixed, ack_texts. cbn [map concat]. rewrite app_nil_r, <- !app_assoc.
  assert (Hin : concat (map (λ d, [bool_byte (di_active d)]) (mi_digital_inputs s)) =
    map (λ d, bool_byte (di_active d)) (mi_digital_inputs s)).
  { induction (mi_digital_inputs s); cbn; by f_equal. }
  rewrite Hin. done.
Qed.

(** Snapshots of a device with four channels, in the widths of the C++ fields. *)
Definition state_named (s : ModbusDeviceState) : Prop :=
  is_byte (device_state_code s) ∧ device_state_of_code (device_state_code s) = s.
Definition status_named (s : ModbusIoCommandStatus) : Prop :=
  is_byte (io_status_code s) ∧ io_status_of_code (io_status_code s) = s.

Definition ack_wf (s : ModbusIoSnapshot) : Prop :=
  length (mi_digital_inputs s) = kModbusIoChannelCount ∧
  length (mi_digital_outputs s) = kModbusIoChannelCount ∧
  state_named (mi_device_state s) ∧ is_byte (mi_slave_id s) ∧
  Forall (λ d, status_named (do_last_status d)) (mi_digital_outputs s) ∧
  is_u 32 (mi_baud_rate s) ∧ status_named (mi_last_command_status s) ∧
  is_byte (tr_function (mi_last_transaction s)).

(** The snapshot as the client shows it. *)
Definition agent_view (s : ModbusIoSnapshot) : ModbusIoSnapshot :=
  let parity := byte_char (parity_byte (mi_parity s)) in
  let parity := if parity ==? "N"%char then "None"%string else String parity "" in
  let t := mi_last_transaction s in
  mkIoSnapshot "PHYSICAL" EvidenceClass.Physical false "Modbus RTU" (agent_text (mi_serial_port s)) "n/a"
    (agent_text (mi_sku s)) (mi_baud_rate s) (mi_baud_rate s) parity parity (mi_slave_id s)
    (if mi_device_state s ==? ModbusDeviceState.Online then ModbusScanState.Complete
     else ModbusScanState.Error)
    (mi_device_state s)
    (imap (λ i d, mkDigitalInput (u8 (Z.of_nat i)) (di_active d)) (mi_digital_inputs s))
    (imap (λ i d, mkDigitalOutput (u8 (Z.of_nat i)) (do_requested d) (do_confirmed d) (do_last_status d))
       (mi_digital_outputs s))
    [] (mi_last_command_status s)
    (mkTransaction "NONE" (mi_slave_id s) (tr_function t) 0 0 (agent_text (tr_result t))
       (u32 (Z.quot (tr_rtt_ns t) 1000000) * 1000000) (agent_text (tr_tx_hex t)) (agent_text (tr_rx_hex t)))
    0 (agent_text (mi_last_error s)).

Lemma bool_byte_test b : negb (bool_byte b =? 0) = b.
Proof. by destruct b. Qed.

Lemma read_u32_at_written l o v rest :
  drop o l = le_bytes 4 v ++ rest → is_u 32 v → read_u32_at l o = v.
Proof.
  intros Hd Hv. unfold read_u32_at. rewrite read_u32_le_read.
  erewrite (le_read_written 4 0 _ v) by (rewrite ?drop_0; done). by apply u32_small.
Qed.

Lemma ack_fixed_length s :
  length (mi_digital_inputs s) = kModbusIoChannelCount →
  length (mi_digital_outputs s) = kModbusIoChannelCount → length (ack_fixed s) = 30%nat.
Proof.
  intros Hi Ho. unfold ack_fixed. rewrite !length_app, length_map, Hi, !le_bytes_length.
  destruct (mi_digital_outputs s) as [|? [|? [|? [|? [|]]]]]; try discriminate Ho. reflexivity.
Qed.

Lemma decoded_output ch r c st :
  io_status_of_code (io_status_code st) = st →
  mkDigitalOutput ch (negb (bool_byte r =? 0)) (negb (bool_byte c =? 0))
    (io_status_of_code (io_status_code st)) = mkDigitalOutput ch r c st.
Proof. intros ->. by rewrite !bool_byte_test. Qed.

Lemma decode_ack_channels s rest :
  length (mi_digital_inputs s) = kModbusIoChannelCount →
  length (mi_digital_outputs s) = kModbusIoChannelCount →
  Forall (λ d, status_named (do_last_status d)) (mi_digital_outputs s) →
  decode_inputs (ack_fixed s ++ rest) 3 = mi_digital_inputs (agent_view s) ∧
  decode_outputs (ack_fixed s ++ rest) 7 = mi_digital_outputs (agent_view s).
Proof.
  intros Hi Ho Hs. cbn [agent_view mi_digital_inputs mi_digital_outputs]. unfold ack_fixed.
  destruct (mi_digital_inputs s) as [|i0 [|i1 [|i2 [|i3 [|]]]]]; try discriminate Hi.
  destruct (mi_digital_outputs s) as [|o0 [|o1 [|o2 [|o3 [|]]]]]; try discriminate Ho. clear Hi Ho.
  rewrite !Forall_cons in Hs. destruct Hs as ([_ H0] & [_ H1] & [_ H2] & [_ H3] & _). split.
  - cbn [imap]. unfold decode_inputs. cbn [kModbusIoChannelCount seq map].
    do 3 (f_equal; [exact (f_equal (mkDigitalInput _) (bool_byte_test _))|]).
    f_equal. exact (f_equal (mkDigitalInput _) (bool_byte_test _)).
  - cbn [imap]. unfold decode_outputs. cbn [kModbusIoChannelCount seq map].
    f_equal; [exact (decoded_output _ _ _ _ H0)|]. f_equal; [exact (decoded_output _ _ _ _ H1)|].
    f_equal; [exact (decoded_output _ _ _ _ H2)|]. f_equal. exact (decoded_output _ _ _ _ H3).
Qed.

Lemma read_texts_step pre t rest k (f : string * nat → Result ModbusIoSnapshot) :
  k = length pre → (let? p := read_lp_string (pre ++ lp_bytes t ++ rest) k in f p) =
  f (agent_text t, length (pre ++ lp_bytes t)).
Proof. intros ->. by rewrite read_lp_written. Qed.

Lemma probe_ack_decodes s :
  ack_wf s → decode_probe_ack_payload (encode_probe_ack_payload s) = Ok (agent_view s).
Proof.
  intros (Hi & Ho & [_ Hd] & _ & Hs & Hb & [_ Hc] & _). rewrite encode_probe_ack_layout.
  pose proof (ack_fixed_length s Hi Ho) as Hl. unfold decode_probe_ack_payload.
  rewrite length_app, Hl, (proj2 (Nat.ltb_ge _ _)) by (unfold kProbeAckFixed, kModbusIoChannelCount; lia).
  set (T := concat (map lp_bytes (ack_texts s))).
  destruct (decode_ack_channels s T Hi Ho Hs) as [-> Hout].
  change (3 + kModbusIoChannelCount)%nat with 7%nat. rewrite Hout.
  change (7 + 3 * kModbusIoChannelCount)%nat with 19%nat.
  change (byte_at (ack_fixed s ++ T) 2 =? Z.of_nat kModbusIoChannelCount) with true. cbn [negb].
  change (byte_at (ack_fixed s ++ T) 0) with (device_state_code (mi_device_state s)). rewrite Hd.
  change (byte_at (ack_fixed s ++ T) 1) with (mi_slave_id s).
  assert (Hdrop : drop 19 (ack_fixed s) = le_bytes 4 (mi_baud_rate s) ++ [parity_byte (mi_parity s)] ++
    le_bytes 4 (u32 (Z.quot (tr_rtt_ns (mi_last_transaction s)) 1000000)) ++
    [io_status_code (mi_last_command_status s); tr_function (mi_last_transaction s)]).
  { unfold ack_fixed. destruct (mi_digital_inputs s) as [|? [|? [|? [|? [|]]]]]; try discriminate Hi.
    by destruct (mi_digital_outputs s) as [|? [|? [|? [|? [|]]]]]. }
  assert (Hat : ∀ k, (k < 11)%nat → byte_at (ack_fixed s ++ T) (19 + k) = byte_at (drop 19 (ack_fixed s)) k).
  { intros k Hk. rewrite byte_at_app_l by lia. unfold byte_at. by rewrite lookup_drop. }
  rewrite (read_u32_at_written _ 19 (mi_baud_rate s) ([parity_byte (mi_parity s)] ++
    le_bytes 4 (u32 (Z.quot (tr_rtt_ns (mi_last_transaction s)) 1000000)) ++
    [io_status_code (mi_last_command_status s); tr_function (mi_last_transaction s)] ++ T));
    [|rewrite drop_app_le, Hdrop by lia; by rewrite <- !app_assoc|done].
  rewrite (read_u32_at_written _ (19 + 4 + 1) (u32 (Z.quot (tr_rtt_ns (mi_last_transaction s)) 1000000))
    ([io_status_code (mi_last_command_status s); tr_function (mi_last_transaction s)] ++ T));
    [|rewrite drop_app_le, <- drop_drop, <- drop_drop, Hdrop by lia; reflexivity|apply u32_range].
  change (19 + 4 + 1 + 4 + 1 + 1)%nat with 30%nat. change (19 + 4 + 1 + 4 + 1)%nat with (19 + 10)%nat.
  change (19 + 4 + 1 + 4)%nat with (19 + 9)%nat.
  rewrite !(Hat 4%nat), !(Hat 9%nat), !(Hat 10%nat), Hdrop by lia.
  change (byte_at (le_bytes 4 _ ++ _) 4) with (parity_byte (mi_parity s)).
  change (byte_at (le_bytes 4 _ ++ _) 9) with (io_status_code (mi_last_command_status s)).
  change (byte_at (le_bytes 4 _ ++ _) 10) with (tr_function (mi_last_transaction s)). rewrite Hc.
  unfold T, ack_texts. cbn [map concat].
  rewrite (read_texts_step (ack_fixed s)) by by rewrite Hl. cbv beta iota.
  do 5 (rewrite app_assoc; rewrite read_texts_step by done; cbv beta iota).
  done.
Qed.

(** ** Snapshots of the service fit the payload's fields *)

Section ServiceShape.
Context {W : Type} (link : RtuLink W) (config : PhysicalModbusIoConfig).
Hypothesis slave_byte : is_byte (pc_slave_id config).
Hypothesis baud_u32 : is_u 32 (pc_baud_rate config).
Implicit Types (s : ModbusIoSnapshot) (w : W).

Lemma physical_new_ack_wf : ack_wf (physical_new config).
Proof.
  unfold ack_wf, state_named, status_named. split_and!; try done. cbn.
  repeat (apply Forall_cons; split; [done|]). constructor.
Qed.

Lemma outputs_named_alter c f s :
  (∀ d, status_named (do_last_status d) → status_named (do_last_status (f d))) →
  Forall (λ d, status_named (do_last_status d)) (mi_digital_outputs s) →
  Forall (λ d, status_named (do_last_status d)) (alter f c (mi_digital_outputs s)).
Proof.
  intros Hf Hs. apply Forall_lookup_2. intros i d Hd.
  destruct (decide (c = i)) as [<-|Hi].
  - rewrite list_lookup_alter_eq in Hd. destruct (mi_digital_outputs s !! c) eqn:E; [|done].
    injection Hd as <-. apply Hf. by eapply Forall_lookup_1 in Hs.
  - rewrite list_lookup_alter_ne in Hd by done. by eapply Forall_lookup_1 in Hs.
Qed.

Lemma read_inputs_ack_wf scanning s w r s' w' :
  ack_wf s → read_discrete_inputs link config scanning s w = (r, (s', w')) → ack_wf s'.
Proof.
  intros (Hi & Ho & Hd & Hsl & Hs & Hb & Hc & Hf). unfold read_discrete_inputs, timed_transact.
  destruct (svc_transact link config _ w) as [[frame|e] w1];
    [destruct (decode_rtu_read_bits frame _ _) as [d|e]; [destruct (rb_exception d)|]|];
    intros [= <- <- <-]; destruct scanning; unfold ack_wf, state_named, status_named; cbn;
    rewrite ?length_imap; split_and!; try done; try (by apply Hd); by destruct (_ ==? _).
Qed.

Lemma refresh_coils_ack_wf s w r s' w' :
  ack_wf s → refresh_coils link config s w = (r, (s', w')) → ack_wf s'.
Proof.
  intros (Hi & Ho & Hd & Hsl & Hs & Hb & Hc & Hf). unfold refresh_coils, timed_transact.
  destruct (svc_transact link config _ w) as [[frame|e] w1];
    [destruct (decode_rtu_read_bits frame _ _) as [d|e]; [destruct (rb_exception d)|]|];
    intros [= <- <- <-]; unfold ack_wf; cbn; rewrite ?length_imap; split_and!; try done.
  apply Forall_lookup_2. intros i o. rewrite list_lookup_imap.
  destruct (mi_digital_outputs s !! i); [|done]. by intros [= <-].
Qed.

Lemma write_output_ack_wf c a s w r s' w' :
  ack_wf s → write_output link config c a s w = (r, (s', w')) → ack_wf s'.
Proof.
  intros (Hi & Ho & Hd & Hsl & Hs & Hb & Hc & Hf). unfold write_output, timed_transact.
  destruct (_ <=? c)%nat; [by intros [= <- <- <-]|].
  destruct (svc_transact link config _ w) as [[frame|e] w1];
    [destruct (decode_rtu_write_single_coil frame _ _ _) as [d|e]; [destruct (wc_exception d)|]|];
    intros [= <- <- <-]; unfold ack_wf, set_output; cbn; rewrite ?length_alter; split_and!; try done;
    try (by destruct (_ ==? _));
    apply (outputs_named_alter c _ (set_output c _ s)); try done; try (apply outputs_named_alter; done).
  intros d _. cbn. by destruct (_ ==? _).
Qed.

Lemma all_off_ack_wf channels : ∀ last s w r s' w',
  ack_wf s → all_off_loop link config channels last s w = (r, (s', w')) → ack_wf s'.
Proof.
  induction channels as [|c channels IH]; intros last s w r s' w' Hs; cbn; [by intros [= <- <- <-]|].
  destruct (write_output link config c false s w) as [r1 [s1 w1]] eqn:Hw.
  apply write_output_ack_wf in Hw; [|done]. destruct r1; [by apply IH|by intros [= <- <- <-]].
Qed.

Lemma physical_step_ack_wf op s w :
  ack_wf s → ack_wf (physical_step link config op (s, w)).1.
Proof.
  intros Hs. destruct op; cbn [physical_step fst snd].
  - unfold probe. destruct (read_discrete_inputs link config true s w) as [[t|e] [s1 w1]] eqn:Hr;
      apply read_inputs_ack_wf in Hr; try done.
    destruct (refresh_coils link config s1 w1) as [c [s2 w2]] eqn:Hc.
    apply refresh_coils_ack_wf in Hc as (? & ? & ? & ? & ? & ? & ? & ?); [|done].
    destruct c; unfold ack_wf; cbn; split_and!; done.
  - unfold read_inputs. destruct (read_discrete_inputs link config false s w) as [r [s1 w1]] eqn:Hr.
    by apply read_inputs_ack_wf in Hr.
  - destruct (write_output link config channel active s w) as [r [s1 w1]] eqn:Hw.
    by apply write_output_ack_wf in Hw.
  - unfold write_all_outputs_off.
    destruct (all_off_loop link config (seq 0 kModbusIoChannelCount) (Ok s) s w) as [r [s1 w1]] eqn:Hw.
    by apply all_off_ack_wf in Hw.
  - destruct Hs as (? & ? & ? & ? & ? & ? & ? & ?). unfold ack_wf; cbn; split_and!; done.
Qed.

End ServiceShape.

(** ** One exchange *)

(** The requests of the client, with their acknowledgements and payloads. *)
Inductive AgentOp := AgentProbe | AgentReadInputs | AgentWriteOutput (channel : Z) (active : bool) | AgentAllOff.

Definition op_request (op : AgentOp) : ModbusAgentMessage :=
  match op with
  | AgentProbe => AgentMessage.Probe
  | AgentReadInputs => AgentMessage.ReadDi
  | AgentWriteOutput _ _ => AgentMessage.WriteDo
  | AgentAllOff => AgentMessage.AllOff
  end.

Definition op_ack (op : AgentOp) : ModbusAgentMessage :=
  match op with
  | AgentProbe => AgentMessage.ProbeAck
  | AgentReadInputs => AgentMessage.ReadDiAck
  | AgentWriteOutput _ _ => AgentMessage.WriteDoAck
  | AgentAllOff => AgentMessage.AllOffAck
  end.

Definition op_payload (op : AgentOp) : list Z :=
  match op with AgentWriteOutput c a => encode_write_do_payload c a | _ => [] end.

Definition op_wf (op : AgentOp) : Prop :=
  match op with AgentWriteOutput c _ => is_byte c | _ => True end.

Definition agent_call (op : AgentOp)
    : Z → ExchangeEnv → ModbusAgentClient → option (Result ModbusIoSnapshot) * ModbusAgentClient :=
  match op with
  | AgentProbe => agent_probe
  | AgentReadInputs => agent_read_inputs
  | AgentWriteOutput c a => agent_write_output c a
  | AgentAllOff => agent_write_all_outputs_off
  end.

(** What the service does for it. *)
Definition op_service (op : AgentOp) : PhysicalOp :=
  match op with
  | AgentProbe => PProbe
  | AgentReadInputs => PReadInputs
  | AgentWriteOutput c a => PWriteOutput (Z.to_nat c) a
  | AgentAllOff => PAllOff
  end.

Lemma agent_call_exchange op : agent_call op = agent_exchange (op_request op) (op_ack op) (op_payload op).
Proof. by destruct op. Qed.

Definition agent_wire (f : ModbusAgentFrame) : list Z :=
  crc_framed (tcp_body modbus_agent_protocol (raw_frame f)).

Definition request_frame (op : AgentOp) (sequence : Z) : ModbusAgentFrame :=
  mkAgentFrame (op_request op) sequence (op_payload op).

Definition ack_frame (op : AgentOp) (sequence : Z) (s : ModbusIoSnapshot) : ModbusAgentFrame :=
  mkAgentFrame (op_ack op) sequence (encode_probe_ack_payload s).

(** The acknowledgement's payload fits its frame. *)
Definition ack_fits (s : ModbusIoSnapshot) : Prop :=
  (length (encode_probe_ack_payload s) ≤ kModbusAgentMaxPayload)%nat.

Lemma request_frame_ok op sequence :
  op_wf op → is_u 16 sequence → tcp_frame_ok modbus_agent_protocol (raw_frame (request_frame op sequence)).
Proof.
  intros Ho Hs. unfold tcp_frame_ok. cbn.
  destruct op as [| |c []|]; cbn; split_and!; try done; try (unfold kModbusAgentMaxPayload; lia);
    by repeat (apply Forall_cons; split; [done|]).
Qed.

Lemma bool_byte_range b : is_byte (bool_byte b).
Proof. by destruct b. Qed.

Lemma parity_byte_range p : is_byte (parity_byte p).
Proof. unfold parity_byte. destruct (_ ==? _); [done|]. destruct p; [done|apply char_byte_range]. Qed.

Lemma ack_payload_wf s : ack_wf s → bytes_wf (encode_probe_ack_payload s).
Proof.
  intros (Hi & Ho & Hd & Hsl & Hs & Hb & Hc & Hf). rewrite encode_probe_ack_layout. unfold ack_fixed.
  rewrite !Forall_app. split_and!; try apply le_bytes_wf.
  - repeat (apply Forall_cons; split; [first [apply Hd|done]|]). constructor.
  - apply Forall_forall. intros b (d & -> & _)%list_elem_of_fmap. apply bool_byte_range.
  - apply Forall_concat, Forall_forall. intros l (d & -> & Hin)%list_elem_of_fmap.
    rewrite Forall_forall in Hs. destruct (Hs d Hin) as [? _].
    do 2 (apply Forall_cons; split; [apply bool_byte_range|]). by apply Forall_cons.
  - apply Forall_cons. split; [apply parity_byte_range|constructor].
  - apply Forall_cons. split; [apply Hc|]. by apply Forall_cons.
  - apply Forall_concat, Forall_forall. intros l (t & -> & _)%list_elem_of_fmap. apply lp_bytes_wf.
Qed.

Lemma ack_frame_ok op sequence s :
  is_u 16 sequence → ack_wf s → ack_fits s →
  tcp_frame_ok modbus_agent_protocol (raw_frame (ack_frame op sequence s)).
Proof.
  intros Hs Hw Hl. unfold tcp_frame_ok. cbn. split_and!; [by destruct op|done|by apply ack_payload_wf|done].
Qed.

(** A well-formed frame of a named type decodes to itself. *)
Lemma try_decode_agent_wire f :
  tcp_frame_ok modbus_agent_protocol (raw_frame f) →
  agent_message_of_code (agent_message_code (af_type f)) = af_type f →
  fst (try_decode_modbus_agent_frame (agent_wire f)) = Ok f.
Proof.
  intros Hf Ht. unfold try_decode_modbus_agent_frame, agent_wire.
  rewrite <- (app_nil_r (crc_framed _)), try_decode_encoded by done. cbn.
  unfold agent_frame. cbn. rewrite Ht. by destruct f.
Qed.

(** The client takes the acknowledgement that arrives, whatever its sequence number. *)
Lemma exchange_receives op c timeout env s sequence :
  fd_valid (ag_fd c) = true → is_u 16 (ag_next_sequence c) → op_wf op → ack_wf s → ack_fits s →
  is_u 16 sequence →
  send_all (length (agent_wire (request_frame op (ag_next_sequence c)))) 0 (xe_sends env) = Some (Ok ()) →
  arrives (xe_now env + timeout * 1000000) (agent_wire (ack_frame op sequence s)) (xe_turns env) →
  agent_call op timeout env c =
  (Some (Ok (agent_view s)), c <| ag_next_sequence := u16 (ag_next_sequence c + 1) |>).
Proof.
  intros Hfd Hseq Hop Hw Hfit Hsq Hsend Harr. rewrite agent_call_exchange. unfold agent_exchange.
  rewrite Hfd. cbn [negb]. unfold encode_modbus_agent_frame. fold (request_frame op (ag_next_sequence c)).
  rewrite encode_frame_ok by (apply _ || by apply request_frame_ok). fold (agent_wire (request_frame op (ag_next_sequence c))).
  rewrite Hsend. pose proof (ack_frame_ok op sequence s Hsq Hw Hfit) as Hack.
  destruct (readers_receive modbus_agent_protocol agent_reply_timeout agent_disconnected _
    (raw_frame (ack_frame op sequence s)) (xe_turns env) Hack Harr) as [-> _].
  fold (agent_wire (ack_frame op sequence s)). rewrite try_decode_agent_wire by (done || by destruct op).
  cbn [af_type af_payload ack_frame]. rewrite bool_decide_eq_false_2 by by destruct op.
  rewrite bool_decide_eq_true_2 by done. cbn [negb]. by rewrite probe_ack_decodes.
Qed.

Section Session.
Context {W : Type} (link : RtuLink W) (config : PhysicalModbusIoConfig).

Lemma handle_request_op op sequence sv :
  op_wf op →
  handle_request link config (request_frame op sequence) sv =
  let sv' := physical_step link config (op_service op) sv in (ack_frame op sequence (fst sv'), sv').
Proof.
  intros Hop. destruct op as [| |c a|]; [done|done| |done].
  unfold handle_request. cbn. by rewrite bool_byte_test.
Qed.

(** A served request: the service does what was asked and the session goes on. *)
Lemma serve_request op sequence served t rest sv :
  op_wf op → is_u 16 sequence →
  arrives (st_now t + (if served : bool then 5000 else 1000) * 1000000)
    (agent_wire (request_frame op sequence)) (st_turns t) →
  let sv' := physical_step link config (op_service op) sv in
  ack_wf (fst sv') → ack_fits (fst sv') →
  send_all (length (agent_wire (ack_frame op sequence (fst sv')))) 0 (st_sends t) = Some (Ok ()) →
  serve_session link config served (t :: rest) sv = serve_session link config true rest sv'.
Proof.
  intros Hop Hs Harr sv' Hw Hfit Hsend. cbn [serve_session].
  destruct (readers_receive modbus_agent_protocol agent_request_timeout client_disconnected _
    (raw_frame (request_frame op sequence)) (st_turns t) (request_frame_ok op sequence Hop Hs) Harr) as [_ ->].
  assert (Hf : agent_frame (raw_frame (request_frame op sequence)) = request_frame op sequence)
    by (unfold agent_frame, raw_frame; cbn; by destruct op).
  rewrite Hf, handle_request_op by done. cbv zeta. fold sv'. unfold encode_modbus_agent_frame.
  rewrite encode_frame_ok by (apply _ || by apply ack_frame_ok).
  fold (agent_wire (ack_frame op sequence (fst sv'))). by rewrite Hsend.
Qed.

Context (coil : W → nat → bool) `{!ModbusDevice link config coil}.

Lemma outputs_true_view s w : outputs_true coil s w → outputs_true coil (agent_view s) w.
Proof.
  intros [Hl Ht]. split; [cbn; by rewrite length_imap|]. intros i Hi. specialize (Ht i Hi).
  unfold output_at in *. cbn. rewrite list_lookup_imap.
  destruct (lookup_lt_is_Some_2 (mi_digital_outputs s) i ltac:(lia)) as [d Hd]. by rewrite Hd in *.
Qed.

(** The engineer's client shows the device: when a request reaches the agent, in any
    pieces, the agent's service performs exactly that operation and the session stays
    open; when the acknowledgement reaches the client, in any pieces, the client answers
    the service's snapshot (texts up to 255 characters, times to the millisecond); and
    every output shown as confirmed has the value its coil drives. *)
Theorem agent_client_shows_service op c served timeout env t rest s w :
  fd_valid (ag_fd c) = true → is_u 16 (ag_next_sequence c) → op_wf op →
  ack_wf s → outputs_true coil s w →
  let sequence := ag_next_sequence c in
  let '(s', w') := physical_step link config (op_service op) (s, w) in
  ack_fits s' →
  send_all (length (agent_wire (request_frame op sequence))) 0 (xe_sends env) = Some (Ok ()) →
  arrives (st_now t + (if served : bool then 5000 else 1000) * 1000000)
    (agent_wire (request_frame op sequence)) (st_turns t) →
  send_all (length (agent_wire (ack_frame op sequence s'))) 0 (st_sends t) = Some (Ok ()) →
  arrives (xe_now env + timeout * 1000000) (agent_wire (ack_frame op sequence s')) (xe_turns env) →
  serve_session link config served (t :: rest) (s, w) = serve_session link config true rest (s', w') ∧
  agent_call op timeout env c =
    (Some (Ok (agent_view s')), c <| ag_next_sequence := u16 (sequence + 1) |>) ∧
  ack_wf s' ∧ outputs_true coil (agent_view s') w'.
Proof.
  intros Hfd Hseq Hop Hw Ht sequence.
  pose proof (physical_step_ack_wf link config (op_service op) s w Hw) as Hw'.
  pose proof (physical_step_true link config coil (op_service op) s w Ht) as Ht'.
  pose proof (serve_request op sequence served t rest (s, w) Hop Hseq) as Hserve.
  destruct (physical_step link config (op_service op) (s, w)) as [s' w']. cbn [fst snd] in *.
  intros Hfit Hsend Harr Hsend' Harr'. split_and!; [by apply Hserve| |done|by apply outputs_true_view].
  by apply (exchange_receives op c timeout env s' sequence).
Qed.

End Session.

Definition demo_client : ModbusAgentClient := mkAgentClient 3 7.
Definition demo_write : AgentOp := AgentWriteOutput 1 true.
Definition demo_service : ModbusIoSnapshot * SimTerminal.World :=
  physical_step SimTerminal.link default_physical_config (op_service demo_write)
    (physical_new default_physical_config, sim_start).
Definition demo_request : list Z := agent_wire (request_frame demo_write 7).
Definition demo_ack : list Z := agent_wire (ack_frame demo_write 7 (fst demo_service)).
Definition demo_session : SessionTurn := mkSessionTurn 0 (one_turn 5 demo_request) [Wrote 200; Wrote 100].
Definition demo_env : ExchangeEnv := mkExchangeEnv [Wrote 9; WriteErrno EINTR; Wrote 90] 0 (one_turn 9 demo_ack).

Lemma agent_client_shows_service_witness :
  agent_write_output 1 true 200 demo_env demo_client =
    (Some (Ok (agent_view (fst demo_service))), mkAgentClient 3 8) ∧
  outputs_true SimTerminal.coil (agent_view (fst demo_service)) (snd demo_service).
Proof.
  assert (H : _) by exact (agent_client_shows_service SimTerminal.link default_physical_config SimTerminal.coil
    demo_write demo_client false 200 demo_env demo_session [] (physical_new default_physical_config) sim_start
    eq_refl ltac:(done) ltac:(done) (physical_new_ack_wf default_physical_config ltac:(done) ltac:(done))
    (physical_new_true default_physical_config SimTerminal.coil sim_start)).
  cbv zeta in H. fold demo_service in H. rewrite (surjective_pairing demo_service) in H.
  destruct H as (_ & H & _ & H').
  - vm_compute. lia.
  - vm_compute. reflexivity.
  - apply one_turn_arrives; vm_compute; done.
  - vm_compute. reflexivity.
  - apply one_turn_arrives; vm_compute; done.
  - split; [exact H|exact H'].
Defined.

(** The client does not match answers to requests: an acknowledgement of the right kind
    is taken as the answer whatever its sequence number, and a request that timed out
    leaves the connection open.  So after a timeout the late acknowledgement of the old
    request answers the next one. *)
Theorem stale_acknowledgement_accepted op c timeout env s sequence :
  fd_valid (ag_fd c) = true → is_u 16 (ag_next_sequence c) → op_wf op → ack_wf s → ack_fits s →
  is_u 16 sequence → sequence ≠ ag_next_sequence c →
  send_all (length (agent_wire (request_frame op (ag_next_sequence c)))) 0 (xe_sends env) = Some (Ok ()) →
  (arrives (xe_now env + timeout * 1000000) (agent_wire (ack_frame op sequence s)) (xe_turns env) →
   fst (agent_call op timeout env c) = Some (Ok (agent_view s))) ∧
  (∀ turns, hd_error turns = Some (mkRxTurn (xe_now env) (xe_now env) PollTimeout (ReadBytes [])) →
   0 < timeout →
   let '(r, c') := agent_call op timeout (mkExchangeEnv (xe_sends env) (xe_now env) turns) c in
   r = Some (Err agent_reply_timeout) ∧ ag_fd c' = ag_fd c).
Proof.
  intros Hfd Hseq Hop Hw Hfit Hsq Hne Hsend. split.
  { intros Harr. by rewrite (exchange_receives op c timeout env s sequence). }
  intros turns Hh Hto. rewrite agent_call_exchange. unfold agent_exchange.
  rewrite Hfd. cbn [negb]. unfold encode_modbus_agent_frame. fold (request_frame op (ag_next_sequence c)).
  rewrite encode_frame_ok by (apply _ || by apply request_frame_ok).
  fold (agent_wire (request_frame op (ag_next_sequence c))). cbn [xe_sends xe_now xe_turns]. rewrite Hsend.
  destruct turns as [|u turns]; [done|]. injection Hh as ->. cbn [read_frame rx_now rx_now_left rx_poll].
  rewrite (proj2 (Z.ltb_lt _ _)) by lia. unfold left_ms.
  replace (xe_now env + timeout * 1000000 - xe_now env) with (timeout * 1000000) by lia.
  rewrite Z.quot_mul, (proj2 (Z.leb_gt _ _)) by lia. done.
Qed.

(** Switching output 1 off is answered with the late acknowledgement of switching it on. *)
Lemma stale_acknowledgement_accepted_witness :
  let '(r, c) := agent_write_output 1 true 200
    (mkExchangeEnv [Wrote 90] 0 [mkRxTurn 0 0 PollTimeout (ReadBytes [])]) demo_client in
  r = Some (Err agent_reply_timeout) ∧ ag_fd c = 3 ∧
  ∃ s, fst (agent_write_output 1 false 200 demo_env c) = Some (Ok s) ∧
    do_confirmed (output_at 1 s) = true ∧ do_last_status (output_at 1 s) = IoStatus.Confirmed.
Proof.
  split; [vm_compute; reflexivity|]. split; [vm_compute; reflexivity|].
  exists (agent_view (fst demo_service)). split; [|vm_compute; done].
  apply (stale_acknowledgement_accepted (AgentWriteOutput 1 false) (mkAgentClient 3 8) 200 demo_env
    (fst demo_service) 7).
  - reflexivity.
  - done.
  - done.
  - apply (physical_step_ack_wf SimTerminal.link default_physical_config), physical_new_ack_wf; done.
  - vm_compute. lia.
  - done.
  - done.
  - vm_compute. reflexivity.
  - apply one_turn_arrives; vm_compute; done.
Defined.
