(* ===== verification/CellProtocol.v ===== *)
(** * The cell application's protocol

    application/cell_app_protocol.cpp: frames, the 80-byte status, output requests at
    their full width, and command replies.  The frame layer is that of [TcpFrame]. *)

From stdpp Require Import pretty.
From S2P Require Import Prelude Types Bytes RemoteFrame Application RemoteControl ModbusRtu SerialPort TcpFrame.
Local Open Scope Z_scope.

Definition kCellAppMagic : Z := 0x314C4543.
Definition kCellAppVersion : Z := 1.
Definition kCellAppMaxPayload : nat := 256.
Definition kCellAppStatusWireSize : nat := 80.
Definition kCellAppOutputPayloadSize : nat := 28.

Definition cell_app_protocol : FrameProtocol :=
  mkFrameProtocol kCellAppMagic kCellAppVersion kCellAppMaxPayload
    (mkError Errc.WouldBlock "short cell frame")
    (mkError Errc.InvalidArgument "bad cell magic")
    (mkError Errc.InvalidArgument "bad cell version")
    (mkError Errc.InvalidArgument "cell payload too large")
    (mkError Errc.WouldBlock "incomplete cell frame")
    (mkError Errc.InvalidArgument "cell crc mismatch").

#[export] Instance cell_app_protocol_ok : FrameProtocolOk cell_app_protocol.
Proof. by split. Qed.

Module CellMessage.
Inductive CellAppMessage :=
  | GetStatus | GetStatusAck | Activate | ActivateAck | SubmitOutput | SubmitOutputAck | Error
  | ProbeCellIo | ProbeCellIoAck | Unnamed (byte : Z).
End CellMessage.
Notation CellAppMessage := CellMessage.CellAppMessage.

#[export] Instance CellAppMessage_eq_dec : EqDecision CellAppMessage.
Proof. solve_decision. Defined.

Definition cell_message_code (m : CellAppMessage) : Z :=
  match m with
  | CellMessage.GetStatus => 1
  | CellMessage.GetStatusAck => 2
  | CellMessage.Activate => 3
  | CellMessage.ActivateAck => 4
  | CellMessage.SubmitOutput => 5
  | CellMessage.SubmitOutputAck => 6
  | CellMessage.Error => 7
  | CellMessage.ProbeCellIo => 8
  | CellMessage.ProbeCellIoAck => 9
  | CellMessage.Unnamed b => b
  end.

Definition cell_message_of_code (b : Z) : CellAppMessage :=
  if b =? 1 then CellMessage.GetStatus
  else if b =? 2 then CellMessage.GetStatusAck
  else if b =? 3 then CellMessage.Activate
  else if b =? 4 then CellMessage.ActivateAck
  else if b =? 5 then CellMessage.SubmitOutput
  else if b =? 6 then CellMessage.SubmitOutputAck
  else if b =? 7 then CellMessage.Error
  else if b =? 8 then CellMessage.ProbeCellIo
  else if b =? 9 then CellMessage.ProbeCellIoAck
  else CellMessage.Unnamed b.

Record CellAppFrame := mkCellFrame {
  cf_type : CellAppMessage;
  cf_sequence : Z;
  cf_payload : list Z
}.

Definition raw_cell_frame (f : CellAppFrame) : TcpFrame :=
  mkTcpFrame (cell_message_code (cf_type f)) (cf_sequence f) (cf_payload f).
Definition cell_frame (f : TcpFrame) : CellAppFrame :=
  mkCellFrame (cell_message_of_code (tf_type f)) (tf_sequence f) (tf_payload f).

Definition encode_cell_app_frame (f : CellAppFrame) : option (list Z) :=
  encode_frame cell_app_protocol (raw_cell_frame f).

Definition try_decode_cell_app_frame (bytes : list Z) : Result CellAppFrame * nat :=
  let '(r, consumed) := try_decode cell_app_protocol bytes in
  (let? f := r in Ok (cell_frame f), consumed).

(** ** The status *)

Record CellAppStatus := mkCellStatus {
  cs_observed_monotonic_ns : Z;
  cs_mode : RuntimeModeCode;
  cs_fault : RuntimeFaultCode;
  cs_started : bool;
  cs_interlock_ready : bool;
  cs_online : bool;
  cs_position_reached : bool;
  cs_cell_ready : bool;
  cs_node_id : Z;
  cs_boot_id : Z;
  cs_session_id : Z;
  cs_last_heartbeat_sequence : Z;
  cs_heartbeat_age_ns : Z;
  cs_input_bits : Z;
  cs_device_fault_code : Z;
  cs_frames_received : Z;
  cs_frames_sent : Z;
  cs_decode_rejects : Z;
  cs_input_queue_drop_count : Z;
  cs_last_ack_session : Z;
  cs_last_ack_sequence : Z;
  cs_last_ack_result : OutputApplyResult;
  cs_ack_pending : bool;
  cs_evidence : EvidenceClass;
  cs_modbus_online : bool;
  cs_cell_ready_do0_requested : bool;
  cs_cell_ready_do0_confirmed : bool;
  cs_cell_ready_do0_status : Z
}.

Definition encode_cell_app_status (s : CellAppStatus) : option (list Z) :=
  let out := append_i64_le [] (cs_observed_monotonic_ns s) in
  let out := out ++ [mode_code_byte (cs_mode s); fault_code_byte (cs_fault s);
                     bool_byte (cs_started s); bool_byte (cs_interlock_ready s);
                     bool_byte (cs_online s); bool_byte (cs_position_reached s);
                     bool_byte (cs_cell_ready s); cs_node_id s] in
  let out := append_u16_le out (cs_boot_id s) in
  let out := append_u16_le out (cs_session_id s) in
  let out := append_u16_le out (cs_last_heartbeat_sequence s) in
  let out := append_i64_le out (cs_heartbeat_age_ns s) in
  let out := append_u16_le out (cs_input_bits s) in
  let out := append_u16_le out (cs_device_fault_code s) in
  let out := append_u64_le out (cs_frames_received s) in
  let out := append_u64_le out (cs_frames_sent s) in
  let out := append_u64_le out (cs_decode_rejects s) in
  let out := append_u64_le out (cs_input_queue_drop_count s) in
  let out := append_u16_le out (cs_last_ack_session s) in
  let out := append_u16_le out (cs_last_ack_sequence s) in
  let out := out ++ [apply_result_code (cs_last_ack_result s); bool_byte (cs_ack_pending s);
                     evidence_code (cs_evidence s); bool_byte (cs_modbus_online s);
                     bool_byte (cs_cell_ready_do0_requested s);
                     bool_byte (cs_cell_ready_do0_confirmed s); cs_cell_ready_do0_status s] in
  let out := pad_zero kCellAppStatusWireSize out in
  if (length out =? kCellAppStatusWireSize)%nat then Some out else None.

Definition decode_cell_app_status (p : list Z) : Result CellAppStatus :=
  if negb (length p =? kCellAppStatusWireSize)%nat then fail_with Errc.InvalidArgument "cell status size"
  else
    Ok (mkCellStatus (read_i64_le p 0) (mode_code_of_byte (byte_at p 8)) (fault_code_of_byte (byte_at p 9))
          (negb (byte_at p 10 =? 0)) (negb (byte_at p 11 =? 0)) (negb (byte_at p 12 =? 0))
          (negb (byte_at p 13 =? 0)) (negb (byte_at p 14 =? 0)) (byte_at p 15)
          (read_u16_le p 16) (read_u16_le p 18) (read_u16_le p 20) (read_i64_le p 22)
          (read_u16_le p 30) (read_u16_le p 32) (read_u64_le p 34) (read_u64_le p 42)
          (read_u64_le p 50) (read_u64_le p 58) (read_u16_le p 66) (read_u16_le p 68)
          (apply_result_of_code (byte_at p 70)) (negb (byte_at p 71 =? 0))
          (evidence_of_code (byte_at p 72)) (negb (byte_at p 73 =? 0)) (negb (byte_at p 74 =? 0))
          (negb (byte_at p 75 =? 0)) (byte_at p 76)).

(** ** Requests and replies *)

Definition encode_cell_output_payload (r : DigitalOutputRequest) : list Z :=
  let out := append_u64_le [] (dr_session_id r) in
  let out := append_u64_le out (dr_sequence r) in
  let out := append_u32_le out (dr_valid_for_ms r) in
  let out := append_u32_le out (dr_mask r) in
  append_u32_le out (dr_values r).

(** [read_u32_le] of this file, from two 16-bit halves. *)
Definition read_u32_halves (p : list Z) (o : nat) : Z :=
  u32 (Z.lor (read_u16_le p o) (Z.shiftl (read_u16_le p (o + 2)) 16)).

Definition decode_cell_output_payload (p : list Z) : Result DigitalOutputRequest :=
  if negb (length p =? kCellAppOutputPayloadSize)%nat then fail_with Errc.InvalidArgument "cell output payload"
  else
    Ok (mkDigitalOutputRequest (read_u64_le p 0) (read_u64_le p 8) (read_u32_halves p 16)
          (read_u32_halves p 20) (read_u32_halves p 24)).

Definition encode_cell_command_reply (r : CommandReply) : list Z :=
  let out := [command_status_code (cr_status r); mode_code_byte (cr_from_state r);
              mode_code_byte (cr_to_state r)] in
  let n := Nat.min (String.length (cr_message r)) 255 in
  let out := out ++ [u8 (Z.of_nat n)] in
  out ++ take n (str_bytes (cr_message r)).

Definition decode_cell_command_reply (p : list Z) : Result CommandReply :=
  if (length p <? 4)%nat then fail_with Errc.InvalidArgument "short command reply"
  else
    let n := Z.to_nat (byte_at p 3) in
    if negb (length p =? 4 + n)%nat then fail_with Errc.InvalidArgument "command reply length"
    else
      Ok (mkCommandReply (command_status_of_code (byte_at p 0)) (mode_code_of_byte (byte_at p 1))
            (mode_code_of_byte (byte_at p 2)) (bytes_str (take n (drop 4 p)))).

(** ** Between status and telemetry *)

Definition project_cell_app_status (t : RuntimeTelemetrySnapshot) : CellAppStatus :=
  let rt := ts_runtime t in
  let d := ts_device t in
  let cm := ts_communication t in
  let o := ts_output t in
  mkCellStatus (ts_observed_monotonic_ns t) (rv_mode rt) (rv_fault rt) (rv_started rt)
    (rv_interlock_ready rt) (dv_online d) (ts_position_reached t) (ts_cell_ready t) (dv_node_id d)
    (dv_boot_id d) (dv_session_id d) (dv_last_heartbeat_sequence d) (dv_heartbeat_age_ns d)
    (dv_input_bits d) (dv_device_fault_code d) (cv_frames_received cm) (cv_frames_sent cm)
    (cv_decode_rejects cm) (cv_input_queue_drop_count cm) (ov_last_ack_session o)
    (ov_last_ack_sequence o) (ov_last_ack_result o) (ov_ack_pending o) (cv_evidence cm)
    (ts_cell_modbus_online t) (ts_cell_ready_do0_requested t) (ts_cell_ready_do0_confirmed t)
    (ts_cell_ready_do0_status t).

Definition cell_status_to_snapshot (s : CellAppStatus) : RuntimeTelemetrySnapshot :=
  mkTelemetry (cs_observed_monotonic_ns s)
    (mkRuntimeStateView (cs_started s) false (cs_started s) (cs_interlock_ready s) (cs_mode s)
       (cs_fault s) RuntimeExitStatus.Ok)
    (mkTimingSnapshot 0 0 0 0 0 0 false 0 false 0 0)
    (mkCommunicationView "SOCKETCAN" "" (cs_evidence s) (cs_frames_received s) (cs_frames_sent s)
       (cs_decode_rejects s) 0 0 0 0 0 (cs_input_queue_drop_count s) false StopReasonCode.None 0)
    (mkDeviceView ("CAN_NODE_" +:+ pretty (cs_node_id s)) (cs_node_id s)
       (cs_online s || negb (cs_session_id s =? 0)) (cs_online s) false false false (cs_boot_id s)
       (cs_session_id s) (cs_last_heartbeat_sequence s) (cs_device_fault_code s) (cs_input_bits s) 0
       (cs_heartbeat_age_ns s) (cs_last_heartbeat_sequence s) 0 0)
    (mkOutputFeedbackView (cs_ack_pending s) 0 0 0 (cs_last_ack_session s) (cs_last_ack_sequence s)
       (cs_last_ack_result s) 0 0 0)
    (cs_position_reached s) (cs_cell_ready s) (cs_modbus_online s) (cs_cell_ready_do0_requested s)
    (cs_cell_ready_do0_confirmed s) (cs_cell_ready_do0_status s) [].

(** ** Round trips *)

(** The widths of the C++ fields; enumerations are held by name. *)
Definition cell_status_wf (s : CellAppStatus) : Prop :=
  is_i64 (cs_observed_monotonic_ns s) ∧ is_i64 (cs_heartbeat_age_ns s) ∧
  is_byte (cs_node_id s) ∧ is_byte (cs_cell_ready_do0_status s) ∧
  is_u 16 (cs_boot_id s) ∧ is_u 16 (cs_session_id s) ∧ is_u 16 (cs_last_heartbeat_sequence s) ∧
  is_u 16 (cs_input_bits s) ∧ is_u 16 (cs_device_fault_code s) ∧ is_u 16 (cs_last_ack_session s) ∧
  is_u 16 (cs_last_ack_sequence s) ∧
  is_u 64 (cs_frames_received s) ∧ is_u 64 (cs_frames_sent s) ∧ is_u 64 (cs_decode_rejects s) ∧
  is_u 64 (cs_input_queue_drop_count s) ∧
  (is_byte (mode_code_byte (cs_mode s)) ∧ mode_code_of_byte (mode_code_byte (cs_mode s)) = cs_mode s) ∧
  (is_byte (fault_code_byte (cs_fault s)) ∧ fault_code_of_byte (fault_code_byte (cs_fault s)) = cs_fault s) ∧
  (is_byte (apply_result_code (cs_last_ack_result s)) ∧
   apply_result_of_code (apply_result_code (cs_last_ack_result s)) = cs_last_ack_result s) ∧
  (is_byte (evidence_code (cs_evidence s)) ∧ evidence_of_code (evidence_code (cs_evidence s)) = cs_evidence s).

Definition cell_status_body (s : CellAppStatus) : list Z :=
  le_bytes 8 (u64 (cs_observed_monotonic_ns s)) ++
  [mode_code_byte (cs_mode s); fault_code_byte (cs_fault s); bool_byte (cs_started s);
   bool_byte (cs_interlock_ready s); bool_byte (cs_online s); bool_byte (cs_position_reached s);
   bool_byte (cs_cell_ready s); cs_node_id s] ++
  le_bytes 2 (cs_boot_id s) ++ le_bytes 2 (cs_session_id s) ++ le_bytes 2 (cs_last_heartbeat_sequence s) ++
  le_bytes 8 (u64 (cs_heartbeat_age_ns s)) ++ le_bytes 2 (cs_input_bits s) ++
  le_bytes 2 (cs_device_fault_code s) ++ le_bytes 8 (cs_frames_received s) ++ le_bytes 8 (cs_frames_sent s) ++
  le_bytes 8 (cs_decode_rejects s) ++ le_bytes 8 (cs_input_queue_drop_count s) ++
  le_bytes 2 (cs_last_ack_session s) ++ le_bytes 2 (cs_last_ack_sequence s) ++
  [apply_result_code (cs_last_ack_result s); bool_byte (cs_ack_pending s); evidence_code (cs_evidence s);
   bool_byte (cs_modbus_online s); bool_byte (cs_cell_ready_do0_requested s);
   bool_byte (cs_cell_ready_do0_confirmed s); cs_cell_ready_do0_status s] ++ replicate 3 0.

Lemma encode_cell_status_body s : encode_cell_app_status s = Some (cell_status_body s).
Proof. reflexivity. Qed.

Lemma bool_byte_nonzero b : negb (bool_byte b =? 0) = b.
Proof. by destruct b. Qed.

Lemma cell_status_decodes s : cell_status_wf s → decode_cell_app_status (cell_status_body s) = Ok s.
Proof.
  intros (Hob & Hage & _ & _ & Hbo & Hse & Hhb & Hin & Hdf & Has & Haq & Hfr & Hfs & Hdr & Hqd &
    [_ Hm] & [_ Hf] & [_ Ha] & [_ He]).
  unfold decode_cell_app_status. change (length (cell_status_body s)) with kCellAppStatusWireSize.
  rewrite Nat.eqb_refl. cbn [negb]. f_equal.
  assert (H8 : ∀ o v rest, drop o (cell_status_body s) = le_bytes 8 v ++ rest → is_u 64 v →
    read_u64_le (cell_status_body s) o = v) by (intros o v rest; exact (le_read_written 8 o _ v rest)).
  unfold read_i64_le.
  rewrite (H8 0%nat (u64 (cs_observed_monotonic_ns s)) _ eq_refl (u64_range _)).
  rewrite (H8 22%nat (u64 (cs_heartbeat_age_ns s)) _ eq_refl (u64_range _)).
  rewrite (H8 34%nat (cs_frames_received s) _ eq_refl Hfr), (H8 42%nat (cs_frames_sent s) _ eq_refl Hfs).
  rewrite (H8 50%nat (cs_decode_rejects s) _ eq_refl Hdr), (H8 58%nat (cs_input_queue_drop_count s) _ eq_refl Hqd).
  rewrite (read_u16_written (cell_status_body s) 16 (cs_boot_id s) _ eq_refl Hbo).
  rewrite (read_u16_written (cell_status_body s) 18 (cs_session_id s) _ eq_refl Hse).
  rewrite (read_u16_written (cell_status_body s) 20 (cs_last_heartbeat_sequence s) _ eq_refl Hhb).
  rewrite (read_u16_written (cell_status_body s) 30 (cs_input_bits s) _ eq_refl Hin).
  rewrite (read_u16_written (cell_status_body s) 32 (cs_device_fault_code s) _ eq_refl Hdf).
  rewrite (read_u16_written (cell_status_body s) 66 (cs_last_ack_session s) _ eq_refl Has).
  rewrite (read_u16_written (cell_status_body s) 68 (cs_last_ack_sequence s) _ eq_refl Haq).
  rewrite !i64_u64 by done.
  change (byte_at (cell_status_body s) 8) with (mode_code_byte (cs_mode s)).
  change (byte_at (cell_status_body s) 9) with (fault_code_byte (cs_fault s)).
  change (byte_at (cell_status_body s) 70) with (apply_result_code (cs_last_ack_result s)).
  change (byte_at (cell_status_body s) 72) with (evidence_code (cs_evidence s)).
  rewrite Hm, Hf, Ha, He.
  change (byte_at (cell_status_body s) 10) with (bool_byte (cs_started s)).
  change (byte_at (cell_status_body s) 11) with (bool_byte (cs_interlock_ready s)).
  change (byte_at (cell_status_body s) 12) with (bool_byte (cs_online s)).
  change (byte_at (cell_status_body s) 13) with (bool_byte (cs_position_reached s)).
  change (byte_at (cell_status_body s) 14) with (bool_byte (cs_cell_ready s)).
  change (byte_at (cell_status_body s) 71) with (bool_byte (cs_ack_pending s)).
  change (byte_at (cell_status_body s) 73) with (bool_byte (cs_modbus_online s)).
  change (byte_at (cell_status_body s) 74) with (bool_byte (cs_cell_ready_do0_requested s)).
  change (byte_at (cell_status_body s) 75) with (bool_byte (cs_cell_ready_do0_confirmed s)).
  rewrite !bool_byte_nonzero. by destruct s.
Qed.

Lemma cell_status_body_wf s : cell_status_wf s → bytes_wf (cell_status_body s).
Proof.
  intros (_ & _ & Hn & Hd & _ & _ & _ & _ & _ & _ & _ & _ & _ & _ & _ & [Hm _] & [Hf _] & [Ha _] & [He _]).
  assert (Hb : ∀ b, is_byte (bool_byte b)) by by intros [].
  unfold cell_status_body. rewrite !Forall_app. split_and!; try apply le_bytes_wf.
  - repeat (apply Forall_cons; split; [first [done|apply Hb]|]). constructor.
  - repeat (apply Forall_cons; split; [first [done|apply Hb]|]). constructor.
  - by apply Forall_replicate.
Qed.

Lemma le_byte_high v i : le_byte v (2 + i) = le_byte (v / 65536) i.
Proof.
  rewrite !le_byte_value. rewrite Z.div_div by lia. do 2 f_equal.
  replace (8 * Z.of_nat (2 + i)) with (16 + 8 * Z.of_nat i) by lia. rewrite Z.pow_add_r by lia. done.
Qed.

Lemma written_byte_at n l o v rest i :
  drop o l = le_bytes n v ++ rest → (i < n)%nat → byte_at l (o + i) = le_byte v i.
Proof.
  intros Hd Hi. unfold byte_at. rewrite <- lookup_drop, Hd, lookup_app_l by by rewrite le_bytes_length.
  by apply le_bytes_at.
Qed.

Lemma read_u32_halves_written l o v rest :
  drop o l = le_bytes 4 v ++ rest → is_u 32 v → read_u32_halves l o = v.
Proof.
  intros Hd Hv. unfold read_u32_halves. rewrite !read_u16_le_read.
  rewrite (le_read_value 2 o l v) by (intros i Hi; apply (written_byte_at 4 l o v rest); [done|lia]).
  rewrite (le_read_value 2 (o + 2) l (v / 65536)).
  2:{ intros i Hi. rewrite <- Nat.add_assoc, (written_byte_at 4 l o v rest) by (done || lia). apply le_byte_high. }
  change (2 ^ (8 * Z.of_nat 2)) with 65536.
  assert (H1 : 0 ≤ v mod 65536 < 65536) by (apply Z.mod_pos_bound; lia).
  assert (H2 : 0 ≤ v / 65536 < 65536)
    by (split; [apply Z.div_pos|apply Z.div_lt_upper_bound]; width_lia).
  rewrite (Z.mod_small (v / 65536)), !u16_small by (done || width_lia).
  rewrite Z.lor_comm, lor_shiftl_add by (done || width_lia). change (2 ^ 16) with 65536.
  rewrite u32_small by (pose proof (Z.div_mod v 65536); width_lia). pose proof (Z.div_mod v 65536). lia.
Qed.

Definition output_request_wf (r : DigitalOutputRequest) : Prop :=
  is_u 64 (dr_session_id r) ∧ is_u 64 (dr_sequence r) ∧ is_u 32 (dr_valid_for_ms r) ∧
  is_u 32 (dr_mask r) ∧ is_u 32 (dr_values r).

Lemma cell_output_layout r : encode_cell_output_payload r =
  le_bytes 8 (dr_session_id r) ++ le_bytes 8 (dr_sequence r) ++ le_bytes 4 (dr_valid_for_ms r) ++
  le_bytes 4 (dr_mask r) ++ le_bytes 4 (dr_values r).
Proof. reflexivity. Qed.

Lemma cell_output_decodes r :
  output_request_wf r → decode_cell_output_payload (encode_cell_output_payload r) = Ok r.
Proof.
  intros (Hs & Hq & Hv & Hm & Hx). unfold decode_cell_output_payload.
  change (length (encode_cell_output_payload r)) with kCellAppOutputPayloadSize. rewrite Nat.eqb_refl. cbn [negb].
  rewrite cell_output_layout. set (p := le_bytes 8 _ ++ _).
  assert (H8 : ∀ o v rest, drop o p = le_bytes 8 v ++ rest → is_u 64 v → read_u64_le p o = v)
    by (intros o v rest; exact (le_read_written 8 o p v rest)).
  rewrite (H8 0%nat (dr_session_id r) _ eq_refl Hs), (H8 8%nat (dr_sequence r) _ eq_refl Hq).
  rewrite (read_u32_halves_written p 16 (dr_valid_for_ms r) _ eq_refl Hv).
  rewrite (read_u32_halves_written p 20 (dr_mask r) _ eq_refl Hm).
  rewrite (read_u32_halves_written p 24 (dr_values r) [] eq_refl Hx). by destruct r.
Qed.

Lemma cell_output_wf r : bytes_wf (encode_cell_output_payload r).
Proof. rewrite cell_output_layout, !Forall_app. split_and!; apply le_bytes_wf. Qed.

Definition mode_named (m : RuntimeModeCode) : Prop :=
  is_byte (mode_code_byte m) ∧ mode_code_of_byte (mode_code_byte m) = m.

(** Enumerations by name; the text's length is the wire's limit. *)
Definition command_reply_wf (r : CommandReply) : Prop :=
  (is_byte (command_status_code (cr_status r)) ∧
   command_status_of_code (command_status_code (cr_status r)) = cr_status r) ∧
  mode_named (cr_from_state r) ∧ mode_named (cr_to_state r) ∧ (String.length (cr_message r) ≤ 252)%nat.

Lemma cell_reply_layout r : (String.length (cr_message r) ≤ 255)%nat →
  encode_cell_command_reply r =
  [command_status_code (cr_status r); mode_code_byte (cr_from_state r); mode_code_byte (cr_to_state r);
   Z.of_nat (String.length (cr_message r))] ++ str_bytes (cr_message r).
Proof.
  intros Hl. unfold encode_cell_command_reply. rewrite Nat.min_l, u8_small by (lia || width_lia).
  rewrite <- (str_bytes_length (cr_message r)) at 2. by rewrite firstn_all.
Qed.

Lemma cell_reply_decodes r :
  command_reply_wf r → decode_cell_command_reply (encode_cell_command_reply r) = Ok r.
Proof.
  intros ([_ Hs] & [_ Hf] & [_ Ht] & Hl). rewrite cell_reply_layout by lia.
  unfold decode_cell_command_reply. rewrite length_app, str_bytes_length. cbn [length].
  rewrite (proj2 (Nat.ltb_ge _ _)) by lia.
  change (byte_at ([?a; ?b; ?c; ?d] ++ ?l) 3) with d. rewrite Nat2Z.id, Nat.eqb_refl. cbn [negb].
  change (byte_at ([?a; ?b; ?c; ?d] ++ ?l) 0) with a. change (byte_at ([?a; ?b; ?c; ?d] ++ ?l) 1) with b.
  change (byte_at ([?a; ?b; ?c; ?d] ++ ?l) 2) with c. change (drop 4 ([?a; ?b; ?c; ?d] ++ ?l)) with l.
  rewrite Hs, Hf, Ht, <- (str_bytes_length (cr_message r)), firstn_all, bytes_str_bytes. by destruct r.
Qed.

Lemma cell_reply_wf r : command_reply_wf r →
  bytes_wf (encode_cell_command_reply r) ∧ (length (encode_cell_command_reply r) ≤ kCellAppMaxPayload)%nat.
Proof.
  intros ([Hs _] & [Hf _] & [Ht _] & Hl). rewrite cell_reply_layout by lia. split.
  - apply Forall_app. split; [|apply str_bytes_wf].
    repeat (apply Forall_cons; split; [first [done|unfold is_byte; width_lia]|]). constructor.
  - rewrite length_app, str_bytes_length. unfold kCellAppMaxPayload. cbn [length]. lia.
Qed.

(** The engineering station loses nothing on the wire: every status is exactly 80 bytes
    and decodes to itself, and the telemetry rebuilt from it projects back to it; output
    requests keep their 64-bit session and sequence and their 32-bit fields; command
    replies keep status, states and texts of up to 252 characters. *)
Theorem cell_payloads_round_trip s r reply :
  cell_status_wf s → output_request_wf r → command_reply_wf reply →
  (∃ p, encode_cell_app_status s = Some p ∧ length p = kCellAppStatusWireSize ∧ decode_cell_app_status p = Ok s) ∧
  project_cell_app_status (cell_status_to_snapshot s) = s ∧
  decode_cell_output_payload (encode_cell_output_payload r) = Ok r ∧
  decode_cell_command_reply (encode_cell_command_reply reply) = Ok reply.
Proof.
  intros Hs Hr Hp. split_and!.
  - exists (cell_status_body s). split_and!; [apply encode_cell_status_body|done|by apply cell_status_decodes].
  - by destruct s.
  - by apply cell_output_decodes.
  - by apply cell_reply_decodes.
Qed.

Definition demo_cell_status : CellAppStatus :=
  mkCellStatus (-1) RuntimeModeCode.Active RuntimeFaultCode.None true true true false false 3 1 77 9 123456
    1 0 1000 (2 ^ 64 - 1) 0 0 77 4 OutputApplyResult.Applied false EvidenceClass.Physical true true false 2.

Lemma cell_payloads_round_trip_witness :
  decode_cell_app_status (default [] (encode_cell_app_status demo_cell_status)) = Ok demo_cell_status ∧
  decode_cell_output_payload (encode_cell_output_payload (mkDigitalOutputRequest (2 ^ 40) 7 250 1 1)) =
    Ok (mkDigitalOutputRequest (2 ^ 40) 7 250 1 1).
Proof.
  destruct (cell_payloads_round_trip demo_cell_status (mkDigitalOutputRequest (2 ^ 40) 7 250 1 1)
    (mkCommandReply CommandStatus.Accepted RuntimeModeCode.Idle RuntimeModeCode.Active "activated"))
    as ((p & Hp & _ & Hd) & _ & Hr & _).
  - unfold cell_status_wf, is_byte. split_and!; done.
  - unfold output_request_wf. split_and!; done.
  - unfold command_reply_wf, mode_named, is_byte. split_and!; try done. cbn. lia.
  - rewrite Hp. split; [exact Hd|exact Hr].
Defined.
