(* ===== verification/CellApp.v ===== *)
(** * The cell application's server and client

    services/cell_app_server.cpp and services/cell_app_client.cpp over [CellProtocol].  The
    server polls its listening socket and up to eight engineering clients and answers the
    requests of each in order through a handler; the client sends one request at a time
    and closes the connection when it cannot be sure of the answer. *)

From S2P Require Import Prelude Types Bytes RemoteFrame Application.
From S2P Require Import RemoteControl LinuxIo ModbusRtu SerialPort TcpFrame CellProtocol.
Local Open Scope Z_scope.

Definition kMaxEngineeringClients : nat := 8.

(** The virtual functions of [CellAppHandler], over the state of what they control. *)
Record CellAppHandler (W : Type) := mkCellHandler {
  h_status : W → CellAppStatus * W;
  h_probe_cell_io : W → CellAppStatus * W;
  h_activate : W → CommandReply * W;
  h_submit_output : DigitalOutputRequest → W → CommandReply * W
}.
Arguments h_status {W}.
Arguments h_probe_cell_io {W}.
Arguments h_activate {W}.
Arguments h_submit_output {W}.

Definition make_error (sequence : Z) (message : string) : CellAppFrame :=
  mkCellFrame CellMessage.Error sequence (str_bytes message).

Section Server.
Context {W : Type} (handler : CellAppHandler W).
Implicit Type w : W.

Definition status_reply (type : CellAppMessage) (sequence : Z) (failure : string) (s : CellAppStatus)
    : CellAppFrame :=
  match encode_cell_app_status s with
  | None => make_error sequence failure
  | Some payload => mkCellFrame type sequence payload
  end.

Definition cell_handle_request (request : CellAppFrame) w : CellAppFrame * W :=
  let sequence := cf_sequence request in
  match cf_type request with
  | CellMessage.GetStatus =>
      let '(s, w) := h_status handler w in
      (status_reply CellMessage.GetStatusAck sequence "status encode" s, w)
  | CellMessage.ProbeCellIo =>
      let '(s, w) := h_probe_cell_io handler w in
      (status_reply CellMessage.ProbeCellIoAck sequence "cell io probe status encode" s, w)
  | CellMessage.Activate =>
      let '(r, w) := h_activate handler w in
      (mkCellFrame CellMessage.ActivateAck sequence (encode_cell_command_reply r), w)
  | CellMessage.SubmitOutput =>
      match decode_cell_output_payload (cf_payload request) with
      | Err e => (make_error sequence (err_message e), w)
      | Ok output =>
          let '(r, w) := h_submit_output handler output w in
          (mkCellFrame CellMessage.SubmitOutputAck sequence (encode_cell_command_reply r), w)
      end
  | _ => (make_error sequence "unknown cell message", w)
  end.

(** What became of a client: kept with its buffer, or dropped with the call's result. *)
Inductive Serviced := Kept (buffer : list Z) | Dropped (r : Result ()).

(** The loop over the buffer.  [sends] are the results of the successive [write_all]s; the
    second part is what was written; [None]: the results ended. *)
Fixpoint service_loop (sends : list (Result ())) (buffer : list Z) w (sent : list (list Z))
    : option Serviced * list (list Z) * W :=
  match buffer with
  | [] => (Some (Kept []), sent, w)
  | _ =>
      match try_decode_cell_app_frame buffer with
      | (Err e, _) =>
          if err_code e ==? Errc.WouldBlock then (Some (Kept buffer), sent, w)
          else
            let sent := match encode_cell_app_frame (make_error 0 (err_message e)) with
                        | Some wire => sent ++ [wire]
                        | None => sent
                        end in
            (Some (Dropped (Ok ())), sent, w)
      | (Ok request, consumed) =>
          let buffer := drop consumed buffer in
          let '(reply, w) := cell_handle_request request w in
          match encode_cell_app_frame reply with
          | None => (Some (Dropped (fail_with Errc.InvalidArgument "failed to encode cell reply")), sent, w)
          | Some wire =>
              match sends with
              | [] => (None, sent ++ [wire], w)
              | Err _ :: _ => (Some (Dropped (Ok ())), sent ++ [wire], w)
              | Ok _ :: sends => service_loop sends buffer w (sent ++ [wire])
              end
          end
      end
  end.

(** [service_client]: one [recv], then the loop. *)
Definition service_client (read : ReadAnswer) (sends : list (Result ())) (buffer : list Z) w
    : option Serviced * list (list Z) * W :=
  match read with
  | ReadErrno e =>
      if (e =? EAGAIN) || (e =? EINTR) then (Some (Kept buffer), [], w)
      else (Some (Dropped (Ok ())), [], w)
  | ReadBytes [] => (Some (Dropped (Ok ())), [], w)
  | ReadBytes chunk => service_loop sends (buffer ++ chunk) w []
  end.

(** ** The poll *)

Record ClientSession := mkClientSession { cl_fd : Z; cl_buffer : list Z }.

Record CellAppServer := mkCellServer {
  sv_listen_fd : Z;
  sv_clients : list ClientSession;
  sv_port : Z
}.

#[export] Instance CellServer_eta : Eta CellAppServer :=
  mkEta _ (fun s => mkCellServer (sv_listen_fd s) (sv_clients s) (sv_port s)).

(** Erasing a session closes its descriptor. *)
Definition drop_client (index : nat) (s : CellAppServer) (k : Kernel) : CellAppServer * Kernel :=
  match sv_clients s !! index with
  | None => (s, k)
  | Some c => (s <| sv_clients ::= delete index |>, snd (fd_reset (cl_fd c) k))
  end.

Definition cell_server_close (s : CellAppServer) (k : Kernel) : CellAppServer * Kernel :=
  let k := foldl (λ k c, snd (fd_reset (cl_fd c) k)) k (sv_clients s) in
  let '(fd, k) := fd_reset (sv_listen_fd s) k in
  (mkCellServer fd [] 0, k).

Definition cell_server_listen (env : ListenEnv) (s : CellAppServer) (k : Kernel)
    : Result () * CellAppServer * Kernel :=
  let '(s, k) := cell_server_close s k in
  match tcp_listen env k with
  | (Err e, k) => (Err e, s, k)
  | (Ok (fd, port), k) => (Ok (), mkCellServer fd (sv_clients s) port, k)
  end.

Inductive AcceptAnswer := AcceptFd (fd : Z) | AcceptErrno (e : Z).

Fixpoint accept_pending (answers : list AcceptAnswer) (s : CellAppServer) (k : Kernel)
    : option (Result ()) * CellAppServer * Kernel :=
  if (kMaxEngineeringClients <=? length (sv_clients s))%nat then (Some (Ok ()), s, k)
  else match answers with
  | [] => (None, s, k)
  | AcceptFd fd :: answers =>
      accept_pending answers (s <| sv_clients ::= λ l, l ++ [mkClientSession fd []] |>) (k_create (Some fd) k)
  | AcceptErrno e :: answers =>
      if e =? EAGAIN then (Some (Ok ()), s, k)
      else if e =? EINTR then accept_pending answers s k
      else (Some (io_error "accept"), s, k)
  end.

Definition POLLIN : Z := 0x1.
Definition POLLERR : Z := 0x8.
Definition POLLHUP : Z := 0x10.
Definition POLLNVAL : Z := 0x20.

Definition has_event (revents mask : Z) : bool := negb (Z.land revents mask =? 0).

(** [poll]'s answer: a failure, a timeout, or the [revents] of the entries. *)
Inductive PollAnswers := PollFailed (e : Z) | PollNone | PollEvents (revents : list Z).

(** How a call of [poll] ends; an access behind the entries of the [pollfd] array has no
    defined result, and [Starved] says that the kernel's answers given ended. *)
Inductive PollOutcome := Returns (r : Result ()) | OutOfBounds | Starved.

Record PollEnv := mkPollEnv {
  pe_poll : PollAnswers;
  pe_accepts : list AcceptAnswer;
  pe_service : nat → ReadAnswer * list (Result ())
}.

(** Server, kernel, controlled state, and what was sent, newest client last. *)
Notation ServerState := (CellAppServer * Kernel * W * list (Z * list (list Z)))%type.

(** The loop over the clients, from the last; [revents] has one entry per [pollfd]. *)
Fixpoint poll_clients (i : nat) (revents : list Z) (env : PollEnv) (st : ServerState)
    : PollOutcome * ServerState :=
  match i with
  | O => (Returns (Ok ()), st)
  | S index =>
      let '(s, k, w, log) := st in
      match revents !! (index + 1)%nat with
      | None => (OutOfBounds, st)
      | Some rv =>
          if has_event rv (Z.lor (Z.lor POLLERR POLLHUP) POLLNVAL) && negb (has_event rv POLLIN) then
            let '(s, k) := drop_client index s k in
            poll_clients index revents env (s, k, w, log)
          else if has_event rv POLLIN then
            match sv_clients s !! index with
            | None => (OutOfBounds, st)
            | Some c =>
                let '(read, sends) := pe_service env index in
                match service_client read sends (cl_buffer c) w with
                | (None, sent, w) => (Starved, (s, k, w, log ++ [(cl_fd c, sent)]))
                | (Some (Kept buffer), sent, w) =>
                    let s := s <| sv_clients ::= <[index := mkClientSession (cl_fd c) buffer]> |> in
                    poll_clients index revents env (s, k, w, log ++ [(cl_fd c, sent)])
                | (Some (Dropped r), sent, w) =>
                    let '(s, k) := drop_client index s k in
                    let st := (s, k, w, log ++ [(cl_fd c, sent)]) in
                    match r with
                    | Err e => (Returns (Err e), st)
                    | Ok _ => poll_clients index revents env st
                    end
                end
            end
          else poll_clients index revents env st
      end
  end.

Definition cell_poll (env : PollEnv) (st : ServerState) : PollOutcome * ServerState :=
  let '(s, k, w, log) := st in
  if negb (fd_valid (sv_listen_fd s)) then
    (Returns (fail_with Errc.NotOpen "cell server not listening"), st)
  else match pe_poll env with
  | PollFailed e => if e =? EINTR then (Returns (Ok ()), st) else (Returns (io_error "poll"), st)
  | PollNone => (Returns (Ok ()), st)
  | PollEvents revents =>
      let accepting := has_event (byte_at revents 0) POLLIN in
      let '(accepted, s, k) :=
        if accepting then accept_pending (pe_accepts env) s k else (Some (Ok ()), s, k) in
      match accepted with
      | None => (Starved, (s, k, w, log))
      | Some (Err e) => (Returns (Err e), (s, k, w, log))
      | Some (Ok _) => poll_clients (length (sv_clients s)) revents env (s, k, w, log)
      end
  end.

End Server.

(** ** The client *)

Record CellAppClient := mkCellClient {
  cc_fd : Z;
  cc_host : string;
  cc_port : Z;
  cc_next_sequence : Z
}.

#[export] Instance CellClient_eta : Eta CellAppClient :=
  mkEta _ (fun c => mkCellClient (cc_fd c) (cc_host c) (cc_port c) (cc_next_sequence c)).

Definition cell_disconnect (c : CellAppClient) (k : Kernel) : CellAppClient * Kernel :=
  if negb (fd_valid (cc_fd c)) then (c, k)
  else let '(fd, k) := fd_reset (cc_fd c) k in (c <| cc_fd := fd |>, k).

Definition cell_connect (host : string) (port : Z) (env : ConnectEnv) (c : CellAppClient) (k : Kernel)
    : Result () * CellAppClient * Kernel :=
  let c := c <| cc_host := host |> <| cc_port := port |> in
  let '(c, k) := cell_disconnect c k in
  let '(r, k) := tcp_connect (mkError Errc.Timeout "cell connect timeout") env k in
  match r with
  | Err e => (Err e, c, k)
  | Ok fd => (Ok (), c <| cc_fd := fd |>, k)
  end.

Definition cell_reconnect (env : ConnectEnv) (c : CellAppClient) (k : Kernel)
    : Result () * CellAppClient * Kernel :=
  if (String.length (cc_host c) =? 0)%nat || (cc_port c =? 0) then
    (fail_with Errc.NotOpen "cell client has no peer", c, k)
  else cell_connect (cc_host c) (cc_port c) env c k.

Definition cell_reply_timeout : Error := mkError Errc.Timeout "cell reply timeout".
Definition cell_app_disconnected : Error := mkError Errc.IoError "cell app disconnected".

(** What the kernel answers during one exchange. *)
Record CellExchangeEnv := mkCellExchangeEnv {
  ce_sends : list WriteAnswer;
  ce_now : Z;
  ce_turns : list RxTurn
}.

Definition cell_exchange (request_type ack_type : CellAppMessage) (payload : list Z) (timeout_ms : Z)
    (env : CellExchangeEnv) (c : CellAppClient) (k : Kernel)
    : option (Result CellAppFrame) * CellAppClient * Kernel :=
  if negb (fd_valid (cc_fd c)) then
    (Some (fail_with Errc.NotOpen "cell client not connected"), c, k)
  else
    let request := mkCellFrame request_type (cc_next_sequence c) payload in
    let c := c <| cc_next_sequence := u16 (cc_next_sequence c + 1) |> in
    let broken e := let '(c, k) := cell_disconnect c k in (Some (Err e), c, k) in
    match encode_cell_app_frame request with
    | None => (Some (fail_with Errc.InvalidArgument "failed to encode cell request"), c, k)
    | Some wire =>
        match send_all (length wire) 0 (ce_sends env) with
        | None => (None, c, k)
        | Some (Err e) => broken e
        | Some (Ok _) =>
            match read_frame cell_app_protocol cell_reply_timeout cell_app_disconnected
                    (ce_now env + timeout_ms * 1000000) [] (ce_turns env) with
            | None => (None, c, k)
            | Some (Err e) => broken e
            | Some (Ok raw) =>
                match fst (try_decode_cell_app_frame raw) with
                | Err e => broken e
                | Ok frame =>
                    if cf_type frame ==? CellMessage.Error then
                      (Some (fail_with Errc.Rejected "cell app returned ERROR"), c, k)
                    else if negb (cf_type frame ==? ack_type) then
                      broken (mkError Errc.Rejected "unexpected cell message")
                    else (Some (Ok frame), c, k)
                end
            end
        end
    end.

(** The answer's payload, decoded. *)
Definition with_payload {T} (decode : list Z → Result T)
    (x : option (Result CellAppFrame) * CellAppClient * Kernel)
    : option (Result T) * CellAppClient * Kernel :=
  let '(r, c, k) := x in
  (match r with
   | None => None
   | Some r => Some (let? frame := r in decode (cf_payload frame))
   end, c, k).

Definition cell_get_status (timeout_ms : Z) (env : CellExchangeEnv) (c : CellAppClient) (k : Kernel) :=
  with_payload decode_cell_app_status
    (cell_exchange CellMessage.GetStatus CellMessage.GetStatusAck [] timeout_ms env c k).

Definition cell_probe_cell_io (timeout_ms : Z) (env : CellExchangeEnv) (c : CellAppClient) (k : Kernel) :=
  with_payload decode_cell_app_status
    (cell_exchange CellMessage.ProbeCellIo CellMessage.ProbeCellIoAck [] timeout_ms env c k).

Definition cell_activate (timeout_ms : Z) (env : CellExchangeEnv) (c : CellAppClient) (k : Kernel) :=
  with_payload decode_cell_command_reply
    (cell_exchange CellMessage.Activate CellMessage.ActivateAck [] timeout_ms env c k).

Definition cell_submit_output (request : DigitalOutputRequest) (timeout_ms : Z) (env : CellExchangeEnv)
    (c : CellAppClient) (k : Kernel) :=
  with_payload decode_cell_command_reply
    (cell_exchange CellMessage.SubmitOutput CellMessage.SubmitOutputAck
       (encode_cell_output_payload request) timeout_ms env c k).

(** ** The [pollfd] array *)

Lemma accept_pending_grows answers : ∀ s k r s' k',
  accept_pending answers s k = (r, s', k') → (length (sv_clients s) ≤ length (sv_clients s'))%nat.
Proof.
  induction answers as [|[fd|e] answers IH]; intros s k r s' k'; cbn [accept_pending];
    destruct (kMaxEngineeringClients <=? _)%nat; try by intros [= _ <- _].
  - intros H%IH. cbn in H. rewrite length_app in H. lia.
  - repeat case_match; try by intros [= _ <- _]. apply IH.
Qed.

Lemma drop_client_length i s k : (i < length (sv_clients s) →
  S (length (sv_clients (fst (drop_client i s k)))) = length (sv_clients s))%nat.
Proof.
  intros Hi. unfold drop_client. destruct (lookup_lt_is_Some_2 _ _ Hi) as [c Hc]. rewrite Hc. cbn.
  rewrite length_delete by done. lia.
Qed.

Section PollBounds.
Context {W : Type} (handler : CellAppHandler W).

(** With an entry for every client the loop stays inside the array. *)
Lemma poll_clients_in_bounds revents env i : ∀ s k (w : W) log,
  (i ≤ length (sv_clients s))%nat → (i < length revents)%nat →
  fst (poll_clients handler i revents env (s, k, w, log)) ≠ OutOfBounds.
Proof.
  induction i as [|i IH]; intros s k w log Hc Hr; [done|]. cbn [poll_clients].
  destruct (lookup_lt_is_Some_2 revents (i + 1)) as [rv Hrv]; [lia|]. rewrite Hrv.
  pose proof (drop_client_length i s k ltac:(lia)) as Hd.
  destruct (lookup_lt_is_Some_2 (sv_clients s) i) as [c Hl]; [lia|].
  case_match; [destruct (drop_client i s k) as [s1 k1]; cbn in Hd; apply IH; lia|].
  case_match; [|apply IH; lia]. rewrite Hl. destruct (pe_service env i) as [read sends].
  destruct (service_client handler read sends (cl_buffer c) w) as [[[[buffer|r]|] sent] w1]; [| |done].
  - apply IH; cbn; rewrite ?length_insert; lia.
  - destruct (drop_client i s k) as [s1 k1]. cbn in Hd. destruct r; [|done]. apply IH; lia.
Qed.

(** C40.  The server looks at one entry of the [pollfd] array too many whenever a client has just
    connected: the array is built before [accept_pending], the loop runs over the clients
    after it.  So a call of [poll] that got an event reads past the end of the array
    exactly when it has accepted a connection; a call that accepted none stays inside. *)
Theorem poll_reads_past_pollfds env s k (w : W) log revents s' k' :
  fd_valid (sv_listen_fd s) = true → pe_poll env = PollEvents revents →
  length revents = S (length (sv_clients s)) →
  (if has_event (byte_at revents 0) POLLIN then accept_pending (pe_accepts env) s k
   else (Some (Ok ()), s, k)) = (Some (Ok ()), s', k') →
  fst (cell_poll handler env (s, k, w, log)) = OutOfBounds ↔
  (length (sv_clients s) < length (sv_clients s'))%nat.
Proof.
  intros Hfd Hp Hl Ha. unfold cell_poll. rewrite Hfd, Hp, Ha. cbn [negb]. split.
  - intros Ho. destruct (decide (length (sv_clients s) < length (sv_clients s'))%nat) as [|Hn]; [done|].
    contradict Ho. apply poll_clients_in_bounds; lia.
  - intros Hlt. destruct (length (sv_clients s')) as [|i]; [lia|]. cbn [poll_clients].
    by rewrite (lookup_ge_None_2 revents (i + 1)) by lia.
Qed.

End PollBounds.

(** ** Serving requests *)

(** A frame of the C++ widths, its type held by name. *)
Definition cell_frame_ok (f : CellAppFrame) : Prop :=
  tcp_frame_ok cell_app_protocol (raw_cell_frame f) ∧
  cell_message_of_code (cell_message_code (cf_type f)) = cf_type f.

Definition cell_wire (f : CellAppFrame) : list Z := crc_framed (tcp_body cell_app_protocol (raw_cell_frame f)).

Lemma encode_cell_wire f : cell_frame_ok f → encode_cell_app_frame f = Some (cell_wire f).
Proof. intros [Hf _]. unfold encode_cell_app_frame. by rewrite encode_frame_ok by (apply _ || done). Qed.

Lemma cell_wire_nonempty f : cell_wire f ≠ [].
Proof.
  intros H%(f_equal length). unfold cell_wire in H. rewrite crc_framed_length, tcp_body_length in H.
  cbn in H. lia.
Qed.

Lemma try_decode_cell_wire f rest : cell_frame_ok f →
  try_decode_cell_app_frame (cell_wire f ++ rest) = (Ok f, length (cell_wire f)).
Proof.
  intros [Hf Ht]. unfold try_decode_cell_app_frame, cell_wire. rewrite try_decode_encoded by (apply _ || done).
  cbn. unfold cell_frame. cbn. rewrite Ht. by destruct f.
Qed.

(** Part of a frame: what a client has sent so far. *)
Definition part_of_frame (p : list Z) : Prop := ∃ f q, cell_frame_ok f ∧ cell_wire f = p ++ q ∧ q ≠ [].

Lemma try_decode_part p : part_of_frame p →
  ∃ e, try_decode_cell_app_frame p = (Err e, 0%nat) ∧ err_code e = Errc.WouldBlock.
Proof.
  intros (f & q & [Hf _] & Hpq & Hq).
  destruct (try_decode_prefix cell_app_protocol _ _ _ Hf Hpq Hq) as (e & Hd & He).
  exists e. unfold try_decode_cell_app_frame. by rewrite Hd.
Qed.

(** What a handler owes: values of the C++ widths, and messages that fit a frame. *)
Class CellHandlerOk {W} (handler : CellAppHandler W) : Prop := {
  h_status_ok w : cell_status_wf (fst (h_status handler w));
  h_probe_ok w : cell_status_wf (fst (h_probe_cell_io handler w));
  h_activate_ok w : command_reply_wf (fst (h_activate handler w));
  h_submit_ok r w : command_reply_wf (fst (h_submit_output handler r w))
}.

Section Serving.
Context {W : Type} (handler : CellAppHandler W) `{!CellHandlerOk handler}.
Implicit Type w : W.

Lemma named_frame_ok type sequence payload :
  is_byte (cell_message_code type) → cell_message_of_code (cell_message_code type) = type →
  is_u 16 sequence → bytes_wf payload → (length payload ≤ kCellAppMaxPayload)%nat →
  cell_frame_ok (mkCellFrame type sequence payload).
Proof. intros Hb Hn Hs Hw Hl. split; [exact (conj Hb (conj Hs (conj Hw Hl)))|done]. Qed.

Lemma make_error_ok sequence message :
  is_u 16 sequence → (String.length message ≤ kCellAppMaxPayload)%nat → cell_frame_ok (make_error sequence message).
Proof. intros Hs Hl. apply named_frame_ok; try done; [apply str_bytes_wf|by rewrite str_bytes_length]. Qed.

Lemma status_reply_ok type sequence failure s :
  is_byte (cell_message_code type) → cell_message_of_code (cell_message_code type) = type →
  is_u 16 sequence → cell_status_wf s →
  cell_frame_ok (status_reply type sequence failure s).
Proof.
  intros Hb Ht Hs Hw. unfold status_reply. rewrite encode_cell_status_body.
  apply named_frame_ok; try done; [by apply cell_status_body_wf|].
  change (length (cell_status_body s)) with kCellAppStatusWireSize. unfold kCellAppStatusWireSize, kCellAppMaxPayload. lia.
Qed.

Lemma decode_cell_output_error p e :
  decode_cell_output_payload p = Err e → (String.length (err_message e) ≤ kCellAppMaxPayload)%nat.
Proof. unfold decode_cell_output_payload. case_match; intros [= <-]. vm_compute. lia. Qed.

(** Every request, the unknown and the malformed included, gets one answer that fits a
    frame and carries its number. *)
Lemma handled_ok request w : cell_frame_ok request →
  cell_frame_ok (fst (cell_handle_request handler request w)) ∧
  cf_sequence (fst (cell_handle_request handler request w)) = cf_sequence request.
Proof.
  intros [(_ & Hs & _) _]. cbn in Hs.
  pose proof (h_status_ok w) as H1. pose proof (h_probe_ok w) as H2. pose proof (h_activate_ok w) as H3.
  assert (Herr : ∀ m, (String.length m ≤ kCellAppMaxPayload)%nat →
    cell_frame_ok (make_error (cf_sequence request) m) ∧
    cf_sequence (make_error (cf_sequence request) m) = cf_sequence request)
    by (intros m Hm; split; [by apply make_error_ok|done]).
  unfold cell_handle_request. destruct (cf_type request); try (apply Herr; vm_compute; lia).
  - destruct (h_status handler w) as [s w']. by split; [apply status_reply_ok|].
  - destruct (h_activate handler w) as [r w']. split; [apply named_frame_ok; try done; by apply cell_reply_wf|done].
  - destruct (decode_cell_output_payload (cf_payload request)) as [o|e] eqn:Hd;
      [|by apply Herr, (decode_cell_output_error (cf_payload request))].
    pose proof (h_submit_ok o w) as H4. destruct (h_submit_output handler o w) as [r w'].
    split; [apply named_frame_ok; try done; by apply cell_reply_wf|done].
  - destruct (h_probe_cell_io handler w) as [s w']. by split; [apply status_reply_ok|].
Qed.

(** The reference: the answers to a sequence of requests, one after the other. *)
Fixpoint cell_answers (requests : list CellAppFrame) w : list CellAppFrame * W :=
  match requests with
  | [] => ([], w)
  | request :: requests =>
      let '(a, w) := cell_handle_request handler request w in
      let '(answers, w) := cell_answers requests w in (a :: answers, w)
  end.

Lemma service_loop_serves part requests : ∀ sends w sent,
  Forall cell_frame_ok requests → part = [] ∨ part_of_frame part →
  (length requests ≤ length sends)%nat → Forall (eq (Ok ())) sends →
  let '(answers, w') := cell_answers requests w in
  service_loop handler sends (concat (map cell_wire requests) ++ part) w sent =
    (Some (Kept part), sent ++ map cell_wire answers, w').
Proof.
  induction requests as [|r requests IH]; intros sends w sent Hr Hp Hl Hs; cbn [cell_answers map concat].
  - rewrite app_nil_r. cbn [app]. destruct sends, part as [|b part]; try done;
      (destruct Hp as [|Hp]; [done|]); cbn [service_loop];
      destruct (try_decode_part _ Hp) as (e & -> & He); by rewrite He.
  - apply Forall_cons in Hr as [Hr Hrs]. destruct (handled_ok r w Hr) as [Hok _].
    destruct sends as [|x sends]; [cbn in Hl; lia|]. apply Forall_cons in Hs as [<- Hs].
    destruct (cell_handle_request handler r w) as [a w1] eqn:Ha. cbn [fst] in Hok.
    specialize (IH sends w1 (sent ++ [cell_wire a]) Hrs Hp ltac:(cbn in Hl; lia) Hs).
    destruct (cell_answers requests w1) as [answers w2]. rewrite <- app_assoc.
    pose proof (cell_wire_nonempty r) as Hne.
    destruct (cell_wire r ++ concat (map cell_wire requests) ++ part) as [|b l] eqn:Hb;
      [by destruct (cell_wire r)|]. cbn [service_loop]. rewrite <- Hb.
    rewrite try_decode_cell_wire, drop_app_length, Ha, encode_cell_wire, IH, <- app_assoc by done. done.
Qed.

Lemma cell_answers_numbered requests : ∀ w, Forall cell_frame_ok requests →
  Forall2 (λ q a, cf_sequence a = cf_sequence q) requests (fst (cell_answers requests w)).
Proof.
  induction requests as [|r requests IH]; intros w Hr; cbn; [constructor|].
  apply Forall_cons in Hr as [Hr Hrs]. destruct (handled_ok r w Hr) as [_ Hs].
  destruct (cell_handle_request handler r w) as [a w1]. specialize (IH w1 Hrs).
  destruct (cell_answers requests w1). by constructor.
Qed.

(** The server answers every complete request of a client, in order and once each, with the
    handler's answer to it under the request's own number; the beginning of a further
    request is kept for the next [poll], however the network cut the bytes. *)
Theorem cell_requests_served_in_order buffer chunk sends requests part w :
  buffer ++ chunk = concat (map cell_wire requests) ++ part → chunk ≠ [] →
  Forall cell_frame_ok requests → part = [] ∨ part_of_frame part →
  (length requests ≤ length sends)%nat → Forall (eq (Ok ())) sends →
  let '(answers, w') := cell_answers requests w in
  service_client handler (ReadBytes chunk) sends buffer w = (Some (Kept part), map cell_wire answers, w') ∧
  Forall2 (λ q a, cf_sequence a = cf_sequence q) requests answers.
Proof.
  intros Hb Hc Hr Hp Hl Hs. pose proof (service_loop_serves part requests sends w [] Hr Hp Hl Hs) as Hloop.
  pose proof (cell_answers_numbered requests w Hr) as Hn. destruct (cell_answers requests w) as [answers w'].
  split; [|done]. destruct chunk; [done|]. cbn [service_client]. by rewrite Hb.
Qed.

End Serving.

(** ** The client against the server *)

(** The client's four calls, and what they answer. *)
Inductive CellOp := OpGetStatus | OpProbeCellIo | OpActivate | OpSubmitOutput (r : DigitalOutputRequest).

Inductive CellAnswer := StatusAnswer (s : CellAppStatus) | ReplyAnswer (r : CommandReply).

Definition cell_op_request (op : CellOp) : CellAppMessage :=
  match op with
  | OpGetStatus => CellMessage.GetStatus
  | OpProbeCellIo => CellMessage.ProbeCellIo
  | OpActivate => CellMessage.Activate
  | OpSubmitOutput _ => CellMessage.SubmitOutput
  end.

Definition cell_op_ack (op : CellOp) : CellAppMessage :=
  match op with
  | OpGetStatus => CellMessage.GetStatusAck
  | OpProbeCellIo => CellMessage.ProbeCellIoAck
  | OpActivate => CellMessage.ActivateAck
  | OpSubmitOutput _ => CellMessage.SubmitOutputAck
  end.

Definition cell_op_payload (op : CellOp) : list Z :=
  match op with OpSubmitOutput r => encode_cell_output_payload r | _ => [] end.

Definition cell_op_wf (op : CellOp) : Prop :=
  match op with OpSubmitOutput r => output_request_wf r | _ => True end.

Definition cell_op_frame (op : CellOp) (sequence : Z) : CellAppFrame :=
  mkCellFrame (cell_op_request op) sequence (cell_op_payload op).

(** The handler's own function for the call. *)
Definition cell_op_run {W} (handler : CellAppHandler W) (op : CellOp) (w : W) : CellAnswer * W :=
  match op with
  | OpGetStatus => let '(s, w) := h_status handler w in (StatusAnswer s, w)
  | OpProbeCellIo => let '(s, w) := h_probe_cell_io handler w in (StatusAnswer s, w)
  | OpActivate => let '(r, w) := h_activate handler w in (ReplyAnswer r, w)
  | OpSubmitOutput o => let '(r, w) := h_submit_output handler o w in (ReplyAnswer r, w)
  end.

Definition as_answer {T} (f : T → CellAnswer) (x : option (Result T) * CellAppClient * Kernel)
    : option (Result CellAnswer) * CellAppClient * Kernel :=
  let '(r, c, k) := x in ((λ r, let? v := r in Ok (f v)) <$> r, c, k).

Definition cell_call (op : CellOp) (timeout_ms : Z) (env : CellExchangeEnv) (c : CellAppClient) (k : Kernel)
    : option (Result CellAnswer) * CellAppClient * Kernel :=
  match op with
  | OpGetStatus => as_answer StatusAnswer (cell_get_status timeout_ms env c k)
  | OpProbeCellIo => as_answer StatusAnswer (cell_probe_cell_io timeout_ms env c k)
  | OpActivate => as_answer ReplyAnswer (cell_activate timeout_ms env c k)
  | OpSubmitOutput r => as_answer ReplyAnswer (cell_submit_output r timeout_ms env c k)
  end.

Lemma cell_op_frame_ok op sequence : is_u 16 sequence → cell_frame_ok (cell_op_frame op sequence).
Proof.
  intros Hs. assert (Hp : bytes_wf (cell_op_payload op)) by (destruct op; [by constructor..|apply cell_output_wf]).
  apply named_frame_ok; try done; destruct op; try done; cbn; unfold kCellAppMaxPayload; try lia.
Qed.

(** What the exchange returns when the answer frame arrives. *)
Lemma cell_exchange_receives op timeout env c k answer :
  fd_valid (cc_fd c) = true → is_u 16 (cc_next_sequence c) → cell_frame_ok answer →
  cf_type answer = cell_op_ack op →
  send_all (length (cell_wire (cell_op_frame op (cc_next_sequence c)))) 0 (ce_sends env) = Some (Ok ()) →
  arrives (ce_now env + timeout * 1000000) (cell_wire answer) (ce_turns env) →
  cell_exchange (cell_op_request op) (cell_op_ack op) (cell_op_payload op) timeout env c k =
    (Some (Ok answer), c <| cc_next_sequence := u16 (cc_next_sequence c + 1) |>, k).
Proof.
  intros Hfd Hs Ha Ht Hsend Harr. unfold cell_exchange. rewrite Hfd. cbn [negb].
  fold (cell_op_frame op (cc_next_sequence c)). rewrite encode_cell_wire, Hsend by by apply cell_op_frame_ok.
  destruct (readers_receive cell_app_protocol cell_reply_timeout cell_app_disconnected _ _ _ (proj1 Ha) Harr) as [Hr _].
  rewrite Hr. fold (cell_wire answer). rewrite <- (app_nil_r (cell_wire answer)), try_decode_cell_wire by done.
  cbn [fst]. rewrite Ht, (bool_decide_eq_true_2 (cell_op_ack op = cell_op_ack op)) by done. by destruct op.
Qed.

Lemma payload_answer {T} (decode : list Z → Result T) (f : T → CellAnswer) x frame c k v :
  x = (Some (Ok frame), c, k) → decode (cf_payload frame) = Ok v →
  as_answer f (with_payload decode x) = (Some (Ok (f v)), c, k).
Proof. intros -> Hv. cbn. by rewrite Hv. Qed.

Section Composition.
Context {W : Type} (handler : CellAppHandler W) `{!CellHandlerOk handler}.
Implicit Type w : W.

(** The answer frame to a call is its acknowledgement and decodes to the handler's value. *)
Lemma handled_op op sequence timeout env c k w :
  cell_op_wf op → let '(a, w') := cell_op_run handler op w in
  snd (cell_handle_request handler (cell_op_frame op sequence) w) = w' ∧
  let answer := fst (cell_handle_request handler (cell_op_frame op sequence) w) in
  cf_type answer = cell_op_ack op ∧
  (∀ c' k', cell_exchange (cell_op_request op) (cell_op_ack op) (cell_op_payload op) timeout env c k =
      (Some (Ok answer), c', k') →
    cell_call op timeout env c k = (Some (Ok a), c', k')).
Proof.
  intros Hop. pose proof (h_status_ok w) as H1. pose proof (h_probe_ok w) as H2. pose proof (h_activate_ok w) as H3.
  destruct op as [| | |r]; unfold cell_handle_request; cbn [cell_op_run cell_op_frame cf_type cf_payload
    cell_op_request cell_op_ack cell_op_payload cell_call];
    [destruct (h_status handler w) as [s w']|destruct (h_probe_cell_io handler w) as [s w']|
     destruct (h_activate handler w) as [r w']|
     rewrite cell_output_decodes by done; pose proof (h_submit_ok r w) as H4;
     destruct (h_submit_output handler r w) as [a w']];
    cbn [fst snd] in *; (split_and!; [done|done|]); intros c' k' He; eapply payload_answer; try exact He.
  1-2: by apply cell_status_decodes.
  1-2: by apply cell_reply_decodes.
Qed.

(** C20.  A call of the engineering client is a call of the handler: when the request's bytes
    reach the server and the answer's bytes come back before the deadline, cut up in any
    way, the server runs the handler's function once and the client returns its value,
    stays connected and moves to the next number. *)
Theorem cell_client_drives_handler op timeout env c k w sends :
  cell_op_wf op → fd_valid (cc_fd c) = true → is_u 16 (cc_next_sequence c) →
  let request := cell_op_frame op (cc_next_sequence c) in
  let answer := fst (cell_handle_request handler request w) in
  hd_error sends = Some (Ok ()) →
  send_all (length (cell_wire request)) 0 (ce_sends env) = Some (Ok ()) →
  arrives (ce_now env + timeout * 1000000) (cell_wire answer) (ce_turns env) →
  let '(a, w') := cell_op_run handler op w in
  service_client handler (ReadBytes (cell_wire request)) sends [] w = (Some (Kept []), [cell_wire answer], w') ∧
  cell_call op timeout env c k = (Some (Ok a), c <| cc_next_sequence := u16 (cc_next_sequence c + 1) |>, k).
Proof.
  intros Hop Hfd Hs request answer Hhd Hsend Harr.
  pose proof (cell_op_frame_ok op (cc_next_sequence c) Hs) as Hq.
  pose proof (handled_op op (cc_next_sequence c) timeout env c k w Hop) as Hh.
  destruct (handled_ok handler request w Hq) as [Hok _].
  destruct (cell_op_run handler op w) as [a w']. destruct Hh as (Hw & Ht & Hcall).
  split; [|by apply Hcall, (cell_exchange_receives op timeout env c k answer)].
  destruct sends as [|x sends]; [done|]. injection Hhd as ->.
  destruct (cell_wire request) as [|b l] eqn:Hb; [by apply cell_wire_nonempty in Hb|].
  cbn [service_client service_loop app]. rewrite <- Hb, <- (app_nil_r (cell_wire request)), try_decode_cell_wire by done.
  rewrite drop_app_length. unfold answer. destruct (cell_handle_request handler request w) as [a' w1] eqn:He.
  cbn [fst] in Hok. rewrite encode_cell_wire by done. cbn [fst]. unfold request in He. rewrite He in Hw. cbn in Hw.
  subst. by destruct sends.
Qed.

End Composition.

Lemma cell_disconnect_valid c k : fd_valid (cc_fd c) = true →
  cell_disconnect c k = (c <| cc_fd := -1 |>, k_close (cc_fd c) k).
Proof. intros Hfd. unfold cell_disconnect, fd_reset. by rewrite Hfd. Qed.

(** The client never takes a late answer for a later request: an exchange leaves the
    connection open only after a whole acknowledgement of the right kind or a whole
    ERROR frame; after a send failure, a timeout, a disconnection, a broken frame or an
    unexpected message the descriptor is closed, and every call until the next [connect]
    is refused. *)
Theorem cell_client_in_step op timeout env c k r c' k' :
  fd_valid (cc_fd c) = true → is_u 16 (cc_next_sequence c) →
  cell_exchange (cell_op_request op) (cell_op_ack op) (cell_op_payload op) timeout env c k = (Some r, c', k') →
  let reply := read_frame cell_app_protocol cell_reply_timeout cell_app_disconnected
                 (ce_now env + timeout * 1000000) [] (ce_turns env) in
  (cc_fd c' = cc_fd c ∧ k' = k ∧ ∃ raw frame, reply = Some (Ok raw) ∧
     fst (try_decode_cell_app_frame raw) = Ok frame ∧
     (cf_type frame = cell_op_ack op ∧ r = Ok frame ∨
      cf_type frame = CellMessage.Error ∧ r = fail_with Errc.Rejected "cell app returned ERROR")) ∨
  (k' = k_close (cc_fd c) k ∧ (∃ e, r = Err e) ∧
   ∀ op timeout env k, cell_exchange (cell_op_request op) (cell_op_ack op) (cell_op_payload op) timeout env c' k =
     (Some (fail_with Errc.NotOpen "cell client not connected"), c', k)).
Proof.
  intros Hfd Hs. unfold cell_exchange at 1. rewrite Hfd. cbn [negb].
  fold (cell_op_frame op (cc_next_sequence c)). rewrite encode_cell_wire by by apply cell_op_frame_ok.
  rewrite cell_disconnect_valid by done.
  destruct (send_all _ _ _) as [[|e]|]; [|intros [= <- <- <-]; right; eauto 6|done].
  destruct (read_frame _ _ _ _ _ _) as [[raw|e]|]; [|intros [= <- <- <-]; right; eauto 6|done].
  destruct (fst (try_decode_cell_app_frame raw)) as [frame|e] eqn:Hd; [|intros [= <- <- <-]; right; eauto 6].
  case_bool_decide as He; [intros [= <- <- <-]; left; cbn; eauto 12|].
  case_bool_decide as Ha; cbn [negb]; intros [= <- <- <-]; [left|right]; cbn; eauto 12.
Qed.

(** ** Concrete runs *)

(** A handler that records the outputs it is asked for. *)
Definition demo_reply (m : string) : CommandReply :=
  mkCommandReply CommandStatus.Accepted RuntimeModeCode.Idle RuntimeModeCode.Active m.

Definition demo_handler : CellAppHandler (list DigitalOutputRequest) :=
  mkCellHandler _ (λ w, (demo_cell_status, w)) (λ w, (demo_cell_status, w))
    (λ w, (demo_reply "activated", w)) (λ r w, (demo_reply "queued", w ++ [r])).

#[export] Instance demo_handler_ok : CellHandlerOk demo_handler.
Proof.
  assert (Hs : cell_status_wf demo_cell_status) by (unfold cell_status_wf, is_byte; split_and!; done).
  assert (Hr : ∀ m, (String.length m ≤ 252)%nat → command_reply_wf (demo_reply m))
    by (intros m Hm; unfold command_reply_wf, mode_named, is_byte; split_and!; done).
  split; cbn; intros; try done; apply Hr; cbn; lia.
Qed.

Definition demo_output : DigitalOutputRequest := mkDigitalOutputRequest (2 ^ 40) 7 250 1 1.
Definition demo_cell_client : CellAppClient := mkCellClient 4 "127.0.0.1" 7000 65535.
Definition demo_submit : CellAppFrame := cell_op_frame (OpSubmitOutput demo_output) 65535.
Definition demo_kernel : Kernel := mkKernel (list_to_set [3; 4]) false.

Lemma demo_submit_ok : cell_frame_ok demo_submit.
Proof. by apply cell_op_frame_ok. Qed.

(** Two clients at once: one is served, one has just been accepted. *)
Definition demo_server : CellAppServer := mkCellServer 3 [mkClientSession 4 []] 7000.
Definition demo_poll : PollEnv :=
  mkPollEnv (PollEvents [POLLIN; POLLIN]) [AcceptErrno EINTR; AcceptFd 5; AcceptErrno EAGAIN]
    (λ _, (ReadBytes (cell_wire demo_submit), [Ok ()])).

Lemma poll_reads_past_pollfds_witness :
  fst (cell_poll demo_handler demo_poll (demo_server, demo_kernel, [], [])) = OutOfBounds.
Proof.
  destruct (accept_pending (pe_accepts demo_poll) demo_server demo_kernel) as [[r s'] k'] eqn:Ha.
  assert (Hr : r = Some (Ok ()) ∧ length (sv_clients s') = 2%nat) by (vm_compute in Ha; by injection Ha as <- <- <-).
  destruct Hr as [-> Hl].
  apply (poll_reads_past_pollfds demo_handler demo_poll demo_server demo_kernel [] [] [POLLIN; POLLIN] s' k').
  - reflexivity.
  - reflexivity.
  - reflexivity.
  - exact Ha.
  - rewrite Hl. cbn. lia.
Defined.

(** A whole request and the first bytes of another, behind bytes kept from before. *)
Lemma cell_requests_served_in_order_witness :
  service_client demo_handler
    (ReadBytes (drop 5 (cell_wire demo_submit) ++ take 6 (cell_wire demo_submit))) [Ok ()]
    (take 5 (cell_wire demo_submit)) [] =
  (Some (Kept (take 6 (cell_wire demo_submit))),
   [cell_wire (mkCellFrame CellMessage.SubmitOutputAck 65535 (encode_cell_command_reply (demo_reply "queued")))],
   [demo_output]).
Proof.
  pose proof (cell_requests_served_in_order demo_handler (take 5 (cell_wire demo_submit))
    (drop 5 (cell_wire demo_submit) ++ take 6 (cell_wire demo_submit)) [Ok ()] [demo_submit]
    (take 6 (cell_wire demo_submit)) []) as H.
  destruct H as [H _].
  - cbn [map concat]. by rewrite app_assoc, take_drop, app_nil_r.
  - vm_compute. discriminate.
  - constructor; [apply demo_submit_ok|constructor].
  - right. exists demo_submit, (drop 6 (cell_wire demo_submit)). split_and!; [apply demo_submit_ok| |].
    + by rewrite take_drop.
    + vm_compute. discriminate.
  - cbn. lia.
  - repeat constructor.
  - exact H.
Defined.

Definition demo_cell_answer : CellAppFrame := fst (cell_handle_request demo_handler demo_submit []).
Definition demo_cell_env : CellExchangeEnv :=
  mkCellExchangeEnv [Wrote 9; WriteErrno EINTR; Wrote 90] 0 (one_turn 9 (cell_wire demo_cell_answer)).

Lemma cell_client_drives_handler_witness :
  cell_submit_output demo_output 300 demo_cell_env demo_cell_client demo_kernel =
    (Some (Ok (demo_reply "queued")), mkCellClient 4 "127.0.0.1" 7000 0, demo_kernel).
Proof.
  pose proof (cell_client_drives_handler demo_handler (OpSubmitOutput demo_output) 300 demo_cell_env
    demo_cell_client demo_kernel [] [Ok ()]) as H.
  destruct H as [_ H].
  - unfold cell_op_wf, output_request_wf, is_u. split_and!; vm_compute; done.
  - reflexivity.
  - done.
  - reflexivity.
  - vm_compute. reflexivity.
  - apply one_turn_arrives; vm_compute; done.
  - cbn [cell_call] in H.
    destruct (cell_submit_output demo_output 300 demo_cell_env demo_cell_client demo_kernel) as [[r c'] k'].
    injection H as Hr -> ->. destruct r as [[v|]|]; try done. by injection Hr as ->.
Defined.

(** The request timed out: the client is closed, the late answer cannot reach it. *)
Definition demo_late : CellExchangeEnv :=
  mkCellExchangeEnv [Wrote 99] 0 [mkRxTurn 0 0 PollTimeout (ReadBytes [])].

Lemma cell_client_in_step_witness :
  let '(r, c, k) := cell_activate 300 demo_late demo_cell_client demo_kernel in
  r = Some (Err cell_reply_timeout) ∧ k = k_close 4 demo_kernel ∧
  fst (fst (cell_activate 300 demo_cell_env c k)) = Some (fail_with Errc.NotOpen "cell client not connected").
Proof.
  destruct (cell_client_in_step OpActivate 300 demo_late demo_cell_client demo_kernel
    (Err cell_reply_timeout) (mkCellClient (-1) "127.0.0.1" 7000 0) (k_close 4 demo_kernel)) as [H|H].
  - reflexivity.
  - done.
  - vm_compute. reflexivity.
  - exfalso. destruct H as [H _]. discriminate.
  - destruct H as (_ & _ & H). split; [vm_compute; reflexivity|]. split; [vm_compute; reflexivity|].
    exact (f_equal (λ x, fst (fst (with_payload decode_cell_command_reply x)))
      (H OpActivate 300 demo_cell_env (k_close 4 demo_kernel))).
Defined.
