(* ===== verification/Descriptors.v ===== *)
(** * Descriptors of a process

    Programs that own several descriptors close each of them once, on every path out.
    [close_fds] is a sequence of destructors; [accounted] says which descriptors a process
    holds beyond those it started with. *)

From stdpp Require Import gmap.
From S2P Require Import Prelude LinuxIo.
Local Open Scope Z_scope.

(** The destructors that run when the objects leave their scope. *)
Definition close_fds (fds : list Z) (k : Kernel) : Kernel := foldl (λ k fd, snd (fd_reset fd k)) k fds.

Definition live_fds (fds : list Z) : list Z := filter (λ fd, fd_valid fd = true) fds.

(** Beyond the descriptors of [base], exactly the valid ones of [fds] are open, and no close
    has hit a descriptor that was not. *)
Record accounted (base : Kernel) (fds : list Z) (k : Kernel) : Prop := {
  ac_open : k_open k = k_open base ∪ list_to_set (live_fds fds);
  ac_nodup : NoDup (live_fds fds);
  ac_new : ∀ fd, fd ∈ live_fds fds → fd ∉ k_open base;
  ac_close : k_bad_close k = k_bad_close base
}.

Lemma accounted_perm base fds fds' k : fds ≡ₚ fds' → accounted base fds k → accounted base fds' k.
Proof.
  intros Hp [Ho Hn Hf Hb]. assert (Hl : live_fds fds ≡ₚ live_fds fds') by (unfold live_fds; by rewrite Hp).
  constructor; [|by rewrite <- Hl| |done].
  - rewrite Ho. f_equal. apply set_eq. intros x. by rewrite !elem_of_list_to_set, Hl.
  - intros fd Hfd. apply Hf. by rewrite Hl.
Qed.

Lemma accounted_nil base : accounted base [] base.
Proof. constructor; cbn; [set_solver|constructor|set_solver|done]. Qed.

Lemma accounted_done base k : accounted base [] k → k = base.
Proof.
  intros [Ho _ _ Hb]. destruct k, base. cbn in *. f_equal; [|done]. set_solver.
Qed.

Definition fd_of (answer : option Z) : Z := match answer with Some fd => fd | None => -1 end.

Lemma accounted_create base fds k answer :
  accounted base fds k → fresh_answer answer k → accounted base (fd_of answer :: fds) (k_create answer k).
Proof.
  intros [Ho Hn Hf Hb] Ha. destruct answer as [fd|]; [|by constructor]. destruct (Ha fd eq_refl) as [Hpos Hnew].
  assert (Hl : live_fds (fd_of (Some fd) :: fds) = fd :: live_fds fds).
  { unfold live_fds. rewrite filter_cons_True; [done|]. by apply Z.leb_le. }
  rewrite Ho in Hnew. constructor; rewrite ?Hl; cbn; [rewrite Ho; set_solver|constructor; set_solver|set_solver|done].
Qed.

Lemma accounted_close base fd fds k :
  accounted base (fd :: fds) k → accounted base fds (snd (fd_reset fd k)).
Proof.
  intros [Ho Hn Hf Hb]. unfold fd_reset. destruct (fd_valid fd) eqn:Hv.
  - assert (Hl : live_fds (fd :: fds) = fd :: live_fds fds) by (unfold live_fds; by rewrite filter_cons_True).
    rewrite Hl in *. apply NoDup_cons in Hn as [Hni Hn]. cbn [snd].
    rewrite k_close_open by (rewrite Ho; set_solver). constructor; cbn; [|done|set_solver|done].
    specialize (Hf fd ltac:(set_solver)). rewrite Ho. set_solver.
  - assert (Hl : live_fds (fd :: fds) = live_fds fds) by (unfold live_fds; rewrite filter_cons_False; [done|by rewrite Hv]).
    rewrite Hl in *. by constructor.
Qed.

Lemma accounted_close_all base fds : ∀ rest k,
  accounted base (fds ++ rest) k → accounted base rest (close_fds fds k).
Proof.
  induction fds as [|fd fds IH]; intros rest k Ha; [done|]. cbn. by apply IH, accounted_close.
Qed.

(** A descriptor that was reset holds nothing. *)
Lemma accounted_reset base fd fds k :
  accounted base (fd :: fds) k → accounted base (fst (fd_reset fd k) :: fds) (snd (fd_reset fd k)).
Proof.
  intros Ha. pose proof (accounted_close _ _ _ _ Ha) as [Ho Hn Hf Hb]. revert Ho Hn Hf Hb. unfold fd_reset.
  destruct (fd_valid fd); [|done]. cbn [fst snd]. by constructor.
Qed.

(** Opening a CAN socket: it is held, or nothing happened. *)
Lemma accounted_open base env name k :
  k = base → fresh_answer (oe_socket env) k →
  match sc_open env (sc_new name) k with
  | ((_, k'), Err _) => k' = base
  | ((bus, k'), Ok _) => accounted base [sc_fd bus] k'
  end.
Proof.
  intros -> Hf. unfold sc_open. case_bool_decide; [done|]. change (sc_is_open (sc_new name)) with false.
  pose proof (accounted_create base [] base _ (accounted_nil base) Hf) as Hc.
  destruct (oe_socket env) as [fd|]; [|done]. destruct (Hf fd eq_refl) as [_ Hnew].
  destruct (oe_ioctl env); cbn [negb]; [|by apply k_create_close].
  destruct (oe_bind env); cbn [negb]; [exact Hc|by apply k_create_close].
Qed.
