(* ===== verification/CommandLine.v ===== *)
(** * Numbers on the command line

    What the programs under src/linux/apps and src/experiments read numbers with:
    [std::stoul] and [std::stoll] in base ten behind parse_u32 and parse_i64, and
    [std::from_chars]. A text is the list of its characters' codes. *)

From stdpp Require Import pretty.
From S2P Require Import Prelude Bytes.
Local Open Scope Z_scope.

(** ** Characters and digits *)

Definition is_space (b : Z) : bool := (b =? 32) || ((9 <=? b) && (b <=? 13)).
Definition is_digit (b : Z) : bool := (48 <=? b) && (b <=? 57).

Fixpoint skip_space (l : list Z) : list Z :=
  match l with
  | b :: rest => if is_space b then skip_space rest else l
  | [] => []
  end.

Fixpoint read_digits (l : list Z) (acc : Z) : Z * list Z :=
  match l with
  | b :: rest => if is_digit b then read_digits rest (acc * 10 + (b - 48)) else (acc, l)
  | [] => (acc, [])
  end.

(** Digits, at least one: their value and what is left. *)
Definition digits (l : list Z) : option (Z * list Z) :=
  match l with
  | b :: _ => if is_digit b then Some (read_digits l 0) else None
  | [] => None
  end.

(** The sign in front of the digits. *)
Definition read_sign (l : list Z) : bool * list Z :=
  match l with
  | b :: rest => if b =? 43 then (false, rest) else if b =? 45 then (true, rest) else (false, l)
  | [] => (false, [])
  end.

(** ** The library's readers *)

(** [std::stoul]: blanks, a sign and digits; the value and what is left, [None] when it
    throws. *)
Definition stoul (l : list Z) : option (Z * list Z) :=
  let '(negative, l) := read_sign (skip_space l) in
  match digits l with
  | Some (v, rest) =>
      if 2 ^ 64 <=? v then None else Some (if negative : bool then u64 (- v) else v, rest)
  | None => None
  end.

(** [std::stoll]: the same, in the range of 64-bit signed integers. *)
Definition stoll (l : list Z) : option (Z * list Z) :=
  let '(negative, l) := read_sign (skip_space l) in
  match digits l with
  | Some (v, rest) =>
      let v := if negative : bool then - v else v in
      if (v <? - 2 ^ 63) || (2 ^ 63 <=? v) then None else Some (v, rest)
  | None => None
  end.

(** [std::from_chars] on a 64-bit signed integer: no blanks, and no sign but [-]. *)
Definition from_chars (l : list Z) : option (Z * list Z) :=
  let '(negative, l) :=
    match l with b :: rest => if b =? 45 then (true, rest) else (false, l) | [] => (false, []) end in
  match digits l with
  | Some (v, rest) =>
      let v := if negative : bool then - v else v in
      if (v <? - 2 ^ 63) || (2 ^ 63 <=? v) then None else Some (v, rest)
  | None => None
  end.

(** ** The programs' readers: the whole text is the number *)

Definition whole {A} (r : option (A * list Z)) : option A :=
  match r with Some (v, []) => Some v | _ => None end.

Definition parse_u32 (text : list Z) : option Z :=
  match whole (stoul text) with
  | Some parsed => if 0xFFFFFFFF <? parsed then None else Some parsed
  | None => None
  end.

(** parse_i64 of rcrd.cpp and rcr_node_sim.cpp. *)
Definition parse_i64 (text : list Z) : option Z := whole (stoll text).

(** parse_i64 of the observer and the sensor server. *)
Definition parse_chars_i64 (text : list Z) : option Z := whole (from_chars text).

(** [!parse_i64(value, v) || v < lo || v > hi] refuses the option. *)
Definition parse_ranged (lo hi : Z) (value : string) : option Z :=
  match parse_i64 (str_bytes value) with
  | Some v => if (v <? lo) || (hi <? v) then None else Some v
  | None => None
  end.

(** [rfind]: the last place of the character. *)
Fixpoint rfind (b : Z) (l : list Z) : option nat :=
  match l with
  | [] => None
  | x :: l => match rfind b l with
              | Some i => Some (S i)
              | None => if x =? b then Some 0%nat else None
              end
  end.

(** ** Ranges *)

Lemma read_digits_nonneg l : ∀ acc, 0 ≤ acc → 0 ≤ fst (read_digits l acc).
Proof.
  induction l as [|b l IH]; intros acc Ha; cbn; [done|]. destruct (is_digit b) eqn:Hb; [|done].
  apply IH. unfold is_digit in Hb. lia.
Qed.

Lemma digits_nonneg l v rest : digits l = Some (v, rest) → 0 ≤ v.
Proof.
  unfold digits. destruct l as [|b l]; [done|]. destruct (is_digit b); [|done].
  intros Hd. injection Hd as Hd. change (read_digits (b :: l) 0 = (v, rest)) in Hd. pose proof (read_digits_nonneg (b :: l) 0 ltac:(lia)) as Hp. by rewrite Hd in Hp.
Qed.

Lemma parse_u32_range text v : parse_u32 text = Some v → 0 ≤ v ≤ 0xFFFFFFFF.
Proof.
  unfold parse_u32, whole. destruct (stoul text) as [[p rest]|] eqn:Hs; [|done]. destruct rest; [|done].
  destruct (Z.ltb_spec 0xFFFFFFFF p); [done|]. intros [= <-]. split; [|lia].
  unfold stoul in Hs. destruct (read_sign _) as [negative l].
  destruct (digits l) as [[d r]|] eqn:Hd; [|done]. apply digits_nonneg in Hd.
  destruct (2 ^ 64 <=? d); [done|]. destruct negative; simplify_eq; [apply u64_range|lia].
Qed.

Lemma parse_i64_range text v : parse_i64 text = Some v → is_i64 v.
Proof.
  unfold parse_i64, whole, stoll. destruct (read_sign _) as [negative l].
  destruct (digits l) as [[d r]|]; [|done]. destruct (_ || _) eqn:Hr; [done|].
  destruct r; [|done]. intros [= <-]. apply orb_false_iff in Hr as [??]. unfold is_i64. lia.
Qed.

Lemma parse_ranged_range lo hi value v : parse_ranged lo hi value = Some v → lo ≤ v ≤ hi.
Proof.
  unfold parse_ranged. destruct (parse_i64 _); [|done]. destruct (_ || _) eqn:Hr; [done|].
  intros [= <-]. apply orb_false_iff in Hr as [??]. lia.
Qed.

(** ** Decimal text is read back *)

Lemma pretty_char_digit (d : N) : (d < 10)%N → char_byte (pretty_N_char d) = 48 + Z.of_N d.
Proof.
  intros. assert (d = 0 ∨ d = 1 ∨ d = 2 ∨ d = 3 ∨ d = 4 ∨ d = 5 ∨ d = 6 ∨ d = 7 ∨ d = 8 ∨ d = 9)%N as Hd by lia.
  by repeat (destruct Hd as [->|Hd]); [..|subst d].
Qed.

Lemma is_digit_of d : (d < 10)%N → is_digit (48 + Z.of_N d) = true.
Proof. intros. unfold is_digit. lia. Qed.

Lemma read_digits_go (x : N) : ∀ s,
  read_digits (str_bytes (pretty_N_go x s)) 0 = read_digits (str_bytes s) (Z.of_N x).
Proof.
  induction (N.lt_wf_0 x) as [x _ IH]; intros s. destruct (decide (0 < x)%N) as [Hx|Hx]; cycle 1.
  { assert (x = 0)%N as -> by lia. by rewrite pretty_N_go_0. }
  rewrite pretty_N_go_step by done. rewrite IH by (apply N.div_lt; lia).
  assert (Hm : (x mod 10 < 10)%N) by (apply N.mod_lt; lia).
  cbn [str_bytes String.list_ascii_of_string map read_digits]. rewrite pretty_char_digit, is_digit_of by done.
  f_equal. rewrite N2Z.inj_div, N2Z.inj_mod. pose proof (Z.div_mod (Z.of_N x) 10). lia.
Qed.

(** The first character of a number is a digit. *)
Lemma pretty_go_head (x : N) : ∀ s,
  (0 < x)%N ∨ (∃ b l, str_bytes s = b :: l ∧ is_digit b = true) →
  ∃ b l, str_bytes (pretty_N_go x s) = b :: l ∧ is_digit b = true.
Proof.
  induction (N.lt_wf_0 x) as [x _ IH]; intros s Hs. destruct (decide (0 < x)%N) as [Hx|Hx]; cycle 1.
  { assert (x = 0)%N as -> by lia. rewrite pretty_N_go_0. by destruct Hs. }
  rewrite pretty_N_go_step by done. apply IH; [apply N.div_lt; lia|]. right.
  assert (Hm : (x mod 10 < 10)%N) by (apply N.mod_lt; lia).
  eexists _, _. split; [reflexivity|]. rewrite pretty_char_digit by done. by apply is_digit_of.
Qed.

Lemma digits_pretty (x : N) : ∃ b l, str_bytes (pretty x) = b :: l ∧ is_digit b = true ∧
  digits (b :: l) = Some (Z.of_N x, []).
Proof.
  unfold pretty, pretty_N. case_decide as Hx; [subst; by eexists _, _|].
  destruct (pretty_go_head x "") as (b & l & He & Hb); [left; lia|]. exists b, l. split_and!; [done..|].
  unfold digits. rewrite Hb, <- He. by rewrite read_digits_go.
Qed.

(** A printed integer starts with its sign, or with a digit. *)
Lemma signed_pretty (n : Z) : ∃ l, digits l = Some (Z.abs n, []) ∧
  str_bytes (pretty n) = (if n <? 0 then 45 :: l else l) ∧
  (∃ b r, l = b :: r ∧ is_digit b = true).
Proof.
  destruct n as [|p|p].
  - by exists [48]; split_and!; [..|exists 48, []].
  - destruct (digits_pretty (Npos p)) as (b & l & He & Hb & Hd). exists (b :: l). split_and!; [done|done|by eexists _, _].
  - destruct (digits_pretty (Npos p)) as (b & l & He & Hb & Hd). exists (b :: l). split_and!; [done| |by eexists _, _].
    change (str_bytes (pretty (Z.neg p))) with (45 :: str_bytes (pretty (Npos p))). by rewrite He.
Qed.

(** What a number prints as is read back as that number by each of the readers. *)
Theorem number_round_trip (n : Z) :
  is_i64 n →
  parse_i64 (str_bytes (pretty n)) = Some n ∧ parse_chars_i64 (str_bytes (pretty n)) = Some n ∧
  (0 ≤ n ≤ 0xFFFFFFFF → parse_u32 (str_bytes (pretty n)) = Some n).
Proof.
  intros Hn. destruct (signed_pretty n) as (l & Hd & He & b & r & -> & Hb). rewrite He.
  assert (Hs : is_space b = false ∧ (b =? 43) = false ∧ (b =? 45) = false)
    by (unfold is_digit in Hb; unfold is_space; lia). destruct Hs as (Hs & H3 & H5).
  unfold is_i64 in Hn. unfold parse_i64, parse_chars_i64, parse_u32, stoll, stoul, from_chars, read_sign.
  destruct (Z.ltb_spec n 0) as [Hneg|Hpos].
  - change (skip_space (45 :: b :: r)) with (45 :: b :: r). cbn [Z.eqb Pos.eqb]. rewrite Hd.
    rewrite Z.abs_neq, Z.opp_involutive by lia. destruct (_ || _) eqn:Hr; [lia|]. split_and!; [done..|lia].
  - cbn [skip_space]. rewrite Hs, H3, H5, Hd, Z.abs_eq by lia. destruct (_ || _) eqn:Hr; [lia|].
    split_and!; [done..|]. intros. rewrite (proj2 (Z.leb_gt _ _)) by lia. cbn [whole].
    by rewrite (proj2 (Z.ltb_ge _ _)) by lia.
Qed.
