(* ===== verification/NodeSimApp.v ===== *)
(** * The node simulator

    apps/rcr_node_sim.cpp: the process that puts [CanNodeLogic] on a CAN interface.  One
    thread waits for the CAN socket, a signal descriptor and five timers; fault injection
    can delay answers, restart the node, send a bad frame or stop the heartbeat.  The
    kernel answers as arguments: descriptors, clock readings, received frames, and for a
    timer the moment it was set. *)

From stdpp Require Import gmap sorting.
From S2P Require Import Prelude Types CanV1 NodeSim LinuxIo Descriptors Bytes CommandLine.
Local Open Scope Z_scope.

(** ** Options *)

Record Options := mkOptions {
  so_can_if : string;
  so_node_id : Z;
  so_heartbeat_ms : Z;
  so_duration_ms : Z;
  so_boot_id : Z;
  so_session_id : Z;
  so_interlock_ready : bool;
  so_input_bits : Z;
  so_fault_stop_heartbeat : bool;
  so_fault_delay_response_ms : Z;
  so_fault_restart_after_ms : Z;
  so_fault_send_illegal_after_ms : Z
}.

#[export] Instance Options_eta : Eta Options :=
  mkEta _ (fun o => mkOptions (so_can_if o) (so_node_id o) (so_heartbeat_ms o) (so_duration_ms o) (so_boot_id o)
    (so_session_id o) (so_interlock_ready o) (so_input_bits o) (so_fault_stop_heartbeat o)
    (so_fault_delay_response_ms o) (so_fault_restart_after_ms o) (so_fault_send_illegal_after_ms o)).

Definition default_options : Options := mkOptions "vcan0" 1 100 0 1 1 true 0 false 0 0 0.

Definition parse_u16 (value : string) : option Z := u16 <$> parse_ranged 0 65535 value.

(** An option that takes a value; [None] refuses the command line. *)
Definition set_option (arg value : string) (o : Options) : option Options :=
  if (arg =? "--can")%string then Some (o <| so_can_if := value |>)
  else if (arg =? "--node-id")%string then
    match parse_ranged 1 31 value with Some v => Some (o <| so_node_id := u8 v |>) | None => None end
  else if (arg =? "--heartbeat-ms")%string then
    match parse_ranged 1 60000 value with Some v => Some (o <| so_heartbeat_ms := v |>) | None => None end
  else if (arg =? "--duration-ms")%string then
    match parse_ranged 0 86400000 value with Some v => Some (o <| so_duration_ms := v |>) | None => None end
  else if (arg =? "--boot-id")%string then
    match parse_u16 value with
    | Some v => if v =? 0 then None else Some (o <| so_boot_id := v |>)
    | None => None
    end
  else if (arg =? "--session-id")%string then
    match parse_u16 value with
    | Some v => if v =? 0 then None else Some (o <| so_session_id := v |>)
    | None => None
    end
  else if (arg =? "--interlock")%string then
    match parse_i64 (str_bytes value) with
    | Some v => if negb (v =? 0) && negb (v =? 1) then None else Some (o <| so_interlock_ready := v =? 1 |>)
    | None => None
    end
  else if (arg =? "--input-bits")%string then
    match parse_u16 value with Some v => Some (o <| so_input_bits := v |>) | None => None end
  else if (arg =? "--fault-delay-response-ms")%string then
    match parse_ranged 0 60000 value with
    | Some v => Some (o <| so_fault_delay_response_ms := v |>) | None => None
    end
  else if (arg =? "--fault-restart-after-ms")%string then
    match parse_ranged 0 86400000 value with
    | Some v => Some (o <| so_fault_restart_after_ms := v |>) | None => None
    end
  else if (arg =? "--fault-send-illegal-after-ms")%string then
    match parse_ranged 0 86400000 value with
    | Some v => Some (o <| so_fault_send_illegal_after_ms := v |>) | None => None
    end
  else None.

Fixpoint parse_options (args : list string) (o : Options) : option Options :=
  match args with
  | [] => Some o
  | arg :: rest =>
      if (arg =? "--fault-stop-heartbeat")%string then parse_options rest (o <| so_fault_stop_heartbeat := true |>)
      else if (arg =? "--help")%string || (arg =? "-h")%string then None
      else match rest with
           | [] => None
           | value :: rest =>
               match set_option arg value o with
               | Some o => parse_options rest o
               | None => None
               end
           end
  end.

(** ** Timers *)

Record itimerspec := mkItimerspec { it_interval : timespec; it_value : timespec }.

Definition ms_timespec (ms : Z) : timespec := mkTimespec (Z.quot ms 1000) (Z.rem ms 1000 * 1000000).
Definition zero_timespec : timespec := mkTimespec 0 0.

(** A new timer: the answers of [timerfd_create] and [timerfd_settime]; -1 is the empty
    [OwnedFd], and a timer that cannot be set is closed. *)
Definition open_timer (spec : itimerspec) (answer : option Z) (settime : bool) (k : Kernel)
    : (Z * itimerspec) * Kernel :=
  match answer with
  | None => ((-1, spec), k)
  | Some fd =>
      let k := k_create answer k in
      if negb settime then ((-1, spec), k_close fd k) else ((fd, spec), k)
  end.

Definition make_periodic_timerfd (interval_ms : Z) (answer : option Z) (settime : bool) (k : Kernel)
    : (Z * itimerspec) * Kernel :=
  open_timer (mkItimerspec (ms_timespec interval_ms) (ms_timespec interval_ms)) answer settime k.

Definition make_oneshot_timerfd (delay_ms : Z) (answer : option Z) (settime : bool) (k : Kernel)
    : (Z * itimerspec) * Kernel :=
  if delay_ms <=? 0 then ((-1, mkItimerspec zero_timespec zero_timespec), k)
  else open_timer (mkItimerspec zero_timespec (ms_timespec delay_ms)) answer settime k.

(** [make_signalfd]: the answers of [sigprocmask] and [signalfd]. *)
Definition make_signalfd (mask_ok : bool) (answer : option Z) (k : Kernel) : Z * Kernel :=
  if negb mask_ok then (-1, k)
  else (match answer with Some fd => fd | None => -1 end, k_create answer k).

(** ** The process *)

Record PendingCommand := mkPending { pc_command : WireOutputCommand; pc_receive_ns : Z; pc_due_ns : Z }.

Record SimFds := mkSimFds {
  sf_signal : Z;
  sf_heartbeat : Z;
  sf_duration : Z;
  sf_restart : Z;
  sf_illegal : Z;
  sf_delay : Z
}.

#[export] Instance SimFds_eta : Eta SimFds :=
  mkEta _ (fun f => mkSimFds (sf_signal f) (sf_heartbeat f) (sf_duration f) (sf_restart f) (sf_illegal f) (sf_delay f)).

(** [si_tx]: the frames handed to [write] with what became of them, oldest first.
    [si_expiry]: when the deadline timer, as last set, expires; [None]: disarmed. *)
Record Sim := mkSim {
  si_node : CanNodeLogic;
  si_pending : list PendingCommand;
  si_bus : SocketCan;
  si_tx : list (CanFrame * Result ());
  si_expiry : option Z;
  si_settimes : nat;
  si_heartbeat_sends : Z;
  si_fds : SimFds;
  si_reactor : EpollReactor;
  si_kernel : Kernel
}.

#[export] Instance Sim_eta : Eta Sim :=
  mkEta _ (fun s => mkSim (si_node s) (si_pending s) (si_bus s) (si_tx s) (si_expiry s) (si_settimes s)
    (si_heartbeat_sends s) (si_fds s) (si_reactor s) (si_kernel s)).

(** One [receive]: the answers of [select] and [read], and the clock reading after it. *)
Record RxTurn := mkRxTurn { rx_select : Z; rx_read : ReadAnswer; rx_clock : option timespec }.

(** What the kernel answers while one ready descriptor is handled; the descriptors differ, so
    at most one branch reads the clock. *)
Record EventEnv := mkEventEnv {
  ev_clock : option timespec;
  ev_remove_ok : bool;
  ev_rx : list RxTurn
}.

Section App.
(** The answers of the successive [write]s, and of the successive [timerfd_settime]s on the
    deadline timer: how long after the clock reading behind the call the kernel set it, or a
    failure. *)
Context (write_answer : nat → IoAnswer) (settime : nat → option Z).
Context (options : Options).

Definition send_wire (frame : CanFrame) (s : Sim) : Sim :=
  match sc_send frame (write_answer (length (si_tx s))) (si_bus s) with
  | (Some f, r) => s <| si_tx ::= λ l, l ++ [(f, r)] |>
  | (None, _) => s
  end.

Definition send_status (status : WireOutputStatus) (s : Sim) : Sim :=
  match encode_output_status status with
  | Ok frame => send_wire frame s
  | Err _ => s
  end.

(** [it_value] zero disarms; a relative value counts from when the kernel sets it. *)
Definition arm_oneshot_timerfd (now_ns delay_ms : Z) (s : Sim) : Sim :=
  let value := if 0 <? delay_ms then ms_timespec delay_ms else zero_timespec in
  let s' := s <| si_settimes ::= S |> in
  match settime (si_settimes s) with
  | None => s'
  | Some later =>
      s' <| si_expiry :=
        if timespec_to_ns value =? 0 then None else Some (now_ns + later + timespec_to_ns value) |>
  end.

Definition min_due (s : Sim) : Z :=
  let start := if nl_lease_active (si_node s) then nl_lease_deadline_ns (si_node s)
               else match si_pending s with e :: _ => pc_due_ns e | [] => 0 end in
  foldl (λ m e, if pc_due_ns e <? m then pc_due_ns e else m) start (si_pending s).

Definition arm_deadline_timer (now_ns : Z) (s : Sim) : Sim :=
  if match si_pending s with [] => true | _ => false end && negb (nl_lease_active (si_node s)) then
    arm_oneshot_timerfd now_ns 0 s
  else
    let delay_ms := if now_ns <? min_due s then Z.quot (min_due s - now_ns + 999999) 1000000 else 1 in
    arm_oneshot_timerfd now_ns delay_ms s.

(** [apply_command] and the answer on the bus. *)
Definition run_command (cmd : WireOutputCommand) (receive_ns now_ns : Z) (s : Sim) : Sim :=
  let '(n, handled) := apply_command cmd receive_ns now_ns (si_node s) in
  let s := s <| si_node := n |> in
  if hr_send_status handled then send_status (hr_status handled) s else s.

(** The loop over the waiting commands: due ones run, the others stay in order. *)
Fixpoint flush_loop (items : list PendingCommand) (now_ns : Z) (remain : list PendingCommand) (s : Sim)
    : list PendingCommand * Sim :=
  match items with
  | [] => (remain, s)
  | item :: items =>
      if pc_due_ns item <=? now_ns then
        flush_loop items now_ns remain (run_command (pc_command item) (pc_receive_ns item) now_ns s)
      else flush_loop items now_ns (remain ++ [item]) s
  end.

Definition flush_pending_commands (now_ns : Z) (s : Sim) : Sim :=
  let s := s <| si_node ::= λ n, fst (expire_output_lease now_ns n) |> in
  let '(remain, s) := flush_loop (si_pending s) now_ns [] s in
  arm_deadline_timer now_ns (s <| si_pending := remain |>).

Definition handle_command_now_or_later (cmd : WireOutputCommand) (receive_ns : Z) (s : Sim) : Sim :=
  if so_fault_delay_response_ms options <=? 0 then
    arm_deadline_timer receive_ns (run_command cmd receive_ns receive_ns s)
  else
    let item := mkPending cmd receive_ns (receive_ns + so_fault_delay_response_ms options * 1000000) in
    arm_deadline_timer receive_ns (s <| si_pending ::= λ l, l ++ [item] |>).

(** [drain_can]: one turn per [receive]; [false] when the turns end before the loop does. *)
Fixpoint drain_can (turns : list RxTurn) (s : Sim) : bool * Sim :=
  match turns with
  | [] => (false, s)
  | t :: turns =>
      match sc_receive 0 (rx_select t) (rx_read t) (si_bus s) with
      | Err _ => (true, s)
      | Ok frame =>
          match monotonic_now_ns (rx_clock t) with
          | Err _ => (true, s)
          | Ok now =>
              let raw11 := Z.land (can_id frame) 0x7FF in
              if negb (function_from_can_id raw11 =? function_code Function.OutputCommand) ||
                 negb (node_id_from_can_id raw11 =? nc_node_id (nl_config (si_node s))) then drain_can turns s
              else
                match decode_output_command frame with
                | Err _ => drain_can turns (s <| si_node ::= λ n, fst (on_frame frame now n) |>)
                | Ok cmd => drain_can turns (handle_command_now_or_later cmd now s)
                end
          end
      end
  end.

(** The heartbeat timer: a heartbeat and a status, unless that fault is injected. *)
Definition send_heartbeat (s : Sim) : Sim :=
  if so_fault_stop_heartbeat options then s
  else
    let '(n, beat) := make_heartbeat (si_node s) in
    let s := s <| si_node := n |> in
    let status := encode_node_status (make_status (si_node s)) in
    let s := match encode_heartbeat beat with
             | Ok hb => send_wire hb s <| si_heartbeat_sends ::= incr64 |>
             | Err _ => s
             end in
    match status with Ok st => send_wire st s | Err _ => s end.

(** What the branches do with a clock that may fail. *)
Definition with_clock (reading : option timespec) (f : Z → Sim → Sim) (s : Sim) : Sim :=
  match monotonic_now_ns reading with Ok now => f now s | Err _ => s end.

Definition illegal_heartbeat : CanFrame :=
  mkCanFrame (make_can_id Function.Heartbeat (so_node_id options)) 8 [0x02; 0; 0x00; 0x01; 0x00; 0x01; 0; 0].

(** A one-shot timer that fired: out of the interest list, then closed. *)
Definition retire_timer (get : SimFds → Z) (put : Z → SimFds → SimFds) (ok : bool) (s : Sim) : Sim :=
  let fd := get (si_fds s) in
  let '(r, _) := ep_remove fd ok (si_reactor s) in
  let '(fd', k) := fd_reset fd (si_kernel s) in
  s <| si_reactor := r |> <| si_fds ::= put fd' |> <| si_kernel := k |>.

Definition restart_branch (env : EventEnv) (s : Sim) : Sim :=
  let s := s <| si_node ::= soft_restart |> in
  let s := with_clock (ev_clock env) arm_deadline_timer s in
  retire_timer sf_restart (λ fd f, f <| sf_restart := fd |>) (ev_remove_ok env) s.

Definition illegal_branch (env : EventEnv) (s : Sim) : Sim :=
  retire_timer sf_illegal (λ fd f, f <| sf_illegal := fd |>) (ev_remove_ok env) (send_wire illegal_heartbeat s).

Definition when (b : bool) (f : Sim → Sim) (s : Sim) : Sim := if b then f s else s.

(** One ready descriptor.  [None]: the drain is still under way when its turns end;
    [Some (false, s)]: the loop stops. *)
Definition handle_event (fd : Z) (env : EventEnv) (s : Sim) : option (bool * Sim) :=
  if fd =? sf_signal (si_fds s) then Some (false, s)
  else if fd_valid (sf_duration (si_fds s)) && (fd =? sf_duration (si_fds s)) then Some (false, s)
  else
    let s := when (fd =? sf_heartbeat (si_fds s))
               (λ s, with_clock (ev_clock env) flush_pending_commands (send_heartbeat s)) s in
    let s := when (fd =? sf_delay (si_fds s)) (with_clock (ev_clock env) flush_pending_commands) s in
    let s := when (fd_valid (sf_restart (si_fds s)) && (fd =? sf_restart (si_fds s))) (restart_branch env) s in
    let s := when (fd_valid (sf_illegal (si_fds s)) && (fd =? sf_illegal (si_fds s))) (illegal_branch env) s in
    if fd =? sc_fd (si_bus s) then
      let '(done, s) := drain_can (ev_rx env) s in if done : bool then Some (true, s) else None
    else Some (true, s).

Fixpoint handle_events (ready : list (Z * Z)) (envs : list EventEnv) (s : Sim) : option (bool * Sim) :=
  match ready, envs with
  | [], _ => Some (true, s)
  | (fd, _) :: ready, env :: envs =>
      match handle_event fd env s with
      | None => None
      | Some (false, s) => Some (false, s)
      | Some (true, s) => handle_events ready envs s
      end
  | _ :: _, [] => None
  end.

(** One [reactor.wait] with no timeout and the handling of what it returned. *)
Record Wake := mkWake { wk_answers : list (Z + list (Z * Z)); wk_events : list EventEnv }.

(** The main loop; [None]: it is still running when the wakes end. *)
Fixpoint sim_loop (wakes : list Wake) (s : Sim) : option Sim :=
  match wakes with
  | [] => None
  | w :: wakes =>
      match ep_wait (-1) 16 (wk_answers w) (si_reactor s) with
      | None => None
      | Some (Err _) => Some s
      | Some (Ok ready) =>
          match handle_events ready (wk_events w) s with
          | None => None
          | Some (false, s) => Some s
          | Some (true, s) => sim_loop wakes s
          end
      end
  end.
End App.

(** ** Start and exit *)

(** [sn_alloc i] answers the [i]-th call that creates a descriptor, in the kernel it is made
    in; [sn_settime] the settings of the new timers, [sn_add] the [epoll_ctl]s in order. *)
Record StartEnv := mkStartEnv {
  sn_exists_dir : bool;
  sn_type_value : option Z;
  sn_alloc : nat → Kernel → option Z;
  sn_ioctl : bool;
  sn_bind : bool;
  sn_getfl : bool;
  sn_setfl : bool;
  sn_mask : bool;
  sn_settime : nat → bool;
  sn_add : nat → bool
}.

Definition logic_config (o : Options) : NodeConfig :=
  mkNodeConfig (so_node_id o) (so_boot_id o) (so_session_id o) (so_interlock_ready o) (so_input_bits o) 0.

(** In the order of their destruction. *)
Definition owned_fds (f : SimFds) : list Z :=
  [sf_delay f; sf_illegal f; sf_restart f; sf_duration f; sf_heartbeat f; sf_signal f].

(** A one-shot timer that was asked for but could not be made. *)
Definition missing_timer (ms fd : Z) : bool := (0 <? ms) && negb (fd_valid fd).

Fixpoint add_fds (fds : list Z) (ok : nat → bool) (r : EpollReactor) : option EpollReactor :=
  match fds with
  | [] => Some r
  | fd :: fds =>
      match ep_add fd EPOLLIN (ok 0%nat) r with
      | (r, Ok _) => add_fds fds (λ i, ok (S i)) r
      | (_, Err _) => None
      end
  end.

Definition open_fds (env : StartEnv) (o : Options) (k : Kernel) : SimFds * Kernel :=
  let '(signal, k) := make_signalfd (sn_mask env) (sn_alloc env 1 k) k in
  let '((heartbeat, _), k) := make_periodic_timerfd (so_heartbeat_ms o) (sn_alloc env 2 k) (sn_settime env 2) k in
  let '((duration, _), k) := make_oneshot_timerfd (so_duration_ms o) (sn_alloc env 3 k) (sn_settime env 3) k in
  let '((restart, _), k) :=
    make_oneshot_timerfd (so_fault_restart_after_ms o) (sn_alloc env 4 k) (sn_settime env 4) k in
  let '((illegal, _), k) :=
    make_oneshot_timerfd (so_fault_send_illegal_after_ms o) (sn_alloc env 5 k) (sn_settime env 5) k in
  let answer := sn_alloc env 6 k in
  let delay := match answer with Some fd => fd | None => -1 end in
  (mkSimFds signal heartbeat duration restart illegal delay, k_create answer k).

(** The process exits with a code, or reaches the loop. *)
Inductive StartOutcome := Exits (code : Z) (k : Kernel) | Loops (o : Options) (s : Sim).

Definition sim_start (args : list string) (env : StartEnv) (k : Kernel) : StartOutcome :=
  match parse_options args default_options with
  | None => Exits 1 k
  | Some o =>
      match probe_can_interface (sn_exists_dir env) (sn_type_value env) (so_can_if o) with
      | CanInterfaceStatus.Available =>
          match sc_open (mkOpenEnv (sn_alloc env 0 k) (sn_ioctl env) (sn_bind env)) (sc_new (so_can_if o)) k with
          | ((_, k), Err _) => Exits 1 k
          | ((bus, k), Ok _) =>
              match sc_set_nonblocking (sn_getfl env) (sn_setfl env) bus with
              | Err _ => Exits 1 (close_fds [sc_fd bus] k)
              | Ok _ =>
                  let '(f, k) := open_fds env o k in
                  if negb (fd_valid (sf_signal f)) || negb (fd_valid (sf_heartbeat f)) ||
                     negb (fd_valid (sf_delay f)) || missing_timer (so_duration_ms o) (sf_duration f) ||
                     missing_timer (so_fault_restart_after_ms o) (sf_restart f) ||
                     missing_timer (so_fault_send_illegal_after_ms o) (sf_illegal f) then
                    Exits 1 (close_fds (owned_fds f ++ [sc_fd bus]) k)
                  else
                    let answer := sn_alloc env 7 k in
                    let reactor := mkEpoll (match answer with Some fd => fd | None => -1 end) [] in
                    let k := k_create answer k in
                    let all := ep_fd reactor :: owned_fds f ++ [sc_fd bus] in
                    if negb (ep_valid reactor) then Exits 1 (close_fds all k)
                    else
                      match add_fds ([sc_fd bus; sf_signal f; sf_heartbeat f; sf_delay f] ++
                              filter (λ fd, fd_valid fd = true) [sf_duration f; sf_restart f; sf_illegal f])
                              (sn_add env) reactor with
                      | None => Exits 1 (close_fds all k)
                      | Some reactor =>
                          Loops o (mkSim (node_new (logic_config o)) [] bus [] None 0 0 f reactor k)
                      end
              end
          end
      | _ => Exits 1 k
      end
  end.

(** After the loop: the descriptors leave the interest list, then the owners close them. *)
Definition sim_exit (remove_ok : Z → bool) (s : Sim) : Sim :=
  let f := si_fds s in
  let r := foldl (λ r fd, fst (ep_remove fd (remove_ok fd) r)) (si_reactor s)
    ([sc_fd (si_bus s); sf_signal f; sf_heartbeat f; sf_delay f] ++
     filter (λ fd, fd_valid fd = true) [sf_duration f; sf_restart f; sf_illegal f]) in
  let k := close_fds [sc_fd (si_bus s); sf_delay f; sf_heartbeat f; sf_signal f; sf_duration f; sf_restart f;
                      sf_illegal f; ep_fd r] (si_kernel s) in
  s <| si_reactor := r |> <| si_kernel := k |>.

Definition sim_main (write_answer : nat → IoAnswer) (settime : nat → option Z) (args : list string) (env : StartEnv)
    (wakes : list Wake) (remove_ok : Z → bool) (k : Kernel) : option (Z * Kernel) :=
  match sim_start args env k with
  | Exits code k => Some (code, k)
  | Loops o s =>
      match sim_loop write_answer settime o wakes s with
      | None => None
      | Some s => Some (0, si_kernel (sim_exit remove_ok s))
      end
  end.

(** ** The simulator is the node on a bus *)

(** What the process asks of the node, and the frames that answer it; the injected bad
    frame is always the same one. *)
Inductive SimOp :=
  | SimReject (frame : CanFrame) (now : Z)
  | SimCommand (cmd : WireOutputCommand) (receive now : Z)
  | SimExpire (now : Z)
  | SimHeartbeat
  | SimRestart
  | SimIllegal.

Definition frames_of (r : Result CanFrame) : list CanFrame := match r with Ok f => [f] | Err _ => [] end.

Definition op_step (options : Options) (o : SimOp) (n : CanNodeLogic) : CanNodeLogic * list CanFrame :=
  match o with
  | SimReject frame now => (fst (on_frame frame now n), [])
  | SimCommand cmd receive now =>
      let '(n, r) := apply_command cmd receive now n in
      (n, if hr_send_status r then frames_of (encode_output_status (hr_status r)) else [])
  | SimExpire now => (fst (expire_output_lease now n), [])
  | SimHeartbeat =>
      let '(n, beat) := make_heartbeat n in
      (n, frames_of (encode_heartbeat beat) ++ frames_of (encode_node_status (make_status n)))
  | SimRestart => (soft_restart n, [])
  | SimIllegal => (n, [illegal_heartbeat options])
  end.

Fixpoint ops_run (options : Options) (ops : list SimOp) (n : CanNodeLogic) : CanNodeLogic * list CanFrame :=
  match ops with
  | [] => (n, [])
  | o :: ops =>
      let '(n, out) := op_step options o n in
      let '(n, rest) := ops_run options ops n in (n, out ++ rest)
  end.

(** The commands run, with their receive times. *)
Definition op_command (o : SimOp) : list (WireOutputCommand * Z) :=
  match o with SimCommand cmd receive _ => [(cmd, receive)] | _ => [] end.
Definition ran (ops : list SimOp) : list (WireOutputCommand * Z) := concat (map op_command ops).

(** A command runs when the injected delay has passed, at once when there is none. *)
Definition op_timely (delay_ms : Z) (o : SimOp) : Prop :=
  match o with
  | SimCommand _ receive now => receive + delay_ms * 1000000 ≤ now ∧ (delay_ms = 0 → now = receive)
  | _ => True
  end.

(** The commands for the node among the frames the drain reads. *)
Fixpoint heard (bus : SocketCan) (node_id : Z) (turns : list RxTurn) : list (WireOutputCommand * Z) :=
  match turns with
  | [] => []
  | t :: turns =>
      match sc_receive 0 (rx_select t) (rx_read t) bus, monotonic_now_ns (rx_clock t) with
      | Ok frame, Ok now =>
          let raw11 := Z.land (can_id frame) 0x7FF in
          (if negb (function_from_can_id raw11 =? function_code Function.OutputCommand) ||
              negb (node_id_from_can_id raw11 =? node_id) then []
           else match decode_output_command frame with Ok cmd => [(cmd, now)] | Err _ => [] end)
          ++ heard bus node_id turns
      | _, _ => []
      end
  end.

Definition stops (f : SimFds) (fd : Z) : bool :=
  (fd =? sf_signal f) || (fd_valid (sf_duration f) && (fd =? sf_duration f)).

Fixpoint events_heard (f : SimFds) (bus : SocketCan) (node_id : Z) (ready : list (Z * Z)) (envs : list EventEnv)
    : list (WireOutputCommand * Z) :=
  match ready, envs with
  | (fd, _) :: ready, env :: envs =>
      if stops f fd then []
      else (if fd =? sc_fd bus then heard bus node_id (ev_rx env) else []) ++
           events_heard f bus node_id ready envs
  | _, _ => []
  end.

Definition pending_commands (s : Sim) : list (WireOutputCommand * Z) :=
  map (λ p, (pc_command p, pc_receive_ns p)) (si_pending s).

(** What the ready descriptors ask of the node, computed from the kernel's answers alone: the
    operations so far, the commands that wait and the timers not yet used up. *)
Record Asked := mkAsked {
  as_ops : list SimOp;
  as_waiting : list (WireOutputCommand * Z);
  as_fds : SimFds
}.

#[export] Instance Asked_eta : Eta Asked := mkEta _ (fun a => mkAsked (as_ops a) (as_waiting a) (as_fds a)).

Section Asks.
Context (options : Options) (bus : SocketCan) (node_id : Z).
Local Notation delay := (so_fault_delay_response_ms options).

Definition ask (o : SimOp) (a : Asked) : Asked := a <| as_ops ::= λ l, l ++ [o] |>.

(** A waiting command is due when the injected delay has passed. *)
Definition due (now : Z) (p : WireOutputCommand * Z) : Prop := snd p + delay * 1000000 ≤ now.
#[export] Instance due_decision now p : Decision (due now p).
Proof. unfold due. apply _. Defined.

Definition ask_flush (now : Z) (a : Asked) : Asked :=
  a <| as_ops ::= λ l, l ++ SimExpire now :: map (λ p, SimCommand (fst p) (snd p) now) (filter (due now) (as_waiting a)) |>
    <| as_waiting ::= filter (λ p, ¬ due now p) |>.

Definition ask_clocked (reading : option timespec) (a : Asked) : Asked :=
  match monotonic_now_ns reading with Ok now => ask_flush now a | Err _ => a end.

Definition ask_command (cmd : WireOutputCommand) (now : Z) (a : Asked) : Asked :=
  if delay <=? 0 then ask (SimCommand cmd now now) a else a <| as_waiting ::= λ l, l ++ [(cmd, now)] |>.

Fixpoint ask_drain (turns : list RxTurn) (a : Asked) : Asked :=
  match turns with
  | [] => a
  | t :: turns =>
      match sc_receive 0 (rx_select t) (rx_read t) bus, monotonic_now_ns (rx_clock t) with
      | Ok frame, Ok now =>
          let raw11 := Z.land (can_id frame) 0x7FF in
          ask_drain turns
            (if negb (function_from_can_id raw11 =? function_code Function.OutputCommand) ||
                negb (node_id_from_can_id raw11 =? node_id) then a
             else match decode_output_command frame with
                  | Ok cmd => ask_command cmd now a
                  | Err _ => ask (SimReject frame now) a
                  end)
      | _, _ => a
      end
  end.

Definition ask_event (fd : Z) (env : EventEnv) (a : Asked) : Asked :=
  let f := as_fds a in
  let a := if fd =? sf_heartbeat f then
             ask_clocked (ev_clock env) (if so_fault_stop_heartbeat options then a else ask SimHeartbeat a) else a in
  let a := if fd =? sf_delay f then ask_clocked (ev_clock env) a else a in
  let a := if fd_valid (sf_restart f) && (fd =? sf_restart f) then
             ask SimRestart a <| as_fds ::= λ f, f <| sf_restart := -1 |> |> else a in
  let a := if fd_valid (sf_illegal f) && (fd =? sf_illegal f) then
             ask SimIllegal a <| as_fds ::= λ f, f <| sf_illegal := -1 |> |> else a in
  if fd =? sc_fd bus then ask_drain (ev_rx env) a else a.

(** Up to the descriptor that stops the loop. *)
Fixpoint ask_events (ready : list (Z * Z)) (envs : list EventEnv) (a : Asked) : Asked :=
  match ready, envs with
  | (fd, _) :: ready, env :: envs =>
      if stops (as_fds a) fd then a else ask_events ready envs (ask_event fd env a)
  | _, _ => a
  end.
End Asks.

(** *** What a step leaves alone *)

(** Socket, descriptors, interest list and descriptor table are untouched. *)
Record same_io (s s' : Sim) : Prop := {
  sm_bus : si_bus s' = si_bus s;
  sm_fds : si_fds s' = si_fds s;
  sm_reactor : si_reactor s' = si_reactor s;
  sm_kernel : si_kernel s' = si_kernel s
}.

#[export] Instance same_io_preorder : PreOrder same_io.
Proof. split; [by constructor|]. intros ??? [] []. constructor; congruence. Qed.

Create HintDb sim.
#[export] Hint Extern 1 (same_io _ _) => (by constructor) : sim.

Section Steps.
Context (write_answer : nat → IoAnswer) (settime : nat → option Z) (options : Options).

Lemma send_wire_same f s : same_io s (send_wire write_answer f s).
Proof. unfold send_wire. destruct (sc_send _ _ _) as [[|] ?]; by constructor. Qed.

Lemma send_wire_tx f s :
  sc_is_open (si_bus s) = true → can_len f = 8 →
  send_wire write_answer f s =
    s <| si_tx ::= λ l, l ++ [(to_kernel_frame f, snd (sc_send f (write_answer (length (si_tx s))) (si_bus s)))] |>.
Proof. intros Ho Hl. unfold send_wire, sc_send. rewrite Ho, Hl. done. Qed.

Lemma arm_oneshot_same now d s : same_io s (arm_oneshot_timerfd settime now d s).
Proof. unfold arm_oneshot_timerfd. destruct (settime _); by constructor. Qed.

Lemma arm_deadline_same now s : same_io s (arm_deadline_timer settime now s).
Proof. unfold arm_deadline_timer. destruct (_ && _); apply arm_oneshot_same. Qed.

(** Arming changes nothing but the timer. *)
Lemma arm_deadline_keeps now s :
  let s' := arm_deadline_timer settime now s in
  si_node s' = si_node s ∧ si_pending s' = si_pending s ∧ si_tx s' = si_tx s.
Proof. unfold arm_deadline_timer, arm_oneshot_timerfd. cbv zeta. by destruct (_ && _), (settime _). Qed.

Lemma send_status_same st s : same_io s (send_status write_answer st s).
Proof. unfold send_status. destruct (encode_output_status st); [apply send_wire_same|done]. Qed.

Lemma run_command_same cmd r now s : same_io s (run_command write_answer cmd r now s).
Proof.
  unfold run_command. destruct (apply_command _ _ _ _) as [n h]. destruct (hr_send_status h); [|by constructor].
  etrans; [|apply send_status_same]. by constructor.
Qed.

Lemma flush_loop_same items now : ∀ remain s, same_io s (snd (flush_loop write_answer items now remain s)).
Proof.
  induction items as [|i items IH]; intros remain s; cbn; [done|]. destruct (_ <=? _); [|apply IH].
  etrans; [apply run_command_same|apply IH].
Qed.

Lemma flush_pending_same now s : same_io s (flush_pending_commands write_answer settime now s).
Proof.
  unfold flush_pending_commands. cbn [si_pending update].
  pose proof (flush_loop_same (si_pending s) now [] (s <| si_node ::= λ n, fst (expire_output_lease now n) |>)) as Hf.
  destruct (flush_loop _ _ _ _ _) as [remain s']. cbn [snd] in Hf.
  etrans; [|apply arm_deadline_same]. etrans; [|etrans; [exact Hf|]]; by constructor.
Qed.

Lemma handle_command_same cmd r s :
  same_io s (handle_command_now_or_later write_answer settime options cmd r s).
Proof.
  unfold handle_command_now_or_later. destruct (_ <=? _); (etrans; [|apply arm_deadline_same]);
    [apply run_command_same|by constructor].
Qed.

Lemma drain_can_same turns : ∀ s, same_io s (snd (drain_can write_answer settime options turns s)).
Proof.
  induction turns as [|t turns IH]; intros s; cbn; [done|].
  destruct (sc_receive _ _ _ _); [|done]. destruct (monotonic_now_ns _); [|done]. destruct (_ || _); [apply IH|].
  destruct (decode_output_command _); (etrans; [|apply IH]); [apply handle_command_same|by constructor].
Qed.

Lemma send_heartbeat_same s : same_io s (send_heartbeat write_answer options s).
Proof.
  unfold send_heartbeat. destruct (so_fault_stop_heartbeat options); [done|].
  destruct (make_heartbeat (si_node s)) as [n beat]. cbv zeta.
  assert (H1 : same_io s (s <| si_node := n |>)) by (by constructor). revert H1.
  generalize (s <| si_node := n |>). intros s1 H1.
  assert (H2 : ∀ r s2, same_io s1 s2 →
    same_io s (match r with Ok st => send_wire write_answer st s2 | Err _ => s2 end)).
  { intros [st|] s2 H2; (etrans; [exact H1|]); [|done]. etrans; [exact H2|apply send_wire_same]. }
  apply H2. destruct (encode_heartbeat _); [|done]. etrans; [apply send_wire_same|]. by constructor.
Qed.

Lemma with_clock_same c f s : (∀ now s, same_io s (f now s)) → same_io s (with_clock c f s).
Proof. intros Hf. unfold with_clock. by destruct (monotonic_now_ns c). Qed.

End Steps.

(** *** Following the node *)

Lemma encoded_length :
  (∀ m f, encode_heartbeat m = Ok f → can_len f = 8) ∧ (∀ m f, encode_node_status m = Ok f → can_len f = 8) ∧
  (∀ m f, encode_output_status m = Ok f → can_len f = 8).
Proof.
  split_and!; intros m f He; revert He; unfold encode_heartbeat, encode_node_status, encode_output_status, res_bind;
    repeat case_match; intros; simplify_eq; done.
Qed.

Lemma ops_run_app options a b n :
  ops_run options (a ++ b) n =
    (fst (ops_run options b (fst (ops_run options a n))),
     snd (ops_run options a n) ++ snd (ops_run options b (fst (ops_run options a n)))).
Proof.
  revert n. induction a as [|o a IH]; intros n; cbn; [by destruct (ops_run options b n)|].
  destruct (op_step options o n) as [n1 out]. rewrite IH. destruct (ops_run options a n1) as [n2 out2]. cbn.
  by rewrite app_assoc.
Qed.

Lemma op_step_config options o n : nl_config (fst (op_step options o n)) = nl_config n.
Proof.
  assert (He : ∀ now n, nl_config (fst (expire_output_lease now n)) = nl_config n)
    by (intros; unfold expire_output_lease; by destruct (_ || _)).
  assert (Ha : ∀ cmd r now n, nl_config (fst (apply_command cmd r now n)) = nl_config n).
  { intros cmd r now n1. unfold apply_command. specialize (He now n1).
    destruct (expire_output_lease now n1) as [n2 b]. cbn [fst] in He. cbv zeta. by repeat case_match. }
  destruct o; cbn [op_step]; try done.
  - unfold on_frame. destruct (_ || _); [done|]. destruct (decode_output_command frame); [apply Ha|done].
  - specialize (Ha cmd receive now n). by destruct (apply_command cmd receive now n).
  - apply He.
Qed.

Lemma ops_run_config options ops : ∀ n, nl_config (fst (ops_run options ops n)) = nl_config n.
Proof.
  induction ops as [|o ops IH]; intros n; cbn; [done|]. pose proof (op_step_config options o n) as Ho.
  destruct (op_step options o n) as [n1 out]. specialize (IH n1). destruct (ops_run options ops n1). cbn in *. congruence.
Qed.

Lemma ran_app a b : ran (a ++ b) = ran a ++ ran b.
Proof. unfold ran. by rewrite map_app, concat_app. Qed.

(** The process has done [ops] with the node [n0] and put the node's answers on the bus. *)
Record tracks (options : Options) (n0 : CanNodeLogic) (ops : list SimOp) (s : Sim) : Prop := {
  tr_open : sc_is_open (si_bus s) = true;
  tr_node : si_node s = fst (ops_run options ops n0);
  tr_tx : map fst (si_tx s) = map to_kernel_frame (snd (ops_run options ops n0))
}.

Lemma tracks_step options n0 ops o s s' :
  tracks options n0 ops s → same_io s s' → si_node s' = fst (op_step options o (si_node s)) →
  map fst (si_tx s') = map fst (si_tx s) ++ map to_kernel_frame (snd (op_step options o (si_node s))) →
  tracks options n0 (ops ++ [o]) s'.
Proof.
  intros [Ho Hn Ht] Hb Hn' Ht'.
  assert (H1 : ops_run options [o] (si_node s) = (fst (op_step options o (si_node s)), snd (op_step options o (si_node s))))
    by (cbn; destruct (op_step _ _ _); cbn; by rewrite app_nil_r).
  constructor; [by rewrite (sm_bus _ _ Hb)|..]; rewrite ops_run_app, <- Hn, H1; cbn; [done|].
  by rewrite Ht', Ht, map_app.
Qed.

Lemma tracks_same options n0 ops s s' :
  tracks options n0 ops s → si_bus s' = si_bus s → si_node s' = si_node s → si_tx s' = si_tx s →
  tracks options n0 ops s'.
Proof. intros [] Hb Hn Ht. constructor; by rewrite ?Hb, ?Hn, ?Ht. Qed.

Section Tracking.
Context (write_answer : nat → IoAnswer) (settime : nat → option Z) (options : Options).
Local Notation send_result := (λ r s, match r with Ok f => send_wire write_answer f s | Err _ => s end).

(** Sending what an encoder returned. *)
Lemma send_result_tx (r : Result CanFrame) s :
  sc_is_open (si_bus s) = true → (∀ f, r = Ok f → can_len f = 8) →
  let s' := send_result r s in
  si_node s' = si_node s ∧ si_pending s' = si_pending s ∧
  map fst (si_tx s') = map fst (si_tx s) ++ map to_kernel_frame (frames_of r).
Proof.
  intros Ho Hl. destruct r as [f|]; cbn; [|by rewrite app_nil_r]. rewrite send_wire_tx by auto. cbn.
  by rewrite map_app.
Qed.

Lemma run_command_tracks n0 ops cmd r now s :
  tracks options n0 ops s →
  tracks options n0 (ops ++ [SimCommand cmd r now]) (run_command write_answer cmd r now s) ∧
  si_pending (run_command write_answer cmd r now s) = si_pending s.
Proof.
  intros Ht. pose proof (tr_open _ _ _ _ Ht) as Ho. pose proof (run_command_same write_answer cmd r now s) as Hs.
  revert Hs. unfold run_command. destruct (apply_command cmd r now (si_node s)) as [n h] eqn:Ha.
  destruct (hr_send_status h) eqn:Hh; intros Hs.
  - pose proof (send_result_tx (encode_output_status (hr_status h)) (s <| si_node := n |>)) as Hx.
    destruct Hx as (Hn & Hp & Hx); [done|intros f; apply encoded_length|].
    fold (send_status write_answer (hr_status h) (s <| si_node := n |>)) in Hn, Hp, Hx. split; [|done].
    eapply tracks_step; [exact Ht|exact Hs|..]; cbn [op_step]; rewrite Ha, ?Hh; [by rewrite Hn|by rewrite Hx].
  - split; [|done]. eapply tracks_step; [exact Ht|exact Hs|..]; cbn [op_step]; rewrite Ha, ?Hh; cbn;
      [done|by rewrite app_nil_r].
Qed.

(** The loop over the waiting commands runs the due ones in order and keeps the others. *)
Lemma flush_loop_runs n0 now items : ∀ ops remain s,
  Forall (λ p, pc_due_ns p = pc_receive_ns p + so_fault_delay_response_ms options * 1000000) items →
  tracks options n0 ops s →
  let cmds := map (λ p, (pc_command p, pc_receive_ns p)) in
  let '(rest, s') := flush_loop write_answer items now remain s in
  cmds rest = cmds remain ++ filter (λ p, ¬ due options now p) (cmds items) ∧
  Forall (λ p, p ∈ remain ∨ p ∈ items) rest ∧
  tracks options n0 (ops ++ map (λ p, SimCommand (fst p) (snd p) now) (filter (due options now) (cmds items))) s'.
Proof.
  induction items as [|i items IH]; intros ops remain s Hdue Ht; cbn [flush_loop map].
  { rewrite !app_nil_r. split_and!; try done. apply Forall_forall. auto. }
  apply Forall_cons in Hdue as [Hi Hdue].
  assert (Hd : due options now (pc_command i, pc_receive_ns i) ↔ pc_due_ns i ≤ now) by (unfold due; cbn; lia).
  destruct (Z.leb_spec (pc_due_ns i) now) as [Hn|Hn].
  - destruct (run_command_tracks n0 ops (pc_command i) (pc_receive_ns i) now s Ht) as [Ht1 _].
    specialize (IH _ remain _ Hdue Ht1). destruct (flush_loop _ _ _ _ _) as [rest s']. destruct IH as (H1 & H2 & H3).
    rewrite filter_cons_False by tauto. rewrite (filter_cons_True (due options now)) by tauto. split_and!; [done| |].
    + eapply Forall_impl; [exact H2|]. cbn. intros p [|]; [by left|right; by right].
    + by rewrite <- app_assoc in H3.
  - specialize (IH ops (remain ++ [i]) s Hdue Ht). destruct (flush_loop _ _ _ _ _) as [rest s'].
    destruct IH as (H1 & H2 & H3).
    rewrite filter_cons_True by (rewrite Hd; lia). rewrite (filter_cons_False (due options now)) by (rewrite Hd; lia).
    split_and!; [|eapply Forall_impl; [exact H2|]; cbn; intros p; rewrite elem_of_app, list_elem_of_singleton, elem_of_cons; tauto|done].
    by rewrite H1, map_app, <- app_assoc.
Qed.
End Tracking.

Section Follows.
Context (write_answer : nat → IoAnswer) (settime : nat → option Z) (options : Options) (n0 : CanNodeLogic).
Local Notation delay := (so_fault_delay_response_ms options).

(** The process has done exactly what was asked, and keeps the commands that wait. *)
Record follows (a : Asked) (s : Sim) : Prop := {
  fo_tracks : tracks options n0 (as_ops a) s;
  fo_waiting : pending_commands s = as_waiting a;
  fo_fds : si_fds s = as_fds a;
  fo_due : Forall (λ p, pc_due_ns p = pc_receive_ns p + delay * 1000000) (si_pending s)
}.

Lemma follows_same a s s' :
  follows a s → same_io s s' → si_node s' = si_node s → si_tx s' = si_tx s →
  si_pending s' = si_pending s → follows a s'.
Proof.
  intros [Ht Hw Hf Hd] [Hb Hf' _ _] Hn Hx Hp. unfold pending_commands in Hw.
  constructor; [by eapply tracks_same|by unfold pending_commands; rewrite Hp|congruence|by rewrite Hp].
Qed.

(** A step of the node that leaves the waiting commands alone. *)
Lemma follows_op a o s s' :
  follows a s → same_io s s' → si_node s' = fst (op_step options o (si_node s)) →
  map fst (si_tx s') = map fst (si_tx s) ++ map to_kernel_frame (snd (op_step options o (si_node s))) →
  si_pending s' = si_pending s → follows (ask o a) s'.
Proof.
  intros [Ht Hw Hf Hd] Hs Hn Hx Hp. unfold pending_commands in Hw.
  constructor; [by eapply tracks_step|by unfold pending_commands; rewrite Hp|by rewrite (sm_fds _ _ Hs)|by rewrite Hp].
Qed.

Lemma follows_arm a now s : follows a s → follows a (arm_deadline_timer settime now s).
Proof.
  intros Hf. destruct (arm_deadline_keeps settime now s) as (Hn & Hp & Hx).
  eapply follows_same; [exact Hf|apply arm_deadline_same|done..].
Qed.

Lemma follows_expire a now s :
  follows a s → follows (ask (SimExpire now) a) (s <| si_node ::= λ n, fst (expire_output_lease now n) |>).
Proof.
  intros Hf. eapply follows_op; [exact Hf|by constructor|done| |done]. cbn. by rewrite app_nil_r.
Qed.

Lemma follows_flush a now s :
  follows a s → follows (ask_flush options now a) (flush_pending_commands write_answer settime now s).
Proof.
  intros Hf. apply (follows_expire _ now) in Hf as [Ht Hw Hfd Hd]. unfold flush_pending_commands.
  pose proof (flush_loop_runs write_answer options n0 now _ _ [] _ Hd Ht) as Hl. cbv zeta in Hl.
  set (s1 := s <| si_node ::= _ |>) in *. pose proof (flush_loop_same write_answer (si_pending s1) now [] s1) as Hs.
  destruct (flush_loop _ _ _ _ _) as [rest s']. destruct Hl as (H1 & H2 & H3). apply follows_arm. cbn [snd] in Hs.
  unfold pending_commands in Hw. rewrite Hw in H1, H3. constructor.
  - apply (tracks_same _ _ _ s'); [|done..]. unfold ask_flush. cbn [as_ops update ask] in H3 |- *. rewrite <- app_assoc in H3. exact H3.
  - unfold pending_commands. cbn. by rewrite H1.
  - cbn. by rewrite (sm_fds _ _ Hs).
  - cbn. eapply Forall_impl; [exact H2|]. cbn. intros p [Hp|Hp]; [by apply elem_of_nil in Hp|].
    rewrite Forall_forall in Hd. by apply Hd.
Qed.

Lemma follows_command a cmd r s :
  follows a s →
  follows (ask_command options cmd r a) (handle_command_now_or_later write_answer settime options cmd r s).
Proof.
  intros Hf. unfold handle_command_now_or_later, ask_command. destruct (delay <=? 0); apply follows_arm; destruct Hf as [Ht Hw Hfd Hd].
  - destruct (run_command_tracks write_answer options n0 _ cmd r r s Ht) as [Ht' Hp'].
    unfold pending_commands in Hw. constructor; [done|by unfold pending_commands; rewrite Hp'| |by rewrite Hp'].
    cbn. by rewrite (sm_fds _ _ (run_command_same _ _ _ _ _)).
  - constructor; [by eapply tracks_same| |done|].
    + unfold pending_commands in *. cbn. by rewrite map_app, Hw.
    + cbn. apply Forall_app. by split; [|repeat constructor].
Qed.

Lemma follows_id a s : follows a s → nc_node_id (nl_config (si_node s)) = nc_node_id (nl_config n0).
Proof. intros [[_ -> _] _ _ _]. by rewrite ops_run_config. Qed.

Lemma follows_drain turns : ∀ a s,
  follows a s →
  follows (ask_drain options (si_bus s) (nc_node_id (nl_config n0)) turns a) (snd (drain_can write_answer settime options turns s)).
Proof.
  induction turns as [|t turns IH]; intros a s Hf; cbn [drain_can ask_drain]; [done|].
  destruct (sc_receive _ _ _ _) as [frame|]; [|done]. destruct (monotonic_now_ns _) as [now|]; [|done].
  cbv zeta. rewrite (follows_id _ _ Hf).
  destruct (_ || _); [by apply IH|]. destruct (decode_output_command frame) as [cmd|] eqn:Hd.
  - rewrite <- (sm_bus _ _ (handle_command_same write_answer settime options cmd now s)).
    by apply IH, follows_command.
  - set (s' := s <| si_node ::= _ |>). change (si_bus s) with (si_bus s'). apply IH.
    eapply follows_op; [exact Hf|by constructor|done| |done]. cbn. by rewrite app_nil_r.
Qed.

Lemma follows_heartbeat a s :
  follows a s →
  follows (if so_fault_stop_heartbeat options then a else ask SimHeartbeat a) (send_heartbeat write_answer options s).
Proof.
  intros Hf. pose proof (send_heartbeat_same write_answer options s) as Hs. revert Hs.
  unfold send_heartbeat. destruct (so_fault_stop_heartbeat options); [done|].
  destruct (make_heartbeat (si_node s)) as [n beat] eqn:Hm. cbv zeta. intros Hs.
  assert (Ho : sc_is_open (si_bus (s <| si_node := n |>)) = true) by (destruct Hf as [[] _ _ _]; done).
  destruct encoded_length as (H1 & H2 & _).
  pose proof (send_result_tx write_answer (encode_heartbeat beat) (s <| si_node := n |>) Ho ltac:(intros f; apply H1))
    as (Hn1 & Hp1 & Hx1).
  set (s2 := match encode_heartbeat beat with Ok hb => _ | Err _ => _ end) in *.
  assert (Hs2 : si_node s2 = n ∧ si_pending s2 = si_pending s ∧ sc_is_open (si_bus s2) = true ∧
    map fst (si_tx s2) = map fst (si_tx s) ++ map to_kernel_frame (frames_of (encode_heartbeat beat))).
  { subst s2. destruct (encode_heartbeat beat) as [hb|]; cbn in *; [|by split_and!].
    rewrite (sm_bus _ _ (send_wire_same write_answer hb _)). by split_and!. }
  clearbody s2. destruct Hs2 as (Hn2 & Hp2 & Ho2 & Hx2).
  pose proof (send_result_tx write_answer (encode_node_status (make_status n)) s2 Ho2 ltac:(intros f; apply H2))
    as (Hn3 & Hp3 & Hx3).
  eapply follows_op; [exact Hf|exact Hs|..]; cbn [op_step]; rewrite ?Hm.
  - cbn. by rewrite Hn3.
  - cbn. rewrite Hx3, Hx2, map_app, app_assoc. done.
  - etrans; [exact Hp3|exact Hp2].
Qed.
End Follows.

(** *** Events *)

Lemma retire_timer_keeps get put ok s :
  let s' := retire_timer get put ok s in
  si_bus s' = si_bus s ∧ si_node s' = si_node s ∧ si_tx s' = si_tx s ∧ si_pending s' = si_pending s ∧
  si_expiry s' = si_expiry s.
Proof.
  unfold retire_timer. destruct (ep_remove _ _ _). by destruct (fd_reset _ _).
Qed.

(** The descriptors an event never changes. *)
Definition same_stops (s s' : Sim) : Prop :=
  sf_signal (si_fds s') = sf_signal (si_fds s) ∧ sf_duration (si_fds s') = sf_duration (si_fds s) ∧
  si_bus s' = si_bus s.

#[export] Instance same_stops_preorder : PreOrder same_stops.
Proof. split; [done|]. intros ??? (? & ? & ?) (? & ? & ?). split_and!; congruence. Qed.

Lemma same_io_stops s s' : same_io s s' → same_stops s s'.
Proof. intros [Hb Hf _ _]. unfold same_stops. by rewrite Hb, Hf. Qed.

Lemma retire_stops get put ok s :
  (∀ fd f, sf_signal (put fd f) = sf_signal f ∧ sf_duration (put fd f) = sf_duration f) →
  same_stops s (retire_timer get put ok s).
Proof.
  intros Hp. unfold retire_timer. destruct (ep_remove _ _ _). destruct (fd_reset _ _) as [fd' k].
  unfold same_stops. cbn. by destruct (Hp fd' (si_fds s)).
Qed.

Section Events.
Context (write_answer : nat → IoAnswer) (settime : nat → option Z) (options : Options).

Lemma restart_branch_stops env s : same_stops s (restart_branch settime env s).
Proof.
  unfold restart_branch. etrans; [|by apply retire_stops]. apply same_io_stops.
  etrans; [|apply with_clock_same, arm_deadline_same]. by constructor.
Qed.

Lemma illegal_branch_stops env s : same_stops s (illegal_branch write_answer options env s).
Proof.
  unfold illegal_branch. etrans; [|by apply retire_stops]. apply same_io_stops, send_wire_same.
Qed.

Lemma when_stops b f s : same_stops s (f s) → same_stops s (when b f s).
Proof. by destruct b. Qed.

Lemma heartbeat_stops env s :
  same_stops s (with_clock (ev_clock env) (flush_pending_commands write_answer settime) (send_heartbeat write_answer options s)).
Proof.
  apply same_io_stops. etrans; [apply send_heartbeat_same|]. apply with_clock_same, flush_pending_same.
Qed.

Lemma handle_event_stops fd env s b s' :
  handle_event write_answer settime options fd env s = Some (b, s') → same_stops s s' ∧ b = negb (stops (si_fds s) fd).
Proof.
  unfold handle_event, stops. destruct (fd =? sf_signal (si_fds s)); [by intros [= <- <-]|].
  destruct (fd_valid _ && _) eqn:Hd; [by intros [= <- <-]|]. cbv zeta.
  set (s1 := when _ _ s). assert (H1 : same_stops s s1) by (apply when_stops, heartbeat_stops). clearbody s1.
  set (s2 := when _ _ s1). assert (H2 : same_stops s s2).
  { etrans; [exact H1|]. apply when_stops, same_io_stops, with_clock_same, flush_pending_same. } clearbody s2.
  set (s3 := when _ _ s2). assert (H3 : same_stops s s3).
  { etrans; [exact H2|]. apply when_stops, restart_branch_stops. } clearbody s3.
  set (s4 := when _ _ s3). assert (H4 : same_stops s s4).
  { etrans; [exact H3|]. apply when_stops, illegal_branch_stops. } clearbody s4.
  destruct (fd =? sc_fd (si_bus s4)); [|by intros [= <- <-]].
  pose proof (drain_can_same write_answer settime options (ev_rx env) s4) as Hs.
  destruct (drain_can _ _ _ _ _) as [[] s5]; [|done]. intros [= <- <-]. split; [|done].
  etrans; [exact H4|]. by apply same_io_stops.
Qed.
End Events.

Section Refinement.
Context (write_answer : nat → IoAnswer) (settime : nat → option Z) (options : Options) (n0 : CanNodeLogic).
Local Notation follows := (follows options n0).
Local Notation ask_event := (ask_event options).
Local Notation ask_events := (ask_events options).

Lemma follows_when b f a' a s :
  follows a s → (b = true → follows a' (f s)) → follows (if b then a' else a) (when b f s).
Proof. destruct b; auto. Qed.

Lemma follows_clock c a s :
  follows a s →
  follows (ask_clocked options c a) (with_clock c (flush_pending_commands write_answer settime) s).
Proof. intros Hf. unfold with_clock, ask_clocked. destruct (monotonic_now_ns c); [by apply follows_flush|done]. Qed.

(** A timer that fired is used up. *)
Lemma follows_retire get put ok a s :
  fd_valid (get (si_fds s)) = true → follows a s → follows (a <| as_fds ::= put (-1) |>) (retire_timer get put ok s).
Proof.
  intros Hv [Ht Hw Hf Hd]. unfold retire_timer. destruct (ep_remove _ _ _).
  destruct (fd_reset (get (si_fds s)) (si_kernel s)) as [fd' k] eqn:Hr.
  assert (Hfd : fd' = -1) by (unfold fd_reset in Hr; rewrite Hv in Hr; by simplify_eq). subst fd'.
  constructor; [by eapply tracks_same|done| |done]. cbn. by rewrite Hf.
Qed.

Lemma follows_restart a env s :
  fd_valid (sf_restart (si_fds s)) = true → follows a s →
  follows (ask SimRestart a <| as_fds ::= λ f, f <| sf_restart := -1 |> |>) (restart_branch settime env s).
Proof.
  intros Hv Hf. unfold restart_branch. apply (follows_retire sf_restart (λ fd f, f <| sf_restart := fd |>)).
  { by rewrite (sm_fds _ _ (with_clock_same _ _ _ (arm_deadline_same settime))). }
  assert (H1 : follows (ask SimRestart a) (s <| si_node ::= soft_restart |>)).
  { eapply follows_op; [exact Hf|by constructor|done| |done]. cbn. by rewrite app_nil_r. }
  unfold with_clock. destruct (monotonic_now_ns _); [by apply follows_arm|done].
Qed.

Lemma follows_illegal a env s :
  fd_valid (sf_illegal (si_fds s)) = true → follows a s →
  follows (ask SimIllegal a <| as_fds ::= λ f, f <| sf_illegal := -1 |> |>) (illegal_branch write_answer options env s).
Proof.
  intros Hv Hf. unfold illegal_branch. apply (follows_retire sf_illegal (λ fd f, f <| sf_illegal := fd |>)).
  { by rewrite (sm_fds _ _ (send_wire_same _ _ _)). }
  assert (Ho : sc_is_open (si_bus s) = true) by (destruct Hf as [[] _ _ _]; done).
  eapply follows_op; [exact Hf|apply send_wire_same|..];
    rewrite send_wire_tx by done; cbn; [done|by rewrite map_app|done].
Qed.

(** Timers and socket are different descriptors, so an event tests those it found. *)
Lemma ask_keeps_fds a o : as_fds (ask o a) = as_fds a.
Proof. done. Qed.
Lemma ask_clocked_fds c a : as_fds (ask_clocked options c a) = as_fds a.
Proof. unfold ask_clocked. by destruct (monotonic_now_ns c). Qed.

Lemma follows_event fd env a s b s' :
  follows a s → handle_event write_answer settime options fd env s = Some (b, s') →
  follows (if stops (as_fds a) fd then a else ask_event (si_bus s) (nc_node_id (nl_config n0)) fd env a) s'.
Proof.
  intros Hf. unfold handle_event, stops. rewrite <- (fo_fds _ _ _ _ Hf).
  destruct (fd =? sf_signal (si_fds s)); [by intros [= <- <-]|].
  destruct (fd_valid _ && _) eqn:Hd; [by intros [= <- <-]|]. cbv zeta. cbn [orb]. unfold NodeSimApp.ask_event.
  rewrite <- (fo_fds _ _ _ _ Hf).
  set (s1 := when _ _ s). set (a1 := if fd =? sf_heartbeat (si_fds s) then _ else a).
  assert (H1 : follows a1 s1 ∧ same_stops s s1).
  { split; [|apply when_stops, heartbeat_stops]. apply follows_when; [done|]. intros _. by apply follows_clock, follows_heartbeat. }
  assert (F1 : as_fds a1 = si_fds s).
  { subst a1. rewrite (fo_fds _ _ _ _ Hf). repeat case_match; by rewrite ?ask_clocked_fds. }
  clearbody s1 a1. destruct H1 as [H1 Q1]. rewrite (fo_fds _ _ _ _ H1), F1.
  set (s2 := when _ _ s1). set (a2 := if fd =? sf_delay (si_fds s) then _ else a1).
  assert (H2 : follows a2 s2 ∧ same_stops s s2).
  { split; [apply follows_when; [done|]; intros _; by apply follows_clock|].
    etrans; [exact Q1|]. apply when_stops, same_io_stops, with_clock_same, flush_pending_same. }
  assert (F2 : as_fds a2 = si_fds s) by (subst a2; case_match; by rewrite ?ask_clocked_fds).
  clearbody s2 a2. destruct H2 as [H2 Q2]. rewrite (fo_fds _ _ _ _ H2), F2.
  set (s3 := when _ _ s2). set (a3 := if fd_valid (sf_restart _) && _ then _ else a2).
  assert (H3 : follows a3 s3 ∧ same_stops s s3).
  { split; [apply follows_when; [done|]; intros []%andb_prop; apply follows_restart; [by rewrite (fo_fds _ _ _ _ H2), F2|done]|].
    etrans; [exact Q2|]. apply when_stops, restart_branch_stops. }
  assert (F3 : sf_illegal (as_fds a3) = sf_illegal (si_fds s)) by (subst a3; case_match; cbn; by rewrite F2).
  clearbody s3 a3. destruct H3 as [H3 Q3]. rewrite (fo_fds _ _ _ _ H3), F3.
  set (s4 := when _ _ s3). set (a4 := if fd_valid (sf_illegal _) && _ then _ else a3).
  assert (H4 : follows a4 s4 ∧ same_stops s s4).
  { split; [apply follows_when; [done|]; intros []%andb_prop; apply follows_illegal; [by rewrite (fo_fds _ _ _ _ H3), F3|done]|].
    etrans; [exact Q3|]. apply when_stops, illegal_branch_stops. }
  clearbody s4 a4. destruct H4 as [H4 (_ & _ & Q4)]. rewrite <- Q4.
  destruct (fd =? sc_fd (si_bus s4)); [|by intros [= <- <-]].
  pose proof (follows_drain write_answer settime options n0 (ev_rx env) a4 s4 H4) as Hs'.
  destruct (drain_can _ _ _ _ _) as [[] s5]; [|done]. by intros [= <- <-].
Qed.

Lemma follows_events ready : ∀ envs a s b s',
  follows a s → handle_events write_answer settime options ready envs s = Some (b, s') →
  follows (ask_events (si_bus s) (nc_node_id (nl_config n0)) ready envs a) s'.
Proof.
  induction ready as [|[fd ev] ready IH]; intros [|env envs] a s b s' Hf; cbn [handle_events NodeSimApp.ask_events];
    [by intros [= <- <-]..|done|].
  destruct (handle_event _ _ _ fd env s) as [[c s1]|] eqn:He; [|done].
  pose proof (follows_event _ _ _ _ _ _ Hf He) as H1. apply handle_event_stops in He as [(_ & _ & Q) ->].
  rewrite (fo_fds _ _ _ _ Hf) in *. destruct (stops (as_fds a) fd); cbn [negb]; [by intros [= <- <-]|].
  intros He. rewrite <- Q. eapply IH; [by rewrite Q|exact He].
Qed.
End Refinement.

(** *** The order of the commands *)

Section Order.
Context (options : Options) (bus : SocketCan) (node_id : Z).
Local Notation delay := (so_fault_delay_response_ms options).
Hypothesis delay_nonneg : 0 ≤ delay.

(** The commands [got] so far have run, or wait, in the order they came in. *)
Record in_order (got : list (WireOutputCommand * Z)) (a : Asked) : Prop := {
  io_got : ran (as_ops a) ++ as_waiting a = got;
  io_timely : Forall (op_timely delay) (as_ops a);
  io_now : delay = 0 → as_waiting a = []
}.

Lemma in_order_ask got o a : op_command o = [] → in_order got a → in_order got (ask o a).
Proof.
  intros Ho [Hg Ht Hn]. constructor; [|cbn; apply Forall_app; split; [done|]; constructor; [by destruct o|done]|done].
  unfold ask. cbn [as_ops as_waiting update]. rewrite ran_app. unfold ran at 2. cbn. by rewrite Ho, app_nil_r.
Qed.

(** Commands in the order of their receive times: the due ones come first. *)
Lemma due_first now l :
  StronglySorted Z.le (map snd l) → filter (due options now) l ++ filter (λ p, ¬ due options now p) l = l.
Proof.
  induction l as [|p l IH]; [done|]. cbn [map]. intros [Hs Hle]%StronglySorted_inv.
  destruct (decide (due options now p)) as [Hd|Hd].
  - rewrite filter_cons_True, (filter_cons_False (λ p, ¬ due options now p)) by tauto. cbn. by rewrite IH.
  - rewrite filter_cons_False, (filter_cons_True (λ p, ¬ due options now p)) by tauto.
    assert (Hn : Forall (λ q, ¬ due options now q) l).
    { rewrite Forall_map in Hle. eapply Forall_impl; [exact Hle|]. cbn. unfold due in *. intros. lia. }
    assert (He : filter (due options now) l = []).
    { clear -Hn. induction Hn as [|q l Hq _ IH]; [done|]. by rewrite filter_cons_False. }
    rewrite He in *. cbn in *. by rewrite IH.
Qed.

Lemma ran_commands now l : ran (map (λ p, SimCommand (fst p) (snd p) now) l) = l.
Proof. unfold ran. induction l as [|[c r] l IH]; cbn; [done|]. by rewrite IH. Qed.

Lemma in_order_flush got now a :
  StronglySorted Z.le (map snd got) → in_order got a → in_order got (ask_flush options now a).
Proof.
  intros Hs [Hg Ht Hn]. rewrite <- Hg, map_app in Hs. apply StronglySorted_app_1_r in Hs. constructor.
  - unfold ask_flush. cbn [as_ops as_waiting update]. rewrite ran_app, <- app_assoc. rewrite <- Hg. f_equal.
    change (ran (SimExpire now :: ?l)) with (ran l). rewrite ran_commands. by apply due_first.
  - cbn. apply Forall_app. split; [done|]. constructor; [done|]. apply Forall_map, Forall_forall. intros p Hp.
    apply list_elem_of_filter in Hp as [Hd Hp]. cbn. split; [exact Hd|]. intros H0. rewrite (Hn H0) in Hp.
    by apply elem_of_nil in Hp.
  - intros H0. cbn. by rewrite (Hn H0).
Qed.

Lemma in_order_clocked got c a :
  StronglySorted Z.le (map snd got) → in_order got a → in_order got (ask_clocked options c a).
Proof. intros Hs Ha. unfold ask_clocked. destruct (monotonic_now_ns c); [by apply in_order_flush|done]. Qed.

Lemma in_order_command got cmd now a : in_order got a → in_order (got ++ [(cmd, now)]) (ask_command options cmd now a).
Proof.
  intros [Hg Ht Hn]. unfold ask_command. destruct (Z.leb_spec delay 0).
  - specialize (Hn ltac:(lia)). rewrite Hn, app_nil_r in Hg. constructor; cbn [ask as_ops as_waiting update]; [| |done].
    + by rewrite ran_app, Hn, app_nil_r, Hg.
    + apply Forall_app. split; [done|]. repeat constructor; lia.
  - constructor; cbn [as_ops as_waiting update]; [by rewrite app_assoc, Hg|done|lia].
Qed.

Lemma in_order_drain turns : ∀ got a,
  in_order got a → in_order (got ++ heard bus node_id turns) (ask_drain options bus node_id turns a).
Proof.
  induction turns as [|t turns IH]; intros got a Ha; cbn [ask_drain heard]; [by rewrite app_nil_r|].
  destruct (sc_receive _ _ _ _) as [frame|]; [|by rewrite app_nil_r].
  destruct (monotonic_now_ns _) as [now|]; [|by rewrite app_nil_r]. cbv zeta.
  destruct (_ || _); [by apply IH|]. destruct (decode_output_command frame) as [cmd|].
  - rewrite app_assoc. by apply IH, in_order_command.
  - by apply IH, in_order_ask.
Qed.

Lemma in_order_fds got a put : in_order got a → in_order got (a <| as_fds ::= put |>).
Proof. by intros []. Qed.

Lemma in_order_event got fd env a :
  StronglySorted Z.le (map snd got) → in_order got a →
  in_order (got ++ if fd =? sc_fd bus then heard bus node_id (ev_rx env) else []) (ask_event options bus node_id fd env a).
Proof.
  intros Hs Ha. unfold ask_event. cbv zeta.
  set (a1 := if fd =? sf_heartbeat _ then _ else a). assert (H1 : in_order got a1).
  { subst a1. destruct (_ =? _); [|done]. apply in_order_clocked; [done|].
    destruct (so_fault_stop_heartbeat _); [done|by apply in_order_ask]. } clearbody a1.
  set (a2 := if fd =? sf_delay _ then _ else a1). assert (H2 : in_order got a2).
  { subst a2. destruct (_ =? _); [by apply in_order_clocked|done]. } clearbody a2.
  set (a3 := if fd_valid (sf_restart _) && _ then _ else a2). assert (H3 : in_order got a3).
  { subst a3. destruct (_ && _); [by apply in_order_fds, in_order_ask|done]. } clearbody a3.
  set (a4 := if fd_valid (sf_illegal _) && _ then _ else a3). assert (H4 : in_order got a4).
  { subst a4. destruct (_ && _); [by apply in_order_fds, in_order_ask|done]. } clearbody a4.
  destruct (fd =? sc_fd bus); [by apply in_order_drain|by rewrite app_nil_r].
Qed.

Lemma ask_drain_fds turns : ∀ a, as_fds (ask_drain options bus node_id turns a) = as_fds a.
Proof.
  induction turns as [|t turns IH]; intros a; cbn [ask_drain]; [done|].
  destruct (sc_receive _ _ _ _); [|done]. destruct (monotonic_now_ns _); [|done]. cbv zeta. rewrite IH.
  destruct (_ || _); [done|]. destruct (decode_output_command _); [|done]. unfold ask_command. by destruct (_ <=? _).
Qed.

(** An event leaves the descriptors that stop the loop. *)
Lemma ask_event_stops fd env a x : stops (as_fds (ask_event options bus node_id fd env a)) x = stops (as_fds a) x.
Proof.
  unfold ask_event, ask_clocked. cbv zeta. repeat case_match; by rewrite ?ask_drain_fds.
Qed.

Lemma events_heard_stops f f' ready : ∀ envs,
  (∀ x, stops f x = stops f' x) → events_heard f bus node_id ready envs = events_heard f' bus node_id ready envs.
Proof.
  induction ready as [|[fd ev] ready IH]; intros [|env envs] Hs; cbn; try done. rewrite Hs. by rewrite (IH envs Hs).
Qed.

Lemma in_order_events ready : ∀ envs got a,
  StronglySorted Z.le (map snd (got ++ events_heard (as_fds a) bus node_id ready envs)) → in_order got a →
  in_order (got ++ events_heard (as_fds a) bus node_id ready envs) (ask_events options bus node_id ready envs a).
Proof.
  induction ready as [|[fd ev] ready IH]; intros [|env envs] got a Hs Ha; cbn [ask_events events_heard] in *;
    try (by rewrite app_nil_r).
  destruct (stops (as_fds a) fd); [by rewrite app_nil_r|].
  rewrite (events_heard_stops _ (as_fds (ask_event options bus node_id fd env a))) in *
    by (intros; by rewrite ask_event_stops).
  rewrite app_assoc in *. apply IH; [done|]. apply in_order_event; [|done].
  rewrite 2!map_app in Hs. by do 2 apply StronglySorted_app_1_l in Hs.
Qed.
End Order.

(** *** The start *)

Record options_ok (o : Options) : Prop := {
  ok_node : legal_node (so_node_id o);
  ok_heartbeat : 1 ≤ so_heartbeat_ms o ≤ 60000;
  ok_duration : 0 ≤ so_duration_ms o;
  ok_boot : 1 ≤ so_boot_id o ≤ 65535;
  ok_session : 1 ≤ so_session_id o ≤ 65535;
  ok_inputs : 0 ≤ so_input_bits o ≤ 65535;
  ok_delay : 0 ≤ so_fault_delay_response_ms o ≤ 60000
}.

Lemma parse_u16_range value v : parse_u16 value = Some v → 0 ≤ v ≤ 65535.
Proof.
  unfold parse_u16. intros (w & Hw & ->)%fmap_Some. apply parse_ranged_range in Hw. rewrite u16_small by width_lia. done.
Qed.

Lemma set_option_ok arg value o o' : options_ok o → set_option arg value o = Some o' → options_ok o'.
Proof.
  intros [] Hs. unfold set_option in Hs. repeat case_match; simplify_eq; bools;
    repeat match goal with
    | H : parse_ranged _ _ _ = Some _ |- _ => apply parse_ranged_range in H
    | H : parse_u16 _ = Some _ |- _ => apply parse_u16_range in H
    end; constructor; cbn; try done; try lia.
  unfold legal_node. rewrite u8_small by width_lia. lia.
Qed.

Lemma sim_options_ok n : ∀ args o o',
  (length args ≤ n)%nat → options_ok o → parse_options args o = Some o' → options_ok o'.
Proof.
  induction n as [|n IH]; intros [|arg args] o o' Hl Ho; cbn [length] in Hl; try lia; cbn [parse_options];
    try (by intros [= <-]).
  destruct (arg =? "--fault-stop-heartbeat")%string; [apply IH; [lia|by destruct Ho; constructor]|].
  destruct (_ || _); [done|]. destruct args as [|value args]; [done|]. cbn [length] in Hl.
  destruct (set_option arg value o) as [o1|] eqn:Hs; [|done]. apply IH; [lia|]. by eapply set_option_ok.
Qed.

Lemma default_options_ok : options_ok default_options.
Proof. constructor; cbn; unfold legal_node; lia. Qed.

(** What a start that reaches the loop leaves. *)
Lemma sim_start_ready args env k o s :
  sim_start args env k = Loops o s →
  options_ok o ∧ sc_is_open (si_bus s) = true ∧ si_node s = node_new (logic_config o) ∧ si_pending s = [] ∧
  si_tx s = [] ∧ si_expiry s = None.
Proof.
  unfold sim_start. destruct (parse_options args default_options) as [o1|] eqn:Hp; [|done].
  apply (sim_options_ok (length args)) in Hp; [|done|apply default_options_ok].
  destruct (probe_can_interface _ _ _); try done.
  destruct (sc_open _ _ _) as [[bus k1] [[]|]]; [|done].
  destruct (sc_set_nonblocking _ _ bus) eqn:Hn; [|done]. destruct (open_fds env o1 k1) as [f k2].
  destruct (_ || _); [done|]. cbv zeta. destruct (negb _); [done|]. destruct (add_fds _ _ _); [|done].
  intros [= <- <-]. cbn. split_and!; try done. unfold sc_set_nonblocking in Hn. by destruct (sc_is_open bus).
Qed.

(** The loop is a sequence of handled descriptors. *)
Lemma handle_events_app w st o ready1 envs1 ready2 envs2 s s1 :
  length ready1 = length envs1 → handle_events w st o ready1 envs1 s = Some (true, s1) →
  handle_events w st o (ready1 ++ ready2) (envs1 ++ envs2) s = handle_events w st o ready2 envs2 s1.
Proof.
  revert envs1 s. induction ready1 as [|[fd e] ready1 IH]; intros [|env envs1] s Hl; cbn in *; try done; [congruence|].
  destruct (handle_event _ _ _ _ _ _) as [[[] s2]|]; try done. intros. apply IH; [lia|done].
Qed.

Lemma handle_events_enough w st o ready : ∀ envs s r,
  handle_events w st o ready envs s = Some (true, r) →
  ∃ envs', length ready = length envs' ∧ handle_events w st o ready envs' s = Some (true, r).
Proof.
  induction ready as [|[fd e] ready IH]; intros [|env envs] s r; cbn; try done; [by exists []..|].
  destruct (handle_event _ _ _ _ _ _) as [[[] s2]|] eqn:He; try done. intros (envs' & Hl & Hr)%IH.
  exists (env :: envs'). cbn. rewrite He. by split; [f_equal|].
Qed.

Lemma sim_loop_events w st o wakes : ∀ s s',
  sim_loop w st o wakes s = Some s' → ∃ ready envs b, handle_events w st o ready envs s = Some (b, s').
Proof.
  induction wakes as [|wake wakes IH]; intros s s'; cbn; [done|].
  destruct (ep_wait _ _ _ _) as [[ready|]|]; [| |done]; [|intros [= <-]; by exists [], [], true].
  destruct (handle_events _ _ _ _ _ _) as [[[] s1]|] eqn:He; [| |done].
  - intros (ready2 & envs2 & b & H2)%IH. apply handle_events_enough in He as (envs1 & Hl & He).
    exists (ready ++ ready2), (envs1 ++ envs2), b. by rewrite (handle_events_app _ _ _ _ _ _ _ _ _ Hl He).
  - intros [= <-]. by exists ready, (wk_events wake), false.
Qed.

(** C31.  The simulator is the node logic on a bus: after a start and any sequence of ready
    descriptors, the node is in the state that the operations asked of it lead to, and the
    frames written so far are exactly its answers to them, in order: [ask_events] computes
    the operations from the kernel's answers, one heartbeat per heartbeat timer (none with
    that fault injected), each command addressed to the node once, when its injected delay
    is over, a refusal for each that cannot be decoded, one restart and one bad heartbeat at
    most.  With a clock that does not run backwards the commands run in the order they were
    received: those that have run and those that wait are together the commands read from
    the socket, each run no sooner than its injected delay, immediately when there is
    none. *)
Theorem simulator_is_node write_answer settime args env k o ready envs s0 b s :
  sim_start args env k = Loops o s0 →
  handle_events write_answer settime o ready envs s0 = Some (b, s) →
  let asked := ask_events o (si_bus s0) (so_node_id o) ready envs (mkAsked [] [] (si_fds s0)) in
  let got := events_heard (si_fds s0) (si_bus s0) (so_node_id o) ready envs in
  si_node s = fst (ops_run o (as_ops asked) (node_new (logic_config o))) ∧
  map fst (si_tx s) = map to_kernel_frame (snd (ops_run o (as_ops asked) (node_new (logic_config o)))) ∧
  pending_commands s = as_waiting asked ∧
  (StronglySorted Z.le (map snd got) →
    ran (as_ops asked) ++ as_waiting asked = got ∧
    Forall (op_timely (so_fault_delay_response_ms o)) (as_ops asked)).
Proof.
  intros (Hopt & Ho & Hn & Hp & Hx & _)%sim_start_ready He asked got.
  assert (Hf : follows o (node_new (logic_config o)) (mkAsked [] [] (si_fds s0)) s0).
  { constructor; [constructor; [done|done|by rewrite Hx]|unfold pending_commands; by rewrite Hp|done|by rewrite Hp]. }
  eapply follows_events in He; [|exact Hf]. destruct He as [[_ Hn' Hx'] Hw _ _]. split_and!; [done..|]. intros Hs.
  destruct (in_order_events o (si_bus s0) (so_node_id o) ltac:(destruct (ok_delay _ Hopt); lia) ready envs []
    (mkAsked [] [] (si_fds s0))) as [Hg Ht _]; [exact Hs|by constructor|done].
Qed.

(** *** The deadline timer *)

Lemma ms_timespec_ns ms : timespec_to_ns (ms_timespec ms) = ms * 1000000.
Proof. unfold timespec_to_ns, ms_timespec. cbn. pose proof (Z.quot_rem' ms 1000). lia. Qed.

Lemma expire_live now n :
  let n' := fst (expire_output_lease now n) in nl_lease_active n' = true → now < nl_lease_deadline_ns n'.
Proof. unfold expire_output_lease. destruct (_ || _) eqn:H; cbn; [|done]. intros Ha. rewrite Ha in H. bools. cbn in *. lia. Qed.

(** After a command the lease, if any, is still running. *)
Lemma apply_command_live cmd r now n :
  let n' := fst (apply_command cmd r now n) in nl_lease_active n' = true → now < nl_lease_deadline_ns n'.
Proof.
  pose proof (apply_command_cases cmd r now n) as Hc. pose proof (expire_live now n) as He. cbv zeta in *.
  destruct (apply_command cmd r now n) as [n' h]. cbn [fst].
  destruct Hc as (_ & _ & _ & _ & _ & [(_ & (_ & _ & _ & Hd) & ->)|(_ & _ & ->)]); [|done]. by intros _.
Qed.

Section Timer.
Context (write_answer : nat → IoAnswer) (settime : nat → option Z) (options : Options) (latency : Z).
Hypothesis no_delay : so_fault_delay_response_ms options = 0.
Hypothesis timer_sets : ∀ i, ∃ d, settime i = Some d ∧ 0 ≤ d ≤ latency.

(** The timer stands for the lease: set to its deadline, rounded up to a millisecond. *)
Record armed (s : Sim) : Prop := {
  ar_pending : si_pending s = [];
  ar_lease : nl_lease_active (si_node s) = true →
    ∃ e, si_expiry s = Some e ∧
      nl_lease_deadline_ns (si_node s) ≤ e ≤ nl_lease_deadline_ns (si_node s) + 999999 + latency;
  ar_idle : nl_lease_active (si_node s) = false → si_expiry s = None
}.

Lemma armed_same s s' :
  armed s → si_pending s' = si_pending s → si_expiry s' = si_expiry s →
  nl_lease_active (si_node s') = nl_lease_active (si_node s) →
  nl_lease_deadline_ns (si_node s') = nl_lease_deadline_ns (si_node s) → armed s'.
Proof. intros [] Hp He Ha Hd. constructor; by rewrite ?Hp, ?He, ?Ha, ?Hd. Qed.

Lemma arm_armed now s :
  si_pending s = [] → (nl_lease_active (si_node s) = true → now < nl_lease_deadline_ns (si_node s)) →
  armed (arm_deadline_timer settime now s).
Proof.
  intros Hp Hl. destruct (arm_deadline_keeps settime now s) as (Hn & Hp' & _). rewrite Hp in Hp'.
  revert Hn Hp'. unfold arm_deadline_timer, min_due, arm_oneshot_timerfd. rewrite Hp. cbn [andb foldl].
  destruct (timer_sets (si_settimes s)) as (d & -> & Hd). destruct (nl_lease_active (si_node s)) eqn:Ha; cbn [negb].
  - specialize (Hl eq_refl). rewrite (proj2 (Z.ltb_lt _ _) Hl).
    set (ms := Z.quot _ _). assert (Hms : nl_lease_deadline_ns (si_node s) - now ≤ ms * 1000000 ≤
      nl_lease_deadline_ns (si_node s) - now + 999999).
    { subst ms. rewrite Z.quot_div_nonneg by lia.
      pose proof (Z.div_mod (nl_lease_deadline_ns (si_node s) - now + 999999) 1000000).
      pose proof (Z.mod_pos_bound (nl_lease_deadline_ns (si_node s) - now + 999999) 1000000). lia. }
    clearbody ms. rewrite (proj2 (Z.ltb_lt 0 ms)) by lia. rewrite ms_timespec_ns.
    rewrite (proj2 (Z.eqb_neq _ _)) by lia. intros Hn Hp'. constructor; [done| |]; cbn; rewrite ?Ha; [|done].
    intros _. eexists. split; [done|]. lia.
  - intros Hn Hp'. constructor; [done| |]; cbn; by rewrite Ha.
Qed.

Lemma send_wire_keeps f s :
  let s' := send_wire write_answer f s in
  si_pending s' = si_pending s ∧ si_expiry s' = si_expiry s ∧ si_node s' = si_node s.
Proof. unfold send_wire. by destruct (sc_send _ _ _) as [[]]. Qed.

Lemma run_command_node cmd r now s :
  let s' := run_command write_answer cmd r now s in
  si_pending s' = si_pending s ∧ si_node s' = fst (apply_command cmd r now (si_node s)).
Proof.
  unfold run_command. destruct (apply_command _ _ _ _) as [n h]. destruct (hr_send_status h); [|done].
  unfold send_status. destruct (encode_output_status _) as [f|]; [|done].
  destruct (send_wire_keeps f (s <| si_node := n |>)) as (Hp & _ & Hn). by rewrite Hp, Hn.
Qed.

Lemma flush_armed now s : armed s → armed (flush_pending_commands write_answer settime now s).
Proof.
  intros [Hp _ _]. unfold flush_pending_commands. cbn [si_pending update]. rewrite Hp. cbn [flush_loop].
  apply arm_armed; [done|]. apply expire_live.
Qed.

Lemma drain_armed turns : ∀ s, armed s → armed (snd (drain_can write_answer settime options turns s)).
Proof.
  induction turns as [|t turns IH]; intros s Ha; cbn [drain_can]; [done|].
  destruct (sc_receive _ _ _ _) as [frame|]; [|done]. destruct (monotonic_now_ns _) as [now|]; [|done]. cbv zeta.
  destruct (_ || _) eqn:Hid; [by apply IH|]. destruct (decode_output_command frame) as [cmd|] eqn:Hd; apply IH.
  - unfold handle_command_now_or_later. rewrite no_delay. cbn [Z.leb Z.compare].
    destruct (run_command_node cmd now now s) as [Hp Hn]. destruct Ha as [Hp0 _ _].
    apply arm_armed; [congruence|]. rewrite Hn. apply apply_command_live.
  - eapply armed_same; [exact Ha|done|done|..]; cbn; unfold on_frame; fold kCanSffMask; rewrite Hd;
      by destruct (_ || _).
Qed.

Lemma heartbeat_armed s : armed s → armed (send_heartbeat write_answer options s).
Proof.
  intros Ha. unfold send_heartbeat. destruct (so_fault_stop_heartbeat options); [done|]. cbn [make_heartbeat]. cbv zeta.
  assert (H1 : ∀ r s, armed s → armed (match r with Ok st => send_wire write_answer st s | Err _ => s end)).
  { intros [f|] s1 H1; [|done]. destruct (send_wire_keeps f s1) as (Hp & He & Hn). eapply armed_same; [exact H1|done..| |];
      by rewrite Hn. }
  apply H1. set (s1 := s <| si_node := _ |>). assert (Ha1 : armed s1) by (by apply (armed_same s)). clearbody s1.
  destruct (encode_heartbeat _) as [f|]; [|done]. by apply (armed_same (send_wire write_answer f s1)); [apply (H1 (Ok f))|..].
Qed.

Lemma retire_armed get put ok s : armed s → armed (retire_timer get put ok s).
Proof.
  intros Ha. destruct (retire_timer_keeps get put ok s) as (_ & Hn & _ & Hp & He).
  eapply armed_same; [exact Ha|done..| |]; by rewrite Hn.
Qed.

Lemma event_armed fd env s b s' :
  ev_clock env ≠ None → armed s → handle_event write_answer settime options fd env s = Some (b, s') → armed s'.
Proof.
  intros Hc Ha. assert (Hw : ∀ f s, (∀ now, armed (f now s)) → armed (with_clock (ev_clock env) f s)).
  { intros f s1 Hf. unfold with_clock. destruct (ev_clock env); [apply Hf|done]. }
  unfold handle_event. destruct (fd =? sf_signal (si_fds s)); [by intros [= <- <-]|].
  destruct (fd_valid _ && _); [by intros [= <- <-]|]. cbv zeta.
  set (s1 := when _ _ s). assert (H1 : armed s1).
  { subst s1. destruct (fd =? _); [|done]. apply Hw. intros now. by apply flush_armed, heartbeat_armed. } clearbody s1.
  set (s2 := when _ _ s1). assert (H2 : armed s2).
  { subst s2. destruct (fd =? _); [|done]. apply Hw. intros now. by apply flush_armed. } clearbody s2.
  set (s3 := when _ _ s2). assert (H3 : armed s3).
  { subst s3. destruct (fd_valid _ && _); [|done]. apply retire_armed, Hw. intros now. by apply arm_armed; [apply H2|]. }
  clearbody s3. set (s4 := when _ _ s3). assert (H4 : armed s4).
  { subst s4. destruct (fd_valid _ && _); [|done]. apply retire_armed.
    destruct (send_wire_keeps (illegal_heartbeat options) s3) as (Hp & He & Hn). apply (armed_same s3); [done..| |]; by rewrite Hn. }
  clearbody s4. pose proof (drain_armed (ev_rx env) s4 H4) as H5.
  destruct (fd =? _); [|by intros [= <- <-]]. destruct (drain_can _ _ _ _ _) as [[] s5]; [|done]. by intros [= <- <-].
Qed.

Lemma events_armed ready : ∀ envs s b s',
  Forall (λ env, ev_clock env ≠ None) envs → armed s →
  handle_events write_answer settime options ready envs s = Some (b, s') → armed s'.
Proof.
  induction ready as [|[fd ev] ready IH]; intros [|env envs] s b s' Hc Ha; cbn [handle_events];
    try (by intros [= <- <-]). apply Forall_cons in Hc as [Hc Hcs].
  destruct (handle_event _ _ _ _ _ _) as [[[] s1]|] eqn:He; [| |done]; apply event_armed in He; try done.
  - by apply IH.
  - by intros [= <- <-].
Qed.
End Timer.

(** C32.  No output outlives its lease by more than the timer's rounding: without injected
    delay, with a clock that can be read and settings of the timer that succeed within
    [latency], the deadline timer is armed exactly while a lease is active, never to expire
    before the lease's deadline and at most 999999 ns plus [latency] after it; whenever it
    fires, the handler finds the lease over, and outputs and lease are gone afterwards. *)
Theorem deadline_timer_guards_lease write_answer settime latency args env k o ready envs s0 b s :
  sim_start args env k = Loops o s0 → so_fault_delay_response_ms o = 0 →
  (∀ i, ∃ d, settime i = Some d ∧ 0 ≤ d ≤ latency) → Forall (λ env, ev_clock env ≠ None) envs →
  handle_events write_answer settime o ready envs s0 = Some (b, s) →
  (nl_lease_active (si_node s) = true ↔ ∃ e, si_expiry s = Some e) ∧
  (∀ e, si_expiry s = Some e →
     nl_lease_deadline_ns (si_node s) ≤ e ≤ nl_lease_deadline_ns (si_node s) + 999999 + latency ∧
     ∀ now, e ≤ now → let s' := flush_pending_commands write_answer settime now s in
       nl_output_bits (si_node s') = 0 ∧ nl_lease_active (si_node s') = false ∧ si_expiry s' = None).
Proof.
  intros (Hopt & Ho & Hn & Hp & Hx & He)%sim_start_ready Hd Hset Hc Hrun.
  apply (events_armed write_answer settime o latency Hd Hset) in Hrun; [|done|].
  2:{ constructor; [done|by rewrite Hn|done]. }
  pose proof Hrun as [Hp' Hl Hi]. destruct (nl_lease_active (si_node s)) eqn:Hact.
  - destruct (Hl eq_refl) as (e & He' & Hb). split; [naive_solver|]. intros e1. rewrite He'. intros [= <-]. split; [done|].
    intros now Hnow s'. apply (flush_armed write_answer settime latency Hset now) in Hrun. fold s' in Hrun.
    assert (Hs' : si_node s' = drop_lease (si_node s)).
    { subst s'. unfold flush_pending_commands. cbn [si_pending update]. rewrite Hp'. cbn [flush_loop].
      match goal with |- context [arm_deadline_timer settime now ?x] =>
        destruct (arm_deadline_keeps settime now x) as (-> & _) end. cbn. unfold expire_output_lease. rewrite Hact. cbn [negb orb].
      by rewrite (proj2 (Z.ltb_ge _ _)) by lia. }
    rewrite Hs'. split_and!; [done|done|]. destruct Hrun as [_ _ Hi']. apply Hi'. by rewrite Hs'.
  - rewrite (Hi eq_refl). naive_solver.
Qed.

(** *** Descriptors *)

Lemma accounted_timer base fds spec answer settime k :
  accounted base fds k → fresh_answer answer k →
  accounted base (fst (fst (open_timer spec answer settime k)) :: fds) (snd (open_timer spec answer settime k)).
Proof.
  intros Ha Hf. pose proof (accounted_create _ _ _ _ Ha Hf) as Hc. unfold open_timer.
  destruct answer as [fd|]; [|done]. destruct settime; [done|]. cbn [negb fst snd].
  destruct (Hf fd eq_refl) as [_ Hnew]. rewrite k_create_close by done. by destruct Ha; constructor.
Qed.

Lemma accounted_oneshot base fds ms answer settime k :
  accounted base fds k → fresh_answer answer k →
  accounted base (fst (fst (make_oneshot_timerfd ms answer settime k)) :: fds) (snd (make_oneshot_timerfd ms answer settime k)).
Proof.
  intros Ha Hf. unfold make_oneshot_timerfd. destruct (ms <=? 0); [by destruct Ha; constructor|]. by apply accounted_timer.
Qed.

(** Each creating call answers with a descriptor that is not open, or fails. *)
Definition allocates (env : StartEnv) : Prop := ∀ i k, fresh_answer (sn_alloc env i k) k.

Lemma accounted_open_fds base env o fds k :
  allocates env → accounted base fds k →
  accounted base (owned_fds (fst (open_fds env o k)) ++ fds) (snd (open_fds env o k)).
Proof.
  intros Hal Ha. unfold open_fds.
  assert (Hs : accounted base (fst (make_signalfd (sn_mask env) (sn_alloc env 1 k) k) :: fds)
                 (snd (make_signalfd (sn_mask env) (sn_alloc env 1 k) k))).
  { unfold make_signalfd. destruct (sn_mask env); cbn [negb fst snd]; [by apply accounted_create|by destruct Ha; constructor]. }
  destruct (make_signalfd _ _ _) as [signal k1]. cbn [fst snd] in Hs.
  pose proof (accounted_timer _ _ (mkItimerspec (ms_timespec (so_heartbeat_ms o)) (ms_timespec (so_heartbeat_ms o)))
    (sn_alloc env 2 k1) (sn_settime env 2) k1 Hs (Hal 2%nat k1)) as H2. unfold make_periodic_timerfd.
  destruct (open_timer _ _ _ _) as [[heartbeat sp] k2]. cbn [fst snd] in H2.
  pose proof (accounted_oneshot _ _ (so_duration_ms o) _ (sn_settime env 3) _ H2 (Hal 3%nat k2)) as H3.
  destruct (make_oneshot_timerfd (so_duration_ms o) _ _ _) as [[duration sp3] k3]. cbn [fst snd] in H3.
  pose proof (accounted_oneshot _ _ (so_fault_restart_after_ms o) _ (sn_settime env 4) _ H3 (Hal 4%nat k3)) as H4.
  destruct (make_oneshot_timerfd (so_fault_restart_after_ms o) _ _ _) as [[restart sp4] k4]. cbn [fst snd] in H4.
  pose proof (accounted_oneshot _ _ (so_fault_send_illegal_after_ms o) _ (sn_settime env 5) _ H4 (Hal 5%nat k4)) as H5.
  destruct (make_oneshot_timerfd (so_fault_send_illegal_after_ms o) _ _ _) as [[illegal sp5] k5]. cbn [fst snd] in H5.
  exact (accounted_create _ _ _ _ H5 (Hal 6%nat k5)).
Qed.

(** All the descriptors of the process. *)
Definition all_fds (s : Sim) : list Z := ep_fd (si_reactor s) :: owned_fds (si_fds s) ++ [sc_fd (si_bus s)].

Lemma reactor_control_fd op fd ev ok r : ep_fd (fst (ep_control op fd ev ok r)) = ep_fd r.
Proof. unfold ep_control. by repeat case_match. Qed.

Lemma add_fds_fd fds : ∀ ok r r', add_fds fds ok r = Some r' → ep_fd r' = ep_fd r.
Proof.
  induction fds as [|fd fds IH]; intros ok r r'; cbn; [by intros [= ->]|].
  pose proof (reactor_control_fd EPOLL_CTL_ADD fd EPOLLIN (ok 0%nat) r) as He. unfold ep_add.
  destruct (ep_control _ _ _ _ _) as [r1 [[]|]]; [|done]. intros ->%IH. exact He.
Qed.

Lemma sim_start_accounted args env k :
  allocates env →
  match sim_start args env k with
  | Exits _ k' => k' = k
  | Loops o s => accounted k (all_fds s) (si_kernel s)
  end.
Proof.
  intros Hal. unfold sim_start. destruct (parse_options _ _) as [o|]; [|done].
  destruct (probe_can_interface _ _ _); try done.
  assert (Hb : match sc_open (mkOpenEnv (sn_alloc env 0 k) (sn_ioctl env) (sn_bind env)) (sc_new (so_can_if o)) k with
    | ((_, k'), Err _) => k' = k | ((bus, k'), Ok _) => accounted k [sc_fd bus] k' end)
    by (apply accounted_open; [done|apply Hal]).
  destruct (sc_open _ _ _) as [[bus k1] [[]|]]; [|done].
  destruct (sc_set_nonblocking _ _ bus) as [|]; [|apply accounted_done; by apply (accounted_close_all k [_] [])].
  pose proof (accounted_open_fds k env o _ k1 Hal Hb) as H2. destruct (open_fds env o k1) as [f k2]. cbn [fst snd] in H2.
  destruct (_ || _); [apply accounted_done, accounted_close_all; by rewrite app_nil_r|]. cbv zeta.
  pose proof (accounted_create _ _ _ _ H2 (Hal 7%nat k2)) as H3. fold (fd_of (sn_alloc env 7 k2)). cbn [ep_fd].
  assert (Hend : ∀ l k', accounted k l k' → close_fds l k' = k)
    by (intros l k' Hl; apply accounted_done, accounted_close_all; by rewrite app_nil_r).
  destruct (negb _); [by apply Hend|]. destruct (add_fds _ _ _) as [r|] eqn:Hr; [|by apply Hend].
  apply add_fds_fd in Hr. cbn in Hr. unfold all_fds. cbn [si_reactor si_fds si_bus si_kernel]. by rewrite Hr.
Qed.

Definition holds_fds (base : Kernel) (s : Sim) : Prop := accounted base (all_fds s) (si_kernel s).

Lemma holds_same base s s' : same_io s s' → holds_fds base s → holds_fds base s'.
Proof. intros [Hb Hf Hr Hk]. unfold holds_fds, all_fds. by rewrite Hb, Hf, Hr, Hk. Qed.

Lemma retire_holds base get put ok s :
  (∀ f fd, ∃ rest, owned_fds f ≡ₚ get f :: rest ∧ owned_fds (put fd f) ≡ₚ fd :: rest) →
  holds_fds base s → holds_fds base (retire_timer get put ok s).
Proof.
  intros Hg Hh. unfold retire_timer. pose proof (reactor_control_fd EPOLL_CTL_DEL (get (si_fds s)) 0 ok (si_reactor s)) as He.
  unfold ep_remove. destruct (ep_control _ _ _ _ _) as [r x]. cbn [fst] in He.
  destruct (Hg (si_fds s) (fst (fd_reset (get (si_fds s)) (si_kernel s)))) as (rest & H1 & H2).
  assert (Ha : accounted base (get (si_fds s) :: ep_fd (si_reactor s) :: rest ++ [sc_fd (si_bus s)]) (si_kernel s)).
  { eapply accounted_perm; [|exact Hh]. unfold all_fds. rewrite H1. solve_Permutation. }
  apply accounted_reset in Ha. destruct (fd_reset _ _) as [fd' k]. cbn [fst snd] in *.
  unfold holds_fds, all_fds. cbn [si_reactor si_fds si_bus si_kernel update]. rewrite He. eapply accounted_perm; [|exact Ha]. rewrite H2. solve_Permutation.
Qed.

Section Fds.
Context (write_answer : nat → IoAnswer) (settime : nat → option Z) (options : Options) (base : Kernel).

Lemma event_holds fd env s b s' :
  holds_fds base s → handle_event write_answer settime options fd env s = Some (b, s') → holds_fds base s'.
Proof.
  intros Hh. unfold handle_event. destruct (fd =? sf_signal (si_fds s)); [by intros [= <- <-]|].
  destruct (fd_valid _ && _); [by intros [= <- <-]|]. cbv zeta.
  set (s1 := when _ _ s). assert (H1 : holds_fds base s1).
  { subst s1. destruct (fd =? _); [|done]. eapply holds_same; [apply with_clock_same, flush_pending_same|].
    eapply holds_same; [apply send_heartbeat_same|done]. } clearbody s1.
  set (s2 := when _ _ s1). assert (H2 : holds_fds base s2).
  { subst s2. destruct (fd =? _); [|done]. eapply holds_same; [apply with_clock_same, flush_pending_same|done]. }
  clearbody s2. set (s3 := when _ _ s2). assert (H3 : holds_fds base s3).
  { subst s3. destruct (fd_valid _ && _); [|done]. apply retire_holds.
    - intros f x. exists [sf_delay f; sf_illegal f; sf_duration f; sf_heartbeat f; sf_signal f].
      unfold owned_fds; cbn; split; solve_Permutation.
    - eapply holds_same; [apply with_clock_same, arm_deadline_same|]. eapply holds_same; [|exact H2]. by constructor. }
  clearbody s3. set (s4 := when _ _ s3). assert (H4 : holds_fds base s4).
  { subst s4. destruct (fd_valid _ && _); [|done]. apply retire_holds.
    - intros f x. exists [sf_delay f; sf_restart f; sf_duration f; sf_heartbeat f; sf_signal f].
      unfold owned_fds; cbn; split; solve_Permutation.
    - eapply holds_same; [apply send_wire_same|done]. }
  clearbody s4. pose proof (holds_same base _ _ (drain_can_same write_answer settime options (ev_rx env) s4) H4) as H5.
  destruct (fd =? _); [|by intros [= <- <-]]. destruct (drain_can _ _ _ _ _) as [[] s5]; [|done]. by intros [= <- <-].
Qed.

Lemma loop_holds wakes : ∀ s s',
  holds_fds base s → sim_loop write_answer settime options wakes s = Some s' → holds_fds base s'.
Proof.
  intros s s' Hh (ready & envs & b & He)%sim_loop_events. revert envs s b s' Hh He.
  induction ready as [|[fd ev] ready IH]; intros [|env envs] s b s' Hh; cbn [handle_events];
    try (by intros [= <- <-]).
  destruct (handle_event _ _ _ _ _ _) as [[[] s1]|] eqn:He; [| |done]; apply event_holds in He; try done.
  - by apply IH.
  - by intros [= <- <-].
Qed.
End Fds.

Lemma sim_exit_closes remove_ok base s : holds_fds base s → si_kernel (sim_exit remove_ok s) = base.
Proof.
  intros Hl. assert (Hr : ∀ l r, ep_fd (foldl (λ r fd, fst (ep_remove fd (remove_ok fd) r)) r l) = ep_fd r)
    by (intros l; induction l as [|x l IH]; intros r; cbn; [done|]; rewrite IH; apply reactor_control_fd).
  unfold sim_exit. cbv zeta. cbn [si_kernel update]. rewrite Hr.
  apply accounted_done, accounted_close_all. rewrite app_nil_r.
  eapply accounted_perm; [|exact Hl]. unfold all_fds, owned_fds. cbn. solve_Permutation.
Qed.

(** Whenever the program returns, by whatever path, its descriptors are closed once each: the
    kernel is as it was. *)
Theorem simulator_closes_all write_answer settime args env wakes remove_ok k code k' :
  allocates env → sim_main write_answer settime args env wakes remove_ok k = Some (code, k') → k' = k.
Proof.
  intros Hal. unfold sim_main. pose proof (sim_start_accounted args env k Hal) as Hs.
  destruct (sim_start args env k) as [c k1|o s]; [by intros [= _ <-]|].
  destruct (sim_loop _ _ _ _ _) as [s'|] eqn:Hl; [|done]. apply (loop_holds _ _ _ k) in Hl; [|done].
  pose proof (sim_exit_closes remove_ok k s' Hl) as Hk. congruence.
Qed.

(** *** A concrete run *)

Definition demo_start_env : StartEnv :=
  mkStartEnv true (Some 280) (λ i _, Some (Z.of_nat (10 + i))) true true true true true (λ _, true) (λ _, true).
Definition demo_args : list string := ["--can"; "vcan1"; "--session-id"; "7"].
Definition demo_start : StartOutcome := sim_start demo_args demo_start_env (mkKernel ∅ false).
Definition demo_sim : Options * Sim :=
  match demo_start with
  | Loops o s => (o, s)
  | Exits _ _ => (default_options, mkSim (node_new demo_node) [] (sc_new "") [] None 0 0 (mkSimFds 0 0 0 0 0 0) (mkEpoll 0 []) (mkKernel ∅ false))
  end.

(** Two commands on the bus, a heartbeat in between. *)
Definition demo_rx (q sec : Z) : EventEnv :=
  mkEventEnv (Some (mkTimespec sec 0)) true
    [mkRxTurn 1 (ReadFrame (demo_frame q)) (Some (mkTimespec sec 500)); mkRxTurn 1 (ReadErrno EAGAIN) None].
Definition demo_ready : list (Z * Z) := [(10, EPOLLIN); (12, EPOLLIN); (10, EPOLLIN)].
Definition demo_envs : list EventEnv := [demo_rx 1 3; mkEventEnv (Some (mkTimespec 3 600)) true []; demo_rx 2 4].
Definition demo_run : option (bool * Sim) :=
  handle_events (λ _, Full 16) (λ _, Some 20) (fst demo_sim) demo_ready demo_envs (snd demo_sim).
Definition demo_end : Sim := match demo_run with Some (_, s) => s | None => snd demo_sim end.

Lemma simulator_is_node_witness :
  let asked := ask_events (fst demo_sim) (si_bus (snd demo_sim)) (so_node_id (fst demo_sim)) demo_ready demo_envs
    (mkAsked [] [] (si_fds (snd demo_sim))) in
  as_ops asked = [SimCommand (demo_wire 1) 3000000500 3000000500; SimHeartbeat; SimExpire 3000000600;
                  SimCommand (demo_wire 2) 4000000500 4000000500] ∧
  map fst (si_tx demo_end) =
    map to_kernel_frame (snd (ops_run (fst demo_sim) (as_ops asked) (node_new (logic_config (fst demo_sim))))) ∧
  length (si_tx demo_end) = 4%nat ∧
  ran (as_ops asked) = [(demo_wire 1, 3000000500); (demo_wire 2, 4000000500)].
Proof.
  destruct (simulator_is_node (λ _, Full 16) (λ _, Some 20) demo_args demo_start_env (mkKernel ∅ false) (fst demo_sim)
    demo_ready demo_envs (snd demo_sim) true demo_end) as (_ & Hx & _ & Hg).
  - vm_compute. reflexivity.
  - vm_compute. reflexivity.
  - split; [vm_compute; reflexivity|]. split; [exact Hx|]. split; [vm_compute; reflexivity|].
    destruct Hg as [Hg _]; [|rewrite <- (app_nil_r (ran _)); etransitivity; [exact Hg|vm_compute; reflexivity]].
    match goal with |- StronglySorted _ ?l => let v := eval vm_compute in l in change l with v end.
    repeat constructor; lia.
Defined.

Lemma deadline_timer_guards_lease_witness :
  nl_lease_deadline_ns (si_node demo_end) = 4100000500 ∧ si_expiry demo_end = Some 4100000520 ∧
  nl_output_bits (si_node (flush_pending_commands (λ _, Full 16) (λ _, Some 20) 4100000520 demo_end)) = 0.
Proof.
  assert (He : si_expiry demo_end = Some 4100000520) by (vm_compute; reflexivity).
  split; [vm_compute; reflexivity|]. split; [exact He|].
  destruct (deadline_timer_guards_lease (λ _, Full 16) (λ _, Some 20) 20 demo_args demo_start_env (mkKernel ∅ false)
    (fst demo_sim) demo_ready demo_envs (snd demo_sim) true demo_end) as [_ H].
  - vm_compute. reflexivity.
  - vm_compute. reflexivity.
  - intros i. exists 20. split; [reflexivity|lia].
  - repeat constructor; done.
  - vm_compute. reflexivity.
  - destruct (H 4100000520 He) as [_ Hf]. apply (Hf 4100000520). lia.
Defined.
