(* ===== verification/EdgeCell.v ===== *)
(** * The edge cell application

    apps/rcr_cell_app.cpp: the process that owns the CAN bus of a cell.  It parses its
    options, starts and boots the daemon, serves the engineering protocol of [CellApp]
    through a handler over the adapter and the Modbus agent's client, and drives DO0 from
    the readiness of the cell. *)

From S2P Require Import Prelude Types StateMachine Runtime Bytes Application Adapter CellReady LinuxIo.
From S2P Require Import CanIo Daemon ModbusRtu ModbusIo SerialPort PhysicalModbus.
From S2P Require Import TcpFrame ModbusAgent CellProtocol CellApp CommandLine.
Local Open Scope Z_scope.

(** ** Options *)

Definition kModbusAgentDefaultPort : Z := 5740.
Definition kCellAppDefaultPort : Z := 5750.

Record Options := mkOptions {
  o_daemon : DaemonConfig;
  o_evidence : EvidenceClass;
  o_modbus_host : string;
  o_modbus_port : Z;
  o_listen_host : string;
  o_listen_port : Z
}.

#[export] Instance Options_eta : Eta Options :=
  mkEta _ (fun o => mkOptions (o_daemon o) (o_evidence o) (o_modbus_host o) (o_modbus_port o)
    (o_listen_host o) (o_listen_port o)).

#[export] Instance DaemonConfig_eta : Eta DaemonConfig :=
  mkEta _ (fun c => mkDaemonConfig (dc_can_if c) (dc_node_id c) (dc_period c) (dc_command_timeout c)
    (dc_output_ack_timeout c) (dc_heartbeat_timeout c) (dc_fifo_priority c) (dc_require_fifo c)
    (dc_cpu_affinity c) (dc_duration c) (dc_event_queue_capacity c) (dc_max_events_per_tick c)
    (dc_max_frames_per_wake c) (dc_trace_capacity c) (dc_test_throw_on_tick c)).

Definition default_options : Options :=
  mkOptions (mkDaemonConfig "vcan0" 1 10 100 100 300 0 false (-1) 0 256 32 32 4096 false)
    EvidenceClass.Unspecified "127.0.0.1" kModbusAgentDefaultPort "0.0.0.0" kCellAppDefaultPort.

Definition parse_host_port (value : string) : option (string * Z) :=
  let text := str_bytes value in
  match rfind 58 text with
  | None | Some O => None
  | Some colon =>
      match parse_u32 (drop (colon + 1) text) with
      | None => None
      | Some port => if 65535 <? port then None else Some (bytes_str (take colon text), port)
      end
  end.

(** What becomes of the command line: [std::exit(0)] of the help, a refusal, options. *)
Inductive ParseOutcome := Helped | Refused | Parsed (o : Options).

Fixpoint parse_args (args : list string) (o : Options) : ParseOutcome :=
  match args with
  | [] => Parsed o
  | arg :: rest =>
      if (arg =? "--help")%string || (arg =? "-h")%string then Helped
      else match rest with
      | [] => Refused
      | value :: rest =>
          if (arg =? "--can")%string then parse_args rest (o <| o_daemon ::= λ c, c <| dc_can_if := value |> |>)
          else if (arg =? "--node-id")%string then
            match parse_u32 (str_bytes value) with
            | None => Refused
            | Some node =>
                if (node <? 1) || (31 <? node) then Refused
                else parse_args rest (o <| o_daemon ::= λ c, c <| dc_node_id := u8 node |> |>)
            end
          else if (arg =? "--evidence")%string then
            if (value =? "vcan")%string then parse_args rest (o <| o_evidence := EvidenceClass.Vcan |>)
            else if (value =? "physical")%string then parse_args rest (o <| o_evidence := EvidenceClass.Physical |>)
            else Refused
          else if (arg =? "--modbus")%string then
            match parse_host_port value with
            | None => Refused
            | Some (host, port) => parse_args rest (o <| o_modbus_host := host |> <| o_modbus_port := port |>)
            end
          else if (arg =? "--listen")%string then
            match parse_host_port value with
            | None => Refused
            | Some (host, port) => parse_args rest (o <| o_listen_host := host |> <| o_listen_port := port |>)
            end
          else Refused
      end
  end.

Definition parse_options (args : list string) : ParseOutcome :=
  parse_args args (default_options <| o_daemon ::= λ c,
    c <| dc_can_if := "can0"%string |> <| dc_node_id := 1 |> <| dc_period := 10 |>
      <| dc_command_timeout := 2500 |> <| dc_output_ack_timeout := 500 |>
      <| dc_heartbeat_timeout := 300 |> |>).

(** ** The cell *)

Record EdgeCellIoState := mkEdgeIo {
  eio_modbus_online : bool;
  eio_do0_requested : bool;
  eio_do0_confirmed : bool;
  eio_do0_status : ModbusIoCommandStatus
}.

#[export] Instance EdgeIo_eta : Eta EdgeCellIoState :=
  mkEta _ (fun i => mkEdgeIo (eio_modbus_online i) (eio_do0_requested i) (eio_do0_confirmed i)
    (eio_do0_status i)).

Definition initial_edge_io : EdgeCellIoState := mkEdgeIo false false false IoStatus.None.

(** What the objects of [main] refer to; [e_kernel] is the part of the descriptor table the
    Modbus client uses, [e_requests] the requests put to the agent. *)
Record EdgeCell := mkEdgeCell {
  e_daemon : RuntimeDaemon;
  e_mapper : CellReadyMapper;
  e_modbus : ModbusAgentClient;
  e_io : EdgeCellIoState;
  e_kernel : Kernel;
  e_requests : list AgentOp
}.

#[export] Instance EdgeCell_eta : Eta EdgeCell :=
  mkEta _ (fun e => mkEdgeCell (e_daemon e) (e_mapper e) (e_modbus e) (e_io e) (e_kernel e) (e_requests e)).

(** The answers one call gets: clock samples, what the daemon's workers do before each
    look at it, the network, and the inputs of the adapter's calls. *)
Record EdgeEnv := mkEdgeEnv {
  ee_now : Result Z;
  ee_workers : list worker_step;
  ee_status_now : Result Z;
  ee_status_workers : list worker_step;
  ee_connect : ConnectEnv;
  ee_exchange : ExchangeEnv;
  ee_activate : ActivateEnv;
  ee_submit : Result Z * Result Z * list worker_step
}.

Section Edge.
Variable config : AdapterConfig.

Definition edge_workers (ws : list worker_step) (e : EdgeCell) : EdgeCell :=
  e <| e_daemon ::= λ d, daemon_workers d ws |>.

(** The readiness the application sees. *)
Definition edge_decision (now : Result Z) (e : EdgeCell) : CellReadyDecision :=
  evaluate_cell_ready (adapter_snapshot config now (e_daemon e)).

Definition edge_status (now : Result Z) (e : EdgeCell) : CellAppStatus :=
  let snap := adapter_snapshot config now (e_daemon e) in
  let cell := evaluate_cell_ready snap in
  project_cell_app_status
    (snap <| ts_position_reached := cr_position_reached cell |> <| ts_cell_ready := cr_cell_ready cell |>
          <| ts_cell_modbus_online := eio_modbus_online (e_io e) |>
          <| ts_cell_ready_do0_requested := eio_do0_requested (e_io e) |>
          <| ts_cell_ready_do0_confirmed := eio_do0_confirmed (e_io e) |>
          <| ts_cell_ready_do0_status := io_status_code (eio_do0_status (e_io e)) |>).

(** [connect], when the client is not connected. *)
Definition edge_connect (env : ConnectEnv) (e : EdgeCell) : Result () * EdgeCell :=
  if fd_valid (ag_fd (e_modbus e)) then (Ok (), e)
  else let '(r, c, k) := agent_connect env (e_modbus e) (e_kernel e) in
       (r, e <| e_modbus := c |> <| e_kernel := k |>).

(** One request and [disconnect]; an answer list that ends is a line that stays silent. *)
Definition edge_request (op : AgentOp) (env : ExchangeEnv) (e : EdgeCell) : Result ModbusIoSnapshot * EdgeCell :=
  let '(r, c) := agent_call op 1000 env (e_modbus e) in
  let '(c, k) := agent_disconnect c (e_kernel e) in
  (default (Err agent_reply_timeout) r,
   e <| e_modbus := c |> <| e_kernel := k |> <| e_requests ::= λ l, l ++ [op] |>).

Definition modbus_failed (e : EdgeCell) : EdgeCell :=
  e <| e_mapper ::= note_modbus_offline |>
    <| e_io ::= λ i, i <| eio_modbus_online := false |> <| eio_do0_status := IoStatus.Timeout |> |>.

Definition adopt_do0 (s : ModbusIoSnapshot) (e : EdgeCell) : EdgeCell :=
  let d := output_at 0 s in
  e <| e_io := mkEdgeIo true (do_requested d) (do_confirmed d) (do_last_status d) |>.

(** [probe_cell_io] up to its last [status()]. *)
Definition edge_probe (env : EdgeEnv) (e : EdgeCell) : EdgeCell :=
  match edge_connect (ee_connect env) e with
  | (Err _, e) => modbus_failed e
  | (Ok _, e) =>
      match edge_request AgentProbe (ee_exchange env) e with
      | (Err _, e) => modbus_failed e
      | (Ok probed, e) =>
          let e := edge_workers (ee_workers env) (adopt_do0 probed e) in
          e <| e_mapper ::= synchronize_after_probe (edge_decision (ee_now env) e) |>
      end
  end.

Definition tick_cell_ready (env : EdgeEnv) (e : EdgeCell) : EdgeCell :=
  let e := edge_workers (ee_workers env) e in
  let '(m, action) := mapper_observe (edge_decision (ee_now env) e) true (e_mapper e) in
  let e := e <| e_mapper := m |> in
  if action ==? Do0Action.None then e
  else match edge_connect (ee_connect env) e with
  | (Err _, e) => modbus_failed e
  | (Ok _, e) =>
      let on := action ==? Do0Action.RequestOn in
      let e := e <| e_io ::= λ i, i <| eio_do0_requested := on |> |> in
      match edge_request (AgentWriteOutput 0 on) (ee_exchange env) e with
      | (Err _, e) => modbus_failed e
      | (Ok written, e) => adopt_do0 written e
      end
  end.

(** ** The handler and the loop *)

(** [EdgeHandler]; the second part counts the calls, which take their answers from
    [envs]. *)
Definition edge_handler (envs : nat → EdgeEnv) : CellAppHandler (EdgeCell * nat) :=
  let shown n e := edge_workers (ee_status_workers (envs n)) e in
  mkCellHandler _
    (λ '(e, n), let e := shown n e in (edge_status (ee_status_now (envs n)) e, (e, S n)))
    (λ '(e, n), let e := shown n (edge_probe (envs n) e) in
                (edge_status (ee_status_now (envs n)) e, (e, S n)))
    (λ '(e, n), let '(d, r) := adapter_activate (ee_activate (envs n)) (e_daemon e) in
                (r, (e <| e_daemon := d |>, S n)))
    (λ request '(e, n),
       let '(now, publish_now, ws) := ee_submit (envs n) in
       let '(d, r) := submit_digital_output request now publish_now ws (e_daemon e) in
       (r, (e <| e_daemon := d |>, S n))).

(** Whether the loop goes on. *)
Definition edge_goes_on (d : RuntimeDaemon) : bool :=
  let snap := daemon_snapshot d in
  d_started d && negb (negb (cs_stop_reason (raw_io snap) ==? IoStopReason.None) || dsn_stopping snap).

Record TurnEnv := mkTurnEnv { tu_poll : PollEnv; tu_handler : nat → EdgeEnv; tu_tick : EdgeEnv }.

Notation EdgeState := (CellAppServer * Kernel * (EdgeCell * nat) * list (Z * list (list Z)))%type.

(** One turn of the loop: [None] when it is left; a failed poll is reported and the turn
    goes on. *)
Definition edge_turn (env : TurnEnv) (st : EdgeState) : option (PollOutcome * EdgeState) :=
  let '(_, _, (e, _), _) := st in
  if negb (edge_goes_on (e_daemon e)) then None
  else
    let '(outcome, st) := cell_poll (edge_handler (tu_handler env)) (tu_poll env) st in
    match outcome with
    | Returns r =>
        let '(s, k, (e, n), log) := st in
        Some (Returns r, (s, k, (tick_cell_ready (tu_tick env) e, n), log))
    | _ => Some (outcome, st)
    end.

End Edge.

(** ** Start and end *)

Definition exit_value (c : DaemonExitCode) : Z :=
  match c with
  | DaemonExitCode.Ok => 0
  | DaemonExitCode.ConfigError => 1
  | DaemonExitCode.InterfaceError => 2
  | DaemonExitCode.PermissionError => 3
  | DaemonExitCode.WorkerFailure => 4
  end.

Record MainEnv := mkMainEnv {
  ma_daemon : DaemonStartEnv;
  ma_boot_now : Result Z;
  ma_boot_workers : list worker_step;
  ma_listen : ListenEnv;
  ma_stop_now : Result Z
}.

(** The process exits with a code, or reaches the loop. *)
Inductive StartOutcome := Exits (code : Z) | Loops (o : Options) (s : CellAppServer) (e : EdgeCell).

Definition edge_start (args : list string) (env : MainEnv) (w : World) : StartOutcome * World :=
  let stop d w := snd (daemon_stop (ds_self (ma_daemon env)) (ma_stop_now env) d w) in
  match parse_options args with
  | Helped => (Exits 0, w)
  | Refused => (Exits 1, w)
  | Parsed o =>
      if o_evidence o ==? EvidenceClass.Unspecified then (Exits 1, w)
      else match daemon_start (ma_daemon env) (daemon_new (o_daemon o)) w with
      | ((d, w), Err _) => (Exits (exit_value (d_exit_code d)), w)
      | ((d, w), Ok _) =>
          let '(d, booted) := daemon_boot (ma_boot_now env) (ma_boot_workers env) d in
          if negb (accepted booted) then (Exits 4, stop d w)
          else
            let '(masks, k) := w in
            match cell_server_listen (ma_listen env) (mkCellServer (-1) [] 0) k with
            | (Err _, _, k) => (Exits 2, stop d (masks, k))
            | (Ok _, s, k) =>
                (Loops o s (mkEdgeCell d initial_mapper initial_agent_client initial_edge_io (mkKernel ∅ false) []),
                 (masks, k))
            end
      end
  end.

(** After the loop: [disconnect], [close], [request_stop] and [wait_and_stop]; [None]: the
    daemon still waits when [progress] is used up. *)
Definition edge_finish (self : Z) (now : Result Z) (progress : list (RuntimeDaemon → RuntimeDaemon))
    (s : CellAppServer) (e : EdgeCell) (w : World) : option (Z * World) :=
  let '(masks, k) := w in
  let '(s, k) := cell_server_close s k in
  match wait_and_stop self now progress (daemon_request_stop (e_daemon e)) (masks, k) with
  | None => None
  | Some ((_, w), code) => Some (exit_value code, w)
  end.

(** ** The abstract cell

    What the application promises about DO0, without connections, records or the mapper:
    the readiness last seen over a working link, and the requests that follow from it. *)

Inductive LinkResult := NoConnection | NoAnswer | Answered.

Inductive AbsOp := ATick (ready : bool) (link : LinkResult) | AProbe (ready : bool) (link : LinkResult).

(** A request that could not be sent leaves no trace at the agent; without an answer
    nothing is known. *)
Definition abs_contact (op : AgentOp) (ready : bool) (link : LinkResult) : option bool * list AgentOp :=
  match link with
  | NoConnection => (None, [])
  | NoAnswer => (None, [op])
  | Answered => (Some ready, [op])
  end.

Definition abs_step (a : AbsOp) (seen : option bool) : option bool * list AgentOp :=
  match a, seen with
  | AProbe ready link, _ => abs_contact AgentProbe ready link
  | ATick ready _, None => (Some ready, [])
  | ATick ready link, Some was =>
      if Bool.eqb ready was then (Some was, []) else abs_contact (AgentWriteOutput 0 ready) ready link
  end.

Fixpoint abs_run (l : list AbsOp) (st : option bool * list AgentOp) : option bool * list AgentOp :=
  match l with
  | [] => st
  | a :: l => let '(seen, new) := abs_step a (fst st) in abs_run l (seen, snd st ++ new)
  end.

Inductive EdgeOp :=
  | EStatus (env : EdgeEnv) | EProbe (env : EdgeEnv) | EActivate (env : EdgeEnv)
  | ESubmit (r : DigitalOutputRequest) (env : EdgeEnv) | ETick (env : EdgeEnv).

Definition edge_env (op : EdgeOp) : EdgeEnv :=
  match op with EStatus env | EProbe env | EActivate env | ESubmit _ env | ETick env => env end.

Lemma agent_call_fd op timeout env c : ag_fd (snd (agent_call op timeout env c)) = ag_fd c.
Proof. rewrite agent_call_exchange. unfold agent_exchange. by repeat case_match. Qed.

Section EdgeRefinement.
Variable config : AdapterConfig.

(** The calls of the handler and of the loop. *)
Definition edge_step (op : EdgeOp) (e : EdgeCell) : EdgeCell :=
  let h := edge_handler config (λ _, edge_env op) in
  match op with
  | EStatus _ => fst (snd (h_status h (e, 0%nat)))
  | EProbe _ => fst (snd (h_probe_cell_io h (e, 0%nat)))
  | EActivate _ => fst (snd (h_activate h (e, 0%nat)))
  | ESubmit r _ => fst (snd (h_submit_output h r (e, 0%nat)))
  | ETick env => tick_cell_ready config env e
  end.

Definition edge_run (ops : list EdgeOp) (e : EdgeCell) : EdgeCell := foldl (λ e op, edge_step op e) e ops.

Definition edge_ready (env : EdgeEnv) (e : EdgeCell) : bool :=
  cr_cell_ready (edge_decision config (ee_now env) (edge_workers (ee_workers env) e)).

(** How far a request gets. *)
Definition link_result (op : AgentOp) (env : EdgeEnv) (e : EdgeCell) : LinkResult :=
  match edge_connect (ee_connect env) e with
  | (Err _, _) => NoConnection
  | (Ok _, e) => match fst (edge_request op (ee_exchange env) e) with Ok _ => Answered | Err _ => NoAnswer end
  end.

Definition abs_of (op : EdgeOp) (e : EdgeCell) : list AbsOp :=
  match op with
  | EProbe env => [AProbe (edge_ready env e) (link_result AgentProbe env e)]
  | ETick env => [ATick (edge_ready env e) (link_result (AgentWriteOutput 0 (edge_ready env e)) env e)]
  | _ => []
  end.

Fixpoint edge_history (ops : list EdgeOp) (e : EdgeCell) : list AbsOp :=
  match ops with
  | [] => []
  | op :: ops => abs_of op e ++ edge_history ops (edge_step op e)
  end.

(** Between calls the Modbus client holds no connection. *)
Definition edge_idle (e : EdgeCell) : Prop := fd_valid (ag_fd (e_modbus e)) = false.

Definition edge_view (e : EdgeCell) : option bool * list AgentOp := (mapper_baseline (e_mapper e), e_requests e).

(** One contact with the agent: the descriptor is closed again whatever happens. *)
Lemma contact_spec op env e :
  edge_idle e → fresh_answer (ce_socket (ee_connect env)) (e_kernel e) →
  match edge_connect (ee_connect env) e with
  | (Err _, e1) => link_result op env e = NoConnection ∧ edge_idle e1 ∧ e_kernel e1 = e_kernel e ∧
      edge_view e1 = edge_view e ∧ e_daemon e1 = e_daemon e
  | (Ok _, e1) =>
      ∀ f, let '(r, e2) := edge_request op (ee_exchange env) (e1 <| e_io ::= f |>) in
      link_result op env e = (match r with Ok _ => Answered | Err _ => NoAnswer end) ∧
      edge_idle e2 ∧ e_kernel e2 = e_kernel e ∧ e_mapper e2 = e_mapper e ∧
      e_requests e2 = e_requests e ++ [op] ∧ e_daemon e2 = e_daemon e
  end.
Proof.
  intros Hi Hf. unfold link_result, edge_connect. unfold edge_idle in Hi. rewrite Hi.
  unfold agent_connect, agent_disconnect. rewrite Hi. cbn [negb].
  destruct (tcp_connect _ _ _) as [r k'] eqn:Hc.
  apply tcp_connect_balanced in Hc; [|intros fd Hfd; by apply Hf]. destruct r as [fd|err]; cbn.
  2:{ subst k'. split_and!; done. }
  destruct Hc as [Hs ->]. destruct (Hf fd Hs) as [Hpos Hfr]. intros f. unfold edge_request. cbn.
  set (c := mkAgentClient fd (ag_next_sequence (e_modbus e))).
  pose proof (agent_call_fd op 1000 (ee_exchange env) c) as Hfd.
  destruct (agent_call op 1000 (ee_exchange env) c) as [r c']. cbn in Hfd. unfold agent_disconnect, fd_reset.
  assert (Hv : fd_valid fd = true) by (unfold fd_valid; by apply Z.leb_le).
  rewrite Hfd, Hv. cbn. split_and!; try done. by apply k_create_close.
Qed.

(** The network sees only the client and its descriptors. *)
Lemma link_result_frame op env e m ws :
  link_result op env e = link_result op env (edge_workers ws e <| e_mapper := m |>).
Proof.
  unfold link_result, edge_connect. change (e_modbus (edge_workers ws e <| e_mapper := m |>)) with (e_modbus e).
  change (e_kernel (edge_workers ws e <| e_mapper := m |>)) with (e_kernel e).
  assert (Hr : ∀ e1 e2, e_modbus e1 = e_modbus e2 → e_kernel e1 = e_kernel e2 →
    fst (edge_request op (ee_exchange env) e1) = fst (edge_request op (ee_exchange env) e2)).
  { intros e1 e2 Hm Hk. unfold edge_request. rewrite Hm, Hk. destruct (agent_call op 1000 (ee_exchange env) (e_modbus e2)).
    by destruct (agent_disconnect _ _). }
  destruct (fd_valid _); [by rewrite (Hr e (edge_workers ws e <| e_mapper := m |>))|].
  destruct (agent_connect _ _ _) as [[[[]|err] c] k]; [|done].
  by rewrite (Hr (e <| e_modbus := c |> <| e_kernel := k |>)
    (edge_workers ws e <| e_mapper := m |> <| e_modbus := c |> <| e_kernel := k |>)).
Qed.

Lemma edge_probe_sim env e :
  edge_idle e → fresh_answer (ce_socket (ee_connect env)) (e_kernel e) →
  let e' := edge_probe config env e in
  let '(seen, new) := abs_contact AgentProbe (edge_ready env e) (link_result AgentProbe env e) in
  edge_idle e' ∧ e_kernel e' = e_kernel e ∧ edge_view e' = (seen, e_requests e ++ new).
Proof.
  intros Hi Hf. pose proof (contact_spec AgentProbe env e Hi Hf) as Hc. unfold edge_probe, edge_ready.
  destruct (edge_connect (ee_connect env) e) as [[[]|err] e1].
  - specialize (Hc id). destruct (edge_request AgentProbe (ee_exchange env) (e1 <| e_io ::= id |>)) as [r e2] eqn:Hr.
    replace (e1 <| e_io ::= id |>) with e1 in Hr by by destruct e1. rewrite Hr.
    destruct Hc as (-> & Hi2 & Hk & Hm & Hq & Hd). destruct r as [s|err]; cbn.
    + split_and!; [done|done|]. unfold edge_view. cbn. rewrite Hq. unfold edge_decision. cbn. by rewrite Hd.
    + split_and!; [done|done|]. unfold edge_view. cbn. by rewrite Hq.
  - destruct Hc as (-> & Hi1 & Hk & [= Hm Hq] & Hd). cbn. split_and!; [done|done|].
    unfold edge_view. cbn. by rewrite Hq, app_nil_r.
Qed.

Lemma tick_sim env e :
  edge_idle e → fresh_answer (ce_socket (ee_connect env)) (e_kernel e) →
  let e' := tick_cell_ready config env e in
  let ready := edge_ready env e in
  let '(seen, new) := abs_step (ATick ready (link_result (AgentWriteOutput 0 ready) env e)) (mapper_baseline (e_mapper e)) in
  edge_idle e' ∧ e_kernel e' = e_kernel e ∧ edge_view e' = (seen, e_requests e ++ new).
Proof.
  intros Hi Hf. cbv zeta. unfold tick_cell_ready. set (e0 := edge_workers (ee_workers env) e).
  set (dec := edge_decision config (ee_now env) e0). change (edge_ready env e) with (cr_cell_ready dec).
  clearbody dec. destruct dec as [pos ready].
  change (e_mapper e0) with (e_mapper e). unfold mapper_baseline, mapper_observe. cbn [negb cr_cell_ready].
  destruct (e_mapper e) as [[|] was]; cbn [cm_armed cm_last_ready negb fst snd abs_step];
    [destruct (Bool.eqb ready was)|].
  1,3: rewrite (bool_decide_eq_true_2 (Do0Action.None = Do0Action.None)) by done; split_and!; [done|done|]; unfold edge_view; by rewrite app_nil_r.
  rewrite (bool_decide_eq_false_2 (_ = Do0Action.None)) by by destruct ready.
  replace (bool_decide ((if ready then Do0Action.RequestOn else Do0Action.RequestOff) = Do0Action.RequestOn))
    with ready by by destruct ready.
  pose proof (contact_spec (AgentWriteOutput 0 ready) env (e0 <| e_mapper := mkMapper true ready |>) Hi Hf) as Hc.
  replace (link_result (AgentWriteOutput 0 ready) env (e0 <| e_mapper := mkMapper true ready |>))
    with (link_result (AgentWriteOutput 0 ready) env e) in Hc by apply link_result_frame.
  destruct (edge_connect (ee_connect env) _) as [[[]|err] e1].
  - specialize (Hc (λ i, i <| eio_do0_requested := ready |>)).
    destruct (edge_request _ _ _) as [r e2]. destruct Hc as (-> & Hi2 & Hk & Hm & Hq & Hd).
    destruct r as [s|err]; (split_and!; [done|done|]); unfold edge_view; cbn; by rewrite ?Hm, Hq.
  - destruct Hc as (-> & Hi1 & Hk & [= Hm Hq] & Hd). split_and!; [done|done|].
    unfold edge_view. cbn. by rewrite Hq, app_nil_r.
Qed.

Lemma edge_step_sim op e :
  edge_idle e → fresh_answer (ce_socket (ee_connect (edge_env op))) (e_kernel e) →
  let e' := edge_step op e in
  edge_idle e' ∧ e_kernel e' = e_kernel e ∧ edge_view e' = abs_run (abs_of op e) (edge_view e).
Proof.
  intros Hi Hf. destruct op as [env|env|env|r env|env]; cbv zeta.
  - done.
  - pose proof (edge_probe_sim env e Hi Hf) as H. cbn [abs_of abs_run]. unfold edge_view in *. cbn [fst snd abs_step].
    by destruct (abs_contact _ _ _) as [seen new].
  - unfold edge_step, edge_env. cbn -[adapter_activate]. by destruct (adapter_activate (ee_activate env) (e_daemon e)).
  - unfold edge_step, edge_env. cbn -[submit_digital_output]. destruct (ee_submit env) as [[now publish_now] ws].
    by destruct (submit_digital_output _ _ _ _ _).
  - pose proof (tick_sim env e Hi Hf) as H. cbv zeta in H. cbn [abs_of abs_run]. unfold edge_view in *. cbn [fst snd].
    by destruct (abs_step _ _) as [seen new].
Qed.

Lemma abs_run_app l1 l2 st : abs_run (l1 ++ l2) st = abs_run l2 (abs_run l1 st).
Proof.
  revert st. induction l1 as [|a l1 IH]; intros st; [done|]. cbn. destruct (abs_step a (fst st)). apply IH.
Qed.

(** C15.  The cell drives DO0 from readiness edges and nothing else.  For every interleaving of
    engineering requests and ticks, with any network and any daemon underneath, the
    requests the application puts to the Modbus agent and the readiness it remembers are
    those of the abstract cell: a tick writes DO0 only when the readiness differs from the
    one last seen over a working link, a failed contact forgets it so that nothing is
    replayed, a probe never writes, the other calls never touch Modbus.  Between calls no
    connection is held and every descriptor is closed again. *)
Theorem edge_cell_refines ops e :
  edge_idle e → Forall (λ op, fresh_answer (ce_socket (ee_connect (edge_env op))) (e_kernel e)) ops →
  edge_idle (edge_run ops e) ∧ e_kernel (edge_run ops e) = e_kernel e ∧
  edge_view (edge_run ops e) = abs_run (edge_history ops e) (edge_view e).
Proof.
  revert e. induction ops as [|op ops IH]; intros e Hi Hf; [done|].
  apply Forall_cons in Hf as [Hf Hfs]. destruct (edge_step_sim op e Hi Hf) as (Hi' & Hk & Hv).
  change (edge_run (op :: ops) e) with (edge_run ops (edge_step op e)). cbn [edge_history].
  rewrite abs_run_app, <- Hv, <- Hk. apply IH; [done|]. by rewrite Hk.
Qed.

End EdgeRefinement.

(** ** DO0 as the engineer sees it *)

Lemma tick_on_edge config env e was :
  mapper_baseline (e_mapper e) = Some was → edge_ready config env e = negb was →
  tick_cell_ready config env e =
  match edge_connect (ee_connect env) (edge_workers (ee_workers env) e <| e_mapper := mkMapper true (negb was) |>) with
  | (Err _, e) => modbus_failed e
  | (Ok _, e) =>
      match edge_request (AgentWriteOutput 0 (negb was)) (ee_exchange env)
              (e <| e_io ::= λ i, i <| eio_do0_requested := negb was |> |>) with
      | (Err _, e) => modbus_failed e
      | (Ok written, e) => adopt_do0 written e
      end
  end.
Proof.
  unfold mapper_baseline, edge_ready, tick_cell_ready, mapper_observe.
  change (e_mapper (edge_workers (ee_workers env) e)) with (e_mapper e).
  destruct (e_mapper e) as [[|] last]; [|done]. cbn [cm_armed cm_last_ready]. intros [= ->] Hr.
  cbn [negb]. rewrite Hr. replace (Bool.eqb (negb was) was) with false by by destruct was.
  rewrite (bool_decide_eq_false_2 (_ = Do0Action.None)) by by destruct was.
  by replace (bool_decide ((if negb was then Do0Action.RequestOn else Do0Action.RequestOff) = Do0Action.RequestOn))
    with (negb was) by by destruct was.
Qed.

(** A status byte names its status. *)
Lemma do0_status_named s st :
  ack_wf s → status_named st → io_status_code (do_last_status (output_at 0 s)) = io_status_code st →
  do_last_status (output_at 0 s) = st.
Proof.
  intros (_ & Hl & _ & _ & Hn & _) [_ Hst] Hc. unfold output_at in *.
  destruct (lookup_lt_is_Some_2 (mi_digital_outputs s) 0) as [d Hd]; [rewrite Hl; unfold kModbusIoChannelCount; lia|].
  rewrite Hd in *. destruct (Forall_lookup_1 _ _ _ _ Hn Hd) as [_ Hds]. cbn in *. by rewrite <- Hds, Hc.
Qed.

Lemma agent_view_do0 s : ack_wf s →
  let d := output_at 0 (agent_view s) in
  do_requested d = do_requested (output_at 0 s) ∧ do_confirmed d = do_confirmed (output_at 0 s) ∧
  do_last_status d = do_last_status (output_at 0 s).
Proof.
  intros (_ & Hl & _). unfold output_at. cbn. rewrite list_lookup_imap. by destruct (mi_digital_outputs s).
Qed.

Lemma edge_status_io config now e :
  let s := edge_status config now e in
  cs_modbus_online s = eio_modbus_online (e_io e) ∧
  cs_cell_ready_do0_requested s = eio_do0_requested (e_io e) ∧
  cs_cell_ready_do0_confirmed s = eio_do0_confirmed (e_io e) ∧
  cs_cell_ready_do0_status s = io_status_code (eio_do0_status (e_io e)).
Proof. by split_and!. Qed.

(** What the engineering station reads about DO0 is the terminal's own state.  When the
    readiness of the cell has changed and the agent's answer to the write arrives, whatever
    the terminal made of it, the status shows DO0 as the service has it; and a DO0 shown as
    confirmed has the value its coil drives. *)
Theorem edge_status_shows_coil config env e was s {W} (coil : W → nat → bool) w now :
  edge_idle e → is_u 16 (ag_next_sequence (e_modbus e)) →
  mapper_baseline (e_mapper e) = Some was → edge_ready config env e = negb was →
  let write := AgentWriteOutput 0 (negb was) in
  let sequence := ag_next_sequence (e_modbus e) in
  (∃ fd k, 0 ≤ fd ∧ tcp_connect (mkError Errc.Timeout "agent connect timeout") (ee_connect env) (e_kernel e) = (Ok fd, k)) →
  ack_wf s → ack_fits s → outputs_true coil s w →
  send_all (length (agent_wire (request_frame write sequence))) 0 (xe_sends (ee_exchange env)) = Some (Ok ()) →
  arrives (xe_now (ee_exchange env) + 1000 * 1000000) (agent_wire (ack_frame write sequence s)) (xe_turns (ee_exchange env)) →
  let e' := tick_cell_ready config env e in
  let status := edge_status config now e' in
  e_requests e' = e_requests e ++ [write] ∧ cs_modbus_online status = true ∧
  cs_cell_ready_do0_requested status = do_requested (output_at 0 s) ∧
  cs_cell_ready_do0_confirmed status = do_confirmed (output_at 0 s) ∧
  cs_cell_ready_do0_status status = io_status_code (do_last_status (output_at 0 s)) ∧
  (cs_cell_ready_do0_status status = io_status_code IoStatus.Confirmed → cs_cell_ready_do0_confirmed status = coil w 0%nat).
Proof.
  intros Hi Hs Hm Hr write sequence (fd & k & Hfd & Hc) Hw Hfit Ht Hsend Harr.
  assert (Ho : ∃ e1, tick_cell_ready config env e =
      match edge_request write (ee_exchange env) e1 with
      | (Err _, e) => modbus_failed e
      | (Ok written, e) => adopt_do0 written e
      end ∧ e_requests e1 = e_requests e ∧ e_modbus e1 = mkAgentClient fd sequence).
  { rewrite (tick_on_edge config env e was Hm Hr). unfold edge_connect, agent_connect, agent_disconnect.
    cbn -[edge_request adopt_do0 modbus_failed]. rewrite Hi. cbn -[edge_request adopt_do0 modbus_failed].
    rewrite Hc. eexists. by split_and!. }
  destruct Ho as (e1 & -> & Hl & He). unfold edge_request. rewrite He.
  rewrite (exchange_receives write _ 1000 (ee_exchange env) s sequence) by (done || by apply Z.leb_le).
  destruct (agent_disconnect _ _) as [c2 k2]. cbn [default adopt_do0].
  destruct (agent_view_do0 s Hw) as (Hq & Hv & Hst). destruct Ht as [_ Ht]. cbv zeta beta iota delta [id].
  match goal with |- context [edge_status config now ?x] => destruct (edge_status_io config now x) as (-> & -> & -> & ->) end.
  cbn. rewrite Hl. cbn in Hq, Hv, Hst. rewrite Hq, Hv, Hst. split_and!; try done.
  intros Hcf. apply (do0_status_named s IoStatus.Confirmed) in Hcf; [|done|done]. apply Ht; [|done]. unfold kModbusIoChannelCount. lia.
Qed.

(** ** Options are in range *)

Definition options_ok (o : Options) : Prop :=
  1 ≤ dc_node_id (o_daemon o) ≤ 31 ∧ 0 ≤ o_modbus_port o ≤ 65535 ∧ 0 ≤ o_listen_port o ≤ 65535 ∧
  o_modbus_host o ≠ "" ∧ o_listen_host o ≠ "" ∧ dc_command_timeout (o_daemon o) = 2500 ∧
  dc_output_ack_timeout (o_daemon o) = 500 ∧ dc_heartbeat_timeout (o_daemon o) = 300 ∧ dc_period (o_daemon o) = 10.

Lemma parse_host_port_ok value host port :
  parse_host_port value = Some (host, port) → host ≠ "" ∧ 0 ≤ port ≤ 65535.
Proof.
  unfold parse_host_port. destruct (rfind 58 (str_bytes value)) as [[|colon]|]; try done.
  destruct (parse_u32 _) as [p|] eqn:Hp; [|done]. destruct (Z.ltb_spec 65535 p); [done|].
  intros [= <- <-]. split; [|apply parse_u32_range in Hp; lia]. by destruct (str_bytes value).
Qed.

Lemma parse_args_ok fuel : ∀ args o o',
  (length args ≤ fuel)%nat → options_ok o → parse_args args o = Parsed o' → options_ok o'.
Proof.
  induction fuel as [|fuel IH]; intros [|arg [|value args]] o o' Hl Ho; cbn [length] in Hl; try lia; cbn [parse_args];
    try (by intros [= <-]); try (by case_match).
  destruct ((arg =? "--help")%string || (arg =? "-h")%string); [done|].
  assert (Hgo : ∀ o1, options_ok o1 → parse_args args o1 = Parsed o' → options_ok o') by (intros o1; apply IH; lia).
  destruct Ho as (H1 & H2 & H3 & H4 & H5 & H6).
  destruct (arg =? "--can")%string; [by apply Hgo|].
  destruct (arg =? "--node-id")%string.
  { destruct (parse_u32 (str_bytes value)) as [node|]; [|done].
    destruct ((node <? 1) || (31 <? node)) eqn:Hn; [done|]. apply Hgo. split; [|done]. cbn.
    rewrite u8_small by width_lia. lia. }
  destruct (arg =? "--evidence")%string.
  { destruct (value =? "vcan")%string; [by apply Hgo|]. by destruct (value =? "physical")%string; [apply Hgo|]. }
  destruct (parse_host_port value) as [[host port]|] eqn:Hp; [|by repeat case_match].
  apply parse_host_port_ok in Hp as [Hh Hq].
  destruct (arg =? "--modbus")%string; [by apply Hgo|]. destruct (arg =? "--listen")%string; [by apply Hgo|done].
Qed.

(** Whatever the command line, accepted options are in the ranges the daemon and the sockets
    need and keep the timing of the application. *)
Lemma parse_options_ok args o : parse_options args = Parsed o → options_ok o.
Proof. apply (parse_args_ok (length args)); [done|]. repeat split; done. Qed.

(** ** The start *)

(** The start is all or nothing: an exit leaves descriptors and masks as they were; a start
    that reaches the loop leaves the runtime [Idle], never [Active], a server that
    listens, and nothing requested of the agent. *)
Theorem edge_start_all_or_nothing args env masks k :
  answers_fresh (ma_daemon env) k → ds_restore_rc (ma_daemon env) = 0 →
  (∀ o, fresh_answer (le_socket (ma_listen env))
          (snd (snd (fst (daemon_start (ma_daemon env) (daemon_new o) (masks, k)))))) →
  let '(r, w) := edge_start args env (masks, k) in
  match r with
  | Exits _ => snd w = k ∧ same_masks (fst w) masks
  | Loops o s e => options_ok o ∧ e_requests e = [] ∧ edge_idle e ∧ fd_valid (sv_listen_fd s) = true ∧
      ∃ rt, d_runtime (e_daemon e) = Some rt ∧ rt_mode rt = RuntimeMode.Idle
  end.
Proof.
  intros Hf Hrc Hl. unfold edge_start. destruct (parse_options args) as [| |o] eqn:Ho; [done|done|].
  apply parse_options_ok in Ho. case_bool_decide; [done|]. specialize (Hl (o_daemon o)).
  pose proof (daemon_start_cases (ma_daemon env) (daemon_new (o_daemon o)) masks k ltac:(by split_and!) Hf Hrc) as Hd.
  destruct (daemon_start _ _ _) as [[d w] [[]|e]]; [|by destruct Hd as (_ & Hk & Hs & _)]. cbn [fst snd] in Hl.
  destruct Hd as [(rt & l & Hrt & Hm & _) Hstop]. specialize (Hstop (ma_stop_now env)).
  assert (Hb : daemon_boot (ma_boot_now env) (ma_boot_workers env) d =
    (d, mkTransitionResult true RuntimeMode.Idle RuntimeMode.Idle "daemon already booted")).
  { unfold daemon_boot. rewrite Hrt. by rewrite Hm. }
  rewrite Hb. cbn [accepted negb]. destruct w as [masks' k']. cbn [snd] in Hl.
  unfold cell_server_listen, cell_server_close. cbn [sv_clients sv_listen_fd foldl]. unfold fd_reset.
  change (fd_valid (-1)) with false. cbn [sv_clients].
  destruct (tcp_listen (ma_listen env) k') as [r k1] eqn:Ht.
  apply tcp_listen_balanced in Ht; [|intros fd Hfd; by apply Hl]. destruct r as [[fd port]|err].
  - destruct Ht as [Hs ->]. destruct (Hl fd Hs) as [Hpos _]. cbn [fst snd e_requests sv_listen_fd e_daemon].
    split; [done|]. split; [done|]. split; [done|]. split; [by apply Z.leb_le|by exists rt].
  - subst k1. cbn [fst snd]. destruct (daemon_stop _ _ _ _) as [d2 w2]. cbn [snd]. by destruct Hstop as (_ & Hk & Hs).
Qed.

(** ** Concrete runs *)

Definition demo_edge : EdgeCell :=
  mkEdgeCell (daemon_new (o_daemon default_options)) (mkMapper true true) initial_agent_client initial_edge_io
    (mkKernel ∅ false) [].
Definition demo_off : AgentOp := AgentWriteOutput 0 false.
Definition demo_terminal : ModbusIoSnapshot * SimTerminal.World :=
  physical_step SimTerminal.link default_physical_config (op_service demo_off)
    (physical_new default_physical_config, sim_start).
Definition demo_adapter_config : AdapterConfig := mkAdapterConfig EvidenceClass.Physical "SOCKETCAN".

(** A network that connects at once and where the agent's answer is [answer]. *)
Definition demo_edge_env (answer : list Z) : EdgeEnv :=
  mkEdgeEnv (Ok 5) [] (Ok 6) [] (mkConnectEnv true (Some 9) true ConnectInProgress PollReady true)
    (mkExchangeEnv [Wrote 90] 0 (one_turn 9 answer))
    (mkActivateEnv (Ok 1) (Ok 1) [] ([], [], []) []) (Ok 1, Ok 1, []).

Definition demo_off_ack : list Z := agent_wire (ack_frame demo_off 1 (fst demo_terminal)).

(** Readiness is lost: one write; the agent is then gone, a probe and a tick write nothing. *)
Definition demo_edge_ops : list EdgeOp :=
  [ETick (demo_edge_env demo_off_ack); EProbe (demo_edge_env []); ETick (demo_edge_env []); EStatus (demo_edge_env [])].

Lemma edge_cell_refines_witness :
  edge_view (edge_run demo_adapter_config demo_edge_ops demo_edge) = (Some false, [demo_off; AgentProbe]) ∧
  e_kernel (edge_run demo_adapter_config demo_edge_ops demo_edge) = mkKernel ∅ false.
Proof.
  destruct (edge_cell_refines demo_adapter_config demo_edge_ops demo_edge) as (_ & Hk & Hv).
  - reflexivity.
  - repeat constructor; cbn; injection H as <-; (lia || set_solver).
  - rewrite Hv, Hk. split; [vm_compute; reflexivity|reflexivity].
Defined.

Lemma edge_status_shows_coil_witness :
  let status := edge_status demo_adapter_config (Ok 7)
    (tick_cell_ready demo_adapter_config (demo_edge_env demo_off_ack) demo_edge) in
  cs_modbus_online status = true ∧ cs_cell_ready_do0_confirmed status = SimTerminal.coil (snd demo_terminal) 0.
Proof.
  destruct (edge_status_shows_coil demo_adapter_config (demo_edge_env demo_off_ack) demo_edge true
    (fst demo_terminal) SimTerminal.coil (snd demo_terminal) (Ok 7)) as (_ & Hon & _ & _ & _ & Hc).
  - reflexivity.
  - done.
  - reflexivity.
  - vm_compute. reflexivity.
  - exists 9. eexists. split; [lia|reflexivity].
  - apply (physical_step_ack_wf SimTerminal.link default_physical_config), physical_new_ack_wf; done.
  - vm_compute. lia.
  - apply (physical_step_true SimTerminal.link default_physical_config SimTerminal.coil), physical_new_true.
  - vm_compute. reflexivity.
  - apply one_turn_arrives; vm_compute; done.
  - split; [exact Hon|]. apply Hc. vm_compute. reflexivity.
Defined.
