(* ===== verification/Programs.v ===== *)
(** * The daemon's and the Modbus agent's programs

    apps/rcrd.cpp: the deployable daemon around [RuntimeDaemon].
    apps/rcr_modbus_rtu_agent.cpp: the Modbus RTU master that serves one commissioning
    client at a time. *)

From S2P Require Import Prelude Types Scheduler Runtime LinuxIo CanIo Daemon Bytes ModbusIo SerialPort PhysicalModbus.
From S2P Require Import TcpFrame ModbusAgent CommandLine EdgeCell.
Local Open Scope Z_scope.

(** ** rcrd *)

Definition default_daemon_config : DaemonConfig :=
  mkDaemonConfig "vcan0" 1 10 100 100 300 0 false (-1) 0 256 32 32 4096 false.

(** An option that takes a value. *)
Definition set_daemon_option (arg value : string) (c : DaemonConfig) : option DaemonConfig :=
  let ranged lo hi (f : Z → DaemonConfig) :=
    match parse_ranged lo hi value with Some wide => Some (f wide) | None => None end in
  if (arg =? "--can")%string then Some (c <| dc_can_if := value |>)
  else if (arg =? "--node-id")%string then ranged 1 31 (λ wide, c <| dc_node_id := u8 wide |>)
  else if (arg =? "--period-ms")%string then ranged 1 60000 (λ wide, c <| dc_period := wide |>)
  else if (arg =? "--command-timeout-ms")%string then ranged 1 60000 (λ wide, c <| dc_command_timeout := wide |>)
  else if (arg =? "--output-ack-timeout-ms")%string then ranged 1 60000 (λ wide, c <| dc_output_ack_timeout := wide |>)
  else if (arg =? "--heartbeat-timeout-ms")%string then ranged 1 60000 (λ wide, c <| dc_heartbeat_timeout := wide |>)
  else if (arg =? "--fifo-priority")%string then ranged 0 99 (λ wide, c <| dc_fifo_priority := wide |>)
  else if (arg =? "--cpu-affinity")%string then ranged 0 (CPU_SETSIZE - 1) (λ wide, c <| dc_cpu_affinity := wide |>)
  else if (arg =? "--duration-ms")%string then ranged 0 3600000 (λ wide, c <| dc_duration := wide |>)
  else None.

(** What becomes of the command line. *)
Inductive DaemonArgs := DaemonHelp | DaemonRefused | DaemonParsed (c : DaemonConfig).

Fixpoint parse_daemon_options (args : list string) (c : DaemonConfig) : DaemonArgs :=
  match args with
  | [] => DaemonParsed c
  | arg :: rest =>
      if (arg =? "--help")%string || (arg =? "-h")%string then DaemonHelp
      else if (arg =? "--require-fifo")%string then parse_daemon_options rest (c <| dc_require_fifo := true |>)
      else match rest with
      | [] => DaemonRefused
      | value :: rest =>
          match set_daemon_option arg value c with
          | Some c => parse_daemon_options rest c
          | None => DaemonRefused
          end
      end
  end.

(** [main]: the exit code and the masks and descriptors it leaves; [None]: the daemon still
    waits when [progress], what its threads do meanwhile, is used up. *)
Definition rcrd_main (args : list string) (env : DaemonStartEnv) (stop_now : Result Z)
    (progress : list (RuntimeDaemon → RuntimeDaemon)) (w : World) : option (Z * World) :=
  match parse_daemon_options args default_daemon_config with
  | DaemonRefused => Some (exit_value DaemonExitCode.ConfigError, w)
  | DaemonHelp => Some (exit_value DaemonExitCode.Ok, w)
  | DaemonParsed config =>
      match daemon_start env (daemon_new config) w with
      | ((d, w), Err _) => Some (exit_value (d_exit_code d), w)
      | ((d, w), Ok _) =>
          match wait_and_stop (ds_self env) stop_now progress d w with
          | None => None
          | Some ((_, w), code) => Some (exit_value code, w)
          end
      end
  end.

(** *** What the command line lets through *)

Record daemon_config_ok (c : DaemonConfig) : Prop := {
  dk_valid : config_error c = None;
  dk_priority : 0 ≤ dc_fifo_priority c ≤ 99;
  dk_duration : 0 ≤ dc_duration c ≤ 3600000;
  dk_period : dc_period c ≤ 60000;
  dk_throw : dc_test_throw_on_tick c = false
}.

(** The configurations the daemon accepts. *)
Lemma config_error_none c :
  config_error c = None ↔
  1 ≤ dc_node_id c ≤ 31 ∧ 0 < dc_period c ∧ 0 < dc_command_timeout c ∧ 0 < dc_output_ack_timeout c ∧
  0 < dc_heartbeat_timeout c ∧ -1 ≤ dc_cpu_affinity c < CPU_SETSIZE ∧ dc_event_queue_capacity c ≠ 0%nat ∧
  dc_max_events_per_tick c ≠ 0%nat ∧ dc_max_frames_per_wake c ≠ 0%nat ∧ dc_trace_capacity c ≠ 0%nat.
Proof.
  unfold config_error. rewrite <- !Nat.eqb_neq.
  match goal with |- context [if ?b then _ else _] => destruct b eqn:H1 end; [split; [done|intros (? & _); bools; lia]|].
  match goal with |- context [if ?b then _ else _] => destruct b eqn:H2 end;
    [split; [done|intros (_ & ? & ? & ? & ? & _); bools; lia]|].
  match goal with |- context [if ?b then _ else _] => destruct b eqn:H3 end.
  - split; [done|]. intros (_ & _ & _ & _ & _ & ? & H4 & H5 & H6 & H7).
    rewrite H4, H5, H6, H7, !orb_false_r in H3. bools; lia.
  - split; [intros _|done]. bools. split_and!; first [lia|done].
Qed.

Lemma set_daemon_option_ok arg value c c' :
  daemon_config_ok c → set_daemon_option arg value c = Some c' → daemon_config_ok c'.
Proof.
  intros [Hv Hp Hd Hm Ht] Hs. apply config_error_none in Hv as (? & ? & ? & ? & ? & ? & ? & ? & ? & ?).
  unfold set_daemon_option in Hs. repeat case_match; simplify_eq;
    repeat match goal with H : parse_ranged _ _ _ = Some _ |- _ => apply parse_ranged_range in H end;
    constructor; cbn -[config_error]; try done; try lia; apply config_error_none; cbn; split_and!; try done; try lia.
  all: rewrite u8_small by width_lia; lia.
Qed.

(** What the command line accepts, the daemon accepts: a configuration error can only come
    from the command line, and the test hook stays off. *)
Theorem rcrd_options_are_valid args c :
  parse_daemon_options args default_daemon_config = DaemonParsed c → daemon_config_ok c.
Proof.
  assert (Hd : daemon_config_ok default_daemon_config) by (constructor; vm_compute; done). revert Hd.
  generalize default_daemon_config. remember (length args) as n eqn:Hn. assert (Hl : (length args ≤ n)%nat) by lia. clear Hn.
  revert args Hl. induction n as [|n IH]; intros [|arg args] Hl d Hd; cbn [length] in Hl; try lia;
    cbn [parse_daemon_options]; try (by intros [= <-]).
  destruct (_ || _); [done|]. destruct (arg =? "--require-fifo")%string.
  { apply IH; [lia|]. destruct Hd; by constructor. }
  destruct args as [|value args]; [done|]. cbn [length] in Hl.
  destruct (set_daemon_option arg value d) as [d'|] eqn:Hs; [|done]. apply IH; [lia|]. by eapply set_daemon_option_ok.
Qed.

(** An exit before the daemon runs leaves masks and descriptors as they were, and its code is
    not 0 unless help was asked for. *)
Theorem rcrd_early_exit args env stop_now progress masks k code w :
  answers_fresh env k → ds_restore_rc env = 0 →
  (∀ c d w', daemon_start env (daemon_new c) (masks, k) ≠ ((d, w'), Ok ())) →
  rcrd_main args env stop_now progress (masks, k) = Some (code, w) →
  snd w = k ∧ same_masks (fst w) masks ∧
  (code = 0 → parse_daemon_options args default_daemon_config = DaemonHelp).
Proof.
  intros Hf Hrc Hno. unfold rcrd_main. destruct (parse_daemon_options args _) as [| |c] eqn:Hp; [by intros [= <- <-]..|].
  pose proof (daemon_start_cases env (daemon_new c) masks k ltac:(by split_and!) Hf Hrc) as Hd.
  destruct (daemon_start _ _ _) as [[d w'] [[]|e]] eqn:Hs; [by destruct (Hno _ _ _ Hs)|].
  destruct Hd as (_ & Hk & Hm & Hc). intros [= <- <-]. split_and!; try done. by destruct (d_exit_code d).
Qed.

(** ** The Modbus RTU agent *)

#[export] Instance PhysicalModbusIoConfig_eta : Eta PhysicalModbusIoConfig :=
  mkEta _ (fun c => mkPhysicalConfig (pc_serial_port c) (pc_baud_rate c) (pc_parity c) (pc_slave_id c) (pc_sku c) (pc_timeout c)).

Record AgentOptions := mkAgentOptions { ao_config : PhysicalModbusIoConfig; ao_bind : string; ao_port : Z }.

#[export] Instance AgentOptions_eta : Eta AgentOptions :=
  mkEta _ (fun o => mkAgentOptions (ao_config o) (ao_bind o) (ao_port o)).

Definition default_agent_options : AgentOptions :=
  mkAgentOptions default_physical_config "0.0.0.0" kModbusAgentDefaultPort.

(** The loop over the arguments: an exit code, or the options. *)
Fixpoint parse_agent_options (args : list string) (o : AgentOptions) : Z + AgentOptions :=
  match args with
  | [] => inr o
  | arg :: rest =>
      if (arg =? "--help")%string || (arg =? "-h")%string then inl 0
      else match rest with
      | [] => inl 1
      | value :: rest =>
          if (arg =? "--serial")%string then
            parse_agent_options rest (o <| ao_config ::= λ c, c <| pc_serial_port := value |> |>)
          else if (arg =? "--baud")%string then
            match parse_u32 (str_bytes value) with
            | None => inl 1
            | Some baud => parse_agent_options rest (o <| ao_config ::= λ c, c <| pc_baud_rate := baud |> |>)
            end
          else if (arg =? "--slave")%string then
            match parse_u32 (str_bytes value) with
            | None => inl 1
            | Some slave =>
                if (slave <? 1) || (247 <? slave) then inl 1
                else parse_agent_options rest (o <| ao_config ::= λ c, c <| pc_slave_id := u8 slave |> |>)
            end
          else if (arg =? "--listen")%string then
            let text := str_bytes value in
            match rfind 58 text with
            | None => inl 1
            | Some colon =>
                match parse_u32 (drop (colon + 1) text) with
                | None => inl 1
                | Some port =>
                    if 65535 <? port then inl 1
                    else parse_agent_options rest
                           (o <| ao_bind := bytes_str (take colon text) |> <| ao_port := u16 port |>)
                end
            end
          else inl 1
      end
  end.

Section Agent.
Context {W : Type} (link : RtuLink W).

(** One turn of the endless loop, and its turns so far; [None]: a session is still open. *)
Fixpoint serve_forever (config : PhysicalModbusIoConfig) (turns : list (AcceptAnswer * list SessionTurn))
    (server : ModbusAgentServer) (sv : ModbusIoSnapshot * W) (k : Kernel)
    : option (list (Result ()) * (ModbusIoSnapshot * W) * Kernel) :=
  match turns with
  | [] => Some ([], sv, k)
  | (answer, session) :: turns =>
      match serve_one link config server answer session sv k with
      | (None, _, _) => None
      | (Some r, sv, k) =>
          match serve_forever config turns server sv k with
          | None => None
          | Some (rest, sv, k) => Some (r :: rest, sv, k)
          end
      end
  end.

(** The exit code of a start that fails, or the service after the turns. *)
Definition agent_main (args : list string) (listen : ListenEnv) (turns : list (AcceptAnswer * list SessionTurn)) (w : W)
    (k : Kernel) : option (Z + list (Result ()) * (ModbusIoSnapshot * W)) * Kernel :=
  match parse_agent_options args default_agent_options with
  | inl code => (Some (inl code), k)
  | inr o =>
      let sv := (physical_new (ao_config o), w) in
      match agent_server_listen listen (mkAgentServer (-1) 0) k with
      | (Err _, _, k) => (Some (inl 2), k)
      | (Ok _, server, k) =>
          match serve_forever (ao_config o) turns server sv k with
          | None => (None, k)
          | Some (results, sv, k) => (Some (inr (results, sv)), k)
          end
      end
  end.

Lemma serve_one_balanced config server answer session sv k r sv' k' :
  (∀ fd, answer = Accepted fd → 0 ≤ fd ∧ fd ∉ k_open k) →
  serve_one link config server answer session sv k = (Some r, sv', k') → k' = k.
Proof.
  intros Hf. unfold serve_one. destruct (negb _); [by intros [= _ _ <-]|].
  destruct answer as [| | |fd]; [by intros [= _ _ <-]..|]. destruct (Hf fd eq_refl) as [_ Hn].
  destruct (serve_session _ _ _ _ _) as [[r'|] sv1]; intros [= _ _ <-]. by apply k_create_close.
Qed.

(** The agent goes on whatever a client does: every session's end, good or bad, leaves the
    descriptors as they were before it and the listening socket open for the next client. *)
Theorem agent_survives_clients config turns : ∀ server sv k results sv' k',
  (∀ fd session, (Accepted fd, session) ∈ turns → 0 ≤ fd ∧ fd ∉ k_open k) →
  serve_forever config turns server sv k = Some (results, sv', k') →
  k' = k ∧ length results = length turns.
Proof.
  induction turns as [|[answer session] turns IH]; intros server sv k results sv' k' Hf; cbn [serve_forever].
  { by intros [= <- _ <-]. }
  destruct (serve_one _ _ _ _ _ _ _) as [[[r|] sv1] k1] eqn:Hs; [|done].
  apply serve_one_balanced in Hs as ->; [|intros fd ->; apply (Hf fd session); by left].
  destruct (serve_forever _ _ _ _ _) as [[[rest sv2] k2]|] eqn:Hr; [|done]. intros [= <- _ <-].
  apply IH in Hr as [-> Hl]; [|intros fd s1 Hin; apply (Hf fd s1); by right]. split; [done|]. cbn. by rewrite Hl.
Qed.
End Agent.
