(* ===== verification/FaultMatrix.v ===== *)
(** * The fault matrix

    apps/rcr_fault_matrix.cpp: the program that runs every fault the runtime must survive as a
    scenario with a verdict.  The scenarios inside the process are modelled: they start a
    runtime, call it from the main thread and look at its snapshots, while the scheduler's
    worker ticks on its own.  Those that spawn processes report their verdict as an input. *)

From S2P Require Import Prelude Types StateMachine Mailbox Watchdog Ring Trace CanV1 InputQueue Scheduler Runtime.
From S2P Require Import RuntimeInv RuntimeSafety Supervisor Supervision LinuxIo CanIo Daemon NodeSim.
Local Open Scope Z_scope.

Record ScenarioResult := mkScenarioResult { sr_name : string; sr_result : string; sr_detail : string }.

Definition pass (name detail : string) : ScenarioResult := mkScenarioResult name "pass" detail.
Definition fail (name detail : string) : ScenarioResult := mkScenarioResult name "failed" detail.

(** ** The configurations *)

Definition default_scheduler_config : SchedulerConfig := mkSchedulerConfig (ms_to_ns 10) 0 false (-1).
Definition default_runtime_config : RuntimeConfig :=
  mkRuntimeConfig default_scheduler_config (ms_to_ns 100) (ms_to_ns 100) 4096 false.
Definition default_supervisor_config : NodeSupervisorConfig := mkNodeSupervisorConfig 1 (ms_to_ns 300) 32.
Definition default_node_config : NodeConfig := mkNodeConfig 1 1 1 true 0 0.

Definition with_period (ms : Z) : RuntimeConfig :=
  mkRuntimeConfig (mkSchedulerConfig (ms_to_ns ms) 0 false (-1)) (ms_to_ns 100) (ms_to_ns 100) 4096 false.

(** ** The main thread and the worker *)

(** What the scheduler's worker does between two calls of the main thread: periods, or the
    end of its loop when a system call fails. *)
Inductive WorkerStep := WorkTick (tick : SchedulerTick) | WorkFails (error : Z).

(** The worker ends when its callback throws. *)
Definition worker_step (rt : LinuxRuntime) (s : WorkerStep) : LinuxRuntime :=
  if negb (rt_running rt) then rt
  else match s with
       | WorkFails error => rt_worker_exit error rt
       | WorkTick tick =>
           let '(rt, ok) := rt_tick tick rt in if ok then rt else rt_worker_exit ECANCELED rt
       end.

Definition worker_run (l : list WorkerStep) (rt : LinuxRuntime) : LinuxRuntime := foldl worker_step rt l.

Record Process := mkProcess { pr_runtime : LinuxRuntime; pr_turn : nat }.

Definition Main (A : Type) : Type := Process → A * Process.
#[export] Instance Main_ret : MRet Main := λ A a w, (a, w).
#[export] Instance Main_bind : MBind Main := λ A B f m w, let '(a, w) := m w in f a w.

Section Scenarios.
(** For each call of the main thread: the worker's steps before it, and the two clocks. *)
Context (gaps : nat → list WorkerStep) (clock : nat → Result Z) (steady : nat → Z).
(** The kernel's answers to a start, and the outcomes of the trace buffer's try_lock. *)
Context (env : StartEnv) (contention : list bool).

Definition call {A} (f : nat → LinuxRuntime → LinuxRuntime * A) : Main A := λ w,
  let n := pr_turn w in
  let '(rt, a) := f n (worker_run (gaps n) (pr_runtime w)) in (a, mkProcess rt (S n)).

Definition handle (e : RuntimeEvent) : Main TransitionResult := call (λ n, rt_handle (clock n) e).
Definition interlock (ready : bool) : Main () := call (λ n rt, (rt_set_interlock_ready (clock n) ready rt, ())).
Definition publish (c : OutputCommand) : Main (Result ()) := call (λ n, rt_publish_output_command (clock n) c).
Definition consume : Main (option OutputCommand) := call (λ n, rt_try_consume_output_command (clock n)).
Definition note_sent (session sequence time : Z) : Main (Result ()) :=
  call (λ _, rt_note_output_command_sent session sequence time).
Definition snapshot : Main RuntimeSnapshot := call (λ _ rt, (rt, rt_snapshot rt)).
Definition stop : Main () := call (λ n rt, (rt_stop (clock n) rt, ())).
Definition monotonic_now : Main (Result Z) := call (λ n rt, (rt, clock n)).
Definition steady_now : Main Z := call (λ n rt, (rt, steady n)).

(** [supervisor.on_tick(rt, now)] on the main thread, with nobody else at the queue. *)
Definition supervise (now : Z) (q : BoundedInputQueue) (s : NodeSupervisor)
    : Main (BoundedInputQueue * NodeSupervisor) :=
  call (λ n rt, let '(q, (s, r)) := sup_on_tick [] now q (s, mkClocked rt (replicate 2 (clock n))) in
                (cr_runtime r, (q, s))).

(** The loop of wait_until; a turn sleeps 20 ms. *)
Fixpoint wait_loop_until (fuel : nat) (deadline : Z) (pred : RuntimeSnapshot → bool) : Main bool :=
  match fuel with
  | O => s ← snapshot; mret (pred s)
  | S fuel =>
      t ← steady_now; s ← snapshot;
      if t <? deadline then if pred s then mret true else wait_loop_until fuel deadline pred
      else mret (pred s)
  end.

Definition wait_turns (budget_ms : Z) : nat := Z.to_nat (budget_ms / 20) + 2.

Definition wait_until (pred : RuntimeSnapshot → bool) (budget_ms : Z) : Main bool :=
  t ← steady_now; wait_loop_until (wait_turns budget_ms) (t + ms_to_ns budget_ms) pred.

(** A scenario that starts a runtime first. *)
Definition started (name : string) (cfg : RuntimeConfig) (body : Main ScenarioResult) : ScenarioResult :=
  let '(rt, r) := rt_start env (rt_new cfg contention) in
  match r with
  | Err _ => fail name "start failed"
  | Ok _ => fst (body (mkProcess rt 0))
  end.

Definition boot_and_activate : Main () :=
  _ ← handle RuntimeEvent.Boot; _ ← interlock true; _ ← handle RuntimeEvent.ActivateRequest; mret ().

Definition command (session sequence deadline : Z) : OutputCommand := mkOutputCommand session sequence deadline 1 1.

(** ** Scenarios of the runtime *)

Definition scenario_activate_before_boot : ScenarioResult :=
  started "activate_before_boot" (with_period 10) (
    tr ← handle RuntimeEvent.ActivateRequest; s ← snapshot; _ ← stop;
    mret (if negb (accepted tr) && (rs_mode s ==? RuntimeMode.Disabled)
          then pass "activate_before_boot" (reason tr)
          else fail "activate_before_boot" "expected reject in Disabled")).

Definition scenario_activate_without_scheduler : ScenarioResult :=
  fst ((_ ← handle RuntimeEvent.Boot; _ ← interlock true; tr ← handle RuntimeEvent.ActivateRequest;
        mret (if negb (accepted tr) then pass "activate_without_scheduler" (reason tr)
              else fail "activate_without_scheduler" "expected reject when scheduler stopped"))
       (mkProcess (rt_new default_runtime_config contention) 0)).

Definition scenario_activate_without_interlock : ScenarioResult :=
  started "activate_without_interlock" (with_period 10) (
    _ ← handle RuntimeEvent.Boot; tr ← handle RuntimeEvent.ActivateRequest; _ ← stop; s ← snapshot;
    mret (if negb (accepted tr) && negb (rs_mode s ==? RuntimeMode.Active)
          then pass "activate_without_interlock" (reason tr)
          else fail "activate_without_interlock" "expected reject")).

Definition scenario_expired_deadline : ScenarioResult :=
  started "expired_deadline" (with_period 10) (
    _ ← boot_and_activate; now ← monotonic_now;
    match now with
    | Err _ => _ ← stop; mret (fail "expired_deadline" "clock failed")
    | Ok now =>
        pub ← publish (command 1 1 (now - 1)); _ ← stop;
        mret (match pub with
              | Err e => if err_code e ==? Errc.Rejected then pass "expired_deadline" (err_message e)
                         else fail "expired_deadline" "expected reject"
              | Ok _ => fail "expired_deadline" "expected reject"
              end)
    end).

(** stale_sequence and session_mismatch differ in their second command.  [value()] of a
    failed clock reading is not defined; the model takes 0. *)
Definition second_command (name : string) (session sequence first_sequence : Z) : ScenarioResult :=
  started name (with_period 10) (
    _ ← boot_and_activate; now ← monotonic_now;
    let deadline := value_or 0 now + 500000000 in
    first ← publish (command 1 first_sequence deadline);
    match first with
    | Err _ => _ ← stop; mret (fail name "first publish failed")
    | Ok _ =>
        second ← publish (command session sequence deadline); _ ← stop;
        mret (match second with
              | Err e => pass name (err_message e)
              | Ok _ => fail name "expected reject"
              end)
    end).

Definition scenario_stale_sequence : ScenarioResult := second_command "stale_sequence" 1 1 2.
Definition scenario_session_mismatch : ScenarioResult := second_command "session_mismatch" 2 2 1.

Definition timeout_config : RuntimeConfig :=
  mkRuntimeConfig (mkSchedulerConfig (ms_to_ns 5) 0 false (-1)) (ms_to_ns 30) (ms_to_ns 100) 4096 false.

Definition held_by (code : FaultCode) (s : RuntimeSnapshot) : bool :=
  (rs_mode s ==? RuntimeMode.Hold) && (rs_fault s ==? code).

Definition scenario_command_timeout_hold : ScenarioResult :=
  started "command_timeout_hold" timeout_config (
    _ ← boot_and_activate; now ← monotonic_now;
    match now with
    | Err _ => _ ← stop; mret (fail "command_timeout_hold" "clock failed")
    | Ok now =>
        pub ← publish (command 1 1 (now + 500000000));
        match pub with
        | Err _ => _ ← stop; mret (fail "command_timeout_hold" "publish failed")
        | Ok _ =>
            held ← wait_until (held_by FaultCode.Watchdog) 500; _ ← stop;
            mret (if held : bool then pass "command_timeout_hold" "Hold+Watchdog"
                  else fail "command_timeout_hold" "timeout did not enter Hold")
        end
    end).

Definition ack_config : RuntimeConfig :=
  mkRuntimeConfig (mkSchedulerConfig (ms_to_ns 1) 0 false (-1)) (ms_to_ns 1000) (ms_to_ns 8) 4096 false.

Definition ack_timed_out (s : RuntimeSnapshot) : bool :=
  held_by FaultCode.AckTimeout s && (rs_ack_timeout_count s =? 1) && negb (rs_output_ack_pending s).

(** The chain [publish || consume || note] of the condition, evaluated in order. *)
Definition establish (now : Z) : Main bool :=
  pub ← publish (command 1 1 (now + 500000000));
  match pub with
  | Err _ => mret false
  | Ok _ =>
      c ← consume;
      match c with
      | None => mret false
      | Some _ => sent ← note_sent 1 1 now; mret (res_ok sent)
      end
  end.

Definition scenario_output_ack_timeout_hold : ScenarioResult :=
  started "output_ack_timeout_hold" ack_config (
    _ ← boot_and_activate; now ← monotonic_now;
    match now with
    | Err _ => _ ← stop; mret (fail "output_ack_timeout_hold" "clock read failed")
    | Ok now =>
        ok ← establish now;
        if negb ok then _ ← stop; mret (fail "output_ack_timeout_hold" "failed to establish pending ACK")
        else
          held ← wait_until ack_timed_out 500; resume ← handle RuntimeEvent.Resume; s ← snapshot; _ ← stop;
          mret (if held && accepted resume && (rs_mode s ==? RuntimeMode.Idle)
                then pass "output_ack_timeout_hold" "Hold+AckTimeout; explicit Resume returns only Idle"
                else fail "output_ack_timeout_hold" "ACK timeout classification or recovery contract failed")
    end).

Definition scenario_interlock_lost_hold : ScenarioResult :=
  started "interlock_lost_hold" (with_period 10) (
    _ ← boot_and_activate; _ ← interlock false; s ← snapshot; _ ← stop;
    mret (if held_by FaultCode.InterlockLost s then pass "interlock_lost_hold" "Hold+InterlockLost"
          else fail "interlock_lost_hold" "expected Hold")).

Definition scenario_estop_latch : ScenarioResult :=
  started "estop_latch" (with_period 10) (
    _ ← boot_and_activate; _ ← handle RuntimeEvent.EStopTrigger;
    activate ← handle RuntimeEvent.ActivateRequest; s ← snapshot; _ ← stop;
    mret (if (rs_mode s ==? RuntimeMode.EStop) && negb (accepted activate)
          then pass "estop_latch" "EStop blocks Activate" else fail "estop_latch" "EStop not latched")).

Definition throwing_config : RuntimeConfig :=
  mkRuntimeConfig (mkSchedulerConfig (ms_to_ns 5) 0 false (-1)) (ms_to_ns 100) (ms_to_ns 100) 4096 true.

Definition scenario_worker_exception_fail_closed : ScenarioResult :=
  started "worker_exception_fail_closed" throwing_config (
    _ ← boot_and_activate; stopped ← wait_until (λ s, negb (rs_running s)) 500; now ← monotonic_now;
    pub ← publish (command 1 1 (value_or 0 now + 500000000)); s ← snapshot; _ ← stop;
    mret (if stopped && negb (res_ok pub) && negb (ss_worker_error (rs_scheduler s) =? 0)
          then pass "worker_exception_fail_closed" "publish rejected after worker stop"
          else fail "worker_exception_fail_closed" "worker fail-closed incomplete")).

(** ** Scenarios with the supervisor *)

Definition heartbeat_event (hb_seq monotonic_ns : Z) : RuntimeInputEvent :=
  default_event <| ev_kind := RuntimeInputKind.Heartbeat |> <| ev_node_id := 1 |> <| ev_boot_id := 1 |>
    <| ev_session_id := 1 |> <| ev_hb_seq := hb_seq |> <| ev_monotonic_ns := monotonic_ns |>.

Definition push (e : RuntimeInputEvent) (q : BoundedInputQueue) : BoundedInputQueue := fst (try_push e q).

Definition scenario_queue_overflow_fault : ScenarioResult :=
  started "queue_overflow_fault" default_runtime_config (
    _ ← boot_and_activate;
    '(_, supervisor) ← supervise 1 (push (heartbeat_event 1 1) (push (heartbeat_event 1 1) (q_new 1)))
                         (ns_new default_supervisor_config);
    s ← snapshot; _ ← stop;
    mret (if nss_overflow_fault_latched (ns_snapshot supervisor) && (rs_mode s ==? RuntimeMode.Fault) &&
             (rs_fault s ==? FaultCode.Internal)
          then pass "queue_overflow_fault" "Internal fault latched"
          else fail "queue_overflow_fault" "overflow did not fault")).

Definition scenario_queue_overflow_clear_rejected : ScenarioResult :=
  started "queue_overflow_clear_rejected" default_runtime_config (
    _ ← handle RuntimeEvent.Boot;
    '(queue, supervisor) ← supervise 1 (push (heartbeat_event 1 1) (push (heartbeat_event 1 1) (q_new 1)))
                             (ns_new default_supervisor_config);
    let recovery := snd (acknowledge_fault_clear FaultCode.Internal queue supervisor) in
    cleared ← (if res_ok recovery then tr ← handle RuntimeEvent.FaultCleared; mret (accepted tr) else mret false);
    s ← snapshot; _ ← stop;
    mret (if negb (res_ok recovery) && negb cleared && (rs_mode s ==? RuntimeMode.Fault)
          then pass "queue_overflow_clear_rejected" "overflow latch requires daemon restart"
          else fail "queue_overflow_clear_rejected" "persistent overflow was cleared")).

Definition scenario_overlapping_fault_recovery_rejected : ScenarioResult :=
  started "overlapping_fault_recovery_rejected" default_runtime_config (
    _ ← handle RuntimeEvent.Boot;
    '(queue, supervisor) ← supervise 100 (push (heartbeat_event 1 100) (push (heartbeat_event 1 100) (q_new 1)))
                             (ns_new (mkNodeSupervisorConfig 1 (ms_to_ns 20) 32));
    '(queue, supervisor) ← supervise 30000100 queue supervisor;
    '(queue, supervisor) ← supervise 30000200 (push (heartbeat_event 2 30000200) queue) supervisor;
    let '(supervisor, recovery) := acknowledge_fault_clear FaultCode.CommLoss queue supervisor in
    s ← snapshot; _ ← stop;
    mret (if negb (res_ok recovery) && (rs_mode s ==? RuntimeMode.Fault) &&
             nss_overflow_fault_latched (ns_snapshot supervisor)
          then pass "overlapping_fault_recovery_rejected" "recovered CommLoss cannot bypass overflow restart gate"
          else fail "overlapping_fault_recovery_rejected" "last FaultCode bypassed a persistent blocker")).
End Scenarios.

(** ** Scenarios without a runtime *)

Definition scenario_node_output_lease_neutral : ScenarioResult :=
  let '(node, applied) := apply_command (mkWireOutputCommand 1 0xFF 1 1 0xA5 1) 0 0 (node_new default_node_config) in
  let '(node, expired) := expire_output_lease 9999999 node in
  let held_before_deadline := negb expired && (nl_output_bits node =? 0xA5) in
  let '(node, expired) := expire_output_lease 10000000 node in
  let neutral_at_deadline := expired && (nl_output_bits node =? 0) in
  if (os_result (hr_status applied) ==? OutputResult.Applied) && held_before_deadline && neutral_at_deadline
  then pass "node_output_lease_neutral" "ordinary output neutral at declared deadline"
  else fail "node_output_lease_neutral" "applied output survived its authority lease".

Definition scenario_mailbox_overwrite : ScenarioResult :=
  let a := mkOutputCommand 1 1 100 1 1 in
  let b := mkOutputCommand 1 2 100 1 2 in
  let '(box, got) := mb_try_consume (mb_publish b (mb_publish a mb_init)) in
  match got with
  | Some c => if (cmd_sequence c =? 2) && (mb_drop_count box =? 1)
              then pass "mailbox_overwrite" "latest-wins drop_count=1"
              else fail "mailbox_overwrite" "overwrite semantics broken"
  | None => fail "mailbox_overwrite" "overwrite semantics broken"
  end.

Definition scenario_illegal_frame_reject : ScenarioResult :=
  match decode (mkCanFrame (make_can_id Function.Heartbeat 1) 7 (replicate 8 0)) with
  | Err e => if err_code e ==? Errc.Rejected then pass "illegal_frame_reject" (err_message e)
             else fail "illegal_frame_reject" "expected protocol reject"
  | Ok _ => fail "illegal_frame_reject" "expected protocol reject"
  end.

(** The scheduler alone, with an empty callback; [turns]: what its loop meets until it is
    stopped.  The text of the numbers is left out of the details. *)
Definition scenario_fifo_permission_observed (env : StartEnv) (turns : list IterEnv) : ScenarioResult :=
  let name := "fifo_permission_observed"%string in
  let '(p, r) := ps_start env (ps_new (mkSchedulerConfig (ms_to_ns 5) 10 false (-1))) in
  match r with
  | Err e => fail name (err_message e)
  | Ok _ =>
      let l := run_loop (λ _ (u : ()), (u, true)) turns (enter_loop (value_or 0 (se_now env)) p ()) in
      let st := scheduler_stats (ls_sched l) in
      if ss_fifo_enabled st then pass name "FIFO enabled"
      else if (ss_fifo_error st =? EPERM) || (ss_fifo_error st =? EACCES)
      then mkScenarioResult name "permission_denied" "fifo_error="
      else fail name "unexpected fifo_error="
  end.

(** The daemon with a throwing callback; [progress]: what its threads do while it waits.
    [None]: it waits for ever. *)
Definition throwing_daemon (can_if : string) : DaemonConfig :=
  mkDaemonConfig can_if 1 5 100 100 300 0 false (-1) 0 256 32 32 4096 true.

Definition scenario_daemon_worker_failure (can_if : string) (env : DaemonStartEnv) (now : Result Z)
    (progress : list (RuntimeDaemon → RuntimeDaemon)) (w : World) : option ScenarioResult :=
  let name := "daemon_worker_failure"%string in
  let '((d, w), r) := daemon_start env (daemon_new (throwing_daemon can_if)) w in
  match r with
  | Err e => Some (fail name (err_message e))
  | Ok _ =>
      '(_, code) ← wait_and_stop (ds_self env) now progress d w;
      Some (if code ==? DaemonExitCode.WorkerFailure
            then pass name "scheduler failure escalated to daemon exit 4"
            else fail name "daemon did not escalate scheduler failure")
  end.

(** ** The program *)

Record MatrixOptions := mkMatrixOptions {
  mo_can_if : string; mo_sim_path : string; mo_rcrd_path : string; mo_evidence_path : string
}.

#[export] Instance MatrixOptions_eta : Eta MatrixOptions :=
  mkEta _ (fun o => mkMatrixOptions (mo_can_if o) (mo_sim_path o) (mo_rcrd_path o) (mo_evidence_path o)).

Definition default_matrix_options : MatrixOptions := mkMatrixOptions "vcan0" "" "" "".

Fixpoint parse_matrix_options (args : list string) (o : MatrixOptions) : option MatrixOptions :=
  match args with
  | [] => Some o
  | arg :: args =>
      if (arg =? "--help")%string || (arg =? "-h")%string then None
      else match args with
           | [] => None
           | value :: args =>
               if (arg =? "--can")%string then parse_matrix_options args (o <| mo_can_if := value |>)
               else if (arg =? "--sim-path")%string then parse_matrix_options args (o <| mo_sim_path := value |>)
               else if (arg =? "--rcrd-path")%string then parse_matrix_options args (o <| mo_rcrd_path := value |>)
               else if (arg =? "--evidence")%string then parse_matrix_options args (o <| mo_evidence_path := value |>)
               else None
           end
  end.

Record Tally := mkTally { ty_passed : Z; ty_failed : Z; ty_permission : Z; ty_unsupported : Z; ty_not_run : Z }.

#[export] Instance Tally_eta : Eta Tally :=
  mkEta _ (fun t => mkTally (ty_passed t) (ty_failed t) (ty_permission t) (ty_unsupported t) (ty_not_run t)).

Definition count_result (t : Tally) (r : ScenarioResult) : Tally :=
  if (sr_result r =? "pass")%string then t <| ty_passed ::= Z.succ |>
  else if (sr_result r =? "failed")%string then t <| ty_failed ::= Z.succ |>
  else if (sr_result r =? "permission_denied")%string then t <| ty_permission ::= Z.succ |>
  else if (sr_result r =? "unsupported")%string then t <| ty_unsupported ::= Z.succ |>
  else if (sr_result r =? "not_run")%string then t <| ty_not_run ::= Z.succ |>
  else t <| ty_failed ::= Z.succ |>.

Definition tally (results : list ScenarioResult) : Tally := foldl count_result (mkTally 0 0 0 0 0) results.

Definition EXIT_SUCCESS : Z := 0.
Definition EXIT_FAILURE : Z := 1.

(** [existing]: a file at the evidence path before the run; [available]: the interface;
    [results]: the verdicts in order; [writable]: the evidence file can be created. *)
Definition matrix_main (args : list string) (existing available writable : bool) (results : list ScenarioResult) : Z :=
  match parse_matrix_options args default_matrix_options with
  | None => EXIT_FAILURE
  | Some o =>
      if (mo_evidence_path o =? "")%string || (mo_sim_path o =? "")%string || (mo_rcrd_path o =? "")%string
      then EXIT_FAILURE
      else if existing then EXIT_FAILURE
      else if negb available then EXIT_FAILURE
      else if negb writable then EXIT_FAILURE
      else let t := tally results in
           if (ty_failed t =? 0) && (ty_not_run t =? 0) then EXIT_SUCCESS else EXIT_FAILURE
  end.

(** The scenarios inside the process, in the order of main; each has a schedule of its own. *)
Record Schedule := mkSchedule {
  sd_gaps : nat → list WorkerStep; sd_clock : nat → Result Z; sd_steady : nat → Z; sd_contention : list bool
}.

Definition runtime_scenarios (env : StartEnv) : list (Schedule → ScenarioResult) :=
  [λ s, scenario_activate_before_boot (sd_gaps s) (sd_clock s) env (sd_contention s);
   λ s, scenario_activate_without_scheduler (sd_gaps s) (sd_clock s) (sd_contention s);
   λ s, scenario_activate_without_interlock (sd_gaps s) (sd_clock s) env (sd_contention s);
   λ s, scenario_expired_deadline (sd_gaps s) (sd_clock s) env (sd_contention s);
   λ s, scenario_stale_sequence (sd_gaps s) (sd_clock s) env (sd_contention s);
   λ s, scenario_session_mismatch (sd_gaps s) (sd_clock s) env (sd_contention s);
   λ s, scenario_interlock_lost_hold (sd_gaps s) (sd_clock s) env (sd_contention s);
   λ s, scenario_estop_latch (sd_gaps s) (sd_clock s) env (sd_contention s);
   λ s, scenario_queue_overflow_fault (sd_gaps s) (sd_clock s) env (sd_contention s);
   λ s, scenario_queue_overflow_clear_rejected (sd_gaps s) (sd_clock s) env (sd_contention s);
   λ s, scenario_overlapping_fault_recovery_rejected (sd_gaps s) (sd_clock s) env (sd_contention s)].

(** ** The runtime between two calls *)

(** A runtime with a running worker and nothing in its output path, after [k] ACK timeouts. *)
Record calm (c : RuntimeConfig) (k : Z) (sm : RuntimeStateMachine) (rt : LinuxRuntime) : Prop := {
  cl_running : rt_running rt = true;
  cl_joinable : ps_joinable (rt_scheduler rt) = true;
  cl_quiet : rt_test_throw_on_tick rt = false;
  cl_config : rt_config rt = c;
  cl_sm : rt_state_machine rt = sm;
  cl_closed : path_closed rt;
  cl_timeout : wd_timeout (rt_command_watchdog rt) = rc_command_timeout (rt_config rt);
  cl_expired : wd_expired (rt_command_watchdog rt) = false;
  cl_acks : rt_ack_timeout_count rt = k
}.

Definition is_tick (s : WorkerStep) : Prop := match s with WorkTick _ => True | WorkFails _ => False end.

Lemma tick_trace_same tick rt :
  ∃ t, tick_trace tick rt = rt <| rt_trace := t |>.
Proof. unfold tick_trace. destruct (_ <=? _); by eexists. Qed.

Lemma calm_tick c k sm rt tick : calm c k sm rt → calm c k sm (fst (rt_tick tick rt)) ∧ snd (rt_tick tick rt) = true.
Proof.
  intros [Hr Hj Hq Hcf Hs Hp Ht He Hc]. unfold rt_tick. rewrite Hq. destruct (tick_trace_same tick rt) as [t ->].
  destruct Hp as (Hw & Hm & Ha & Hl & Hk). unfold tick_ack_timeout. cbn. rewrite Hk, andb_false_r. cbn.
  unfold tick_watchdog, wd_check. cbn. rewrite Hw. cbn. split; [|done].
  destruct (rt_can_accept _); by constructor.
Qed.

Lemma calm_step c k sm rt s : is_tick s → calm c k sm rt → calm c k sm (worker_step rt s).
Proof.
  intros Hs Hc. unfold worker_step. rewrite (cl_running _ _ _ _ Hc). destruct s as [tick|]; [|done].
  apply (calm_tick _ _ _ _ tick) in Hc as [Hc Ho]. destruct (rt_tick tick rt) as [rt' ok]. cbn in *. by rewrite Ho.
Qed.

Lemma calm_run c k sm l rt : Forall is_tick l → calm c k sm rt → calm c k sm (worker_run l rt).
Proof.
  intros Hl. revert rt. unfold worker_run. induction Hl as [|s l Hs Hl IH]; intros rt Hc; [done|].
  cbn. by apply IH, calm_step.
Qed.

(** Without a worker nothing happens in between. *)
Lemma idle_run l rt : rt_running rt = false → worker_run l rt = rt.
Proof.
  intros Hr. unfold worker_run. induction l as [|w l IH]; [done|]. cbn [foldl].
  assert (worker_step rt w = rt) as -> by (unfold worker_step; by rewrite Hr). done.
Qed.

Lemma calm_started cfg contention env rt :
  rc_test_throw_on_tick cfg = false →
  rt_start env (rt_new cfg contention) = (rt, Ok ()) → calm cfg 0 sm_init rt.
Proof.
  intros Hq. unfold rt_start. destruct (_ || _); [done|]. destruct (ps_start _ _) as [p r] eqn:Hp.
  intros [= <- ->]. assert (Hr : ps_running p = true ∧ ps_joinable p = true).
  { revert Hp. unfold ps_start. repeat (case_match; [done|]). unfold worker_init. repeat case_match; intros; simplify_eq; done. }
  destruct Hr. by constructor.
Qed.

(** ** Reasoning about the main thread *)

Definition triple {A} (P : Process → Prop) (m : Main A) (Q : A → Process → Prop) : Prop :=
  ∀ p, P p → Q (fst (m p)) (snd (m p)).

Lemma t_ret {A} (a : A) (P : Process → Prop) (Q : A → Process → Prop) : (∀ p, P p → Q a p) → triple P (mret a) Q.
Proof. intros H p. apply H. Qed.

Lemma t_bind {A B} (P : Process → Prop) (R : A → Process → Prop) (Q : B → Process → Prop) (m : Main A) (f : A → Main B) :
  triple P m R → (∀ a, triple (R a) (f a) Q) → triple P (m ≫= f) Q.
Proof.
  intros Hm Hf p Hp. unfold mbind, Main_bind. pose proof (Hm p Hp) as Hr. destruct (m p) as [a p']. by apply Hf.
Qed.

Lemma t_pure {A} (φ : Prop) (P : Process → Prop) (m : Main A) (Q : A → Process → Prop) :
  (φ → triple P m Q) → triple (λ p, φ ∧ P p) m Q.
Proof. intros H p [Hf Hp]. by apply H. Qed.

Lemma t_post {A} (P : Process → Prop) (m : Main A) (Q R : A → Process → Prop) :
  triple P m Q → (∀ a p, Q a p → R a p) → triple P m R.
Proof. intros H HQ p Hp. by apply HQ, H. Qed.

Lemma t_pre {A} (P P' : Process → Prop) (m : Main A) (Q : A → Process → Prop) :
  (∀ p, P' p → P p) → triple P m Q → triple P' m Q.
Proof. intros HP H p Hp. by apply H, HP. Qed.

Lemma t_any {A} (P : Process → Prop) (m : Main A) : triple P m (λ _ _, True).
Proof. done. Qed.

Section Calls.
Context (gaps : nat → list WorkerStep) (clock : nat → Result Z) (steady : nat → Z).
Context (ticks_only : ∀ n, Forall is_tick (gaps n)) (c : RuntimeConfig).

(** The process before call number [n], its runtime calm. *)
Definition at_turn (n : nat) (R : LinuxRuntime → Prop) (p : Process) : Prop := R (pr_runtime p) ∧ pr_turn p = n.

(** A call, when the worker keeps [R] up to it. *)
Lemma t_call {A} n (R R' : LinuxRuntime → Prop) (f : nat → LinuxRuntime → LinuxRuntime * A) (Q : A → LinuxRuntime → Prop) :
  (∀ rt, R rt → R' (worker_run (gaps n) rt)) → (∀ rt, R' rt → Q (snd (f n rt)) (fst (f n rt))) →
  triple (at_turn n R) (call gaps f) (λ a, at_turn (S n) (Q a)).
Proof.
  intros Hg Hf p [Hp <-]. unfold call. apply Hg, Hf in Hp.
  destruct (f _ _) as [rt a]. by split.
Qed.

Lemma t_calm_call {A} n k sm (f : nat → LinuxRuntime → LinuxRuntime * A) (Q : A → LinuxRuntime → Prop) :
  (∀ rt, calm c k sm rt → Q (snd (f n rt)) (fst (f n rt))) →
  triple (at_turn n (calm c k sm)) (call gaps f) (λ a, at_turn (S n) (Q a)).
Proof. intros Hf. apply (t_call n (calm c k sm) (calm c k sm)); [|done]. intros rt. by apply calm_run. Qed.

Lemma calm_handle now e k sm rt :
  e ≠ RuntimeEvent.FaultDetected → calm c k sm rt →
  snd (rt_handle now e rt) = snd (sm_handle sm e) ∧ calm c k (fst (sm_handle sm e)) (fst (rt_handle now e rt)).
Proof.
  intros He Hc. pose proof Hc as [Hr Hj Hq Hcf Hs Hp Ht Hx Ha]. unfold rt_handle. rewrite bool_decide_eq_false_2 by done.
  rewrite Hr, andb_false_r. unfold sm_step. rewrite Hs. destruct (sm_handle sm e) as [sm' t]. cbn.
  destruct (accepted t); [|split; [done|by constructor]].
  split; [done|]. unfold trace_transition, rt_record, clear_output_path.
  repeat case_match; by constructor.
Qed.

Lemma t_handle n e k sm :
  e ≠ RuntimeEvent.FaultDetected →
  triple (at_turn n (calm c k sm)) (handle gaps clock e)
    (λ t, at_turn (S n) (λ rt, t = snd (sm_handle sm e) ∧ calm c k (fst (sm_handle sm e)) rt)).
Proof. intros He. apply t_calm_call. intros rt Hc. by apply calm_handle. Qed.

Lemma t_interlock n ready k sm :
  triple (at_turn n (calm c k sm)) (interlock gaps clock ready) (λ _, at_turn (S n) (calm c k (sm_set_interlock_ready ready sm))).
Proof.
  apply t_calm_call. intros rt Hc. pose proof Hc as [Hr Hj Hq Hcf Hs Hp Ht Hx Ha]. cbn. unfold rt_set_interlock_ready.
  cbv zeta. repeat case_match; constructor; cbn; try done; by rewrite Hs.
Qed.

(** A call that only reads. *)
Lemma t_read {A} n (R : LinuxRuntime → Prop) (f : nat → LinuxRuntime → A) :
  (∀ rt, R rt → R (worker_run (gaps n) rt)) →
  triple (at_turn n R) (call gaps (λ n rt, (rt, f n rt))) (λ a, at_turn (S n) (λ rt, R rt ∧ a = f n rt)).
Proof. intros Hg. by apply (t_call n R R). Qed.

Definition shows (k : Z) (sm : RuntimeStateMachine) (s : RuntimeSnapshot) : Prop :=
  rs_mode s = sm_mode sm ∧ rs_fault s = sm_fault sm ∧ rs_running s = true ∧ rs_ack_timeout_count s = k ∧
  rs_output_ack_pending s = false.

Lemma calm_shows k sm rt : calm c k sm rt → shows k sm (rt_snapshot rt).
Proof. intros [Hr Hj Hq Hcf Hs (? & ? & ? & ? & ?) Ht Hx Ha]. unfold shows, rt_snapshot, rt_mode, rt_fault. cbn. by rewrite Hs. Qed.

Lemma t_snapshot n k sm :
  triple (at_turn n (calm c k sm)) (snapshot gaps) (λ s, at_turn (S n) (λ rt, shows k sm s ∧ calm c k sm rt)).
Proof.
  eapply t_post; [apply (t_read n (calm c k sm) (λ _, rt_snapshot)); intros rt; by apply calm_run|].
  intros s p [[Hc ->] Hn]. split; [|done]. split; [by apply calm_shows|done].
Qed.

Lemma t_monotonic n k sm :
  triple (at_turn n (calm c k sm)) (monotonic_now gaps clock) (λ now, at_turn (S n) (λ rt, now = clock n ∧ calm c k sm rt)).
Proof.
  eapply t_post; [apply (t_read n (calm c k sm) (λ n _, clock n)); intros rt; by apply calm_run|].
  by intros now p [[Hc ->] Hn].
Qed.

Definition stopped (rt : LinuxRuntime) : Prop := rt_running rt = false ∧ rt_mode rt = RuntimeMode.Disabled.

Lemma t_stop n k sm : triple (at_turn n (calm c k sm)) (stop gaps clock) (λ _, at_turn (S n) stopped).
Proof.
  apply t_calm_call. intros rt [Hr Hj Hq Hcf Hs Hp Ht Hx Ha]. cbn. unfold stopped, rt_stop, rt_stop_locked, rt_running, rt_mode.
  cbv zeta. repeat case_match; split; try done; cbn; by rewrite Hj.
Qed.

Lemma t_idle_snapshot n :
  triple (at_turn n stopped) (snapshot gaps)
    (λ s, at_turn (S n) (λ rt, (rs_running s = false ∧ rs_mode s = RuntimeMode.Disabled) ∧ stopped rt)).
Proof.
  apply (t_call n stopped stopped); [intros rt [Hr Hm]; by rewrite idle_run|]. intros rt [Hr Hm]. by split_and!.
Qed.

(** A fact about the result leaves the description of the runtime. *)
Lemma t_fact {A} n (φ : Prop) (R : LinuxRuntime → Prop) (m : Main A) (Q : A → Process → Prop) :
  (φ → triple (at_turn n R) m Q) → triple (at_turn n (λ rt, φ ∧ R rt)) m Q.
Proof. intros H p [[Hf Hr] Hn]. by apply H. Qed.

Definition booted : RuntimeStateMachine := fst (sm_handle sm_init RuntimeEvent.Boot).
Definition active : RuntimeStateMachine := mkRuntimeStateMachine RuntimeMode.Active true FaultCode.None.

Lemma t_boot n : triple (at_turn n (calm c 0 sm_init)) (handle gaps clock RuntimeEvent.Boot) (λ _, at_turn (S n) (calm c 0 booted)).
Proof. eapply t_post; [by apply t_handle|]. intros t p [[? Hc] Hn]. by split. Qed.

Lemma t_boot_and_activate n :
  triple (at_turn n (calm c 0 sm_init)) (boot_and_activate gaps clock) (λ _, at_turn (S (S (S n))) (calm c 0 active)).
Proof.
  eapply t_bind; [apply t_boot|]. intros ?. eapply t_bind; [apply t_interlock|]. intros [].
  eapply t_bind; [by apply t_handle|]. intros t. apply t_ret. intros p [[? Hc] Hn]. by split.
Qed.

End Calls.

(** ** A command on its way *)

(** The active runtime after a publication at [kick]: the command waits in the mailbox
    ([slot]) or has been sent ([sent]: when). *)
Record busy (cfg : RuntimeConfig) (session sequence kick : Z) (slot : option OutputCommand) (sent : option Z)
    (rt : LinuxRuntime) : Prop := {
  bu_running : rt_running rt = true;
  bu_joinable : ps_joinable (rt_scheduler rt) = true;
  bu_quiet : rt_test_throw_on_tick rt = false;
  bu_sm : rt_state_machine rt = active;
  bu_config : rt_config rt = cfg;
  bu_session : rt_active_session_id rt = Some session;
  bu_sequence : rt_last_output_sequence rt = sequence;
  bu_watchdog : rt_command_watchdog rt = mkMonotonicWatchdog (rc_command_timeout cfg) kick true false;
  bu_slot : mb_slot (rt_mailbox rt) = slot;
  bu_pending : rt_output_ack_pending rt = bool_decide (is_Some sent);
  bu_sent : ∀ t, sent = Some t → rt_last_sent_time_ns rt = t;
  bu_acks : rt_ack_timeout_count rt = 0
}.

Definition held (code : FaultCode) : RuntimeStateMachine := mkRuntimeStateMachine RuntimeMode.Hold true code.

Lemma calm_publish c now session sequence deadline rt :
  calm c 0 active rt → session ≠ 0 → 0 < sequence →
  let '(rt', r) := rt_publish_output_command (Ok now) (command session sequence deadline) rt in
  if now <? deadline then
    r = Ok () ∧ busy c session sequence now (Some (command session sequence deadline)) None rt'
  else ∃ e, r = Err e ∧ err_code e = Errc.Rejected.
Proof.
  intros Hc Hs Hq. pose proof Hc as [Hr Hj Hqu Hcf Hsm (Hw & Hm & Ha & Hl & Hk) Ht Hx Hac]. unfold rt_publish_output_command.
  rewrite Hr. cbn [negb]. unfold rt_can_accept. rewrite Hsm. cbn [can_accept_output active negb sm_mode sm_interlock_ready].
  unfold command at 1 2 3 4. cbn. rewrite (proj2 (Z.eqb_neq session 0)), (proj2 (Z.eqb_neq sequence 0)) by lia. cbn.
  rewrite Z.leb_antisym. destruct (now <? deadline); cbn; [|by eexists].
  rewrite Ha. cbn. rewrite Hl, (proj2 (Z.leb_gt sequence 0)) by lia. cbn.
  split; [done|]. constructor; try done. unfold wd_arm. cbn. by rewrite Ht, Hcf.
Qed.

Section Busy.
Context (cfg : RuntimeConfig) (session sequence kick : Z) (slot : option OutputCommand) (sent : option Z).

Lemma busy_trace tr rt :
  busy cfg session sequence kick slot sent rt → busy cfg session sequence kick slot sent (rt <| rt_trace := tr |>).
Proof. intros []. by constructor. Qed.

Lemma busy_ack_tick t rt :
  busy cfg session sequence kick slot sent rt →
  if match sent with Some s => (s <=? t) && (rc_output_ack_timeout cfg <=? t - s) | None => false end
  then calm cfg 1 (held FaultCode.AckTimeout) (tick_ack_timeout t rt) else tick_ack_timeout t rt = rt.
Proof.
  intros [Hr Hj Hq Hs Hc Hse Hsq Hw Hsl Hp Hst Ha]. unfold tick_ack_timeout, rt_can_accept.
  rewrite Hs, Hp. destruct sent as [s|]; [|done]. rewrite (Hst s eq_refl), Hc. cbn [is_Some].
  destruct (s <=? t), (_ <=? t - s); try done. cbn -[sm_handle]. rewrite Ha.
  unfold sm_step. cbn -[sm_handle]. rewrite Hs. constructor; cbn; try done.
  all: by rewrite Hw, ?Hc.
Qed.

Lemma busy_watchdog_tick t rt :
  busy cfg session sequence kick slot sent rt →
  if rc_command_timeout cfg <=? Z.max (t - kick) 0 then calm cfg 0 (held FaultCode.Watchdog) (tick_watchdog t rt)
  else busy cfg session sequence kick slot sent (tick_watchdog t rt).
Proof.
  intros [Hr Hj Hq Hs Hc Hse Hsq Hw Hsl Hp Hst Ha]. unfold tick_watchdog, rt_can_accept. rewrite Hs. cbn [can_accept_output active].
  unfold wd_check. rewrite Hw, Z.leb_antisym. cbn -[sm_handle]. destruct (_ <? _); cbn -[sm_handle]; [by constructor|].
  unfold sm_step. cbn -[sm_handle]. rewrite Hs. constructor; cbn; try done. all: by rewrite ?Hc.
Qed.

Lemma held_watchdog_tick k code t rt : calm cfg k (held code) rt → tick_watchdog t rt = rt.
Proof. intros Hc. unfold tick_watchdog, rt_can_accept. by rewrite (cl_sm _ _ _ _ Hc). Qed.

(** A tick while a command is under way decides by the two timeouts. *)
Lemma busy_tick tick rt :
  busy cfg session sequence kick slot sent rt →
  let t := tk_actual_ns tick in
  let rt' := fst (rt_tick tick rt) in
  snd (rt_tick tick rt) = true ∧
  if match sent with Some s => (s <=? t) && (rc_output_ack_timeout cfg <=? t - s) | None => false end
  then calm cfg 1 (held FaultCode.AckTimeout) rt'
  else if rc_command_timeout cfg <=? Z.max (t - kick) 0 then calm cfg 0 (held FaultCode.Watchdog) rt'
  else busy cfg session sequence kick slot sent rt'.
Proof.
  intros Hb t rt'. subst rt'. unfold rt_tick. rewrite (bu_quiet _ _ _ _ _ _ _ Hb). split; [done|]. cbn [fst].
  destruct (tick_trace_same tick rt) as [tr ->]. apply (busy_trace tr) in Hb. fold t.
  pose proof (busy_ack_tick t _ Hb) as Ha. destruct (match sent with Some _ => _ | None => _ end).
  - by rewrite (held_watchdog_tick _ _ _ _ Ha).
  - rewrite Ha. by apply busy_watchdog_tick.
Qed.

Lemma busy_worker_tick tick rt :
  busy cfg session sequence kick slot sent rt → worker_step rt (WorkTick tick) = fst (rt_tick tick rt).
Proof.
  intros Hb. unfold worker_step. rewrite (bu_running _ _ _ _ _ _ _ Hb). cbn [negb].
  destruct (busy_tick tick rt Hb) as [Ho _]. destruct (rt_tick tick rt) as [rt' ok]. cbn in *. by subst ok.
Qed.

Lemma busy_step s rt :
  busy cfg session sequence kick slot sent rt → is_tick s →
  busy cfg session sequence kick slot sent (worker_step rt s) ∨
  ∃ k code, calm cfg k (held code) (worker_step rt s).
Proof.
  intros Hb Hs. destruct s as [tick|]; [|done]. rewrite (busy_worker_tick tick rt Hb).
  destruct (busy_tick tick rt Hb) as [_ Ht]. repeat case_match; eauto.
Qed.

Lemma busy_run l rt :
  busy cfg session sequence kick slot sent rt → Forall is_tick l →
  busy cfg session sequence kick slot sent (worker_run l rt) ∨ ∃ k code, calm cfg k (held code) (worker_run l rt).
Proof.
  intros Hb Hl. revert rt Hb. unfold worker_run. induction Hl as [|w l Hw Hl IH]; intros rt Hb; [by left|]. cbn [foldl].
  destruct (busy_step w rt Hb Hw) as [Hb'|(k & code & Hc)]; [by apply IH|].
  right. exists k, code. by apply calm_run.
Qed.
End Busy.

(** Before its first timeout the command stays under way. *)
Lemma busy_early cfg session sequence kick slot l rt :
  busy cfg session sequence kick slot None rt → 0 < rc_command_timeout cfg →
  Forall (λ w, ∃ tick, w = WorkTick tick ∧ tk_actual_ns tick < kick + rc_command_timeout cfg) l →
  busy cfg session sequence kick slot None (worker_run l rt).
Proof.
  intros Hb Hpos Hl. revert rt Hb. unfold worker_run. induction Hl as [|w l (tick & -> & Ht) Hl IH]; intros rt Hb; [done|].
  cbn [foldl]. apply IH. rewrite (busy_worker_tick _ _ _ _ _ _ _ _ Hb).
  destruct (busy_tick _ _ _ _ _ _ tick rt Hb) as [_ Hn]. by rewrite (proj2 (Z.leb_gt _ _)) in Hn by lia.
Qed.

Definition tick_from (t : Z) (w : WorkerStep) : Prop := ∃ tick, w = WorkTick tick ∧ t ≤ tk_actual_ns tick.

Lemma busy_consume cfg kick deadline now rt :
  busy cfg 1 1 kick (Some (command 1 1 deadline)) None rt → now < deadline →
  snd (rt_try_consume_output_command (Ok now) rt) = Some (command 1 1 deadline) ∧
  busy cfg 1 1 kick None None (fst (rt_try_consume_output_command (Ok now) rt)).
Proof.
  intros [Hr Hj Hq Hs Hc Hse Hsq Hw Hsl Hp Hst Ha] Hd. unfold rt_try_consume_output_command, rt_can_accept.
  rewrite Hr, Hs, Hp. cbn -[mb_try_consume]. unfold mb_try_consume. rewrite Hsl. cbn.
  rewrite (proj2 (Z.leb_gt deadline now)) by done. split; [done|by constructor].
Qed.

Lemma busy_sent cfg kick t rt :
  busy cfg 1 1 kick None None rt → 0 < t →
  snd (rt_note_output_command_sent 1 1 t rt) = Ok () ∧ busy cfg 1 1 kick None (Some t) (fst (rt_note_output_command_sent 1 1 t rt)).
Proof.
  intros [Hr Hj Hq Hs Hc Hse Hsq Hw Hsl Hp Hst Ha] Ht. unfold rt_note_output_command_sent, rt_can_accept. cbn -[u16].
  rewrite (proj2 (Z.leb_gt t 0)) by done. rewrite Hr, Hs, Hse, Hp. cbn. split; [done|].
  constructor; try done. by intros t' [= <-].
Qed.

(** ** Starting *)

Definition starts (env : StartEnv) : Prop := se_thread_created env = true ∧ ∃ t, se_now env = Ok t.

Record plain_config (cfg : RuntimeConfig) : Prop := {
  pc_timeout : (rc_command_timeout cfg <=? 0) || (rc_output_ack_timeout cfg <=? 0) = false;
  pc_scheduler : ∃ period, 0 < period ∧ rc_scheduler cfg = mkSchedulerConfig period 0 false (-1)
}.

Lemma start_ok env cfg contention :
  starts env → plain_config cfg → snd (rt_start env (rt_new cfg contention)) = Ok ().
Proof.
  intros [Ht [t Hn]] [Hp (period & Hpos & Hs)]. unfold rt_start. cbn [rt_config rt_new rc_command_timeout]. rewrite Hp.
  unfold ps_start. cbn. rewrite Hs. cbn. rewrite (proj2 (Z.leb_gt period 0)) by done. cbn.
  rewrite Ht. cbn. unfold worker_init. cbn. by rewrite Hn.
Qed.

Lemma started_with env contention name cfg body (P : ScenarioResult → Prop) :
  starts env → plain_config cfg →
  (∀ rt, rt_start env (rt_new cfg contention) = (rt, Ok ()) → P (fst (body (mkProcess rt 0)))) →
  P (started env contention name cfg body).
Proof.
  intros Hs Hp Hb. unfold started. pose proof (start_ok env cfg contention Hs Hp) as Ho.
  destruct (rt_start _ _) as [rt r]. cbn in Ho. subst r. by apply Hb.
Qed.

Definition passes (r : ScenarioResult) : Prop := sr_result r = "pass"%string.

Lemma started_passes env contention name cfg body :
  starts env → plain_config cfg → rc_test_throw_on_tick cfg = false →
  triple (at_turn 0 (calm cfg 0 sm_init)) body (λ r _, passes r) → passes (started env contention name cfg body).
Proof.
  intros Hs Hp Hq Hb. apply started_with; [done..|]. intros rt Hr. apply (Hb (mkProcess rt 0)). split; [|done].
  by eapply calm_started.
Qed.

(** ** The scenarios pass *)

(** The worker's system calls succeed, the clock can be read and does not run backwards;
    [time n] is the time of call [n] of the main thread. *)
Record orderly (s : Schedule) (time : nat → Z) : Prop := {
  od_clock : ∀ n, sd_clock s n = Ok (time n);
  od_order : ∀ n, time n ≤ time (S n);
  od_ticks : ∀ n, Forall (λ w, ∃ tick, w = WorkTick tick ∧ tk_actual_ns tick ≤ time n) (sd_gaps s n)
}.

(** *** Waiting *)

(** The calls the loop of wait_until makes while the predicate stays false. *)
Fixpoint wait_span (steady : nat → Z) (fuel : nat) (deadline : Z) (n : nat) : nat :=
  match fuel with
  | O => 1
  | S fuel => if steady n <? deadline then 2 + wait_span steady fuel deadline (n + 2) else 2
  end.

(** The worker takes the runtime from [W] to [D], for good, with a step that satisfies [Q]. *)
Record leads (W D : LinuxRuntime → Prop) (Q : WorkerStep → Prop) : Prop := {
  ld_done w rt : is_tick w → D rt → D (worker_step rt w);
  ld_wait w rt : is_tick w → W rt → W (worker_step rt w) ∨ D (worker_step rt w);
  ld_step w rt : is_tick w → Q w → W rt → D (worker_step rt w)
}.

Section Waiting.
Context (W D : LinuxRuntime → Prop) (Q : WorkerStep → Prop) (HL : leads W D Q).

Lemma leads_done l rt : Forall is_tick l → D rt → D (worker_run l rt).
Proof.
  intros Hl. revert rt. unfold worker_run. induction Hl as [|w l Hw Hl IH]; intros rt Hd; [done|]. cbn [foldl].
  by apply IH, (ld_done _ _ _ HL).
Qed.

Lemma leads_run l rt :
  Forall is_tick l → W rt → (W (worker_run l rt) ∨ D (worker_run l rt)) ∧ (Exists Q l → D (worker_run l rt)).
Proof.
  intros Hl. revert rt. induction Hl as [|w l Hw Hl IH]; intros rt Hr.
  - split; [by left|]. by intros ?%Exists_nil.
  - change (worker_run (w :: l) rt) with (worker_run l (worker_step rt w)).
    destruct (ld_wait _ _ _ HL w rt Hw Hr) as [H1|H1].
    + destruct (IH _ H1) as [H2 H3]. split; [done|]. intros [Hq|Hq]%Exists_cons; [|by apply H3].
      by apply leads_done, (ld_step _ _ _ HL).
    + split; [right|intros _]; by apply leads_done.
Qed.

Context (gaps : nat → list WorkerStep) (steady : nat → Z) (pred : RuntimeSnapshot → bool).
Context (Hg : ∀ n, Forall is_tick (gaps n)).
Context (HD : ∀ rt, D rt → pred (rt_snapshot rt) = true) (HW : ∀ rt, W rt → pred (rt_snapshot rt) = false).

(** Done, or still to be done by one of the calls in between. *)
Definition pending_until (n m : nat) (rt : LinuxRuntime) : Prop :=
  D rt ∨ W rt ∧ ∃ i, (n ≤ i < m)%nat ∧ Exists Q (gaps i).

Lemma pending_gap n m rt : pending_until n m rt → pending_until (S n) m (worker_run (gaps n) rt).
Proof.
  intros [Hd|[Hw (i & Hi & Hq)]]; [left; by apply leads_done|].
  destruct (leads_run (gaps n) rt (Hg n) Hw) as [[H1|H1] H2]; [|by left].
  destruct (decide (i = n)) as [->|Hne]; [left; by apply H2|]. right. split; [done|]. exists i. split; [lia|done].
Qed.

Lemma pending_call {A} n m (f : nat → LinuxRuntime → LinuxRuntime * A) :
  (∀ rt, W rt → W (fst (f n rt))) → (∀ rt, D rt → D (fst (f n rt))) →
  triple (at_turn n (pending_until n m)) (call gaps f) (λ _, at_turn (S n) (pending_until (S n) m)).
Proof.
  intros H1 H2. apply (t_call gaps n _ (pending_until (S n) m)); [intros; by apply pending_gap|].
  intros rt [Hd|[Hw He]]; [left; by apply H2|right; split; [by apply H1|done]].
Qed.

Lemma pending_read {A} n m (f : nat → LinuxRuntime → A) :
  triple (at_turn n (pending_until n m)) (call gaps (λ n rt, (rt, f n rt)))
    (λ a, at_turn (S n) (λ rt, a = f n rt ∧ pending_until (S n) m rt)).
Proof.
  apply (t_call gaps n _ (pending_until (S n) m)); [intros; by apply pending_gap|done].
Qed.

Lemma pending_none n rt : pending_until n n rt → D rt.
Proof. intros [Hd|[_ (i & Hi & _)]]; [done|lia]. Qed.

Lemma wait_reaches fuel deadline n :
  triple (at_turn n (pending_until n (n + wait_span steady fuel deadline n)))
    (wait_loop_until gaps steady fuel deadline pred) (λ b p, b = true ∧ D (pr_runtime p)).
Proof.
  revert n. induction fuel as [|fuel IH]; intros n; cbn [wait_loop_until wait_span].
  - eapply t_bind; [apply (pending_read n _ (λ _, rt_snapshot))|]. intros v. apply t_ret. intros p [[-> Hp] _].
    replace (n + 1)%nat with (S n) in Hp by lia. apply pending_none in Hp. by rewrite HD.
  - eapply t_bind; [apply (pending_read n _ (λ n _, steady n))|]. intros t. cbv beta.
    apply t_fact. intros ->. destruct (steady n <? deadline).
    + eapply t_bind; [apply (pending_read (S n) _ (λ _, rt_snapshot))|]. intros v p [[-> Hp] Hn]. cbv beta.
      destruct (pred (rt_snapshot (pr_runtime p))) eqn:Hpr.
      * split; [done|]. destruct Hp as [Hp|[Hp _]]; [done|]. apply HW in Hp. cbn in Hpr. congruence.
      * apply (IH (S (S n)) p). replace (n + 2)%nat with (S (S n)) in * by lia. split; [|done].
        by replace (S (S n) + wait_span steady fuel deadline (S (S n)))%nat with (n + (2 + wait_span steady fuel deadline (S (S n))))%nat by lia.
    + eapply t_bind; [apply (pending_read (S n) _ (λ _, rt_snapshot))|]. intros v. apply t_ret. intros p [[-> Hp] _].
      replace (n + 2)%nat with (S (S n)) in Hp by lia. apply pending_none in Hp. by rewrite HD.
Qed.

(** The whole of wait_until from call [n] on. *)
Definition wait_ends (budget_ms : Z) (n : nat) : nat :=
  S n + wait_span steady (wait_turns budget_ms) (steady n + ms_to_ns budget_ms) (S n).

Lemma t_wait_until budget_ms n :
  triple (at_turn n (pending_until n (wait_ends budget_ms n)))
    (wait_until gaps steady pred budget_ms) (λ b p, b = true ∧ D (pr_runtime p)).
Proof.
  eapply t_bind; [apply (pending_read n _ (λ n _, steady n))|]. intros t. apply t_fact. intros ->. apply wait_reaches.
Qed.
End Waiting.

Lemma watchdog_leads cfg kick slot :
  0 < rc_command_timeout cfg →
  leads (busy cfg 1 1 kick slot None) (calm cfg 0 (held FaultCode.Watchdog)) (tick_from (kick + rc_command_timeout cfg)).
Proof.
  intros Hpos. constructor; intros w rt Hw.
  - by apply calm_step.
  - intros Hb. destruct w as [tick|]; [|done]. rewrite (busy_worker_tick _ _ _ _ _ _ _ _ Hb).
    destruct (busy_tick _ _ _ _ _ _ tick rt Hb) as [_ Ht]. destruct (_ <=? _); auto.
  - intros (tick & -> & Ht) Hb. rewrite (busy_worker_tick _ _ _ _ _ _ _ _ Hb).
    destruct (busy_tick _ _ _ _ _ _ tick rt Hb) as [_ Hn]. by rewrite (proj2 (Z.leb_le _ _)) in Hn by lia.
Qed.

(** The ACK timeout comes first where it is the shorter one. *)
Lemma ack_leads cfg kick slot sent :
  0 < rc_output_ack_timeout cfg ≤ rc_command_timeout cfg → sent ≤ kick →
  leads (busy cfg 1 1 kick slot (Some sent)) (calm cfg 1 (held FaultCode.AckTimeout)) (tick_from (sent + rc_output_ack_timeout cfg)).
Proof.
  intros Hpos Hk. constructor; intros w rt Hw.
  - by apply calm_step.
  - intros Hb. destruct w as [tick|]; [|done]. rewrite (busy_worker_tick _ _ _ _ _ _ _ _ Hb).
    destruct (busy_tick _ _ _ _ _ _ tick rt Hb) as [_ Ht].
    destruct ((sent <=? tk_actual_ns tick) && (rc_output_ack_timeout cfg <=? tk_actual_ns tick - sent)) eqn:Ho; [by right|].
    rewrite (proj2 (Z.leb_gt (rc_command_timeout cfg) _)) in Ht; [by left|].
    apply andb_false_iff in Ho as [Ho|Ho]; apply Z.leb_gt in Ho; lia.
  - intros (tick & -> & Ht) Hb. rewrite (busy_worker_tick _ _ _ _ _ _ _ _ Hb).
    destruct (busy_tick _ _ _ _ _ _ tick rt Hb) as [_ Hn].
    by rewrite (proj2 (Z.leb_le sent _)), (proj2 (Z.leb_le (rc_output_ack_timeout cfg) _)) in Hn by lia.
Qed.

(** *** The supervisor on the main thread *)

(** The fault a raise leaves behind. *)
Definition raised (code : FaultCode) (sm : RuntimeStateMachine) : RuntimeStateMachine :=
  fst (sm_handle (sm_set_fault code sm) RuntimeEvent.FaultDetected).

Lemma calm_raise now code c k sm rt :
  code ≠ FaultCode.None → calm c k sm rt → calm c k (raised code sm) (fst (rt_raise_fault now code rt)).
Proof.
  intros Hc [Hr Hj Hq Hcf Hs Hp Ht Hx Ha]. unfold rt_raise_fault. rewrite bool_decide_eq_false_2 by done. cbv zeta.
  unfold sm_step. cbn -[sm_handle]. rewrite Hs. unfold raised.
  change (sm <| sm_fault := code |>) with (sm_set_fault code sm).
  destruct (sm_handle _ _) as [sm' t]. cbn. destruct (accepted t); by constructor.
Qed.

Definition idle_runtime : LinuxRuntime := rt_new default_runtime_config [].
Definition supervise_pure (now : Z) (s : BoundedInputQueue * NodeSupervisor) : BoundedInputQueue * NodeSupervisor :=
  let '(q, (n, _)) := sup_on_tick [] now (fst s) (snd s, mkClocked idle_runtime []) in (q, n).

Definition flooded (t : Z) : BoundedInputQueue := push (heartbeat_event 1 t) (push (heartbeat_event 1 t) (q_new 1)).

Definition overflowed : BoundedInputQueue * NodeSupervisor :=
  Eval vm_compute in supervise_pure 1 (flooded 1, ns_new default_supervisor_config).
Definition overlap1 : BoundedInputQueue * NodeSupervisor :=
  Eval vm_compute in supervise_pure 100 (flooded 100, ns_new (mkNodeSupervisorConfig 1 (ms_to_ns 20) 32)).
Definition overlap2 : BoundedInputQueue * NodeSupervisor := Eval vm_compute in supervise_pure 30000100 overlap1.
Definition overlap3 : BoundedInputQueue * NodeSupervisor :=
  Eval vm_compute in supervise_pure 30000200 (push (heartbeat_event 2 30000200) (fst overlap2), snd overlap2).

Lemma overflowed_tick c rt :
  sup_on_tick [] 1 (flooded 1) (ns_new default_supervisor_config, mkClocked rt (replicate 2 c)) =
  (fst overflowed, (snd overflowed, mkClocked (fst (rt_raise_fault c FaultCode.Internal rt)) [c])).
Proof. reflexivity. Qed.
Lemma overlap1_tick c rt :
  sup_on_tick [] 100 (flooded 100) (ns_new (mkNodeSupervisorConfig 1 (ms_to_ns 20) 32), mkClocked rt (replicate 2 c)) =
  (fst overlap1, (snd overlap1, mkClocked (fst (rt_raise_fault c FaultCode.Internal rt)) [c])).
Proof. reflexivity. Qed.
Lemma overlap2_tick c rt :
  sup_on_tick [] 30000100 (fst overlap1) (snd overlap1, mkClocked rt (replicate 2 c)) =
  (fst overlap2, (snd overlap2, mkClocked (fst (rt_raise_fault c FaultCode.CommLoss rt)) [c])).
Proof. reflexivity. Qed.
Lemma overlap3_tick c rt :
  sup_on_tick [] 30000200 (push (heartbeat_event 2 30000200) (fst overlap2)) (snd overlap2, mkClocked rt (replicate 2 c)) =
  (fst overlap3, (snd overlap3, mkClocked rt [c; c])).
Proof. reflexivity. Qed.

Section Passing.
Context (s : Schedule) (time : nat → Z) (env : StartEnv).
Context (Hs : orderly s time) (Henv : starts env).

Lemma ordered_ticks n : Forall is_tick (sd_gaps s n).
Proof. eapply Forall_impl; [apply (od_ticks _ _ Hs)|]. by intros w (tick & -> & _). Qed.

Ltac run_scenario := apply started_passes; [done|by repeat econstructor|done|].
Ltac next := eapply t_bind; [|intros ?].

Lemma activate_before_boot_passes : passes (scenario_activate_before_boot (sd_gaps s) (sd_clock s) env (sd_contention s)).
Proof.
  run_scenario. next; [apply t_handle; [apply ordered_ticks|done]|]. apply t_fact. intros ->.
  next; [apply t_snapshot, ordered_ticks|]. apply t_fact. intros (Hm & _).
  next; [apply t_any|]. apply t_ret. intros p _. by rewrite Hm.
Qed.

Lemma activate_without_scheduler_passes :
  passes (scenario_activate_without_scheduler (sd_gaps s) (sd_clock s) (sd_contention s)).
Proof.
  unfold scenario_activate_without_scheduler, boot_and_activate.
  unfold mbind, Main_bind, handle, interlock, call, mret, Main_ret. cbn [pr_turn pr_runtime].
  rewrite (idle_run _ (rt_new _ _)) by done.
  destruct (rt_handle _ RuntimeEvent.Boot _) as [rt1 t1] eqn:H1.
  assert (Hr1 : rt_running rt1 = false).
  { revert H1. unfold rt_handle, sm_step. repeat case_match; intros; simplify_eq; done. }
  cbn [pr_turn pr_runtime]. rewrite (idle_run _ rt1) by done.
  assert (Hr2 : rt_running (rt_set_interlock_ready (sd_clock s 1) true rt1) = false).
  { unfold rt_set_interlock_ready. cbv zeta. repeat case_match; done. }
  rewrite (idle_run _ _ Hr2). unfold rt_handle at 1. by rewrite Hr2.
Qed.

Lemma activate_without_interlock_passes :
  passes (scenario_activate_without_interlock (sd_gaps s) (sd_clock s) env (sd_contention s)).
Proof.
  run_scenario. next; [apply t_boot, ordered_ticks|]. next; [apply t_handle; [apply ordered_ticks|done]|].
  apply t_fact. intros ->.
  next; [eapply t_stop, ordered_ticks|].
  next; [apply t_idle_snapshot|]. apply t_ret. intros p [[[_ Hm] _] _]. by rewrite Hm.
Qed.

Lemma expired_deadline_passes : passes (scenario_expired_deadline (sd_gaps s) (sd_clock s) env (sd_contention s)).
Proof.
  run_scenario. next; [apply t_boot_and_activate, ordered_ticks|].
  next; [apply t_monotonic, ordered_ticks|]. apply t_fact. intros ->. rewrite (od_clock _ _ Hs).
  next; [apply t_calm_call; [apply ordered_ticks|]|].
  { intros rt Hc. instantiate (1 := λ r _, (∃ e, r = Err e ∧ err_code e = Errc.Rejected) ∧ True). cbn beta. rewrite (od_clock _ _ Hs).
    pose proof (calm_publish _ (time 4) 1 1 (time 3 - 1) rt Hc ltac:(lia) ltac:(lia)) as Hp.
    destruct (rt_publish_output_command _ _ _) as [rt' r]. pose proof (od_order _ _ Hs 3).
    rewrite (proj2 (Z.ltb_ge _ _)) in Hp by lia. by split. }
  apply t_fact. intros (e & -> & He). next; [apply t_any|]. apply t_ret. intros p _. by rewrite He.
Qed.

(** Once a command has been published, another one of a different session, or that does not
    come later, is refused: whether or not a timeout closed the path in between. *)
Definition refuses (session sequence : Z) (rt : LinuxRuntime) : Prop :=
  ∀ now, ∃ e, snd (rt_publish_output_command (Ok now) (command session sequence (time 3 + 500000000)) rt) = Err e.

Lemma busy_refuses cfg session sequence kick slot sent session' sequence' rt :
  busy cfg session sequence kick slot sent rt → session' ≠ session ∨ sequence' ≤ sequence → refuses session' sequence' rt.
Proof.
  intros Hb Hd now. unfold rt_publish_output_command. rewrite (bu_session _ _ _ _ _ _ _ Hb). cbn.
  repeat (case_match; [by eexists|]). rewrite (bu_sequence _ _ _ _ _ _ _ Hb) in *. bools. lia.
Qed.

Lemma held_refuses c k code session sequence rt : calm c k (held code) rt → refuses session sequence rt.
Proof.
  intros Hc now. unfold rt_publish_output_command, rt_can_accept. rewrite (cl_running _ _ _ _ Hc), (cl_sm _ _ _ _ Hc). by eexists.
Qed.

Lemma second_command_passes name session sequence first :
  time 4 < time 3 + 500000000 → 0 < first → session ≠ 1 ∨ sequence ≤ first →
  passes (second_command (sd_gaps s) (sd_clock s) env (sd_contention s) name session sequence first).
Proof.
  intros Hin Hf Hd. run_scenario. next; [apply t_boot_and_activate, ordered_ticks|].
  next; [apply t_monotonic, ordered_ticks|]. apply t_fact. intros ->. rewrite (od_clock _ _ Hs). cbv zeta. cbn [value_or].
  next; [apply t_calm_call; [apply ordered_ticks|]|].
  { intros rt Hc. instantiate (1 := λ r rt, r = Ok () ∧ ∃ cfg slot, busy cfg 1 first (time 4) slot None rt). cbn beta.
    rewrite (od_clock _ _ Hs).
    pose proof (calm_publish _ (time 4) 1 first (time 3 + 500000000) rt Hc ltac:(lia) Hf) as Hp.
    destruct (rt_publish_output_command _ _ _) as [rt' r].
    rewrite (proj2 (Z.ltb_lt _ _)) in Hp by lia. naive_solver. }
  apply t_fact. intros ->. next; [apply (t_call _ _ _ (refuses session sequence))|].
  { intros rt (cfg & slot & Hb). destruct (busy_run _ _ _ _ _ _ (sd_gaps s 5) rt Hb (ordered_ticks 5)) as [Hb'|(k & code & Hc)].
    - by eapply busy_refuses.
    - by eapply held_refuses. }
  { intros rt Hr. rewrite (od_clock _ _ Hs). instantiate (1 := λ r _, (∃ e, r = Err e) ∧ True). split; [apply Hr|done]. }
  apply t_fact. intros [e ->]. next; [apply t_any|]. by apply t_ret.
Qed.

Lemma interlock_lost_hold_passes : passes (scenario_interlock_lost_hold (sd_gaps s) (sd_clock s) env (sd_contention s)).
Proof.
  run_scenario. next; [apply t_boot_and_activate, ordered_ticks|]. next; [apply t_interlock, ordered_ticks|].
  next; [apply t_snapshot, ordered_ticks|]. apply t_fact. intros (Hm & Hf & _). next; [apply t_any|].
  apply t_ret. intros p _. unfold held_by. by rewrite Hm, Hf.
Qed.

Lemma estop_latch_passes : passes (scenario_estop_latch (sd_gaps s) (sd_clock s) env (sd_contention s)).
Proof.
  run_scenario. next; [apply t_boot_and_activate, ordered_ticks|].
  next; [apply t_handle; [apply ordered_ticks|done]|]. apply t_fact. intros ->.
  next; [apply t_handle; [apply ordered_ticks|done]|]. apply t_fact. intros ->.
  next; [apply t_snapshot, ordered_ticks|]. apply t_fact. intros (Hm & _). next; [apply t_any|].
  apply t_ret. intros p _. by rewrite Hm.
Qed.

Lemma t_supervise n now q n0 q' n' c k sm sm' :
  (∀ now' rt, calm c k sm rt → ∃ rt' l, sup_on_tick [] now q (n0, mkClocked rt (replicate 2 now')) = (q', (n', mkClocked rt' l)) ∧ calm c k sm' rt') →
  triple (at_turn n (calm c k sm)) (supervise (sd_gaps s) (sd_clock s) now q n0)
    (λ r, at_turn (S n) (λ rt, r = (q', n') ∧ calm c k sm' rt)).
Proof.
  intros H. apply t_calm_call; [apply ordered_ticks|]. intros rt Hc. destruct (H (sd_clock s n) rt Hc) as (rt' & l & He & Hc').
  cbn beta. rewrite He. by split.
Qed.

Lemma queue_overflow_fault_passes : passes (scenario_queue_overflow_fault (sd_gaps s) (sd_clock s) env (sd_contention s)).
Proof.
  run_scenario. next; [apply t_boot_and_activate, ordered_ticks|].
  next; [eapply (t_supervise _ _ _ _ _ _ default_runtime_config 0 active (raised FaultCode.Internal active))|].
  { intros c rt Hc. do 2 eexists. split; [apply overflowed_tick|by apply calm_raise]. }
  apply t_fact. intros ->. next; [apply t_snapshot, ordered_ticks|]. apply t_fact. intros (Hm & Hf & _).
  next; [apply t_any|]. apply t_ret. intros p _. by rewrite Hm, Hf.
Qed.

Lemma queue_overflow_clear_rejected_passes :
  passes (scenario_queue_overflow_clear_rejected (sd_gaps s) (sd_clock s) env (sd_contention s)).
Proof.
  run_scenario. next; [apply t_boot, ordered_ticks|].
  next; [eapply (t_supervise _ _ _ _ _ _ default_runtime_config 0 booted (raised FaultCode.Internal booted))|].
  { intros c rt Hc. do 2 eexists. split; [apply overflowed_tick|by apply calm_raise]. }
  apply t_fact. intros ->. cbv zeta. cbv beta iota.
  assert (res_ok (snd (acknowledge_fault_clear FaultCode.Internal (fst overflowed) (snd overflowed))) = false) as -> by reflexivity.
  eapply (t_bind _ (λ b, at_turn 2 (λ rt, b = false ∧ calm default_runtime_config 0 (raised FaultCode.Internal booted) rt))).
  { apply t_ret. by intros p [Hc Hn]. }
  intros b. apply t_fact. intros ->. next; [apply t_snapshot, ordered_ticks|]. apply t_fact. intros (Hm & _).
  next; [apply t_any|]. apply t_ret. intros p _. by rewrite Hm.
Qed.

Lemma overlapping_fault_recovery_rejected_passes :
  passes (scenario_overlapping_fault_recovery_rejected (sd_gaps s) (sd_clock s) env (sd_contention s)).
Proof.
  run_scenario. next; [apply t_boot, ordered_ticks|].
  next; [eapply (t_supervise _ _ _ _ _ _ default_runtime_config 0 booted (raised FaultCode.Internal booted))|].
  { intros c rt Hc. do 2 eexists. split; [apply overlap1_tick|by apply calm_raise]. }
  apply t_fact. intros ->. cbv beta iota.
  next; [eapply (t_supervise _ _ _ _ _ _ default_runtime_config 0 _ (raised FaultCode.CommLoss (raised FaultCode.Internal booted)))|].
  { intros c rt Hc. do 2 eexists. split; [apply overlap2_tick|by apply calm_raise]. }
  apply t_fact. intros ->. cbv beta iota.
  next; [eapply t_supervise|].
  { intros c rt Hc. do 2 eexists. split; [apply overlap3_tick|exact Hc]. }
  apply t_fact. intros ->. cbv beta iota.
  destruct (acknowledge_fault_clear FaultCode.CommLoss (fst overlap3) (snd overlap3)) as [sv r] eqn:Hr.
  vm_compute in Hr. injection Hr as <- <-.
  next; [apply t_snapshot, ordered_ticks|]. apply t_fact. intros (Hm & _).
  next; [apply t_any|]. apply t_ret. intros p _. by rewrite Hm.
Qed.

(** *** The scenarios that wait for the worker *)

(** A description of the runtime that holds whatever the number of the call. *)
Lemma t_now {A} (R : LinuxRuntime → Prop) (m : Main A) (Q : A → Process → Prop) :
  (∀ n, triple (at_turn n R) m Q) → triple (λ p, R (pr_runtime p)) m Q.
Proof. intros H p Hp. by apply (H (pr_turn p) p). Qed.

(** The worker has ticked at or after [t] before the wait that starts with call [n] is over. *)
Definition ticked_by (n : nat) (t : Z) : Prop :=
  ∃ i, (n ≤ i < wait_ends (sd_steady s) 500 n)%nat ∧ Exists (tick_from t) (sd_gaps s i).

Lemma command_timeout_hold_passes :
  time 4 < time 3 + 500000000 → ticked_by 5 (time 4 + ms_to_ns 30) →
  passes (scenario_command_timeout_hold (sd_gaps s) (sd_clock s) (sd_steady s) env (sd_contention s)).
Proof.
  intros Hin Htick. run_scenario. next; [apply t_boot_and_activate, ordered_ticks|].
  next; [apply t_monotonic, ordered_ticks|]. apply t_fact. intros ->. rewrite (od_clock _ _ Hs).
  next; [apply t_calm_call; [apply ordered_ticks|]|].
  { intros rt Hc. instantiate (1 := λ r rt, r = Ok () ∧ busy timeout_config 1 1 (time 4) (Some (command 1 1 (time 3 + 500000000))) None rt).
    cbn beta. rewrite (od_clock _ _ Hs).
    pose proof (calm_publish _ (time 4) 1 1 (time 3 + 500000000) rt Hc ltac:(lia) ltac:(lia)) as Hp.
    destruct (rt_publish_output_command _ _ _) as [rt' r]. by rewrite (proj2 (Z.ltb_lt _ _)) in Hp by lia. }
  apply t_fact. intros ->. next.
  { eapply t_pre; [|eapply t_wait_until; [by apply (watchdog_leads timeout_config (time 4) (Some (command 1 1 (time 3 + 500000000))))|apply ordered_ticks| |]].
    - intros p [Hb Hn]. split; [|exact Hn]. right. split; [exact Hb|exact Htick].
    - intros rt Hc. destruct (calm_shows _ _ _ _ Hc) as (Hm & Hf & _). unfold held_by. by rewrite Hm, Hf.
    - intros rt [Hr Hj Hq Hsm _]. unfold held_by, rt_snapshot, rt_mode. cbn. by rewrite Hsm. }
  apply t_pure. intros ->. next; [apply t_any|]. by apply t_ret.
Qed.

(** The command of the ACK scenario is sent, with the time read before it was published. *)
Lemma t_establish :
  time 6 < time 3 + 500000000 → 0 < time 3 →
  triple (at_turn 4 (calm ack_config 0 active)) (establish (sd_gaps s) (sd_clock s) (time 3))
    (λ b, at_turn 7 (λ rt, b = true ∧ busy ack_config 1 1 (time 4) None (Some (time 3)) rt)).
Proof.
  intros Hin Hpos. assert (Ho : time 3 ≤ time 4 ∧ time 4 ≤ time 5 ∧ time 5 ≤ time 6) by (split_and!; apply (od_order _ _ Hs)).
  assert (Hearly : ∀ n slot rt, time n < time 3 + 500000000 → busy ack_config 1 1 (time 4) slot None rt →
    busy ack_config 1 1 (time 4) slot None (worker_run (sd_gaps s n) rt)).
  { intros n slot rt Hn Hb. apply busy_early; [done|done|]. eapply Forall_impl; [apply (od_ticks _ _ Hs n)|].
    intros w (tick & -> & Ht). exists tick. split; [done|]. change (rc_command_timeout ack_config) with 1000000000. lia. }
  next; [apply t_calm_call; [apply ordered_ticks|]|].
  { intros rt Hc. instantiate (1 := λ r rt, r = Ok () ∧ busy ack_config 1 1 (time 4) (Some (command 1 1 (time 3 + 500000000))) None rt).
    cbn beta. rewrite (od_clock _ _ Hs).
    pose proof (calm_publish _ (time 4) 1 1 (time 3 + 500000000) rt Hc ltac:(lia) ltac:(lia)) as Hp.
    destruct (rt_publish_output_command _ _ _) as [rt' r]. by rewrite (proj2 (Z.ltb_lt _ _)) in Hp by lia. }
  apply t_fact. intros ->. next; [eapply t_call; [intros rt Hb; apply Hearly; [lia|exact Hb]|]|].
  { intros rt Hb. rewrite (od_clock _ _ Hs). apply (busy_consume _ _ _ (time 5)) in Hb; [|lia].
    instantiate (1 := λ r rt, r = Some _ ∧ busy ack_config 1 1 (time 4) None None rt). exact Hb. }
  apply t_fact. intros ->. next; [eapply t_call; [intros rt Hb; apply Hearly; [lia|exact Hb]|]|].
  { intros rt Hb. apply (busy_sent _ _ (time 3)) in Hb; [|lia].
    instantiate (1 := λ r rt, r = Ok () ∧ busy ack_config 1 1 (time 4) None (Some (time 3)) rt). exact Hb. }
  apply t_fact. intros ->. apply t_ret. by intros p [Hb Hn].
Qed.

Lemma output_ack_timeout_hold_passes :
  time 6 < time 3 + 500000000 → 0 < time 3 → ticked_by 7 (time 3 + ms_to_ns 8) →
  passes (scenario_output_ack_timeout_hold (sd_gaps s) (sd_clock s) (sd_steady s) env (sd_contention s)).
Proof.
  intros Hin Hpos Htick. run_scenario. next; [apply t_boot_and_activate, ordered_ticks|].
  next; [apply t_monotonic, ordered_ticks|]. apply t_fact. intros ->. rewrite (od_clock _ _ Hs).
  next; [by apply t_establish|]. apply t_fact. intros ->. cbn [negb].
  next.
  { eapply t_pre; [|eapply t_wait_until; [apply (ack_leads ack_config (time 4) None (time 3)); [done|apply (od_order _ _ Hs)]|apply ordered_ticks| |]].
    - intros p [Hb Hn]. split; [|exact Hn]. right. split; [exact Hb|exact Htick].
    - intros rt Hc. destruct (calm_shows _ _ _ _ Hc) as (Hm & Hf & _ & Hk & Hp). unfold ack_timed_out, held_by. by rewrite Hm, Hf, Hk, Hp.
    - intros rt [Hr Hj Hq Hsm _]. unfold ack_timed_out, held_by, rt_snapshot, rt_mode. cbn. by rewrite Hsm. }
  apply t_pure. intros ->. apply t_now. intros n. next; [apply t_handle; [apply ordered_ticks|done]|].
  apply t_fact. intros ->. next; [apply t_snapshot, ordered_ticks|]. apply t_fact. intros (Hm & _).
  next; [apply t_any|]. apply t_ret. intros p _. by rewrite Hm.
Qed.

(** A runtime whose next tick throws, and one whose worker has ended with an error. *)
Definition throwing (rt : LinuxRuntime) : Prop := rt_running rt = true ∧ rt_test_throw_on_tick rt = true.
Definition dead (rt : LinuxRuntime) : Prop := rt_running rt = false ∧ ps_worker_error (rt_scheduler rt) ≠ 0.

Lemma throwing_leads : leads throwing dead (λ _, True).
Proof.
  assert (Hstep : ∀ w rt, is_tick w → throwing rt → dead (worker_step rt w)).
  { intros w rt Hw [Hr Ht]. unfold worker_step. rewrite Hr. destruct w as [tick|]; [|done]. unfold rt_tick. by rewrite Ht. }
  constructor; intros w rt Hw; [|by auto..]. intros [Hr He]. unfold worker_step. by rewrite Hr.
Qed.

(** What neither the scheduler nor the test flag notices. *)
Lemma handle_keeps_worker now e rt :
  rt_scheduler (fst (rt_handle now e rt)) = rt_scheduler rt ∧
  rt_test_throw_on_tick (fst (rt_handle now e rt)) = rt_test_throw_on_tick rt.
Proof. unfold rt_handle, sm_step. repeat case_match; simplify_eq; cbn in *; simplify_eq; done. Qed.

Lemma interlock_keeps_worker now ready rt :
  rt_scheduler (rt_set_interlock_ready now ready rt) = rt_scheduler rt ∧
  rt_test_throw_on_tick (rt_set_interlock_ready now ready rt) = rt_test_throw_on_tick rt.
Proof. unfold rt_set_interlock_ready. cbv zeta. repeat case_match; done. Qed.

Lemma t_throwing_call {A} n m (f : nat → LinuxRuntime → LinuxRuntime * A) :
  (∀ rt, rt_scheduler (fst (f n rt)) = rt_scheduler rt ∧
         rt_test_throw_on_tick (fst (f n rt)) = rt_test_throw_on_tick rt) →
  triple (at_turn n (pending_until throwing dead (λ _, True) (sd_gaps s) n m)) (call (sd_gaps s) f)
    (λ _, at_turn (S n) (pending_until throwing dead (λ _, True) (sd_gaps s) (S n) m)).
Proof.
  intros Hf. apply pending_call; [apply throwing_leads|apply ordered_ticks|..]; intros rt; destruct (Hf rt) as [H1 H2];
    unfold throwing, dead, rt_running; by rewrite H1, ?H2.
Qed.

Lemma t_dead_call {A} n (f : nat → LinuxRuntime → LinuxRuntime * A) (Q : A → LinuxRuntime → Prop) :
  (∀ rt, dead rt → Q (snd (f n rt)) (fst (f n rt))) →
  triple (at_turn n dead) (call (sd_gaps s) f) (λ a, at_turn (S n) (Q a)).
Proof. intros Hf. apply (t_call _ n dead dead); [|done]. intros rt Hd. by rewrite idle_run by apply Hd. Qed.

Lemma worker_exception_fail_closed_passes :
  (∃ i, (i < wait_ends (sd_steady s) 500 3)%nat ∧ sd_gaps s i ≠ []) →
  passes (scenario_worker_exception_fail_closed (sd_gaps s) (sd_clock s) (sd_steady s) env (sd_contention s)).
Proof.
  intros (i & Hi & Hne). apply (started_with _ _ _ throwing_config _ passes); [done|by repeat econstructor|]. intros rt Hr.
  assert (Ht : throwing rt).
  { revert Hr. unfold rt_start. destruct (_ || _); [done|]. destruct (ps_start _ _) as [p r] eqn:Hp. intros [= <- ->].
    split; [|done]. revert Hp. unfold ps_start. repeat (case_match; [done|]). unfold worker_init. repeat case_match; intros; simplify_eq; done. }
  set (P n := at_turn n (pending_until throwing dead (λ _, True) (sd_gaps s) n (wait_ends (sd_steady s) 500 3))).
  assert (H0 : P 0%nat (mkProcess rt 0)).
  { split; [right|done]. split; [done|]. exists i. split; [lia|]. destruct (sd_gaps s i); [done|by left]. }
  revert H0. generalize (mkProcess rt 0). clear rt Hr Ht.
  match goal with |- ∀ p, _ → passes (fst (?m p)) => change (triple (P 0%nat) m (λ r _, passes r)) end.
  next; [instantiate (1 := λ _, P 3%nat)|].
  { next; [apply t_throwing_call; intros; apply handle_keeps_worker|].
    next; [apply t_throwing_call; intros; apply interlock_keeps_worker|].
    next; [apply t_throwing_call; intros; apply handle_keeps_worker|]. by apply t_ret. }
  next; [apply t_wait_until; [apply throwing_leads|apply ordered_ticks| |]|].
  { intros rt [Hd _]. unfold rt_snapshot. cbn. by rewrite Hd. }
  { intros rt [Hw _]. unfold rt_snapshot. cbn. by rewrite Hw. }
  apply t_pure. intros ->. apply t_now. intros n. next; [apply t_dead_call|].
  { intros rt Hd. instantiate (1 := λ _, dead). exact Hd. }
  next; [apply t_dead_call|].
  { intros rt Hd. instantiate (1 := λ r rt, res_ok r = false ∧ dead rt). cbn beta. rewrite (od_clock _ _ Hs).
    unfold rt_publish_output_command. by rewrite (proj1 Hd). }
  apply t_fact. intros Hok. next; [apply t_dead_call|].
  { intros rt Hd. instantiate (1 := λ r rt, ss_worker_error (rs_scheduler r) ≠ 0 ∧ True). split; [apply Hd|done]. }
  apply t_fact. intros He. next; [apply t_any|]. apply t_ret. intros p _.
  rewrite Hok, (proj2 (Z.eqb_neq _ _)) by done. reflexivity.
Qed.
End Passing.

(** ** What the matrix promises *)

(** The main thread is not held up for half a second between reading the clock and the end
    of the calls that rely on it. *)
Definition prompt (time : nat → Z) : Prop := 0 < time 3%nat ∧ time 6%nat < time 3%nat + 500000000.

(** C29.  The runtime's fault matrix holds for every interleaving: when the runtime starts, its
    clock and worker work and the main thread is not delayed by half a second, seventeen of
    the nineteen scenarios inside the process pass however the worker's ticks fall between
    their calls: eleven as they are, the two that wait for a timeout if the worker ticks past
    it before the wait is over, the one with the throwing callback if it ticks at all, and the
    three without a runtime.  The two others, the FIFO permission, which may be denied, and
    the failing daemon worker, are not among them. *)
Theorem fault_matrix_holds env s time :
  starts env → orderly s time → prompt time →
  Forall (λ scenario, passes (scenario s)) (runtime_scenarios env) ∧
  (ticked_by s 5 (time 4%nat + ms_to_ns 30) →
     passes (scenario_command_timeout_hold (sd_gaps s) (sd_clock s) (sd_steady s) env (sd_contention s))) ∧
  (ticked_by s 7 (time 3%nat + ms_to_ns 8) →
     passes (scenario_output_ack_timeout_hold (sd_gaps s) (sd_clock s) (sd_steady s) env (sd_contention s))) ∧
  ((∃ i, (i < wait_ends (sd_steady s) 500 3)%nat ∧ sd_gaps s i ≠ []) →
     passes (scenario_worker_exception_fail_closed (sd_gaps s) (sd_clock s) (sd_steady s) env (sd_contention s))) ∧
  Forall passes [scenario_node_output_lease_neutral; scenario_mailbox_overwrite; scenario_illegal_frame_reject].
Proof.
  intros He Hs [Hpos Hin].
  assert (Hin4 : time 4%nat < time 3%nat + 500000000) by (pose proof (od_order _ _ Hs 4); pose proof (od_order _ _ Hs 5); lia).
  split_and!.
  - unfold runtime_scenarios. repeat (apply Forall_cons_2); [..|apply Forall_nil_2]; cbv beta.
    + by eapply activate_before_boot_passes.
    + by apply activate_without_scheduler_passes.
    + by eapply activate_without_interlock_passes.
    + by eapply expired_deadline_passes.
    + eapply second_command_passes; [done..|]. by right.
    + eapply second_command_passes; [done..|]. by left.
    + by eapply interlock_lost_hold_passes.
    + by eapply estop_latch_passes.
    + by eapply queue_overflow_fault_passes.
    + by eapply queue_overflow_clear_rejected_passes.
    + by eapply overlapping_fault_recovery_rejected_passes.
  - by eapply command_timeout_hold_passes.
  - by eapply output_ack_timeout_hold_passes.
  - by eapply worker_exception_fail_closed_passes.
  - by repeat constructor.
Qed.

(** The bound of [wait_until] is no restriction: with turns of at least 20 ms the loop ends by
    its clock before the turns run out. *)
Theorem wait_turns_enough gaps steady pred budget_ms deadline p extra :
  (∀ n, steady n + ms_to_ns 20 ≤ steady (n + 2)%nat) → 0 ≤ budget_ms →
  deadline ≤ steady (pr_turn p) + ms_to_ns budget_ms →
  wait_loop_until gaps steady (wait_turns budget_ms + extra) deadline pred p =
  wait_loop_until gaps steady (wait_turns budget_ms) deadline pred p.
Proof.
  intros Hst Hb. unfold wait_turns. replace (Z.to_nat (budget_ms / 20) + 2)%nat with (S (S (Z.to_nat (budget_ms / 20)))) by lia.
  set (f := Z.to_nat (budget_ms / 20)). intros Hd.
  assert (Hf : deadline ≤ steady (pr_turn p) + Z.of_nat (S f) * ms_to_ns 20).
  { unfold f, ms_to_ns in *. pose proof (Z.div_mod budget_ms 20). pose proof (Z.mod_pos_bound budget_ms 20).
    pose proof (Z.div_pos budget_ms 20). lia. }
  clear Hd Hb. generalize dependent (S f). clear f budget_ms. intros f. revert p.
  induction f as [|f IH]; intros p Hf; cbn [wait_loop_until Nat.add];
    unfold mbind, Main_bind, steady_now, snapshot, call, mret, Main_ret; cbn [pr_turn pr_runtime].
  - by rewrite (proj2 (Z.ltb_ge _ _)) by lia.
  - destruct (_ <? _); [|done]. destruct (pred _); [done|].
    change (S f + extra)%nat with (S (f + extra)) in IH. apply IH. cbn [pr_turn].
    pose proof (Hst (pr_turn p)). replace (pr_turn p + 2)%nat with (S (S (pr_turn p))) in * by lia.
    unfold ms_to_ns in *. lia.
Qed.

Definition fifo_flags (p : PeriodicScheduler) : bool * Z := (ps_fifo_enabled p, ps_fifo_error p).

Lemma count_lateness_fifo lateness p : fifo_flags (count_lateness lateness p) = fifo_flags p.
Proof. unfold count_lateness. by destruct (_ =? 1). Qed.

Lemma run_loop_fifo {S} (callback : SchedulerTick → S → S * bool) envs l :
  fifo_flags (ls_sched (run_loop callback envs l)) = fifo_flags (ls_sched l).
Proof.
  revert l. induction envs as [|env envs IH]; intros l; [done|]. cbn [run_loop].
  assert (Hi : match iterate callback env l with Continue l' | Break l' => fifo_flags (ls_sched l') = fifo_flags (ls_sched l) end).
  { unfold iterate, fail_worker. repeat case_match; simplify_eq; try done; cbn; apply count_lateness_fifo. }
  destruct (iterate callback env l) as [l'|l']; [by rewrite IH|exact Hi].
Qed.

(** The FIFO scenario reports what the system answered. *)
Theorem fifo_verdict env turns :
  starts env →
  sr_result (scenario_fifo_permission_observed env turns) =
  if se_fifo_rc env =? 0 then "pass"
  else if (se_fifo_rc env =? EPERM) || (se_fifo_rc env =? EACCES) then "permission_denied" else "failed".
Proof.
  intros [Ht [t Hn]]. unfold scenario_fifo_permission_observed.
  destruct (ps_start _ _) as [p r] eqn:Hp.
  pose proof (run_loop_fifo (λ _ (u : ()), (u, true)) turns (enter_loop (value_or 0 (se_now env)) p ())) as Hf.
  assert (r = Ok () ∧ fifo_flags p = if se_fifo_rc env =? 0 then (true, 0) else (false, se_fifo_rc env)) as [-> Hq].
  { revert Hp. unfold ps_start. cbn. rewrite Ht. cbn. unfold worker_init. cbn. rewrite Hn.
    destruct (_ =? 0); cbn; intros [= <- <-]; done. }
  cbn [scheduler_stats ss_fifo_enabled ss_fifo_error]. unfold enter_loop in Hf at 2. cbn [ls_sched] in Hf. rewrite Hq in Hf.
  unfold fifo_flags in Hf. destruct (se_fifo_rc env =? 0); injection Hf as H1 H2; rewrite H1, ?H2; [done|].
  by destruct (_ || _).
Qed.

(** ** The verdict of the program *)

Definition tolerated (r : ScenarioResult) : bool :=
  (sr_result r =? "pass")%string || (sr_result r =? "permission_denied")%string || (sr_result r =? "unsupported")%string.

Lemma tally_clean results : ∀ t,
  0 ≤ ty_failed t → 0 ≤ ty_not_run t →
  let t' := foldl count_result t results in
  0 ≤ ty_failed t' ∧ 0 ≤ ty_not_run t' ∧
  (ty_failed t' = 0 ∧ ty_not_run t' = 0 ↔ ty_failed t = 0 ∧ ty_not_run t = 0 ∧ forallb tolerated results = true).
Proof.
  induction results as [|r results IH]; intros t Hf Hn; cbv zeta; cbn [foldl forallb]; [naive_solver|].
  assert (Hr : 0 ≤ ty_failed (count_result t r) ∧ 0 ≤ ty_not_run (count_result t r) ∧
    (ty_failed (count_result t r) = 0 ∧ ty_not_run (count_result t r) = 0 ↔
     ty_failed t = 0 ∧ ty_not_run t = 0 ∧ tolerated r = true)).
  { unfold count_result, tolerated. generalize (sr_result r). intros v.
    assert (Hone : ∀ a b : string, a ≠ b → (v =? a)%string = true → (v =? b)%string = false).
    { intros a b Hab Hv. apply String.eqb_eq in Hv as ->. by apply String.eqb_neq. }
    destruct (v =? "pass")%string eqn:E1; [cbn; split_and!; naive_solver|].
    destruct (v =? "failed")%string eqn:E2.
    { rewrite !(Hone "failed"%string) by done. cbn. split_and!; [lia|lia|]. split; intros; destruct_and?; [lia|done]. }
    destruct (v =? "permission_denied")%string eqn:E3; [cbn; split_and!; naive_solver|].
    destruct (v =? "unsupported")%string eqn:E4; [cbn; split_and!; naive_solver|].
    destruct (v =? "not_run")%string eqn:E5; cbn; (split_and!; [lia|lia|]); split; intros; destruct_and?; (lia || done). }
  destruct Hr as (H1 & H2 & H3). destruct (IH _ H1 H2) as (H4 & H5 & H6). cbv zeta in *. split_and!; [done..|].
  rewrite andb_true_iff. tauto.
Qed.

(** The matrix exits with success exactly when it was called completely, wrote its evidence to
    a new file and no scenario failed or was left out; a denied permission is tolerated. *)
Theorem matrix_verdict args existing available writable results :
  matrix_main args existing available writable results = EXIT_SUCCESS ↔
  (∃ o, parse_matrix_options args default_matrix_options = Some o ∧ mo_evidence_path o ≠ ""%string ∧
        mo_sim_path o ≠ ""%string ∧ mo_rcrd_path o ≠ ""%string) ∧
  existing = false ∧ available = true ∧ writable = true ∧ forallb tolerated results = true.
Proof.
  unfold matrix_main. destruct (parse_matrix_options _ _) as [o|]; [|naive_solver].
  destruct (tally_clean results (mkTally 0 0 0 0 0) ltac:(done) ltac:(done)) as (_ & _ & Ht). unfold tally. cbv zeta in *.
  destruct (String.eqb_spec (mo_evidence_path o) ""), (String.eqb_spec (mo_sim_path o) ""), (String.eqb_spec (mo_rcrd_path o) "");
    cbn; try (split; [done|naive_solver]).
  destruct existing, available, writable; cbn; try (split; [done|naive_solver]).
  destruct (ty_failed _ =? 0) eqn:E1, (ty_not_run _ =? 0) eqn:E2; rewrite ?Z.eqb_eq, ?Z.eqb_neq in *; cbn;
    split; try done; try naive_solver.
Qed.

(** ** The daemon *)

(** When the daemon's wait ends without a request to stop and with its I/O thread running,
    the scheduler's failure is what ended it, and the scenario passes. *)
Theorem daemon_failure_escalates can_if env now progress w d w' d' :
  daemon_start env (daemon_new (throwing_daemon can_if)) w = ((d, w'), Ok ()) → d_started d = true →
  wait_loop progress d = Some d' → d_stop_requested d' = false →
  (∃ l, d_io d' = Some l ∧ io_running l = true) → is_Some (d_runtime d') →
  ∃ r, scenario_daemon_worker_failure can_if env now progress w = Some r ∧ passes r.
Proof.
  intros Hs Hst Hw Hstop (l & Hl & Hrun) [rt Hrt]. unfold scenario_daemon_worker_failure. rewrite Hs.
  unfold wait_and_stop. rewrite Hst, Hw. cbn [negb].
  assert (Hk : keep_waiting d' = false).
  { revert Hw. clear -d'. revert d. induction progress as [|f progress IH]; intros d; cbn; destruct (keep_waiting d) eqn:Hk;
      try done; [by intros [= <-]|apply IH|by intros [= <-]]. }
  unfold keep_waiting in Hk. rewrite Hl, Hrun, Hstop, Hrt in Hk. cbn in Hk. apply orb_false_iff in Hk as [_ He].
  eexists. split; [done|]. unfold classify_stop. rewrite Hl, Hrt, He. by destruct (failed_io _).
Qed.

(** ** Witness *)

Definition demo_time (n : nat) : Z := 1000 + Z.of_nat n * 5000000.
Definition demo_schedule : Schedule :=
  mkSchedule (λ n, [WorkTick (mkSchedulerTick (Z.of_nat n) (demo_time n) (demo_time n) 0)]) (λ n, Ok (demo_time n))
    (λ n, Z.of_nat n * 10000000) [].

Lemma fault_matrix_holds_witness :
  Forall (λ scenario, passes (scenario demo_schedule)) (runtime_scenarios demo_env) ∧
  passes (scenario_command_timeout_hold (sd_gaps demo_schedule) (sd_clock demo_schedule) (sd_steady demo_schedule) demo_env []).
Proof.
  destruct (fault_matrix_holds demo_env demo_schedule demo_time) as (H1 & H2 & _).
  - split; [reflexivity|]. by exists 1000.
  - constructor; cbn.
    + reflexivity.
    + intros n. unfold demo_time. lia.
    + intros n. repeat constructor. eexists. split; [reflexivity|]. cbn. lia.
  - split; reflexivity.
  - split; [exact H1|]. apply H2. exists 10%nat. split; [vm_compute; lia|]. left. eexists. split; [reflexivity|]. vm_compute. discriminate.
Defined.
