(* ===== verification/Acceptance.v ===== *)
(** * The vcan acceptance program

    apps/rcr_vcan_acceptance.cpp: a script that starts the node simulator as a child process,
    talks to it over a CAN bus and gives a verdict per scenario.  Everything outside the
    process (the bus, the child, the clock) is a [Peer]; what the script does to it and gets
    from it is recorded in a trace. *)

From stdpp Require Import pretty.
From S2P Require Import Prelude Types CanV1 Bytes CommandLine NodeSim.
Local Open Scope Z_scope.

(** ** The peer *)

Record Peer (P : Type) := mkPeer {
  pe_now : P → Z * P;                            (** the steady clock, in nanoseconds *)
  pe_receive : Z → P → option CanFrame * P;      (** a frame within that many milliseconds *)
  pe_send : CanFrame → P → bool * P;
  pe_sleep : Z → P → P;
  pe_spawn : list string → P → bool * P;         (** the log file opened and the process forked *)
  pe_signal : bool → P → P;                      (** SIGTERM, or SIGKILL *)
  pe_exited : P → bool * P;                      (** waitpid without blocking returned the child *)
  pe_reap : P → P;                               (** waitpid that blocks *)
  pe_log : P → string                            (** the child's log *)
}.
Arguments mkPeer {P}. Arguments pe_now {P}. Arguments pe_receive {P}. Arguments pe_send {P}. Arguments pe_sleep {P}.
Arguments pe_spawn {P}. Arguments pe_signal {P}. Arguments pe_exited {P}. Arguments pe_reap {P}. Arguments pe_log {P}.

Inductive WireEvent :=
  | Spawned (args : list string)
  | Ended                                        (** the child was reaped *)
  | SentFrame (f : CanFrame)
  | GotFrame (f : CanFrame)
  | Waited (ms : Z).

Record AccOptions := mkAccOptions { ao_can_if : string; ao_node_id : Z; ao_sim_path : string; ao_evidence_path : string }.

#[export] Instance AccOptions_eta : Eta AccOptions :=
  mkEta _ (fun o => mkAccOptions (ao_can_if o) (ao_node_id o) (ao_sim_path o) (ao_evidence_path o)).

Definition default_acc_options : AccOptions := mkAccOptions "vcan0" 1 "" "".

Record AccResult := mkAccResult { ar_name : string; ar_passed : bool; ar_detail : string }.

(** What the script keeps: the peer, whether it has a child, the trace. *)
Record AccState (P : Type) := mkAccState { as_peer : P; as_child : bool; as_trace : list WireEvent }.
Arguments mkAccState {P}. Arguments as_peer {P}. Arguments as_child {P}. Arguments as_trace {P}.

(** [None]: a loop was given too few turns. *)
Definition Acc (P A : Type) : Type := AccState P → option (A * AccState P).
#[export] Instance Acc_ret {P} : MRet (Acc P) := λ A a s, Some (a, s).
#[export] Instance Acc_bind {P} : MBind (Acc P) := λ A B f m s, match m s with Some (a, s) => f a s | None => None end.

(** ** Names and numbers *)

Definition slash : Z := 47.

Definition dirname_of (path : string) : string :=
  match rfind slash (str_bytes path) with
  | None => "."
  | Some 0%nat => "/"
  | Some n => String.substring 0 n path
  end.

(** [link]: what /proc/self/exe names. *)
Definition default_sim_path (link : option string) : string :=
  match link with
  | Some self => if (self =? "")%string then "./rcr_node_sim" else dirname_of self +:+ "/rcr_node_sim"
  | None => "./rcr_node_sim"
  end.

(** [std::stoi]: what follows the digits is ignored. *)
Definition stoi (text : list Z) : option Z :=
  match stoll text with
  | Some (v, _) => if (v <? - 2 ^ 31) || (2 ^ 31 <=? v) then None else Some v
  | None => None
  end.

Fixpoint parse_acc_args (args : list string) (o : AccOptions) : option AccOptions :=
  match args with
  | [] => Some o
  | arg :: rest =>
      if (arg =? "--help")%string || (arg =? "-h")%string then None
      else match rest with
      | [] => None
      | value :: rest =>
          if (arg =? "--can")%string then parse_acc_args rest (o <| ao_can_if := value |>)
          else if (arg =? "--node-id")%string then
            match stoi (str_bytes value) with
            | None => None
            | Some id => if (id <? 1) || (31 <? id) then None else parse_acc_args rest (o <| ao_node_id := u8 id |>)
            end
          else if (arg =? "--sim-path")%string then parse_acc_args rest (o <| ao_sim_path := value |>)
          else if (arg =? "--evidence")%string then parse_acc_args rest (o <| ao_evidence_path := value |>)
          else None
      end
  end.

Definition parse_acc_options (link : option string) (args : list string) : option AccOptions :=
  match parse_acc_args args default_acc_options with
  | None => None
  | Some o => Some (if (ao_sim_path o =? "")%string then o <| ao_sim_path := default_sim_path link |> else o)
  end.

Definition is_node_fn (frame : CanFrame) (fn : Function) (node : Z) : bool :=
  if is_extended frame || is_rtr frame || negb (can_len frame =? 8) then false
  else
    let raw := Z.land (can_id frame) 0x7FF in
    (function_from_can_id raw =? function_code fn) && (node_id_from_can_id raw =? node).

Definition is_status (node sequence : Z) (f : CanFrame) : bool :=
  is_node_fn f Function.OutputStatus node &&
  match decode_output_status f with Ok m => os_sequence m =? sequence | Err _ => false end.

Definition is_heartbeat (node : Z) (f : CanFrame) : bool :=
  is_node_fn f Function.Heartbeat node && res_ok (decode_heartbeat f).

Definition is_node_status (node : Z) (f : CanFrame) : bool :=
  is_node_fn f Function.Status node && res_ok (decode_node_status f).

Definition ms_ns (ms : Z) : Z := ms * 1000000.

(** ** The script's steps *)

Section Script.
Context {P : Type} (peer : Peer P) (turns : nat).
Let M := Acc P.

Definition note (e : WireEvent) : M () := λ s, Some ((), mkAccState (as_peer s) (as_child s) (as_trace s ++ [e])).

Definition on_peer {A} (f : P → A * P) : M A := λ s,
  let '(a, p) := f (as_peer s) in Some (a, mkAccState p (as_child s) (as_trace s)).

Definition set_child (b : bool) : M () := λ s, Some ((), mkAccState (as_peer s) b (as_trace s)).
Definition has_child : M bool := λ s, Some (as_child s, s).

Definition steady_now : M Z := on_peer (pe_now peer).

Definition sleep_for (ms : Z) : M () := _ ← on_peer (λ p, ((), pe_sleep peer ms p)); note (Waited ms).

(** *** The child process *)

(** Up to fifty looks, twenty milliseconds apart. *)
Fixpoint await_exit (n : nat) : M bool :=
  match n with
  | O => mret false
  | S n => gone ← on_peer (pe_exited peer);
           if gone : bool then mret true else _ ← on_peer (λ p, ((), pe_sleep peer 20 p)); await_exit n
  end.

Definition child_stop : M () :=
  running ← has_child;
  if negb running then mret ()
  else
    _ ← on_peer (λ p, ((), pe_signal peer false p));
    gone ← await_exit 50;
    _ ← (if gone : bool then mret ()
         else _ ← on_peer (λ p, ((), pe_signal peer true p)); on_peer (λ p, ((), pe_reap peer p)));
    _ ← set_child false; note Ended.

Definition child_start (args : list string) : M bool :=
  _ ← child_stop;
  ok ← on_peer (pe_spawn peer args);
  if ok : bool then _ ← set_child true; _ ← note (Spawned args); mret true else mret false.

(** *** The bus *)

Definition recv_one (timeout_ms : Z) : M (option CanFrame) :=
  f ← on_peer (pe_receive peer timeout_ms);
  match f with None => mret None | Some f => _ ← note (GotFrame f); mret (Some f) end.

(** The time left, whole milliseconds toward zero. *)
Definition slice_of (left_ns : Z) : Z := let left := Z.quot left_ns 1000000 in if 50 <? left then 50 else left.

Fixpoint recv_loop (n : nat) (pred : CanFrame → bool) (deadline : Z) : M (option CanFrame) :=
  match n with
  | O => λ _, None
  | S n =>
      t ← steady_now;
      if negb (t <? deadline) then mret None
      else
        t ← steady_now;
        let slice := slice_of (deadline - t) in
        if slice <=? 0 then mret None
        else
          f ← recv_one slice;
          match f with
          | None => recv_loop n pred deadline
          | Some f => if pred f then mret (Some f) else recv_loop n pred deadline
          end
  end.

Definition recv_until (pred : CanFrame → bool) (budget_ms : Z) : M (option CanFrame) :=
  t ← steady_now; recv_loop turns pred (t + ms_ns budget_ms).

Definition send_command (node mask session sequence values validity : Z) : M bool :=
  match encode_output_command (mkWireOutputCommand node mask session sequence values validity) with
  | Err _ => mret false
  | Ok f => ok ← on_peer (pe_send peer f); if ok : bool then _ ← note (SentFrame f); mret true else mret false
  end.

Definition wait_status (node sequence budget_ms : Z) : M (option WireOutputStatus) :=
  f ← recv_until (is_status node sequence) budget_ms;
  mret match f with
       | None => None
       | Some f => match decode_output_status f with Ok m => Some m | Err _ => None end
       end.

Definition wait_heartbeat (node budget_ms : Z) : M (option WireHeartbeat) :=
  f ← recv_until (is_heartbeat node) budget_ms;
  mret match f with
       | None => None
       | Some f => match decode_heartbeat f with Ok m => Some m | Err _ => None end
       end.

Definition wait_node_status (node budget_ms : Z) : M (option WireNodeStatus) :=
  f ← recv_until (is_node_status node) budget_ms;
  mret match f with
       | None => None
       | Some f => match decode_node_status f with Ok m => Some m | Err _ => None end
       end.

(** ** The scenarios *)

Definition sim_args (o : AccOptions) (more : list string) : list string :=
  ["--can"; ao_can_if o; "--node-id"; pretty (ao_node_id o); "--heartbeat-ms"; "50"] ++ more.

Definition failed (name detail : string) : AccResult := mkAccResult name false detail.
Definition passed (name detail : string) : AccResult := mkAccResult name true detail.

(** [child.stop(); out.detail = ...; return out;] *)
Definition give_up_with (name detail : string) : M AccResult := _ ← child_stop; mret (failed name detail).

Definition applied (s : option WireOutputStatus) (mirror : Z) : bool :=
  match s with Some s => (os_result s ==? OutputResult.Applied) && (os_output_mirror s =? mirror) | None => false end.

Definition result_is (s : option WireOutputStatus) (r : OutputResult) : bool :=
  match s with Some s => os_result s ==? r | None => false end.

Definition is_some {A} (x : option A) : bool := match x with Some _ => true | None => false end.

Definition scenario_heartbeat_status (o : AccOptions) : M AccResult :=
  let name := "heartbeat_status"%string in
  ok ← child_start (sim_args o ["--duration-ms"; "8000"; "--boot-id"; "1"; "--session-id"; "1"]);
  if negb ok then mret (failed name "failed to start simulator")
  else
    hb ← wait_heartbeat (ao_node_id o) 1000;
    st ← wait_node_status (ao_node_id o) 1000;
    _ ← child_stop;
    mret match hb, st with
         | Some hb, Some st =>
             if negb (hb_session_id hb =? 1) || negb (ns_session_id st =? 1) then failed name "unexpected session"
             else passed name ("hb_seq=" +:+ pretty (hb_seq hb))
         | _, _ => failed name "missing heartbeat or status"
         end.

Definition scenario_command_loop (o : AccOptions) : M AccResult :=
  let name := "command_loopback"%string in
  let node := ao_node_id o in
  ok ← child_start (sim_args o ["--duration-ms"; "8000"; "--session-id"; "10"]);
  if negb ok then mret (failed name "failed to start simulator")
  else
    hb ← wait_heartbeat node 1000;
    if negb (is_some hb) then give_up_with name "no heartbeat before command"
    else
      sent ← send_command node 0x0F 10 1 0x05 20;
      if negb sent then give_up_with name "send failed"
      else
        status ← wait_status node 1 1000;
        _ ← child_stop;
        mret (if negb (applied status 0x05) then failed name "missing or unexpected OutputStatus"
              else passed name "applied mirror=0x05").

Definition scenario_output_lease_neutralizes (o : AccOptions) : M AccResult :=
  let name := "output_lease_neutralizes"%string in
  let node := ao_node_id o in
  ok ← child_start (sim_args o ["--duration-ms"; "8000"; "--session-id"; "12"]);
  if negb ok then mret (failed name "failed to start simulator")
  else
    hb ← wait_heartbeat node 1000;
    if negb (is_some hb) then give_up_with name "no heartbeat before lease test"
    else
      sent ← send_command node 0xFF 12 101 0xA5 5;
      if negb sent then give_up_with name "seed command send failed"
      else
        seed ← wait_status node 101 1000;
        if negb (applied seed 0xA5) then give_up_with name "seed output was not applied"
        else
          _ ← sleep_for 150;
          sent ← send_command node 0x01 12 102 0x00 20;
          if negb sent then give_up_with name "probe command send failed"
          else
            probe ← wait_status node 102 1000;
            _ ← child_stop;
            mret (if negb (applied probe 0x00)
                  then failed name match probe with
                                   | Some p => "stale output survived lease; mirror=" +:+ pretty (os_output_mirror p)
                                   | None => "missing probe OutputStatus"
                                   end
                  else passed name "50ms lease expired before partial-mask probe").

Definition scenario_reject_rules (o : AccOptions) : M AccResult :=
  let name := "reject_stale_session_expired"%string in
  let node := ao_node_id o in
  ok ← child_start (sim_args o ["--duration-ms"; "10000"; "--session-id"; "3"; "--fault-delay-response-ms"; "50"]);
  if negb ok then mret (failed name "failed to start simulator")
  else
    hb ← wait_heartbeat node 1000;
    if negb (is_some hb) then give_up_with name "no heartbeat"
    else
      sent ← send_command node 1 3 1 1 1;
      if negb sent then give_up_with name "send expired candidate failed"
      else
        expired ← wait_status node 1 1000;
        if negb (result_is expired OutputResult.Expired) then give_up_with name "expected EXPIRED"
        else
          _ ← child_stop;
          ok ← child_start (sim_args o ["--duration-ms"; "8000"; "--session-id"; "3"]);
          if negb ok then mret (failed name "failed to restart simulator")
          else
            hb ← wait_heartbeat node 1000;
            if negb (is_some hb) then give_up_with name "no heartbeat (phase2)"
            else
              sent ← send_command node 1 3 5 1 20;
              seed ← (if sent : bool then wait_status node 5 1000 else mret None);
              if negb (is_some seed) then give_up_with name "seed command failed"
              else
                sent ← send_command node 1 3 5 1 20;
                if negb sent then give_up_with name "dup send failed"
                else
                  stale ← wait_status node 5 1000;
                  if negb (result_is stale OutputResult.StaleSequence) then give_up_with name "expected STALE_SEQUENCE"
                  else
                    sent ← send_command node 1 3 4 1 20;
                    if negb sent then give_up_with name "older send failed"
                    else
                      older ← wait_status node 4 1000;
                      if negb (result_is older OutputResult.StaleSequence) then give_up_with name "expected STALE for older seq"
                      else
                        sent ← send_command node 1 99 6 1 20;
                        if negb sent then give_up_with name "bad session send failed"
                        else
                          mismatch ← wait_status node 6 1000;
                          _ ← child_stop;
                          mret (if negb (result_is mismatch OutputResult.SessionMismatch) then failed name "expected SESSION_MISMATCH"
                                else passed name "expired+stale+session ok").

(** [while (now() < quiet_deadline) recv_one(50ms)] *)
Fixpoint quiet_loop (n : nat) (deadline : Z) : M () :=
  match n with
  | O => λ _, None
  | S n => t ← steady_now; if negb (t <? deadline) then mret () else _ ← recv_one 50; quiet_loop n deadline
  end.

Definition scenario_heartbeat_loss (o : AccOptions) : M AccResult :=
  let name := "heartbeat_loss"%string in
  let node := ao_node_id o in
  ok ← child_start (sim_args o ["--duration-ms"; "8000"]);
  if negb ok then mret (failed name "failed to start simulator")
  else
    hb ← wait_heartbeat node 1000;
    if negb (is_some hb) then give_up_with name "never saw heartbeat"
    else
      _ ← child_stop;
      t ← steady_now;
      _ ← quiet_loop turns (t + ms_ns 400);
      hb ← wait_heartbeat node 300;
      mret (if is_some hb then failed name "heartbeat continued after peer exit"
            else passed name "silence after peer stop (>=300ms)").

(** Up to forty heartbeats, until one has another session. *)
Fixpoint await_session (n : nat) (node : Z) (last : option WireHeartbeat) : M (option WireHeartbeat) :=
  match n with
  | O => mret last
  | S n =>
      hb ← wait_heartbeat node 100;
      match hb with
      | Some m => if negb (hb_session_id m =? 1) then mret hb else await_session n node hb
      | None => await_session n node hb
      end
  end.

Definition scenario_restart_session (o : AccOptions) : M AccResult :=
  let name := "restart_new_session"%string in
  let node := ao_node_id o in
  ok ← child_start (sim_args o ["--duration-ms"; "10000"; "--boot-id"; "1"; "--session-id"; "1"; "--fault-restart-after-ms"; "250"]);
  if negb ok then mret (failed name "failed to start simulator")
  else
    hb1 ← wait_heartbeat node 1000;
    if negb match hb1 with Some m => hb_session_id m =? 1 | None => false end then give_up_with name "missing initial session"
    else
      hb2 ← await_session 40 node None;
      match hb2 with
      | None => give_up_with name "session did not change after restart"
      | Some m =>
          if hb_session_id m =? 1 then give_up_with name "session did not change after restart"
          else
            sent ← send_command node 1 1 1 1 20;
            if negb sent then give_up_with name "old session send failed"
            else
              old ← wait_status node 1 1000;
              if negb (result_is old OutputResult.SessionMismatch) then give_up_with name "old session not rejected"
              else
                sent ← send_command node 1 (hb_session_id m) 1 1 20;
                if negb sent then give_up_with name "new session send failed"
                else
                  neu ← wait_status node 1 1000;
                  _ ← child_stop;
                  mret (if negb (result_is neu OutputResult.Applied) then failed name "new session command not applied"
                        else passed name ("old rejected, new session=" +:+ pretty (hb_session_id m)))
      end.

(** [(void)bus.send(f)] *)
Definition send_anyway (f : CanFrame) : M () :=
  ok ← on_peer (pe_send peer f); if ok : bool then note (SentFrame f) else mret ().

Definition short_frame (node : Z) : CanFrame :=
  mkCanFrame (make_can_id Function.OutputCommand node) 7 [1; 1; 0; 0; 0; 0; 0; 0].
Definition bad_version_frame (node : Z) : CanFrame :=
  mkCanFrame (make_can_id Function.OutputCommand node) 8 [2; 1; 0; 1; 0; 1; 0; 10].
Definition zero_mask_frame (node : Z) : CanFrame :=
  mkCanFrame (make_can_id Function.OutputCommand node) 8 [1; 0; 0; 1; 0; 1; 0; 10].

Definition count_reject (f : CanFrame) (n : Z) : Z := if res_ok (decode_output_command f) then n else n + 1.

(** The number after the first [protocol_rejects=] in the log, 0 without one. *)
Fixpoint after_marker (marker text : list Z) : option (list Z) :=
  if bool_decide (take (length marker) text = marker) then Some (drop (length marker) text)
  else match text with [] => None | _ :: text => after_marker marker text end.

(** [std::strtoull] in base ten. *)
Definition strtoull (text : list Z) : Z :=
  let '(negative, l) := read_sign (skip_space text) in
  match digits l with
  | None => 0
  | Some (v, _) => if 2 ^ 64 <=? v then 2 ^ 64 - 1 else if negative : bool then u64 (- v) else v
  end.

Definition logged_rejects (log : string) : Z :=
  match after_marker (str_bytes "protocol_rejects=") (str_bytes log) with Some rest => strtoull rest | None => 0 end.

Definition read_log : M string := λ s, Some (pe_log peer (as_peer s), s).

Definition scenario_illegal_frames (o : AccOptions) : M AccResult :=
  let name := "illegal_frames"%string in
  let node := ao_node_id o in
  ok ← child_start (sim_args o ["--duration-ms"; "8000"; "--session-id"; "1"]);
  if negb ok then mret (failed name "failed to start simulator")
  else
    hb ← wait_heartbeat node 1000;
    if negb (is_some hb) then give_up_with name "no heartbeat"
    else
      _ ← send_anyway (short_frame node);
      _ ← send_anyway (bad_version_frame node);
      _ ← send_anyway (zero_mask_frame node);
      let local_rejects := count_reject (zero_mask_frame node) (count_reject (bad_version_frame node) (count_reject (short_frame node) 0)) in
      _ ← sleep_for 100;
      sent ← send_command node 1 1 1 1 20;
      if negb sent then give_up_with name "recovery command send failed"
      else
        ok ← wait_status node 1 1000;
        _ ← child_stop;
        log ← read_log;
        let sim_rejects := logged_rejects log in
        mret (if negb (result_is ok OutputResult.Applied) then failed name "node did not recover after illegal frames"
              else if local_rejects <? 3 then failed name "local decode reject count too low"
              else if negb (0 <? sim_rejects) then failed name "simulator log missing non-zero protocol_rejects"
              else passed name ("local_rejects=" +:+ pretty local_rejects +:+ " sim_rejects=" +:+ pretty sim_rejects)).

(** ** The program *)

Definition scenarios (o : AccOptions) : list (M AccResult) :=
  [scenario_heartbeat_status o; scenario_command_loop o; scenario_output_lease_neutralizes o; scenario_reject_rules o;
   scenario_heartbeat_loss o; scenario_restart_session o; scenario_illegal_frames o].

Fixpoint run_scenarios (l : list (M AccResult)) : M (list AccResult) :=
  match l with
  | [] => mret []
  | m :: l => r ← m; rs ← run_scenarios l; mret (r :: rs)
  end.

Definition count_failed (rs : list AccResult) : Z := Z.of_nat (length (filter (λ r, ar_passed r = false) rs)).

(** [available]: the interface; [executable]: the simulator; [opened]: the socket. *)
Definition acceptance_main (link : option string) (args : list string) (available executable opened : bool) : M Z :=
  match parse_acc_options link args with
  | None => mret 1
  | Some o =>
      if negb available then mret 1
      else if negb executable then mret 1
      else if negb opened then mret 1
      else
        results ← run_scenarios (scenarios o);
        _ ← child_stop;
        mret (if count_failed results =? 0 then 0 else 1)
  end.
End Script.

(** ** What a verdict stands for *)

(** Events of these kinds, in this order, among others. *)
Definition exhibits (kinds : list (WireEvent → Prop)) (trace : list WireEvent) : Prop :=
  ∃ found, found `sublist_of` trace ∧ Forall2 (λ (kind : WireEvent → Prop) e, kind e) kinds found.

Lemma exhibits_nil trace : exhibits [] trace.
Proof. exists []. split; [apply sublist_nil_l|constructor]. Qed.

Lemma exhibits_app ps qs t u : exhibits ps t → exhibits qs u → exhibits (ps ++ qs) (t ++ u).
Proof. intros (f & Hf & Hp) (g & Hg & Hq). exists (f ++ g). split; [by apply sublist_app|by apply Forall2_app]. Qed.

Lemma exhibits_one (kind : WireEvent → Prop) e t : e ∈ t → kind e → exhibits [kind] t.
Proof.
  intros He Hk. exists [e]. split; [|by repeat constructor].
  apply list_elem_of_split in He as (l1 & l2 & ->). apply sublist_cons_l. by exists l1, l2; split; [|apply sublist_nil_l].
Qed.

Definition spawned (args : list string) (e : WireEvent) : Prop := e = Spawned args.
Definition ended (e : WireEvent) : Prop := e = Ended.
Definition waited (ms : Z) (e : WireEvent) : Prop := e = Waited ms.

(** A command with these fields went out. *)
Definition command_sent (m : WireOutputCommand) (e : WireEvent) : Prop :=
  ∃ f, e = SentFrame f ∧ encode_output_command m = Ok f.

(** A frame of the node with this content came in. *)
Definition heartbeat_got (node : Z) (ok : WireHeartbeat → bool) (e : WireEvent) : Prop :=
  ∃ f m, e = GotFrame f ∧ is_node_fn f Function.Heartbeat node = true ∧ decode_heartbeat f = Ok m ∧ ok m = true.
Definition node_status_got (node : Z) (ok : WireNodeStatus → bool) (e : WireEvent) : Prop :=
  ∃ f m, e = GotFrame f ∧ is_node_fn f Function.Status node = true ∧ decode_node_status f = Ok m ∧ ok m = true.
Definition status_got (node sequence : Z) (ok : WireOutputStatus → bool) (e : WireEvent) : Prop :=
  ∃ f m, e = GotFrame f ∧ is_node_fn f Function.OutputStatus node = true ∧ decode_output_status f = Ok m ∧
         os_sequence m = sequence ∧ ok m = true.

Section Verdicts.
Context {P : Type} (peer : Peer P) (turns : nat).

(** The trace grew by events of these kinds. *)
Definition grows (kinds : list (WireEvent → Prop)) (s s' : AccState P) : Prop :=
  ∃ tr, as_trace s' = as_trace s ++ tr ∧ exhibits kinds tr.

Lemma grows_refl s : grows [] s s.
Proof. exists []. split; [by rewrite app_nil_r|apply exhibits_nil]. Qed.

Lemma grows_trans ps qs s1 s2 s3 : grows ps s1 s2 → grows qs s2 s3 → grows (ps ++ qs) s1 s3.
Proof.
  intros (t & Ht & Hp) (u & Hu & Hq). exists (t ++ u). split; [by rewrite Hu, Ht, app_assoc|by apply exhibits_app].
Qed.

Lemma grows_skip qs s1 s2 s3 : grows [] s1 s2 → grows qs s2 s3 → grows qs s1 s3.
Proof. apply (grows_trans []). Qed.

Lemma grows_weaken ps s s' : grows ps s s' → grows [] s s'.
Proof. intros (t & Ht & _). exists t. split; [done|apply exhibits_nil]. Qed.

Lemma grows_one (kind : WireEvent → Prop) e s s' : grows [λ x, x = e] s s' → kind e → grows [kind] s s'.
Proof.
  intros (t & Ht & found & Hs & Hf) Hk. exists t. split; [done|]. exists found. split; [done|].
  inversion Hf as [|k y ks ys Hy H1]; subst. inversion H1; subst. by repeat constructor.
Qed.

Lemma acc_bind_inv {A B} (m : Acc P A) (k : A → Acc P B) s b s' :
  (m ≫= k) s = Some (b, s') → ∃ a s1, m s = Some (a, s1) ∧ k a s1 = Some (b, s').
Proof. unfold mbind, Acc_bind. destruct (m s) as [[a s1]|]; [eauto|done]. Qed.

Lemma acc_ret_inv {A} (a b : A) (s s' : AccState P) : (mret a : Acc P A) s = Some (b, s') → a = b ∧ s = s'.
Proof. by intros [= -> ->]. Qed.

Lemma on_peer_inv {A} (f : P → A * P) s a s' : on_peer f s = Some (a, s') → as_child s' = as_child s ∧ as_trace s' = as_trace s.
Proof. unfold on_peer. destruct (f _). by intros [= <- <-]. Qed.

Lemma on_peer_grows {A} (f : P → A * P) s a s' : on_peer f s = Some (a, s') → as_child s' = as_child s ∧ grows [] s s'.
Proof. intros [H1 H2]%on_peer_inv. split; [done|]. exists []. rewrite app_nil_r. split; [done|apply exhibits_nil]. Qed.

Lemma note_grows e s (a : ()) s' : note e s = Some (a, s') → as_child s' = as_child s ∧ grows [λ x, x = e] s s'.
Proof. intros [= <- <-]. split; [done|]. exists [e]. split; [done|]. eapply exhibits_one; [by apply list_elem_of_singleton|done]. Qed.

(** *** Steps *)

Lemma await_exit_grows n : ∀ s b s', await_exit peer n s = Some (b, s') → as_child s' = as_child s ∧ grows [] s s'.
Proof.
  induction n as [|n IH]; intros s b s' H; cbn [await_exit] in H.
  { apply acc_ret_inv in H as [_ <-]. split; [done|apply grows_refl]. }
  apply acc_bind_inv in H as (gone & s1 & H1 & H). apply on_peer_grows in H1 as [Hc1 Hg1]. destruct gone.
  { apply acc_ret_inv in H as [_ <-]. done. }
  apply acc_bind_inv in H as (? & s2 & H2 & H). apply on_peer_grows in H2 as [Hc2 Hg2]. apply IH in H as [Hc3 Hg3].
  split; [congruence|]. eapply (grows_trans [] []); [exact Hg1|]. by eapply (grows_trans [] []).
Qed.

Lemma child_stop_grows s a s' :
  child_stop peer s = Some (a, s') → as_child s' = false ∧ grows (if as_child s then [ended] else []) s s'.
Proof.
  unfold child_stop. intros H. apply acc_bind_inv in H as (running & s1 & H1 & H). injection H1 as <- <-.
  destruct (as_child s) eqn:Hc; cbn [negb] in H.
  2: { apply acc_ret_inv in H as [_ <-]. split; [done|apply grows_refl]. }
  apply acc_bind_inv in H as (? & s2 & H2 & H). apply on_peer_grows in H2 as [_ Hg2].
  apply acc_bind_inv in H as (gone & s3 & H3 & H). apply await_exit_grows in H3 as [_ Hg3].
  apply acc_bind_inv in H as (? & s4 & H4 & H).
  assert (Hg4 : grows [] s3 s4).
  { destruct gone; [apply acc_ret_inv in H4 as [_ <-]; apply grows_refl|].
    apply acc_bind_inv in H4 as (? & s5 & H5 & H4). apply on_peer_grows in H5 as [_ Hg5]. apply on_peer_grows in H4 as [_ Hg4].
    by eapply (grows_trans [] []). }
  apply acc_bind_inv in H as (? & s5 & H5 & H). injection H5 as <- <-. apply note_grows in H as [Hc' Hg]. cbn in Hc'.
  split; [done|]. eapply (grows_trans [] [ended]); [exact Hg2|]. eapply (grows_trans [] [ended]); [exact Hg3|].
  eapply (grows_trans [] [ended]); [exact Hg4|]. destruct Hg as (t & Ht & He). exists t. split; [done|exact He].
Qed.

Lemma child_start_grows args s ok s' :
  child_start peer args s = Some (ok, s') → as_child s' = ok ∧ grows (if ok then [spawned args] else []) s s'.
Proof.
  unfold child_start. intros H. apply acc_bind_inv in H as (? & s1 & H1 & H). apply child_stop_grows in H1 as [Hc1 Hg1].
  apply grows_weaken in Hg1. apply acc_bind_inv in H as (b & s2 & H2 & H). apply on_peer_grows in H2 as [Hc2 Hg2]. destruct b.
  - apply acc_bind_inv in H as (? & s3 & H3 & H). injection H3 as <- <-. apply acc_bind_inv in H as (? & s4 & H4 & H).
    apply note_grows in H4 as [Hc4 Hg4]. apply acc_ret_inv in H as [<- <-]. split; [done|].
    eapply (grows_trans [] [_]); [exact Hg1|]. eapply (grows_trans [] [_]); [exact Hg2|]. exact Hg4.
  - apply acc_ret_inv in H as [<- <-]. split; [congruence|]. by eapply (grows_trans [] []).
Qed.

Lemma recv_one_grows ms s f s' :
  recv_one peer ms s = Some (f, s') →
  as_child s' = as_child s ∧ grows (match f with Some f => [λ x, x = GotFrame f] | None => [] end) s s'.
Proof.
  unfold recv_one. intros H. apply acc_bind_inv in H as (r & s1 & H1 & H). apply on_peer_grows in H1 as [Hc1 Hg1]. destruct r as [r|].
  - apply acc_bind_inv in H as (? & s2 & H2 & H). apply note_grows in H2 as [Hc2 Hg2]. apply acc_ret_inv in H as [<- <-].
    split; [congruence|]. by eapply (grows_trans [] [_]).
  - by apply acc_ret_inv in H as [<- <-].
Qed.

Lemma recv_loop_grows n pred deadline : ∀ s f s',
  recv_loop peer n pred deadline s = Some (f, s') →
  as_child s' = as_child s ∧
  match f with Some f => pred f = true ∧ grows [λ x, x = GotFrame f] s s' | None => grows [] s s' end.
Proof.
  induction n as [|n IH]; intros s f s' H; cbn [recv_loop] in H; [done|].
  apply acc_bind_inv in H as (t & s1 & H1 & H). apply on_peer_grows in H1 as [Hc1 Hg1].
  destruct (negb (t <? deadline)); [by apply acc_ret_inv in H as [<- <-]|].
  apply acc_bind_inv in H as (t' & s2 & H2 & H). apply on_peer_grows in H2 as [Hc2 Hg2].
  assert (Hg : grows [] s s2) by (by eapply (grows_trans [] [])).
  destruct (slice_of _ <=? 0); [apply acc_ret_inv in H as [<- <-]; split; [congruence|done]|].
  apply acc_bind_inv in H as (r & s3 & H3 & H). apply recv_one_grows in H3 as [Hc3 Hg3].
  assert (Hrest : recv_loop peer n pred deadline s3 = Some (f, s') → as_child s' = as_child s ∧
    match f with Some f => pred f = true ∧ grows [λ x, x = GotFrame f] s s' | None => grows [] s s' end).
  { intros Hr. apply IH in Hr as [Hc Hr]. split; [congruence|]. apply grows_weaken in Hg3.
    assert (grows [] s s3) by (by eapply (grows_trans [] [])). destruct f; [destruct Hr; split; [done|]|]; by eapply (grows_trans []). }
  destruct r as [r|]; [|by apply Hrest]. destruct (pred r) eqn:Hp; [|by apply Hrest].
  apply acc_ret_inv in H as [<- <-]. split; [congruence|]. split; [done|]. by eapply (grows_trans [] [_]).
Qed.

Lemma recv_until_grows pred ms s f s' :
  recv_until peer turns pred ms s = Some (f, s') →
  as_child s' = as_child s ∧
  match f with Some f => pred f = true ∧ grows [λ x, x = GotFrame f] s s' | None => grows [] s s' end.
Proof.
  unfold recv_until. intros H. apply acc_bind_inv in H as (t & s1 & H1 & H). apply on_peer_grows in H1 as [Hc1 Hg1].
  apply recv_loop_grows in H as [Hc2 Hg2]. split; [congruence|]. destruct f; [destruct Hg2; split; [done|]|]; by eapply (grows_trans []).
Qed.

Lemma send_command_grows node mask session sequence values validity s ok s' :
  send_command peer node mask session sequence values validity s = Some (ok, s') →
  as_child s' = as_child s ∧
  grows (if ok then [command_sent (mkWireOutputCommand node mask session sequence values validity)] else []) s s'.
Proof.
  unfold send_command. destruct (encode_output_command _) as [f|] eqn:He; intros H.
  2: { apply acc_ret_inv in H as [<- <-]. split; [done|apply grows_refl]. }
  apply acc_bind_inv in H as (b & s1 & H1 & H). apply on_peer_grows in H1 as [Hc1 Hg1]. destruct b.
  - apply acc_bind_inv in H as (? & s2 & H2 & H). apply note_grows in H2 as [Hc2 Hg2]. apply acc_ret_inv in H as [<- <-].
    split; [congruence|]. eapply (grows_trans [] [_]); [exact Hg1|]. eapply grows_one; [exact Hg2|]. by exists f.
  - by apply acc_ret_inv in H as [<- <-].
Qed.

Lemma sleep_grows ms s a s' : sleep_for peer ms s = Some (a, s') → as_child s' = as_child s ∧ grows [waited ms] s s'.
Proof.
  unfold sleep_for. intros H. apply acc_bind_inv in H as (? & s1 & H1 & H). apply on_peer_grows in H1 as [Hc1 Hg1].
  apply note_grows in H as [Hc2 Hg2]. split; [congruence|]. by eapply (grows_trans [] [_]).
Qed.

Lemma wait_heartbeat_grows node ms s m s' :
  wait_heartbeat peer turns node ms s = Some (m, s') →
  as_child s' = as_child s ∧ match m with Some m => ∀ ok, ok m = true → grows [heartbeat_got node ok] s s' | None => grows [] s s' end.
Proof.
  unfold wait_heartbeat. intros H. apply acc_bind_inv in H as (f & s1 & H1 & H). apply recv_until_grows in H1 as [Hc Hg].
  apply acc_ret_inv in H as [<- <-]. split; [done|]. destruct f as [f|]; [|done]. destruct Hg as [Hp Hg].
  unfold is_heartbeat in Hp. apply andb_true_iff in Hp as [Hn Hd]. destruct (decode_heartbeat f) as [m|] eqn:He; [|done].
  intros ok Hok. eapply grows_one; [exact Hg|]. by exists f, m.
Qed.

Lemma wait_node_status_grows node ms s m s' :
  wait_node_status peer turns node ms s = Some (m, s') →
  as_child s' = as_child s ∧ match m with Some m => ∀ ok, ok m = true → grows [node_status_got node ok] s s' | None => grows [] s s' end.
Proof.
  unfold wait_node_status. intros H. apply acc_bind_inv in H as (f & s1 & H1 & H). apply recv_until_grows in H1 as [Hc Hg].
  apply acc_ret_inv in H as [<- <-]. split; [done|]. destruct f as [f|]; [|done]. destruct Hg as [Hp Hg].
  unfold is_node_status in Hp. apply andb_true_iff in Hp as [Hn Hd]. destruct (decode_node_status f) as [m|] eqn:He; [|done].
  intros ok Hok. eapply grows_one; [exact Hg|]. by exists f, m.
Qed.

Lemma wait_status_grows node sequence ms s m s' :
  wait_status peer turns node sequence ms s = Some (m, s') →
  as_child s' = as_child s ∧ match m with Some m => ∀ ok, ok m = true → grows [status_got node sequence ok] s s' | None => grows [] s s' end.
Proof.
  unfold wait_status. intros H. apply acc_bind_inv in H as (f & s1 & H1 & H). apply recv_until_grows in H1 as [Hc Hg].
  apply acc_ret_inv in H as [<- <-]. split; [done|]. destruct f as [f|]; [|done]. destruct Hg as [Hp Hg].
  unfold is_status in Hp. apply andb_true_iff in Hp as [Hn Hd]. destruct (decode_output_status f) as [m|] eqn:He; [|done].
  apply Z.eqb_eq in Hd. intros ok Hok. eapply grows_one; [exact Hg|]. by exists f, m.
Qed.

Lemma give_up_inv name detail s r s' : give_up_with peer name detail s = Some (r, s') → as_child s' = false ∧ ar_passed r = false.
Proof.
  unfold give_up_with. intros H. apply acc_bind_inv in H as (? & s1 & H1 & H). apply child_stop_grows in H1 as [Hc _].
  by apply acc_ret_inv in H as [<- <-].
Qed.

(** A loop that ends with nothing has only heard other frames. *)
Definition other_frames (pred : CanFrame → bool) (tr : list WireEvent) : Prop :=
  Forall (λ e, ∀ f, e = GotFrame f → pred f = false) tr.

Lemma recv_one_trace ms s f s' :
  recv_one peer ms s = Some (f, s') → as_trace s' = as_trace s ++ match f with Some f => [GotFrame f] | None => [] end.
Proof.
  unfold recv_one. intros H. apply acc_bind_inv in H as (r & s1 & H1 & H). apply on_peer_inv in H1 as [_ Ht]. destruct r as [r|].
  - apply acc_bind_inv in H as (? & s2 & H2 & H). injection H2 as <- <-. apply acc_ret_inv in H as [<- <-]. cbn. by rewrite Ht.
  - apply acc_ret_inv in H as [<- <-]. by rewrite app_nil_r.
Qed.

Lemma recv_loop_silent n pred deadline : ∀ s s',
  recv_loop peer n pred deadline s = Some (None, s') → ∃ tr, as_trace s' = as_trace s ++ tr ∧ other_frames pred tr.
Proof.
  induction n as [|n IH]; intros s s' H; cbn [recv_loop] in H; [done|].
  assert (Hnil : ∀ u : AccState P, as_trace u = as_trace s → ∃ tr, as_trace u = as_trace s ++ tr ∧ other_frames pred tr).
  { intros u Hu. exists []. rewrite app_nil_r. split; [done|constructor]. }
  apply acc_bind_inv in H as (t & s1 & H1 & H). apply on_peer_inv in H1 as [_ Ht1].
  destruct (negb (t <? deadline)); [apply acc_ret_inv in H as [_ <-]; by apply Hnil|].
  apply acc_bind_inv in H as (t' & s2 & H2 & H). apply on_peer_inv in H2 as [_ Ht2].
  destruct (slice_of _ <=? 0); [apply acc_ret_inv in H as [_ <-]; apply Hnil; congruence|].
  apply acc_bind_inv in H as (r & s3 & H3 & H). apply recv_one_trace in H3. rewrite Ht2, Ht1 in H3.
  assert (Hrest : recv_loop peer n pred deadline s3 = Some (None, s') →
    (∀ f, r = Some f → pred f = false) → ∃ tr, as_trace s' = as_trace s ++ tr ∧ other_frames pred tr).
  { intros Hr Hp. apply IH in Hr as (tr & Htr & Ho). rewrite H3, <- app_assoc in Htr. eexists. split; [exact Htr|].
    apply Forall_app_2; [|done]. destruct r as [r|]; repeat constructor. intros f [= <-]. by apply Hp. }
  destruct r as [r|]; [|by apply Hrest]. destruct (pred r) eqn:Hp; [by apply acc_ret_inv in H as [? _]|].
  apply Hrest; [done|]. by intros f [= <-].
Qed.

Lemma wait_heartbeat_silent node ms s s' :
  wait_heartbeat peer turns node ms s = Some (None, s') → ∃ tr, as_trace s' = as_trace s ++ tr ∧ other_frames (is_heartbeat node) tr.
Proof.
  unfold wait_heartbeat, recv_until. intros H. apply acc_bind_inv in H as (f & s1 & H1 & H).
  apply acc_bind_inv in H1 as (t & s2 & H2 & H1). apply on_peer_inv in H2 as [_ Ht]. apply acc_ret_inv in H as [Hf <-].
  destruct f as [f|].
  - apply recv_loop_grows in H1 as (_ & Hp & _). unfold is_heartbeat in Hp. apply andb_true_iff in Hp as [_ Hd].
    by destruct (decode_heartbeat f).
  - apply recv_loop_silent in H1. by rewrite Ht in H1.
Qed.

Lemma quiet_loop_grows n deadline : ∀ s a s', quiet_loop peer n deadline s = Some (a, s') → as_child s' = as_child s ∧ grows [] s s'.
Proof.
  induction n as [|n IH]; intros s a s' H; cbn [quiet_loop] in H; [done|].
  apply acc_bind_inv in H as (t & s1 & H1 & H). apply on_peer_grows in H1 as [Hc1 Hg1].
  destruct (negb _); [by apply acc_ret_inv in H as [_ <-]|].
  apply acc_bind_inv in H as (r & s2 & H2 & H). apply recv_one_grows in H2 as [Hc2 Hg2]. apply grows_weaken in Hg2.
  apply IH in H as [Hc3 Hg3]. split; [congruence|]. eapply (grows_trans [] []); [exact Hg1|]. by eapply (grows_trans [] []).
Qed.

Lemma await_session_grows n node : ∀ last s m s',
  await_session peer turns n node last s = Some (m, s') →
  as_child s' = as_child s ∧
  match m with
  | Some m => hb_session_id m ≠ 1 → (∀ l, last = Some l → hb_session_id l = 1) →
              grows [heartbeat_got node (λ x, hb_session_id x =? hb_session_id m)] s s'
  | None => True
  end.
Proof.
  induction n as [|n IH]; intros last s m s' H; cbn [await_session] in H.
  { apply acc_ret_inv in H as [<- <-]. split; [done|]. destruct last as [l|]; [|done]. intros Hm Hl. by specialize (Hl l eq_refl). }
  apply acc_bind_inv in H as (hb & s1 & H1 & H). apply wait_heartbeat_grows in H1 as [Hc1 Hg1].
  destruct hb as [hb|]; [destruct (Z.eqb_spec (hb_session_id hb) 1) as [He|He]; cbn [negb] in H|].
  - apply IH in H as [Hc2 Hg2]. split; [congruence|]. destruct m as [m|]; [|done]. intros Hm _.
    eapply (grows_trans [] [_]); [eapply grows_weaken, (Hg1 (λ _, true)); done|]. apply Hg2; [done|]. by intros l [= <-].
  - apply acc_ret_inv in H as [<- <-]. split; [done|]. intros _ _. apply Hg1. apply Z.eqb_refl.
  - apply IH in H as [Hc2 Hg2]. split; [congruence|]. destruct m as [m|]; [|done]. intros Hm _.
    eapply (grows_trans [] [_]); [exact Hg1|]. by apply Hg2.
Qed.

Lemma send_anyway_grows f s a s' : send_anyway peer f s = Some (a, s') → as_child s' = as_child s ∧ grows [] s s'.
Proof.
  unfold send_anyway. intros H. apply acc_bind_inv in H as (b & s1 & H1 & H). apply on_peer_grows in H1 as [Hc1 Hg1].
  destruct b; [|by apply acc_ret_inv in H as [_ <-]]. apply note_grows in H as [Hc2 Hg2]. apply grows_weaken in Hg2.
  split; [congruence|]. by eapply (grows_trans [] []).
Qed.

(** ** The evidence of each scenario *)

Let cmd (o : AccOptions) (mask session sequence values validity : Z) : WireEvent → Prop :=
  command_sent (mkWireOutputCommand (ao_node_id o) mask session sequence values validity).
Let heard (o : AccOptions) : WireEvent → Prop := heartbeat_got (ao_node_id o) (λ _, true).
Let answered (o : AccOptions) (sequence : Z) (r : OutputResult) : WireEvent → Prop :=
  status_got (ao_node_id o) sequence (λ m, os_result m ==? r).
Let mirrored (o : AccOptions) (sequence mirror : Z) : WireEvent → Prop :=
  status_got (ao_node_id o) sequence (λ m, (os_result m ==? OutputResult.Applied) && (os_output_mirror m =? mirror)).

Definition evidence_heartbeat_status (o : AccOptions) (s s' : AccState P) : Prop :=
  grows ([spawned (sim_args o ["--duration-ms"; "8000"; "--boot-id"; "1"; "--session-id"; "1"])] ++
         [heartbeat_got (ao_node_id o) (λ m, hb_session_id m =? 1)] ++
         [node_status_got (ao_node_id o) (λ m, ns_session_id m =? 1)] ++ [ended]) s s'.

Definition evidence_command_loop (o : AccOptions) (s s' : AccState P) : Prop :=
  grows ([spawned (sim_args o ["--duration-ms"; "8000"; "--session-id"; "10"])] ++ [heard o] ++
         [cmd o 0x0F 10 1 0x05 20] ++ [mirrored o 1 0x05] ++ [ended]) s s'.

(** The node showed 0xA5, then only the lease ran out, then the masked command found nothing left. *)
Definition evidence_lease (o : AccOptions) (s s' : AccState P) : Prop :=
  grows ([spawned (sim_args o ["--duration-ms"; "8000"; "--session-id"; "12"])] ++ [heard o] ++
         [cmd o 0xFF 12 101 0xA5 5] ++ [mirrored o 101 0xA5] ++ [waited 150] ++
         [cmd o 0x01 12 102 0x00 20] ++ [mirrored o 102 0x00] ++ [ended]) s s'.

Definition evidence_reject_rules (o : AccOptions) (s s' : AccState P) : Prop :=
  grows ([spawned (sim_args o ["--duration-ms"; "10000"; "--session-id"; "3"; "--fault-delay-response-ms"; "50"])] ++ [heard o] ++
         [cmd o 1 3 1 1 1] ++ [answered o 1 OutputResult.Expired] ++ [ended] ++
         [spawned (sim_args o ["--duration-ms"; "8000"; "--session-id"; "3"])] ++ [heard o] ++
         [cmd o 1 3 5 1 20] ++ [status_got (ao_node_id o) 5 (λ _, true)] ++
         [cmd o 1 3 5 1 20] ++ [answered o 5 OutputResult.StaleSequence] ++
         [cmd o 1 3 4 1 20] ++ [answered o 4 OutputResult.StaleSequence] ++
         [cmd o 1 99 6 1 20] ++ [answered o 6 OutputResult.SessionMismatch] ++ [ended]) s s'.

(** After the child ended, the last window had no heartbeat. *)
Definition evidence_heartbeat_loss (o : AccOptions) (s s' : AccState P) : Prop :=
  ∃ s1 tr, grows ([spawned (sim_args o ["--duration-ms"; "8000"])] ++ [heard o] ++ [ended]) s s1 ∧
    as_trace s' = as_trace s1 ++ tr ∧ other_frames (is_heartbeat (ao_node_id o)) tr.

Definition evidence_restart (o : AccOptions) (s s' : AccState P) : Prop :=
  ∃ session, session ≠ 1 ∧
    grows ([spawned (sim_args o ["--duration-ms"; "10000"; "--boot-id"; "1"; "--session-id"; "1"; "--fault-restart-after-ms"; "250"])] ++
           [heartbeat_got (ao_node_id o) (λ m, hb_session_id m =? 1)] ++
           [heartbeat_got (ao_node_id o) (λ m, hb_session_id m =? session)] ++
           [cmd o 1 1 1 1 20] ++ [answered o 1 OutputResult.SessionMismatch] ++
           [cmd o 1 session 1 1 20] ++ [answered o 1 OutputResult.Applied] ++ [ended]) s s'.

Definition evidence_illegal (o : AccOptions) (s s' : AccState P) : Prop :=
  grows ([spawned (sim_args o ["--duration-ms"; "8000"; "--session-id"; "1"])] ++ [heard o] ++ [waited 100] ++
         [cmd o 1 1 1 1 20] ++ [answered o 1 OutputResult.Applied] ++ [ended]) s s' ∧
  0 < logged_rejects (pe_log peer (as_peer s')).

(** A scenario leaves no child, and its PASS has its evidence. *)
Definition sound (m : Acc P AccResult) (evidence : AccState P → AccState P → Prop) : Prop :=
  ∀ s r s', m s = Some (r, s') → as_child s' = false ∧ (ar_passed r = true → evidence s s').

Ltac next_step :=
  match goal with
  | H : (_ ≫= _) _ = Some _ |- _ =>
      let a := fresh "a" in let u := fresh "u" in let Hm := fresh "Hm" in let Hc := fresh "Hc" in let Hg := fresh "Hg" in
      apply acc_bind_inv in H as (a & u & Hm & H);
      first [apply child_start_grows in Hm as [Hc Hg] | apply child_stop_grows in Hm as [Hc Hg]
            | apply wait_heartbeat_grows in Hm as [Hc Hg] | apply wait_node_status_grows in Hm as [Hc Hg]
            | apply wait_status_grows in Hm as [Hc Hg] | apply send_command_grows in Hm as [Hc Hg]
            | apply sleep_grows in Hm as [Hc Hg] | apply send_anyway_grows in Hm as [Hc Hg]
            | apply quiet_loop_grows in Hm as [Hc Hg] | apply on_peer_grows in Hm as [Hc Hg]]
  | H : mret _ _ = Some _ |- _ => apply acc_ret_inv in H as [H ?]; subst
  | H : give_up_with _ _ _ _ = Some _ |- _ => apply give_up_inv in H as [? H]
  | H : (if negb ?b then _ else _) _ = Some _ |- _ => destruct b eqn:?; cbn [negb] in H
  end.

(** The child is known along the way. *)
Ltac child_known :=
  repeat match goal with
  | H : as_child ?u = as_child ?v, H' : as_child ?v = true |- _ => rewrite H' in H
  | H : grows (if as_child ?u then _ else _) ?u _, H' : as_child ?u = true |- _ => rewrite H' in H
  end.

Ltac chain_step :=
  first [eassumption
        | match goal with H : ∀ ok, _ → grows _ ?s ?t |- grows _ ?s _ => apply H; cbn; first [done|lia|assumption] end].

(** A branch without PASS. *)
Ltac fails := next_step; split; [done|intros; cbn in *; congruence].

(** Chain the growths in order. *)
Ltac chain := child_known; repeat (eapply grows_trans; [chain_step|]); chain_step.

Lemma heartbeat_status_sound o : sound (scenario_heartbeat_status peer turns o) (evidence_heartbeat_status o).
Proof.
  intros s r s' H. unfold scenario_heartbeat_status in H. cbv zeta in H.
  next_step. destruct a; cbn [negb] in H; [|fails].
  do 3 next_step. next_step. split; [done|].
  destruct a as [hb|], a0 as [st|]; try done. destruct (_ || _) eqn:Hs; [done|]. intros _. bools.
  unfold evidence_heartbeat_status. chain.
Qed.

Lemma command_loop_sound o : sound (scenario_command_loop peer turns o) (evidence_command_loop o).
Proof.
  intros s r s' H. unfold scenario_command_loop in H. cbv zeta in H.
  next_step. destruct a; cbn [negb] in H; [|fails].
  next_step. destruct a as [hb|]; cbn [is_some negb] in H; [|fails].
  next_step. destruct a; cbn [negb] in H; [|fails].
  do 2 next_step. next_step. split; [done|]. destruct (applied a 5) eqn:Ha; [|done]. intros _.
  destruct a as [m|]; [|done]. unfold evidence_command_loop. chain.
Qed.

Lemma lease_sound o : sound (scenario_output_lease_neutralizes peer turns o) (evidence_lease o).
Proof.
  intros s r s' H. unfold scenario_output_lease_neutralizes in H. cbv zeta in H.
  next_step. destruct a; cbn [negb] in H; [|fails].
  next_step. destruct a as [hb|]; cbn [is_some negb] in H; [|fails].
  next_step. destruct a; cbn [negb] in H; [|fails].
  next_step. destruct (applied a 165) eqn:Ha; cbn [negb] in H; [|fails]. destruct a as [seed|]; [|done].
  do 2 next_step. destruct a0; cbn [negb] in H; [|fails].
  do 2 next_step. next_step. split; [done|]. destruct (applied a0 0) eqn:Hp; [|done]. intros _.
  destruct a0 as [m|]; [|done]. unfold evidence_lease. chain.
Qed.

Lemma reject_rules_sound o : sound (scenario_reject_rules peer turns o) (evidence_reject_rules o).
Proof.
  intros s r s' H. unfold scenario_reject_rules in H. cbv zeta in H.
  next_step. destruct a; cbn [negb] in H; [|fails].
  next_step. destruct a as [hb|]; cbn [is_some negb] in H; [|fails].
  next_step. destruct a; cbn [negb] in H; [|fails].
  next_step. destruct (result_is a _) eqn:H1; cbn [negb] in H; [|fails]. destruct a as [m1|]; [|done].
  do 2 next_step. destruct a0; cbn [negb] in H; [|fails].
  next_step. destruct a0 as [hb2|]; cbn [is_some negb] in H; [|fails].
  next_step. destruct a0.
  2: { apply acc_bind_inv in H as (x & u9 & Hx & H). apply acc_ret_inv in Hx as [<- <-]. cbn [is_some negb] in H. fails. }
  next_step. destruct a0 as [m2|]; cbn [is_some negb] in H; [|fails].
  next_step. destruct a0; cbn [negb] in H; [|fails].
  next_step. destruct (result_is a0 _) eqn:H2; cbn [negb] in H; [|fails]. destruct a0 as [m3|]; [|done].
  next_step. destruct a0; cbn [negb] in H; [|fails].
  next_step. destruct (result_is a0 _) eqn:H3; cbn [negb] in H; [|fails]. destruct a0 as [m4|]; [|done].
  next_step. destruct a0; cbn [negb] in H; [|fails].
  do 2 next_step. next_step. split; [done|]. destruct (result_is a0 _) eqn:H4; [|done]. intros _.
  destruct a0 as [m5|]; [|done]. unfold evidence_reject_rules. chain.
Qed.

Lemma heartbeat_loss_sound o : sound (scenario_heartbeat_loss peer turns o) (evidence_heartbeat_loss o).
Proof.
  intros s r s' H. unfold scenario_heartbeat_loss in H. cbv zeta in H.
  next_step. destruct a; cbn [negb] in H; [|fails].
  next_step. destruct a as [hb|]; cbn [is_some negb] in H; [|fails].
  do 3 next_step. apply acc_bind_inv in H as (last & u9 & Hw & H). pose proof Hw as Hw'. apply wait_heartbeat_grows in Hw' as [Hc9 _].
  next_step. split; [congruence|]. destruct last; cbn; [done|]. intros _. apply wait_heartbeat_silent in Hw as (tr & Htr & Ho).
  eexists _, tr. split; [|done]. child_known. do 2 (eapply grows_trans; [chain_step|]).
  eapply (grows_trans [ended] []); [chain_step|]. by eapply (grows_trans [] []).
Qed.

Lemma restart_sound o : sound (scenario_restart_session peer turns o) (evidence_restart o).
Proof.
  intros s r s' H. unfold scenario_restart_session in H. cbv zeta in H.
  revert H. generalize 40%nat as looks. intros looks H.
  next_step. destruct a; cbn [negb] in H; [|fails].
  next_step. destruct a as [hb1|]; cbn [negb] in H; [|fails].
  destruct (Z.eqb_spec (hb_session_id hb1) 1) as [H1|]; cbn [negb] in H; [|fails].
  apply acc_bind_inv in H as (hb2 & u9 & Hw & H). apply await_session_grows in Hw as [Hc9 Hg9].
  destruct hb2 as [hb2|]; [|fails]. destruct (Z.eqb_spec (hb_session_id hb2) 1) as [|H2]; [fails|].
  specialize (Hg9 H2 ltac:(done)).
  next_step. destruct a; cbn [negb] in H; [|fails].
  next_step. destruct (result_is a _) eqn:H3; cbn [negb] in H; [|fails]. destruct a as [m1|]; [|done].
  next_step. destruct a; cbn [negb] in H; [|fails].
  do 2 next_step. next_step. split; [done|]. destruct (result_is a _) eqn:H4; [|done]. intros _.
  destruct a as [m2|]; [|done]. exists (hb_session_id hb2). split; [done|]. chain.
Qed.

Lemma illegal_sound o : sound (scenario_illegal_frames peer turns o) (evidence_illegal o).
Proof.
  intros s r s' H. unfold scenario_illegal_frames in H. cbv zeta in H.
  next_step. destruct a; cbn [negb] in H; [|fails].
  next_step. destruct a as [hb|]; cbn [is_some negb] in H; [|fails].
  do 4 next_step. next_step. destruct a3; cbn [negb] in H; [|fails].
  do 2 next_step. apply acc_bind_inv in H as (log & u9 & Hl & H). injection Hl as <- <-. next_step. split; [done|].
  destruct (result_is a3 _) eqn:H1; cbn [negb]; [|done]. destruct (_ <? 3); [done|].
  destruct (Z.ltb_spec 0 (logged_rejects (pe_log peer (as_peer s')))); cbn [negb]; [|done]. intros _.
  destruct a3 as [m|]; [|done]. split; [|done].
  child_known. eapply grows_trans; [chain_step|]. eapply grows_trans; [chain_step|].
  do 3 (eapply grows_skip; [chain_step|]). chain.
Qed.

(** ** The whole program *)

(** One evidence after the other. *)
Fixpoint in_turn (evidence : list (AccState P → AccState P → Prop)) (s s' : AccState P) : Prop :=
  match evidence with
  | [] => s = s'
  | e :: evidence => ∃ s1, e s s1 ∧ in_turn evidence s1 s'
  end.

Definition full_evidence (o : AccOptions) : list (AccState P → AccState P → Prop) :=
  [evidence_heartbeat_status o; evidence_command_loop o; evidence_lease o; evidence_reject_rules o; evidence_heartbeat_loss o;
   evidence_restart o; evidence_illegal o].

Lemma run_scenarios_sound ms evidence : Forall2 sound ms evidence → ∀ s rs s',
  as_child s = false → run_scenarios ms s = Some (rs, s') →
  as_child s' = false ∧ (Forall (λ r, ar_passed r = true) rs → in_turn evidence s s').
Proof.
  induction 1 as [|m e ms es Hm _ IH]; intros s rs s' Hc H; cbn [run_scenarios] in H.
  { apply acc_ret_inv in H as [<- <-]. done. }
  apply acc_bind_inv in H as (r & s1 & H1 & H). destruct (Hm _ _ _ H1) as [Hc1 He].
  apply acc_bind_inv in H as (rs' & s2 & H2 & H). apply acc_ret_inv in H as [<- <-].
  destruct (IH _ _ _ Hc1 H2) as [Hc2 Hes]. split; [done|]. intros [Hr Hrs]%Forall_cons. exists s1. split; [by apply He|by apply Hes].
Qed.

Lemma none_failed rs : count_failed rs = 0 → Forall (λ r, ar_passed r = true) rs.
Proof.
  unfold count_failed. intros H. apply Forall_forall. intros r Hr. destruct (ar_passed r) eqn:Hp; [done|].
  assert (Hin : r ∈ filter (λ r, ar_passed r = false) rs) by (by apply list_elem_of_filter).
  destruct (filter _ rs); [by apply not_elem_of_nil in Hin|cbn in H; lia].
Qed.

Lemma scenarios_sound o : Forall2 sound (scenarios peer turns o) (full_evidence o).
Proof.
  apply Forall2_cons; split; [apply heartbeat_status_sound|]. apply Forall2_cons; split; [apply command_loop_sound|].
  apply Forall2_cons; split; [apply lease_sound|]. apply Forall2_cons; split; [apply reject_rules_sound|].
  apply Forall2_cons; split; [apply heartbeat_loss_sound|]. apply Forall2_cons; split; [apply restart_sound|].
  apply Forall2_cons; split; [apply illegal_sound|]. constructor.
Qed.

(** Whatever the bus, the simulator and the clock do, the acceptance program leaves no
    child process, and exits with 0 only after every scenario has its evidence on the wire, one
    after the other: the commands it sent and the node's own answers to them, in order (applied
    with the right mirror, neutral after the lease ran out, expired, stale, of another session,
    applied after the restart and after the illegal frames), no heartbeat in the last window
    after the child ended, and a non-zero count of rejects in the simulator's log. *)
Theorem acceptance_sound link args available executable opened s code s' :
  as_child s = false → acceptance_main peer turns link args available executable opened s = Some (code, s') →
  as_child s' = false ∧
  (code = 0 → available = true ∧ executable = true ∧ opened = true ∧
     ∃ o, parse_acc_options link args = Some o ∧ in_turn (full_evidence o) s s').
Proof.
  intros Hc H. unfold acceptance_main in H. destruct (parse_acc_options link args) as [o|]; [|by apply acc_ret_inv in H as [<- <-]].
  destruct available; [|by apply acc_ret_inv in H as [<- <-]]. destruct executable; [|by apply acc_ret_inv in H as [<- <-]].
  destruct opened; [|by apply acc_ret_inv in H as [<- <-]]. cbn [negb] in H.
  apply acc_bind_inv in H as (rs & s1 & H1 & H). destruct (run_scenarios_sound _ _ (scenarios_sound o) _ _ _ Hc H1) as [Hc1 He].
  apply acc_bind_inv in H as (x & s2 & H2 & H). apply acc_ret_inv in H as [<- <-].
  assert (s2 = s1) as ->.
  { unfold child_stop in H2. apply acc_bind_inv in H2 as (b & s3 & H3 & H2). injection H3 as <- <-. rewrite Hc1 in H2.
    cbn [negb] in H2. by apply acc_ret_inv in H2 as [_ <-]. }
  split; [done|]. destruct (Z.eqb_spec (count_failed rs) 0) as [H0|]; [|done]. intros _. split_and!; try done.
  exists o. split; [done|]. by apply He, none_failed.
Qed.
End Verdicts.

(** ** The program ends *)

(** A clock that moves when it is read and does not go back. *)
Record clock_moves {P} (peer : Peer P) (time : P → Z) : Prop := {
  cm_reading : ∀ p, fst (pe_now peer p) = time p;
  cm_now : ∀ p, time p < time (snd (pe_now peer p));
  cm_receive : ∀ ms p, time p ≤ time (snd (pe_receive peer ms p))
}.

Section Ends.
Context {P : Type} (peer : Peer P) (turns : nat) (time : P → Z) (Hclock : clock_moves peer time).
Context (Hturns : 10 ^ 9 < Z.of_nat turns).

Definition total {A} (m : Acc P A) : Prop := ∀ s, is_Some (m s).

Lemma total_ret {A} (a : A) : total (mret a).
Proof. by eexists. Qed.

Lemma total_bind {A B} (m : Acc P A) (k : A → Acc P B) : total m → (∀ a, total (k a)) → total (m ≫= k).
Proof. intros Hm Hk s. unfold mbind, Acc_bind. destruct (Hm s) as [[a s1] ->]. apply Hk. Qed.

Lemma total_on_peer {A} (f : P → A * P) : total (on_peer f).
Proof. intros s. unfold on_peer. destruct (f _). by eexists. Qed.

Lemma total_note e : total (note e).
Proof. by eexists. Qed.

Lemma total_if {A} (b : bool) (m n : Acc P A) : total m → total n → total (if b then m else n).
Proof. by destruct b. Qed.

Lemma total_recv_one ms : total (recv_one peer ms).
Proof.
  apply total_bind; [apply total_on_peer|]. intros [f|]; [|apply total_ret]. apply total_bind; [apply total_note|]. intros. apply total_ret.
Qed.

(** Reading the clock moves it, and nothing between two readings turns it back. *)
Lemma steady_now_time s : ∃ s1, steady_now peer s = Some (time (as_peer s), s1) ∧ time (as_peer s) < time (as_peer s1).
Proof.
  unfold steady_now, on_peer. pose proof (cm_reading _ _ Hclock (as_peer s)) as H1. pose proof (cm_now _ _ Hclock (as_peer s)) as H2.
  destruct (pe_now peer (as_peer s)) as [t p]. cbn in *. subst t. by eexists.
Qed.

Lemma recv_one_time ms s f s' : recv_one peer ms s = Some (f, s') → time (as_peer s) ≤ time (as_peer s').
Proof.
  unfold recv_one. intros H. apply acc_bind_inv in H as (r & s1 & H1 & H). unfold on_peer in H1.
  pose proof (cm_receive _ _ Hclock ms (as_peer s)) as Hr. destruct (pe_receive peer ms (as_peer s)) as [r' p].
  injection H1 as -> <-. destruct r as [r|].
  - apply acc_bind_inv in H as (? & s2 & H2 & H). injection H2 as <- <-. by apply acc_ret_inv in H as [<- <-].
  - by apply acc_ret_inv in H as [<- <-].
Qed.

Lemma recv_loop_total n pred deadline : ∀ s,
  deadline - time (as_peer s) < Z.of_nat n → is_Some (recv_loop peer n pred deadline s) ∨ deadline - time (as_peer s) ≤ 0 ∧ n = 0%nat.
Proof.
  induction n as [|n IH]; intros s Hn; [right; lia|]. left. cbn [recv_loop]. unfold mbind, Acc_bind.
  destruct (steady_now_time s) as (s1 & -> & H1). destruct (Z.ltb_spec (time (as_peer s)) deadline); cbn [negb]; [|by eexists].
  destruct (steady_now_time s1) as (s2 & -> & H2). destruct (slice_of _ <=? 0); [by eexists|].
  destruct (total_recv_one (slice_of (deadline - time (as_peer s1))) s2) as [[f s3] Hf]. rewrite Hf.
  apply recv_one_time in Hf.
  assert (Hrest : is_Some (recv_loop peer n pred deadline s3)).
  { destruct (IH s3) as [?|[? ->]]; [lia|done|lia]. }
  destruct f as [f|]; [|done]. destruct (pred f); [by eexists|done].
Qed.

Lemma total_recv_until pred ms : ms ≤ 1000 → total (recv_until peer turns pred ms).
Proof.
  intros Hms s. unfold recv_until, mbind, Acc_bind. destruct (steady_now_time s) as (s1 & -> & H1).
  destruct (recv_loop_total turns pred (time (as_peer s) + ms_ns ms) s1) as [H|[_ H]]; [unfold ms_ns; lia|done|lia].
Qed.

Lemma quiet_loop_total n deadline : ∀ s,
  0 < Z.of_nat n → deadline - time (as_peer s) < Z.of_nat n → is_Some (quiet_loop peer n deadline s).
Proof.
  induction n as [|n IH]; intros s Hp Hn; [lia|]. cbn [quiet_loop]. unfold mbind, Acc_bind.
  destruct (steady_now_time s) as (s1 & -> & H1). destruct (Z.ltb_spec (time (as_peer s)) deadline); cbn [negb]; [|by eexists].
  destruct (total_recv_one 50 s1) as [[f s2] Hf]. rewrite Hf. apply recv_one_time in Hf. apply IH; lia.
Qed.

Lemma total_await_exit n : total (await_exit peer n).
Proof.
  induction n as [|n IH]; cbn [await_exit]; [apply total_ret|]. apply total_bind; [apply total_on_peer|]. intros [].
  - apply total_ret.
  - apply total_bind; [apply total_on_peer|]. done.
Qed.

Lemma total_child_stop : total (child_stop peer).
Proof.
  unfold child_stop. apply total_bind; [by eexists|]. intros running. apply total_if; [apply total_ret|].
  apply total_bind; [apply total_on_peer|]. intros _. apply total_bind; [apply total_await_exit|]. intros gone.
  apply total_bind; [|intros _; apply total_bind; [by eexists|intros _; apply total_note]].
  apply total_if; [apply total_ret|]. apply total_bind; [apply total_on_peer|]. intros _. apply total_on_peer.
Qed.

Lemma total_child_start args : total (child_start peer args).
Proof.
  apply total_bind; [apply total_child_stop|]. intros _. apply total_bind; [apply total_on_peer|]. intros ok.
  apply total_if; [|apply total_ret]. apply total_bind; [by eexists|]. intros _. apply total_bind; [apply total_note|]. intros _. apply total_ret.
Qed.

Lemma total_wait_heartbeat node ms : ms ≤ 1000 → total (wait_heartbeat peer turns node ms).
Proof. intros. apply total_bind; [by apply total_recv_until|]. intros. apply total_ret. Qed.
Lemma total_wait_node_status node ms : ms ≤ 1000 → total (wait_node_status peer turns node ms).
Proof. intros. apply total_bind; [by apply total_recv_until|]. intros. apply total_ret. Qed.
Lemma total_wait_status node sequence ms : ms ≤ 1000 → total (wait_status peer turns node sequence ms).
Proof. intros. apply total_bind; [by apply total_recv_until|]. intros. apply total_ret. Qed.

Lemma total_send_command node mask session sequence values validity :
  total (send_command peer node mask session sequence values validity).
Proof.
  unfold send_command. destruct (encode_output_command _); [|apply total_ret]. apply total_bind; [apply total_on_peer|].
  intros ok. apply total_if; [|apply total_ret]. apply total_bind; [apply total_note|]. intros _. apply total_ret.
Qed.

Lemma total_sleep ms : total (sleep_for peer ms).
Proof. apply total_bind; [apply total_on_peer|]. intros _. apply total_note. Qed.

Lemma total_give_up name detail : total (give_up_with peer name detail).
Proof. apply total_bind; [apply total_child_stop|]. intros _. apply total_ret. Qed.

Lemma total_await_session n node : ∀ last, total (await_session peer turns n node last).
Proof.
  induction n as [|n IH]; intros last; cbn [await_session]; [apply total_ret|].
  apply total_bind; [apply total_wait_heartbeat; lia|]. intros [m|]; [|done]. apply total_if; [apply total_ret|done].
Qed.

Lemma total_send_anyway f : total (send_anyway peer f).
Proof. apply total_bind; [apply total_on_peer|]. intros ok. apply total_if; [apply total_note|apply total_ret]. Qed.

Lemma total_quiet_then {A} (k : () → Acc P A) :
  (∀ a, total (k a)) → total (t ← steady_now peer; a ← quiet_loop peer turns (t + ms_ns 400); k a).
Proof.
  intros Hk s. unfold mbind, Acc_bind. destruct (steady_now_time s) as (s1 & -> & H1).
  destruct (quiet_loop_total turns (time (as_peer s) + ms_ns 400) s1) as [[a s2] ->]; [lia|unfold ms_ns; lia|]. apply Hk.
Qed.

Ltac total_step :=
  lazymatch goal with
  | |- total (mret _) => apply total_ret
  | |- total (wait_heartbeat _ _ _ _) => apply total_wait_heartbeat; lia
  | |- total (wait_node_status _ _ _ _) => apply total_wait_node_status; lia
  | |- total (wait_status _ _ _ _ _) => apply total_wait_status; lia
  | |- total (child_stop _) => apply total_child_stop
  | |- total (child_start _ _) => apply total_child_start
  | |- total (send_command _ _ _ _ _ _ _) => apply total_send_command
  | |- total (send_anyway _ _) => apply total_send_anyway
  | |- total (sleep_for _ _) => apply total_sleep
  | |- total (give_up_with _ _ _) => apply total_give_up
  | |- total (await_session _ _ _ _ _) => apply total_await_session
  | |- total (steady_now _ ≫= _) => apply total_quiet_then; intros
  | |- total (_ ≫= _) => apply total_bind; [|intros]
  | |- total (if _ then _ else _) => apply total_if
  | |- total (match ?x with _ => _ end) => destruct x
  end.

Lemma scenarios_total o : Forall total (scenarios peer turns o).
Proof.
  unfold scenarios. apply Forall_cons; split; [unfold scenario_heartbeat_status; repeat total_step|].
  apply Forall_cons; split; [unfold scenario_command_loop; repeat total_step|].
  apply Forall_cons; split; [unfold scenario_output_lease_neutralizes; repeat total_step|].
  apply Forall_cons; split; [unfold scenario_reject_rules; repeat total_step|].
  apply Forall_cons; split; [unfold scenario_heartbeat_loss; repeat total_step|].
  apply Forall_cons; split; [unfold scenario_restart_session; repeat total_step|].
  apply Forall_cons; split; [unfold scenario_illegal_frames; repeat total_step; by eexists|]. constructor.
Qed.

(** With a clock that moves, a billion turns are more than any waiting loop takes: the program
    ends with a verdict, whatever frames arrive. *)
Theorem acceptance_ends link args available executable opened s :
  is_Some (acceptance_main peer turns link args available executable opened s).
Proof.
  revert s. unfold acceptance_main. destruct (parse_acc_options link args) as [o|]; [|apply total_ret].
  do 3 (apply total_if; [apply total_ret|]). apply total_bind.
  - pose proof (scenarios_total o) as H. induction H as [|m l Hm _ IH]; cbn [run_scenarios]; [apply total_ret|].
    apply total_bind; [done|]. intros r. apply total_bind; [done|]. intros rs. apply total_ret.
  - intros rs. apply total_bind; [apply total_child_stop|]. intros _. apply total_ret.
Qed.
End Ends.

(** ** A simulated peer

    The node logic with heartbeats, delayed answers and a restart, on a clock that moves by a
    microsecond when it is read. *)

Record Virtual := mkVirtual {
  vt_time : Z; vt_inbox : list CanFrame; vt_node : option CanNodeLogic; vt_next_heartbeat : Z; vt_restart : option Z;
  vt_delay : Z; vt_pending : list (Z * Z * WireOutputCommand); vt_log : string
}.

#[export] Instance Virtual_eta : Eta Virtual :=
  mkEta _ (fun v => mkVirtual (vt_time v) (vt_inbox v) (vt_node v) (vt_next_heartbeat v) (vt_restart v) (vt_delay v) (vt_pending v) (vt_log v)).

Section VirtualPeer.
(** A change to the node after each command, for nodes that are wrong. *)
Context (spoil : CanNodeLogic → CanNodeLogic).

Definition vt_reply (st : WireOutputStatus) (v : Virtual) : Virtual :=
  match encode_output_status st with Ok f => v <| vt_inbox ::= λ l, l ++ [f] |> | Err _ => v end.

Definition vt_answer (r : CanNodeLogic * HandleResult) (v : Virtual) : Virtual :=
  let '(n, h) := r in
  let v := v <| vt_node := Some (spoil n) |> in
  if hr_send_status h then vt_reply (hr_status h) v else v.

(** What is due at this time. *)
Definition vt_due (v : Virtual) : Virtual :=
  match vt_node v with
  | None => v
  | Some n =>
      let v := match vt_restart v with
               | Some t => if t <=? vt_time v then v <| vt_node := Some (soft_restart n) |> <| vt_restart := None |> else v
               | None => v
               end in
      let v := foldl (λ v '(due, received, c),
                 if due <=? vt_time v
                 then match vt_node v with Some n => vt_answer (apply_command c received (vt_time v) n) v | None => v end
                 else v <| vt_pending ::= λ l, l ++ [(due, received, c)] |>) (v <| vt_pending := [] |>) (vt_pending v) in
      match vt_node v with
      | Some n =>
          if vt_next_heartbeat v <=? vt_time v then
            let '(n, beat) := make_heartbeat n in
            let frames := match encode_heartbeat beat, encode_node_status (make_status n) with Ok a, Ok b => [a; b] | _, _ => [] end in
            v <| vt_node := Some n |> <| vt_next_heartbeat ::= λ t, t + 50000000 |> <| vt_inbox ::= λ l, l ++ frames |>
          else v
      | None => v
      end
  end.

(** Milliseconds pass, until a frame is there. *)
Fixpoint vt_pass (ms : nat) (until_frame : bool) (v : Virtual) : Virtual :=
  match ms with
  | O => v
  | S ms =>
      if until_frame && negb (bool_decide (vt_inbox v = [])) then v
      else vt_pass ms until_frame (vt_due (v <| vt_time ::= λ t, t + 1000000 |>))
  end.

Fixpoint arg_value (key : string) (args : list string) (default : Z) : Z :=
  match args with
  | k :: ((x :: _) as rest) =>
      if (k =? key)%string then match parse_i64 (str_bytes x) with Some v => v | None => default end else arg_value key rest default
  | _ => default
  end.

Definition virtual_peer : Peer Virtual := mkPeer
  (λ v, (vt_time v, v <| vt_time ::= λ t, t + 1000 |>))
  (λ ms v, let v := vt_pass (Z.to_nat ms) true v in
           match vt_inbox v with f :: l => (Some f, v <| vt_inbox := l |>) | [] => (None, v) end)
  (λ f v, match vt_node v with
          | None => (true, v)
          | Some n =>
              match decode_output_command f with
              | Ok c => if 0 <? vt_delay v then (true, v <| vt_pending ::= λ l, l ++ [(vt_time v + vt_delay v, vt_time v, c)] |>)
                        else (true, vt_answer (on_frame f (vt_time v) n) v)
              | Err _ => (true, vt_answer (on_frame f (vt_time v) n) v)
              end
          end)
  (λ ms v, vt_pass (Z.to_nat ms) false v)
  (λ args v, let session := arg_value "--session-id" args 1 in
             let restart := arg_value "--fault-restart-after-ms" args 0 in
             (true, v <| vt_node := Some (node_new (mkNodeConfig (arg_value "--node-id" args 1) (arg_value "--boot-id" args 1) session true 0 0)) |>
                      <| vt_next_heartbeat := vt_time v + 50000000 |>
                      <| vt_restart := if 0 <? restart then Some (vt_time v + restart * 1000000) else None |>
                      <| vt_delay := arg_value "--fault-delay-response-ms" args 0 * 1000000 |> <| vt_pending := [] |>))
  (λ _ v, v <| vt_log := match vt_node v with
                         | Some n => "rcr_node_sim: exit protocol_rejects=" +:+ pretty (nl_protocol_rejects n)
                         | None => vt_log v
                         end |> <| vt_node := None |>)
  (λ v, (true, v))
  (λ v, v)
  vt_log.

Definition virtual_start : AccState Virtual := mkAccState (mkVirtual 0 [] None 0 None 0 [] "") false [].

Definition verdicts : option (list bool) :=
  match run_scenarios (scenarios virtual_peer 400 default_acc_options) virtual_start with
  | Some (rs, _) => Some (map ar_passed rs)
  | None => None
  end.
End VirtualPeer.

(** The node logic passes. *)
Example node_passes : verdicts id = Some [true; true; true; true; true; true; true].
Proof. vm_compute. reflexivity. Qed.

(** Nodes that are wrong do not: one that holds its outputs beyond the lease, one that forgets
    the last sequence, one that does not count what it rejects. *)
Example holding_node_fails :
  verdicts (λ n, n <| nl_lease_deadline_ns := 2 ^ 62 |>) = Some [true; true; false; true; true; true; true].
Proof. vm_compute. reflexivity. Qed.

Example replaying_node_fails :
  verdicts (λ n, n <| nl_has_accepted_sequence := false |>) = Some [true; true; true; false; true; true; true].
Proof. vm_compute. reflexivity. Qed.

Example silent_rejects_fail :
  verdicts (λ n, n <| nl_protocol_rejects := 0 |>) = Some [true; true; true; true; true; true; false].
Proof. vm_compute. reflexivity. Qed.

Lemma virtual_exit :
  match acceptance_main (virtual_peer id) 400 None [] true true true virtual_start with Some (code, _) => code =? 0 | None => false end = true.
Proof. vm_compute. reflexivity. Qed.

Lemma acceptance_sound_witness :
  ∃ s', acceptance_main (virtual_peer id) 400 None [] true true true virtual_start = Some (0, s') ∧
    ∃ o, parse_acc_options None [] = Some o ∧ in_turn (full_evidence (virtual_peer id) o) virtual_start s'.
Proof.
  pose proof virtual_exit as Hv. destruct (acceptance_main _ _ _ _ _ _ _ _) as [[code s']|] eqn:Hr in Hv; [|done].
  apply Z.eqb_eq in Hv. exists s'. split; [rewrite Hr; by subst|].
  destruct (acceptance_sound (virtual_peer id) 400 None [] true true true virtual_start code s' eq_refl Hr) as [_ H].
  destruct (H Hv) as (_ & _ & _ & Ho). exact Ho.
Defined.
