(* ===== verification/Doubles.v ===== *)
(** * IEEE double precision

    The type [double] of the sources as the Standard Library specifies binary64: every
    operation rounds to nearest, ties to even, and no two operations are contracted.  The
    conversions and the text form with fifteen significant digits that the sources use. *)

From Stdlib Require Export SpecFloat.
From stdpp Require Import pretty.
From S2P Require Import Prelude.
Local Open Scope Z_scope.

Definition double : Type := spec_float.
Definition dprec : Z := 53.
Definition demax : Z := 1024.

Definition dadd : double → double → double := SFadd dprec demax.
Definition dsub : double → double → double := SFsub dprec demax.
Definition dmul : double → double → double := SFmul dprec demax.
Definition ddiv : double → double → double := SFdiv dprec demax.

(** Conversion of an integer, and a decimal literal [n / 10^k]. *)
Definition d_of_Z (n : Z) : double := binary_normalize dprec demax n 0 false.
Definition d_lit (n : Z) (k : Z) : double := ddiv (d_of_Z n) (d_of_Z (10 ^ k)).

Definition dzero : double := S754_zero false.
Definition d_one : double := d_of_Z 1.

Definition d_isfinite (x : double) : bool :=
  match x with S754_zero _ | S754_finite _ _ _ => true | _ => false end.

(** C++ [x < y], [x <= y], [x == y]: false when one of them is not a number. *)
Definition dlt : double → double → bool := SFltb.
Definition dle : double → double → bool := SFleb.
Definition deq : double → double → bool := SFeqb.
Definition dabs : double → double := SFabs.

(** [std::min(a, b)] is [b < a ? b : a]; [std::max(a, b)] is [a < b ? b : a]. *)
Definition dmin (a b : double) : double := if dlt b a then b else a.
Definition dmax (a b : double) : double := if dlt a b then b else a.

(** [std::clamp(v, lo, hi)] is [v < lo ? lo : hi < v ? hi : v]. *)
Definition dclamp (v lo hi : double) : double := if dlt v lo then lo else if dlt hi v then hi else v.

(** ** Rounding to integers *)

(** The value as a quotient, for finite numbers. *)
Definition d_quotient (x : double) : Z * Z :=
  match x with
  | S754_finite s m e =>
      let m := if s then - Z.pos m else Z.pos m in
      if 0 <=? e then (m * 2 ^ e, 1) else (m, 2 ^ (- e))
  | _ => (0, 1)
  end.

Definition d_floor (x : double) : Z := let '(n, d) := d_quotient x in n / d.
Definition d_ceil (x : double) : Z := let '(n, d) := d_quotient x in - ((- n) / d).

(** [std::llround]: half away from zero. *)
Definition d_round (x : double) : Z :=
  let '(n, d) := d_quotient x in
  if 0 <=? n then (2 * n + d) / (2 * d) else - ((2 * (- n) + d) / (2 * d)).

(** ** Text

    [std::setprecision(15)] and the default format: fifteen significant digits without
    trailing zeros, in scientific form below [1e-4] and from [1e15] on. *)

Definition round_half_even (n d : Z) : Z :=
  let q := n / d in
  let r := 2 * (n mod d) in
  if r <? d then q else if d <? r then q + 1 else if Z.even q then q else q + 1.

(** [n / d < 10^x], and [n / d] times [10^x]. *)
Definition below_power (n d x : Z) : bool := if 0 <=? x then n <? d * 10 ^ x else n * 10 ^ (- x) <? d.
Definition times_power (n d x : Z) : Z * Z := if 0 <=? x then (n * 10 ^ x, d) else (n, d * 10 ^ (- x)).

(** The decimal exponent: an estimate from the binary one, corrected by comparison. *)
Definition decimal_exponent (n d : Z) : Z :=
  let x := (Z.log2 n - Z.log2 d) * 30103 / 100000 in
  let x := if below_power n d x then x - 1 else x in
  let x := if below_power n d x then x - 1 else x in
  let x := if below_power n d (x + 1) then x else x + 1 in
  if below_power n d (x + 1) then x else x + 1.

(** The fifteen digits and the exponent of the first. *)
Definition digits15 (n d : Z) : Z * Z :=
  let x := decimal_exponent n d in
  let '(n, d) := times_power n d (14 - x) in
  let q := round_half_even n d in
  if 10 ^ 15 <=? q then (10 ^ 14, x + 1) else (q, x).

Fixpoint strip_zeros (fuel : nat) (q : Z) (k : Z) : Z * Z :=
  match fuel with
  | O => (q, k)
  | S fuel => if (q mod 10 =? 0) && (0 <? k) then strip_zeros fuel (q / 10) (k - 1) else (q, k)
  end.

(** [k] digits of [q], with leading zeros. *)
Fixpoint padded_digits (k : nat) (q : Z) : string :=
  match k with
  | O => ""
  | S k => padded_digits k (q / 10) +:+ pretty (q mod 10)
  end.

Definition with_fraction (whole : string) (k q : Z) : string :=
  if k =? 0 then whole else whole +:+ "." +:+ padded_digits (Z.to_nat k) q.

(** [q * 10^-k], without an exponent. *)
Definition show_fixed (q k : Z) : string := with_fraction (pretty (q / 10 ^ k)) k (q mod 10 ^ k).

Definition show_exponent (x : Z) : string :=
  "e" +:+ (if x <? 0 then "-" else "+") +:+ (if Z.abs x <? 10 then "0" else "") +:+ pretty (Z.abs x).

Definition show_positive (n d : Z) : string :=
  let '(q, x) := digits15 n d in
  if (x <? -4) || (15 <=? x) then
    let '(q, k) := strip_zeros 15 q 14 in show_fixed q k +:+ show_exponent x
  else
    let '(q, k) := strip_zeros 20 q (14 - x) in show_fixed q k.

(** Finite numbers only; the sources write nothing else. *)
Definition show_double (x : double) : string :=
  let '(n, d) := d_quotient x in
  let negative := match x with S754_zero s | S754_finite s _ _ => s | _ => false end in
  (if negative then "-" else "") +:+ (if n =? 0 then "0" else show_positive (Z.abs n) d).

Example show_counts : map show_double [d_of_Z 0; d_of_Z 42; d_of_Z (-1); d_of_Z 1000000; d_of_Z (10 ^ 15); d_of_Z 123456789012345678] =
  ["0"; "42"; "-1"; "1000000"; "1e+15"; "1.23456789012346e+17"].
Proof. vm_compute. reflexivity. Qed.

Example show_fractions : map show_double [d_lit 25 2; ddiv d_one (d_of_Z 3); d_lit 1 1; d_lit 123456 9; d_lit 5 5; d_lit (-28) 1; S754_finite false 1 (-1074)] =
  ["0.25"; "0.333333333333333"; "0.1"; "0.000123456"; "5e-05"; "-2.8"; "4.94065645841247e-324"].
Proof. vm_compute. reflexivity. Qed.

(** ** Order *)

Lemma dlt_irrefl x : dlt x x = false.
Proof.
  unfold dlt, SFltb. destruct x as [s|s| |[] m e]; cbn; try done; try (by destruct s);
    rewrite Z.compare_refl; change (Pos.compare_cont Eq m m) with (m ?= m)%positive; by rewrite Pos.compare_refl.
Qed.

(** A bounded value is not beyond its bound. *)
Lemma dmin_bound a b : dlt b (dmin a b) = false.
Proof. unfold dmin. destruct (dlt b a) eqn:H; [apply dlt_irrefl|done]. Qed.

Lemma dmax_bound a b : dlt (dmax a b) b = false.
Proof. unfold dmax. destruct (dlt a b) eqn:H; [apply dlt_irrefl|done]. Qed.

Lemma dlt_asym x y : dlt x y = true → dlt y x = false.
Proof.
  unfold dlt, SFltb. destruct x as [sx|sx| |sx mx ex], y as [sy|sy| |sy my ey]; cbn; try done;
    try (by destruct sx); try (by destruct sy); try (by destruct sx, sy).
  destruct sx, sy; try done.
  all: rewrite (Z.compare_antisym ex ey); destruct (ex ?= ey)%Z; cbn; try done.
  all: change (Pos.compare_cont Eq mx my) with (mx ?= my)%positive; change (Pos.compare_cont Eq my mx) with (my ?= mx)%positive;
    rewrite (Pos.compare_antisym mx my); by destruct (mx ?= my)%positive.
Qed.
