(* ===== verification/Rounding.v ===== *)
(** * Rounding bounds

    What the Standard Library's specification of binary floating point keeps of an
    inequality: a result never passes a representable bound of the exact value.  The bound
    is [mb * 2 ^ eb]; everything is stated on integers, in units of a smaller power of two. *)

From S2P Require Import Prelude Doubles.
Local Open Scope Z_scope.

Lemma digits2_log2 p : Z.pos (digits2_pos p) = Z.log2 (Z.pos p) + 1.
Proof.
  induction p as [p IH|p IH|]; [| |done]; cbn [digits2_pos]; rewrite Pos2Z.inj_succ, IH.
  - change (Z.pos p~1) with (2 * Z.pos p + 1). rewrite Z.log2_succ_double by lia. lia.
  - change (Z.pos p~0) with (2 * Z.pos p). rewrite Z.log2_double by lia. lia.
Qed.

Lemma Zdigits2_le m k : 0 ≤ m < 2 ^ k → 0 ≤ k → Zdigits2 m ≤ k.
Proof.
  intros Hm Hk. destruct m as [|p|p]; cbn; [lia| |lia]. rewrite digits2_log2.
  assert (Z.log2 (Z.pos p) < k); [|lia]. apply Z.log2_lt_pow2; lia.
Qed.

Section Rounding.
Context (prec emax : Z) (Hprec : 0 < prec) (Hemax : prec < emax).

(** Mantissa plus one when bits were lost: a bound of the exact value. *)
Definition up (x : shr_record) : Z := shr_m x + Z.b2z (shr_r x || shr_s x).

Lemma shr_1_up x n : 0 ≤ shr_m x → up x ≤ 2 * n → 0 ≤ shr_m (shr_1 x) ∧ up (shr_1 x) ≤ n.
Proof.
  destruct x as [m r s]. unfold up. cbn [shr_m shr_r shr_s]. intros Hm Hu.
  destruct m as [|[p|p|]|]; cbn [shr_1 shr_m shr_r shr_s]; destruct r, s; cbn in *; lia.
Qed.

Lemma iter_shr_up p : ∀ x n, 0 ≤ shr_m x → up x ≤ 2 ^ Z.pos p * n →
  0 ≤ shr_m (iter_pos shr_1 p x) ∧ up (iter_pos shr_1 p x) ≤ n.
Proof.
  induction p as [p IH|p IH|]; intros x n Hm Hu; cbn [iter_pos].
  - change (Z.pos p~1) with (2 * Z.pos p + 1) in Hu.
    replace (2 ^ (2 * Z.pos p + 1) * n) with (2 * (2 ^ Z.pos p * (2 ^ Z.pos p * n))) in Hu
      by (rewrite <- (Z.add_diag (Z.pos p)), !Z.pow_add_r by lia; change (2 ^ 1) with 2; ring).
    destruct (shr_1_up x _ Hm Hu) as [H1 H2]. destruct (IH _ _ H1 H2) as [H3 H4]. by apply IH.
  - change (Z.pos p~0) with (2 * Z.pos p) in Hu.
    replace (2 ^ (2 * Z.pos p) * n) with (2 ^ Z.pos p * (2 ^ Z.pos p * n)) in Hu
      by (rewrite <- Z.add_diag, Z.pow_add_r by lia; ring).
    destruct (IH _ _ Hm Hu) as [H1 H2]. by apply IH.
  - apply shr_1_up; [done|]. exact Hu.
Qed.

Lemma round_up x : 0 ≤ shr_m x → 0 ≤ round_nearest_even (shr_m x) (loc_of_shr_record x) ≤ up x.
Proof. destruct x as [m [] []]; unfold up; cbn; intros; repeat case_match; lia. Qed.

Definition lost (l : location) : Z := match l with loc_Exact => 0 | loc_Inexact _ => 1 end.

Lemma record_up m l : shr_m (shr_record_of_loc m l) = m ∧ up (shr_record_of_loc m l) = m + lost l.
Proof. destruct l as [|[]]; by split. Qed.

(** ** One rounding *)

Section Bound.
Context (mb eb : Z) (Hmb : 0 < mb < 2 ^ prec) (Heb : emin prec emax ≤ eb ≤ emax - prec).

Lemma shr_fexp_below m e l :
  0 ≤ m → e ≤ eb → m + lost l ≤ mb * 2 ^ (eb - e) →
  let '(x, e') := shr_fexp prec emax m e l in
  0 ≤ shr_m x ∧ e ≤ e' ≤ eb ∧ up x ≤ mb * 2 ^ (eb - e').
Proof.
  intros Hm He Hu. unfold shr_fexp. destruct (record_up m l) as [H1 H2].
  set (x := shr_record_of_loc m l) in *. rewrite <- H1 in Hm. rewrite <- H2 in Hu.
  assert (Hf : fexp prec emax (Zdigits2 m + e) ≤ eb).
  { unfold fexp. assert (Zdigits2 m ≤ prec + (eb - e)); [|lia]. apply Zdigits2_le; [|lia].
    rewrite H1 in Hm. rewrite Z.pow_add_r by lia. assert (0 ≤ lost l) by (destruct l; cbn; lia). nia. }
  unfold shr. destruct (fexp prec emax (Zdigits2 m + e) - e) as [|p|p] eqn:Hn; [split_and!; try done; lia| |split_and!; try done; lia].
  destruct (iter_shr_up p x (mb * 2 ^ (eb - (e + Z.pos p))) Hm) as [H3 H4].
  { replace (eb - e) with (Z.pos p + (eb - (e + Z.pos p))) in Hu by lia. rewrite Z.pow_add_r in Hu by lia. lia. }
  split_and!; try done; lia.
Qed.

(** At most the bound in magnitude. *)
Definition bounded_by (mb eb : Z) (x : spec_float) : Prop :=
  match x with
  | S754_zero _ => True
  | S754_finite _ m e => e ≤ eb ∧ Z.pos m ≤ mb * 2 ^ (eb - e)
  | _ => False
  end.

Definition nonneg (x : spec_float) : Prop := match x with S754_finite s _ _ => s = false | _ => True end.

(** A rounded result stays below the bound. *)
Lemma round_aux_below s m e l :
  0 ≤ m → e ≤ eb → m + lost l ≤ mb * 2 ^ (eb - e) →
  bounded_by mb eb (binary_round_aux prec emax s m e l) ∧ (s = false → nonneg (binary_round_aux prec emax s m e l)).
Proof.
  intros Hm He Hu. unfold binary_round_aux. pose proof (shr_fexp_below m e l Hm He Hu) as H1.
  destruct (shr_fexp prec emax m e l) as [x e1]. destruct H1 as (Hx & He1 & Hux). pose proof (round_up x Hx) as Hr.
  pose proof (shr_fexp_below (round_nearest_even (shr_m x) (loc_of_shr_record x)) e1 loc_Exact) as H2.
  destruct (shr_fexp prec emax _ e1 loc_Exact) as [y e2]. destruct H2 as (Hy & He2 & Huy); [lia|lia|cbn; lia|].
  unfold up in Huy. destruct (shr_m y) as [|m'|] eqn:Hy'; [done| |lia].
  rewrite (proj2 (Z.leb_le _ _)) by lia. split; [|done]. split; [lia|]. destruct (_ || _); cbn in Huy; lia.
Qed.

Lemma shl_align_spec m e f :
  let '(mz, ez) := shl_align m e f in ez ≤ e ∧ Z.pos mz = Z.pos m * 2 ^ (e - ez).
Proof.
  unfold shl_align. destruct (f - e) as [|d|d] eqn:Hd; [split; [lia|]; rewrite Z.sub_diag; lia..|].
  split; [lia|].
  replace (e - f) with (Z.pos d) by lia. clear.
  induction d as [|d IH] using Pos.peano_ind; [cbn; lia|].
  rewrite Pos.iter_succ, Pos2Z.inj_succ, Z.pow_succ_r by lia. change (Z.pos (Pos.iter xO m d)~0) with (2 * Z.pos (Pos.iter xO m d)). lia.
Qed.

Lemma binary_round_below s m e :
  e ≤ eb → Z.pos m ≤ mb * 2 ^ (eb - e) →
  bounded_by mb eb (binary_round prec emax s m e) ∧ (s = false → nonneg (binary_round prec emax s m e)).
Proof.
  intros He Hm. unfold binary_round. pose proof (shl_align_spec m e (fexp prec emax (Z.pos (digits2_pos m) + e))) as Hs.
  destruct (shl_align _ _ _) as [mz ez]. destruct Hs as [Hez Hmz]. apply round_aux_below; [lia..|]. cbn.
  replace (eb - ez) with ((eb - e) + (e - ez)) by lia. rewrite Z.pow_add_r by lia.
  assert (0 < 2 ^ (e - ez)) by lia. nia.
Qed.

Lemma normalize_below m e :
  e ≤ eb → Z.abs m ≤ mb * 2 ^ (eb - e) →
  bounded_by mb eb (binary_normalize prec emax m e false) ∧ (0 ≤ m → nonneg (binary_normalize prec emax m e false)).
Proof.
  intros He Hm. destruct m as [|m|m]; cbn [binary_normalize]; [by split| |].
  - destruct (binary_round_below false m e He) as [? Hn]; [lia|]. split; [done|]. intros _. by apply Hn.
  - destruct (binary_round_below true m e He) as [? _]; [lia|]. split; [done|lia].
Qed.
End Bound.

(** ** Sums, products and quotients *)

(** Values in units of [2 ^ u], [u] at most the exponent. *)
Definition scaled (u : Z) (x : spec_float) : Z :=
  match x with S754_finite s m e => cond_Zopp s (Z.pos m) * 2 ^ (e - u) | _ => 0 end.

Definition exponent_in (u eb : Z) (x : spec_float) : Prop :=
  match x with S754_zero _ => True | S754_finite _ _ e => u ≤ e ≤ eb | _ => False end.

Lemma scale_le a b p q u v :
  u ≤ p → u ≤ q → v ≤ p → v ≤ q → a * 2 ^ (p - u) ≤ b * 2 ^ (q - u) → a * 2 ^ (p - v) ≤ b * 2 ^ (q - v).
Proof.
  intros ???? H. destruct (Z_le_gt_dec v u).
  - replace (p - v) with ((p - u) + (u - v)) by lia. replace (q - v) with ((q - u) + (u - v)) by lia.
    rewrite !Z.pow_add_r by lia. assert (0 < 2 ^ (u - v)) by lia. nia.
  - replace (p - u) with ((p - v) + (v - u)) in H by lia. replace (q - u) with ((q - v) + (v - u)) in H by lia.
    rewrite !Z.pow_add_r in H by lia. assert (0 < 2 ^ (v - u)) by lia. nia.
Qed.

Lemma SFsub_add x y : SFsub prec emax x y = SFadd prec emax x (SFopp y).
Proof.
  destruct x as [[]|[]| |[] mx ex], y as [[]|[]| |[] my ey]; try done; cbn; try rewrite Z.sub_opp_r; done.
Qed.

Section Operations.
Context (mb eb : Z) (Hmb : 0 < mb < 2 ^ prec) (Heb : emin prec emax ≤ eb ≤ emax - prec).

Lemma finite_below s m e u :
  u ≤ e ≤ eb → Z.abs (scaled u (S754_finite s m e)) ≤ mb * 2 ^ (eb - u) →
  bounded_by mb eb (S754_finite s m e) ∧ (0 ≤ scaled u (S754_finite s m e) → nonneg (S754_finite s m e)).
Proof.
  intros He H. assert (0 < 2 ^ (e - u)) by lia. cbn in *. split; [split; [lia|]|].
  - replace (Z.pos m) with (Z.pos m * 2 ^ (e - e)) by (rewrite Z.sub_diag; lia).
    apply (scale_le _ _ e eb u); [lia..|]. destruct s; cbn in H; nia.
  - destruct s; [|done]. cbn. nia.
Qed.

Lemma shl_align_scaled s m e z : z ≤ e → cond_Zopp s (Z.pos (fst (shl_align m e z))) = scaled z (S754_finite s m e).
Proof.
  intros Hz. pose proof (shl_align_spec m e z) as H. unfold shl_align in *.
  destruct (z - e) as [|d|d] eqn:Hd; cbn [fst scaled] in *; [replace (e - z) with 0 by lia; destruct s; cbn; lia|lia|].
  destruct H as [_ ->]. destruct s; cbn [cond_Zopp]; lia.
Qed.

Lemma SFadd_below x y u :
  u ≤ eb → exponent_in u eb x → exponent_in u eb y → Z.abs (scaled u x + scaled u y) ≤ mb * 2 ^ (eb - u) →
  bounded_by mb eb (SFadd prec emax x y) ∧ (0 ≤ scaled u x + scaled u y → nonneg (SFadd prec emax x y)).
Proof.
  intros Hu Hx Hy Hs. destruct x as [sx|?| |sx mx ex], y as [sy|?| |sy my ey]; try done.
  - cbn. by destruct sx, sy.
  - change (scaled u (S754_zero sx)) with 0 in Hs. rewrite Z.add_0_l in Hs. apply finite_below in Hs; [|done]. exact Hs.
  - change (scaled u (S754_zero sy)) with 0 in Hs |- *. rewrite Z.add_0_r in Hs |- *. apply finite_below in Hs; [|done]. exact Hs.
  - unfold exponent_in in *. set (z := Z.min ex ey). unfold SFadd. fold z. rewrite !shl_align_scaled by lia.
    assert (Hz : scaled u (S754_finite sx mx ex) + scaled u (S754_finite sy my ey) =
      (scaled z (S754_finite sx mx ex) + scaled z (S754_finite sy my ey)) * 2 ^ (z - u)).
    { cbn [scaled]. replace (ex - u) with ((ex - z) + (z - u)) by lia. replace (ey - u) with ((ey - z) + (z - u)) by lia.
      rewrite !Z.pow_add_r by lia. ring. }
    rewrite Hz in Hs |- *. assert (0 < 2 ^ (z - u)) by lia. set (v := scaled z _ + scaled z _) in *.
    destruct (normalize_below mb eb Hmb Heb v z) as [H1 H2]; [lia| |].
    + replace (Z.abs v) with (Z.abs v * 2 ^ (z - z)) by (rewrite Z.sub_diag; lia). apply (scale_le _ _ z eb u); lia || nia.
    + split; [done|]. intros. apply H2. nia.
Qed.

Lemma scaled_opp u x : scaled u (SFopp x) = - scaled u x.
Proof. destruct x as [|?| |[] m e]; cbn; lia. Qed.

Lemma SFsub_below x y u :
  u ≤ eb → exponent_in u eb x → exponent_in u eb y → Z.abs (scaled u x - scaled u y) ≤ mb * 2 ^ (eb - u) →
  bounded_by mb eb (SFsub prec emax x y) ∧ (0 ≤ scaled u x - scaled u y → nonneg (SFsub prec emax x y)).
Proof.
  intros Hu Hx Hy Hs. rewrite SFsub_add. rewrite <- Z.add_opp_r, <- scaled_opp in Hs |- *. apply SFadd_below; try done. by destruct y.
Qed.

Lemma SFmul_below x y ea :
  bounded_by 1 ea x → bounded_by mb (eb - ea) y →
  bounded_by mb eb (SFmul prec emax x y) ∧ (nonneg x → nonneg y → nonneg (SFmul prec emax x y)).
Proof.
  intros Hx Hy. destruct x as [sx|?| |sx mx ex], y as [sy|?| |sy my ey]; try done. destruct Hx as [Hx Hmx], Hy as [Hy Hmy].
  cbn [SFmul]. destruct (round_aux_below mb eb Hmb Heb (xorb sx sy) (Z.pos (mx * my)) (ex + ey) loc_Exact) as [H1 H2]; [lia..| |].
  - cbn [lost]. rewrite Pos2Z.inj_mul. replace (eb - (ex + ey)) with ((ea - ex) + (eb - ea - ey)) by lia.
    rewrite Z.pow_add_r by lia. nia.
  - split; [done|]. cbn. intros -> ->. by apply H2.
Qed.

Lemma SFdiv_below s m e my ey :
  Z.min (fexp prec emax (Zdigits2 (Z.pos m) + e - (Zdigits2 (Z.pos my) + ey))) (e - ey) ≤ eb →
  (∃ u, u ≤ e ∧ u ≤ eb + ey ∧ Z.pos m * 2 ^ (e - u) ≤ mb * Z.pos my * 2 ^ (eb + ey - u)) →
  bounded_by mb eb (SFdiv prec emax (S754_finite s m e) (S754_finite false my ey)) ∧
  (s = false → nonneg (SFdiv prec emax (S754_finite s m e) (S754_finite false my ey))).
Proof.
  intros He' (u & Hue & Hub & H). cbn [SFdiv]. unfold SFdiv_core_binary. set (e' := Z.min _ _) in *.
  set (m' := match e - ey - e' with Z0 => _ | Zpos _ => _ | Zneg _ => _ end).
  assert (Hm : m' = Z.pos m * 2 ^ (e - ey - e')).
  { unfold m'. destruct (e - ey - e') eqn:Hd; [cbn; lia|by rewrite Z.shiftl_mul_pow2 by lia|lia]. }
  pose proof (Z_div_mod m' (Z.pos my) ltac:(lia)) as Hq. destruct (Z.div_eucl m' (Z.pos my)) as [q r].
  destruct Hq as [Hq Hr]. rewrite xorb_false_r.
  apply (scale_le _ _ _ _ _ (ey + e')) in H; [|lia..].
  replace (e - (ey + e')) with (e - ey - e') in H by lia. replace (eb + ey - (ey + e')) with (eb - e') in H by lia.
  assert (lost (new_location (Z.pos my) r) = if r =? 0 then 0 else 1) as Hl.
  { unfold new_location, new_location_even, new_location_odd. by destruct (Z.even _), (r =? 0). }
  apply round_aux_below; [done|done|nia|lia|]. rewrite Hl. destruct (Z.eqb_spec r 0); nia.
Qed.
End Operations.

(** ** Exact results *)

Lemma iter_shr_exact p : ∀ m, 0 ≤ m →
  iter_pos shr_1 p (Build_shr_record (m * 2 ^ Z.pos p) false false) = Build_shr_record m false false.
Proof.
  assert (H1 : ∀ m, 0 ≤ m → shr_1 (Build_shr_record (2 * m) false false) = Build_shr_record m false false) by (by intros []).
  induction p as [p IH|p IH|]; intros m Hm; cbn [iter_pos].
  - change (Z.pos p~1) with (2 * Z.pos p + 1).
    replace (m * 2 ^ (2 * Z.pos p + 1)) with (2 * ((m * 2 ^ Z.pos p) * 2 ^ Z.pos p))
      by (rewrite <- (Z.add_diag (Z.pos p)), !Z.pow_add_r by lia; change (2 ^ 1) with 2; ring).
    by rewrite H1, !IH by nia.
  - change (Z.pos p~0) with (2 * Z.pos p).
    replace (m * 2 ^ (2 * Z.pos p)) with ((m * 2 ^ Z.pos p) * 2 ^ Z.pos p)
      by (rewrite <- (Z.add_diag (Z.pos p)), Z.pow_add_r by lia; ring).
    by rewrite !IH by nia.
  - replace (m * 2 ^ 1) with (2 * m) by (change (2 ^ 1) with 2; ring). by apply H1.
Qed.

Lemma Zdigits2_shift p j : 0 ≤ j → Zdigits2 (Z.pos p * 2 ^ j) = Zdigits2 (Z.pos p) + j.
Proof.
  intros Hj. assert (H : ∀ q, Zdigits2 (Z.pos q) = Z.log2 (Z.pos q) + 1) by exact digits2_log2.
  destruct (Z.pos p * 2 ^ j) as [|q|q] eqn:Hq; [lia| |lia].
  rewrite !H, <- Hq, <- Z.shiftl_mul_pow2, Z.log2_shiftl by lia. lia.
Qed.

(** A full mantissa with zeros behind it loses nothing. *)
Lemma round_aux_exact s m e j :
  0 ≤ j → Zdigits2 (Z.pos m) = prec → emin prec emax ≤ e ≤ emax - prec →
  binary_round_aux prec emax s (Z.pos m * 2 ^ j) (e - j) loc_Exact = S754_finite s m e.
Proof.
  intros Hj Hd He. unfold binary_round_aux.
  assert (H0 : shr_fexp prec emax (Z.pos m) e loc_Exact = (Build_shr_record (Z.pos m) false false, e)).
  { unfold shr_fexp, fexp. rewrite Hd. replace (Z.max _ _ - e) with 0 by lia. done. }
  assert (H : shr_fexp prec emax (Z.pos m * 2 ^ j) (e - j) loc_Exact = (Build_shr_record (Z.pos m) false false, e)).
  { unfold shr_fexp, fexp. rewrite Zdigits2_shift, Hd by done. replace (Z.max _ _ - _) with j by lia.
    destruct j as [|p|]; [|cbn [shr shr_record_of_loc]; rewrite iter_shr_exact by done; by rewrite Z.sub_add|lia].
    cbn [shr shr_record_of_loc]. f_equal; [|lia]. f_equal. lia. }
  rewrite H. cbn [shr_m loc_of_shr_record round_nearest_even]. rewrite H0. cbn [shr_m].
  by rewrite (proj2 (Z.leb_le _ _)) by lia.
Qed.

(** An integer that fits the mantissa is converted exactly. *)
Lemma of_Z_exact n :
  0 < n < 2 ^ prec →
  ∃ k m, 0 ≤ k < prec ∧ binary_normalize prec emax n 0 false = S754_finite false m (- k) ∧
         Z.pos m = n * 2 ^ k ∧ Zdigits2 (Z.pos m) = prec.
Proof.
  intros Hn. destruct n as [|p|]; [lia| |lia]. cbn [binary_normalize]. unfold binary_round.
  assert (Hd : 1 ≤ Zdigits2 (Z.pos p) ≤ prec) by (split; [cbn; lia|apply Zdigits2_le; lia]).
  unfold fexp. change (Z.pos (digits2_pos p)) with (Zdigits2 (Z.pos p)).
  pose proof (shl_align_spec p 0 (Z.max (Zdigits2 (Z.pos p) + 0 - prec) (emin prec emax))) as Hs.
  unfold emin in *. unfold shl_align in *. set (k := prec - Zdigits2 (Z.pos p)).
  replace (Z.max _ _ - 0) with (- k) in * by lia.
  destruct k as [|d|d] eqn:Hk; [|cbn [Z.opp] in *|lia].
  - exists 0, p. split_and!; [lia..| |lia|lia]. cbn [Z.opp].
    pose proof (round_aux_exact false p 0 0) as H. rewrite Z.mul_1_r in H. apply H; unfold emin; lia.
  - destruct Hs as [Hs1 Hs2]. exists (Z.pos d), (Pos.iter xO p d). replace (Z.max _ _) with (- Z.pos d) in * by lia.
    split_and!; [lia..| |rewrite Hs2; f_equal; f_equal; lia|].
    + pose proof (round_aux_exact false (Pos.iter xO p d) (- Z.pos d) 0) as H. rewrite Z.mul_1_r, Z.sub_0_r in H.
      apply H; [lia| |unfold emin; lia]. rewrite Hs2, Zdigits2_shift by lia. lia.
    + rewrite Hs2, Zdigits2_shift by lia. lia.
Qed.
End Rounding.
