(* ===== verification/Stats.v ===== *)
(** * Lateness percentiles

    core/stats.cpp: percentiles by linear interpolation, and the summary of a series of
    lateness samples.  A read outside the sorted copy and a conversion to an integer type
    that cannot hold the value are undefined in the source and [None] here. *)

From stdpp Require Import sorting.
From S2P Require Import Prelude Types Doubles Rounding.
Local Open Scope Z_scope.

(** ** Definitions *)

(** The format of [long double]: 64 digits on x86-64, 113 on aarch64. *)
Record FloatFormat := mkFloatFormat { ff_prec : Z; ff_emax : Z }.
Definition x87_extended : FloatFormat := mkFloatFormat 64 16384.
Definition binary128 : FloatFormat := mkFloatFormat 113 16384.

Record PercentileSummary := mkPercentileSummary {
  pc_count : Z; pc_min_ns : Z; pc_max_ns : Z; pc_mean_ns : Z;
  pc_p50_ns : Z; pc_p95_ns : Z; pc_p99_ns : Z; pc_p99_9_ns : Z
}.

(** [static_cast<std::size_t>] of a whole number, [std::llround]. *)
Definition to_size (v : Z) : option nat := if (0 <=? v) && (v <? 2 ^ 64) then Some (Z.to_nat v) else None.

Definition llround (x : spec_float) : option Z :=
  if d_isfinite x && (- 2 ^ 63 <=? d_round x) && (d_round x <? 2 ^ 63) then Some (d_round x) else None.

Definition percentile_ns (samples : list Z) (percentile : double) : option (Result Z) :=
  match samples with
  | [] => Some (fail_with Errc.InvalidArgument "percentile requires at least one sample")
  | _ =>
      if negb (dle dzero percentile) || dlt (d_of_Z 100) percentile || negb (d_isfinite percentile) then
        Some (fail_with Errc.InvalidArgument "percentile must be in [0, 100]")
      else
        let sorted := merge_sort Z.le samples in
        match sorted with
        | [only] => Some (Ok only)
        | _ =>
            let index := dmul (ddiv percentile (d_of_Z 100)) (d_of_Z (Z.of_nat (length sorted) - 1)) in
            lo ← to_size (d_floor index);
            hi ← to_size (d_ceil index);
            if (lo =? hi)%nat then
              at_lo ← sorted !! lo; Some (Ok at_lo)
            else
              at_lo ← sorted !! lo;
              at_hi ← sorted !! hi;
              let frac := dsub index (d_of_Z (Z.of_nat lo)) in
              let mixed := dadd (dmul (d_of_Z at_lo) (dsub d_one frac)) (dmul (d_of_Z at_hi) frac) in
              v ← llround mixed; Some (Ok v)
        end
  end.

(** [std::min_element] and [std::max_element], read. *)
Definition min_element (x : Z) (l : list Z) : Z := fold_left (λ smallest v, if v <? smallest then v else smallest) l x.
Definition max_element (x : Z) (l : list Z) : Z := fold_left (λ largest v, if largest <? v then v else largest) l x.

Definition accumulate (f : FloatFormat) (samples : list Z) : spec_float :=
  fold_left (λ acc v, SFadd (ff_prec f) (ff_emax f) acc (binary_normalize (ff_prec f) (ff_emax f) v 0 false))
    samples (S754_zero false).

Definition mean_ns (f : FloatFormat) (samples : list Z) : option Z :=
  llround (SFdiv (ff_prec f) (ff_emax f) (accumulate f samples)
    (binary_normalize (ff_prec f) (ff_emax f) (Z.of_nat (length samples)) 0 false)).

Definition summarize_lateness_ns (f : FloatFormat) (samples : list Z) : option (Result PercentileSummary) :=
  match samples with
  | [] => Some (fail_with Errc.InvalidArgument "summary requires at least one sample")
  | x :: rest =>
      mean ← mean_ns f samples;
      let assign p (k : Z → option (Result PercentileSummary)) :=
        r ← percentile_ns samples p; match r with Ok v => k v | Err e => Some (Err e) end in
      assign (d_of_Z 50) (λ p50,
      assign (d_of_Z 95) (λ p95,
      assign (d_of_Z 99) (λ p99,
      assign (d_lit 999 1) (λ p99_9,
      Some (Ok (mkPercentileSummary (Z.of_nat (length samples)) (min_element x rest) (max_element x rest) mean
                  p50 p95 p99 p99_9))))))
  end.

Example percentiles_of_five :
  map (percentile_ns [40; 10; 30; 20; 50]) [d_of_Z 0; d_of_Z 25; d_of_Z 50; d_of_Z 99; d_of_Z 100; d_of_Z 101; d_of_Z (-1)] =
  [Some (Ok 10); Some (Ok 20); Some (Ok 30); Some (Ok 50); Some (Ok 50);
   Some (fail_with Errc.InvalidArgument "percentile must be in [0, 100]");
   Some (fail_with Errc.InvalidArgument "percentile must be in [0, 100]")].
Proof. vm_compute. reflexivity. Qed.

Example summary_of_five : map (λ f, summarize_lateness_ns f [40; 10; 30; 20; 50]) [x87_extended; binary128] =
  [Some (Ok (mkPercentileSummary 5 10 50 30 30 48 50 50)); Some (Ok (mkPercentileSummary 5 10 50 30 30 48 50 50))].
Proof. vm_compute. reflexivity. Qed.

(** ** Whole numbers around a double *)

Lemma quotient_scaled x u :
  exponent_in u 0 x → u ≤ 0 → ∃ d, 0 < d ∧ snd (d_quotient x) = d ∧ scaled u x * d = fst (d_quotient x) * 2 ^ (- u).
Proof.
  destruct x as [s|?| |s m e]; try done; cbn; intros; [by exists 1|].
  destruct (Z.leb_spec 0 e).
  - assert (e = 0) as -> by lia. exists 1. replace (0 - u) with (- u) by lia.
    change (2 ^ 0) with 1. destruct s; cbn [cond_Zopp fst snd]; split_and!; lia.
  - exists (2 ^ (- e)). cbn [fst snd]. split_and!; [lia|done|]. rewrite <- Z.mul_assoc, <- Z.pow_add_r by lia.
    replace (e - u + - e) with (- u) by lia. by destruct s.
Qed.

Lemma floor_scaled x u : exponent_in u 0 x → u ≤ 0 → d_floor x * 2 ^ (- u) ≤ scaled u x < (d_floor x + 1) * 2 ^ (- u).
Proof.
  intros Hx Hu. destruct (quotient_scaled x u Hx Hu) as (d & Hd & Hs & He). unfold d_floor.
  destruct (d_quotient x) as [n d']. cbn [fst snd] in *. subst d'. assert (0 < 2 ^ (- u)) by lia.
  pose proof (Z.div_mod n d ltac:(lia)). pose proof (Z.mod_pos_bound n d Hd). set (q := n / d) in *. split; nia.
Qed.

Lemma ceil_le x u n : exponent_in u 0 x → u ≤ 0 → scaled u x ≤ n * 2 ^ (- u) → d_ceil x ≤ n.
Proof.
  intros Hx Hu H. destruct (quotient_scaled x u Hx Hu) as (d & Hd & Hs & He). unfold d_ceil.
  destruct (d_quotient x) as [m d']. cbn [fst snd] in *. subst d'. assert (0 < 2 ^ (- u)) by lia.
  assert (- n ≤ (- m) / d); [|lia]. apply Z.div_le_lower_bound; nia.
Qed.

Lemma floor_ceil x : d_floor x ≤ d_ceil x ≤ d_floor x + 1.
Proof.
  unfold d_floor, d_ceil. destruct (d_quotient x) as [n d] eqn:Hq.
  assert (0 < d) by (destruct x as [| | |? ? e]; cbn in Hq; repeat case_match; simplify_eq; lia).
  pose proof (Z.div_mod n d ltac:(lia)). pose proof (Z.mod_pos_bound n d ltac:(lia)).
  pose proof (Z.div_mod (- n) d ltac:(lia)). pose proof (Z.mod_pos_bound (- n) d ltac:(lia)). nia.
Qed.

Lemma llround_some x k : 0 ≤ k ≤ 62 → bounded_by 1 k x → ∃ v, llround x = Some v ∧ Z.abs v ≤ 2 ^ k.
Proof.
  intros Hk Hx. assert (Hf : d_isfinite x = true) by (by destruct x). assert (Hp : 2 ^ k ≤ 2 ^ 62) by (apply Z.pow_le_mono_r; lia).
  assert (Hr : Z.abs (d_round x) ≤ 2 ^ k).
  { unfold d_round. destruct x as [s|?| |s m e]; try done; [change (0 ≤ 2 ^ k); lia|]. destruct Hx as [He Hm].
    assert (H : ∃ d, 0 < d ∧ Z.pos m * (if 0 <=? e then 2 ^ e else 1) ≤ 2 ^ k * d ∧
      d_quotient (S754_finite s m e) = (cond_Zopp s (Z.pos m * if 0 <=? e then 2 ^ e else 1), d)).
    { cbn. destruct (Z.leb_spec 0 e).
      - exists 1. split_and!; [lia| |destruct s; cbn; f_equal; lia].
        replace k with ((k - e) + e) by lia. rewrite Z.pow_add_r by lia. assert (0 < 2 ^ e) by lia. nia.
      - exists (2 ^ (- e)). split_and!; [lia| |destruct s; cbn; f_equal; lia].
        rewrite <- Z.pow_add_r by lia. replace (k + - e) with (k - e) by lia. lia. }
    destruct H as (d & Hd & H & ->). set (a := Z.pos m * _) in *. assert (0 < a) by (unfold a; destruct (Z.leb_spec 0 e); [apply Z.mul_pos_pos|]; lia).
    assert (∀ b, 0 ≤ b ≤ 2 ^ k * d → 0 ≤ (2 * b + d) / (2 * d) ≤ 2 ^ k) as Hb.
    { intros b Hb. split; [apply Z.div_pos; lia|]. apply Z.lt_succ_r, Z.div_lt_upper_bound; nia. }
    destruct s; cbn [cond_Zopp].
    - rewrite (proj2 (Z.leb_gt _ _)) by lia. rewrite Z.opp_involutive. pose proof (Hb a ltac:(lia)). lia.
    - rewrite (proj2 (Z.leb_le _ _)) by lia. pose proof (Hb a ltac:(lia)). lia. }
  exists (d_round x). unfold llround. rewrite Hf, (proj2 (Z.leb_le _ _)), (proj2 (Z.ltb_lt _ _)) by lia. done.
Qed.

(** ** The place in the sorted samples *)

(** In units that are small enough. *)
Lemma bounded_scaled mb eb x :
  0 ≤ mb → bounded_by mb eb x →
  ∃ u0, u0 ≤ eb ∧ ∀ u, u ≤ u0 → exponent_in u eb x ∧ Z.abs (scaled u x) ≤ mb * 2 ^ (eb - u).
Proof.
  intros Hmb. destruct x as [s|?| |s m e]; try done.
  - intros _. exists eb. split; [done|]. intros u Hu. split; [done|]. cbn. nia.
  - intros [He Hm]. exists e. split; [done|]. intros u Hu. split; [done|]. cbn [scaled].
    replace (eb - u) with ((eb - e) + (e - u)) by lia. rewrite Z.pow_add_r by lia.
    assert (0 < 2 ^ (e - u)) by lia. destruct s; cbn [cond_Zopp]; nia.
Qed.

Lemma nonneg_scaled u x : nonneg x → 0 ≤ scaled u x.
Proof. destruct x as [|?| |[] m e]; cbn; try done. intros _. assert (0 ≤ 2 ^ (e - u)) by (apply Z.pow_nonneg; lia). nia. Qed.

Lemma exponent_in_mono u e1 e2 x : e1 ≤ e2 → exponent_in u e1 x → exponent_in u e2 x.
Proof. destruct x; cbn; lia. Qed.

Lemma of_Z_scaled n :
  0 ≤ n < 2 ^ 53 → ∃ u0, u0 ≤ 0 ∧ ∀ u, u ≤ u0 → exponent_in u 0 (d_of_Z n) ∧ scaled u (d_of_Z n) = n * 2 ^ (- u).
Proof.
  intros Hn. destruct (Z.eq_dec n 0) as [->|]; [by exists 0|].
  destruct (of_Z_exact dprec demax eq_refl eq_refl n) as (k & m & Hk & He & Hm & _); [unfold dprec; lia|].
  unfold d_of_Z. rewrite He. exists (- k). split; [lia|]. intros u Hu. cbn [exponent_in scaled cond_Zopp]. split; [lia|].
  rewrite Hm, <- Z.mul_assoc, <- Z.pow_add_r by lia. do 2 f_equal. lia.
Qed.

Lemma hundred : d_of_Z 100 = S754_finite false (Z.to_pos (100 * 2 ^ 46)) (-46).
Proof. by vm_compute. Qed.

Definition percentile_ok (p : double) : bool := dle dzero p && negb (dlt (d_of_Z 100) p) && d_isfinite p.

(** [percentile / 100.0] is at most one. *)
Lemma percent_below p :
  valid_binary dprec demax p = true → percentile_ok p = true →
  bounded_by 1 0 (ddiv p (d_of_Z 100)) ∧ nonneg (ddiv p (d_of_Z 100)).
Proof.
  unfold percentile_ok. intros Hv Hp. apply andb_true_iff in Hp as [Hp Hf]. apply andb_true_iff in Hp as [H0 H1].
  rewrite hundred in *. destruct p as [s|?| |s m e]; try done. destruct s; [done|]. clear H0 Hf.
  assert (Hm : Z.pos m < 2 ^ 53).
  { cbn in Hv. apply andb_true_iff in Hv as [Hv _]. unfold canonical_mantissa in Hv. apply Zeq_bool_eq in Hv.
    unfold fexp, dprec in Hv. pose proof (digits2_log2 m). assert (Z.log2 (Z.pos m) < 53) by lia. by apply Z.log2_lt_pow2. }
  assert (He : e ≤ -46 ∧ (e = -46 → Z.pos m ≤ 100 * 2 ^ 46)).
  { unfold dlt, SFltb in H1. cbn [SFcompare] in H1. destruct (Z.compare_spec (-46) e) as [<-|?|?]; cbn in H1; [|done|split; lia].
    split; [done|]. intros _. destruct (Pos.compare_cont Eq _ m) eqn:Hc in H1; [|done|].
    all: match type of Hc with Pos.compare_cont Eq ?a ?b = ?r => change ((a ?= b)%positive = r) in Hc end.
    - apply Pos.compare_eq in Hc as <-. lia.
    - apply Pos.compare_gt_iff in Hc. lia. }
  destruct He as [He He']. unfold ddiv.
  edestruct (SFdiv_below dprec demax eq_refl 1 0) as [H2 H3];
    [..|split; [exact H2|by apply H3]]; [by vm_compute| by vm_compute| |].
  - lia.
  - exists e. split_and!; [lia..|]. rewrite Z.sub_diag. change (Z.pos (Z.to_pos (100 * 2 ^ 46))) with (100 * 2 ^ 46).
    destruct (Z.eq_dec e (-46)) as [->|]; [cbn in *; lia|].
    replace (0 + -46 - e) with (1 + (-47 - e)) by lia. rewrite Z.pow_add_r by lia. assert (1 ≤ 2 ^ (-47 - e)) by lia. nia.
Qed.

Definition index_of (p : double) (n : Z) : double := dmul (ddiv p (d_of_Z 100)) (d_of_Z n).

(** A part of at most one, of a number. *)
Lemma part_scaled x n :
  bounded_by 1 0 x → nonneg x → 0 < n < 2 ^ 53 →
  ∃ u0, u0 ≤ 0 ∧ ∀ u, u ≤ u0 → exponent_in u 0 (dmul x (d_of_Z n)) ∧ 0 ≤ scaled u (dmul x (d_of_Z n)) ≤ n * 2 ^ (- u).
Proof.
  intros Hb Hs Hn.
  destruct (of_Z_exact dprec demax eq_refl eq_refl n) as (k & m & Hk & He & Hm & Hd); [unfold dprec; lia|].
  change (d_of_Z n = S754_finite false m (- k)) in He. unfold dmul. rewrite He. unfold dprec in Hk.
  assert (Z.pos m < 2 ^ 53).
  { change (Zdigits2 (Z.pos m)) with (Z.pos (digits2_pos m)) in Hd. rewrite digits2_log2 in Hd. unfold dprec in Hd.
    apply Z.log2_lt_pow2; lia. }
  destruct (SFmul_below dprec demax eq_refl (Z.pos m) (- k)
    ltac:(unfold dprec; lia) ltac:(unfold dprec, demax, emin; lia) _ (S754_finite false m (- k)) 0 Hb) as [H1 H2].
  { cbn. split; [lia|]. replace (- k - 0 - - k) with 0 by lia. lia. }
  destruct (bounded_scaled (Z.pos m) _ _ ltac:(lia) H1) as (u0 & Hu0 & Hu). exists u0. split; [lia|]. intros u Hle.
  destruct (Hu u Hle) as [H3 H4]. split; [by apply (exponent_in_mono _ (- k)); [lia|]|].
  split; [apply nonneg_scaled, H2; done|]. rewrite Hm, <- Z.mul_assoc, <- Z.pow_add_r in H4 by lia.
  replace (k + (- k - u)) with (- u) in H4 by lia. lia.
Qed.

(** The whole number below it is a place. *)
Lemma part_floor x n : bounded_by 1 0 x → nonneg x → 0 < n < 2 ^ 53 → 0 ≤ d_floor (dmul x (d_of_Z n)) ≤ n.
Proof.
  intros Hb Hs Hn. destruct (part_scaled x n Hb Hs Hn) as (u & Hu & H). destruct (H u ltac:(done)) as [H1 H2].
  pose proof (floor_scaled _ u H1 Hu). assert (0 < 2 ^ (- u)) by lia. nia.
Qed.

(** The index is between 0 and the last place. *)
Lemma index_scaled p n :
  valid_binary dprec demax p = true → percentile_ok p = true → 0 < n < 2 ^ 53 →
  ∃ u0, u0 ≤ 0 ∧ ∀ u, u ≤ u0 → exponent_in u 0 (index_of p n) ∧ 0 ≤ scaled u (index_of p n) ≤ n * 2 ^ (- u).
Proof. intros Hv Hp Hn. destruct (percent_below p Hv Hp) as [Hb Hs]. by apply part_scaled. Qed.

(** ** Percentiles *)

Lemma one_scaled : ∃ u0, u0 ≤ 0 ∧ ∀ u, u ≤ u0 → exponent_in u 0 d_one ∧ scaled u d_one = 2 ^ (- u).
Proof.
  destruct (of_Z_scaled 1) as (u0 & Hu0 & H); [lia|]. exists u0. split; [done|]. intros u Hu.
  destruct (H u Hu) as [? He]. split; [done|]. change d_one with (d_of_Z 1). lia.
Qed.

(** The weights are between 0 and 1. *)
Lemma weights_below p n :
  valid_binary dprec demax p = true → percentile_ok p = true → 0 < n < 2 ^ 53 →
  let frac := dsub (index_of p n) (d_of_Z (d_floor (index_of p n))) in
  0 ≤ d_floor (index_of p n) ≤ d_ceil (index_of p n) ∧ d_ceil (index_of p n) ≤ n ∧
  bounded_by 1 0 frac ∧ bounded_by 1 0 (dsub d_one frac).
Proof.
  intros Hv Hp Hn. cbn zeta. destruct (index_scaled p n Hv Hp Hn) as (u0 & Hu0 & Hi). set (x := index_of p n) in *.
  assert (Hlo : 0 ≤ d_floor x ≤ n).
  { destruct (Hi u0 ltac:(done)) as [H1 H2]. pose proof (floor_scaled x u0 H1 Hu0). assert (0 < 2 ^ (- u0)) by lia. nia. }
  assert (Hhi : d_ceil x ≤ n) by (destruct (Hi u0 ltac:(done)) as [H1 [_ H2]]; by eapply ceil_le).
  destruct (of_Z_scaled (d_floor x)) as (u1 & Hu1 & Hl); [lia|].
  assert (Hfrac : bounded_by 1 0 (dsub x (d_of_Z (d_floor x))) ∧ nonneg (dsub x (d_of_Z (d_floor x)))).
  { set (u := Z.min u0 u1). destruct (Hi u ltac:(lia)) as [H1 H2], (Hl u ltac:(lia)) as [H3 H4].
    pose proof (floor_scaled x u H1 ltac:(lia)) as H5.
    destruct (SFsub_below dprec demax eq_refl 1 0 ltac:(by vm_compute) ltac:(by vm_compute) x (d_of_Z (d_floor x)) u) as [H6 H7];
      [lia|done|done|rewrite H4; replace (0 - u) with (- u) by lia; lia|]. split; [done|]. apply H7. lia. }
  destruct Hfrac as [Hf Hf0]. pose proof (floor_ceil x). split_and!; try done; try lia.
  set (f := dsub x _) in *. destruct (bounded_scaled 1 0 f ltac:(lia) Hf) as (u2 & Hu2 & Hfs).
  destruct one_scaled as (u3 & Hu3 & Ho). set (u := Z.min u2 u3).
  destruct (Hfs u ltac:(lia)) as [H1 H2], (Ho u ltac:(lia)) as [H3 H4]. pose proof (nonneg_scaled u f Hf0).
  apply (SFsub_below dprec demax eq_refl 1 0 ltac:(by vm_compute) ltac:(by vm_compute) d_one f u); try done; [lia|].
  rewrite H4. replace (0 - u) with (- u) in * by lia. lia.
Qed.

Definition sample_range (x : Z) : Prop := Z.abs x ≤ 2 ^ 61.

(** The interpolated value is in range. *)
Lemma mixed_some a b f g :
  sample_range a → sample_range b → bounded_by 1 0 f → bounded_by 1 0 g →
  ∃ v, llround (dadd (dmul (d_of_Z a) f) (dmul (d_of_Z b) g)) = Some v ∧ Z.abs v ≤ 2 ^ 62.
Proof.
  intros Ha Hb Hf Hg. apply llround_some; [lia|].
  assert (Hp : ∀ c h, sample_range c → bounded_by 1 0 h → bounded_by 1 61 (dmul (d_of_Z c) h)).
  { intros c h Hc Hh. apply (SFmul_below dprec demax eq_refl 1 61 ltac:(by vm_compute) ltac:(by vm_compute) _ _ 61); [|done].
    apply (normalize_below dprec demax eq_refl 1 61 ltac:(by vm_compute) ltac:(by vm_compute)); [lia|].
    unfold sample_range in Hc. lia. }
  destruct (bounded_scaled 1 61 _ ltac:(lia) (Hp a f Ha Hf)) as (u1 & Hu1 & H1).
  destruct (bounded_scaled 1 61 _ ltac:(lia) (Hp b g Hb Hg)) as (u2 & Hu2 & H2).
  set (u := Z.min u1 u2). destruct (H1 u ltac:(lia)) as [H3 H4], (H2 u ltac:(lia)) as [H5 H6].
  apply (SFadd_below dprec demax eq_refl 1 62 ltac:(by vm_compute) ltac:(by vm_compute) _ _ u); [lia|..].
  - by apply (exponent_in_mono _ 61); [lia|].
  - by apply (exponent_in_mono _ 61); [lia|].
  - replace (62 - u) with (1 + (61 - u)) by lia. rewrite Z.pow_add_r by lia. lia.
Qed.

Lemma sorted_length (l : list Z) : length (merge_sort Z.le l) = length l.
Proof. by rewrite merge_sort_Permutation. Qed.

(** What is left of the guards. *)
Lemma percentile_branch samples p :
  samples ≠ [] → percentile_ok p = true →
  percentile_ns samples p =
  match merge_sort Z.le samples with
  | [only] => Some (Ok only)
  | sorted =>
      let index := index_of p (Z.of_nat (length samples) - 1) in
      lo ← to_size (d_floor index);
      hi ← to_size (d_ceil index);
      if (lo =? hi)%nat then at_lo ← sorted !! lo; Some (Ok at_lo)
      else
        at_lo ← sorted !! lo;
        at_hi ← sorted !! hi;
        let frac := dsub index (d_of_Z (Z.of_nat lo)) in
        v ← llround (dadd (dmul (d_of_Z at_lo) (dsub d_one frac)) (dmul (d_of_Z at_hi) frac));
        Some (Ok v)
  end.
Proof.
  intros Hne Hp. unfold percentile_ns, percentile_ok in *. destruct samples as [|x samples]; [done|].
  apply andb_true_iff in Hp as [Hp Hf]. apply andb_true_iff in Hp as [H0 H1]. rewrite Hf, H0. apply negb_true_iff in H1. rewrite H1.
  cbn [negb orb]. pose proof (sorted_length (x :: samples)) as Hl. cbn zeta.
  destruct (merge_sort Z.le (x :: samples)) as [|a [|b rest]]; [done..|]. by rewrite <- Hl.
Qed.

Lemma to_size_some v : 0 ≤ v < 2 ^ 53 → to_size v = Some (Z.to_nat v).
Proof. intros. unfold to_size. rewrite (proj2 (Z.leb_le _ _)), (proj2 (Z.ltb_lt _ _)) by lia. done. Qed.

Section Samples.
Context (samples : list Z) (Hne : samples ≠ []) (Hlen : Z.of_nat (length samples) ≤ 2 ^ 53) (Hrange : Forall sample_range samples).

Lemma sorted_lookup i : (i < length samples)%nat → ∃ x, merge_sort Z.le samples !! i = Some x ∧ x ∈ samples ∧ sample_range x.
Proof.
  intros Hi. rewrite <- sorted_length in Hi. apply lookup_lt_is_Some in Hi as [x Hx]. exists x.
  assert (x ∈ samples) by (rewrite <- (merge_sort_Permutation Z.le); by eapply list_elem_of_lookup_2).
  split_and!; try done. by eapply Forall_forall in Hrange.
Qed.

Lemma percentile_some p :
  valid_binary dprec demax p = true → percentile_ok p = true →
  ∃ v, percentile_ns samples p = Some (Ok v) ∧ Z.abs v ≤ 2 ^ 62.
Proof.
  intros Hv Hp. rewrite percentile_branch by done. pose proof (sorted_length samples) as Hl.
  destruct (merge_sort Z.le samples) as [|a [|b rest]] eqn:Hs.
  { by destruct samples. }
  { exists a. split; [done|]. destruct (sorted_lookup 0) as (x & Hx & _ & Hr); [rewrite <- Hl; cbn; lia|].
    rewrite Hs in Hx. injection Hx as ->. unfold sample_range in Hr. lia. }
  destruct (weights_below p (Z.of_nat (length samples) - 1) Hv Hp) as (H1 & H2 & H3 & H4); [cbn [length] in Hl; lia|].
  cbn zeta. set (x := index_of p _) in *. rewrite !to_size_some by lia. cbn [mbind option_bind].
  destruct (sorted_lookup (Z.to_nat (d_floor x))) as (v & Hlo & _ & Hrv); [lia|]. rewrite <- Hs, Hlo. cbn [mbind option_bind].
  destruct (Nat.eqb_spec (Z.to_nat (d_floor x)) (Z.to_nat (d_ceil x))).
  { exists v. split; [done|]. unfold sample_range in Hrv. lia. }
  destruct (sorted_lookup (Z.to_nat (d_ceil x))) as (w & Hhi & _ & Hrw); [lia|]. rewrite Hhi. cbn [mbind option_bind].
  rewrite Z2Nat.id by lia. destruct (mixed_some v w _ _ Hrv Hrw H4 H3) as (r & -> & Hr). by exists r.
Qed.
End Samples.

(** *** The ends, and the order of the samples *)

Lemma whole_of_Z n : 0 ≤ n < 2 ^ 53 → d_floor (d_of_Z n) = n ∧ d_ceil (d_of_Z n) = n.
Proof.
  intros Hn. destruct (of_Z_scaled n Hn) as (u & Hu & H). destruct (H u ltac:(done)) as [H1 H2].
  pose proof (floor_scaled _ u H1 Hu) as H3. rewrite H2 in H3. assert (0 < 2 ^ (- u)) by lia.
  assert (d_floor (d_of_Z n) = n) by nia. pose proof (ceil_le _ u n H1 Hu ltac:(lia)).
  pose proof (floor_ceil (d_of_Z n)). lia.
Qed.

Lemma index_hundred n : 0 < n < 2 ^ 53 → index_of (d_of_Z 100) n = d_of_Z n.
Proof.
  intros Hn. destruct (of_Z_exact dprec demax eq_refl eq_refl n) as (k & m & Hk & He & Hm & Hd); [unfold dprec; lia|].
  change (d_of_Z n = S754_finite false m (- k)) in He. unfold index_of, dmul. rewrite He.
  replace (ddiv (d_of_Z 100) (d_of_Z 100)) with (S754_finite false (Z.to_pos (2 ^ 52)) (-52)) by (by vm_compute).
  cbn [SFmul xorb]. rewrite Pos2Z.inj_mul, Z.mul_comm. replace (-52 + - k) with (- k - 52) by lia.
  change (Z.pos (Z.to_pos (2 ^ 52))) with (2 ^ 52).
  apply round_aux_exact; [lia|done|]. unfold dprec, demax, emin in *. lia.
Qed.

Lemma index_zero n : 0 < n < 2 ^ 53 → d_floor (index_of dzero n) = 0 ∧ d_ceil (index_of dzero n) = 0.
Proof.
  intros Hn. destruct (of_Z_exact dprec demax eq_refl eq_refl n) as (k & m & _ & He & _); [unfold dprec; lia|].
  change (d_of_Z n = S754_finite false m (- k)) in He. unfold index_of, dmul. by rewrite He.
Qed.

(** At an index that is whole, the sample at that place. *)
Lemma percentile_whole samples p i :
  samples ≠ [] → percentile_ok p = true → (i < length samples)%nat → Z.of_nat (length samples) ≤ 2 ^ 53 →
  ((1 < length samples)%nat → d_floor (index_of p (Z.of_nat (length samples) - 1)) = Z.of_nat i ∧
                               d_ceil (index_of p (Z.of_nat (length samples) - 1)) = Z.of_nat i) →
  ∃ v, percentile_ns samples p = Some (Ok v) ∧ merge_sort Z.le samples !! i = Some v.
Proof.
  intros Hne Hp Hi Hlen Hw. rewrite percentile_branch by done. pose proof (sorted_length samples) as Hl.
  destruct (merge_sort Z.le samples) as [|a [|b rest]] eqn:Hs; cbn [length] in Hl; [lia| |].
  { exists a. split; [done|]. by assert (i = 0%nat) as -> by lia. }
  cbn zeta. destruct Hw as [-> ->]; [lia|]. rewrite !to_size_some, Nat2Z.id by lia. cbn [mbind option_bind]. rewrite Nat.eqb_refl.
  assert (i < length (a :: b :: rest))%nat as [v Hv]%lookup_lt_is_Some by (cbn [length]; lia). rewrite Hv. by exists v.
Qed.

Lemma sorted_samples samples : StronglySorted Z.le (merge_sort Z.le samples).
Proof. apply (StronglySorted_merge_sort Z.le). Qed.

Lemma percentile_perm samples samples' p : samples ≡ₚ samples' → percentile_ns samples p = percentile_ns samples' p.
Proof.
  intros Hperm. assert (Hs : merge_sort Z.le samples = merge_sort Z.le samples').
  { apply (StronglySorted_unique Z.le); [apply sorted_samples..|]. by rewrite !merge_sort_Permutation. }
  unfold percentile_ns. rewrite Hs. destruct samples, samples'; try done.
  - by apply Permutation_nil_cons in Hperm.
  - by apply symmetry, Permutation_nil_cons in Hperm.
Qed.

Lemma strongly_sorted_lookup (l : list Z) : StronglySorted Z.le l →
  ∀ i j x y, (i < j)%nat → l !! i = Some x → l !! j = Some y → x ≤ y.
Proof.
  induction 1 as [|a l Hs IH Ha]; intros [|i] [|j] x y Hij Hx Hy; try done; try lia.
  - injection Hx as ->. by eapply Forall_lookup_1 in Ha.
  - apply (IH i j); [lia|done|done].
Qed.

Lemma sorted_first samples v : merge_sort Z.le samples !! 0%nat = Some v → v ∈ samples ∧ Forall (Z.le v) samples.
Proof.
  intros Hv. rewrite <- (merge_sort_Permutation Z.le samples) at 1 2. pose proof (sorted_samples samples) as Hs.
  destruct (merge_sort Z.le samples) as [|x l]; [done|]. injection Hv as ->. apply StronglySorted_inv in Hs as [_ Hs].
  split; [by left|]. constructor; [done|by apply Forall_forall, Forall_forall].
Qed.

Lemma sorted_last samples v :
  merge_sort Z.le samples !! (length samples - 1)%nat = Some v → v ∈ samples ∧ Forall (λ x, x ≤ v) samples.
Proof.
  intros Hv. rewrite <- (sorted_length samples) in Hv. rewrite <- (merge_sort_Permutation Z.le samples) at 1 2.
  pose proof (sorted_samples samples) as Hs. set (l := merge_sort Z.le samples) in *.
  split; [by eapply list_elem_of_lookup_2|]. apply Forall_lookup. intros i x Hx.
  destruct (decide (i = length l - 1)%nat) as [->|]; [rewrite Hv in Hx; by simplify_eq|].
  apply lookup_lt_Some in Hx as Hi. eapply strongly_sorted_lookup; [exact Hs| |exact Hx|exact Hv]. lia.
Qed.

(** ** The mean *)

Record long_double_ok (f : FloatFormat) : Prop := {
  ld_prec : 64 ≤ ff_prec f;
  ld_emax : ff_prec f + 1024 ≤ ff_emax f
}.

Section Mean.
Context (f : FloatFormat) (Hf : long_double_ok f) (k : Z) (Hk : 0 ≤ k ≤ 61).
Let prec := ff_prec f.
Let emax := ff_emax f.

Lemma format_bounds n : 0 < n ≤ 2 ^ 53 → 0 < prec ∧ 0 < n < 2 ^ prec ∧ emin prec emax ≤ k ≤ emax - prec.
Proof.
  intros Hn. destruct Hf. unfold prec, emax, emin in *. split_and!; try lia.
  assert (2 ^ 64 ≤ 2 ^ ff_prec f) by (apply Z.pow_le_mono_r; lia). lia.
Qed.

Lemma accumulate_below l : ∀ acc i,
  0 ≤ i → i + Z.of_nat (length l) ≤ 2 ^ 53 → Forall (λ x, Z.abs x ≤ 2 ^ k) l → bounded_by i k acc →
  bounded_by (i + Z.of_nat (length l)) k
    (fold_left (λ acc v, SFadd prec emax acc (binary_normalize prec emax v 0 false)) l acc).
Proof.
  induction l as [|x l IH]; intros acc i Hi Hl Hx Hacc; cbn [fold_left length] in *; [by rewrite Z.add_0_r|].
  apply Forall_cons in Hx as [Hx Hxs]. replace (i + Z.of_nat (S (length l))) with ((i + 1) + Z.of_nat (length l)) by lia.
  apply IH; [lia|lia|done|].
  destruct (format_bounds 1 ltac:(lia)) as (H1 & H2 & H3), (format_bounds (i + 1) ltac:(lia)) as (_ & H4 & _).
  assert (Hn : bounded_by 1 k (binary_normalize prec emax x 0 false)).
  { apply normalize_below; try done; [lia|]. rewrite Z.sub_0_r, Z.mul_1_l. done. }
  destruct (bounded_scaled i k acc Hi Hacc) as (u1 & Hu1 & Hs1), (bounded_scaled 1 k _ ltac:(lia) Hn) as (u2 & Hu2 & Hs2).
  set (u := Z.min u1 u2). destruct (Hs1 u ltac:(lia)) as [H5 H6], (Hs2 u ltac:(lia)) as [H7 H8].
  apply (SFadd_below prec emax H1 (i + 1) k H4 H3 _ _ u); try done; lia.
Qed.

(** Samples within [2 ^ k] have a mean within it. *)
Lemma mean_some samples :
  samples ≠ [] → Z.of_nat (length samples) ≤ 2 ^ 53 → Forall (λ x, Z.abs x ≤ 2 ^ k) samples →
  ∃ v, mean_ns f samples = Some v ∧ Z.abs v ≤ 2 ^ k.
Proof.
  intros Hne Hl Hx. apply llround_some; [lia|].
  pose proof (accumulate_below samples (S754_zero false) 0 ltac:(lia) Hl Hx I) as Ha.
  change (bounded_by (0 + Z.of_nat (length samples)) k (accumulate f samples)) in Ha.
  rewrite Z.add_0_l in Ha. set (n := Z.of_nat (length samples)) in *. set (acc := accumulate f samples) in *.
  assert (Hn : 0 < n) by (destruct samples; [done|unfold n; cbn [length]; lia]).
  destruct (format_bounds 1 ltac:(lia)) as (H1 & H2 & H3), (format_bounds n ltac:(lia)) as (_ & H4 & _).
  destruct (of_Z_exact prec emax H1 ltac:(destruct Hf; unfold prec, emax; lia) n H4) as (j & m & Hj & He & Hm & Hd).
  fold prec emax. rewrite He. destruct acc as [s|?| |s mx ex]; try done. destruct Ha as [Hex Hmx].
  apply (SFdiv_below prec emax H1 1 k H2 H3).
  - assert (Hdx : Zdigits2 (Z.pos mx) + ex - (Zdigits2 (Z.pos m) + - j) ≤ k).
    { change (Zdigits2 (Z.pos mx)) with (Z.pos (digits2_pos mx)). change (Zdigits2 (Z.pos m)) with (Z.pos (digits2_pos m)).
      rewrite !digits2_log2, Hm. rewrite <- (Z.shiftl_mul_pow2 n) by lia. rewrite Z.log2_shiftl by lia.
      assert (Z.log2 (Z.pos mx) ≤ Z.log2 n + (k - ex)); [|lia]. rewrite <- Z.log2_shiftl by lia.
      apply Z.log2_le_mono. by rewrite Z.shiftl_mul_pow2 by lia. }
    unfold fexp. unfold emin in *. lia.
  - exists (Z.min ex (k - j)). split_and!; [lia..|]. rewrite Hm, Z.mul_1_l, <- Z.mul_assoc, <- Z.pow_add_r by lia.
    replace (j + (k + - j - Z.min ex (k - j))) with ((k - ex) + (ex - Z.min ex (k - j))) by lia.
    rewrite Z.pow_add_r by lia. assert (0 < 2 ^ (ex - Z.min ex (k - j))) by lia. nia.
Qed.
End Mean.

(** ** Results *)

Lemma min_element_spec l : ∀ x, min_element x l ∈ x :: l ∧ Forall (Z.le (min_element x l)) (x :: l).
Proof.
  unfold min_element. induction l as [|y l IH]; intros x; cbn [fold_left]; [split; [by left|by repeat constructor]|].
  destruct (IH (if y <? x then y else x)) as [H1 H2]. set (r := fold_left _ _ _) in *. apply Forall_cons in H2 as [H2 H3].
  split; [destruct (y <? x); set_solver|]. repeat constructor; [destruct (Z.ltb_spec y x); lia..|done].
Qed.

Lemma max_element_spec l : ∀ x, max_element x l ∈ x :: l ∧ Forall (λ v, v ≤ max_element x l) (x :: l).
Proof.
  unfold max_element. induction l as [|y l IH]; intros x; cbn [fold_left]; [split; [by left|by repeat constructor]|].
  destruct (IH (if x <? y then y else x)) as [H1 H2]. set (r := fold_left _ _ _) in *. apply Forall_cons in H2 as [H2 H3].
  split; [destruct (x <? y); set_solver|]. repeat constructor; [destruct (Z.ltb_spec x y); lia..|done].
Qed.

(** C34.  For at most [2 ^ 53] samples of at most [2 ^ 61] ns in magnitude, and any double as
    percentile, percentile_ns never reads outside its sorted copy and never converts a value
    that the integer type cannot hold: it refuses exactly the empty series and the percentiles
    that are not numbers from 0 to 100, and else gives a value.  The value depends on the
    samples and not on their order; percentile 0 is the least sample, percentile 100 the
    greatest. *)
Theorem percentile_total samples p :
  valid_binary dprec demax p = true → Z.of_nat (length samples) ≤ 2 ^ 53 → Forall sample_range samples →
  match percentile_ns samples p with
  | Some (Ok v) => samples ≠ [] ∧ percentile_ok p = true ∧ Z.abs v ≤ 2 ^ 62
  | Some (Err e) => err_code e = Errc.InvalidArgument ∧ (samples = [] ∨ percentile_ok p = false)
  | None => False
  end ∧
  (∀ samples', samples ≡ₚ samples' → percentile_ns samples' p = percentile_ns samples p) ∧
  (∀ v, percentile_ns samples dzero = Some (Ok v) → v ∈ samples ∧ Forall (Z.le v) samples) ∧
  (∀ v, percentile_ns samples (d_of_Z 100) = Some (Ok v) → v ∈ samples ∧ Forall (λ x, x ≤ v) samples).
Proof.
  intros Hv Hl Hr. split_and!; [..|by intros; symmetry; apply percentile_perm| |].
  - destruct (decide (samples = [])) as [->|Hne]; [by split; [|left]|]. destruct (percentile_ok p) eqn:Hp.
    { destruct (percentile_some samples Hne Hl Hr p Hv Hp) as (v & -> & ?). done. }
    unfold percentile_ns. destruct samples as [|x rest]; [done|]. replace (_ || _ || _) with true; [by split; [|right]|].
    unfold percentile_ok in Hp. destruct (dle dzero p), (dlt (d_of_Z 100) p), (d_isfinite p); done.
  - intros v H. destruct samples as [|x rest] eqn:Hs; [done|]. rewrite <- Hs in *.
    destruct (percentile_whole samples dzero 0) as (w & Hw & Hi); [by subst|done|subst; cbn [length]; lia|done| |].
    { intros. apply index_zero. lia. }
    rewrite Hw in H. injection H as ->. by apply sorted_first.
  - intros v H. destruct samples as [|x rest] eqn:Hs; [done|]. rewrite <- Hs in *.
    destruct (percentile_whole samples (d_of_Z 100) (length samples - 1)) as (w & Hw & Hi);
      [by subst|done|subst; cbn [length]; lia|done| |].
    { intros. rewrite index_hundred by lia. replace (Z.of_nat (length samples - 1)) with (Z.of_nat (length samples) - 1) by lia.
      apply whole_of_Z. lia. }
    rewrite Hw in H. injection H as ->. by apply sorted_last.
Qed.

Lemma percentile_total_witness :
  percentile_ns [40; 10; 30; 20; 50] (d_of_Z 95) = Some (Ok 48) ∧
  (∀ v, percentile_ns [40; 10; 30; 20; 50] (d_of_Z 100) = Some (Ok v) → Forall (λ x, x ≤ v) [40; 10; 30; 20; 50]).
Proof.
  split; [by vm_compute|]. intros v H.
  destruct (percentile_total [40; 10; 30; 20; 50] (d_of_Z 95)) as (_ & _ & _ & Hmax).
  - by vm_compute.
  - by vm_compute.
  - unfold sample_range. repeat constructor; lia.
  - by destruct (Hmax v H).
Defined.

(** The summary of a series that is not empty: least, greatest and percentiles as above, and a
    mean no larger in magnitude than a power of two that bounds the samples; on both formats
    of [long double]. *)
Theorem summary_total f k samples :
  long_double_ok f → 0 ≤ k ≤ 61 → samples ≠ [] → Z.of_nat (length samples) ≤ 2 ^ 53 → Forall (λ x, Z.abs x ≤ 2 ^ k) samples →
  ∃ s, summarize_lateness_ns f samples = Some (Ok s) ∧
    pc_count s = Z.of_nat (length samples) ∧
    (pc_min_ns s ∈ samples ∧ Forall (Z.le (pc_min_ns s)) samples) ∧
    (pc_max_ns s ∈ samples ∧ Forall (λ x, x ≤ pc_max_ns s) samples) ∧
    Z.abs (pc_mean_ns s) ≤ 2 ^ k ∧
    percentile_ns samples (d_of_Z 50) = Some (Ok (pc_p50_ns s)) ∧
    percentile_ns samples (d_of_Z 95) = Some (Ok (pc_p95_ns s)) ∧
    percentile_ns samples (d_of_Z 99) = Some (Ok (pc_p99_ns s)) ∧
    percentile_ns samples (d_lit 999 1) = Some (Ok (pc_p99_9_ns s)).
Proof.
  intros Hf Hk Hne Hl Hx.
  assert (Hr : Forall sample_range samples).
  { eapply Forall_impl; [exact Hx|]. intros x Hb. unfold sample_range. assert (2 ^ k ≤ 2 ^ 61) by (apply Z.pow_le_mono_r; lia). cbn in Hb. lia. }
  pose proof (λ p, percentile_some samples Hne Hl Hr p) as Hp. destruct (mean_some f Hf k Hk samples Hne Hl Hx) as (mean & Hm & Hmb).
  destruct (Hp (d_of_Z 50)) as (p50 & H50 & _); [by vm_compute..|]. destruct (Hp (d_of_Z 95)) as (p95 & H95 & _); [by vm_compute..|].
  destruct (Hp (d_of_Z 99)) as (p99 & H99 & _); [by vm_compute..|]. destruct (Hp (d_lit 999 1)) as (p999 & H999 & _); [by vm_compute..|].
  destruct samples as [|x rest]; [done|].
  exists (mkPercentileSummary (Z.of_nat (length (x :: rest))) (min_element x rest) (max_element x rest) mean p50 p95 p99 p999).
  split; [|split_and!; try done; [apply min_element_spec..|apply max_element_spec|apply max_element_spec]].
  unfold summarize_lateness_ns. rewrite Hm. cbn [mbind option_bind]. rewrite H50. cbn [mbind option_bind].
  rewrite H95. cbn [mbind option_bind]. rewrite H99. cbn [mbind option_bind]. rewrite H999. done.
Qed.

Lemma long_double_formats : long_double_ok x87_extended ∧ long_double_ok binary128.
Proof. by split; constructor. Qed.
