(* ===== verification/Benchmark.v ===== *)
(** * The wake-up benchmark

    apps/rcr_benchmark.cpp: the periodic scheduler with a callback that stores the lateness
    of every wake-up in a buffer allocated beforehand, and the report of their percentiles. *)

From stdpp Require Import pretty sorting.
From S2P Require Import Prelude Types Scheduler Bytes CommandLine Doubles Rounding Stats.
Local Open Scope Z_scope.

(** ** Options *)

Record BenchOptions := mkBenchOptions {
  bo_duration_ms : Z; bo_period_us : Z; bo_callback_delay_us : Z; bo_fifo_priority : Z; bo_require_fifo : bool;
  bo_cpu_affinity : Z; bo_samples_path : string; bo_enable_samples : bool
}.

#[export] Instance BenchOptions_eta : Eta BenchOptions :=
  mkEta _ (fun o => mkBenchOptions (bo_duration_ms o) (bo_period_us o) (bo_callback_delay_us o) (bo_fifo_priority o)
    (bo_require_fifo o) (bo_cpu_affinity o) (bo_samples_path o) (bo_enable_samples o)).

Definition default_bench_options : BenchOptions := mkBenchOptions 1000 1000 0 0 false (-1) "" true.

Definition parse_integer (text : string) : option Z := parse_i64 (str_bytes text).

(** An option with a number. *)
Definition set_bench_option (arg : string) (value : Z) (o : BenchOptions) : option BenchOptions :=
  if (arg =? "--duration-ms")%string then Some (o <| bo_duration_ms := value |>)
  else if (arg =? "--period-us")%string then Some (o <| bo_period_us := value |>)
  else if (arg =? "--callback-delay-us")%string then
    if value <? 0 then None else Some (o <| bo_callback_delay_us := value |>)
  else if (arg =? "--fifo-priority")%string then
    if (value <? 0) || (99 <? value) then None else Some (o <| bo_fifo_priority := value |>)
  else if (arg =? "--cpu-affinity")%string then
    if (value <? 0) || (CPU_SETSIZE <=? value) then None else Some (o <| bo_cpu_affinity := value |>)
  else None.

Definition bench_options_in_range (o : BenchOptions) : bool :=
  (0 <? bo_duration_ms o) && (bo_duration_ms o <=? 86400000) && (0 <? bo_period_us o) && (bo_period_us o <=? 60000000) &&
  (0 <=? bo_callback_delay_us o) && (bo_callback_delay_us o <=? 60000000).

Fixpoint parse_bench_options (args : list string) (o : BenchOptions) : option BenchOptions :=
  match args with
  | [] => if bench_options_in_range o then Some o else None
  | arg :: rest =>
      if (arg =? "--require-fifo")%string then parse_bench_options rest (o <| bo_require_fifo := true |>)
      else if (arg =? "--no-samples")%string then parse_bench_options rest (o <| bo_enable_samples := false |>)
      else if (arg =? "--help")%string || (arg =? "-h")%string then None
      else match rest with
      | [] => None
      | text :: rest =>
          if (arg =? "--samples-out")%string then parse_bench_options rest (o <| bo_samples_path := text |>)
          else match parse_integer text with
          | None => None
          | Some value =>
              match set_bench_option arg value o with
              | None => None
              | Some o => parse_bench_options rest o
              end
          end
      end
  end.

(** ** The callback *)

Definition expected_samples (o : BenchOptions) : Z := bo_duration_ms o * 1000 / bo_period_us o + 16.
Definition sample_capacity (o : BenchOptions) : Z := expected_samples o + expected_samples o / 4 + 64.

Record SampleBuffer := mkSampleBuffer { sb_samples : list Z; sb_count : Z; sb_overflow : bool }.

#[export] Instance SampleBuffer_eta : Eta SampleBuffer :=
  mkEta _ (fun b => mkSampleBuffer (sb_samples b) (sb_count b) (sb_overflow b)).

Definition new_buffer (o : BenchOptions) : SampleBuffer :=
  mkSampleBuffer (if bo_enable_samples o then replicate (Z.to_nat (sample_capacity o)) 0 else []) 0 false.

(** The sleep of [callback_delay_us] shows in the time the callback finishes. *)
Definition sample_callback (o : BenchOptions) (tick : SchedulerTick) (b : SampleBuffer) : SampleBuffer * bool :=
  if bo_enable_samples o then
    let index := sb_count b in
    let b := b <| sb_count := incr64 index |> in
    (if index <? Z.of_nat (length (sb_samples b))
     then b <| sb_samples ::= <[Z.to_nat index := tk_wakeup_lateness_ns tick]> |>
     else b <| sb_overflow := true |>, true)
  else (b, true).

(** ** The program *)

Definition line (key : string) (v : Z) : string := key +:+ "=" +:+ pretty v.
Definition flag (key : string) (v : bool) : string := line key (if v then 1 else 0).

Definition bench_scheduler_config (o : BenchOptions) : SchedulerConfig :=
  mkSchedulerConfig (bo_period_us o * 1000) (bo_fifo_priority o) (bo_require_fifo o) (bo_cpu_affinity o).

Definition failed_start_report (o : BenchOptions) (p : PeriodicScheduler) : list string :=
  [line "fifo_priority_requested" (bo_fifo_priority o); flag "fifo_enabled" (ps_fifo_enabled p);
   line "fifo_error" (ps_fifo_error p); line "cpu_affinity_requested" (bo_cpu_affinity o);
   flag "affinity_enabled" (ps_affinity_enabled p); line "affinity_error" (ps_affinity_error p);
   line "worker_error" (ps_worker_error p)].

Definition sample_count (b : SampleBuffer) : Z := Z.min (sb_count b) (Z.of_nat (length (sb_samples b))).

Definition run_report (o : BenchOptions) (p : PeriodicScheduler) (b : SampleBuffer) : list string :=
  [line "duration_ms" (bo_duration_ms o); line "period_us" (bo_period_us o);
   line "callback_delay_us" (bo_callback_delay_us o); line "fifo_priority_requested" (bo_fifo_priority o);
   flag "fifo_enabled" (ps_fifo_enabled p); line "fifo_error" (ps_fifo_error p); line "worker_error" (ps_worker_error p);
   line "cpu_affinity_requested" (bo_cpu_affinity o); flag "affinity_enabled" (ps_affinity_enabled p);
   line "affinity_error" (ps_affinity_error p); flag "samples_enabled" (bo_enable_samples o);
   line "sample_count" (sample_count b); flag "sample_overflow" (sb_overflow b); line "cycles" (ps_cycles p);
   line "deadline_misses" (ps_deadline_misses p); line "lateness_min_ns" (ps_min_lateness_ns p);
   line "lateness_mean_ns" (mean_lateness p); line "lateness_max_ns" (ps_max_lateness_ns p);
   "percentile_algorithm=linear_interpolation_index_p_over_100_times_n_minus_1"].

Definition percentile_report (s : PercentileSummary) : list string :=
  [line "lateness_p50_ns" (pc_p50_ns s); line "lateness_p95_ns" (pc_p95_ns s); line "lateness_p99_ns" (pc_p99_ns s);
   line "lateness_p99_9_ns" (pc_p99_9_ns s)].

(** What the program leaves: its exit code, its standard output and the samples file. *)
Record BenchResult := mkBenchResult { br_code : Z; br_stdout : list string; br_file : option (list string) }.

(** After the worker has been joined; [None]: undefined arithmetic. *)
Definition bench_finish (f : FloatFormat) (o : BenchOptions) (file_opens : bool) (p : PeriodicScheduler) (b : SampleBuffer)
    : option BenchResult :=
  let out := run_report o p b in
  let code := if sb_overflow b then 1 else 0 in
  if bo_enable_samples o && (0 <? sample_count b) then
    let recorded := take (Z.to_nat (sample_count b)) (sb_samples b) in
    summary ← summarize_lateness_ns f recorded;
    match summary with
    | Err _ => Some (mkBenchResult 1 out None)
    | Ok s =>
        let out := out ++ percentile_report s in
        if (bo_samples_path o =? "")%string then Some (mkBenchResult code out None)
        else if negb file_opens then Some (mkBenchResult 1 out None)
        else Some (mkBenchResult code out (Some (map pretty recorded)))
    end
  else Some (mkBenchResult code out None).

(** [main]: [turns] is what the worker meets until it has been joined; the allocation of the
    buffer succeeds. *)
Definition bench_main (f : FloatFormat) (args : list string) (env : StartEnv) (turns : list IterEnv) (file_opens : bool)
    : option BenchResult :=
  match parse_bench_options args default_bench_options with
  | None => Some (mkBenchResult 1 [] None)
  | Some o =>
      match ps_start env (ps_new (bench_scheduler_config o)) with
      | (p, Err _) => Some (mkBenchResult 1 (failed_start_report o p) None)
      | (p, Ok _) =>
          let l := run_loop (sample_callback o) turns (enter_loop (value_or 0 (se_now env)) p (new_buffer o)) in
          bench_finish f o file_opens (ls_sched l) (ls_user l)
      end
  end.

(** ** What is recorded *)

(** The latenesses of the wake-ups, from what the worker meets. *)
Fixpoint wakeups (period next_ns : Z) (turns : list IterEnv) : list Z :=
  match turns with
  | [] => []
  | env :: turns =>
      if ie_stop_before env || ie_stop_after env || negb (sleep_until (ie_sleeps env) =? 0) then []
      else match ie_actual env with
      | Err _ => []
      | Ok actual_ns =>
          lateness_of next_ns actual_ns ::
          match ie_finished env with
          | Err _ => []
          | Ok finished_ns => wakeups period (next_ns + (missed_periods period next_ns finished_ns + 1) * period) turns
          end
      end
  end.

(** A buffer of [cap] places that was given the samples [xs]. *)
Definition stored (cap : nat) (xs : list Z) : SampleBuffer :=
  mkSampleBuffer (take cap xs ++ replicate (cap - length xs) 0) (Z.of_nat (length xs)) (cap <? length xs)%nat.

Definition buffer_of (o : BenchOptions) (xs : list Z) : SampleBuffer :=
  if bo_enable_samples o then stored (Z.to_nat (sample_capacity o)) xs else mkSampleBuffer [] 0 false.

Lemma stored_length cap xs : length (sb_samples (stored cap xs)) = cap.
Proof. cbn. rewrite length_app, length_take, length_replicate. lia. Qed.

Lemma callback_stores o tick xs :
  Z.of_nat (length xs) + 1 < 2 ^ 64 →
  sample_callback o tick (buffer_of o xs) = (buffer_of o (xs ++ [tk_wakeup_lateness_ns tick]), true).
Proof.
  intros Hl. unfold sample_callback, buffer_of. destruct (bo_enable_samples o); [|done]. set (cap := Z.to_nat _).
  set (x := tk_wakeup_lateness_ns tick). f_equal.
  match goal with |- context [_ <? Z.of_nat ?n] => change n with (length (sb_samples (stored cap xs))) end. rewrite stored_length.
  unfold stored, incr64. cbn [sb_count]. rewrite u64_small by width_lia. rewrite length_app. cbn [length].
  destruct (Z.ltb_spec (Z.of_nat (length xs)) (Z.of_nat cap)); cbn -[Nat.ltb]; f_equal; try lia.
  - rewrite Nat2Z.id, !take_ge by (rewrite ?length_app; cbn; lia). rewrite insert_app_r_alt, Nat.sub_diag by lia.
    replace (cap - length xs)%nat with (S (cap - (length xs + 1))) by lia. cbn [replicate]. cbn. by rewrite <- app_assoc.
  - destruct (Nat.ltb_spec cap (length xs)), (Nat.ltb_spec cap (length xs + 1)); done || lia.
  - rewrite take_app_le by lia. by replace (cap - (length xs + 1))%nat with (cap - length xs)%nat by lia.
  - symmetry. apply Nat.ltb_lt. lia.
Qed.

(** The scheduler's own statistics agree with the samples. *)
Record counted (xs : list Z) (p : PeriodicScheduler) : Prop := {
  ct_cycles : ps_cycles p = Z.of_nat (length xs);
  ct_max_nonneg : 0 ≤ ps_max_lateness_ns p;
  ct_empty : xs = [] → ps_max_lateness_ns p = 0;
  ct_min : xs ≠ [] → ps_min_lateness_ns p ∈ xs ∧ Forall (Z.le (ps_min_lateness_ns p)) xs;
  ct_max : xs ≠ [] → ps_max_lateness_ns p ∈ xs;
  ct_below : Forall (λ x, 0 ≤ x ≤ ps_max_lateness_ns p) xs
}.

Lemma count_counted xs p x :
  counted xs p → 0 ≤ x → Z.of_nat (length xs) + 1 < 2 ^ 64 → counted (xs ++ [x]) (count_lateness x p).
Proof.
  intros [Hc Hn He Hmin Hmax Hb] Hx Hl. unfold count_lateness, incr64. rewrite Hc, u64_small by width_lia.
  assert (Hmx : ps_max_lateness_ns p = 0 ∨ ps_max_lateness_ns p ∈ xs) by (destruct xs; [left; by apply He|right; by apply Hmax]).
  assert (Hup : Forall (λ y, 0 ≤ y ≤ Z.max x (ps_max_lateness_ns p)) (xs ++ [x])).
  { apply Forall_app_2; [|repeat constructor; lia]. eapply Forall_impl; [exact Hb|]. cbn. lia. }
  assert (Hin : Z.max x (ps_max_lateness_ns p) ∈ xs ++ [x]).
  { destruct (Z.max_spec x (ps_max_lateness_ns p)) as [[? ->]|[? ->]]; [|set_solver].
    destruct Hmx as [|]; [lia|set_solver]. }
  destruct (Z.eqb_spec (Z.of_nat (length xs) + 1) 1) as [H1|H1]; constructor; cbn; rewrite ?length_app; cbn; try done; try lia.
  all: try (intros H; by destruct xs). all: try (intros _).
  - destruct xs; [|cbn in H1; lia]. split; [set_solver|]. by repeat constructor.
  - destruct Hmin as [Hi Hf]; [by destruct xs|]. split.
    + destruct (Z.min_spec x (ps_min_lateness_ns p)) as [[? ->]|[? ->]]; set_solver.
    + apply Forall_app_2; [|repeat constructor; lia]. eapply Forall_impl; [exact Hf|]. cbn. lia.
Qed.

Lemma counted_misses xs p m : counted xs p → counted xs (p <| ps_deadline_misses := m |>).
Proof. intros []. by constructor. Qed.

Lemma lateness_nonneg a b : 0 ≤ lateness_of a b.
Proof. unfold lateness_of. destruct (Z.ltb_spec a b); lia. Qed.

(** The worker's loop records the wake-ups, in order. *)
Lemma loop_records o turns : ∀ (l : LoopState SampleBuffer) xs,
  ls_user l = buffer_of o xs → counted xs (ls_sched l) → Z.of_nat (length xs + length turns) < 2 ^ 64 →
  let period := sc_period (ps_config (ls_sched l)) in
  let ys := xs ++ wakeups period (ls_next_ns l) turns in
  let l' := run_loop (sample_callback o) turns l in
  ls_user l' = buffer_of o ys ∧ counted ys (ls_sched l').
Proof.
  induction turns as [|env turns IH]; intros l xs Hu Hc Hl; cbn [run_loop wakeups length] in *.
  { by rewrite app_nil_r. }
  unfold iterate, fail_worker. destruct (ie_stop_before env); [by rewrite app_nil_r; split; [|destruct Hc]|].
  destruct (ie_stop_after env); [by rewrite app_nil_r; split; [|destruct Hc]|]. cbn [orb].
  destruct (sleep_until (ie_sleeps env) =? 0); cbn [negb]; [|by rewrite app_nil_r; split; [|destruct Hc]].
  destruct (ie_actual env) as [actual|]; [|by rewrite app_nil_r; split; [|destruct Hc]].
  rewrite Hu, callback_stores by lia. cbn [tk_wakeup_lateness_ns]. set (x := lateness_of _ actual).
  assert (Hc' : counted (xs ++ [x]) (count_lateness x (ls_sched l))) by (apply count_counted; [done|apply lateness_nonneg|lia]).
  destruct (ie_finished env) as [finished|]; [|split; [done|by destruct Hc']].
  set (p := count_lateness x (ls_sched l) <| ps_deadline_misses ::= _ |>).
  set (l1 := mkLoopState p _ _ _). destruct (IH l1 (xs ++ [x]) eq_refl) as [H1 H2].
  - by apply counted_misses.
  - rewrite length_app. cbn. lia.
  - assert (Hp : ps_config p = ps_config (ls_sched l)) by (apply (count_lateness_frame x (ls_sched l))).
    cbn [ls_sched l1] in H1, H2. rewrite Hp, <- app_assoc in H1, H2. by split.
Qed.

(** A start that succeeds leaves the statistics at zero. *)
Lemma start_counted env c p :
  ps_start env (ps_new c) = (p, Ok ()) → counted [] p ∧ ps_config p = c.
Proof.
  unfold ps_start, worker_init, ps_new. cbn -[Z.ltb Z.leb Z.eqb]. intros H.
  repeat (case_match; simplify_eq; cbn -[Z.ltb Z.leb Z.eqb] in *); by split; [constructor|].
Qed.

Lemma wakeups_bound period turns : ∀ next,
  0 ≤ next → 0 < period → Forall (λ env, ∀ t, ie_actual env = Ok t → t ≤ 2 ^ 61) turns →
  Forall (λ x, Z.abs x ≤ 2 ^ 61) (wakeups period next turns) ∧ (length (wakeups period next turns) ≤ length turns)%nat.
Proof.
  induction turns as [|env turns IH]; intros next Hn Hp Ht; [by split|]. apply Forall_cons in Ht as [Ha Ht]. cbn [wakeups].
  destruct (_ || _); [split; [done|cbn; lia]|]. destruct (ie_actual env) as [t|]; [|split; [done|cbn; lia]].
  specialize (Ha t eq_refl). assert (Hx : Z.abs (lateness_of next t) ≤ 2 ^ 61).
  { unfold lateness_of. destruct (Z.ltb_spec next t); lia. }
  destruct (ie_finished env) as [fin|]; [|split; [by repeat constructor|cbn; lia]].
  destruct (missed_periods_spec period next fin Hp) as (Hm & _).
  destruct (IH (next + (missed_periods period next fin + 1) * period)) as [H1 H2]; [nia|done|done|].
  split; [by constructor|cbn [length]; lia].
Qed.

Lemma bench_options_valid args : ∀ o0 o, parse_bench_options args o0 = Some o → bench_options_in_range o = true.
Proof.
  remember (length args) as n eqn:Hn. assert (Hl : (length args ≤ n)%nat) by lia. clear Hn.
  revert args Hl. induction n as [|n IH]; intros [|arg args] Hl o0 o; cbn [length] in Hl; try lia; cbn [parse_bench_options].
  1,2: by destruct (bench_options_in_range o0) eqn:?; [intros [= <-]|].
  repeat (case_match; simplify_eq; try done); cbn [length] in Hl; intros; by (eapply IH; [|done]; lia).
Qed.

(** ** The report *)

Lemma stored_recorded cap xs : take (Z.to_nat (sample_count (stored cap xs))) (sb_samples (stored cap xs)) = take cap xs.
Proof.
  unfold sample_count. rewrite stored_length. cbn [stored sb_count sb_samples].
  replace (Z.to_nat _) with (length (take cap xs)) by (rewrite length_take; lia). apply take_app_length.
Qed.

Section Finish.
Context (f : FloatFormat) (o : BenchOptions) (file_opens : bool) (p : PeriodicScheduler) (xs : list Z).
Context (Hf : long_double_ok f) (Hx : Forall (λ x, Z.abs x ≤ 2 ^ 61) xs).
Let cap := Z.to_nat (sample_capacity o).

(** The samples file is written when a path was given and there are samples. *)
Definition file_wanted : bool := bo_enable_samples o && negb (bo_samples_path o =? "")%string && negb (bool_decide (xs = [])).

Lemma bench_finish_result :
  Z.of_nat (length xs) ≤ 2 ^ 53 → 0 < sample_capacity o →
  ∃ r, bench_finish f o file_opens p (buffer_of o xs) = Some r ∧
    (br_code r = 0 ↔ (bo_enable_samples o = true → (length xs ≤ cap)%nat) ∧ (file_wanted = true → file_opens = true)) ∧
    (br_code r = 0 → file_wanted = true → br_file r = Some (map pretty xs)) ∧
    run_report o p (buffer_of o xs) `prefix_of` br_stdout r.
Proof.
  intros Hl Hcap. unfold bench_finish, buffer_of, file_wanted. destruct (bo_enable_samples o); cbn [andb].
  2: { eexists. by split; [done|]. }
  fold cap. assert (Hcap' : (0 < cap)%nat) by (unfold cap; lia). rewrite stored_recorded.
  assert (Hov : (if sb_overflow (stored cap xs) then 1 else 0) = 0 ↔ (length xs ≤ cap)%nat).
  { cbn -[Nat.ltb]. destruct (Nat.ltb_spec cap (length xs)); lia. }
  assert (Hcnt : sample_count (stored cap xs) = Z.min (Z.of_nat (length xs)) (Z.of_nat cap)) by (unfold sample_count; by rewrite stored_length).
  rewrite Hcnt. set (code := if sb_overflow _ then _ else _) in *. clearbody code.
  destruct (Z.ltb_spec 0 (Z.min (Z.of_nat (length xs)) (Z.of_nat cap))) as [Hpos|Hpos].
  2: { assert (xs = []) as -> by (apply length_zero_iff_nil; lia). rewrite andb_false_r. eexists. split; [done|].
       cbn [br_code br_file br_stdout]. rewrite Hov. split_and!; try done.
       split; [by split|]. intros _. cbn. lia. }
  assert (Hne : xs ≠ []) by (intros ->; cbn in Hpos; lia). rewrite bool_decide_eq_false_2, andb_true_r by done.
  destruct (summary_total f 61 (take cap xs) Hf ltac:(lia)) as (s & -> & _).
  { destruct xs; [done|]. destruct cap; [lia|done]. }
  { rewrite length_take. lia. }
  { by apply Forall_take. }
  cbn [mbind option_bind]. destruct (bo_samples_path o =? "")%string, file_opens; cbn [negb];
    eexists; (split; [done|]); cbn [br_code br_file br_stdout]; rewrite ?Hov;
    (split_and!; [naive_solver| |by apply prefix_app_r]); try done.
  intros Hle _. by rewrite take_ge.
Qed.
End Finish.

(** A benchmark run whose options are accepted and whose worker starts always ends with
    a result: the percentile arithmetic is defined for what was recorded.  It exits with 0
    exactly when every wake-up found a place in the buffer and, where a samples file was
    asked for, the file could be opened; the file then holds the lateness of every wake-up,
    in order.  The cycles in the report are those wake-ups, and its least and greatest
    lateness are theirs. *)
Theorem bench_main_result f args env turns file_opens o now p :
  long_double_ok f → parse_bench_options args default_bench_options = Some o → se_now env = Ok now → 0 ≤ now →
  ps_start env (ps_new (bench_scheduler_config o)) = (p, Ok ()) →
  Forall (λ env, ∀ t, ie_actual env = Ok t → t ≤ 2 ^ 61) turns → Z.of_nat (length turns) ≤ 2 ^ 53 →
  let period := bo_period_us o * 1000 in
  let xs := wakeups period (now + period) turns in
  ∃ r q, bench_main f args env turns file_opens = Some r ∧
    (br_code r = 0 ↔ (bo_enable_samples o = true → Z.of_nat (length xs) ≤ sample_capacity o) ∧
                      (file_wanted o xs = true → file_opens = true)) ∧
    (br_code r = 0 → file_wanted o xs = true → br_file r = Some (map pretty xs)) ∧
    run_report o q (buffer_of o xs) `prefix_of` br_stdout r ∧ counted xs q.
Proof.
  intros Hf Hp Hnow Hn Hs Ht Hl. cbn zeta. pose proof (bench_options_valid _ _ _ Hp) as Ho.
  unfold bench_options_in_range in Ho. repeat (apply andb_true_iff in Ho as [Ho ?]).
  assert (Hper : 0 < bo_period_us o * 1000) by lia. assert (Hdur : 0 ≤ bo_duration_ms o * 1000 / bo_period_us o) by (apply Z.div_pos; lia).
  assert (Hcap : 0 < sample_capacity o).
  { unfold sample_capacity, expected_samples. assert (0 ≤ (bo_duration_ms o * 1000 / bo_period_us o + 16) / 4) by (apply Z.div_pos; lia). lia. }
  destruct (start_counted _ _ _ Hs) as [Hc Hcfg]. set (xs := wakeups _ _ _).
  destruct (wakeups_bound (bo_period_us o * 1000) turns (now + bo_period_us o * 1000)) as [Hx Hlen]; [lia|done|done|]. fold xs in Hx, Hlen.
  destruct (loop_records o turns (enter_loop now p (new_buffer o)) []) as [Hu Hq].
  { cbn. unfold new_buffer, buffer_of, stored. destruct (bo_enable_samples o); [|done]. by rewrite Nat.sub_0_r, take_nil. }
  { done. }
  { cbn. lia. }
  cbn [enter_loop ls_sched ls_next_ns app] in Hu, Hq. rewrite Hcfg in Hu, Hq. cbn [bench_scheduler_config sc_period] in Hu, Hq.
  fold xs in Hu, Hq. unfold bench_main. rewrite Hp, Hs, Hnow. cbn [value_or]. rewrite Hu.
  set (q := ls_sched _) in *. destruct (bench_finish_result f o file_opens q xs Hf Hx) as (r & Hr & Hcode & Hfile & Hpre); [lia|done|].
  exists r, q. split_and!; try done. rewrite Hcode. split; intros [Ha ?]; split; try done; intros He; specialize (Ha He); lia.
Qed.

(** A run of two wake-ups, the second after boundaries were missed. *)
Definition demo_args : list string := ["--duration-ms"; "5"; "--samples-out"; "samples.txt"].
Definition demo_start : StartEnv := mkStartEnv true 0 0 (Ok 1000).
Definition demo_turns : list IterEnv :=
  [mkIterEnv false [(0, false)] false (Ok 1001500) (Ok 3002000); mkIterEnv false [(0, false)] false (Ok 4001020) (Ok 4001050);
   mkIterEnv true [] false (Ok 0) (Ok 0)].

Lemma bench_main_result_witness :
  ∃ r, bench_main binary128 demo_args demo_start demo_turns true = Some r ∧ br_file r = Some ["500"; "20"].
Proof.
  destruct (bench_main_result binary128 demo_args demo_start demo_turns true
    (default_bench_options <| bo_duration_ms := 5 |> <| bo_samples_path := "samples.txt" |>) 1000
    (fst (ps_start demo_start (ps_new (bench_scheduler_config default_bench_options))))) as (r & q & Hr & Hcode & Hfile & _).
  - by constructor.
  - by vm_compute.
  - done.
  - lia.
  - by vm_compute.
  - repeat constructor; cbn; intros t [= <-]; lia.
  - by vm_compute.
  - exists r. split; [exact Hr|]. apply Hfile; [|by vm_compute]. apply Hcode. split; [|done]. intros _. by vm_compute.
Defined.
