(* ===== verification/Spsc.v ===== *)
(** * The queue between two threads

    [SpscQueue] of experiments/realtime_segmented/apps/rcr_rt6_segments.cpp: a ring with one
    producer and one consumer and no lock.  The atomic indices are kept with their
    modification orders: the thread that writes an index reads its own last value, the other
    one may read any value that is not older than what it has already seen, and sees what was
    written before that value was stored (store with release, load with acquire).  Each atomic
    access and each access to a slot is a step of its own. *)

From S2P Require Import Prelude Ring.

Section Queue.
Context {Slot : Type}.

(** ** The steps of the two operations *)

(** Where try_push is: before its next access. *)
Inductive PushPc :=
  | PIdle
  | PLoadTail (slot : Slot) (head next : nat)
  | PWrite (slot : Slot) (head next : nat)
  | PStoreHead (slot : Slot) (next : nat).

Inductive PopPc :=
  | CIdle
  | CLoadHead (tail : nat)
  | CRead (tail : nat)
  | CStoreTail (tail : nat) (out : Slot).

Record Queue := mkQueue {
  sq_capacity : nat;
  sq_storage : list Slot;
  sq_head : list nat;  (** modification order of head_, the last value at the end *)
  sq_tail : list nat;
  sq_tail_seen : nat;  (** place in tail_'s order the producer has seen *)
  sq_head_seen : nat;
  sq_push : PushPc;
  sq_pop : PopPc
}.

#[export] Instance Queue_eta : Eta Queue :=
  mkEta _ (fun q => mkQueue (sq_capacity q) (sq_storage q) (sq_head q) (sq_tail q) (sq_tail_seen q) (sq_head_seen q)
    (sq_push q) (sq_pop q)).

Definition queue_new (capacity : nat) (blank : Slot) : Queue :=
  mkQueue capacity (replicate capacity blank) [0] [0] 0 0 PIdle CIdle.

(** What a step tells: the answers of the two operations. *)
Inductive QueueEvent := Pushed (slot : Slot) | Refused (slot : Slot) | Popped (slot : Slot) | FoundEmpty.

Definition own_value (order : list nat) : nat := default 0 (last order).

(** A load of the other thread's index returns entry [at_], not before [seen]. *)
Definition load (order : list nat) (seen at_ : nat) : option nat := if seen <=? at_ then order !! at_ else None.

(** The step of the producer; [call] is the argument of a new call, [at_] the entry a load
    returns. *)
Definition push_step (call : Slot) (at_ : nat) (q : Queue) : option (Queue * option QueueEvent) :=
  match sq_push q with
  | PIdle =>
      let head := own_value (sq_head q) in
      Some (q <| sq_push := PLoadTail call head ((head + 1) mod sq_capacity q) |>, None)
  | PLoadTail slot head next =>
      match load (sq_tail q) (sq_tail_seen q) at_ with
      | None => None
      | Some tail =>
          let q := q <| sq_tail_seen := at_ |> in
          if next =? tail then Some (q <| sq_push := PIdle |>, Some (Refused slot))
          else Some (q <| sq_push := PWrite slot head next |>, None)
      end
  | PWrite slot head next =>
      Some (q <| sq_storage ::= <[head := slot]> |> <| sq_push := PStoreHead slot next |>, None)
  | PStoreHead slot next =>
      Some (q <| sq_head ::= λ order, order ++ [next] |> <| sq_push := PIdle |>, Some (Pushed slot))
  end.

(** The step of the consumer. *)
Definition pop_step (at_ : nat) (q : Queue) : option (Queue * option QueueEvent) :=
  match sq_pop q with
  | CIdle => Some (q <| sq_pop := CLoadHead (own_value (sq_tail q)) |>, None)
  | CLoadHead tail =>
      match load (sq_head q) (sq_head_seen q) at_ with
      | None => None
      | Some head =>
          let q := q <| sq_head_seen := at_ |> in
          if tail =? head then Some (q <| sq_pop := CIdle |>, Some FoundEmpty)
          else Some (q <| sq_pop := CRead tail |>, None)
      end
  | CRead tail =>
      match sq_storage q !! tail with
      | None => None
      | Some out => Some (q <| sq_pop := CStoreTail tail out |>, None)
      end
  | CStoreTail tail out =>
      Some (q <| sq_tail ::= λ order, order ++ [(tail + 1) mod sq_capacity q] |> <| sq_pop := CIdle |>, Some (Popped out))
  end.

(** The consumer learns by other means (a join, an event descriptor) that everything the
    producer has done so far is done. *)
Definition pop_synchronised (q : Queue) : Queue := q <| sq_head_seen := length (sq_head q) - 1 |>.

Inductive queue_step : Queue → list QueueEvent → Queue → Prop :=
  | step_push call at_ q q' e : push_step call at_ q = Some (q', e) → queue_step q (option_list e) q'
  | step_pop at_ q q' e : pop_step at_ q = Some (q', e) → queue_step q (option_list e) q'
  | step_synchronise q : queue_step q [] (pop_synchronised q).

(** The two histories. *)
Definition pushed (es : list QueueEvent) : list Slot := omap (λ e, match e with Pushed s => Some s | _ => None end) es.
Definition popped (es : list QueueEvent) : list Slot := omap (λ e, match e with Popped s => Some s | _ => None end) es.

(** ** Invariant *)

Definition counts (cap n : nat) : list nat := (λ i, i mod cap) <$> seq 0 (S n).

Record queue_inv (es : list QueueEvent) (q : Queue) : Prop := {
  qi_capacity : 2 ≤ sq_capacity q;
  qi_storage : length (sq_storage q) = sq_capacity q;
  qi_head : sq_head q = counts (sq_capacity q) (length (pushed es));
  qi_tail : sq_tail q = counts (sq_capacity q) (length (popped es));
  qi_order : sq_tail_seen q ≤ length (popped es) ∧ length (popped es) ≤ sq_head_seen q ∧ sq_head_seen q ≤ length (pushed es);
  qi_room : length (pushed es) ≤ sq_tail_seen q + (sq_capacity q - 1);
  qi_fifo : popped es `prefix_of` pushed es;
  qi_slots : ∀ k, length (popped es) ≤ k < length (pushed es) → sq_storage q !! (k mod sq_capacity q) = pushed es !! k;
  qi_push : match sq_push q with
            | PIdle => True
            | PLoadTail _ head next =>
                head = length (pushed es) mod sq_capacity q ∧ next = S (length (pushed es)) mod sq_capacity q
            | PWrite _ head next =>
                head = length (pushed es) mod sq_capacity q ∧ next = S (length (pushed es)) mod sq_capacity q ∧
                S (length (pushed es)) ≤ sq_tail_seen q + (sq_capacity q - 1)
            | PStoreHead slot next =>
                next = S (length (pushed es)) mod sq_capacity q ∧
                S (length (pushed es)) ≤ sq_tail_seen q + (sq_capacity q - 1) ∧
                sq_storage q !! (length (pushed es) mod sq_capacity q) = Some slot
            end;
  qi_pop : match sq_pop q with
           | CIdle => True
           | CLoadHead tail => tail = length (popped es) mod sq_capacity q
           | CRead tail => tail = length (popped es) mod sq_capacity q ∧ length (popped es) < sq_head_seen q
           | CStoreTail tail out =>
               tail = length (popped es) mod sq_capacity q ∧ length (popped es) < sq_head_seen q ∧
               pushed es !! length (popped es) = Some out
           end
}.

Lemma counts_lookup cap n i : i ≤ n → counts cap n !! i = Some (i mod cap).
Proof. intros Hi. unfold counts. rewrite list_lookup_fmap, lookup_seq_lt by lia. done. Qed.

Lemma counts_lookup_Some cap n i x : counts cap n !! i = Some x → i ≤ n ∧ x = i mod cap.
Proof. unfold counts. rewrite list_lookup_fmap. intros (j & Hj & ->)%fmap_Some. apply lookup_seq in Hj as [-> ?]. split; [lia|done]. Qed.

Lemma counts_snoc cap n : counts cap n ++ [S n mod cap] = counts cap (S n).
Proof. unfold counts. by rewrite (seq_S (S n)), fmap_app. Qed.

Lemma counts_length cap n : length (counts cap n) = S n.
Proof. unfold counts. by rewrite length_fmap, length_seq. Qed.

Lemma own_value_counts cap n : own_value (counts cap n) = n mod cap.
Proof. unfold own_value. destruct n as [|n]; [done|]. by rewrite <- counts_snoc, last_snoc. Qed.

Lemma next_index cap n : (n mod cap + 1) mod cap = S n mod cap.
Proof. rewrite Nat.Div0.add_mod_idemp_l. f_equal. lia. Qed.

(** Indices that agree modulo the capacity agree when they are close. *)
Lemma close_index cap a b : a ≤ b → b < a + cap → a mod cap = b mod cap → a = b.
Proof.
  intros Hab Hb Heq. replace b with (a + (b - a)) in Heq |- * by lia. rewrite <- (Nat.add_0_r a) in Heq at 1.
  apply mod_wrap_inj in Heq; lia.
Qed.

Lemma pushed_app es es' : pushed (es ++ es') = pushed es ++ pushed es'.
Proof. apply omap_app. Qed.
Lemma popped_app es es' : popped (es ++ es') = popped es ++ popped es'.
Proof. apply omap_app. Qed.

Lemma queue_new_inv cap blank : 2 ≤ cap → queue_inv [] (queue_new cap blank).
Proof.
  intros Hc. constructor; cbn; try done; try lia; [by rewrite length_replicate|..]; by rewrite ?Nat.mod_small by lia.
Qed.

Lemma push_step_inv es call at_ q q' e :
  queue_inv es q → push_step call at_ q = Some (q', e) → queue_inv (es ++ option_list e) q'.
Proof.
  intros [Hc Hst Hh Ht (Ho1 & Ho2 & Ho3) Hr Hf Hs Hpu Hpo] Hstep. unfold push_step in Hstep.
  destruct (sq_push q) as [|slot head next|slot head next|slot next] eqn:Hpc.
  - injection Hstep as <- <-. cbn. rewrite app_nil_r. constructor; cbn; try done.
    rewrite Hh, own_value_counts, next_index. done.
  - destruct (load _ _ at_) as [tail|] eqn:Hl; [|done]. unfold load in Hl. destruct (Nat.leb_spec (sq_tail_seen q) at_); [|done].
    rewrite Ht in Hl. apply counts_lookup_Some in Hl as [Hat ->]. destruct Hpu as [-> ->].
    destruct (Nat.eqb_spec (S (length (pushed es)) mod sq_capacity q) (at_ mod sq_capacity q)) as [Heq|Hne];
      injection Hstep as <- <-; cbn.
    + constructor; cbn; rewrite ?pushed_app, ?popped_app; cbn; rewrite ?app_nil_r; try done; lia.
    + rewrite app_nil_r. constructor; cbn; try done; try lia. split_and!; try done.
      assert (S (length (pushed es)) ≠ at_ + sq_capacity q); [|lia]. intros He. apply Hne. rewrite He.
      rewrite <- (Nat.Div0.mod_add at_ 1 (sq_capacity q)). f_equal. lia.
  - injection Hstep as <- <-. cbn. rewrite app_nil_r. destruct Hpu as (-> & -> & Hroom).
    assert (length (pushed es) mod sq_capacity q < sq_capacity q) by (apply Nat.mod_upper_bound; lia).
    constructor; cbn; try done; try lia.
    + by rewrite length_insert.
    + intros k Hk. rewrite list_lookup_insert_ne; [by apply Hs|]. intros Heq. symmetry in Heq. apply close_index in Heq; lia.
    + split_and!; try done. rewrite list_lookup_insert_eq by lia. done.
  - injection Hstep as <- <-. destruct Hpu as (-> & Hroom & Hslot).
    constructor; cbn; rewrite ?pushed_app, ?popped_app; cbn; rewrite ?app_nil_r, ?length_app; cbn; try done; try lia.
    + rewrite Hh, counts_snoc. by rewrite Nat.add_1_r.
    + by apply prefix_app_r.
    + intros k Hk. destruct (decide (k = length (pushed es))) as [->|].
      * by rewrite lookup_app_r, Nat.sub_diag by lia.
      * rewrite lookup_app_l by lia. apply Hs. lia.
    + destruct (sq_pop q); try done. destruct Hpo as (? & ? & Hp). split_and!; try done. by apply lookup_app_l_Some.
Qed.

Lemma pop_step_inv es at_ q q' e :
  queue_inv es q → pop_step at_ q = Some (q', e) → queue_inv (es ++ option_list e) q'.
Proof.
  intros [Hc Hst Hh Ht (Ho1 & Ho2 & Ho3) Hr Hf Hs Hpu Hpo] Hstep. unfold pop_step in Hstep.
  destruct (sq_pop q) as [|tail|tail|tail out] eqn:Hpc.
  - injection Hstep as <- <-. cbn. rewrite app_nil_r. constructor; cbn; try done. by rewrite Ht, own_value_counts.
  - destruct (load _ _ at_) as [head|] eqn:Hl; [|done]. unfold load in Hl. destruct (Nat.leb_spec (sq_head_seen q) at_); [|done].
    rewrite Hh in Hl. apply counts_lookup_Some in Hl as [Hat ->]. subst tail.
    destruct (Nat.eqb_spec (length (popped es) mod sq_capacity q) (at_ mod sq_capacity q)) as [Heq|Hne];
      injection Hstep as <- <-; cbn.
    + constructor; cbn; rewrite ?pushed_app, ?popped_app; cbn; rewrite ?app_nil_r; try done; lia.
    + rewrite app_nil_r. constructor; cbn; try done; try lia. split; [done|].
      assert (length (popped es) ≠ at_) by (intros He; by rewrite He in Hne). lia.
  - destruct (sq_storage q !! tail) as [out|] eqn:Hout; [|done]. injection Hstep as <- <-. cbn. rewrite app_nil_r.
    destruct Hpo as [-> Hlt]. constructor; cbn; try done. split_and!; try done. etrans; [symmetry; apply Hs; lia|done].
  - injection Hstep as <- <-. destruct Hpo as (-> & Hlt & Hout).
    constructor; cbn; rewrite ?pushed_app, ?popped_app; cbn; rewrite ?app_nil_r, ?length_app; cbn; try done; try lia.
    + rewrite Ht, next_index, counts_snoc. by rewrite Nat.add_1_r.
    + destruct Hf as [rest Hf]. rewrite Hf in Hout |- *. rewrite lookup_app_r, Nat.sub_diag in Hout by lia.
      destruct rest as [|x rest]; [done|]. injection Hout as ->. exists rest. by rewrite <- app_assoc.
    + intros k Hk. apply Hs. lia.
Qed.

Lemma synchronise_inv es q : queue_inv es q → queue_inv es (pop_synchronised q).
Proof.
  intros [Hc Hst Hh Ht (Ho1 & Ho2 & Ho3) Hr Hf Hs Hpu Hpo].
  assert (Hl : length (sq_head q) - 1 = length (pushed es)) by (rewrite Hh, counts_length; lia).
  constructor; cbn; try done; rewrite ?Hl; try lia.
  destruct (sq_pop q); try done; destruct_and?; split_and?; try done; lia.
Qed.

Lemma queue_step_inv es q e q' : queue_inv es q → queue_step q e q' → queue_inv (es ++ e) q'.
Proof.
  intros Hi Hs. revert Hi. destruct Hs as [call at_ q q' e H|at_ q q' e H|q]; intros Hi; [by eapply push_step_inv|by eapply pop_step_inv|].
  rewrite app_nil_r. by apply synchronise_inv.
Qed.

Lemma queue_run_inv es q ls q' : queue_inv es q → run queue_step q ls q' → queue_inv (es ++ concat ls) q'.
Proof.
  intros Hi Hr. revert es Hi. induction Hr as [|q e q1 ls q2 Hs _ IH]; intros es Hi; cbn; [by rewrite app_nil_r|].
  rewrite app_assoc. by apply IH, queue_step_inv with q.
Qed.

(** ** Refusals and the last pop *)

Definition refused (es : list QueueEvent) : list Slot := omap (λ e, match e with Refused s => Some s | _ => None end) es.

Lemma push_step_refused es call at_ q q' slot :
  queue_inv es q → push_step call at_ q = Some (q', Some (Refused slot)) → sq_capacity q - 1 ≤ length (pushed es).
Proof.
  intros [Hc Hst Hh Ht (Ho1 & Ho2 & Ho3) Hr Hf Hs Hpu Hpo] Hstep. unfold push_step in Hstep.
  destruct (sq_push q) as [|s head next|s head next|s next] eqn:Hpc; simplify_eq.
  destruct (load _ _ at_) as [tail|] eqn:Hl; [|done]. unfold load in Hl. destruct (Nat.leb_spec (sq_tail_seen q) at_); [|done].
  rewrite Ht in Hl. apply counts_lookup_Some in Hl as [Hat ->]. destruct Hpu as [-> ->].
  destruct (Nat.eqb_spec (S (length (pushed es)) mod sq_capacity q) (at_ mod sq_capacity q)) as [Heq|Hne]; [|done].
  destruct (Nat.le_gt_cases (sq_capacity q - 1) (length (pushed es))); [done|]. symmetry in Heq. apply close_index in Heq; lia.
Qed.

Lemma queue_step_capacity a e b : queue_step a e b → sq_capacity b = sq_capacity a.
Proof.
  intros [? ? ? ? ? H|? ? ? ? H|?]; [unfold push_step in H|unfold pop_step in H|done]; repeat case_match; by simplify_eq.
Qed.

Lemma queue_run_capacity q ls q' : run queue_step q ls q' → sq_capacity q' = sq_capacity q.
Proof. induction 1 as [|? ? ? ? ? Hs _ IH]; [done|]. rewrite IH. by eapply queue_step_capacity. Qed.

Lemma queue_run_refused es q ls q' :
  queue_inv es q → run queue_step q ls q' → refused (concat ls) ≠ [] →
  sq_capacity q' - 1 ≤ length (pushed (es ++ concat ls)).
Proof.
  intros Hi Hr. revert es Hi. induction Hr as [|q e q1 ls q2 Hs Hr IH]; intros es Hi Href; [done|]. cbn [concat] in *.
  pose proof (queue_step_inv _ _ _ _ Hi Hs) as Hi1.
  assert (Hle : length (pushed es) ≤ length (pushed (es ++ e ++ concat ls))) by (rewrite pushed_app, length_app; lia).
  destruct (decide (refused e = [])) as [He|He].
  { rewrite app_assoc. apply IH; [done|]. unfold refused in *. by rewrite omap_app, He in Href. }
  assert (Hc2 : sq_capacity q2 = sq_capacity q).
  { by rewrite (queue_run_capacity _ _ _ Hr), (queue_step_capacity _ _ _ Hs). }
  rewrite Hc2. etrans; [|exact Hle]. destruct Hs as [call at_ q q' [[]|] H|at_ q q' [[]|] H|q]; try done.
  - by eapply push_step_refused.
  - unfold pop_step in H. repeat case_match; simplify_eq.
Qed.

(** A consumer that has seen every push finds the queue empty only when it is. *)
Lemma pop_step_empty es at_ q q' :
  queue_inv es q → sq_head_seen q = length (pushed es) → pop_step at_ q = Some (q', Some FoundEmpty) → popped es = pushed es.
Proof.
  intros [Hc Hst Hh Ht (Ho1 & Ho2 & Ho3) Hr Hf Hs Hpu Hpo] Hseen Hstep. unfold pop_step in Hstep.
  destruct (sq_pop q) as [|tail|tail|tail out] eqn:Hpc; simplify_eq; [|by destruct (sq_storage q !! tail)].
  destruct (load _ _ at_) as [head|] eqn:Hl; [|done]. unfold load in Hl. destruct (Nat.leb_spec (sq_head_seen q) at_); [|done].
  rewrite Hh in Hl. apply counts_lookup_Some in Hl as [Hat ->]. assert (at_ = length (pushed es)) as -> by lia.
  destruct (Nat.eqb_spec (length (popped es) mod sq_capacity q) (length (pushed es) mod sq_capacity q)) as [Heq|]; [|done].
  apply close_index in Heq; [|lia..]. destruct Hf as [rest Hf]. rewrite Hf, length_app in Heq. destruct rest; [|cbn in Heq; lia].
  by rewrite Hf, app_nil_r.
Qed.

(** ** Results *)

Definition reachable (cap : nat) (blank : Slot) (es : list QueueEvent) (q : Queue) : Prop :=
  ∃ ls, run queue_step (queue_new cap blank) ls q ∧ es = concat ls.

Lemma queue_is_fifo_facts cap blank es q :
  2 ≤ cap → reachable cap blank es q →
  popped es `prefix_of` pushed es ∧ (refused es ≠ [] → cap - 1 ≤ length (pushed es)).
Proof.
  intros Hcap (ls & Hr & ->). pose proof (queue_new_inv cap blank Hcap) as H0.
  pose proof (queue_run_inv _ _ _ _ H0 Hr) as Hi. pose proof (queue_run_refused _ _ _ _ H0 Hr) as Href.
  rewrite (queue_run_capacity _ _ _ Hr) in Href. split; [apply Hi|exact Href].
Qed.

(** A load of tail_ that returns its entry [at_], the index after [at_] pops: the push is
    refused exactly when [cap - 1] elements are left then. *)
Lemma load_tail_decides es q call at_ slot head next :
  queue_inv es q → sq_push q = PLoadTail slot head next → sq_tail_seen q ≤ at_ ≤ length (popped es) →
  ∃ q' e, push_step call at_ q = Some (q', e) ∧
    if length (pushed es) =? at_ + (sq_capacity q - 1) then e = Some (Refused slot) ∧ sq_push q' = PIdle
    else e = None ∧ sq_push q' = PWrite slot head next.
Proof.
  intros [Hc Hst Hh Ht (Ho1 & Ho2 & Ho3) Hr Hf Hs Hpu Hpo] Hpc Hat. rewrite Hpc in Hpu. destruct Hpu as [Hhd Hnx].
  unfold push_step, load. rewrite Hpc, (proj2 (Nat.leb_le _ _)), Ht, counts_lookup by lia.
  assert (Heq : (next =? at_ mod sq_capacity q) = (length (pushed es) =? at_ + (sq_capacity q - 1))).
  { apply eq_true_iff_eq. rewrite !Nat.eqb_eq, Hnx. split; intros H.
    - symmetry in H. rewrite <- (Nat.Div0.mod_add at_ 1 (sq_capacity q)), Nat.mul_1_l in H.
      destruct (Nat.le_gt_cases (S (length (pushed es))) (at_ + sq_capacity q)); [|lia].
      symmetry in H. destruct (Nat.le_gt_cases (S (length (pushed es))) at_) as [Hx|Hx]; [lia|].
      apply close_index in H; lia.
    - replace (S (length (pushed es))) with (at_ + 1 * sq_capacity q) by lia. apply Nat.Div0.mod_add. }
  rewrite Heq. clear Heq. destruct (_ =? _); (eexists _, _; split; [reflexivity|by split]).
Qed.

(** A load of head_ that returns the index after [at_] pushes: the pop finds nothing exactly
    when it has taken them all. *)
Lemma load_head_decides es q at_ tail :
  queue_inv es q → sq_pop q = CLoadHead tail → sq_head_seen q ≤ at_ ≤ length (pushed es) →
  ∃ q' e, pop_step at_ q = Some (q', e) ∧
    if length (popped es) =? at_ then e = Some FoundEmpty ∧ sq_pop q' = CIdle
    else e = None ∧ sq_pop q' = CRead tail.
Proof.
  intros [Hc Hst Hh Ht (Ho1 & Ho2 & Ho3) Hr Hf Hs Hpu Hpo] Hpc Hat. rewrite Hpc in Hpo. subst tail.
  unfold pop_step, load. rewrite Hpc, (proj2 (Nat.leb_le _ _)), Hh, counts_lookup by lia.
  assert (Heq : (length (popped es) mod sq_capacity q =? at_ mod sq_capacity q) = (length (popped es) =? at_)).
  { apply eq_true_iff_eq. rewrite !Nat.eqb_eq. split; [|by intros ->]. intros H. apply close_index in H; lia. }
  rewrite Heq. clear Heq. destruct (_ =? _); (eexists _, _; split; [reflexivity|by split]).
Qed.

(** C35.  The queue between the two threads is a bounded queue, for every interleaving of the
    accesses and every stale value a load may return.  What was taken out is what was put in,
    in order, with at most one place less than the capacity in between.  A push whose load of
    tail_ shows [at_] of the pops is refused if, and only if, counting those the queue is full
    -- so with the newest value only when it is full; a pop whose load of head_ shows [at_] of
    the pushes finds nothing if, and only if, it has taken those.  The two threads never access
    the same slot at the same time, and no access is outside the storage. *)
Theorem queue_is_fifo cap blank es q :
  2 ≤ cap → reachable cap blank es q →
  popped es `prefix_of` pushed es ∧ length (pushed es) ≤ length (popped es) + (cap - 1) ∧
  (∀ call at_ slot head next,
     sq_push q = PLoadTail slot head next → sq_tail_seen q ≤ at_ ≤ length (popped es) →
     ∃ q' e, push_step call at_ q = Some (q', e) ∧
       if length (pushed es) =? at_ + (cap - 1) then e = Some (Refused slot) ∧ sq_push q' = PIdle
       else e = None ∧ sq_push q' = PWrite slot head next) ∧
  (∀ at_ tail,
     sq_pop q = CLoadHead tail → sq_head_seen q ≤ at_ ≤ length (pushed es) →
     ∃ q' e, pop_step at_ q = Some (q', e) ∧
       if length (popped es) =? at_ then e = Some FoundEmpty ∧ sq_pop q' = CIdle
       else e = None ∧ sq_pop q' = CRead tail) ∧
  (∀ slot head next tail, sq_push q = PWrite slot head next → sq_pop q = CRead tail → head ≠ tail) ∧
  (∀ slot head next, sq_push q = PWrite slot head next → head < length (sq_storage q)) ∧
  (∀ tail, sq_pop q = CRead tail → is_Some (sq_storage q !! tail)).
Proof.
  intros Hcap (ls & Hr & ->). pose proof (queue_new_inv cap blank Hcap) as H0.
  pose proof (queue_run_inv _ _ _ _ H0 Hr) as Hi. cbn [app] in *.
  assert (Hc : sq_capacity q = cap) by (by rewrite (queue_run_capacity _ _ _ Hr)).
  assert (Hpush := λ call at_ slot head next, load_tail_decides _ q call at_ slot head next Hi).
  assert (Hpop := λ at_ tail, load_head_decides _ q at_ tail Hi).
  destruct Hi as [_ Hst Hh Ht (Ho1 & Ho2 & Ho3) Hroom Hf Hs Hpu Hpo]. rewrite Hc in *. split_and!; try done; [lia|..].
  - intros slot head next tail H1 H2 ->. rewrite H1 in Hpu. rewrite H2 in Hpo. destruct Hpu as (-> & _ & ?), Hpo as [Heq ?].
    symmetry in Heq. apply close_index in Heq; lia.
  - intros slot head next H1. rewrite H1 in Hpu. destruct Hpu as (-> & _). rewrite Hst. apply Nat.mod_upper_bound. lia.
  - intros tail H2. rewrite H2 in Hpo. destruct Hpo as [-> ?]. rewrite Hs by lia. apply lookup_lt_is_Some. lia.
Qed.

(** Once the consumer knows that the producer is done, the first pop that finds nothing ends a
    complete drain. *)
Theorem drain_is_complete cap blank es q ls q' at_ q'' :
  2 ≤ cap → reachable cap blank es q → run queue_step (pop_synchronised q) ls q' → pushed (concat ls) = [] →
  pop_step at_ q' = Some (q'', Some FoundEmpty) → popped (es ++ concat ls) = pushed es.
Proof.
  intros Hcap (ls0 & Hr0 & ->) Hr Hno Hstep.
  pose proof (queue_run_inv _ _ _ _ (queue_new_inv cap blank Hcap) Hr0) as Hi. cbn [app] in Hi.
  pose proof (synchronise_inv _ _ Hi) as Hi0. pose proof (queue_run_inv _ _ _ _ Hi0 Hr) as Hi1.
  rewrite <- (app_nil_r (pushed (concat ls0))), <- Hno, <- pushed_app. apply (pop_step_empty _ at_ q' q''); [done| |done].
  assert (H0 : sq_head_seen (pop_synchronised q) = length (pushed (concat ls0))).
  { cbn. rewrite (qi_head _ _ Hi), counts_length. lia. }
  rewrite pushed_app, Hno, app_nil_r, <- H0. pose proof (qi_order _ _ Hi1) as (_ & _ & Hle).
  rewrite pushed_app, Hno, app_nil_r, <- H0 in Hle. apply Nat.le_antisymm; [done|].
  clear - Hr Hi0. revert Hi0. generalize (concat ls0). induction Hr as [|a e b ls c Hs Hr IH]; intros es Hi; [done|].
  etrans; [|by apply (IH (es ++ e)), (queue_step_inv _ a)]. destruct Hs as [? ? a b ? H|? a b ? H|a].
  - unfold push_step in H; repeat case_match; simplify_eq; done.
  - unfold pop_step, load in H; repeat case_match; simplify_eq; cbn; try done; by apply Nat.leb_le.
  - cbn. rewrite (qi_head _ _ Hi), counts_length. pose proof (qi_order _ _ Hi). lia.
Qed.

(** *** Schedules, to run *)

Inductive Move := MovePush (call : Slot) (at_ : nat) | MovePop (at_ : nat).

Definition move (m : Move) (q : Queue) : option (Queue * option QueueEvent) :=
  match m with MovePush call at_ => push_step call at_ q | MovePop at_ => pop_step at_ q end.

Fixpoint drive (ms : list Move) (q : Queue) : option (Queue * list QueueEvent) :=
  match ms with
  | [] => Some (q, [])
  | m :: ms =>
      match move m q with
      | None => None
      | Some (q, e) => match drive ms q with None => None | Some (q, es) => Some (q, option_list e ++ es) end
      end
  end.

Lemma drive_run ms : ∀ q q' es, drive ms q = Some (q', es) → ∃ ls, run queue_step q ls q' ∧ es = concat ls.
Proof.
  induction ms as [|m ms IH]; intros q q' es H; cbn in H; [injection H as <- <-; exists []; by split; [constructor|]|].
  destruct (move m q) as [[q1 e]|] eqn:Hm; [|done]. destruct (drive ms q1) as [[q2 es']|] eqn:Hd; [|done]. injection H as <- <-.
  destruct (IH _ _ _ Hd) as (ls & Hr & ->). exists (option_list e :: ls). split; [|done]. eapply run_cons; [|done].
  destruct m; [by eapply step_push|by eapply step_pop].
Qed.
End Queue.

(** A pop that finds nothing while a push is under way, then the push and a pop. *)
Definition demo_moves : list Move :=
  [MovePush 7 0; MovePush 7 0; MovePush 7 0; MovePop 0; MovePop 0; MovePush 7 0; MovePop 1; MovePop 1; MovePop 1; MovePop 1].

Lemma queue_is_fifo_witness :
  ∃ q es, drive demo_moves (queue_new 2 0) = Some (q, es) ∧ es = [FoundEmpty; Pushed 7; Popped 7] ∧
    popped es `prefix_of` pushed es.
Proof.
  destruct (drive demo_moves (queue_new 2 0)) as [[q es]|] eqn:Hd; [|by vm_compute in Hd].
  exists q, es. split; [done|]. split; [by vm_compute in Hd; injection Hd|].
  destruct (queue_is_fifo 2 0 es q) as [H _]; [lia| |exact H]. by eapply drive_run.
Defined.
