(* ===== verification/Segments.v ===== *)
(** * Segmented latencies

    experiments/realtime_segmented/apps/rcr_rt6_segments.cpp around its queue (see Spsc): the
    scheduler's callback publishes a slot per tick, the I/O thread completes the slots it
    takes out, and the run reports the segments of each.  Clock readings, what epoll returns
    and whether a push was accepted are inputs. *)

From stdpp Require Import sorting.
From S2P Require Import Prelude Types Scheduler Bytes CommandLine Doubles Rounding Stats Spsc.
Local Open Scope Z_scope.

(** ** Options *)

Record SegOptions := mkSegOptions {
  go_mode : string; go_ticks : Z; go_period_us : Z; go_busy_us : Z; go_fifo : Z; go_cpu : Z; go_self_check : bool
}.

#[export] Instance SegOptions_eta : Eta SegOptions :=
  mkEta _ (fun o => mkSegOptions (go_mode o) (go_ticks o) (go_period_us o) (go_busy_us o) (go_fifo o) (go_cpu o) (go_self_check o)).

Definition default_seg_options : SegOptions := mkSegOptions "baseline" 2000 1000 500 0 (-1) false.

(** [std::strtol] in base ten: 0 without digits, the nearest limit out of range. *)
Definition strtol (text : list Z) : Z :=
  let '(negative, l) := read_sign (skip_space text) in
  match digits l with
  | None => 0
  | Some (v, _) =>
      let v := if negative : bool then - v else v in
      if v <? - 2 ^ 63 then - 2 ^ 63 else if 2 ^ 63 <=? v then 2 ^ 63 - 1 else v
  end.

Definition int_of (text : string) : Z := i32 (strtol (str_bytes text)).

Definition seg_options_in_range (o : SegOptions) : bool :=
  (0 <? go_ticks o) && (go_ticks o <=? 1000000) && (0 <? go_period_us o) && (0 <=? go_busy_us o) &&
  (0 <=? go_fifo o) && (go_fifo o <=? 99).

Fixpoint parse_seg_options (args : list string) (o : SegOptions) : option SegOptions :=
  match args with
  | [] => if seg_options_in_range o then Some o else None
  | a :: rest =>
      if (a =? "--self-check")%string then parse_seg_options rest (o <| go_self_check := true |>)
      else if (a =? "--help")%string || (a =? "-h")%string then None
      else match rest with
      | [] => None
      | value :: rest =>
          if (a =? "--mode")%string then parse_seg_options rest (o <| go_mode := value |>)
          else if (a =? "--ticks")%string then parse_seg_options rest (o <| go_ticks := int_of value |>)
          else if (a =? "--period-us")%string then parse_seg_options rest (o <| go_period_us := int_of value |>)
          else if (a =? "--busy-us")%string then parse_seg_options rest (o <| go_busy_us := int_of value |>)
          else if (a =? "--fifo")%string then parse_seg_options rest (o <| go_fifo := int_of value |>)
          else if (a =? "--cpu")%string then parse_seg_options rest (o <| go_cpu := int_of value |>)
          else None
      end
  end.

(** ** Statistics *)

Definition percentile_sorted (v : list Z) (p : double) : option Z :=
  match v with
  | [] => Some 0
  | _ =>
      let v := merge_sort Z.le v in
      idx ← to_size (d_floor (dmul p (d_of_Z (Z.of_nat (length v) - 1))));
      v !! idx
  end.

Record SegStats := mkSegStats { sg_min_ns : Z; sg_p50_ns : Z; sg_p99_ns : Z; sg_max_ns : Z; sg_n : Z }.

Definition summarize (samples : list Z) : option SegStats :=
  match samples with
  | [] => Some (mkSegStats 0 0 0 0 0)
  | _ =>
      let tmp := merge_sort Z.le samples in
      front ← head tmp;
      back ← last tmp;
      p50 ← percentile_sorted samples (d_lit 50 2);
      p99 ← percentile_sorted samples (d_lit 99 2);
      Some (mkSegStats front p50 p99 back (Z.of_nat (length samples)))
  end.

(** ** The two threads *)

Record PublishSlot := mkPublishSlot {
  pl_seq : Z; pl_t_sched : Z; pl_t_wake : Z; pl_t_cb_begin : Z; pl_t_publish : Z; pl_t_cb_end : Z
}.

Definition blank_slot : PublishSlot := mkPublishSlot 0 0 0 0 0 0.

(** What a call of the callback meets: its two clock readings, whether the push is accepted. *)
Record CallEnv := mkCallEnv { ce_begin : Z; ce_publish : Z; ce_accepted : bool }.

(** The callback's variables; [cb_slots] lists what it offered to the queue. *)
Record Producer := mkProducer {
  cb_ticks_left : Z; cb_drops : Z; cb_stop : bool; cb_slots : list (PublishSlot * bool); cb_env : list CallEnv
}.

#[export] Instance Producer_eta : Eta Producer :=
  mkEta _ (fun s => mkProducer (cb_ticks_left s) (cb_drops s) (cb_stop s) (cb_slots s) (cb_env s)).

Definition slot_of (tick : SchedulerTick) (e : CallEnv) : PublishSlot :=
  mkPublishSlot (tk_sequence tick) (tk_scheduled_ns tick) (tk_actual_ns tick) (ce_begin e) (ce_publish e) (ce_publish e).

Definition segment_callback (tick : SchedulerTick) (s : Producer) : Producer * bool :=
  let left := cb_ticks_left s in
  let s := s <| cb_ticks_left := left - 1 |> in
  if left <=? 0 then (s <| cb_stop := true |>, true)
  else
    match cb_env s with
    | [] => (s, true)  (** past the given calls *)
    | e :: env =>
        let s := s <| cb_env := env |> <| cb_slots ::= λ l, l ++ [(slot_of tick e, ce_accepted e)] |> in
        let s := if ce_accepted e then s else s <| cb_drops ::= incr64 |> in
        (if left =? 1 then s <| cb_stop := true |> else s, true)
    end.

(** [request_stop] of the callback is seen at the top of the next turn. *)
Definition stop_seen (env : IterEnv) (stop : bool) : IterEnv :=
  mkIterEnv (ie_stop_before env || stop) (ie_sleeps env) (ie_stop_after env) (ie_actual env) (ie_finished env).

Fixpoint produce (envs : list IterEnv) (l : LoopState Producer) : LoopState Producer :=
  match envs with
  | [] => l
  | env :: envs =>
      match iterate segment_callback (stop_seen env (cb_stop (ls_user l))) l with
      | Continue l => produce envs l
      | Break l => mkLoopState (ls_sched l <| ps_running := false |>) (ls_next_ns l) (ls_sequence l) (ls_user l)
      end
  end.

Record SegCompleted := mkSegCompleted {
  sc_wakeup_ns : Z; sc_callback_ns : Z; sc_queue_ns : Z; sc_io_ack_ns : Z; sc_e2e_ns : Z
}.

(** A slot that was taken out, with the clock before and after the work on it. *)
Definition Taken : Type := PublishSlot * Z * Z.

Definition complete (t : Taken) : SegCompleted :=
  let '(slot, t_io, t_ack) := t in
  mkSegCompleted (Z.max 0 (pl_t_wake slot - pl_t_sched slot)) (Z.max 0 (pl_t_cb_end slot - pl_t_cb_begin slot))
    (Z.max 0 (t_io - pl_t_publish slot)) (Z.max 0 (t_ack - t_io)) (Z.max 0 (t_ack - pl_t_sched slot)).

(** A turn of the I/O thread: what epoll_wait returns and shows, what each of the three loops
    takes out before it finds the queue empty, and the two readings of producer_done. *)
Record IoTurn := mkIoTurn {
  iu_n : Z; iu_interrupted : bool; iu_stop : bool; iu_first : list Taken;
  iu_after_stop : list Taken; iu_done_after_stop : bool; iu_done : bool; iu_last : list Taken
}.

(** How the thread ends. *)
Inductive IoEnd := IoStopped | IoTimedOut | IoFailed.

Definition io_turn (t : IoTurn) (done : list SegCompleted) : list SegCompleted * option IoEnd :=
  if (iu_n t <? 0) && iu_interrupted t then (done, None)
  else if iu_n t <? 0 then (done, Some IoFailed)
  else
    let done := done ++ map complete (iu_first t) in
    let done := if iu_stop t then done ++ map complete (iu_after_stop t) else done in
    if iu_stop t && iu_done_after_stop t then (done, Some IoStopped)
    else if iu_done t && (iu_n t =? 0) then (done ++ map complete (iu_last t), Some IoTimedOut)
    else (done, None).

Fixpoint io_thread (turns : list IoTurn) (done : list SegCompleted) : list SegCompleted * option IoEnd :=
  match turns with
  | [] => (done, None)
  | t :: turns =>
      match io_turn t done with
      | (done, None) => io_thread turns done
      | r => r
      end
  end.

(** What the thread took out. *)
Definition turn_taken (t : IoTurn) : list Taken :=
  if iu_n t <? 0 then []
  else iu_first t ++ (if iu_stop t then iu_after_stop t else []) ++
       (if negb (iu_stop t && iu_done_after_stop t) && iu_done t && (iu_n t =? 0) then iu_last t else []).

(** What it took out until it ended. *)
Fixpoint io_taken (turns : list IoTurn) : list Taken :=
  match turns with
  | [] => []
  | t :: turns => turn_taken t ++ match snd (io_turn t []) with None => io_taken turns | Some _ => [] end
  end.

(** ** A run *)

Record SegRun := mkSegRun {
  sr_mode : string; sr_outcome : string; sr_fifo_error : Z; sr_fifo_enabled : bool; sr_cycles : Z; sr_deadline_misses : Z;
  sr_drops : Z; sr_completed : Z; sr_wakeup : SegStats; sr_callback : SegStats; sr_queue : SegStats; sr_io_ack : SegStats;
  sr_e2e : SegStats
}.

#[export] Instance SegRun_eta : Eta SegRun :=
  mkEta _ (fun r => mkSegRun (sr_mode r) (sr_outcome r) (sr_fifo_error r) (sr_fifo_enabled r) (sr_cycles r) (sr_deadline_misses r)
    (sr_drops r) (sr_completed r) (sr_wakeup r) (sr_callback r) (sr_queue r) (sr_io_ack r) (sr_e2e r)).

Definition no_stats : SegStats := mkSegStats 0 0 0 0 0.
Definition new_run (mode : string) : SegRun :=
  mkSegRun mode "pass" 0 false 0 0 0 0 no_stats no_stats no_stats no_stats no_stats.

(** What the run meets: the descriptors, the start, the worker's turns, the callback's calls
    and the I/O thread's turns. *)
Record RunEnv := mkRunEnv {
  rn_notify : bool; rn_stop : bool; rn_epoll : bool; rn_add_wake : bool; rn_add_stop : bool;
  rn_start : StartEnv; rn_turns : list IterEnv; rn_calls : list CallEnv; rn_io : list IoTurn
}.

Definition queue_capacity (o : SegOptions) : Z := Z.max (go_ticks o + 8) 64.

Definition seg_scheduler_config (o : SegOptions) : SchedulerConfig :=
  mkSchedulerConfig (go_period_us o * 1000) (go_fifo o) (0 <? go_fifo o) (go_cpu o).

Definition new_producer (o : SegOptions) (e : RunEnv) : Producer := mkProducer (go_ticks o) 0 false [] (rn_calls e).

(** The worker after its turns. *)
Definition worker_end (o : SegOptions) (e : RunEnv) (p : PeriodicScheduler) : LoopState Producer :=
  produce (rn_turns e) (enter_loop (value_or 0 (se_now (rn_start e))) p (new_producer o e)).

Definition run_once (o : SegOptions) (mode : string) (e : RunEnv) : option SegRun :=
  let out := new_run mode in
  if negb (rn_notify e && rn_stop e) then Some (out <| sr_outcome := "failed" |>)
  else if negb (rn_epoll e) then Some (out <| sr_outcome := "failed" |>)
  else if negb (rn_add_wake e) then Some (out <| sr_outcome := "failed" |>)
  else if negb (rn_add_stop e) then Some (out <| sr_outcome := "failed" |>)
  else
    match ps_start (rn_start e) (ps_new (seg_scheduler_config o)) with
    | (p, Err err) =>
        if (0 <? go_fifo o) && (err_code err ==? Errc.Rejected)
        then Some (out <| sr_outcome := "permission_denied" |> <| sr_fifo_error := ps_fifo_error p |>)
        else Some (out <| sr_outcome := "failed" |>)
    | (p, Ok _) =>
        let l := worker_end o e p in
        let st := ls_sched l in
        let out := out <| sr_cycles := ps_cycles st |> <| sr_deadline_misses := ps_deadline_misses st |>
                       <| sr_fifo_enabled := ps_fifo_enabled st |> <| sr_fifo_error := ps_fifo_error st |> in
        if (0 <? go_fifo o) && negb (ps_fifo_enabled st) then Some (out <| sr_outcome := "permission_denied" |>)
        else
          let done := fst (io_thread (rn_io e) []) in
          let out := out <| sr_drops := cb_drops (ls_user l) |> <| sr_completed := Z.of_nat (length done) |> in
          wakeup ← summarize (map sc_wakeup_ns done);
          callback ← summarize (map sc_callback_ns done);
          queue ← summarize (map sc_queue_ns done);
          io_ack ← summarize (map sc_io_ack_ns done);
          e2e ← summarize (map sc_e2e_ns done);
          Some (out <| sr_wakeup := wakeup |> <| sr_callback := callback |> <| sr_queue := queue |>
                    <| sr_io_ack := io_ack |> <| sr_e2e := e2e |>)
    end.

(** ** The program *)

(** [main] given the runs; [None]: undefined arithmetic in one of them. *)
Definition segments_main (args : list string) (env : string → RunEnv) : option Z :=
  match parse_seg_options args default_seg_options with
  | None => Some 2
  | Some o =>
      if (go_mode o =? "compare")%string || go_self_check o then
        r0 ← run_once o "baseline" (env "baseline");
        if (sr_outcome r0 =? "permission_denied")%string then Some 77
        else if negb (sr_outcome r0 =? "pass")%string || (sr_completed r0 =? 0) then Some 1
        else
          r1 ← run_once o "cb_busy" (env "cb_busy");
          if negb (sr_outcome r1 =? "pass")%string || (sr_completed r1 =? 0) then Some 1
          else
            r2 ← run_once o "io_busy" (env "io_busy");
            if negb (sr_outcome r2 =? "pass")%string || (sr_completed r2 =? 0) then Some 1
            else if go_self_check o then
              let floor := go_busy_us o * 1000 / 2 in
              if sg_p50_ns (sr_callback r1) <? floor then Some 1
              else if sg_p50_ns (sr_io_ack r2) <? floor then Some 1
              else if negb (sg_p50_ns (sr_callback r0) <? sg_p50_ns (sr_callback r1)) then Some 1
              else if negb (sg_p50_ns (sr_io_ack r0) <? sg_p50_ns (sr_io_ack r2)) then Some 1
              else Some 0
            else Some 0
      else
        r ← run_once o (go_mode o) (env (go_mode o));
        if (sr_outcome r =? "permission_denied")%string then Some 77
        else Some (if (sr_outcome r =? "pass")%string && (0 <? sr_completed r) then 0 else 1)
  end.

(** ** Statistics are defined *)

Lemma place_of samples x :
  samples ≠ [] → Z.of_nat (length samples) ≤ 2 ^ 53 → bounded_by 1 0 x → nonneg x →
  ∃ v, percentile_sorted samples x = Some v ∧ v ∈ samples.
Proof.
  intros Hne Hl Hb Hs. unfold percentile_sorted. destruct samples as [|a rest] eqn:Hsm; [done|]. rewrite <- Hsm in *.
  rewrite sorted_length. assert (Hfl : 0 ≤ d_floor (dmul x (d_of_Z (Z.of_nat (length samples) - 1))) ≤ Z.of_nat (length samples) - 1).
  { destruct (Z.eq_dec (Z.of_nat (length samples) - 1) 0) as [->|].
    - destruct x as [s|?| |s m e]; try done; destruct s; cbn; lia.
    - apply part_floor; [done|done|]. rewrite Hsm in *. cbn [length] in *. lia. }
  rewrite to_size_some by lia. cbn [mbind option_bind].
  assert (Z.to_nat (d_floor (dmul x (d_of_Z (Z.of_nat (length samples) - 1)))) < length (merge_sort Z.le samples))%nat as [v Hv]%lookup_lt_is_Some.
  { rewrite sorted_length. rewrite Hsm in *. cbn [length] in *. lia. }
  exists v. split; [done|]. rewrite <- (merge_sort_Permutation Z.le). by eapply list_elem_of_lookup_2.
Qed.

Lemma summarize_total samples :
  Z.of_nat (length samples) ≤ 2 ^ 53 →
  ∃ s, summarize samples = Some s ∧ sg_n s = Z.of_nat (length samples) ∧
    (samples ≠ [] →
       (sg_min_ns s ∈ samples ∧ Forall (Z.le (sg_min_ns s)) samples) ∧
       (sg_max_ns s ∈ samples ∧ Forall (λ x, x ≤ sg_max_ns s) samples) ∧ sg_p50_ns s ∈ samples ∧ sg_p99_ns s ∈ samples).
Proof.
  intros Hl. destruct (decide (samples = [])) as [->|Hne]; [by eexists|].
  destruct (place_of samples (d_lit 50 2) Hne Hl) as (p50 & H50 & Hi50); [by vm_compute|done|].
  destruct (place_of samples (d_lit 99 2) Hne Hl) as (p99 & H99 & Hi99); [by vm_compute|done|].
  assert (Hlen : (length samples - 1 < length samples)%nat) by (destruct samples; [done|cbn; lia]).
  rewrite <- sorted_length in Hlen at 2. apply lookup_lt_is_Some in Hlen as [back Hback].
  assert (H0 : (0 < length (merge_sort Z.le samples))%nat) by (rewrite sorted_length; destruct samples; [done|cbn; lia]).
  apply lookup_lt_is_Some in H0 as [front Hfront].
  exists (mkSegStats front p50 p99 back (Z.of_nat (length samples))). unfold summarize. rewrite H50, H99.
  rewrite head_lookup, last_lookup, sorted_length, Hfront. replace (Nat.pred (length samples)) with (length samples - 1)%nat by lia.
  rewrite Hback. cbn [mbind option_bind]. split; [by destruct samples|]. split; [done|]. intros _. split_and!; try done.
  all: first [by apply (sorted_first samples front)|by apply (sorted_last samples back)].
Qed.

(** ** The I/O thread *)

Lemma io_turn_taken t done : fst (io_turn t done) = done ++ map complete (turn_taken t) ∧ snd (io_turn t done) = snd (io_turn t []).
Proof.
  unfold io_turn, turn_taken. destruct (iu_n t <? 0); cbn [andb].
  { destruct (iu_interrupted t); cbn; by rewrite app_nil_r. }
  destruct (iu_stop t), (iu_done_after_stop t), (iu_done t), (iu_n t =? 0); cbn [andb negb];
    rewrite ?map_app; cbn [map fst snd]; rewrite ?app_nil_r, ?app_assoc, ?app_nil_r; done.
Qed.

Lemma io_thread_taken turns : ∀ done, fst (io_thread turns done) = done ++ map complete (io_taken turns).
Proof.
  induction turns as [|t turns IH]; intros done; cbn [io_thread io_taken]; [by rewrite app_nil_r|].
  destruct (io_turn_taken t done) as [H1 H2]. destruct (io_turn t done) as [done' end_]. cbn [fst snd] in *. subst.
  destruct (snd (io_turn t [])); cbn [fst]; [by rewrite app_nil_r|]. rewrite IH, map_app. by rewrite app_assoc.
Qed.

(** ** The callback *)

Definition accepted_slots (l : list (PublishSlot * bool)) : list PublishSlot := omap (λ x, if snd x : bool then Some (fst x) else None) l.
Definition refused_slots (l : list (PublishSlot * bool)) : list PublishSlot := omap (λ x, if snd x : bool then None else Some (fst x)) l.

(** A slot per tick, until the ticks are used up. *)
Record offering (ticks : Z) (calls : list CallEnv) (s : Producer) : Prop := {
  of_count : Z.of_nat (length (cb_slots s)) = ticks - Z.max 0 (cb_ticks_left s);
  of_calls : Z.max 0 (cb_ticks_left s) ≤ Z.of_nat (length (cb_env s));
  of_used : Forall (λ e, e ∈ calls) (cb_env s);
  of_stop : cb_stop s = true ↔ cb_ticks_left s ≤ 0;
  of_drops : cb_drops s = Z.of_nat (length (refused_slots (cb_slots s)));
  of_times : Forall (λ x, ∃ e, e ∈ calls ∧ pl_t_cb_begin (fst x) = ce_begin e ∧ pl_t_cb_end (fst x) = ce_publish e ∧
                                snd x = ce_accepted e) (cb_slots s)
}.

Lemma slots_partition l : length l = (length (accepted_slots l) + length (refused_slots l))%nat.
Proof. induction l as [|[s []] l IH]; cbn; [done|..]; unfold accepted_slots, refused_slots in *; lia. Qed.

Lemma callback_offers ticks calls tick s :
  ticks < 2 ^ 64 - 1 → offering ticks calls s →
  offering ticks calls (fst (segment_callback tick s)) ∧ snd (segment_callback tick s) = true.
Proof.
  intros Ht [Hc He Hu Hst Hd Hf]. unfold segment_callback. destruct (Z.leb_spec (cb_ticks_left s) 0) as [Hle|Hgt].
  { split; [|done]. constructor; cbn; try done; lia. }
  cbn [cb_env update eta Producer_eta]. destruct (cb_env s) as [|e env] eqn:Henv; [cbn in He; lia|].
  pose proof (slots_partition (cb_slots s)) as Hp.
  assert (Hnew : offering ticks calls (mkProducer (cb_ticks_left s - 1)
    (if ce_accepted e then cb_drops s else incr64 (cb_drops s)) (cb_ticks_left s =? 1) (cb_slots s ++ [(slot_of tick e, ce_accepted e)]) env)).
  { constructor; cbn; rewrite ?length_app; cbn; try lia.
    - cbn in He. lia.
    - by apply Forall_cons in Hu as [_ Hu].
    - unfold refused_slots. rewrite omap_app. cbn. destruct (ce_accepted e); cbn.
      + rewrite app_nil_r. done.
      + rewrite length_app. cbn. unfold incr64. rewrite Hd, u64_small by (unfold refused_slots in *; width_lia). unfold refused_slots. lia.
    - apply Forall_app_2; [done|]. repeat constructor. exists e. split_and!; try done. by apply Forall_cons in Hu as [Hu _]. }
  assert (Hns : cb_stop s = false) by (destruct (cb_stop s); [|done]; destruct Hst as [Hst _]; specialize (Hst eq_refl); lia).
  destruct (ce_accepted e), (cb_ticks_left s =? 1); split; try done; destruct s; cbn in *; by rewrite ?Hns in *.
Qed.

(** No request to stop from outside. *)
Definition undisturbed (envs : list IterEnv) : Prop := Forall (λ env, ie_stop_before env = false ∧ ie_stop_after env = false) envs.

Lemma iterate_offers ticks calls env (l : LoopState Producer) :
  ticks < 2 ^ 64 - 1 → offering ticks calls (ls_user l) →
  match iterate segment_callback env l with
  | Continue l' =>
      offering ticks calls (ls_user l') ∧ ps_fifo_enabled (ls_sched l') = ps_fifo_enabled (ls_sched l) ∧
      ps_running (ls_sched l') = ps_running (ls_sched l) ∧ ps_worker_error (ls_sched l') = ps_worker_error (ls_sched l)
  | Break l' =>
      offering ticks calls (ls_user l') ∧ ps_fifo_enabled (ls_sched l') = ps_fifo_enabled (ls_sched l) ∧
      (ps_worker_error (ls_sched l') = 0 → ie_stop_after env = false → ie_stop_before env = true ∧ ls_user l' = ls_user l)
  end.
Proof.
  intros Ht Ho. unfold iterate, fail_worker. destruct (ie_stop_before env); [by split_and!|]. cbv zeta.
  destruct (ie_stop_after env); [by split_and!|]. destruct (Z.eqb_spec (sleep_until (ie_sleeps env)) 0); cbn [negb]; [|by split_and!].
  destruct (ie_actual env) as [actual|]; [|by split_and!]. set (x := lateness_of _ actual).
  set (tick := mkSchedulerTick _ _ _ _). destruct (callback_offers ticks calls tick (ls_user l) Ht Ho) as [H1 H2].
  destruct (segment_callback tick (ls_user l)) as [user ok]. cbn in H1, H2. subst ok.
  assert (Hf : ps_fifo_enabled (count_lateness x (ls_sched l)) = ps_fifo_enabled (ls_sched l) ∧
    ps_running (count_lateness x (ls_sched l)) = ps_running (ls_sched l) ∧
    ps_worker_error (count_lateness x (ls_sched l)) = ps_worker_error (ls_sched l)) by (unfold count_lateness; by destruct (_ =? 1)).
  destruct Hf as (Hf1 & Hf2 & Hf3). destruct (ie_finished env); by split_and!.
Qed.

Lemma produce_offers ticks calls envs : ∀ l,
  ticks < 2 ^ 64 - 1 → offering ticks calls (ls_user l) →
  let l' := produce envs l in
  offering ticks calls (ls_user l') ∧ ps_fifo_enabled (ls_sched l') = ps_fifo_enabled (ls_sched l) ∧
  (undisturbed envs → ps_running (ls_sched l) = true → ps_running (ls_sched l') = false → ps_worker_error (ls_sched l') = 0 →
   cb_ticks_left (ls_user l') ≤ 0).
Proof.
  induction envs as [|env envs IH]; intros l Ht Ho; cbn [produce]; [split_and!; try done; intros; congruence|].
  pose proof (iterate_offers ticks calls (stop_seen env (cb_stop (ls_user l))) l Ht Ho) as Hi.
  destruct (iterate _ _ l) as [l1|l1].
  - destruct Hi as (H1 & H2 & H3 & H4). destruct (IH l1 Ht H1) as (H5 & H6 & H7). split_and!; [done|congruence|].
    intros Hu Hr. apply Forall_cons in Hu as [_ Hu]. apply H7; [done|congruence].
  - destruct Hi as (H1 & H2 & H3). split_and!; try done. intros Hu Hr _ He. apply Forall_cons in Hu as [[Hb Ha] _].
    destruct (H3 He Ha) as [Hs Heq]. cbn in Hs. rewrite Hb in Hs. cbn [ls_user]. rewrite Heq. by apply (of_stop _ _ _ Ho).
Qed.

(** ** Results *)

Lemma start_fifo env c p :
  0 ≤ sc_fifo_priority c → sc_require_fifo c = (0 <? sc_fifo_priority c) → ps_start env (ps_new c) = (p, Ok ()) →
  (0 < sc_fifo_priority c → ps_fifo_enabled p = true) ∧ ps_running p = true ∧ ps_worker_error p = 0.
Proof.
  intros Hc Hreq. unfold ps_start, worker_init, ps_new. cbn -[Z.ltb Z.leb Z.eqb]. rewrite Hreq. intros H.
  repeat (case_match; simplify_eq; cbn -[Z.ltb Z.leb Z.eqb] in *; try done); split_and!; try done; intros; bools; try lia.
  all: rewrite Hreq in *; bools; lia.
Qed.

(** The threads worked on one queue: the callback's pushes and the I/O thread's pops are those
    of a run of the queue, and the thread's last loop found the queue empty after it had
    learnt that the producer was done. *)
Definition shared_queue (o : SegOptions) (offered : list (PublishSlot * bool)) (taken : list Taken) : Prop :=
  ∃ es q ls q' at_ q'',
    reachable (Z.to_nat (queue_capacity o)) blank_slot es q ∧ run queue_step (pop_synchronised q) ls q' ∧
    pushed (concat ls) = [] ∧ pop_step at_ q' = Some (q'', Some FoundEmpty) ∧
    pushed es = accepted_slots offered ∧ refused es = refused_slots offered ∧
    popped (es ++ concat ls) = map (λ t, fst (fst t)) taken.

Section Run.
Context (o : SegOptions) (mode : string) (e : RunEnv) (p : PeriodicScheduler).
Context (Ho : seg_options_in_range o = true) (Hcalls : go_ticks o ≤ Z.of_nat (length (rn_calls e))).
Context (Hstart : ps_start (rn_start e) (ps_new (seg_scheduler_config o)) = (p, Ok ())).
Let l := worker_end o e p.

Lemma worker_offers :
  offering (go_ticks o) (rn_calls e) (ls_user l) ∧ ((0 < go_fifo o → ps_fifo_enabled (ls_sched l) = true)) ∧
  (undisturbed (rn_turns e) → ps_running (ls_sched l) = false → ps_worker_error (ls_sched l) = 0 →
   cb_ticks_left (ls_user l) ≤ 0).
Proof.
  unfold seg_options_in_range in Ho. bools.
  destruct (start_fifo (rn_start e) (seg_scheduler_config o) p ltac:(done) eq_refl Hstart) as (Hf & Hr & He).
  destruct (produce_offers (go_ticks o) (rn_calls e) (rn_turns e) (enter_loop (value_or 0 (se_now (rn_start e))) p (new_producer o e)))
    as (H7 & H8 & H9); [lia| |].
  { constructor; cbn; try done; try lia. by apply Forall_forall. }
  fold (worker_end o e p) in H7, H8, H9. fold l in H7, H8, H9. split_and!; try done.
  - intros. rewrite H8. by apply Hf.
  - intros. by apply H9.
Qed.

(** What a run that passed reports. *)
Lemma run_once_pass out :
  run_once o mode e = Some out → sr_outcome out = "pass"%string →
  sr_drops out = cb_drops (ls_user l) ∧ sr_completed out = Z.of_nat (length (io_taken (rn_io e))) ∧
  summarize (map sc_callback_ns (map complete (io_taken (rn_io e)))) = Some (sr_callback out).
Proof.
  unfold run_once. rewrite Hstart. fold l. intros H Hp. repeat (case_match; simplify_eq; try done).
  rewrite io_thread_taken in H. cbn [app] in H.
  destruct (summarize (map sc_wakeup_ns _)) as [w|]; [|done]. cbn [mbind option_bind] in H.
  destruct (summarize (map sc_callback_ns _)) as [c|]; [|done]. cbn [mbind option_bind] in H.
  destruct (summarize (map sc_queue_ns _)) as [q|]; [|done]. cbn [mbind option_bind] in H.
  destruct (summarize (map sc_io_ack_ns _)) as [i|]; [|done]. cbn [mbind option_bind] in H.
  destruct (summarize (map sc_e2e_ns _)) as [x|]; [|done]. injection H as <-. cbn. by rewrite length_map.
Qed.
End Run.

(** Every slot that was offered is taken out, and none was refused. *)
Lemma all_taken o offered taken :
  0 < go_ticks o → Z.of_nat (length offered) ≤ go_ticks o → shared_queue o offered taken →
  refused_slots offered = [] ∧ map (λ t : Taken, fst (fst t)) taken = map fst offered.
Proof.
  intros Ht Hn (es & q & ls & q' & at_ & q'' & Hr & Hr' & Hno & Hpop & Hacc & Href & Htk).
  assert (Hcap : go_ticks o + 8 ≤ queue_capacity o) by (unfold queue_capacity; lia).
  pose proof (slots_partition offered) as Hpart.
  destruct (queue_is_fifo_facts (Z.to_nat (queue_capacity o)) blank_slot es q ltac:(lia) Hr) as (_ & Hrefuse).
  assert (Hnone : refused_slots offered = []).
  { destruct (refused_slots offered) as [|x r] eqn:Hx; [done|]. rewrite Hacc, Href in Hrefuse. specialize (Hrefuse ltac:(done)). lia. }
  assert (Hall : accepted_slots offered = map fst offered).
  { clear - Hnone. unfold refused_slots, accepted_slots in *.
    induction offered as [|[s []] offered IH]; cbn in *; [done| |done]. f_equal. by apply IH. }
  split; [done|]. etrans; [symmetry; exact Htk|]. rewrite <- Hall, <- Hacc.
  exact (drain_is_complete (Z.to_nat (queue_capacity o)) _ _ _ _ _ _ _ ltac:(lia) Hr Hr' Hno Hpop).
Qed.

(** A run of the segmented benchmark loses nothing: with the queue's capacity chosen from
    the number of ticks no slot is ever refused, and the I/O thread, which leaves its loop
    after a last drain, completes every slot the callback published, in order.  When the
    worker was neither disturbed nor failed, that is one per requested tick. *)
Theorem segments_lossless o mode e p out :
  seg_options_in_range o = true → go_ticks o ≤ Z.of_nat (length (rn_calls e)) →
  ps_start (rn_start e) (ps_new (seg_scheduler_config o)) = (p, Ok ()) →
  run_once o mode e = Some out → sr_outcome out = "pass"%string →
  shared_queue o (cb_slots (ls_user (worker_end o e p))) (io_taken (rn_io e)) →
  sr_drops out = 0 ∧
  map (λ t, fst (fst t)) (io_taken (rn_io e)) = map fst (cb_slots (ls_user (worker_end o e p))) ∧
  sr_completed out = Z.of_nat (length (cb_slots (ls_user (worker_end o e p)))) ∧ sr_completed out ≤ go_ticks o ∧
  (undisturbed (rn_turns e) → ps_running (ls_sched (worker_end o e p)) = false →
   ps_worker_error (ls_sched (worker_end o e p)) = 0 → sr_completed out = go_ticks o).
Proof.
  intros Ho Hc Hs Hrun Hpass Hq.
  destruct (worker_offers o e p Ho Hc Hs) as ([Hn _ _ _ Hd _] & _ & Hend).
  destruct (run_once_pass o mode e p Hs out Hrun Hpass) as (Hdrops & Hcomp & _).
  set (w := worker_end o e p) in *. set (slots := cb_slots (ls_user w)) in *.
  assert (0 < go_ticks o) by (unfold seg_options_in_range in Ho; bools; lia).
  destruct (all_taken o slots (io_taken (rn_io e))) as [Hnone Htk]; [done|lia|done|].
  assert (Hlen : length (io_taken (rn_io e)) = length slots) by (apply (f_equal length) in Htk; by rewrite !length_map in Htk).
  rewrite Hdrops, Hd, Hcomp, Hnone, Hlen. split_and!; try done; [lia|]. intros H1 H2 H3. specialize (Hend H1 H2 H3). lia.
Qed.

(** With the callback spinning, its segment shows it: the self-check's floor is reached. *)
Theorem busy_callback_shows o mode e p out :
  seg_options_in_range o = true → go_ticks o ≤ Z.of_nat (length (rn_calls e)) →
  ps_start (rn_start e) (ps_new (seg_scheduler_config o)) = (p, Ok ()) →
  run_once o mode e = Some out → sr_outcome out = "pass"%string → 0 < sr_completed out →
  shared_queue o (cb_slots (ls_user (worker_end o e p))) (io_taken (rn_io e)) →
  Forall (λ c, ce_begin c + go_busy_us o * 1000 ≤ ce_publish c) (rn_calls e) →
  go_busy_us o * 1000 / 2 ≤ sg_p50_ns (sr_callback out).
Proof.
  intros Ho Hc Hs Hrun Hpass Hpos Hq Hbusy. destruct (worker_offers o e p Ho Hc Hs) as ([Hn _ _ _ _ Hf] & _ & _).
  destruct (run_once_pass o mode e p Hs out Hrun Hpass) as (_ & Hcomp & Hsum).
  set (slots := cb_slots (ls_user (worker_end o e p))) in *. unfold seg_options_in_range in Ho. bools.
  destruct (all_taken o slots (io_taken (rn_io e))) as [_ Htk]; [done|lia|done|].
  assert (Hlen : length (io_taken (rn_io e)) = length slots) by (apply (f_equal length) in Htk; by rewrite !length_map in Htk).
  destruct (summarize_total (map sc_callback_ns (map complete (io_taken (rn_io e))))) as (s & Hs' & _ & Hin); [rewrite !length_map; lia|].
  rewrite Hs' in Hsum. injection Hsum as ->. destruct Hin as (_ & _ & Hin & _).
  { destruct (io_taken (rn_io e)); [cbn in Hcomp; lia|done]. }
  apply list_elem_of_fmap in Hin as (c & Hc50 & Hin). apply list_elem_of_fmap in Hin as ([[slot t_io] t_ack] & -> & Hin). rewrite Hc50.
  assert (Hslot : slot ∈ map fst slots) by (rewrite <- Htk; apply list_elem_of_fmap; by exists (slot, t_io, t_ack)).
  apply list_elem_of_fmap in Hslot as (x & -> & Hx). eapply Forall_forall in Hf as (ev & Hev & Hb & He & _); [|exact Hx].
  eapply Forall_forall in Hbusy; [|exact Hev]. cbn in *. assert (go_busy_us o * 1000 / 2 ≤ go_busy_us o * 1000); [|lia].
  apply Z.div_le_upper_bound; lia.
Qed.

(** One tick, published and completed. *)
Definition demo_seg_options : SegOptions := default_seg_options <| go_ticks := 1 |>.
Definition demo_slot : PublishSlot := mkPublishSlot 1 1001000 1001500 1001600 1001700 1001700.
Definition demo_run : RunEnv :=
  mkRunEnv true true true true true (mkStartEnv true 0 0 (Ok 1000))
    [mkIterEnv false [(0, false)] false (Ok 1001500) (Ok 1001800); mkIterEnv false [] false (Ok 0) (Ok 0)]
    [mkCallEnv 1001600 1001700 true]
    [mkIoTurn 1 false false [(demo_slot, 1001750, 1001760)] [] false false []; mkIoTurn 1 false true [] [] true false []].

Lemma demo_shared : shared_queue demo_seg_options [(demo_slot, true)] (io_taken (rn_io demo_run)).
Proof.
  destruct (drive (repeat (MovePush demo_slot 0) 4) (queue_new 64 blank_slot)) as [[q es]|] eqn:H1; [|by vm_compute in H1].
  destruct (drive [MovePop 1; MovePop 1; MovePop 1; MovePop 1; MovePop 1] (pop_synchronised q)) as [[q' es']|] eqn:H2.
  2: { vm_compute in H1. injection H1 as <- _. by vm_compute in H2. }
  destruct (drive_run _ _ _ _ H1) as (ls0 & Hr0 & Hes0). destruct (drive_run _ _ _ _ H2) as (ls & Hr & Hes).
  vm_compute in H1. injection H1 as Hq He. rewrite <- Hq in H2. vm_compute in H2. injection H2 as Hq' He'.
  exists es, q, ls, q', 1%nat, (q' <| sq_head_seen := 1%nat |> <| sq_pop := CIdle |>).
  split; [by exists ls0|]. split; [done|]. rewrite <- Hes. clear Hr Hr0 Hes Hes0. subst. by vm_compute.
Qed.

Lemma segments_lossless_witness :
  ∃ out, run_once demo_seg_options "baseline" demo_run = Some out ∧ sr_drops out = 0 ∧ sr_completed out = 1.
Proof.
  destruct (run_once demo_seg_options "baseline" demo_run) as [out|] eqn:Hr; [|by vm_compute in Hr]. exists out. split; [done|].
  destruct (segments_lossless demo_seg_options "baseline" demo_run
    (fst (ps_start (rn_start demo_run) (ps_new (seg_scheduler_config demo_seg_options)))) out) as (H1 & _ & H2 & _).
  - by vm_compute.
  - by vm_compute.
  - by vm_compute.
  - exact Hr.
  - vm_compute in Hr. by injection Hr as <-.
  - replace (cb_slots _) with [(demo_slot, true)] by (by vm_compute). apply demo_shared.
  - split; [exact H1|]. rewrite H2. by vm_compute.
Defined.
