(* ===== verification/CyclePath.v ===== *)
(** * Work inside a cycle

    experiments/realtime_userspace/apps/rcr_rt3_cycle_path.cpp: a periodic loop of its own that
    measures what allocation, formatting, printing or spinning costs inside a cycle.  The clock
    readings before and after the work are inputs. *)

From stdpp Require Import sorting.
From S2P Require Import Prelude Types Scheduler Bytes CommandLine Doubles Rounding Stats Spsc Segments.
Local Open Scope Z_scope.

(** ** Options *)

Record CycleOptions := mkCycleOptions { yo_mode : string; yo_ticks : Z; yo_period_us : Z; yo_busy_us : Z; yo_self_check : bool }.

#[export] Instance CycleOptions_eta : Eta CycleOptions :=
  mkEta _ (fun o => mkCycleOptions (yo_mode o) (yo_ticks o) (yo_period_us o) (yo_busy_us o) (yo_self_check o)).

Definition default_cycle_options : CycleOptions := mkCycleOptions "compare" 2000 1000 0 false.

Definition cycle_options_in_range (o : CycleOptions) : bool :=
  (0 <? yo_ticks o) && (yo_ticks o <=? 1000000) && (0 <? yo_period_us o) && (0 <=? yo_busy_us o).

Fixpoint parse_cycle_options (args : list string) (o : CycleOptions) : option CycleOptions :=
  match args with
  | [] => if cycle_options_in_range o then Some o else None
  | a :: rest =>
      if (a =? "--self-check")%string then parse_cycle_options rest (o <| yo_self_check := true |>)
      else if (a =? "--help")%string || (a =? "-h")%string then None
      else match rest with
      | [] => None
      | value :: rest =>
          if (a =? "--mode")%string then parse_cycle_options rest (o <| yo_mode := value |>)
          else if (a =? "--ticks")%string then parse_cycle_options rest (o <| yo_ticks := int_of value |>)
          else if (a =? "--period-us")%string then parse_cycle_options rest (o <| yo_period_us := int_of value |>)
          else if (a =? "--busy-us")%string then parse_cycle_options rest (o <| yo_busy_us := int_of value |>)
          else None
      end
  end.

(** ** Statistics *)

Record CycleStats := mkCycleStats { cy_min_ns : Z; cy_max_ns : Z; cy_p99_ns : Z; cy_miss : Z }.

(** [None]: a read outside the samples. *)
Definition cycle_summarize (samples : list Z) (miss : Z) : option CycleStats :=
  match samples with
  | [] => Some (mkCycleStats 0 0 0 miss)
  | _ =>
      let sorted := merge_sort Z.le samples in
      front ← head sorted;
      back ← last sorted;
      p99 ← sorted !! ((length sorted - 1) * 99 / 100)%nat;
      Some (mkCycleStats front back p99 miss)
  end.

(** ** The loop *)

(** [while (next < end) next += period]; the fuel is what fits before [end_ns], and one more. *)
Fixpoint skip_old (fuel : nat) (next end_ns period : Z) : Z :=
  match fuel with
  | O => next
  | S fuel => if next <? end_ns then skip_old fuel (next + period) end_ns period else next
  end.

Definition advance (next end_ns period : Z) : Z :=
  skip_old (Z.to_nat ((end_ns - next) / period + 2)) (next + period) end_ns period.

Record CycleState := mkCycleState { ct_next : Z; ct_samples : list Z; ct_misses : Z }.

(** A tick with the clock before and after its work. *)
Definition cycle_tick (period : Z) (s : CycleState) (t : Z * Z) : CycleState :=
  let '(start, end_ns) := t in
  mkCycleState (advance (ct_next s) end_ns period) (ct_samples s ++ [end_ns - start])
    (if ct_next s + period <? end_ns then ct_misses s + 1 else ct_misses s).

(** A run's clock: its reading before the first tick, and the two of each tick. *)
Record CycleClock := mkCycleClock { cc_entered : Z; cc_tick : nat → Z * Z }.

Definition cycle_readings (o : CycleOptions) (c : CycleClock) : list (Z * Z) := cc_tick c <$> seq 0 (Z.to_nat (yo_ticks o)).

Definition cycle_start (o : CycleOptions) (c : CycleClock) : CycleState :=
  mkCycleState (cc_entered c + yo_period_us o * 1000) [] 0.

Definition cycle_loop (o : CycleOptions) (c : CycleClock) : option CycleStats :=
  let s := foldl (cycle_tick (yo_period_us o * 1000)) (cycle_start o c) (cycle_readings o c) in
  cycle_summarize (ct_samples s) (ct_misses s).

(** [main]: the exit code; [runs] gives each run's clock. *)
Definition cycle_main (args : list string) (runs : string → CycleClock) : option Z :=
  match parse_cycle_options args default_cycle_options with
  | None => Some 1
  | Some o =>
      let run o mode := cycle_loop o (runs mode) in
      if (yo_mode o =? "compare")%string then
        bad ← run o "alloc_format"%string;
        good ← run o "prealloc"%string;
        Some (if yo_self_check o && (cy_max_ns bad * 5 + 1000000 <? cy_max_ns good) then 1 else 0)
      else
        let o := if (yo_mode o =? "busy")%string && (yo_busy_us o <=? 0) then o <| yo_busy_us := 3000 |> else o in
        stats ← run o (yo_mode o);
        Some (if yo_self_check o && (yo_mode o =? "busy")%string && (cy_miss stats <=? 0) then 1 else 0)
  end.

(** ** The statistics are defined *)

Lemma cycle_summarize_total samples miss :
  ∃ s, cycle_summarize samples miss = Some s ∧ cy_miss s = miss ∧
    (samples ≠ [] → (cy_min_ns s ∈ samples ∧ Forall (Z.le (cy_min_ns s)) samples) ∧
                     (cy_max_ns s ∈ samples ∧ Forall (λ x, x ≤ cy_max_ns s) samples) ∧ cy_p99_ns s ∈ samples).
Proof.
  destruct (decide (samples = [])) as [->|Hne]; [by eexists|].
  assert (Hlen : (0 < length samples)%nat) by (destruct samples; [done|cbn; lia]).
  assert (Hidx : ((length samples - 1) * 99 / 100 < length (merge_sort Z.le samples))%nat).
  { rewrite sorted_length. apply Nat.Div0.div_lt_upper_bound. lia. }
  apply lookup_lt_is_Some in Hidx as [p99 Hp99].
  assert (H0 : (0 < length (merge_sort Z.le samples))%nat) by (by rewrite sorted_length).
  apply lookup_lt_is_Some in H0 as [front Hfront].
  assert (H1 : (length samples - 1 < length (merge_sort Z.le samples))%nat) by (rewrite sorted_length; lia).
  apply lookup_lt_is_Some in H1 as [back Hback]. exists (mkCycleStats front back p99 miss). unfold cycle_summarize.
  rewrite head_lookup, last_lookup, sorted_length, Hfront, Hp99. replace (Nat.pred (length samples)) with (length samples - 1)%nat by lia.
  rewrite Hback. cbn [mbind option_bind]. split; [by destruct samples|]. split; [done|]. intros _.
  destruct (sorted_first samples front Hfront) as [? ?], (sorted_last samples back Hback) as [? ?]. split_and!; try done.
  cbn. rewrite <- (merge_sort_Permutation Z.le). by eapply list_elem_of_lookup_2.
Qed.

(** ** The grid *)

Lemma skip_old_spec fuel : ∀ next end_ns period,
  0 < period → (end_ns - next) / period < Z.of_nat fuel →
  ∃ k, 0 ≤ k ∧ skip_old fuel next end_ns period = next + k * period ∧ end_ns ≤ next + k * period ∧
       (0 < k → next + k * period < end_ns + period).
Proof.
  induction fuel as [|fuel IH]; intros next end_ns period Hp Hf; cbn [skip_old].
  { exists 0.
    assert (end_ns - next < 0) by (destruct (Z_lt_le_dec (end_ns - next) 0); [done|]; pose proof (Z.div_pos (end_ns - next) period); lia).
    split_and!; lia. }
  destruct (Z.ltb_spec next end_ns) as [Hlt|Hge]; [|exists 0; split_and!; lia].
  destruct (IH (next + period) end_ns period Hp) as (k & Hk & -> & H1 & H2).
  { replace (end_ns - (next + period)) with (end_ns - next + (-1) * period) by lia. rewrite Z.div_add by lia. lia. }
  exists (k + 1). split_and!; try lia; intros; destruct (Z.eq_dec k 0) as [->|]; lia.
Qed.

(** The next boundary is the scheduler's, except after work that ended exactly on a later
    boundary: the loop takes that boundary itself, the scheduler the one after it. *)
Theorem cycle_grid next end_ns period :
  0 < period →
  advance next end_ns period =
  next + (missed_periods period next end_ns + 1) * period -
  (if (next + period <=? end_ns) && ((end_ns - next) mod period =? 0) then period else 0).
Proof.
  intros Hp. unfold advance, missed_periods.
  destruct (skip_old_spec (Z.to_nat ((end_ns - next) / period + 2)) (next + period) end_ns period Hp) as (k & Hk & -> & H1 & H2).
  { replace (end_ns - (next + period)) with (end_ns - next + (-1) * period) by lia. rewrite Z.div_add by lia.
    destruct (Z_lt_le_dec ((end_ns - next) / period + 2) 0); lia. }
  pose proof (Z.div_mod (end_ns - next) period ltac:(lia)) as Hd. pose proof (Z.mod_pos_bound (end_ns - next) period Hp) as Hm.
  set (q := (end_ns - next) / period) in *. set (r := (end_ns - next) mod period) in *.
  destruct (Z.leb_spec (next + period) end_ns) as [Hle|Hgt]; cbn [andb].
  - destruct (Z.eqb_spec r 0) as [Hr|Hr].
    + assert (k = q - 1); [|nia]. destruct (Z.eq_dec k 0); [nia|]. nia.
    + assert (k = q); [|nia]. destruct (Z.eq_dec k 0); [nia|]. nia.
  - assert (k = 0); [|nia]. destruct (Z.eq_dec k 0); [done|]. nia.
Qed.

(** ** The busy self-check *)

Lemma cycle_options_valid args : ∀ o0 o, parse_cycle_options args o0 = Some o → cycle_options_in_range o = true.
Proof.
  remember (length args) as n eqn:Hn. assert (Hl : (length args ≤ n)%nat) by lia. clear Hn.
  revert args Hl. induction n as [|n IH]; intros [|arg args] Hl o0 o; cbn [length] in Hl; try lia; cbn [parse_cycle_options].
  1,2: by destruct (cycle_options_in_range o0) eqn:?; [intros [= <-]|].
  repeat (case_match; simplify_eq; try done); cbn [length] in Hl; intros; by (eapply IH; [|done]; lia).
Qed.

(** Work that wakes at its boundary or later and takes longer than a period misses. *)
Fixpoint overrun (period : Z) (s : CycleState) (ticks : list (Z * Z)) : Prop :=
  match ticks with
  | [] => True
  | t :: ticks => ct_next s ≤ fst t ∧ fst t + period < snd t ∧ overrun period (cycle_tick period s t) ticks
  end.

Lemma overrun_misses period ticks : ∀ s,
  overrun period s ticks → ct_misses (foldl (cycle_tick period) s ticks) = ct_misses s + Z.of_nat (length ticks).
Proof.
  induction ticks as [|[start end_ns] ticks IH]; intros s Ho; cbn [foldl length]; [lia|]. destruct Ho as (H1 & H2 & Ho).
  rewrite IH by done. cbn in *. rewrite (proj2 (Z.ltb_lt _ _)) by lia. lia.
Qed.

(** The self-check of the busy mode passes when the spin is longer than the period; every tick
    is then a miss. *)
Theorem busy_self_check args runs o :
  parse_cycle_options args default_cycle_options = Some o → yo_mode o = "busy"%string →
  overrun (yo_period_us o * 1000) (cycle_start o (runs "busy"%string)) (cycle_readings o (runs "busy"%string)) →
  cycle_main args runs = Some 0.
Proof.
  intros Hp Hm Ho. assert (Ht : 0 < yo_ticks o).
  { pose proof (cycle_options_valid _ _ _ Hp) as Hr. unfold cycle_options_in_range in Hr. bools. lia. }
  unfold cycle_main. rewrite Hp, Hm. cbn [String.eqb Ascii.eqb Bool.eqb andb].
  set (o' := if yo_busy_us o <=? 0 then _ else _). assert (Hper : yo_period_us o' = yo_period_us o) by (unfold o'; by destruct (_ <=? _)).
  assert (Hmode : yo_mode o' = "busy"%string) by (unfold o'; by destruct (_ <=? _)).
  assert (Hself : yo_self_check o' = yo_self_check o) by (unfold o'; by destruct (_ <=? _)). rewrite Hmode.
  assert (Hticks : yo_ticks o' = yo_ticks o) by (unfold o'; by destruct (_ <=? _)).
  unfold cycle_loop, cycle_readings, cycle_start. rewrite Hper, Hticks. set (s := foldl _ _ _).
  destruct (cycle_summarize_total (ct_samples s) (ct_misses s)) as (st & -> & Hmiss & _). cbn [mbind option_bind].
  assert (0 < cy_miss st); [|rewrite (proj2 (Z.leb_gt _ _)) by done; by rewrite andb_false_r].
  rewrite Hmiss. unfold s. unfold cycle_readings, cycle_start in Ho. rewrite overrun_misses by done.
  rewrite length_fmap, length_seq. cbn. lia.
Qed.

Definition demo_cycle_args : list string := ["--mode"; "busy"; "--ticks"; "2"; "--self-check"].
Definition demo_cycle_runs (mode : string) : CycleClock :=
  mkCycleClock 0 (λ i, if (i =? 0)%nat then (1000100, 4000200) else (5000010, 8000100)).

Lemma busy_self_check_witness : cycle_main demo_cycle_args demo_cycle_runs = Some 0.
Proof.
  apply (busy_self_check demo_cycle_args demo_cycle_runs
    (default_cycle_options <| yo_mode := "busy" |> <| yo_ticks := 2 |> <| yo_self_check := true |>)); try by vm_compute.
Defined.
