(* ===== verification/TestRunner.v ===== *)
(** * The test runner

    services/test_runner.cpp: one test case at a time goes through prepare, execute,
    evaluate and cleanup, with cancellation and a deadline checked between the steps, and
    a result that carries evidence for every failure. *)

From S2P Require Import Prelude Types Application Doubles.
Local Open Scope Z_scope.

(** ** Data *)

Module RunStage.
Inductive TestRunStage := Idle | Preparing | Executing | Evaluating | CleaningUp | Completed.
End RunStage.
Notation TestRunStage := RunStage.TestRunStage.

Module Outcome.
Inductive TestOutcome := Passed | Failed | Error | Aborted | Skipped.
End Outcome.
Notation TestOutcome := Outcome.TestOutcome.

Module Cleanup.
Inductive CleanupStatus := NotRun | Passed | Failed.
End Cleanup.
Notation CleanupStatus := Cleanup.CleanupStatus.

Module Quality.
Inductive MeasurementQuality := Valid | Simulated | Invalid.
End Quality.
Notation MeasurementQuality := Quality.MeasurementQuality.

#[export] Instance RunStage_eq_dec : EqDecision TestRunStage.
Proof. solve_decision. Defined.
#[export] Instance Outcome_eq_dec : EqDecision TestOutcome.
Proof. solve_decision. Defined.
#[export] Instance Cleanup_eq_dec : EqDecision CleanupStatus.
Proof. solve_decision. Defined.

Definition stage_to_string (s : TestRunStage) : string :=
  match s with
  | RunStage.Idle => "IDLE"
  | RunStage.Preparing => "PREPARING"
  | RunStage.Executing => "EXECUTING"
  | RunStage.Evaluating => "EVALUATING"
  | RunStage.CleaningUp => "CLEANING_UP"
  | RunStage.Completed => "COMPLETED"
  end.

Definition outcome_to_string (o : TestOutcome) : string :=
  match o with
  | Outcome.Passed => "PASS"
  | Outcome.Failed => "FAIL"
  | Outcome.Error => "ERROR"
  | Outcome.Aborted => "ABORTED"
  | Outcome.Skipped => "SKIPPED"
  end.

Definition cleanup_to_string (s : CleanupStatus) : string :=
  match s with
  | Cleanup.NotRun => "NOT_RUN"
  | Cleanup.Passed => "PASSED"
  | Cleanup.Failed => "FAILED"
  end.

Definition quality_to_string (q : MeasurementQuality) : string :=
  match q with
  | Quality.Valid => "VALID"
  | Quality.Simulated => "SIMULATED"
  | Quality.Invalid => "INVALID"
  end.

Record Measurement := mkMeasurement {
  me_name : string;
  me_unit : string;
  me_value : double;
  me_monotonic_ns : Z;
  me_quality : MeasurementQuality
}.

Record CriterionResult := mkCriterion {
  ct_name : string;
  ct_passed : bool;
  ct_expected : string;
  ct_actual : string
}.

Record TestEvaluation := mkEvaluation {
  ev_passed : bool;
  ev_summary : string;
  ev_criteria : list CriterionResult
}.

Record TestParameter := mkParameter { tp_name : string; tp_value : string }.

Record TestRunEnvironment := mkRunEnvironment {
  en_backend : string;
  en_interface_name : string;
  en_dut_id : string;
  en_profile : string;
  en_evidence : EvidenceClass
}.

Record TestRunProvenance := mkProvenance {
  pv_git_commit : string;
  pv_git_dirty : bool;
  pv_build_type : string
}.

(** The part of a result a test case adds to, through its context. *)
Record RunLog := mkRunLog {
  rl_measurements : list Measurement;
  rl_diagnostics : list DiagnosticEvent;
  rl_parameters : list TestParameter;
  rl_environment : TestRunEnvironment
}.

#[export] Instance RunLog_eta : Eta RunLog :=
  mkEta _ (fun l => mkRunLog (rl_measurements l) (rl_diagnostics l) (rl_parameters l) (rl_environment l)).

Record TestResult := mkTestResult {
  tr_run_id : string;
  tr_case_id : string;
  tr_case_name : string;
  tr_case_version : string;
  tr_outcome : TestOutcome;
  tr_started_ns : Z;
  tr_finished_ns : Z;
  tr_started_wall_ns : Z;
  tr_finished_wall_ns : Z;
  tr_log : RunLog;
  tr_criteria : list CriterionResult;
  tr_provenance : TestRunProvenance;
  tr_summary : string;
  tr_reason : string;
  tr_error : Error;
  tr_cleanup_status : CleanupStatus;
  tr_cleanup_error : Error
}.

#[export] Instance TestResult_eta : Eta TestResult :=
  mkEta _ (fun r => mkTestResult (tr_run_id r) (tr_case_id r) (tr_case_name r) (tr_case_version r)
    (tr_outcome r) (tr_started_ns r) (tr_finished_ns r) (tr_started_wall_ns r) (tr_finished_wall_ns r)
    (tr_log r) (tr_criteria r) (tr_provenance r) (tr_summary r) (tr_reason r) (tr_error r)
    (tr_cleanup_status r) (tr_cleanup_error r)).

Definition default_error : Error := mkError Errc.Ok "".

Definition default_result : TestResult :=
  mkTestResult "" "" "" "1" Outcome.Error 0 0 0 0
    (mkRunLog [] [] [] (mkRunEnvironment "" "" "" "" EvidenceClass.Unspecified)) []
    (mkProvenance "unknown" true "unknown") "" "" default_error Cleanup.NotRun default_error.

(** ** Sealing *)

Definition empty_text (s : string) : bool := (String.length s =? 0)%nat.

Definition assign_failure_reason (fallback : string) (r : TestResult) : TestResult :=
  if negb (empty_text (tr_reason r)) then r
  else if negb (empty_text (err_message (tr_error r))) then r <| tr_reason := err_message (tr_error r) |>
  else if negb (empty_text (tr_summary r)) then r <| tr_reason := tr_summary r |>
  else r <| tr_reason := fallback |>.

Definition is_failure (o : TestOutcome) : bool := (o ==? Outcome.Failed) || (o ==? Outcome.Error).

Definition sealed_time (r : TestResult) : Z :=
  if negb (tr_finished_ns r =? 0) then tr_finished_ns r else tr_started_ns r.

Definition is_test_diagnostic (d : DiagnosticEvent) : bool := de_source d ==? DiagnosticSource.Test.

Definition seal_failure_evidence (r : TestResult) : TestResult :=
  if negb (is_failure (tr_outcome r)) then
    if empty_text (tr_reason r) then r <| tr_reason := tr_summary r |> else r
  else
    let r := assign_failure_reason (outcome_to_string (tr_outcome r)) r in
    let r := match rl_measurements (tr_log r) with
             | [] => r <| tr_log ::= λ l, l <| rl_measurements :=
                       [mkMeasurement "lifecycle_samples" "count" dzero (sealed_time r) Quality.Invalid] |> |>
             | _ => r
             end in
    let r := match tr_criteria r with
             | [] => r <| tr_criteria := [mkCriterion "evaluation completed" false "completed" (tr_reason r)] |>
             | _ => r
             end in
    if existsb is_test_diagnostic (rl_diagnostics (tr_log r)) then r
    else
      let event := mkDiagnosticEvent (sealed_time r) DiagnosticSource.Test DiagnosticSeverity.Error
                     (if tr_outcome r ==? Outcome.Failed then "TEST_FAILED" else "TEST_ERROR") (tr_reason r)
                     (en_dut_id (rl_environment (tr_log r))) (tr_run_id r) "" in
      r <| tr_log ::= λ l, l <| rl_diagnostics ::= λ ds, ds ++ [event] |> |>.

(** ** The context *)

(** What surrounds a run: its clocks, and the cancellation flag that another thread may
    have set by the time it is read; [re_reset] is the runner's store of [false]. *)
Record RunEnv (W : Type) := mkRunEnv {
  re_clock : W → Result Z * W;
  re_wall : W → Result Z * W;
  re_cancelled : W → bool * W;
  re_reset : W → W
}.
Arguments re_clock {W}.
Arguments re_wall {W}.
Arguments re_cancelled {W}.
Arguments re_reset {W}.

(** A callback sees the deadline and the run's id, and changes its part of the result and
    the world. *)
Definition Callback (W T : Type) : Type := Z → string → RunLog * W → Result T * (RunLog * W).

Definition ctx_add_measurement (m : Measurement) (l : RunLog) : RunLog :=
  l <| rl_measurements ::= λ ms, ms ++ [m] |>.

Definition ctx_add_diagnostic (run_id : string) (e : DiagnosticEvent) (l : RunLog) : RunLog :=
  let e := mkDiagnosticEvent (de_observed_monotonic_ns e) (de_source e) (de_severity e) (de_code e)
             (de_message e) (de_device_id e) (if empty_text (de_run_id e) then run_id else de_run_id e)
             (de_context e) in
  l <| rl_diagnostics ::= λ ds, ds ++ [e] |>.

Definition ctx_add_parameter (name value : string) (l : RunLog) : RunLog :=
  l <| rl_parameters ::= λ ps, ps ++ [mkParameter name value] |>.

Definition ctx_set_environment (e : TestRunEnvironment) (l : RunLog) : RunLog := l <| rl_environment := e |>.

Record TestCaseDefinition (W : Type) := mkTestCase {
  tc_id : string;
  tc_name : string;
  tc_version : string;
  tc_timeout : Z;
  tc_prepare : option (Callback W ());
  tc_execute : option (Callback W ());
  tc_evaluate : option (Callback W TestEvaluation);
  tc_cleanup : option (Callback W ())
}.
Arguments mkTestCase {W}.
Arguments tc_id {W}.
Arguments tc_name {W}.
Arguments tc_version {W}.
Arguments tc_timeout {W}.
Arguments tc_prepare {W}.
Arguments tc_execute {W}.
Arguments tc_evaluate {W}.
Arguments tc_cleanup {W}.

(** The runner; [tn_stages] are the stages stored so far, the last one is [stage()]. *)
Record TestRunner := mkTestRunner { tn_running : bool; tn_stages : list TestRunStage }.

#[export] Instance TestRunner_eta : Eta TestRunner :=
  mkEta _ (fun r => mkTestRunner (tn_running r) (tn_stages r)).

Definition runner_new : TestRunner := mkTestRunner false [RunStage.Idle].
Definition store_stage (s : TestRunStage) (n : TestRunner) : TestRunner :=
  n <| tn_stages ::= λ l, l ++ [s] |>.
Definition runner_stage (n : TestRunner) : TestRunStage := default RunStage.Idle (last (tn_stages n)).

(** [request_cancel]: the flag after it. *)
Definition request_cancel (n : TestRunner) (flag : bool) : bool := if tn_running n then true else flag.

Section Runner.
Context {W : Type} (env : RunEnv W).
Implicit Type w : W.

Definition deadline_expired (deadline : Z) w : Result bool * W :=
  match re_clock env w with
  | (Ok now, w) => (Ok (deadline <=? now), w)
  | (Err e, w) => (Err e, w)
  end.

Definition should_stop (deadline : Z) w : Result bool * W :=
  match re_cancelled env w with
  | (true, w) => (Ok true, w)
  | (false, w) => deadline_expired deadline w
  end.

Definition validate (run_id : string) (c : TestCaseDefinition W)
    : Result (Callback W () * Callback W () * Callback W TestEvaluation * Callback W ()) :=
  if empty_text run_id || empty_text (tc_id c) || empty_text (tc_name c) then
    fail_with Errc.InvalidArgument "run id, case id and case name must be non-empty"
  else if tc_timeout c <=? 0 then fail_with Errc.InvalidArgument "test timeout must be positive"
  else match tc_prepare c, tc_execute c, tc_evaluate c, tc_cleanup c with
  | Some p, Some x, Some v, Some q => Ok (p, x, v, q)
  | _, _, _, _ => fail_with Errc.InvalidArgument "all test lifecycle callbacks are required"
  end.

Definition aborted_error : Error := mkError Errc.Rejected "test run cancelled".
Definition timeout_error : Error := mkError Errc.Timeout "test run deadline expired".

Definition set_step_error (e : Error) (summary : string) (r : TestResult) : TestResult :=
  assign_failure_reason summary (r <| tr_outcome := Outcome.Error |> <| tr_error := e |> <| tr_summary := summary |>).

Definition abort_result (r : TestResult) : TestResult :=
  r <| tr_outcome := Outcome.Aborted |> <| tr_error := aborted_error |>
    <| tr_summary := err_message aborted_error |> <| tr_reason := err_message aborted_error |>.

(** The check between two steps: whether the run goes on; the flag is read again to tell
    a cancellation from a timeout. *)
Definition check_stop (deadline : Z) (after : string) (r : TestResult) w : bool * TestResult * W :=
  match should_stop deadline w with
  | (Err e, w) => (false, set_step_error e "failed to check test deadline" r, w)
  | (Ok false, w) => (true, r, w)
  | (Ok true, w) =>
      match re_cancelled env w with
      | (true, w) => (false, abort_result r, w)
      | (false, w) => (false, set_step_error timeout_error after r, w)
      end
  end.

Definition run_callback {T} (f : Callback W T) (deadline : Z) (r : TestResult) w : Result T * TestResult * W :=
  let '(x, (l, w)) := f deadline (tr_run_id r) (tr_log r, w) in (x, r <| tr_log := l |>, w).

(** One of the first two steps. *)
Definition run_step (f : Callback W ()) (deadline : Z) (failed after : string) (r : TestResult) w
    : bool * TestResult * W :=
  let '(x, r, w) := run_callback f deadline r w in
  match x with
  | Err e => (false, set_step_error e failed r, w)
  | Ok _ => check_stop deadline after r w
  end.

Definition adopt_evaluation (e : TestEvaluation) (r : TestResult) : TestResult :=
  r <| tr_criteria := ev_criteria e |> <| tr_summary := ev_summary e |>
    <| tr_outcome := if ev_passed e then Outcome.Passed else Outcome.Failed |>
    <| tr_reason := ev_summary e |>.

Definition run_evaluate (f : Callback W TestEvaluation) (deadline : Z) (r : TestResult) w : TestResult * W :=
  let '(x, r, w) := run_callback f deadline r w in
  match x with
  | Err e => (set_step_error e "evaluation failed" r, w)
  | Ok e =>
      let '(go, r, w) := check_stop deadline "test timed out during evaluation" r w in
      (if go then adopt_evaluation e r else r, w)
  end.

Definition run_cleanup (f : Callback W ()) (deadline : Z) (r : TestResult) w : TestResult * W :=
  let '(x, r, w) := run_callback f deadline r w in
  match x with
  | Ok _ => (r <| tr_cleanup_status := Cleanup.Passed |>, w)
  | Err e =>
      let r := r <| tr_cleanup_status := Cleanup.Failed |> <| tr_cleanup_error := e |> in
      if tr_outcome r ==? Outcome.Passed then
        let summary := "cleanup failed after a passing evaluation"%string in
        (r <| tr_outcome := Outcome.Error |> <| tr_error := e |> <| tr_summary := summary |>
           <| tr_reason := if empty_text (err_message e) then summary else err_message e |>, w)
      else (r, w)
  end.

Definition sample_wall (set : Z → TestResult → TestResult) (r : TestResult) w : TestResult * W :=
  match re_wall env w with
  | (Ok t, w) => (set t r, w)
  | (Err _, w) => (r, w)
  end.

(** From [Preparing] to the end of the evaluation; the stages stored on the way. *)
Definition run_phases (p x : Callback W ()) (v : Callback W TestEvaluation) (deadline : Z) (r : TestResult) w
    : list TestRunStage * TestResult * W :=
  let '(go, r, w) := run_step p deadline "prepare failed" "test timed out after prepare" r w in
  if negb go then ([RunStage.Preparing], r, w)
  else
    let '(go, r, w) := run_step x deadline "execute failed" "test timed out after execute" r w in
    if negb go then ([RunStage.Preparing; RunStage.Executing], r, w)
    else
      let '(r, w) := run_evaluate v deadline r w in
      ([RunStage.Preparing; RunStage.Executing; RunStage.Evaluating], r, w).

Definition kMaxInt64 : Z := 2 ^ 63 - 1.

Definition run_finish (r : TestResult) w : TestResult * W :=
  let '(finish, w) := re_clock env w in
  let r := match finish with
           | Ok t => r <| tr_finished_ns := t |>
           | Err e =>
               if tr_outcome r ==? Outcome.Passed then
                 let summary := "failed to sample test finish time"%string in
                 assign_failure_reason summary
                   (r <| tr_outcome := Outcome.Error |> <| tr_error := e |> <| tr_summary := summary |>)
               else r
           end in
  let '(r, w) := sample_wall (λ t r, r <| tr_finished_wall_ns := t |>) r w in
  (seal_failure_evidence r, w).

Definition run_test (run_id : string) (c : TestCaseDefinition W) (n : TestRunner) w
    : TestResult * TestRunner * W :=
  let r := default_result <| tr_run_id := run_id |> <| tr_case_id := tc_id c |> <| tr_case_name := tc_name c |>
             <| tr_case_version := if empty_text (tc_version c) then "1"%string else tc_version c |> in
  let refuse e summary r := seal_failure_evidence (r <| tr_error := e |> <| tr_summary := summary |>) in
  if tn_running n then
    let e := mkError Errc.Busy "test runner already has an active run" in (refuse e (err_message e) r, n, w)
  else
    let w := re_reset env w in
    let n := store_stage RunStage.Idle n <| tn_running := true |> in
    (* the guard's destructor *)
    let completed n := store_stage RunStage.Completed n <| tn_running := false |> in
    match validate run_id c with
    | Err e => (refuse e (err_message e) r, completed n, w)
    | Ok (p, x, v, q) =>
        match re_clock env w with
        | (Err e, w) => (refuse e "failed to sample test start time"%string r, completed n, w)
        | (Ok t, w) =>
            let r := r <| tr_started_ns := t |> in
            let '(r, w) := sample_wall (λ t r, r <| tr_started_wall_ns := t |>) r w in
            if kMaxInt64 - tc_timeout c <? t then
              let e := mkError Errc.InvalidArgument "test deadline overflows int64" in
              (refuse e (err_message e) r, completed n, w)
            else
              let deadline := t + tc_timeout c in
              let '(stages, r, w) := run_phases p x v deadline r w in
              let n := n <| tn_stages ::= λ l, l ++ stages ++ [RunStage.CleaningUp] |> in
              let '(r, w) := run_cleanup q deadline r w in
              let '(r, w) := run_finish r w in
              (r, completed n, w)
        end
    end.

End Runner.

(** ** What a run keeps *)

Section RunKeeps.
Context {W : Type} (env : RunEnv W) (P : W → Prop).

Definition callback_keeps {T} (f : Callback W T) : Prop := ∀ d id l w, P w → P (snd (snd (f d id (l, w)))).

Class EnvKeeps : Prop := {
  clock_keeps w : P w → P (snd (re_clock env w));
  wall_keeps w : P w → P (snd (re_wall env w));
  cancelled_keeps w : P w → P (snd (re_cancelled env w));
  reset_keeps w : P w → P (re_reset env w)
}.
Context `{!EnvKeeps}.

Lemma check_stop_world d after r w : P w → P (snd (check_stop env d after r w)).
Proof.
  intros Hw. unfold check_stop, should_stop, deadline_expired.
  pose proof (cancelled_keeps w Hw) as H1. destruct (re_cancelled env w) as [[|] w1]; cbn [snd] in H1.
  - pose proof (cancelled_keeps w1 H1) as H2. by destruct (re_cancelled env w1) as [[|] w2].
  - pose proof (clock_keeps w1 H1) as H2. destruct (re_clock env w1) as [[t|e] w2]; [|done]. cbn [snd] in H2.
    destruct (d <=? t); [|done]. pose proof (cancelled_keeps w2 H2) as H3. by destruct (re_cancelled env w2) as [[|] w3].
Qed.

Lemma run_callback_world {T} (f : Callback W T) d r w : callback_keeps f → P w → P (snd (run_callback f d r w)).
Proof.
  intros Hf Hw. unfold run_callback. specialize (Hf d (tr_run_id r) (tr_log r) w Hw). by destruct (f _ _ _) as [x [l w']].
Qed.

Lemma run_step_world f d failed after r w : callback_keeps f → P w → P (snd (run_step env f d failed after r w)).
Proof.
  intros Hf Hw. unfold run_step. pose proof (run_callback_world f d r w Hf Hw) as H1.
  destruct (run_callback f d r w) as [[[]] w1]; [by apply check_stop_world|done].
Qed.

Lemma run_evaluate_world f d r w : callback_keeps f → P w → P (snd (run_evaluate env f d r w)).
Proof.
  intros Hf Hw. unfold run_evaluate. pose proof (run_callback_world f d r w Hf Hw) as H1.
  destruct (run_callback f d r w) as [[[e|] r1] w1]; [|done]. cbn [snd] in H1.
  pose proof (check_stop_world d "test timed out during evaluation" r1 w1 H1) as H2.
  by destruct (check_stop _ _ _ _ _) as [[go r2] w2].
Qed.

Lemma run_cleanup_world f d r w : callback_keeps f → P w → P (snd (run_cleanup f d r w)).
Proof.
  intros Hf Hw. unfold run_cleanup. pose proof (run_callback_world f d r w Hf Hw) as H1.
  destruct (run_callback f d r w) as [[[e|] r1] w1]; [done|]. by destruct (tr_outcome _ ==? _).
Qed.

Lemma run_phases_world p x v d r w :
  callback_keeps p → callback_keeps x → callback_keeps v → P w → P (snd (run_phases env p x v d r w)).
Proof.
  intros Hp Hx Hv Hw. unfold run_phases.
  pose proof (run_step_world p d "prepare failed" "test timed out after prepare" r w Hp Hw) as H1.
  destruct (run_step env p _ _ _ _ _) as [[[|] r1] w1]; [|done]. cbn [snd negb] in *.
  pose proof (run_step_world x d "execute failed" "test timed out after execute" r1 w1 Hx H1) as H2.
  destruct (run_step env x _ _ _ _ _) as [[[|] r2] w2]; [|done]. cbn [snd negb] in *.
  pose proof (run_evaluate_world v d r2 w2 Hv H2) as H3. by destruct (run_evaluate _ _ _ _ _).
Qed.

Lemma sample_wall_world set r w : P w → P (snd (sample_wall env set r w)).
Proof. intros Hw. unfold sample_wall. pose proof (wall_keeps w Hw). by destruct (re_wall env w) as [[]]. Qed.

(** What the clocks, the flag and the callbacks keep, a run keeps. *)
Lemma run_test_world run_id c n w :
  (∀ f, tc_prepare c = Some f → callback_keeps f) → (∀ f, tc_execute c = Some f → callback_keeps f) →
  (∀ f, tc_evaluate c = Some f → callback_keeps f) → (∀ f, tc_cleanup c = Some f → callback_keeps f) →
  P w → P (snd (run_test env run_id c n w)).
Proof.
  intros Hp Hx Hv Hq Hw. unfold run_test. destruct (tn_running n); [done|]. cbv zeta.
  apply reset_keeps in Hw. destruct (validate run_id c) as [[[[p x] v] q]|] eqn:Hval; [|done].
  assert (Hcb : tc_prepare c = Some p ∧ tc_execute c = Some x ∧ tc_evaluate c = Some v ∧ tc_cleanup c = Some q).
  { unfold validate in Hval. by repeat case_match; simplify_eq. }
  destruct Hcb as (Ep & Ex & Ev & Eq). specialize (Hp _ Ep). specialize (Hx _ Ex). specialize (Hv _ Ev). specialize (Hq _ Eq).
  apply clock_keeps in Hw. destruct (re_clock env _) as [[t|] w1]; [|done]. cbn [snd] in Hw.
  match goal with |- context [sample_wall env ?f ?r ?w] => pose proof (sample_wall_world f r w Hw) as H1 end.
  destruct (sample_wall _ _ _ _) as [r1 w2]. cbn [snd] in H1. destruct (_ <? _); [done|].
  pose proof (run_phases_world p x v (t + tc_timeout c) r1 w2 Hp Hx Hv H1) as H2.
  destruct (run_phases _ _ _ _ _ _ _) as [[stages r2] w3]. cbn [snd] in H2.
  pose proof (run_cleanup_world q (t + tc_timeout c) r2 w3 Hq H2) as H3.
  destruct (run_cleanup _ _ _ _) as [r3 w4]. cbn [snd] in H3. unfold run_finish.
  apply clock_keeps in H3. destruct (re_clock env w4) as [fin w5]. cbn [snd] in H3.
  match goal with |- context [sample_wall env ?f ?r ?w] => pose proof (sample_wall_world f r w H3) as H4 end.
  by destruct (sample_wall _ _ _ _).
Qed.
End RunKeeps.

(** ** Every failure carries evidence *)

Lemma empty_text_false s : empty_text s = false ↔ s ≠ "".
Proof. unfold empty_text. rewrite Nat.eqb_neq. by destruct s. Qed.

Lemma empty_text_true s : empty_text s = true ↔ s = "".
Proof. unfold empty_text. rewrite Nat.eqb_eq. by destruct s. Qed.

(** What a FAIL or an ERROR must show. *)
Definition has_evidence (r : TestResult) : Prop :=
  tr_reason r ≠ "" ∧ rl_measurements (tr_log r) ≠ [] ∧ tr_criteria r ≠ [] ∧
  existsb is_test_diagnostic (rl_diagnostics (tr_log r)) = true.

Lemma assign_reason_nonempty fallback r : fallback ≠ "" → tr_reason (assign_failure_reason fallback r) ≠ "".
Proof.
  intros Hf. unfold assign_failure_reason.
  repeat match goal with |- context [negb (empty_text ?x)] => destruct (empty_text x) eqn:?; cbn [negb] end;
    cbn; try done; by apply empty_text_false.
Qed.

Lemma assign_reason_keeps fallback r :
  let r' := assign_failure_reason fallback r in
  tr_outcome r' = tr_outcome r ∧ tr_log r' = tr_log r ∧ tr_criteria r' = tr_criteria r ∧
  tr_cleanup_status r' = tr_cleanup_status r.
Proof. unfold assign_failure_reason. by repeat case_match. Qed.

Lemma seal_keeps r :
  tr_outcome (seal_failure_evidence r) = tr_outcome r ∧
  tr_cleanup_status (seal_failure_evidence r) = tr_cleanup_status r.
Proof.
  unfold seal_failure_evidence.
  destruct (assign_reason_keeps (outcome_to_string (tr_outcome r)) r) as (Ho & _ & _ & Hc).
  repeat case_match; cbn; rewrite ?Ho, ?Hc; done.
Qed.

Lemma seal_evidence r :
  is_failure (tr_outcome (seal_failure_evidence r)) = true → has_evidence (seal_failure_evidence r).
Proof.
  rewrite (proj1 (seal_keeps r)). intros Hf. unfold seal_failure_evidence. rewrite Hf. cbn [negb].
  assert (Hn : tr_reason (assign_failure_reason (outcome_to_string (tr_outcome r)) r) ≠ "")
    by (apply assign_reason_nonempty; by destruct (tr_outcome r)).
  set (a := assign_failure_reason _ r) in *. clearbody a.
  set (b := match rl_measurements (tr_log a) with [] => _ | _ => a end).
  assert (Hb : rl_measurements (tr_log b) ≠ [] ∧ tr_reason b = tr_reason a)
    by (unfold b; destruct (rl_measurements (tr_log a)) eqn:E; cbn; rewrite ?E; done).
  destruct Hb as [Hb Hbr]. clearbody b.
  set (c := match tr_criteria b with [] => _ | _ => b end).
  assert (Hc : tr_criteria c ≠ [] ∧ tr_log c = tr_log b ∧ tr_reason c = tr_reason b)
    by (unfold c; destruct (tr_criteria b) eqn:E; cbn; rewrite ?E; done).
  destruct Hc as (Hc & Hcl & Hcr). clearbody c.
  destruct (existsb is_test_diagnostic (rl_diagnostics (tr_log c))) eqn:Hd; unfold has_evidence; cbn.
  - rewrite Hcl in *. by rewrite Hcr, Hbr.
  - rewrite Hcl, Hcr, Hbr, existsb_app. cbn. by rewrite orb_true_r.
Qed.

Section RunnerTheorems.
Context {W : Type} (env : RunEnv W).
Implicit Type w : W.

(** Every way out of a run seals its result. *)
Lemma run_test_sealed run_id c n w : ∃ r, fst (fst (run_test env run_id c n w)) = seal_failure_evidence r.
Proof.
  unfold run_test. destruct (tn_running n); [by eexists|].
  destruct (validate run_id c) as [[[[p x] v] q]|e]; [|by eexists].
  destruct (re_clock env _) as [[t|e] w1]; [|by eexists].
  destruct (sample_wall _ _ _ _) as [r1 w2]. destruct (_ <? t); [by eexists|].
  destruct (run_phases _ _ _ _ _ _ _) as [[stages r2] w3]. destruct (run_cleanup _ _ _ _) as [r3 w4].
  unfold run_finish. destruct (re_clock env w4) as [f w5]. destruct (sample_wall _ _ _ w5) as [r4 w6]. by eexists.
Qed.

(** Whatever a test case does, and wherever its run ends, busy runner, invalid
    definition, failing clock, failing step, timeout or failed criteria, a result with
    outcome FAIL or ERROR has a reason, at least one measurement, at least one criterion
    and a diagnostic of the test itself, so that it can be reviewed on its own. *)
Theorem failures_carry_evidence run_id c n w :
  let '(r, _, _) := run_test env run_id c n w in
  is_failure (tr_outcome r) = true → has_evidence r.
Proof.
  destruct (run_test_sealed run_id c n w) as [r Hr].
  destruct (run_test env run_id c n w) as [[r' n'] w']. cbn in Hr. subst r'. apply seal_evidence.
Qed.

(** ** The lifecycle *)

(** Steps before the cleanup leave its status alone. *)
Lemma set_step_error_keeps e s r :
  tr_cleanup_status (set_step_error e s r) = tr_cleanup_status r ∧ tr_outcome (set_step_error e s r) = Outcome.Error.
Proof.
  unfold set_step_error.
  match goal with |- context [assign_failure_reason s ?x] =>
    destruct (assign_reason_keeps s x) as (-> & _ & _ & ->) end. done.
Qed.

Lemma check_stop_keeps deadline after r w :
  let '(go, r', _) := check_stop env deadline after r w in
  tr_cleanup_status r' = tr_cleanup_status r ∧
  (if go then r' = r else tr_outcome r' = Outcome.Error ∨ tr_outcome r' = Outcome.Aborted).
Proof.
  unfold check_stop. destruct (should_stop env deadline w) as [[[|]|e] w1]; [destruct (re_cancelled env w1) as [[|] w2]| |].
  all: try (split; [done|by right]); try done.
  - destruct (set_step_error_keeps timeout_error after r) as [-> ->]. auto.
  - destruct (set_step_error_keeps e "failed to check test deadline" r) as [-> ->]. auto.
Qed.

Lemma run_step_keeps f deadline failed after r w :
  let '(go, r', _) := run_step env f deadline failed after r w in
  tr_cleanup_status r' = tr_cleanup_status r ∧
  (if go then tr_outcome r' = tr_outcome r else tr_outcome r' = Outcome.Error ∨ tr_outcome r' = Outcome.Aborted).
Proof.
  unfold run_step, run_callback. destruct (f _ _ _) as [[[]|e] [l w1]].
  - pose proof (check_stop_keeps deadline after (r <| tr_log := l |>) w1) as H.
    destruct (check_stop _ _ _ _ _) as [[[|] r'] w2]; destruct H as [Hc Ho]; split; try done. by subst r'.
  - destruct (set_step_error_keeps e failed (r <| tr_log := l |>)) as [-> ->]. auto.
Qed.

Lemma run_evaluate_keeps v deadline r w :
  tr_cleanup_status (fst (run_evaluate env v deadline r w)) = tr_cleanup_status r.
Proof.
  unfold run_evaluate, run_callback. destruct (v _ _ _) as [[e|e] [l w1]].
  - pose proof (check_stop_keeps deadline "test timed out during evaluation" (r <| tr_log := l |>) w1) as H.
    destruct (check_stop _ _ _ _ _) as [[[|] r'] w2]; by destruct H as [Hc _].
  - exact (proj1 (set_step_error_keeps e "evaluation failed" (r <| tr_log := l |>))).
Qed.

Lemma run_cleanup_runs q deadline r w : tr_cleanup_status (fst (run_cleanup q deadline r w)) ≠ Cleanup.NotRun.
Proof. unfold run_cleanup, run_callback. destruct (q _ _ _) as [[[]|e] [l w1]]; [done|]. by case_match. Qed.

Lemma run_finish_keeps r w :
  tr_cleanup_status (fst (run_finish env r w)) = tr_cleanup_status r ∧
  (tr_outcome (fst (run_finish env r w)) = Outcome.Passed →
   tr_outcome r = Outcome.Passed ∧ ∃ t, fst (re_clock env w) = Ok t ∧
     tr_criteria (fst (run_finish env r w)) = tr_criteria r).
Proof.
  unfold run_finish, sample_wall. destruct (re_clock env w) as [f w1]. cbn [fst].
  set (r1 := match f with Ok t => _ | Err e => _ end).
  assert (Hr1 : tr_cleanup_status r1 = tr_cleanup_status r ∧ (tr_outcome r1 = Outcome.Passed →
    tr_outcome r = Outcome.Passed ∧ (∃ t, f = Ok t) ∧ tr_criteria r1 = tr_criteria r)).
  { unfold r1. destruct f as [t|e]; [by eauto|]. case_bool_decide as Hp; [|by split].
    match goal with |- context [assign_failure_reason ?s ?x] =>
      destruct (assign_reason_keeps s x) as (-> & _ & _ & ->) end. done. }
  destruct Hr1 as [Hc Hp]. clearbody r1.
  assert (Hseal : ∀ r2, tr_outcome r2 = Outcome.Passed → tr_criteria (seal_failure_evidence r2) = tr_criteria r2).
  { intros r2 H2. unfold seal_failure_evidence. rewrite H2. change (is_failure Outcome.Passed) with false.
    cbn [negb]. by destruct (empty_text (tr_reason r2)). }
  destruct (re_wall env w1) as [[t|e] w2]; cbn [fst]; destruct (seal_keeps r1) as [Ho Hs];
    try destruct (seal_keeps (r1 <| tr_finished_wall_ns := t |>)) as [Ho' Hs']; rewrite ?Ho', ?Hs', ?Ho, ?Hs; cbn.
  all: split; [done|]; intros Hpass; destruct (Hp Hpass) as (H1 & (t' & Ht) & H2); split; [done|]; exists t'; split; [done|].
  all: rewrite Hseal by done; done.
Qed.

(** Where a run may stop. *)
Definition stages_of_run (l : list TestRunStage) : Prop :=
  l = [] ∨
  l = [RunStage.Preparing; RunStage.CleaningUp] ∨
  l = [RunStage.Preparing; RunStage.Executing; RunStage.CleaningUp] ∨
  l = [RunStage.Preparing; RunStage.Executing; RunStage.Evaluating; RunStage.CleaningUp].

Lemma run_phases_keeps p x v deadline r w :
  let '(stages, r', _) := run_phases env p x v deadline r w in
  stages_of_run (stages ++ [RunStage.CleaningUp]) ∧ stages ≠ [] ∧ tr_cleanup_status r' = tr_cleanup_status r.
Proof.
  unfold run_phases, stages_of_run.
  pose proof (run_step_keeps p deadline "prepare failed" "test timed out after prepare" r w) as H1.
  destruct (run_step env p _ _ _ _ _) as [[[|] r1] w1]; cbn [negb]; [|naive_solver].
  pose proof (run_step_keeps x deadline "execute failed" "test timed out after execute" r1 w1) as H2.
  destruct (run_step env x _ _ _ _ _) as [[[|] r2] w2]; cbn [negb]; [|naive_solver congruence].
  pose proof (run_evaluate_keeps v deadline r2 w2) as H3. destruct (run_evaluate env v _ _ _) as [r3 w3].
  destruct H1, H2. cbn in H3. split; [naive_solver|]. split; [done|]. congruence.
Qed.

Lemma completed_stage n : runner_stage (store_stage RunStage.Completed n <| tn_running := false |>) = RunStage.Completed.
Proof. unfold runner_stage, store_stage. cbn. by rewrite last_snoc. Qed.

(** A run goes through the stages in order and always comes back: from an idle runner the
    stages stored are Idle, then a prefix of Preparing, Executing, Evaluating closed by
    CleaningUp, then Completed, and the runner is free again.  Cleanup runs exactly when
    Preparing was entered, whatever failed after it; a busy runner refuses without
    touching the run that is active. *)
Theorem test_lifecycle run_id c n w :
  let '(r, n', _) := run_test env run_id c n w in
  if tn_running n then
    n' = n ∧ tr_outcome r = Outcome.Error ∧ err_code (tr_error r) = Errc.Busy ∧ tr_cleanup_status r = Cleanup.NotRun
  else
    tn_running n' = false ∧ runner_stage n' = RunStage.Completed ∧
    ∃ mid, tn_stages n' = tn_stages n ++ [RunStage.Idle] ++ mid ++ [RunStage.Completed] ∧
      stages_of_run mid ∧ (tr_cleanup_status r = Cleanup.NotRun ↔ mid = []).
Proof.
  unfold run_test. destruct (tn_running n) eqn:Hn; [done|].
  assert (Hearly : ∀ r, tr_cleanup_status r = Cleanup.NotRun →
    let n' := store_stage RunStage.Completed (store_stage RunStage.Idle n <| tn_running := true |>) <| tn_running := false |> in
    tn_running n' = false ∧ runner_stage n' = RunStage.Completed ∧
    ∃ mid, tn_stages n' = tn_stages n ++ [RunStage.Idle] ++ mid ++ [RunStage.Completed] ∧
      stages_of_run mid ∧ (tr_cleanup_status (seal_failure_evidence r) = Cleanup.NotRun ↔ mid = [])).
  { intros r Hr n'. split; [done|]. split; [apply completed_stage|]. exists []. rewrite (proj2 (seal_keeps r)), Hr.
    split; [cbn; by rewrite <- app_assoc|]. split; [by left|done]. }
  destruct (validate run_id c) as [[[[p x] v] q]|e]; [|by apply Hearly].
  destruct (re_clock env _) as [[t|e] w1]; [|by apply Hearly].
  destruct (sample_wall _ _ _ _) as [r1 w2] eqn:Hw.
  assert (Hr1 : tr_cleanup_status r1 = Cleanup.NotRun)
    by (unfold sample_wall in Hw; destruct (re_wall env w1) as [[]]; by injection Hw as <- _).
  destruct (_ <? t); [by apply Hearly|]. clear Hearly.
  pose proof (run_phases_keeps p x v (t + tc_timeout c) r1 w2) as Hp.
  destruct (run_phases _ _ _ _ _ _ _) as [[stages r2] w3]. destruct Hp as (Hst & Hne & _).
  pose proof (run_cleanup_runs q (t + tc_timeout c) r2 w3) as Hc. destruct (run_cleanup _ _ _ _) as [r3 w4]. cbn [fst] in Hc.
  pose proof (proj1 (run_finish_keeps r3 w4)) as Hf. destruct (run_finish env r3 w4) as [r4 w5]. cbn [fst] in Hf.
  split; [done|]. split; [apply completed_stage|]. exists (stages ++ [RunStage.CleaningUp]).
  split; [cbn; by rewrite <- !app_assoc|]. split; [done|]. rewrite Hf. split; [done|]. by destruct stages.
Qed.

(** ** A pass is earned *)

(** The whole way of a passing run: every step succeeds, none of the checks between them
    sees a cancellation or the deadline, and the evaluation passes; [w0] is the world when
    the first step begins. *)
Definition passing_run (p x : Callback W ()) (v : Callback W TestEvaluation) (q : Callback W ())
    (deadline : Z) (run_id : string) w0 (e : TestEvaluation) : Prop :=
  ∃ l0 l1 w1 w1' l2 w2 w2' l3 w3 w3' s4,
    p deadline run_id (l0, w0) = (Ok (), (l1, w1)) ∧ should_stop env deadline w1 = (Ok false, w1') ∧
    x deadline run_id (l1, w1') = (Ok (), (l2, w2)) ∧ should_stop env deadline w2 = (Ok false, w2') ∧
    v deadline run_id (l2, w2') = (Ok e, (l3, w3)) ∧ should_stop env deadline w3 = (Ok false, w3') ∧
    ev_passed e = true ∧ q deadline run_id (l3, w3') = (Ok (), s4).

Lemma check_stop_go deadline after r w r' w' :
  check_stop env deadline after r w = (true, r', w') → r' = r ∧ should_stop env deadline w = (Ok false, w').
Proof.
  unfold check_stop. destruct (should_stop env deadline w) as [[[|]|e] w1]; [|by intros [= <- <-]|done].
  by destruct (re_cancelled env w1) as [[|] w2].
Qed.

Lemma run_step_go f deadline failed after r w r' w' :
  run_step env f deadline failed after r w = (true, r', w') →
  ∃ l w1, f deadline (tr_run_id r) (tr_log r, w) = (Ok (), (l, w1)) ∧ r' = r <| tr_log := l |> ∧
    should_stop env deadline w1 = (Ok false, w').
Proof.
  unfold run_step, run_callback. destruct (f _ _ _) as [[[]|e] [l w1]]; [|done].
  intros [-> Hs]%check_stop_go. by exists l, w1.
Qed.

(** Only an evaluation gives the outcome PASS. *)
Lemma run_phases_passed p x v deadline r w stages r' w' :
  run_phases env p x v deadline r w = (stages, r', w') → tr_outcome r ≠ Outcome.Passed →
  tr_outcome r' = Outcome.Passed →
  ∃ l1 w1 w1' l2 w2 w2' l3 w3 e,
    p deadline (tr_run_id r) (tr_log r, w) = (Ok (), (l1, w1)) ∧ should_stop env deadline w1 = (Ok false, w1') ∧
    x deadline (tr_run_id r) (l1, w1') = (Ok (), (l2, w2)) ∧ should_stop env deadline w2 = (Ok false, w2') ∧
    v deadline (tr_run_id r) (l2, w2') = (Ok e, (l3, w3)) ∧ should_stop env deadline w3 = (Ok false, w') ∧
    ev_passed e = true ∧ r' = adopt_evaluation e (r <| tr_log := l3 |>).
Proof.
  unfold run_phases. intros Hrun Hr Hp.
  pose proof (run_step_keeps p deadline "prepare failed" "test timed out after prepare" r w) as Hk1.
  destruct (run_step env p _ _ _ _ _) as [[[|] r1] w1] eqn:H1; cbn [negb] in Hrun;
    [|injection Hrun as <- <- <-; naive_solver congruence].
  apply run_step_go in H1 as (l1 & w1' & H1 & -> & Hs1).
  pose proof (run_step_keeps x deadline "execute failed" "test timed out after execute" (r <| tr_log := l1 |>) w1) as Hk2.
  destruct (run_step env x _ _ _ _ _) as [[[|] r2] w2] eqn:H2; cbn [negb] in Hrun;
    [|injection Hrun as <- <- <-; naive_solver congruence].
  apply run_step_go in H2 as (l2 & w2' & H2 & -> & Hs2). unfold run_evaluate, run_callback in Hrun. cbn in H2, Hrun.
  destruct (v _ _ _) as [[e|e] [l3 w3]] eqn:H3.
  - pose proof (check_stop_keeps deadline "test timed out during evaluation" (r <| tr_log := l3 |>) w3) as Hk3.
    cbn in Hk3. destruct (check_stop _ _ _ _ _) as [[[|] r3] w4] eqn:H4; injection Hrun as <- <- <-.
    + apply check_stop_go in H4 as [-> H4]. exists l1, w1', w1, l2, w2', w2, l3, w3, e. split_and!; try done.
      cbn in Hp. by destruct (ev_passed e).
    + destruct Hk3 as [_ [Hk3|Hk3]]; congruence.
  - injection Hrun as <- <- <-. rewrite (proj2 (set_step_error_keeps _ _ _)) in Hp. done.
Qed.

Lemma run_cleanup_passed q deadline r w :
  tr_outcome (fst (run_cleanup q deadline r w)) = Outcome.Passed →
  tr_outcome r = Outcome.Passed ∧ fst (q deadline (tr_run_id r) (tr_log r, w)) = Ok () ∧
  tr_criteria (fst (run_cleanup q deadline r w)) = tr_criteria r.
Proof.
  unfold run_cleanup, run_callback. destruct (q _ _ _) as [[[]|e] [l w1]]; [done|].
  case_bool_decide as Hp; cbn; [done|]. by intros ?%Hp.
Qed.

(** The runner clears the flag and reads both clocks first. *)
Definition world_at_start w : W := snd (re_wall env (snd (re_clock env (re_reset env w)))).

(** How a passing run went. *)
Lemma run_test_passed run_id c n w r n' w' :
  run_test env run_id c n w = (r, n', w') → tr_outcome r = Outcome.Passed →
  ∃ p x v q started e,
    tc_prepare c = Some p ∧ tc_execute c = Some x ∧ tc_evaluate c = Some v ∧ tc_cleanup c = Some q ∧
    passing_run p x v q (started + tc_timeout c) run_id (world_at_start w) e ∧ tr_criteria r = ev_criteria e ∧ 0 < tc_timeout c.
Proof.
  unfold run_test. intros Hrun Hp.
  assert (Hnot : ∀ r0, tr_outcome r0 = Outcome.Error → tr_outcome (seal_failure_evidence r0) ≠ Outcome.Passed)
    by (intros r0 H0; by rewrite (proj1 (seal_keeps r0)), H0).
  destruct (tn_running n); [injection Hrun as <- <- <-; by apply Hnot in Hp|].
  destruct (validate run_id c) as [[[[p x] v] q]|e] eqn:Hv; [|injection Hrun as <- <- <-; by apply Hnot in Hp].
  unfold world_at_start.
  destruct (re_clock env (re_reset env w)) as [[t|e] w1]; [|injection Hrun as <- <- <-; by apply Hnot in Hp].
  destruct (sample_wall _ _ _ _) as [r1 w2] eqn:Hw. cbn [snd].
  assert (Hr1 : tr_outcome r1 = Outcome.Error ∧ tr_run_id r1 = run_id ∧ snd (re_wall env w1) = w2)
    by (unfold sample_wall in Hw; destruct (re_wall env w1) as [[]]; by injection Hw as <- <-).
  destruct Hr1 as (Ho1 & Hid & ->).
  destruct (_ <? t); [injection Hrun as <- <- <-; by apply Hnot in Hp|].
  destruct (run_phases _ _ _ _ _ _ _) as [[stages r2] w3] eqn:Hph.
  pose proof (run_cleanup_passed q (t + tc_timeout c) r2 w3) as Hq.
  destruct (run_cleanup _ _ _ _) as [r3 w4]. pose proof (proj2 (run_finish_keeps r3 w4)) as Hf.
  destruct (run_finish env r3 w4) as [r4 w5]. injection Hrun as <- <- <-. cbn [fst] in *.
  destruct (Hf Hp) as (Hp3 & _ & _ & Hcr). destruct (Hq Hp3) as (Hp2 & Hcl & Hcr3).
  apply run_phases_passed in Hph as (l1 & x1 & x1' & l2 & x2 & x2' & l3 & x3 & e & H1 & H2 & H3 & H4 & H5 & H6 & H7 & ->);
    [|by rewrite Ho1|done]. rewrite Hid in *. cbn in Hcl, Hcr3. rewrite Hid in Hcl.
  unfold validate in Hv. destruct (_ || _); [done|]. destruct (Z.leb_spec (tc_timeout c) 0); [done|].
  destruct (tc_prepare c), (tc_execute c), (tc_evaluate c), (tc_cleanup c); try done. injection Hv as -> -> -> ->.
  destruct (q (t + tc_timeout c) run_id (l3, w3)) as [a s4] eqn:Hqe. cbn in Hcl. subst a.
  exists p, x, v, q, t, e. split_and!; try done; [|by rewrite Hcr, Hcr3].
  exists (tr_log r1), l1, x1, x1', l2, x2, x2', l3, x3, w3, s4. done.
Qed.

(** C26.  A PASS is earned: the runner reports it only for a run in which every step of the test
    case succeeded in order, no check between them saw a cancellation or the deadline, the
    evaluation passed, the cleanup succeeded, and the criteria reported are those of the
    evaluation. *)
Theorem pass_is_earned run_id c n w r n' w' :
  run_test env run_id c n w = (r, n', w') → tr_outcome r = Outcome.Passed →
  ∃ p x v q started e,
    tc_prepare c = Some p ∧ tc_execute c = Some x ∧ tc_evaluate c = Some v ∧ tc_cleanup c = Some q ∧
    passing_run p x v q (started + tc_timeout c) run_id (world_at_start w) e ∧ tr_criteria r = ev_criteria e ∧ 0 < tc_timeout c.
Proof. apply run_test_passed. Qed.

End RunnerTheorems.

(** ** A concrete run *)

(** A world that is only a clock, one nanosecond per reading. *)
Definition demo_env : RunEnv Z := mkRunEnv Z (λ w, (Ok w, w + 1)) (λ w, (Ok w, w)) (λ w, (false, w)) (λ w, w).

Definition demo_step : Callback Z () := λ _ _ s, (Ok (), s).
Definition demo_judge (passed : bool) : Callback Z TestEvaluation := λ _ _ s,
  (Ok (mkEvaluation passed "judged" [mkCriterion "judged" passed "true" "seen"]), s).
Definition demo_case (passed : bool) : TestCaseDefinition Z :=
  mkTestCase "case" "Case" "1" 1000 (Some demo_step) (Some demo_step) (Some (demo_judge passed)) (Some demo_step).

Lemma failures_carry_evidence_witness :
  let r := fst (fst (run_test demo_env "run" (demo_case false) runner_new 0)) in
  tr_outcome r = Outcome.Failed ∧ has_evidence r.
Proof.
  split; [reflexivity|]. apply (failures_carry_evidence demo_env "run" (demo_case false) runner_new 0). reflexivity.
Defined.

Lemma pass_is_earned_witness :
  ∃ p x v q started e,
    tc_prepare (demo_case true) = Some p ∧ tc_execute (demo_case true) = Some x ∧
    tc_evaluate (demo_case true) = Some v ∧ tc_cleanup (demo_case true) = Some q ∧
    passing_run demo_env p x v q (started + 1000) "run" 1 e ∧
    [mkCriterion "judged" true "true" "seen"] = ev_criteria e ∧ 0 < 1000.
Proof.
  apply (pass_is_earned demo_env "run" (demo_case true) runner_new 0 _ _ _ eq_refl). reflexivity.
Defined.
