(* ===== verification/CanHealth.v ===== *)
(** * The CAN communication health test

    services/can_health_test.cpp: a test case for the runner that watches the snapshots of a
    running runtime for a fixed window and judges heartbeat progress and freshness, rejects,
    drops and fault flags. *)

From stdpp Require Import pretty.
From S2P Require Import Prelude Types Application Doubles TestRunner.
Local Open Scope Z_scope.

Record CanHealthCriteria := mkCriteria {
  hc_expected_evidence : EvidenceClass;
  hc_observation_window : Z;
  hc_sample_interval : Z;
  hc_test_timeout : Z;
  hc_min_heartbeat_delta : Z;
  hc_max_heartbeat_age : Z;
  hc_max_decode_reject_delta : Z;
  hc_max_queue_reject_delta : Z;
  hc_max_input_queue_drop_delta : Z
}.

Definition default_criteria : CanHealthCriteria := mkCriteria EvidenceClass.Vcan 500 20 1000 3 200 0 0 0.

(** The last field is not the source's: it says that the observation loop was still running
    when its turns ended, so that such a run has no result. *)
Record ObservationState := mkObservation {
  os_baseline : RuntimeTelemetrySnapshot;
  os_latest : RuntimeTelemetrySnapshot;
  os_samples : Z;
  os_max_heartbeat_age_ns : Z;
  os_offline_after_seen : bool;
  os_looping : bool
}.

#[export] Instance Observation_eta : Eta ObservationState :=
  mkEta _ (fun o => mkObservation (os_baseline o) (os_latest o) (os_samples o) (os_max_heartbeat_age_ns o)
    (os_offline_after_seen o) (os_looping o)).

Definition quality_for (e : EvidenceClass) : MeasurementQuality :=
  match e with
  | EvidenceClass.Physical => Quality.Valid
  | EvidenceClass.Mock | EvidenceClass.Vcan | EvidenceClass.Loopback => Quality.Simulated
  | _ => Quality.Invalid
  end.

Definition ms_ns (ms : Z) : Z := ms * 1000000.

(** Durations are milliseconds. *)
Definition validate_criteria (c : CanHealthCriteria) : Result () :=
  if hc_expected_evidence c ==? EvidenceClass.Unspecified then
    fail_with Errc.InvalidArgument "CAN health evidence class must be explicit"
  else if (hc_observation_window c <=? 0) || (hc_sample_interval c <=? 0) ||
          (hc_test_timeout c <=? hc_observation_window c) || (hc_max_heartbeat_age c <=? 0) ||
          (hc_min_heartbeat_delta c =? 0) then
    fail_with Errc.InvalidArgument "CAN health durations and heartbeat threshold are invalid"
  else Ok ().

Definition checked_delta (before after : Z) (name : string) : Result Z :=
  if after <? before then
    fail_with Errc.Rejected (name +:+ " counter moved backwards; Runtime likely restarted")
  else Ok (after - before).

(** ** Writing to the context *)

Definition health_diagnostic (run_id : string) (s : RuntimeTelemetrySnapshot) (source : DiagnosticSource)
    (severity : DiagnosticSeverity) (code message extra : string) : RunLog → RunLog :=
  ctx_add_diagnostic run_id
    (mkDiagnosticEvent (ts_observed_monotonic_ns s) source severity code message
       (dv_device_id (ts_device s)) run_id extra).

Definition copy_snapshot_diagnostics (run_id : string) (s : RuntimeTelemetrySnapshot) (l : RunLog) : RunLog :=
  foldl (λ l e,
    ctx_add_diagnostic run_id
      (mkDiagnosticEvent (de_observed_monotonic_ns e) (de_source e) (de_severity e) (de_code e) (de_message e)
         (if empty_text (de_device_id e) then dv_device_id (ts_device s) else de_device_id e)
         (if empty_text (de_run_id e) then run_id else de_run_id e) (de_context e)) l)
    l (ts_diagnostics s).

Definition record_parameters (c : CanHealthCriteria) (l : RunLog) : RunLog :=
  let l := ctx_add_parameter "observation_window_ms" (pretty (hc_observation_window c)) l in
  let l := ctx_add_parameter "sample_interval_ms" (pretty (hc_sample_interval c)) l in
  let l := ctx_add_parameter "test_timeout_ms" (pretty (hc_test_timeout c)) l in
  let l := ctx_add_parameter "min_heartbeat_delta" (pretty (hc_min_heartbeat_delta c)) l in
  let l := ctx_add_parameter "max_heartbeat_age_ms" (pretty (hc_max_heartbeat_age c)) l in
  ctx_add_parameter "max_decode_reject_delta" (pretty (hc_max_decode_reject_delta c)) l.

(** ** The callbacks *)

Section Health.
Context {W : Type} (env : RunEnv W).
(** The seams of the test: where snapshots come from, and how to wait (nanoseconds). *)
Context (snapshot_provider : W → RuntimeTelemetrySnapshot * W) (wait : Z → W → Result () * W).
Variable criteria : CanHealthCriteria.
Implicit Type w : W.

(** The observation is captured by reference; it lives beside the world. *)
Notation Observed := (ObservationState * W)%type.

Definition observed_env : RunEnv Observed :=
  mkRunEnv _ (λ '(o, w), let '(x, w) := re_clock env w in (x, (o, w)))
    (λ '(o, w), let '(x, w) := re_wall env w in (x, (o, w)))
    (λ '(o, w), let '(x, w) := re_cancelled env w in (x, (o, w)))
    (λ '(o, w), (o, re_reset env w)).

Definition health_prepare : Callback Observed () := λ _ run_id '(l, (o, w)),
  match validate_criteria criteria with
  | Err e => (Err e, (l, (o, w)))
  | Ok _ =>
      let '(base, w) := snapshot_provider w in
      let o := o <| os_baseline := base |> <| os_latest := base |> in
      let l := record_parameters criteria l in
      let cm := ts_communication base in
      let l := ctx_set_environment
                 (mkRunEnvironment (cv_backend cm) (cv_interface_name cm) (dv_device_id (ts_device base))
                    "can.communication_health" (hc_expected_evidence criteria)) l in
      if negb (rv_started (ts_runtime base)) || negb (rv_scheduler_running (ts_runtime base)) then
        let m := "Runtime and scheduler must be running before CAN health"%string in
        let l := health_diagnostic run_id base DiagnosticSource.Test DiagnosticSeverity.Error
                   "RUNTIME_NOT_RUNNING" m "" (copy_snapshot_diagnostics run_id base l) in
        (fail_with Errc.NotOpen m, (l, (o, w)))
      else if negb (cv_evidence cm ==? hc_expected_evidence criteria) then
        let m := "observed evidence class does not match test criteria"%string in
        let l := health_diagnostic run_id base DiagnosticSource.Test DiagnosticSeverity.Error
                   "EVIDENCE_MISMATCH" m
                   ("expected=" +:+ evidence_to_string (hc_expected_evidence criteria) +:+
                    ";actual=" +:+ evidence_to_string (cv_evidence cm))
                   (copy_snapshot_diagnostics run_id base l) in
        (fail_with Errc.Rejected m, (l, (o, w)))
      else (Ok (), (l, (o, w)))
  end.

Definition observe (s : RuntimeTelemetrySnapshot) (o : ObservationState) : ObservationState :=
  let d := ts_device s in
  mkObservation (os_baseline o) s (os_samples o + 1)
    (if 0 <=? dv_heartbeat_age_ns d then Z.max (os_max_heartbeat_age_ns o) (dv_heartbeat_age_ns d)
     else os_max_heartbeat_age_ns o)
    (os_offline_after_seen o || (dv_ever_seen d && negb (dv_online d))) (os_looping o).

(** How the observation loop ends: the window is over, the run is to stop or an error;
    [TurnsUsed]: it is still running when the turns end. *)
Inductive LoopEnd := WindowOver | StopSeen | LoopError (e : Error) | TurnsUsed.

Fixpoint observe_loop (turns : nat) (deadline start : Z) (s : Observed) : LoopEnd * Observed :=
  match turns with
  | O => (TurnsUsed, s)
  | S turns =>
      let '(o, w) := s in
      match re_cancelled env w with
      | (true, w) => (StopSeen, (o, w))
      | (false, w) =>
          match deadline_expired env deadline w with
          | (Err e, w) => (LoopError e, (o, w))
          | (Ok true, w) => (StopSeen, (o, w))
          | (Ok false, w) =>
              match re_clock env w with
              | (Err e, w) => (LoopError e, (o, w))
              | (Ok now, w) =>
                  let elapsed_ns := now - start in
                  let window_ns := ms_ns (hc_observation_window criteria) in
                  if window_ns <=? elapsed_ns then (WindowOver, (o, w))
                  else
                    match wait (Z.min (ms_ns (hc_sample_interval criteria)) (window_ns - elapsed_ns)) w with
                    | (Err e, w) => (LoopError e, (o, w))
                    | (Ok _, w) =>
                        let '(latest, w) := snapshot_provider w in
                        observe_loop turns deadline start (observe latest o, w)
                    end
              end
          end
      end
  end.

(** A wait lasts at least as long as asked, so this many turns cover the window. *)
Definition loop_turns : nat :=
  Z.to_nat (hc_observation_window criteria / hc_sample_interval criteria) + 3.

Definition heartbeat_delta (o : ObservationState) : Result Z :=
  checked_delta (dv_heartbeats (ts_device (os_baseline o))) (dv_heartbeats (ts_device (os_latest o))) "heartbeat".
Definition decode_delta (o : ObservationState) : Result Z :=
  checked_delta (cv_decode_rejects (ts_communication (os_baseline o)))
    (cv_decode_rejects (ts_communication (os_latest o))) "decode reject".
Definition queue_delta (o : ObservationState) : Result Z :=
  checked_delta (cv_queue_rejects (ts_communication (os_baseline o)))
    (cv_queue_rejects (ts_communication (os_latest o))) "queue reject".
Definition drop_delta (o : ObservationState) : Result Z :=
  checked_delta (cv_input_queue_drop_count (ts_communication (os_baseline o)))
    (cv_input_queue_drop_count (ts_communication (os_latest o))) "input queue drop".

Definition health_measurement (o : ObservationState) (name unit : string) (value : double) : RunLog → RunLog :=
  ctx_add_measurement (mkMeasurement name unit value (ts_observed_monotonic_ns (os_latest o))
    (quality_for (hc_expected_evidence criteria))).

Definition health_execute : Callback Observed () := λ deadline run_id '(l, (o, w)),
  match re_clock env w with
  | (Err e, w) => (Err e, (l, (o, w)))
  | (Ok start, w) =>
      match observe_loop loop_turns deadline start (o, w) with
      | (LoopError e, s) => (Err e, (l, s))
      | (StopSeen, s) => (Ok (), (l, s))
      (* not a return: [health_run] has no result then *)
      | (TurnsUsed, (o, w)) => (Err default_error, (l, (o <| os_looping := true |>, w)))
      | (WindowOver, (o, w)) =>
          let l := health_measurement o "sample_count" "count" (d_of_Z (os_samples o)) l in
          let l := health_measurement o "max_heartbeat_age" "ms"
                     (if os_max_heartbeat_age_ns o <? 0 then d_of_Z (-1)
                      else ddiv (d_of_Z (os_max_heartbeat_age_ns o)) (d_of_Z 1000000)) l in
          match heartbeat_delta o with
          | Err e => (Err e, (health_diagnostic run_id (os_latest o) DiagnosticSource.Test DiagnosticSeverity.Error
                                "COUNTER_REGRESSION" (err_message e) "" l, (o, w)))
          | Ok _ =>
              match decode_delta o, queue_delta o, drop_delta o with
              | Err e, _, _ | Ok _, Err e, _ | Ok _, Ok _, Err e => (Err e, (l, (o, w)))
              | Ok _, Ok _, Ok _ => (Ok (), (l, (o, w)))
              end
          end
      end
  end.

(** ** The judgement *)

Definition age_fresh (o : ObservationState) : bool :=
  (0 <=? os_max_heartbeat_age_ns o) && (os_max_heartbeat_age_ns o <=? ms_ns (hc_max_heartbeat_age criteria)).
Definition stayed_online (o : ObservationState) : bool :=
  dv_online (ts_device (os_latest o)) && negb (os_offline_after_seen o).
Definition runtime_healthy (s : RuntimeTelemetrySnapshot) : bool :=
  rv_started (ts_runtime s) && rv_scheduler_running (ts_runtime s) && (rv_fault (ts_runtime s) ==? RuntimeFaultCode.None).
Definition communication_healthy (s : RuntimeTelemetrySnapshot) : bool :=
  negb (cv_input_queue_overflow_latched (ts_communication s)) && negb (dv_comm_loss_latched (ts_device s)) &&
  negb (dv_overflow_fault_latched (ts_device s)) && (dv_device_fault_code (ts_device s) =? 0) &&
  (cv_stop_reason (ts_communication s) ==? StopReasonCode.None).

Definition health_criteria (hb dec que drp : Z) (o : ObservationState) : list CriterionResult :=
  let s := os_latest o in
  let online := stayed_online o in
  let clear := communication_healthy s in
  [mkCriterion "heartbeat progress" (hc_min_heartbeat_delta criteria <=? hb)
     (">=" +:+ pretty (hc_min_heartbeat_delta criteria)) (pretty hb);
   mkCriterion "heartbeat freshness" (age_fresh o) ("0.." +:+ pretty (hc_max_heartbeat_age criteria) +:+ " ms")
     (if os_max_heartbeat_age_ns o <? 0 then "unavailable"%string
      else pretty (Z.quot (os_max_heartbeat_age_ns o) 1000000) +:+ " ms");
   mkCriterion "device remained online" online "online for observation window"
     (if online then "online" else "offline observed");
   mkCriterion "decode rejects" (dec <=? hc_max_decode_reject_delta criteria)
     ("<=" +:+ pretty (hc_max_decode_reject_delta criteria)) (pretty dec);
   mkCriterion "queue rejects" (que <=? hc_max_queue_reject_delta criteria)
     ("<=" +:+ pretty (hc_max_queue_reject_delta criteria)) (pretty que);
   mkCriterion "input queue drops" (drp <=? hc_max_input_queue_drop_delta criteria)
     ("<=" +:+ pretty (hc_max_input_queue_drop_delta criteria)) (pretty drp);
   mkCriterion "runtime remained healthy" (runtime_healthy s) "started, scheduler running, fault NONE"
     (fault_code_to_string (rv_fault (ts_runtime s)));
   mkCriterion "communication fault flags" clear "no latched fault and I/O stop reason NONE"
     (if clear then "clear" else "fault or I/O stop observed")].

Definition diagnose_when (b : bool) (f : RunLog → RunLog) (l : RunLog) : RunLog := if b then f l else l.

Definition health_evaluate : Callback Observed TestEvaluation := λ _ run_id '(l, (o, w)),
  match heartbeat_delta o, decode_delta o, queue_delta o, drop_delta o with
  | Err e, _, _, _ | Ok _, Err e, _, _ | Ok _, Ok _, Err e, _ | Ok _, Ok _, Ok _, Err e => (Err e, (l, (o, w)))
  | Ok hb, Ok dec, Ok que, Ok drp =>
      let s := os_latest o in
      let note source := health_diagnostic run_id s source DiagnosticSeverity.Error in
      let l := health_measurement o "heartbeat_delta" "count" (d_of_Z hb) l in
      let l := health_measurement o "decode_reject_delta" "count" (d_of_Z dec) l in
      let l := health_measurement o "queue_reject_delta" "count" (d_of_Z que) l in
      let l := health_measurement o "input_queue_drop_delta" "count" (d_of_Z drp) l in
      let l := copy_snapshot_diagnostics run_id s l in
      let l := diagnose_when (hb <? hc_min_heartbeat_delta criteria)
                 (note DiagnosticSource.Communication "HEARTBEAT_STALLED" "heartbeat count did not increase enough" "")%string l in
      let l := diagnose_when (negb (age_fresh o))
                 (note DiagnosticSource.Communication "HEARTBEAT_STALE" "heartbeat age exceeded freshness threshold" "")%string l in
      let l := diagnose_when (negb (stayed_online o))
                 (note DiagnosticSource.Device "DEVICE_OFFLINE" "device left the online state during the window" "")%string l in
      let l := diagnose_when (hc_max_decode_reject_delta criteria <? dec)
                 (note DiagnosticSource.Communication "MALFORMED_FRAME"
                    "decode rejects increased during the observation window" ("delta=" +:+ pretty dec))%string l in
      let items := health_criteria hb dec que drp o in
      let passed := forallb ct_passed items in
      let summary := if passed then "CAN communication health criteria passed"%string
                     else "CAN communication health criteria failed"%string in
      let l := diagnose_when (negb passed) (λ l,
                 foldl (λ l item,
                   if ct_passed item then l
                   else note DiagnosticSource.Test "CRITERION_FAILED"%string
                          (ct_name item +:+ " expected " +:+ ct_expected item +:+ " actual " +:+ ct_actual item)
                          ("criterion=" +:+ ct_name item) l) l items) l in
      (Ok (mkEvaluation passed summary items), (l, (o, w)))
  end.

Definition health_cleanup : Callback Observed () := λ _ _ s, (Ok (), s).

Definition health_case : TestCaseDefinition Observed :=
  mkTestCase "can.communication_health" "CAN Communication Health" "1" (ms_ns (hc_test_timeout criteria))
    (Some health_prepare) (Some health_execute) (Some health_evaluate) (Some health_cleanup).

Definition initial_observation (s : RuntimeTelemetrySnapshot) : ObservationState := mkObservation s s 0 (-1) false false.

(** [run]; the observation starts from default snapshots, [blank].  [None]: the observation
    loop has not ended, so the call has not returned. *)
Definition health_run (run_id : string) (blank : RuntimeTelemetrySnapshot) (n : TestRunner) w
    : option (TestResult * TestRunner * Observed) :=
  let '(r, n, (o, w)) := run_test observed_env run_id health_case n (initial_observation blank, w) in
  if os_looping o then None else Some (r, n, (o, w)).

End Health.

(** ** What a pass means *)

Definition observe_all (samples : list RuntimeTelemetrySnapshot) (o : ObservationState) : ObservationState :=
  foldl (λ o s, observe s o) o samples.

(** A snapshot that shows a known device offline. *)
Definition shows_offline (s : RuntimeTelemetrySnapshot) : bool :=
  dv_ever_seen (ts_device s) && negb (dv_online (ts_device s)).

Lemma observe_all_spec samples : ∀ o,
  os_baseline (observe_all samples o) = os_baseline o ∧
  os_latest (observe_all samples o) = default (os_latest o) (last samples) ∧
  os_offline_after_seen (observe_all samples o) = os_offline_after_seen o || existsb shows_offline samples ∧
  os_max_heartbeat_age_ns o ≤ os_max_heartbeat_age_ns (observe_all samples o) ∧
  Forall (λ s, dv_heartbeat_age_ns (ts_device s) ≤ Z.max (-1) (os_max_heartbeat_age_ns (observe_all samples o))) samples.
Proof.
  induction samples as [|s samples IH]; intros o; [cbn; rewrite orb_false_r; done|].
  destruct (IH (observe s o)) as (Hb & Hl & Hf & Hm & Ha).
  change (observe_all (s :: samples) o) with (observe_all samples (observe s o)). rewrite Hb, Hl, Hf.
  assert (Hs : os_max_heartbeat_age_ns o ≤ os_max_heartbeat_age_ns (observe s o) ∧
    dv_heartbeat_age_ns (ts_device s) ≤ Z.max (-1) (os_max_heartbeat_age_ns (observe s o))).
  { cbn. destruct (Z.leb_spec 0 (dv_heartbeat_age_ns (ts_device s))); lia. }
  split_and!; try done.
  - destruct samples as [|s' samples]; [done|].
    change (last (s :: s' :: samples)) with (last (s' :: samples)).
    destruct (last (s' :: samples)) eqn:E; [done|by apply last_None in E].
  - cbn. unfold shows_offline. by rewrite orb_assoc.
  - lia.
  - constructor; [lia|done].
Qed.

Section HealthTheorems.
Context {W : Type} (env : RunEnv W).
Context (snapshot_provider : W → RuntimeTelemetrySnapshot * W) (wait : Z → W → Result () * W).
Variable criteria : CanHealthCriteria.
Implicit Type w : W.

Lemma observe_loop_samples turns deadline start : ∀ o w e o' w',
  observe_loop env snapshot_provider wait criteria turns deadline start (o, w) = (e, (o', w')) →
  ∃ samples, o' = observe_all samples o.
Proof.
  induction turns as [|turns IH]; intros o w e o' w'; cbn [observe_loop]; [intros [= _ <- _]; by exists []|].
  destruct (re_cancelled env w) as [[|] w1]; [intros [= _ <- _]; by exists []|].
  destruct (deadline_expired env deadline w1) as [[[|]|e1] w2]; try (intros [= _ <- _]; by exists []).
  destruct (re_clock env w2) as [[now|e1] w3]; [|intros [= _ <- _]; by exists []].
  destruct (_ <=? _); [intros [= _ <- _]; by exists []|].
  destruct (wait _ w3) as [[[]|e1] w4]; [|intros [= _ <- _]; by exists []].
  destruct (snapshot_provider w4) as [s w5]. intros (samples & ->)%IH. by exists (s :: samples).
Qed.

(** What the criteria of a passing evaluation say. *)
Definition healthy_window (base : RuntimeTelemetrySnapshot) (samples : list RuntimeTelemetrySnapshot) : Prop :=
  let latest := default base (last samples) in
  let grew f limit := 0 ≤ f latest - f base ≤ limit in
  hc_min_heartbeat_delta criteria ≤ dv_heartbeats (ts_device latest) - dv_heartbeats (ts_device base) ∧
  grew (λ s, cv_decode_rejects (ts_communication s)) (hc_max_decode_reject_delta criteria) ∧
  grew (λ s, cv_queue_rejects (ts_communication s)) (hc_max_queue_reject_delta criteria) ∧
  grew (λ s, cv_input_queue_drop_count (ts_communication s)) (hc_max_input_queue_drop_delta criteria) ∧
  dv_online (ts_device latest) = true ∧ Forall (λ s, shows_offline s = false) samples ∧
  Forall (λ s, dv_heartbeat_age_ns (ts_device s) ≤ ms_ns (hc_max_heartbeat_age criteria)) samples ∧
  rv_started (ts_runtime latest) = true ∧ rv_scheduler_running (ts_runtime latest) = true ∧
  rv_fault (ts_runtime latest) = RuntimeFaultCode.None ∧ dv_device_fault_code (ts_device latest) = 0 ∧
  cv_stop_reason (ts_communication latest) = StopReasonCode.None.

Lemma checked_delta_ok a b name d : checked_delta a b name = Ok d → d = b - a ∧ a ≤ b.
Proof. unfold checked_delta. destruct (Z.ltb_spec b a); [done|]. by intros [= <-]. Qed.

Lemma evaluate_passed deadline run_id l o w e l' o' w' :
  health_evaluate criteria deadline run_id (l, (o, w)) = (Ok e, (l', (o', w'))) → ev_passed e = true →
  ∀ base samples, o = observe_all samples (initial_observation base) → healthy_window base samples.
Proof.
  unfold health_evaluate.
  destruct (heartbeat_delta o) as [hb|] eqn:Hhb; [|done]. destruct (decode_delta o) as [dec|] eqn:Hdec; [|done].
  destruct (queue_delta o) as [que|] eqn:Hque; [|done]. destruct (drop_delta o) as [drp|] eqn:Hdrp; [|done].
  apply checked_delta_ok in Hhb as [-> Hhb], Hdec as [-> Hdec], Hque as [-> Hque], Hdrp as [-> Hdrp].
  intros [= <- _ _ _]. cbn [ev_passed]. unfold health_criteria. cbn [forallb ct_passed].
  rewrite !andb_true_iff. unfold age_fresh, stayed_online, runtime_healthy, communication_healthy.
  rewrite !andb_true_iff, !negb_true_iff, !Z.leb_le, Z.eqb_eq, !bool_decide_eq_true.
  intros (C1 & (C2 & C2') & (C3 & C3') & C4 & C5 & C6 & ((C7 & C7') & C7'') & (((_ & _) & C8) & C9) & _) base samples Ho.
  subst o. destruct (observe_all_spec samples (initial_observation base)) as (Hb & Hl & Hf & _ & Ha).
  set (o := observe_all samples (initial_observation base)) in *. clearbody o.
  cbn [os_baseline os_latest os_offline_after_seen initial_observation] in Hb, Hl, Hf.
  rewrite Hb, Hl in Hhb, Hdec, Hque, Hdrp, C1, C4, C5, C6. rewrite Hl in C3, C7, C7', C7'', C8, C9. rewrite Hf in C3'.
  unfold healthy_window. cbv zeta. split_and!; try done; try lia.
  - cbn in C3'. apply Forall_forall. intros s Hs. destruct (shows_offline s) eqn:E; [|done].
    rewrite <- C3'. symmetry. apply existsb_exists. exists s. split; [by apply list_elem_of_In|done].
  - eapply Forall_impl; [exact Ha|]. cbn. intros s Hs. lia.
Qed.

(** A passing health test means a healthy window: when the test passes, there are a first
    snapshot and the samples after it such that heartbeats grew by the required number,
    rejects and drops stayed within their limits, no sample showed the device offline or its
    heartbeat older than allowed, and the last one shows a running runtime without fault, a
    device without fault and communication that has not stopped. *)
Theorem health_pass_is_healthy run_id blank n w r n' s' :
  health_run env snapshot_provider wait criteria run_id blank n w = Some (r, n', s') →
  tr_outcome r = Outcome.Passed →
  ∃ base samples, healthy_window base samples ∧ cv_evidence (ts_communication base) = hc_expected_evidence criteria.
Proof.
  unfold health_run. destruct (run_test _ _ _ _ _) as [[r1 n1] [o1 w1]] eqn:Hrun.
  destruct (os_looping o1); [done|]. intros [= <- <- <-] Hp. destruct (run_test_passed _ _ _ _ _ _ _ _ Hrun Hp) as (p & x & v & q & t & e & Hp' & Hx & Hv & Hq & Hpass & _).
  injection Hp' as <-. injection Hx as <-. injection Hv as <-. injection Hq as <-.
  clear o1 w1 Hrun. destruct Hpass as (l0 & l1 & [o1 w1] & [o1' w1'] & l2 & [o2 w2] & [o2' w2'] & l3 & [o3 w3] & [o3' w3'] & s4 &
    H1 & S1 & H2 & S2 & H3 & _ & He & _).
  assert (Hstop : ∀ deadline o w o' w', should_stop (observed_env env) deadline (o, w) = (Ok false, (o', w')) → o' = o).
  { intros deadline o x o' x'. unfold should_stop, deadline_expired. cbn. destruct (re_cancelled env x) as [[|] x1]; [done|].
    cbn. destruct (re_clock env x1) as [[]]; by intros [= _ <- _]. }
  apply Hstop in S1, S2. subst o1' o2'.
  assert (Hw0 : ∃ w0, world_at_start (observed_env env) (initial_observation blank, w) = (initial_observation blank, w0)).
  { unfold world_at_start. cbn. destruct (re_clock env _) as [a x]. cbn. destruct (re_wall env x) as [b y]. by exists y. }
  destruct Hw0 as [w0 Hw0]. rewrite Hw0 in H1. unfold health_prepare in H1. destruct (validate_criteria criteria); [|done].
  destruct (snapshot_provider w0) as [base w0']. destruct (negb (rv_started _) || _); [done|].
  case_bool_decide as Hev; cbn [negb] in H1; [|done]. injection H1 as _ <- _.
  assert (Ho2 : ∃ samples, o2 = observe_all samples (initial_observation base)).
  { unfold health_execute in H2. destruct (re_clock env w1') as [[start|] x]; [|done].
    destruct (observe_loop _ _ _ _ _ _ _ _) as [[| |e1|] [o' x']] eqn:Hloop; try done.
    - apply observe_loop_samples in Hloop as [samples ->]. exists samples. by repeat case_match; simplify_eq.
    - apply observe_loop_samples in Hloop as [samples ->]. exists samples. by simplify_eq. }
  destruct Ho2 as [samples Ho2]. exists base, samples. split; [|done].
  by apply (evaluate_passed _ _ _ _ _ _ _ _ _ H3 He).
Qed.

End HealthTheorems.

(** ** The observation loop ends *)

Section HealthLoop.
Context {W : Type} (env : RunEnv W).
Context (snapshot_provider : W → RuntimeTelemetrySnapshot * W) (wait : Z → W → Result () * W).
Variable criteria : CanHealthCriteria.
Implicit Type w : W.

(** What the seams promise: [time] is the monotonic clock of a world.  It never goes back, a
    reading falls between the worlds around it, and a wait lasts as long as it was asked to. *)
Class LawfulTime (time : W → Z) : Prop := {
  clock_lawful w : match re_clock env w with
                   | (Ok t, w') => time w ≤ t ≤ time w'
                   | (Err _, w') => time w ≤ time w'
                   end;
  cancelled_lawful w : time w ≤ time (snd (re_cancelled env w));
  provider_lawful w : time w ≤ time (snd (snapshot_provider w));
  wait_lawful d w w' : wait d w = (Ok (), w') → time w + d ≤ time w'
}.

Context (time : W → Z) `{!LawfulTime time}.

Lemma observe_loop_ends turns deadline start : ∀ o w,
  0 < hc_sample_interval criteria → (0 < turns)%nat →
  ms_ns (hc_observation_window criteria) - (time w - start) ≤
    (Z.of_nat turns - 1) * ms_ns (hc_sample_interval criteria) →
  fst (observe_loop env snapshot_provider wait criteria turns deadline start (o, w)) ≠ TurnsUsed.
Proof.
  induction turns as [|turns IH]; [lia|]. intros o w Hiv _ Hbound. cbn [observe_loop].
  pose proof (cancelled_lawful w) as Hc. destruct (re_cancelled env w) as [[|] w1]; [done|]. cbn [snd] in Hc.
  unfold deadline_expired. pose proof (clock_lawful w1) as H1. destruct (re_clock env w1) as [[t1|e1] w2]; [|done].
  destruct (deadline <=? t1); [done|].
  pose proof (clock_lawful w2) as H2. destruct (re_clock env w2) as [[now|e2] w3]; [|done].
  destruct (Z.leb_spec (ms_ns (hc_observation_window criteria)) (now - start)) as [|Hgo]; [done|].
  destruct (wait _ w3) as [[[]|e3] w4] eqn:Hw; [|done]. apply wait_lawful in Hw.
  pose proof (provider_lawful w4) as Hp. destruct (snapshot_provider w4) as [s w5]. cbn [snd] in Hp.
  assert (Hms : 0 < ms_ns (hc_sample_interval criteria)) by (unfold ms_ns; lia).
  set (iv := ms_ns (hc_sample_interval criteria)) in *. clearbody iv.
  rewrite Nat2Z.inj_succ in Hbound. destruct turns as [|turns]; [lia|]. rewrite Nat2Z.inj_succ in *.
  assert (0 ≤ Z.of_nat turns * iv) by (apply Z.mul_nonneg_nonneg; lia). apply IH; lia.
Qed.

Lemma enough_turns start t :
  0 < hc_sample_interval criteria → 0 < hc_observation_window criteria → start ≤ t →
  ms_ns (hc_observation_window criteria) - (t - start) ≤
    (Z.of_nat (loop_turns criteria) - 1) * ms_ns (hc_sample_interval criteria).
Proof.
  intros Hiv Hw Hs. unfold loop_turns.
  pose proof (Z.div_mod (hc_observation_window criteria) (hc_sample_interval criteria)).
  pose proof (Z.mod_pos_bound (hc_observation_window criteria) (hc_sample_interval criteria)).
  pose proof (Z.div_pos (hc_observation_window criteria) (hc_sample_interval criteria)).
  unfold ms_ns. nia.
Qed.

(** C27.  The observation loop of the health test ends: with a clock that does not go back and
    waits that last as long as asked, it leaves through the end of the window, a stop or an
    error within window / interval + 3 turns, whatever the snapshots, the deadline and the
    cancellation flag do. *)
Theorem observation_loop_ends deadline start o w :
  0 < hc_sample_interval criteria → 0 < hc_observation_window criteria → start ≤ time w →
  fst (observe_loop env snapshot_provider wait criteria (loop_turns criteria) deadline start (o, w)) ≠ TurnsUsed.
Proof.
  intros Hiv Hw Hs. apply observe_loop_ends; [done|unfold loop_turns; lia|by apply enough_turns].
Qed.

(** The callbacks never leave the observation loop running. *)
Lemma observe_loop_flag turns deadline start : ∀ o w,
  os_looping (fst (snd (observe_loop env snapshot_provider wait criteria turns deadline start (o, w)))) = os_looping o.
Proof.
  induction turns as [|turns IH]; intros o w; cbn [observe_loop]; [done|].
  destruct (re_cancelled env w) as [[|] w1]; [done|]. destruct (deadline_expired env deadline w1) as [[[|]|] w2]; try done.
  destruct (re_clock env w2) as [[now|] w3]; [|done]. destruct (_ <=? _); [done|].
  destruct (wait _ w3) as [[|] w4]; [|done]. destruct (snapshot_provider w4) as [s w5]. by rewrite IH.
Qed.

#[local] Instance observed_env_keeps : EnvKeeps (observed_env env) (λ s, os_looping (fst s) = false).
Proof.
  split; intros [o w]; cbn; [destruct (re_clock env w)|destruct (re_wall env w)|destruct (re_cancelled env w)|]; done.
Qed.

Lemma execute_ends :
  0 < hc_sample_interval criteria → 0 < hc_observation_window criteria →
  callback_keeps (λ s, os_looping (fst s) = false) (health_execute env snapshot_provider wait criteria).
Proof.
  intros Hiv Hwin d id l [o w] Ho. cbn [fst] in Ho. unfold health_execute. pose proof (clock_lawful w) as Hc.
  destruct (re_clock env w) as [[start|] w1]; [|done].
  pose proof (observe_loop_ends (loop_turns criteria) d start o w1 Hiv) as He.
  pose proof (observe_loop_flag (loop_turns criteria) d start o w1) as Hf.
  assert (Hnot : fst (observe_loop env snapshot_provider wait criteria (loop_turns criteria) d start (o, w1)) ≠ TurnsUsed).
  { apply He; [unfold loop_turns; lia|]. apply enough_turns; [done|done|lia]. }
  destruct (observe_loop _ _ _ _ _ _ _ _) as [[| |e|] [o' w']]; cbn in Hf, Hnot |- *; [|congruence..].
  repeat case_match; cbn; congruence.
Qed.

(** The call returns. *)
Lemma health_run_returns run_id blank n w :
  0 < hc_sample_interval criteria → 0 < hc_observation_window criteria →
  ∃ o w', health_run env snapshot_provider wait criteria run_id blank n w =
    Some (fst (run_test (observed_env env) run_id (health_case env snapshot_provider wait criteria) n
                 (initial_observation blank, w)), (o, w')).
Proof.
  intros Hiv Hwin. unfold health_run.
  pose proof (run_test_world (observed_env env) (λ s, os_looping (fst s) = false) run_id
    (health_case env snapshot_provider wait criteria) n (initial_observation blank, w)) as Hk.
  destruct (run_test _ _ _ _ _) as [[r n1] [o w']]. cbn [snd fst] in Hk. rewrite Hk; [by exists o, w'| | | | |done];
    intros f [= <-].
  - intros d id l [o1 w1] H1. cbn in H1. unfold health_prepare. destruct (validate_criteria criteria); [|done].
    destruct (snapshot_provider w1). by repeat case_match.
  - by apply execute_ends.
  - intros d id l [o1 w1] H1. cbn in H1. unfold health_evaluate. by repeat case_match.
  - by intros d id l [o1 w1] H1.
Qed.

End HealthLoop.

(** ** A concrete healthy run *)

(** A node whose heartbeat counter shows the clock in units of 100 ms. *)
Definition demo_snapshot (t : Z) : RuntimeTelemetrySnapshot :=
  mkTelemetry t
    (mkRuntimeStateView true false true true RuntimeModeCode.Idle RuntimeFaultCode.None RuntimeExitStatus.Ok)
    (mkTimingSnapshot 0 0 0 0 0 0 false 0 false 0 0)
    (mkCommunicationView "SOCKETCAN" "vcan0" EvidenceClass.Vcan 0 0 0 0 0 0 8 0 0 false StopReasonCode.None 0)
    (mkDeviceView "CAN_NODE_1" 1 true true false false false 1 1 0 0 0 0 1000000 (t / 100000000) 0 0)
    (mkOutputFeedbackView false 0 0 0 0 0 OutputApplyResult.Unknown 0 0 0)
    false false false false false 0 [].

Definition demo_provider (w : Z) : RuntimeTelemetrySnapshot * Z := (demo_snapshot w, w).
Definition demo_wait (d w : Z) : Result () * Z := (Ok (), w + d).

#[export] Instance demo_lawful : LawfulTime demo_env demo_provider demo_wait id.
Proof. split; cbn; try lia. intros d w w'. unfold demo_wait. intros [= <-]. lia. Qed.

Lemma health_pass_is_healthy_witness :
  let run := health_run demo_env demo_provider demo_wait default_criteria "run" (demo_snapshot 0) runner_new 0 in
  (tr_outcome ∘ fst ∘ fst <$> run) = Some Outcome.Passed ∧
  ∃ base samples, healthy_window default_criteria base samples ∧
    cv_evidence (ts_communication base) = hc_expected_evidence default_criteria.
Proof.
  cbv zeta. assert (Hpass : (tr_outcome ∘ fst ∘ fst <$> health_run demo_env demo_provider demo_wait default_criteria "run"
    (demo_snapshot 0) runner_new 0) = Some Outcome.Passed) by (vm_compute; reflexivity).
  split; [exact Hpass|].
  destruct (health_run _ _ _ _ _ _ _ _) as [[[r n'] s']|] eqn:Hrun; [|discriminate Hpass].
  injection Hpass as Hpass.
  exact (health_pass_is_healthy demo_env demo_provider demo_wait default_criteria "run" (demo_snapshot 0) runner_new 0
    r n' s' Hrun Hpass).
Defined.

Lemma observation_loop_ends_witness :
  fst (observe_loop demo_env demo_provider demo_wait default_criteria (loop_turns default_criteria) 1000000000 0
    (initial_observation (demo_snapshot 0), 0)) ≠ TurnsUsed.
Proof.
  apply (observation_loop_ends demo_env demo_provider demo_wait default_criteria id 1000000000 0
    (initial_observation (demo_snapshot 0)) 0); vm_compute; [reflexivity|reflexivity|discriminate].
Defined.
