(* ===== verification/Json.v ===== *)
(** * JSON, the reference

    The text format the result writer promises: values, a writer with the indentation of the
    sources, and a reader of its own that keeps the members of an object in order and every
    number as its text.  The reader accepts what the writer produces ([parse_show]). *)

From Stdlib Require Import Ascii.
From stdpp Require Import pretty.
From S2P Require Import Prelude.
Local Open Scope Z_scope.

(** ** Text *)

Lemma str_app_cons x (a b : string) : String x a +:+ b = String x (a +:+ b).
Proof. done. Qed.
Lemma str_app_nil_l (a : string) : "" +:+ a = a.
Proof. done. Qed.
Lemma str_app_assoc (a b c : string) : a +:+ (b +:+ c) = (a +:+ b) +:+ c.
Proof. induction a as [|x a IH]; [done|]. exact (f_equal (String x) IH). Qed.
Lemma str_app_nil_r (a : string) : a +:+ "" = a.
Proof. induction a as [|x a IH]; [done|]. exact (f_equal (String x) IH). Qed.
Lemma str_length_app (a b : string) : String.length (a +:+ b) = (String.length a + String.length b)%nat.
Proof. induction a as [|x a IH]; [done|]. exact (f_equal S IH). Qed.

Definition dquote : ascii := "034".
Definition backslash : ascii := "092".
Definition chr (c : ascii) : string := String c "".
(** A line break. *)
Definition nl : string := chr "010".

Definition code (c : ascii) : Z := Z.of_nat (nat_of_ascii c).

(** A property of every character. *)
Fixpoint all_chars (p : ascii → bool) (s : string) : bool :=
  match s with
  | "" => true
  | String c s => p c && all_chars p s
  end.

Lemma all_chars_app p a b : all_chars p (a +:+ b) = all_chars p a && all_chars p b.
Proof. induction a as [|x a IH]; [done|]. rewrite str_app_cons. cbn. by rewrite IH, andb_assoc. Qed.

Fixpoint spaces (n : nat) : string := match n with O => "" | S n => String " " (spaces n) end.

(** ** Values *)

#[warnings="-register-all"]
Inductive json :=
  | JNull
  | JBool (b : bool)
  | JNum (text : string)
  | JStr (s : string)
  | JArr (l : list json)
  | JObj (l : list (string * json)).

(** Two hexadecimal digits of a byte, in lower case. *)
Definition hex_digit (n : nat) : ascii := ascii_of_nat (if (n <? 10)%nat then 48 + n else 87 + n)%nat.

Definition escape_char (c : ascii) : string :=
  if bool_decide (c = dquote) then String backslash (chr dquote)
  else if bool_decide (c = backslash) then String backslash (chr backslash)
  else if code c =? 8 then String backslash "b"
  else if code c =? 12 then String backslash "f"
  else if code c =? 10 then String backslash "n"
  else if code c =? 13 then String backslash "r"
  else if code c =? 9 then String backslash "t"
  else if code c <? 32 then
    String backslash ("u00" +:+ String (hex_digit (nat_of_ascii c / 16)) (chr (hex_digit (nat_of_ascii c mod 16))))
  else chr c.

Fixpoint escape (s : string) : string :=
  match s with
  | "" => ""
  | String c s => escape_char c +:+ escape s
  end.

Definition quoted (s : string) : string := chr dquote +:+ escape s +:+ chr dquote.

(** ** The writer *)

Definition indent (depth : nat) : string := spaces (depth * 2).

Definition show_key (depth : nat) (first : bool) (key : string) : string :=
  (if first then "" else "," +:+ nl) +:+ indent depth +:+ quoted key +:+ ": ".

Fixpoint show (depth : nat) (v : json) : string :=
  match v with
  | JNull => "null"
  | JBool b => if b then "true" else "false"
  | JNum text => text
  | JStr s => quoted s
  | JArr l =>
      "[" +:+ nl +:+
      (fix items l :=
         match l with
         | [] => ""
         | v :: l =>
             indent (S depth) +:+ show (S depth) v +:+ (match l with [] => "" | _ => "," end) +:+ nl +:+ items l
         end) l +:+
      indent depth +:+ "]"
  | JObj l =>
      "{" +:+ nl +:+
      (fix fields first l :=
         match l with
         | [] => ""
         | (k, v) :: l => show_key (S depth) first k +:+ show (S depth) v +:+ fields false l
         end) true l +:+
      nl +:+ indent depth +:+ "}"
  end.

Fixpoint show_items (depth : nat) (l : list json) : string :=
  match l with
  | [] => ""
  | v :: l => indent depth +:+ show depth v +:+ (match l with [] => "" | _ => "," end) +:+ nl +:+ show_items depth l
  end.

Fixpoint show_fields (depth : nat) (first : bool) (l : list (string * json)) : string :=
  match l with
  | [] => ""
  | (k, v) :: l => show_key depth first k +:+ show depth v +:+ show_fields depth false l
  end.

Lemma show_arr d l : show d (JArr l) = "[" +:+ nl +:+ show_items (S d) l +:+ indent d +:+ "]".
Proof.
  cbn [show]. do 3 f_equal. induction l as [|v l IH]; [done|]. cbn [show_items]. by rewrite IH.
Qed.
Lemma show_obj d l : show d (JObj l) = "{" +:+ nl +:+ show_fields (S d) true l +:+ nl +:+ indent d +:+ "}".
Proof.
  cbn [show]. do 3 f_equal. generalize true. induction l as [|[k v] l IH]; intros first; [done|].
  cbn [show_fields]. by rewrite IH.
Qed.

(** ** The reader *)

Definition is_ws (c : ascii) : bool :=
  (code c =? 32) || (code c =? 10) || (code c =? 13) || (code c =? 9).
Definition is_num (c : ascii) : bool :=
  ((48 <=? code c) && (code c <=? 57)) || (code c =? 45) || (code c =? 43) || (code c =? 46) ||
  (code c =? 101) || (code c =? 69).

Fixpoint skip_ws (s : string) : string :=
  match s with
  | String c r => if is_ws c then skip_ws r else s
  | "" => ""
  end.

Definition hex_value (c : ascii) : option nat :=
  let n := nat_of_ascii c in
  if ((48 <=? n) && (n <=? 57))%nat then Some (n - 48)%nat
  else if ((97 <=? n) && (n <=? 102))%nat then Some (n - 87)%nat
  else if ((65 <=? n) && (n <=? 70))%nat then Some (n - 55)%nat
  else None.

Definition hex_byte (a b c d : ascii) : option ascii :=
  match hex_value a, hex_value b, hex_value c, hex_value d with
  | Some O, Some O, Some h, Some l => Some (ascii_of_nat (16 * h + l))
  | _, _, _, _ => None
  end.

(** The rest of a string literal after its opening quote. *)
Fixpoint parse_str (s : string) : option (string * string) :=
  match s with
  | "" => None
  | String c r =>
      if bool_decide (c = dquote) then Some ("", r)
      else if bool_decide (c = backslash) then
        match r with
        | "" => None
        | String e r =>
            let one x := prod_map (String x) id <$> parse_str r in
            if bool_decide (e = dquote) then one dquote
            else if bool_decide (e = backslash) then one backslash
            else if bool_decide (e = "/"%char) then one e
            else if bool_decide (e = "b"%char) then one "008"%char
            else if bool_decide (e = "f"%char) then one "012"%char
            else if bool_decide (e = "n"%char) then one "010"%char
            else if bool_decide (e = "r"%char) then one "013"%char
            else if bool_decide (e = "t"%char) then one "009"%char
            else if bool_decide (e = "u"%char) then
              match r with
              | String a (String b (String c (String d r))) =>
                  x ← hex_byte a b c d; prod_map (String x) id <$> parse_str r
              | _ => None
              end
            else None
        end
      else if code c <? 32 then None
      else prod_map (String c) id <$> parse_str r
  end.

Fixpoint take_num (s : string) : string * string :=
  match s with
  | String c r => if is_num c then let '(a, b) := take_num r in (String c a, b) else ("", s)
  | "" => ("", "")
  end.

(** [expect p s] is what follows [p] in [s]. *)
Fixpoint expect (p s : string) : option string :=
  match p, s with
  | "", _ => Some s
  | String a p, String b s => if bool_decide (a = b) then expect p s else None
  | _, _ => None
  end.

(** Whether the next character, after white space, is [c], and what follows it. *)
Definition next_is (c : ascii) (s : string) : option string :=
  match skip_ws s with
  | String x r => if bool_decide (x = c) then Some r else None
  | "" => None
  end.

Fixpoint parse_value (n : nat) (s : string) : option (json * string) :=
  match n with
  | O => None
  | S n =>
      match skip_ws s with
      | "" => None
      | String c r =>
          if bool_decide (c = dquote) then prod_map JStr id <$> parse_str r
          else if bool_decide (c = "["%char) then
            match next_is "]" r with
            | Some r => Some (JArr [], r)
            | None => prod_map JArr id <$> parse_items n r
            end
          else if bool_decide (c = "{"%char) then
            match next_is "}" r with
            | Some r => Some (JObj [], r)
            | None => prod_map JObj id <$> parse_fields n r
            end
          else if bool_decide (c = "n"%char) then pair JNull <$> expect "ull" r
          else if bool_decide (c = "t"%char) then pair (JBool true) <$> expect "rue" r
          else if bool_decide (c = "f"%char) then pair (JBool false) <$> expect "alse" r
          else if is_num c then let '(a, b) := take_num r in Some (JNum (String c a), b)
          else None
      end
  end
with parse_items (n : nat) (s : string) : option (list json * string) :=
  match n with
  | O => None
  | S n =>
      '(v, s) ← parse_value n s;
      match next_is "," s with
      | Some s => prod_map (cons v) id <$> parse_items n s
      | None => pair [v] <$> next_is "]" s
      end
  end
with parse_fields (n : nat) (s : string) : option (list (string * json) * string) :=
  match n with
  | O => None
  | S n =>
      s ← next_is dquote s;
      '(k, s) ← parse_str s;
      s ← next_is ":" s;
      '(v, s) ← parse_value n s;
      match next_is "," s with
      | Some s => prod_map (cons (k, v)) id <$> parse_fields n s
      | None => pair [(k, v)] <$> next_is "}" s
      end
  end.

(** A document is one value and nothing else. *)
Definition parse_json (s : string) : option json :=
  match parse_value (String.length s) s with
  | Some (v, r) => if bool_decide (skip_ws r = "") then Some v else None
  | None => None
  end.

(** ** Strings come back *)

Lemma parse_escape_char c rest : parse_str (escape_char c +:+ rest) = prod_map (String c) id <$> parse_str rest.
Proof. destruct c as [[] [] [] [] [] [] [] []]; reflexivity. Qed.

Lemma parse_escape s rest : parse_str (escape s +:+ chr dquote +:+ rest) = Some (s, rest).
Proof.
  induction s as [|c s IH]; [done|]. cbn [escape]. by rewrite <- str_app_assoc, parse_escape_char, IH.
Qed.

(** ** Documents come back *)

Fixpoint jsize (v : json) : nat :=
  match v with
  | JArr l => S (foldr (λ v n, S (jsize v + n)) 0%nat l)
  | JObj l => S (foldr (λ kv n, S (jsize (snd kv) + n)) 0%nat l)
  | _ => 1
  end.

Definition items_size (l : list json) : nat := foldr (λ v n, S (jsize v + n)) 0%nat l.
Definition fields_size (l : list (string * json)) : nat := foldr (λ kv n, S (jsize (snd kv) + n)) 0%nat l.

(** A number's text is not empty and made of the characters of numbers. *)
Definition num_text (s : string) : bool := negb (String.length s =? 0)%nat && all_chars is_num s.

Fixpoint json_ok (v : json) : bool :=
  match v with
  | JNum text => num_text text
  | JArr l => forallb json_ok l
  | JObj l => forallb (λ kv, json_ok (snd kv)) l
  | _ => true
  end.

(** What may follow a value. *)
Definition ends_number (s : string) : Prop :=
  match s with String c _ => is_num c = false | "" => True end.

Lemma skip_ws_spaces n s : skip_ws (spaces n +:+ s) = skip_ws s.
Proof. by induction n. Qed.
Lemma skip_ws_nl s : skip_ws (nl +:+ s) = skip_ws s.
Proof. done. Qed.
Lemma skip_ws_idem s : skip_ws (skip_ws s) = skip_ws s.
Proof. induction s as [|c s IH]; [done|]. cbn. destruct (is_ws c) eqn:E; [done|]. cbn. by rewrite E. Qed.

Lemma next_is_ws c s t : skip_ws s = skip_ws t → next_is c s = next_is c t.
Proof. unfold next_is. by intros ->. Qed.
Lemma next_is_indent c d s : next_is c (indent d +:+ s) = next_is c s.
Proof. apply next_is_ws, skip_ws_spaces. Qed.
Lemma next_is_nl c s : next_is c (nl +:+ s) = next_is c s.
Proof. by apply next_is_ws. Qed.
Lemma parse_value_indent n d s : parse_value n (indent d +:+ s) = parse_value n s.
Proof. destruct n; [done|]. cbn [parse_value]. unfold indent. by rewrite skip_ws_spaces. Qed.

Lemma take_num_app a rest : all_chars is_num a = true → ends_number rest → take_num (a +:+ rest) = (a, rest).
Proof.
  intros Ha Hr. induction a as [|c a IH].
  - rewrite str_app_nil_l. destruct rest as [|c rest]; [done|]. cbn in *. by rewrite Hr.
  - cbn in Ha. apply andb_prop in Ha as [Hc Ha]. rewrite str_app_cons. cbn. by rewrite Hc, (IH Ha).
Qed.

Lemma num_char c : is_num c = true →
  is_ws c = false ∧ c ≠ dquote ∧ c ≠ "["%char ∧ c ≠ "{"%char ∧ c ≠ "n"%char ∧ c ≠ "t"%char ∧ c ≠ "f"%char.
Proof.
  intros H. assert (Hws : is_ws c = false).
  { unfold is_num, is_ws in *. lia. }
  split; [done|]. split_and!; by intros ->.
Qed.

(** How a value begins: never with white space, nor with the end of a list or an object. *)
Lemma show_head d v rest : json_ok v = true →
  ∃ c r, show d v +:+ rest = String c r ∧ is_ws c = false ∧ c ≠ "]"%char ∧ c ≠ "}"%char.
Proof.
  intros Hv. destruct v as [|[]|text|s|l|l]; try rewrite show_arr; try rewrite show_obj;
    try (eexists _, _; split; [reflexivity|by split_and!]).
  cbn in Hv. unfold num_text in Hv. apply andb_prop in Hv as [Hne Hall]. destruct text as [|c text]; [done|].
  cbn in Hall. apply andb_prop in Hall as [Hc _]. exists c, (text +:+ rest). split; [done|].
  split; [by apply num_char|]. split; by intros ->.
Qed.

Lemma next_is_show c d v rest : json_ok v = true → c = "]"%char ∨ c = "}"%char → next_is c (show d v +:+ rest) = None.
Proof.
  intros Hv Hc. destruct (show_head d v rest Hv) as (x & r & -> & Hws & H1 & H2). unfold next_is. cbn. rewrite Hws.
  rewrite bool_decide_eq_false_2; [done|]. destruct Hc as [->| ->]; congruence.
Qed.

Lemma parse_value_nl n s : parse_value n (nl +:+ s) = parse_value n s.
Proof. by destruct n. Qed.
Lemma parse_items_nl n s : parse_items n (nl +:+ s) = parse_items n s.
Proof. destruct n; [done|]. cbn [parse_items]. by rewrite parse_value_nl. Qed.
Lemma parse_fields_nl n s : parse_fields n (nl +:+ s) = parse_fields n s.
Proof. destruct n; [done|]. cbn [parse_fields]. by rewrite next_is_nl. Qed.

Lemma next_is_char c s : is_ws c = false → next_is c (chr c +:+ s) = Some s.
Proof. intros H. unfold next_is, chr. rewrite str_app_cons, str_app_nil_l. cbn. by rewrite H, bool_decide_eq_true_2. Qed.
Lemma next_is_other c x s : is_ws x = false → x ≠ c → next_is c (chr x +:+ s) = None.
Proof.
  intros H Hx. unfold next_is, chr. rewrite str_app_cons, str_app_nil_l. cbn. by rewrite H, bool_decide_eq_false_2.
Qed.

Lemma show_fields_next d l : l ≠ [] → show_fields d false l = "," +:+ nl +:+ show_fields d true l.
Proof. destruct l as [|[k v] l]; [done|]. intros _. cbn [show_fields]. unfold show_key. by rewrite <- !str_app_assoc. Qed.

Lemma colon_space s : ": " +:+ s = chr ":" +:+ chr " " +:+ s.
Proof. done. Qed.
Lemma parse_value_space n s : parse_value n (chr " " +:+ s) = parse_value n s.
Proof. by destruct n. Qed.

Lemma next_is_items d l rest : l ≠ [] → forallb json_ok l = true → next_is "]" (show_items d l +:+ rest) = None.
Proof.
  intros Hl Hok. destruct l as [|v l]; [done|]. cbn in Hok. apply andb_prop in Hok as [Hv _].
  cbn [show_items]. rewrite <- !str_app_assoc, next_is_indent. by apply next_is_show; auto.
Qed.
Lemma next_is_fields d l rest : l ≠ [] → next_is "}" (show_fields d true l +:+ rest) = None.
Proof.
  intros Hl. destruct l as [|[k v] l]; [done|]. cbn [show_fields]. unfold show_key, quoted.
  rewrite <- !str_app_assoc, str_app_nil_l, next_is_indent. by apply next_is_other.
Qed.

(** What the reader makes of the writer's text with fuel [n]. *)
Definition reads_value (n : nat) : Prop := ∀ v d rest,
  (jsize v ≤ n)%nat → json_ok v = true → ends_number rest → parse_value n (show d v +:+ rest) = Some (v, rest).
Definition reads_items (n : nat) : Prop := ∀ l d e rest,
  l ≠ [] → (items_size l ≤ n)%nat → forallb json_ok l = true →
  parse_items n (show_items d l +:+ indent e +:+ "]" +:+ rest) = Some (l, rest).
Definition reads_fields (n : nat) : Prop := ∀ l d e rest,
  l ≠ [] → (fields_size l ≤ n)%nat → forallb (λ kv, json_ok (snd kv)) l = true →
  parse_fields n (show_fields d true l +:+ nl +:+ indent e +:+ "}" +:+ rest) = Some (l, rest).

Lemma reads_items_S n : reads_value n → reads_items n → reads_items (S n).
Proof.
  intros HV HI l d e rest Hl Hn Hok. destruct l as [|v l]; [done|]. cbn in Hok. apply andb_prop in Hok as [Hv Hok].
  unfold items_size in Hn. cbn [foldr] in Hn. fold (items_size l) in Hn.
  cbn [parse_items show_items]. rewrite <- !str_app_assoc, parse_value_indent, HV; [|lia|done|by destruct l].
  cbn. destruct l as [|v' l].
  - rewrite str_app_nil_l, !next_is_nl. cbn [show_items]. rewrite str_app_nil_l, !next_is_indent.
    by rewrite (next_is_other "," "]"), (next_is_char "]").
  - rewrite (next_is_char "," _ eq_refl), parse_items_nl, HI; [done|done|lia|done].
Qed.

Lemma reads_fields_S n : reads_value n → reads_fields n → reads_fields (S n).
Proof.
  intros HV HF l d e rest Hl Hn Hok. destruct l as [|[k v] l]; [done|]. cbn in Hok. apply andb_prop in Hok as [Hv Hok].
  unfold fields_size in Hn. cbn [foldr snd] in Hn. fold (fields_size l) in Hn.
  cbn [parse_fields show_fields]. unfold show_key, quoted.
  rewrite <- !str_app_assoc, str_app_nil_l, next_is_indent, next_is_char by done. cbn.
  rewrite parse_escape. cbn. rewrite colon_space, (next_is_char ":") by done. cbn. rewrite parse_value_space.
  rewrite HV; [|lia|done|by destruct l as [|[]]]. cbn. destruct (decide (l = [])) as [->|Hne].
  - cbn [show_fields]. rewrite str_app_nil_l, !next_is_nl, !next_is_indent.
    by rewrite (next_is_other "," "}"), (next_is_char "}").
  - rewrite (show_fields_next d l Hne), <- !str_app_assoc, (next_is_char "," _ eq_refl), parse_fields_nl, HF;
      [done|done|lia|done].
Qed.

(** The reader at the characters that open a value. *)
Lemma parse_value_quote n r : parse_value (S n) (chr dquote +:+ r) = prod_map JStr id <$> parse_str r.
Proof. done. Qed.
Lemma parse_value_arr n r : parse_value (S n) ("[" +:+ r) =
  match next_is "]" r with Some r => Some (JArr [], r) | None => prod_map JArr id <$> parse_items n r end.
Proof. done. Qed.
Lemma parse_value_obj n r : parse_value (S n) ("{" +:+ r) =
  match next_is "}" r with Some r => Some (JObj [], r) | None => prod_map JObj id <$> parse_fields n r end.
Proof. done. Qed.

Lemma reads_value_S n : reads_items n → reads_fields n → reads_value (S n).
Proof.
  intros HI HF v d rest Hn Hok Hend. destruct v as [|b|text|s|l|l].
  - done.
  - by destruct b.
  - cbn in Hok. unfold num_text in Hok. apply andb_prop in Hok as [Hne Hall]. destruct text as [|c text]; [done|].
    cbn in Hall. apply andb_prop in Hall as [Hc Hall]. destruct (num_char c Hc) as (Hws & H1 & H2 & H3 & H4 & H5 & H6).
    cbn [show]. rewrite str_app_cons. cbn [parse_value skip_ws]. rewrite Hws, !bool_decide_eq_false_2 by done.
    by rewrite Hc, take_num_app.
  - cbn [show]. unfold quoted. by rewrite <- !str_app_assoc, parse_value_quote, parse_escape.
  - rewrite show_arr, <- !str_app_assoc, parse_value_arr, next_is_nl. destruct (decide (l = [])) as [->|Hne].
    + cbn [show_items]. by rewrite str_app_nil_l, next_is_indent, (next_is_char "]").
    + rewrite next_is_items, parse_items_nl, HI; [done|done| |done|done|done]. cbn in Hn. unfold items_size. lia.
  - rewrite show_obj, <- !str_app_assoc, parse_value_obj, next_is_nl. destruct (decide (l = [])) as [->|Hne].
    + cbn [show_fields]. by rewrite str_app_nil_l, next_is_nl, next_is_indent, (next_is_char "}").
    + rewrite next_is_fields, parse_fields_nl, HF; [done|done| |done|done]. cbn in Hn. unfold fields_size. lia.
Qed.

Lemma reads_all n : reads_value n ∧ reads_items n ∧ reads_fields n.
Proof.
  induction n as [|n (HV & HI & HF)].
  - split_and!.
    + intros v d rest Hn. destruct v; cbn in Hn; lia.
    + intros [|v l] d e rest Hl Hn; [done|cbn in Hn; lia].
    + intros [|v l] d e rest Hl Hn; [done|cbn in Hn; lia].
  - split_and!; [by apply reads_value_S|by apply reads_items_S|by apply reads_fields_S].
Qed.

(** The text is long enough to be the fuel of the reader. *)
Lemma jsize_length n : ∀ v d, (jsize v ≤ n)%nat → json_ok v = true → (jsize v ≤ String.length (show d v))%nat.
Proof.
  induction n as [|n IH]; intros v d Hn Hok; [destruct v; cbn in Hn; lia|].
  destruct v as [|[]|text|s|l|l]; try (cbn; lia).
  - cbn in *. unfold num_text in Hok. destruct text; [done|cbn; lia].
  - cbn [show]. unfold quoted. rewrite !str_length_app. cbn. lia.
  - rewrite show_arr, !str_length_app. cbn [jsize] in *. fold (items_size l) in *. cbn [json_ok] in Hok. change (String.length nl) with 1%nat.
    assert (H : (items_size l ≤ String.length (show_items (S d) l))%nat); [|lia].
    clear - IH Hn Hok. unfold items_size in *. induction l as [|v l IHl]; cbn [foldr show_items] in *; [lia|].
    cbn in Hok. apply andb_prop in Hok as [Hv Hok]. rewrite !str_length_app. specialize (IH v (S d) ltac:(lia) Hv).
    specialize (IHl ltac:(lia) Hok). change (String.length nl) with 1%nat. lia.
  - rewrite show_obj, !str_length_app. cbn [jsize] in *. fold (fields_size l) in *. cbn [json_ok] in Hok. change (String.length nl) with 1%nat.
    assert (H : ∀ first, (fields_size l ≤ String.length (show_fields (S d) first l))%nat); [|specialize (H true); lia].
    clear - IH Hn Hok. unfold fields_size in *. induction l as [|[k v] l IHl]; intros first; cbn [foldr show_fields snd] in *; [lia|].
    cbn in Hok. apply andb_prop in Hok as [Hv Hok]. unfold show_key, quoted. rewrite !str_length_app. specialize (IH v (S d) ltac:(lia) Hv).
    specialize (IHl ltac:(lia) Hok false). change (String.length (chr dquote)) with 1%nat. lia.
Qed.

(** Whatever the writer produces, the reader gives back. *)
Lemma parse_show v : json_ok v = true → parse_json (show 0 v +:+ nl) = Some v.
Proof.
  intros Hok. unfold parse_json. destruct (reads_all (String.length (show 0 v +:+ nl))) as [H _].
  rewrite H; [done| |done|done]. pose proof (jsize_length (jsize v) v 0 ltac:(lia) Hok). rewrite str_length_app. lia.
Qed.
