(* ===== verification/ResultWriter.v ===== *)
(** * The result writer

    services/result_writer.cpp: a test result as a JSON document and as one CSV row, each
    written to a temporary file that is then renamed. *)

From Stdlib Require Import Ascii.
From stdpp Require Import pretty gmap.
From S2P Require Import Prelude Types Application Doubles TestRunner Json.
Local Open Scope Z_scope.

Definition kResultSchemaId : string := "rcr.workbench.result.v1".

(** ** Checks *)

(** [std::isalnum] in the "C" locale. *)
Definition is_alnum (c : ascii) : bool :=
  ((48 <=? code c) && (code c <=? 57)) || ((65 <=? code c) && (code c <=? 90)) || ((97 <=? code c) && (code c <=? 122)).

Definition is_safe_char (c : ascii) : bool :=
  is_alnum c || bool_decide (c = "."%char) || bool_decide (c = "_"%char) || bool_decide (c = "-"%char).

Definition is_safe_run_id (run_id : string) : bool :=
  if empty_text run_id || bool_decide (run_id = ".") || bool_decide (run_id = "..") then false
  else all_chars is_safe_char run_id.

Definition failed_criteria_count (r : TestResult) : Z :=
  foldl (λ n item, if ct_passed item then n else n + 1) 0 (tr_criteria r).

Definition is_nil {A} (l : list A) : bool := match l with [] => true | _ => false end.

Definition validate_persistable (r : TestResult) : Result () :=
  if negb (is_safe_run_id (tr_run_id r)) then
    fail_with Errc.InvalidArgument "run_id must be a portable file stem: [A-Za-z0-9._-]+"
  else if empty_text (tr_case_id r) || empty_text (tr_case_name r) then
    fail_with Errc.InvalidArgument "case id and case name must be non-empty"
  else if negb (tr_outcome r ==? Outcome.Failed) && negb (tr_outcome r ==? Outcome.Error) then Ok ()
  else if empty_text (tr_reason r) then fail_with Errc.InvalidArgument "FAIL/ERROR result must include a reason"
  else if is_nil (tr_criteria r) || is_nil (rl_measurements (tr_log r)) || is_nil (rl_diagnostics (tr_log r)) then
    fail_with Errc.InvalidArgument "FAIL/ERROR result must include criteria, measurement and diagnostic evidence"
  else Ok ().

(** ** JSON *)

(** The text so far, and whether the next member is the first of its object. *)
Definition JsonOut : Type := string * bool.

Definition append_indent (depth : nat) (out : string) : string := out +:+ spaces (depth * 2).

Fixpoint append_chars (value : string) (out : string) : string :=
  match value with
  | "" => out
  | String c value => append_chars value (out +:+ escape_char c)
  end.

Definition append_escaped (value : string) (out : string) : string :=
  append_chars value (out +:+ chr dquote) +:+ chr dquote.

Definition append_number (x : double) (out : string) : string :=
  if negb (d_isfinite x) then out +:+ "null" else out +:+ show_double x.

Definition append_key (depth : nat) (key : string) (w : JsonOut) : JsonOut :=
  let '(out, first) := w in
  let out := if first then out else out +:+ ("," +:+ nl) in
  (append_escaped key (append_indent depth out) +:+ ": ", false).

Definition append_string_field (depth : nat) (key value : string) (w : JsonOut) : JsonOut :=
  let '(out, first) := append_key depth key w in (append_escaped value out, first).

Definition append_int_field (depth : nat) (key : string) (value : Z) (w : JsonOut) : JsonOut :=
  let '(out, first) := append_key depth key w in (out +:+ pretty value, first).

Definition append_bool_field (depth : nat) (key : string) (value : bool) (w : JsonOut) : JsonOut :=
  let '(out, first) := append_key depth key w in (out +:+ (if value then "true" else "false"), first).

Definition append_number_field (depth : nat) (key : string) (value : double) (w : JsonOut) : JsonOut :=
  let '(out, first) := append_key depth key w in (append_number value out, first).

(** The lines around the members of an object, with a [first] of their own. *)
Definition append_object (depth : nat) (body : JsonOut → JsonOut) (out : string) : string :=
  append_indent depth (fst (body (out +:+ ("{" +:+ nl), true)) +:+ nl) +:+ "}".

Definition append_object_field (depth : nat) (key : string) (body : JsonOut → JsonOut) (w : JsonOut) : JsonOut :=
  let '(out, first) := append_key depth key w in (append_object depth body out, first).

Fixpoint append_items {A} (depth : nat) (body : A → JsonOut → JsonOut) (l : list A) (out : string) : string :=
  match l with
  | [] => out
  | x :: l =>
      let out := append_object depth (body x) (append_indent depth out) in
      append_items depth body l ((out +:+ (if is_nil l then "" else ",")) +:+ nl)
  end.

Definition append_array_field {A} (depth : nat) (key : string) (body : A → JsonOut → JsonOut) (l : list A)
    (w : JsonOut) : JsonOut :=
  let '(out, first) := append_key depth key w in
  (append_indent depth (append_items (S depth) body l (out +:+ ("[" +:+ nl))) +:+ "]", first).

(** The loops' bodies. *)
Definition append_parameter (p : TestParameter) (w : JsonOut) : JsonOut :=
  let w := append_string_field 3 "name" (tp_name p) w in
  append_string_field 3 "value" (tp_value p) w.

Definition append_criterion (c : CriterionResult) (w : JsonOut) : JsonOut :=
  let w := append_string_field 3 "name" (ct_name c) w in
  let w := append_bool_field 3 "passed" (ct_passed c) w in
  let w := append_string_field 3 "expected" (ct_expected c) w in
  append_string_field 3 "actual" (ct_actual c) w.

Definition append_measurement (m : Measurement) (w : JsonOut) : JsonOut :=
  let w := append_string_field 3 "name" (me_name m) w in
  let w := append_string_field 3 "unit" (me_unit m) w in
  let w := append_number_field 3 "value" (me_value m) w in
  let w := append_int_field 3 "monotonic_ns" (me_monotonic_ns m) w in
  append_string_field 3 "quality" (quality_to_string (me_quality m)) w.

Definition append_diagnostic (d : DiagnosticEvent) (w : JsonOut) : JsonOut :=
  let w := append_int_field 3 "observed_monotonic_ns" (de_observed_monotonic_ns d) w in
  let w := append_string_field 3 "source" (diagnostic_source_to_string (de_source d)) w in
  let w := append_string_field 3 "severity" (diagnostic_severity_to_string (de_severity d)) w in
  let w := append_string_field 3 "code" (de_code d) w in
  let w := append_string_field 3 "message" (de_message d) w in
  let w := append_string_field 3 "device_id" (de_device_id d) w in
  let w := append_string_field 3 "run_id" (de_run_id d) w in
  append_string_field 3 "context" (de_context d) w.

Definition serialize_result_json (r : TestResult) : string :=
  let env := rl_environment (tr_log r) in
  let pv := tr_provenance r in
  let w := ("{" +:+ nl, true) in
  let w := append_string_field 1 "schema" kResultSchemaId w in
  let w := append_string_field 1 "run_id" (tr_run_id r) w in
  let w := append_object_field 1 "case" (λ w,
    let w := append_string_field 2 "id" (tr_case_id r) w in
    let w := append_string_field 2 "name" (tr_case_name r) w in
    append_string_field 2 "version" (tr_case_version r) w) w in
  let w := append_string_field 1 "outcome" (outcome_to_string (tr_outcome r)) w in
  let w := append_string_field 1 "reason" (tr_reason r) w in
  let w := append_string_field 1 "summary" (tr_summary r) w in
  let w := append_object_field 1 "time" (λ w,
    let w := append_int_field 2 "started_monotonic_ns" (tr_started_ns r) w in
    let w := append_int_field 2 "finished_monotonic_ns" (tr_finished_ns r) w in
    let w := append_int_field 2 "started_wall_ns" (tr_started_wall_ns r) w in
    append_int_field 2 "finished_wall_ns" (tr_finished_wall_ns r) w) w in
  let w := append_object_field 1 "provenance" (λ w,
    let w := append_string_field 2 "git_commit" (pv_git_commit pv) w in
    let w := append_bool_field 2 "git_dirty" (pv_git_dirty pv) w in
    append_string_field 2 "build_type" (pv_build_type pv) w) w in
  let w := append_object_field 1 "environment" (λ w,
    let w := append_string_field 2 "backend" (en_backend env) w in
    let w := append_string_field 2 "interface" (en_interface_name env) w in
    let w := append_string_field 2 "dut_id" (en_dut_id env) w in
    let w := append_string_field 2 "profile" (en_profile env) w in
    append_string_field 2 "evidence" (evidence_to_string (en_evidence env)) w) w in
  let w := append_array_field 1 "parameters" append_parameter (rl_parameters (tr_log r)) w in
  let w := append_object_field 1 "error" (λ w,
    let w := append_string_field 2 "code" (errc_to_string (err_code (tr_error r))) w in
    append_string_field 2 "message" (err_message (tr_error r)) w) w in
  let w := append_object_field 1 "cleanup" (λ w,
    let w := append_string_field 2 "status" (cleanup_to_string (tr_cleanup_status r)) w in
    let w := append_string_field 2 "error_code" (errc_to_string (err_code (tr_cleanup_error r))) w in
    append_string_field 2 "error_message" (err_message (tr_cleanup_error r)) w) w in
  let w := append_array_field 1 "criteria" append_criterion (tr_criteria r) w in
  let w := append_array_field 1 "measurements" append_measurement (rl_measurements (tr_log r)) w in
  let w := append_array_field 1 "diagnostics" append_diagnostic (rl_diagnostics (tr_log r)) w in
  fst w +:+ (nl +:+ "}" +:+ nl).

(** ** CSV *)

(** [find_first_of] of a comma, a quote, a line feed or a carriage return. *)
Definition csv_special (c : ascii) : bool :=
  bool_decide (c = ","%char) || bool_decide (c = dquote) || (code c =? 10) || (code c =? 13).

Fixpoint double_quotes (value : string) (out : string) : string :=
  match value with
  | "" => out
  | String c value =>
      double_quotes value (if bool_decide (c = dquote) then out +:+ String dquote (chr dquote) else out +:+ chr c)
  end.

Definition append_csv_field (value : string) (last : bool) (out : string) : string :=
  let quote := negb (all_chars (λ c, negb (csv_special c)) value) in
  let out := if quote then double_quotes value (out +:+ chr dquote) +:+ chr dquote else out +:+ value in
  if last then out else out +:+ ",".

Definition csv_header : string :=
  "schema,run_id,case_id,case_name,case_version,outcome,reason," +:+
  "evidence,backend,interface,dut_id,cleanup_status,error_code," +:+
  "started_monotonic_ns,finished_monotonic_ns,started_wall_ns," +:+
  "finished_wall_ns,git_commit,git_dirty,measurement_count," +:+
  "failed_criteria_count,diagnostic_count,summary" +:+ nl.

Definition serialize_result_csv (r : TestResult) : string :=
  let env := rl_environment (tr_log r) in
  let field value out := append_csv_field value false out in
  let out := csv_header in
  let out := field kResultSchemaId out in
  let out := field (tr_run_id r) out in
  let out := field (tr_case_id r) out in
  let out := field (tr_case_name r) out in
  let out := field (tr_case_version r) out in
  let out := field (outcome_to_string (tr_outcome r)) out in
  let out := field (tr_reason r) out in
  let out := field (evidence_to_string (en_evidence env)) out in
  let out := field (en_backend env) out in
  let out := field (en_interface_name env) out in
  let out := field (en_dut_id env) out in
  let out := field (cleanup_to_string (tr_cleanup_status r)) out in
  let out := field (errc_to_string (err_code (tr_error r))) out in
  let out := field (pretty (tr_started_ns r)) out in
  let out := field (pretty (tr_finished_ns r)) out in
  let out := field (pretty (tr_started_wall_ns r)) out in
  let out := field (pretty (tr_finished_wall_ns r)) out in
  let out := field (pv_git_commit (tr_provenance r)) out in
  let out := field (if pv_git_dirty (tr_provenance r) then "true" else "false")%string out in
  let out := field (pretty (Z.of_nat (length (rl_measurements (tr_log r))))) out in
  let out := field (pretty (failed_criteria_count r)) out in
  let out := field (pretty (Z.of_nat (length (rl_diagnostics (tr_log r))))) out in
  append_csv_field (tr_summary r) true out +:+ nl.

(** ** Files *)

Notation Files := (gmap string string).

(** The files now, and every state they were in before, the latest first. *)
Record Disk := mkDisk { dk_files : Files; dk_past : list Files }.

Definition disk_states (d : Disk) : list Files := dk_files d :: dk_past d.
Definition disk_update (f : Files → Files) (d : Disk) : Disk := mkDisk (f (dk_files d)) (disk_states d).

(** [std::filesystem::remove] with its error ignored; [works] is whether it succeeds. *)
Definition disk_remove (works : bool) (path : string) (d : Disk) : Disk :=
  if works then disk_update (delete path) d else d.

Inductive WriteAnswer := Wrote (n : nat) | WriteFailed (errno : Z).

(** What the system answers while one file is written.  [fa_writes] are the answers to all
    the writes before the one that takes the rest. *)
Record FileAnswers := mkFileAnswers {
  fa_remove_stale : bool;
  fa_open : option Z;
  fa_writes : list WriteAnswer;
  fa_fsync : option Z;
  fa_rename : option Z;
  fa_remove : bool
}.

Definition EEXIST : Z := 17.

(** The write loop; [written] is what the file holds, [rest] what is left. *)
Fixpoint write_loop (answers : list WriteAnswer) (path written rest : string) (d : Disk) : option Z * Disk :=
  if empty_text rest then (None, d)
  else
    match answers with
    | [] => (None, disk_update (<[path := written +:+ rest]>) d)
    | Wrote n :: answers =>
        let n := Nat.min n (String.length rest) in
        let written := written +:+ String.substring 0 n rest in
        write_loop answers path written (String.substring n (String.length rest - n) rest)
          (disk_update (<[path := written]>) d)
    | WriteFailed e :: answers =>
        if e =? EINTR then write_loop answers path written rest d else (Some e, d)
    end.

Definition write_file_atomically (final_path contents : string) (k : FileAnswers) (d : Disk) : Result () * Disk :=
  if bool_decide (is_Some (dk_files d !! final_path)) then
    (fail_with Errc.Busy ("refuse to overwrite existing result file: " +:+ final_path), d)
  else
    let tmp_path := final_path +:+ ".tmp" in
    let d := disk_remove (fa_remove_stale k) tmp_path d in
    match (if bool_decide (is_Some (dk_files d !! tmp_path)) then Some EEXIST else fa_open k) with
    | Some _ => (fail_with Errc.IoError "open result tmp: ", d)
    | None =>
        let d := disk_update (<[tmp_path := ""]>) d in
        match write_loop (fa_writes k) tmp_path "" contents d with
        | (Some _, d) => (fail_with Errc.IoError "write result tmp: ", disk_remove (fa_remove k) tmp_path d)
        | (None, d) =>
            match fa_fsync k, fa_rename k with
            | Some _, _ => (fail_with Errc.IoError "fsync result tmp: ", disk_remove (fa_remove k) tmp_path d)
            | None, Some _ => (fail_with Errc.IoError "rename result file: ", disk_remove (fa_remove k) tmp_path d)
            | None, None =>
                (Ok (), disk_update (λ f, <[final_path := default "" (f !! tmp_path)]> (delete tmp_path f)) d)
            end
        end
    end.

(** [directory / name] for a relative name. *)
Definition ends_with_slash (s : string) : bool :=
  match String.get (String.length s - 1) s with Some c => bool_decide (c = "/"%char) | None => false end.
Definition path_join (directory name : string) : string :=
  if ends_with_slash directory then directory +:+ name else directory +:+ "/" +:+ name.

Record ResultArtifacts := mkArtifacts { ra_json_path : string; ra_csv_path : string }.

Record WriterAnswers := mkWriterAnswers {
  wa_create_error : option string;
  wa_json : FileAnswers;
  wa_csv : FileAnswers;
  wa_remove_json : bool
}.

Definition json_path (directory : string) (r : TestResult) : string := path_join directory (tr_run_id r +:+ ".json").
Definition csv_path (directory : string) (r : TestResult) : string := path_join directory (tr_run_id r +:+ ".csv").

Definition result_write (r : TestResult) (directory : string) (k : WriterAnswers) (d : Disk)
    : Result ResultArtifacts * Disk :=
  match validate_persistable r with
  | Err e => (Err e, d)
  | Ok _ =>
      if empty_text directory then (fail_with Errc.InvalidArgument "result directory must be non-empty", d)
      else
        match wa_create_error k with
        | Some m => (fail_with Errc.IoError ("create result directory: " +:+ m), d)
        | None =>
            match write_file_atomically (json_path directory r) (serialize_result_json r) (wa_json k) d with
            | (Err e, d) => (Err e, d)
            | (Ok _, d) =>
                match write_file_atomically (csv_path directory r) (serialize_result_csv r) (wa_csv k) d with
                | (Err e, d) => (Err e, disk_remove (wa_remove_json k) (json_path directory r) d)
                | (Ok _, d) => (Ok (mkArtifacts (json_path directory r) (csv_path directory r)), d)
                end
            end
        end
  end.

(** ** The JSON document *)

(** The document a result stands for. *)
Definition number_json (x : double) : json := if d_isfinite x then JNum (show_double x) else JNull.
Definition int_json (n : Z) : json := JNum (pretty n).

Definition parameter_json (p : TestParameter) : list (string * json) :=
  [("name", JStr (tp_name p)); ("value", JStr (tp_value p))].
Definition criterion_json (c : CriterionResult) : list (string * json) :=
  [("name", JStr (ct_name c)); ("passed", JBool (ct_passed c)); ("expected", JStr (ct_expected c));
   ("actual", JStr (ct_actual c))].
Definition measurement_json (m : Measurement) : list (string * json) :=
  [("name", JStr (me_name m)); ("unit", JStr (me_unit m)); ("value", number_json (me_value m));
   ("monotonic_ns", int_json (me_monotonic_ns m)); ("quality", JStr (quality_to_string (me_quality m)))].
Definition diagnostic_json (d : DiagnosticEvent) : list (string * json) :=
  [("observed_monotonic_ns", int_json (de_observed_monotonic_ns d));
   ("source", JStr (diagnostic_source_to_string (de_source d)));
   ("severity", JStr (diagnostic_severity_to_string (de_severity d))); ("code", JStr (de_code d));
   ("message", JStr (de_message d)); ("device_id", JStr (de_device_id d)); ("run_id", JStr (de_run_id d));
   ("context", JStr (de_context d))].

Definition result_json (r : TestResult) : json :=
  let env := rl_environment (tr_log r) in
  let pv := tr_provenance r in
  JObj
    [("schema", JStr kResultSchemaId); ("run_id", JStr (tr_run_id r));
     ("case", JObj [("id", JStr (tr_case_id r)); ("name", JStr (tr_case_name r)); ("version", JStr (tr_case_version r))]);
     ("outcome", JStr (outcome_to_string (tr_outcome r))); ("reason", JStr (tr_reason r));
     ("summary", JStr (tr_summary r));
     ("time", JObj [("started_monotonic_ns", int_json (tr_started_ns r));
                    ("finished_monotonic_ns", int_json (tr_finished_ns r));
                    ("started_wall_ns", int_json (tr_started_wall_ns r));
                    ("finished_wall_ns", int_json (tr_finished_wall_ns r))]);
     ("provenance", JObj [("git_commit", JStr (pv_git_commit pv)); ("git_dirty", JBool (pv_git_dirty pv));
                          ("build_type", JStr (pv_build_type pv))]);
     ("environment", JObj [("backend", JStr (en_backend env)); ("interface", JStr (en_interface_name env));
                           ("dut_id", JStr (en_dut_id env)); ("profile", JStr (en_profile env));
                           ("evidence", JStr (evidence_to_string (en_evidence env)))]);
     ("parameters", JArr (map (λ p, JObj (parameter_json p)) (rl_parameters (tr_log r))));
     ("error", JObj [("code", JStr (errc_to_string (err_code (tr_error r)))); ("message", JStr (err_message (tr_error r)))]);
     ("cleanup", JObj [("status", JStr (cleanup_to_string (tr_cleanup_status r)));
                       ("error_code", JStr (errc_to_string (err_code (tr_cleanup_error r))));
                       ("error_message", JStr (err_message (tr_cleanup_error r)))]);
     ("criteria", JArr (map (λ c, JObj (criterion_json c)) (tr_criteria r)));
     ("measurements", JArr (map (λ m, JObj (measurement_json m)) (rl_measurements (tr_log r))));
     ("diagnostics", JArr (map (λ d, JObj (diagnostic_json d)) (rl_diagnostics (tr_log r))))].

(** [f] appends the members [l] at [depth]. *)
Definition writes (depth : nat) (f : JsonOut → JsonOut) (l : list (string * json)) : Prop :=
  ∀ out first, f (out, first) = (out +:+ show_fields depth first l, first && is_nil l).

Lemma append_chars_eq value : ∀ out, append_chars value out = out +:+ escape value.
Proof.
  induction value as [|c value IH]; intros out; cbn [append_chars escape]; [by rewrite str_app_nil_r|].
  by rewrite IH, <- str_app_assoc.
Qed.

Lemma append_escaped_eq value out : append_escaped value out = out +:+ quoted value.
Proof. unfold append_escaped, quoted. by rewrite append_chars_eq, <- !str_app_assoc. Qed.

Lemma append_key_eq depth key out first :
  append_key depth key (out, first) = (out +:+ show_key depth first key, false).
Proof.
  unfold append_key, append_indent, show_key, indent. rewrite append_escaped_eq.
  destruct first; by rewrite ?str_app_nil_l, <- !str_app_assoc.
Qed.

(** Every field appends its key and its value. *)
Definition member (depth : nat) (first : bool) (key : string) (v : json) : string :=
  show_key depth first key +:+ show depth v.

Ltac field_eq := intros; rewrite append_key_eq; unfold member; by rewrite ?append_escaped_eq, <- ?str_app_assoc.

Lemma string_field_eq depth key value out first :
  append_string_field depth key value (out, first) = (out +:+ member depth first key (JStr value), false).
Proof. unfold append_string_field. field_eq. Qed.
Lemma int_field_eq depth key value out first :
  append_int_field depth key value (out, first) = (out +:+ member depth first key (int_json value), false).
Proof. unfold append_int_field. field_eq. Qed.
Lemma bool_field_eq depth key value out first :
  append_bool_field depth key value (out, first) = (out +:+ member depth first key (JBool value), false).
Proof. unfold append_bool_field. field_eq. Qed.
Lemma number_field_eq depth key value out first :
  append_number_field depth key value (out, first) = (out +:+ member depth first key (number_json value), false).
Proof. unfold append_number_field, append_number, number_json. destruct (d_isfinite value); field_eq. Qed.

Lemma object_eq depth body l out :
  writes (S depth) body l → append_object depth body out = out +:+ show depth (JObj l).
Proof.
  intros Hb. unfold append_object, append_indent. rewrite Hb, show_obj. cbn [fst]. by rewrite <- !str_app_assoc.
Qed.

Lemma object_field_eq depth key body l out first :
  writes (S depth) body l →
  append_object_field depth key body (out, first) = (out +:+ member depth first key (JObj l), false).
Proof.
  intros Hb. unfold append_object_field, member. rewrite append_key_eq, (object_eq _ _ _ _ Hb). by rewrite <- str_app_assoc.
Qed.

Lemma items_eq {A} depth (body : A → JsonOut → JsonOut) (f : A → list (string * json)) l :
  (∀ x, writes (S depth) (body x) (f x)) → ∀ out,
  append_items depth body l out = out +:+ show_items depth (map (λ x, JObj (f x)) l).
Proof.
  intros Hb. induction l as [|x l IH]; intros out; cbn [append_items map show_items]; [by rewrite str_app_nil_r|].
  rewrite IH, (object_eq _ _ _ _ (Hb x)). unfold append_indent, indent. destruct l; by rewrite <- !str_app_assoc.
Qed.

Lemma array_field_eq {A} depth key (body : A → JsonOut → JsonOut) (f : A → list (string * json)) l out first :
  (∀ x, writes (S (S depth)) (body x) (f x)) →
  append_array_field depth key body l (out, first) =
    (out +:+ member depth first key (JArr (map (λ x, JObj (f x)) l)), false).
Proof.
  intros Hb. unfold append_array_field, member, append_indent.
  rewrite append_key_eq, (items_eq _ _ _ _ Hb), show_arr. unfold indent. by rewrite <- !str_app_assoc.
Qed.

(** Rewrites a chain of fields into the text of their members. *)
Ltac fields_eq :=
  repeat (rewrite string_field_eq || rewrite int_field_eq || rewrite bool_field_eq || rewrite number_field_eq);
  unfold member; cbn [show_fields is_nil]; rewrite ?andb_false_r, ?str_app_nil_r, <- ?str_app_assoc; try reflexivity.

Lemma parameter_writes p : writes 3 (append_parameter p) (parameter_json p).
Proof. intros out first. unfold append_parameter, parameter_json. fields_eq. Qed.
Lemma criterion_writes c : writes 3 (append_criterion c) (criterion_json c).
Proof. intros out first. unfold append_criterion, criterion_json. fields_eq. Qed.
Lemma measurement_writes m : writes 3 (append_measurement m) (measurement_json m).
Proof. intros out first. unfold append_measurement, measurement_json. fields_eq. Qed.
Lemma diagnostic_writes d : writes 3 (append_diagnostic d) (diagnostic_json d).
Proof. intros out first. unfold append_diagnostic, diagnostic_json. fields_eq. Qed.

Ltac object_step :=
  match goal with
  | |- context [append_object_field ?d ?k ?body (?o, ?f)] =>
      match goal with
      | |- context [(k, JObj ?l)] => rewrite (object_field_eq d k body l o f) by (intros ? ?; fields_eq)
      end
  end.

(** The sources build the document that [result_json] describes. *)
Lemma serialize_json_eq r : serialize_result_json r = show 0 (result_json r) +:+ nl.
Proof.
  unfold serialize_result_json, result_json. rewrite show_obj.
  repeat (rewrite string_field_eq || object_step || rewrite (array_field_eq _ _ _ _ _ _ _ parameter_writes)
    || rewrite (array_field_eq _ _ _ _ _ _ _ criterion_writes) || rewrite (array_field_eq _ _ _ _ _ _ _ measurement_writes)
    || rewrite (array_field_eq _ _ _ _ _ _ _ diagnostic_writes)).
  unfold member. cbn [show_fields fst]. by rewrite <- !str_app_assoc.
Qed.

(** Numbers are made of the characters of numbers. *)
Lemma num_text_app_r a b : all_chars is_num a = true → num_text b = true → num_text (a +:+ b) = true.
Proof.
  unfold num_text. intros Ha [Hne Hb]%andb_prop. rewrite all_chars_app, Ha, Hb, str_length_app. cbn [andb].
  rewrite andb_true_r. apply negb_true_iff, Nat.eqb_neq. apply negb_true_iff, Nat.eqb_neq in Hne. lia.
Qed.

Lemma num_text_app_l a b : num_text a = true → all_chars is_num b = true → num_text (a +:+ b) = true.
Proof.
  unfold num_text. intros [Hne Ha]%andb_prop Hb. rewrite all_chars_app, Ha, Hb, str_length_app. cbn [andb].
  rewrite andb_true_r. apply negb_true_iff, Nat.eqb_neq. apply negb_true_iff, Nat.eqb_neq in Hne. lia.
Qed.

Lemma num_text_all a : num_text a = true → all_chars is_num a = true.
Proof. unfold num_text. by intros [_ ?]%andb_prop. Qed.

Lemma pretty_N_char_num x : is_num (pretty_N_char x) = true.
Proof. unfold pretty_N_char. by repeat case_match. Qed.

Lemma pretty_N_go_num x : ∀ s, all_chars is_num s = true → (0 < x)%N ∨ s ≠ "" → num_text (pretty_N_go x s) = true.
Proof.
  induction (N.lt_wf_0 x) as [x _ IH]. intros s Hs Hne. destruct (decide (0 < x)%N) as [Hx|Hx].
  - rewrite pretty_N_go_step by done. apply IH.
    + by apply N.div_lt.
    + cbn. by rewrite pretty_N_char_num, Hs.
    + by right.
  - replace x with 0%N by lia. rewrite pretty_N_go_0. destruct Hne as [?|Hne]; [lia|]. unfold num_text.
    destruct s; [done|]. by rewrite Hs.
Qed.

Lemma pretty_N_num (x : N) : num_text (pretty x) = true.
Proof. unfold pretty, pretty_N. case_decide; [done|]. apply pretty_N_go_num; [done|left; lia]. Qed.

Lemma pretty_Z_num (x : Z) : num_text (pretty x) = true.
Proof. destruct x as [|p|p]; [done|exact (pretty_N_num (Npos p))|]. apply num_text_app_r; [done|exact (pretty_N_num (Npos p))]. Qed.

Lemma padded_digits_num k : ∀ q, all_chars is_num (padded_digits k q) = true.
Proof.
  induction k as [|k IH]; intros q; [done|]. cbn [padded_digits]. rewrite all_chars_app, IH.
  apply (num_text_all _ (pretty_Z_num (q mod 10))).
Qed.

Lemma show_fixed_num q k : num_text (show_fixed q k) = true.
Proof.
  unfold show_fixed, with_fraction. destruct (k =? 0); [apply pretty_Z_num|]. apply num_text_app_l; [apply pretty_Z_num|].
  rewrite all_chars_app, padded_digits_num. done.
Qed.

Lemma show_exponent_num x : all_chars is_num (show_exponent x) = true.
Proof.
  unfold show_exponent. rewrite !all_chars_app, (num_text_all _ (pretty_Z_num _)).
  by destruct (x <? 0), (Z.abs x <? 10).
Qed.

Lemma show_double_num x : num_text (show_double x) = true.
Proof.
  unfold show_double. destruct (d_quotient x) as [n d].
  apply num_text_app_r; [by case_match; destruct_or?; repeat case_match|]. destruct (n =? 0); [done|]. unfold show_positive.
  destruct (digits15 (Z.abs n) d) as [q e]. destruct (_ || _).
  - destruct (strip_zeros 15 q 14) as [q' k]. apply num_text_app_l; [apply show_fixed_num|apply show_exponent_num].
  - destruct (strip_zeros 20 q (14 - e)) as [q' k]. apply show_fixed_num.
Qed.

Lemma number_json_ok x : json_ok (number_json x) = true.
Proof. unfold number_json. destruct (d_isfinite x); [apply show_double_num|done]. Qed.
Lemma int_json_ok n : json_ok (int_json n) = true.
Proof. apply pretty_Z_num. Qed.

Lemma result_json_ok r : json_ok (result_json r) = true.
Proof.
  assert (Hall : ∀ A (f : A → json) l, (∀ x, json_ok (f x) = true) → forallb json_ok (map f l) = true).
  { intros A f l Hf. induction l as [|x l IH]; [done|]. cbn. by rewrite Hf, IH. }
  unfold result_json. cbn [json_ok forallb snd].
  rewrite !int_json_ok, !Hall; [done| | | |]; intros x; cbn; rewrite ?pretty_Z_num, ?number_json_ok; done.
Qed.

(** C25.  The JSON file says what the result holds: read back by an independent JSON reader, the
    text the writer produces for any result, whatever characters its strings contain, is
    exactly the document of that result, its members in order, every string byte for byte,
    every number as its text and a measurement that is not finite as null. *)
Theorem json_round_trip r : parse_json (serialize_result_json r) = Some (result_json r).
Proof. rewrite serialize_json_eq. apply parse_show, result_json_ok. Qed.

(** ** The CSV row *)

(** An independent reader of comma-separated values with quoted fields. *)
Inductive CsvState := FieldStart | InPlain | InQuoted | QuoteSeen.

Fixpoint read_csv (st : CsvState) (field : string) (row : list string) (s : string) : option (list (list string)) :=
  match s with
  | "" =>
      match st with
      | InQuoted => None
      | FieldStart => if is_nil row then Some [] else Some [row ++ [field]]
      | _ => Some [row ++ [field]]
      end
  | String c s =>
      match st with
      | InQuoted =>
          if bool_decide (c = dquote) then read_csv QuoteSeen field row s
          else read_csv InQuoted (field +:+ chr c) row s
      | _ =>
          if bool_decide (c = ","%char) then read_csv FieldStart "" (row ++ [field]) s
          else if code c =? 10 then cons (row ++ [field]) <$> read_csv FieldStart "" [] s
          else if bool_decide (c = dquote) then
            match st with
            | FieldStart => read_csv InQuoted "" row s
            | QuoteSeen => read_csv InQuoted (field +:+ chr dquote) row s
            | _ => None
            end
          else match st with
               | QuoteSeen => None
               | _ => read_csv InPlain (field +:+ chr c) row s
               end
      end
  end.

Definition parse_csv (s : string) : option (list (list string)) := read_csv FieldStart "" [] s.

(** The fields of the row. *)
Definition csv_fields (r : TestResult) : list string :=
  let env := rl_environment (tr_log r) in
  [kResultSchemaId; tr_run_id r; tr_case_id r; tr_case_name r; tr_case_version r; outcome_to_string (tr_outcome r);
   tr_reason r; evidence_to_string (en_evidence env); en_backend env; en_interface_name env; en_dut_id env;
   cleanup_to_string (tr_cleanup_status r); errc_to_string (err_code (tr_error r)); pretty (tr_started_ns r);
   pretty (tr_finished_ns r); pretty (tr_started_wall_ns r); pretty (tr_finished_wall_ns r);
   pv_git_commit (tr_provenance r); (if pv_git_dirty (tr_provenance r) then "true" else "false")%string;
   pretty (Z.of_nat (length (rl_measurements (tr_log r)))); pretty (failed_criteria_count r);
   pretty (Z.of_nat (length (rl_diagnostics (tr_log r)))); tr_summary r].

Definition csv_columns : list string :=
  ["schema"; "run_id"; "case_id"; "case_name"; "case_version"; "outcome"; "reason"; "evidence"; "backend"; "interface";
   "dut_id"; "cleanup_status"; "error_code"; "started_monotonic_ns"; "finished_monotonic_ns"; "started_wall_ns";
   "finished_wall_ns"; "git_commit"; "git_dirty"; "measurement_count"; "failed_criteria_count"; "diagnostic_count"; "summary"].

Fixpoint doubled (s : string) : string :=
  match s with
  | "" => ""
  | String c s => (if bool_decide (c = dquote) then String dquote (chr dquote) else chr c) +:+ doubled s
  end.

Definition plain_char (c : ascii) : bool := negb (csv_special c).

(** The text of one field. *)
Definition csv_text (value : string) : string :=
  if negb (all_chars plain_char value) then chr dquote +:+ doubled value +:+ chr dquote else value.

Lemma double_quotes_eq value : ∀ out, double_quotes value out = out +:+ doubled value.
Proof.
  induction value as [|c value IH]; intros out; cbn [double_quotes doubled]; [by rewrite str_app_nil_r|].
  rewrite IH. case_bool_decide; by rewrite <- str_app_assoc.
Qed.

Lemma csv_field_eq value last out :
  append_csv_field value last out = out +:+ (csv_text value +:+ (if last then "" else ",")).
Proof.
  unfold append_csv_field, csv_text. change (λ c, negb (csv_special c)) with plain_char.
  destruct (negb _); destruct last; rewrite ?double_quotes_eq, ?str_app_nil_r, <- ?str_app_assoc; done.
Qed.

Lemma read_plain value : ∀ field row rest, all_chars plain_char value = true →
  read_csv InPlain field row (value +:+ rest) = read_csv InPlain (field +:+ value) row rest.
Proof.
  induction value as [|c value IH]; intros field row rest Hv; [by rewrite str_app_nil_r, str_app_nil_l|].
  cbn in Hv. apply andb_prop in Hv as [Hc Hv]. rewrite str_app_cons. cbn [read_csv].
  unfold plain_char, csv_special in Hc. bools. rewrite !bool_decide_eq_false_2 by done.
  rewrite (proj2 (Z.eqb_neq _ _)) by done. rewrite (IH _ _ _ Hv), <- str_app_assoc. done.
Qed.

Lemma read_quoted value : ∀ field row rest,
  read_csv InQuoted field row (doubled value +:+ rest) = read_csv InQuoted (field +:+ value) row rest.
Proof.
  induction value as [|c value IH]; intros field row rest; [by rewrite str_app_nil_r|].
  cbn [doubled]. rewrite <- str_app_assoc. case_bool_decide as Hc.
  - subst c. rewrite str_app_cons. cbn [read_csv]. rewrite bool_decide_eq_true_2 by done. unfold chr at 1.
    rewrite str_app_cons, str_app_nil_l. cbn [read_csv]. rewrite bool_decide_eq_false_2 by done.
    change (code dquote =? 10) with false. cbn. rewrite bool_decide_eq_true_2 by done. rewrite IH, <- str_app_assoc. done.
  - unfold chr at 1. rewrite str_app_cons, str_app_nil_l. cbn [read_csv]. rewrite bool_decide_eq_false_2 by done.
    rewrite IH, <- str_app_assoc. done.
Qed.

(** A field is read back whole, up to the comma or the line end that follows it. *)
Lemma read_field value row c rest : c = ","%char ∨ code c = 10 →
  read_csv FieldStart "" row (csv_text value +:+ chr c +:+ rest) =
    if bool_decide (c = ","%char) then read_csv FieldStart "" (row ++ [value]) rest
    else cons (row ++ [value]) <$> read_csv FieldStart "" [] rest.
Proof.
  intros Hc. assert (Hend : ∀ st field, st ≠ InQuoted → read_csv st field row (chr c +:+ rest) =
    if bool_decide (c = ","%char) then read_csv FieldStart "" (row ++ [field]) rest
    else cons (row ++ [field]) <$> read_csv FieldStart "" [] rest).
  { intros st field Hst. unfold chr. rewrite str_app_cons, str_app_nil_l. cbn [read_csv]. destruct st; try done;
      (case_bool_decide; [done|]; destruct Hc as [?|Hc]; [done|]; by rewrite Hc). }
  unfold csv_text. destruct (negb _) eqn:Hp; bools.
  - rewrite <- !str_app_assoc. unfold chr at 1. rewrite str_app_cons, str_app_nil_l. cbn [read_csv].
    rewrite bool_decide_eq_false_2 by done. change (code dquote =? 10) with false. cbn.
    rewrite bool_decide_eq_true_2 by done. rewrite read_quoted, str_app_nil_l. unfold chr at 1.
    rewrite str_app_cons, str_app_nil_l. cbn [read_csv]. rewrite bool_decide_eq_true_2 by done. by apply Hend.
  - destruct value as [|x value]; [by rewrite str_app_nil_l, Hend|].
    cbn in Hp. apply andb_prop in Hp as [Hx Hp]. rewrite str_app_cons. cbn [read_csv].
    unfold plain_char, csv_special in Hx. bools. rewrite !bool_decide_eq_false_2 by done.
    rewrite (proj2 (Z.eqb_neq _ _)) by done. rewrite read_plain by done. by rewrite Hend.
Qed.

(** A whole row. *)
Fixpoint csv_row (l : list string) : string :=
  match l with
  | [] => ""
  | [v] => csv_text v +:+ nl
  | v :: l => csv_text v +:+ "," +:+ csv_row l
  end.

Lemma read_row l : ∀ row, l ≠ [] → read_csv FieldStart "" row (csv_row l) = Some [row ++ l].
Proof.
  induction l as [|v l IH]; intros row Hl; [done|]. destruct l as [|v' l].
  - cbn [csv_row]. rewrite <- (str_app_nil_r nl). unfold nl. by rewrite read_field by auto.
  - change (csv_row (v :: v' :: l)) with (csv_text v +:+ chr "," +:+ csv_row (v' :: l)).
    rewrite read_field by auto. rewrite bool_decide_eq_true_2 by done. rewrite IH by done. by rewrite <- app_assoc.
Qed.

Lemma serialize_csv_eq r : serialize_result_csv r = csv_header +:+ csv_row (csv_fields r).
Proof.
  unfold serialize_result_csv, csv_fields. rewrite !csv_field_eq. cbn [csv_row]. by rewrite ?str_app_nil_r, <- !str_app_assoc.
Qed.

(** The CSV file is an index one can trust: an independent reader of quoted CSV gets back,
    for any result, the header and one row whose fields are the result's own, also when
    they contain commas, quotes or line breaks. *)
Theorem csv_round_trip r : parse_csv (serialize_result_csv r) = Some [csv_columns; csv_fields r].
Proof.
  rewrite serialize_csv_eq. unfold parse_csv, csv_header.
  transitivity (cons csv_columns <$> read_csv FieldStart "" [] (csv_row (csv_fields r))); [reflexivity|].
  by rewrite read_row.
Qed.

(** ** Files appear whole *)

Lemma str_cancel_l (a b c : string) : a +:+ b = a +:+ c → b = c.
Proof. induction a as [|x a IH]; [done|]. rewrite !str_app_cons. by intros [= ?%IH]. Qed.

Lemma tmp_ne (p : string) : p +:+ ".tmp" ≠ p.
Proof. intros H. rewrite <- (str_app_nil_r p) in H at 2. by apply str_cancel_l in H. Qed.

Lemma str_split n s : (n ≤ String.length s)%nat →
  String.substring 0 n s +:+ String.substring n (String.length s - n) s = s.
Proof.
  revert n. induction s as [|c s IH]; intros [|n] Hn; cbn in *; try done; try lia.
  - rewrite str_app_nil_l. f_equal. specialize (IH 0%nat ltac:(lia)). rewrite Nat.sub_0_r in IH.
    assert (H0 : String.substring 0 0 s = "") by (by destruct s). by rewrite H0, str_app_nil_l in IH.
  - rewrite str_app_cons. f_equal. apply IH. lia.
Qed.

(** A view of the files that does not depend on one path, and what holds in every state. *)
Definition blind (path : string) (P : Files → Prop) : Prop :=
  ∀ f g, (∀ p, p ≠ path → f !! p = g !! p) → P f → P g.
Definition always (P : Files → Prop) (d : Disk) : Prop := Forall P (disk_states d).

Lemma always_update P f d : always P d → (P (dk_files d) → P (f (dk_files d))) → always P (disk_update f d).
Proof. intros Hd Hf. unfold always in *. apply Forall_cons in Hd as [Hn Hp]. repeat constructor; auto. Qed.

Lemma always_insert P path v d : blind path P → always P d → always P (disk_update (<[path := v]>) d).
Proof. intros Hb Hd. apply always_update; [done|]. apply Hb. intros p Hp. by rewrite lookup_insert_ne. Qed.

Lemma always_remove P works path d : blind path P → always P d → always P (disk_remove works path d).
Proof.
  intros Hb Hd. destruct works; [|done]. apply always_update; [done|]. apply Hb. intros p Hp. by rewrite lookup_delete_ne.
Qed.

Lemma write_loop_always P path answers : ∀ written rest d,
  blind path P → always P d → always P (snd (write_loop answers path written rest d)).
Proof.
  induction answers as [|[n|e] answers IH]; intros written rest d Hb Hd; cbn;
    destruct (empty_text rest); try exact Hd.
  - by apply always_insert.
  - apply IH; [done|]. by apply always_insert.
  - destruct (e =? EINTR); [by apply IH|exact Hd].
Qed.

(** The loop changes one file, and leaves all of the text in it when it succeeds. *)
Lemma write_loop_spec path answers : ∀ written rest d x d',
  write_loop answers path written rest d = (x, d') → dk_files d !! path = Some written →
  (∀ p, p ≠ path → dk_files d' !! p = dk_files d !! p) ∧
  (x = None → dk_files d' !! path = Some (written +:+ rest)).
Proof.
  induction answers as [|[n|e] answers IH]; intros written rest d x d' Hw Hp; cbn in Hw; destruct (empty_text rest) eqn:He;
    try (injection Hw as <- <-; apply empty_text_true in He; subst rest; by rewrite str_app_nil_r).
  - injection Hw as <- <-. cbn. split; [intros p Hne; by rewrite lookup_insert_ne|]. intros _. by rewrite lookup_insert_eq.
  - apply IH in Hw as [H1 H2]; [|cbn; by rewrite lookup_insert_eq]. split.
    + intros p Hne. rewrite H1 by done. cbn. by rewrite lookup_insert_ne.
    + intros Hx. rewrite (H2 Hx), <- str_app_assoc, str_split; [done|lia].
  - destruct (e =? EINTR); [by apply IH|]. by injection Hw as <- <-.
Qed.

Definition tmp_of (path : string) : string := path +:+ ".tmp".

(** What one atomic write does to the files: nothing but the final path and its temporary
    file changes, and the final path only from absent to complete, when the write succeeds. *)
Definition atomic_effect (final contents : string) (ok : bool) (f g : Files) : Prop :=
  (∀ p, p ≠ tmp_of final → p ≠ final → g !! p = f !! p) ∧
  (if ok then f !! final = None ∧ g !! final = Some contents else g !! final = f !! final).

Lemma remove_other works path d p : p ≠ path → dk_files (disk_remove works path d) !! p = dk_files d !! p.
Proof. intros Hp. destruct works; [|done]. cbn. by rewrite lookup_delete_ne. Qed.

Lemma write_file_effect final contents k d x d' :
  write_file_atomically final contents k d = (x, d') →
  atomic_effect final contents (res_ok x) (dk_files d) (dk_files d').
Proof.
  unfold write_file_atomically. fold (tmp_of final). case_bool_decide as Hex; [intros [= <- <-]; by split|].
  assert (Hnone : dk_files d !! final = None) by (destruct (dk_files d !! final); [by destruct Hex|done]).
  assert (Hne : final ≠ tmp_of final) by (intros H; symmetry in H; by apply tmp_ne in H).
  pose proof (remove_other (fa_remove_stale k) (tmp_of final) d) as Hr.
  set (d1 := disk_remove (fa_remove_stale k) (tmp_of final) d) in *. clearbody d1.
  assert (Hfail : ∀ d2 w, (∀ p, p ≠ tmp_of final → dk_files d2 !! p = dk_files d1 !! p) →
    atomic_effect final contents false (dk_files d) (dk_files (disk_remove w (tmp_of final) d2))).
  { intros d2 w H2. split; [intros p Hp _|]; by rewrite remove_other, H2, Hr. }
  destruct (if bool_decide _ then _ else _); [intros [= <- <-]; exact (Hfail d1 false (λ _ _, eq_refl))|].
  destruct (write_loop _ _ _ _ _) as [y d2] eqn:Hw.
  apply write_loop_spec in Hw as [H1 H2]; [|cbn; by rewrite lookup_insert_eq].
  assert (H1' : ∀ p, p ≠ tmp_of final → dk_files d2 !! p = dk_files d1 !! p).
  { intros p Hp. rewrite H1 by done. cbn. by rewrite lookup_insert_ne. }
  destruct y as [e|]; [intros [= <- <-]; by apply Hfail|].
  destruct (fa_fsync k); [intros [= <- <-]; by apply Hfail|].
  destruct (fa_rename k); [intros [= <- <-]; by apply Hfail|].
  intros [= <- <-]. split; cbn.
  - intros p Hp Hf. by rewrite lookup_insert_ne, lookup_delete_ne, H1', Hr.
  - split; [done|]. rewrite lookup_insert_eq. by rewrite (H2 eq_refl), str_app_nil_l.
Qed.

(** What holds in every state: a property blind to the temporary file that also survives the
    appearance of the complete file. *)
Lemma write_file_always P final contents k d :
  blind (tmp_of final) P →
  (∀ f, P f → f !! final = None → P (<[final := contents]> f)) →
  always P d → always P (snd (write_file_atomically final contents k d)).
Proof.
  intros Hb Hf Hd. pose proof (write_file_effect final contents k d) as Heff.
  unfold write_file_atomically in *. fold (tmp_of final) in *. case_bool_decide as Hex; [done|].
  assert (Hnone : dk_files d !! final = None) by (destruct (dk_files d !! final); [by destruct Hex|done]).
  assert (Hne : final ≠ tmp_of final) by (intros H; symmetry in H; by apply tmp_ne in H).
  set (d1 := disk_remove (fa_remove_stale k) (tmp_of final) d) in *.
  assert (Hd1 : always P d1) by (by apply always_remove).
  assert (Hn1 : dk_files d1 !! final = None) by (unfold d1; by rewrite remove_other).
  clearbody d1. destruct (if bool_decide _ then _ else _); [done|].
  set (d2 := disk_update (<[tmp_of final := ""]>) d1) in *.
  assert (Hd2 : always P d2) by (by apply always_insert).
  pose proof (write_loop_always P (tmp_of final) (fa_writes k) "" contents d2 Hb Hd2) as Hd3.
  destruct (write_loop _ _ _ _ d2) as [y d3] eqn:Hw. cbn [snd] in Hd3.
  apply write_loop_spec in Hw as [H1 H2]; [|cbn; by rewrite lookup_insert_eq].
  destruct y; [by apply always_remove|]. destruct (fa_fsync k); [by apply always_remove|].
  destruct (fa_rename k); [by apply always_remove|]. apply always_update; [done|]. intros Hp.
  rewrite (H2 eq_refl). apply Hf.
  - apply (Hb (dk_files d3)); [|done]. intros p Hpp. by rewrite lookup_delete_ne.
  - rewrite lookup_delete_ne by done. rewrite H1 by done. cbn. by rewrite lookup_insert_ne.
Qed.

Section Paths.
Context (r : TestResult) (directory : string).

Definition result_stem : string := path_join directory (tr_run_id r).

Lemma json_path_eq : json_path directory r = result_stem +:+ ".json".
Proof. unfold json_path, result_stem, path_join. destruct (ends_with_slash directory); by rewrite <- !str_app_assoc. Qed.
Lemma csv_path_eq : csv_path directory r = result_stem +:+ ".csv".
Proof. unfold csv_path, result_stem, path_join. destruct (ends_with_slash directory); by rewrite <- !str_app_assoc. Qed.

Lemma result_paths_ne :
  json_path directory r ≠ csv_path directory r ∧ json_path directory r ≠ tmp_of (csv_path directory r) ∧
  csv_path directory r ≠ tmp_of (json_path directory r) ∧ json_path directory r ≠ tmp_of (json_path directory r) ∧
  csv_path directory r ≠ tmp_of (csv_path directory r).
Proof.
  unfold tmp_of. rewrite json_path_eq, csv_path_eq, <- !str_app_assoc. split_and!; by intros ?%str_cancel_l.
Qed.

(** What anyone who looks at the files may see while [r] is written: every path but the two
    temporary ones is as it was, or is one of the two results, complete, where nothing was. *)
Definition intact (f0 f : Files) : Prop :=
  ∀ p, p ≠ tmp_of (json_path directory r) → p ≠ tmp_of (csv_path directory r) →
    f !! p = f0 !! p ∨
    f0 !! p = None ∧ (p = json_path directory r ∧ f !! p = Some (serialize_result_json r) ∨
                      p = csv_path directory r ∧ f !! p = Some (serialize_result_csv r)).

Lemma intact_blind f0 path :
  path = tmp_of (json_path directory r) ∨ path = tmp_of (csv_path directory r) → blind path (intact f0).
Proof. intros Hp f g Hfg Hf p Hj Hc. rewrite <- Hfg; [by apply Hf|]. naive_solver. Qed.

Lemma intact_appears f0 final contents f :
  final = json_path directory r ∧ contents = serialize_result_json r ∨
  final = csv_path directory r ∧ contents = serialize_result_csv r →
  intact f0 f → f !! final = None → intact f0 (<[final := contents]> f).
Proof.
  intros Hfc Hf Hnone p Hj Hc. destruct (decide (p = final)) as [->|Hp].
  - right. rewrite lookup_insert_eq. destruct (Hf final Hj Hc) as [H|[H _]]; [rewrite <- H, Hnone|]; naive_solver.
  - rewrite lookup_insert_ne by done. by apply Hf.
Qed.

End Paths.

Lemma write_cases r directory k f0 x d' :
  result_write r directory k (mkDisk f0 []) = (x, d') →
  always (intact r directory f0) d' ∧
  match x with
  | Ok a =>
      dk_files d' !! ra_json_path a = Some (serialize_result_json r) ∧
      dk_files d' !! ra_csv_path a = Some (serialize_result_csv r)
  | Err _ =>
      wa_remove_json k = true →
      dk_files d' !! json_path directory r = f0 !! json_path directory r ∧
      dk_files d' !! csv_path directory r = f0 !! csv_path directory r
  end.
Proof.
  destruct (result_paths_ne r directory) as (Hjc & Hjt & Hct & Hjj & Hcc).
  assert (H0 : always (intact r directory f0) (mkDisk f0 [])) by (repeat constructor; intros p _ _; by left).
  unfold result_write. destruct (validate_persistable r); [|intros [= <- <-]; done].
  destruct (empty_text directory); [intros [= <- <-]; done|]. destruct (wa_create_error k); [intros [= <- <-]; done|].
  pose proof (write_file_always (intact r directory f0) (json_path directory r) (serialize_result_json r) (wa_json k) _
    (intact_blind r directory f0 _ (or_introl eq_refl)) (λ f, intact_appears r directory f0 _ _ f (or_introl (conj eq_refl eq_refl))) H0) as H1.
  destruct (write_file_atomically (json_path directory r) _ _ _) as [y1 d1] eqn:E1. cbn [snd] in H1.
  apply write_file_effect in E1 as [Eo1 Ef1]. cbn [dk_files] in Eo1, Ef1.
  destruct y1 as [[]|e1]; cbn in Ef1; [|intros [= <- <-]; split; [done|]; intros _; split; [done|by rewrite Eo1]].
  destruct Ef1 as [Hn1 Hj1].
  pose proof (write_file_always (intact r directory f0) (csv_path directory r) (serialize_result_csv r) (wa_csv k) _
    (intact_blind r directory f0 _ (or_intror eq_refl)) (λ f, intact_appears r directory f0 _ _ f (or_intror (conj eq_refl eq_refl))) H1) as H2.
  destruct (write_file_atomically (csv_path directory r) _ _ d1) as [y2 d2] eqn:E2. cbn [snd] in H2.
  apply write_file_effect in E2 as [Eo2 Ef2]. destruct y2 as [[]|e2]; cbn in Ef2.
  - intros [= <- <-]. split; [done|]. cbn. split; [by rewrite Eo2|by destruct Ef2].
  - intros [= <- <-]. split.
    + unfold disk_remove. destruct (wa_remove_json k); [|done]. apply always_update; [done|]. intros Hf p Hp1 Hp2.
      destruct (decide (p = json_path directory r)) as [->|Hp]; [left; by rewrite lookup_delete_eq|].
      rewrite lookup_delete_ne by done. by apply Hf.
    + intros ->. cbn. rewrite lookup_delete_eq, lookup_delete_ne by done. by rewrite Ef2, Eo1.
Qed.

(** C24.  Results appear whole or not at all: whatever the system answers to the calls of the
    writer, at every moment every path except the two temporary files is as it was before,
    or is a complete JSON or CSV result where no file was; no existing file is ever
    overwritten.  On success both files are there, and on failure neither is new, unless
    the removal of the JSON file itself failed. *)
Theorem results_appear_whole r directory k f0 x d' :
  result_write r directory k (mkDisk f0 []) = (x, d') →
  always (intact r directory f0) d' ∧
  match x with
  | Ok a =>
      dk_files d' !! ra_json_path a = Some (serialize_result_json r) ∧
      dk_files d' !! ra_csv_path a = Some (serialize_result_csv r)
  | Err _ =>
      wa_remove_json k = true →
      dk_files d' !! json_path directory r = f0 !! json_path directory r ∧
      dk_files d' !! csv_path directory r = f0 !! csv_path directory r
  end.
Proof. apply write_cases. Qed.

(** ** Every result of the runner is written *)

Definition ident (r : TestResult) : string * string * string := (tr_run_id r, tr_case_id r, tr_case_name r).

Lemma assign_reason_ident fallback r : ident (assign_failure_reason fallback r) = ident r.
Proof. unfold assign_failure_reason. by repeat case_match. Qed.

Lemma seal_ident r : ident (seal_failure_evidence r) = ident r.
Proof.
  unfold seal_failure_evidence. destruct (negb _); [by case_match|].
  set (a := assign_failure_reason _ r). assert (Ha : ident a = ident r) by apply assign_reason_ident. clearbody a.
  rewrite <- Ha. clear. set (b := match rl_measurements _ with [] => _ | _ => a end).
  assert (Hb : ident b = ident a) by (unfold b; by case_match). clearbody b. rewrite <- Hb. clear.
  set (c := match tr_criteria b with [] => _ | _ => b end).
  assert (Hc : ident c = ident b) by (unfold c; by case_match). clearbody c. rewrite <- Hc. by case_match.
Qed.

Lemma set_step_error_ident e s r : ident (set_step_error e s r) = ident r.
Proof. unfold set_step_error. by rewrite assign_reason_ident. Qed.

Section Ident.
Context {W : Type} (env : RunEnv W).
Implicit Type w : W.

Lemma check_stop_ident deadline after r w : ident (snd (fst (check_stop env deadline after r w))) = ident r.
Proof.
  unfold check_stop. destruct (should_stop env deadline w) as [[[|]|e] w1]; cbn; [|done|apply set_step_error_ident].
  destruct (re_cancelled env w1) as [[|] w2]; [done|apply set_step_error_ident].
Qed.

Lemma run_step_ident f deadline failed after r w : ident (snd (fst (run_step env f deadline failed after r w))) = ident r.
Proof.
  unfold run_step, run_callback. destruct (f _ _ _) as [[[]|e] [l w1]]; [by rewrite check_stop_ident|].
  exact (set_step_error_ident e failed (r <| tr_log := l |>)).
Qed.

Lemma run_evaluate_ident v deadline r w : ident (fst (run_evaluate env v deadline r w)) = ident r.
Proof.
  unfold run_evaluate, run_callback. destruct (v _ _ _) as [[e|e] [l w1]];
    [|exact (set_step_error_ident e "evaluation failed" (r <| tr_log := l |>))].
  pose proof (check_stop_ident deadline "test timed out during evaluation" (r <| tr_log := l |>) w1) as H.
  destruct (check_stop _ _ _ _ _) as [[[|] r'] w2]; exact H.
Qed.

Lemma run_phases_ident p x v deadline r w : ident (snd (fst (run_phases env p x v deadline r w))) = ident r.
Proof.
  unfold run_phases. pose proof (run_step_ident p deadline "prepare failed" "test timed out after prepare" r w) as H1.
  destruct (run_step env p _ _ _ _ _) as [[[|] r1] w1]; cbn in *; [|done]. rewrite <- H1.
  pose proof (run_step_ident x deadline "execute failed" "test timed out after execute" r1 w1) as H2.
  destruct (run_step env x _ _ _ _ _) as [[[|] r2] w2]; cbn in *; [|done]. rewrite <- H2.
  pose proof (run_evaluate_ident v deadline r2 w2) as H3. by destruct (run_evaluate env v deadline r2 w2).
Qed.

Lemma run_cleanup_ident q deadline r w : ident (fst (run_cleanup q deadline r w)) = ident r.
Proof. unfold run_cleanup, run_callback. destruct (q _ _ _) as [[[]|e] [l w1]]; [done|]. by case_match. Qed.

Lemma run_finish_ident r w : ident (fst (run_finish env r w)) = ident r.
Proof.
  unfold run_finish, sample_wall. destruct (re_clock env w) as [f w1].
  set (r1 := match f with Ok t => _ | Err e => _ end).
  assert (Hr1 : ident r1 = ident r)
    by (unfold r1; destruct f; [done|]; case_match; [|done]; by rewrite assign_reason_ident).
  clearbody r1. rewrite <- Hr1. destruct (re_wall env w1) as [[t|e] w2]; cbn; by rewrite seal_ident.
Qed.

Lemma run_test_ident run_id c n w : ident (fst (fst (run_test env run_id c n w))) = (run_id, tc_id c, tc_name c).
Proof.
  unfold run_test. destruct (tn_running n); [cbn; by rewrite seal_ident|].
  destruct (validate run_id c) as [[[[p x] v] q]|e]; [|cbn; by rewrite seal_ident].
  destruct (re_clock env _) as [[t|e] w1]; [|cbn; by rewrite seal_ident].
  destruct (sample_wall _ _ _ _) as [r1 w2] eqn:Hw.
  assert (Hr1 : ident r1 = (run_id, tc_id c, tc_name c))
    by (unfold sample_wall in Hw; destruct (re_wall env w1) as [[]]; by injection Hw as <- _).
  destruct (_ <? t); [cbn; rewrite seal_ident; exact Hr1|].
  pose proof (run_phases_ident p x v (t + tc_timeout c) r1 w2) as H2.
  destruct (run_phases _ _ _ _ _ _ _) as [[stages r2] w3]. cbn [fst snd] in H2.
  pose proof (run_cleanup_ident q (t + tc_timeout c) r2 w3) as H3. destruct (run_cleanup _ _ _ _) as [r3 w4]. cbn [fst] in H3.
  pose proof (run_finish_ident r3 w4) as H4. destruct (run_finish env r3 w4) as [r4 w5]. cbn [fst] in H4. cbn. congruence.
Qed.

(** The evidence the writer asks for is what the runner always leaves. *)
Lemma runner_persistable run_id c n w :
  is_safe_run_id run_id = true → tc_id c ≠ "" → tc_name c ≠ "" →
  validate_persistable (fst (fst (run_test env run_id c n w))) = Ok ().
Proof.
  intros Hid Hc Hn. destruct (run_test_sealed env run_id c n w) as [r0 Hr0].
  pose proof (run_test_ident run_id c n w) as Hi. set (r := fst (fst _)) in *. clearbody r.
  injection Hi as Hi1 Hi2 Hi3. unfold validate_persistable. rewrite Hi1, Hi2, Hi3, Hid. cbn [negb].
  rewrite (proj2 (empty_text_false _) Hc), (proj2 (empty_text_false _) Hn). cbn [orb].
  destruct (negb (tr_outcome r ==? Outcome.Failed) && negb (tr_outcome r ==? Outcome.Error)) eqn:Ho; [done|].
  assert (Hf : is_failure (tr_outcome r) = true).
  { unfold is_failure. by destruct (tr_outcome r ==? Outcome.Failed), (tr_outcome r ==? Outcome.Error). }
  rewrite Hr0 in *. destruct (seal_evidence r0 Hf) as (He1 & He2 & He3 & He4).
  rewrite (proj2 (empty_text_false _) He1). destruct (tr_criteria _); [done|]. destruct (rl_measurements _); [done|].
  by destruct (rl_diagnostics _).
Qed.

End Ident.

(** A system that never refuses: short writes and interrupted calls are fine. *)
Definition write_goes_on (a : WriteAnswer) : bool :=
  match a with Wrote _ => true | WriteFailed e => e =? EINTR end.
Definition file_answers_fine (k : FileAnswers) : Prop :=
  fa_remove_stale k = true ∧ fa_open k = None ∧ forallb write_goes_on (fa_writes k) = true ∧
  fa_fsync k = None ∧ fa_rename k = None.

Lemma write_loop_fine path answers : ∀ written rest d,
  forallb write_goes_on answers = true → fst (write_loop answers path written rest d) = None.
Proof.
  induction answers as [|[n|e] answers IH]; intros written rest d Ha; cbn in *; destruct (empty_text rest); try done.
  - by apply IH.
  - apply andb_prop in Ha as [He Ha]. rewrite He. by apply IH.
Qed.

Lemma write_file_fine final contents k d :
  file_answers_fine k → dk_files d !! final = None → fst (write_file_atomically final contents k d) = Ok ().
Proof.
  intros (Hs & Ho & Hw & Hf & Hr) Hn. unfold write_file_atomically. rewrite Hn, Hs, Ho, Hf, Hr.
  rewrite bool_decide_eq_false_2 by (by intros []). cbn. rewrite lookup_delete_eq.
  rewrite bool_decide_eq_false_2 by (by intros []).
  match goal with |- context [write_loop ?a ?p ?x ?y ?d0] => pose proof (write_loop_fine p a x y d0 Hw) as Hl;
    destruct (write_loop a p x y d0) as [e d'] end.
  cbn in Hl. by subst e.
Qed.

(** A result the writer accepts is stored by a system that refuses nothing. *)
Lemma persistable_stored r directory k f0 :
  validate_persistable r = Ok () → directory ≠ "" →
  wa_create_error k = None → file_answers_fine (wa_json k) → file_answers_fine (wa_csv k) →
  f0 !! json_path directory r = None → f0 !! csv_path directory r = None →
  ∃ d', result_write r directory k (mkDisk f0 []) = (Ok (mkArtifacts (json_path directory r) (csv_path directory r)), d') ∧
    dk_files d' !! csv_path directory r = Some (serialize_result_csv r) ∧
    (dk_files d' !! json_path directory r ≫= parse_json) = Some (result_json r).
Proof.
  intros Hv Hdir Hk Hkj Hkc Hj Hcs. destruct (result_write r directory k (mkDisk f0 [])) as [x d'] eqn:Hw.
  assert (Hx : x = Ok (mkArtifacts (json_path directory r) (csv_path directory r))).
  { revert Hw. unfold result_write. rewrite Hv, (proj2 (empty_text_false _) Hdir), Hk.
    pose proof (write_file_fine (json_path directory r) (serialize_result_json r) (wa_json k) (mkDisk f0 []) Hkj Hj) as H1.
    destruct (write_file_atomically (json_path directory r) _ _ _) as [y d1] eqn:E1. cbn in H1. subst y.
    apply write_file_effect in E1 as [Eo _]. destruct (result_paths_ne r directory) as (Hjc & _ & Hct & _ & _).
    pose proof (write_file_fine (csv_path directory r) (serialize_result_csv r) (wa_csv k) d1 Hkc) as H2.
    rewrite Eo in H2 by done. specialize (H2 Hcs).
    destruct (write_file_atomically (csv_path directory r) _ _ d1) as [y d2]. cbn in H2. subst y. by intros [= <- _]. }
  subst x. apply write_cases in Hw as [_ [H1 H2]]. exists d'. split; [done|]. split; [done|].
  cbn in H1. rewrite H1. cbn. rewrite serialize_json_eq. apply parse_show, result_json_ok.
Qed.

(** Every run leaves its files: whatever the test case did and however the run ended, when
    the run id is a portable file stem and the case has an id and a name, a system that
    refuses nothing stores both files of the result, and an independent reader finds in
    the JSON file the document of exactly that result. *)
Theorem run_results_are_stored {W} (env : RunEnv W) run_id c n w directory k f0 :
  is_safe_run_id run_id = true → tc_id c ≠ "" → tc_name c ≠ "" → directory ≠ "" →
  wa_create_error k = None → file_answers_fine (wa_json k) → file_answers_fine (wa_csv k) →
  let r := fst (fst (run_test env run_id c n w)) in
  f0 !! json_path directory r = None → f0 !! csv_path directory r = None →
  ∃ a d', result_write r directory k (mkDisk f0 []) = (Ok a, d') ∧
    dk_files d' !! ra_csv_path a = Some (serialize_result_csv r) ∧
    (dk_files d' !! ra_json_path a ≫= parse_json) = Some (result_json r).
Proof.
  intros Hid Hc Hn Hdir Hk Hkj Hkc r Hj Hcs.
  destruct (persistable_stored r directory k f0) as (d' & Hw & H1 & H2); try done; [by apply runner_persistable|]. by do 2 eexists.
Qed.

(** ** Concrete files *)

Definition demo_file_answers : FileAnswers :=
  mkFileAnswers true None [Wrote 10; WriteFailed EINTR; Wrote 0; Wrote 7] None None true.
Definition demo_answers : WriterAnswers := mkWriterAnswers None demo_file_answers demo_file_answers true.
Definition demo_result : TestResult := fst (fst (run_test demo_env "run-1" (demo_case false) runner_new 0)).

Lemma run_results_are_stored_witness :
  ∃ a d', result_write demo_result "out" demo_answers (mkDisk ∅ []) = (Ok a, d') ∧
    dk_files d' !! ra_csv_path a = Some (serialize_result_csv demo_result) ∧
    (dk_files d' !! ra_json_path a ≫= parse_json) = Some (result_json demo_result).
Proof.
  apply (run_results_are_stored demo_env "run-1" (demo_case false) runner_new 0 "out" demo_answers ∅);
    try reflexivity; try discriminate; by split_and!.
Defined.

(** The second file fails to sync: the first one is taken back. *)
Definition failing_answers : WriterAnswers :=
  mkWriterAnswers None demo_file_answers (mkFileAnswers true None [Wrote 5] (Some EIO) None true) true.

Lemma results_appear_whole_witness :
  let out := result_write demo_result "out" failing_answers (mkDisk ∅ []) in
  fst out = fail_with Errc.IoError "fsync result tmp: " ∧
  dk_files (snd out) !! json_path "out" demo_result = None ∧ always (intact demo_result "out" ∅) (snd out).
Proof.
  assert (He : fst (result_write demo_result "out" failing_answers (mkDisk ∅ [])) =
    fail_with Errc.IoError "fsync result tmp: ") by (vm_compute; reflexivity).
  pose proof (results_appear_whole demo_result "out" failing_answers ∅ _ _ (surjective_pairing _)) as [Ha Hm].
  rewrite He in Hm. split; [exact He|]. split; [exact (proj1 (Hm eq_refl))|exact Ha].
Defined.
