(* ===== verification/MockActuator.v ===== *)
(** * The mock actuator profile

    profile/mock_actuator_profile.cpp: one simulated axis with drive enable, homing, velocity
    and jog motion, two kinds of stop, faults and a first-order velocity response in binary64.
    The caller moves time with [tick].  The sums of int64 nanoseconds are written without
    wrap-around: signed overflow has no meaning in the source, and the clock saturates. *)

From S2P Require Import Prelude Types Application Doubles.
Local Open Scope Z_scope.

(** ** Data *)

Module AState.
Inductive ActuatorState := Disabled | Idle | Homing | Ready | Running | Stopping | Fault.
End AState.
Notation ActuatorState := AState.ActuatorState.

Module Motion.
Inductive ActuatorMotionMode := None | Velocity | JogPositive | JogNegative | Homing.
End Motion.
Notation ActuatorMotionMode := Motion.ActuatorMotionMode.

Module AFault.
Inductive ActuatorFaultReason :=
  | None | Configuration | SoftLimitPositive | SoftLimitNegative | TrackingError | EncoderFault
  | CommunicationTimeout | DeviceFault.
End AFault.
Notation ActuatorFaultReason := AFault.ActuatorFaultReason.

#[export] Instance ActuatorState_eq_dec : EqDecision ActuatorState.
Proof. solve_decision. Defined.
#[export] Instance ActuatorMotionMode_eq_dec : EqDecision ActuatorMotionMode.
Proof. solve_decision. Defined.
#[export] Instance ActuatorFaultReason_eq_dec : EqDecision ActuatorFaultReason.
Proof. solve_decision. Defined.

Definition actuator_state_to_string (s : ActuatorState) : string :=
  match s with
  | AState.Disabled => "DISABLED"
  | AState.Idle => "IDLE"
  | AState.Homing => "HOMING"
  | AState.Ready => "READY"
  | AState.Running => "RUNNING"
  | AState.Stopping => "STOPPING"
  | AState.Fault => "FAULT"
  end.

Definition motion_mode_to_string (m : ActuatorMotionMode) : string :=
  match m with
  | Motion.None => "NONE"
  | Motion.Velocity => "VELOCITY"
  | Motion.JogPositive => "JOG_POSITIVE"
  | Motion.JogNegative => "JOG_NEGATIVE"
  | Motion.Homing => "HOMING"
  end.

Definition fault_reason_to_string (f : ActuatorFaultReason) : string :=
  match f with
  | AFault.None => "NONE"
  | AFault.Configuration => "CONFIGURATION"
  | AFault.SoftLimitPositive => "SOFT_LIMIT_POSITIVE"
  | AFault.SoftLimitNegative => "SOFT_LIMIT_NEGATIVE"
  | AFault.TrackingError => "TRACKING_ERROR"
  | AFault.EncoderFault => "ENCODER_FAULT"
  | AFault.CommunicationTimeout => "COMMUNICATION_TIMEOUT"
  | AFault.DeviceFault => "DEVICE_FAULT"
  end.

(** Durations are milliseconds. *)
Record MockActuatorConfig := mkActuatorConfig {
  ac_min_position_rad : double;
  ac_max_position_rad : double;
  ac_max_velocity_rad_s : double;
  ac_velocity_response_per_s : double;
  ac_normal_stop_response_per_s : double;
  ac_quick_stop_response_per_s : double;
  ac_homing_velocity_rad_s : double;
  ac_homing_duration : Z;
  ac_jog_deadman : Z;
  ac_max_continuous_jog : Z;
  ac_max_physics_step : Z;
  ac_tracking_error_threshold_rad : double;
  ac_tracking_error_cycles : Z;
  ac_stopped_velocity_epsilon_rad_s : double
}.

Definition default_actuator_config : MockActuatorConfig :=
  mkActuatorConfig (d_lit (-28) 1) (d_lit 28 1) (d_of_Z 2) (d_of_Z 8) (d_of_Z 12) (d_of_Z 40) (d_lit (-25) 2)
    500 200 2000 50 d_one 50 (d_lit 1 2).

Record ActuatorSnapshot := mkActuatorSnapshot {
  as_device_id : string;
  as_evidence : EvidenceClass;
  as_isolated_mock : bool;
  as_configured : bool;
  as_state : ActuatorState;
  as_motion_mode : ActuatorMotionMode;
  as_fault : ActuatorFaultReason;
  as_drive_enabled : bool;
  as_homed : bool;
  as_target_position_rad : double;
  as_actual_position_rad : double;
  as_position_error_rad : double;
  as_target_velocity_rad_s : double;
  as_actual_velocity_rad_s : double;
  as_velocity_error_rad_s : double;
  as_min_position_rad : double;
  as_max_position_rad : double;
  as_command_generation : Z;
  as_active_jog_token : Z;
  as_last_reject : string
}.

#[export] Instance ActuatorSnapshot_eta : Eta ActuatorSnapshot :=
  mkEta _ (fun s => mkActuatorSnapshot (as_device_id s) (as_evidence s) (as_isolated_mock s) (as_configured s)
    (as_state s) (as_motion_mode s) (as_fault s) (as_drive_enabled s) (as_homed s) (as_target_position_rad s)
    (as_actual_position_rad s) (as_position_error_rad s) (as_target_velocity_rad_s s) (as_actual_velocity_rad_s s)
    (as_velocity_error_rad_s s) (as_min_position_rad s) (as_max_position_rad s) (as_command_generation s)
    (as_active_jog_token s) (as_last_reject s)).

Definition default_actuator_snapshot : ActuatorSnapshot :=
  mkActuatorSnapshot "ACTUATOR_01" EvidenceClass.Mock true true AState.Disabled Motion.None AFault.None false false
    dzero dzero dzero dzero dzero dzero (d_lit (-28) 1) (d_lit 28 1) 0 0 "".

Record ActuatorCommandReply := mkActuatorReply {
  ar_status : CommandStatus;
  ar_from_state : ActuatorState;
  ar_to_state : ActuatorState;
  ar_token : Z;
  ar_message : string
}.

Definition reply_accepted (r : ActuatorCommandReply) : bool := ar_status r ==? CommandStatus.Accepted.

Record MockActuatorProfile := mkActuator {
  ma_config : MockActuatorConfig;
  ma_snapshot : ActuatorSnapshot;
  ma_monotonic_elapsed_ns : Z;
  ma_homing_started_ns : Z;
  ma_jog_deadline_ns : Z;
  ma_jog_max_deadline_ns : Z;
  ma_tracking_error_count : Z;
  ma_quick_stopping : bool;
  ma_disable_after_stop : bool;
  ma_persistent_blocker : bool
}.

#[export] Instance MockActuator_eta : Eta MockActuatorProfile :=
  mkEta _ (fun a => mkActuator (ma_config a) (ma_snapshot a) (ma_monotonic_elapsed_ns a) (ma_homing_started_ns a)
    (ma_jog_deadline_ns a) (ma_jog_max_deadline_ns a) (ma_tracking_error_count a) (ma_quick_stopping a)
    (ma_disable_after_stop a) (ma_persistent_blocker a)).

(** ** Helpers *)

Definition to_ns (ms : Z) : Z := ms * 1000000.

(** [value > 0.0] *)
Definition finite_positive (x : double) : bool := d_isfinite x && dlt dzero x.

Definition configuration_valid (c : MockActuatorConfig) : bool :=
  d_isfinite (ac_min_position_rad c) && d_isfinite (ac_max_position_rad c) &&
  dlt (ac_min_position_rad c) (ac_max_position_rad c) && finite_positive (ac_max_velocity_rad_s c) &&
  finite_positive (ac_velocity_response_per_s c) && finite_positive (ac_normal_stop_response_per_s c) &&
  finite_positive (ac_quick_stop_response_per_s c) && d_isfinite (ac_homing_velocity_rad_s c) &&
  dle (dabs (ac_homing_velocity_rad_s c)) (ac_max_velocity_rad_s c) && (0 <? ac_homing_duration c) &&
  (0 <? ac_jog_deadman c) && (ac_jog_deadman c <=? ac_max_continuous_jog c) && (0 <? ac_max_physics_step c) &&
  finite_positive (ac_tracking_error_threshold_rad c) && (0 <? ac_tracking_error_cycles c) &&
  finite_positive (ac_stopped_velocity_epsilon_rad_s c).

Definition begin_stop (quick disable_after_stop : bool) (a : MockActuatorProfile) : MockActuatorProfile :=
  a <| ma_snapshot ::= λ s, s <| as_target_velocity_rad_s := dzero |> <| as_active_jog_token := 0 |>
         <| as_state := AState.Stopping |> <| as_motion_mode := Motion.None |> |>
    <| ma_quick_stopping := quick |> <| ma_disable_after_stop := disable_after_stop |>.

Definition actuator_raise_fault (reason : ActuatorFaultReason) (persistent : bool) (a : MockActuatorProfile)
    : MockActuatorProfile :=
  a <| ma_snapshot ::= λ s, s <| as_fault := reason |> <| as_state := AState.Fault |> <| as_drive_enabled := false |>
         <| as_homed := false |> <| as_target_velocity_rad_s := dzero |> <| as_active_jog_token := 0 |>
         <| as_motion_mode := Motion.None |> <| as_last_reject := fault_reason_to_string reason |> |>
    <| ma_quick_stopping := true |> <| ma_disable_after_stop := false |>
    <| ma_persistent_blocker := ma_persistent_blocker a || persistent |>.

Definition update_snapshot_errors (a : MockActuatorProfile) : MockActuatorProfile :=
  a <| ma_snapshot ::= λ s,
         s <| as_position_error_rad := dsub (as_target_position_rad s) (as_actual_position_rad s) |>
           <| as_velocity_error_rad_s := dsub (as_target_velocity_rad_s s) (as_actual_velocity_rad_s s) |> |>.

Definition accept (from : ActuatorState) (message : string) (token : Z) (a : MockActuatorProfile)
    : ActuatorCommandReply * MockActuatorProfile :=
  (mkActuatorReply CommandStatus.Accepted from (as_state (ma_snapshot a)) token message,
   a <| ma_snapshot ::= λ s, s <| as_last_reject := "" |> |>).

Definition actuator_reject (status : CommandStatus) (from : ActuatorState) (message : string) (a : MockActuatorProfile)
    : ActuatorCommandReply * MockActuatorProfile :=
  (mkActuatorReply status from (as_state (ma_snapshot a)) 0 message,
   a <| ma_snapshot ::= λ s, s <| as_last_reject := message |> |>).

Definition next_generation (a : MockActuatorProfile) : MockActuatorProfile :=
  a <| ma_snapshot ::= λ s, s <| as_command_generation ::= incr64 |> |>.

Definition actuator_new (c : MockActuatorConfig) : MockActuatorProfile :=
  let valid := configuration_valid c in
  let s := default_actuator_snapshot <| as_min_position_rad := ac_min_position_rad c |>
             <| as_max_position_rad := ac_max_position_rad c |> <| as_configured := valid |> in
  let a := mkActuator c s 0 0 0 0 0 false false false in
  let a := if valid then a
           else actuator_raise_fault AFault.Configuration true a
                  <| ma_snapshot ::= λ s, s <| as_last_reject := "invalid MockActuatorConfig" |> |> in
  update_snapshot_errors a.

(** ** Commands *)

Notation Command := (MockActuatorProfile → ActuatorCommandReply * MockActuatorProfile).

Definition drive_enable : Command := λ a,
  let s := ma_snapshot a in
  let from := as_state s in
  if negb (as_configured s) then
    actuator_reject CommandStatus.InvalidArgument from "Mock actuator configuration is invalid" a
  else if from ==? AState.Fault then actuator_reject CommandStatus.Rejected from "Reset fault before Drive Enable" a
  else if negb (from ==? AState.Disabled) then
    actuator_reject CommandStatus.Rejected from "Drive Enable requires DISABLED" a
  else
    accept from "Drive enabled" 0
      (next_generation (a <| ma_snapshot ::= λ s, s <| as_drive_enabled := true |>
         <| as_state := if as_homed s then AState.Ready else AState.Idle |> |>)).

Definition in_motion (s : ActuatorState) : bool :=
  (s ==? AState.Running) || (s ==? AState.Homing) || (s ==? AState.Stopping).

Definition drive_disable : Command := λ a,
  let from := as_state (ma_snapshot a) in
  if from ==? AState.Fault then
    accept from "Drive output already revoked by fault" 0
      (a <| ma_snapshot ::= λ s, s <| as_drive_enabled := false |> |>)
  else if from ==? AState.Disabled then actuator_reject CommandStatus.Rejected from "Drive already disabled" a
  else
    let a := next_generation a in
    if dlt (ac_stopped_velocity_epsilon_rad_s (ma_config a)) (dabs (as_actual_velocity_rad_s (ma_snapshot a))) ||
       in_motion from then
      accept from "Drive disable requested; quick deceleration active" 0
        (begin_stop true true (a <| ma_snapshot ::= λ s, s <| as_homed := false |> |>))
    else
      accept from "Drive disabled" 0
        (a <| ma_snapshot ::= λ s, s <| as_drive_enabled := false |> <| as_homed := false |>
           <| as_state := AState.Disabled |> <| as_motion_mode := Motion.None |> |>).

Definition home : Command := λ a,
  let s := ma_snapshot a in
  let from := as_state s in
  if negb (as_drive_enabled s) || (negb (from ==? AState.Idle) && negb (from ==? AState.Ready)) then
    actuator_reject CommandStatus.Rejected from "Home requires enabled IDLE or READY" a
  else
    accept from "MOCK homing started" 0
      (next_generation a <| ma_snapshot ::= λ s, s <| as_homed := false |> <| as_state := AState.Homing |>
           <| as_motion_mode := Motion.Homing |>
           <| as_target_velocity_rad_s := ac_homing_velocity_rad_s (ma_config a) |>
           <| as_target_position_rad := as_actual_position_rad s |> |>
         <| ma_homing_started_ns := ma_monotonic_elapsed_ns a |> <| ma_tracking_error_count := 0 |>).

(** A motion towards a soft limit that is already reached; [up] is the direction. *)
Definition at_limit (up : bool) (a : MockActuatorProfile) : bool :=
  if up then dle (ac_max_position_rad (ma_config a)) (as_actual_position_rad (ma_snapshot a))
  else dle (as_actual_position_rad (ma_snapshot a)) (ac_min_position_rad (ma_config a)).

(** The motion both start commands set up. *)
Definition start_motion (mode : ActuatorMotionMode) (velocity : double) (a : MockActuatorProfile)
    : MockActuatorProfile :=
  a <| ma_snapshot ::= λ s, s <| as_state := AState.Running |> <| as_motion_mode := mode |>
         <| as_target_velocity_rad_s := velocity |> <| as_target_position_rad := as_actual_position_rad s |> |>
    <| ma_tracking_error_count := 0 |>.

Definition ready_to_move (s : ActuatorSnapshot) : bool :=
  as_drive_enabled s && as_homed s && (as_state s ==? AState.Ready).

Definition limit_fault (up : bool) : ActuatorFaultReason :=
  if up then AFault.SoftLimitPositive else AFault.SoftLimitNegative.

Definition start_velocity (velocity : double) : Command := λ a,
  let s := ma_snapshot a in
  let from := as_state s in
  if negb (d_isfinite velocity) || deq velocity dzero || dlt (ac_max_velocity_rad_s (ma_config a)) (dabs velocity) then
    actuator_reject CommandStatus.InvalidArgument from "Velocity must be finite, nonzero, and within configured max" a
  else if negb (ready_to_move s) then
    actuator_reject CommandStatus.Rejected from "Velocity start requires enabled, homed READY state" a
  else if (dlt dzero velocity && at_limit true a) || (dlt velocity dzero && at_limit false a) then
    actuator_reject CommandStatus.Rejected from "Motion direction violates active soft limit"
      (actuator_raise_fault (limit_fault (dlt dzero velocity)) false a)
  else accept from "Velocity motion started" 0 (start_motion Motion.Velocity velocity (next_generation a)).

Definition normal_stop : Command := λ a,
  let from := as_state (ma_snapshot a) in
  if from ==? AState.Stopping then accept from "Stop already active; existing deceleration retained" 0 a
  else if negb (from ==? AState.Running) && negb (from ==? AState.Homing) then
    actuator_reject CommandStatus.Rejected from "Normal Stop requires active motion" a
  else accept from "Normal Stop requested" 0 (begin_stop false false (next_generation a)).

Definition quick_stop : Command := λ a,
  let from := as_state (ma_snapshot a) in
  if negb (in_motion from) then
    actuator_reject CommandStatus.Rejected from "Quick Stop has no active software motion" a
  else accept from "QUICK STOP requested (software only)" 0 (begin_stop true false (next_generation a)).

Definition jog_press (direction : Z) (velocity : double) : Command := λ a,
  let s := ma_snapshot a in
  let c := ma_config a in
  let from := as_state s in
  let up := 0 <? direction in
  if (negb (direction =? -1) && negb (direction =? 1)) || negb (finite_positive velocity) ||
     dlt (ac_max_velocity_rad_s c) velocity then
    actuator_reject CommandStatus.InvalidArgument from "Jog requires direction -1/+1 and valid positive velocity" a
  else if negb (ready_to_move s) then
    actuator_reject CommandStatus.Rejected from "Jog requires enabled, homed READY state" a
  else if at_limit up a then
    actuator_reject CommandStatus.Rejected from "Jog direction violates active soft limit"
      (actuator_raise_fault (limit_fault up) false a)
  else
    let a := next_generation a in
    let token := as_command_generation (ma_snapshot a) in
    let now := ma_monotonic_elapsed_ns a in
    accept from "Jog lease started" token
      (start_motion (if up then Motion.JogPositive else Motion.JogNegative) (if up then velocity else SFopp velocity)
         (a <| ma_snapshot ::= λ s, s <| as_active_jog_token := token |> |>)
         <| ma_jog_deadline_ns := now + to_ns (ac_jog_deadman c) |>
         <| ma_jog_max_deadline_ns := now + to_ns (ac_max_continuous_jog c) |>).

Definition is_jog (m : ActuatorMotionMode) : bool := (m ==? Motion.JogPositive) || (m ==? Motion.JogNegative).

Definition jog_renew (token : Z) : Command := λ a,
  let s := ma_snapshot a in
  let from := as_state s in
  let now := ma_monotonic_elapsed_ns a in
  if (token =? 0) || negb (token =? as_active_jog_token s) || negb (from ==? AState.Running) ||
     negb (is_jog (as_motion_mode s)) then
    actuator_reject CommandStatus.Rejected from "Jog renew token is stale or no jog is active" a
  else if ma_jog_max_deadline_ns a <=? now then
    actuator_reject CommandStatus.Timeout from "Maximum continuous jog duration reached" (begin_stop false false a)
  else
    accept from "Jog lease renewed" token
      (a <| ma_jog_deadline_ns := Z.min (now + to_ns (ac_jog_deadman (ma_config a))) (ma_jog_max_deadline_ns a) |>).

Definition jog_release (token : Z) : Command := λ a,
  let from := as_state (ma_snapshot a) in
  if (token =? 0) || negb (token =? as_active_jog_token (ma_snapshot a)) then
    actuator_reject CommandStatus.Rejected from "Jog release token is stale" a
  else accept from "Jog released; Normal Stop active" 0 (begin_stop false false (next_generation a)).

Definition reset_fault : Command := λ a,
  let s := ma_snapshot a in
  let from := as_state s in
  if negb (from ==? AState.Fault) then actuator_reject CommandStatus.Rejected from "No actuator fault to reset" a
  else if negb (as_configured s) || ma_persistent_blocker a then
    actuator_reject CommandStatus.Rejected from "Persistent fault blocker is still active" a
  else if dlt (ac_stopped_velocity_epsilon_rad_s (ma_config a)) (dabs (as_actual_velocity_rad_s s)) then
    actuator_reject CommandStatus.Busy from "Wait for neutral velocity before fault reset" a
  else
    accept from "Fault reset to safe DISABLED state" 0
      (next_generation a <| ma_snapshot ::= λ s, s <| as_fault := AFault.None |> <| as_drive_enabled := false |>
           <| as_homed := false |> <| as_state := AState.Disabled |> <| as_motion_mode := Motion.None |>
           <| as_target_velocity_rad_s := dzero |> <| as_target_position_rad := as_actual_position_rad s |>
           <| as_active_jog_token := 0 |> |>
         <| ma_tracking_error_count := 0 |>).

Definition inject_fault (reason : ActuatorFaultReason) (persistent : bool) (a : MockActuatorProfile)
    : MockActuatorProfile :=
  if reason ==? AFault.None then a else actuator_raise_fault reason persistent a.

Definition clear_injected_blocker (a : MockActuatorProfile) : MockActuatorProfile :=
  a <| ma_persistent_blocker := false |>.

(** ** Time *)

Definition max_elapsed_ns : Z := 2 ^ 63 - 1.

Definition advance_clock (elapsed : Z) (a : MockActuatorProfile) : MockActuatorProfile :=
  a <| ma_monotonic_elapsed_ns ::= λ now,
         if max_elapsed_ns - now <? elapsed then max_elapsed_ns else now + elapsed |>.

Definition jog_expired (a : MockActuatorProfile) : bool :=
  (as_state (ma_snapshot a) ==? AState.Running) && negb (as_active_jog_token (ma_snapshot a) =? 0) &&
  ((ma_jog_deadline_ns a <=? ma_monotonic_elapsed_ns a) || (ma_jog_max_deadline_ns a <=? ma_monotonic_elapsed_ns a)).

Definition tick_deadman (a : MockActuatorProfile) : MockActuatorProfile :=
  if jog_expired a then
    begin_stop false false a
      <| ma_snapshot ::= λ s, s <| as_last_reject := "Jog deadman timeout; Normal Stop active" |> |>
  else a.

Definition homing_done (a : MockActuatorProfile) : bool :=
  (as_state (ma_snapshot a) ==? AState.Homing) &&
  (to_ns (ac_homing_duration (ma_config a)) <=? ma_monotonic_elapsed_ns a - ma_homing_started_ns a).

Definition finish_homing (a : MockActuatorProfile) : MockActuatorProfile :=
  update_snapshot_errors
    (a <| ma_snapshot ::= λ s, s <| as_actual_position_rad := dzero |> <| as_target_position_rad := dzero |>
         <| as_actual_velocity_rad_s := dzero |> <| as_target_velocity_rad_s := dzero |> <| as_homed := true |>
         <| as_state := AState.Ready |> <| as_motion_mode := Motion.None |> |>).

(** [duration<double>(step).count()] *)
Definition physics_dt (elapsed : Z) (c : MockActuatorConfig) : double :=
  ddiv (d_of_Z (Z.min elapsed (to_ns (ac_max_physics_step c)))) (d_of_Z (10 ^ 9)).

Definition tick_physics (elapsed : Z) (a : MockActuatorProfile) : MockActuatorProfile :=
  let c := ma_config a in
  let dt := physics_dt elapsed c in
  let st := as_state (ma_snapshot a) in
  let response :=
    if (st ==? AState.Stopping) || (st ==? AState.Fault) then
      if ma_quick_stopping a then ac_quick_stop_response_per_s c else ac_normal_stop_response_per_s c
    else ac_velocity_response_per_s c in
  let alpha := dclamp (dmul response dt) dzero d_one in
  a <| ma_snapshot ::= λ s,
         let velocity := dadd (as_actual_velocity_rad_s s)
                           (dmul alpha (dsub (as_target_velocity_rad_s s) (as_actual_velocity_rad_s s))) in
         s <| as_actual_velocity_rad_s := velocity |>
           <| as_target_position_rad := dadd (as_target_position_rad s) (dmul (as_target_velocity_rad_s s) dt) |>
           <| as_actual_position_rad := dadd (as_actual_position_rad s) (dmul velocity dt) |> |>.

Definition tick_limits (a : MockActuatorProfile) : MockActuatorProfile :=
  let s := ma_snapshot a in
  let lo := ac_min_position_rad (ma_config a) in
  let hi := ac_max_position_rad (ma_config a) in
  if dlt hi (as_target_position_rad s) || dlt hi (as_actual_position_rad s) then
    actuator_raise_fault AFault.SoftLimitPositive false
      (a <| ma_snapshot ::= λ s, s <| as_target_position_rad := hi |>
           <| as_actual_position_rad := dmin (as_actual_position_rad s) hi |> |>)
  else if dlt (as_target_position_rad s) lo || dlt (as_actual_position_rad s) lo then
    actuator_raise_fault AFault.SoftLimitNegative false
      (a <| ma_snapshot ::= λ s, s <| as_target_position_rad := lo |>
           <| as_actual_position_rad := dmax (as_actual_position_rad s) lo |> |>)
  else a.

Definition tick_tracking (a : MockActuatorProfile) : MockActuatorProfile :=
  if (as_state (ma_snapshot a) ==? AState.Running) &&
     dlt (ac_tracking_error_threshold_rad (ma_config a)) (dabs (as_position_error_rad (ma_snapshot a))) then
    let a := a <| ma_tracking_error_count ::= λ n, u32 (n + 1) |> in
    if ac_tracking_error_cycles (ma_config a) <=? ma_tracking_error_count a then
      actuator_raise_fault AFault.TrackingError false a
    else a
  else a <| ma_tracking_error_count := 0 |>.

Definition tick_stopped (a : MockActuatorProfile) : MockActuatorProfile :=
  if (as_state (ma_snapshot a) ==? AState.Stopping) &&
     dle (dabs (as_actual_velocity_rad_s (ma_snapshot a))) (ac_stopped_velocity_epsilon_rad_s (ma_config a)) then
    a <| ma_snapshot ::= λ s,
           let s := s <| as_actual_velocity_rad_s := dzero |> <| as_target_velocity_rad_s := dzero |>
                      <| as_target_position_rad := as_actual_position_rad s |> <| as_motion_mode := Motion.None |> in
           if ma_disable_after_stop a then
             s <| as_drive_enabled := false |> <| as_homed := false |> <| as_state := AState.Disabled |>
           else s <| as_state := if as_homed s then AState.Ready else AState.Idle |> |>
      <| ma_disable_after_stop := false |> <| ma_quick_stopping := false |>
  else a.

Definition tick (elapsed : Z) (a : MockActuatorProfile) : MockActuatorProfile :=
  if elapsed <=? 0 then a
  else
    let a := tick_deadman (advance_clock elapsed a) in
    if homing_done a then finish_homing a
    else
      let a := update_snapshot_errors (tick_limits (tick_physics elapsed a)) in
      update_snapshot_errors (tick_stopped (tick_tracking a)).

(** ** Runs *)

Inductive ActuatorOp :=
  | OpEnable | OpDisable | OpHome | OpVelocity (v : double) | OpNormalStop | OpQuickStop
  | OpJogPress (direction : Z) (v : double) | OpJogRenew (token : Z) | OpJogRelease (token : Z) | OpReset
  | OpInject (reason : ActuatorFaultReason) (persistent : bool) | OpClearBlocker | OpTick (elapsed : Z).

Definition command_of (op : ActuatorOp) : option Command :=
  match op with
  | OpEnable => Some drive_enable
  | OpDisable => Some drive_disable
  | OpHome => Some home
  | OpVelocity v => Some (start_velocity v)
  | OpNormalStop => Some normal_stop
  | OpQuickStop => Some quick_stop
  | OpJogPress d v => Some (jog_press d v)
  | OpJogRenew t => Some (jog_renew t)
  | OpJogRelease t => Some (jog_release t)
  | OpReset => Some reset_fault
  | _ => None
  end.

Definition actuator_step (op : ActuatorOp) (a : MockActuatorProfile) : option ActuatorCommandReply * MockActuatorProfile :=
  match op with
  | OpInject reason persistent => (None, inject_fault reason persistent a)
  | OpClearBlocker => (None, clear_injected_blocker a)
  | OpTick elapsed => (None, tick elapsed a)
  | _ => match command_of op with
         | Some f => let '(r, a) := f a in (Some r, a)
         | None => (None, a)
         end
  end.

Definition actuator_run (ops : list ActuatorOp) (a : MockActuatorProfile) : MockActuatorProfile :=
  foldl (λ a op, snd (actuator_step op a)) a ops.

(** ** The invariant *)

(** What belongs to each state: the drive, the reference, the commanded velocity, the motion,
    the jog token, the fault and a disable that waits for the end of a stop. *)
Definition state_inv (a : MockActuatorProfile) : Prop :=
  let s := ma_snapshot a in
  let still enabled homed :=
    as_drive_enabled s = enabled ∧ as_homed s = homed ∧ as_target_velocity_rad_s s = dzero ∧
    as_motion_mode s = Motion.None ∧ as_active_jog_token s = 0 ∧ ma_disable_after_stop a = false in
  match as_state s with
  | AState.Disabled => still false false ∧ as_fault s = AFault.None
  | AState.Idle => still true false ∧ as_fault s = AFault.None
  | AState.Ready => still true true ∧ as_fault s = AFault.None
  | AState.Fault => still false false ∧ as_fault s ≠ AFault.None
  | AState.Homing =>
      as_drive_enabled s = true ∧ as_homed s = false ∧ as_motion_mode s = Motion.Homing ∧
      as_active_jog_token s = 0 ∧ ma_disable_after_stop a = false ∧ as_fault s = AFault.None
  | AState.Running =>
      as_drive_enabled s = true ∧ as_homed s = true ∧ ma_disable_after_stop a = false ∧ as_fault s = AFault.None ∧
      (as_motion_mode s = Motion.Velocity ∧ as_active_jog_token s = 0 ∨
       is_jog (as_motion_mode s) = true ∧ as_active_jog_token s ≠ 0)
  | AState.Stopping =>
      as_drive_enabled s = true ∧ as_target_velocity_rad_s s = dzero ∧ as_motion_mode s = Motion.None ∧
      as_active_jog_token s = 0 ∧ as_fault s = AFault.None ∧ (ma_disable_after_stop a = true → as_homed s = false)
  end.

(** [n] bounds the commands so far, so that the generation has not wrapped. *)
Definition actuator_inv (c : MockActuatorConfig) (n : Z) (a : MockActuatorProfile) : Prop :=
  ma_config a = c ∧ as_configured (ma_snapshot a) = configuration_valid c ∧
  (configuration_valid c = false → as_state (ma_snapshot a) = AState.Fault) ∧
  0 ≤ as_command_generation (ma_snapshot a) ≤ n ∧ state_inv a.

(** What the pieces of [tick] and the replies leave alone. *)
Definition same_control (a b : MockActuatorProfile) : Prop :=
  let s := ma_snapshot a in
  let t := ma_snapshot b in
  ma_config b = ma_config a ∧ as_configured t = as_configured s ∧ as_state t = as_state s ∧
  as_motion_mode t = as_motion_mode s ∧ as_fault t = as_fault s ∧ as_drive_enabled t = as_drive_enabled s ∧
  as_homed t = as_homed s ∧ as_target_velocity_rad_s t = as_target_velocity_rad_s s ∧
  as_command_generation t = as_command_generation s ∧ as_active_jog_token t = as_active_jog_token s ∧
  ma_jog_deadline_ns b = ma_jog_deadline_ns a ∧ ma_jog_max_deadline_ns b = ma_jog_max_deadline_ns a ∧
  ma_disable_after_stop b = ma_disable_after_stop a.

#[export] Instance same_control_equiv : Equivalence same_control.
Proof.
  split; unfold same_control; [intros a|intros a b ?|intros a b d ? ?]; destruct_and?; split_and!; congruence.
Qed.

Lemma same_control_inv c n a b : same_control a b → actuator_inv c n a → actuator_inv c n b.
Proof.
  unfold same_control, actuator_inv, state_inv.
  intros (Hc & Hf & Hs & Hm & Hft & He & Hh & Ht & Hg & Htok & _ & _ & Hd).
  by rewrite Hc, Hf, Hs, Hm, Hft, He, Hh, Ht, Hg, Htok, Hd.
Qed.

Lemma update_errors_same a : same_control a (update_snapshot_errors a).
Proof. done. Qed.
Lemma physics_same elapsed a : same_control a (tick_physics elapsed a).
Proof. done. Qed.
Lemma clock_same elapsed a : same_control a (advance_clock elapsed a).
Proof. done. Qed.

Lemma raise_fault_inv c n a reason persistent :
  reason ≠ AFault.None → actuator_inv c n a → actuator_inv c n (actuator_raise_fault reason persistent a).
Proof. intros Hr (Hc & Hf & Hv & Hg & _). unfold actuator_inv, state_inv. cbn. split_and!; done || lia. Qed.

Lemma begin_stop_inv c n a quick disable :
  actuator_inv c n a → as_drive_enabled (ma_snapshot a) = true → (disable = true → as_homed (ma_snapshot a) = false) →
  actuator_inv c n (begin_stop quick disable a).
Proof.
  intros (Hc & Hf & Hv & Hg & Hs) He Hd. unfold state_inv in Hs.
  assert (Hnf : as_state (ma_snapshot a) ≠ AState.Fault) by (intros Hst; rewrite Hst in Hs; destruct_and!; congruence).
  unfold actuator_inv, state_inv. cbn. split_and!; try done; try lia.
  - by intros Hv'%Hv.
  - destruct (as_state (ma_snapshot a)); by destruct_and?.
Qed.

Lemma inv_enabled c n a : actuator_inv c n a →
  as_drive_enabled (ma_snapshot a) =
    negb ((as_state (ma_snapshot a) ==? AState.Disabled) || (as_state (ma_snapshot a) ==? AState.Fault)).
Proof. intros (_ & _ & _ & _ & Hs). unfold state_inv in Hs. by destruct (as_state (ma_snapshot a)); destruct_and?. Qed.

Lemma next_generation_inv c n a : n < 2 ^ 64 - 1 → actuator_inv c n a → actuator_inv c (n + 1) (next_generation a).
Proof.
  intros Hn (Hc & Hf & Hv & Hg & Hs). unfold actuator_inv. cbn. split_and!; try done; unfold incr64;
    rewrite u64_small by (unfold is_u; lia); lia.
Qed.

Lemma inv_mono c n m a : n ≤ m → actuator_inv c n a → actuator_inv c m a.
Proof. unfold actuator_inv. intros ? (? & ? & ? & ? & ?). split_and!; try done; lia. Qed.

Lemma accept_inv c n from m token a : actuator_inv c n a → actuator_inv c n (snd (accept from m token a)).
Proof. by apply same_control_inv. Qed.
Lemma reject_inv c n status from m a : actuator_inv c n a → actuator_inv c (n + 1) (snd (actuator_reject status from m a)).
Proof. intros H. eapply inv_mono; [|by eapply same_control_inv; [|exact H]]. lia. Qed.

Lemma next_generation_value c n a :
  n < 2 ^ 64 - 1 → actuator_inv c n a →
  incr64 (as_command_generation (ma_snapshot a)) = as_command_generation (ma_snapshot a) + 1.
Proof. intros Hn (_ & _ & _ & Hg & _). unfold incr64. rewrite u64_small; [done|]. unfold is_u. lia. Qed.

(** Opens the invariant at the state of [a] and closes what each state leaves to show. *)
Ltac open_state a :=
  unfold actuator_inv, state_inv in *; cbn in *; destruct (as_state (ma_snapshot a)) eqn:?; cbn in *; destruct_and?.
Ltac close_state :=
  cbn; split_and?; intros; first [done|congruence|lia|by left|
    match goal with Hv : ?P → _, Hp : ?P |- _ => by specialize (Hv Hp) end].

Create HintDb actuator.
#[export] Hint Resolve reject_inv raise_fault_inv : actuator.

(** A command preserves the invariant. *)
Definition command_keeps (c : MockActuatorConfig) (n : Z) (f : Command) : Prop :=
  ∀ a, actuator_inv c n a → actuator_inv c (n + 1) (snd (f a)).

Section Commands.
Context (c : MockActuatorConfig) (n : Z).
Hypothesis Hn : n < 2 ^ 64 - 1.
Implicit Type a : MockActuatorProfile.

Lemma drive_enable_inv : command_keeps c n drive_enable.
Proof.
  intros a Ha. pose proof (next_generation_value c n a Hn Ha) as Hg. unfold drive_enable.
  destruct (as_configured _) eqn:Hcf; cbn [negb]; [|eauto with actuator].
  case_bool_decide as H1; [eauto with actuator|]. case_bool_decide as H2; cbn [negb]; [|eauto with actuator].
  apply accept_inv. open_state a; try done. rewrite Hg. destruct (as_homed _); [done|]. close_state.
Qed.

Lemma drive_disable_inv : command_keeps c n drive_disable.
Proof.
  intros a Ha. pose proof (next_generation_value c n a Hn Ha) as Hg. unfold drive_disable. case_bool_decide as H1.
  - apply accept_inv. open_state a; try done. close_state.
  - case_bool_decide as H2; [eauto with actuator|].
    destruct (_ || _) eqn:Hm; apply accept_inv; unfold begin_stop; bools; unfold in_motion in *;
      open_state a; try done; rewrite Hg; close_state.
Qed.

Lemma home_inv : command_keeps c n home.
Proof.
  intros a Ha. pose proof (next_generation_value c n a Hn Ha) as Hg. unfold home.
  destruct (_ || _) eqn:Hm; [eauto with actuator|]. bools. apply accept_inv.
  open_state a; try done; rewrite ?Hg; close_state.
Qed.

Lemma start_motion_inv mode v a :
  actuator_inv c n a → ready_to_move (ma_snapshot a) = true → mode = Motion.Velocity →
  actuator_inv c (n + 1) (start_motion mode v (next_generation a)).
Proof.
  intros Ha Hr ->. pose proof (next_generation_value c n a Hn Ha) as Hg. unfold ready_to_move in Hr. bools.
  unfold start_motion, next_generation. open_state a; try done. rewrite Hg. close_state.
Qed.

Lemma start_velocity_inv v : command_keeps c n (start_velocity v).
Proof.
  intros a Ha. unfold start_velocity. destruct (_ || dlt _ _); [eauto with actuator|].
  destruct (ready_to_move _) eqn:Hr; cbn [negb]; [|eauto with actuator].
  destruct (_ || _); [|by apply accept_inv, start_motion_inv].
  apply reject_inv, raise_fault_inv; [by destruct (dlt dzero v)|done].
Qed.

Lemma stop_inv quick a :
  actuator_inv c n a → in_motion (as_state (ma_snapshot a)) = true →
  actuator_inv c (n + 1) (begin_stop quick false (next_generation a)).
Proof.
  intros Ha Hm. apply begin_stop_inv; [by apply next_generation_inv|cbn|done].
  rewrite (inv_enabled _ _ _ Ha). unfold in_motion in Hm. by destruct (as_state _).
Qed.

Lemma normal_stop_inv : command_keeps c n normal_stop.
Proof.
  intros a Ha. unfold normal_stop. case_bool_decide as H1; [eapply inv_mono; [|by apply accept_inv]; lia|].
  destruct (_ && _) eqn:Hm; [eauto with actuator|]. apply accept_inv, stop_inv; [done|].
  unfold in_motion. by destruct (as_state _).
Qed.

Lemma quick_stop_inv : command_keeps c n quick_stop.
Proof.
  intros a Ha. unfold quick_stop. destruct (in_motion _) eqn:Hm; cbn [negb]; [|eauto with actuator].
  by apply accept_inv, stop_inv.
Qed.

Lemma jog_press_inv d v : command_keeps c n (jog_press d v).
Proof.
  intros a Ha. pose proof (next_generation_value c n a Hn Ha) as Hg. unfold jog_press.
  destruct (_ || dlt _ _); [eauto with actuator|]. destruct (ready_to_move _) eqn:Hr; cbn [negb]; [|eauto with actuator].
  destruct (at_limit _ a); [apply reject_inv, raise_fault_inv; [by destruct (0 <? d)|done]|].
  apply accept_inv. unfold ready_to_move in Hr. bools. unfold start_motion, next_generation.
  open_state a; try done. rewrite Hg. cbn.
  split_and!; [..|right; split; [by destruct (0 <? d)|lia]]; close_state.
Qed.

Lemma jog_renew_inv token : command_keeps c n (jog_renew token).
Proof.
  intros a Ha. unfold jog_renew. destruct (_ || negb (is_jog _)) eqn:Hg; [eauto with actuator|]. bools.
  pose proof (inv_enabled _ _ _ Ha) as He. destruct (_ <=? _).
  - apply reject_inv, begin_stop_inv; [done| |done]. rewrite He. by destruct (as_state _).
  - apply (inv_mono c n); [lia|]. by apply accept_inv.
Qed.

Lemma jog_release_inv token : command_keeps c n (jog_release token).
Proof.
  intros a Ha. unfold jog_release. destruct (_ || _) eqn:Ht; [eauto with actuator|]. bools.
  apply accept_inv, stop_inv; [done|]. unfold in_motion. open_state a; try done; congruence.
Qed.

Lemma reset_fault_inv : command_keeps c n reset_fault.
Proof.
  intros a Ha. pose proof (next_generation_value c n a Hn Ha) as Hg. unfold reset_fault.
  case_bool_decide as H1; cbn [negb]; [|eauto with actuator]. destruct (_ || _) eqn:Hb; [eauto with actuator|].
  destruct (dlt _ _); [eauto with actuator|]. bools. apply accept_inv. open_state a; try done. rewrite Hg. close_state.
Qed.
End Commands.

(** ** Ticks *)

Lemma tick_deadman_inv c n a : actuator_inv c n a → actuator_inv c n (tick_deadman a).
Proof.
  intros Ha. unfold tick_deadman. destruct (jog_expired a) eqn:Hj; [|done]. unfold jog_expired in Hj. bools.
  eapply same_control_inv; [|apply (begin_stop_inv c n a false false)]; try done.
  rewrite (inv_enabled _ _ _ Ha). by destruct (as_state _).
Qed.

Lemma finish_homing_inv c n a : actuator_inv c n a → homing_done a = true → actuator_inv c n (finish_homing a).
Proof. intros Ha Hd. unfold homing_done in Hd. bools. unfold finish_homing. open_state a; try done. close_state. Qed.

Lemma tick_limits_inv c n a : actuator_inv c n a → actuator_inv c n (tick_limits a).
Proof.
  intros Ha. unfold tick_limits. destruct (_ || _); [|destruct (_ || _); [|done]]; by apply raise_fault_inv.
Qed.

Lemma tick_tracking_inv c n a : actuator_inv c n a → actuator_inv c n (tick_tracking a).
Proof. intros Ha. unfold tick_tracking. destruct (_ && _); [|done]. destruct (_ <=? _); [by apply raise_fault_inv|done]. Qed.

Lemma tick_stopped_inv c n a : actuator_inv c n a → actuator_inv c n (tick_stopped a).
Proof.
  intros Ha. unfold tick_stopped. destruct (_ && _) eqn:Hd; [|done]. bools.
  destruct (ma_disable_after_stop a) eqn:Hda; open_state a; try done; [close_state|].
  destruct (as_homed _) eqn:?; close_state.
Qed.

Lemma tick_inv c n a elapsed : actuator_inv c n a → actuator_inv c n (tick elapsed a).
Proof.
  intros Ha. unfold tick. destruct (elapsed <=? 0); [done|].
  assert (Hd : actuator_inv c n (tick_deadman (advance_clock elapsed a))) by (by apply tick_deadman_inv).
  destruct (homing_done _) eqn:Hh; [by apply finish_homing_inv|].
  eapply same_control_inv; [apply update_errors_same|]. apply tick_stopped_inv, tick_tracking_inv.
  eapply same_control_inv; [apply update_errors_same|]. by apply tick_limits_inv.
Qed.

Lemma actuator_step_inv c n op a :
  n < 2 ^ 64 - 1 → actuator_inv c n a → actuator_inv c (n + 1) (snd (actuator_step op a)).
Proof.
  intros Hn Ha.
  assert (Hcmd : ∀ f, command_keeps c n f → actuator_inv c (n + 1) (snd (let '(r, b) := f a in (Some r, b)))).
  { intros f Hf. specialize (Hf a Ha). by destruct (f a). }
  destruct op; cbn; try (apply Hcmd); try (eapply inv_mono; [apply Z.le_succ_diag_r|]);
    auto using drive_enable_inv, drive_disable_inv, home_inv, start_velocity_inv, normal_stop_inv, quick_stop_inv,
      jog_press_inv, jog_renew_inv, jog_release_inv, reset_fault_inv, tick_inv.
  unfold inject_fault. case_bool_decide; [done|by apply raise_fault_inv].
Qed.

Lemma actuator_new_inv c : actuator_inv c 0 (actuator_new c).
Proof.
  unfold actuator_new. destruct (configuration_valid c) eqn:Hv; unfold actuator_inv, state_inv; cbn; rewrite Hv;
    by split_and!.
Qed.

Lemma actuator_run_inv c n a ops :
  n + Z.of_nat (length ops) < 2 ^ 64 → actuator_inv c n a →
  actuator_inv c (n + Z.of_nat (length ops)) (actuator_run ops a).
Proof.
  revert n a. induction ops as [|op ops IH]; intros n a Hn Ha; cbn in *; [by rewrite Z.add_0_r|].
  replace (n + Z.of_nat (S (length ops))) with ((n + 1) + Z.of_nat (length ops)) by lia.
  apply IH; [lia|]. apply actuator_step_inv; [lia|done].
Qed.

(** ** Authority *)

Lemma reachable_inv c ops :
  Z.of_nat (length ops) < 2 ^ 64 →
  actuator_inv c (Z.of_nat (length ops)) (actuator_run ops (actuator_new c)).
Proof. intros Hn. apply (actuator_run_inv c 0); [lia|apply actuator_new_inv]. Qed.

(** C28.  Motion needs authority: after any sequence of commands, fault injections and ticks, the
    drive is enabled exactly outside DISABLED and FAULT; a velocity is commanded only while
    RUNNING or HOMING; a jog token is out exactly while a jog is running; a fault reason is
    shown exactly in FAULT, and an invalid configuration never leaves it. *)
Theorem actuator_authority c ops :
  Z.of_nat (length ops) < 2 ^ 64 →
  let s := ma_snapshot (actuator_run ops (actuator_new c)) in
  (as_drive_enabled s = true ↔ as_state s ≠ AState.Disabled ∧ as_state s ≠ AState.Fault) ∧
  (as_target_velocity_rad_s s ≠ dzero → as_state s = AState.Running ∨ as_state s = AState.Homing) ∧
  (as_active_jog_token s ≠ 0 ↔ as_state s = AState.Running ∧ is_jog (as_motion_mode s) = true) ∧
  (as_fault s ≠ AFault.None ↔ as_state s = AState.Fault) ∧
  (configuration_valid c = false → as_state s = AState.Fault).
Proof.
  intros Hn. pose proof (reachable_inv c ops Hn) as (_ & _ & Hv & _ & Hs). cbv zeta.
  set (a := actuator_run ops (actuator_new c)) in *. clearbody a. unfold state_inv in Hs.
  destruct (as_state (ma_snapshot a)); destruct_and?; destruct_or?; destruct_and?; simplify_eq;
    repeat match goal with E : _ = _ |- _ => rewrite E end; split_and!; try done; naive_solver.
Qed.

(** ** The state diagram *)

(** The edges each operation may take; every refusal stays. *)
Inductive transition : ActuatorOp → ActuatorState → ActuatorState → Prop :=
  | t_stay op s : transition op s s
  | t_enable : transition OpEnable AState.Disabled AState.Idle
  | t_disable s : s = AState.Idle ∨ s = AState.Ready → transition OpDisable s AState.Disabled
  | t_disable_stop s : s ≠ AState.Disabled → s ≠ AState.Fault → transition OpDisable s AState.Stopping
  | t_home s : s = AState.Idle ∨ s = AState.Ready → transition OpHome s AState.Homing
  | t_velocity v : transition (OpVelocity v) AState.Ready AState.Running
  | t_velocity_limit v : transition (OpVelocity v) AState.Ready AState.Fault
  | t_jog d v : transition (OpJogPress d v) AState.Ready AState.Running
  | t_jog_limit d v : transition (OpJogPress d v) AState.Ready AState.Fault
  | t_normal_stop s : s = AState.Running ∨ s = AState.Homing → transition OpNormalStop s AState.Stopping
  | t_quick_stop s : s = AState.Running ∨ s = AState.Homing → transition OpQuickStop s AState.Stopping
  | t_renew_late k : transition (OpJogRenew k) AState.Running AState.Stopping
  | t_release k : transition (OpJogRelease k) AState.Running AState.Stopping
  | t_reset : transition OpReset AState.Fault AState.Disabled
  | t_inject reason p s : reason ≠ AFault.None → transition (OpInject reason p) s AState.Fault
  | t_homed e : transition (OpTick e) AState.Homing AState.Ready
  | t_jog_expired e : transition (OpTick e) AState.Running AState.Stopping
  | t_jog_expired_still e : transition (OpTick e) AState.Running AState.Ready
  | t_stopped e s : s = AState.Ready ∨ s = AState.Idle ∨ s = AState.Disabled → transition (OpTick e) AState.Stopping s
  | t_tick_fault e s : transition (OpTick e) s AState.Fault.

#[export] Hint Constructors transition : actuator.

Lemma ready_state s : ready_to_move s = true → as_state s = AState.Ready.
Proof. unfold ready_to_move. intros. by bools. Qed.

(** The state after the parts of a tick that follow the physics. *)
Lemma tick_limits_state a : as_state (ma_snapshot (tick_limits a)) = as_state (ma_snapshot a) ∨
  as_state (ma_snapshot (tick_limits a)) = AState.Fault.
Proof. unfold tick_limits. destruct (_ || _); [by right|]. destruct (_ || _); [by right|by left]. Qed.

Lemma tick_tracking_state a : as_state (ma_snapshot (tick_tracking a)) = as_state (ma_snapshot a) ∨
  as_state (ma_snapshot (tick_tracking a)) = AState.Fault.
Proof. unfold tick_tracking. destruct (_ && _); [|by left]. destruct (_ <=? _); [by right|by left]. Qed.

(** A stop ends in the state that the reference and a waiting disable ask for. *)
Definition stop_target (a : MockActuatorProfile) : ActuatorState :=
  if ma_disable_after_stop a then AState.Disabled
  else if as_homed (ma_snapshot a) then AState.Ready else AState.Idle.

Lemma tick_stopped_state a :
  as_state (ma_snapshot (tick_stopped a)) = as_state (ma_snapshot a) ∨
  as_state (ma_snapshot a) = AState.Stopping ∧ as_state (ma_snapshot (tick_stopped a)) = stop_target a.
Proof.
  unfold tick_stopped, stop_target. destruct (_ && _) eqn:H; [|by left]. bools. right. split; [done|]. cbn.
  by destruct (ma_disable_after_stop a).
Qed.

(** Unless it faults, a piece of the tick keeps the reference and the waiting disable. *)
Definition keeps_stop (a b : MockActuatorProfile) : Prop :=
  as_state (ma_snapshot b) = AState.Fault ∨
  as_state (ma_snapshot b) = as_state (ma_snapshot a) ∧ as_homed (ma_snapshot b) = as_homed (ma_snapshot a) ∧
  ma_disable_after_stop b = ma_disable_after_stop a.

Lemma tick_rest_keeps elapsed a :
  keeps_stop a (tick_tracking (update_snapshot_errors (tick_limits (tick_physics elapsed a)))).
Proof.
  assert (Hl : keeps_stop a (update_snapshot_errors (tick_limits (tick_physics elapsed a)))).
  { unfold tick_limits. destruct (_ || _); [by left|]. destruct (_ || _); [by left|by right]. }
  set (b := update_snapshot_errors _) in *. clearbody b. unfold tick_tracking. destruct (_ && _); [|done].
  destruct (_ <=? _); [by left|done].
Qed.

Lemma update_errors_state a :
  as_state (ma_snapshot (update_snapshot_errors a)) = as_state (ma_snapshot a) ∧
  as_actual_position_rad (ma_snapshot (update_snapshot_errors a)) = as_actual_position_rad (ma_snapshot a).
Proof. done. Qed.

Lemma tick_state elapsed a : 0 < elapsed →
  let b := tick_deadman (advance_clock elapsed a) in
  let t := as_state (ma_snapshot (tick elapsed a)) in
  if homing_done b then as_state (ma_snapshot b) = AState.Homing ∧ t = AState.Ready
  else t = AState.Fault ∨ t = as_state (ma_snapshot b) ∨ as_state (ma_snapshot b) = AState.Stopping ∧ t = stop_target b.
Proof.
  intros He. cbv zeta. unfold tick. rewrite (proj2 (Z.leb_gt _ _)) by lia.
  generalize (tick_deadman (advance_clock elapsed a)). intros b.
  destruct (homing_done b) eqn:Hh; [unfold homing_done in Hh; bools; by split|].
  generalize (tick_rest_keeps elapsed b).
  generalize (tick_tracking (update_snapshot_errors (tick_limits (tick_physics elapsed b)))). intros d Hk.
  rewrite (proj1 (update_errors_state _)).
  destruct (tick_stopped_state d) as [->|[Hs ->]].
  - destruct Hk as [->|[-> _]]; auto.
  - right; right. unfold stop_target. destruct Hk as [Hk|(Hk & Hh' & Hd)]; [congruence|]. by rewrite Hh', Hd, <- Hk.
Qed.

Lemma deadman_state a :
  let b := tick_deadman a in
  ma_snapshot b = ma_snapshot a ∧ ma_disable_after_stop b = ma_disable_after_stop a ∨
  as_state (ma_snapshot a) = AState.Running ∧ as_state (ma_snapshot b) = AState.Stopping ∧
  as_homed (ma_snapshot b) = as_homed (ma_snapshot a) ∧ ma_disable_after_stop b = false.
Proof. unfold tick_deadman. destruct (jog_expired a) eqn:H; [|by left]. unfold jog_expired in H. bools. by right. Qed.

Lemma tick_transition c n elapsed a : actuator_inv c n a →
  transition (OpTick elapsed) (as_state (ma_snapshot a)) (as_state (ma_snapshot (tick elapsed a))).
Proof.
  intros Ha. destruct (Z_le_gt_dec elapsed 0) as [He|He].
  { unfold tick. rewrite (proj2 (Z.leb_le _ _)) by lia. constructor. }
  pose proof (tick_state elapsed a ltac:(lia)) as Ht. cbv zeta in Ht.
  destruct (deadman_state (advance_clock elapsed a)) as [[Hs Hd]|(Hr & Hs & Hh & Hd)].
  - set (b := tick_deadman _) in *. clearbody b. change (ma_snapshot (advance_clock elapsed a)) with (ma_snapshot a) in Hs.
    rewrite Hs in Ht. destruct (homing_done b); [destruct Ht as [-> ->]; constructor|].
    destruct Ht as [->|[->|[-> ->]]]; [constructor..|]. constructor. unfold stop_target.
    destruct (ma_disable_after_stop b); [auto|]. destruct (as_homed (ma_snapshot b)); auto.
  - change (ma_snapshot (advance_clock elapsed a)) with (ma_snapshot a) in Hr, Hh. rewrite Hr.
    set (b := tick_deadman _) in *. clearbody b. destruct (homing_done b); [destruct Ht; congruence|].
    destruct Ht as [->|[->|[_ ->]]]; [constructor|rewrite Hs; constructor|].
    unfold stop_target. rewrite Hd, Hh. destruct Ha as (_ & _ & _ & _ & Hinv). unfold state_inv in Hinv.
    rewrite Hr in Hinv. destruct Hinv as (_ & -> & _). constructor.
Qed.

Lemma command_step op f a : command_of op = Some f → actuator_step op a = (Some (fst (f a)), snd (f a)).
Proof. intros Hf. destruct op; try done; cbn in *; injection Hf as <-; by case_match. Qed.

Lemma command_transition c n op f a :
  command_of op = Some f → actuator_inv c n a →
  transition op (as_state (ma_snapshot a)) (as_state (ma_snapshot (snd (f a)))).
Proof.
  intros Hf Ha. destruct op; try done; injection Hf as <-.
  - unfold drive_enable. destruct (negb _); [constructor|]. case_bool_decide; [constructor|].
    case_bool_decide as Hs; cbn [negb]; [|constructor].
    destruct Ha as (_ & _ & _ & _ & Hi). unfold state_inv in Hi. rewrite Hs in Hi. destruct Hi as ((_ & Hh & _) & _).
    cbn. rewrite Hs, Hh. constructor.
  - unfold drive_disable. case_bool_decide; [constructor|]. case_bool_decide; [constructor|].
    destruct (_ || _) eqn:Hm; cbn; [by constructor|]. bools. unfold in_motion in *. constructor.
    by destruct (as_state _); auto.
  - unfold home. destruct (_ || _) eqn:Hm; [constructor|]. bools. cbn. constructor. by destruct (as_state _); auto.
  - unfold start_velocity. destruct (_ || _); [constructor|].
    destruct (ready_to_move _) eqn:Hr; cbn [negb]; [|constructor]. rewrite (ready_state _ Hr).
    destruct (_ || _); constructor.
  - unfold normal_stop. case_bool_decide; [constructor|]. destruct (_ && _) eqn:Hm; [constructor|]. cbn. constructor.
    by destruct (as_state _); auto.
  - unfold quick_stop. destruct (in_motion _) eqn:Hm; cbn [negb]; [|constructor]. cbn.
    unfold in_motion in Hm. destruct (as_state _); try done; constructor; auto.
  - unfold jog_press. destruct (_ || _); [constructor|]. destruct (ready_to_move _) eqn:Hr; cbn [negb]; [|constructor].
    rewrite (ready_state _ Hr). destruct (at_limit _ _); constructor.
  - unfold jog_renew. destruct (_ || _) eqn:Hg; [constructor|]. bools. destruct (_ <=? _); [|constructor]. cbn.
    by destruct (as_state _); try constructor.
  - unfold jog_release. destruct (_ || _) eqn:Hg; [constructor|]. bools. cbn. open_state a; try constructor; congruence.
  - unfold reset_fault. case_bool_decide as Hs; cbn [negb]; [|constructor]. destruct (_ || _); [constructor|].
    destruct (dlt _ _); [constructor|]. cbn. rewrite Hs. constructor.
Qed.

(** The profile keeps to its state diagram: after any sequence of operations, the next one
    either leaves the state or takes one of the edges [transition] lists for it.  Running is
    entered from READY only, HOMING from IDLE or READY only, DISABLED goes only to IDLE,
    and FAULT only to DISABLED, by a reset; a tick never starts a motion. *)
Theorem actuator_follows_diagram c ops op :
  Z.of_nat (length ops) < 2 ^ 64 →
  let a := actuator_run ops (actuator_new c) in
  transition op (as_state (ma_snapshot a)) (as_state (ma_snapshot (snd (actuator_step op a)))).
Proof.
  intros Hn. pose proof (reachable_inv c ops Hn) as Ha. cbv zeta. set (a := actuator_run _ _) in *. clearbody a.
  destruct (command_of op) as [f|] eqn:Hf.
  - rewrite (command_step op f a Hf). by eapply command_transition.
  - destruct op; try done; cbn.
    + unfold inject_fault. case_bool_decide; constructor. done.
    + constructor.
    + by eapply tick_transition.
Qed.

(** ** The jog dead-man *)

(** When the running jog was pressed, and when its lease was last granted. *)
Record JogTimes := mkJogTimes { jt_pressed : Z; jt_granted : Z }.

Definition jog_times (op : ActuatorOp) (a : MockActuatorProfile) (g : JogTimes) : JogTimes :=
  let now := ma_monotonic_elapsed_ns a in
  match op, fst (actuator_step op a) with
  | OpJogPress _ _, Some r => if reply_accepted r then mkJogTimes now now else g
  | OpJogRenew _, Some r => if reply_accepted r then mkJogTimes (jt_pressed g) now else g
  | _, _ => g
  end.

Definition jog_run (ops : list ActuatorOp) (x : MockActuatorProfile * JogTimes) : MockActuatorProfile * JogTimes :=
  foldl (λ '(a, g) op, (snd (actuator_step op a), jog_times op a g)) x ops.

Lemma jog_run_fst ops : ∀ a g, fst (jog_run ops (a, g)) = actuator_run ops a.
Proof. induction ops as [|op ops IH]; intros a g; [done|]. apply IH. Qed.

Definition jog_inv (x : MockActuatorProfile * JogTimes) : Prop :=
  let '(a, g) := x in
  as_active_jog_token (ma_snapshot a) ≠ 0 →
  ma_jog_deadline_ns a ≤ jt_granted g + to_ns (ac_jog_deadman (ma_config a)) ∧
  ma_jog_max_deadline_ns a = jt_pressed g + to_ns (ac_max_continuous_jog (ma_config a)).

(** Whatever else happens, a token that is still out was out before, with the same deadlines. *)
Definition jog_kept (a b : MockActuatorProfile) : Prop :=
  as_active_jog_token (ma_snapshot b) ≠ 0 →
  as_active_jog_token (ma_snapshot a) ≠ 0 ∧ ma_jog_deadline_ns b = ma_jog_deadline_ns a ∧
  ma_jog_max_deadline_ns b = ma_jog_max_deadline_ns a ∧ ma_config b = ma_config a.

#[export] Instance jog_kept_preorder : PreOrder jog_kept.
Proof.
  split; [by intros a|]. intros a b d H1 H2 Hd. destruct (H2 Hd) as (Hb & E1 & E2 & E3). destruct (H1 Hb) as (Ha & ? & ? & ?).
  split_and!; congruence.
Qed.

Lemma same_control_kept a b : same_control a b → jog_kept a b.
Proof. intros H Hb. unfold same_control in H. destruct_and!. split_and!; congruence. Qed.

(** Everything of a tick after the clock and the dead-man. *)
Definition tick_rest (elapsed : Z) (a : MockActuatorProfile) : MockActuatorProfile :=
  if homing_done a then finish_homing a
  else update_snapshot_errors (tick_stopped (tick_tracking (update_snapshot_errors (tick_limits (tick_physics elapsed a))))).

Lemma tick_unfold elapsed a :
  tick elapsed a = if elapsed <=? 0 then a else tick_rest elapsed (tick_deadman (advance_clock elapsed a)).
Proof. done. Qed.

Definition jog_kept_now (a b : MockActuatorProfile) : Prop :=
  jog_kept a b ∧ ma_monotonic_elapsed_ns b = ma_monotonic_elapsed_ns a.

#[export] Instance jog_kept_now_preorder : PreOrder jog_kept_now.
Proof. split; [done|]. intros a b d [H1 E1] [H2 E2]. split; [by transitivity b|congruence]. Qed.

Lemma tick_rest_kept elapsed a : jog_kept_now a (tick_rest elapsed a).
Proof.
  unfold tick_rest. destruct (homing_done a); [done|].
  assert (Hl : jog_kept_now a (update_snapshot_errors (tick_limits (tick_physics elapsed a)))).
  { unfold tick_limits. destruct (_ || _); [done|]. by destruct (_ || _). }
  etransitivity; [exact Hl|]. generalize (update_snapshot_errors (tick_limits (tick_physics elapsed a))). clear. intros b.
  assert (Ht : jog_kept_now b (tick_tracking b))
    by (unfold tick_tracking; destruct (_ && _); [|done]; by destruct (_ <=? _)).
  etransitivity; [exact Ht|]. generalize (tick_tracking b). clear. intros b.
  unfold tick_stopped. destruct (_ && _); [|done]. unfold jog_kept_now, jog_kept. cbn. by destruct (ma_disable_after_stop b).
Qed.

Lemma tick_kept elapsed a : jog_kept a (tick elapsed a).
Proof.
  rewrite tick_unfold. destruct (elapsed <=? 0); [done|].
  transitivity (tick_deadman (advance_clock elapsed a)); [|apply tick_rest_kept].
  unfold tick_deadman. by destruct (jog_expired _).
Qed.

Lemma reject_kept status from m a : jog_kept a (snd (actuator_reject status from m a)).
Proof. done. Qed.

Lemma step_kept op a :
  match op with OpJogPress _ _ | OpJogRenew _ => False | _ => True end → jog_kept a (snd (actuator_step op a)).
Proof.
  intros Hop. destruct (command_of op) as [f|] eqn:Hf.
  - rewrite (command_step op f a Hf). destruct op; try done; injection Hf as <-; cbn [snd].
    + unfold drive_enable. destruct (negb _); [done|]. case_bool_decide; [done|]. by case_bool_decide.
    + unfold drive_disable. case_bool_decide; [done|]. case_bool_decide; [done|]. by destruct (_ || _).
    + unfold home. by destruct (_ || _).
    + unfold start_velocity. destruct (_ || _); [done|]. destruct (negb _); [done|]. by destruct (_ || _).
    + unfold normal_stop. case_bool_decide; [done|]. by destruct (_ && _).
    + unfold quick_stop. by destruct (negb _).
    + unfold jog_release. by destruct (_ || _).
    + unfold reset_fault. destruct (negb _); [done|]. destruct (_ || _); [done|]. by destruct (dlt _ _).
  - destruct op; try done; cbn; [|apply tick_kept]. unfold inject_fault. by case_bool_decide.
Qed.

Lemma jog_step_inv op a g : jog_inv (a, g) → jog_inv (snd (actuator_step op a), jog_times op a g).
Proof.
  intros Hi. unfold jog_times.
  assert (Hkeep : ∀ b, jog_kept a b → jog_inv (b, g)).
  { intros b Hk Hb. destruct (Hk Hb) as (Ha & -> & -> & ->). by apply Hi. }
  destruct op; try (apply Hkeep, step_kept; exact I).
  - rewrite (command_step (OpJogPress direction v) (jog_press direction v) a eq_refl). cbn [fst snd]. unfold jog_press.
    destruct (_ || _); [by apply Hkeep|]. destruct (negb _); [by apply Hkeep|]. destruct (at_limit _ a); [by apply Hkeep|].
    unfold reply_accepted. cbn. rewrite bool_decide_eq_true_2 by done. cbn. done.
  - rewrite (command_step (OpJogRenew token) (jog_renew token) a eq_refl). cbn [fst snd]. unfold jog_renew.
    destruct (_ || _); [by apply Hkeep|]. destruct (_ <=? _); [by apply Hkeep|]. unfold reply_accepted. cbn.
    rewrite bool_decide_eq_true_2 by done. cbn. intros Ht. destruct (Hi Ht) as [_ Hm]. split; [|exact Hm]. lia.
Qed.

Lemma jog_run_inv ops : ∀ x, jog_inv x → jog_inv (jog_run ops x).
Proof. induction ops as [|op ops IH]; intros [a g] Hi; [done|]. apply IH. by apply jog_step_inv. Qed.

(** A jog that survives a tick has both of its deadlines ahead. *)
Lemma tick_jog_alive elapsed a :
  0 < elapsed → as_active_jog_token (ma_snapshot (tick elapsed a)) ≠ 0 →
  as_state (ma_snapshot a) = AState.Running →
  ma_monotonic_elapsed_ns (tick elapsed a) < ma_jog_deadline_ns (tick elapsed a) ∧
  ma_monotonic_elapsed_ns (tick elapsed a) < ma_jog_max_deadline_ns (tick elapsed a).
Proof.
  intros He. rewrite tick_unfold, (proj2 (Z.leb_gt _ _)) by lia. unfold tick_deadman.
  destruct (tick_rest_kept elapsed (tick_deadman (advance_clock elapsed a))) as [Hk Hn]. unfold tick_deadman in Hk, Hn.
  intros Ht Hr. destruct (Hk Ht) as (Hb & -> & -> & _). rewrite Hn. clear Hk Hn Ht.
  destruct (jog_expired (advance_clock elapsed a)) eqn:Hj; [done|]. unfold jog_expired in Hj. revert Hj Hb. cbn.
  rewrite Hr. intros Hj Hb. apply andb_false_iff in Hj as [Hj|Hj]; [|by bools].
  apply andb_false_iff in Hj as [Hj|Hj]; by bools.
Qed.

(** The dead-man stops a jog: after any sequence of operations that ends with a tick, a jog
    is still running only if its lease was granted, by a press or a renewal, less than the
    dead-man time ago, and pressed less than the longest continuous jog ago.  Without a
    renewal, or once that time is used up, the tick has begun the stop. *)
Theorem jog_needs_renewal c ops elapsed :
  Z.of_nat (length ops) < 2 ^ 64 - 1 → 0 < elapsed →
  let '(a, g) := jog_run (ops ++ [OpTick elapsed]) (actuator_new c, mkJogTimes 0 0) in
  is_jog (as_motion_mode (ma_snapshot a)) = true →
  ma_monotonic_elapsed_ns a < jt_granted g + to_ns (ac_jog_deadman c) ∧
  ma_monotonic_elapsed_ns a < jt_pressed g + to_ns (ac_max_continuous_jog c).
Proof.
  intros Hn He. destruct (jog_run _ _) as [a g] eqn:Hrun.
  assert (Hi : jog_inv (a, g)).
  { rewrite <- Hrun. apply jog_run_inv. unfold jog_inv. intros H. exfalso. apply H. unfold actuator_new.
    by destruct (configuration_valid c). }
  assert (Ha : a = tick elapsed (actuator_run ops (actuator_new c))).
  { change a with (fst (a, g)). rewrite <- Hrun, jog_run_fst. unfold actuator_run. by rewrite foldl_app. }
  pose proof (reachable_inv c (ops ++ [OpTick elapsed])) as (Hc & _ & _ & _ & Hs); [rewrite length_app; cbn; lia|].
  pose proof (reachable_inv c ops) as (_ & _ & _ & _ & Hs0); [lia|].
  replace (actuator_run (ops ++ [OpTick elapsed]) (actuator_new c)) with a in Hc, Hs
    by (rewrite Ha; unfold actuator_run; by rewrite foldl_app).
  intros Hj. assert (Ht : as_active_jog_token (ma_snapshot a) ≠ 0).
  { unfold state_inv in Hs. destruct (as_state (ma_snapshot a)); destruct_and?; destruct_or?; destruct_and?; try done;
      match goal with E : as_motion_mode _ = _ |- _ => by rewrite E in Hj end. }
  destruct (Hi Ht) as [H1 H2]. rewrite Hc in H1, H2.
  assert (Ht0 := Ht). rewrite Ha in Ht0. destruct (tick_kept _ _ Ht0) as [Htk _].
  assert (Hr : as_state (ma_snapshot (actuator_run ops (actuator_new c))) = AState.Running).
  { unfold state_inv in Hs0. destruct (as_state (ma_snapshot (actuator_run ops _))); destruct_and?; done. }
  destruct (tick_jog_alive _ _ He Ht0 Hr) as [H3 H4]. rewrite <- Ha in H3, H4. lia.
Qed.

(** ** Soft limits *)

(** Not beyond a limit, also when the value is not a number. *)
Definition within (lo hi x : double) : Prop := dlt hi x = false ∧ dlt x lo = false.

Lemma tick_limits_within a :
  let lo := ac_min_position_rad (ma_config a) in
  let hi := ac_max_position_rad (ma_config a) in
  let s := ma_snapshot (tick_limits a) in
  dlt lo hi = true →
  dlt hi (as_actual_position_rad s) = false ∧
  (as_state s ≠ AState.Fault → within lo hi (as_actual_position_rad s) ∧ within lo hi (as_target_position_rad s)).
Proof.
  cbv zeta. intros Hlim. unfold tick_limits, within. destruct (_ || _) eqn:Hp; [cbn; split; [apply dmin_bound|done]|].
  bools. destruct (_ || _) eqn:Hm; [|bools; by split_and!].
  cbn. split; [|done]. unfold dmax. case_match; [by apply dlt_asym|done].
Qed.

Lemma tick_end_position a :
  let s := ma_snapshot (update_snapshot_errors (tick_stopped (tick_tracking a))) in
  as_actual_position_rad s = as_actual_position_rad (ma_snapshot a) ∧
  (as_target_position_rad s = as_target_position_rad (ma_snapshot a) ∨
   as_target_position_rad s = as_actual_position_rad (ma_snapshot a)) ∧
  (as_state (ma_snapshot a) = AState.Fault → as_state s = AState.Fault).
Proof.
  assert (Ht : let s := ma_snapshot (tick_tracking a) in
    as_actual_position_rad s = as_actual_position_rad (ma_snapshot a) ∧
    as_target_position_rad s = as_target_position_rad (ma_snapshot a) ∧
    (as_state (ma_snapshot a) = AState.Fault → as_state s = AState.Fault)).
  { unfold tick_tracking. destruct (_ && _); [|done]. by destruct (_ <=? _). }
  generalize dependent (tick_tracking a). intros b (<- & <- & Hf). cbv zeta.
  rewrite (proj2 (update_errors_state _)), (proj1 (update_errors_state _)).
  assert (Hs : let s := ma_snapshot (tick_stopped b) in
    as_actual_position_rad s = as_actual_position_rad (ma_snapshot b) ∧
    (as_target_position_rad s = as_target_position_rad (ma_snapshot b) ∨
     as_target_position_rad s = as_actual_position_rad (ma_snapshot b)) ∧
    (as_state (ma_snapshot b) = AState.Fault → as_state s = AState.Fault)).
  { unfold tick_stopped. destruct (_ && _) eqn:Hst; [|auto]. bools. cbn.
    destruct (ma_disable_after_stop b); cbn; split_and!; auto; congruence. }
  destruct Hs as (Hs1 & Hs2 & Hs3). split; [exact Hs1|]. split; [exact Hs2|]. auto.
Qed.

(** A tick keeps the axis inside its soft limits: with a valid configuration whose range
    contains the home position, after every tick the actual position is not above the upper
    limit, and unless the tick ended in FAULT, with the drive revoked, neither the actual
    nor the target position is beyond a limit.  This holds in binary64, whatever the
    position, velocity and configuration were. *)
Theorem tick_keeps_soft_limits elapsed a :
  let lo := ac_min_position_rad (ma_config a) in
  let hi := ac_max_position_rad (ma_config a) in
  configuration_valid (ma_config a) = true → within lo hi dzero → 0 < elapsed →
  let s := ma_snapshot (tick elapsed a) in
  dlt hi (as_actual_position_rad s) = false ∧
  (as_state s ≠ AState.Fault → within lo hi (as_actual_position_rad s) ∧ within lo hi (as_target_position_rad s)).
Proof.
  cbv zeta. intros Hv H0 He. assert (Hlim : dlt (ac_min_position_rad (ma_config a)) (ac_max_position_rad (ma_config a)) = true).
  { unfold configuration_valid in Hv. by bools. }
  rewrite tick_unfold, (proj2 (Z.leb_gt _ _)) by lia.
  assert (Hc : ma_config (tick_deadman (advance_clock elapsed a)) = ma_config a)
    by (unfold tick_deadman; by destruct (jog_expired _)).
  generalize dependent (tick_deadman (advance_clock elapsed a)). intros b Hc. rewrite <- Hc in *. unfold tick_rest.
  destruct (homing_done b); [destruct H0; split; [done|split; by split]|].
  destruct (tick_limits_within (tick_physics elapsed b) Hlim) as [Hl1 Hl2].
  change (ma_config (tick_physics elapsed b)) with (ma_config b) in Hl1, Hl2.
  generalize dependent (tick_limits (tick_physics elapsed b)). intros d Hl1 Hl2.
  destruct (tick_end_position (update_snapshot_errors d)) as (-> & Ht & Hf).
  change (as_actual_position_rad (ma_snapshot (update_snapshot_errors d))) with (as_actual_position_rad (ma_snapshot d)) in *.
  split; [exact Hl1|]. intros Hnf. destruct Hl2 as [Ha Htg]; [intros Hd; by apply Hnf, Hf|].
  split; [exact Ha|]. by destruct Ht as [->| ->].
Qed.

(** ** Disabling during a motion *)

(** The drive is off, or a stop is under way that ends with the drive off. *)
Definition disabling (a : MockActuatorProfile) : Prop :=
  as_state (ma_snapshot a) = AState.Disabled ∨ as_state (ma_snapshot a) = AState.Fault ∨
  as_state (ma_snapshot a) = AState.Stopping ∧ ma_disable_after_stop a = true.

Definition not_enable_nor_quick_stop (op : ActuatorOp) : Prop := op ≠ OpEnable ∧ op ≠ OpQuickStop.

Lemma disabling_tick elapsed a : disabling a → disabling (tick elapsed a).
Proof.
  intros Hd. rewrite tick_unfold. destruct (elapsed <=? 0); [done|].
  assert (Hb : disabling (tick_deadman (advance_clock elapsed a))).
  { unfold tick_deadman, jog_expired, disabling in *. cbn in *.
    destruct Hd as [Hd|[Hd|[Hd Hs]]]; rewrite Hd in *; cbn; auto. }
  generalize dependent (tick_deadman (advance_clock elapsed a)). clear. intros b Hb. unfold tick_rest.
  destruct (homing_done b) eqn:Hh.
  { unfold homing_done in Hh. bools. destruct Hb as [?|[?|[? _]]]; congruence. }
  generalize (tick_rest_keeps elapsed b).
  generalize (tick_tracking (update_snapshot_errors (tick_limits (tick_physics elapsed b)))). intros d Hk.
  assert (Hdd : disabling d).
  { destruct Hk as [Hk|(Hk & _ & Hs)]; [by right; left|]. unfold disabling. by rewrite Hk, Hs. }
  clear - Hdd. unfold tick_stopped. destruct (_ && _) eqn:Hst; [|exact Hdd]. bools.
  destruct Hdd as [?|[?|[_ Hda]]]; [congruence..|]. left. cbn. by rewrite Hda.
Qed.

Lemma disabling_step c n op a :
  actuator_inv c n a → disabling a → not_enable_nor_quick_stop op → disabling (snd (actuator_step op a)).
Proof.
  intros Ha Hd [Hne Hnq]. destruct (command_of op) as [f|] eqn:Hf.
  - rewrite (command_step op f a Hf). cbn [snd].
    pose proof (command_transition c n op f a Hf Ha) as Ht.
    assert (Htok : as_active_jog_token (ma_snapshot a) = 0 ∧ ready_to_move (ma_snapshot a) = false).
    { destruct Ha as (_ & _ & _ & _ & Hi). unfold state_inv in Hi. unfold ready_to_move.
      destruct Hd as [E|[E|[E _]]]; rewrite E in *; destruct_and!; rewrite andb_false_r; done. }
    destruct Htok as [Htok Hrdy]. destruct op; try done; injection Hf as <-; clear Ht.
    + unfold drive_disable. case_bool_decide as H1; [right; left; done|]. case_bool_decide; [exact Hd|].
      destruct Hd as [?|[?|[Hs Hda]]]; try done. unfold in_motion. rewrite Hs, orb_true_r. by right; right.
    + unfold home. destruct Hd as [E|[E|[E Hda]]]; rewrite E, orb_true_r;
        [left|right; left|right; right]; cbn; auto.
    + unfold start_velocity. rewrite Hrdy. destruct (_ || _); exact Hd.
    + unfold normal_stop. destruct Hd as [E|[E|[E Hda]]]; rewrite E; [left|right; left|right; right]; cbn; auto.
    + unfold jog_press. rewrite Hrdy. destruct (_ || _); exact Hd.
    + unfold jog_renew. rewrite Htok. destruct (token =? 0) eqn:E; exact Hd.
    + unfold jog_release. rewrite Htok. destruct (token =? 0) eqn:E; exact Hd.
    + unfold reset_fault. destruct (negb _); [exact Hd|]. destruct (_ || _); [exact Hd|]. destruct (dlt _ _); [exact Hd|].
      by left.
  - destruct op; try done; [|by apply disabling_tick]. cbn. unfold inject_fault. case_bool_decide; [done|by right; left].
Qed.

Lemma disabling_run c ops : ∀ n a,
  n + Z.of_nat (length ops) < 2 ^ 64 → actuator_inv c n a → disabling a → Forall not_enable_nor_quick_stop ops →
  disabling (actuator_run ops a).
Proof.
  induction ops as [|op ops IH]; intros n a Hn Ha Hd Hq; [done|]. apply Forall_cons in Hq as [Hop Hq]. cbn in *.
  apply (IH (n + 1)); [lia| |by eapply disabling_step|done]. apply actuator_step_inv; [lia|done].
Qed.

(** A drive disable that was accepted holds: from then on, until Drive Enable or Quick Stop
    is used, the drive is off or a stop is under way that ends with it off, whatever other
    commands, faults and ticks follow. *)
Theorem drive_disable_holds c before after :
  let a := actuator_run before (actuator_new c) in
  Z.of_nat (length before) + Z.of_nat (length after) < 2 ^ 64 - 1 →
  reply_accepted (fst (drive_disable a)) = true → Forall not_enable_nor_quick_stop after →
  disabling (actuator_run after (snd (drive_disable a))).
Proof.
  cbv zeta. intros Hn Hacc Hq. pose proof (reachable_inv c before ltac:(lia)) as Ha.
  set (a := actuator_run before _) in *. clearbody a.
  assert (Ha' : actuator_inv c (Z.of_nat (length before) + 1) (snd (drive_disable a))) by (apply drive_disable_inv; [lia|done]).
  eapply disabling_run; [|exact Ha'| |exact Hq]; [lia|]. revert Hacc. unfold drive_disable.
  case_bool_decide; [by right; left|]. case_bool_decide; [done|].
  destruct (_ || _); [by right; right|by left].
Qed.

(** ** Concrete runs *)

Definition ms_tick (ms : Z) : ActuatorOp := OpTick (to_ns ms).
Definition demo_ready : list ActuatorOp := [OpEnable; OpHome; ms_tick 500].
Definition demo_moving : list ActuatorOp := demo_ready ++ [OpVelocity d_one] ++ replicate 40 (ms_tick 10).
Notation demo_actuator ops := (actuator_run ops (actuator_new default_actuator_config)).

(** A quick stop takes a drive disable back: an axis in motion accepts Drive Disable and,
    left alone, decelerates and ends DISABLED with the drive off; but when Quick Stop is
    pressed while it decelerates, the same second ends in IDLE with the drive still on. *)
Theorem quick_stop_revokes_disable :
  let a := demo_actuator demo_moving in
  let quiet := demo_actuator (demo_moving ++ [OpDisable] ++ replicate 100 (ms_tick 10)) in
  let hurried := demo_actuator (demo_moving ++ [OpDisable; OpQuickStop] ++ replicate 100 (ms_tick 10)) in
  reply_accepted (fst (drive_disable a)) = true ∧
  reply_accepted (fst (quick_stop (snd (drive_disable a)))) = true ∧
  (as_state (ma_snapshot quiet) = AState.Disabled ∧ as_drive_enabled (ma_snapshot quiet) = false) ∧
  as_state (ma_snapshot hurried) = AState.Idle ∧ as_drive_enabled (ma_snapshot hurried) = true.
Proof. vm_compute. auto. Qed.

Lemma actuator_authority_witness :
  as_drive_enabled (ma_snapshot (demo_actuator demo_moving)) = true ∧
  as_state (ma_snapshot (demo_actuator demo_moving)) ≠ AState.Fault.
Proof.
  assert (He : as_drive_enabled (ma_snapshot (demo_actuator demo_moving)) = true) by (vm_compute; reflexivity).
  split; [exact He|].
  pose proof (actuator_authority default_actuator_config demo_moving ltac:(vm_compute; reflexivity)) as H.
  cbv zeta in H. destruct H as [[H _] _]. exact (proj2 (H He)).
Defined.

Lemma actuator_follows_diagram_witness : transition OpQuickStop AState.Running AState.Stopping.
Proof.
  pose proof (actuator_follows_diagram default_actuator_config demo_moving OpQuickStop ltac:(vm_compute; reflexivity)) as H.
  vm_compute in H. exact H.
Defined.

(** A jog renewed once and then left alone. *)
Definition demo_jog : list ActuatorOp :=
  demo_ready ++ [OpJogPress 1 d_one; ms_tick 100; OpJogRenew 3].

Lemma jog_needs_renewal_witness :
  let g := snd (jog_run (demo_jog ++ [ms_tick 150]) (actuator_new default_actuator_config, mkJogTimes 0 0)) in
  jt_granted g = 600000000 ∧ 750000000 < 600000000 + to_ns 200 ∧ 750000000 < 500000000 + to_ns 2000.
Proof.
  split; [vm_compute; reflexivity|].
  exact (jog_needs_renewal default_actuator_config demo_jog (to_ns 150) ltac:(vm_compute; reflexivity)
    ltac:(vm_compute; reflexivity) ltac:(vm_compute; reflexivity)).
Defined.

Lemma tick_keeps_soft_limits_witness :
  dlt (ac_max_position_rad default_actuator_config)
    (as_actual_position_rad (ma_snapshot (tick (to_ns 10) (demo_actuator demo_moving)))) = false.
Proof.
  exact (proj1 (tick_keeps_soft_limits (to_ns 10) (demo_actuator demo_moving) ltac:(vm_compute; reflexivity)
    ltac:(vm_compute; split; reflexivity) ltac:(vm_compute; reflexivity))).
Defined.

Lemma drive_disable_holds_witness :
  disabling (actuator_run [ms_tick 10; OpNormalStop; ms_tick 10] (snd (drive_disable (demo_actuator demo_moving)))).
Proof.
  apply (drive_disable_holds default_actuator_config demo_moving [ms_tick 10; OpNormalStop; ms_tick 10]).
  - vm_compute. reflexivity.
  - vm_compute. reflexivity.
  - repeat constructor; discriminate.
Defined.
