(* ===== verification/MbusCodec.v ===== *)
(** * The Modbus TCP experiment: codec, framing and registers

    experiments/modbus_tcp: codec.cpp (MBAP header and PDUs), framing.cpp (cutting a byte
    stream into frames) and register_map.cpp (the holding registers and the handling of a
    request). *)

From S2P Require Import Prelude Types Bytes.
Local Open Scope Z_scope.

Module MErr.
Inductive Error :=
  | Ok | NeedMore | InvalidProtocolId | InvalidLength | Truncated | BufferOverflow | UnsupportedFunction
  | IllegalAddress | IllegalValue | ExceptionResponse | TransactionMismatch | UnexpectedPdu | Io | Timeout
  | Closed | Busy.
End MErr.
Notation MbusError := MErr.Error.

#[export] Instance MbusError_eq_dec : EqDecision MbusError.
Proof. solve_decision. Defined.

Definition mbus_error_to_string (e : MbusError) : string :=
  match e with
  | MErr.Ok => "ok"
  | MErr.NeedMore => "need_more"
  | MErr.InvalidProtocolId => "invalid_protocol_id"
  | MErr.InvalidLength => "invalid_length"
  | MErr.Truncated => "truncated"
  | MErr.BufferOverflow => "buffer_overflow"
  | MErr.UnsupportedFunction => "unsupported_function"
  | MErr.IllegalAddress => "illegal_address"
  | MErr.IllegalValue => "illegal_value"
  | MErr.ExceptionResponse => "exception_response"
  | MErr.TransactionMismatch => "transaction_mismatch"
  | MErr.UnexpectedPdu => "unexpected_pdu"
  | MErr.Io => "io"
  | MErr.Timeout => "timeout"
  | MErr.Closed => "closed"
  | MErr.Busy => "busy"
  end.

(** The [Result] of this experiment: an error other than [Ok] with its message (without the
    text of [strerror]), or a value. *)
Inductive MResult (T : Type) := MOk (value : T) | MFail (error : MbusError) (message : string).
Arguments MOk {T} value.
Arguments MFail {T} error message.

Definition m_ok {T} (r : MResult T) : bool := match r with MOk _ => true | MFail _ _ => false end.

(** Passing an error on. *)
Definition m_bind {T U} (r : MResult T) (f : T → MResult U) : MResult U :=
  match r with MOk x => f x | MFail e m => MFail e m end.
Notation "'letm' x := r 'in' k" := (m_bind r (fun x => k)) (at level 200, x pattern, k at level 200, r at level 100).

Definition kProtocolId : Z := 0.
Definition kMbapSize : nat := 7.
Definition kMaxAduSize : nat := 260.
Definition kMaxPduSize : nat := 253.
Definition kFcReadHolding : Z := 0x03.
Definition kFcWriteSingle : Z := 0x06.
Definition kFcWriteMultiple : Z := 0x10.
Definition kExIllegalFunction : Z := 0x01.
Definition kExIllegalDataAddress : Z := 0x02.
Definition kExIllegalDataValue : Z := 0x03.

Record Mbap := mkMbap { mb_transaction_id : Z; mb_protocol_id : Z; mb_length : Z; mb_unit_id : Z }.

#[export] Instance Mbap_eta : Eta Mbap :=
  mkEta _ (fun m => mkMbap (mb_transaction_id m) (mb_protocol_id m) (mb_length m) (mb_unit_id m)).

Record Adu := mkAdu { adu_mbap : Mbap; adu_pdu : list Z }.

(** ** Big-endian words *)

Definition put_u16_be (out : list Z) (v : Z) : list Z := out ++ [Z.land (Z.shiftr v 8) 0xFF] ++ [Z.land v 0xFF].

Definition get_u16_be (b : list Z) (off : nat) : MResult Z :=
  if (length b <? off + 2)%nat then MFail MErr.Truncated "need 2 bytes"
  else MOk (u16 (Z.lor (Z.shiftl (byte_at b off) 8) (byte_at b (off + 1)))).

(** ** Frames *)

Definition encode_adu (a : Adu) : MResult (list Z) :=
  if (length (adu_pdu a) =? 0)%nat then MFail MErr.InvalidLength "empty pdu"
  else if (kMaxPduSize <? length (adu_pdu a))%nat then MFail MErr.InvalidLength "pdu too large"
  else if negb (mb_protocol_id (adu_mbap a) =? kProtocolId) then
    MFail MErr.InvalidProtocolId "protocol_id must be 0"
  else
    let length := u16 (1 + Z.of_nat (length (adu_pdu a))) in
    let out := put_u16_be [] (mb_transaction_id (adu_mbap a)) in
    let out := put_u16_be out (mb_protocol_id (adu_mbap a)) in
    let out := put_u16_be out length in
    let out := out ++ [mb_unit_id (adu_mbap a)] in
    MOk (out ++ adu_pdu a).

Definition decode_adu (bytes : list Z) : MResult Adu :=
  if (length bytes <? kMbapSize)%nat then MFail MErr.Truncated "adu shorter than MBAP"
  else
    match get_u16_be bytes 0, get_u16_be bytes 2, get_u16_be bytes 4 with
    | MOk tid, MOk pid, MOk len =>
        if negb (pid =? kProtocolId) then MFail MErr.InvalidProtocolId "protocol_id != 0"
        else if len <? 2 then MFail MErr.InvalidLength "length < 2"
        else
          let expected := (6 + Z.to_nat len)%nat in
          if (kMaxAduSize <? expected)%nat then MFail MErr.InvalidLength "adu exceeds max"
          else if (length bytes <? expected)%nat then MFail MErr.Truncated "adu incomplete"
          else if negb (length bytes =? expected)%nat then
            MFail MErr.InvalidLength "adu size mismatch (caller must pass exact frame)"
          else
            let pdu := take (Z.to_nat len - 1) (drop kMbapSize bytes) in
            if (length pdu =? 0)%nat then MFail MErr.InvalidLength "empty pdu after unit"
            else MOk (mkAdu (mkMbap tid pid len (byte_at bytes 6)) pdu)
    | _, _, _ => MFail MErr.Truncated "mbap truncated"
    end.

(** ** Requests and responses *)

Definition encode_read_holding_request (address quantity : Z) : MResult (list Z) :=
  if (quantity <? 1) || (125 <? quantity) then MFail MErr.IllegalValue "read quantity out of range"
  else
    let pdu := [kFcReadHolding] in
    let pdu := put_u16_be pdu address in
    MOk (put_u16_be pdu quantity).

Definition encode_write_single_request (address value : Z) : MResult (list Z) :=
  let pdu := [kFcWriteSingle] in
  let pdu := put_u16_be pdu address in
  MOk (put_u16_be pdu value).

(** [values.size() * 2] and the loop over the values. *)
Definition byte_count_of (values : list Z) : Z := u8 (Z.of_nat (length values) * 2).
Definition put_values (out : list Z) (values : list Z) : list Z := foldl put_u16_be out values.

Definition encode_write_multiple_request (address : Z) (values : list Z) : MResult (list Z) :=
  if (length values =? 0)%nat || (123 <? length values)%nat then
    MFail MErr.IllegalValue "write multiple quantity out of range"
  else
    let pdu := [kFcWriteMultiple] in
    let pdu := put_u16_be pdu address in
    let pdu := put_u16_be pdu (u16 (Z.of_nat (length values))) in
    let pdu := pdu ++ [byte_count_of values] in
    MOk (put_values pdu values).

Definition encode_read_holding_response (values : list Z) : MResult (list Z) :=
  if (length values =? 0)%nat || (125 <? length values)%nat then
    MFail MErr.IllegalValue "response quantity out of range"
  else
    let pdu := [kFcReadHolding] in
    let pdu := pdu ++ [byte_count_of values] in
    MOk (put_values pdu values).

Definition encode_write_single_response (address value : Z) : MResult (list Z) :=
  encode_write_single_request address value.

Definition encode_write_multiple_response (address quantity : Z) : MResult (list Z) :=
  let pdu := [kFcWriteMultiple] in
  let pdu := put_u16_be pdu address in
  MOk (put_u16_be pdu quantity).

Definition encode_exception_response (function exception_code : Z) : MResult (list Z) :=
  MOk ([u8 (Z.lor function 0x80)] ++ [exception_code]).

(** [n] words from [off] on. *)
Fixpoint read_words (b : list Z) (off n : nat) : MResult (list Z) :=
  match n with
  | O => MOk []
  | S n =>
      letm v := get_u16_be b off in
      letm rest := read_words b (off + 2) n in
      MOk (v :: rest)
  end.

Definition decode_read_holding_response (pdu : list Z) : MResult (list Z) :=
  if (length pdu <? 2)%nat then MFail MErr.Truncated "pdu too short"
  else if negb (byte_at pdu 0 =? kFcReadHolding) then MFail MErr.UnexpectedPdu "not read holding response"
  else
    let byte_count := byte_at pdu 1 in
    if negb (byte_count mod 2 =? 0) then MFail MErr.IllegalValue "odd byte count"
    else if negb (length pdu =? 2 + Z.to_nat byte_count)%nat then MFail MErr.Truncated "byte_count mismatch"
    else read_words pdu 2 (Z.to_nat (byte_count / 2)).

(** The two words of a five-byte response. *)
Definition decode_pair (function : Z) (wrong short : string) (pdu : list Z) : MResult (Z * Z) :=
  if negb (length pdu =? 5)%nat || negb (byte_at pdu 0 =? function) then MFail MErr.UnexpectedPdu wrong
  else
    match get_u16_be pdu 1, get_u16_be pdu 3 with
    | MOk a, MOk v => MOk (a, v)
    | _, _ => MFail MErr.Truncated short
    end.

Definition decode_write_single_response : list Z → MResult (Z * Z) :=
  decode_pair kFcWriteSingle "not write single response" "write single truncated".
Definition decode_write_multiple_response : list Z → MResult (Z * Z) :=
  decode_pair kFcWriteMultiple "not write multiple response" "write multiple truncated".

(** The function and the exception code. *)
Definition decode_exception_response (pdu : list Z) : MResult (Z * Z) :=
  if negb (length pdu =? 2)%nat || (Z.land (byte_at pdu 0) 0x80 =? 0) then
    MFail MErr.UnexpectedPdu "not exception response"
  else MOk (Z.land (byte_at pdu 0) 0x7F, byte_at pdu 1).

(** ** Framing *)

(** [try_pop_adu]: the frame, and what stays in the buffer. *)
Definition try_pop_adu (buffer : list Z) : MResult (list Z) * list Z :=
  if (length buffer <? kMbapSize)%nat then (MFail MErr.NeedMore "wait mbap", buffer)
  else
    match get_u16_be buffer 2, get_u16_be buffer 4 with
    | MOk pid, MOk len =>
        if negb (pid =? kProtocolId) then (MFail MErr.InvalidProtocolId "protocol_id != 0", buffer)
        else if len <? 2 then (MFail MErr.InvalidLength "length < 2", buffer)
        else
          let total := (6 + Z.to_nat len)%nat in
          if (kMaxAduSize <? total)%nat then (MFail MErr.InvalidLength "length implies oversized adu", buffer)
          else if (length buffer <? total)%nat then (MFail MErr.NeedMore "wait body", buffer)
          else (MOk (take total buffer), drop total buffer)
    | _, _ => (MFail MErr.Truncated "mbap read failed", buffer)
    end.

(** ** Holding registers *)

Definition holding_new (size : nat) : list Z := replicate size 0.

Definition holding_read (regs : list Z) (address quantity : Z) : MResult (list Z) :=
  if (quantity <? 1) || (125 <? quantity) then MFail MErr.IllegalValue "quantity out of range"
  else
    let start := Z.to_nat address in
    let stop := (start + Z.to_nat quantity)%nat in
    if (length regs <? stop)%nat then MFail MErr.IllegalAddress "read past map"
    else MOk (take (stop - start) (drop start regs)).

Definition holding_write_single (address value : Z) (regs : list Z) : MResult bool * list Z :=
  if (length regs <=? Z.to_nat address)%nat then (MFail MErr.IllegalAddress "write past map", regs)
  else (MOk true, <[Z.to_nat address := value]> regs).

(** The loop [regs_[start + i] = values[i]]. *)
Fixpoint write_from (start : nat) (values regs : list Z) : list Z :=
  match values with
  | [] => regs
  | v :: values => write_from (S start) values (<[start := v]> regs)
  end.

Definition holding_write_multiple (address : Z) (values regs : list Z) : MResult bool * list Z :=
  if (length values =? 0)%nat || (123 <? length values)%nat then (MFail MErr.IllegalValue "quantity out of range", regs)
  else
    let start := Z.to_nat address in
    if (length regs <? start + length values)%nat then (MFail MErr.IllegalAddress "write past map", regs)
    else (MOk true, write_from start values regs).

(** What a refused read or block write answers. *)
Definition refusal (fc : Z) (e : MbusError) (m : string) : MResult (list Z) :=
  if e ==? MErr.IllegalAddress then encode_exception_response fc kExIllegalDataAddress
  else if e ==? MErr.IllegalValue then encode_exception_response fc kExIllegalDataValue
  else MFail e m.

Definition handle_pdu (pdu : list Z) (regs : list Z) : MResult (list Z) * list Z :=
  if (length pdu =? 0)%nat then (MFail MErr.Truncated "empty pdu", regs)
  else
    let fc := byte_at pdu 0 in
    let bad := (encode_exception_response fc kExIllegalDataValue, regs) in
    if fc =? kFcReadHolding then
      if negb (length pdu =? 5)%nat then bad
      else
        match get_u16_be pdu 1, get_u16_be pdu 3 with
        | MOk address, MOk quantity =>
            match holding_read regs address quantity with
            | MFail e m => (refusal fc e m, regs)
            | MOk values => (encode_read_holding_response values, regs)
            end
        | _, _ => bad
        end
    else if fc =? kFcWriteSingle then
      if negb (length pdu =? 5)%nat then bad
      else
        match get_u16_be pdu 1, get_u16_be pdu 3 with
        | MOk address, MOk value =>
            match holding_write_single address value regs with
            | (MFail e m, regs) =>
                (if e ==? MErr.IllegalAddress then encode_exception_response fc kExIllegalDataAddress else MFail e m, regs)
            | (MOk _, regs) => (encode_write_single_response address value, regs)
            end
        | _, _ => bad
        end
    else if fc =? kFcWriteMultiple then
      if (length pdu <? 6)%nat then bad
      else
        let byte_count := byte_at pdu 5 in
        match get_u16_be pdu 1, get_u16_be pdu 3 with
        | MOk address, MOk quantity =>
            if negb (byte_count =? quantity * 2) || negb (length pdu =? 6 + Z.to_nat byte_count)%nat then bad
            else
              match read_words pdu 6 (Z.to_nat quantity) with
              | MFail _ _ => bad
              | MOk values =>
                  match holding_write_multiple address values regs with
                  | (MFail e m, regs) => (refusal fc e m, regs)
                  | (MOk _, regs) => (encode_write_multiple_response address quantity, regs)
                  end
              end
        | _, _ => bad
        end
    else (encode_exception_response fc kExIllegalFunction, regs).

(** ** Words come back *)

Definition word (v : Z) : list Z := [Z.land (Z.shiftr v 8) 0xFF; Z.land v 0xFF].

Lemma put_word out v : put_u16_be out v = out ++ word v.
Proof. done. Qed.

Lemma word_value v : is_u 16 v → u16 (Z.lor (Z.shiftl (Z.land (Z.shiftr v 8) 0xFF) 8) (Z.land v 0xFF)) = v.
Proof.
  intros Hv. change 0xFF with (Z.ones 8). rewrite !land_ones_mod by lia. rewrite Z.shiftr_div_pow2 by lia.
  rewrite lor_shiftl_add by (try lia; apply Z.mod_pos_bound; lia). unfold is_u in Hv.
  rewrite (Z.mod_small (v / 2 ^ 8)) by (split; [apply Z.div_pos|apply Z.div_lt_upper_bound]; lia).
  pose proof (Z.div_mod v (2 ^ 8)). replace (v / 2 ^ 8 * 2 ^ 8 + v mod 2 ^ 8) with v by lia. by apply u16_small.
Qed.

Lemma get_word pre v post off :
  is_u 16 v → off = length pre → get_u16_be (pre ++ word v ++ post) off = MOk v.
Proof.
  intros Hv ->. unfold get_u16_be. rewrite (proj2 (Nat.ltb_ge _ _)) by (rewrite !length_app; cbn; lia).
  f_equal. unfold byte_at. rewrite (lookup_app_r pre _ (length pre)), (lookup_app_r pre _ (length pre + 1)) by lia.
  replace (length pre - length pre)%nat with 0%nat by lia. replace (length pre + 1 - length pre)%nat with 1%nat by lia.
  by apply word_value.
Qed.

(** The bytes of a word. *)
Lemma word_length v : length (word v) = 2%nat.
Proof. done. Qed.
Lemma word_wf v : Forall is_byte (word v).
Proof.
  assert (H : ∀ x, is_byte (Z.land x 0xFF)).
  { intros x. change 0xFF with (Z.ones 8). rewrite land_ones_mod by lia. apply Z.mod_pos_bound. lia. }
  repeat constructor; apply H.
Qed.

Definition words (l : list Z) : list Z := concat (map word l).

Lemma put_words out l : put_values out l = out ++ words l.
Proof.
  unfold put_values, words. revert out. induction l as [|v l IH]; intros out; cbn; [by rewrite app_nil_r|].
  rewrite IH. unfold put_u16_be. by rewrite <- app_assoc.
Qed.

Lemma words_length l : length (words l) = (2 * length l)%nat.
Proof. induction l as [|v l IH]; [done|]. unfold words in *. cbn in *. lia. Qed.

Lemma read_words_back l : ∀ pre post off,
  Forall (is_u 16) l → off = length pre → read_words (pre ++ words l ++ post) off (length l) = MOk l.
Proof.
  induction l as [|v l IH]; intros pre post off Hl Hoff; [done|]. apply Forall_cons in Hl as [Hv Hl].
  cbn [read_words length]. change (words (v :: l)) with (word v ++ words l). rewrite <- app_assoc.
  rewrite (get_word pre v (words l ++ post) off Hv Hoff). cbn [m_bind].
  rewrite (app_assoc pre (word v)). rewrite (IH (pre ++ word v) post (off + 2)%nat Hl); [done|].
  rewrite length_app. cbn. lia.
Qed.

(** ** Frames come back *)

(** A frame as the sources send it. *)
Definition adu_wire (tid unit : Z) (pdu : list Z) : list Z :=
  word tid ++ word 0 ++ word (1 + Z.of_nat (length pdu)) ++ [unit] ++ pdu.

Definition pdu_ok (pdu : list Z) : Prop := (1 ≤ length pdu ≤ kMaxPduSize)%nat.

Lemma encode_adu_wire tid len unit pdu : pdu_ok pdu →
  encode_adu (mkAdu (mkMbap tid 0 len unit) pdu) = MOk (adu_wire tid unit pdu).
Proof.
  intros [H1 H2]. unfold encode_adu, kMaxPduSize in *. cbn [adu_pdu adu_mbap mb_protocol_id mb_unit_id mb_transaction_id].
  rewrite (proj2 (Nat.eqb_neq _ _)) by lia. rewrite (proj2 (Nat.ltb_ge _ _)) by lia. cbn [negb].
  change (negb (0 =? kProtocolId)) with false. unfold adu_wire, put_u16_be. rewrite u16_small by (unfold is_u; lia).
  done.
Qed.

Lemma adu_wire_length tid unit pdu : length (adu_wire tid unit pdu) = (7 + length pdu)%nat.
Proof. unfold adu_wire. rewrite !length_app. cbn. lia. Qed.

Section Wire.
Context (tid unit : Z) (pdu rest : list Z).
Hypothesis Htid : is_u 16 tid.
Hypothesis Hpdu : pdu_ok pdu.

Let len : Z := 1 + Z.of_nat (length pdu).

Lemma wire_len_u16 : is_u 16 len.
Proof. destruct Hpdu. unfold is_u, len, kMaxPduSize in *. lia. Qed.

Lemma wire_fields :
  get_u16_be (adu_wire tid unit pdu ++ rest) 0 = MOk tid ∧ get_u16_be (adu_wire tid unit pdu ++ rest) 2 = MOk 0 ∧
  get_u16_be (adu_wire tid unit pdu ++ rest) 4 = MOk len.
Proof.
  unfold adu_wire. rewrite <- !app_assoc. split_and!.
  - by apply (get_word [] tid).
  - apply (get_word (word tid) 0); [split; lia|done].
  - rewrite (app_assoc (word tid)). apply (get_word (word tid ++ word 0) len); [apply wire_len_u16|done].
Qed.

Lemma decode_wire : rest = [] → decode_adu (adu_wire tid unit pdu ++ rest) = MOk (mkAdu (mkMbap tid 0 len unit) pdu).
Proof.
  intros Hr. destruct wire_fields as (H0 & H2 & H4). destruct Hpdu as [Hp1 Hp2]. unfold decode_adu.
  rewrite H0, H2, H4. change (negb (0 =? kProtocolId)) with false.
  assert (Hl : length (adu_wire tid unit pdu ++ rest) = (7 + length pdu)%nat)
    by (subst rest; rewrite app_nil_r; apply adu_wire_length).
  unfold kMbapSize, kMaxAduSize, kMaxPduSize, len in *. rewrite Hl.
  rewrite (proj2 (Nat.ltb_ge _ _)) by lia. rewrite (proj2 (Z.ltb_ge _ _)) by lia.
  replace (6 + Z.to_nat (1 + Z.of_nat (length pdu)))%nat with (7 + length pdu)%nat by lia.
  rewrite (proj2 (Nat.ltb_ge 260 _)) by lia. rewrite (proj2 (Nat.ltb_ge _ _)) by lia. rewrite Nat.eqb_refl. cbn [negb].
  replace (Z.to_nat (1 + Z.of_nat (length pdu)) - 1)%nat with (length pdu) by lia.
  assert (Hd : drop 7 (adu_wire tid unit pdu ++ rest) = pdu) by (subst rest; by rewrite app_nil_r).
  rewrite Hd, take_ge by lia. rewrite (proj2 (Nat.eqb_neq _ _)) by lia. done.
Qed.

(** A whole frame is cut off, whatever follows it. *)
Lemma pop_wire : try_pop_adu (adu_wire tid unit pdu ++ rest) = (MOk (adu_wire tid unit pdu), rest).
Proof.
  destruct wire_fields as (_ & H2 & H4). destruct Hpdu as [Hp1 Hp2]. unfold try_pop_adu. rewrite H2, H4.
  change (negb (0 =? kProtocolId)) with false.
  assert (Hl : length (adu_wire tid unit pdu ++ rest) = (7 + length pdu + length rest)%nat)
    by (rewrite length_app, adu_wire_length; lia).
  unfold kMbapSize, kMaxAduSize, kMaxPduSize, len in *. rewrite Hl.
  rewrite (proj2 (Nat.ltb_ge _ _)) by lia. rewrite (proj2 (Z.ltb_ge _ _)) by lia.
  replace (6 + Z.to_nat (1 + Z.of_nat (length pdu)))%nat with (length (adu_wire tid unit pdu))
    by (rewrite adu_wire_length; lia).
  rewrite (proj2 (Nat.ltb_ge 260 _)) by (rewrite adu_wire_length; lia).
  rewrite (proj2 (Nat.ltb_ge _ _)) by (rewrite adu_wire_length; lia). by rewrite take_app_length, drop_app_length.
Qed.

(** A part of a frame waits for more. *)
Lemma pop_partial n : (n < length (adu_wire tid unit pdu))%nat →
  ∃ m, try_pop_adu (take n (adu_wire tid unit pdu)) = (MFail MErr.NeedMore m, take n (adu_wire tid unit pdu)).
Proof.
  intros Hn. destruct Hpdu as [Hp1 Hp2]. rewrite adu_wire_length in Hn. unfold try_pop_adu, kMbapSize.
  assert (Hl : length (take n (adu_wire tid unit pdu)) = n) by (rewrite length_take, adu_wire_length; lia).
  rewrite Hl. destruct (Nat.ltb_spec n 7) as [|H7]; [by eexists|].
  assert (Hget : ∀ off, (off + 2 ≤ 7)%nat → get_u16_be (take n (adu_wire tid unit pdu)) off = get_u16_be (adu_wire tid unit pdu) off).
  { intros off Hoff. unfold get_u16_be, byte_at. rewrite Hl, adu_wire_length.
    rewrite !(proj2 (Nat.ltb_ge _ _)) by lia. by rewrite !lookup_take_lt by lia. }
  destruct wire_fields as (_ & H2 & H4). rewrite !Hget by lia.
  assert (Hget' : ∀ off, (off + 2 ≤ 7)%nat → get_u16_be (adu_wire tid unit pdu) off = get_u16_be (adu_wire tid unit pdu ++ rest) off).
  { intros off Hoff. unfold get_u16_be, byte_at. rewrite length_app, !adu_wire_length.
    rewrite !(proj2 (Nat.ltb_ge _ _)) by lia. by rewrite !lookup_app_l by (rewrite adu_wire_length; lia). }
  rewrite !Hget', H2, H4 by lia. change (negb (0 =? kProtocolId)) with false. unfold len, kMaxAduSize, kMaxPduSize in *.
  rewrite (proj2 (Z.ltb_ge _ _)) by lia.
  rewrite (proj2 (Nat.ltb_ge 260 _)) by lia. rewrite (proj2 (Nat.ltb_lt _ _)) by lia. by eexists.
Qed.

End Wire.
