(* ===== verification/MbusTcp.v ===== *)
(** * The Modbus TCP experiment: client and server

    experiments/modbus_tcp: client.cpp, a synchronous client with one outstanding request,
    and server.cpp, the reference server.  The answers of the kernel are inputs; [None] says
    that the answers given ended while a call still waits. *)

From stdpp Require Import pretty.
From S2P Require Import Prelude Types Bytes LinuxIo SerialPort TcpFrame MbusCodec.
Local Open Scope Z_scope.

(** ** The client *)

(** Durations are milliseconds. *)
Record ClientConfig := mkClientConfig {
  cl_host : string;
  cl_port : Z;
  cl_unit_id : Z;
  cl_connect_timeout : Z;
  cl_response_timeout : Z;
  cl_reconnect_base : Z;
  cl_reconnect_max : Z;
  cl_reconnect_attempts : Z
}.

Definition default_client_config : ClientConfig := mkClientConfig "127.0.0.1" 1502 1 1000 1000 50 1000 5.

Record Client := mkClient {
  mc_config : ClientConfig;
  mc_fd : Z;
  mc_next_tid : Z;
  mc_buffer : list Z
}.

#[export] Instance Client_eta : Eta Client :=
  mkEta _ (fun c => mkClient (mc_config c) (mc_fd c) (mc_next_tid c) (mc_buffer c)).

Definition client_new (cfg : ClientConfig) : Client := mkClient cfg (-1) 1 [].

Definition client_connected (c : Client) : bool := 0 <=? mc_fd c.

Definition client_close (c : Client) (k : Kernel) : Client * Kernel :=
  let '(fd, k) := if 0 <=? mc_fd c then (-1, k_close (mc_fd c) k) else (mc_fd c, k) in
  (c <| mc_fd := fd |> <| mc_buffer := [] |>, k).

Record MConnectEnv := mkMConnectEnv {
  cn_socket : option Z;
  cn_inet_pton : bool;
  cn_set_nonblock : bool;
  cn_connect : ConnectAnswer;
  cn_poll : PollAnswer;
  cn_so_error : bool;
  cn_clear_nonblock : bool
}.

Definition client_connect (env : MConnectEnv) (c : Client) (k : Kernel) : MResult bool * Client * Kernel :=
  let '(c, k) := client_close c k in
  match cn_socket env with
  | None => (MFail MErr.Io "socket: ", c, k)
  | Some fd =>
      let k := k_create (Some fd) k in
      let adopt :=
        if negb (cn_clear_nonblock env) then (MFail MErr.Io "fcntl clear O_NONBLOCK: ", c, k_close fd k)
        else (MOk true, c <| mc_fd := fd |> <| mc_buffer := [] |>, k) in
      if negb (cn_inet_pton env) then (MFail MErr.Io "inet_pton failed", c, k_close fd k)
      else if negb (cn_set_nonblock env) then (MFail MErr.Io "fcntl: ", c, k_close fd k)
      else match cn_connect env with
      | ConnectFailed => (MFail MErr.Io "connect: ", c, k_close fd k)
      | ConnectDone => adopt
      | ConnectInProgress =>
          match cn_poll env with
          | PollTimeout => (MFail MErr.Timeout "connect timeout", c, k_close fd k)
          | PollErrno _ => (MFail MErr.Io "poll: ", c, k_close fd k)
          | PollReady =>
              if negb (cn_so_error env) then (MFail MErr.Io "connect so_error: ", c, k_close fd k) else adopt
          end
      end
  end.

(** [reconnect_with_backoff]: the attempts left, one answer of the kernel for each, and the
    error so far; the pauses it slept are returned too. *)
Fixpoint reconnect_loop (attempts : nat) (envs : nat → MConnectEnv) (delay : Z) (last : MbusError) (last_msg : string)
    (c : Client) (k : Kernel) : MResult bool * Client * Kernel * list Z :=
  match attempts with
  | O => (MFail last last_msg, c, k, [])
  | S attempts =>
      match client_connect (envs 0%nat) c k with
      | (MOk x, c, k) => (MOk x, c, k, [])
      | (MFail e m, c, k) =>
          let '(r, c, k, pauses) :=
            reconnect_loop attempts (λ i, envs (S i)) (Z.min (delay * 2) (cl_reconnect_max (mc_config c))) e m c k in
          (r, c, k, delay :: pauses)
      end
  end.

Definition reconnect_with_backoff (envs : nat → MConnectEnv) (c : Client) (k : Kernel)
    : MResult bool * Client * Kernel * list Z :=
  reconnect_loop (Z.to_nat (cl_reconnect_attempts (mc_config c))) envs (cl_reconnect_base (mc_config c))
    MErr.Io "reconnect failed" c k.

Definition ensure_connected (envs : nat → MConnectEnv) (c : Client) (k : Kernel)
    : MResult bool * Client * Kernel * list Z :=
  if 0 <=? mc_fd c then (MOk true, c, k, []) else reconnect_with_backoff envs c k.

(** One turn of the send loop: [poll] and [send]. *)
Record TxTurn := mkTxTurn { tx_poll : PollAnswer; tx_send : SerialPort.WriteAnswer }.

Fixpoint m_send_all (size off : nat) (turns : list TxTurn) : option (MResult bool) :=
  if (size <=? off)%nat then Some (MOk true)
  else match turns with
  | [] => None
  | t :: turns =>
      match tx_poll t with
      | PollTimeout => Some (MFail MErr.Timeout "send timeout")
      | PollErrno _ => Some (MFail MErr.Io "poll send: ")
      | PollReady =>
          match tx_send t with
          | WriteErrno e => if e =? EINTR then m_send_all size off turns else Some (MFail MErr.Io "send: ")
          | Wrote O => Some (MFail MErr.Closed "send returned 0")
          | Wrote n => m_send_all size (off + n) turns
          end
      end
  end.

(** One turn of the receive loop: [poll], whether it reported an error or a hang-up, [recv]. *)
Record MRxTurn := mkMRxTurn { mx_poll : PollAnswer; mx_hup : bool; mx_recv : SerialPort.ReadAnswer }.

(** [recv_adu]: the frame and the framer's buffer. *)
Fixpoint recv_adu (turns : list MRxTurn) (buffer : list Z) : option (MResult (list Z) * list Z) :=
  match try_pop_adu buffer with
  | (MOk frame, buffer) => Some (MOk frame, buffer)
  | (MFail e m, buffer) =>
      if negb (e ==? MErr.NeedMore) then Some (MFail e m, buffer)
      else match turns with
      | [] => None
      | t :: turns =>
          match mx_poll t with
          | PollTimeout => Some (MFail MErr.Timeout "response timeout", buffer)
          | PollErrno _ => Some (MFail MErr.Io "poll recv: ", buffer)
          | PollReady =>
              if mx_hup t then Some (MFail MErr.Closed "peer closed or error", buffer)
              else match mx_recv t with
              | ReadErrno e =>
                  if e =? EINTR then recv_adu turns buffer else Some (MFail MErr.Io "recv: ", buffer)
              | ReadBytes [] => Some (MFail MErr.Closed "peer EOF", buffer)
              | ReadBytes chunk => recv_adu turns (buffer ++ chunk)
              end
          end
      end
  end.

(** The kernel's answers during one transaction. *)
Record TransactEnv := mkTransactEnv { te_tx : list TxTurn; te_rx : list MRxTurn }.

(** What comes back for a request: the frame decoded and matched. *)
Definition match_response (tid unit : Z) (frame : list Z) : MResult Adu :=
  letm adu := decode_adu frame in
  if negb (mb_transaction_id (adu_mbap adu) =? tid) then
    MFail MErr.TransactionMismatch "response transaction id mismatch"
  else if negb (mb_unit_id (adu_mbap adu) =? unit) then MFail MErr.UnexpectedPdu "unit id mismatch"
  else MOk adu.

Definition transact_once (pdu : list Z) (tid : Z) (env : TransactEnv) (c : Client) : option (MResult Adu * Client) :=
  let unit := cl_unit_id (mc_config c) in
  match encode_adu (mkAdu (mkMbap tid kProtocolId 0 unit) pdu) with
  | MFail e m => Some (MFail e m, c)
  | MOk encoded =>
      match m_send_all (length encoded) 0 (te_tx env) with
      | None => None
      | Some (MFail e m) => Some (MFail e m, c)
      | Some (MOk _) =>
          match recv_adu (te_rx env) (mc_buffer c) with
          | None => None
          | Some (MFail e m, buffer) => Some (MFail e m, c <| mc_buffer := buffer |>)
          | Some (MOk frame, buffer) => Some (match_response tid unit frame, c <| mc_buffer := buffer |>)
          end
      end
  end.

(** [next_tid_++], skipping 0. *)
Definition take_tid (c : Client) : Z * Client :=
  let next := u16 (mc_next_tid c + 1) in
  (mc_next_tid c, c <| mc_next_tid := if next =? 0 then 1 else next |>).

Definition is_connection_error (e : MbusError) : bool := (e ==? MErr.Closed) || (e ==? MErr.Io).

(** The kernel's answers during one call: a connection first, a transaction, and what follows
    a lost connection. *)
Record CallEnv := mkCallEnv {
  ca_connects : nat → MConnectEnv;
  ca_first : TransactEnv;
  ca_reconnects : nat → MConnectEnv;
  ca_second : TransactEnv
}.

Definition transact_raw (pdu : list Z) (env : CallEnv) (c : Client) (k : Kernel)
    : option (MResult Adu * Client * Kernel) :=
  match ensure_connected (ca_connects env) c k with
  | (MFail e m, c, k, _) => Some (MFail e m, c, k)
  | (MOk _, c, k, _) =>
      let '(tid, c) := take_tid c in
      match transact_once pdu tid (ca_first env) c with
      | None => None
      | Some (MOk adu, c) => Some (MOk adu, c, k)
      | Some (MFail e m, c) =>
          if negb (is_connection_error e) then Some (MFail e m, c, k)
          else
            let '(c, k) := client_close c k in
            match reconnect_with_backoff (ca_reconnects env) c k with
            | (MFail e m, c, k, _) => Some (MFail e m, c, k)
            | (MOk _, c, k, _) =>
                let '(tid2, c) := take_tid c in
                match transact_once pdu tid2 (ca_second env) c with
                | None => None
                | Some (r, c) => Some (r, c, k)
                end
            end
      end
  end.

Definition transact_raw_expect_tid (pdu : list Z) (tid : Z) (env : CallEnv) (c : Client) (k : Kernel)
    : option (MResult Adu * Client * Kernel) :=
  match ensure_connected (ca_connects env) c k with
  | (MFail e m, c, k, _) => Some (MFail e m, c, k)
  | (MOk _, c, k, _) =>
      match transact_once pdu tid (ca_first env) c with
      | None => None
      | Some (r, c) => Some (r, c, k)
      end
  end.

(** What a call makes of the response, with its own decoder. *)
Definition read_response {T} (decode : list Z → MResult T) (a : Adu) : MResult T :=
  if negb (length (adu_pdu a) =? 0)%nat && negb (Z.land (byte_at (adu_pdu a) 0) 0x80 =? 0) then
    MFail MErr.ExceptionResponse
      match decode_exception_response (adu_pdu a) with
      | MOk (_, code) => "exception code=" +:+ pretty code
      | MFail _ _ => "exception"
      end
  else decode (adu_pdu a).

Definition client_call {T} (request : MResult (list Z)) (decode : list Z → MResult T) (env : CallEnv) (c : Client)
    (k : Kernel) : option (MResult T * Client * Kernel) :=
  match request with
  | MFail e m => Some (MFail e m, c, k)
  | MOk pdu =>
      match transact_raw pdu env c k with
      | None => None
      | Some (r, c, k) => Some (m_bind r (read_response decode), c, k)
      end
  end.

Definition client_read_holding (address quantity : Z) : CallEnv → Client → Kernel → option (MResult (list Z) * Client * Kernel) :=
  client_call (encode_read_holding_request address quantity) decode_read_holding_response.
Definition client_write_single (address value : Z) : CallEnv → Client → Kernel → option (MResult (Z * Z) * Client * Kernel) :=
  client_call (encode_write_single_request address value) decode_write_single_response.
Definition client_write_multiple (address : Z) (values : list Z)
    : CallEnv → Client → Kernel → option (MResult (Z * Z) * Client * Kernel) :=
  client_call (encode_write_multiple_request address values) decode_write_multiple_response.

(** ** The server *)

Record ServerConfig := mkServerConfig {
  sc_bind_host : string;
  sc_port : Z;
  sc_holding_count : nat;
  sc_response_delay : Z
}.

Record RefServer := mkRefServer {
  rf_config : ServerConfig;
  rf_regs : list Z;
  rf_listen_fd : Z;
  rf_bound_port : Z;
  rf_running : bool
}.

#[export] Instance RefServer_eta : Eta RefServer :=
  mkEta _ (fun s => mkRefServer (rf_config s) (rf_regs s) (rf_listen_fd s) (rf_bound_port s) (rf_running s)).

Definition server_new (cfg : ServerConfig) : RefServer := mkRefServer cfg (holding_new (sc_holding_count cfg)) (-1) 0 false.

Definition server_start (env : ListenEnv) (s : RefServer) (k : Kernel) : MResult bool * RefServer * Kernel :=
  if rf_running s then (MFail MErr.Busy "already running", s, k)
  else match le_socket env with
  | None => (MFail MErr.Io "socket: ", s, k)
  | Some fd =>
      let k := k_create (Some fd) k in
      if negb (le_inet_pton env) then (MFail MErr.Io "inet_pton failed", s, k_close fd k)
      else if negb (le_bind env) then (MFail MErr.Io "bind: ", s, k_close fd k)
      else if negb (le_listen env) then (MFail MErr.Io "listen: ", s, k_close fd k)
      else
        (MOk true,
         s <| rf_bound_port := default (sc_port (rf_config s)) (le_getsockname env) |>
           <| rf_listen_fd := fd |> <| rf_running := true |>, k)
  end.

(** [stop]; the thread is joined. *)
Definition server_stop (s : RefServer) (k : Kernel) : RefServer * Kernel :=
  let s := s <| rf_running := false |> in
  if 0 <=? rf_listen_fd s then (s <| rf_listen_fd := -1 |>, k_close (rf_listen_fd s) k) else (s, k).

(** The response to one request: [None] closes the connection. *)
Definition answer_frame (frame : list Z) (regs : list Z) : option (list Z) * list Z :=
  match decode_adu frame with
  | MFail _ _ => (None, regs)
  | MOk adu =>
      match handle_pdu (adu_pdu adu) regs with
      | (MFail _ _, regs) => (None, regs)
      | (MOk pdu, regs) =>
          match encode_adu (mkAdu (adu_mbap adu <| mb_protocol_id := kProtocolId |>) pdu) with
          | MFail _ _ => (None, regs)
          | MOk encoded => (Some encoded, regs)
          end
      end
  end.

(** The server's send loop: the counts [send] answers, the last one takes the rest; [false]
    when it failed, with what was sent. *)
Fixpoint serve_send (rest : list Z) (answers : list Z) : bool * list Z :=
  if (length rest =? 0)%nat then (true, [])
  else match answers with
  | [] => (true, rest)
  | n :: answers =>
      if n <=? 0 then (false, [])
      else
        let n := Z.to_nat n in
        let '(ok, sent) := serve_send (drop n rest) answers in (ok, take n rest ++ sent)
  end.

(** The inner loop: all whole frames of the buffer; [sends] are the answers to the sends of
    each response.  The result says whether the connection goes on, with the buffer, the
    registers and what was sent. *)
Fixpoint serve_frames (turns : nat) (buffer regs : list Z) (sends : list (list Z)) : bool * list Z * list Z * list Z :=
  match turns with
  | O => (true, buffer, regs, [])
  | S turns =>
      match try_pop_adu buffer with
      | (MFail e _, buffer) => (e ==? MErr.NeedMore, buffer, regs, [])
      | (MOk frame, buffer) =>
          match answer_frame frame regs with
          | (None, regs) => (false, buffer, regs, [])
          | (Some encoded, regs) =>
              let '(ok, sent) := serve_send encoded (hd [] sends) in
              if negb ok then (false, buffer, regs, sent)
              else
                let '(goes_on, buffer, regs, more) := serve_frames turns buffer regs (tl sends) in
                (goes_on, buffer, regs, sent ++ more)
          end
      end
  end.

(** A frame has at least eight bytes, so the buffer's length bounds the turns. *)
Definition serve_buffer (buffer regs : list Z) (sends : list (list Z)) : bool * list Z * list Z * list Z :=
  serve_frames (S (length buffer)) buffer regs sends.

(** One turn of the outer loop while [running_]. *)
Inductive ServeTurn :=
  | ServePollErrno (e : Z)
  | ServeIdle
  | ServeHup
  | ServeRecv (chunk : list Z) (sends : list (list Z))
  | ServeRecvEnd.

(** The connection: the framer's buffer, the registers, what was sent; it ends by a return or
    when the turns end ([running_] became false). *)
Fixpoint serve_client (turns : list ServeTurn) (buffer regs : list Z) : list Z * list Z * list Z :=
  match turns with
  | [] => (buffer, regs, [])
  | ServePollErrno e :: turns => if e =? EINTR then serve_client turns buffer regs else (buffer, regs, [])
  | ServeIdle :: turns => serve_client turns buffer regs
  | ServeHup :: _ | ServeRecvEnd :: _ => (buffer, regs, [])
  | ServeRecv chunk sends :: turns =>
      if (length chunk =? 0)%nat then (buffer, regs, [])
      else
        let '(goes_on, buffer, regs, sent) := serve_buffer (buffer ++ chunk) regs sends in
        if negb goes_on then (buffer, regs, sent)
        else let '(buffer, regs, more) := serve_client turns buffer regs in (buffer, regs, sent ++ more)
  end.

(** One turn of the accept loop while [running_]; a refused [accept4] is tried again whatever
    its error. *)
Inductive AcceptTurn :=
  | AcceptPollErrno (e : Z)
  | AcceptIdle
  | AcceptFailed
  | Accepted (fd : Z) (turns : list ServeTurn).

(** [thread_main]: the registers, what each connection was sent, and the descriptors. *)
Fixpoint thread_main (turns : list AcceptTurn) (regs : list Z) (k : Kernel) : list Z * list (list Z) * Kernel :=
  match turns with
  | [] => (regs, [], k)
  | AcceptPollErrno e :: turns => if e =? EINTR then thread_main turns regs k else (regs, [], k)
  | AcceptIdle :: turns | AcceptFailed :: turns => thread_main turns regs k
  | Accepted fd conn :: turns =>
      let k := k_create (Some fd) k in
      let '(_, regs, sent) := serve_client conn [] regs in
      let '(regs, more, k) := thread_main turns regs (k_close fd k) in
      (regs, sent :: more, k)
  end.
