(* ===== verification/MbusLink.v ===== *)
(** * The Modbus TCP experiment: what the client and the server do together

    The server answers every request of a byte stream in order, however the stream is cut;
    a client call across it is an access to the registers; what happens to a client that has
    lost its place in the stream; how a reconnection is paced. *)

From stdpp Require Import pretty.
From S2P Require Import Prelude Types Bytes LinuxIo SerialPort TcpFrame MbusCodec MbusTcp.
Local Open Scope Z_scope.

(** ** A request and its answer *)

Record Request := mkRequest { rq_tid : Z; rq_unit : Z; rq_pdu : list Z }.

Definition request_ok (r : Request) : Prop := is_u 16 (rq_tid r) ∧ pdu_ok (rq_pdu r).
Definition request_wire (r : Request) : list Z := adu_wire (rq_tid r) (rq_unit r) (rq_pdu r).
Definition wires (rs : list Request) : list Z := concat (map request_wire rs).

(** The reference server: one answer for each request, with its transaction id and unit. *)
Definition answer (r : Request) (regs : list Z) : list Z * list Z :=
  match handle_pdu (rq_pdu r) regs with
  | (MOk pdu, regs) => (adu_wire (rq_tid r) (rq_unit r) pdu, regs)
  | (MFail _ _, regs) => ([], regs)
  end.

Fixpoint answer_all (rs : list Request) (regs : list Z) : list Z * list Z :=
  match rs with
  | [] => ([], regs)
  | r :: rs =>
      let '(out, regs) := answer r regs in
      let '(more, regs) := answer_all rs regs in (out ++ more, regs)
  end.

Lemma refusal_answers fc e m :
  e = MErr.IllegalAddress ∨ e = MErr.IllegalValue → ∃ pdu, refusal fc e m = MOk pdu ∧ length pdu = 2%nat.
Proof. by intros [-> | ->]; eexists. Qed.

Lemma holding_read_cases regs a q :
  (∃ vs, holding_read regs a q = MOk vs ∧ (1 ≤ length vs ≤ 125)%nat) ∨
  (∃ e m, holding_read regs a q = MFail e m ∧ (e = MErr.IllegalAddress ∨ e = MErr.IllegalValue)).
Proof.
  unfold holding_read. destruct (_ || _) eqn:Hq; [right; eauto 6|]. apply orb_false_iff in Hq as [H1 H2]. apply Z.ltb_ge in H1, H2.
  destruct (Nat.ltb_spec (length regs) (Z.to_nat a + Z.to_nat q)); [right; eauto 6|].
  left. eexists. split; [done|]. rewrite length_take, length_drop. lia.
Qed.

Lemma read_answer vs : (1 ≤ length vs ≤ 125)%nat →
  encode_read_holding_response vs = MOk ([kFcReadHolding; 2 * Z.of_nat (length vs)] ++ words vs).
Proof.
  intros Hv. unfold encode_read_holding_response.
  rewrite (proj2 (Nat.eqb_neq _ _)), (proj2 (Nat.ltb_ge _ _)) by lia. cbn [orb].
  rewrite put_words. unfold byte_count_of. rewrite u8_small by (unfold is_byte, is_u; lia).
  by rewrite Z.mul_comm.
Qed.

(** Every request that is not empty has an answer that fits a frame. *)
Lemma handle_pdu_answers pdu regs : pdu_ok pdu →
  ∃ resp regs', handle_pdu pdu regs = (MOk resp, regs') ∧ pdu_ok resp.
Proof.
  intros [H1 _]. unfold handle_pdu, pdu_ok, kMaxPduSize. rewrite (proj2 (Nat.eqb_neq _ _)) by lia.
  assert (Hx : ∀ fc c, ∃ resp regs', (encode_exception_response fc c, regs) = (MOk resp, regs') ∧ (1 ≤ length resp ≤ 253)%nat)
    by (intros; do 2 eexists; split; [done|cbn; lia]).
  case_match.
  - (* read *)
    repeat (case_match; try apply Hx; []).
    match goal with |- context [holding_read ?r ?a ?q] =>
      destruct (holding_read_cases r a q) as [(vs & -> & Hvs) | (e & m & -> & He)] end.
    + rewrite read_answer by lia. do 2 eexists. split; [done|]. rewrite length_app, words_length. cbn. lia.
    + destruct (refusal_answers (byte_at pdu 0) e m He) as (p & -> & Hp). do 2 eexists. split; [done|lia].
  - case_match.
    + (* write a register *)
      do 3 (case_match; try apply Hx; []). unfold holding_write_single. destruct (_ <=? _)%nat; do 2 eexists; (split; [done|cbn; lia]).
    + case_match; [|apply Hx].
      (* write a block *)
      do 5 (case_match; try apply Hx; []). unfold holding_write_multiple. destruct ((_ =? 0)%nat || _); [|destruct (length regs <? _)%nat];
        do 2 eexists; (split; [done|cbn; lia]).
Qed.

Lemma answer_frame_wire r regs : request_ok r →
  answer_frame (request_wire r) regs = (Some (answer r regs).1, (answer r regs).2).
Proof.
  intros [Ht Hp]. unfold answer_frame, request_wire. rewrite <- (app_nil_r (adu_wire _ _ _)).
  rewrite decode_wire by done. cbn [adu_pdu adu_mbap]. unfold answer.
  destruct (handle_pdu_answers (rq_pdu r) regs Hp) as (resp & regs' & -> & Hr).
  lazymatch goal with |- context [mkMbap ?t 0 ?l ?u <| mb_protocol_id := _ |>] =>
    change (mkMbap t 0 l u <| mb_protocol_id := kProtocolId |>) with (mkMbap t 0 l u) end.
  by rewrite encode_adu_wire.
Qed.

(** ** The stream, however it is cut *)

(** The bytes of a request that has not arrived whole. *)
Definition partial_of (rs : list Request) (p : list Z) : Prop :=
  p = [] ∨ ∃ r rs' n, rs = r :: rs' ∧ (n < length (request_wire r))%nat ∧ p = take n (request_wire r).

Lemma wires_app a b : wires (a ++ b) = wires a ++ wires b.
Proof. unfold wires. by rewrite map_app, concat_app. Qed.

(** Cutting the stream of [rs] anywhere leaves whole requests and a part of the next one. *)
Lemma cut_stream rs : ∀ p q, p ++ q = wires rs →
  ∃ a b part, rs = a ++ b ∧ p = wires a ++ part ∧ partial_of b part ∧ part ++ q = wires b.
Proof.
  induction rs as [|r rs IH]; intros p q Hpq.
  - apply app_eq_nil in Hpq as [-> ->]. exists [], [], []. split_and!; [done..|by left|done].
  - change (wires (r :: rs)) with (request_wire r ++ wires rs) in Hpq.
    destruct (decide (length p < length (request_wire r))%nat) as [Hlt|Hge].
    + exists [], (r :: rs), p. split_and!; [done..| |done]. right. exists r, rs, (length p). split_and!; [done..|].
      rewrite <- (take_app_le (request_wire r) (wires rs)), <- Hpq by lia. by rewrite take_app_length.
    + assert (Hp : p = request_wire r ++ drop (length (request_wire r)) p).
      { rewrite <- (take_drop (length (request_wire r)) p) at 1. f_equal.
        transitivity (take (length (request_wire r)) (p ++ q)); [by rewrite take_app_le by lia|].
        by rewrite Hpq, take_app_length. }
      destruct (IH (drop (length (request_wire r)) p) q) as (a & b & part & -> & Hd & Hpart & Hb).
      { rewrite Hp, <- app_assoc in Hpq. by apply app_inv_head in Hpq. }
      exists (r :: a), b, part. split_and!; [done| |done..]. rewrite Hp, Hd. cbn. by rewrite <- app_assoc.
Qed.

(** Sends that never fail. *)
Definition sends_ok (sends : list (list Z)) : Prop := Forall (Forall (λ n, 0 < n)) sends.

Lemma serve_send_ok answers : ∀ rest, Forall (λ n, 0 < n) answers → serve_send rest answers = (true, rest).
Proof.
  induction answers as [|n answers IH]; intros rest Ha; cbn [serve_send];
    (destruct (Nat.eqb_spec (length rest) 0) as [H0|H0]; [by apply nil_length_inv in H0 as ->|]); [done|].
  apply Forall_cons in Ha as [Hn Ha]. rewrite (proj2 (Z.leb_gt _ _)) by lia. rewrite IH by done. by rewrite take_drop.
Qed.

Lemma sends_step sends : sends_ok sends → Forall (λ n, 0 < n) (hd [] sends) ∧ sends_ok (tl sends).
Proof. intros H. destruct H; cbn; [by split; constructor|done]. Qed.

Lemma pop_request r rest : request_ok r → try_pop_adu (request_wire r ++ rest) = (MOk (request_wire r), rest).
Proof. intros [Ht Hp]. by apply pop_wire. Qed.

Lemma pop_part rs part : Forall request_ok rs → partial_of rs part →
  ∃ m, try_pop_adu part = (MFail MErr.NeedMore m, part).
Proof.
  intros Hrs [-> | (r & rs' & n & -> & Hn & ->)]; [by eexists|]. apply Forall_cons in Hrs as [[Ht Hp] _].
  by apply (pop_partial _ _ _ [] Ht Hp).
Qed.

Lemma serve_frames_stream a : ∀ turns b part regs sends,
  Forall request_ok (a ++ b) → partial_of b part → sends_ok sends → (length a < turns)%nat →
  serve_frames turns (wires a ++ part) regs sends = (true, part, (answer_all a regs).2, (answer_all a regs).1).
Proof.
  induction a as [|r a IH]; intros turns b part regs sends Hok Hpart Hs Hn; (destruct turns as [|turns]; [cbn in Hn; lia|]).
  - destruct (pop_part _ _ Hok Hpart) as [m Hm]. cbn [serve_frames wires concat map app]. by rewrite Hm.
  - apply Forall_cons in Hok as [Hr Hok]. cbn [serve_frames].
    change (wires (r :: a)) with (request_wire r ++ wires a). rewrite <- app_assoc.
    rewrite pop_request by done. rewrite answer_frame_wire by done.
    destruct (sends_step _ Hs) as [Hh Ht]. rewrite serve_send_ok by done. cbn [negb].
    rewrite (IH turns b) by (done || (cbn in Hn; lia)). cbn [answer_all].
    destruct (answer r regs) as [out regs1]. cbn [fst snd]. by destruct (answer_all a regs1).
Qed.

Lemma wires_length rs : (length rs ≤ length (wires rs))%nat.
Proof.
  induction rs as [|r rs IH]; [done|]. change (wires (r :: rs)) with (request_wire r ++ wires rs).
  unfold request_wire. rewrite length_app, adu_wire_length. cbn. lia.
Qed.

Lemma serve_buffer_stream a b part regs sends :
  Forall request_ok (a ++ b) → partial_of b part → sends_ok sends →
  serve_buffer (wires a ++ part) regs sends = (true, part, (answer_all a regs).2, (answer_all a regs).1).
Proof.
  intros. apply (serve_frames_stream a _ b); [done..|]. pose proof (wires_length a). rewrite length_app. lia.
Qed.

(** What the turns of a connection bring, when nothing ends it. *)
Definition turn_chunk (t : ServeTurn) : list Z := match t with ServeRecv chunk _ => chunk | _ => [] end.
Definition turn_ok (t : ServeTurn) : Prop :=
  match t with
  | ServePollErrno e => e = EINTR
  | ServeIdle => True
  | ServeRecv chunk sends => chunk ≠ [] ∧ sends_ok sends
  | ServeHup | ServeRecvEnd => False
  end.
Definition received (turns : list ServeTurn) : list Z := concat (map turn_chunk turns).

Lemma answer_all_app a b regs :
  answer_all (a ++ b) regs =
  ((answer_all a regs).1 ++ (answer_all b (answer_all a regs).2).1, (answer_all b (answer_all a regs).2).2).
Proof.
  revert regs. induction a as [|r a IH]; intros regs; cbn; [by destruct (answer_all b regs)|].
  destruct (answer r regs) as [o regs1]. rewrite IH. destruct (answer_all a regs1) as [o2 regs2]. cbn. by rewrite app_assoc.
Qed.

Lemma serve_client_stream turns : ∀ rs rest part regs,
  Forall request_ok rs → partial_of rs part → Forall turn_ok turns → part ++ received turns ++ rest = wires rs →
  ∃ a b part', rs = a ++ b ∧ part ++ received turns = wires a ++ part' ∧ partial_of b part' ∧
    serve_client turns part regs = (part', (answer_all a regs).2, (answer_all a regs).1).
Proof.
  induction turns as [|t turns IH]; intros rs rest part regs Hok Hpart Hts Hw.
  - exists [], rs, part. cbn in *. rewrite app_nil_r. done.
  - apply Forall_cons in Hts as [Ht Hts]. destruct t as [e| | |chunk sends|]; cbn in Ht; try done.
    + subst e. cbn. by apply (IH rs rest).
    + cbn. by apply (IH rs rest).
    + destruct Ht as [Hc Hs]. change (received (ServeRecv chunk sends :: turns)) with (chunk ++ received turns) in *.
      destruct (cut_stream rs (part ++ chunk) (received turns ++ rest)) as (a & b & part1 & -> & Hp & Hpart1 & Hb).
      { by rewrite <- Hw, <- !app_assoc. }
      pose proof Hok as Hok'. apply Forall_app in Hok' as [_ Hokb]. cbn [serve_client].
      rewrite (proj2 (Nat.eqb_neq _ _)) by (by destruct chunk).
      rewrite Hp, (serve_buffer_stream a b) by done. cbn [negb].
      destruct (IH b rest part1 (answer_all a regs).2 Hokb Hpart1 Hts Hb) as (a2 & b2 & part2 & -> & Hp2 & Hpart2 & ->).
      exists (a ++ a2), b2, part2. split_and!; [by rewrite app_assoc| |done|by rewrite answer_all_app].
      rewrite app_assoc, Hp, wires_app, <- !app_assoc. by f_equal.
Qed.

(** The stream of whole requests leaves nothing behind. *)
Lemma stream_ends rs part : Forall request_ok rs → partial_of rs part → part = wires rs → rs = [] ∧ part = [].
Proof.
  intros Hok Hpart Hw. destruct rs as [|r rs]; [done|]. exfalso.
  change (wires (r :: rs)) with (request_wire r ++ wires rs) in Hw.
  assert (Hl : length part = (length (request_wire r) + length (wires rs))%nat) by (by rewrite Hw, length_app).
  destruct Hpart as [-> | (r' & rs' & n & [= <- <-] & Hn & ->)].
  - unfold request_wire in Hl. rewrite adu_wire_length in Hl. cbn in Hl. lia.
  - rewrite length_take in Hl. lia.
Qed.

Lemma serve_whole turns rs regs :
  Forall request_ok rs → Forall turn_ok turns → received turns = wires rs →
  serve_client turns [] regs = ([], (answer_all rs regs).2, (answer_all rs regs).1).
Proof.
  intros Hok Hts Hr. destruct (serve_client_stream turns rs [] [] regs) as (a & b & part & -> & Hp & Hpart & Hs);
    [done|by left|done|by rewrite app_nil_r|].
  apply Forall_app in Hok as [_ Hb]. cbn in Hp. rewrite Hr, wires_app in Hp. apply app_inv_head in Hp.
  destruct (stream_ends b part Hb Hpart (eq_sym Hp)) as [-> ->]. by rewrite app_nil_r.
Qed.

(** However a client's byte stream is cut into receptions (interrupts and idle polls in
    between, several requests in one reception, one request over many), the server sends
    exactly one response frame for each request, in order, with the request's transaction id
    and unit, each computed on the registers the earlier requests left, and keeps nothing in
    its buffer. *)
Theorem server_answers_stream turns rs regs :
  Forall request_ok rs → Forall turn_ok turns → received turns = wires rs →
  serve_client turns [] regs = ([], (answer_all rs regs).2, (answer_all rs regs).1).
Proof. apply serve_whole. Qed.

Definition demo_requests : list Request :=
  [mkRequest 1 1 [0x06; 0; 10; 0xBE; 0xEF]; mkRequest 2 1 [0x03; 0; 10; 0; 1]].

Lemma server_answers_stream_witness :
  serve_client
    [ServeIdle; ServeRecv [0; 1; 0] []; ServePollErrno EINTR; ServeRecv [0; 0; 6; 1; 6; 0; 10; 0xBE; 0xEF; 0; 2] [[3]];
     ServeRecv [0; 0; 0; 6; 1; 3; 0; 10; 0; 1] []] [] (holding_new 64)
  = ([], <[10%nat := 0xBEEF]> (holding_new 64),
     [0; 1; 0; 0; 0; 6; 1; 6; 0; 10; 0xBE; 0xEF; 0; 2; 0; 0; 0; 5; 1; 3; 2; 0xBE; 0xEF]).
Proof.
  rewrite (server_answers_stream _ demo_requests (holding_new 64)); [vm_compute; reflexivity| | |reflexivity].
  - repeat constructor; cbn; lia.
  - repeat (constructor; [repeat (constructor || lia || done)|]). constructor.
Defined.

(** ** A call across the link *)

(** The turns of the client's receive loop that bring [bytes] and nothing else. *)
Definition rx_ok (t : MRxTurn) : Prop :=
  mx_poll t = PollReady ∧ mx_hup t = false ∧
  match mx_recv t with ReadErrno e => e = EINTR | ReadBytes chunk => chunk ≠ [] end.
Definition rx_chunk (t : MRxTurn) : list Z := match mx_recv t with ReadBytes chunk => chunk | _ => [] end.
Definition rx_received (turns : list MRxTurn) : list Z := concat (map rx_chunk turns).

Lemma pop_exact tid unit pdu : is_u 16 tid → pdu_ok pdu →
  try_pop_adu (adu_wire tid unit pdu) = (MOk (adu_wire tid unit pdu), []).
Proof. intros. rewrite <- (app_nil_r (adu_wire tid unit pdu)) at 1. by apply pop_wire. Qed.

Lemma recv_adu_stream turns : ∀ part tid unit pdu,
  is_u 16 tid → pdu_ok pdu → Forall rx_ok turns → part ++ rx_received turns = adu_wire tid unit pdu →
  recv_adu turns part = Some (MOk (adu_wire tid unit pdu), []).
Proof.
  induction turns as [|t turns IH]; intros part tid unit pdu Ht Hp Hts Hw.
  - change (rx_received []) with (@nil Z) in Hw. rewrite app_nil_r in Hw. subst part. cbn [recv_adu]. by rewrite pop_exact.
  - apply Forall_cons in Hts as [(Hpoll & Hhup & Hrecv) Hts].
    change (rx_received (t :: turns)) with (rx_chunk t ++ rx_received turns) in Hw. unfold rx_chunk in Hw.
    cbn [recv_adu]. destruct (decide (length part < length (adu_wire tid unit pdu))%nat) as [Hlt|Hge].
    + assert (Hpart : part = take (length part) (adu_wire tid unit pdu)) by (rewrite <- Hw; by rewrite take_app_length).
      destruct (pop_partial tid unit pdu [] Ht Hp (length part) Hlt) as [m Hm]. rewrite <- Hpart in Hm. rewrite Hm.
      change (negb (MErr.NeedMore ==? MErr.NeedMore)) with false. cbn iota. rewrite Hpoll, Hhup.
      destruct (mx_recv t) as [chunk|e]; [|subst e; by apply IH].
      destruct chunk as [|b chunk]; [done|]. apply IH; [done..|]. by rewrite <- app_assoc.
    + assert (Hr : rx_chunk t ++ rx_received turns = []).
      { apply nil_length_inv. apply (f_equal length) in Hw. rewrite !length_app in Hw. unfold rx_chunk. rewrite length_app. lia. }
      unfold rx_chunk in Hr. rewrite Hr, app_nil_r in Hw. subst part. by rewrite pop_exact.
Qed.

(** The loop of a block write replaces the block. *)
Lemma write_from_block vs : ∀ start regs, (start + length vs ≤ length regs)%nat →
  write_from start vs regs = take start regs ++ vs ++ drop (start + length vs) regs.
Proof.
  induction vs as [|v vs IH]; intros start regs Hl; cbn [write_from length] in *.
  - rewrite Nat.add_0_r. symmetry. apply take_drop.
  - rewrite IH by (rewrite length_insert; lia).
    rewrite drop_insert_lt by lia. replace (S start + length vs)%nat with (start + S (length vs))%nat by lia.
    destruct (lookup_lt_is_Some_2 regs start) as [x Hx]; [lia|].
    rewrite (take_S_r _ _ v) by (rewrite list_lookup_insert_eq by lia; done). rewrite take_insert_ge by lia.
    by rewrite <- app_assoc.
Qed.

(** The requests' bytes. *)
Definition pair_pdu (fc a v : Z) : list Z := [fc] ++ word a ++ word v.
Definition block_pdu (a : Z) (vs : list Z) : list Z :=
  [kFcWriteMultiple] ++ word a ++ word (Z.of_nat (length vs)) ++ [2 * Z.of_nat (length vs)] ++ words vs.

Lemma pair_words fc a v : is_u 16 a → is_u 16 v →
  get_u16_be (pair_pdu fc a v) 1 = MOk a ∧ get_u16_be (pair_pdu fc a v) 3 = MOk v.
Proof.
  intros Ha Hv. unfold pair_pdu. split; [by apply (get_word [fc] a)|].
  rewrite <- (app_nil_r (word v)). rewrite app_assoc. by apply (get_word ([fc] ++ word a) v []).
Qed.

Lemma handle_read a q regs : is_u 16 a → is_u 16 q →
  handle_pdu (pair_pdu kFcReadHolding a q) regs =
  (match holding_read regs a q with MFail e m => refusal kFcReadHolding e m | MOk vs => encode_read_holding_response vs end, regs).
Proof.
  intros Ha Hq. destruct (pair_words kFcReadHolding a q Ha Hq) as [H1 H3]. unfold handle_pdu. rewrite H1, H3.
  cbn -[holding_read refusal encode_read_holding_response]. by destruct (holding_read regs a q).
Qed.

Lemma handle_write a v regs : is_u 16 a → is_u 16 v →
  handle_pdu (pair_pdu kFcWriteSingle a v) regs =
  if (length regs <=? Z.to_nat a)%nat then (encode_exception_response kFcWriteSingle kExIllegalDataAddress, regs)
  else (MOk (pair_pdu kFcWriteSingle a v), <[Z.to_nat a := v]> regs).
Proof.
  intros Ha Hv. destruct (pair_words kFcWriteSingle a v Ha Hv) as [H1 H3]. unfold handle_pdu. rewrite H1, H3.
  cbn -[encode_exception_response holding_write_single]. unfold holding_write_single. by destruct (_ <=? _)%nat.
Qed.

Lemma block_words a vs : is_u 16 a → (1 ≤ length vs ≤ 123)%nat → Forall (is_u 16) vs →
  get_u16_be (block_pdu a vs) 1 = MOk a ∧ get_u16_be (block_pdu a vs) 3 = MOk (Z.of_nat (length vs)) ∧
  read_words (block_pdu a vs) 6 (length vs) = MOk vs.
Proof.
  intros Ha Hl Hvs. unfold block_pdu. split_and!.
  - by apply (get_word [kFcWriteMultiple] a).
  - rewrite (app_assoc [_] (word a)). apply (get_word ([kFcWriteMultiple] ++ word a)); [unfold is_u; lia|done].
  - rewrite <- (app_nil_r (words vs)), !app_assoc, <- (app_assoc _ (words vs)). by apply read_words_back.
Qed.

Lemma handle_block a vs regs : is_u 16 a → (1 ≤ length vs ≤ 123)%nat → Forall (is_u 16) vs →
  handle_pdu (block_pdu a vs) regs =
  if (length regs <? Z.to_nat a + length vs)%nat
  then (encode_exception_response kFcWriteMultiple kExIllegalDataAddress, regs)
  else (MOk (pair_pdu kFcWriteMultiple a (Z.of_nat (length vs))),
        take (Z.to_nat a) regs ++ vs ++ drop (Z.to_nat a + length vs) regs).
Proof.
  intros Ha Hl Hvs. destruct (block_words a vs Ha Hl Hvs) as (H1 & H3 & Hr). unfold handle_pdu. rewrite H1, H3.
  assert (Hlen : length (block_pdu a vs) = (6 + 2 * length vs)%nat) by (unfold block_pdu; rewrite !length_app, words_length; cbn; lia).
  rewrite Hlen, Nat2Z.id, Hr. change (byte_at (block_pdu a vs) 0) with kFcWriteMultiple.
  change (byte_at (block_pdu a vs) 5) with (2 * Z.of_nat (length vs)).
  replace (2 * Z.of_nat (length vs) =? Z.of_nat (length vs) * 2) with true by (symmetry; apply Z.eqb_eq; lia).
  rewrite (proj2 (Nat.eqb_eq _ (6 + Z.to_nat _))) by lia. rewrite (proj2 (Nat.ltb_ge _ 6)), (proj2 (Nat.eqb_neq (6 + _) 0)) by lia.
  change (kFcWriteMultiple =? kFcReadHolding) with false. change (kFcWriteMultiple =? kFcWriteSingle) with false.
  change (kFcWriteMultiple =? kFcWriteMultiple) with true. cbn [negb orb]. cbv zeta iota.
  unfold holding_write_multiple. rewrite (proj2 (Nat.eqb_neq (length vs) 0)), (proj2 (Nat.ltb_ge 123 _)) by lia. cbn [orb].
  destruct (Nat.ltb_spec (length regs) (Z.to_nat a + length vs)); [done|]. by rewrite write_from_block.
Qed.

(** What the client makes of the answers. *)
Definition exception_result {T} (code : Z) : MResult T := MFail MErr.ExceptionResponse ("exception code=" +:+ pretty code).

Lemma read_response_exception {T} (decode : list Z → MResult T) m fc code : 0 ≤ fc < 128 →
  read_response decode (mkAdu m [u8 (Z.lor fc 0x80); code]) = exception_result code.
Proof.
  intros Hfc. assert (u8 (Z.lor fc 0x80) = fc + 128 ∧ Z.land (fc + 128) 0x80 = 128) as [H1 H2].
  { assert (Hall : forallb (λ n, (u8 (Z.lor (Z.of_nat n) 0x80) =? Z.of_nat n + 128) &&
      (Z.land (Z.of_nat n + 128) 0x80 =? 128)) (seq 0 128) = true) by (vm_compute; reflexivity).
    rewrite forallb_forall in Hall. specialize (Hall (Z.to_nat fc)). rewrite Z2Nat.id in Hall by lia.
    assert (Hin : In (Z.to_nat fc) (seq 0 128)) by (apply in_seq; lia).
    apply Hall, andb_true_iff in Hin as [?%Z.eqb_eq ?%Z.eqb_eq]. done. }
  unfold read_response, decode_exception_response, byte_at. cbn -[Z.lor Z.land u8]. rewrite H1, H2. done.
Qed.

Lemma decode_read_back vs : (1 ≤ length vs ≤ 125)%nat → Forall (is_u 16) vs →
  decode_read_holding_response ([kFcReadHolding; 2 * Z.of_nat (length vs)] ++ words vs) = MOk vs.
Proof.
  intros Hl Hvs. unfold decode_read_holding_response. rewrite length_app, words_length.
  change (byte_at (_ ++ _) 0) with kFcReadHolding. change (byte_at (_ ++ _) 1) with (2 * Z.of_nat (length vs)).
  cbn [length]. rewrite (proj2 (Nat.ltb_ge _ _)) by lia. change (negb (kFcReadHolding =? kFcReadHolding)) with false. cbn iota zeta.
  rewrite (Z.mul_comm 2), Z_mod_mult, Z_div_mult, Nat2Z.id by lia. change (negb (0 =? 0)) with false. cbn iota.
  rewrite (proj2 (Nat.eqb_eq _ _)) by lia. cbn [negb].
  rewrite <- (app_nil_r (words vs)). by apply read_words_back.
Qed.

Lemma decode_pair_back fc a v wrong short : is_u 16 a → is_u 16 v →
  decode_pair fc wrong short (pair_pdu fc a v) = MOk (a, v).
Proof.
  intros Ha Hv. destruct (pair_words fc a v Ha Hv) as [H1 H3]. unfold decode_pair. rewrite H1, H3.
  change (byte_at (pair_pdu fc a v) 0) with fc. change (length (pair_pdu fc a v) =? 5)%nat with true. by rewrite Z.eqb_refl.
Qed.

Section Call.
Context (env : CallEnv) (c : Client) (k : Kernel) (regs : list Z) (turns : list ServeTurn).

Let tid : Z := mc_next_tid c.
Let unit : Z := cl_unit_id (mc_config c).

(** The request arrives at the server and its answer at the client, both cut anyhow. *)
Definition exchanged (pdu : list Z) : Prop :=
  m_send_all (length (adu_wire tid unit pdu)) 0 (te_tx (ca_first env)) = Some (MOk true) ∧
  Forall turn_ok turns ∧ received turns = adu_wire tid unit pdu ∧
  Forall rx_ok (te_rx (ca_first env)) ∧ rx_received (te_rx (ca_first env)) = (serve_client turns [] regs).2.

Definition regs_after : list Z := (serve_client turns [] regs).1.2.
Definition client_after : Client := (take_tid c).2.

(** A client in step: connected, nothing left over. *)
Definition in_step : Prop := 0 ≤ mc_fd c ∧ mc_buffer c = [] ∧ is_u 16 tid.
Hypothesis Hstep : in_step.

Lemma link_transact pdu resp regs' : pdu_ok pdu → exchanged pdu → handle_pdu pdu regs = (MOk resp, regs') →
  transact_raw pdu env c k = Some (MOk (mkAdu (mkMbap tid 0 (1 + Z.of_nat (length resp)) unit) resp), client_after, k) ∧
  regs_after = regs'.
Proof.
  intros Hp (Htx & Hts & Hrecv & Hrx & Hback) Hh. destruct Hstep as (Hfd & Hbuf & Htid).
  assert (Hr : request_ok (mkRequest tid unit pdu)) by done.
  assert (Hserve : serve_client turns [] regs = ([], regs', adu_wire tid unit resp)).
  { rewrite (serve_whole turns [mkRequest tid unit pdu]); [|by constructor|done|by rewrite Hrecv; cbn; rewrite app_nil_r].
    cbn [answer_all]. unfold answer. cbn [rq_pdu rq_tid rq_unit]. rewrite Hh. cbn. by rewrite app_nil_r. }
  destruct (handle_pdu_answers pdu regs Hp) as (resp' & regs'' & Hh' & Hresp). rewrite Hh in Hh'. simplify_eq.
  unfold regs_after. rewrite Hserve in *. split; [|done]. cbn [snd] in Hback.
  unfold transact_raw, ensure_connected. rewrite (proj2 (Z.leb_le 0 _)) by done.
  unfold take_tid. cbn [mc_config]. unfold transact_once. cbn -[encode_adu adu_wire m_send_all recv_adu u16 match_response].
  change kProtocolId with 0. rewrite encode_adu_wire by done. fold tid unit. rewrite Htx, Hbuf.
  rewrite (recv_adu_stream _ [] tid unit resp') by done. unfold match_response.
  rewrite <- (app_nil_r (adu_wire tid unit resp')). rewrite decode_wire by done. cbn -[u16]. rewrite !Z.eqb_refl. cbn [negb].
  unfold client_after, take_tid. by do 3 f_equal.
Qed.

(** The refused access. *)
Lemma link_refused {T} (decode : list Z → MResult T) request pdu fc code : 0 ≤ fc < 128 →
  request = MOk pdu → pdu_ok pdu → exchanged pdu → handle_pdu pdu regs = (encode_exception_response fc code, regs) →
  client_call request decode env c k = Some (exception_result code, client_after, k) ∧ regs_after = regs.
Proof.
  intros Hfc -> Hp Hx Hh. destruct (link_transact pdu _ _ Hp Hx Hh) as [Ht Hr]. unfold client_call. rewrite Ht.
  cbn [m_bind app]. by rewrite (read_response_exception decode _ fc code).
Qed.

Lemma link_done {T} (decode : list Z → MResult T) request pdu resp regs' x :
  request = MOk pdu → pdu_ok pdu → exchanged pdu → handle_pdu pdu regs = (MOk resp, regs') →
  Z.land (byte_at resp 0) 0x80 = 0 → decode resp = MOk x →
  client_call request decode env c k = Some (MOk x, client_after, k) ∧ regs_after = regs'.
Proof.
  intros -> Hp Hx Hh H0 Hd. destruct (link_transact pdu _ _ Hp Hx Hh) as [Ht Hr]. unfold client_call. rewrite Ht.
  cbn [m_bind]. unfold read_response. cbn [adu_pdu]. rewrite H0. change (negb (0 =? 0)) with false.
  by rewrite andb_false_r, Hd.
Qed.

Lemma pair_pdu_ok fc a v : pdu_ok (pair_pdu fc a v).
Proof. unfold pdu_ok, kMaxPduSize. cbn. lia. Qed.

Lemma link_read a q : Forall (is_u 16) regs → is_u 16 a → 1 ≤ q ≤ 125 → exchanged (pair_pdu kFcReadHolding a q) →
  client_read_holding a q env c k =
    Some (if (Z.to_nat a + Z.to_nat q <=? length regs)%nat then MOk (take (Z.to_nat q) (drop (Z.to_nat a) regs))
          else exception_result kExIllegalDataAddress, client_after, k) ∧ regs_after = regs.
Proof.
  intros Hregs Ha Hq Hx. assert (Hreq : encode_read_holding_request a q = MOk (pair_pdu kFcReadHolding a q)).
  { unfold encode_read_holding_request. by rewrite !(proj2 (Z.ltb_ge _ _)) by lia. }
  assert (Hq16 : is_u 16 q) by (unfold is_u; lia). pose proof (handle_read a q regs Ha Hq16) as Hh.
  unfold holding_read in Hh. rewrite !(proj2 (Z.ltb_ge _ _)) in Hh by lia. cbn [orb] in Hh.
  rewrite Nat.leb_antisym. destruct (Nat.ltb_spec (length regs) (Z.to_nat a + Z.to_nat q)) as [Hl|Hl]; cbn [negb].
  - eapply (link_refused _ _ _ kFcReadHolding); [done|done|apply pair_pdu_ok|done|exact Hh].
  - replace (Z.to_nat a + Z.to_nat q - Z.to_nat a)%nat with (Z.to_nat q) in Hh by lia.
    assert (Hvs : length (take (Z.to_nat q) (drop (Z.to_nat a) regs)) = Z.to_nat q) by (rewrite length_take, length_drop; lia).
    rewrite read_answer in Hh by lia.
    eapply link_done; [done|apply pair_pdu_ok|done|exact Hh|done|].
    apply decode_read_back; [lia|]. by apply Forall_take, Forall_drop.
Qed.

Lemma link_write a v : is_u 16 a → is_u 16 v → exchanged (pair_pdu kFcWriteSingle a v) →
  client_write_single a v env c k =
    Some (if (Z.to_nat a <? length regs)%nat then MOk (a, v) else exception_result kExIllegalDataAddress, client_after, k) ∧
  regs_after = (if (Z.to_nat a <? length regs)%nat then <[Z.to_nat a := v]> regs else regs).
Proof.
  intros Ha Hv Hx. pose proof (handle_write a v regs Ha Hv) as Hh. rewrite Nat.leb_antisym in Hh.
  destruct (Z.to_nat a <? length regs)%nat; cbn [negb] in Hh.
  - eapply link_done; [done|apply pair_pdu_ok|done|exact Hh|done|by apply decode_pair_back].
  - by eapply (link_refused _ _ _ kFcWriteSingle); [|done|apply pair_pdu_ok|done|exact Hh].
Qed.

Lemma block_pdu_ok a vs : (1 ≤ length vs ≤ 123)%nat → pdu_ok (block_pdu a vs).
Proof. intros. unfold pdu_ok, kMaxPduSize, block_pdu. rewrite !length_app, words_length. cbn. lia. Qed.

Lemma link_block a vs : is_u 16 a → (1 ≤ length vs ≤ 123)%nat → Forall (is_u 16) vs → exchanged (block_pdu a vs) →
  client_write_multiple a vs env c k =
    Some (if (Z.to_nat a + length vs <=? length regs)%nat then MOk (a, Z.of_nat (length vs))
          else exception_result kExIllegalDataAddress, client_after, k) ∧
  regs_after = (if (Z.to_nat a + length vs <=? length regs)%nat
    then take (Z.to_nat a) regs ++ vs ++ drop (Z.to_nat a + length vs) regs else regs).
Proof.
  intros Ha Hl Hvs Hx. assert (Hreq : encode_write_multiple_request a vs = MOk (block_pdu a vs)).
  { unfold encode_write_multiple_request. rewrite (proj2 (Nat.eqb_neq _ _)), (proj2 (Nat.ltb_ge _ _)) by lia. cbn [orb].
    rewrite put_words. unfold byte_count_of. rewrite u8_small, u16_small by (unfold is_byte, is_u; lia).
    unfold block_pdu. by rewrite (Z.mul_comm 2). }
  pose proof (handle_block a vs regs Ha Hl Hvs) as Hh. rewrite Nat.leb_antisym.
  destruct (length regs <? Z.to_nat a + length vs)%nat; cbn [negb].
  - by eapply (link_refused _ _ _ kFcWriteMultiple); [|done|apply block_pdu_ok|done|exact Hh].
  - eapply link_done; [done|by apply block_pdu_ok|done|exact Hh|done|apply decode_pair_back; [done|unfold is_u; lia]].
Qed.

End Call.

Lemma next_tid_fresh c : is_u 16 (mc_next_tid c) →
  is_u 16 (mc_next_tid (take_tid c).2) ∧ mc_next_tid (take_tid c).2 ≠ 0 ∧
  (mc_next_tid c ≠ 0 → mc_next_tid (take_tid c).2 ≠ mc_next_tid c).
Proof.
  unfold take_tid, is_u, u16. cbn -[Z.modulo Z.pow]. intros Ht. change (2 ^ 16) with 65536 in *.
  destruct (decide (mc_next_tid c = 65535)) as [E|Hne]; [rewrite E; vm_compute; split_and!; done|].
  unfold wrap. change (2 ^ 16) with 65536. rewrite Z.mod_small by lia. rewrite (proj2 (Z.eqb_neq _ _)) by lia. lia.
Qed.

(** C30.  A call across the link is an access to the server's registers: a read returns the
    block of registers, a single write and a block write echo what they wrote and store it,
    an address past the end is reported as the exception with code 2 and changes nothing;
    the descriptors are untouched and the client stays in step, so the next call is again
    such an access. *)
Theorem call_is_register_access env c k regs turns :
  in_step c → Forall (is_u 16) regs →
  (∀ a q, is_u 16 a → 1 ≤ q ≤ 125 → exchanged env c regs turns (pair_pdu kFcReadHolding a q) →
    client_read_holding a q env c k =
      Some (if (Z.to_nat a + Z.to_nat q <=? length regs)%nat then MOk (take (Z.to_nat q) (drop (Z.to_nat a) regs))
            else exception_result kExIllegalDataAddress, client_after c, k) ∧ regs_after regs turns = regs) ∧
  (∀ a v, is_u 16 a → is_u 16 v → exchanged env c regs turns (pair_pdu kFcWriteSingle a v) →
    client_write_single a v env c k =
      Some (if (Z.to_nat a <? length regs)%nat then MOk (a, v) else exception_result kExIllegalDataAddress, client_after c, k) ∧
    regs_after regs turns = (if (Z.to_nat a <? length regs)%nat then <[Z.to_nat a := v]> regs else regs)) ∧
  (∀ a vs, is_u 16 a → (1 ≤ length vs ≤ 123)%nat → Forall (is_u 16) vs → exchanged env c regs turns (block_pdu a vs) →
    client_write_multiple a vs env c k =
      Some (if (Z.to_nat a + length vs <=? length regs)%nat then MOk (a, Z.of_nat (length vs))
            else exception_result kExIllegalDataAddress, client_after c, k) ∧
    regs_after regs turns = (if (Z.to_nat a + length vs <=? length regs)%nat
      then take (Z.to_nat a) regs ++ vs ++ drop (Z.to_nat a + length vs) regs else regs)) ∧
  in_step (client_after c).
Proof.
  intros Hs Hregs. split_and!; intros; [by apply link_read|by apply link_write|by apply link_block|].
  destruct Hs as (Hfd & Hb & Ht). split_and!; [done|done|]. by apply next_tid_fresh.
Qed.

(** ** Losing one's place in the stream *)

(** Calls one after another. *)
Fixpoint run_calls (calls : list (list Z * CallEnv)) (c : Client) (k : Kernel)
    : option (list (MResult Adu) * Client * Kernel) :=
  match calls with
  | [] => Some ([], c, k)
  | (pdu, env) :: calls =>
      match transact_raw pdu env c k with
      | None => None
      | Some (r, c, k) =>
          match run_calls calls c k with
          | None => None
          | Some (rs, c, k) => Some (r :: rs, c, k)
          end
      end
  end.

(** A call whose request goes out whole. *)
Definition sent_whole (pdu : list Z) (env : CallEnv) : Prop :=
  pdu_ok pdu ∧ m_send_all (7 + length pdu) 0 (te_tx (ca_first env)) = Some (MOk true).

Lemma transact_open pdu env c k : 0 ≤ mc_fd c → sent_whole pdu env →
  transact_raw pdu env c k =
  match recv_adu (te_rx (ca_first env)) (mc_buffer c) with
  | None => None
  | Some (r, buffer) =>
      let c' := (take_tid c).2 <| mc_buffer := buffer |> in
      match m_bind r (match_response (mc_next_tid c) (cl_unit_id (mc_config c))) with
      | MOk adu => Some (MOk adu, c', k)
      | MFail e m =>
          if negb (is_connection_error e) then Some (MFail e m, c', k)
          else
            let '(c, k) := client_close c' k in
            match reconnect_with_backoff (ca_reconnects env) c k with
            | (MFail e m, c, k, _) => Some (MFail e m, c, k)
            | (MOk _, c, k, _) =>
                let '(tid2, c) := take_tid c in
                match transact_once pdu tid2 (ca_second env) c with None => None | Some (r, c) => Some (r, c, k) end
            end
      end
  end.
Proof.
  intros Hfd [Hp Htx]. unfold transact_raw, ensure_connected. rewrite (proj2 (Z.leb_le 0 _)) by done.
  unfold take_tid at 1. unfold transact_once at 1. change kProtocolId with 0. rewrite encode_adu_wire by done.
  rewrite adu_wire_length, Htx. cbn [mc_buffer]. change (mc_buffer (c <| mc_next_tid := _ |>)) with (mc_buffer c).
  destruct (recv_adu _ _) as [[[frame|e m] buffer]|]; [|done..]. cbn [m_bind].
  change (cl_unit_id (mc_config (c <| mc_next_tid := _ |>))) with (cl_unit_id (mc_config c)).
  by destruct (match_response _ _ frame).
Qed.

(** The answers the reference server owes, one request late: each call is brought the answer
    to the request before it. *)
Fixpoint one_late (prev : Request) (regs : list Z) (calls : list (list Z * CallEnv)) (c : Client) : Prop :=
  match calls with
  | [] => True
  | (pdu, env) :: calls =>
      sent_whole pdu env ∧ Forall rx_ok (te_rx (ca_first env)) ∧
      rx_received (te_rx (ca_first env)) = (answer prev regs).1 ∧
      one_late (mkRequest (mc_next_tid c) (cl_unit_id (mc_config c)) pdu) (answer prev regs).2 calls (take_tid c).2
  end.

Lemma late_call_mismatch prev regs pdu env c k :
  in_step c → request_ok prev → rq_tid prev ≠ mc_next_tid c → sent_whole pdu env → Forall rx_ok (te_rx (ca_first env)) →
  rx_received (te_rx (ca_first env)) = (answer prev regs).1 →
  transact_raw pdu env c k = Some (MFail MErr.TransactionMismatch "response transaction id mismatch", (take_tid c).2, k).
Proof.
  intros (Hfd & Hb & Ht) [Hpt Hpp] Hne Hs Hrx Hback. rewrite transact_open by done. rewrite Hb.
  destruct (handle_pdu_answers (rq_pdu prev) regs Hpp) as (resp & regs' & Hh & Hresp).
  unfold answer in Hback. rewrite Hh in Hback. cbn [fst] in Hback.
  rewrite (recv_adu_stream _ [] (rq_tid prev) (rq_unit prev) resp) by done. cbn [m_bind]. unfold match_response.
  rewrite <- (app_nil_r (adu_wire _ _ resp)). rewrite decode_wire by done. cbn [m_bind adu_mbap mb_transaction_id].
  rewrite (proj2 (Z.eqb_neq _ _)) by done. cbn -[take_tid]. by destruct c as [cfg fd next buf]; cbn in Hb; subst buf.
Qed.

Lemma late_calls_mismatch calls : ∀ prev regs c k,
  in_step c → request_ok prev → rq_tid prev ≠ mc_next_tid c → mc_next_tid c ≠ 0 → one_late prev regs calls c →
  ∃ c', run_calls calls c k =
    Some (replicate (length calls) (MFail MErr.TransactionMismatch "response transaction id mismatch"), c', k) ∧
    mc_fd c' = mc_fd c.
Proof.
  induction calls as [|[pdu env] calls IH]; intros prev regs c k Hstep Hprev Hne H0 Hl; [by exists c|].
  destruct Hl as (Hs & Hrx & Hback & Hl). cbn [run_calls]. rewrite (late_call_mismatch prev regs) by done.
  pose proof Hstep as (Hfd & Hb & Ht). destruct (next_tid_fresh c Ht) as (Hu & Hz & Hd).
  destruct (λ h1 h2 h3 h4, IH _ _ _ k h1 h2 h3 h4 Hl) as (c' & -> & Hc').
  - by split_and!.
  - by destruct Hs.
  - apply not_eq_sym, Hd, H0.
  - done.
  - by exists c'.
Qed.

(** One response that comes after its timeout puts a client out of step for good.  The
    call that timed out leaves the connection open, and from then on every call is brought
    the answer to the call before it and fails with a transaction mismatch, however long the
    connection lives; no call closes the connection or skips the stale answer. *)
Theorem timeout_loses_step c k regs pdu env calls :
  in_step c → mc_next_tid c ≠ 0 → sent_whole pdu env →
  te_rx (ca_first env) = [mkMRxTurn PollTimeout false (ReadBytes [])] →
  one_late (mkRequest (mc_next_tid c) (cl_unit_id (mc_config c)) pdu) regs calls (take_tid c).2 →
  ∃ c', run_calls ((pdu, env) :: calls) c k =
    Some (MFail MErr.Timeout "response timeout" ::
      replicate (length calls) (MFail MErr.TransactionMismatch "response transaction id mismatch"), c', k) ∧
    mc_fd c' = mc_fd c.
Proof.
  intros Hstep H0 Hs Hrx Hl. pose proof Hstep as (Hfd & Hb & Ht). destruct (next_tid_fresh c Ht) as (Hu & Hz & Hd).
  assert (Hto : transact_raw pdu env c k = Some (MFail MErr.Timeout "response timeout", (take_tid c).2, k)).
  { rewrite transact_open by done. rewrite Hrx, Hb. by destruct c as [cfg fd next buf]; cbn in Hb; subst buf. }
  cbn [run_calls]. rewrite Hto. destruct (λ h1 h2 h3 h4, late_calls_mismatch _ _ _ _ k h1 h2 h3 h4 Hl) as (c' & -> & Hc').
  - by split_and!.
  - by destruct Hs.
  - apply not_eq_sym, Hd, H0.
  - done.
  - by exists c'.
Qed.

(** A frame head that can not be cut is never passed over. *)
Lemma recv_bad turns buffer e m : try_pop_adu buffer = (MFail e m, buffer) → e ≠ MErr.NeedMore →
  recv_adu turns buffer = Some (MFail e m, buffer).
Proof.
  intros Hp He. destruct turns; cbn [recv_adu]; rewrite Hp; rewrite bool_decide_eq_false_2 by done; done.
Qed.

(** A frame head that can not be cut (a wrong protocol id, an impossible length) stays
    in the client's buffer: every later call sends its request and fails with the same error
    at once, without reading an answer, and the connection stays open; the frame reader's
    contract is that the caller closes it. *)
Theorem bad_stream_sticks calls c k e m :
  0 ≤ mc_fd c → try_pop_adu (mc_buffer c) = (MFail e m, mc_buffer c) →
  e = MErr.InvalidProtocolId ∨ e = MErr.InvalidLength → Forall (λ x, sent_whole x.1 x.2) calls →
  ∃ c', run_calls calls c k = Some (replicate (length calls) (MFail e m), c', k) ∧
    mc_fd c' = mc_fd c ∧ mc_buffer c' = mc_buffer c.
Proof.
  intros Hfd Hp He Hcalls. revert c Hfd Hp.
  induction Hcalls as [|[pdu env] calls Hs _ IH]; intros c Hfd Hp; [by exists c|]. cbn [run_calls].
  assert (Hc : transact_raw pdu env c k = Some (MFail e m, (take_tid c).2, k)).
  { rewrite transact_open by done. rewrite (recv_bad _ _ e m) by (done || by destruct He as [-> | ->]).
    cbn [m_bind]. replace (is_connection_error e) with false by (by destruct He as [-> | ->]).
    by destruct c. }
  rewrite Hc. by destruct (IH (take_tid c).2) as (c' & -> & H1 & H2); [done|done|exists c'].
Qed.

(** ** Reconnecting *)

(** The pause after the [i]-th failed attempt. *)
Definition backoff (cfg : ClientConfig) (i : nat) : Z := Z.min (cl_reconnect_base cfg * 2 ^ Z.of_nat i) (cl_reconnect_max cfg).

Lemma connect_config env c k : mc_config (client_connect env c k).1.2 = mc_config c.
Proof.
  unfold client_connect. assert (Hc : mc_config (client_close c k).1 = mc_config c) by (unfold client_close; by destruct (_ <=? _)).
  destruct (client_close c k) as [c1 k1]. cbn in Hc. repeat case_match; done.
Qed.

Lemma backoff_next cfg i : 0 ≤ cl_reconnect_max cfg → Z.min (backoff cfg i * 2) (cl_reconnect_max cfg) = backoff cfg (S i).
Proof. intros Hm. unfold backoff. rewrite Nat2Z.inj_succ, Z.pow_succ_r by lia. lia. Qed.

(** A connection that succeeded is on the socket it made, with nothing buffered. *)
Lemma connect_adopts env c k c' k' x :
  client_connect env c k = (MOk x, c', k') → cn_socket env = Some (mc_fd c') ∧ mc_buffer c' = [].
Proof.
  unfold client_connect. destruct (client_close c k) as [c1 k1]. intros H.
  by repeat (case_match; try discriminate H); injection H as <- <- <-.
Qed.

Lemma reconnect_loop_pace attempts : ∀ envs i last last_msg c k r c' k' pauses,
  0 ≤ cl_reconnect_max (mc_config c) →
  reconnect_loop attempts envs (backoff (mc_config c) i) last last_msg c k = (r, c', k', pauses) →
  pauses = map (backoff (mc_config c)) (seq i (length pauses)) ∧ (length pauses ≤ attempts)%nat ∧
  (m_ok r = false → length pauses = attempts) ∧
  (m_ok r = true → (length pauses < attempts)%nat ∧ cn_socket (envs (length pauses)) = Some (mc_fd c') ∧ mc_buffer c' = []).
Proof.
  induction attempts as [|n IH]; intros envs i last last_msg c k r c' k' pauses Hm H; cbn [reconnect_loop] in H.
  - simplify_eq. by split_and!; [| |intros|done].
  - pose proof (connect_config (envs 0%nat) c k) as Hcfg.
    destruct (client_connect (envs 0%nat) c k) as [[[x|e m] c1] k1] eqn:Hc; cbn in Hcfg.
    + simplify_eq. apply connect_adopts in Hc as [? ?]. split_and!; cbn; [done|lia|done|]. intros _. split_and!; [lia|done..].
    + destruct (reconnect_loop n _ _ _ _ _ _) as [[[r1 c2] k2] ps] eqn:Hl. simplify_eq.
      rewrite Hcfg, backoff_next in Hl by done. rewrite <- Hcfg in Hl, Hm. apply IH in Hl as (Hps & Hn & Hf & Ht); [|done].
      rewrite Hcfg in Hps. split_and!; cbn; [by f_equal|lia|intros; f_equal; auto|].
      intros Hr. destruct (Ht Hr) as (? & ? & ?). split_and!; [lia|done..].
Qed.

(** Reconnecting ends: after the [i]-th failure the client sleeps
    [min(base * 2^i, max)], it gives up exactly when all attempts have failed, and when it
    reports success it is on the socket of the attempt that succeeded, with the bytes of the
    old connection discarded. *)
Theorem reconnect_is_paced envs c k r c' k' pauses :
  0 ≤ cl_reconnect_base (mc_config c) ≤ cl_reconnect_max (mc_config c) →
  reconnect_with_backoff envs c k = (r, c', k', pauses) →
  pauses = map (backoff (mc_config c)) (seq 0 (length pauses)) ∧
  (length pauses ≤ Z.to_nat (cl_reconnect_attempts (mc_config c)))%nat ∧
  (m_ok r = false → length pauses = Z.to_nat (cl_reconnect_attempts (mc_config c))) ∧
  (m_ok r = true → (length pauses < Z.to_nat (cl_reconnect_attempts (mc_config c)))%nat ∧
    cn_socket (envs (length pauses)) = Some (mc_fd c') ∧ mc_buffer c' = []).
Proof.
  intros Hb H. unfold reconnect_with_backoff in H.
  replace (cl_reconnect_base (mc_config c)) with (backoff (mc_config c) 0) in H by (unfold backoff; cbn; lia).
  apply reconnect_loop_pace in H; [done|lia].
Qed.

(** ** Witnesses *)

Definition rx_all (bytes : list Z) : list MRxTurn := [mkMRxTurn PollReady false (ReadBytes bytes)].
Definition call_with (rx : list MRxTurn) : CallEnv :=
  let refused := λ _ : nat, mkMConnectEnv None false false ConnectFailed PollTimeout false false in
  mkCallEnv refused (mkTransactEnv [mkTxTurn PollReady (Wrote 12)] rx) refused (mkTransactEnv [] []).
Definition open_client : Client := client_new default_client_config <| mc_fd := 5 |>.

Lemma call_is_register_access_witness :
  client_read_holding 0 1 (call_with (rx_all [0; 1; 0; 0; 0; 5; 1; 3; 2; 0x12; 0x34])) open_client (mkKernel ∅ false)
  = Some (MOk [0x1234], open_client <| mc_next_tid := 2 |>, mkKernel ∅ false).
Proof.
  destruct (call_is_register_access (call_with (rx_all [0; 1; 0; 0; 0; 5; 1; 3; 2; 0x12; 0x34])) open_client
    (mkKernel ∅ false) [0x1234; 0xABCD] [ServeRecv [0; 1; 0; 0; 0] []; ServeRecv [6; 1; 3; 0; 0; 0; 1] [[4; 7]]])
    as [Hread _].
  - split_and!; [done|done|unfold is_u; cbn; lia].
  - repeat constructor; lia.
  - destruct (Hread 0 1) as [H _]; [unfold is_u; lia|lia| |exact H].
    split_and!; [vm_compute; reflexivity| |vm_compute; reflexivity| |vm_compute; reflexivity].
    + repeat (constructor; [repeat (constructor || lia || done)|]). constructor.
    + by repeat constructor.
Defined.

Lemma timeout_loses_step_witness :
  ∃ c', run_calls [([3; 0; 0; 0; 1], call_with [mkMRxTurn PollTimeout false (ReadBytes [])]);
    ([3; 0; 1; 0; 1], call_with (rx_all [0; 1; 0; 0; 0; 5; 1; 3; 2; 0x12; 0x34]));
    ([3; 0; 0; 0; 1], call_with (rx_all [0; 2; 0; 0; 0; 5; 1; 3; 2; 0xAB; 0xCD]))] open_client (mkKernel ∅ false)
  = Some ([MFail MErr.Timeout "response timeout"; MFail MErr.TransactionMismatch "response transaction id mismatch";
           MFail MErr.TransactionMismatch "response transaction id mismatch"], c', mkKernel ∅ false) ∧ mc_fd c' = 5.
Proof.
  apply (timeout_loses_step open_client (mkKernel ∅ false) [0x1234; 0xABCD] [3; 0; 0; 0; 1] _
    [([3; 0; 1; 0; 1], call_with (rx_all [0; 1; 0; 0; 0; 5; 1; 3; 2; 0x12; 0x34]));
     ([3; 0; 0; 0; 1], call_with (rx_all [0; 2; 0; 0; 0; 5; 1; 3; 2; 0xAB; 0xCD]))]).
  - split_and!; [done|done|unfold is_u; cbn; lia].
  - done.
  - split; [unfold pdu_ok, kMaxPduSize; cbn; lia|reflexivity].
  - reflexivity.
  - cbn -[answer]. unfold sent_whole, pdu_ok, kMaxPduSize.
    split_and!; cbn -[answer]; try lia; try (vm_compute; reflexivity); by repeat constructor.
Defined.

Lemma bad_stream_sticks_witness :
  ∃ c', run_calls [([3; 0; 0; 0; 1], call_with []); ([3; 0; 0; 0; 1], call_with [])]
    (open_client <| mc_buffer := [0; 1; 0; 0; 0; 1; 1; 3] |>) (mkKernel ∅ false)
  = Some ([MFail MErr.InvalidLength "length < 2"; MFail MErr.InvalidLength "length < 2"], c', mkKernel ∅ false) ∧
    mc_fd c' = 5 ∧ mc_buffer c' = [0; 1; 0; 0; 0; 1; 1; 3].
Proof.
  destruct (bad_stream_sticks [([3; 0; 0; 0; 1], call_with []); ([3; 0; 0; 0; 1], call_with [])]
    (open_client <| mc_buffer := [0; 1; 0; 0; 0; 1; 1; 3] |>) (mkKernel ∅ false) MErr.InvalidLength "length < 2")
    as (c' & H & Hf & Hb).
  - done.
  - vm_compute. reflexivity.
  - by right.
  - repeat constructor; unfold kMaxPduSize; cbn; lia.
  - exists c'. split_and!; [exact H|exact Hf|exact Hb].
Defined.

Lemma reconnect_is_paced_witness :
  ∃ r c' k' pauses,
  reconnect_with_backoff (λ i, mkMConnectEnv (Some 7) true true (if (i <? 3)%nat then ConnectFailed else ConnectDone) PollTimeout true true)
    (client_new default_client_config) (mkKernel ∅ false) = (r, c', k', pauses) ∧
  pauses = map (backoff default_client_config) (seq 0 (length pauses)) ∧ length pauses = 3%nat.
Proof.
  do 4 eexists. split; [reflexivity|]. split; [|reflexivity].
  eapply (reconnect_is_paced (λ i, mkMConnectEnv (Some 7) true true (if (i <? 3)%nat then ConnectFailed else ConnectDone) PollTimeout true true)
    (client_new default_client_config) (mkKernel ∅ false)); [cbn; lia|reflexivity].
Defined.
