(* ===== verification/Observer.v ===== *)
(** * The multi-bus observer

    src/experiments/multibus_observer: a process that watches a CAN node and a Modbus TCP
    sensor without controlling either.  Two worker threads write one store behind a mutex;
    the main thread prints snapshots of it.  A worker never reads the store, so what it does
    is the list of its calls on it ([StoreOp]), and the threads together do an interleaving
    of the two lists. *)

From stdpp Require Import gmap pretty.
From S2P Require Import Prelude Types CanV1 LinuxIo Descriptors Bytes CommandLine.
From S2P Require Import TcpFrame SerialPort MbusCodec MbusTcp MbusLink.
Local Open Scope Z_scope.

(** ** The store (observation.hpp, observation.cpp) *)

Module SourceHealth.
Inductive SourceHealth := Waiting | Healthy | Faulted.
End SourceHealth.
Notation SourceHealth := SourceHealth.SourceHealth.

Definition health_to_string (h : SourceHealth) : string :=
  match h with
  | SourceHealth.Waiting => "waiting"
  | SourceHealth.Healthy => "healthy"
  | SourceHealth.Faulted => "faulted"
  end.

Record SourceStatus := mkSourceStatus {
  ss_health : SourceHealth;
  ss_updates : Z;
  ss_failures : Z;
  ss_last_change_ns : Z;
  ss_detail : string
}.

#[export] Instance SourceStatus_eta : Eta SourceStatus :=
  mkEta _ (fun s => mkSourceStatus (ss_health s) (ss_updates s) (ss_failures s) (ss_last_change_ns s) (ss_detail s)).

Record CanStatusSample := mkCanSample {
  cs_valid : bool;
  cs_sampled_ns : Z;
  cs_node_id : Z;
  cs_session_id : Z;
  cs_interlock_ready : bool;
  cs_input_bits : Z;
  cs_fault_code : Z
}.

#[export] Instance CanStatusSample_eta : Eta CanStatusSample :=
  mkEta _ (fun s => mkCanSample (cs_valid s) (cs_sampled_ns s) (cs_node_id s) (cs_session_id s)
    (cs_interlock_ready s) (cs_input_bits s) (cs_fault_code s)).

Record TemperatureSample := mkTempSample {
  ts_valid : bool;
  ts_sampled_ns : Z;
  ts_register_address : Z;
  ts_deci_celsius : Z
}.

#[export] Instance TemperatureSample_eta : Eta TemperatureSample :=
  mkEta _ (fun s => mkTempSample (ts_valid s) (ts_sampled_ns s) (ts_register_address s) (ts_deci_celsius s)).

Record ObservationSnapshot := mkObservation {
  ob_can : CanStatusSample;
  ob_temperature : TemperatureSample;
  ob_can_source : SourceStatus;
  ob_modbus_source : SourceStatus
}.

#[export] Instance ObservationSnapshot_eta : Eta ObservationSnapshot :=
  mkEta _ (fun s => mkObservation (ob_can s) (ob_temperature s) (ob_can_source s) (ob_modbus_source s)).








Definition sample_is_stale (valid : bool) (sampled_ns now_ns max_age_ns : Z) : bool :=
  if negb valid || (sampled_ns <=? 0) || (now_ns <? sampled_ns) || (max_age_ns <? 0) then true
  else max_age_ns <? now_ns - sampled_ns.

(** The calls on the store; each is one critical section. *)
Inductive CanOp := PublishCan (sample : CanStatusSample) | CanFailure (now_ns : Z) (detail : string).
Inductive ModbusOp := PublishTemperature (sample : TemperatureSample) | ModbusFailure (now_ns : Z) (detail : string).


(** ** The adapters *)

Inductive CanIngestResult := Updated | Ignored | Rejected.

(** can_status_adapter.cpp: the result and the calls on the store. *)
Definition ingest_can_frame (frame : CanFrame) (expected_node_id sampled_ns : Z) : CanIngestResult * list CanOp :=
  match decode frame with
  | Err e => (Rejected, [CanFailure sampled_ns (err_message e)])
  | Ok (MsgStatus status) =>
      if negb (ns_node_id status =? expected_node_id) then (Ignored, [])
      else (Updated, [PublishCan (mkCanSample false sampled_ns (ns_node_id status) (ns_session_id status)
                        (ns_interlock_ready status) (ns_input_bits status) (ns_fault_code status))])
  | Ok _ => (Ignored, [])
  end.

(** modbus_temperature_adapter.cpp; [bit_cast] keeps the 16 bits. *)
Definition decode_temperature_register (raw_register address sampled_ns : Z) : TemperatureSample :=
  mkTempSample true sampled_ns address (i16 raw_register).

(** ** Configuration (apps/rcr_multibus_observer.cpp) *)

(** Periods and duration in milliseconds. *)
Record Config := mkConfig {
  cf_can_interface : string;
  cf_node_id : Z;
  cf_modbus_host : string;
  cf_modbus_port : Z;
  cf_temperature_register : Z;
  cf_modbus_period : Z;
  cf_print_period : Z;
  cf_duration : Z
}.

#[export] Instance Config_eta : Eta Config :=
  mkEta _ (fun c => mkConfig (cf_can_interface c) (cf_node_id c) (cf_modbus_host c) (cf_modbus_port c)
    (cf_temperature_register c) (cf_modbus_period c) (cf_print_period c) (cf_duration c)).

Definition default_config : Config := mkConfig "vcan0" 1 "127.0.0.1" 1502 0 100 200 3000.

Definition between (lo number hi : Z) : bool := (lo <=? number) && (number <=? hi).

(** A numeric option, by name. *)
Definition set_number (arg : string) (number : Z) (c : Config) : option Config :=
  if (arg =? "--node-id")%string && between 1 number 31 then Some (c <| cf_node_id := u8 number |>)
  else if (arg =? "--modbus-port")%string && between 1 number 65535 then Some (c <| cf_modbus_port := u16 number |>)
  else if (arg =? "--temperature-register")%string && between 0 number 65535 then
    Some (c <| cf_temperature_register := u16 number |>)
  else if (arg =? "--modbus-period-ms")%string && between 10 number 60000 then Some (c <| cf_modbus_period := number |>)
  else if (arg =? "--print-period-ms")%string && between 10 number 60000 then Some (c <| cf_print_period := number |>)
  else if (arg =? "--duration-ms")%string && between 10 number 86400000 then Some (c <| cf_duration := number |>)
  else None.

Definition is_help (arg : string) : bool := (arg =? "-h")%string || (arg =? "--help")%string.

Fixpoint parse_config (args : list string) (c : Config) : option Config :=
  match args with
  | [] => Some c
  | arg :: rest =>
      if is_help arg then None
      else match rest with
      | [] => None
      | value :: rest =>
          if (arg =? "--can")%string then
            if (value =? "")%string then None else parse_config rest (c <| cf_can_interface := value |>)
          else if (arg =? "--modbus-host")%string then
            if (value =? "")%string then None else parse_config rest (c <| cf_modbus_host := value |>)
          else match parse_chars_i64 (str_bytes value) with
          | None => None
          | Some number =>
              match set_number arg number c with
              | Some c => parse_config rest c
              | None => None
              end
          end
      end
  end.

Definition monotonic_or_zero (reading : option timespec) : Z :=
  match monotonic_now_ns reading with Ok now => now | Err _ => 0 end.

(** ** The CAN worker *)

(** One [receive] without [select], and the clock reading that follows it. *)
Record CanTurn := mkCanTurn { ct_read : LinuxIo.ReadAnswer; ct_clock : option timespec }.

(** The bounded drain: whether the source failed, and the calls on the store; [None]: the
    turns end before the loop does. *)
Fixpoint drain_budget (budget : nat) (turns : list CanTurn) (can : SocketCan) (node_id : Z)
    : option (bool * list CanOp) :=
  match budget, turns with
  | O, _ => Some (false, [])
  | S _, [] => None
  | S budget, t :: turns =>
      match sc_receive (-1) 0 (ct_read t) can with
      | Err e =>
          if err_code e ==? Errc.WouldBlock then Some (false, [])
          else Some (true, [CanFailure (monotonic_or_zero (ct_clock t)) (err_message e)])
      | Ok frame =>
          let ops := snd (ingest_can_frame frame node_id (monotonic_or_zero (ct_clock t))) in
          match drain_budget budget turns can node_id with
          | None => None
          | Some (failed, rest) => Some (failed, ops ++ rest)
          end
      end
  end.

Definition kDrainBudget : nat := 64.

(** The ready descriptors in order; one list of turns per readable CAN event.  An error event
    ends the pass, a failed drain only its own. *)
Fixpoint can_events (ready : list (Z * Z)) (drains : list (list CanTurn)) (clock : option timespec) (can : SocketCan)
    (node_id : Z) : option (bool * list CanOp) :=
  match ready with
  | [] => Some (false, [])
  | (fd, events) :: ready =>
      if negb (fd =? sc_fd can) then can_events ready drains clock can node_id
      else if negb (Z.land events (Z.lor EPOLLERR EPOLLHUP) =? 0) then
        Some (true, [CanFailure (monotonic_or_zero clock) "SocketCAN epoll error/hangup"])
      else if Z.land events EPOLLIN =? 0 then can_events ready drains clock can node_id
      else match drains with
      | [] => None
      | turns :: drains =>
          match drain_budget kDrainBudget turns can node_id with
          | None => None
          | Some (failed, ops) =>
              match can_events ready drains clock can node_id with
              | None => None
              | Some (later, rest) => Some (failed || later, ops ++ rest)
              end
          end
      end
  end.

(** One turn of the loop: the value of [stop_requested] it sees, the answers of the wait, the
    drains, and the clock an error is stamped with. *)
Record CanWake := mkCanWake {
  cw_stop : bool;
  cw_answers : list (Z + list (Z * Z));
  cw_drains : list (list CanTurn);
  cw_clock : option timespec
}.

(** The loop's calls on the store, and whether it has ended. *)
Fixpoint can_loop (wakes : list CanWake) (stop_fd : Z) (can : SocketCan) (node_id : Z) (r : EpollReactor)
    : option (bool * list CanOp) :=
  match wakes with
  | [] => Some (false, [])
  | w :: wakes =>
      if cw_stop w then Some (true, [])
      else match ep_wait (-1) 8 (cw_answers w) r with
      | None => None
      | Some (Err e) => Some (true, [CanFailure (monotonic_or_zero (cw_clock w)) (err_message e)])
      | Some (Ok ready) =>
          if existsb (λ p, fst p =? stop_fd) ready then Some (true, [])
          else match can_events ready (cw_drains w) (cw_clock w) can node_id with
          | None => None
          | Some (true, ops) => Some (true, ops)
          | Some (false, ops) =>
              match can_loop wakes stop_fd can node_id r with
              | None => None
              | Some (ended, rest) => Some (ended, ops ++ rest)
              end
          end
      end
  end.

(** The answers while the worker sets up: the socket, its flags, the epoll instance, the two
    registrations, and a clock for the failure. *)
Record CanSetup := mkCanSetup {
  cu_alloc : nat → Kernel → option Z;
  cu_ioctl : bool;
  cu_bind : bool;
  cu_getfl : bool;
  cu_setfl : bool;
  cu_add_can : bool;
  cu_add_stop : bool;
  cu_clock : option timespec
}.

(** The worker; the socket and the epoll instance are closed on every way out. *)
Definition run_can_worker (cfg : Config) (stop_fd : Z) (env : CanSetup) (wakes : list CanWake) (k : Kernel)
    : option (bool * list CanOp * Kernel) :=
  let failure e := [CanFailure (monotonic_or_zero (cu_clock env)) e] in
  match sc_open (mkOpenEnv (cu_alloc env 0 k) (cu_ioctl env) (cu_bind env)) (sc_new (cf_can_interface cfg)) k with
  | ((_, k), Err e) => Some (true, failure (err_message e), k)
  | ((can, k), Ok _) =>
      match sc_set_nonblocking (cu_getfl env) (cu_setfl env) can with
      | Err e => Some (true, failure (err_message e), close_fds [sc_fd can] k)
      | Ok _ =>
          let answer := cu_alloc env 1 k in
          let reactor := mkEpoll (fd_of answer) [] in
          let k := k_create answer k in
          let close k := close_fds [ep_fd reactor; sc_fd can] k in
          if negb (ep_valid reactor) then Some (true, failure "epoll_create failed"%string, close k)
          else match ep_add (sc_fd can) (Z.lor EPOLLIN (Z.lor EPOLLERR EPOLLHUP)) (cu_add_can env) reactor with
          | (_, Err e) => Some (true, failure (err_message e), close k)
          | (reactor, Ok _) =>
              match ep_add stop_fd EPOLLIN (cu_add_stop env) reactor with
              | (_, Err e) => Some (true, failure (err_message e), close k)
              | (reactor, Ok _) =>
                  match can_loop wakes stop_fd can (cf_node_id cfg) reactor with
                  | None => None
                  | Some (false, ops) => Some (false, ops, k)
                  | Some (true, ops) => Some (true, ops, close k)
                  end
              end
          end
      end
  end.

(** ** The Modbus worker *)

Definition observer_client_config (cfg : Config) : ClientConfig :=
  mkClientConfig (cf_modbus_host cfg) (cf_modbus_port cfg) (cl_unit_id default_client_config) 150 150 10 10 1.

(** The poll and its call on the store. *)
Definition poll_result (cfg : Config) (sampled_ns : Z) (values : MResult (list Z)) : ModbusOp :=
  match values with
  | MFail e message => ModbusFailure sampled_ns (mbus_error_to_string e +:+ ": " +:+ message)
  | MOk [raw] => PublishTemperature (decode_temperature_register raw (cf_temperature_register cfg) sampled_ns)
  | MOk _ => ModbusFailure sampled_ns "read_holding returned unexpected quantity"
  end.

(** [while (next <= now) next += period]: the fuel is the number of periods that fit before
    [now], and one more. *)
Fixpoint skip_missed (fuel : nat) (next now period : Z) : Z :=
  match fuel with
  | O => next
  | S fuel => if next <=? now then skip_missed fuel (next + period) now period else next
  end.

Definition next_poll (next now period : Z) : Z :=
  let next := next + period in skip_missed (Z.to_nat ((now - next) / period + 2)) next now period.

(** One turn: the value of [stop_requested], the call, the clock reading after it and
    [steady_clock]. *)
Record PollTurn := mkPollTurn { pt_stop : bool; pt_call : CallEnv; pt_clock : option timespec; pt_now : Z }.

(** The loop: the calls on the store, the wake-up times, the client and the descriptors;
    [None]: a call is still waiting. *)
Fixpoint modbus_loop (turns : list PollTurn) (cfg : Config) (next : Z) (client : Client) (k : Kernel)
    : option (bool * list ModbusOp * list Z * Client * Kernel) :=
  match turns with
  | [] => Some (false, [], [], client, k)
  | t :: turns =>
      if pt_stop t then Some (true, [], [], client, k)
      else match client_read_holding (cf_temperature_register cfg) 1 (pt_call t) client k with
      | None => None
      | Some (values, client, k) =>
          let op := poll_result cfg (monotonic_or_zero (pt_clock t)) values in
          let next := next_poll next (pt_now t) (cf_modbus_period cfg * 1000000) in
          match modbus_loop turns cfg next client k with
          | None => None
          | Some (ended, ops, waits, client, k) => Some (ended, op :: ops, next :: waits, client, k)
          end
      end
  end.

(** The client's destructor closes its connection. *)
Definition run_modbus_worker (cfg : Config) (start : Z) (turns : list PollTurn) (k : Kernel)
    : option (bool * list ModbusOp * Kernel) :=
  match modbus_loop turns cfg start (client_new (observer_client_config cfg)) k with
  | None => None
  | Some (false, ops, _, _, k) => Some (false, ops, k)
  | Some (true, ops, _, client, k) => Some (true, ops, snd (client_close client k))
  end.

(** ** The display *)

Definition age_ms (sampled_ns now_ns : Z) : Z :=
  if (sampled_ns <=? 0) || (now_ns <? sampled_ns) then -1 else Z.quot (now_ns - sampled_ns) 1000000.

(** What a printed line says of a source: sample, age and staleness when there is one, the
    health, and the detail of a fault. *)
Record SourceLine (A : Type) := mkSourceLine {
  sl_sample : option (A * Z * bool);
  sl_health : string;
  sl_detail : option string
}.
Arguments mkSourceLine {A}.
Arguments sl_sample {A}.
Arguments sl_health {A}.
Arguments sl_detail {A}.

Definition source_line {A} (valid : bool) (sample : A) (sampled_ns now_ns max_age_ns : Z) (source : SourceStatus)
    : SourceLine A :=
  mkSourceLine
    (if valid then Some (sample, age_ms sampled_ns now_ns, sample_is_stale valid sampled_ns now_ns max_age_ns) else None)
    (health_to_string (ss_health source))
    (match ss_health source with SourceHealth.Faulted => Some (ss_detail source) | _ => None end).

Definition print_snapshot (cfg : Config) (s : ObservationSnapshot) (now_ns : Z)
    : SourceLine CanStatusSample * SourceLine TemperatureSample :=
  (source_line (cs_valid (ob_can s)) (ob_can s) (cs_sampled_ns (ob_can s)) now_ns 350000000 (ob_can_source s),
   source_line (ts_valid (ob_temperature s)) (ob_temperature s) (ts_sampled_ns (ob_temperature s)) now_ns
     (cf_modbus_period cfg * 3 * 1000000) (ob_modbus_source s)).

(** The main thread until the deadline: [steady_clock], the clock reading and the store at
    each turn. *)
Fixpoint print_loop (turns : list (Z * option timespec * ObservationSnapshot)) (deadline : Z) (cfg : Config)
    : list (SourceLine CanStatusSample * SourceLine TemperatureSample) :=
  match turns with
  | [] => []
  | (now, reading, s) :: turns =>
      if now <? deadline then print_snapshot cfg s (monotonic_or_zero reading) :: print_loop turns deadline cfg
      else []
  end.

Inductive MainOutcome := Exit (code : Z) | Run (cfg : Config) (stop_fd : Z).

Definition observer_main (args : list string) (eventfd : option Z) : MainOutcome :=
  if existsb is_help args then Exit 0
  else match parse_config args default_config with
  | None => Exit 2
  | Some cfg => match eventfd with None => Exit 1 | Some fd => Run cfg fd end
  end.

(** ** The sensor (apps/mbus_sensor_server.cpp) *)

Record SensorConfig := mkSensorConfig {
  sr_host : string;
  sr_port : Z;
  sr_register_address : Z;
  sr_temperature_deci_c : Z
}.

#[export] Instance SensorConfig_eta : Eta SensorConfig :=
  mkEta _ (fun c => mkSensorConfig (sr_host c) (sr_port c) (sr_register_address c) (sr_temperature_deci_c c)).

Definition default_sensor : SensorConfig := mkSensorConfig "127.0.0.1" 1502 0 255.

Fixpoint parse_sensor (args : list string) (c : SensorConfig) : option SensorConfig :=
  match args with
  | [] => Some c
  | arg :: rest =>
      if is_help arg then None
      else match rest with
      | [] => None
      | value :: rest =>
          if (arg =? "--host")%string then
            if (value =? "")%string then None else parse_sensor rest (c <| sr_host := value |>)
          else match parse_chars_i64 (str_bytes value) with
          | None => None
          | Some number =>
              if (arg =? "--port")%string && between 1 number 65535 then parse_sensor rest (c <| sr_port := u16 number |>)
              else if (arg =? "--register")%string && between 0 number 63 then
                parse_sensor rest (c <| sr_register_address := u16 number |>)
              else if (arg =? "--temperature-deci-c")%string && between (-32768) number 32767 then
                parse_sensor rest (c <| sr_temperature_deci_c := i16 number |>)
              else None
          end
      end
  end.

(** The exit code, or the running server. *)
Definition sensor_main (args : list string) (env : ListenEnv) (k : Kernel) : (Z + RefServer) * Kernel :=
  if existsb is_help args then (inl 0, k)
  else match parse_sensor args default_sensor with
  | None => (inl 2, k)
  | Some cfg =>
      let server := server_new (mkServerConfig (sr_host cfg) (sr_port cfg) 64 0) in
      match holding_write_single (sr_register_address cfg) (u16 (sr_temperature_deci_c cfg)) (rf_regs server) with
      | (MFail _ _, _) => (inl 1, k)
      | (MOk _, regs) =>
          match server_start env (server <| rf_regs := regs |>) k with
          | (MFail _ _, _, k) => (inl 1, k)
          | (MOk _, server, k) => (inr server, k)
          end
      end
  end.

(** ** The threads share the store *)

Notation StoreOp := (CanOp + ModbusOp)%type.





(** ** What the CAN worker saw *)












(** *** The latest status *)








(** ** The sensor's value *)

Lemma i16_range v : - 32768 ≤ i16 v ≤ 32767.
Proof. unfold i16. pose proof (u16_range v) as [? ?]. change (2 ^ 15) with 32768. change (2 ^ 16) with 65536 in *.
  destruct (Z.ltb_spec (u16 v) 32768); lia. Qed.

(** The 16 bits of a temperature are read back as the temperature. *)
Lemma i16_u16 t : - 32768 ≤ t ≤ 32767 → i16 (u16 t) = t.
Proof.
  intros Ht. unfold i16. rewrite (u16_small (u16 t)) by apply u16_range. unfold u16, wrap. change (2 ^ 15) with 32768.
  change (2 ^ 16) with 65536. destruct (decide (0 ≤ t)).
  - rewrite Z.mod_small by lia. by rewrite (proj2 (Z.ltb_lt _ _)) by lia.
  - rewrite <- (Z.mod_add t 1) by lia. rewrite Z.mod_small by lia. rewrite (proj2 (Z.ltb_ge _ _)) by lia. lia.
Qed.

Definition sensor_ok (c : SensorConfig) : Prop :=
  0 ≤ sr_register_address c ≤ 63 ∧ - 32768 ≤ sr_temperature_deci_c c ≤ 32767.

Lemma parse_sensor_ok n : ∀ args c c',
  (length args ≤ n)%nat → sensor_ok c → parse_sensor args c = Some c' → sensor_ok c'.
Proof.
  induction n as [|n IH]; intros [|arg [|value args]] c c' Hl Hc; cbn [length] in Hl; try lia; cbn [parse_sensor];
    try (by intros [= <-]); try (by case_match).
  destruct (is_help arg); [done|].
  assert (Hgo : ∀ c1, sensor_ok c1 → parse_sensor args c1 = Some c' → sensor_ok c') by (intros c1; apply IH; lia).
  destruct Hc as [H1 H2].
  destruct (arg =? "--host")%string; [destruct (value =? "")%string; [done|by apply Hgo]|].
  destruct (parse_chars_i64 _) as [number|]; [|done]. destruct (_ && between 1 _ _); [by apply Hgo|].
  destruct (_ && between 0 _ _) eqn:Hb.
  { apply Hgo. split; [|done]. unfold between in Hb. bools. cbn. rewrite u16_small by width_lia. lia. }
  destruct (_ && between (-32768) _ _); [|done]. apply Hgo. split; [done|]. cbn. apply i16_range.
Qed.

(** A temperature crosses both programs: the register the sensor serves holds the configured
    temperature, and when the observer polls that register of a running sensor and request
    and answer travel over the link in any pieces, it publishes exactly that temperature,
    stamped with the clock reading after the call, for every temperature of 16 signed bits;
    the registers are unchanged and the client is ready for the next poll. *)
Theorem sensor_temperature_arrives args lenv k sensor k1 cfg env client k2 turns reading t :
  parse_sensor args default_sensor = Some sensor →
  sensor_main args lenv k = (inr t, k1) → cf_temperature_register cfg = sr_register_address sensor →
  in_step client → exchanged env client (rf_regs t) turns (pair_pdu kFcReadHolding (cf_temperature_register cfg) 1) →
  ∃ values, client_read_holding (cf_temperature_register cfg) 1 env client k2 = Some (values, client_after client, k2) ∧
    poll_result cfg (monotonic_or_zero reading) values =
      PublishTemperature (mkTempSample true (monotonic_or_zero reading) (sr_register_address sensor)
                            (sr_temperature_deci_c sensor)) ∧
    regs_after (rf_regs t) turns = rf_regs t ∧ in_step (client_after client).
Proof.
  intros Hp Hm Hr Hs Hx. assert (Hok : sensor_ok sensor)
    by (eapply (parse_sensor_ok (length args)); [| |exact Hp]; [lia|unfold sensor_ok; cbn; lia]). destruct Hok as [Ha Ht].
  assert (Hregs : rf_regs t = <[Z.to_nat (sr_register_address sensor) := u16 (sr_temperature_deci_c sensor)]> (holding_new 64)).
  { unfold sensor_main in Hm. destruct (existsb _ _); [done|]. rewrite Hp in Hm. cbv zeta in Hm. unfold holding_write_single in Hm.
    cbn [rf_regs server_new rf_config sc_holding_count] in Hm. destruct (_ <=? _)%nat eqn:Hle in Hm.
    { exfalso. unfold holding_new in Hle. rewrite length_replicate in Hle. apply Nat.leb_le in Hle. lia. }
    unfold server_start in Hm. repeat case_match; simplify_eq; done. }
  assert (Hu : Forall (is_u 16) (rf_regs t)).
  { rewrite Hregs. apply Forall_insert; [|apply u16_range]. unfold holding_new. apply Forall_replicate. unfold is_u. lia. }
  rewrite Hr in *. destruct (link_read env client k2 (rf_regs t) turns Hs (sr_register_address sensor) 1 Hu) as [Hc Hsame];
    [unfold is_u; lia|lia|done|].
  rewrite Hc. eexists. split; [done|]. split_and!; [|done|].
  - rewrite Hregs at 1. rewrite length_insert. unfold holding_new at 1. rewrite length_replicate.
    rewrite (proj2 (Nat.leb_le _ 64)) by lia. rewrite Hregs. change (Z.to_nat 1) with 1%nat.
    erewrite drop_S by (apply list_lookup_insert_eq; unfold holding_new; rewrite length_replicate; lia). cbn [take].
    unfold poll_result, decode_temperature_register. by rewrite i16_u16, Hr.
  - destruct Hs as (Hfd & Hb & Htid). split_and!; [done|done|]. by apply next_tid_fresh.
Qed.

(** ** The polling grid *)

Lemma skip_missed_spec fuel : ∀ next now period,
  0 < period → (now - next) / period < Z.of_nat fuel →
  let r := skip_missed fuel next now period in
  now < r ∧ (r - next) mod period = 0 ∧ next ≤ r ∧ r ≤ Z.max next (now + period).
Proof.
  induction fuel as [|fuel IH]; intros next now period Hp Hf; cbn [skip_missed].
  { assert (now < next) by (destruct (Z.lt_ge_cases now next); [done|pose proof (Z.div_pos (now - next) period); lia]).
    rewrite Z.sub_diag, Z.mod_0_l by lia. lia. }
  destruct (Z.leb_spec next now) as [Hle|Hlt]; cycle 1.
  { rewrite Z.sub_diag, Z.mod_0_l by lia. lia. }
  assert (Hd : (now - (next + period)) / period < Z.of_nat fuel).
  { replace (now - (next + period)) with (now - next + (-1) * period) by lia. rewrite Z.div_add by lia. lia. }
  destruct (IH (next + period) now period Hp Hd) as (H1 & H2 & H3 & H4). split; [done|]. split; [|lia].
  set (r := skip_missed _ _ _ _) in *. replace (r - next) with (r - (next + period) + 1 * period) by lia.
  by rewrite Z.mod_add by lia.
Qed.

(** The loop that skips missed polls ends, and the next poll is on the grid, in the future and
    at most one period away: missed polls are never made up for. *)
Theorem polls_stay_on_grid next now period :
  0 < period →
  let r := next_poll next now period in
  now < r ∧ (r - next) mod period = 0 ∧ next < r ∧ (next ≤ now → r ≤ now + period).
Proof.
  intros Hp. unfold next_poll. destruct (skip_missed_spec (Z.to_nat ((now - (next + period)) / period + 2)) (next + period)
    now period Hp) as (H1 & H2 & H3 & H4).
  { destruct (decide (0 ≤ (now - (next + period)) / period + 2)); lia. }
  set (r := skip_missed _ _ _ _) in *. split; [done|]. split; [|split; lia].
  replace (r - next) with (r - (next + period) + 1 * period) by lia. by rewrite Z.mod_add by lia.
Qed.

(** ** Descriptors *)

(** The CAN worker leaves nothing open: the socket and the epoll instance are closed on every
    way out, and no other descriptor is touched. *)
Theorem can_worker_closes_all cfg stop_fd env wakes k ops k' :
  (∀ i k, fresh_answer (cu_alloc env i k) k) →
  run_can_worker cfg stop_fd env wakes k = Some (true, ops, k') → k' = k.
Proof.
  intros Hal. unfold run_can_worker. cbv zeta.
  assert (Hb : match sc_open (mkOpenEnv (cu_alloc env 0 k) (cu_ioctl env) (cu_bind env)) (sc_new (cf_can_interface cfg)) k with
    | ((_, k'), Err _) => k' = k | ((bus, k'), Ok _) => accounted k [sc_fd bus] k' end)
    by (apply accounted_open; [done|apply Hal]).
  destruct (sc_open _ _ _) as [[can k1] [[]|e]]; [|by intros [= _ <-]].
  assert (H1 : ∀ k1', close_fds [sc_fd can] k1 = k1' → k1' = k)
    by (intros ? <-; apply accounted_done, accounted_close_all; by rewrite app_nil_r).
  destruct (sc_set_nonblocking _ _ _) as [[]|e]; [|intros [= _ Hk]; by apply H1].
  pose proof (accounted_create _ _ _ _ Hb (Hal 1%nat k1)) as H2.
  assert (H3 : ∀ k2, close_fds [fd_of (cu_alloc env 1 k1); sc_fd can] (k_create (cu_alloc env 1 k1) k1) = k2 → k2 = k)
    by (intros ? <-; apply accounted_done, accounted_close_all; by rewrite app_nil_r).
  cbn [ep_fd]. destruct (negb _); [intros [= _ Hk]; by apply H3|].
  destruct (ep_add _ _ _ _) as [r1 [[]|e]]; [|intros [= _ Hk]; by apply H3].
  destruct (ep_add _ _ _ _) as [r2 [[]|e]]; [|intros [= _ Hk]; by apply H3].
  destruct (can_loop _ _ _ _ _) as [[[] ops1]|]; [|done|done]. intros [= _ Hk]. by apply H3.
Qed.

(** ** Concrete runs *)




(** A sensor at minus twelve and a half degrees. *)
Definition demo_sensor_args : list string := ["--register"; "5"; "--temperature-deci-c"; "-125"].
Definition demo_sensor : SensorConfig := mkSensorConfig "127.0.0.1" 1502 5 (-125).
Definition demo_listen : ListenEnv := mkListenEnv (Some 4) true true true (Some 1502).
Definition demo_server : RefServer :=
  match fst (sensor_main demo_sensor_args demo_listen (mkKernel ∅ false)) with inr s => s | inl _ => server_new (mkServerConfig "" 0 0 0) end.

Lemma sensor_temperature_arrives_witness :
  poll_result (default_config <| cf_temperature_register := 5 |>) 9 (MOk [65411]) =
    PublishTemperature (mkTempSample true 9 5 (-125)).
Proof.
  destruct (sensor_temperature_arrives demo_sensor_args demo_listen (mkKernel ∅ false) demo_sensor (mkKernel {[4]} false)
    (default_config <| cf_temperature_register := 5 |>) (call_with (rx_all [0; 1; 0; 0; 0; 5; 1; 3; 2; 0xFF; 0x83]))
    open_client (mkKernel ∅ false) [ServeRecv [0; 1; 0; 0; 0] []; ServeRecv [6; 1; 3; 0; 5; 0; 1] [[4; 7]]]
    (Some (mkTimespec 0 9)) demo_server) as (values & Hc & Hp & _).
  - vm_compute. reflexivity.
  - vm_compute. reflexivity.
  - reflexivity.
  - split_and!; [done|done|unfold is_u; cbn; lia].
  - split_and!; [vm_compute; reflexivity| |vm_compute; reflexivity| |vm_compute; reflexivity].
    + repeat (constructor; [repeat (constructor || lia || done)|]). constructor.
    + by repeat constructor.
  - vm_compute in Hc. injection Hc as <-. exact Hp.
Defined.
