(* ===== verification/Workbench.v ===== *)
(** * The workbench controller

    linux/tools/qt_device_workbench/controller/workbench_controller.cpp: the object between
    the window and the services.  Its slots and timers run one after another in the thread of
    the window; requests to the Modbus agent go to a worker thread and come back as queued
    completions.  A slot is a function on the controller's state; what it signals (to the
    window and to the workers) goes to a log.  The answers of the daemon's adapter and
    of the cell peer, and the clocks, are inputs.  Qt's string functions are parameters. *)

From stdpp Require Import pretty.
From S2P Require Import Prelude Types Application CellReady ModbusIo Adapter RemoteFrame RemoteControl CellProtocol TcpFrame LinuxIo ModbusAgent Doubles MockActuator TestRunner.
Local Open Scope Z_scope.

(** ** Data *)

Module Backend.
Inductive ModbusBackend := Mock | Physical.
End Backend.
Notation ModbusBackend := Backend.ModbusBackend.

#[export] Instance ModbusBackend_eq_dec : EqDecision ModbusBackend.
Proof. solve_decision. Defined.

#[export] Instance RemoteBackendMode_eq_dec : EqDecision RemoteBackendMode.
Proof. solve_decision. Defined.

(** The signals the Modbus worker is connected to. *)
Inductive WorkerRequest :=
  | PhysicalModbusProbe (host : string) (port : Z)
  | PhysicalModbusReadDi
  | PhysicalModbusWriteDo (channel : Z) (active : bool)
  | PhysicalModbusAllOff.

Inductive Signal :=
  | SnapshotReady (s : RuntimeTelemetrySnapshot)
  | HealthRequested (run_id : string)
  | HealthStarted
  | HealthCompleted (r : TestResult) (json_path csv_path persistence_error : string)
  | ActuatorSnapshotReady (s : ActuatorSnapshot)
  | ActuatorCommandCompleted (r : ActuatorCommandReply)
  | ModbusSnapshotReady (s : ModbusIoSnapshot)
  | ModbusCommandCompleted (r : ModbusIoCommandReply)
  | RemoteConnectionReady (s : RemoteConnectionSnapshot)
  | RuntimeCommandCompleted (r : CommandReply)
  | PhysicalModbusRequested (r : WorkerRequest)
  (** Direct calls: of the workers' methods, and of the adapter or the cell client. *)
  | DisconnectClient
  | RequestCancel
  | Activate
  | SubmitOutput (r : DigitalOutputRequest).

Record WorkbenchController := mkController {
  wc_adapter : bool;                  (* [adapter_ != nullptr] *)
  wc_cell_client : bool;              (* [cell_client_ != nullptr] *)
  wc_worker : bool;                   (* [worker_ != nullptr] *)
  wc_last_snapshot : RuntimeTelemetrySnapshot;
  wc_renew_timer : bool;
  wc_actuator : MockActuatorProfile;
  wc_modbus_io : MockModbusIoProfile;
  wc_mapper : CellReadyMapper;
  wc_remote : RemoteRuntimeClient * option RemoteControlEndpoint;
  wc_remote_mode : RemoteBackendMode;
  wc_backend : ModbusBackend;
  wc_physical : ModbusIoSnapshot;
  wc_agent_peer : string;
  wc_jog_token : Z;
  wc_servo_sequence : Z;
  wc_health_running : bool;
  wc_request_running : bool;
  wc_blocked : bool;
  wc_log : list Signal                (* what was signalled, the latest first *)
}.

#[export] Instance WorkbenchController_eta : Eta WorkbenchController :=
  mkEta _ (fun c => mkController (wc_adapter c) (wc_cell_client c) (wc_worker c) (wc_last_snapshot c) (wc_renew_timer c)
    (wc_actuator c) (wc_modbus_io c) (wc_mapper c) (wc_remote c) (wc_remote_mode c) (wc_backend c) (wc_physical c)
    (wc_agent_peer c) (wc_jog_token c) (wc_servo_sequence c) (wc_health_running c) (wc_request_running c)
    (wc_blocked c) (wc_log c)).

(** The parts of [QString] the controller uses. *)
Class QtText := {
  q_trimmed : string → string;
  q_last_index_of_colon : string → Z;
  q_mid : string → Z → string;
  q_left : string → Z → string;
  q_to_int : string → option Z;
  q_is_empty : string → bool
}.

Notation Slot := (WorkbenchController → WorkbenchController).

Definition emit (s : Signal) : Slot := λ c, c <| wc_log ::= cons s |>.

(** ** Helpers of the file *)

Definition make_unprobed_physical (peer : string) : ModbusIoSnapshot :=
  number_channels
    (default_io_snapshot <| mi_backend := "PHYSICAL" |> <| mi_evidence := EvidenceClass.Physical |>
       <| mi_no_physical_rs485 := false |> <| mi_transport := "Modbus RTU" |> <| mi_serial_port := "NOT CONNECTED" |>
       <| mi_agent_peer := peer |> <| mi_sku := "MR0-IOR08" |> <| mi_baud_rate := 9600 |>
       <| mi_baud_rate_placeholder := 9600 |> <| mi_parity := "None" |> <| mi_parity_placeholder := "None" |>
       <| mi_device_state := ModbusDeviceState.Unknown |> <| mi_scan_state := ModbusScanState.Unknown |>).

Definition map_command_status (code : Errc) : CommandStatus :=
  match code with
  | Errc.Ok => CommandStatus.Accepted
  | Errc.InvalidArgument => CommandStatus.InvalidArgument
  | Errc.NotOpen => CommandStatus.NotOpen
  | Errc.IoError | Errc.WouldBlock => CommandStatus.IoError
  | Errc.Timeout => CommandStatus.Timeout
  | Errc.Busy => CommandStatus.Busy
  | Errc.Rejected => CommandStatus.Rejected
  | Errc.Unsupported => CommandStatus.Unsupported
  end.

(** ** Publishing *)

Definition active_modbus_snapshot (c : WorkbenchController) : ModbusIoSnapshot :=
  match wc_backend c with Backend.Physical => wc_physical c | Backend.Mock => mk_snapshot (wc_modbus_io c) end.

Definition publish_active_modbus_snapshot : Slot := λ c, emit (ModbusSnapshotReady (active_modbus_snapshot c)) c.

Definition publish_modbus_reply (r : ModbusIoCommandReply) : Slot := λ c,
  publish_active_modbus_snapshot (emit (ModbusCommandCompleted r) c).

Definition publish_remote_connection : Slot := λ c,
  emit (RemoteConnectionReady (client_snapshot (wc_remote_mode c) (wc_remote c))) c.

Definition publish_actuator_reply (r : ActuatorCommandReply) : Slot := λ c,
  emit (ActuatorSnapshotReady (ma_snapshot (wc_actuator c))) (emit (ActuatorCommandCompleted r) c).

Definition publish_runtime_command (r : CommandReply) : Slot := emit (RuntimeCommandCompleted r).

Definition publish_cell_command (r : Result CommandReply) : Slot := λ c,
  match r with
  | Ok reply => publish_runtime_command reply c
  | Err e =>
      let mode := rv_mode (ts_runtime (wc_last_snapshot c)) in
      publish_runtime_command (mkCommandReply (map_command_status (err_code e)) mode mode (err_message e)) c
  end.

Definition reset_physical_snapshot : Slot := λ c, c <| wc_physical := make_unprobed_physical (wc_agent_peer c) |>.

Definition physical_outputs_live (c : WorkbenchController) : bool :=
  (wc_backend c ==? Backend.Physical) && negb (wc_blocked c) &&
  (mi_device_state (wc_physical c) ==? ModbusDeviceState.Online).

Definition offline_mapper : Slot := λ c, c <| wc_mapper ::= note_modbus_offline |>.

(** ** Modbus inputs and outputs *)

(** A request to the worker; [modbus_request_running_] is set before the signal. *)
Definition request_physical (r : WorkerRequest) : Slot := λ c,
  emit (PhysicalModbusRequested r) (c <| wc_request_running := true |>).

Definition channel_ok (channel : Z) : bool := (0 <=? channel) && (channel <? Z.of_nat kModbusIoChannelCount).

Definition rejected (channel : Z) (active : bool) (message : string) : ModbusIoCommandReply :=
  mkIoReply IoStatus.Rejected channel active false message.

Definition request_digital_output (channel : Z) (active : bool) (now : Z) : Slot := λ c,
  let all := kAllModbusIoChannels in
  if wc_cell_client c && (channel =? 0) then
    publish_modbus_reply (rejected 0 active "DO0 is edge-owned Cell Ready output") c
  else match wc_backend c with
  | Backend.Physical =>
      if wc_blocked c then
        publish_modbus_reply (rejected all active "probe required after timeout; no stale DO replay") c
      else if negb (physical_outputs_live c) then
        publish_modbus_reply (rejected all active "PHYSICAL DO requires ONLINE") c
      else if wc_request_running c then
        publish_modbus_reply (mkIoReply IoStatus.Busy (u8 channel) active false "PHYSICAL request already in flight") c
      else if negb (channel_ok channel) then
        publish_modbus_reply
          (mkIoReply IoStatus.InvalidChannel all active false "PHYSICAL DO channel must be in range 0..3") c
      else
        let c := c <| wc_physical ::= set_output (Z.to_nat channel)
                        (λ d, d <| do_requested := active |> <| do_last_status := IoStatus.None |>) |> in
        request_physical (PhysicalModbusWriteDo channel active) (emit (ModbusSnapshotReady (wc_physical c)) c)
  | Backend.Mock =>
      if negb (channel_ok channel) then
        publish_modbus_reply
          (mkIoReply IoStatus.InvalidChannel all active false
             "MOCK / NO PHYSICAL RS485: DO channel must be in range 0..3") c
      else
        let '(r, m) := write_digital_output (Z.to_nat channel) active now (wc_modbus_io c) in
        publish_modbus_reply r (c <| wc_modbus_io := m |>)
  end.

Definition request_all_outputs_off (now : Z) : Slot := λ c,
  let all := kAllModbusIoChannels in
  match wc_backend c with
  | Backend.Physical =>
      if wc_blocked c then
        publish_modbus_reply (rejected all false "probe required after timeout; no stale DO replay") c
      else if negb (physical_outputs_live c) then
        publish_modbus_reply (rejected all false "PHYSICAL ALL OFF requires ONLINE") c
      else if wc_request_running c then
        publish_modbus_reply (mkIoReply IoStatus.Busy all false false "PHYSICAL request already in flight") c
      else
        let c := c <| wc_physical ::= λ s, s <| mi_digital_outputs ::=
                        fmap (λ d, d <| do_requested := false |> <| do_last_status := IoStatus.None |>) |> |> in
        request_physical PhysicalModbusAllOff (emit (ModbusSnapshotReady (wc_physical c)) c)
  | Backend.Mock =>
      let '(r, m) := mock_write_all_outputs_off now (wc_modbus_io c) in
      publish_modbus_reply r (c <| wc_modbus_io := m |>)
  end.

Definition set_mock_digital_input_slot (channel : Z) (active : bool) (now : Z) : Slot := λ c,
  if wc_backend c ==? Backend.Physical then
    publish_modbus_reply (rejected kAllModbusIoChannels active "PHYSICAL backend rejects Mock DI injection") c
  else if negb (channel_ok channel) then
    publish_modbus_reply
      (mkIoReply IoStatus.InvalidChannel kAllModbusIoChannels active false
         "MOCK / NO PHYSICAL RS485: DI channel must be in range 0..3") c
  else
    let '(r, m) := set_mock_digital_input (Z.to_nat channel) active now (wc_modbus_io c) in
    publish_modbus_reply r (c <| wc_modbus_io := m |>).

Definition set_next_mock_modbus_write_outcome (outcome : ModbusIoCommandStatus) : Slot := λ c,
  c <| wc_modbus_io ::= set_next_write_outcome outcome |>.

(** The host and the port of the agent. *)
Definition parse_agent_peer `{QtText} (c : WorkbenchController) : option (string * Z) :=
  let peer := wc_agent_peer c in
  let colon := q_last_index_of_colon peer in
  if colon <=? 0 then None
  else match q_to_int (q_mid peer (colon + 1)) with
  | None => None
  | Some parsed =>
      if (parsed <=? 0) || (65535 <? parsed) then None
      else
        let host := q_left peer colon in
        if q_is_empty host then None else Some (host, u16 parsed)
  end.

Definition request_modbus_scan `{QtText} (now : Z) : Slot := λ c,
  match wc_backend c with
  | Backend.Physical =>
      if wc_request_running c then c
      else match parse_agent_peer c with
      | None =>
          let c := c <| wc_physical ::= λ s, s <| mi_last_error := "invalid agent peer host:port" |>
                          <| mi_device_state := ModbusDeviceState.Error |> |> in
          emit (ModbusSnapshotReady (wc_physical c)) c
      | Some (host, port) =>
          let c := c <| wc_request_running := true |>
                     <| wc_physical ::= λ s, s <| mi_scan_state := ModbusScanState.Scanning |>
                          <| mi_agent_peer := wc_agent_peer c |> |> in
          emit (PhysicalModbusRequested (PhysicalModbusProbe host port)) (emit (ModbusSnapshotReady (wc_physical c)) c)
      end
  | Backend.Mock =>
      let '(_, m) := begin_scan now (wc_modbus_io c) in
      let c := c <| wc_modbus_io := m |> in
      emit (ModbusSnapshotReady (mk_snapshot (wc_modbus_io c))) c
  end.

(** Whether the slot above posts the single shot that completes a mock scan. *)
Definition posts_scan_completion (now : Z) (c : WorkbenchController) : bool :=
  (wc_backend c ==? Backend.Mock) && fst (begin_scan now (wc_modbus_io c)).

(** The single shot. *)
Definition complete_mock_scan (now : Z) : Slot := λ c,
  let c := c <| wc_modbus_io := snd (complete_scan now (wc_modbus_io c)) |> in
  if wc_backend c ==? Backend.Mock then emit (ModbusSnapshotReady (mk_snapshot (wc_modbus_io c))) c else c.

Definition select_mock_modbus_backend : Slot := λ c,
  if wc_backend c ==? Backend.Mock then publish_active_modbus_snapshot c
  else
    publish_active_modbus_snapshot
      (offline_mapper (emit DisconnectClient c <| wc_backend := Backend.Mock |> <| wc_request_running := false |> <| wc_blocked := false |>)).

Definition select_physical_modbus_backend : Slot := λ c,
  publish_active_modbus_snapshot
    (reset_physical_snapshot (offline_mapper (c <| wc_backend := Backend.Physical |> <| wc_blocked := false |>))).

Definition set_modbus_agent_peer `{QtText} (peer : string) : Slot := λ c,
  let c := c <| wc_agent_peer := q_trimmed peer |> in
  if wc_backend c ==? Backend.Physical then
    publish_active_modbus_snapshot (c <| wc_physical ::= λ s, s <| mi_agent_peer := wc_agent_peer c |> |>)
  else c.

Definition disconnect_physical_modbus : Slot := λ c,
  let c := offline_mapper (emit DisconnectClient c <| wc_request_running := false |> <| wc_blocked := false |>) in
  if wc_backend c ==? Backend.Physical then
    publish_active_modbus_snapshot
      (reset_physical_snapshot c <| wc_physical ::= λ s, s <| mi_last_error := "disconnected" |> |>)
  else c.

Definition tick_physical_modbus_poll : Slot := λ c,
  if wc_cell_client c then c
  else if negb (wc_backend c ==? Backend.Physical) || wc_request_running c || wc_blocked c ||
          negb (mi_device_state (wc_physical c) ==? ModbusDeviceState.Online) then c
  else request_physical PhysicalModbusReadDi c.

(** The terminal's new state; a terminal that is not online blocks further commands. *)
Definition adopt_snapshot (snapshot : ModbusIoSnapshot) : Slot := λ c,
  let c := c <| wc_physical := snapshot <| mi_agent_peer := wc_agent_peer c |> |> in
  let c := c <| wc_blocked := negb (mi_device_state (wc_physical c) ==? ModbusDeviceState.Online) |> in
  if wc_blocked c then offline_mapper c else c.

(** The queued completion of a request. *)
Definition apply_physical_transaction (snapshot : ModbusIoSnapshot) (reply : ModbusIoCommandReply) (user_visible : bool)
    : Slot := λ c,
  let c := c <| wc_request_running := false |> in
  if negb (wc_backend c ==? Backend.Physical) then c
  else
    let c := adopt_snapshot snapshot c in
    let c := if user_visible then emit (ModbusCommandCompleted reply) c else c in
    emit (ModbusSnapshotReady (wc_physical c)) c.

(** ** The remote loop-back *)

Definition set_remote_heartbeat_replies_enabled_slot (enabled : bool) : Slot := λ c,
  c <| wc_remote ::= λ '(r, e), (r, set_heartbeat_replies_enabled enabled <$> e) |>.

Definition remote_connected (c : WorkbenchController) : bool := rc_connected (fst (wc_remote c)).

Definition select_local_backend : Slot := λ c,
  publish_remote_connection (c <| wc_remote_mode := RemoteBackendMode.Local |> <| wc_remote ::= disconnect_session |>).

Definition select_remote_loopback_backend : Slot := λ c,
  let c := c <| wc_remote_mode := RemoteBackendMode.RemoteLoopback |> in
  publish_remote_connection (if remote_connected c then c <| wc_remote ::= disconnect_session |> else c).

(** [snapshot] is the adapter's. *)
Definition connect_remote_loopback (snapshot : RuntimeTelemetrySnapshot) : Slot := λ c,
  if negb (wc_adapter c) then c
  else
    let c := c <| wc_remote_mode := RemoteBackendMode.RemoteLoopback |> in
    publish_remote_connection (c <| wc_remote ::= λ l, fst (connect_session (project_remote_status snapshot) l) |>).

Definition disconnect_remote_loopback : Slot := λ c,
  publish_remote_connection (c <| wc_remote ::= disconnect_session |>).

Definition tick_remote_loopback (snapshot : RuntimeTelemetrySnapshot) (now : Z) : Slot := λ c,
  if negb (wc_adapter c) || negb (wc_remote_mode c ==? RemoteBackendMode.RemoteLoopback) || negb (remote_connected c) then c
  else
    let c := c <| wc_remote ::= λ '(r, e), (r, set_status (project_remote_status snapshot) <$> e) |> in
    let c := c <| wc_remote ::= λ l, fst (poll_heartbeat now l) |> in
    c <| wc_remote ::= λ l, fst (refresh_status l) |>.

(** ** The snapshot timer and the commands to the runtime *)

Definition apply_cell_ready_output (decision : CellReadyDecision) (now : Z) : Slot := λ c,
  let live := (wc_backend c ==? Backend.Mock) || physical_outputs_live c in
  if negb live then offline_mapper c
  else if wc_request_running c then c
  else
    let '(m, action) := mapper_observe decision true (wc_mapper c) in
    let c := c <| wc_mapper := m |> in
    match action with
    | Do0Action.RequestOn => request_digital_output 0 true now c
    | Do0Action.RequestOff => request_digital_output 0 false now c
    | Do0Action.None => c
    end.

(** What the cell peer, the adapter (asked a second time by the loop-back) and the clocks
    answer while a snapshot is published. *)
Record PublishEnv := mkPublishEnv {
  pv_connected : bool;
  pv_reconnect : bool;
  pv_status : Result CellAppStatus;
  pv_snapshot : RuntimeTelemetrySnapshot;
  pv_remote_snapshot : RuntimeTelemetrySnapshot;
  pv_now : Z;
  pv_remote_now : Z
}.

Definition ensure_cell_peer_connected (connected reconnect : bool) (c : WorkbenchController) : bool :=
  if negb (wc_cell_client c) then false else if connected then true else reconnect.

(** The end of a publication. *)
Definition publish_views (env : PublishEnv) (snap : RuntimeTelemetrySnapshot) : Slot := λ c,
  let c := emit (SnapshotReady snap) c in
  let c := emit (ActuatorSnapshotReady (ma_snapshot (wc_actuator c))) c in
  let c := publish_active_modbus_snapshot c in
  publish_remote_connection (tick_remote_loopback (pv_remote_snapshot env) (pv_remote_now env) c).

Definition publish_snapshot (blank : RuntimeTelemetrySnapshot) (env : PublishEnv) : Slot := λ c,
  if wc_cell_client c then
    if negb (ensure_cell_peer_connected (pv_connected env) (pv_reconnect env) c) then
      publish_views env (wc_last_snapshot c) c
    else
      match pv_status env with
      | Ok status =>
          let snap := cell_status_to_snapshot status in publish_views env snap (c <| wc_last_snapshot := snap |>)
      | Err _ => publish_views env (wc_last_snapshot c) c
      end
  else if wc_adapter c then
    let cell := evaluate_cell_ready (pv_snapshot env) in
    let snap := pv_snapshot env <| ts_position_reached := cr_position_reached cell |>
                  <| ts_cell_ready := cr_cell_ready cell |> in
    let c := apply_cell_ready_output cell (pv_now env) c in
    let io := active_modbus_snapshot c in
    let snap := snap <| ts_cell_modbus_online := mi_device_state io ==? ModbusDeviceState.Online |>
                  <| ts_cell_ready_do0_requested := do_requested (output_at 0 io) |>
                  <| ts_cell_ready_do0_confirmed := do_confirmed (output_at 0 io) |>
                  <| ts_cell_ready_do0_status := io_status_code (do_last_status (output_at 0 io)) |> in
    publish_views env snap (c <| wc_last_snapshot := snap |>)
  else publish_views env blank c.

(** What is answered while a command runs, and while the snapshot after it is published. *)
Record CommandEnv := mkCommandEnv {
  ce_connected : bool;
  ce_reconnect : bool;
  ce_cell_reply : Result CommandReply;
  ce_adapter_snapshot : RuntimeTelemetrySnapshot;
  ce_adapter_reply : CommandReply;
  ce_publish : PublishEnv
}.

Definition cell_not_connected (c : WorkbenchController) : CommandReply :=
  let mode := rv_mode (ts_runtime (wc_last_snapshot c)) in
  mkCommandReply CommandStatus.NotOpen mode mode "CEL1 not connected".

(** A command to whichever runtime the controller has. *)
Definition runtime_command (call : Signal) (blank : RuntimeTelemetrySnapshot) (env : CommandEnv) : Slot := λ c,
  if wc_cell_client c then
    if negb (ensure_cell_peer_connected (ce_connected env) (ce_reconnect env) c) then
      publish_runtime_command (cell_not_connected c) c
    else publish_snapshot blank (ce_publish env) (publish_cell_command (ce_cell_reply env) (emit call c))
  else if wc_adapter c then
    publish_snapshot blank (ce_publish env) (publish_runtime_command (ce_adapter_reply env) (emit call c))
  else publish_snapshot blank (ce_publish env) c.

Definition activate_runtime : RuntimeTelemetrySnapshot → CommandEnv → Slot := runtime_command Activate.

(** [++servo_command_sequence_], once more after a wrap-around. *)
Definition next_servo_sequence (n : Z) : Z := let s := u16 (n + 1) in if s =? 0 then u16 (s + 1) else s.

Definition servo_request (blank : RuntimeTelemetrySnapshot) (env : CommandEnv) (target_position : bool)
    (c : WorkbenchController) : DigitalOutputRequest :=
  let snap := if wc_cell_client c then wc_last_snapshot c
              else if wc_adapter c then ce_adapter_snapshot env else blank in
  mkDigitalOutputRequest (dv_session_id (ts_device snap)) (next_servo_sequence (wc_servo_sequence c)) 2000 0x01
    (if target_position then 0x01 else 0x00).

Definition submit_servo_bit (blank : RuntimeTelemetrySnapshot) (env : CommandEnv) (target_position : bool) : Slot := λ c,
  runtime_command (SubmitOutput (servo_request blank env target_position c)) blank env
    (c <| wc_servo_sequence := next_servo_sequence (wc_servo_sequence c) |>).

(** ** Health *)

Definition start_health (suffix : Z) : Slot := λ c,
  if negb (wc_worker c) || wc_health_running c then c
  else
    emit (HealthRequested ("qt-can-health-" +:+ pretty suffix)) (emit HealthStarted (c <| wc_health_running := true |>)).

Definition cancel_health : Slot := λ c,
  if wc_health_running c && wc_worker c then emit RequestCancel c else c.

Definition health_completed (r : TestResult) (json_path csv_path persistence_error : string) : Slot := λ c,
  emit (HealthCompleted r json_path csv_path persistence_error) (c <| wc_health_running := false |>).

(** ** The actuator *)

Definition drop_jog : Slot := λ c, c <| wc_jog_token := 0 |> <| wc_renew_timer := false |>.

Definition actuator_command (f : MockActuatorProfile → ActuatorCommandReply * MockActuatorProfile) : Slot := λ c,
  let '(r, a) := f (wc_actuator c) in publish_actuator_reply r (c <| wc_actuator := a |>).

Definition drive_enable_slot : Slot := actuator_command drive_enable.
Definition drive_disable_slot : Slot := λ c, actuator_command drive_disable (drop_jog c).
Definition home_actuator : Slot := actuator_command home.
Definition start_actuator_velocity (velocity : double) : Slot := actuator_command (start_velocity velocity).
Definition normal_stop_actuator : Slot := λ c, actuator_command normal_stop (drop_jog c).
Definition quick_stop_actuator : Slot := λ c, actuator_command quick_stop (drop_jog c).
Definition reset_actuator_fault : Slot := actuator_command reset_fault.

Definition jog_pressed (direction : Z) (velocity : double) : Slot := λ c,
  if negb (wc_jog_token c =? 0) then c
  else
    let '(r, a) := jog_press direction velocity (wc_actuator c) in
    let c := c <| wc_actuator := a |> in
    publish_actuator_reply r
      (if MockActuator.reply_accepted r then c <| wc_jog_token := ar_token r |> <| wc_renew_timer := true |> else c).

Definition jog_released : Slot := λ c,
  let c := c <| wc_renew_timer := false |> in
  if wc_jog_token c =? 0 then c else actuator_command (jog_release (wc_jog_token c)) (c <| wc_jog_token := 0 |>).

Definition tick_actuator (elapsed_ns : Z) : Slot := λ c,
  let c := c <| wc_actuator ::= tick elapsed_ns |> in
  if negb (wc_jog_token c =? 0) && (as_active_jog_token (ma_snapshot (wc_actuator c)) =? 0) then drop_jog c else c.

Definition renew_jog : Slot := λ c,
  if wc_jog_token c =? 0 then c <| wc_renew_timer := false |>
  else
    let '(r, a) := jog_renew (wc_jog_token c) (wc_actuator c) in
    let c := c <| wc_actuator := a |> in
    if MockActuator.reply_accepted r then c else publish_actuator_reply r (drop_jog c).

(** ** Construction *)

(** [peer_port] is the cell client's; [status] the default of the remote status. *)
Definition controller_new (adapter cell_client : bool) (peer_port : Z) (blank : RuntimeTelemetrySnapshot)
    (status : RemoteStatusView) : WorkbenchController :=
  let peer := "192.168.1.22:5740"%string in
  mkController adapter cell_client (adapter || (cell_client && negb (peer_port =? 0))) blank false
    (actuator_new default_actuator_config) (mock_io_new default_mock_io_config) initial_mapper
    (initial_client status, Some (initial_endpoint status)) RemoteBackendMode.Local Backend.Mock
    (make_unprobed_physical peer) peer 0 0 false false false [].

(** The destructor: the timers stop, the sessions end, a running test is cancelled. *)
Definition controller_destroy : Slot := λ c,
  let c := c <| wc_renew_timer := false |> <| wc_remote ::= disconnect_session |> in
  let c := emit DisconnectClient c in
  let c := if wc_worker c then emit RequestCancel c else c in
  c <| wc_worker := false |>.

(** ** The Modbus worker *)

Record ModbusAgentWorker := mkModbusWorker {
  mw_client : ModbusAgentClient;
  mw_last_host : string;
  mw_last_port : Z
}.

#[export] Instance ModbusAgentWorker_eta : Eta ModbusAgentWorker :=
  mkEta _ (fun w => mkModbusWorker (mw_client w) (mw_last_host w) (mw_last_port w)).

(** [transactionFinished] *)
Record Transaction := mkFinished {
  tf_snapshot : ModbusIoSnapshot;
  tf_reply : ModbusIoCommandReply;
  tf_user_visible : bool
}.

Definition default_io_reply : ModbusIoCommandReply := mkIoReply IoStatus.Rejected kAllModbusIoChannels false false "".

Definition disconnect_client (w : ModbusAgentWorker) (k : Kernel) : ModbusAgentWorker * Kernel :=
  let '(c, k) := agent_disconnect (mw_client w) k in (mkModbusWorker c "" 0, k).

Definition emit_transport_failure (e : Error) (peer : string) : Transaction :=
  let timed_out := err_code e ==? Errc.Timeout in
  let status := if timed_out then IoStatus.Timeout else IoStatus.Rejected in
  mkFinished
    (make_unprobed_physical peer <| mi_last_error := err_message e |>
       <| mi_device_state := if timed_out then ModbusDeviceState.Timeout else ModbusDeviceState.Error |>
       <| mi_last_command_status := status |>)
    (mkIoReply status (ir_channel default_io_reply) false false (err_message e)) true.

Definition emit_result (r : Result ModbusIoSnapshot) (peer : string) (user_visible : bool) : Transaction :=
  match r with
  | Err e => emit_transport_failure e peer
  | Ok s =>
      let s := s <| mi_agent_peer := peer |> in
      let message := if String.eqb (mi_last_error s) "" then "PHYSICAL transaction confirmed"%string else mi_last_error s in
      mkFinished s (mkIoReply (mi_last_command_status s) (ir_channel default_io_reply) false false message)
        (user_visible || negb (mi_device_state s ==? ModbusDeviceState.Online))
  end.

Definition peer_name (host : string) (port : Z) : string := host +:+ ":" +:+ pretty port.

(** A call of the client in the worker's thread; [None] while it still waits. *)
Definition worker_call (call : ModbusAgentClient → option (Result ModbusIoSnapshot) * ModbusAgentClient) (peer : string)
    (user_visible : bool) (w : ModbusAgentWorker) : option Transaction * ModbusAgentWorker :=
  let '(r, c) := call (mw_client w) in
  ((λ r, emit_result r peer user_visible) <$> r, w <| mw_client := c |>).

Definition worker_probe (host : string) (port : Z) (connect : ConnectEnv) (env : ExchangeEnv) (w : ModbusAgentWorker)
    (k : Kernel) : option Transaction * ModbusAgentWorker * Kernel :=
  let peer := peer_name host port in
  let probe w := worker_call (agent_probe 1000 env) peer true w in
  if negb (fd_valid (ag_fd (mw_client w))) || negb (String.eqb host (mw_last_host w)) || negb (port =? mw_last_port w) then
    match agent_connect connect (mw_client w) k with
    | (Err e, c, k) => (Some (emit_transport_failure e peer), w <| mw_client := c |>, k)
    | (Ok _, c, k) => (probe (mkModbusWorker c host port), k)
    end
  else (probe w, k).

(** The requests that need a connection. *)
Definition worker_request (call : ModbusAgentClient → option (Result ModbusIoSnapshot) * ModbusAgentClient)
    (user_visible : bool) (w : ModbusAgentWorker) : option Transaction * ModbusAgentWorker :=
  let peer := peer_name (mw_last_host w) (mw_last_port w) in
  if negb (fd_valid (ag_fd (mw_client w))) then
    (Some (emit_transport_failure (mkError Errc.NotOpen "agent client not connected") peer), w)
  else worker_call call peer user_visible w.

Definition worker_read_di (env : ExchangeEnv) : ModbusAgentWorker → option Transaction * ModbusAgentWorker :=
  worker_request (agent_read_inputs 1000 env) false.
Definition worker_write_do (channel : Z) (active : bool) (env : ExchangeEnv)
    : ModbusAgentWorker → option Transaction * ModbusAgentWorker :=
  worker_request (agent_write_output (u8 channel) active 1000 env) true.
Definition worker_all_off (env : ExchangeEnv) : ModbusAgentWorker → option Transaction * ModbusAgentWorker :=
  worker_request (agent_write_all_outputs_off 2000 env) true.
