(* ===== verification/WorkbenchSafety.v ===== *)
(** * What the workbench controller guarantees

    The events of the window's thread in any order: slots, timers and the worker's queued
    completions.  The jog token of the controller is the actuator's; writes go to the
    physical terminal only while its last verdict was ONLINE; at a cell peer the controller
    never owns DO0; what a completion shows is what the coils drive. *)

From stdpp Require Import pretty.
From S2P Require Import Prelude Types Application CellReady ModbusIo Adapter RemoteFrame RemoteControl CellProtocol SerialPort TcpFrame LinuxIo PhysicalModbus ModbusAgent Doubles MockActuator TestRunner Workbench.
Local Open Scope Z_scope.

(** ** Events *)

Inductive WbEvent :=
  | EvPublish (env : PublishEnv)
  | EvStartHealth (suffix : Z)
  | EvCancelHealth
  | EvHealthCompleted (r : TestResult) (json csv error : string)
  | EvActivate (env : CommandEnv)
  | EvServo (env : CommandEnv) (target : bool)
  | EvDriveEnable
  | EvDriveDisable
  | EvHome
  | EvVelocity (v : double)
  | EvNormalStop
  | EvQuickStop
  | EvJogPressed (direction : Z) (v : double)
  | EvJogReleased
  | EvResetFault
  | EvTickActuator (elapsed : Z)
  | EvRenewJog
  | EvScan (now : Z)
  | EvCompleteScan (now : Z)
  | EvMockInput (channel : Z) (active : bool) (now : Z)
  | EvOutput (channel : Z) (active : bool) (now : Z)
  | EvAllOff (now : Z)
  | EvNextOutcome (o : ModbusIoCommandStatus)
  | EvHeartbeatReplies (enabled : bool)
  | EvSelectLocal
  | EvSelectRemote
  | EvConnectRemote (s : RuntimeTelemetrySnapshot)
  | EvDisconnectRemote
  | EvSelectMock
  | EvSelectPhysical
  | EvSetPeer (peer : string)
  | EvDisconnectPhysical
  | EvPoll
  | EvTransaction (t : Transaction).

Section Events.
Context `{QtText} (blank : RuntimeTelemetrySnapshot).
Implicit Type c : WorkbenchController.

Definition wb_step (e : WbEvent) : Slot :=
  match e with
  | EvPublish env => publish_snapshot blank env
  | EvStartHealth suffix => start_health suffix
  | EvCancelHealth => cancel_health
  | EvHealthCompleted r json csv error => health_completed r json csv error
  | EvActivate env => activate_runtime blank env
  | EvServo env target => submit_servo_bit blank env target
  | EvDriveEnable => drive_enable_slot
  | EvDriveDisable => drive_disable_slot
  | EvHome => home_actuator
  | EvVelocity v => start_actuator_velocity v
  | EvNormalStop => normal_stop_actuator
  | EvQuickStop => quick_stop_actuator
  | EvJogPressed direction v => jog_pressed direction v
  | EvJogReleased => jog_released
  | EvResetFault => reset_actuator_fault
  | EvTickActuator elapsed => tick_actuator elapsed
  | EvRenewJog => renew_jog
  | EvScan now => request_modbus_scan now
  | EvCompleteScan now => complete_mock_scan now
  | EvMockInput channel active now => set_mock_digital_input_slot channel active now
  | EvOutput channel active now => request_digital_output channel active now
  | EvAllOff now => request_all_outputs_off now
  | EvNextOutcome o => set_next_mock_modbus_write_outcome o
  | EvHeartbeatReplies enabled => set_remote_heartbeat_replies_enabled_slot enabled
  | EvSelectLocal => select_local_backend
  | EvSelectRemote => select_remote_loopback_backend
  | EvConnectRemote s => connect_remote_loopback s
  | EvDisconnectRemote => disconnect_remote_loopback
  | EvSelectMock => select_mock_modbus_backend
  | EvSelectPhysical => select_physical_modbus_backend
  | EvSetPeer peer => set_modbus_agent_peer peer
  | EvDisconnectPhysical => disconnect_physical_modbus
  | EvPoll => tick_physical_modbus_poll
  | EvTransaction t => apply_physical_transaction (tf_snapshot t) (tf_reply t) (tf_user_visible t)
  end.

Definition wb_run (es : list WbEvent) (c : WorkbenchController) : WorkbenchController := foldl (λ c e, wb_step e c) c es.

(** ** What a slot leaves alone *)

(** The actuator's side and the Modbus side of the state. *)
Definition jog_part c := (wc_actuator c, wc_jog_token c, wc_renew_timer c).
Definition modbus_part c := (wc_backend c, wc_physical c, wc_request_running c, wc_blocked c, wc_mapper c).

(** Opens a slot: every branch of the code. *)
Ltac branches := repeat first [done | case_match; simplify_eq/=].

Lemma modbus_reply_parts r c :
  jog_part (publish_modbus_reply r c) = jog_part c ∧ modbus_part (publish_modbus_reply r c) = modbus_part c.
Proof. done. Qed.

Lemma output_jog channel active now c : jog_part (request_digital_output channel active now c) = jog_part c.
Proof. unfold request_digital_output. branches. Qed.

Lemma cell_ready_jog d now c : jog_part (apply_cell_ready_output d now c) = jog_part c.
Proof.
  unfold apply_cell_ready_output. destruct (negb _); [done|]. destruct (wc_request_running c); [done|].
  destruct (mapper_observe _ _ _) as [m a]. destruct a; [done|rewrite output_jog; done..].
Qed.

Lemma remote_tick_parts s now c :
  jog_part (tick_remote_loopback s now c) = jog_part c ∧ modbus_part (tick_remote_loopback s now c) = modbus_part c.
Proof. unfold tick_remote_loopback. by destruct (_ || _). Qed.

Lemma views_parts env s c :
  jog_part (publish_views env s c) = jog_part c ∧ modbus_part (publish_views env s c) = modbus_part c.
Proof.
  unfold publish_views. set (c1 := publish_active_modbus_snapshot _).
  destruct (remote_tick_parts (pv_remote_snapshot env) (pv_remote_now env) c1) as [Hj Hm].
  split; [transitivity (jog_part c1)|transitivity (modbus_part c1)]; done.
Qed.

Lemma publish_jog env c : jog_part (publish_snapshot blank env c) = jog_part c.
Proof.
  unfold publish_snapshot. destruct (wc_cell_client c).
  - destruct (negb _); [by rewrite (proj1 (views_parts _ _ _))|].
    destruct (pv_status env); by rewrite (proj1 (views_parts _ _ _)).
  - destruct (wc_adapter c); rewrite (proj1 (views_parts _ _ _)); [|done].
    transitivity (jog_part (apply_cell_ready_output (evaluate_cell_ready (pv_snapshot env)) (pv_now env) c)); [done|].
    apply cell_ready_jog.
Qed.

Lemma command_jog call env c : jog_part (runtime_command call blank env c) = jog_part c.
Proof.
  unfold runtime_command. destruct (wc_cell_client c).
  - destruct (negb _); [done|]. rewrite publish_jog. by destruct (ce_cell_reply env).
  - by destruct (wc_adapter c); rewrite publish_jog.
Qed.

(** ** The jog *)

Definition token_of (a : MockActuatorProfile) : Z := as_active_jog_token (ma_snapshot a).

(** Whatever a tick does, the token stays or is revoked. *)
Definition token_kept (a b : MockActuatorProfile) : Prop := token_of b = 0 ∨ token_of b = token_of a.

#[local] Instance token_kept_preorder : PreOrder token_kept.
Proof. split; [by right|]. unfold token_kept. intros a b d [H1|H1] [H2|H2]; rewrite ?H1 in H2; tauto. Qed.

Lemma tick_token elapsed a : token_kept a (tick elapsed a).
Proof.
  rewrite tick_unfold. destruct (elapsed <=? 0); [done|].
  transitivity (tick_deadman (advance_clock elapsed a)).
  { unfold tick_deadman. destruct (jog_expired _); [by left|by right]. }
  generalize (tick_deadman (advance_clock elapsed a)). clear. intros a. unfold tick_rest.
  destruct (homing_done a); [by right|].
  transitivity (update_snapshot_errors (tick_limits (tick_physics elapsed a))).
  { unfold tick_limits. destruct (_ || _); [by left|]. destruct (_ || _); [by left|by right]. }
  generalize (update_snapshot_errors (tick_limits (tick_physics elapsed a))). clear. intros a.
  transitivity (tick_tracking a).
  { unfold tick_tracking. destruct (_ && _); [|by right]. destruct (_ <=? _); [by left|by right]. }
  generalize (tick_tracking a). clear. intros a. unfold tick_stopped.
  destruct (_ && _); [|by right]. right. unfold token_of. cbn. by destruct (ma_disable_after_stop a).
Qed.

(** The controller's token is the actuator's, and the renewal timer runs exactly while there
    is one. *)
Definition jog_ok (n : Z) c : Prop :=
  actuator_inv default_actuator_config n (wc_actuator c) ∧ wc_jog_token c = token_of (wc_actuator c) ∧
  wc_renew_timer c = negb (wc_jog_token c =? 0).

Lemma jog_ok_part n c c' : jog_part c' = jog_part c → jog_ok n c → jog_ok (n + 1) c'.
Proof.
  unfold jog_part, jog_ok. intros [= -> -> ->] (Ha & Ht & Hr). split_and!; [|done..]. eapply inv_mono; [|exact Ha]. lia.
Qed.

Lemma token_running n a : actuator_inv default_actuator_config n a → token_of a ≠ 0 →
  as_state (ma_snapshot a) = AState.Running ∧ is_jog (as_motion_mode (ma_snapshot a)) = true.
Proof.
  intros (_ & _ & _ & _ & Hs) Ht. unfold state_inv, token_of in *.
  destruct (as_state (ma_snapshot a)); destruct_and?; destruct_or?; destruct_and?; done.
Qed.

Lemma running_token n a : actuator_inv default_actuator_config n a → as_state (ma_snapshot a) = AState.Running →
  is_jog (as_motion_mode (ma_snapshot a)) = true → token_of a ≠ 0.
Proof.
  intros (_ & _ & _ & _ & Hs) Hst Hj. unfold state_inv, token_of in *. rewrite Hst in Hs.
  destruct Hs as (_ & _ & _ & _ & [[Hm _]|[_ Hs]]); [by rewrite Hm in Hj|done].
Qed.

(** A command that leaves the token, or revokes it together with the controller's. *)
Lemma command_ok n f c c0 : n < 2 ^ 64 - 1 →
  command_keeps default_actuator_config n f →
  actuator_inv default_actuator_config n (wc_actuator c) → wc_actuator c0 = wc_actuator c →
  wc_jog_token c0 = token_of (snd (f (wc_actuator c))) → wc_renew_timer c0 = negb (wc_jog_token c0 =? 0) →
  jog_ok (n + 1) (actuator_command f c0).
Proof.
  intros Hn Hf Ha E Ht Hr. unfold actuator_command. rewrite E. specialize (Hf _ Ha).
  destruct (f (wc_actuator c)) as [r a]. by split_and!.
Qed.

Lemma at_rest n a : actuator_inv default_actuator_config n a → as_state (ma_snapshot a) ≠ AState.Running → token_of a = 0.
Proof. intros Ha Hs. destruct (decide (token_of a = 0)); [done|]. by destruct (token_running n a). Qed.

Lemma stop_tokens n a : actuator_inv default_actuator_config n a →
  token_of (snd (drive_disable a)) = 0 ∧ token_of (snd (normal_stop a)) = 0 ∧ token_of (snd (quick_stop a)) = 0.
Proof.
  intros Ha. pose proof (at_rest n a Ha) as Hrest. unfold token_of in *. split_and!.
  - unfold drive_disable. case_bool_decide as H1; [by apply Hrest; rewrite H1|].
    case_bool_decide as H2; [by apply Hrest; rewrite H2|]. destruct (_ || in_motion _) eqn:Hm; [done|].
    apply Hrest. intros E. rewrite E, orb_true_r in Hm. done.
  - unfold normal_stop. case_bool_decide as H1; [by apply Hrest; rewrite H1|].
    destruct (negb _ && negb _) eqn:Hm; [|done]. apply Hrest. intros E. by rewrite E in Hm.
  - unfold quick_stop. destruct (negb (in_motion _)) eqn:Hm; [|done]. apply Hrest. intros E. by rewrite E in Hm.
Qed.

Lemma other_tokens n a v : actuator_inv default_actuator_config n a →
  token_of (snd (drive_enable a)) = token_of a ∧ token_of (snd (home a)) = token_of a ∧
  token_of (snd (start_velocity v a)) = token_of a ∧ token_of (snd (reset_fault a)) = token_of a.
Proof.
  intros Ha. pose proof (at_rest n a Ha) as Hrest. unfold token_of in *. split_and!.
  - unfold drive_enable. destruct (negb _); [done|]. case_bool_decide; [done|]. by case_bool_decide.
  - unfold home. by destruct (_ || _).
  - unfold start_velocity. destruct (_ || _); [done|]. destruct (negb (ready_to_move _)) eqn:Hr; [done|].
    destruct (_ || _); [|done]. symmetry. apply Hrest. rewrite (ready_state (ma_snapshot a)); [done|].
    by apply negb_false_iff.
  - unfold reset_fault. destruct (negb (as_state _ ==? AState.Fault)) eqn:Hf; [done|]. destruct (_ || _); [done|].
    destruct (dlt _ _); [done|]. symmetry. apply Hrest. apply negb_false_iff, bool_decide_eq_true in Hf. by rewrite Hf.
Qed.

Lemma press_token d v a :
  (MockActuator.reply_accepted (fst (jog_press d v a)) = true →
     token_of (snd (jog_press d v a)) = ar_token (fst (jog_press d v a)) ∧
     as_state (ma_snapshot (snd (jog_press d v a))) = AState.Running ∧
     is_jog (as_motion_mode (ma_snapshot (snd (jog_press d v a)))) = true) ∧
  (MockActuator.reply_accepted (fst (jog_press d v a)) = false → token_kept a (snd (jog_press d v a))).
Proof.
  unfold jog_press. destruct (_ || _); [split; [discriminate|by right]|]. destruct (negb _); [split; [discriminate|by right]|].
  destruct (at_limit _ _); [split; [discriminate|by left]|].
  split; [by destruct (0 <? d)|discriminate].
Qed.

Lemma press_ok n d v c : n < 2 ^ 64 - 1 → jog_ok n c → jog_ok (n + 1) (jog_pressed d v c).
Proof.
  intros Hn Hok. pose proof Hok as (Ha & Ht & Hr). unfold jog_pressed.
  destruct (Z.eqb_spec (wc_jog_token c) 0) as [H0|H0]; cbn [negb]; [|by apply (jog_ok_part n c)].
  pose proof (jog_press_inv default_actuator_config n Hn d v _ Ha) as Hk. destruct (press_token d v (wc_actuator c)) as [H1 H2].
  destruct (jog_press d v (wc_actuator c)) as [r a] eqn:Hp. cbn [fst snd] in *.
  destruct (MockActuator.reply_accepted r) eqn:Hacc; split_and!; cbn; try done.
  - by destruct (H1 eq_refl) as [-> _].
  - destruct (H1 eq_refl) as (<- & Hs & Hj). rewrite (proj2 (Z.eqb_neq _ _)); [done|]. apply (running_token (n + 1)); done.
  - rewrite H0 in *. destruct (H2 eq_refl) as [E|E]; congruence.
  - by rewrite Hr, H0.
Qed.

Lemma release_ok n c : n < 2 ^ 64 - 1 → jog_ok n c → jog_ok (n + 1) (jog_released c).
Proof.
  intros Hn (Ha & Ht & Hr). unfold jog_released. cbn [wc_jog_token]. destruct (Z.eqb_spec (wc_jog_token c) 0) as [H0|H0].
  - change (wc_jog_token (c <| wc_renew_timer := false |>)) with (wc_jog_token c). rewrite H0. cbn.
    split_and!; cbn; [|done|by rewrite H0]. eapply inv_mono; [|exact Ha]. lia.
  - change (wc_jog_token (c <| wc_renew_timer := false |>)) with (wc_jog_token c).
    rewrite (proj2 (Z.eqb_neq _ _)) by done. apply (command_ok n _ c); [done|by apply jog_release_inv|done|done| |done].
    unfold jog_release. fold (token_of (wc_actuator c)). rewrite (proj2 (Z.eqb_neq _ _)) by done.
    rewrite <- Ht, Z.eqb_refl. done.
Qed.

Lemma renew_ok n c : n < 2 ^ 64 - 1 → jog_ok n c → jog_ok (n + 1) (renew_jog c).
Proof.
  intros Hn Hok. pose proof Hok as (Ha & Ht & Hr). unfold renew_jog.
  destruct (Z.eqb_spec (wc_jog_token c) 0) as [H0|H0].
  - split_and!; cbn; [|done|by rewrite H0]. eapply inv_mono; [|exact Ha]. lia.
  - pose proof (jog_renew_inv default_actuator_config n (wc_jog_token c) _ Ha) as Hk.
    destruct (token_running n _ Ha) as [Hs Hj]; [by rewrite <- Ht|].
    unfold jog_renew in *. fold (token_of (wc_actuator c)) in *.
    rewrite (proj2 (Z.eqb_neq (wc_jog_token c) 0)) in * by done. rewrite <- Ht, Z.eqb_refl, Hs, Hj in *. cbn [orb negb] in *.
    rewrite (bool_decide_eq_true_2 (AState.Running = AState.Running)) in * by done. cbn [orb negb] in *.
    destruct (_ <=? _); split_and!; try done. cbn. by rewrite (proj2 (Z.eqb_neq _ _)).
Qed.

Lemma tick_ok n elapsed c : jog_ok n c → jog_ok (n + 1) (tick_actuator elapsed c).
Proof.
  intros (Ha & Ht & Hr). unfold tick_actuator.
  assert (Hi : actuator_inv default_actuator_config (n + 1) (tick elapsed (wc_actuator c)))
    by (eapply inv_mono; [|by apply tick_inv]; lia).
  pose proof (tick_token elapsed (wc_actuator c)) as Hk. fold (token_of (wc_actuator (c <| wc_actuator ::= tick elapsed |>))).
  change (wc_actuator (c <| wc_actuator ::= tick elapsed |>)) with (tick elapsed (wc_actuator c)).
  change (wc_jog_token (c <| wc_actuator ::= tick elapsed |>)) with (wc_jog_token c).
  destruct (Z.eqb_spec (wc_jog_token c) 0) as [H0|H0]; cbn [negb andb].
  - split_and!; cbn; [done| |by rewrite Hr, H0]. unfold token_kept in Hk. rewrite <- Ht, H0 in Hk. rewrite H0. destruct Hk; congruence.
  - destruct (Z.eqb_spec (token_of (tick elapsed (wc_actuator c))) 0) as [E|E]; [by split_and!; cbn|].
    split_and!; cbn; [done| |by rewrite Hr, (proj2 (Z.eqb_neq _ _) H0)]. destruct Hk as [|Hk]; [done|]. by rewrite Hk.
Qed.

Lemma step_jog_ok n e c : n < 2 ^ 64 - 1 → jog_ok n c → jog_ok (n + 1) (wb_step e c).
Proof.
  intros Hn Hok. pose proof Hok as (Ha & Ht & Hr).
  destruct (stop_tokens n _ Ha) as (S1 & S2 & S3).
  assert (Hother := λ v, other_tokens n _ v Ha).
  destruct e; cbn [wb_step].
  all: try (by apply press_ok); try (by apply release_ok); try (by apply renew_ok); try (by apply tick_ok).
  all: try (by apply (jog_ok_part n c); [apply publish_jog || apply command_jog || apply output_jog|]).
  - apply (jog_ok_part n c); [|done]. unfold start_health. by destruct (_ || _).
  - apply (jog_ok_part n c); [|done]. unfold cancel_health. by destruct (_ && _).
  - by apply (jog_ok_part n c).
  - apply (jog_ok_part n c); [|done]. unfold submit_servo_bit. by rewrite command_jog.
  - apply (command_ok n _ c); [done|by apply drive_enable_inv|done|done| |done]. by rewrite (proj1 (Hother dzero)).
  - apply (command_ok n _ c); [done|by apply drive_disable_inv|done..].
  - apply (command_ok n _ c); [done|by apply home_inv|done|done| |done]. by destruct (Hother dzero) as (_ & -> & _).
  - apply (command_ok n _ c); [done|by apply start_velocity_inv|done|done| |done]. by destruct (Hother v) as (_ & _ & -> & _).
  - apply (command_ok n _ c); [done|by apply normal_stop_inv|done..].
  - apply (command_ok n _ c); [done|by apply quick_stop_inv|done..].
  - apply (command_ok n _ c); [done|by apply reset_fault_inv|done|done| |done]. by destruct (Hother dzero) as (_ & _ & _ & ->).
  - apply (jog_ok_part n c); [|done]. unfold request_modbus_scan. branches.
  - apply (jog_ok_part n c); [|done]. unfold complete_mock_scan. by case_bool_decide.
  - apply (jog_ok_part n c); [|done]. unfold set_mock_digital_input_slot. branches.
  - apply (jog_ok_part n c); [|done]. unfold request_all_outputs_off. branches.
  - by apply (jog_ok_part n c).
  - by apply (jog_ok_part n c).
  - by apply (jog_ok_part n c).
  - apply (jog_ok_part n c); [|done]. unfold select_remote_loopback_backend. by destruct (remote_connected _).
  - apply (jog_ok_part n c); [|done]. unfold connect_remote_loopback. by destruct (wc_adapter c).
  - by apply (jog_ok_part n c).
  - apply (jog_ok_part n c); [|done]. unfold select_mock_modbus_backend. by case_bool_decide.
  - by apply (jog_ok_part n c).
  - apply (jog_ok_part n c); [|done]. unfold set_modbus_agent_peer. by case_bool_decide.
  - apply (jog_ok_part n c); [|done]. unfold disconnect_physical_modbus. by case_bool_decide.
  - apply (jog_ok_part n c); [|done]. unfold tick_physical_modbus_poll. branches.
  - apply (jog_ok_part n c); [|done]. unfold apply_physical_transaction, adopt_snapshot. branches.
Qed.

Lemma new_jog_ok adapter cell port status : jog_ok 0 (controller_new adapter cell port blank status).
Proof. split_and!; [apply actuator_new_inv|done..]. Qed.

Lemma run_jog_ok es : ∀ n c, n + Z.of_nat (length es) < 2 ^ 64 → jog_ok n c → jog_ok (n + Z.of_nat (length es)) (wb_run es c).
Proof.
  induction es as [|e es IH]; intros n c Hn Hok; cbn in *; [by rewrite Z.add_0_r|].
  replace (n + Z.of_nat (S (length es))) with ((n + 1) + Z.of_nat (length es)) by lia.
  apply IH; [lia|]. apply step_jog_ok; [lia|done].
Qed.

(** The controller never renews a jog that is not running, and never leaves one without
    renewal: after any events its token is the actuator's active token, and its 50 ms renewal
    timer runs exactly while the actuator is in a jog.  So a jog whose button is released, or
    that a stop, a disable, a fault or the dead-man ended, is not kept alive by the window. *)
Theorem jog_lease_in_step adapter cell port status es :
  Z.of_nat (length es) < 2 ^ 64 →
  let c := wb_run es (controller_new adapter cell port blank status) in
  let s := ma_snapshot (wc_actuator c) in
  wc_jog_token c = as_active_jog_token s ∧
  (wc_renew_timer c = true ↔ as_state s = AState.Running ∧ is_jog (as_motion_mode s) = true).
Proof.
  intros Hn. destruct (run_jog_ok es 0 _ ltac:(lia) (new_jog_ok adapter cell port status)) as (Ha & Ht & Hr).
  cbv zeta. split; [done|]. rewrite Hr. split.
  - intros Hnz. apply (token_running _ _ Ha). rewrite <- Ht. by destruct (Z.eqb_spec (wc_jog_token (wb_run es (controller_new adapter cell port blank status))) 0).
  - intros [Hs Hj]. rewrite Ht, (proj2 (Z.eqb_neq _ _)); [done|]. by eapply running_token.
Qed.

(** ** Requests to the physical terminal *)

Definition request_of (s : Signal) : option WorkerRequest := match s with PhysicalModbusRequested r => Some r | _ => None end.
Definition requests c : list WorkerRequest := omap request_of (wc_log c).

Definition is_write (r : WorkerRequest) : bool :=
  match r with PhysicalModbusWriteDo _ _ | PhysicalModbusAllOff => true | _ => false end.

Definition online (s : ModbusIoSnapshot) : bool := mi_device_state s ==? ModbusDeviceState.Online.

(** The part of the state that decides about requests. *)
Definition terminal_view c := (wc_backend c, online (wc_physical c), wc_request_running c, wc_blocked c).

(** A slot that asks the terminal for nothing and changes nothing of that. *)
Definition quiet c c' : Prop :=
  terminal_view c' = terminal_view c ∧ requests c' = requests c ∧ wc_cell_client c' = wc_cell_client c ∧
  wc_mapper c' = wc_mapper c.

#[local] Instance quiet_preorder : PreOrder quiet.
Proof. split; [done|]. unfold quiet. intros a b d (? & ? & ? & ?) (? & ? & ? & ?). split_and!; congruence. Qed.

(** A slot that asks for one thing, with nothing in flight. *)
Definition asks (r : WorkerRequest) c c' : Prop :=
  wc_backend c = Backend.Physical ∧ wc_request_running c = false ∧ terminal_view c' = (Backend.Physical, online (wc_physical c), true, wc_blocked c) ∧
  requests c' = r :: requests c ∧ wc_cell_client c' = wc_cell_client c.

Lemma request_asks c r c1 : wc_backend c = Backend.Physical → wc_request_running c = false → quiet c c1 →
  asks r c (request_physical r c1).
Proof.
  intros Hb Hr (Hv & Hq & Hc & _). unfold terminal_view in Hv. injection Hv as Eb Eo Er El.
  split_and!; try done; [|by cbn; rewrite <- Hq].
  unfold terminal_view. cbn. by rewrite Eb, Eo, El, Hb.
Qed.

Lemma output_effect channel active now c :
  let c' := request_digital_output channel active now c in
  quiet c c' ∨
  (asks (PhysicalModbusWriteDo channel active) c c' ∧ physical_outputs_live c = true ∧
   (wc_cell_client c = true → channel ≠ 0) ∧ wc_mapper c' = wc_mapper c).
Proof.
  cbv zeta. unfold request_digital_output. destruct (wc_cell_client c && (channel =? 0)) eqn:Hcell; [by left|].
  destruct (wc_backend c) eqn:Hb.
  - destruct (negb (channel_ok channel)); [by left|]. destruct (write_digital_output _ _ _ _) as [r m]. by left.
  - destruct (wc_blocked c) eqn:Hbl; [by left|]. destruct (physical_outputs_live c) eqn:Hl; [|by left]. cbn [negb].
    destruct (wc_request_running c) eqn:Hr; [by left|]. destruct (channel_ok channel); [|by left]. cbn [negb].
    right. split_and!; try done.
    + by apply (request_asks c).
    + intros Hc ->. by rewrite Hc in Hcell.
Qed.

Lemma output_goes channel active now c : physical_outputs_live c = true → wc_request_running c = false →
  channel_ok channel = true → wc_cell_client c = false →
  requests (request_digital_output channel active now c) = PhysicalModbusWriteDo channel active :: requests c.
Proof.
  intros Hl Hr Hch Hc. unfold request_digital_output. rewrite Hl, Hr, Hch, Hc. cbn [andb negb].
  unfold physical_outputs_live in Hl. rewrite !andb_true_iff in Hl. destruct Hl as [[Hb Hbl] _].
  apply bool_decide_eq_true in Hb. apply negb_true_iff in Hbl. by rewrite Hb, Hbl.
Qed.

Lemma cell_ready_effect d now c :
  wc_cell_client c = false →
  let c' := apply_cell_ready_output d now c in
  (terminal_view c' = terminal_view c ∧ requests c' = requests c ∧ wc_cell_client c' = wc_cell_client c) ∨
  (∃ b, asks (PhysicalModbusWriteDo 0 b) c c' ∧ physical_outputs_live c = true).
Proof.
  intros Hc. cbv zeta. unfold apply_cell_ready_output. destruct (negb _); [by left|].
  destruct (wc_request_running c) eqn:Hr; [by left|]. destruct (mapper_observe _ _ _) as [m a].
  assert (Ho : ∀ b, let c1 := c <| wc_mapper := m |> in let c' := request_digital_output 0 b now c1 in
    (terminal_view c' = terminal_view c ∧ requests c' = requests c ∧ wc_cell_client c' = wc_cell_client c) ∨
    (asks (PhysicalModbusWriteDo 0 b) c c' ∧ physical_outputs_live c = true)).
  { intros b. cbv zeta. destruct (output_effect 0 b now (c <| wc_mapper := m |>)) as [(? & ? & ? & ?)|(? & ? & ?)]; [by left|by right]. }
  destruct a; [by left|destruct (Ho true); [by left|right; by exists true]|destruct (Ho false); [by left|right; by exists false]].
Qed.

(** What a station at a cell peer may ask the terminal for. *)
Definition permitted (r : WorkerRequest) : bool :=
  match r with PhysicalModbusReadDi => false | PhysicalModbusWriteDo channel _ => negb (channel =? 0) | _ => true end.

(** What every event but a completion does: the terminal does not become live, and at most one
    request is made, with nothing in flight, and is then in flight; a write needs a live
    terminal; only a [reset] may forget what is in flight. *)
Definition ordinary (reset : bool) c c' : Prop :=
  wc_cell_client c' = wc_cell_client c ∧ (physical_outputs_live c' = true → physical_outputs_live c = true) ∧
  (requests c' = requests c ∧ (reset = false → wc_request_running c' = wc_request_running c) ∨
   ∃ r, requests c' = r :: requests c ∧ wc_request_running c = false ∧ wc_request_running c' = true ∧
     wc_backend c = Backend.Physical ∧
     (is_write r = true → physical_outputs_live c = true) ∧ (wc_cell_client c = true → permitted r = true)).

Lemma live_view c c' : terminal_view c' = terminal_view c → physical_outputs_live c' = physical_outputs_live c.
Proof. unfold terminal_view, physical_outputs_live, online. by intros [= -> -> _ ->]. Qed.

Lemma quiet_ordinary b c c' :
  terminal_view c' = terminal_view c → requests c' = requests c → wc_cell_client c' = wc_cell_client c → ordinary b c c'.
Proof.
  intros Hv Hr Hc. split_and!; [done|by rewrite (live_view c c' Hv)|]. left. split; [done|]. intros _.
  unfold terminal_view in Hv. congruence.
Qed.

Lemma asks_ordinary b r c c' : asks r c c' → (is_write r = true → physical_outputs_live c = true) →
  (wc_cell_client c = true → permitted r = true) → ordinary b c c'.
Proof.
  intros (Hb & Hr & Hv & Hq & Hc) Hw Hp.
  split_and!; [done| |right; exists r; split_and!; try done; unfold terminal_view in Hv; congruence].
  unfold terminal_view, online in Hv. injection Hv as Eb Eo Er El. unfold physical_outputs_live in *.
  by rewrite Eb, El, Eo, Hb.
Qed.

Lemma ordinary_quiet_after b c c1 c' : ordinary b c c1 → quiet c1 c' → ordinary b c c'.
Proof.
  intros (Hc & Hl & Hq) (Hv & Hr & Hc' & _). unfold ordinary.
  assert (Er : wc_request_running c' = wc_request_running c1) by (unfold terminal_view in Hv; congruence).
  by rewrite Hc', (live_view _ _ Hv), Hr, Er.
Qed.

Lemma ordinary_quiet_before b c c1 c' : quiet c c1 → ordinary b c1 c' → ordinary b c c'.
Proof.
  intros (Hv & Hr & Hc & _) (Hc' & Hl & Hq). rewrite (live_view _ _ Hv) in *.
  assert (Er : wc_request_running c1 = wc_request_running c) by (unfold terminal_view in Hv; congruence).
  assert (Eb : wc_backend c1 = wc_backend c) by (unfold terminal_view in Hv; congruence).
  unfold ordinary. rewrite Hc' in *. rewrite Hc, Hr, Er, Eb in *. by split_and!.
Qed.

Lemma output_ordinary b channel active now c : ordinary b c (request_digital_output channel active now c).
Proof.
  destruct (output_effect channel active now c) as [(? & ? & ? & ?)|(Ha & Hl & Hp & _)]; [by apply quiet_ordinary|].
  apply (asks_ordinary _ (PhysicalModbusWriteDo channel active)); [done..|]. intros Hc. cbn.
  by apply negb_true_iff, Z.eqb_neq, Hp.
Qed.

Lemma views_quiet env s c : quiet c (publish_views env s c).
Proof.
  unfold publish_views, tick_remote_loopback. by destruct (_ || _).
Qed.

Lemma publish_ordinary b env c : ordinary b c (publish_snapshot blank env c).
Proof.
  unfold publish_snapshot. destruct (wc_cell_client c) eqn:Hc.
  - destruct (negb _); [|destruct (pv_status env)]; (eapply ordinary_quiet_after; [|apply views_quiet]); by apply quiet_ordinary.
  - destruct (wc_adapter c); (eapply ordinary_quiet_after; [|apply views_quiet]); [|by apply quiet_ordinary].
    destruct (cell_ready_effect (evaluate_cell_ready (pv_snapshot env)) (pv_now env) c Hc) as [(? & ? & ?)|(v & Ha & Hl)].
    + by apply quiet_ordinary.
    + apply (asks_ordinary _ (PhysicalModbusWriteDo 0 v)); [done..|]. by rewrite Hc.
Qed.

Lemma command_ordinary b call env c : request_of call = None → ordinary b c (runtime_command call blank env c).
Proof.
  intros Hcall. unfold runtime_command.
  assert (Hq : quiet c (emit call c)) by (unfold quiet, requests; cbn; by rewrite Hcall).
  destruct (wc_cell_client c) eqn:Hc.
  - destruct (negb _); [by apply quiet_ordinary|].
    eapply ordinary_quiet_before; [|apply publish_ordinary]. etransitivity; [exact Hq|]. by destruct (ce_cell_reply env).
  - destruct (wc_adapter c); [|apply publish_ordinary].
    eapply ordinary_quiet_before; [|apply publish_ordinary]. etransitivity; [exact Hq|]. done.
Qed.

Lemma actuator_quiet f c : quiet c (actuator_command f c).
Proof. unfold actuator_command. by destruct (f (wc_actuator c)). Qed.

Lemma scan_ordinary b now c : ordinary b c (request_modbus_scan now c).
Proof.
  unfold request_modbus_scan. destruct (wc_backend c) eqn:Hb.
  - destruct (begin_scan now (wc_modbus_io c)) as [ok m]. by apply quiet_ordinary.
  - destruct (wc_request_running c) eqn:Hr; [by apply quiet_ordinary|].
    destruct (parse_agent_peer c) as [[host port]|].
    + split_and!; [done|done|]. right. by exists (PhysicalModbusProbe host port).
    + split_and!; [done| |left; split; [done|by intros _]]. unfold physical_outputs_live. cbn. by rewrite andb_false_r.
Qed.

(** The state stays when nothing of the terminal is touched; used for the small slots. *)
Ltac small := by apply quiet_ordinary.
Ltac dead := split_and!; [done|unfold physical_outputs_live; cbn; rewrite ?andb_false_r; done|by left; split].

Definition is_reset (e : WbEvent) : bool := match e with EvSelectMock | EvDisconnectPhysical => true | _ => false end.

Lemma step_ordinary e c : (∀ t, e ≠ EvTransaction t) → ordinary (is_reset e) c (wb_step e c).
Proof.
  intros He. assert (Hact : ∀ b f c1, quiet c c1 → ordinary b c (actuator_command f c1)).
  { intros b f c1 Hq. eapply ordinary_quiet_before; [exact Hq|].
    eapply ordinary_quiet_after; [|apply actuator_quiet]. by apply quiet_ordinary. }
  destruct e; cbn [wb_step]; try (by apply publish_ordinary); try (by apply output_ordinary); try (by apply scan_ordinary);
    try (by apply Hact); try small.
  - unfold start_health. destruct (_ || _); small.
  - unfold cancel_health. destruct (_ && _); small.
  - by apply command_ordinary.
  - unfold submit_servo_bit. eapply ordinary_quiet_before; [|by apply command_ordinary]. done.
  - unfold jog_pressed. destruct (negb _); [small|]. destruct (jog_press _ _ _) as [r a].
    destruct (MockActuator.reply_accepted r); small.
  - unfold jog_released. destruct (_ =? _); [small|]. by apply Hact.
  - unfold tick_actuator. destruct (_ && _); small.
  - unfold renew_jog. destruct (_ =? _); [small|]. destruct (jog_renew _ _) as [r a].
    destruct (MockActuator.reply_accepted r); small.
  - unfold complete_mock_scan. case_bool_decide; small.
  - unfold set_mock_digital_input_slot. case_bool_decide; [small|]. destruct (negb _); [small|].
    destruct (set_mock_digital_input _ _ _ _) as [r m]. small.
  - unfold request_all_outputs_off. destruct (wc_backend c) eqn:Hb.
    + destruct (mock_write_all_outputs_off _ _) as [r m]. small.
    + destruct (wc_blocked c); [small|]. destruct (physical_outputs_live c) eqn:Hl; [|small]. cbn [negb].
      destruct (wc_request_running c) eqn:Hr; [small|].
      apply (asks_ordinary _ PhysicalModbusAllOff); [by apply request_asks|done..].
  - unfold select_remote_loopback_backend. destruct (remote_connected _); small.
  - unfold connect_remote_loopback. destruct (wc_adapter c); small.
  - unfold select_mock_modbus_backend. case_bool_decide; [small|]. dead.
  - dead.
  - unfold set_modbus_agent_peer. case_bool_decide; small.
  - unfold disconnect_physical_modbus. case_bool_decide as Hb; [dead|]. split_and!; [done| |by left; split].
    unfold physical_outputs_live. cbn in Hb |- *. by rewrite (bool_decide_eq_false_2 _ Hb).
  - unfold tick_physical_modbus_poll. destruct (wc_cell_client c) eqn:Hc; [small|].
    destruct (_ || _) eqn:Hg; [small|]. rewrite !orb_false_iff in Hg. destruct Hg as [[[Hb Hr] _] _].
    apply negb_false_iff, bool_decide_eq_true in Hb.
    apply (asks_ordinary _ PhysicalModbusReadDi); [by apply request_asks|done|by rewrite Hc].
  - by destruct (He t).
Qed.

Lemma adopt_effect s c :
  let c' := adopt_snapshot s c in
  requests c' = requests c ∧ wc_cell_client c' = wc_cell_client c ∧ wc_backend c' = wc_backend c ∧
  (wc_backend c = Backend.Physical → physical_outputs_live c' = online s).
Proof.
  cbv zeta. unfold adopt_snapshot, physical_outputs_live, online. cbn.
  destruct (mi_device_state s ==? ModbusDeviceState.Online) eqn:Ho; cbn; rewrite Ho; cbn; split_and!; try done;
    intros ->; done.
Qed.

Lemma transaction_effect t c :
  let c' := wb_step (EvTransaction t) c in
  requests c' = requests c ∧ wc_cell_client c' = wc_cell_client c ∧ wc_backend c' = wc_backend c ∧
  (physical_outputs_live c' = true ↔ wc_backend c = Backend.Physical ∧ online (tf_snapshot t) = true).
Proof.
  cbv zeta. cbn [wb_step]. unfold apply_physical_transaction.
  change (wc_backend (c <| wc_request_running := false |>)) with (wc_backend c).
  destruct (adopt_effect (tf_snapshot t) (c <| wc_request_running := false |>)) as (Hr & Hc & Hb' & Hl).
  change (wc_backend (c <| wc_request_running := false |>)) with (wc_backend c) in *.
  destruct (wc_backend c) eqn:Hb.
  - cbn. split_and!; try done. unfold physical_outputs_live. cbn. rewrite Hb. by split; [|intros [? _]].
  - rewrite bool_decide_eq_true_2 by done. cbn [negb].
    set (c1 := adopt_snapshot (tf_snapshot t) (c <| wc_request_running := false |>)) in *. clearbody c1.
    specialize (Hl eq_refl). destruct (tf_user_visible t); (split_and!; [done..|]);
      rewrite (live_view c1) by done; rewrite Hl; naive_solver.
Qed.

(** The verdict on the terminal: the last completion since it was selected or disconnected. *)
Definition verdict_step (e : WbEvent) c (v : option bool) : option bool :=
  match e with
  | EvTransaction t => if wc_backend c ==? Backend.Physical then Some (online (tf_snapshot t)) else v
  | EvSelectPhysical | EvSelectMock | EvDisconnectPhysical => None
  | _ => v
  end.

Definition wb_history (es : list WbEvent) (x : WorkbenchController * option bool) : WorkbenchController * option bool :=
  foldl (λ x e, (wb_step e (fst x), verdict_step e (fst x) (snd x))) x es.

Lemma reset_dead e c : e = EvSelectPhysical ∨ is_reset e = true → physical_outputs_live (wb_step e c) = false.
Proof.
  intros [-> | He]; [done|]. destruct e; try done; cbn [wb_step].
  - unfold select_mock_modbus_backend. case_bool_decide as Hb; [|done]. unfold physical_outputs_live. cbn. by rewrite Hb.
  - unfold disconnect_physical_modbus. case_bool_decide as Hb; [unfold physical_outputs_live; cbn; by rewrite andb_false_r|].
    unfold physical_outputs_live. cbn in Hb |- *. by rewrite (bool_decide_eq_false_2 _ Hb).
Qed.

Lemma event_cases e :
  (∃ t, e = EvTransaction t) ∨
  (∀ t, e ≠ EvTransaction t) ∧ ((e = EvSelectPhysical ∨ is_reset e = true) ∨ ∀ c v, verdict_step e c v = v).
Proof. destruct e; eauto 6. Qed.

Definition verdict_ok (x : WorkbenchController * option bool) : Prop :=
  physical_outputs_live (fst x) = true → snd x = Some true.

Lemma history_verdict es : ∀ x, verdict_ok x → verdict_ok (wb_history es x).
Proof.
  induction es as [|e es IH]; intros [c v] Hx; [done|]. apply IH. unfold verdict_ok in *. cbn [fst snd] in *. intros Hl.
  destruct (event_cases e) as [[t ->]|[Ht [Hr|Hr]]].
  - destruct (transaction_effect t c) as (_ & _ & _ & Hiff). apply Hiff in Hl as [Hb Ho]. cbn. by rewrite Hb, Ho.
  - by rewrite (reset_dead e c Hr) in Hl.
  - rewrite Hr. destruct (step_ordinary e c Ht) as (_ & Hlive & _). by apply Hx, Hlive.
Qed.

(** C17.  The controller never replays a command on a terminal it has lost.  In any history an
    event asks the Modbus worker for at most one thing, never while it knows a request in
    flight, and for a write or an all-off only when the last completion since the terminal
    was selected or disconnected showed it ONLINE. *)
Theorem writes_need_online adapter cell port status es e :
  let '(c, v) := wb_history es (controller_new adapter cell port blank status, None) in
  requests (wb_step e c) = requests c ∨
  ∃ r, requests (wb_step e c) = r :: requests c ∧ wc_backend c = Backend.Physical ∧
    wc_request_running c = false ∧ (is_write r = true → v = Some true).
Proof.
  pose proof (history_verdict es (controller_new adapter cell port blank status, None)) as Hv.
  destruct (wb_history es _) as [c v]. cbn in Hv.
  destruct (event_cases e) as [[t ->]|[Ht _]]; [left; apply transaction_effect|].
  destruct (step_ordinary e c Ht) as (_ & _ & [[Hr _]|(r & Hr & Hi & _ & Hb & Hw & _)]); [by left|].
  right. exists r. split_and!; try done. intros Hwr. apply Hv; [done|]. by apply Hw.
Qed.

Lemma run_permitted es : ∀ c, wc_cell_client c = true → Forall (λ r, permitted r = true) (requests c) →
  Forall (λ r, permitted r = true) (requests (wb_run es c)).
Proof.
  induction es as [|e es IH]; intros c Hc Hp; [done|]. cbn.
  destruct (event_cases e) as [[t ->]|[Ht _]].
  - destruct (transaction_effect t c) as (Hr & Hc' & _). apply IH; [by rewrite Hc'|by rewrite Hr].
  - destruct (step_ordinary e c Ht) as (Hc' & _ & Hr). apply IH; [by rewrite Hc'|].
    destruct Hr as [[-> _]|(r & -> & _ & _ & _ & _ & Hok)]; [done|]. constructor; [by apply Hok|done].
Qed.

(** At a cell peer DO0 belongs to the edge: whatever the operator, the timers and the
    peer do, the station never asks the terminal to write DO0 and never polls it. *)
Theorem cell_peer_leaves_do0 adapter port status es :
  Forall (λ r, permitted r = true) (requests (wb_run es (controller_new adapter true port blank status))).
Proof. by apply run_permitted. Qed.

Lemma disconnect_keeps c :
  wc_backend (wb_step EvDisconnectPhysical c) = wc_backend c ∧ wc_cell_client (wb_step EvDisconnectPhysical c) = wc_cell_client c.
Proof. cbn [wb_step]. unfold disconnect_physical_modbus. by case_bool_decide. Qed.

Lemma transaction_shows t c :
  wc_request_running (wb_step (EvTransaction t) c) = false ∧
  (wc_backend c = Backend.Physical →
   ∃ s, head (wc_log (wb_step (EvTransaction t) c)) = Some (ModbusSnapshotReady s) ∧ online s = online (tf_snapshot t)).
Proof.
  cbn [wb_step]. unfold apply_physical_transaction.
  change (wc_backend (c <| wc_request_running := false |>)) with (wc_backend c).
  case_bool_decide as Hb; cbn [negb]; [|by split].
  assert (Ha : wc_request_running (adopt_snapshot (tf_snapshot t) (c <| wc_request_running := false |>)) = false ∧
    online (wc_physical (adopt_snapshot (tf_snapshot t) (c <| wc_request_running := false |>))) = online (tf_snapshot t))
    by (unfold adopt_snapshot; cbn; by destruct (_ ==? _)).
  generalize dependent (adopt_snapshot (tf_snapshot t) (c <| wc_request_running := false |>)). intros c1 [Hr Ho].
  destruct (tf_user_visible t); (split; [exact Hr|]); intros _; by eexists.
Qed.

(** ** One request at a time *)

(** The event loop with the requests the worker has not answered. *)
Inductive loop_step : WorkbenchController * nat → WorkbenchController * nat → Prop :=
  | loop_event e c n : (∀ t, e ≠ EvTransaction t) → is_reset e = false →
      loop_step (c, n) (wb_step e c, n + (length (requests (wb_step e c)) - length (requests c)))%nat
  | loop_completion t c n : loop_step (c, S n) (wb_step (EvTransaction t) c, n).

(** C18.  As long as the terminal is neither disconnected nor given up for the mock, there is
    at most one request without its completion, and [modbus_request_running_] says exactly
    whether there is one. *)
Theorem one_request_in_flight adapter cell port status c n :
  rtc loop_step (controller_new adapter cell port blank status, 0%nat) (c, n) →
  n = if wc_request_running c then 1%nat else 0%nat.
Proof.
  intros Hrun. remember (controller_new adapter cell port blank status, 0%nat) as x eqn:Hx. remember (c, n) as y eqn:Hy.
  assert (H0 : snd x = if wc_request_running (fst x) then 1%nat else 0%nat) by by rewrite Hx. clear Hx. revert c n Hy H0.
  induction Hrun as [x|x y z Hs _ IH]; intros c n -> H0; [done|]. apply (IH c n eq_refl). clear IH.
  destruct Hs as [e c1 n1 He Hr|t c1 n1]; cbn [fst snd] in *.
  - destruct (step_ordinary e c1 He) as (_ & _ & [[Hq Hk]|(r & Hq & Hi & Hk & _)]).
    + rewrite Hq, (Hk Hr), Nat.sub_diag. by rewrite Nat.add_0_r.
    + rewrite Hq, Hk. rewrite Hi in H0. subst n1. cbn [length]. lia.
  - rewrite (proj1 (transaction_shows t c1)). destruct (wc_request_running c1); [by injection H0|done].
Qed.

(** C37.  The completion of a request that was in flight when the operator disconnected is
    taken for the terminal's state: the terminal is shown ONLINE again and accepts an output
    request at once, although the client was disconnected. *)
Theorem late_completion_undoes_disconnect c t channel active now :
  wc_backend c = Backend.Physical → wc_cell_client c = false → online (tf_snapshot t) = true → channel_ok channel = true →
  let c' := wb_step (EvTransaction t) (wb_step EvDisconnectPhysical c) in
  physical_outputs_live c' = true ∧ (∃ s, head (wc_log c') = Some (ModbusSnapshotReady s) ∧ online s = true) ∧
  requests (wb_step (EvOutput channel active now) c') = PhysicalModbusWriteDo channel active :: requests c'.
Proof.
  intros Hb Hc Ho Hch. cbv zeta. destruct (disconnect_keeps c) as [Hb0 Hc0]. rewrite Hb in Hb0. rewrite Hc in Hc0.
  generalize dependent (wb_step EvDisconnectPhysical c). intros c0 Hb0 Hc0.
  destruct (transaction_effect t c0) as (_ & Hc1 & _ & [_ Hlive]). specialize (Hlive (conj Hb0 Ho)). rewrite Hc0 in Hc1.
  destruct (transaction_shows t c0) as [Hi Hs]. specialize (Hs Hb0). rewrite Ho in Hs.
  generalize dependent (wb_step (EvTransaction t) c0). intros c1 Hc1 Hlive Hi Hs. split_and!; [exact Hlive|exact Hs|].
  by apply output_goes.
Qed.

End Events.

(** ** From the window to the coil *)

(** A request of the window: the call of the agent's client and its timeout. *)
Definition request_op (r : WorkerRequest) : AgentOp * Z :=
  match r with
  | PhysicalModbusProbe _ _ => (AgentProbe, 1000)
  | PhysicalModbusReadDi => (AgentReadInputs, 1000)
  | PhysicalModbusWriteDo channel active => (AgentWriteOutput (u8 channel) active, 1000)
  | PhysicalModbusAllOff => (AgentAllOff, 2000)
  end.

(** The slot of the worker a request is connected to. *)
Definition worker_run (r : WorkerRequest) (connect : ConnectEnv) (env : ExchangeEnv) (w : ModbusAgentWorker) (k : Kernel)
    : option Transaction * ModbusAgentWorker * Kernel :=
  match r with
  | PhysicalModbusProbe host port => worker_probe host port connect env w k
  | PhysicalModbusReadDi => (worker_read_di env w, k)
  | PhysicalModbusWriteDo channel active => (worker_write_do channel active env w, k)
  | PhysicalModbusAllOff => (worker_all_off env w, k)
  end.

(** The connection a request goes over: a probe makes one unless it has one to that peer. *)
Definition worker_connected (r : WorkerRequest) (connect : ConnectEnv) (w : ModbusAgentWorker) (k : Kernel)
    : option (ModbusAgentWorker * Kernel) :=
  match r with
  | PhysicalModbusProbe host port =>
      if fd_valid (ag_fd (mw_client w)) && String.eqb host (mw_last_host w) && (port =? mw_last_port w) then Some (w, k)
      else match agent_connect connect (mw_client w) k with
           | (Ok _, c, k) => Some (mkModbusWorker c host port, k)
           | (Err _, _, _) => None
           end
  | _ => Some (w, k)
  end.

Lemma worker_run_call r connect env w k w1 k1 :
  worker_connected r connect w k = Some (w1, k1) → fd_valid (ag_fd (mw_client w1)) = true →
  ∃ peer visible, worker_run r connect env w k =
    (worker_call (agent_call (fst (request_op r)) (snd (request_op r)) env) peer visible w1, k1).
Proof.
  intros Hc Hfd. destruct r as [host port| |channel active|]; cbn in *.
  2-4: injection Hc as <- <-; unfold worker_read_di, worker_write_do, worker_all_off, worker_request; rewrite Hfd; cbn; by eexists _, _.
  eexists _, _. unfold worker_probe. rewrite <- !negb_andb. destruct (_ && _); cbn [negb].
  - by injection Hc as <- <-.
  - destruct (agent_connect connect (mw_client w) k) as [[[[]|e] c] k']; [|done]. by injection Hc as <- <-.
Qed.

Lemma transaction_adopted t c : wc_backend c = Backend.Physical →
  let c' := apply_physical_transaction (tf_snapshot t) (tf_reply t) (tf_user_visible t) c in
  wc_physical c' = tf_snapshot t <| mi_agent_peer := wc_agent_peer c |> ∧ wc_blocked c' = negb (online (tf_snapshot t)).
Proof.
  intros Hb. cbv zeta. unfold apply_physical_transaction.
  change (wc_backend (c <| wc_request_running := false |>)) with (wc_backend c). rewrite Hb, bool_decide_eq_true_2 by done. cbn [negb].
  assert (Ha : let c1 := adopt_snapshot (tf_snapshot t) (c <| wc_request_running := false |>) in
    wc_physical c1 = tf_snapshot t <| mi_agent_peer := wc_agent_peer c |> ∧ wc_blocked c1 = negb (online (tf_snapshot t)))
    by (cbv zeta; unfold adopt_snapshot, online; cbn; by destruct (_ ==? _)).
  cbv zeta in Ha. generalize dependent (adopt_snapshot (tf_snapshot t) (c <| wc_request_running := false |>)).
  intros c1 Ha. by destruct (tf_user_visible t).
Qed.

Section Coil.
Context {W : Type} (link : RtuLink W) (config : PhysicalModbusIoConfig).
Context (coil : W → nat → bool) `{!ModbusDevice link config coil}.

(** C16.  What the window shows about the terminal is what its coils drive.  Any request of
    the window -- a probe, which connects to its peer first, a read, a write or all off --
    that reaches the agent over the worker's connection is performed there exactly once; when
    the acknowledgement arrives, in any pieces, the completion makes the service's own
    snapshot the shown one, commands are blocked unless the service found the terminal
    online, and every output shown as confirmed has the value of its coil. *)
Theorem workbench_shows_coil r connect worker k worker1 k1 served env turn rest s w :
  let op := fst (request_op r) in
  let timeout := snd (request_op r) in
  op_wf op → worker_connected r connect worker k = Some (worker1, k1) →
  fd_valid (ag_fd (mw_client worker1)) = true → is_u 16 (ag_next_sequence (mw_client worker1)) →
  ack_wf s → outputs_true coil s w →
  let sequence := ag_next_sequence (mw_client worker1) in
  let s' := fst (physical_step link config (op_service op) (s, w)) in
  let w' := snd (physical_step link config (op_service op) (s, w)) in
  ack_fits s' →
  send_all (length (agent_wire (ModbusAgent.request_frame op sequence))) 0 (xe_sends env) = Some (Ok ()) →
  arrives (st_now turn + (if served : bool then 5000 else 1000) * 1000000)
    (agent_wire (ModbusAgent.request_frame op sequence)) (st_turns turn) →
  send_all (length (agent_wire (ack_frame op sequence s'))) 0 (st_sends turn) = Some (Ok ()) →
  arrives (xe_now env + timeout * 1000000) (agent_wire (ack_frame op sequence s')) (xe_turns env) →
  serve_session link config served (turn :: rest) (s, w) = serve_session link config true rest (s', w') ∧
  ∃ t worker', worker_run r connect env worker k = (Some t, worker', k1) ∧
    ∀ c, wc_backend c = Backend.Physical →
    let c' := apply_physical_transaction (tf_snapshot t) (tf_reply t) (tf_user_visible t) c in
    wc_physical c' = agent_view s' <| mi_agent_peer := wc_agent_peer c |> ∧
    wc_blocked c' = negb (online (agent_view s')) ∧ outputs_true coil (wc_physical c') w'.
Proof.
  intros op timeout Hop Hcon Hfd Hseq Hw Ht sequence s' w' Hfit Hsend Harr Hsend' Harr'.
  assert (Hw' : ack_wf s') by by apply physical_step_ack_wf.
  assert (Ht' : outputs_true coil (agent_view s') w') by by apply outputs_true_view, (physical_step_true link config coil).
  split; [subst s' w'; rewrite <- surjective_pairing; by apply (serve_request link config op sequence)|].
  destruct (worker_run_call r connect env worker k worker1 k1 Hcon Hfd) as (peer & visible & ->). unfold worker_call.
  fold op timeout. rewrite (exchange_receives op (mw_client worker1) timeout env s' sequence) by done.
  do 2 eexists. split; [done|]. intros c Hb. cbv zeta.
  destruct (transaction_adopted (emit_result (Ok (agent_view s')) peer visible) c Hb) as [-> ->]. by split_and!.
Qed.

End Coil.

(** ** Witnesses *)

Module DemoText.
Fixpoint last_colon (i best : Z) (s : string) : Z :=
  match s with
  | EmptyString => best
  | String a s => last_colon (i + 1) (if (Ascii.nat_of_ascii a =? 58)%nat then i else best) s
  end.
Fixpoint digits (acc : Z) (s : string) : option Z :=
  match s with
  | EmptyString => Some acc
  | String a s =>
      let d := Z.of_nat (Ascii.nat_of_ascii a) - 48 in
      if (0 <=? d) && (d <=? 9) then digits (acc * 10 + d) s else None
  end.
Definition text : QtText := {|
  q_trimmed := id;
  q_last_index_of_colon := last_colon 0 (-1);
  q_mid := λ s i, String.substring (Z.to_nat i) (String.length s) s;
  q_left := λ s i, String.substring 0 (Z.to_nat i) s;
  q_to_int := λ s, if String.eqb s "" then None else digits 0 s;
  q_is_empty := λ s, String.eqb s ""
|}.
End DemoText.
#[local] Existing Instance DemoText.text.

Definition demo_blank : RuntimeTelemetrySnapshot :=
  mkTelemetry 0
    (mkRuntimeStateView false false false false RuntimeModeCode.Unknown RuntimeFaultCode.None RuntimeExitStatus.Ok)
    (mkTimingSnapshot 0 0 0 0 0 0 false 0 false 0 0)
    (mkCommunicationView "" "" EvidenceClass.Unspecified 0 0 0 0 0 0 0 0 0 false StopReasonCode.None 0)
    (mkDeviceView "" 0 false false false false false 0 0 0 0 0 0 (-1) 0 0 0)
    (mkOutputFeedbackView false 0 0 0 0 0 OutputApplyResult.Unknown 0 0 0)
    false false false false false 0 [].

Definition demo_controller : WorkbenchController := controller_new true false 0 demo_blank demo_status.

Lemma jog_lease_in_step_witness :
  let c := wb_run demo_blank [EvDriveEnable; EvHome; EvTickActuator (to_ns 500); EvJogPressed 1 d_one; EvRenewJog] demo_controller in
  wc_jog_token c = as_active_jog_token (ma_snapshot (wc_actuator c)) ∧ wc_jog_token c = 3 ∧ wc_renew_timer c = true.
Proof.
  destruct (jog_lease_in_step demo_blank true false 0 demo_status
    [EvDriveEnable; EvHome; EvTickActuator (to_ns 500); EvJogPressed 1 d_one; EvRenewJog]) as [Ht Hr]; [cbn; lia|].
  split_and!; [exact Ht|vm_compute; reflexivity|]. apply Hr. split; vm_compute; reflexivity.
Defined.

Lemma one_request_in_flight_witness :
  wc_request_running (wb_run demo_blank [EvSelectPhysical; EvScan 0; EvOutput 1 true 0] demo_controller) = true.
Proof.
  assert (H : 1%nat = if wc_request_running (wb_run demo_blank [EvSelectPhysical; EvScan 0; EvOutput 1 true 0] demo_controller)
    then 1%nat else 0%nat).
  { apply (one_request_in_flight demo_blank true false 0 demo_status). unfold wb_run. cbn [foldl].
    eapply rtc_l; [apply (loop_event demo_blank EvSelectPhysical); done|].
    eapply rtc_l; [apply (loop_event demo_blank (EvScan 0)); done|].
    eapply rtc_l; [apply (loop_event demo_blank (EvOutput 1 true 0)); done|]. apply rtc_refl. }
  by destruct (wc_request_running _).
Defined.

Definition demo_online : Transaction :=
  mkFinished (make_unprobed_physical "a:1" <| mi_device_state := ModbusDeviceState.Online |>)
    (mkIoReply IoStatus.Confirmed 255 false false "") true.

Lemma late_completion_undoes_disconnect_witness :
  let c := wb_run demo_blank [EvSelectPhysical; EvScan 0; EvTransaction demo_online; EvOutput 1 true 0] demo_controller in
  wc_request_running c = true ∧
  physical_outputs_live (wb_step demo_blank (EvTransaction demo_online) (wb_step demo_blank EvDisconnectPhysical c)) = true.
Proof.
  split; [vm_compute; reflexivity|].
  apply (late_completion_undoes_disconnect demo_blank
    (wb_run demo_blank [EvSelectPhysical; EvScan 0; EvTransaction demo_online; EvOutput 1 true 0] demo_controller)
    demo_online 2 true 0); vm_compute; reflexivity.
Defined.

Definition demo_worker : ModbusAgentWorker := mkModbusWorker demo_client "a" 1.

Definition demo_connect : ConnectEnv := mkConnectEnv true (Some 4) true ConnectDone PollReady true.

(** A write on the open connection; and the connection of a probe to another peer. *)
Lemma workbench_shows_coil_witness :
  (∃ w1 k1, worker_connected (PhysicalModbusProbe "b" 2) demo_connect demo_worker (mkKernel {[3]} false) = Some (w1, k1) ∧
     fd_valid (ag_fd (mw_client w1)) = true) ∧
  ∃ t worker', worker_run (PhysicalModbusWriteDo 1 true) demo_connect ModbusAgent.demo_env demo_worker (mkKernel {[3]} false)
      = (Some t, worker', mkKernel {[3]} false) ∧
    let c' := apply_physical_transaction (tf_snapshot t) (tf_reply t) (tf_user_visible t)
      (wb_run demo_blank [EvSelectPhysical] demo_controller) in
    do_confirmed (output_at 1 (wc_physical c')) = SimTerminal.coil (snd demo_service) 1.
Proof.
  split; [eexists _, _; split; reflexivity|].
  destruct (workbench_shows_coil SimTerminal.link default_physical_config SimTerminal.coil (PhysicalModbusWriteDo 1 true)
    demo_connect demo_worker (mkKernel {[3]} false) demo_worker (mkKernel {[3]} false)
    false ModbusAgent.demo_env demo_session [] (physical_new default_physical_config) sim_start)
    as (_ & t & worker' & Hrun & Hc).
  - done.
  - reflexivity.
  - reflexivity.
  - done.
  - apply physical_new_ack_wf; done.
  - apply physical_new_true.
  - vm_compute. lia.
  - vm_compute. reflexivity.
  - apply one_turn_arrives; vm_compute; done.
  - vm_compute. reflexivity.
  - apply one_turn_arrives; vm_compute; done.
  - exists t, worker'. split; [exact Hrun|]. cbv zeta. destruct (Hc (wb_run demo_blank [EvSelectPhysical] demo_controller)) as (Hp & _ & Ht).
    + reflexivity.
    + apply Ht; [unfold kModbusIoChannelCount; lia|]. rewrite Hp. vm_compute. reflexivity.
Defined.
