(* ===== verification/WorkbenchHealth.v ===== *)
(** * The workbench's health worker

    [HealthTestWorker] of
    linux/tools/qt_device_workbench/controller/workbench_controller.cpp: one run of the CAN
    health test, from the local runtime or over a second connection to a cell peer, and the
    storage of its result. *)

From stdpp Require Import pretty.
From S2P Require Import Prelude Types Application CellProtocol Doubles TestRunner CanHealth Json ResultWriter.
Local Open Scope Z_scope.

#[export] Instance CanHealthCriteria_eta : Eta CanHealthCriteria :=
  mkEta _ (fun c => mkCriteria (hc_expected_evidence c) (hc_observation_window c) (hc_sample_interval c) (hc_test_timeout c)
    (hc_min_heartbeat_delta c) (hc_max_heartbeat_age c) (hc_max_decode_reject_delta c) (hc_max_queue_reject_delta c)
    (hc_max_input_queue_drop_delta c)).

Record HealthTestWorker := mkHealthWorker {
  hw_provenance : TestRunProvenance;
  hw_result_directory : string;
  hw_runner : TestRunner
}.

(** The worker's [completed] signal. *)
Record Completed := mkCompleted {
  cm_result : TestResult;
  cm_json_path : string;
  cm_csv_path : string;
  cm_persistence_error : string
}.

(** Where the snapshots come from: the adapter, or a client of the cell peer that is connected
    here; both are operations on the world. *)
Inductive HealthSource (W : Type) :=
  | FromAdapter (evidence : EvidenceClass) (snapshot : W → RuntimeTelemetrySnapshot * W) (wait : Z → W → Result () * W)
  | FromCellPeer (connect : W → Result () * W) (get_status : W → Result CellAppStatus * W) (sleep : Z → W → W).
Arguments FromAdapter {W}.
Arguments FromCellPeer {W}.

Section Worker.
Context {W : Type} (env : RunEnv W) (blank : RuntimeTelemetrySnapshot).

(** The criteria with the evidence to expect, or the failed connection. *)
Definition health_criteria_for (src : HealthSource W) (w : W) : Result CanHealthCriteria * W :=
  match src with
  | FromAdapter evidence _ _ => (Ok (default_criteria <| hc_expected_evidence := evidence |>), w)
  | FromCellPeer connect get_status _ =>
      match connect w with
      | (Err e, w) => (Err e, w)
      | (Ok _, w) =>
          let '(first, w) := get_status w in
          let evidence :=
            match first with
            | Ok s => if negb (cs_evidence s ==? EvidenceClass.Unspecified) then cs_evidence s else EvidenceClass.Physical
            | Err _ => EvidenceClass.Physical
            end in
          (Ok (default_criteria <| hc_expected_evidence := evidence |>), w)
      end
  end.

Definition provider_of (src : HealthSource W) (w : W) : RuntimeTelemetrySnapshot * W :=
  match src with
  | FromAdapter _ snapshot _ => snapshot w
  | FromCellPeer _ get_status _ =>
      let '(status, w) := get_status w in
      (match status with Ok s => cell_status_to_snapshot s | Err _ => blank end, w)
  end.

Definition wait_of (src : HealthSource W) (duration : Z) (w : W) : Result () * W :=
  match src with
  | FromAdapter _ _ wait => wait duration w
  | FromCellPeer _ _ sleep => (Ok (), sleep duration w)
  end.

(** The result of a run that could not connect. *)
Definition not_connected_result (run_id : string) (e : Error) (p : TestRunProvenance) : TestResult :=
  default_result <| tr_run_id := run_id |> <| tr_case_id := "can.communication_health" |>
    <| tr_case_name := "CAN Communication Health" |> <| tr_outcome := Outcome.Error |> <| tr_reason := err_message e |>
    <| tr_provenance := p |>.

(** [None]: the test has not returned. *)
Definition run_health (src : HealthSource W) (run_id : string) (k : WriterAnswers) (n : HealthTestWorker) (d : Disk) (w : W)
    : option (Completed * HealthTestWorker * Disk * W) :=
  match health_criteria_for src w with
  | (Err e, w) => Some (mkCompleted (not_connected_result run_id e (hw_provenance n)) "" "" "", n, d, w)
  | (Ok criteria, w) =>
      match health_run env (provider_of src) (wait_of src) criteria run_id blank (hw_runner n) w with
      | None => None
      | Some (result, runner, (_, w)) =>
          let result := result <| tr_provenance := hw_provenance n |> in
          let n := mkHealthWorker (hw_provenance n) (hw_result_directory n) runner in
          match result_write result (hw_result_directory n) k d with
          | (Ok a, d) => Some (mkCompleted result (ra_json_path a) (ra_csv_path a) "", n, d, w)
          | (Err e, d) => Some (mkCompleted result "" "" (err_message e), n, d, w)
          end
      end
  end.

(** ** The result of a run is stored *)

(** The run id [startHealth] makes. *)
Definition health_run_id (suffix : Z) : string := "qt-can-health-" +:+ pretty suffix.

Lemma pretty_N_go_safe x : ∀ s, all_chars is_safe_char s = true → all_chars is_safe_char (pretty_N_go x s) = true.
Proof.
  induction (N.lt_wf_0 x) as [x _ IH]. intros s Hs. destruct (decide (0 < x)%N) as [Hx|Hx].
  - rewrite pretty_N_go_step by done. apply IH; [by apply N.div_lt|]. cbn. rewrite Hs, andb_true_r.
    unfold pretty_N_char. by repeat case_match.
  - replace x with 0%N by lia. by rewrite pretty_N_go_0.
Qed.

Lemma pretty_safe (x : Z) : all_chars is_safe_char (pretty x) = true.
Proof.
  assert (HN : ∀ n : N, all_chars is_safe_char (pretty n) = true).
  { intros n. unfold pretty, pretty_N. case_decide; [done|]. by apply pretty_N_go_safe. }
  destruct x as [|p|p]; [done|exact (HN (Npos p))|]. change (pretty (Zneg p)) with ("-" +:+ pretty (Npos p)).
  by rewrite all_chars_app, HN.
Qed.

Lemma health_run_id_safe suffix : is_safe_run_id (health_run_id suffix) = true.
Proof.
  unfold is_safe_run_id, health_run_id. rewrite all_chars_app, pretty_safe. rewrite !str_app_cons. cbn [empty_text orb].
  rewrite !bool_decide_eq_false_2 by discriminate. done.
Qed.

(** The criteria are the default ones but for the evidence. *)
Lemma health_criteria_windows src w criteria w1 :
  health_criteria_for src w = (Ok criteria, w1) →
  0 < hc_sample_interval criteria ∧ 0 < hc_observation_window criteria.
Proof.
  unfold health_criteria_for. destruct src as [ev snap wt|connect get_status sleep]; [by intros [= <- _]|].
  destruct (connect w) as [[|] w2]; [|done]. destruct (get_status w2). by intros [= <- _].
Qed.

(** C19.  Every health test the workbench starts ends and leaves its evidence.  When the worker
    has its source, the clock does not go back and waits last as long as asked, then whatever
    the snapshots and cancellations are the test returns, and a system that refuses nothing
    stores both files under the run id the window made (which is always a legal file stem);
    the window is told their paths and no error, and an independent reader finds in the JSON
    file exactly the result that was reported, with the worker's provenance. *)
Theorem health_result_is_stored src time suffix k n f0 w criteria w1 :
  LawfulTime env (provider_of src) (wait_of src) time →
  health_criteria_for src w = (Ok criteria, w1) → hw_result_directory n ≠ "" →
  wa_create_error k = None → file_answers_fine (wa_json k) → file_answers_fine (wa_csv k) →
  let run_id := health_run_id suffix in
  let json := path_join (hw_result_directory n) (run_id +:+ ".json") in
  let csv := path_join (hw_result_directory n) (run_id +:+ ".csv") in
  f0 !! json = None → f0 !! csv = None →
  ∃ done_ n' d' w', run_health src run_id k n (mkDisk f0 []) w = Some (done_, n', d', w') ∧
  cm_json_path done_ = json ∧ cm_csv_path done_ = csv ∧ cm_persistence_error done_ = "" ∧
  tr_run_id (cm_result done_) = run_id ∧ tr_provenance (cm_result done_) = hw_provenance n ∧
  (dk_files d' !! json ≫= parse_json) = Some (result_json (cm_result done_)) ∧
  dk_files d' !! csv = Some (serialize_result_csv (cm_result done_)).
Proof.
  intros Htime Hsrc Hdir Hk Hkj Hkc run_id json csv Hj Hcs. unfold run_health. rewrite Hsrc.
  destruct (health_criteria_windows _ _ _ _ Hsrc) as [Hiv Hwin].
  destruct (health_run_returns env (provider_of src) (wait_of src) criteria time run_id blank (hw_runner n) w1 Hiv Hwin)
    as (o & w2 & ->).
  set (env' := observed_env env). set (c := health_case _ _ _ _). set (w0 := (initial_observation blank, w1)).
  pose proof (runner_persistable env' run_id c (hw_runner n) w0 (health_run_id_safe suffix) ltac:(done) ltac:(done)) as Hv.
  pose proof (run_test_ident env' run_id c (hw_runner n) w0) as Hi.
  destruct (run_test env' run_id c (hw_runner n) w0) as [[r runner] ow]. cbn [fst] in Hv, Hi |- *.
  set (r' := r <| tr_provenance := hw_provenance n |>). assert (Hid : tr_run_id r' = run_id) by (injection Hi as Hi _ _; done).
  destruct (persistable_stored r' (hw_result_directory n) k f0) as (d' & Hw & H1 & H2); try done.
  1, 2: unfold json_path, csv_path; by rewrite Hid.
  cbn [hw_result_directory hw_provenance]. fold r'. rewrite Hw. unfold json_path, csv_path in *. rewrite Hid in *.
  do 4 eexists. split; [reflexivity|]. by split_and!.
Qed.

End Worker.

(** ** Witness *)

Definition demo_health_worker : HealthTestWorker := mkHealthWorker (mkProvenance "abc" false "1.0") "out" runner_new.
Definition demo_source : HealthSource Z := FromAdapter EvidenceClass.Vcan demo_provider demo_wait.

Lemma health_result_is_stored_witness :
  ∃ x n' d' w', run_health demo_env (demo_snapshot 0) demo_source (health_run_id 42) demo_answers demo_health_worker (mkDisk ∅ []) 0
    = Some (x, n', d', w') ∧ cm_json_path x = "out/qt-can-health-42.json" ∧ tr_outcome (cm_result x) = Outcome.Passed ∧
    (dk_files d' !! "out/qt-can-health-42.json" ≫= parse_json) = Some (result_json (cm_result x)).
Proof.
  assert (Ht := health_result_is_stored demo_env (demo_snapshot 0) demo_source id 42 demo_answers demo_health_worker ∅ 0
    (default_criteria <| hc_expected_evidence := EvidenceClass.Vcan |>) 0 demo_lawful ltac:(done) ltac:(done) ltac:(done)
    ltac:(by split_and!) ltac:(by split_and!) ltac:(done) ltac:(done)).
  destruct Ht as (x & n' & d' & w' & Hrun & Hj & _ & _ & _ & _ & Hd & _).
  assert (Hp : (λ r, tr_outcome (cm_result (fst (fst (fst r))))) <$> run_health demo_env (demo_snapshot 0) demo_source
    (health_run_id 42) demo_answers demo_health_worker (mkDisk ∅ []) 0 = Some Outcome.Passed) by (vm_compute; reflexivity).
  rewrite Hrun in Hp. injection Hp as Hp. exists x, n', d', w'. split_and!; [exact Hrun|exact Hj|exact Hp|exact Hd].
Defined.
