(* ===== verification/Window.v ===== *)
(** * The workbench window

    linux/tools/qt_device_workbench/ui/main_window.cpp: what the window shows of the
    controller's signals, which controls it offers, and which of the controller's slots its
    controls are connected to.  A widget is named by its member of [MainWindow]; layout,
    colours and tool tips are left out.  Qt formats floating-point numbers ([QtFormat]). *)

From stdpp Require Import gmap pretty.
From S2P Require Import Prelude Types Application ModbusIo RemoteFrame RemoteControl ModbusAgent Doubles MockActuator TestRunner Workbench.
Local Open Scope Z_scope.

(** ** Widgets *)

(** Texts of labels and fields, greyed-out controls, check marks and table rows. *)
Record Window := mkWindow {
  win_text : gmap string string;
  win_enabled : gmap string bool;
  win_checked : gmap string bool;
  win_rows : gmap string (list (list string))
}.

#[export] Instance Window_eta : Eta Window :=
  mkEta _ (fun w => mkWindow (win_text w) (win_enabled w) (win_checked w) (win_rows w)).

(** A widget that was never touched is enabled and not checked. *)
Definition is_enabled (w : Window) (name : string) : bool := default true (win_enabled w !! name).
Definition is_checked (w : Window) (name : string) : bool := default false (win_checked w !! name).

(** An element of an array of widgets. *)
Definition at_channel (name : string) (channel : nat) : string := name +:+ "[" +:+ pretty channel +:+ "]".

(** ** Calls into the controller *)

Inductive UiCall :=
  | ActivateRuntime | CommandServoHome | CommandServoTarget
  | SelectLocalBackend | SelectRemoteLoopbackBackend | ConnectRemoteLoopback | DisconnectRemoteLoopback
  | StartHealth | CancelHealth
  | DriveEnable | DriveDisable | HomeActuator | StartActuatorVelocity (velocity : double)
  | NormalStopActuator | QuickStopActuator | ResetActuatorFault
  | JogPressed (direction : Z) (velocity : double) | JogReleased
  | SetMockDigitalInput (channel : nat) (active : bool)
  | RequestDigitalOutput (channel : nat) (active : bool)
  | RequestAllOutputsOff
  | SelectMockModbusBackend | SelectPhysicalModbusBackend
  | SetModbusAgentPeer (peer : string) | RequestModbusScan | DisconnectPhysicalModbus.

(** The connections of [clicked]; the velocity comes from the spin box. *)
Definition on_clicked (name : string) (velocity : double) : list UiCall :=
  if (name =? "activate_runtime_")%string then [ActivateRuntime]
  else if (name =? "command_home_")%string then [CommandServoHome]
  else if (name =? "command_target_")%string then [CommandServoTarget]
  else if (name =? "remote_select_local_")%string then [SelectLocalBackend]
  else if (name =? "remote_select_loopback_")%string then [SelectRemoteLoopbackBackend]
  else if (name =? "remote_connect_")%string then [ConnectRemoteLoopback]
  else if (name =? "remote_disconnect_")%string then [DisconnectRemoteLoopback]
  else if (name =? "run_health_")%string then [StartHealth]
  else if (name =? "cancel_health_")%string then [CancelHealth]
  else if (name =? "drive_enable_")%string then [DriveEnable]
  else if (name =? "drive_disable_")%string then [DriveDisable]
  else if (name =? "home_actuator_")%string then [HomeActuator]
  else if (name =? "start_actuator_")%string then [StartActuatorVelocity velocity]
  else if (name =? "normal_stop_actuator_")%string then [NormalStopActuator]
  else if (name =? "quick_stop_actuator_")%string then [QuickStopActuator]
  else if (name =? "reset_actuator_fault_")%string then [ResetActuatorFault]
  else if (name =? "modbus_all_off_")%string then [RequestAllOutputsOff]
  else if (name =? "modbus_select_mock_")%string then [SelectMockModbusBackend]
  else if (name =? "modbus_select_physical_")%string then [SelectPhysicalModbusBackend]
  else if (name =? "modbus_scan_")%string then [RequestModbusScan]
  else if (name =? "modbus_disconnect_")%string then [DisconnectPhysicalModbus]
  else [].

(** The jog buttons: held down, and let go. *)
Definition on_pressed (name : string) (velocity : double) : list UiCall :=
  if (name =? "jog_negative_")%string then [JogPressed (-1) velocity]
  else if (name =? "jog_positive_")%string then [JogPressed 1 velocity]
  else [].

Definition on_released (name : string) : list UiCall :=
  if (name =? "jog_negative_")%string || (name =? "jog_positive_")%string then [JogReleased] else [].

Definition channels : list nat := seq 0 kModbusIoChannelCount.

(** The connections of [stateChanged]: every input injection, and the outputs but DO0. *)
Definition on_state_changed (name : string) (checked : bool) : list UiCall :=
  concat (map (λ ch, if (name =? at_channel "modbus_di_injections_" ch)%string
                     then [SetMockDigitalInput ch checked] else []) channels) ++
  concat (map (λ ch, if (name =? at_channel "modbus_do_requests_" ch)%string && negb (ch =? 0)%nat
                     then [RequestDigitalOutput ch checked] else []) channels).

(** ** Refreshing *)

(** One setter of a widget. *)
Inductive Setter :=
  | SetText (name text : string)
  | SetEnabled (name : string) (enabled : bool)
  | SetChecked (blocked : bool) (name : string) (checked : bool)   (* under a [QSignalBlocker] or not *)
  | SetRows (name : string) (rows : list (list string)).

(** [setChecked] signals a change of the mark, unless the widget's signals are blocked; the
    other setters signal nothing the window is connected to. *)
Definition apply_setter (w : Window) (s : Setter) : Window * list UiCall :=
  match s with
  | SetText name text => (w <| win_text ::= <[name := text]> |>, [])
  | SetEnabled name enabled => (w <| win_enabled ::= <[name := enabled]> |>, [])
  | SetChecked blocked name checked =>
      (w <| win_checked ::= <[name := checked]> |>,
       if blocked || Bool.eqb checked (is_checked w name) then [] else on_state_changed name checked)
  | SetRows name rows => (w <| win_rows ::= <[name := rows]> |>, [])
  end.

Fixpoint refresh (l : list Setter) (w : Window) : Window * list UiCall :=
  match l with
  | [] => (w, [])
  | s :: l =>
      let '(w, calls) := apply_setter w s in
      let '(w, rest) := refresh l w in (w, calls ++ rest)
  end.

(** [QString::arg] of a double with format ['f'] and three decimals. *)
Class QtFormat := { fixed3 : double → string }.

Definition newline : string := String (Ascii.ascii_of_nat 10) "".
Definition on_off (b : bool) : string := if b then "ON" else "OFF".
Definition yes_no (b : bool) : string := if b then "YES" else "NO".
Definition true_false (b : bool) : string := if b then "TRUE" else "FALSE".
Definition online_text (b : bool) : string := if b then "ONLINE" else "OFFLINE".
Definition reached_text (b : bool) : string := if b then "REACHED" else "NOT REACHED".

(** [heartbeat_age_ns] in whole milliseconds. *)
Definition age_text (age_ns : Z) : string :=
  if age_ns <? 0 then "N/A" else pretty (Z.quot age_ns 1000000) +:+ " ms".

Definition update_snapshot (cell_peer : bool) (t : RuntimeTelemetrySnapshot) : list Setter :=
  let r := ts_runtime t in
  let c := ts_communication t in
  let d := ts_device t in
  let o := ts_output t in
  [SetText "runtime_state_" (mode_code_to_string (rv_mode r));
   SetText "backend_" (cv_backend c +:+ " / " +:+ evidence_to_string (cv_evidence c));
   SetText "runtime_fault_" (fault_code_to_string (rv_fault r));
   SetText "interlock_" (if rv_interlock_ready r then "READY" else "NOT READY");
   SetText "interface_" (cv_interface_name c);
   SetText "scheduler_" (if rv_scheduler_running r then "RUNNING" else "STOPPED");
   SetText "device_" (online_text (dv_online d));
   SetText "node_sensor_" (reached_text (ts_position_reached t));
   SetText "heartbeat_" (age_text (dv_heartbeat_age_ns d));
   SetText "can_traffic_" ("RX " +:+ pretty (cv_frames_received c) +:+ " / TX " +:+ pretty (cv_frames_sent c));
   SetText "can_rejects_" ("decode " +:+ pretty (cv_decode_rejects c) +:+ " / queue " +:+ pretty (cv_queue_rejects c)
                           +:+ " / drop " +:+ pretty (cv_input_queue_drop_count c));
   SetText "device_session_" ("boot " +:+ pretty (dv_boot_id d) +:+ " / session " +:+ pretty (dv_session_id d));
   SetText "output_ack_"
     (if ov_ack_pending o then
        "PENDING session " +:+ pretty (ov_last_sent_session o) +:+ " / seq " +:+ pretty (ov_last_sent_sequence o)
      else
        apply_result_to_string (ov_last_ack_result o) +:+ " session " +:+ pretty (ov_last_ack_session o) +:+ " / seq " +:+
        pretty (ov_last_ack_sequence o));
   SetText "overview_runtime_" (mode_code_to_string (rv_mode r));
   SetText "overview_fault_" (fault_code_to_string (rv_fault r));
   SetText "overview_node_" (online_text (dv_online d));
   SetText "overview_position_reached_" (reached_text (ts_position_reached t));
   SetText "overview_cell_ready_" (true_false (ts_cell_ready t));
   SetText "overview_do0_requested_" (on_off (ts_cell_ready_do0_requested t));
   SetText "overview_do0_confirmed_" (on_off (ts_cell_ready_do0_confirmed t));
   SetText "overview_heartbeat_" (age_text (dv_heartbeat_age_ns d));
   SetText "overview_mr0_" (online_text (ts_cell_modbus_online t));
   SetText "cell_ready_value_" (true_false (ts_cell_ready t));
   SetText "cell_connection_value_" (online_text (ts_cell_modbus_online t))] ++
  (if cell_peer then
     [SetText (at_channel "modbus_do_requested_" 0) (on_off (ts_cell_ready_do0_requested t));
      SetText (at_channel "modbus_do_confirmed_" 0) (on_off (ts_cell_ready_do0_confirmed t));
      SetText (at_channel "modbus_do_status_" 0) (io_status_to_string (io_status_of_code (ts_cell_ready_do0_status t)))]
   else []).

Definition show_health_started : list Setter :=
  [SetEnabled "run_health_" false; SetEnabled "cancel_health_" true; SetText "test_outcome_" "RUNNING";
   SetRows "criteria_" []; SetRows "diagnostics_" []; SetText "result_paths_" "Result pending"].

Definition criterion_row (c : CriterionResult) : list string :=
  [ct_name c; yes_no (ct_passed c); ct_expected c; ct_actual c].
Definition diagnostic_row (e : DiagnosticEvent) : list string :=
  [diagnostic_source_to_string (de_source e); diagnostic_severity_to_string (de_severity e); de_code e; de_message e;
   de_device_id e].

Definition show_health_result (r : TestResult) (json_path csv_path persistence_error : string) : list Setter :=
  [SetEnabled "run_health_" true; SetEnabled "cancel_health_" false;
   SetText "test_outcome_" (outcome_to_string (tr_outcome r) +:+ ": " +:+ tr_reason r);
   SetRows "criteria_" (map criterion_row (tr_criteria r));
   SetRows "diagnostics_" (map diagnostic_row (rl_diagnostics (tr_log r)));
   SetText "result_paths_"
     (if negb (persistence_error =? "")%string then "Persistence ERROR: " +:+ persistence_error
      else "JSON: " +:+ json_path +:+ newline +:+ "CSV: " +:+ csv_path)].

Definition actuator_buttons (state : ActuatorState) : list Setter :=
  let disabled := state ==? AState.Disabled in
  let ready := state ==? AState.Ready in
  let idle := state ==? AState.Idle in
  let moving := (state ==? AState.Running) || (state ==? AState.Homing) || (state ==? AState.Stopping) in
  let faulted := state ==? AState.Fault in
  [SetEnabled "drive_enable_" disabled; SetEnabled "drive_disable_" (negb disabled && negb faulted);
   SetEnabled "home_actuator_" (idle || ready); SetEnabled "start_actuator_" ready;
   SetEnabled "actuator_velocity_input_" ready; SetEnabled "jog_negative_" ready; SetEnabled "jog_positive_" ready;
   SetEnabled "jog_velocity_input_" ready; SetEnabled "normal_stop_actuator_" moving;
   SetEnabled "quick_stop_actuator_" moving; SetEnabled "reset_actuator_fault_" faulted].

Definition update_actuator `{QtFormat} (s : ActuatorSnapshot) : list Setter :=
  [SetText "actuator_state_" (actuator_state_to_string (as_state s));
   SetText "actuator_mode_" (motion_mode_to_string (as_motion_mode s));
   SetText "actuator_enabled_" (yes_no (as_drive_enabled s));
   SetText "actuator_homed_" (yes_no (as_homed s));
   SetText "actuator_position_" (fixed3 (as_target_position_rad s) +:+ " / " +:+ fixed3 (as_actual_position_rad s) +:+ " / "
                                 +:+ fixed3 (as_position_error_rad s) +:+ " rad");
   SetText "actuator_velocity_" (fixed3 (as_target_velocity_rad_s s) +:+ " / " +:+ fixed3 (as_actual_velocity_rad_s s)
                                 +:+ " / " +:+ fixed3 (as_velocity_error_rad_s s) +:+ " rad/s");
   SetText "actuator_limits_" ("[" +:+ fixed3 (as_min_position_rad s) +:+ ", " +:+ fixed3 (as_max_position_rad s)
                               +:+ "] rad");
   SetText "actuator_fault_" (fault_reason_to_string (as_fault s) +:+
                              (if (as_last_reject s =? "")%string then "" else " / " +:+ as_last_reject s))] ++
  actuator_buttons (as_state s).

Definition show_actuator_reply (r : ActuatorCommandReply) : list Setter :=
  [SetText "actuator_reply_" (command_status_to_string (ar_status r) +:+ ": " +:+ ar_message r)].

Definition show_runtime_command (r : CommandReply) : list Setter :=
  [SetText "last_command_" (command_status_to_string (cr_status r) +:+ "  " +:+ mode_code_to_string (cr_from_state r)
     +:+ " → " +:+ mode_code_to_string (cr_to_state r) +:+ "  " +:+ cr_message r)].

Definition outputs_live (s : ModbusIoSnapshot) : bool :=
  negb (mi_evidence s ==? EvidenceClass.Physical) || (mi_device_state s ==? ModbusDeviceState.Online).

(** A part that is appended when it is not empty. *)
Definition appended (prefix part : string) : string := if (part =? "")%string then "" else newline +:+ prefix +:+ part.

Definition scan_text (s : ModbusIoSnapshot) : string :=
  scan_state_to_string (mi_scan_state s) +:+
  foldr (λ x acc, newline +:+ "Slave " +:+ pretty (ss_slave_id x) +:+ "  " +:+ device_state_to_string (ss_state x) +:+ acc)
    "" (mi_slaves s) +:+
  appended "" (mi_last_error s) +:+ appended "TX " (tr_tx_hex (mi_last_transaction s)) +:+
  appended "RX " (tr_rx_hex (mi_last_transaction s)).

(** The row of a channel.  DO0 belongs to the cell: its box is never offered, and with a cell
    peer its texts come from the telemetry. *)
Definition update_channel (cell_peer : bool) (s : ModbusIoSnapshot) (channel : nat) : list Setter :=
  let input := input_at channel s in
  let output := output_at channel s in
  [SetText (at_channel "modbus_di_values_" channel) (if di_active input then "● ON" else "○ OFF");
   SetEnabled (at_channel "modbus_di_injections_" channel) (negb (mi_evidence s ==? EvidenceClass.Physical));
   SetChecked true (at_channel "modbus_di_injections_" channel) (di_active input);
   SetEnabled (at_channel "modbus_do_requests_" channel) (negb (channel =? 0)%nat && outputs_live s);
   SetChecked true (at_channel "modbus_do_requests_" channel) (do_requested output)] ++
  (if negb (cell_peer && (channel =? 0)%nat) then
     [SetText (at_channel "modbus_do_requested_" channel) (on_off (do_requested output));
      SetText (at_channel "modbus_do_confirmed_" channel) (on_off (do_confirmed output));
      SetText (at_channel "modbus_do_status_" channel) (io_status_to_string (do_last_status output))]
   else []).

Definition modbus_banner (cell_peer physical : bool) : string :=
  if cell_peer then
    "Portfolio cell-peer: DO0 is edge-owned via CEL1. Probe/DO1–DO3 are optional commissioning."
  else if physical then "PHYSICAL MODBUS RTU — Qt on PC, RTU master on Orange Pi"
  else "MOCK / NO PHYSICAL RS485 — Modbus RTU hardware not in this backend".

(** The peer field takes over a real peer; setting the text it already shows is left out in
    the code. *)
Definition update_modbus (cell_peer : bool) (s : ModbusIoSnapshot) : list Setter :=
  let physical := mi_evidence s ==? EvidenceClass.Physical in
  [SetText "modbus_backend_" (mi_backend s); SetText "modbus_transport_" (mi_transport s)] ++
  (if negb (mi_agent_peer s =? "")%string && negb (mi_agent_peer s =? "n/a")%string
   then [SetText "modbus_agent_peer_" (mi_agent_peer s)] else []) ++
  [SetText "modbus_serial_port_" (mi_serial_port s);
   SetText "modbus_baud_" (if physical then pretty (mi_baud_rate s)
                           else pretty (mi_baud_rate_placeholder s) +:+ " (placeholder)");
   SetText "modbus_parity_" (if physical then mi_parity s else mi_parity_placeholder s);
   SetText "modbus_status_" ((if physical then "" else "MOCK ") +:+ device_state_to_string (mi_device_state s));
   SetText "modbus_scan_" (if physical then "Probe" else "Scan Slaves (MOCK)");
   SetText "modbus_sku_" (if physical then if (mi_sku s =? "")%string then "MR0-IOR08" else mi_sku s else "n/a");
   SetText "modbus_evidence_" (modbus_banner cell_peer physical);
   SetText "modbus_slave_" (pretty (mi_slave_id s));
   SetText "modbus_rtt_" (if 0 <? tr_rtt_ns (mi_last_transaction s)
                          then pretty (Z.quot (tr_rtt_ns (mi_last_transaction s)) 1000000) +:+ " ms" else "n/a");
   SetText "modbus_scan_summary_" (scan_text s);
   SetEnabled "modbus_scan_" (negb (mi_scan_state s ==? ModbusScanState.Scanning))] ++
  concat (map (update_channel cell_peer s) channels) ++
  [SetEnabled "modbus_all_off_" (outputs_live s)].

Definition show_modbus_reply (r : ModbusIoCommandReply) : list Setter :=
  [SetText "modbus_reply_" (io_status_to_string (ir_status r) +:+ ": " +:+ ir_message r)].

Definition backend_mode_to_string (m : RemoteBackendMode) : string :=
  match m with RemoteBackendMode.Local => "LOCAL" | RemoteBackendMode.RemoteLoopback => "REMOTE_LOOPBACK" end.

Definition update_remote_connection (s : RemoteConnectionSnapshot) : list Setter :=
  [SetText "remote_banner_" (rcs_evidence_banner s);
   SetText "remote_mode_" (backend_mode_to_string (rcs_mode s));
   SetText "remote_peer_" (rcs_peer s);
   SetText "remote_session_" (session_state_to_string (rcs_session_state s));
   SetText "remote_heartbeat_" ("ok " +:+ pretty (rcs_heartbeats_ok s) +:+ " / missed " +:+ pretty (rcs_heartbeats_missed s));
   SetText "remote_status_count_" (pretty (rcs_status_ok s));
   SetText "remote_status_mode_" (if rcs_connected s then mode_code_to_string (rsv_mode (rcs_last_status s)) else "n/a");
   SetText "remote_last_error_" (if (rcs_last_error s =? "")%string then "-" else rcs_last_error s);
   SetEnabled "remote_connect_" ((rcs_mode s ==? RemoteBackendMode.RemoteLoopback) && negb (rcs_connected s));
   SetEnabled "remote_disconnect_" (rcs_connected s)].

(** The connections of the constructor: what the window does with a signal. *)
Definition on_signal `{QtFormat} (cell_peer : bool) (s : Signal) : list Setter :=
  match s with
  | SnapshotReady t => update_snapshot cell_peer t
  | HealthStarted => show_health_started
  | HealthCompleted r json_path csv_path error => show_health_result r json_path csv_path error
  | ActuatorSnapshotReady s => update_actuator s
  | ActuatorCommandCompleted r => show_actuator_reply r
  | ModbusSnapshotReady s => update_modbus cell_peer s
  | ModbusCommandCompleted r => show_modbus_reply r
  | RemoteConnectionReady s => update_remote_connection s
  | RuntimeCommandCompleted r => show_runtime_command r
  | _ => []
  end.

(** The signals of the controller, in order; each is handled before the next. *)
Definition on_signals `{QtFormat} (cell_peer : bool) (l : list Signal) (w : Window) : Window * list UiCall :=
  refresh (concat (map (on_signal cell_peer) l)) w.

(** The window before the first signal: the controls that start greyed out. *)
Definition initial_window : Window :=
  fst (refresh ([SetEnabled "cancel_health_" false; SetEnabled "drive_disable_" false; SetEnabled "home_actuator_" false;
    SetEnabled "start_actuator_" false; SetEnabled "normal_stop_actuator_" false; SetEnabled "quick_stop_actuator_" false;
    SetEnabled "jog_negative_" false; SetEnabled "jog_positive_" false; SetEnabled "reset_actuator_fault_" false;
    SetEnabled "actuator_velocity_input_" false; SetEnabled "jog_velocity_input_" false;
    SetEnabled (at_channel "modbus_do_requests_" 0) false; SetText "actuator_state_" "DISABLED"])
    (mkWindow ∅ ∅ ∅ ∅)).

(** ** What a refresh leaves *)

(** The last value a list of setters gives a widget. *)
Definition text_set (name : string) (s : Setter) : option string :=
  match s with SetText n t => if (n =? name)%string then Some t else None | _ => None end.
Definition enabled_set (name : string) (s : Setter) : option bool :=
  match s with SetEnabled n b => if (n =? name)%string then Some b else None | _ => None end.

Fixpoint last_set {A} (f : Setter → option A) (l : list Setter) : option A :=
  match l with
  | [] => None
  | s :: l => match last_set f l with Some v => Some v | None => f s end
  end.

Lemma last_set_app {A} (f : Setter → option A) l1 l2 :
  last_set f (l1 ++ l2) = match last_set f l2 with Some v => Some v | None => last_set f l1 end.
Proof.
  induction l1 as [|s l1 IH]; cbn; [by destruct (last_set f l2)|]. rewrite IH. by destruct (last_set f l2).
Qed.

Lemma refresh_app l1 l2 w :
  fst (refresh (l1 ++ l2) w) = fst (refresh l2 (fst (refresh l1 w))).
Proof.
  revert w. induction l1 as [|s l1 IH]; intros w; [done|]. cbn. destruct (apply_setter w s) as [w1 c1].
  specialize (IH w1). destruct (refresh (l1 ++ l2) w1), (refresh l1 w1). cbn in *. done.
Qed.

Lemma refresh_text name l : ∀ w,
  win_text (fst (refresh l w)) !! name =
  match last_set (text_set name) l with Some t => Some t | None => win_text w !! name end.
Proof.
  induction l as [|s l IH]; intros w; [done|]. cbn [refresh last_set]. destruct (apply_setter w s) as [w1 c1] eqn:Hs.
  specialize (IH w1). destruct (refresh l w1) as [w2 c2]. cbn [fst] in *. rewrite IH.
  destruct (last_set (text_set name) l); [done|].
  destruct s as [n t|n b|b n c|n r]; cbn in Hs; simplify_eq; cbn; try done.
  destruct (String.eqb_spec n name) as [->|Hn]; [by rewrite lookup_insert_eq|by rewrite lookup_insert_ne].
Qed.

Lemma refresh_enabled name l : ∀ w,
  is_enabled (fst (refresh l w)) name =
  match last_set (enabled_set name) l with Some b => b | None => is_enabled w name end.
Proof.
  unfold is_enabled. induction l as [|s l IH]; intros w; [done|]. cbn [refresh last_set].
  destruct (apply_setter w s) as [w1 c1] eqn:Hs.
  specialize (IH w1). destruct (refresh l w1) as [w2 c2]. cbn [fst] in *. rewrite IH.
  destruct (last_set (enabled_set name) l); [done|].
  destruct s as [n t|n b|b n c|n r]; cbn in Hs; simplify_eq; cbn; try done.
  destruct (String.eqb_spec n name) as [->|Hn]; [by rewrite lookup_insert_eq|by rewrite lookup_insert_ne].
Qed.

(** *** Refreshing asks for nothing *)

(** A setter that cannot signal. *)
Definition quiet (s : Setter) : bool := match s with SetChecked blocked _ _ => blocked | _ => true end.

Lemma quiet_refresh l : ∀ w, forallb quiet l = true → snd (refresh l w) = [].
Proof.
  induction l as [|s l IH]; intros w Hq; [done|]. cbn in Hq. apply andb_true_iff in Hq as [Hs Hq]. cbn [refresh].
  destruct (apply_setter w s) as [w1 c1] eqn:Ha. specialize (IH w1 Hq). destruct (refresh l w1) as [w2 c2]. cbn [snd] in *. subst.
  destruct s as [n t|n b|b n c|n r]; cbn in *; simplify_eq; done.
Qed.

Lemma on_signal_quiet `{QtFormat} cell_peer s : forallb quiet (on_signal cell_peer s) = true.
Proof.
  destruct s as [t| | | | | |s| | | | | | | |]; try done; cbn [on_signal].
  - by destruct cell_peer.
  - unfold update_modbus. destruct (negb _ && negb _), cell_peer; done.
Qed.

Lemma on_signals_quiet `{QtFormat} cell_peer l : forallb quiet (concat (map (on_signal cell_peer) l)) = true.
Proof.
  induction l as [|s l IH]; [done|]. cbn. rewrite forallb_app, IH, andb_true_r. apply on_signal_quiet.
Qed.

(** *** The outputs *)

Definition is_modbus_view (s : Signal) : bool := match s with ModbusSnapshotReady _ => true | _ => false end.

(** The labels of the outputs belong to the Modbus view, but for DO0 with a cell peer. *)
Definition output_labels (channel : nat) : list string :=
  [at_channel "modbus_do_requested_" channel; at_channel "modbus_do_confirmed_" channel;
   at_channel "modbus_do_status_" channel].
Definition output_controls (channel : nat) : list string := [at_channel "modbus_do_requests_" channel; "modbus_all_off_"%string].

Lemma channel_cases channel : (channel < kModbusIoChannelCount)%nat → channel = 0%nat ∨ channel = 1%nat ∨ channel = 2%nat ∨ channel = 3%nat.
Proof. unfold kModbusIoChannelCount. lia. Qed.

Lemma other_signals_keep `{QtFormat} cell_peer channel s name :
  (channel < kModbusIoChannelCount)%nat → is_modbus_view s = false → cell_peer && (channel =? 0)%nat = false →
  (name ∈ output_labels channel → last_set (text_set name) (on_signal cell_peer s) = None) ∧
  (name ∈ output_controls channel → last_set (enabled_set name) (on_signal cell_peer s) = None).
Proof.
  intros Hc Hs Hp. apply channel_cases in Hc.
  split; intros Hn; repeat (apply elem_of_cons in Hn as [->|Hn]); try (by apply elem_of_nil in Hn);
    destruct Hc as [->|[->|[->| ->]]], cell_peer; cbn in Hp; try done; destruct s; try done.
Qed.

Lemma modbus_view_texts cell_peer channel s :
  (channel < kModbusIoChannelCount)%nat → cell_peer && (channel =? 0)%nat = false →
  let o := output_at channel s in
  last_set (text_set (at_channel "modbus_do_requested_" channel)) (update_modbus cell_peer s) = Some (on_off (do_requested o)) ∧
  last_set (text_set (at_channel "modbus_do_confirmed_" channel)) (update_modbus cell_peer s) = Some (on_off (do_confirmed o)) ∧
  last_set (enabled_set (at_channel "modbus_do_requests_" channel)) (update_modbus cell_peer s) =
    Some (negb (channel =? 0)%nat && outputs_live s) ∧
  last_set (enabled_set "modbus_all_off_") (update_modbus cell_peer s) = Some (outputs_live s).
Proof.
  intros Hc Hp. apply channel_cases in Hc. unfold update_modbus. cbv zeta.
  destruct Hc as [->|[->|[->| ->]]], cell_peer; cbn in Hp; try done; destruct (negb _ && negb _); by split_and!.
Qed.

Lemma signals_keep `{QtFormat} cell_peer channel l name :
  (channel < kModbusIoChannelCount)%nat → Forall (λ s, is_modbus_view s = false) l → cell_peer && (channel =? 0)%nat = false →
  (name ∈ output_labels channel → last_set (text_set name) (concat (map (on_signal cell_peer) l)) = None) ∧
  (name ∈ output_controls channel → last_set (enabled_set name) (concat (map (on_signal cell_peer) l)) = None).
Proof.
  intros Hc Hl Hp. induction Hl as [|s l Hs Hl [IH1 IH2]]; [done|]. cbn [map concat]. rewrite !last_set_app.
  destruct (other_signals_keep cell_peer channel s name Hc Hs Hp) as [H1 H2].
  split; intros Hn; [rewrite IH1 by done; by apply H1|rewrite IH2 by done; by apply H2].
Qed.

(** The window is a view: whatever the controller signals, and whatever the window showed
    before, handling the signals makes no call back into the controller, although it sets the
    marks of boxes whose changes are connected to commands; and afterwards the labels and
    controls of an output are those of the last Modbus snapshot: requested and confirmed
    state, boxes offered only while outputs can be written, DO0's never. *)
Theorem window_is_a_view `{QtFormat} cell_peer before s after w channel :
  (channel < kModbusIoChannelCount)%nat → Forall (λ x, is_modbus_view x = false) after →
  cell_peer && (channel =? 0)%nat = false →
  let '(w', calls) := on_signals cell_peer (before ++ ModbusSnapshotReady s :: after) w in
  let o := output_at channel s in
  calls = [] ∧
  win_text w' !! at_channel "modbus_do_requested_" channel = Some (on_off (do_requested o)) ∧
  win_text w' !! at_channel "modbus_do_confirmed_" channel = Some (on_off (do_confirmed o)) ∧
  is_enabled w' (at_channel "modbus_do_requests_" channel) = negb (channel =? 0)%nat && outputs_live s ∧
  is_enabled w' "modbus_all_off_" = outputs_live s.
Proof.
  intros Hc Ha Hp. unfold on_signals.
  pose proof (quiet_refresh _ w (on_signals_quiet cell_peer (before ++ ModbusSnapshotReady s :: after))) as Hq.
  rewrite map_app, concat_app in *. cbn [map concat on_signal] in *.
  set (l := _ ++ _) in *.
  destruct (modbus_view_texts cell_peer channel s Hc Hp) as (H1 & H2 & H3 & H4).
  assert (Hlt : ∀ name, name ∈ output_labels channel →
    last_set (text_set name) l = match last_set (text_set name) (update_modbus cell_peer s) with Some v => Some v
      | None => last_set (text_set name) (concat (map (on_signal cell_peer) before)) end).
  { intros name Hn. subst l. rewrite !last_set_app. by rewrite (proj1 (signals_keep cell_peer channel after name Hc Ha Hp) Hn). }
  assert (Hle : ∀ name, name ∈ output_controls channel →
    last_set (enabled_set name) l = match last_set (enabled_set name) (update_modbus cell_peer s) with Some v => Some v
      | None => last_set (enabled_set name) (concat (map (on_signal cell_peer) before)) end).
  { intros name Hn. subst l. rewrite !last_set_app. by rewrite (proj2 (signals_keep cell_peer channel after name Hc Ha Hp) Hn). }
  clearbody l.
  destruct (refresh l w) as [w' calls] eqn:Hr. cbn [snd] in Hq.
  assert (Hw : w' = fst (refresh l w)) by (by rewrite Hr). rewrite Hw. cbv zeta.
  split; [done|]. rewrite !refresh_text, !refresh_enabled.
  rewrite (Hlt (at_channel "modbus_do_requested_" channel)), (Hlt (at_channel "modbus_do_confirmed_" channel)) by (unfold output_labels; set_solver).
  rewrite (Hle (at_channel "modbus_do_requests_" channel)), (Hle "modbus_all_off_"%string) by (unfold output_controls; set_solver).
  by rewrite H1, H2, H3, H4.
Qed.

(** *** The actuator's buttons *)

Definition actuator_names : list string :=
  ["drive_enable_"; "drive_disable_"; "home_actuator_"; "start_actuator_"; "jog_negative_"; "jog_positive_";
   "normal_stop_actuator_"; "quick_stop_actuator_"; "reset_actuator_fault_"]%string.

Lemma actuator_button `{QtFormat} cell_peer s w :
  Forall (λ name, is_enabled (fst (on_signals cell_peer [ActuatorSnapshotReady s] w)) name =
                  default true (last_set (enabled_set name) (actuator_buttons (as_state s)))) actuator_names.
Proof.
  unfold on_signals. cbn [map concat on_signal]. rewrite app_nil_r.
  unfold actuator_names. repeat (apply Forall_cons_2; [rewrite refresh_enabled; reflexivity|]). apply Forall_nil_2.
Qed.

Lemma accept_accepted from message token a : MockActuator.reply_accepted (fst (accept from message token a)) = true.
Proof. done. Qed.
Lemma reject_accepted status from message a :
  MockActuator.reply_accepted (fst (actuator_reject status from message a)) = (status ==? CommandStatus.Accepted).
Proof. done. Qed.
Lemma if_accepts (b : bool) (r1 r2 : ActuatorCommandReply * MockActuatorProfile) :
  MockActuator.reply_accepted (fst (if b then r1 else r2)) =
  if b then MockActuator.reply_accepted (fst r1) else MockActuator.reply_accepted (fst r2).
Proof. by destruct b. Qed.

(** C36.  The buttons and the actuator agree, in every state the actuator can reach: Drive
    Enable, Home, Normal Stop and Quick Stop are offered exactly when the actuator accepts
    them; Drive Disable is offered exactly while the drive is enabled, and is accepted exactly
    when it is offered or the actuator is in FAULT, where it leaves the drive off; Reset,
    Start and Jog are offered whenever they would be accepted. *)
Theorem buttons_match_actuator `{QtFormat} cell_peer c ops w :
  configuration_valid c = true → Z.of_nat (length ops) < 2 ^ 64 →
  let a := actuator_run ops (actuator_new c) in
  let offered := is_enabled (fst (on_signals cell_peer [ActuatorSnapshotReady (ma_snapshot a)] w)) in
  let accepts r := MockActuator.reply_accepted (fst r) in
  offered "drive_enable_" = accepts (drive_enable a) ∧ offered "home_actuator_" = accepts (home a) ∧
  offered "normal_stop_actuator_" = accepts (normal_stop a) ∧ offered "quick_stop_actuator_" = accepts (quick_stop a) ∧
  offered "drive_disable_" = as_drive_enabled (ma_snapshot a) ∧
  accepts (drive_disable a) = offered "drive_disable_" || (as_state (ma_snapshot a) ==? AState.Fault) ∧
  (as_state (ma_snapshot a) = AState.Fault → as_drive_enabled (ma_snapshot (snd (drive_disable a))) = false) ∧
  (accepts (reset_fault a) = true → offered "reset_actuator_fault_" = true) ∧
  (∀ v, accepts (start_velocity v a) = true → offered "start_actuator_" = true) ∧
  (∀ d v, accepts (jog_press d v a) = true → offered "jog_negative_" = true ∧ offered "jog_positive_" = true).
Proof.
  intros Hv Hn a offered accepts. pose proof (reachable_inv c ops Hn) as (_ & Hcf & Hvalid & _ & Hs). fold a in Hcf, Hvalid, Hs.
  pose proof (actuator_button cell_peer (ma_snapshot a) w) as Hoff. fold offered in Hoff. clearbody offered a.
  unfold actuator_names in Hoff. rewrite !Forall_cons in Hoff. destruct Hoff as (-> & -> & -> & -> & -> & -> & -> & -> & -> & _).
  assert (Hfault : as_state (ma_snapshot a) = AState.Fault → as_drive_enabled (ma_snapshot (snd (drive_disable a))) = false).
  { intros Hf. unfold drive_disable. by rewrite Hf. }
  subst accepts. cbv beta.
  unfold state_inv in Hs. cbv zeta in Hs. rewrite Hv in Hcf.
  unfold drive_enable, home, normal_stop, quick_stop, drive_disable, reset_fault, start_velocity, jog_press, ready_to_move.
  cbv zeta. unfold drive_disable in Hfault. cbv zeta in Hfault. rewrite Hcf. clear Hvalid Hn Hcf.
  repeat setoid_rewrite if_accepts. repeat setoid_rewrite accept_accepted. repeat setoid_rewrite reject_accepted.
  assert (Hd : as_drive_enabled (ma_snapshot a) =
    negb (as_state (ma_snapshot a) ==? AState.Disabled) && negb (as_state (ma_snapshot a) ==? AState.Fault))
    by (destruct (as_state (ma_snapshot a)); cbn; tauto).
  rewrite Hd. clear Hd Hs. revert Hfault. generalize (as_state (ma_snapshot a)). intros state Hfault.
  split_and!; [by destruct state|by destruct state|by destruct state|by destruct state|by destruct state| |exact Hfault| |intros v|intros d v].
  - clear Hfault. generalize (dlt (ac_stopped_velocity_epsilon_rad_s (ma_config (next_generation a)))
                  (dabs (as_actual_velocity_rad_s (ma_snapshot (next_generation a))))).
    intros moving. by destruct state, moving.
  - generalize (ma_persistent_blocker a).
    generalize (dlt (ac_stopped_velocity_epsilon_rad_s (ma_config a)) (dabs (as_actual_velocity_rad_s (ma_snapshot a)))).
    intros moving blocker. by destruct state, moving, blocker.
  - destruct (_ || dlt _ _); [discriminate|]. generalize (as_homed (ma_snapshot a)). intros homed.
    destruct (_ || _ && at_limit false a); by destruct state, homed.
  - destruct (_ || dlt _ _); [discriminate|]. generalize (as_homed (ma_snapshot a)). intros homed.
    destruct (at_limit _ a); by destruct state, homed.
Qed.

(** Before the first snapshot the buttons are those of a disabled actuator. *)
Theorem initial_buttons `{QtFormat} cell_peer s :
  as_state s = AState.Disabled →
  Forall (λ name, is_enabled initial_window name =
                  is_enabled (fst (on_signals cell_peer [ActuatorSnapshotReady s] initial_window)) name) actuator_names.
Proof.
  intros Hs. pose proof (actuator_button cell_peer s initial_window) as Hb. rewrite Hs in Hb.
  unfold actuator_names in *. rewrite !Forall_cons in *. destruct Hb as (-> & -> & -> & -> & -> & -> & -> & -> & -> & _).
  split_and!; [reflexivity..|apply Forall_nil_2].
Qed.

Definition demo_format : QtFormat := {| fixed3 := λ _, "0.000"%string |}.

Lemma buttons_match_actuator_witness :
  let a := actuator_run [OpEnable; OpHome] (actuator_new default_actuator_config) in
  is_enabled (fst (@on_signals demo_format false [ActuatorSnapshotReady (ma_snapshot a)] initial_window)) "normal_stop_actuator_"
  = MockActuator.reply_accepted (fst (normal_stop a)).
Proof.
  destruct (@buttons_match_actuator demo_format false default_actuator_config [OpEnable; OpHome] initial_window) as (_ & _ & Hn & _).
  - vm_compute. reflexivity.
  - vm_compute. reflexivity.
  - exact Hn.
Defined.

Lemma window_is_a_view_witness :
  let '(w, calls) := @on_signals demo_format true
    ([] ++ ModbusSnapshotReady default_io_snapshot :: [HealthStarted]) initial_window in
  calls = [] ∧ is_enabled w "modbus_all_off_" = outputs_live default_io_snapshot.
Proof.
  pose proof (@window_is_a_view demo_format true [] default_io_snapshot [HealthStarted] initial_window 1
    ltac:(unfold kModbusIoChannelCount; lia) ltac:(repeat constructor) eq_refl) as Hv.
  destruct (@on_signals demo_format true _ initial_window) as [w calls]. by destruct Hv as (Hc & _ & _ & _ & Ha).
Defined.
